(* ===== verification/_CoqProject ===== *)
-Q . S2P
Prelude.v
CStrings.v
Disk.v
Blocks.v
Bio.v
Log.v
Journal.v
Storage.v
Fs.v
FsBlocks.v
FsFiles.v
FsInodes.v
FsDirs.v
FsSpec.v
Frames.v
Kalloc.v
Vm.v
VmSpec.v
VmUser.v
VmCopy.v
VmClaims.v
Spinlock.v
Ptable.v
PtableInv.v
PtableClaims.v
Pipe.v
PipeSpec.v
File.v
Proc.v
ProcSteps.v
Syscall.v
Sysfile.v
Exec.v
Trap.v
SyscallSpec.v
ExecSpec.v
FileSpec.v
FileClaims.v
ForkSpec.v
Grep.v
Sh.v
ShSpec.v
ShRun.v
ShPlan.v
ShJobs.v
Umalloc.v
UmallocSpec.v
UmallocClaims.v
LinkedList.v
Tail.v
UserProgs.v
Printf.v
Console.v
Ide.v
IdeSpec.v
Kbd.v
Mp.v
Mkfs.v
MkfsFiles.v
MkfsAppend.v
MkfsImage.v
MkfsSpec.v
Boot.v
Clock.v
Interrupts.v
X86.v
Segments.v
Entry.v
Sumto.v
Guess.v
Prog.v
Utils.v
UtilsSpec.v
UserTests.v
Userland.v
UserlandSpec.v
Startup.v
Timer.v
