(* ===== verification/Prelude.v ===== *)
(** * A verification development for the xv6 kernel of this repository

    The repository holds three pieces of course work; by far the largest is
    HW3, the xv6 teaching operating system for the x86 with a changed
    scheduler and a new system call [wait_stat].  This library models the
    kernel of HW3 from the block device up to the system calls, its user
    programs and most of its tests, and proves what makes its parts correct.
    The parts are also put together: the modelled system boots from the image
    the modelled mkfs builds and runs the tests.

    ** How the kernel is modelled

    C integers are [Z] with their wrap-around written out ([u8], [u16], [u32],
    [s16], [s32] below); memory is a function from addresses to bytes
    ([mem]), and structures that the C code overlays on memory (page tables,
    pipes, trap frames, free pages) are read and written there, at their
    offsets.  A routine is a function in the monad [M S A]: from a state it
    gives [Ok] with a result, [Panic] where the code calls [panic], [Sleep]
    where it blocks, [Undef] where C gives no meaning (a null pointer read,
    signed overflow, an uninitialised variable), or [Diverge].  Loops that are
    not structural have a fuel argument that the code's own bound gives
    (bytes left, pages left, entries of a table); each such loop comes with a
    lemma that the fuel is enough, so [Diverge] is only reached where the loop
    in C does not end.

    A section under a spin lock is one step.  That is justified by [Spinlock],
    where [acquire] and [release] are modelled instruction by instruction on
    any number of CPUs.  Interleaving is modelled where the code depends on
    it: crashes between block writes ([Log], [Storage]), sections of the
    process table by any CPU in any order ([Ptable]), readers and writers of
    a pipe ([PipeSpec]).  In the other whole routines a [Sleep] ends the
    run and is not resumed.

    ** The parts

    Components meet at interfaces, type classes whose laws the client uses
    and the implementation proves:

    - [Prelude]: integers, bytes, memory, the monad and its lemmas.
    - [CStrings]: string.c and the routines of ulib.c on memory; [memmove]
      under overlap, [memset]'s two paths, [strncpy] with [strncmp],
      [safestrcpy].
    - [Disk]: the driver contract [BlockDriver] and memide.c, which keeps it.
      [Blocks]: a 512-byte block with its integers.
    - [Bio]: bio.c, the ring of buffers, over any driver.  It behaves as an
      array of blocks ([cache_refines_block_store]) and recycles the least
      recently used buffer.
    - [Log]: log.c over any block cache; [Journal]: what the file system
      uses of it; [Storage]: recovery.  Whatever prefix of the block writes
      reaches the disk, booting brings it to a committed state
      ([crash_atomic], [header_write_commits]); admission, and how three
      admitted calls overflow the log.
    - [Fs]: all of fs.c over any journal; [FsBlocks], [FsFiles], [FsInodes],
      [FsDirs] and [FsSpec] show that the bitmap, [bmap], reading and writing,
      inodes, directories and paths do what their callers rely on.
    - [Frames], [Kalloc]: the frame allocator contract and kalloc.c, whose
      free list lies in the free pages.  [Vm]: vm.c over any frame allocator;
      [VmSpec], [VmUser], [VmCopy], [VmClaims]: [setupkvm] builds the table
      [kmap] describes, [allocuvm], [deallocuvm], [freevm] neither leak nor
      share frames, [copyuvm] isolates parent and child, [copyout] writes
      user bytes only.
    - [Spinlock]: spinlock.c; mutual exclusion, the count [ncli], exactly when
      [acquire] and [release] panic, and the lock order of [kill] against that
      of the timer interrupt.
    - [Ptable]: the sections of proc.c under [ptable.lock] with the step
      relation [pstep]; [PtableInv], [PtableClaims]: its invariant by rule
      induction, no lost wakeup in [wait], no starvation by the scheduler, the
      accounting of ticks, and that creation times play no role.
    - [Pipe], [PipeSpec]: pipe.c; a bounded queue, and no lost wakeup but the
      one of a killed writer.
    - [File]: file.c and [pipealloc]; [Proc]: fork, exit, wait, wait_stat,
      growproc, userinit whole; [ProcSteps]: they change the process table
      only by its steps.
    - [Syscall]: syscall.c's argument functions through the page table of the
      caller and sysproc.c; [Sysfile]: sysfile.c; [Exec]: exec.c and
      [loaduvm]; [Trap]: the dispatch of system calls, and traps.
      [SyscallSpec]: system calls reach only the memory of their process.
      [FileSpec], [FileClaims]: every system call keeps the reference counts
      of open files equal to the number of descriptors.  [ForkSpec]: [fork]
      makes a copy of its caller, memory, descriptors and trap frame.
      [ExecSpec]: [exec] gives a program its arguments on a guarded stack.
    - [Sh], [ShSpec]: the parser of sh.c, on positions of the command line; it
      ends, decides an inductively given grammar of command lines, and
      terminates every word in place without damage to another.
    - [ShRun]: runcmd and main of sh.c as trees of system calls, run by
      processes in any order over tables of descriptors; [ShPlan]: they start
      the programs the command lines ask for, with the right descriptors, and
      leave no pipe end open; [ShJobs]: every run ends, and the shell waits for
      its commands unless they are in the background.
    - [Grep]: grep.c; the matcher decides the language of its pattern, and
      the loop over the buffer prints the lines that match.
    - [Umalloc], [UmallocSpec], [UmallocClaims]: umalloc.c over byte memory,
      the kernel's [sbrk] a parameter with its contract; the heap as a row of
      blocks, blocks that programs hold stay apart, and freed blocks join.
    - [LinkedList]: HW2/linkedList.c over a heap of nodes; [Tail]:
      HW1/tail.c; [UserProgs]: wc, cat, echo, the names of ls.
    - [Printf]: printf of user programs and cprintf of the kernel.
    - [Console]: the line editor of console.c over its ring of characters,
      and the display; [Kbd]: kbd.c with its tables, from the keys of a
      keyboard over scan codes to lines.
    - [Ide]: ide.c over any controller that keeps the laws of
      [ControllerOk]; [IdeSpec]: it serves requests in order, each after a
      bounded number of interrupts, and keeps the contract of [BlockDriverOk].
    - [Mkfs]: mkfs.c; [MkfsFiles], [MkfsAppend], [MkfsImage]: the files of an
      image under construction and what the operations of mkfs.c do to them;
      [MkfsSpec]: the finished image is a file system in the sense of [FsFiles]
      and [FsDirs], with the files copied.
    - [Boot]: bootmain.c over a polled disk; it loads the kernel as its headers
      ask.
    - [Clock]: cmostime of lapic.c against a clock that goes on; [Interrupts]:
      picirq.c, ioapic.c, the rest of lapic.c and uart.c, each over a chip given
      by laws: what is asked for gets through, and the serial line loses
      nothing.
    - [Mp]: mp.c, the tables of processors the BIOS leaves in memory.

    - [X86]: the part of the processor's documented behaviour that the next
      files rest on: segment registers and descriptors, the stack, gates,
      [int] and [iret].  [Segments]: seginit, switchuvm, switchkvm, tvinit and
      idtinit, which write the descriptor tables bit by bit; user code enters
      the kernel only through its gates.  [Entry]: vectors.pl, trapasm.S and
      swtch.S; a trap saves and restores the whole state of the process, and
      [swtch] that of a kernel thread.
    - [Startup]: bootasm.S, entry.S and entryother.S, from real mode over
      protected mode to paging, with [entrypgdir] and the words [startothers]
      leaves for a processor; the boot processor gets to [bootmain] and to
      [main], the others to [mpenter].  [Timer]: timer.c.
    - [Sumto]: sumto.c with its assembly routine; [Guess]: the boot sector
      programs of HW2 over a BIOS given by laws.
    - [Prog]: user programs as trees of system calls, and their meaning in any
      environment that answers the calls; [Utils]: cat, wc, grep, echo, ls,
      rm, mkdir, ln, kill, zombie, init, forktest, stressfs and sanity whole;
      [UtilsSpec]: what cat, wc and grep write, and that rm and mkdir stop at
      the first error; [UserTests]: the tests of usertests.c.
    - [Userland]: the kernel with the programs of its processes, run by the
      scheduler in time slices; [UserlandSpec]: its [fork] and [wait] are those
      of [Proc] with the memory left out.

    The theorem statements carry their claim numbers; each with hypotheses is
    followed by a witness that applies it to a concrete state.

    ** Bounds

    Sizes are those of param.h, fs.h and mmu.h.  Theorems about memory ask
    for enough free frames where they say that an operation succeeds, and for
    user sizes below [KERNBASE].  The file system theorems hold for any disk
    image whose superblock and bitmap describe it.

    ** Not modelled

    initcode.S and usys.S (one system call each), the order of the calls in
    [main] and the loop of [startothers] (main.c), and the printing of
    [procdump].  In whole routines that do not resume a sleeper ([Bio], [Log],
    [Fs]) the wakeups at the end of [brelse], [iunlock] and [end_op] have
    nobody to wake and are left out; so are the checks of [sched] and [sleep]
    on locks and interrupts, which [Ptable] takes as given.  Paging as the processor does it is part of [Startup] only;
    the memory of [X86] is the linear address space, and [Vm] reads page
    tables itself.
    Of usertests.c the tests that look at the memory of their own process are
    left out, as processes of [Userland] have none.  In [Prog] a loop that
    ends only when the system says so has a bound on its rounds, after which
    the program computes for ever; the theorems give a bound that is enough. *)

From stdpp Require Import base numbers list gmap strings.
From Stdlib Require Import ZArith Lia.

Open Scope Z_scope.

(** ** Machine integers

    A C [uchar], [ushort] or [uint] is a [Z] kept in range by its wrap-around;
    a C [int] is the two's complement reading of the same 32 bits. *)

Definition u8 (z : Z) : Z := z `mod` 2 ^ 8.
Definition u16 (z : Z) : Z := z `mod` 2 ^ 16.
Definition u32 (z : Z) : Z := z `mod` 2 ^ 32.

Definition s16 (z : Z) : Z :=
  let w := u16 z in if w <? 2 ^ 15 then w else w - 2 ^ 16.
Definition s32 (z : Z) : Z :=
  let w := u32 z in if w <? 2 ^ 31 then w else w - 2 ^ 32.

Lemma u8_range z : 0 <= u8 z < 256.
Proof. apply Z.mod_pos_bound; lia. Qed.

Lemma u16_range z : 0 <= u16 z < 65536.
Proof. apply Z.mod_pos_bound; lia. Qed.

Lemma u32_range z : 0 <= u32 z < 4294967296.
Proof. apply Z.mod_pos_bound; lia. Qed.

Lemma u8_small z : 0 <= z < 256 -> u8 z = z.
Proof. intros; apply Z.mod_small; lia. Qed.

Lemma u32_small z : 0 <= z < 4294967296 -> u32 z = z.
Proof. intros; apply Z.mod_small; lia. Qed.

Lemma u16_small z : 0 <= z < 65536 -> u16 z = z.
Proof. intros; apply Z.mod_small; lia. Qed.

Lemma s32_small z : - 2147483648 <= z < 2147483648 -> s32 z = z.
Proof.
  intros H. unfold s32, u32. change (2 ^ 32) with 4294967296. change (2 ^ 31) with 2147483648.
  destruct (Z.ltb_spec (z `mod` 4294967296) 2147483648) as [Hlt|Hge];
    pose proof (Z.mod_pos_bound z 4294967296 ltac:(lia));
    pose proof (Z.div_mod z 4294967296 ltac:(lia));
    nia.
Qed.

Lemma s32_range z : - 2147483648 <= s32 z < 2147483648.
Proof.
  unfold s32. pose proof (u32_range z). change (2 ^ 31) with 2147483648.
  change (2 ^ 32) with 4294967296.
  destruct (Z.ltb_spec (u32 z) 2147483648); lia.
Qed.

Create HintDb xv6.
#[export] Hint Resolve u8_range u16_range u32_range s32_range : xv6.
#[export] Hint Rewrite u8_small u16_small u32_small s32_small using lia : xv6.

(** Bits that do not overlap add up: how the masks, the packed words and the
    page-table entries of the source are read. *)
Lemma land_shiftl_low a b k :
  0 <= k -> 0 <= b < 2 ^ k -> Z.land (Z.shiftl a k) b = 0.
Proof.
  intros Hk Hb. apply Z.bits_inj'. intros i Hi.
  rewrite Z.land_spec, Z.bits_0. destruct (decide (i < k)).
  - by rewrite Z.shiftl_spec_low by lia.
  - rewrite <- (Z.mod_small b (2 ^ k)) by lia.
    rewrite Z.mod_pow2_bits_high by lia. apply andb_false_r.
Qed.

Lemma lor_shiftl_add a b k :
  0 <= k -> 0 <= b < 2 ^ k -> Z.lor (Z.shiftl a k) b = a * 2 ^ k + b.
Proof.
  intros Hk Hb. rewrite <- Z.shiftl_mul_pow2 by lia.
  pose proof (land_shiftl_low a b k Hk Hb) as H0.
  by rewrite Z.add_nocarry_lxor, Z.lxor_lor.
Qed.

(** Flag words: [has f m] is the C test [f & m] of a condition. *)
Definition has (f m : Z) : bool := negb (Z.land f m =? 0).

Lemma has_lor f a m : has (Z.lor f a) m = has f m || has a m.
Proof.
  unfold has. rewrite Z.land_lor_distr_l.
  destruct (Z.eqb_spec (Z.lor (Z.land f m) (Z.land a m)) 0) as [E|E].
  - apply Z.lor_eq_0_iff in E as [-> ->]. done.
  - rewrite Z.lor_eq_0_iff in E.
    destruct (Z.eqb_spec (Z.land f m) 0), (Z.eqb_spec (Z.land a m) 0); tauto.
Qed.

Lemma has_clear_other f a m : Z.land a m = 0 -> has (Z.land f (Z.lnot a)) m = has f m.
Proof.
  intros H. unfold has. do 2 f_equal. apply Z.bits_inj'. intros i Hi.
  assert (Hb := f_equal (fun z => Z.testbit z i) H). cbn beta in Hb.
  rewrite Z.land_spec, Z.bits_0 in Hb.
  rewrite !Z.land_spec, Z.lnot_spec by lia.
  destruct (Z.testbit f i), (Z.testbit a i), (Z.testbit m i); done.
Qed.

Lemma has_clear_same f a : has (Z.land f (Z.lnot a)) a = false.
Proof.
  unfold has. rewrite <- Z.land_assoc, (Z.land_comm (Z.lnot a)), Z.land_lnot_diag.
  by rewrite Z.land_0_r.
Qed.

(** ** Byte memory

    The kernel and the user library address memory through [char*]: a memory
    gives the byte at every address.  C leaves an object that wraps around the
    end of the address space undefined, so addresses are plain integers. *)

Definition mem := Z -> Z.

Definition upd (m : mem) (a v : Z) : mem := fun x => if x =? a then v else m x.

Lemma upd_eq m a v : upd m a v a = v.
Proof. unfold upd. by rewrite Z.eqb_refl. Qed.

Lemma upd_ne m a v x : x <> a -> upd m a v x = m x.
Proof. intros H. unfold upd. by rewrite (proj2 (Z.eqb_neq x a) H). Qed.

(** Update of a total map on integers (block contents, tables by address). *)
Definition zset {A} (f : Z -> A) (k : Z) (v : A) : Z -> A :=
  fun x => if x =? k then v else f x.

Lemma zset_eq {A} (f : Z -> A) k v : zset f k v k = v.
Proof. unfold zset. by rewrite Z.eqb_refl. Qed.

Lemma zset_ne {A} (f : Z -> A) k v x : x <> k -> zset f k v x = f x.
Proof. intros H. unfold zset. by rewrite (proj2 (Z.eqb_neq x k) H). Qed.

(** [n] bytes from [dst] set to [c], and [n] bytes copied from [src]: what the
    loops of string.c are shown to compute. *)
Definition mset (m : mem) (dst c n : Z) : mem :=
  fun x => if (dst <=? x) && (x <? dst + n) then c else m x.

Definition mcopy (m : mem) (dst src n : Z) : mem :=
  fun x => if (dst <=? x) && (x <? dst + n) then m (src + (x - dst)) else m x.

(** Pointwise equality of memories, the equivalence the string routines are
    compared up to. *)
Definition meq (m1 m2 : mem) : Prop := forall x, m1 x = m2 x.

#[export] Instance meq_equiv : Equivalence meq.
Proof. split; [by intros m x | by intros m1 m2 H x | by intros m1 m2 m3 H1 H2 x; rewrite H1]. Qed.

#[export] Instance upd_proper : Proper (meq ==> eq ==> eq ==> meq) upd.
Proof. intros m1 m2 H a ? <- v ? <- x. unfold upd. by destruct (x =? a). Qed.

#[export] Instance mset_proper : Proper (meq ==> eq ==> eq ==> eq ==> meq) mset.
Proof.
  intros m1 m2 H a ? <- v ? <- n ? <- x. unfold mset.
  by destruct ((a <=? x) && (x <? a + n)).
Qed.

(** Case analysis on every integer comparison and update of the goal. *)
Ltac zcases :=
  repeat match goal with
  | |- context [?a =? ?b] => destruct (Z.eqb_spec a b)
  | |- context [?a <=? ?b] => destruct (Z.leb_spec a b)
  | |- context [?a <? ?b] => destruct (Z.ltb_spec a b)
  | |- context [?a >? ?b] => rewrite (Z.gtb_ltb a b)
  | |- context [?a >=? ?b] => rewrite (Z.geb_leb a b)
  end; cbn [andb orb negb].

(** Decide the comparisons of the goal that [lia] can decide. *)
Ltac zdec :=
  repeat match goal with
  | |- context [?a >? ?b] => rewrite (Z.gtb_ltb a b)
  | |- context [?a >=? ?b] => rewrite (Z.geb_leb a b)
  | |- context [?a =? ?b] => first [rewrite (proj2 (Z.eqb_eq a b)) by lia | rewrite (proj2 (Z.eqb_neq a b)) by lia]
  | |- context [?a <=? ?b] => first [rewrite (proj2 (Z.leb_le a b)) by lia | rewrite (proj2 (Z.leb_gt a b)) by lia]
  | |- context [?a <? ?b] => first [rewrite (proj2 (Z.ltb_lt a b)) by lia | rewrite (proj2 (Z.ltb_ge a b)) by lia]
  end; cbn [andb orb negb].

Ltac zcases_in H :=
  repeat match type of H with
  | context [?a =? ?b] => destruct (Z.eqb_spec a b)
  | context [?a <=? ?b] => destruct (Z.leb_spec a b)
  | context [?a <? ?b] => destruct (Z.ltb_spec a b)
  | context [?a >? ?b] => rewrite (Z.gtb_ltb a b) in H
  | context [?a >=? ?b] => rewrite (Z.geb_leb a b) in H
  end; cbn [andb orb negb] in H.

(** Little-endian words in memory, as the x86 stores them. *)
Definition store32 (m : mem) (a v : Z) : mem :=
  upd (upd (upd (upd m a (u8 v)) (a + 1) (u8 (Z.shiftr v 8)))
    (a + 2) (u8 (Z.shiftr v 16))) (a + 3) (u8 (Z.shiftr v 24)).

Definition load32 (m : mem) (a : Z) : Z :=
  m a + 256 * m (a + 1) + 65536 * m (a + 2) + 16777216 * m (a + 3).

Lemma bytes4_value v :
  u8 v + 256 * u8 (Z.shiftr v 8) + 65536 * u8 (Z.shiftr v 16)
    + 16777216 * u8 (Z.shiftr v 24) = u32 v.
Proof.
  unfold u8, u32. rewrite !Z.shiftr_div_pow2 by lia.
  change (2 ^ 8) with 256. change (2 ^ 16) with (256 * 256).
  change (2 ^ 24) with (256 * 256 * 256). change (2 ^ 32) with (256 * (256 * (256 * 256))).
  rewrite <- !Z.div_div by lia. rewrite !Z.rem_mul_r by lia. lia.
Qed.

Lemma load32_store32_eq m a v : load32 (store32 m a v) a = u32 v.
Proof.
  unfold load32, store32, upd. rewrite <- (bytes4_value v).
  zcases; lia.
Qed.

Lemma store32_ne m a v x : x < a \/ a + 4 <= x -> store32 m a v x = m x.
Proof. intros H. unfold store32, upd. zcases; lia. Qed.

Lemma load32_store32_ne m a b v :
  b + 4 <= a \/ a + 4 <= b -> load32 (store32 m a v) b = load32 m b.
Proof. intros H. unfold load32. rewrite !store32_ne by lia. done. Qed.

#[export] Hint Rewrite upd_eq load32_store32_eq : xv6.
#[export] Hint Rewrite upd_ne store32_ne load32_store32_ne using lia : xv6.

Lemma find_ext {A} (p q : A -> bool) l : (forall x, p x = q x) -> List.find p l = List.find q l.
Proof. intros H. induction l as [|x l IH]; simpl; [done|]. by rewrite H, IH. Qed.

(** ** Byte lists

    A disk block, a page or a [struct] on disk is a list of bytes.  [le_bytes]
    and [le_val] are the little-endian layout of an integer field; [put_bytes]
    overwrites the bytes at an offset, as a [memmove] into a buffer does. *)

Fixpoint le_bytes (n : nat) (z : Z) : list Z :=
  match n with
  | O => []
  | S k => u8 z :: le_bytes k (z / 256)
  end.

Fixpoint le_val (bs : list Z) : Z :=
  match bs with
  | [] => 0
  | b :: r => b + 256 * le_val r
  end.

(** The bytes of a string constant. *)
Definition cbytes (s : string) : list Z :=
  (fun a => Z.of_nat (Ascii.nat_of_ascii a)) <$> String.list_ascii_of_string s.

Definition is_byte (b : Z) : Prop := 0 <= b < 256.

Lemma length_le_bytes n z : length (le_bytes n z) = n.
Proof. revert z; induction n as [|n IH]; intros z; simpl; [done|]. by rewrite IH. Qed.

Lemma le_bytes_are_bytes n z : Forall is_byte (le_bytes n z).
Proof.
  revert z; induction n as [|n IH]; intros z; simpl; constructor; [apply u8_range|apply IH].
Qed.

Lemma le_val_le_bytes n z : le_val (le_bytes n z) = z `mod` 256 ^ Z.of_nat n.
Proof.
  revert z; induction n as [|n IH]; intros z; cbn [le_bytes le_val].
  - by rewrite Z.mod_1_r.
  - rewrite IH, Nat2Z.inj_succ, Z.pow_succ_r by lia.
    rewrite Z.rem_mul_r by lia. unfold u8. by change (2 ^ 8) with 256.
Qed.

Lemma le_bytes_le_val bs : Forall is_byte bs -> le_bytes (length bs) (le_val bs) = bs.
Proof.
  induction 1 as [|b r Hb Hr IH]; cbn [length le_bytes le_val]; [done|].
  unfold is_byte in Hb. f_equal.
  - unfold u8. change (2 ^ 8) with 256.
    rewrite (Z.mul_comm 256), Z.mod_add by lia. by apply Z.mod_small.
  - replace ((b + 256 * le_val r) / 256) with (le_val r); [done|].
    rewrite (Z.mul_comm 256), Z.div_add, Z.div_small by lia. lia.
Qed.

Definition put_bytes (l : list Z) (off : nat) (bs : list Z) : list Z :=
  take off l ++ bs ++ drop (off + length bs) l.

Definition get_bytes (l : list Z) (off n : nat) : list Z := take n (drop off l).

Lemma length_put_bytes l off bs :
  (off + length bs <= length l)%nat -> length (put_bytes l off bs) = length l.
Proof.
  intros H. unfold put_bytes. rewrite !length_app, length_take, length_drop. lia.
Qed.

Lemma length_get_bytes l off n :
  (off + n <= length l)%nat -> length (get_bytes l off n) = n.
Proof. intros H. unfold get_bytes. rewrite length_take, length_drop. lia. Qed.

Lemma get_put_bytes_eq l off bs :
  (off <= length l)%nat -> get_bytes (put_bytes l off bs) off (length bs) = bs.
Proof.
  intros H. unfold get_bytes, put_bytes.
  rewrite drop_app_ge by (rewrite length_take; lia).
  rewrite length_take, Nat.min_l by lia. rewrite Nat.sub_diag, drop_0.
  apply take_app_length'. done.
Qed.

Lemma lookup_put_bytes_out l off bs i :
  (off <= length l)%nat ->
  (i < off \/ off + length bs <= i)%nat -> put_bytes l off bs !! i = l !! i.
Proof.
  intros Hl Hi. unfold put_bytes.
  destruct (decide (i < off)%nat).
  - rewrite lookup_app_l by (rewrite length_take; lia). by apply lookup_take_lt.
  - rewrite lookup_app_r by (rewrite length_take; lia).
    rewrite length_take, Nat.min_l by lia.
    rewrite lookup_app_r by lia. rewrite lookup_drop. f_equal. lia.
Qed.

Lemma lookup_get_bytes l off n i :
  get_bytes l off n !! i = if decide (i < n)%nat then l !! (off + i)%nat else None.
Proof.
  unfold get_bytes. case_decide.
  - rewrite lookup_take_lt by done. by rewrite lookup_drop.
  - apply lookup_take_ge. lia.
Qed.

Lemma get_put_bytes_out l off bs o n :
  (off <= length l)%nat ->
  (o + n <= off \/ off + length bs <= o)%nat ->
  get_bytes (put_bytes l off bs) o n = get_bytes l o n.
Proof.
  intros Hl Ho. apply list_eq. intros i. rewrite !lookup_get_bytes.
  case_decide; [|done]. apply lookup_put_bytes_out; lia.
Qed.

Lemma put_bytes_are_bytes l off bs :
  Forall is_byte l -> Forall is_byte bs -> Forall is_byte (put_bytes l off bs).
Proof.
  intros Hl Hb. unfold put_bytes.
  by apply Forall_app_2, Forall_app_2; [apply Forall_take| |apply Forall_drop].
Qed.

(** The 32-bit field at an offset. *)
Definition get32 (l : list Z) (off : nat) : Z := le_val (get_bytes l off 4).
Definition put32 (l : list Z) (off : nat) (v : Z) : list Z := put_bytes l off (le_bytes 4 v).

Lemma length_put32 l off v : (off + 4 <= length l)%nat -> length (put32 l off v) = length l.
Proof. intros H. apply length_put_bytes. by rewrite length_le_bytes. Qed.

Lemma get32_put32_eq l off v : (off + 4 <= length l)%nat -> get32 (put32 l off v) off = u32 v.
Proof.
  intros H. unfold get32, put32.
  rewrite <- (length_le_bytes 4 v) at 2. rewrite get_put_bytes_eq by lia.
  by rewrite le_val_le_bytes.
Qed.

Lemma get32_put32_ne l off v o :
  (off + 4 <= length l)%nat -> (o + 4 <= off \/ off + 4 <= o)%nat ->
  get32 (put32 l off v) o = get32 l o.
Proof.
  intros H Ho. unfold get32, put32. rewrite get_put_bytes_out; [done|lia|].
  rewrite length_le_bytes. lia.
Qed.

(** The 16-bit field at an offset. *)
Definition get16 (l : list Z) (off : nat) : Z := le_val (get_bytes l off 2).
Definition put16 (l : list Z) (off : nat) (v : Z) : list Z := put_bytes l off (le_bytes 2 v).

Lemma length_put16 l off v : (off + 2 <= length l)%nat -> length (put16 l off v) = length l.
Proof. intros H. apply length_put_bytes. by rewrite length_le_bytes. Qed.

Lemma get16_put16_eq l off v : (off + 2 <= length l)%nat -> get16 (put16 l off v) off = u16 v.
Proof.
  intros H. unfold get16, put16.
  rewrite <- (length_le_bytes 2 v) at 2. rewrite get_put_bytes_eq by lia.
  by rewrite le_val_le_bytes.
Qed.

#[export] Hint Resolve le_bytes_are_bytes put_bytes_are_bytes : xv6.
#[export] Hint Rewrite length_le_bytes : xv6.

(** ** Effects

    A kernel routine runs on a state and either returns, panics, or puts the
    calling process to sleep on a channel.  [Sleep c s] is the state in which
    [sleep()] gives up the processor: the caller of the model decides what the
    rest of the system does before the routine is entered again.  [Undef] is a
    step C leaves undefined (a null pointer followed, an index outside its
    array), and [Diverge] the result of a loop that used up its fuel. *)

Inductive chan :=
| ChanBuf (b : nat)
| ChanInode (i : nat)
| ChanLog
| ChanPipeRead (p : Z)
| ChanPipeWrite (p : Z)
| ChanProc (p : nat)
| ChanTicks
| ChanInput.

#[export] Instance chan_eq_dec : EqDecision chan.
Proof. solve_decision. Defined.

Inductive outcome (S A : Type) : Type :=
| Ok (a : A) (s : S)
| Panic (msg : string)
| Sleep (c : chan) (s : S)
| Undef (why : string)
| Diverge.
Arguments Ok {S A} a s.
Arguments Panic {S A} msg.
Arguments Sleep {S A} c s.
Arguments Undef {S A} why.
Arguments Diverge {S A}.

Definition M (S A : Type) : Type := S -> outcome S A.

#[export] Instance M_ret S : MRet (M S) := fun A a s => Ok a s.

#[export] Instance M_bind S : MBind (M S) := fun A B k m s =>
  match m s with
  | Ok a s' => k a s'
  | Panic msg => Panic msg
  | Sleep c s' => Sleep c s'
  | Undef why => Undef why
  | Diverge => Diverge
  end.

Definition panic {S A} (msg : string) : M S A := fun _ => Panic msg.
Definition undef {S A} (why : string) : M S A := fun _ => Undef why.
Definition sleep_on {S A} (c : chan) : M S A := fun s => Sleep c s.
Definition diverge {S A} : M S A := fun _ => Diverge.
Definition get {S} : M S S := fun s => Ok s s.
Definition reads {S A} (f : S -> A) : M S A := fun s => Ok (f s) s.
Definition modify {S} (f : S -> S) : M S unit := fun s => Ok tt (f s).
Definition when {S} (b : bool) (m : M S unit) : M S unit :=
  if b then m else mret tt.

(** Running a component's routine inside a larger state. *)
Definition lift {S X A} (getX : S -> X) (putX : X -> S -> S) (m : M X A) : M S A :=
  fun s => match m (getX s) with
  | Ok a x => Ok a (putX x s)
  | Panic msg => Panic msg
  | Sleep c x => Sleep c (putX x s)
  | Undef why => Undef why
  | Diverge => Diverge
  end.

(** [for (i = lo; i < hi; i++) body(i)]. *)
Fixpoint for_from {S} (body : Z -> M S unit) (i : Z) (k : nat) : M S unit :=
  match k with
  | O => mret tt
  | Datatypes.S k' => body i;; for_from body (i + 1) k'
  end.

Definition for_ {S} (lo hi : Z) (body : Z -> M S unit) : M S unit :=
  for_from body lo (Z.to_nat (hi - lo)).

Lemma bind_ok {S A B} (m : M S A) (k : A -> M S B) s a s' :
  m s = Ok a s' -> (m ≫= k) s = k a s'.
Proof. intros H. unfold mbind, M_bind. by rewrite H. Qed.

Lemma bind_ok_inv {S A B} (m : M S A) (k : A -> M S B) s b s'' :
  (m ≫= k) s = Ok b s'' -> exists a s', m s = Ok a s' /\ k a s' = Ok b s''.
Proof. unfold mbind, M_bind. destruct (m s) as [a s'| | | |]; try done. eauto. Qed.

Lemma bind_assoc {S A B C} (m : M S A) (k : A -> M S B) (h : B -> M S C) s :
  ((m ≫= k) ≫= h) s = (m ≫= (fun a => k a ≫= h)) s.
Proof. unfold mbind, M_bind. by destruct (m s). Qed.

(** A loop whose body keeps an invariant returns, and the invariant holds at
    its end. *)
Lemma for_from_inv {S} (I : Z -> S -> Prop) (body : Z -> M S unit) i k s :
  I i s ->
  (forall j s, i <= j < i + Z.of_nat k -> I j s -> exists s', body j s = Ok tt s' /\ I (j + 1) s') ->
  exists s', for_from body i k s = Ok tt s' /\ I (i + Z.of_nat k) s'.
Proof.
  revert i s. induction k as [|k IH]; intros i s H Hb; cbn [for_from].
  - exists s. rewrite Z.add_0_r. done.
  - destruct (Hb i s) as (s1 & E & H1); [lia|done|].
    destruct (IH (i + 1) s1 H1) as (s2 & E2 & H2).
    + intros j s' Hj. apply Hb. lia.
    + exists s2. split; [by rewrite (bind_ok _ _ _ _ _ E)|].
      by replace (i + Z.of_nat (Datatypes.S k)) with (i + 1 + Z.of_nat k) by lia.
Qed.

Lemma for_inv {S} (I : Z -> S -> Prop) (body : Z -> M S unit) lo hi s :
  lo <= hi -> I lo s ->
  (forall j s, lo <= j < hi -> I j s -> exists s', body j s = Ok tt s' /\ I (j + 1) s') ->
  exists s', for_ lo hi body s = Ok tt s' /\ I hi s'.
Proof.
  intros Hle H Hb. unfold for_.
  destruct (for_from_inv I body lo (Z.to_nat (hi - lo)) s H) as (s' & E & H').
  - intros j s' Hj. apply Hb. lia.
  - exists s'. split; [done|]. by replace hi with (lo + Z.of_nat (Z.to_nat (hi - lo))) by lia.
Qed.

(** One step of running a routine: open the monad's operations. *)
Ltac munfold :=
  unfold mbind, M_bind, mret, M_ret, panic, undef, sleep_on, diverge, get, reads, modify, when, lift in *;
  cbn beta iota in *.

(** Split a hypothesis that says a sequence of calls returned. *)
Ltac minv H :=
  let a := fresh "a" in let s := fresh "s" in let H1 := fresh "Hrun" in
  apply bind_ok_inv in H as (a & s & H1 & H).
