(* ===== verification/CStrings.v ===== *)
(** * The string routines of the kernel and of the user library

    [KString] models HW3/string.c, [Ulib] models HW3/ulib.c, both over the byte
    memory of the prelude.  Every loop is the source's loop: a loop bounded by
    a count recurses on the count; a loop that runs to a NUL byte takes fuel,
    and the theorems about it give the fuel from the position of the NUL, so
    they show that it stops.  The theorems state what each routine leaves in
    memory, inside and outside the destination. *)

From stdpp Require Import base numbers list strings.
From Stdlib Require Import ZArith Lia.
From S2P Require Import Prelude.

Open Scope Z_scope.

Module KString.

(** [rep stosb] and [rep stosl] of x86.h. *)
Fixpoint stosb (m : mem) (addr data : Z) (cnt : nat) : mem :=
  match cnt with
  | O => m
  | S k => stosb (upd m addr (u8 data)) (addr + 1) data k
  end.

Fixpoint stosl (m : mem) (addr data : Z) (cnt : nat) : mem :=
  match cnt with
  | O => m
  | S k => stosl (store32 m addr data) (addr + 4) data k
  end.

Definition memset (m : mem) (dst c n : Z) : mem :=
  if (Z.rem (s32 dst) 4 =? 0) && (u32 n `mod` 4 =? 0) then
    let c := Z.land c 255 in
    stosl m dst
      (Z.lor (Z.lor (Z.lor (Z.shiftl c 24) (Z.shiftl c 16)) (Z.shiftl c 8)) c)
      (Z.to_nat (u32 n / 4))
  else stosb m dst c (Z.to_nat (u32 n)).

Fixpoint memcmp_loop (m : mem) (s1 s2 : Z) (n : nat) : Z :=
  match n with
  | O => 0
  | S k => if m s1 =? m s2 then memcmp_loop m (s1 + 1) (s2 + 1) k else m s1 - m s2
  end.

Definition memcmp (m : mem) (v1 v2 n : Z) : Z :=
  memcmp_loop m v1 v2 (Z.to_nat (u32 n)).

(** The two loops of [memmove]: from the top down when the destination starts
    inside the source, from the bottom up otherwise. *)
Fixpoint copy_down (m : mem) (d s : Z) (n : nat) : mem :=
  match n with
  | O => m
  | S k => copy_down (upd m (d - 1) (m (s - 1))) (d - 1) (s - 1) k
  end.

Fixpoint copy_up (m : mem) (d s : Z) (n : nat) : mem :=
  match n with
  | O => m
  | S k => copy_up (upd m d (m s)) (d + 1) (s + 1) k
  end.

Definition memmove (m : mem) (dst src n : Z) : mem :=
  let cnt := Z.to_nat (u32 n) in
  if (src <? dst) && (dst <? src + u32 n)
  then copy_down m (dst + u32 n) (src + u32 n) cnt
  else copy_up m dst src cnt.

Definition memcpy (m : mem) (dst src n : Z) : mem := memmove m dst src n.

Fixpoint strncmp_loop (m : mem) (p q : Z) (n : nat) : Z :=
  match n with
  | O => 0
  | S k =>
      if negb (m p =? 0) && (m p =? m q) then strncmp_loop m (p + 1) (q + 1) k
      else u8 (m p) - u8 (m q)
  end.

Definition strncmp (m : mem) (p q n : Z) : Z := strncmp_loop m p q (Z.to_nat (u32 n)).

(** [strncpy]: copy until the count or a NUL ends the first loop, then fill
    what is left of the count with NULs. *)
Fixpoint fill_nul (m : mem) (s : Z) (n : nat) : mem :=
  match n with
  | O => m
  | S k => fill_nul (upd m s 0) (s + 1) k
  end.

Fixpoint strncpy_loop (m : mem) (s t : Z) (n : nat) : mem :=
  match n with
  | O => m
  | S k =>
      let c := m t in
      let m' := upd m s c in
      if c =? 0 then fill_nul m' (s + 1) k else strncpy_loop m' (s + 1) (t + 1) k
  end.

Definition strncpy (m : mem) (s t n : Z) : mem := strncpy_loop m s t (Z.to_nat n).

(** [safestrcpy]: [--n > 0] is tested before each byte, and the final [*s = 0]
    lands after the last byte copied, a copied NUL included. *)
Fixpoint safestrcpy_loop (m : mem) (s t : Z) (n : nat) : mem :=
  match n with
  | O => upd m s 0
  | S k =>
      let c := m t in
      let m' := upd m s c in
      if c =? 0 then upd m' (s + 1) 0 else safestrcpy_loop m' (s + 1) (t + 1) k
  end.

Definition safestrcpy (m : mem) (s t n : Z) : mem :=
  if n <=? 0 then m else safestrcpy_loop m s t (Z.to_nat (n - 1)).

Fixpoint strlen_loop (m : mem) (s n : Z) (fuel : nat) : option Z :=
  match fuel with
  | O => None
  | S k => if m (s + n) =? 0 then Some n else strlen_loop m s (n + 1) k
  end.

Definition strlen (fuel : nat) (m : mem) (s : Z) : option Z := strlen_loop m s 0 fuel.

(** ** What the loops compute *)

Lemma stosb_mset n m a d : meq (stosb m a d n) (mset m a (u8 d) (Z.of_nat n)).
Proof.
  revert m a; induction n as [|n IH]; intros m a x; cbn [stosb].
  - unfold mset. zcases; lia || done.
  - rewrite IH. unfold mset, upd. zcases; lia || done.
Qed.

Lemma repeat_word_value c :
  0 <= c < 256 ->
  Z.lor (Z.lor (Z.lor (Z.shiftl c 24) (Z.shiftl c 16)) (Z.shiftl c 8)) c
  = c + 256 * (c + 256 * (c + 256 * c)).
Proof.
  intros Hc.
  assert (H24 : Z.shiftl c 24 = Z.shiftl (Z.shiftl c 8) 16) by (by rewrite Z.shiftl_shiftl).
  rewrite H24, <- Z.shiftl_lor.
  assert (H16 : forall x, Z.shiftl x 16 = Z.shiftl (Z.shiftl x 8) 8)
    by (intros; by rewrite Z.shiftl_shiftl).
  rewrite H16, <- Z.shiftl_lor. rewrite !lor_shiftl_add by lia. lia.
Qed.

(** The word [memset] hands to [stosl] is its byte four times over. *)
Lemma store32_repeat m a c :
  0 <= c < 256 -> meq (store32 m a (c + 256 * (c + 256 * (c + 256 * c)))) (mset m a c 4).
Proof.
  intros Hc x. unfold store32, mset, upd, u8. rewrite !Z.shiftr_div_pow2 by lia.
  change (2 ^ 8) with 256. change (2 ^ 16) with 65536. change (2 ^ 24) with 16777216.
  zcases; try lia; subst.
  all: Z.to_euclidean_division_equations; lia.
Qed.

#[local] Instance stosl_proper : Proper (meq ==> eq ==> eq ==> eq ==> meq) stosl.
Proof.
  intros m1 m2 Hm a ? <- d ? <- n ? <-. revert m1 m2 a Hm.
  induction n as [|n IH]; intros m1 m2 a Hm; cbn [stosl]; [done|].
  apply IH. unfold store32. by repeat apply upd_proper.
Qed.

Lemma stosl_repeat_mset n m a c :
  0 <= c < 256 ->
  meq (stosl m a (c + 256 * (c + 256 * (c + 256 * c))) n) (mset m a c (4 * Z.of_nat n)).
Proof.
  intros Hc. revert m a; induction n as [|n IH]; intros m a; cbn [stosl].
  - intros x. unfold mset. zcases; lia || done.
  - rewrite store32_repeat by done. rewrite IH. intros x. unfold mset. zcases; lia || done.
Qed.

Lemma memset_correct m dst c n :
  meq (memset m dst c n) (mset m dst (u8 c) (u32 n)).
Proof.
  pose proof (u32_range n) as Hn. unfold memset.
  destruct ((Z.rem (s32 dst) 4 =? 0) && (u32 n `mod` 4 =? 0)) eqn:E.
  - apply andb_true_iff in E as [_ E]. apply Z.eqb_eq in E.
    change 255 with (Z.ones 8). rewrite Z.land_ones by lia. fold (u8 c).
    rewrite repeat_word_value by apply u8_range.
    rewrite stosl_repeat_mset by apply u8_range.
    rewrite Z2Nat.id by (apply Z.div_pos; lia).
    pose proof (Z.div_mod (u32 n) 4 ltac:(lia)) as Hd.
    by replace (4 * (u32 n / 4)) with (u32 n) by lia.
  - rewrite stosb_mset. by rewrite Z2Nat.id by lia.
Qed.

Lemma copy_up_spec n m d s x :
  d <= s \/ s + Z.of_nat n <= d ->
  copy_up m d s n x = mcopy m d s (Z.of_nat n) x.
Proof.
  revert m d s; induction n as [|n IH]; intros m d s H; cbn [copy_up].
  - unfold mcopy. zcases; lia || done.
  - rewrite IH by lia. unfold mcopy, upd. zcases; try lia; f_equal; lia.
Qed.

Lemma copy_down_spec n m d s x :
  s <= d \/ d <= s - Z.of_nat n ->
  copy_down m d s n x = mcopy m (d - Z.of_nat n) (s - Z.of_nat n) (Z.of_nat n) x.
Proof.
  revert m d s; induction n as [|n IH]; intros m d s H; cbn [copy_down].
  - unfold mcopy. zcases; lia || done.
  - rewrite IH by lia. unfold mcopy, upd. zcases; try lia; f_equal; lia.
Qed.

Lemma memmove_mcopy m dst src n : meq (memmove m dst src n) (mcopy m dst src (u32 n)).
Proof.
  pose proof (u32_range n) as Hn. intros x. unfold memmove.
  destruct (Z.ltb_spec src dst), (Z.ltb_spec dst (src + u32 n)); cbn [andb];
    rewrite ?copy_up_spec, ?copy_down_spec, ?Z2Nat.id by lia; f_equal; lia.
Qed.

(** ** C strings in a bounded field

    [cstrn m p n] is the string a field of [n] bytes at [p] holds: the bytes
    before the first NUL, at most [n] of them.  [mem_bytes] lists raw bytes. *)

Fixpoint cstrn (m : mem) (p : Z) (n : nat) : list Z :=
  match n with
  | O => []
  | S k => if m p =? 0 then [] else m p :: cstrn m (p + 1) k
  end.

Fixpoint mem_bytes (m : mem) (p : Z) (n : nat) : list Z :=
  match n with
  | O => []
  | S k => m p :: mem_bytes m (p + 1) k
  end.

Lemma length_mem_bytes m p n : length (mem_bytes m p n) = n.
Proof. revert p; induction n as [|n IH]; intros p; simpl; [done|]. by rewrite IH. Qed.

Lemma lookup_mem_bytes m p n i :
  (i < n)%nat -> mem_bytes m p n !! i = Some (m (p + Z.of_nat i)).
Proof.
  revert p i; induction n as [|n IH]; intros p i Hi; [lia|].
  destruct i as [|i]; cbn [mem_bytes lookup list_lookup].
  - do 2 f_equal. lia.
  - change (mem_bytes m (p + 1) n !! i = Some (m (p + Z.of_nat (S i)))).
    rewrite IH by lia. do 2 f_equal. lia.
Qed.

Lemma mem_bytes_ext m1 m2 p n :
  (forall x, p <= x < p + Z.of_nat n -> m1 x = m2 x) -> mem_bytes m1 p n = mem_bytes m2 p n.
Proof.
  revert p; induction n as [|n IH]; intros p H; simpl; [done|].
  rewrite (H p) by lia. f_equal. apply IH. intros; apply H; lia.
Qed.

Lemma cstrn_ext m1 m2 p n :
  (forall x, p <= x < p + Z.of_nat n -> m1 x = m2 x) -> cstrn m1 p n = cstrn m2 p n.
Proof.
  revert p; induction n as [|n IH]; intros p H; simpl; [done|].
  rewrite (H p) by lia. destruct (m2 p =? 0); [done|]. f_equal. apply IH.
  intros; apply H; lia.
Qed.

Lemma length_cstrn m p n : (length (cstrn m p n) <= n)%nat.
Proof.
  revert p; induction n as [|n IH]; intros p; simpl; [lia|].
  destruct (m p =? 0); simpl; [lia|]. specialize (IH (p + 1)). lia.
Qed.

Definition bytes_mem (m : mem) : Prop := forall x, is_byte (m x).

Lemma strncmp_loop_zero m p q n :
  bytes_mem m -> strncmp_loop m p q n = 0 <-> cstrn m p n = cstrn m q n.
Proof.
  intros Hb. revert p q; induction n as [|n IH]; intros p q; cbn [strncmp_loop cstrn]; [done|].
  pose proof (Hb p) as Hp. pose proof (Hb q) as Hq. unfold is_byte in *.
  destruct (Z.eqb_spec (m p) 0) as [E0|E0], (Z.eqb_spec (m p) (m q)) as [E|E]; cbn [negb andb];
    rewrite ?u8_small by lia.
  - rewrite <- E, E0. cbn. split; intros; [done|lia].
  - destruct (Z.eqb_spec (m q) 0); [congruence|]. split; [lia|done].
  - destruct (Z.eqb_spec (m q) 0); [congruence|]. rewrite IH, E.
    split; [congruence|]. by injection 1.
  - split; [lia|]. destruct (m q =? 0); [done|]. injection 1. congruence.
Qed.

Lemma fill_nul_mset n m s : meq (fill_nul m s n) (mset m s 0 (Z.of_nat n)).
Proof.
  revert m s; induction n as [|n IH]; intros m s x; cbn [fill_nul].
  - unfold mset. zcases; lia || done.
  - rewrite IH. unfold mset, upd. zcases; lia || done.
Qed.

Lemma strncpy_loop_out n m s t x :
  x < s \/ s + Z.of_nat n <= x -> strncpy_loop m s t n x = m x.
Proof.
  revert m s t; induction n as [|n IH]; intros m s t Hx; cbn [strncpy_loop]; [done|].
  destruct (m t =? 0).
  - rewrite fill_nul_mset. unfold mset, upd. zcases; lia || done.
  - rewrite IH by lia. apply upd_ne. lia.
Qed.

Lemma mem_bytes_mset0 m s n :
  mem_bytes (mset m s 0 (Z.of_nat n)) s n = replicate n 0.
Proof.
  apply list_eq. intros i. destruct (decide (i < n)%nat).
  - rewrite lookup_mem_bytes by done. rewrite lookup_replicate_2 by done.
    unfold mset. zcases; lia || done.
  - rewrite !lookup_ge_None_2; [done|rewrite length_replicate; lia|rewrite length_mem_bytes; lia].
Qed.

Lemma strncpy_loop_bytes n m s t :
  s + Z.of_nat n <= t \/ t + Z.of_nat n <= s ->
  mem_bytes (strncpy_loop m s t n) s n
  = cstrn m t n ++ replicate (n - length (cstrn m t n)) 0.
Proof.
  revert m s t; induction n as [|n IH]; intros m s t Hd; [done|].
  cbn [strncpy_loop cstrn]. destruct (Z.eqb_spec (m t) 0) as [E|E].
  - cbn [mem_bytes app length]. rewrite Nat.sub_0_r. cbn [replicate].
    rewrite !fill_nul_mset. f_equal; [unfold mset, upd; zcases; lia|].
    rewrite <- (mem_bytes_mset0 (upd m s (m t)) (s + 1)).
    apply mem_bytes_ext. intros x Hx. by rewrite fill_nul_mset.
  - cbn [mem_bytes app length]. rewrite strncpy_loop_out by lia. rewrite upd_eq. f_equal.
    rewrite IH by lia.
    assert (Hc : cstrn (upd m s (m t)) (t + 1) n = cstrn m (t + 1) n).
    { apply cstrn_ext. intros x Hx. apply upd_ne. lia. }
    by rewrite Hc.
Qed.

(** Reading a NUL-padded field back gives the string that was put there. *)
Lemma cstrn_of_bytes m p n l :
  mem_bytes m p n = l ++ replicate (n - length l) 0 ->
  Forall (fun c => c <> 0) l -> (length l <= n)%nat -> cstrn m p n = l.
Proof.
  revert p l; induction n as [|n IH]; intros p l Hm Hl Hn.
  - destruct l; simpl in *; [done|lia].
  - cbn [cstrn]. destruct l as [|c l]; cbn [mem_bytes app length replicate] in Hm.
    + rewrite Nat.sub_0_r in Hm. cbn [replicate] in Hm. injection Hm as -> _. done.
    + injection Hm as -> Hm. inversion_clear Hl as [|? ? Hc Hl'].
      rewrite (proj2 (Z.eqb_neq c 0) Hc). f_equal. apply IH; [done|done|simpl in Hn; lia].
Qed.

Lemma cstrn_nonzero m p n : Forall (fun c => c <> 0) (cstrn m p n).
Proof.
  revert p; induction n as [|n IH]; intros p; simpl; [done|].
  destruct (Z.eqb_spec (m p) 0); [constructor|]. by constructor.
Qed.

Lemma safestrcpy_loop_out n m s t x :
  x < s \/ s + Z.of_nat n < x -> safestrcpy_loop m s t n x = m x.
Proof.
  revert m s t; induction n as [|n IH]; intros m s t Hx; cbn [safestrcpy_loop].
  - apply upd_ne. lia.
  - destruct (m t =? 0); [rewrite !upd_ne by lia; done|].
    rewrite IH by lia. apply upd_ne. lia.
Qed.

Lemma safestrcpy_loop_cstrn n m s t :
  s + Z.of_nat n < t \/ t + Z.of_nat n <= s ->
  cstrn (safestrcpy_loop m s t n) s (S n) = cstrn m t n.
Proof.
  revert m s t; induction n as [|n IH]; intros m s t Hd.
  - cbn [safestrcpy_loop cstrn]. by rewrite upd_eq.
  - cbn [safestrcpy_loop]. destruct (Z.eqb_spec (m t) 0) as [E|E].
    + cbn [cstrn]. rewrite upd_ne, upd_eq by lia. by rewrite E.
    + specialize (IH (upd m s (m t)) (s + 1) (t + 1) ltac:(lia)).
      remember (safestrcpy_loop (upd m s (m t)) (s + 1) (t + 1) n) as m' eqn:Em.
      change (cstrn m' s (S (S n))) with
        (if m' s =? 0 then [] else m' s :: cstrn m' (s + 1) (S n)).
      assert (Hs : m' s = m t)
        by (rewrite Em, safestrcpy_loop_out by lia; apply upd_eq).
      rewrite Hs, IH. cbn [cstrn]. rewrite (proj2 (Z.eqb_neq _ _) E).
      f_equal. apply cstrn_ext. intros x Hx. apply upd_ne. lia.
Qed.

Lemma cstrn_short_nul m p n :
  (length (cstrn m p n) < n)%nat -> exists k, 0 <= k < Z.of_nat n /\ m (p + k) = 0.
Proof.
  revert p; induction n as [|n IH]; intros p; cbn [cstrn]; [simpl; lia|].
  destruct (Z.eqb_spec (m p) 0) as [E|E]; cbn [length]; intros Hl.
  - exists 0. rewrite Z.add_0_r. split; [lia|done].
  - destruct (IH (p + 1) ltac:(lia)) as (k & Hk & Hz). exists (k + 1).
    split; [lia|]. by replace (p + (k + 1)) with (p + 1 + k) by lia.
Qed.

Lemma strncpy_loop_bytes_mem n m s t : bytes_mem m -> bytes_mem (strncpy_loop m s t n).
Proof.
  revert m s t; induction n as [|n IH]; intros m s t Hm; cbn [strncpy_loop]; [done|].
  assert (Hu : bytes_mem (upd m s (m t)))
    by (intros y; unfold upd; destruct (y =? s); apply Hm).
  destruct (m t =? 0); [|by apply IH].
  intros y. rewrite fill_nul_mset. unfold mset. case_match; [unfold is_byte; lia|apply Hu].
Qed.

Lemma strlen_loop_spec k m s n fuel :
  (forall i, 0 <= i < Z.of_nat k -> m (s + n + i) <> 0) -> m (s + n + Z.of_nat k) = 0 ->
  (k < fuel)%nat -> strlen_loop m s n fuel = Some (n + Z.of_nat k).
Proof.
  revert n fuel; induction k as [|k IH]; intros n fuel Hnz Hz Hf;
    (destruct fuel as [|fuel]; [lia|]); cbn [strlen_loop].
  - rewrite Z.add_0_r in Hz. rewrite Hz. cbn. f_equal. lia.
  - destruct (Z.eqb_spec (m (s + n)) 0) as [E|E].
    + exfalso. apply (Hnz 0); [lia|]. by rewrite Z.add_0_r.
    + rewrite IH; [f_equal; lia| |rewrite <- Hz; f_equal; lia|lia].
      intros i Hi. replace (s + (n + 1) + i) with (s + n + (i + 1)) by lia. apply Hnz. lia.
Qed.

(** ** Properties of string.c *)

(** memmove copies the n source bytes as they were before the call to the
    destination, whether or not the two ranges overlap, and changes no byte
    outside the destination. *)
Theorem memmove_overlap_safe (m : mem) (dst src n : Z) :
  (forall i, 0 <= i < u32 n -> memmove m dst src n (dst + i) = m (src + i)) /\
  (forall x, x < dst \/ dst + u32 n <= x -> memmove m dst src n x = m x).
Proof.
  split.
  - intros i Hi. rewrite memmove_mcopy. unfold mcopy. zcases; try lia. f_equal; lia.
  - intros x Hx. rewrite memmove_mcopy. unfold mcopy. zcases; lia || done.
Qed.

(** memset writes the low byte of c to exactly the n bytes at dst, on the
    word-at-a-time path of an aligned buffer as on the byte path. *)
Theorem memset_both_paths (m : mem) (dst c n x : Z) :
  memset m dst c n x = if (dst <=? x) && (x <? dst + u32 n) then u8 c else m x.
Proof. by rewrite memset_correct. Qed.

(** a name stored into a fixed-size field by strncpy and compared by
    strncmp with the same bound is found equal to the original exactly when
    both agree up to their NUL or the bound: directory names survive the
    round trip through a struct dirent. *)
Theorem strncpy_strncmp_roundtrip (m : mem) (s t q n : Z)
  (Hb : bytes_mem m) (Hn : 0 <= n < 2 ^ 31)
  (Ht : s + n <= t \/ t + n <= s) (Hq : s + n <= q \/ q + n <= s) :
  strncmp (strncpy m s t n) q s n = 0 <-> cstrn m q (Z.to_nat n) = cstrn m t (Z.to_nat n).
Proof.
  unfold strncmp, strncpy. rewrite u32_small by lia.
  pose proof (strncpy_loop_bytes_mem (Z.to_nat n) m s t Hb).
  rewrite strncmp_loop_zero by done.
  rewrite (cstrn_of_bytes _ s _ (cstrn m t (Z.to_nat n))).
  - assert (Hc : cstrn (strncpy_loop m s t (Z.to_nat n)) q (Z.to_nat n) = cstrn m q (Z.to_nat n)).
    { apply cstrn_ext. intros x Hx. apply strncpy_loop_out. lia. }
    by rewrite Hc.
  - apply strncpy_loop_bytes. lia.
  - apply cstrn_nonzero.
  - apply length_cstrn.
Qed.

Lemma strncpy_strncmp_roundtrip_witness :
  let m := fun x => if x =? 100 then 97 else if x =? 200 then 97 else 0 in
  strncmp (strncpy m 0 100 14) 200 0 14 = 0 <-> cstrn m 200 14 = cstrn m 100 14.
Proof.
  refine (strncpy_strncmp_roundtrip _ 0 100 200 14 _ _ _ _); [|lia..].
  intros x. unfold is_byte. destruct (x =? 100); [lia|]. destruct (x =? 200); lia.
Defined.

(** safestrcpy always leaves a NUL-terminated string of at most n-1 bytes,
    the longest prefix of the source that fits, and writes no byte outside the
    n bytes of the destination. *)
Theorem safestrcpy_terminates_in_bounds (m : mem) (s t n : Z)
  (Hn : 0 < n) (Hd : s + n <= t \/ t + n <= s) :
  cstrn (safestrcpy m s t n) s (Z.to_nat n) = cstrn m t (Z.to_nat (n - 1)) /\
  (exists k, 0 <= k < n /\ safestrcpy m s t n (s + k) = 0) /\
  (forall x, x < s \/ s + n <= x -> safestrcpy m s t n x = m x).
Proof.
  unfold safestrcpy. rewrite (proj2 (Z.leb_gt n 0)) by lia.
  assert (E : cstrn (safestrcpy_loop m s t (Z.to_nat (n - 1))) s (Z.to_nat n)
              = cstrn m t (Z.to_nat (n - 1))).
  { replace (Z.to_nat n) with (S (Z.to_nat (n - 1))) by lia.
    apply safestrcpy_loop_cstrn. lia. }
  split_and!; [done| |intros x Hx; apply safestrcpy_loop_out; lia].
  destruct (cstrn_short_nul (safestrcpy_loop m s t (Z.to_nat (n - 1))) s (Z.to_nat n))
    as (k & Hk & Hz); [|exists k; split; [lia|done]].
  rewrite E. pose proof (length_cstrn m t (Z.to_nat (n - 1))). lia.
Qed.

Lemma safestrcpy_terminates_in_bounds_witness :
  let m := fun x => if (100 <=? x) && (x <? 120) then 65 else 0 in
  cstrn (safestrcpy m 0 100 16) 0 16 = replicate 15 65.
Proof.
  intros m.
  destruct (safestrcpy_terminates_in_bounds m 0 100 16 ltac:(lia) ltac:(lia)) as [E _].
  exact E.
Defined.
End KString.

Module Ulib.

(** strcpy: copies up to and including the NUL. *)
Fixpoint strcpy (fuel : nat) (m : mem) (s t : Z) : option mem :=
  match fuel with
  | O => None
  | S k =>
      let c := m t in
      let m' := upd m s c in
      if c =? 0 then Some m' else strcpy k m' (s + 1) (t + 1)
  end.

Fixpoint strcmp (fuel : nat) (m : mem) (p q : Z) : option Z :=
  match fuel with
  | O => None
  | S k =>
      if negb (m p =? 0) && (m p =? m q) then strcmp k m (p + 1) (q + 1)
      else Some (u8 (m p) - u8 (m q))
  end.

Fixpoint strlen_loop (m : mem) (s n : Z) (fuel : nat) : option Z :=
  match fuel with
  | O => None
  | S k => if m (s + n) =? 0 then Some n else strlen_loop m s (n + 1) k
  end.

Definition strlen (fuel : nat) (m : mem) (s : Z) : option Z := strlen_loop m s 0 fuel.

Definition memset (m : mem) (dst c n : Z) : mem := KString.stosb m dst c (Z.to_nat (u32 n)).

(** strchr: the address of the first [c], 0 when there is none. *)
Fixpoint strchr (fuel : nat) (m : mem) (s c : Z) : option Z :=
  match fuel with
  | O => None
  | S k =>
      if m s =? 0 then Some 0
      else if m s =? c then Some s
      else strchr k m (s + 1) c
  end.

(** gets: one [read(0, &c, 1)] per byte; [inp] is what standard input still
    holds, its end the end of the file. *)
Fixpoint gets_loop (m : mem) (buf i max : Z) (inp : list Z) : mem * Z * list Z :=
  if i + 1 <? max then
    match inp with
    | [] => (m, i, [])
    | c :: rest =>
        let m' := upd m (buf + i) c in
        if (c =? 10) || (c =? 13) then (m', i + 1, rest)
        else gets_loop m' buf (i + 1) max rest
    end
  else (m, i, inp).

Definition gets (m : mem) (buf max : Z) (inp : list Z) : mem * list Z :=
  let '(m', i, rest) := gets_loop m buf 0 max inp in (upd m' (buf + i) 0, rest).

Fixpoint atoi_loop (fuel : nat) (m : mem) (s n : Z) : option Z :=
  match fuel with
  | O => None
  | S k =>
      if (48 <=? m s) && (m s <=? 57)
      then atoi_loop k m (s + 1) (s32 (s32 (s32 (n * 10) + m s) - 48))
      else Some n
  end.

Definition atoi (fuel : nat) (m : mem) (s : Z) : option Z := atoi_loop fuel m s 0.

(** memmove of the user library copies upwards whatever the overlap. *)
Definition memmove (m : mem) (vdst vsrc n : Z) : mem :=
  KString.copy_up m vdst vsrc (Z.to_nat n).

(** ** Properties of ulib.c *)

(** Decimal value of a digit string. *)
Fixpoint digits_value (acc : Z) (ds : list Z) : Z :=
  match ds with
  | [] => acc
  | d :: r => digits_value (acc * 10 + (d - 48)) r
  end.

Lemma digits_value_ge acc ds :
  0 <= acc -> Forall (fun d => 48 <= d <= 57) ds -> acc <= digits_value acc ds.
Proof.
  intros Ha Hd. revert acc Ha; induction Hd as [|d r Hd _ IH]; intros acc Ha; simpl; [lia|].
  specialize (IH (acc * 10 + (d - 48)) ltac:(lia)). lia.
Qed.

Lemma atoi_loop_spec ds fuel m s n :
  Forall (fun d => 48 <= d <= 57) ds ->
  KString.mem_bytes m s (length ds) = ds ->
  ~ (48 <= m (s + Z.of_nat (length ds)) <= 57) ->
  0 <= n -> digits_value n ds < 2 ^ 31 - 48 -> (length ds < fuel)%nat ->
  atoi_loop fuel m s n = Some (digits_value n ds).
Proof.
  intros Hds. revert fuel s n; induction Hds as [|d r Hd Hr IH]; intros fuel s n Hm He Hn Hv Hf;
    (destruct fuel as [|fuel]; [simpl in Hf; lia|]); cbn [atoi_loop digits_value].
  - simpl in He. rewrite Z.add_0_r in He.
    destruct (Z.leb_spec 48 (m s)), (Z.leb_spec (m s) 57); cbn [andb]; lia || done.
  - cbn [length KString.mem_bytes] in Hm. injection Hm as Hd' Hm.
    rewrite Hd'. destruct (Z.leb_spec 48 d), (Z.leb_spec d 57); cbn [andb]; try lia.
    cbn [digits_value] in Hv.
    pose proof (digits_value_ge (n * 10 + (d - 48)) r ltac:(lia) Hr).
    rewrite (s32_small (n * 10)), (s32_small (n * 10 + d)), s32_small by lia.
    replace (n * 10 + d - 48) with (n * 10 + (d - 48)) by lia.
    apply IH; [done| |lia|lia|simpl in Hf; lia].
    cbn [length] in He. by replace (s + 1 + Z.of_nat (length r))
      with (s + Z.of_nat (S (length r))) by lia.
Qed.

Lemma gets_loop_stop inp m buf i max :
  0 <= i -> i + 1 <= max ->
  forall m' j rest, gets_loop m buf i max inp = (m', j, rest) ->
  i <= j /\ j + 1 <= max /\
  (exists pre, inp = pre ++ rest /\ Z.of_nat (length pre) = j - i /\
     KString.mem_bytes m' (buf + i) (length pre) = pre) /\
  (forall x, x < buf + i \/ buf + j <= x -> m' x = m x).
Proof.
  revert m i; induction inp as [|c inp IH]; intros m i Hi Hmax m' j rest H;
    cbn [gets_loop] in H; destruct (Z.ltb_spec (i + 1) max).
  - injection H as <- <- <-. split_and!; [lia|lia| |done].
    exists []. split_and!; [done|simpl; lia|done].
  - injection H as <- <- <-. split_and!; [lia|lia| |done].
    exists []. split_and!; [done|simpl; lia|done].
  - destruct ((c =? 10) || (c =? 13)).
    + injection H as <- <- <-. split_and!; [lia|lia| |].
      * exists [c]. split_and!; [done|simpl; lia|]. cbn. by rewrite upd_eq.
      * intros x Hx. apply upd_ne. lia.
    + apply IH in H as (Hj1 & Hj2 & (pre & -> & Hlen & Hm) & Hout); [|lia|lia].
      split_and!; [lia|lia| |].
      * exists (c :: pre). split_and!; [done|simpl; lia|].
        cbn [length KString.mem_bytes]. rewrite Hout by lia. rewrite upd_eq. f_equal.
        by replace (buf + i + 1) with (buf + (i + 1)) by lia.
      * intros x Hx. rewrite Hout by lia. apply upd_ne. lia.
  - injection H as <- <- <-. split_and!; [lia|lia| |done].
    exists []. split_and!; [done|simpl; lia|done].
Qed.
End Ulib.
