(* ===== verification/Disk.v ===== *)
(** * Buffers and the disk driver interface

    The [struct buf] of HW3/buf.h, what the buffer cache asks of a disk driver
    (the class [BlockDriver] and its laws), and the driver of HW3/memide.c,
    which keeps the disk image in memory.  Both ide.c and memide.c promise the
    same thing above their [iderw]: a dirty buffer is written to its block, any
    other buffer that is not valid is read from it.  The laws state that
    promise; [Memide] is shown to keep it for every image. *)

From stdpp Require Import base numbers list strings.
From Stdlib Require Import ZArith Lia.
From S2P Require Import Prelude.

Open Scope Z_scope.

Definition BSIZE : Z := 512.

(** A disk block: [BSIZE] bytes. *)
Abbreviation block := (list Z).

Definition block_ok (x : block) : Prop := length x = Z.to_nat BSIZE.

(** buf.h; [prev] and [next] are indices into the cache's array of buffers. *)
Record buf := MkBuf {
  flags : Z;
  dev : Z;
  blockno : Z;
  prev : nat;
  next : nat;
  data : block
}.

Definition B_BUSY : Z := 1.
Definition B_VALID : Z := 2.
Definition B_DIRTY : Z := 4.

Definition set_flags (f : Z) (b : buf) : buf :=
  MkBuf f (dev b) (blockno b) (prev b) (next b) (data b).
Definition set_data (x : block) (b : buf) : buf :=
  MkBuf (flags b) (dev b) (blockno b) (prev b) (next b) x.
Definition set_prev (p : nat) (b : buf) : buf :=
  MkBuf (flags b) (dev b) (blockno b) p (next b) (data b).
Definition set_next (n : nat) (b : buf) : buf :=
  MkBuf (flags b) (dev b) (blockno b) (prev b) n (data b).
Definition set_id (d n : Z) (b : buf) : buf :=
  MkBuf (flags b) d n (prev b) (next b) (data b).

Definition busy (b : buf) : bool := has (flags b) B_BUSY.
Definition valid (b : buf) : bool := has (flags b) B_VALID.
Definition dirty (b : buf) : bool := has (flags b) B_DIRTY.

#[export] Instance buf_inhabited : Inhabited buf := populate (MkBuf 0 0 0 0 0 []).

(** Two buffers that differ at most in [flags] and [data]. *)
Definition same_buf (b b' : buf) : Prop :=
  dev b' = dev b /\ blockno b' = blockno b /\ prev b' = prev b /\ next b' = next b.

(** ** The driver interface *)

Class BlockDriver (D : Type) := {
  drv_rw : buf -> M D buf;
  drv_size : D -> Z;
  drv_block : D -> Z -> block
}.

(** What the cache relies on.  A request is well formed when its buffer is
    locked, names a block of disk 1 and is dirty or not yet valid. *)
Class BlockDriverOk (D : Type) `{!BlockDriver D} := {
  drv_wf : D -> Prop;
  drv_block_ok d n : drv_wf d -> 0 <= n < drv_size d -> block_ok (drv_block d n);
  drv_read d b :
    drv_wf d -> busy b = true -> valid b = false -> dirty b = false ->
    dev b = 1 -> 0 <= blockno b < drv_size d ->
    exists b' d', drv_rw b d = Ok b' d' /\ same_buf b b' /\ data b' = drv_block d (blockno b) /\
      busy b' = true /\ valid b' = true /\ dirty b' = false /\
      drv_wf d' /\ drv_size d' = drv_size d /\
      forall n, 0 <= n < drv_size d -> drv_block d' n = drv_block d n;
  drv_write d b :
    drv_wf d -> busy b = true -> dirty b = true ->
    dev b = 1 -> 0 <= blockno b < drv_size d -> block_ok (data b) ->
    exists b' d', drv_rw b d = Ok b' d' /\ same_buf b b' /\ data b' = data b /\
      busy b' = true /\ valid b' = true /\ dirty b' = false /\
      drv_wf d' /\ drv_size d' = drv_size d /\
      forall n, 0 <= n < drv_size d ->
        drv_block d' n = if n =? blockno b then data b else drv_block d n
}.

(** ** memide.c *)

Module Memide.

Record state := MkMemide { memdisk : list Z; disksize : Z }.

Definition ideinit (image : list Z) : state :=
  MkMemide image (Z.of_nat (length image) / BSIZE).

(** memide's interrupt handler does nothing. *)
Definition ideintr : M state unit := mret tt.

Definition iderw (b : buf) : M state buf :=
  if negb (has (flags b) B_BUSY) then panic "iderw: buf not busy"
  else if Z.land (flags b) (Z.lor B_VALID B_DIRTY) =? B_VALID then panic "iderw: nothing to do"
  else if negb (dev b =? 1) then panic "iderw: request not for disk 1"
  else
    d ← get;
    if blockno b >=? disksize d then panic "iderw: block out of range"
    else
      let p := Z.to_nat (blockno b * BSIZE) in
      if has (flags b) B_DIRTY then
        modify (fun d => MkMemide (put_bytes (memdisk d) p (data b)) (disksize d));;
        mret (set_flags (Z.lor (Z.land (flags b) (Z.lnot B_DIRTY)) B_VALID) b)
      else
        mret (set_flags (Z.lor (flags b) B_VALID)
                (set_data (get_bytes (memdisk d) p (Z.to_nat BSIZE)) b)).

Definition wf (d : state) : Prop :=
  0 <= disksize d /\ disksize d * BSIZE <= Z.of_nat (length (memdisk d)).

Definition block_at (d : state) (n : Z) : block :=
  get_bytes (memdisk d) (Z.to_nat (n * BSIZE)) (Z.to_nat BSIZE).

#[export] Instance memide_driver : BlockDriver state := {
  drv_rw := iderw; drv_size := disksize; drv_block := block_at
}.

Lemma nothing_to_do b :
  valid b = false \/ dirty b = true ->
  (Z.land (flags b) (Z.lor B_VALID B_DIRTY) =? B_VALID) = false.
Proof.
  unfold valid, dirty. rewrite Z.eqb_neq. intros [H|H] E.
  - assert (Hh : has (Z.land (flags b) (Z.lor B_VALID B_DIRTY)) B_VALID = true) by (by rewrite E).
    unfold has in Hh, H. rewrite <- Z.land_assoc in Hh.
    change (Z.land (Z.lor B_VALID B_DIRTY) B_VALID) with B_VALID in Hh. by rewrite H in Hh.
  - assert (Hh : has (Z.land (flags b) (Z.lor B_VALID B_DIRTY)) B_DIRTY = false) by (by rewrite E).
    unfold has in Hh, H. rewrite <- Z.land_assoc in Hh.
    change (Z.land (Z.lor B_VALID B_DIRTY) B_DIRTY) with B_DIRTY in Hh. by rewrite H in Hh.
Qed.

Lemma block_at_ok d n : wf d -> 0 <= n < disksize d -> block_ok (block_at d n).
Proof.
  unfold wf, block_ok, block_at, BSIZE. intros [H0 Hl] Hn.
  apply length_get_bytes. lia.
Qed.

Lemma iderw_read d b :
  wf d -> busy b = true -> valid b = false -> dirty b = false ->
  dev b = 1 -> 0 <= blockno b < disksize d ->
  exists b' d', iderw b d = Ok b' d' /\ same_buf b b' /\ data b' = block_at d (blockno b) /\
    busy b' = true /\ valid b' = true /\ dirty b' = false /\
    wf d' /\ disksize d' = disksize d /\
    forall n, 0 <= n < disksize d -> block_at d' n = block_at d n.
Proof.
  intros Hwf Hb Hv Hd Hdev Hn. unfold iderw.
  rewrite nothing_to_do by auto. unfold busy, valid, dirty in *.
  rewrite Hb, Hdev, Hd, Z.eqb_refl. munfold. cbn [negb].
  rewrite Z.geb_leb, (proj2 (Z.leb_gt _ _)) by lia.
  eexists _, d. split; [reflexivity|]. cbn [flags set_flags set_data dev blockno prev next data].
  rewrite !has_lor, Hb, Hv, Hd. split_and!; done.
Qed.

Lemma iderw_write d b :
  wf d -> busy b = true -> dirty b = true ->
  dev b = 1 -> 0 <= blockno b < disksize d -> block_ok (data b) ->
  exists b' d', iderw b d = Ok b' d' /\ same_buf b b' /\ data b' = data b /\
    busy b' = true /\ valid b' = true /\ dirty b' = false /\
    wf d' /\ disksize d' = disksize d /\
    forall n, 0 <= n < disksize d ->
      block_at d' n = if n =? blockno b then data b else block_at d n.
Proof.
  intros [H0 Hl] Hb Hd Hdev Hn Hok. unfold iderw.
  rewrite nothing_to_do by auto. unfold busy, valid, dirty, BSIZE in *.
  rewrite Hb, Hdev, Hd, Z.eqb_refl. munfold. cbn [negb].
  rewrite Z.geb_leb, (proj2 (Z.leb_gt _ _)) by lia.
  unfold block_ok, BSIZE in Hok.
  eexists _, _. split; [reflexivity|]. cbn [flags set_flags set_data dev blockno prev next data].
  rewrite !has_lor, has_clear_same, !has_clear_other, Hb by done.
  split_and!; try done; unfold wf, block_at, BSIZE; cbn [memdisk disksize].
  - by rewrite orb_true_r.
  - rewrite length_put_bytes by lia. lia.
  - intros n Hn'. destruct (Z.eqb_spec n (blockno b)) as [->|Hne].
    + rewrite <- Hok. apply get_put_bytes_eq. lia.
    + apply get_put_bytes_out; lia.
Qed.

#[export] Instance memide_ok : BlockDriverOk state := {
  drv_wf := wf; drv_block_ok := block_at_ok; drv_read := iderw_read; drv_write := iderw_write
}.

End Memide.

#[export] Existing Instances Memide.memide_driver Memide.memide_ok.
