(* ===== verification/Blocks.v ===== *)
(** * What the buffer cache promises

    log.c and fs.c see the disk through four routines of bio.c and the fields
    of the [struct buf] they are handed.  [BlockCache] lists those operations;
    [acache] is the state a client reasons about, and [BlockCacheOk] gives the
    law of every operation on it.  The log and the file system are written and
    verified against this interface only. *)

From stdpp Require Import base numbers list gmap strings.
From Stdlib Require Import ZArith Lia.
From S2P Require Import Prelude Disk.

Open Scope Z_scope.

(** param.h *)
Definition MAXOPBLOCKS : Z := 10.
Definition LOGSIZE : Z := MAXOPBLOCKS * 3.
Definition NBUF : nat := Z.to_nat (MAXOPBLOCKS * 3).
Definition FSSIZE : Z := 1000.
Definition ROOTDEV : Z := 1.

(** A buffer is named by its index; [bset] is a store to [b->data] by the
    process that holds [b], and [bdirty] is [b->flags |= B_DIRTY]. *)
Class BlockCache (C : Type) := {
  bread : Z -> Z -> M C nat;
  bwrite : nat -> M C unit;
  brelse : nat -> M C unit;
  bdata : C -> nat -> block;
  bblockno : C -> nat -> Z;
  bset : nat -> block -> C -> C;
  bdirty : nat -> C -> C
}.

(** The client's view: the blocks on disk, the blocks as a reader sees them
    through the cache, the locked buffers with their block numbers, the blocks
    pinned by [B_DIRTY], and every block write issued so far, in order. *)
Record acache := ACache {
  a_size : Z;
  a_disk : Z -> block;
  a_view : Z -> block;
  a_held : gmap nat Z;
  a_pinned : gset Z;
  a_writes : list (Z * block)
}.

Definition a_hold (i : nat) (n : Z) (a : acache) : acache :=
  ACache (a_size a) (a_disk a) (a_view a) (<[i := n]> (a_held a)) (a_pinned a) (a_writes a).
Definition a_release (i : nat) (a : acache) : acache :=
  ACache (a_size a) (a_disk a) (a_view a) (delete i (a_held a)) (a_pinned a) (a_writes a).
Definition a_store (n : Z) (x : block) (a : acache) : acache :=
  ACache (a_size a) (a_disk a) (zset (a_view a) n x) (a_held a) (a_pinned a) (a_writes a).
Definition a_pin (n : Z) (a : acache) : acache :=
  ACache (a_size a) (a_disk a) (a_view a) (a_held a) ({[n]} ∪ a_pinned a) (a_writes a).
Definition a_flush (n : Z) (a : acache) : acache :=
  ACache (a_size a) (zset (a_disk a) n (a_view a n)) (a_view a) (a_held a)
    (a_pinned a ∖ {[n]}) (a_writes a ++ [(n, a_view a n)]).

(** A block stored and written through: what a [bwrite] of new data does. *)
Definition a_sync (n : Z) (x : block) (a : acache) : acache :=
  ACache (a_size a) (zset (a_disk a) n x) (zset (a_view a) n x) (a_held a)
    (a_pinned a ∖ {[n]}) (a_writes a ++ [(n, x)]).

Lemma a_flush_store n x a : a_flush n (a_store n x a) = a_sync n x a.
Proof. unfold a_flush, a_store, a_sync. cbn. by rewrite zset_eq. Qed.

(** Block writes applied to a disk, and a sequence of writes through the cache. *)
Fixpoint apply_writes (ws : list (Z * block)) (d : Z -> block) : Z -> block :=
  match ws with
  | [] => d
  | (n, x) :: r => apply_writes r (zset d n x)
  end.

Fixpoint a_syncs (ws : list (Z * block)) (a : acache) : acache :=
  match ws with
  | [] => a
  | (n, x) :: r => a_syncs r (a_sync n x a)
  end.

Lemma apply_writes_app ws ws' d :
  apply_writes (ws ++ ws') d = apply_writes ws' (apply_writes ws d).
Proof. revert d. induction ws as [|[n x] ws IH]; intros d; cbn; [done|apply IH]. Qed.

Lemma apply_writes_ne ws d n : n ∉ ws.*1 -> apply_writes ws d n = d n.
Proof.
  revert d. induction ws as [|[m x] ws IH]; intros d Hn; cbn; [done|].
  cbn in Hn. rewrite IH by set_solver. apply zset_ne. set_solver.
Qed.

Lemma apply_writes_eq ws d n x :
  NoDup ws.*1 -> (n, x) ∈ ws -> apply_writes ws d n = x.
Proof.
  revert d. induction ws as [|[m y] ws IH]; intros d Hnd Hin; [set_solver|].
  cbn in *. apply NoDup_cons in Hnd as [Hm Hnd].
  apply elem_of_cons in Hin as [[= <- <-]|Hin]; [|by apply IH].
  rewrite apply_writes_ne by done. apply zset_eq.
Qed.

Lemma apply_writes_agree ws d d' n :
  (n ∉ ws.*1 -> d n = d' n) -> apply_writes ws d n = apply_writes ws d' n.
Proof.
  revert d d'. induction ws as [|[m x] ws IH]; intros d d' H; cbn; [apply H; set_solver|].
  apply IH. intros Hn. unfold zset. destruct (Z.eqb_spec n m) as [|Hne]; [done|].
  apply H. cbn. set_solver.
Qed.

Lemma a_syncs_app ws ws' a : a_syncs (ws ++ ws') a = a_syncs ws' (a_syncs ws a).
Proof. revert a. induction ws as [|[n x] ws IH]; intros a; cbn; [done|apply IH]. Qed.

Lemma a_syncs_fields ws a :
  a_size (a_syncs ws a) = a_size a /\ a_disk (a_syncs ws a) = apply_writes ws (a_disk a) /\
  a_view (a_syncs ws a) = apply_writes ws (a_view a) /\ a_held (a_syncs ws a) = a_held a /\
  a_pinned (a_syncs ws a) = a_pinned a ∖ list_to_set ws.*1 /\
  a_writes (a_syncs ws a) = a_writes a ++ ws.
Proof.
  revert a. induction ws as [|[n x] ws IH]; intros a; cbn.
  - rewrite app_nil_r. split_and!; try done. set_solver.
  - destruct (IH (a_sync n x a)) as (-> & -> & -> & -> & -> & ->). cbn.
    split_and!; try done; [set_solver|]. by rewrite <- app_assoc.
Qed.

(** A cache just set up over a disk: nothing cached, nothing locked. *)
Definition a_fresh (size : Z) (d : Z -> block) : acache := ACache size d d ∅ ∅ [].

(** Blocks whose buffers cannot be recycled. *)
Definition a_stuck (a : acache) : gset Z := a_pinned a ∪ map_img (a_held a).

Definition a_wf (a : acache) : Prop :=
  (forall n, 0 <= n < a_size a -> block_ok (a_view a n)) /\
  (forall n, 0 <= n < a_size a -> block_ok (a_disk a n)) /\
  (forall i n, a_held a !! i = Some n -> 0 <= n < a_size a) /\
  (forall n, n ∈ a_pinned a -> 0 <= n < a_size a).

Class BlockCacheOk (C : Type) `{!BlockCache C} := {
  crep : C -> acache -> Prop;
  crep_wf c a : crep c a -> a_wf a;
  crep_held c a i n :
    crep c a -> a_held a !! i = Some n -> bdata c i = a_view a n /\ bblockno c i = n;
  bread_ok c a n :
    crep c a -> 0 <= n < a_size a -> n ∉ (map_img (a_held a) : gset Z) ->
    n ∈ a_pinned a \/ (size (a_stuck a) < NBUF)%nat ->
    exists i c', bread ROOTDEV n c = Ok i c' /\ a_held a !! i = None /\ crep c' (a_hold i n a);
  bread_locked c a i n :
    crep c a -> a_held a !! i = Some n -> bread ROOTDEV n c = Sleep (ChanBuf i) c;
  bset_ok c a i n x :
    crep c a -> a_held a !! i = Some n -> block_ok x -> crep (bset i x c) (a_store n x a);
  bdirty_ok c a i n :
    crep c a -> a_held a !! i = Some n -> crep (bdirty i c) (a_pin n a);
  bwrite_ok c a i n :
    crep c a -> a_held a !! i = Some n ->
    exists c', bwrite i c = Ok tt c' /\ crep c' (a_flush n a);
  brelse_ok c a i n :
    crep c a -> a_held a !! i = Some n -> n ∈ a_pinned a \/ a_view a n = a_disk a n ->
    exists c', brelse i c = Ok tt c' /\ crep c' (a_release i a)
}.
