(* ===== verification/Bio.v ===== *)
(** * The buffer cache (HW3/bio.c)

    [Ring] is the reasoning about the cache's circular list of buffers, kept
    through [prev] and [next] pointers; [Cache] is bio.c over any disk driver.
    The cache is shown to implement [BlockCache], the interface the log and the
    file system are written against: an abstract state gives the disk, what a
    reader of each block sees, which buffers are locked and which blocks are
    pinned by a dirty flag, and the laws say what each routine does to it. *)

From stdpp Require Import base numbers list gmap strings.
From Stdlib Require Import ZArith Lia.
From S2P Require Import Prelude Disk Blocks.

Open Scope Z_scope.

(** ** Doubly linked rings

    [dseg nx pv x l z]: following [nx] from [x] visits [l] and then reaches
    [z], and [pv] leads back the same way. *)

Module Ring.

Definition nset (f : nat -> nat) (k v : nat) : nat -> nat :=
  fun i => if decide (i = k) then v else f i.

Lemma nset_eq f k v : nset f k v k = v.
Proof. unfold nset. by case_decide. Qed.

Lemma nset_ne f k v i : i <> k -> nset f k v i = f i.
Proof. intros H. unfold nset. by case_decide. Qed.

Fixpoint dseg (nx pv : nat -> nat) (x : nat) (l : list nat) (z : nat) : Prop :=
  match l with
  | [] => nx x = z /\ pv z = x
  | y :: r => nx x = y /\ pv y = x /\ dseg nx pv y r z
  end.

Lemma dseg_app nx pv x l1 y l2 z :
  dseg nx pv x (l1 ++ y :: l2) z <-> dseg nx pv x l1 y /\ dseg nx pv y l2 z.
Proof.
  revert x; induction l1 as [|w l1 IH]; intros x; simpl; [tauto|].
  rewrite IH. tauto.
Qed.

Lemma dseg_rev nx pv x l z : dseg nx pv x l z -> dseg pv nx z (rev l) x.
Proof.
  revert x; induction l as [|w l IH]; intros x; simpl; [tauto|].
  intros (H1 & H2 & H3). apply dseg_app. split; [by apply IH|done].
Qed.

Lemma dseg_ext nx pv nx' pv' x l z :
  (forall i, i ∈ x :: l -> nx' i = nx i) -> (forall i, i ∈ l ++ [z] -> pv' i = pv i) ->
  dseg nx pv x l z -> dseg nx' pv' x l z.
Proof.
  revert x; induction l as [|w l IH]; intros x Hn Hp; simpl.
  - rewrite Hn, Hp by set_solver. tauto.
  - rewrite Hn, Hp by set_solver. intros (H1 & H2 & H3). split_and!; [done..|].
    apply IH; [intros; apply Hn; set_solver|intros; apply Hp; set_solver|done].
Qed.

Lemma dseg_last nx pv x l z : dseg nx pv x l z -> pv z ∈ x :: l.
Proof.
  revert x; induction l as [|w l IH]; intros x; simpl.
  - intros [_ ->]. set_solver.
  - intros (_ & _ & H). apply IH in H. set_solver.
Qed.

Lemma dseg_first nx pv x l z : dseg nx pv x l z -> nx x ∈ l ++ [z].
Proof. destruct l; simpl; intros; destruct_and?; subst; set_solver. Qed.

(** Unlinking [b]: its neighbours are joined. *)
Lemma dseg_remove nx pv x l1 b l2 z :
  dseg nx pv x (l1 ++ b :: l2) z ->
  NoDup (l1 ++ b :: l2) -> x ∉ l1 ++ b :: l2 -> z ∉ l1 ++ b :: l2 ->
  dseg (nset nx (pv b) (nx b)) (nset pv (nx b) (pv b)) x (l1 ++ l2) z.
Proof.
  revert x; induction l1 as [|w l1 IH]; intros x H Hnd Hx Hz.
  - simpl in *. destruct H as (Hnx & Hpv & H2). rewrite Hpv.
    destruct l2 as [|y r]; simpl in *.
    + destruct H2 as [H2 _]. rewrite H2, !nset_eq. done.
    + destruct H2 as (H2 & H3 & H4). rewrite H2, !nset_eq. split_and!; [done..|].
      apply NoDup_cons in Hnd as [_ Hnd]. apply NoDup_cons in Hnd as [Hy Hnd].
      apply (dseg_ext nx pv); [| |done]; intros i Hi; apply nset_ne; intros ->; set_solver.
  - pose proof (proj1 (dseg_app _ _ _ _ _ _ _) H) as [Hl _].
    simpl in *. destruct H as (Hnx & Hpv & H).
    apply NoDup_cons in Hnd as [Hw Hnd].
    pose proof (proj1 (dseg_app _ _ _ _ _ _ _) H) as [Hl1 Hl2].
    apply dseg_last in Hl1. apply dseg_first in Hl2.
    split_and!.
    + rewrite nset_ne; [done|]. intros ->. set_solver.
    + rewrite nset_ne; [done|]. intros ->. set_solver.
    + apply IH; set_solver.
Qed.

(** Linking [b] in right after [x]. *)
Lemma dseg_insert nx pv x l b z :
  dseg nx pv x l z -> NoDup l -> b ∉ l -> b <> x -> b <> z -> x ∉ l -> z ∉ l ->
  dseg (nset (nset nx b (nx x)) x b) (nset (nset pv b x) (nx x) b) x (b :: l) z.
Proof.
  intros H Hnd Hb Hbx Hbz Hx Hz. pose proof (dseg_first _ _ _ _ _ H) as Hf.
  simpl. rewrite nset_eq. split_and!; [done| |].
  - rewrite nset_ne, nset_eq; [done|]. intros ->. set_solver.
  - destruct l as [|y r]; simpl in *.
    + destruct H as [-> H]. rewrite nset_ne, !nset_eq by done. done.
    + destruct H as (-> & H1 & H2). rewrite nset_ne, !nset_eq by done. split_and!; [done..|].
      apply NoDup_cons in Hnd as [Hy Hnd].
      apply (dseg_ext nx pv); [| |done]; intros i Hi; rewrite !nset_ne; try done; intros ->; set_solver.
Qed.

(** Walking the ring from a node until [stop], looking for the first node that
    satisfies the test: the [for] loops of [bget]. *)
Fixpoint walk (fuel : nat) (step : nat -> nat) (stop : nat) (p : nat -> bool) (i : nat)
  : option (option nat) :=
  match fuel with
  | O => None
  | S k =>
      if decide (i = stop) then Some None
      else if p i then Some (Some i)
      else walk k step stop p (step i)
  end.

Lemma walk_find fuel nx pv x l z p :
  dseg nx pv x l z -> z ∉ l -> (length l < fuel)%nat ->
  walk fuel nx z p (nx x) = Some (List.find p l).
Proof.
  revert fuel x; induction l as [|w l IH]; intros fuel x H Hz Hf;
    (destruct fuel as [|fuel]; [simpl in Hf; lia|]); simpl in *.
  - destruct H as [-> _]. by case_decide.
  - destruct H as (-> & _ & H). case_decide; [set_solver|].
    destruct (p w); [done|]. apply IH; [done|set_solver|lia].
Qed.

End Ring.

Module Cache.

(** [bcache.head] is the buffer after the [NBUF] cached ones. *)
Definition HEAD : nat := NBUF.

Section bio.
Context {D : Type} `{!BlockDriver D}.

(** The cache, the driver below it and, for stating what a crash can leave
    behind, the block writes handed to the driver so far. *)
Record bcache := MkBcache { bufs : list buf; drv : D; writes : list (Z * block) }.

Definition getb (c : bcache) (i : nat) : buf := bufs c !!! i.

Definition upd_buf (i : nat) (f : buf -> buf) (c : bcache) : bcache :=
  MkBcache (alter f i (bufs c)) (drv c) (writes c).

Definition modb (i : nat) (f : buf -> buf) : M bcache unit := modify (upd_buf i f).

(** Insert buffer [b] right after the head: the four stores shared by [binit]
    and [brelse]. *)
Definition link_front (b : nat) : M bcache unit :=
  c ← get;
  modb b (set_next (next (getb c HEAD)));;
  modb b (set_prev HEAD);;
  c ← get;
  modb (next (getb c HEAD)) (set_prev b);;
  modb HEAD (set_next b).

Definition NODEV : Z := u32 (-1).

Fixpoint binit_loop (b n : nat) : M bcache unit :=
  match n with
  | O => mret tt
  | S k =>
      c ← get;
      modb b (set_next (next (getb c HEAD)));;
      modb b (set_prev HEAD);;
      modb b (fun x => set_id NODEV (blockno x) x);;
      c ← get;
      modb (next (getb c HEAD)) (set_prev b);;
      modb HEAD (set_next b);;
      binit_loop (S b) k
  end.

Definition binit : M bcache unit :=
  modb HEAD (set_prev HEAD);;
  modb HEAD (set_next HEAD);;
  binit_loop 0 NBUF.

(** [bget]: the buffer of a block, locked.  Asleep on a locked buffer, the
    caller starts over when it is woken. *)
Definition bget (dev0 blockno0 : Z) : M bcache nat :=
  c ← get;
  match Ring.walk (S NBUF) (fun i => next (getb c i)) HEAD
          (fun i => (dev (getb c i) =? dev0) && (blockno (getb c i) =? blockno0))
          (next (getb c HEAD)) with
  | None => fun _ => Diverge
  | Some (Some b) =>
      if negb (has (flags (getb c b)) B_BUSY)
      then modb b (fun x => set_flags (Z.lor (flags x) B_BUSY) x);; mret b
      else sleep_on (ChanBuf b)
  | Some None =>
      match Ring.walk (S NBUF) (fun i => prev (getb c i)) HEAD
              (fun i => (Z.land (flags (getb c i)) B_BUSY =? 0)
                        && (Z.land (flags (getb c i)) B_DIRTY =? 0))
              (prev (getb c HEAD)) with
      | None => fun _ => Diverge
      | Some (Some b) =>
          modb b (fun x => set_flags B_BUSY (set_id dev0 blockno0 x));; mret b
      | Some None => panic "bget: no buffers"
      end
  end.

(** The driver call [iderw(b)]. *)
Definition iderw (b : nat) : M bcache unit := fun c =>
  let x := getb c b in
  match drv_rw x (drv c) with
  | Ok x' d' =>
      Ok tt (MkBcache (<[b := x']> (bufs c)) d'
               (if dirty x then writes c ++ [(blockno x, data x)] else writes c))
  | Panic msg => Panic msg
  | Sleep ch d' => Sleep ch (MkBcache (bufs c) d' (writes c))
  | Undef why => Undef why
  | Diverge => Diverge
  end.

Definition bread (dev0 blockno0 : Z) : M bcache nat :=
  b ← bget dev0 blockno0;
  c ← get;
  when (negb (has (flags (getb c b)) B_VALID)) (iderw b);;
  mret b.

Definition bwrite (b : nat) : M bcache unit :=
  c ← get;
  if Z.land (flags (getb c b)) B_BUSY =? 0 then panic "bwrite"
  else
    modb b (fun x => set_flags (Z.lor (flags x) B_DIRTY) x);;
    iderw b.

Definition brelse (b : nat) : M bcache unit :=
  c ← get;
  if Z.land (flags (getb c b)) B_BUSY =? 0 then panic "brelse"
  else
    modb (next (getb c b)) (set_prev (prev (getb c b)));;
    c ← get;
    modb (prev (getb c b)) (set_next (next (getb c b)));;
    link_front b;;
    modb b (fun x => set_flags (Z.land (flags x) (Z.lnot B_BUSY)) x).

#[export] Instance bio_cache : BlockCache bcache := {
  Blocks.bread := bread; Blocks.bwrite := bwrite; Blocks.brelse := brelse;
  bdata c i := data (getb c i);
  bblockno c i := blockno (getb c i);
  bset i x := upd_buf i (set_data x);
  bdirty i := upd_buf i (fun b => set_flags (Z.lor (flags b) B_DIRTY) b)
}.

(** ** Updates of one buffer *)

Lemma getb_upd_eq i f c : (i < length (bufs c))%nat -> getb (upd_buf i f c) i = f (getb c i).
Proof. intros H. unfold getb, upd_buf. simpl. by apply list_lookup_total_alter_eq. Qed.

Lemma getb_upd_ne i j f c : i <> j -> getb (upd_buf i f c) j = getb c j.
Proof. intros H. unfold getb, upd_buf. simpl. by apply list_lookup_total_alter_ne. Qed.

Lemma getb_upd_field {A} (g : buf -> A) i f c j :
  (forall b, g (f b) = g b) -> g (getb (upd_buf i f c) j) = g (getb c j).
Proof.
  intros Hg. unfold getb, upd_buf. simpl. rewrite list_lookup_total_alter.
  case_decide as E; [|done]. destruct E as [<- _]. apply Hg.
Qed.

Lemma length_upd i f c : length (bufs (upd_buf i f c)) = length (bufs c).
Proof. apply length_alter. Qed.

Definition nx (c : bcache) (i : nat) : nat := next (getb c i).
Definition pv (c : bcache) (i : nat) : nat := prev (getb c i).

Lemma nx_set_next i v c j :
  (i < length (bufs c))%nat -> nx (upd_buf i (set_next v) c) j = Ring.nset (nx c) i v j.
Proof.
  intros H. unfold nx, Ring.nset. case_decide as E.
  - subst. by rewrite getb_upd_eq.
  - by rewrite getb_upd_ne.
Qed.

Lemma pv_set_prev i v c j :
  (i < length (bufs c))%nat -> pv (upd_buf i (set_prev v) c) j = Ring.nset (pv c) i v j.
Proof.
  intros H. unfold pv, Ring.nset. case_decide as E.
  - subst. by rewrite getb_upd_eq.
  - by rewrite getb_upd_ne.
Qed.

Lemma nx_upd_other i f c j : (forall b, next (f b) = next b) -> nx (upd_buf i f c) j = nx c j.
Proof. apply (getb_upd_field next). Qed.

Lemma pv_upd_other i f c j : (forall b, prev (f b) = prev b) -> pv (upd_buf i f c) j = pv c j.
Proof. apply (getb_upd_field prev). Qed.

(** ** The ring of buffers *)

Definition ring (c : bcache) (l : list nat) : Prop :=
  Ring.dseg (nx c) (pv c) HEAD l HEAD /\ l ≡ₚ seq 0 NBUF /\ length (bufs c) = S NBUF.

Lemma ring_elem c l i : ring c l -> i ∈ l <-> (i < NBUF)%nat.
Proof. intros (_ & -> & _). rewrite elem_of_seq. lia. Qed.

Lemma ring_nodup c l : ring c l -> NoDup l.
Proof. intros (_ & -> & _). apply NoDup_seq. Qed.

Lemma ring_head c l : ring c l -> HEAD ∉ l.
Proof. intros H. rewrite (ring_elem c) by done. unfold HEAD. lia. Qed.

Lemma ring_ext c c' l :
  (forall i, nx c' i = nx c i) -> (forall i, pv c' i = pv c i) ->
  length (bufs c') = length (bufs c) -> ring c l -> ring c' l.
Proof.
  intros Hn Hp Hl (H1 & H2 & H3). split_and!; [|done|congruence].
  by apply (Ring.dseg_ext (nx c) (pv c)).
Qed.

Lemma ring_upd_other i f c l :
  (forall b, next (f b) = next b) -> (forall b, prev (f b) = prev b) ->
  ring c l -> ring (upd_buf i f c) l.
Proof.
  intros Hn Hp. apply ring_ext; [intros; by apply nx_upd_other|intros; by apply pv_upd_other|].
  apply length_upd.
Qed.

(** The stores of [brelse] before it unlocks the buffer. *)
Definition unlink (b : nat) (c : bcache) : bcache :=
  let c1 := upd_buf (nx c b) (set_prev (pv c b)) c in
  upd_buf (pv c1 b) (set_next (nx c1 b)) c1.

Definition to_front (b : nat) (c : bcache) : bcache :=
  let c1 := upd_buf b (set_prev HEAD) (upd_buf b (set_next (nx c HEAD)) c) in
  upd_buf HEAD (set_next b) (upd_buf (nx c1 HEAD) (set_prev b) c1).

Lemma unlink_fields {A} (g : buf -> A) b c j :
  (forall x n, g (set_next n x) = g x) -> (forall x n, g (set_prev n x) = g x) ->
  g (getb (unlink b c) j) = g (getb c j).
Proof. intros Hn Hp. unfold unlink. by rewrite !(getb_upd_field g). Qed.

Lemma to_front_fields {A} (g : buf -> A) b c j :
  (forall x n, g (set_next n x) = g x) -> (forall x n, g (set_prev n x) = g x) ->
  g (getb (to_front b c) j) = g (getb c j).
Proof. intros Hn Hp. unfold to_front. by rewrite !(getb_upd_field g). Qed.

Lemma unlink_dseg c b l1 l2 :
  Ring.dseg (nx c) (pv c) HEAD (l1 ++ b :: l2) HEAD ->
  l1 ++ b :: l2 ≡ₚ seq 0 NBUF -> length (bufs c) = S NBUF ->
  Ring.dseg (nx (unlink b c)) (pv (unlink b c)) HEAD (l1 ++ l2) HEAD.
Proof.
  intros H Hp Hlen.
  assert (Hr : ring c (l1 ++ b :: l2)) by done.
  pose proof (ring_nodup _ _ Hr) as Hnd. pose proof (ring_head _ _ Hr) as Hh.
  pose proof (proj1 (Ring.dseg_app _ _ _ _ _ _ _) H) as [Hl1 Hl2].
  apply Ring.dseg_last in Hl1. apply Ring.dseg_first in Hl2.
  assert (Hin : forall i, i ∈ HEAD :: l1 ++ b :: l2 -> (i < length (bufs c))%nat).
  { intros i [->|Hi]%elem_of_cons; [unfold HEAD; lia|].
    apply (ring_elem c _ i Hr) in Hi. lia. }
  assert (Hnb : nx c b <> b).
  { intros E. rewrite E in Hl2. apply NoDup_app in Hnd as (_ & _ & Hnd).
    apply NoDup_cons in Hnd as [Hb _]. set_solver. }
  apply (Ring.dseg_remove _ _ _ l1 b l2) in H; [|done..].
  unfold unlink.
  assert (Epv : pv (upd_buf (nx c b) (set_prev (pv c b)) c) b = pv c b).
  { rewrite pv_set_prev by (apply Hin; set_solver). by apply Ring.nset_ne. }
  assert (Enx : forall j, nx (upd_buf (nx c b) (set_prev (pv c b)) c) j = nx c j)
    by (intros; by apply nx_upd_other).
  rewrite Epv, Enx. revert H. apply Ring.dseg_ext; intros i _.
  - rewrite nx_set_next by (rewrite length_upd; apply Hin; set_solver).
    unfold Ring.nset. case_decide; [done|]. by rewrite Enx.
  - rewrite pv_upd_other by done. apply pv_set_prev. apply Hin; set_solver.
Qed.

Lemma to_front_dseg c b l :
  Ring.dseg (nx c) (pv c) HEAD l HEAD ->
  b :: l ≡ₚ seq 0 NBUF -> length (bufs c) = S NBUF ->
  Ring.dseg (nx (to_front b c)) (pv (to_front b c)) HEAD (b :: l) HEAD.
Proof.
  intros H Hp Hlen.
  assert (Hnd : NoDup (b :: l)) by (rewrite Hp; apply NoDup_seq).
  assert (Hin : forall i, i ∈ b :: l -> (i < NBUF)%nat).
  { intros i. rewrite Hp, elem_of_seq. lia. }
  assert (Hh : HEAD ∉ b :: l) by (intros Hi; apply Hin in Hi; unfold HEAD in Hi; lia).
  apply NoDup_cons in Hnd as [Hb Hnd].
  pose proof (Hin b ltac:(set_solver)) as Hbl.
  pose proof (Ring.dseg_first _ _ _ _ _ H) as Hf.
  assert (Hfl : (nx c HEAD < S NBUF)%nat).
  { apply elem_of_app in Hf as [Hf|Hf]; [specialize (Hin (nx c HEAD) ltac:(set_solver)); lia|].
    apply list_elem_of_singleton in Hf. unfold HEAD in Hf at 2. lia. }
  assert (HHl : (HEAD < S NBUF)%nat) by (unfold HEAD; lia).
  apply (Ring.dseg_insert _ _ _ _ b) in H; [|done|done|set_solver|set_solver|set_solver|set_solver].
  unfold to_front.
  set (c1 := upd_buf b (set_prev HEAD) (upd_buf b (set_next (nx c HEAD)) c)).
  assert (Enx : forall j, nx c1 j = Ring.nset (nx c) b (nx c HEAD) j).
  { intros j. unfold c1. rewrite nx_upd_other by done. apply nx_set_next. lia. }
  assert (Epv : forall j, pv c1 j = Ring.nset (pv c) b HEAD j).
  { intros j. unfold c1. rewrite pv_set_prev by (rewrite length_upd; lia).
    unfold Ring.nset. case_decide; [done|]. by apply pv_upd_other. }
  assert (EH : nx c1 HEAD = nx c HEAD) by (rewrite Enx; apply Ring.nset_ne; set_solver).
  assert (Hc1 : length (bufs c1) = S NBUF) by (unfold c1; rewrite !length_upd; done).
  rewrite EH. revert H. apply Ring.dseg_ext; intros i _.
  - rewrite nx_set_next by (rewrite length_upd; lia).
    destruct (decide (i = HEAD)) as [->|Hne]; [by rewrite !Ring.nset_eq|].
    rewrite !(Ring.nset_ne _ HEAD) by done. rewrite nx_upd_other by done. apply Enx.
  - rewrite pv_upd_other by done. rewrite pv_set_prev by lia.
    destruct (decide (i = nx c HEAD)) as [->|Hne]; [by rewrite !Ring.nset_eq|].
    rewrite !(Ring.nset_ne _ (nx c HEAD)) by done. apply Epv.
Qed.

End bio.
Arguments bcache D : clear implicits.

(** ** The cache implements [BlockCache] *)

Section laws.
Context {D : Type} `{!BlockDriver D, !BlockDriverOk D}.

(** What every cached buffer satisfies: one never used is marked with the
    device number -1; any other holds what a reader of its block sees, is
    locked exactly when a client holds it, is dirty exactly when its block is
    pinned, and agrees with the disk when it is neither. *)
Definition buf_ok (a : acache) (i : nat) (b : buf) : Prop :=
  if valid b then
    dev b = ROOTDEV /\ 0 <= blockno b < a_size a /\ data b = a_view a (blockno b) /\
    a_held a !! i = (if busy b then Some (blockno b) else None) /\
    (dirty b = true <-> blockno b ∈ a_pinned a) /\
    (busy b = false -> dirty b = false -> a_view a (blockno b) = a_disk a (blockno b))
  else dev b = NODEV /\ busy b = false /\ dirty b = false /\ a_held a !! i = None.

Definition caches (c : bcache D) (n : Z) (i : nat) : Prop :=
  (i < NBUF)%nat /\ valid (getb c i) = true /\ blockno (getb c i) = n.

Record rep (c : bcache D) (a : acache) : Prop := {
  rep_ring : exists l, ring c l;
  rep_drv : drv_wf (drv c);
  rep_size : drv_size (drv c) = a_size a;
  rep_disk : forall n, 0 <= n < a_size a -> drv_block (drv c) n = a_disk a n;
  rep_writes : writes c = a_writes a;
  rep_buf : forall i, (i < NBUF)%nat -> buf_ok a i (getb c i);
  rep_uniq : forall n i j, caches c n i -> caches c n j -> i = j;
  rep_uncached : forall n, 0 <= n < a_size a ->
    (exists i, caches c n i) \/ (a_view a n = a_disk a n /\ n ∉ a_pinned a);
  rep_held_lt : forall i n, a_held a !! i = Some n -> (i < NBUF)%nat;
  rep_wf : a_wf a
}.

Lemma rep_held c a i n :
  rep c a -> a_held a !! i = Some n ->
  (i < NBUF)%nat /\ valid (getb c i) = true /\ busy (getb c i) = true /\
  blockno (getb c i) = n /\ dev (getb c i) = ROOTDEV /\ data (getb c i) = a_view a n /\
  (dirty (getb c i) = true <-> n ∈ a_pinned a) /\ 0 <= n < a_size a.
Proof.
  intros R H. pose proof (rep_held_lt _ _ R _ _ H) as Hi.
  pose proof (rep_buf _ _ R _ Hi) as Hb. unfold buf_ok in Hb.
  destruct (valid (getb c i)) eqn:Hv; [|destruct_and!; congruence].
  destruct Hb as (H1 & H2 & H3 & H4 & H5 & H6). rewrite H in H4.
  destruct (busy (getb c i)) eqn:Hbz; [|done]. injection H4 as ->. done.
Qed.

Lemma rep_len c a : rep c a -> length (bufs c) = S NBUF.
Proof. intros R. destruct (rep_ring _ _ R) as (l & _ & _ & H). done. Qed.

(** The loops of [bget] walk the whole ring, forwards and backwards. *)
Lemma walk_next (c : bcache D) l p :
  ring c l ->
  Ring.walk (S NBUF) (fun i => next (getb c i)) HEAD p (next (getb c HEAD)) = Some (List.find p l).
Proof.
  intros Hr. pose proof Hr as (Hd & Hp & _).
  apply (Ring.walk_find _ (nx c) (pv c) HEAD l HEAD); [done|by apply (ring_head c)|].
  rewrite Hp, length_seq. lia.
Qed.

Lemma walk_prev (c : bcache D) l p :
  ring c l ->
  Ring.walk (S NBUF) (fun i => prev (getb c i)) HEAD p (prev (getb c HEAD)) = Some (List.find p (rev l)).
Proof.
  intros Hr. pose proof Hr as (Hd & Hp & _). apply Ring.dseg_rev in Hd.
  apply (Ring.walk_find _ (pv c) (nx c) HEAD (rev l) HEAD); [done| |].
  - rewrite list_elem_of_In, <- in_rev, <- list_elem_of_In. by apply (ring_head c).
  - rewrite length_rev, Hp, length_seq. lia.
Qed.

(** The first loop of [bget] finds the block's buffer. *)
Definition find_cached (c : bcache D) (n : Z) : option (option nat) :=
  Ring.walk (S NBUF) (fun i => next (getb c i)) HEAD
    (fun i => (dev (getb c i) =? ROOTDEV) && (blockno (getb c i) =? n)) (next (getb c HEAD)).

Lemma find_cached_spec c a n :
  rep c a -> 0 <= n < a_size a ->
  (exists i, find_cached c n = Some (Some i) /\ caches c n i) \/
  (find_cached c n = Some None /\ forall i, ~ caches c n i).
Proof.
  intros R Hn. destruct (rep_ring _ _ R) as (l & Hr). pose proof Hr as (Hd & Hp & _).
  unfold find_cached.
  rewrite (walk_next c l) by done.
  assert (Hc : forall i, i ∈ l ->
    (dev (getb c i) =? ROOTDEV) && (blockno (getb c i) =? n) = true <-> caches c n i).
  { intros i Hi. apply (ring_elem c l i Hr) in Hi. unfold caches.
    rewrite andb_true_iff, !Z.eqb_eq. pose proof (rep_buf _ _ R i Hi) as Hb. unfold buf_ok in Hb.
    destruct (valid (getb c i)); destruct Hb as (Hdev & _).
    - rewrite Hdev. split; [intros [_ ?]|intros (_ & _ & ?)]; done.
    - rewrite Hdev. split; [intros [? _]|intros (_ & ? & _)]; done. }
  destruct (List.find _ l) as [i|] eqn:E.
  - left. exists i. apply List.find_some in E as [Hi Hp']. split; [done|].
    apply Hc; [by apply list_elem_of_In|done].
  - right. split; [done|]. intros i Hi. pose proof Hi as (Hlt & _).
    assert (Hil : i ∈ l) by (by apply (ring_elem c l i Hr)).
    apply (Hc i Hil) in Hi.
    pose proof (List.find_none _ _ E i (proj1 (list_elem_of_In _ _) Hil)). cbn beta in *. congruence.
Qed.

Definition find_free (c : bcache D) : option (option nat) :=
  Ring.walk (S NBUF) (fun i => prev (getb c i)) HEAD
    (fun i => (Z.land (flags (getb c i)) B_BUSY =? 0)
              && (Z.land (flags (getb c i)) B_DIRTY =? 0)) (prev (getb c HEAD)).

Lemma free_test b :
  (Z.land (flags b) B_BUSY =? 0) && (Z.land (flags b) B_DIRTY =? 0)
  = negb (busy b) && negb (dirty b).
Proof. unfold busy, dirty, has. by rewrite !negb_involutive. Qed.

(** Every buffer that is locked or dirty caches a block that is held or pinned,
    and no block is cached twice. *)
Lemma stuck_count c a :
  rep c a -> (forall i, (i < NBUF)%nat -> busy (getb c i) || dirty (getb c i) = true) ->
  (NBUF <= size (a_stuck a))%nat.
Proof.
  intros R Hall.
  set (bs := (fun i => blockno (getb c i)) <$> seq 0 NBUF).
  assert (Hnd : NoDup bs).
  { apply NoDup_fmap_2_strong; [|apply NoDup_seq]. intros i j Hi Hj E.
    apply elem_of_seq in Hi, Hj.
    assert (Hv : forall k, (k < NBUF)%nat -> valid (getb c k) = true).
    { intros k Hk. specialize (Hall k Hk). pose proof (rep_buf _ _ R k Hk) as Hb.
      unfold buf_ok in Hb. destruct (valid (getb c k)); [done|].
      destruct Hb as (_ & Hb1 & Hb2 & _). by rewrite Hb1, Hb2 in Hall. }
    apply (rep_uniq _ _ R (blockno (getb c j)) i j); repeat split; try apply Hv; lia || done. }
  assert (Hsub : list_to_set bs ⊆ a_stuck a).
  { intros n Hn. apply elem_of_list_to_set in Hn. unfold bs in Hn.
    apply list_elem_of_fmap in Hn as (i & -> & Hi). apply elem_of_seq in Hi.
    specialize (Hall i ltac:(lia)). pose proof (rep_buf _ _ R i ltac:(lia)) as Hb.
    unfold buf_ok in Hb. unfold a_stuck. apply elem_of_union.
    destruct (valid (getb c i)).
    - destruct Hb as (_ & _ & _ & Hh & Hd & _). destruct (busy (getb c i)).
      + right. by apply elem_of_map_img_2 with i.
      + left. by apply Hd.
    - destruct Hb as (_ & Hb1 & Hb2 & _). by rewrite Hb1, Hb2 in Hall. }
  apply subseteq_size in Hsub. rewrite size_list_to_set in Hsub by done.
  unfold bs in Hsub. by rewrite length_fmap, length_seq in Hsub.
Qed.

Lemma find_free_spec c a :
  rep c a -> (size (a_stuck a) < NBUF)%nat ->
  exists i, find_free c = Some (Some i) /\ (i < NBUF)%nat /\
    busy (getb c i) = false /\ dirty (getb c i) = false.
Proof.
  intros R Hs. destruct (rep_ring _ _ R) as (l & Hr). pose proof Hr as (Hd & Hp & _).
  unfold find_free. rewrite (walk_prev c l) by done.
  destruct (List.find _ (rev l)) as [i|] eqn:E.
  - apply List.find_some in E as [Hi Ht]. cbn beta in Ht. rewrite free_test in Ht.
    apply andb_true_iff in Ht as [H1%negb_true_iff H2%negb_true_iff].
    exists i. split_and!; [done| |done|done]. apply (ring_elem c l i Hr).
    by apply list_elem_of_In, in_rev.
  - exfalso. apply (Nat.lt_irrefl NBUF). apply (Nat.le_lt_trans _ (size (a_stuck a))); [|done].
    apply (stuck_count c); [done|]. intros i Hi.
    assert (Hin : In i (rev l)).
    { apply in_rev. rewrite rev_involutive. apply list_elem_of_In, (ring_elem c l i Hr). done. }
    pose proof (List.find_none _ _ E i Hin) as Hf. cbn beta in Hf. rewrite free_test in Hf.
    by destruct (busy (getb c i)), (dirty (getb c i)).
Qed.

(** A step that touches one buffer. *)
Definition core (b : buf) : Z * Z * Z * block := (flags b, dev b, blockno b, data b).

Lemma core_eq b b' :
  core b' = core b -> flags b' = flags b /\ dev b' = dev b /\ blockno b' = blockno b /\ data b' = data b.
Proof. unfold core. intros E. by injection E. Qed.

Lemma buf_ok_core a i b b' : core b' = core b -> buf_ok a i b -> buf_ok a i b'.
Proof.
  intros (E1 & E2 & E3 & E4)%core_eq. unfold buf_ok, valid, busy, dirty. by rewrite E1, E2, E3, E4.
Qed.

Lemma rep_change c c' a a' i :
  rep c a -> (i < NBUF)%nat -> a_wf a' -> (exists l, ring c' l) ->
  drv_wf (drv c') -> drv_size (drv c') = a_size a' ->
  (forall n, 0 <= n < a_size a' -> drv_block (drv c') n = a_disk a' n) ->
  writes c' = a_writes a' ->
  (forall j, (j < NBUF)%nat -> j <> i -> core (getb c' j) = core (getb c j)) ->
  (forall j, (j < NBUF)%nat -> j <> i -> buf_ok a' j (getb c j)) ->
  (forall j, (j < NBUF)%nat -> j <> i -> valid (getb c j) = true ->
     blockno (getb c j) <> blockno (getb c' i)) ->
  valid (getb c' i) = true -> buf_ok a' i (getb c' i) ->
  (forall n, 0 <= n < a_size a' -> n <> blockno (getb c' i) ->
     (exists j, j <> i /\ caches c n j) \/ (a_view a' n = a_disk a' n /\ n ∉ a_pinned a')) ->
  (forall j n, a_held a' !! j = Some n -> (j < NBUF)%nat) ->
  rep c' a'.
Proof.
  intros R Hi Hwf Hr Hdw Hds Hdd Hw Hcore Hok Hu Hv Hoki Hunc Hlt.
  assert (Hcache : forall n j, j <> i -> caches c' n j <-> caches c n j).
  { intros n j Hj. unfold caches. split; intros (Hl & Hvj & Hb); split; [done| |done|];
      destruct (core_eq _ _ (Hcore j Hl Hj)) as (Ef & _ & Eb & _); unfold valid in *;
      split; congruence. }
  assert (Hci : forall n, caches c' n i <-> n = blockno (getb c' i)).
  { intros n. unfold caches. split; [intros (_ & _ & <-); done|intros ->; done]. }
  split; try done.
  - intros j Hj. destruct (decide (j = i)) as [->|Hne]; [done|].
    apply (buf_ok_core a' j (getb c j)); auto.
  - intros n j k Hj Hk.
    destruct (decide (j = i)) as [->|Hji], (decide (k = i)) as [->|Hki]; [done| | |].
    + apply Hci in Hj as ->. apply Hcache in Hk; [|done]. destruct Hk as (Hl & Hvk & E).
      exfalso. by apply (Hu k).
    + apply Hci in Hk as ->. apply Hcache in Hj; [|done]. destruct Hj as (Hl & Hvj & E).
      exfalso. by apply (Hu j).
    + apply (rep_uniq _ _ R n); by apply Hcache.
  - intros n Hn. destruct (decide (n = blockno (getb c' i))) as [->|Hne].
    + left. exists i. by apply Hci.
    + destruct (Hunc n Hn Hne) as [(j & Hj & Hc)|]; [left; exists j; by apply Hcache|by right].
Qed.

Lemma rep_others c a i n j :
  rep c a -> caches c n i -> (j < NBUF)%nat -> j <> i -> valid (getb c j) = true ->
  blockno (getb c j) <> n.
Proof. intros R Hi Hj Hne Hv E. apply Hne. apply (rep_uniq _ _ R n); done. Qed.

Lemma rep_uncached_others c a i n m :
  rep c a -> caches c n i -> 0 <= m < a_size a -> m <> n ->
  (exists j, j <> i /\ caches c m j) \/ (a_view a m = a_disk a m /\ m ∉ a_pinned a).
Proof.
  intros R (_ & _ & Hi) Hm Hne. destruct (rep_uncached _ _ R m Hm) as [(j & Hj)|]; [|by right].
  left. exists j. split; [|done]. intros ->. destruct Hj as (_ & _ & Hj). congruence.
Qed.

Lemma rep_held_caches c a i n : rep c a -> a_held a !! i = Some n -> caches c n i.
Proof. intros R H. destruct (rep_held c a i n R H) as (? & ? & ? & ? & _). done. Qed.

(** A step that only changes the [flags] or [data] of one cached buffer. *)
Lemma rep_upd_buf c a a' i n f :
  rep c a -> caches c n i ->
  (forall b, next (f b) = next b) -> (forall b, prev (f b) = prev b) ->
  (forall b, blockno (f b) = blockno b) ->
  a_size a' = a_size a -> a_disk a' = a_disk a -> a_writes a' = a_writes a ->
  a_wf a' -> valid (f (getb c i)) = true -> buf_ok a' i (f (getb c i)) ->
  (forall j, (j < NBUF)%nat -> j <> i -> valid (getb c j) = true -> blockno (getb c j) <> n ->
     buf_ok a j (getb c j) -> buf_ok a' j (getb c j)) ->
  (forall j, (j < NBUF)%nat -> j <> i -> valid (getb c j) = false ->
     buf_ok a j (getb c j) -> buf_ok a' j (getb c j)) ->
  (forall m, 0 <= m < a_size a -> m <> n ->
     a_view a m = a_disk a m /\ m ∉ a_pinned a -> a_view a' m = a_disk a' m /\ m ∉ a_pinned a') ->
  (forall j m, a_held a' !! j = Some m -> (j < NBUF)%nat) ->
  rep (upd_buf i f c) a'.
Proof.
  intros R Hc Hn Hp Hb Es Ed Ew Hwf Hv Hoki Hokj Hokj' Hunc Hlt. pose proof Hc as (Hi & Hvi & Hbi).
  assert (Eg : getb (upd_buf i f c) i = f (getb c i))
    by (apply getb_upd_eq; rewrite (rep_len c a R); lia).
  apply (rep_change c _ a a' i); rewrite ?Es, ?Ed, ?Ew, ?Eg, ?Hb, ?Hbi; try done.
  - destruct (rep_ring _ _ R) as (l & Hr). exists l. by apply ring_upd_other.
  - apply (rep_drv _ _ R).
  - apply (rep_size _ _ R).
  - apply (rep_disk _ _ R).
  - apply (rep_writes _ _ R).
  - intros j _ Hj. by rewrite getb_upd_ne.
  - intros j Hj Hne. pose proof (rep_buf _ _ R j Hj) as Hok.
    destruct (valid (getb c j)) eqn:E; [|by apply Hokj'].
    apply Hokj; try done. by apply (rep_others c a i).
  - intros j Hj Hne Hvj. by apply (rep_others c a i).
  - intros m Hm Hne. destruct (rep_uncached_others c a i n m R Hc Hm Hne) as [|H]; [by left|].
    right. rewrite <- Ed. by apply Hunc.
Qed.

(** *** The laws *)

Lemma a_wf_store a n x : a_wf a -> block_ok x -> a_wf (a_store n x a).
Proof.
  intros (H1 & H2 & H3 & H4) Hx. split_and!; simpl; [|done..].
  intros m Hm. unfold zset. destruct (m =? n); auto.
Qed.

Lemma a_wf_pin a n : a_wf a -> 0 <= n < a_size a -> a_wf (a_pin n a).
Proof.
  intros (H1 & H2 & H3 & H4) Hn. split_and!; simpl; [done..|].
  intros m Hm. apply elem_of_union in Hm as [->%elem_of_singleton|]; auto.
Qed.

Lemma a_wf_hold a i n : a_wf a -> 0 <= n < a_size a -> a_wf (a_hold i n a).
Proof.
  intros (H1 & H2 & H3 & H4) Hn. split_and!; simpl; [done|done| |done].
  intros j m. rewrite lookup_insert. case_decide; [by intros [= <-]|apply H3].
Qed.

Lemma a_wf_release a i : a_wf a -> a_wf (a_release i a).
Proof.
  intros (H1 & H2 & H3 & H4). split_and!; simpl; [done|done| |done].
  intros j m. rewrite lookup_delete. case_decide; [done|apply H3].
Qed.

Lemma a_wf_flush a n : a_wf a -> 0 <= n < a_size a -> a_wf (a_flush n a).
Proof.
  intros (H1 & H2 & H3 & H4) Hn. split_and!; simpl; [done| |done|].
  - intros m Hm. unfold zset. destruct (m =? n); auto.
  - intros m Hm. apply elem_of_difference in Hm as [Hm _]. auto.
Qed.

Lemma rep_bset c a i n x :
  rep c a -> a_held a !! i = Some n -> block_ok x ->
  rep (upd_buf i (set_data x) c) (a_store n x a).
Proof.
  intros R H Hx. destruct (rep_held c a i n R H) as (Hi & Hv & Hb & En & Edev & Edat & Hdirty & Hn).
  apply (rep_upd_buf c a _ i n); try done.
  - apply a_wf_store; [apply (rep_wf _ _ R)|done].
  - unfold buf_ok. change (valid (set_data x (getb c i))) with (valid (getb c i)).
    change (busy (set_data x (getb c i))) with (busy (getb c i)).
    change (dirty (set_data x (getb c i))) with (dirty (getb c i)). rewrite Hv, Hb.
    cbn [set_data dev blockno data a_store a_size a_view a_held a_pinned a_disk].
    rewrite En, zset_eq. done.
  - intros j _ _ Hvj Hne. unfold buf_ok. rewrite Hvj. cbn [a_store a_size a_view a_held a_pinned a_disk].
    by rewrite zset_ne.
  - intros j _ _ Hvj. unfold buf_ok. by rewrite Hvj.
  - intros m _ Hne. cbn [a_store a_view a_disk a_pinned]. by rewrite zset_ne.
  - apply (rep_held_lt _ _ R).
Qed.

Lemma rep_bdirty c a i n :
  rep c a -> a_held a !! i = Some n ->
  rep (upd_buf i (fun b => set_flags (Z.lor (flags b) B_DIRTY) b) c) (a_pin n a).
Proof.
  intros R H. destruct (rep_held c a i n R H) as (Hi & Hv & Hb & En & Edev & Edat & Hdirty & Hn).
  assert (Hv' : valid (set_flags (Z.lor (flags (getb c i)) B_DIRTY) (getb c i)) = true).
  { unfold valid in *. cbn [set_flags flags]. by rewrite has_lor, Hv. }
  apply (rep_upd_buf c a _ i n); try done.
  - apply a_wf_pin; [apply (rep_wf _ _ R)|done].
  - unfold buf_ok. rewrite Hv'. unfold busy, dirty in *.
    cbn [set_flags flags dev blockno data a_pin a_size a_view a_held a_pinned a_disk].
    rewrite !has_lor, Hb, En. cbn [orb]. rewrite orb_true_r. split_and!; try (done || lia). set_solver.
  - intros j _ _ Hvj Hne. unfold buf_ok. rewrite Hvj. cbn [a_pin a_size a_view a_held a_pinned a_disk].
    intros (? & ? & ? & ? & Hd & ?). split_and!; try (done || lia). rewrite Hd. set_solver.
  - intros j _ _ Hvj. unfold buf_ok. by rewrite Hvj.
  - intros m _ Hne. cbn [a_pin a_view a_disk a_pinned]. set_solver.
  - apply (rep_held_lt _ _ R).
Qed.

(** Locking a cached buffer. *)
Lemma rep_lock c a i n :
  rep c a -> caches c n i -> busy (getb c i) = false ->
  rep (upd_buf i (fun b => set_flags (Z.lor (flags b) B_BUSY) b) c) (a_hold i n a).
Proof.
  intros R Hc Hb. pose proof Hc as (Hi & Hv & En).
  pose proof (rep_buf _ _ R i Hi) as Hok. unfold buf_ok in Hok. rewrite Hv in Hok.
  destruct Hok as (Edev & Hn & Edat & Hh & Hd & Hcl).
  assert (Hv' : valid (set_flags (Z.lor (flags (getb c i)) B_BUSY) (getb c i)) = true).
  { unfold valid in *. cbn [set_flags flags]. by rewrite has_lor, Hv. }
  apply (rep_upd_buf c a _ i n); try done.
  - apply a_wf_hold; [apply (rep_wf _ _ R)|congruence].
  - unfold buf_ok. rewrite Hv'. unfold busy, dirty in *.
    cbn [set_flags flags dev blockno data a_hold a_size a_view a_held a_pinned a_disk].
    rewrite !has_lor, orb_true_r, orb_false_r, En, lookup_insert_eq.
    rewrite En in Hn, Edat, Hd. done.
  - intros j _ Hj Hvj Hne. unfold buf_ok. rewrite Hvj. cbn [a_hold a_size a_view a_held a_pinned a_disk].
    by rewrite lookup_insert_ne.
  - intros j _ Hj Hvj. unfold buf_ok. rewrite Hvj. cbn [a_hold a_held]. by rewrite lookup_insert_ne.
  - intros j m. cbn [a_hold a_held]. rewrite lookup_insert. case_decide; [by subst|apply (rep_held_lt _ _ R)].
Qed.

(** Unlocking. *)
Lemma rep_unlock c a i n :
  rep c a -> a_held a !! i = Some n -> n ∈ a_pinned a \/ a_view a n = a_disk a n ->
  rep (upd_buf i (fun b => set_flags (Z.land (flags b) (Z.lnot B_BUSY)) b) c) (a_release i a).
Proof.
  intros R H Hcl. destruct (rep_held c a i n R H) as (Hi & Hv & Hb & En & Edev & Edat & Hdirty & Hn).
  assert (Hv' : valid (set_flags (Z.land (flags (getb c i)) (Z.lnot B_BUSY)) (getb c i)) = true).
  { unfold valid in *. cbn [set_flags flags]. by rewrite has_clear_other. }
  apply (rep_upd_buf c a _ i n); try done.
  - apply a_wf_release, (rep_wf _ _ R).
  - unfold buf_ok. rewrite Hv'. unfold busy, dirty in *.
    cbn [set_flags flags dev blockno data a_release a_size a_view a_held a_pinned a_disk].
    rewrite has_clear_same, has_clear_other, En, lookup_delete_eq by done.
    split_and!; try (done || lia). intros _ Hnd. destruct Hcl as [Hp|]; [|done].
    apply Hdirty in Hp. congruence.
  - intros j _ Hj Hvj Hne. unfold buf_ok. rewrite Hvj. cbn [a_release a_size a_view a_held a_pinned a_disk].
    by rewrite lookup_delete_ne.
  - intros j _ Hj Hvj. unfold buf_ok. rewrite Hvj. cbn [a_release a_held]. by rewrite lookup_delete_ne.
  - intros j m. cbn [a_release a_held]. rewrite lookup_delete. case_decide; [done|apply (rep_held_lt _ _ R)].
Qed.

(** Moving a buffer within the ring. *)
Lemma rep_reorder c c' a :
  rep c a -> (exists l, ring c' l) -> drv c' = drv c -> writes c' = writes c ->
  (forall j, core (getb c' j) = core (getb c j)) -> rep c' a.
Proof.
  intros R Hr Ed Ew Hcore.
  assert (Hc : forall n i, caches c' n i <-> caches c n i).
  { intros n i. destruct (core_eq _ _ (Hcore i)) as (Ef & _ & Eb & _).
    unfold caches, valid. by rewrite Ef, Eb. }
  split; rewrite ?Ed, ?Ew; try apply R; try done.
  - intros i Hi. apply (buf_ok_core a i (getb c i)); [done|by apply (rep_buf _ _ R)].
  - intros n i j Hi Hj. apply (rep_uniq _ _ R n); by apply Hc.
  - intros n Hn. destruct (rep_uncached _ _ R n Hn) as [(i & Hi)|]; [left; exists i; by apply Hc|by right].
Qed.

Lemma brelse_run (c : bcache D) b :
  busy (getb c b) = true ->
  brelse b c = Ok tt (upd_buf b (fun x => set_flags (Z.land (flags x) (Z.lnot B_BUSY)) x)
                        (to_front b (unlink b c))).
Proof.
  intros Hb. unfold brelse, busy, has in *. apply negb_true_iff in Hb. munfold. by rewrite Hb.
Qed.

Lemma ring_to_front (c : bcache D) l1 b l2 :
  ring c (l1 ++ b :: l2) -> ring (to_front b (unlink b c)) (b :: l1 ++ l2).
Proof.
  intros (Hd & Hp & Hl).
  assert (Hp' : b :: l1 ++ l2 ≡ₚ seq 0 NBUF) by (by rewrite <- Hp, Permutation_middle).
  assert (Hlu : length (bufs (unlink b c)) = S NBUF) by (unfold unlink; by rewrite !length_upd).
  split_and!; [|done|unfold to_front; by rewrite !length_upd].
  apply to_front_dseg; [|done|done]. by apply unlink_dseg.
Qed.

Lemma move_to_front c a b :
  rep c a -> (b < NBUF)%nat -> rep (to_front b (unlink b c)) a.
Proof.
  intros R Hb. destruct (rep_ring _ _ R) as (l & Hr). pose proof Hr as (Hd & Hp & Hl).
  assert (Hin : b ∈ l) by (by apply (ring_elem c l b Hr)).
  apply list_elem_of_split in Hin as (l1 & l2 & ->).
  apply (rep_reorder c); try done.
  - exists (b :: l1 ++ l2). by apply ring_to_front.
  - intros j. rewrite (to_front_fields core) by done. by apply (unlink_fields core).
Qed.

Lemma rep_brelse c a i n :
  rep c a -> a_held a !! i = Some n -> n ∈ a_pinned a \/ a_view a n = a_disk a n ->
  exists c', brelse i c = Ok tt c' /\ rep c' (a_release i a).
Proof.
  intros R H Hcl. destruct (rep_held c a i n R H) as (Hi & _ & Hb & _).
  eexists. split; [by apply brelse_run|].
  apply (rep_unlock _ _ _ n); [by apply move_to_front|done|done].
Qed.

Lemma getb_insert (c : bcache D) b x (d : D) w j :
  (b < length (bufs c))%nat ->
  getb (MkBcache (<[b := x]> (bufs c)) d w) j = if decide (b = j) then x else getb c j.
Proof.
  intros H. unfold getb. simpl. rewrite list_lookup_total_insert. case_decide as E.
  - destruct E as [<- _]. by rewrite decide_True.
  - rewrite decide_False; [done|]. intros <-. by apply E.
Qed.

(** Storing a buffer that keeps its place in the ring keeps the ring. *)
Lemma ring_insert (c : bcache D) b x (d : D) w l :
  (b < NBUF)%nat -> next x = nx c b -> prev x = pv c b ->
  ring c l -> ring (MkBcache (<[b := x]> (bufs c)) d w) l.
Proof.
  intros Hb Hn Hp Hr. pose proof Hr as (_ & _ & Hl). revert Hr. apply ring_ext.
  - intros i. unfold nx. rewrite getb_insert by lia. case_decide; [by subst|done].
  - intros i. unfold pv. rewrite getb_insert by lia. case_decide; [by subst|done].
  - simpl. by rewrite length_insert.
Qed.

Lemma rep_bwrite c a i n :
  rep c a -> a_held a !! i = Some n ->
  exists c', bwrite i c = Ok tt c' /\ rep c' (a_flush n a).
Proof.
  intros R H. pose proof (rep_bdirty c a i n R H) as R1.
  destruct (rep_held c a i n R H) as (Hi & Hv & Hb & En & Edev & Edat & _ & Hn).
  set (c1 := upd_buf i (fun b => set_flags (Z.lor (flags b) B_DIRTY) b) c) in *.
  destruct (rep_held c1 (a_pin n a) i n R1 H) as (_ & Hv1 & Hb1 & En1 & Ed1 & Edat1 & Hd1 & _).
  assert (Hdirty : dirty (getb c1 i) = true) by (apply Hd1; simpl; set_solver).
  destruct (rep_wf _ _ R) as (Hvw & _).
  destruct (drv_write (drv c1) (getb c1 i)) as (b' & d' & Erw & (Es1 & Es2 & Es3 & Es4) & Edat' & Hb' & Hv' & Hd' & Hw' & Esz & Eblk);
    [apply (rep_drv _ _ R1)|done|done|done|rewrite En1, (rep_size _ _ R1); done|rewrite Edat1; by apply Hvw|].
  assert (Hc1l : length (bufs c1) = S NBUF) by apply (rep_len c1 _ R1).
  eexists. split.
  { unfold bwrite. munfold. unfold busy, has in Hb. apply negb_true_iff in Hb. rewrite Hb.
    unfold modb, modify. fold c1. unfold iderw. rewrite Erw, Hdirty. reflexivity. }
  assert (Egi : getb (MkBcache (<[i:=b']> (bufs c1)) d' (writes c1 ++ [(blockno (getb c1 i), data (getb c1 i))])) i = b').
  { rewrite getb_insert by lia. by rewrite decide_True. }
  apply (rep_change c1 _ (a_pin n a) _ i); rewrite ?Egi, ?Es2, ?En1; try done.
  - apply a_wf_flush; [apply (rep_wf _ _ R)|done].
  - destruct (rep_ring _ _ R1) as (l & Hr). exists l. by apply ring_insert.
  - simpl. by rewrite Esz, (rep_size _ _ R1).
  - intros m Hm. cbn [drv a_flush a_disk a_size] in *.
    rewrite Eblk by (rewrite (rep_size _ _ R1); done). rewrite En1, Edat1. unfold zset.
    destruct (m =? n); [done|]. by apply (rep_disk _ _ R1).
  - cbn [writes]. by rewrite (rep_writes _ _ R1), Edat1.
  - intros j Hj Hne. rewrite getb_insert by lia. by rewrite decide_False by congruence.
  - intros j Hj Hne. pose proof (rep_buf _ _ R1 j Hj) as Hok. unfold buf_ok in *.
    destruct (valid (getb c1 j)) eqn:Hvj; [|done].
    assert (Hbn : blockno (getb c1 j) <> n)
      by (apply (rep_others c1 (a_pin n a) i); try done; by apply (rep_held_caches _ (a_pin n a))).
    cbn [a_flush a_pin a_size a_view a_held a_pinned a_disk] in *. rewrite zset_ne by done.
    destruct Hok as (? & ? & ? & ? & Hdj & ?). split_and!; try (done || lia). rewrite Hdj. set_solver.
  - intros j Hj Hne Hvj. by apply (rep_others c1 (a_pin n a) i).
  - unfold buf_ok. rewrite Hv', Hb', Hd', Es1, Es2, Edat', En1, Ed1, Edat1.
    cbn [a_flush a_pin a_size a_view a_held a_pinned a_disk]. split_and!; try (done || lia).
    split; [done|set_solver].
  - intros m Hm Hne. cbn [a_flush a_size] in Hm.
    destruct (rep_uncached_others c1 (a_pin n a) i n m R1) as [|[E1 E2]]; try done;
      [by left|].
    right. cbn [a_flush a_pin a_view a_disk a_pinned] in *. rewrite zset_ne by done. set_solver.
  - intros j m. cbn [a_flush a_held]. apply (rep_held_lt _ _ R).
Qed.

Lemma bget_hit c a i n :
  rep c a -> find_cached c n = Some (Some i) -> caches c n i ->
  bget ROOTDEV n c =
    if busy (getb c i) then Sleep (ChanBuf i) c
    else Ok i (upd_buf i (fun b => set_flags (Z.lor (flags b) B_BUSY) b) c).
Proof.
  intros R Hf Hc. unfold bget. munfold. unfold find_cached in Hf. rewrite Hf.
  unfold busy. by destruct (has (flags (getb c i)) B_BUSY).
Qed.

(** Recycling buffer [i] for block [n], with what the driver read into it. *)
Lemma rep_recycle c a i n b' :
  rep c a -> 0 <= n < a_size a -> (forall j, ~ caches c n j) ->
  (i < NBUF)%nat -> busy (getb c i) = false -> dirty (getb c i) = false ->
  same_buf (set_id ROOTDEV n (getb c i)) b' -> data b' = drv_block (drv c) n ->
  busy b' = true -> valid b' = true -> dirty b' = false ->
  a_held a !! i = None /\
  forall c1, (forall j, j <> i -> getb c1 j = getb c j) -> getb c1 i = b' ->
    length (bufs c1) = S NBUF -> drv_wf (drv c1) -> drv_size (drv c1) = drv_size (drv c) ->
    (forall m, 0 <= m < drv_size (drv c) -> drv_block (drv c1) m = drv_block (drv c) m) ->
    writes c1 = writes c -> rep c1 (a_hold i n a).
Proof.
  intros R Hn Hno Hi Hb Hd (Es1 & Es2 & Es3 & Es4) Edat Hb' Hv' Hd'.
  pose proof (rep_buf _ _ R i Hi) as Hok. unfold buf_ok in Hok.
  assert (Hnone : a_held a !! i = None).
  { destruct (valid (getb c i)); [|apply Hok]. rewrite Hb in Hok. apply Hok. }
  split; [done|]. intros c1 Eo Ei Hlen Hwf Esz Eblk Ewr.
  destruct (rep_uncached _ _ R n Hn) as [(j & Hj)|[Evd Hnp]]; [by destruct (Hno j)|].
  cbn [set_id dev blockno prev next] in *.
  apply (rep_change c _ a _ i); rewrite ?Ei, ?Es2, ?Esz, ?Ewr; try done; try apply R.
  - apply a_wf_hold; [apply (rep_wf _ _ R)|done].
  - destruct (rep_ring _ _ R) as (l & Hr). exists l. revert Hr. apply ring_ext.
    + intros j. unfold nx. destruct (decide (j = i)) as [->|]; [by rewrite Ei|by rewrite Eo].
    + intros j. unfold pv. destruct (decide (j = i)) as [->|]; [by rewrite Ei|by rewrite Eo].
    + by rewrite Hlen, (rep_len c a R).
  - intros m Hm. rewrite Eblk by (rewrite (rep_size _ _ R); done). by apply (rep_disk _ _ R).
  - intros j _ Hne. by rewrite Eo.
  - intros j Hj Hne. pose proof (rep_buf _ _ R j Hj) as Hj'. unfold buf_ok in *.
    cbn [a_hold a_size a_view a_held a_pinned a_disk]. by rewrite lookup_insert_ne.
  - intros j Hj Hne Hvj E. by apply (Hno j).
  - unfold buf_ok. rewrite Hv', Hb', Hd', Es1, Es2, Edat.
    cbn [a_hold a_size a_view a_held a_pinned a_disk]. rewrite lookup_insert_eq.
    rewrite (rep_disk _ _ R) by done. split_and!; try (done || lia).
  - intros m Hm Hne. cbn [a_hold a_size a_view a_pinned a_disk] in *.
    destruct (rep_uncached _ _ R m Hm) as [(j & Hj)|]; [|by right].
    destruct (decide (j = i)) as [->|]; [|left; by exists j]. right.
    destruct Hj as (_ & Hvi & <-). rewrite Hvi in Hok. destruct Hok as (_ & _ & _ & _ & Hp & Hcl).
    split; [by apply Hcl|]. rewrite <- Hp. congruence.
  - intros j m. cbn [a_hold a_held]. rewrite lookup_insert. case_decide; [by subst|apply (rep_held_lt _ _ R)].
Qed.

Lemma rep_bread_miss c a n :
  rep c a -> 0 <= n < a_size a -> find_cached c n = Some None -> (forall i, ~ caches c n i) ->
  (size (a_stuck a) < NBUF)%nat ->
  exists i c', bread ROOTDEV n c = Ok i c' /\ a_held a !! i = None /\ rep c' (a_hold i n a).
Proof.
  intros R Hn Hf Hno Hs. destruct (find_free_spec c a R Hs) as (i & Hfree & Hi & Hb & Hd).
  pose proof (rep_len c a R) as Hlen.
  set (x := set_flags B_BUSY (set_id ROOTDEV n (getb c i))).
  set (c1 := upd_buf i (fun b => set_flags B_BUSY (set_id ROOTDEV n b)) c).
  assert (Eg : getb c1 i = x) by (unfold c1; rewrite getb_upd_eq by lia; done).
  destruct (drv_read (drv c) x) as (b' & d' & Erw & Hsame & Edat & Hb' & Hv' & Hd' & Hw' & Esz & Eblk); try done.
  { apply (rep_drv _ _ R). }
  { simpl. rewrite (rep_size _ _ R). done. }
  destruct (rep_recycle c a i n b') as [Hnone Hrep]; try done.
  exists i, (MkBcache (<[i := b']> (bufs c1)) d' (writes c)). split_and!; [|done|].
  - unfold bread, bget. munfold. unfold find_cached in Hf. unfold find_free in Hfree.
    rewrite Hf, Hfree. unfold modb, modify. fold c1. rewrite Eg.
    change (negb (has (flags x) B_VALID)) with true. cbn match.
    unfold iderw. rewrite Eg. change (drv c1) with (drv c). rewrite Erw. reflexivity.
  - apply Hrep; try done.
    + intros j Hj. rewrite getb_insert by (unfold c1; rewrite length_upd; lia).
      rewrite decide_False by done. by apply getb_upd_ne.
    + rewrite getb_insert by (unfold c1; rewrite length_upd; lia). by rewrite decide_True.
    + simpl. by rewrite length_insert, length_alter.
Qed.

Lemma rep_bread c a n :
  rep c a -> 0 <= n < a_size a -> n ∉ (map_img (a_held a) : gset Z) ->
  n ∈ a_pinned a \/ (size (a_stuck a) < NBUF)%nat ->
  exists i c', bread ROOTDEV n c = Ok i c' /\ a_held a !! i = None /\ rep c' (a_hold i n a).
Proof.
  intros R Hn Hnh Hcap.
  destruct (find_cached_spec c a n R Hn) as [(i & Hf & Hc)|[Hf Hno]].
  - pose proof Hc as (Hi & Hv & En). pose proof (rep_buf _ _ R i Hi) as Hok.
    unfold buf_ok in Hok. rewrite Hv in Hok. destruct Hok as (_ & _ & _ & Hh & _).
    assert (Hb : busy (getb c i) = false).
    { destruct (busy (getb c i)); [|done]. destruct Hnh. rewrite <- En. by apply elem_of_map_img_2 with i. }
    rewrite Hb in Hh. eexists i, _. split_and!; [|done|by apply rep_lock].
    unfold bread. munfold. rewrite (bget_hit c a i n), Hb by done. cbn match.
    rewrite getb_upd_eq by (rewrite (rep_len c a R); lia). cbn [set_flags flags].
    unfold valid in Hv. rewrite has_lor, Hv. done.
  - apply rep_bread_miss; try done. destruct Hcap as [Hp|]; [|done].
    destruct (rep_uncached _ _ R n Hn) as [(i & Hc)|[_ Hnp]]; [by destruct (Hno i)|done].
Qed.

Lemma rep_bread_locked c a i n :
  rep c a -> a_held a !! i = Some n -> bread ROOTDEV n c = Sleep (ChanBuf i) c.
Proof.
  intros R H. destruct (rep_held c a i n R H) as (Hi & Hv & Hb & En & _ & _ & _ & Hn).
  destruct (find_cached_spec c a n R Hn) as [(j & Hf & Hc)|[_ Hno]];
    [|by destruct (Hno i (rep_held_caches c a i n R H))].
  assert (j = i) as -> by (apply (rep_uniq _ _ R n); [done|by apply (rep_held_caches c a)]).
  unfold bread. munfold. by rewrite (bget_hit c a i n), Hb by done.
Qed.

Lemma rep_held_data c a i n :
  rep c a -> a_held a !! i = Some n -> data (getb c i) = a_view a n /\ blockno (getb c i) = n.
Proof. intros R H. destruct (rep_held c a i n R H) as (_ & _ & _ & ? & _ & ? & _). done. Qed.

#[export] Instance bio_ok : BlockCacheOk (bcache D) := {
  crep := rep; crep_wf := rep_wf; crep_held := rep_held_data;
  bread_ok := rep_bread; bread_locked := rep_bread_locked;
  bset_ok := rep_bset; bdirty_ok := rep_bdirty; bwrite_ok := rep_bwrite; brelse_ok := rep_brelse
}.

(** The cache in zeroed memory, before [binit]. *)
Definition bss (d : D) : bcache D :=
  MkBcache (replicate (S NBUF) (MkBuf 0 0 0 0 0 [])) d [].

Lemma binit_run d :
  exists c, binit (bss d) = Ok tt c /\ ring c (rev (seq 0 NBUF)) /\ drv c = d /\ writes c = [] /\
    Forall (fun b => flags b = 0 /\ dev b = NODEV) (take NBUF (bufs c)).
Proof.
  eexists. split; [vm_compute; reflexivity|]. split_and!; try reflexivity.
  - split_and!; [|by rewrite <- Permutation_rev|reflexivity]. vm_compute. repeat split.
  - vm_compute. repeat constructor.
Qed.

Lemma binit_rep d :
  drv_wf d -> exists c, binit (bss d) = Ok tt c /\ rep c (a_fresh (drv_size d) (drv_block d)).
Proof.
  intros Hwf. destruct (binit_run d) as (c & Hrun & Hr & Ed & Ew & Hall). exists c. split; [done|].
  assert (Hb : forall i, (i < NBUF)%nat -> flags (getb c i) = 0 /\ dev (getb c i) = NODEV).
  { intros i Hi. destruct Hr as (_ & _ & Hl). apply (proj1 (Forall_lookup _ _) Hall i (getb c i)).
    rewrite lookup_take_lt by done. unfold getb. apply list_lookup_lookup_total_lt. lia. }
  assert (Hnc : forall n i, ~ caches c n i).
  { intros n i (Hi & Hv & _). unfold valid in Hv. by rewrite (proj1 (Hb i Hi)) in Hv. }
  split; rewrite ?Ed; try done; try (by eexists).
  - intros i Hi. destruct (Hb i Hi) as [Hf Hd]. unfold buf_ok, valid, busy, dirty. by rewrite Hf, Hd.
  - intros n i j Hi. by destruct (Hnc n i).
  - intros n Hn. right. done.
  - split_and!; simpl; try done; intros; by apply drv_block_ok.
Qed.

End laws.
End Cache.

(** ** A client of the cache

    Requests a client makes, by block number: [bread], a store to the data of a
    buffer it holds, [bwrite] and [brelse].  [run] drives the code, keeping the
    buffer indices the way a caller keeps its [struct buf] pointers; [spec]
    drives an array of blocks with a copy in memory and a set of locks. *)

Module Client.

Inductive req :=
  | Read (n : Z)
  | Store (n : Z) (x : block)
  | Write (n : Z)
  | Release (n : Z).

Section run.
Context {C : Type} `{!BlockCache C}.

Definition step (r : req) (s : C * gmap Z nat) : option (C * gmap Z nat * list block) :=
  let '(c, h) := s in
  match r with
  | Read n =>
      match bread ROOTDEV n c with Ok i c' => Some (c', <[n := i]> h, [bdata c' i]) | _ => None end
  | Store n x => i ← h !! n; Some (bset i x c, h, [])
  | Write n =>
      i ← h !! n; match bwrite i c with Ok _ c' => Some (c', h, []) | _ => None end
  | Release n =>
      i ← h !! n; match brelse i c with Ok _ c' => Some (c', delete n h, []) | _ => None end
  end.

Fixpoint run (rs : list req) (s : C * gmap Z nat) : option (C * gmap Z nat * list block) :=
  match rs with
  | [] => Some (s, [])
  | r :: k => '(s1, o1) ← step r s; '(s2, o2) ← run k s1; Some (s2, o1 ++ o2)
  end.
End run.

Record store := MkStore { s_size : Z; s_disk : Z -> block; s_mem : Z -> block; s_locked : gset Z }.

Definition spec_step (r : req) (s : store) : option (store * list block) :=
  match r with
  | Read n =>
      if bool_decide (0 <= n < s_size s /\ n ∉ s_locked s /\ (size (s_locked s) < NBUF)%nat)
      then Some (MkStore (s_size s) (s_disk s) (s_mem s) ({[n]} ∪ s_locked s), [s_mem s n])
      else None
  | Store n x =>
      if bool_decide (n ∈ s_locked s /\ length x = Z.to_nat BSIZE)
      then Some (MkStore (s_size s) (s_disk s) (zset (s_mem s) n x) (s_locked s), [])
      else None
  | Write n =>
      if bool_decide (n ∈ s_locked s)
      then Some (MkStore (s_size s) (zset (s_disk s) n (s_mem s n)) (s_mem s) (s_locked s), [])
      else None
  | Release n =>
      if bool_decide (n ∈ s_locked s /\ s_mem s n = s_disk s n)
      then Some (MkStore (s_size s) (s_disk s) (s_mem s) (s_locked s ∖ {[n]}), [])
      else None
  end.

Fixpoint spec (rs : list req) (s : store) : option (store * list block) :=
  match rs with
  | [] => Some (s, [])
  | r :: k => '(s1, o1) ← spec_step r s; '(s2, o2) ← spec k s1; Some (s2, o1 ++ o2)
  end.

Section simulation.
Context {C : Type} `{!BlockCache C, !BlockCacheOk C}.

Record sim (c : C) (h : gmap Z nat) (s : store) (a : acache) : Prop := {
  sim_rep : crep c a;
  sim_size : a_size a = s_size s;
  sim_mem : forall n, a_view a n = s_mem s n;
  sim_disk : forall n, a_disk a n = s_disk s n;
  sim_pin : a_pinned a = ∅;
  sim_held : forall n i, h !! n = Some i <-> a_held a !! i = Some n;
  sim_lock : forall n, n ∈ s_locked s <-> exists i, h !! n = Some i
}.

Lemma sim_img c h s a : sim c h s a -> (map_img (a_held a) : gset Z) = s_locked s.
Proof.
  intros S. apply set_eq. intros n. rewrite elem_of_map_img, (sim_lock _ _ _ _ S).
  by setoid_rewrite (sim_held _ _ _ _ S).
Qed.

Lemma step_sim r c h s a s' o :
  sim c h s a -> spec_step r s = Some (s', o) ->
  exists c' h' a', step r (c, h) = Some (c', h', o) /\ sim c' h' s' a'.
Proof.
  intros S. pose proof (sim_img _ _ _ _ S) as Himg. destruct S as [Hr Hsz Hm Hd Hp Hh Hl].
  destruct r as [n|n x|n|n]; cbn [spec_step]; case_bool_decide as G; intros [= <- <-].
  - destruct G as (Hn & Hnl & Hc).
    destruct (bread_ok c a n) as (i & c' & E & Hi & Hr'); [done|by rewrite Hsz|by rewrite Himg| |].
    { right. unfold a_stuck. by rewrite Hp, Himg, union_empty_l_L. }
    eexists _, _, (a_hold i n a). cbn [step]. rewrite E.
    destruct (crep_held c' _ i n Hr') as [Ed _]; [apply lookup_insert_eq|].
    rewrite Ed. cbn [a_hold a_view]. rewrite Hm. split; [done|].
    assert (Hn' : h !! n = None).
    { destruct (h !! n) eqn:E'; [|done]. destruct Hnl. apply Hl. by eexists. }
    split; cbn [a_hold a_size a_view a_disk a_pinned a_held s_size s_mem s_disk s_locked]; try done.
    + intros m j. rewrite !lookup_insert. case_decide as E1; case_decide as E2; subst; [done| | |apply Hh].
      * rewrite <- Hh, Hn'. split; [congruence|done].
      * rewrite Hh, Hi. split; [done|congruence].
    + intros m. rewrite elem_of_union, elem_of_singleton, Hl. setoid_rewrite lookup_insert. split.
      * intros [->|[j Hj]]; [exists i; by rewrite decide_True|].
        exists j. rewrite decide_False by congruence. done.
      * intros [j Hj]. case_decide; [by left|right; by exists j].
  - destruct G as [(i & Hi)%Hl Hx]. cbn [step]. rewrite Hi. cbn.
    eexists _, _, (a_store n x a). split; [done|].
    split; cbn [a_store a_size a_view a_disk a_pinned a_held s_size s_mem s_disk s_locked]; try done.
    + apply bset_ok; [done|by apply Hh|done].
    + intros m. unfold zset. by rewrite Hm.
  - apply Hl in G as (i & Hi). cbn [step]. rewrite Hi. cbn.
    destruct (bwrite_ok c a i n) as (c' & -> & Hr'); [done|by apply Hh|].
    eexists _, _, (a_flush n a). split; [done|].
    split; cbn [a_flush a_size a_view a_disk a_pinned a_held s_size s_mem s_disk s_locked]; try done.
    + intros m. unfold zset. by rewrite Hm, Hd.
    + rewrite Hp. set_solver.
  - destruct G as [(i & Hi)%Hl E]. cbn [step]. rewrite Hi. cbn.
    destruct (brelse_ok c a i n) as (c' & -> & Hr'); [done|by apply Hh|right; by rewrite Hm, Hd|].
    eexists _, _, (a_release i a). split; [done|].
    split; cbn [a_release a_size a_view a_disk a_pinned a_held s_size s_mem s_disk s_locked]; try done.
    + intros m j. rewrite !lookup_delete. case_decide as E1; case_decide as E2; subst; [done| | |apply Hh].
      * split; [done|]. rewrite <- Hh. congruence.
      * split; [|done]. rewrite Hh. apply Hh in Hi. congruence.
    + intros m. rewrite elem_of_difference, elem_of_singleton, Hl. setoid_rewrite lookup_delete. split.
      * intros [[j Hj] Hne]. exists j. rewrite decide_False by congruence. done.
      * intros [j Hj]. case_decide; [done|]. split; [by exists j|congruence].
Qed.

Lemma run_sim rs c h s a s' o :
  sim c h s a -> spec rs s = Some (s', o) ->
  exists c' h' a', run rs (c, h) = Some (c', h', o) /\ sim c' h' s' a'.
Proof.
  revert c h s a o. induction rs as [|r rs IH]; intros c h s a o S; cbn [spec run].
  - intros [= <- <-]. by exists c, h, a.
  - intros ([s1 o1] & E1 & ([s2 o2] & E2 & [= <- <-])%bind_Some)%bind_Some.
    destruct (step_sim _ _ _ _ _ _ _ S E1) as (c1 & h1 & a1 & -> & S1).
    destruct (IH _ _ _ _ _ S1 E2) as (c2 & h2 & a2 & R2 & S2).
    exists c2, h2, a2. cbn. by rewrite R2.
Qed.

Lemma sim_fresh c n d : crep c (a_fresh n d) -> sim c ∅ (MkStore n d d ∅) (a_fresh n d).
Proof.
  intros H. split; try done. intros m. split; [set_solver|]. intros [i Hi]. done.
Qed.
End simulation.

End Client.

Import Cache Client.

(** C3: Over any driver that keeps the [BlockDriver] laws, the cache that
    [binit] sets up is indistinguishable from an array of blocks: every
    sequence of requests that locks at most [NBUF] blocks at once, locks no
    block twice, and releases a block only after writing it back runs without
    panic, sleep or divergence, [bread] returns exactly the bytes last stored
    in the block, and the driver's disk ends up with exactly the blocks written. *)
Theorem cache_refines_block_store {D} `{!BlockDriver D, !BlockDriverOk D} (d : D) rs s' o :
  drv_wf d ->
  spec rs (MkStore (drv_size d) (drv_block d) (drv_block d) ∅) = Some (s', o) ->
  exists c0 c' h', binit (bss d) = Ok tt c0 /\ run rs (c0, ∅) = Some (c', h', o) /\
    forall n, 0 <= n < s_size s' -> drv_block (drv c') n = s_disk s' n.
Proof.
  intros Hwf E. destruct (binit_rep d Hwf) as (c0 & Hi & R).
  pose proof (sim_fresh (C := bcache D) c0 (drv_size d) (drv_block d) R) as S0.
  destruct (run_sim rs c0 ∅ _ _ s' o S0 E) as (c' & h' & a' & Hrun & S).
  exists c0, c', h'. split_and!; [done..|]. intros n Hn.
  rewrite <- (sim_disk _ _ _ _ S), (rep_disk _ _ (sim_rep _ _ _ _ S)); [done|].
  by rewrite (sim_size _ _ _ _ S).
Qed.

Lemma cache_refines_block_store_witness :
  let d := Memide.ideinit (replicate 1024 0) in
  let x := replicate 512 7 in
  exists c0 c' h', binit (bss d) = Ok tt c0 /\
    run [Read 1; Store 1 x; Write 1; Release 1; Read 1; Release 1] (c0, ∅)
      = Some (c', h', [replicate 512 0; x]) /\
    forall n, 0 <= n < 2 -> drv_block (drv c') n = if n =? 1 then x else replicate 512 0.
Proof.
  intros d x.
  destruct (cache_refines_block_store d
    [Read 1; Store 1 x; Write 1; Release 1; Read 1; Release 1]
    (MkStore 2 (zset (drv_block d) 1 x) (zset (drv_block d) 1 x) ∅)
    [replicate 512 0; x]) as (c0 & c' & h' & Hi & Hr & Hd).
  - split; vm_compute; congruence.
  - vm_compute. reflexivity.
  - exists c0, c', h'. split; [exact Hi|]. split; [exact Hr|].
    intros n Hn. rewrite Hd by exact Hn. assert (n = 0 \/ n = 1) as [-> | ->] by lia; vm_compute; reflexivity.
Defined.

(** [brelse] keeps the ring of buffers well linked in both directions and
    moves exactly the released buffer to its front, the rest keeping their
    order: the ring lists the buffers by how recently they were released. *)
Theorem brelse_most_recent_first {D} (c : bcache D) l1 b l2 :
  ring c (l1 ++ b :: l2) -> busy (getb c b) = true ->
  exists c', brelse b c = Ok tt c' /\ ring c' (b :: l1 ++ l2) /\ busy (getb c' b) = false /\
    forall j, j <> b -> core (getb c' j) = core (getb c j).
Proof.
  intros Hr Hb. eexists. split; [by apply brelse_run|]. split_and!.
  - apply ring_upd_other; [done..|]. by apply ring_to_front.
  - assert (Hl : (b < NBUF)%nat) by (apply (ring_elem c _ b Hr); set_solver).
    rewrite getb_upd_eq.
    + unfold busy. cbn [set_flags flags]. by apply has_clear_same.
    + destruct (ring_to_front c l1 b l2 Hr) as (_ & _ & ->). lia.
  - intros j Hj. rewrite getb_upd_ne by done.
    rewrite (to_front_fields core) by done. by apply (unlink_fields core).
Qed.

Lemma brelse_most_recent_first_witness :
  exists c c' : bcache Memide.state,
    ring c (rev (seq 6 24) ++ 5%nat :: rev (seq 0 5)) /\ brelse 5 c = Ok tt c' /\
    ring c' (5%nat :: rev (seq 6 24) ++ rev (seq 0 5)).
Proof.
  destruct (binit_run (Memide.ideinit [])) as (c0 & _ & Hr & _).
  set (c := upd_buf 5 (fun b => set_flags (Z.lor (flags b) B_BUSY) b) c0).
  assert (Hrc : ring c (rev (seq 6 24) ++ 5%nat :: rev (seq 0 5))) by (by apply ring_upd_other).
  destruct (brelse_most_recent_first c (rev (seq 6 24)) 5%nat (rev (seq 0 5)) Hrc)
    as (c' & Hrun & Hr' & _).
  - unfold c. rewrite getb_upd_eq by (destruct Hr as (_ & _ & ->); vm_compute; lia).
    unfold busy. cbn [set_flags flags]. rewrite has_lor. apply orb_true_r.
  - exists c, c'. split; [exact Hrc|]. split; [exact Hrun|exact Hr'].
Defined.

(** A [bget] that does not find its block takes the least recently
    released buffer that is neither locked nor dirty, and panics exactly when
    there is none; the walks over the ring terminate. *)
Theorem bget_recycles_least_recent {D} (c : bcache D) l dev0 n :
  ring c l -> (forall i, i ∈ l -> ~ (dev (getb c i) = dev0 /\ blockno (getb c i) = n)) ->
  bget dev0 n c =
    match List.find (fun i => negb (busy (getb c i)) && negb (dirty (getb c i))) (rev l) with
    | Some b => Ok b (upd_buf b (fun x => set_flags B_BUSY (set_id dev0 n x)) c)
    | None => Panic "bget: no buffers"
    end.
Proof.
  intros Hr Hno. unfold bget. munfold.
  rewrite (walk_next c l) by done. rewrite (walk_prev c l) by done.
  rewrite (find_ext (fun i => (Z.land (flags (getb c i)) B_BUSY =? 0)
                              && (Z.land (flags (getb c i)) B_DIRTY =? 0))
             (fun i => negb (busy (getb c i)) && negb (dirty (getb c i)))) by (intros; apply free_test).
  destruct (List.find (fun i => (dev (getb c i) =? dev0) && _) l) as [i|] eqn:E.
  - apply List.find_some in E as [Hi%list_elem_of_In Ht]. destruct (Hno i Hi).
    apply andb_true_iff in Ht as [?%Z.eqb_eq ?%Z.eqb_eq]. done.
  - by destruct (List.find _ (rev l)).
Qed.

Lemma bget_recycles_least_recent_witness :
  exists c : bcache Memide.state, ring c (rev (seq 0 NBUF)) /\
    bget 1 7 c = Ok 0%nat (upd_buf 0 (fun x => set_flags B_BUSY (set_id 1 7 x)) c).
Proof.
  destruct (binit_run (Memide.ideinit [])) as (c & Hi & Hr & _). exists c. split; [exact Hr|].
  vm_compute in Hi. injection Hi as <-.
  rewrite (bget_recycles_least_recent _ _ 1 7 Hr).
  - vm_compute. reflexivity.
  - intros i Hi. apply (ring_elem _ _ _ Hr) in Hi. do 30 (destruct i as [|i]; [vm_compute; lia|]).
    exfalso. vm_compute in Hi. lia.
Defined.
