(* ===== verification/Log.v ===== *)
(** * The write-ahead log (HW3/log.c, [readsb] of HW3/fs.c)

    The log is written against the [BlockCache] interface.  [log] is the
    [struct log] with its in-memory header; the on-disk header is the block at
    [start], read and written as the little-endian [struct logheader] it is.

    The spinlock [log.lock] protects the short sections of [begin_op],
    [end_op] and [log_write]; each is one step here, and [begin_op]'s
    [sleep(&log, ..)] is the outcome [Sleep ChanLog].  [commit] runs without
    the lock but alone: [committing] keeps [begin_op] out.

    A crash is the loss of all memory after some prefix of the block writes
    issued so far ([a_writes]); the disk then holds the result of those writes,
    each block whole, and [initlog] runs on a fresh cache. *)

From stdpp Require Import base numbers list gmap sets strings.
From Stdlib Require Import ZArith Lia.
From S2P Require Import Prelude Disk Blocks.

Open Scope Z_scope.

(** [struct superblock] (fs.h) and its layout in block 1. *)
Record superblock := MkSb {
  sb_size : Z; sb_nblocks : Z; sb_ninodes : Z; sb_nlog : Z;
  sb_logstart : Z; sb_inodestart : Z; sb_bmapstart : Z
}.

Definition superblock_of (x : block) : superblock :=
  MkSb (get32 x 0) (get32 x 4) (get32 x 8) (get32 x 12) (get32 x 16) (get32 x 20) (get32 x 24).

(** [struct log]; the lock is left out. *)
Record log := MkLog {
  start : Z; log_size : Z; outstanding : Z; committing : bool; log_dev : Z;
  lh_n : Z; lh_block : list Z
}.

Definition set_lh (n : Z) (bl : list Z) (l : log) : log :=
  MkLog (start l) (log_size l) (outstanding l) (committing l) (log_dev l) n bl.
Definition set_outstanding (o : Z) (l : log) : log :=
  MkLog (start l) (log_size l) o (committing l) (log_dev l) (lh_n l) (lh_block l).
Definition set_committing (b : bool) (l : log) : log :=
  MkLog (start l) (log_size l) (outstanding l) b (log_dev l) (lh_n l) (lh_block l).
Definition set_geometry (st sz d : Z) (l : log) : log :=
  MkLog st sz (outstanding l) (committing l) d (lh_n l) (lh_block l).

(** The zeroed [log] a booting kernel starts with. *)
Definition log0 : log := MkLog 0 0 0 false 0 0 (replicate (Z.to_nat LOGSIZE) 0).

(** [struct logheader] in a block: [n], then [block[]]. *)
Definition lh_off (i : Z) : nat := Z.to_nat (4 + 4 * i).

Section log.
Context {C : Type} `{!BlockCache C}.

Record lstate := MkL { l_cache : C; l_log : log }.

Definition cache {A} (m : M C A) : M lstate A :=
  lift l_cache (fun c s => MkL c (l_log s)) m.
Definition modlog (f : log -> log) : M lstate unit :=
  modify (fun s => MkL (l_cache s) (f (l_log s))).

(** Stores to [b->data] by the holder of [b]. *)
Definition store (b : nat) (f : block -> block) : M lstate unit :=
  modify (fun s => MkL (bset b (f (bdata (l_cache s) b)) (l_cache s)) (l_log s)).

(** [log.lh.block[i]] *)
Definition lh_get (i : Z) : M lstate Z :=
  s ← get;
  match lh_block (l_log s) !! Z.to_nat i with
  | Some b => mret b
  | None => undef "log.lh.block[] out of bounds"
  end.

Definition readsb (dev0 : Z) : M lstate superblock :=
  bp ← cache (bread dev0 1);
  x ← reads (fun s => bdata (l_cache s) bp);
  cache (brelse bp);;
  mret (superblock_of x).

(** One round of the loop of [install_trans]. *)
Definition install_block (l : log) (tail : Z) : M lstate unit :=
  lbuf ← cache (bread (log_dev l) (u32 (start l + tail + 1)));
  h ← lh_get tail;
  dbuf ← cache (bread (log_dev l) (u32 h));
  x ← reads (fun s => bdata (l_cache s) lbuf);
  store dbuf (fun _ => x);;
  cache (bwrite dbuf);;
  cache (brelse lbuf);;
  cache (brelse dbuf).

Definition install_trans : M lstate unit :=
  l ← reads l_log;
  for_ 0 (lh_n l) (install_block l).

(** [log.lh.block[i] = lh->block[i]], the index checked against the array. *)
Definition read_entry (x : block) (i : Z) : M lstate unit :=
  if i <? LOGSIZE
  then modlog (fun l => set_lh (lh_n l) (<[Z.to_nat i := s32 (get32 x (lh_off i))]> (lh_block l)) l)
  else undef "log.lh.block[] out of bounds".

Definition read_head : M lstate unit :=
  l ← reads l_log;
  buf ← cache (bread (log_dev l) (u32 (start l)));
  x ← reads (fun s => bdata (l_cache s) buf);
  modlog (fun l => set_lh (s32 (get32 x 0)) (lh_block l) l);;
  for_ 0 (s32 (get32 x 0)) (read_entry x);;
  cache (brelse buf).

(** [hb->block[i] = log.lh.block[i]] for the first [n] entries. *)
Fixpoint fill_entries (x : block) (i : Z) (bl : list Z) : block :=
  match bl with
  | [] => x
  | b :: r => fill_entries (put32 x (lh_off i) b) (i + 1) r
  end.

Definition fill_head (n : Z) (bl : list Z) (x : block) : block :=
  fill_entries (put32 x 0 n) 0 (take (Z.to_nat n) bl).

Definition write_head : M lstate unit :=
  l ← reads l_log;
  buf ← cache (bread (log_dev l) (u32 (start l)));
  store buf (fill_head (lh_n l) (lh_block l));;
  cache (bwrite buf);;
  cache (brelse buf).

Definition recover_from_log : M lstate unit :=
  read_head;;
  install_trans;;
  modlog (fun l => set_lh 0 (lh_block l) l);;
  write_head.

Definition initlog (dev0 : Z) : M lstate unit :=
  if 4 * (1 + LOGSIZE) >=? BSIZE then panic "initlog: too big logheader"
  else
    sb ← readsb dev0;
    modlog (set_geometry (s32 (sb_logstart sb)) (s32 (sb_nlog sb)) dev0);;
    recover_from_log.

Definition begin_op : M lstate unit :=
  l ← reads l_log;
  if committing l then sleep_on ChanLog
  else if lh_n l + (outstanding l + 1) * MAXOPBLOCKS >? LOGSIZE then sleep_on ChanLog
  else modlog (fun l => set_outstanding (outstanding l + 1) l).

(** One round of the loop of [write_log]. *)
Definition log_block (l : log) (tail : Z) : M lstate unit :=
  to ← cache (bread (log_dev l) (u32 (start l + tail + 1)));
  h ← lh_get tail;
  from ← cache (bread (log_dev l) (u32 h));
  x ← reads (fun s => bdata (l_cache s) from);
  store to (fun _ => x);;
  cache (bwrite to);;
  cache (brelse from);;
  cache (brelse to).

Definition write_log : M lstate unit :=
  l ← reads l_log;
  for_ 0 (lh_n l) (log_block l).

Definition commit : M lstate unit :=
  l ← reads l_log;
  when (lh_n l >? 0) (
    write_log;;
    write_head;;
    install_trans;;
    modlog (fun l => set_lh 0 (lh_block l) l);;
    write_head).

Definition end_op : M lstate unit :=
  modlog (fun l => set_outstanding (outstanding l - 1) l);;
  l ← reads l_log;
  if committing l then panic "log.committing"
  else if outstanding l =? 0 then
    modlog (set_committing true);;
    commit;;
    modlog (set_committing false)
  else mret tt.

(** The absorption loop of [log_write]: the index of the first entry equal to
    [bno] among the first [n], or [n]. *)
Fixpoint absorb (bl : list Z) (bno : Z) (i : Z) (n : nat) : Z :=
  match n with
  | O => i
  | S k =>
      match bl !! Z.to_nat i with
      | Some b => if u32 b =? bno then i else absorb bl bno (i + 1) k
      | None => i
      end
  end.

Definition log_write (b : nat) : M lstate unit :=
  s ← get;
  let l := l_log s in
  if (lh_n l >=? LOGSIZE) || (lh_n l >=? log_size l - 1) then panic "too big a transaction"
  else if outstanding l <? 1 then panic "log_write outside of trans"
  else
    let bno := bblockno (l_cache s) b in
    let i := absorb (lh_block l) bno 0 (Z.to_nat (lh_n l)) in
    modlog (set_lh (if i =? lh_n l then lh_n l + 1 else lh_n l)
              (<[Z.to_nat i := s32 bno]> (lh_block l)));;
    modify (fun s => MkL (bdirty b (l_cache s)) (l_log s)).

(** The typical use of the log: an update of a whole block. *)
Definition update (n : Z) (x : block) : M lstate unit :=
  bp ← cache (bread ROOTDEV n);
  store bp (fun _ => x);;
  log_write bp;;
  cache (brelse bp).

End log.
Arguments lstate C : clear implicits.

(** ** Transactions

    What processes do to the log, one call after the other: a system call opens
    with [begin_op], updates blocks, and closes with [end_op]; calls of
    different processes interleave.  [tx] is what the log promises: the blocks
    on stable storage, the blocks as processes see them, the blocks changed
    since the last commit and the number of open calls. *)

Inductive ev := Begin | Update (n : Z) (x : block) | End.

Definition do_ev {C} `{!BlockCache C} (e : ev) : M (lstate C) unit :=
  match e with
  | Begin => begin_op
  | Update n x => update n x
  | End => end_op
  end.

Fixpoint do_evs {C} `{!BlockCache C} (es : list ev) : M (lstate C) unit :=
  match es with
  | [] => mret tt
  | e :: r => do_ev e;; do_evs r
  end.

Record tx := MkTx { t_old : Z -> block; t_new : Z -> block; t_logged : list Z; t_out : Z }.

Definition add_logged (n : Z) (hs : list Z) : list Z := if decide (n ∈ hs) then hs else hs ++ [n].

Definition home_dec (st sz N n : Z) : bool :=
  (2 <=? n) && (n <? N) && ((n <? st) || (st + sz <=? n)).

Definition tx_step (st sz N : Z) (e : ev) (t : tx) : option tx :=
  match e with
  | Begin =>
      if Z.of_nat (length (t_logged t)) + (t_out t + 1) * MAXOPBLOCKS <=? LOGSIZE
      then Some (MkTx (t_old t) (t_new t) (t_logged t) (t_out t + 1)) else None
  | Update n x =>
      if home_dec st sz N n && (length x =? Z.to_nat BSIZE)%nat && (1 <=? t_out t)
         && (Z.of_nat (length (t_logged t)) <? sz - 1)
      then Some (MkTx (t_old t) (zset (t_new t) n x) (add_logged n (t_logged t)) (t_out t)) else None
  | End =>
      if t_out t =? 1 then Some (MkTx (t_new t) (t_new t) [] 0)
      else if 1 <? t_out t then Some (MkTx (t_old t) (t_new t) (t_logged t) (t_out t - 1))
      else None
  end.

Fixpoint tx_run (st sz N : Z) (es : list ev) (t : tx) : option tx :=
  match es with
  | [] => Some t
  | e :: r => t1 ← tx_step st sz N e t; tx_run st sz N r t1
  end.

(** ** What the routines do to the client's view of the cache *)

Section laws.
Context {C : Type} `{!BlockCache C, !BlockCacheOk C}.
Implicit Types (c : C) (a : acache) (l : log).

Lemma cache_ok {A} (m : M C A) c l x c' :
  m c = Ok x c' -> cache m (MkL c l) = Ok x (MkL c' l).
Proof. intros H. unfold cache, lift. cbn. by rewrite H. Qed.

Lemma reads_ok {S A} (f : S -> A) s : reads f s = Ok (f s) s.
Proof. done. Qed.

Lemma modlog_ok c l f : modlog f (MkL c l) = Ok tt (MkL c (f l)).
Proof. done. Qed.

Lemma lh_get_ok c l i b :
  lh_block l !! Z.to_nat i = Some b -> lh_get i (MkL c l) = Ok b (MkL c l).
Proof. intros H. unfold lh_get. munfold. cbn. by rewrite H. Qed.

(** Reading two blocks in turn. *)
Lemma bread_two c a m n :
  crep c a -> a_held a = ∅ -> 0 <= m < a_size a -> 0 <= n < a_size a -> m <> n ->
  (base.size (a_pinned a) < NBUF)%nat ->
  n ∈ a_pinned a \/ (S (base.size (a_pinned a)) < NBUF)%nat ->
  exists i j c1 c2, bread ROOTDEV m c = Ok i c1 /\ crep c1 (a_hold i m a) /\
    bread ROOTDEV n c1 = Ok j c2 /\ i <> j /\ crep c2 (a_hold j n (a_hold i m a)).
Proof.
  intros R Hh Hm Hn Hne Hs Hs'.
  destruct (bread_ok c a m) as (i & c1 & E1 & _ & R1); try done.
  { rewrite Hh, map_img_empty. set_solver. }
  { right. unfold a_stuck. by rewrite Hh, map_img_empty_L, union_empty_r_L. }
  destruct (bread_ok c1 (a_hold i m a) n) as (j & c2 & E2 & Hj & R2); try done.
  { cbn [a_hold a_held]. rewrite Hh, insert_empty, map_img_singleton. set_solver. }
  { cbn [a_hold a_pinned a_held]. unfold a_stuck. cbn [a_hold a_pinned a_held].
    rewrite Hh, insert_empty, map_img_singleton_L. destruct Hs' as [|Hs']; [by left|right].
    pose proof (size_union_alt (a_pinned a) {[m]}) as Hu.
    pose proof (subseteq_size ({[m]} ∖ a_pinned a) {[m]} ltac:(set_solver)) as Hle.
    rewrite size_singleton in Hle. lia. }
  exists i, j, c1, c2. split_and!; try done.
  intros ->. cbn [a_hold a_held] in Hj. rewrite Hh, lookup_insert_eq in Hj. done.
Qed.

Lemma a_hold_comm a i m j n : i <> j -> a_hold i m (a_hold j n a) = a_hold j n (a_hold i m a).
Proof. intros H. unfold a_hold. cbn. by rewrite insert_insert_ne. Qed.

(** Two buffers held, the data of [src]'s copied into [dst]'s, which is written
    and both are released. *)
Lemma copy_release c a src dst i j :
  a_held a = ∅ -> i <> j -> src <> dst ->
  crep c (a_hold i src (a_hold j dst a)) ->
  src ∈ a_pinned a \/ a_view a src = a_disk a src ->
  exists c1 c2 c3,
    bwrite j (bset j (bdata c i) c) = Ok tt c1 /\ brelse i c1 = Ok tt c2 /\
    brelse j c2 = Ok tt c3 /\ crep c3 (a_sync dst (a_view a src) a).
Proof.
  intros Hh Hij Hne R Hcl.
  set (b := a_hold i src (a_hold j dst a)) in *.
  assert (Hi : a_held b !! i = Some src) by (by apply lookup_insert_eq).
  assert (Hj : a_held b !! j = Some dst).
  { cbn [b a_hold a_held]. rewrite lookup_insert_ne by done. by apply lookup_insert_eq. }
  destruct (crep_held c b i src R Hi) as [Ed _]. rewrite Ed.
  pose proof (crep_wf c b R) as (Hwv & _ & Hwh & _). pose proof (Hwh i src Hi) as Hsr.
  pose proof (bset_ok c b j dst (a_view b src) R Hj (Hwv _ Hsr)) as R1.
  destruct (bwrite_ok _ _ j dst R1 Hj) as (c1 & E1 & R2). rewrite a_flush_store in R2.
  destruct (brelse_ok c1 _ i src R2 Hi) as (c2 & E2 & R3).
  { cbn [b a_sync a_hold a_pinned a_view a_disk]. rewrite !zset_ne by done.
    destruct Hcl as [Hp|]; [left; set_solver|by right]. }
  assert (Hj' : a_held (a_release i (a_sync dst (a_view b src) b)) !! j = Some dst).
  { cbn [a_release a_sync a_held]. by rewrite lookup_delete_ne. }
  destruct (brelse_ok c2 _ j dst R3 Hj') as (c3 & E3 & R4).
  { right. cbn [a_release a_sync a_view a_disk]. by rewrite !zset_eq. }
  exists c1, c2, c3. split_and!; try done. revert R4.
  unfold b, a_release, a_sync, a_hold. cbn [a_size a_disk a_view a_held a_pinned a_writes].
  rewrite Hh, delete_insert_id, delete_insert_id; [|done|by rewrite lookup_insert_ne].
  done.
Qed.

(** *** Layout

    [st] and [sz] are the first block and the size of the log area of a disk of
    [N] blocks, no larger than the [nlog = LOGSIZE] of mkfs.c; every other block
    past the superblock is a home block. *)

Context (st sz N : Z).

Definition layout : Prop := 2 <= st /\ 1 <= sz /\ st + sz <= N /\ N <= 2 ^ 31 /\ sz <= LOGSIZE.

Definition home (h : Z) : Prop := 2 <= h < N /\ (h < st \/ st + sz <= h).

(** A log that lists the home blocks [hs]. *)
Definition lists (l : log) (hs : list Z) : Prop :=
  start l = st /\ log_size l = sz /\ log_dev l = ROOTDEV /\
  lh_n l = Z.of_nat (length hs) /\ take (length hs) (lh_block l) = hs /\
  length (lh_block l) = Z.to_nat LOGSIZE.

Definition loggable (hs : list Z) : Prop :=
  NoDup hs /\ Forall home hs /\ Z.of_nat (length hs) <= LOGSIZE /\ Z.of_nat (length hs) <= sz - 1.

Lemma lists_lookup l hs i h : lists l hs -> hs !! i = Some h -> lh_block l !! i = Some h.
Proof.
  intros (_ & _ & _ & _ & E & _) H. rewrite <- E in H. pose proof H as Hl.
  apply lookup_lt_Some in Hl. rewrite length_take in Hl. rewrite lookup_take_lt in H by lia. done.
Qed.

(** The writes [write_log] makes, and those of [install_trans], when the data
    of block [n] is [v n]. *)
Definition log_writes (hs : list Z) (v : Z -> block) : list (Z * block) :=
  imap (fun i h => (st + Z.of_nat i + 1, v h)) hs.
Definition home_writes (hs : list Z) (v : Z -> block) : list (Z * block) :=
  imap (fun i h => (h, v (st + Z.of_nat i + 1))) hs.

Lemma log_writes_keys hs v n :
  n ∈ (log_writes hs v).*1 <-> exists i, (i < length hs)%nat /\ n = st + Z.of_nat i + 1.
Proof.
  unfold log_writes. rewrite list_elem_of_fmap. split.
  - intros ([m x] & -> & (i & h & [= -> ->] & Hi)%elem_of_lookup_imap_1).
    exists i. split; [by apply lookup_lt_Some in Hi|done].
  - intros (i & Hi & ->). apply lookup_lt_is_Some_2 in Hi as [h Hh].
    exists (st + Z.of_nat i + 1, v h). split; [done|]. apply elem_of_lookup_imap. by exists i, h.
Qed.

Lemma home_writes_keys hs v : (home_writes hs v).*1 = hs.
Proof.
  unfold home_writes. rewrite fmap_imap. apply list_eq. intros i. rewrite list_lookup_imap.
  by destruct (hs !! i).
Qed.

Lemma home_not_log hs v h : layout -> loggable hs -> home h -> h ∉ (log_writes hs v).*1.
Proof.
  intros Hl (_ & _ & _ & Hn) [_ Hh] Hin. apply log_writes_keys in Hin as (i & Hi & ->). lia.
Qed.

Lemma log_block_ok c a l hs tail h :
  layout -> a_size a = N -> lists l hs -> loggable hs -> hs !! tail = Some h ->
  crep c a -> a_held a = ∅ -> h ∈ a_pinned a -> (base.size (a_pinned a) < NBUF)%nat ->
  exists c', log_block l (Z.of_nat tail) (MkL c l) = Ok tt (MkL c' l) /\
    crep c' (a_sync (st + Z.of_nat tail + 1) (a_view a h) a).
Proof.
  intros (H1 & H2 & H3 & H4 & _) Ha Hli (_ & Hhs & _ & Hlen) Hh R Hheld Hp Hsz.
  pose proof (lists_lookup l hs tail h Hli Hh) as Hlb. destruct Hli as (E1 & _ & E3 & _).
  pose proof (lookup_lt_Some _ _ _ Hh) as Ht.
  pose proof (proj1 (Forall_lookup _ _) Hhs _ _ Hh) as [Hr Ho].
  destruct (bread_two c a (st + Z.of_nat tail + 1) h) as (i & j & c1 & c2 & B1 & _ & B2 & Hij & R2);
    try done; try lia; [by left|].
  destruct (copy_release c2 a h (st + Z.of_nat tail + 1) j i) as (c3 & c4 & c5 & W1 & W2 & W3 & R5);
    try done; [lia|by left|].
  exists c5. split; [|done]. unfold log_block. rewrite E1, E3, u32_small by lia.
  rewrite (bind_ok _ _ _ _ _ (cache_ok _ _ l _ _ B1)).
  rewrite (bind_ok _ _ _ _ _ (lh_get_ok c1 l (Z.of_nat tail) h ltac:(by rewrite Nat2Z.id))).
  rewrite u32_small by lia.
  rewrite (bind_ok _ _ _ _ _ (cache_ok _ _ l _ _ B2)). munfold. unfold store. munfold.
  cbn [l_cache l_log]. rewrite (cache_ok _ _ l _ _ W1), (cache_ok _ _ l _ _ W2).
  by apply cache_ok.
Qed.

Lemma install_block_ok c a l hs tail h :
  layout -> a_size a = N -> lists l hs -> loggable hs -> hs !! tail = Some h ->
  crep c a -> a_held a = ∅ -> (base.size (a_pinned a) < NBUF)%nat ->
  h ∈ a_pinned a \/ (S (base.size (a_pinned a)) < NBUF)%nat ->
  a_view a (st + Z.of_nat tail + 1) = a_disk a (st + Z.of_nat tail + 1) ->
  exists c', install_block l (Z.of_nat tail) (MkL c l) = Ok tt (MkL c' l) /\
    crep c' (a_sync h (a_view a (st + Z.of_nat tail + 1)) a).
Proof.
  intros (H1 & H2 & H3 & H4 & _) Ha Hli (_ & Hhs & _ & Hlen) Hh R Hheld Hsz Hp Hcl.
  pose proof (lists_lookup l hs tail h Hli Hh) as Hlb. destruct Hli as (E1 & _ & E3 & _).
  pose proof (lookup_lt_Some _ _ _ Hh) as Ht.
  pose proof (proj1 (Forall_lookup _ _) Hhs _ _ Hh) as [Hr Ho].
  destruct (bread_two c a (st + Z.of_nat tail + 1) h) as (i & j & c1 & c2 & B1 & _ & B2 & Hij & R2);
    try done; try lia. rewrite a_hold_comm in R2 by done.
  destruct (copy_release c2 a (st + Z.of_nat tail + 1) h i j) as (c3 & c4 & c5 & W1 & W2 & W3 & R5);
    try done; [lia|by right|].
  exists c5. split; [|done]. unfold install_block. rewrite E1, E3, u32_small by lia.
  rewrite (bind_ok _ _ _ _ _ (cache_ok _ _ l _ _ B1)).
  rewrite (bind_ok _ _ _ _ _ (lh_get_ok c1 l (Z.of_nat tail) h ltac:(by rewrite Nat2Z.id))).
  rewrite u32_small by lia.
  rewrite (bind_ok _ _ _ _ _ (cache_ok _ _ l _ _ B2)). munfold. unfold store. munfold.
  cbn [l_cache l_log]. rewrite (cache_ok _ _ l _ _ W1), (cache_ok _ _ l _ _ W2).
  by apply cache_ok.
Qed.

(** A loop over the listed blocks that issues the write [w i] at index [i]. *)
Lemma copy_loop c a l (body : Z -> M (lstate C) unit) (ws : list (Z * block)) :
  crep c a ->
  (forall c' i n x, ws !! i = Some (n, x) -> crep c' (a_syncs (take i ws) a) ->
     exists c'', body (Z.of_nat i) (MkL c' l) = Ok tt (MkL c'' l) /\
       crep c'' (a_sync n x (a_syncs (take i ws) a))) ->
  exists c', for_ 0 (Z.of_nat (length ws)) body (MkL c l) = Ok tt (MkL c' l) /\
    crep c' (a_syncs ws a).
Proof.
  intros R Hb.
  destruct (for_inv (fun i s => exists c', s = MkL c' l /\ crep c' (a_syncs (take (Z.to_nat i) ws) a))
              body 0 (Z.of_nat (length ws)) (MkL c l)) as (s' & E & c' & -> & R').
  - lia.
  - by exists c.
  - intros j s Hj (c' & -> & R').
    destruct (lookup_lt_is_Some_2 ws (Z.to_nat j)) as [[n x] Hx]; [lia|].
    destruct (Hb c' (Z.to_nat j) n x Hx R') as (c'' & E & R'').
    exists (MkL c'' l). rewrite Z2Nat.id in E by lia. split; [done|]. exists c''. split; [done|].
    replace (Z.to_nat (j + 1)) with (S (Z.to_nat j)) by lia.
    by rewrite (take_S_r _ _ _ Hx), a_syncs_app.
  - exists c'. split; [done|]. by rewrite Nat2Z.id, firstn_all in R'.
Qed.

Lemma take_keys_subset (ws : list (Z * block)) i n : n ∈ (take i ws).*1 -> n ∈ ws.*1.
Proof.
  rewrite !list_elem_of_fmap. intros (x & -> & Hx). exists x. split; [done|].
  apply list_elem_of_lookup in Hx as (k & Hk). apply lookup_take_Some in Hk as [Hk _].
  by apply list_elem_of_lookup_2 in Hk.
Qed.

Lemma size_unpinned (p q : gset Z) k : (base.size p < k)%nat -> (base.size (p ∖ q) < k)%nat.
Proof. intros H. pose proof (subseteq_size (p ∖ q) p ltac:(set_solver)). lia. Qed.

Lemma write_log_ok c a l hs :
  layout -> a_size a = N -> lists l hs -> loggable hs ->
  crep c a -> a_held a = ∅ -> Forall (fun h => h ∈ a_pinned a) hs ->
  (base.size (a_pinned a) < NBUF)%nat ->
  exists c', write_log (MkL c l) = Ok tt (MkL c' l) /\
    crep c' (a_syncs (log_writes hs (a_view a)) a).
Proof.
  intros Hlay Ha Hli Hlo R Hh Hp Hsz. unfold write_log. rewrite (bind_ok _ _ _ _ _ (reads_ok _ _)).
  cbn [l_log]. destruct Hli as (E1 & E2 & E3 & E4 & E5) eqn:Eli. rewrite E4.
  rewrite <- (length_imap (fun i h => (st + Z.of_nat i + 1, a_view a h)) hs).
  apply copy_loop; [done|]. fold (log_writes hs (a_view a)).
  intros c' i n x Hx R'.
  unfold log_writes in Hx. apply list_lookup_imap_Some in Hx as (h & Hhi & [= -> ->]).
  destruct (a_syncs_fields (take i (log_writes hs (a_view a))) a) as (F1 & _ & F3 & F4 & F5 & _).
  assert (Hhome : home h) by (destruct Hlo as (_ & Hf & _); by apply (proj1 (Forall_lookup _ _) Hf i)).
  assert (Hnk : h ∉ (take i (log_writes hs (a_view a))).*1).
  { intros Hk%take_keys_subset. by apply (home_not_log hs (a_view a) h). }
  rewrite <- (apply_writes_ne _ (a_view a) h Hnk), <- F3.
  apply (log_block_ok c' _ l hs); rewrite ?F1, ?F4, ?F5; try done.
  - rewrite elem_of_difference, elem_of_list_to_set. split; [|done].
    by apply (proj1 (Forall_lookup _ _) Hp i).
  - by apply size_unpinned.
Qed.

Lemma install_trans_ok c a l hs :
  layout -> a_size a = N -> lists l hs -> loggable hs ->
  crep c a -> a_held a = ∅ -> (base.size (a_pinned a) < NBUF)%nat ->
  Forall (fun h => h ∈ a_pinned a) hs \/ (S (base.size (a_pinned a)) < NBUF)%nat ->
  (forall i, (i < length hs)%nat ->
     a_view a (st + Z.of_nat i + 1) = a_disk a (st + Z.of_nat i + 1)) ->
  exists c', install_trans (MkL c l) = Ok tt (MkL c' l) /\
    crep c' (a_syncs (home_writes hs (a_view a)) a).
Proof.
  intros Hlay Ha Hli Hlo R Hh Hsz Hp Hcl. unfold install_trans.
  rewrite (bind_ok _ _ _ _ _ (reads_ok _ _)).
  cbn [l_log]. destruct Hli as (E1 & E2 & E3 & E4 & E5) eqn:Eli. rewrite E4.
  rewrite <- (length_imap (fun i h => (h, a_view a (st + Z.of_nat i + 1))) hs).
  apply copy_loop; [done|]. fold (home_writes hs (a_view a)).
  intros c' i n x Hx R'.
  unfold home_writes in Hx. apply list_lookup_imap_Some in Hx as (h & Hhi & [= -> ->]).
  set (ws := take i (home_writes hs (a_view a))) in *.
  destruct (a_syncs_fields ws a) as (F1 & F2 & F3 & F4 & F5 & _).
  assert (Hks : ws.*1 = take i hs) by (unfold ws; by rewrite fmap_take, home_writes_keys).
  pose proof (lookup_lt_Some _ _ _ Hhi) as Hi.
  assert (Hnk : st + Z.of_nat i + 1 ∉ ws.*1).
  { rewrite Hks. intros Hk%subseteq_take. destruct Hlo as (_ & Hf & _ & Hn).
    pose proof (proj1 (Forall_forall _ _) Hf _ Hk) as [_ ?]. lia. }
  rewrite <- (apply_writes_ne _ (a_view a) _ Hnk), <- F3.
  apply (install_block_ok c' _ l hs); rewrite ?F1, ?F4, ?F5; try done.
  - by apply size_unpinned.
  - destruct Hp as [Hp|Hp].
    + left. rewrite elem_of_difference, elem_of_list_to_set, Hks. split.
      * by apply (proj1 (Forall_lookup _ _) Hp i).
      * intros (k & Hk)%list_elem_of_lookup. apply lookup_take_Some in Hk as [Hk Hlt].
        destruct Hlo as (Hnd & _). pose proof (NoDup_lookup _ _ _ _ Hnd Hk Hhi). lia.
    + right. pose proof (size_unpinned (a_pinned a) (list_to_set ws.*1) (Nat.pred NBUF)) as Hs.
      cbn in Hs. lia.
  - rewrite F3, F2, !apply_writes_ne by done. by apply Hcl.
Qed.

(** *** The header block *)

Definition header (hs : list Z) (x : block) : block :=
  fill_entries (put32 x 0 (Z.of_nat (length hs))) 0 hs.

Lemma fill_head_lists l hs x :
  lists l hs -> fill_head (lh_n l) (lh_block l) x = header hs x.
Proof.
  intros (_ & _ & _ & En & Eb & _). unfold fill_head, header.
  by rewrite En, Nat2Z.id, Eb.
Qed.

Lemma fill_entries_spec hs : forall x i,
  0 <= i -> block_ok x -> 4 + 4 * (i + Z.of_nat (length hs)) <= BSIZE ->
  block_ok (fill_entries x i hs) /\
  (forall o, (o + 4 <= lh_off i)%nat -> get32 (fill_entries x i hs) o = get32 x o) /\
  (forall k h, hs !! k = Some h -> get32 (fill_entries x i hs) (lh_off (i + Z.of_nat k)) = u32 h).
Proof.
  unfold block_ok, lh_off, BSIZE.
  induction hs as [|h hs IH]; intros x i Hi Hx Hlen; cbn [fill_entries length] in *.
  - split_and!; try done.
  - destruct (IH (put32 x (Z.to_nat (4 + 4 * i)) h) (i + 1)) as (I1 & I2 & I3); try lia.
    { rewrite length_put32; lia. }
    split_and!; [done| |].
    + intros o Ho. rewrite I2 by lia. apply get32_put32_ne; lia.
    + intros [|k] h'; cbn [lookup list_lookup].
      * intros [= ->]. rewrite I2 by lia. rewrite Z.add_0_r. apply get32_put32_eq. lia.
      * intros Hk. rewrite <- (I3 k h' Hk). f_equal. lia.
Qed.

Lemma header_spec hs x :
  block_ok x -> Z.of_nat (length hs) <= LOGSIZE ->
  block_ok (header hs x) /\ get32 (header hs x) 0 = Z.of_nat (length hs) /\
  (forall k h, hs !! k = Some h -> get32 (header hs x) (lh_off (Z.of_nat k)) = u32 h).
Proof.
  intros Hx Hn. unfold LOGSIZE, MAXOPBLOCKS, header in *.
  assert (Hx' : block_ok (put32 x 0 (Z.of_nat (length hs)))).
  { unfold block_ok, BSIZE in *. rewrite length_put32; lia. }
  destruct (fill_entries_spec hs _ 0 ltac:(lia) Hx') as (H1 & H2 & H3); [unfold BSIZE; lia|].
  split_and!; [done| |done]. rewrite H2 by (unfold lh_off; lia).
  unfold block_ok, BSIZE in Hx. rewrite get32_put32_eq by lia. apply u32_small. lia.
Qed.

Lemma write_head_ok c a l hs :
  layout -> a_size a = N -> lists l hs -> Z.of_nat (length hs) <= LOGSIZE ->
  crep c a -> a_held a = ∅ -> (base.size (a_pinned a) < NBUF)%nat ->
  exists c', write_head (MkL c l) = Ok tt (MkL c' l) /\
    crep c' (a_sync st (header hs (a_view a st)) a).
Proof.
  intros (H1 & H2 & H3 & H4 & _) Ha Hli Hn R Hh Hsz.
  destruct (bread_ok c a st) as (i & c1 & B1 & _ & R1); [done|lia| | |].
  { rewrite Hh, map_img_empty. set_solver. }
  { right. unfold a_stuck. by rewrite Hh, map_img_empty_L, union_empty_r_L. }
  assert (Hi : a_held (a_hold i st a) !! i = Some st) by apply lookup_insert_eq.
  destruct (crep_held c1 _ i st R1 Hi) as [Ed _].
  pose proof (crep_wf c1 _ R1) as (Hwv & _).
  assert (Hx : block_ok (header hs (a_view a st))).
  { apply header_spec; [|done]. apply (Hwv st). cbn. lia. }
  pose proof (bset_ok c1 _ i st _ R1 Hi Hx) as R2.
  destruct (bwrite_ok _ _ i st R2 Hi) as (c2 & W1 & R3). rewrite a_flush_store in R3.
  destruct (brelse_ok c2 _ i st R3 Hi) as (c3 & W2 & R4).
  { right. cbn. by rewrite !zset_eq. }
  exists c3. split.
  - unfold write_head. rewrite (bind_ok _ _ _ _ _ (reads_ok _ _)). cbn [l_log].
    pose proof Hli as (E1 & _ & E3 & _). rewrite E1, E3, u32_small by lia.
    rewrite (bind_ok _ _ _ _ _ (cache_ok _ _ l _ _ B1)). unfold store. munfold. cbn [l_cache l_log].
    rewrite (fill_head_lists l hs) by done. rewrite Ed. cbn [a_hold a_view].
    rewrite (cache_ok _ _ l _ _ W1). by apply cache_ok.
  - revert R4. unfold a_release, a_sync, a_hold. cbn [a_size a_disk a_view a_held a_pinned a_writes].
    by rewrite Hh, delete_insert_id.
Qed.

(** *** Commit *)

Definition new_writes (hs : list Z) (v : Z -> block) : list (Z * block) :=
  (fun h => (h, v h)) <$> hs.

Definition commit_writes (hs : list Z) (v : Z -> block) : list (Z * block) :=
  log_writes hs v ++ [(st, header hs (v st))] ++ new_writes hs v
  ++ [(st, header [] (header hs (v st)))].

Lemma new_writes_keys hs v : (new_writes hs v).*1 = hs.
Proof. unfold new_writes. rewrite <- list_fmap_compose. by rewrite list_fmap_id. Qed.

Lemma log_writes_nodup hs v : NoDup (log_writes hs v).*1.
Proof.
  unfold log_writes. rewrite fmap_imap. apply NoDup_alt. intros i j n Hi Hj.
  apply list_lookup_imap_Some in Hi as (h & _ & ->), Hj as (h' & _ & E). cbn in E. lia.
Qed.

(** The log blocks hold the new data once [write_log] is done. *)
Lemma log_writes_value hs v d i h :
  hs !! i = Some h -> apply_writes (log_writes hs v) d (st + Z.of_nat i + 1) = v h.
Proof.
  intros H. apply apply_writes_eq; [apply log_writes_nodup|].
  apply elem_of_lookup_imap. by exists i, h.
Qed.

Lemma home_writes_new hs v w :
  (forall i h, hs !! i = Some h -> w (st + Z.of_nat i + 1) = v h) ->
  home_writes hs w = new_writes hs v.
Proof.
  intros H. apply list_eq. intros i. unfold home_writes, new_writes.
  rewrite list_lookup_imap, list_lookup_fmap. destruct (hs !! i) as [h|] eqn:E; [|done].
  cbn. by rewrite (H i h E).
Qed.

Lemma lists_clear l hs : lists l hs -> lists (set_lh 0 (lh_block l) l) [].
Proof. intros (? & ? & ? & ? & ? & ?). split_and!; done. Qed.

Lemma header_not_log hs v : st ∉ (log_writes hs v).*1.
Proof. intros (i & _ & E)%log_writes_keys. lia. Qed.

Lemma st_not_home hs : layout -> Forall home hs -> st ∉ hs.
Proof.
  intros (H1 & H2 & _) Hf Hin. pose proof (proj1 (Forall_forall _ _) Hf _ Hin) as [_ ?]. lia.
Qed.

Lemma commit_ok c a l hs :
  layout -> a_size a = N -> lists l hs -> loggable hs -> hs <> [] ->
  crep c a -> a_held a = ∅ -> a_pinned a = list_to_set hs -> (length hs < NBUF)%nat ->
  exists c', commit (MkL c l) = Ok tt (MkL c' (set_lh 0 (lh_block l) l)) /\
    crep c' (a_syncs (commit_writes hs (a_view a)) a).
Proof.
  intros Hlay Ha Hli Hlo Hne R Hh Hp Hlen. pose proof Hlo as (Hnd & Hhome & Hls & Hsz1).
  assert (Hsz : (base.size (a_pinned a) < NBUF)%nat) by (rewrite Hp, size_list_to_set; done).
  assert (Hall : Forall (fun h => h ∈ a_pinned a) hs).
  { rewrite Hp. apply Forall_forall. intros h. by rewrite elem_of_list_to_set. }
  set (v := a_view a) in *. set (W1 := log_writes hs v).
  destruct (write_log_ok c a l hs) as (c1 & E1 & R1); try done. fold v in R1. fold W1 in R1.
  destruct (a_syncs_fields W1 a) as (F1 & F2 & F3 & F4 & F5 & _). set (a1 := a_syncs W1 a) in *.
  assert (Hv1 : a_view a1 st = v st) by (rewrite F3; apply apply_writes_ne, header_not_log).
  destruct (write_head_ok c1 a1 l hs) as (c2 & E2 & R2);
    rewrite ?F1, ?F4, ?F5; try done; [by apply size_unpinned|]. rewrite Hv1 in R2.
  set (a2 := a_sync st (header hs (v st)) a1) in *.
  assert (Hlog : forall i, (i < length hs)%nat ->
            st + Z.of_nat i + 1 <> st /\ exists h, hs !! i = Some h).
  { intros i Hi. split; [lia|]. by apply lookup_lt_is_Some_2. }
  assert (Hp2 : Forall (fun h => h ∈ a_pinned a2) hs).
  { apply Forall_forall. intros h Hin. unfold a2; cbn [a_sync a_pinned]. rewrite F5.
    pose proof (proj1 (Forall_forall _ _) Hhome _ Hin) as Hhh.
    pose proof (home_not_log hs v h Hlay Hlo Hhh) as Hnk. fold W1 in Hnk.
    pose proof (st_not_home hs Hlay Hhome) as Hst.
    rewrite !elem_of_difference, elem_of_list_to_set, Hp, elem_of_list_to_set. set_solver. }
  assert (S2 : a_size a2 = N) by (unfold a2; cbn [a_sync a_size]; by rewrite F1).
  assert (H2 : a_held a2 = ∅) by (unfold a2; cbn [a_sync a_held]; by rewrite F4).
  destruct (install_trans_ok c2 a2 l hs) as (c3 & E3 & R3); try done.
  { unfold a2; cbn [a_sync a_pinned]. rewrite F5. by do 2 apply size_unpinned. }
  { by left. }
  { intros i Hi. destruct (Hlog i Hi) as (Hst & h & Hhi). unfold a2; cbn [a_sync a_view a_disk].
    rewrite !zset_ne, F2, F3 by done. by rewrite !(log_writes_value hs v _ i h). }
  rewrite (home_writes_new hs v) in R3.
  2: { intros i h Hhi. destruct (Hlog i (lookup_lt_Some _ _ _ Hhi)) as (Hst & _).
       unfold a2; cbn [a_sync a_view]. rewrite zset_ne, F3 by done. by apply log_writes_value. }
  destruct (a_syncs_fields (new_writes hs v) a2) as (G1 & _ & G3 & G4 & G5 & _).
  set (a3 := a_syncs (new_writes hs v) a2) in *.
  assert (Hv3 : a_view a3 st = header hs (v st)).
  { rewrite G3, apply_writes_ne; [by apply zset_eq|]. rewrite new_writes_keys. by apply st_not_home. }
  destruct (write_head_ok c3 a3 (set_lh 0 (lh_block l) l) []) as (c4 & E4 & R4);
    rewrite ?G1, ?G4, ?G5; try done.
  { by apply (lists_clear l hs). }
  { unfold a2; cbn [a_sync a_pinned]. rewrite F5. by do 3 apply size_unpinned. }
  rewrite Hv3 in R4. exists c4. split.
  - unfold commit. rewrite (bind_ok _ _ _ _ _ (reads_ok _ _)). cbn [l_log].
    destruct Hli as (_ & _ & _ & -> & _). destruct hs as [|h0 hs']; [done|].
    change (Z.of_nat (length (h0 :: hs')) >? 0) with true. cbn [when].
    rewrite (bind_ok _ _ _ _ _ E1), (bind_ok _ _ _ _ _ E2), (bind_ok _ _ _ _ _ E3). exact E4.
  - unfold commit_writes. by rewrite !a_syncs_app.
Qed.

(** *** Recovery *)

(** Reading a block and giving it back changes nothing a client can see. *)
Lemma read_release c a l n :
  crep c a -> a_held a = ∅ -> 0 <= n < a_size a -> (base.size (a_pinned a) < NBUF)%nat ->
  n ∈ a_pinned a \/ a_view a n = a_disk a n ->
  exists i c1 c2, bread ROOTDEV n c = Ok i c1 /\ bdata c1 i = a_view a n /\
    brelse i c1 = Ok tt c2 /\ crep c2 a.
Proof.
  intros R Hh Hn Hsz Hcl.
  destruct (bread_ok c a n) as (i & c1 & B1 & _ & R1); [done|lia| | |].
  { rewrite Hh, map_img_empty. set_solver. }
  { right. unfold a_stuck. by rewrite Hh, map_img_empty_L, union_empty_r_L. }
  assert (Hi : a_held (a_hold i n a) !! i = Some n) by apply lookup_insert_eq.
  destruct (crep_held c1 _ i n R1 Hi) as [Ed _].
  destruct (brelse_ok c1 _ i n R1 Hi Hcl) as (c2 & W & R2).
  exists i, c1, c2. split_and!; try done. revert R2.
  unfold a_release, a_hold. cbn [a_size a_disk a_view a_held a_pinned a_writes].
  rewrite Hh, delete_insert_id by done. rewrite <- Hh. by destruct a.
Qed.

(** The header block of disk [d] lists [hs]; block 1 is the superblock. *)
Definition logged (d : Z -> block) (hs : list Z) : Prop :=
  get32 (d st) 0 = Z.of_nat (length hs) /\
  forall k h, hs !! k = Some h -> get32 (d st) (lh_off (Z.of_nat k)) = u32 h.

Definition sb_ok (d : Z -> block) : Prop :=
  sb_logstart (superblock_of (d 1)) = st /\ sb_nlog (superblock_of (d 1)) = sz.

Definition geometry (l : log) : Prop :=
  start l = st /\ log_size l = sz /\ log_dev l = ROOTDEV /\
  length (lh_block l) = Z.to_nat LOGSIZE.

(** Everything but the header fields of the log is left alone. *)
Definition same_ops (l l' : log) : Prop :=
  outstanding l' = outstanding l /\ committing l' = committing l.

Lemma read_entries c l x hs :
  geometry l -> Z.of_nat (length hs) <= LOGSIZE -> Forall home hs -> N <= 2 ^ 31 ->
  lh_n l = Z.of_nat (length hs) ->
  (forall k h, hs !! k = Some h -> get32 x (lh_off (Z.of_nat k)) = u32 h) ->
  exists l', for_ 0 (Z.of_nat (length hs)) (read_entry x) (MkL c l) = Ok tt (MkL c l') /\
    lists l' hs /\ same_ops l l'.
Proof.
  intros (G1 & G2 & G3 & G4) Hn Hhome HN Hln Hx.
  destruct (for_inv (fun i s => exists l', s = MkL c l' /\ geometry l' /\ same_ops l l' /\
       lh_n l' = lh_n l /\ take (Z.to_nat i) (lh_block l') = take (Z.to_nat i) hs)
     (read_entry x) 0 (Z.of_nat (length hs)) (MkL c l)) as (s' & E & l' & -> & Gm & Sm & En & Et).
  - lia.
  - exists l. split_and!; done.
  - intros j s Hj (l' & -> & (K1 & K2 & K3 & K4) & Sm & En & Et).
    destruct (lookup_lt_is_Some_2 hs (Z.to_nat j)) as [h Hh]; [lia|].
    pose proof (proj1 (Forall_lookup _ _) Hhome _ _ Hh) as [Hr _].
    pose proof (Hx _ _ Hh) as Hg. rewrite Z2Nat.id in Hg by lia.
    unfold read_entry. rewrite (proj2 (Z.ltb_lt _ _)) by lia.
    eexists. split; [reflexivity|]. eexists. split; [reflexivity|].
    cbn [set_lh start log_size log_dev lh_n lh_block outstanding committing l_log].
    split_and!; try done.
    + unfold geometry. cbn. by rewrite length_insert.
    + replace (Z.to_nat (j + 1)) with (S (Z.to_nat j)) by lia.
      rewrite (take_S_r hs _ h Hh), (take_S_r _ _ h).
      * rewrite take_insert_ge by lia. by rewrite Et.
      * rewrite Hg, u32_small, s32_small by lia. rewrite list_lookup_insert_eq by lia. done.
  - exists l'. split; [done|]. rewrite Nat2Z.id, firstn_all in Et.
    destruct Gm as (K1 & K2 & K3 & K4). split; [|done]. split_and!; try done. by rewrite En.
Qed.

Lemma read_head_ok c a l hs :
  layout -> a_size a = N -> geometry l -> loggable hs -> logged (a_view a) hs ->
  crep c a -> a_held a = ∅ -> (base.size (a_pinned a) < NBUF)%nat -> a_view a st = a_disk a st ->
  exists c' l', read_head (MkL c l) = Ok tt (MkL c' l') /\ lists l' hs /\ same_ops l l' /\ crep c' a.
Proof.
  intros (H1 & H2 & H3 & H4 & H5) Ha Hg (_ & Hhome & Hn & _) (Hlg & Hlk) R Hh Hsz Hcl.
  destruct (read_release c a l st) as (i & c1 & c2 & B1 & Ed & B2 & R2); try done; [lia|by right|].
  unfold LOGSIZE, MAXOPBLOCKS in Hn.
  destruct (read_entries c1 (set_lh (Z.of_nat (length hs)) (lh_block l) l) (a_view a st) hs)
    as (l' & E & Hl' & Hs'); try done.
  exists c2, l'. split_and!; try done. unfold read_head.
  rewrite (bind_ok _ _ _ _ _ (reads_ok _ _)). cbn [l_log].
  destruct Hg as (E1 & E2 & E3 & E4). rewrite E1, E3, u32_small by lia.
  rewrite (bind_ok _ _ _ _ _ (cache_ok _ _ l _ _ B1)), (bind_ok _ _ _ _ _ (reads_ok _ _)).
  cbn [l_cache]. rewrite Ed, Hlg, s32_small by lia. 
  rewrite (bind_ok _ _ _ _ _ (modlog_ok _ _ _)).
  rewrite (bind_ok _ _ _ _ _ E). by apply cache_ok.
Qed.

(** The writes of a recovery that finds [hs] in the header. *)
Definition recover_writes (hs : list Z) (d : Z -> block) : list (Z * block) :=
  home_writes hs d ++ [(st, header [] (d st))].

Lemma recover_ok c a l hs :
  layout -> a_size a = N -> geometry l -> loggable hs -> logged (a_view a) hs ->
  crep c a -> a_held a = ∅ -> a_pinned a = ∅ -> (forall n, a_view a n = a_disk a n) ->
  exists c' l', recover_from_log (MkL c l) = Ok tt (MkL c' l') /\ lists l' [] /\ same_ops l l' /\
    crep c' (a_syncs (recover_writes hs (a_view a)) a).
Proof.
  intros Hlay Ha Hg Hlo Hlg R Hh Hp Hcl. pose proof Hlo as (_ & Hhome & _).
  assert (Hsz : (S (base.size (a_pinned a)) < NBUF)%nat) by (rewrite Hp, size_empty; vm_compute; lia).
  destruct (read_head_ok c a l hs) as (c1 & l1 & E1 & Hl1 & Hs1 & R1); try done; [lia|].
  destruct (install_trans_ok c1 a l1 hs) as (c2 & E2 & R2); try done; [lia|by right|].
  destruct (a_syncs_fields (home_writes hs (a_view a)) a) as (F1 & _ & F3 & F4 & F5 & _).
  assert (Hv : a_view (a_syncs (home_writes hs (a_view a)) a) st = a_view a st).
  { rewrite F3. apply apply_writes_ne. rewrite home_writes_keys. by apply st_not_home. }
  destruct (write_head_ok c2 (a_syncs (home_writes hs (a_view a)) a) (set_lh 0 (lh_block l1) l1) []) as (c3 & E3 & R3);
    rewrite ?F1, ?F4, ?F5; try done.
  { by apply (lists_clear l1 hs). }
  { apply size_unpinned. lia. }
  rewrite Hv in R3. exists c3, (set_lh 0 (lh_block l1) l1). split_and!; try done.
  - unfold recover_from_log. rewrite (bind_ok _ _ _ _ _ E1), (bind_ok _ _ _ _ _ E2).
    by rewrite (bind_ok _ _ _ _ _ (modlog_ok _ _ _)).
  - by apply (lists_clear l1 hs).
  - unfold recover_writes. by rewrite a_syncs_app.
Qed.

Lemma initlog_ok c d hs :
  layout -> sb_ok d -> loggable hs -> logged d hs -> crep c (a_fresh N d) ->
  exists c' l', initlog ROOTDEV (MkL c log0) = Ok tt (MkL c' l') /\ lists l' [] /\
    outstanding l' = 0 /\ committing l' = false /\
    crep c' (a_syncs (recover_writes hs d) (a_fresh N d)).
Proof.
  intros Hlay [Hs1 Hs2] Hlo Hlg R. pose proof Hlay as (H1 & H2 & H3 & H4 & H5).
  destruct (read_release c (a_fresh N d) log0 1) as (i & c1 & c2 & B1 & Ed & B2 & R2); try done.
  { cbn. lia. } { vm_compute. lia. } { by right. }
  destruct (recover_ok c2 (a_fresh N d) (set_geometry st sz ROOTDEV log0) hs)
    as (c3 & l3 & E3 & Hl3 & (O3 & P3) & R3); try done.
  exists c3, l3. split_and!; try done. unfold initlog.
  change (4 * (1 + LOGSIZE) >=? BSIZE) with false. cbn match. unfold readsb.
  rewrite bind_assoc, (bind_ok _ _ _ _ _ (cache_ok _ _ log0 _ _ B1)).
  rewrite bind_assoc, (bind_ok _ _ _ _ _ (reads_ok _ _)). cbn [l_cache].
  rewrite bind_assoc, (bind_ok _ _ _ _ _ (cache_ok _ _ log0 _ _ B2)).
  rewrite (bind_ok (mret _) _ _ _ _ eq_refl), (bind_ok _ _ _ _ _ (modlog_ok _ _ _)).
  rewrite Ed. cbn [a_fresh a_view]. rewrite Hs1, Hs2, !s32_small; [done|unfold LOGSIZE, MAXOPBLOCKS in *; lia..].
Qed.

(** *** Crashes *)

(** Agreement outside the log area. *)
Definition same_data (d d' : Z -> block) : Prop :=
  forall n, 0 <= n < N -> n < st \/ st + sz <= n -> d n = d' n.

(** Recovery from disk [d] restores the blocks of [d']. *)
Definition recovers (d d' : Z -> block) : Prop :=
  sb_ok d /\ block_ok (d st) /\
  exists hs, loggable hs /\ logged d hs /\ same_data (apply_writes (home_writes hs d) d) d'.

Lemma prefix_app_cases {A} (p l1 l2 : list A) :
  p `prefix_of` l1 ++ l2 -> p `prefix_of` l1 \/ exists q, p = l1 ++ q /\ q `prefix_of` l2.
Proof.
  intros [r E]. destruct (decide (length p <= length l1)%nat) as [Hle|Hgt].
  - left. exists (drop (length p) l1).
    assert (E' : take (length p) (l1 ++ l2) = p) by (by rewrite E, take_app_length).
    rewrite take_app_le in E' by done. by rewrite <- E' at 1; rewrite take_drop.
  - right. exists (drop (length l1) p). split.
    + assert (E' : take (length l1) (p ++ r) = l1) by (by rewrite <- E, take_app_length).
      rewrite take_app_le in E' by lia. by rewrite <- E' at 1; rewrite take_drop.
    + exists r. assert (E' : drop (length l1) (p ++ r) = l2) by (by rewrite <- E, drop_app_length).
      by rewrite drop_app_le in E' by lia.
Qed.

Lemma prefix_snoc_cases {A} (p l : list A) x :
  p `prefix_of` l ++ [x] -> p `prefix_of` l \/ p = l ++ [x].
Proof.
  intros [H|(q & -> & [r E])]%prefix_app_cases; [by left|].
  destruct q as [|y [|]]; [left; rewrite app_nil_r; done| |done]. injection E as <- _. by right.
Qed.

Lemma prefix_keys (p ws : list (Z * block)) n : p `prefix_of` ws -> n ∈ p.*1 -> n ∈ ws.*1.
Proof. intros [r ->]. rewrite fmap_app. set_solver. Qed.

Lemma loggable_nil : layout -> loggable [].
Proof. intros (_ & ? & _). unfold loggable, LOGSIZE, MAXOPBLOCKS. cbn. split_and!; [constructor|constructor|lia|lia]. Qed.

Lemma logged_header d x hs :
  block_ok x -> Z.of_nat (length hs) <= LOGSIZE -> d st = header hs x -> logged d hs /\ block_ok (d st).
Proof.
  intros Hx Hn E. destruct (header_spec hs x Hx Hn) as (H1 & H2 & H3). unfold logged. rewrite E. done.
Qed.

Lemma sb_ok_ext d d' : d' 1 = d 1 -> sb_ok d -> sb_ok d'.
Proof. unfold sb_ok. by intros ->. Qed.

(** With an empty log on disk, recovery keeps every block. *)
Lemma recovers_empty d d' :
  layout -> sb_ok d -> block_ok (d st) -> logged d [] -> same_data d d' -> recovers d d'.
Proof.
  intros Hl Hs Hb Hg Hd. split_and!; try done. exists []. split; [by apply loggable_nil|done].
Qed.

Lemma home_keys_out hs n : layout -> Forall home hs -> n = 1 \/ n = st \/ st < n < st + sz -> n ∉ hs.
Proof.
  intros (H1 & H2 & _) Hf Hn Hin. pose proof (proj1 (Forall_forall _ _) Hf _ Hin) as [? ?]. lia.
Qed.

(** Recovery restarted after a crash of an earlier recovery. *)
Lemma recovers_again d d' hs p :
  layout -> sb_ok d -> block_ok (d st) -> loggable hs -> logged d hs ->
  same_data (apply_writes (home_writes hs d) d) d' ->
  p `prefix_of` recover_writes hs d -> recovers (apply_writes p d) d'.
Proof.
  intros Hlay Hs Hb Hlo Hg Hd Hp. pose proof Hlo as (Hnd & Hhome & Hn & Hn1).
  pose proof Hlay as (L1 & L2 & _).
  apply prefix_snoc_cases in Hp as [Hp| ->].
  - assert (Hout : forall n, n ∉ hs -> apply_writes p d n = d n).
    { intros n Hn'. apply apply_writes_ne. intros Hk%(prefix_keys _ _ _ Hp).
      by rewrite home_writes_keys in Hk. }
    assert (E1 : apply_writes p d 1 = d 1) by (apply Hout, home_keys_out; auto).
    assert (Est : apply_writes p d st = d st) by (apply Hout, home_keys_out; auto).
    assert (Ehw : home_writes hs (apply_writes p d) = home_writes hs d).
    { apply list_eq. intros i. unfold home_writes. rewrite !list_lookup_imap.
      destruct (hs !! i) as [h|] eqn:E; [|done]. cbn. do 2 f_equal.
      apply Hout, home_keys_out; try done. apply lookup_lt_Some in E. lia. }
    split_and!; [by apply (sb_ok_ext d)|by rewrite Est|].
    exists hs. split_and!; [done|unfold logged; by rewrite Est|].
    intros n Hr Ho. rewrite <- Hd by done. rewrite Ehw. destruct (decide (n ∈ hs)) as [Hin|Hnin].
    + apply list_elem_of_lookup in Hin as (i & Hi).
      assert (Hin : (n, d (st + Z.of_nat i + 1)) ∈ home_writes hs d)
        by (apply elem_of_lookup_imap; by exists i, n).
      by rewrite !(apply_writes_eq (home_writes hs d) _ n (d (st + Z.of_nat i + 1)))
        by (rewrite ?home_writes_keys; done).
    + rewrite !(apply_writes_ne (home_writes hs d)) by (by rewrite home_writes_keys). by apply Hout.
  - rewrite apply_writes_app. cbn [apply_writes].
    set (d1 := apply_writes (home_writes hs d) d) in *.
    assert (Hout : forall n, n ∉ hs -> d1 n = d n).
    { intros n Hn'. apply apply_writes_ne. by rewrite home_writes_keys. }
    destruct (logged_header (zset d1 st (header [] (d st))) (d st) []) as [Hg' Hb'];
      [done|unfold LOGSIZE, MAXOPBLOCKS; cbn; lia|by rewrite zset_eq|].
    apply recovers_empty; try done.
    + apply (sb_ok_ext d); [|done]. rewrite zset_ne by lia. apply Hout, home_keys_out; auto.
    + intros n Hr Ho. rewrite zset_ne by lia. by apply Hd.
Qed.

(** A crash inside [commit]: before the header is written the old blocks are
    recovered, from then on the new ones. *)
Lemma recovers_log_phase d v hs p :
  layout -> sb_ok d -> block_ok (d st) -> logged d [] -> loggable hs ->
  p `prefix_of` log_writes hs v -> recovers (apply_writes p d) d.
Proof.
  intros Hlay Hs Hb Hg (_ & _ & _ & Hn1) Hp. pose proof Hlay as (L1 & L2 & L3 & _).
  assert (Hout : forall n, n <= st \/ st + sz <= n -> apply_writes p d n = d n).
  { intros n Hn'. apply apply_writes_ne.
    intros (i & ? & ?)%(prefix_keys _ _ _ Hp)%log_writes_keys. lia. }
  apply recovers_empty; [done|apply (sb_ok_ext d); [apply Hout; lia|done]| | |].
  - rewrite Hout; [done|lia].
  - unfold logged. rewrite Hout; [done|lia].
  - intros n Hr Ho. apply Hout. lia.
Qed.

(** [d2] is the disk with the log blocks and the header written. *)
Lemma recovers_home_phase d2 v hs p x :
  layout -> sb_ok d2 -> block_ok x -> d2 st = header hs x -> loggable hs ->
  (forall i h, hs !! i = Some h -> d2 (st + Z.of_nat i + 1) = v h) ->
  (forall n, 0 <= n < N -> n < st \/ st + sz <= n -> n ∉ hs -> d2 n = v n) ->
  p `prefix_of` new_writes hs v ++ [(st, header [] (header hs x))] ->
  recovers (apply_writes p d2) v.
Proof.
  intros Hlay Hs Hx Est Hlo Hlog Hvd Hp. pose proof Hlo as (Hnd & Hhome & Hn & Hn1).
  pose proof Hlay as (L1 & L2 & L3 & _).
  rewrite <- (home_writes_new hs v d2 Hlog), <- Est in Hp.
  destruct (logged_header d2 x hs) as [Hg Hb]; try done.
  apply (recovers_again d2 v hs); try done.
  intros n Hr Ho. destruct (decide (n ∈ hs)) as [Hin|Hnin].
  - apply list_elem_of_lookup in Hin as (i & Hi). apply apply_writes_eq; [by rewrite home_writes_keys|].
    apply elem_of_lookup_imap. exists i, n. split; [by rewrite (Hlog i n Hi)|done].
  - rewrite apply_writes_ne by (by rewrite home_writes_keys). by apply Hvd.
Qed.

Lemma recovers_commit d v hs p :
  layout -> sb_ok d -> block_ok (d st) -> block_ok (v st) -> logged d [] -> loggable hs ->
  (forall n, 0 <= n < N -> n < st \/ st + sz <= n -> n ∉ hs -> d n = v n) ->
  p `prefix_of` commit_writes hs v ->
  recovers (apply_writes p d) (if decide (length p <= length hs)%nat then d else v).
Proof.
  intros Hlay Hs Hb Hbv Hg Hlo Hvd Hp. pose proof Hlo as (_ & _ & _ & Hn1).
  pose proof Hlay as (L1 & L2 & L3 & _).
  assert (Hll : length (log_writes hs v) = length hs) by apply length_imap.
  unfold commit_writes in Hp.
  apply prefix_app_cases in Hp as [Hp|(q & -> & Hp)].
  { rewrite decide_True by (apply prefix_length in Hp; lia). by apply (recovers_log_phase d v hs). }
  rewrite length_app, Hll. destruct q as [|w q].
  { rewrite decide_True by (cbn; lia). rewrite app_nil_r. by apply (recovers_log_phase d v hs). }
  rewrite decide_False by (cbn; lia).
  pose proof (prefix_cons_inv_1 _ _ _ _ Hp) as ->. apply prefix_cons_inv_2 in Hp.
  rewrite apply_writes_app. cbn [apply_writes].
  apply (recovers_home_phase _ v hs q (v st)); try done.
  - apply (sb_ok_ext d); [|done]. rewrite zset_ne by lia. apply apply_writes_ne.
    intros (i & _ & ?)%log_writes_keys. lia.
  - apply zset_eq.
  - intros i h Hi. rewrite zset_ne by lia. by apply log_writes_value.
  - intros n Hr Ho Hnin. rewrite zset_ne by lia. rewrite apply_writes_ne; [by apply Hvd|].
    intros (i & ? & ?)%log_writes_keys. lia.
Qed.

(** *** The log keeps its promise *)

Record inv (s : lstate C) (t : tx) (a : acache) : Prop := {
  inv_rep : crep (l_cache s) a;
  inv_size : a_size a = N;
  inv_lists : lists (l_log s) (t_logged t);
  inv_loggable : loggable (t_logged t);
  inv_out : outstanding (l_log s) = t_out t;
  inv_out_pos : 0 <= t_out t;
  inv_committing : committing (l_log s) = false;
  inv_held : a_held a = ∅;
  inv_pinned : a_pinned a = list_to_set (t_logged t);
  inv_new : same_data (a_view a) (t_new t);
  inv_old : same_data (a_disk a) (t_old t);
  inv_clean : forall n, n ∉ t_logged t -> a_view a n = a_disk a n;
  inv_empty : logged (a_disk a) [];
  inv_sb : sb_ok (a_disk a)
}.

Lemma home_dec_spec n : home_dec st sz N n = true <-> home n.
Proof. unfold home_dec, home. rewrite !andb_true_iff, orb_true_iff, !Z.leb_le, !Z.ltb_lt. lia. Qed.

Lemma absorb_spec hs : forall bl pre rest bno,
  bl = pre ++ hs ++ rest -> Forall (fun h => 0 <= h < 2 ^ 32) hs ->
  (exists k, hs !! k = Some bno /\
     absorb bl bno (Z.of_nat (length pre)) (length hs) = Z.of_nat (length pre + k)) \/
  (bno ∉ hs /\
     absorb bl bno (Z.of_nat (length pre)) (length hs) = Z.of_nat (length pre + length hs)).
Proof.
  induction hs as [|h hs IH]; intros bl pre rest bno E Hf; cbn [absorb length].
  - right. split; [set_solver|]. f_equal. lia.
  - apply Forall_cons in Hf as [Hh Hf].
    rewrite Nat2Z.id, E, lookup_app_r, Nat.sub_diag by lia. cbn. rewrite u32_small by lia.
    destruct (Z.eqb_spec h bno) as [->|Hne].
    + left. exists 0%nat. split; [done|]. f_equal. lia.
    + replace (Z.of_nat (length pre) + 1) with (Z.of_nat (length (pre ++ [h]))) by (rewrite length_app; cbn; lia).
      destruct (IH (pre ++ h :: hs ++ rest) (pre ++ [h]) rest bno) as [(k & Hk & ->)|[Hn ->]];
        [by rewrite <- !app_assoc|done| |].
      * left. exists (S k). split; [done|]. rewrite length_app. cbn. f_equal. lia.
      * right. split; [set_solver|]. rewrite length_app. cbn. f_equal. lia.
Qed.

(** What [log_write] makes of the in-memory header. *)
Lemma absorb_lists l hs bno :
  layout -> lists l hs -> loggable hs -> home bno -> Z.of_nat (length hs) < sz - 1 ->
  let i := absorb (lh_block l) bno 0 (Z.to_nat (lh_n l)) in
  lists (set_lh (if i =? lh_n l then lh_n l + 1 else lh_n l)
           (<[Z.to_nat i := s32 bno]> (lh_block l)) l) (add_logged bno hs).
Proof.
  intros (L1 & L2 & L3 & L4 & L5) (E1 & E2 & E3 & E4 & E5 & E6) (_ & Hf & _ & _) [Hb _] Hn.
  rewrite E4, Nat2Z.id, s32_small by lia. unfold LOGSIZE, MAXOPBLOCKS in L5, E6.
  assert (Hsplit : lh_block l = [] ++ hs ++ drop (length hs) (lh_block l)).
  { rewrite <- E5 at 1. cbn. by rewrite take_drop. }
  assert (Hf' : Forall (fun h => 0 <= h < 2 ^ 32) hs)
    by (eapply Forall_impl; [exact Hf|intros h [? _]; cbn; lia]).
  unfold add_logged.
  destruct (absorb_spec hs _ _ _ bno Hsplit Hf') as [(k & Hk & E)|[Hnin E]]; cbn [length] in E;
    change (Z.of_nat 0) with 0 in E; rewrite Nat.add_0_l in E; rewrite E.
  - pose proof (lookup_lt_Some _ _ _ Hk) as Hlt. rewrite decide_True by (by eapply list_elem_of_lookup_2).
    cbn zeta. rewrite (proj2 (Z.eqb_neq _ _)) by lia. split_and!; try done.
    + cbn [set_lh lh_block]. rewrite Nat2Z.id. rewrite take_insert_lt by done. rewrite E5. by apply list_insert_id.
    + cbn [set_lh lh_block]. by rewrite length_insert.
  - rewrite decide_False by done. cbn zeta. rewrite Z.eqb_refl. split_and!; try done.
    + cbn [set_lh lh_n]. rewrite length_app. cbn. lia.
    + cbn [set_lh lh_block]. rewrite Nat2Z.id, length_app. cbn [length]. rewrite Nat.add_1_r.
      rewrite (take_S_r _ _ bno) by (rewrite list_lookup_insert_eq; [done|lia]).
      rewrite take_insert_ge by lia. by rewrite E5.
    + cbn [set_lh lh_block]. by rewrite length_insert.
Qed.

Lemma loggable_add n hs :
  layout -> loggable hs -> home n -> Z.of_nat (length hs) < sz - 1 -> loggable (add_logged n hs).
Proof.
  intros (_ & _ & _ & _ & L5) Hlo Hn Hlt. pose proof Hlo as (Hnd & Hf & H3 & H4). unfold add_logged.
  case_decide as Hin; [done|]. split_and!.
  - apply NoDup_app. split_and!; [done|set_solver|apply NoDup_singleton].
  - apply Forall_app_2; [done|by constructor].
  - rewrite length_app. cbn. lia.
  - rewrite length_app. cbn. lia.
Qed.

Lemma loggable_size hs p :
  layout -> loggable hs -> p = list_to_set hs -> (S (base.size (p : gset Z)) <= NBUF)%nat.
Proof.
  intros (_ & _ & _ & _ & L5) (Hnd & _ & _ & H4) ->. rewrite size_list_to_set by done.
  unfold LOGSIZE, MAXOPBLOCKS in L5. change NBUF with 30%nat. lia.
Qed.

Lemma recovers_ext d d1 d2 : same_data d1 d2 -> recovers d d1 -> recovers d d2.
Proof.
  intros H (H1 & H2 & hs & H3 & H4 & H5). split_and!; try done. exists hs. split; [done|]. split; [done|].
  intros n Hr Ho. rewrite H5 by done. by apply H.
Qed.

Lemma inv_block_ok s t a : layout -> inv s t a -> block_ok (a_disk a st) /\ block_ok (a_view a st).
Proof.
  intros (L1 & L2 & L3 & _) I. destruct (crep_wf _ _ (inv_rep _ _ _ I)) as (Hv & Hd & _).
  rewrite (inv_size _ _ _ I) in Hv, Hd. split; [apply Hd|apply Hv]; lia.
Qed.

(** A crash between two calls recovers the last committed blocks. *)
Lemma inv_recovers s t a : layout -> inv s t a -> recovers (a_disk a) (t_old t).
Proof.
  intros Hl I. apply recovers_empty; [done|apply (inv_sb _ _ _ I)|by apply (inv_block_ok s t)|
    apply (inv_empty _ _ _ I)|apply (inv_old _ _ _ I)].
Qed.

Lemma begin_op_runs s t a :
  inv s t a ->
  Z.of_nat (length (t_logged t)) + (t_out t + 1) * MAXOPBLOCKS <=? LOGSIZE = true ->
  begin_op s = Ok tt (MkL (l_cache s) (set_outstanding (t_out t + 1) (l_log s))).
Proof.
  intros I Hle%Z.leb_le. destruct s as [c l].
  unfold begin_op. rewrite (bind_ok _ _ _ _ _ (reads_ok _ _)).
  pose proof (inv_committing _ _ _ I) as Ec. pose proof (inv_out _ _ _ I) as Eo.
  destruct (inv_lists _ _ _ I) as (_ & _ & _ & En & _). cbn [l_log] in *.
  rewrite Ec, En, Eo, Z.gtb_ltb, (proj2 (Z.ltb_ge _ _)) by lia. cbn match. by rewrite modlog_ok, Eo.
Qed.

Lemma begin_op_ok s t t' a :
  inv s t a -> tx_step st sz N Begin t = Some t' ->
  exists s', begin_op s = Ok tt s' /\ inv s' t' a.
Proof.
  intros I. cbn [tx_step]. case_match eqn:Hle; [|done]. intros [= <-].
  pose proof (begin_op_runs s t a I Hle) as E. eexists. split; [exact E|].
  destruct I. split; cbn [l_cache l_log t_logged t_out t_new t_old set_outstanding outstanding committing] in *;
    try done; lia.
Qed.

Lemma begin_op_waits s t a :
  inv s t a -> tx_step st sz N Begin t = None -> begin_op s = Sleep ChanLog s.
Proof.
  intros I. cbn [tx_step]. destruct (Z.leb_spec (Z.of_nat (length (t_logged t)) + (t_out t + 1) * MAXOPBLOCKS) LOGSIZE)
    as [|Hgt]; [done|]. intros _. destruct s as [c l]. unfold begin_op.
  rewrite (bind_ok _ _ _ _ _ (reads_ok _ _)).
  pose proof (inv_committing _ _ _ I) as Ec. pose proof (inv_out _ _ _ I) as Eo.
  destruct (inv_lists _ _ _ I) as (_ & _ & _ & En & _). cbn [l_log] in *.
  by rewrite Ec, En, Eo, Z.gtb_ltb, (proj2 (Z.ltb_lt _ _)) by lia.
Qed.

(** [bread] and the store of an update, before [log_write]. *)
Lemma update_start c l t a n x :
  layout -> inv (MkL c l) t a -> home n -> block_ok x ->
  exists i c1, bread ROOTDEV n c = Ok i c1 /\ a_held a = ∅ /\
    crep (bset i x c1) (a_store n x (a_hold i n a)) /\ bblockno (bset i x c1) i = n.
Proof.
  intros Hlay I Hn Hx.
  pose proof (loggable_size _ _ Hlay (inv_loggable _ _ _ I) (inv_pinned _ _ _ I)) as Hsz.
  pose proof (inv_held _ _ _ I) as Hh. destruct Hn as [Hn _].
  destruct (bread_ok c a n) as (i & c1 & B1 & _ & R1); [apply (inv_rep _ _ _ I)|rewrite (inv_size _ _ _ I); lia| | |].
  { rewrite Hh, map_img_empty. set_solver. }
  { right. unfold a_stuck. rewrite Hh, map_img_empty_L, union_empty_r_L. lia. }
  assert (Hi : a_held (a_hold i n a) !! i = Some n) by apply lookup_insert_eq.
  pose proof (bset_ok c1 _ i n x R1 Hi Hx) as R2.
  destruct (crep_held _ _ i n R2 Hi) as [_ Eb]. by exists i, c1.
Qed.

Lemma tx_update_guard t t' n x :
  tx_step st sz N (Update n x) t = Some t' ->
  home n /\ block_ok x /\ 1 <= t_out t /\ Z.of_nat (length (t_logged t)) < sz - 1 /\
  t' = MkTx (t_old t) (zset (t_new t) n x) (add_logged n (t_logged t)) (t_out t).
Proof.
  cbn [tx_step]. destruct (_ && _) eqn:E; [|done]. intros [= <-].
  rewrite !andb_true_iff, home_dec_spec, Nat.eqb_eq, Z.leb_le, Z.ltb_lt in E.
  destruct E as (((H1 & H2) & H3) & H4). by rewrite ?H2.
Qed.

Lemma update_ok s t t' a n x :
  layout -> inv s t a -> tx_step st sz N (Update n x) t = Some t' ->
  exists s' a', update n x s = Ok tt s' /\ inv s' t' a' /\
    a_writes a' = a_writes a /\ a_disk a' = a_disk a.
Proof.
  intros Hlay I (Hn & Hx & Ho & Hlt & ->)%tx_update_guard. destruct s as [c l].
  destruct (update_start c l t a n x Hlay I Hn Hx) as (i & c1 & B1 & Hh & R2 & Eb).
  assert (Hi : a_held (a_store n x (a_hold i n a)) !! i = Some n) by apply lookup_insert_eq.
  pose proof (bdirty_ok _ _ i n R2 Hi) as R3.
  destruct (brelse_ok _ _ i n R3 Hi) as (c4 & W & R4); [left; cbn; set_solver|].
  pose proof (inv_lists _ _ _ I) as Hl. pose proof (inv_loggable _ _ _ I) as Hlo.
  pose proof (inv_out _ _ _ I) as Eo. cbn [l_log] in *.
  pose proof (absorb_lists l _ n Hlay Hl Hlo Hn Hlt) as Hl'. cbn zeta in Hl'.
  set (l' := set_lh _ _ l) in Hl'.
  exists (MkL c4 l'), (a_release i (a_pin n (a_store n x (a_hold i n a)))). split_and!; try done.
  - unfold update. rewrite (bind_ok _ _ _ _ _ (cache_ok _ _ l _ _ B1)). unfold store.
    rewrite (bind_ok (modify _) _ _ _ _ eq_refl). cbn [l_cache l_log].
    unfold log_write. rewrite bind_assoc, (bind_ok get _ _ _ _ eq_refl). cbn [l_cache l_log].
    pose proof Hl as (_ & E2 & _ & En & _). destruct Hlay as (_ & _ & _ & _ & L5).
    rewrite En, E2, Eo, !Z.geb_leb, !(proj2 (Z.leb_gt _ _)), (proj2 (Z.ltb_ge _ _)) by lia.
    cbn [orb]. rewrite bind_assoc, (bind_ok _ _ _ _ _ (modlog_ok _ _ _)).
    rewrite Eb, <- En. fold l'. rewrite (bind_ok (modify _) _ _ _ _ eq_refl). cbn [l_cache l_log].
    by apply cache_ok.
  - destruct I as [J1 J2 J3 J4 J5 J6 J7 J8 J9 J10 J11 J12 J13 J14].
    split; cbn [l_cache l_log t_logged t_out t_new t_old a_release a_pin a_store a_hold a_size a_view a_disk a_pinned a_held a_writes]; try done.
    + by apply loggable_add.
    + rewrite Hh. by apply delete_insert_id.
    + rewrite J9. unfold add_logged. case_decide; set_solver.
    + intros m Hr Hm. unfold zset. destruct (m =? n); [done|]. by apply J10.
    + intros m Hm. unfold add_logged in Hm. rewrite zset_ne by (case_decide; set_solver).
      apply J12. case_decide; set_solver.
Qed.

(** An update the log has no room for panics. *)
Lemma update_panics c l t a n x :
  layout -> inv (MkL c l) t a -> home n -> block_ok x ->
  sz - 1 <= Z.of_nat (length (t_logged t)) ->
  update n x (MkL c l) = Panic "too big a transaction".
Proof.
  intros Hlay I Hn Hx Hge.
  destruct (update_start c l t a n x Hlay I Hn Hx) as (i & c1 & B1 & _).
  pose proof (inv_lists _ _ _ I) as (_ & E2 & _ & En & _). cbn [l_log] in *.
  unfold update. rewrite (bind_ok _ _ _ _ _ (cache_ok _ _ l _ _ B1)). unfold store.
  rewrite (bind_ok (modify _) _ _ _ _ eq_refl). cbn [l_cache l_log].
  unfold log_write. rewrite bind_assoc, (bind_ok get _ _ _ _ eq_refl). cbn [l_cache l_log].
  by rewrite En, E2, !Z.geb_leb, (proj2 (Z.leb_le (sz - 1) _)), orb_true_r by lia.
Qed.

(** Once [commit]'s writes are on it, a disk holds the new data. *)
Lemma commit_value hs v d n :
  layout -> loggable hs -> (forall m, m ∉ hs -> 0 <= m < N -> d m = v m) ->
  0 <= n < N -> n < st \/ st + sz <= n -> apply_writes (commit_writes hs v) d n = v n.
Proof.
  intros (L1 & L2 & L3 & _) (Hnd & _ & _ & Hlen1) Hd Hr Hn.
  unfold commit_writes. rewrite !apply_writes_app. cbn [apply_writes].
  rewrite zset_ne by lia. destruct (decide (n ∈ hs)) as [Hin|Hnin].
  - apply apply_writes_eq; [by rewrite new_writes_keys|]. apply list_elem_of_fmap. by exists n.
  - rewrite apply_writes_ne by (by rewrite new_writes_keys). rewrite zset_ne by lia.
    rewrite apply_writes_ne; [by apply Hd|]. intros (i & ? & ?)%log_writes_keys. lia.
Qed.

(** The last [end_op], with something to commit. *)
Lemma end_commit c l t a :
  layout -> inv (MkL c l) t a -> t_logged t <> [] -> t_out t = 1 ->
  exists c' l', end_op (MkL c l) = Ok tt (MkL c' l') /\
    inv (MkL c' l') (MkTx (t_new t) (t_new t) [] 0)
      (a_syncs (commit_writes (t_logged t) (a_view a)) a).
Proof.
  intros Hlay I Hne Ho. pose proof (inv_block_ok _ _ _ Hlay I) as [Hbd Hbv].
  destruct I as [J1 J2 J3 J4 J5 J6 J7 J8 J9 J10 J11 J12 J13 J14]. cbn [l_cache l_log] in *.
  pose proof (loggable_size _ _ Hlay J4 J9) as Hsz. rewrite J9, size_list_to_set in Hsz by apply J4.
  set (hs := t_logged t) in *. set (l1 := set_committing true (set_outstanding 0 l)).
  assert (Hl1 : lists l1 hs) by apply J3.
  destruct (commit_ok c a l1 hs) as (c' & E & R); try done.
  exists c', (set_committing false (set_lh 0 (lh_block l1) l1)). split.
  { unfold end_op. rewrite (bind_ok _ _ _ _ _ (modlog_ok _ _ _)), (bind_ok _ _ _ _ _ (reads_ok _ _)).
    cbn [l_log set_outstanding committing outstanding]. rewrite J7, J5, Ho.
    change (1 - 1 =? 0) with true. cbn match. change (1 - 1) with 0.
    rewrite (bind_ok _ _ _ _ _ (modlog_ok _ _ _)). fold l1.
    rewrite (bind_ok _ _ _ _ _ E). apply modlog_ok. }
  destruct (a_syncs_fields (commit_writes hs (a_view a)) a) as (F1 & F2 & F3 & F4 & F5 & F6).
  pose proof J4 as (Hnd & Hhome & Hlen & Hlen1). pose proof Hlay as (L1 & L2 & L3 & _).
  assert (Hst : a_disk (a_syncs (commit_writes hs (a_view a)) a) st = header [] (header hs (a_view a st))).
  { rewrite F2. unfold commit_writes. rewrite !apply_writes_app. apply zset_eq. }
  split; cbn [l_cache l_log t_logged t_out t_new t_old]; rewrite ?F1, ?F4; try done.
  - by apply (lists_clear l1 hs).
  - by apply loggable_nil.
  - rewrite F5, J9. unfold commit_writes. rewrite !fmap_app, new_writes_keys. cbn.
    rewrite !list_to_set_app_L. set_solver.
  - intros n Hr Hn. rewrite F3, commit_value; [by apply J10|done..].
  - intros n Hr Hn. rewrite F2, commit_value; [by apply J10|done|done| |done|done].
    intros m Hm _. symmetry. by apply J12.
  - intros n _. rewrite F3, F2. apply apply_writes_agree. intros Hn. apply J12.
    intros Hin. apply Hn. unfold commit_writes. rewrite !fmap_app, new_writes_keys. set_solver.
  - apply (logged_header _ (header hs (a_view a st)) []); [by apply header_spec| |done].
    unfold LOGSIZE, MAXOPBLOCKS. cbn. lia.
  - apply (sb_ok_ext (a_disk a)); [|done]. rewrite F2. apply apply_writes_ne.
    unfold commit_writes. rewrite !fmap_app, new_writes_keys. cbn.
    assert (1 ∉ hs) by (apply home_keys_out; auto).
    assert (1 ∉ (log_writes hs (a_view a)).*1) by (intros (i & ? & ?)%log_writes_keys; lia).
    rewrite !elem_of_app, !elem_of_cons. assert (1 <> st) by lia. set_solver.
Qed.

Lemma end_quiet c l t a :
  inv (MkL c l) t a -> t_logged t = [] \/ 1 < t_out t -> 1 <= t_out t ->
  exists l', end_op (MkL c l) = Ok tt (MkL c l') /\
    inv (MkL c l') (MkTx (t_old t) (t_new t) (t_logged t) (t_out t - 1)) a.
Proof.
  intros [J1 J2 J3 J4 J5 J6 J7 J8 J9 J10 J11 J12 J13 J14] Hq Ho. cbn [l_cache l_log] in *.
  exists (set_outstanding (outstanding l - 1) l). split.
  - unfold end_op. rewrite (bind_ok _ _ _ _ _ (modlog_ok _ _ _)), (bind_ok _ _ _ _ _ (reads_ok _ _)).
    cbn [l_log set_outstanding committing outstanding]. rewrite J7, J5.
    destruct (Z.eqb_spec (t_out t - 1) 0) as [E|]; [|done]. destruct Hq as [Hq|]; [|lia].
    rewrite (bind_ok _ _ _ _ _ (modlog_ok _ _ _)). unfold commit. rewrite bind_assoc.
    rewrite (bind_ok _ _ _ _ _ (reads_ok _ _)). destruct J3 as (_ & _ & _ & En & _).
    cbn [l_log set_committing set_outstanding lh_n]. rewrite En, Hq. cbn [length].
    change (Z.of_nat 0 >? 0) with false. cbn [when]. rewrite (bind_ok (mret _) _ _ _ _ eq_refl).
    rewrite modlog_ok. unfold set_committing, set_outstanding. cbn. by rewrite J7.
  - split; cbn [l_cache l_log t_logged t_out t_new t_old set_outstanding outstanding committing]; try done; lia.
Qed.

(** With nothing logged the committed blocks are the current ones. *)
Lemma inv_nothing_logged s t a :
  inv s t a -> t_logged t = [] -> inv s (MkTx (t_new t) (t_new t) [] (t_out t)) a.
Proof.
  intros [J1 J2 J3 J4 J5 J6 J7 J8 J9 J10 J11 J12 J13 J14] E. rewrite E in *.
  split; cbn [t_logged t_out t_new t_old]; try done.
  intros n Hr Hn. rewrite <- (J12 n); [by apply J10|set_solver].
Qed.

Lemma end_op_ok s t t' a :
  layout -> inv s t a -> tx_step st sz N End t = Some t' ->
  exists s' a' ws, end_op s = Ok tt s' /\ inv s' t' a' /\
    a_writes a' = a_writes a ++ ws /\ a_disk a' = apply_writes ws (a_disk a) /\
    forall p, p `prefix_of` ws ->
      recovers (apply_writes p (a_disk a)) (t_old t) \/ recovers (apply_writes p (a_disk a)) (t_old t').
Proof.
  intros Hlay I Hst. pose proof (inv_recovers s t a Hlay I) as Hrec.
  assert (Hnil : forall p, p `prefix_of` [] -> recovers (apply_writes p (a_disk a)) (t_old t)
                   \/ recovers (apply_writes p (a_disk a)) (t_old t')).
  { intros p ->%prefix_nil_inv. by left. }
  destruct s as [c l]. cbn [tx_step] in Hst. destruct (Z.eqb_spec (t_out t) 1) as [Ho|Ho].
  - injection Hst as <-. destruct (decide (t_logged t = [])) as [Hl|Hl].
    + destruct (end_quiet c l t a I) as (l' & E & I'); [by left|lia|].
      exists (MkL c l'), a, []. rewrite app_nil_r. split_and!; try done.
      rewrite Ho in I'. by apply (inv_nothing_logged _ (MkTx _ _ _ _)) in I'.
    + destruct (end_commit c l t a) as (c' & l' & E & I'); try done.
      destruct (a_syncs_fields (commit_writes (t_logged t) (a_view a)) a) as (_ & F2 & _ & _ & _ & F6).
      exists (MkL c' l'), (a_syncs (commit_writes (t_logged t) (a_view a)) a),
        (commit_writes (t_logged t) (a_view a)). split_and!; try done.
      intros p Hp. destruct (inv_block_ok _ _ _ Hlay I) as [Hb1 Hb2].
      apply (recovers_commit (a_disk a)) in Hp; try done; try apply I.
      * cbn [t_old]. case_decide; [left|right]; (eapply recovers_ext; [|exact Hp]); apply I.
      * intros n _ _ Hn. symmetry. by apply (inv_clean _ _ _ I).
  - destruct (Z.ltb_spec 1 (t_out t)); [|done]. injection Hst as <-.
    destruct (end_quiet c l t a I) as (l' & E & I'); [by right|lia|].
    exists (MkL c l'), a, []. rewrite app_nil_r. done.
Qed.

(** One call: it returns, keeps the promise, and a crash anywhere in it
    recovers the state before or after it. *)
Lemma step_ok s t t' a e :
  layout -> inv s t a -> tx_step st sz N e t = Some t' ->
  exists s' a' ws, do_ev e s = Ok tt s' /\ inv s' t' a' /\
    a_writes a' = a_writes a ++ ws /\ a_disk a' = apply_writes ws (a_disk a) /\
    forall p, p `prefix_of` ws ->
      recovers (apply_writes p (a_disk a)) (t_old t) \/ recovers (apply_writes p (a_disk a)) (t_old t').
Proof.
  intros Hlay I Hst. pose proof (inv_recovers s t a Hlay I) as Hrec.
  destruct e as [|n x|]; [| |by apply end_op_ok].
  - destruct (begin_op_ok s t t' a I Hst) as (s' & E & I'). exists s', a, [].
    rewrite app_nil_r. split_and!; try done. intros p ->%prefix_nil_inv. by left.
  - destruct (update_ok s t t' a n x Hlay I Hst) as (s' & a' & E & I' & Ew & Ed). exists s', a', [].
    rewrite app_nil_r. split_and!; try done. intros p ->%prefix_nil_inv. by left.
Qed.

(** Any number of calls: a crash recovers the committed blocks after some
    prefix of them. *)
Lemma run_ok es : forall s t t' a,
  layout -> inv s t a -> tx_run st sz N es t = Some t' ->
  exists s' a' ws, do_evs es s = Ok tt s' /\ inv s' t' a' /\
    a_writes a' = a_writes a ++ ws /\ a_disk a' = apply_writes ws (a_disk a) /\
    forall p, p `prefix_of` ws -> exists es1 es2 t1, es = es1 ++ es2 /\
      tx_run st sz N es1 t = Some t1 /\ recovers (apply_writes p (a_disk a)) (t_old t1).
Proof.
  induction es as [|e es IH]; intros s t t' a Hlay I; cbn [tx_run do_evs].
  - intros [= <-]. exists s, a, []. rewrite app_nil_r. split_and!; try done.
    intros p ->%prefix_nil_inv. exists [], [], t. split_and!; try done. by apply (inv_recovers s).
  - intros (t1 & Et1 & Et)%bind_Some.
    destruct (step_ok s t t1 a e Hlay I Et1) as (s1 & a1 & w1 & E1 & I1 & Ew1 & Ed1 & Hp1).
    destruct (IH s1 t1 t' a1 Hlay I1 Et) as (s2 & a2 & w2 & E2 & I2 & Ew2 & Ed2 & Hp2).
    exists s2, a2, (w1 ++ w2). split_and!; try done.
    + by rewrite (bind_ok _ _ _ _ _ E1).
    + by rewrite Ew2, Ew1, app_assoc.
    + by rewrite Ed2, Ed1, apply_writes_app.
    + intros p [Hp|(q & -> & Hq)]%prefix_app_cases.
      * destruct (Hp1 p Hp) as [H|H]; [exists [], (e :: es), t; done|].
        exists [e], es, t1. cbn. rewrite Et1. done.
      * destruct (Hp2 q Hq) as (es1 & es2 & t2 & -> & Hr & Hrec).
        exists (e :: es1), es2, t2. cbn [tx_run]. rewrite Et1. cbn. split_and!; try done.
        by rewrite apply_writes_app, <- Ed1.
Qed.

(** A boot from disk [d] ends with the blocks [d'] and an empty log, even when
    up to [k] boots before it crash at any of their block writes. *)
Fixpoint survives (k : nat) (d d' : Z -> block) : Prop :=
  forall c, crep c (a_fresh N d) ->
  exists s a, initlog ROOTDEV (MkL c log0) = Ok tt s /\ inv s (MkTx d' d' [] 0) a /\
    match k with
    | O => True
    | S k' => forall p, p `prefix_of` a_writes a -> survives k' (apply_writes p d) d'
    end.

Lemma recovers_boot c d d' :
  layout -> recovers d d' -> crep c (a_fresh N d) ->
  exists s a, initlog ROOTDEV (MkL c log0) = Ok tt s /\ inv s (MkTx d' d' [] 0) a /\
    a_disk a = apply_writes (a_writes a) d /\
    forall p, p `prefix_of` a_writes a -> recovers (apply_writes p d) d'.
Proof.
  intros Hlay (Hs & Hb & hs & Hlo & Hg & Hd) R.
  destruct (initlog_ok c d hs) as (c' & l' & E & Hl' & O' & P' & R'); try done.
  destruct (a_syncs_fields (recover_writes hs d) (a_fresh N d)) as (F1 & F2 & F3 & F4 & F5 & F6).
  cbn [a_fresh a_size a_disk a_view a_held a_pinned a_writes app] in *.
  assert (Hp : forall p, p `prefix_of` recover_writes hs d -> recovers (apply_writes p d) d')
    by (intros p; by apply (recovers_again d d' hs)).
  pose proof Hlo as (_ & Hhome & _). pose proof Hlay as (L1 & L2 & L3 & _).
  assert (Hsame : same_data (apply_writes (recover_writes hs d) d) d').
  { intros n Hr Hn. unfold recover_writes. rewrite apply_writes_app. cbn [apply_writes].
    rewrite zset_ne by lia. by apply Hd. }
  exists (MkL c' l'), (a_syncs (recover_writes hs d) (a_fresh N d)).
  split_and!; [done| |by rewrite F2, F6|by rewrite F6].
  split; cbn [l_cache l_log t_logged t_out t_new t_old]; rewrite ?F1, ?F2, ?F3, ?F4, ?F5; try done.
  - by apply loggable_nil.
  - set_solver.
  - apply (logged_header _ (d st) []); [done|unfold LOGSIZE, MAXOPBLOCKS; cbn; lia|].
    unfold recover_writes. rewrite apply_writes_app. apply zset_eq.
  - apply (sb_ok_ext d); [|done]. apply apply_writes_ne. unfold recover_writes.
    rewrite fmap_app, home_writes_keys. cbn.
    assert (1 ∉ hs) by (apply home_keys_out; auto). assert (1 <> st) by lia. set_solver.
Qed.

Lemma recovers_survives k : forall d d', layout -> recovers d d' -> survives k d d'.
Proof.
  induction k as [|k IH]; intros d d' Hlay Hr c R;
    destruct (recovers_boot c d d' Hlay Hr R) as (s & a & E & I & _ & Hp); exists s, a; [done|].
  split_and!; [done|done|]. intros p Hpp. by apply IH, Hp.
Qed.

End laws.
