(* ===== verification/Journal.v ===== *)
(** * What the log promises to the file system

    Inside a transaction fs.c sees blocks through [bread], stores to the data of
    a buffer it holds, [log_write] and [brelse].  [Journal] lists these
    operations and [JournalOk] their laws on an abstract state: the blocks as
    this system call sees them, the buffers it holds, those it has modified and
    not yet logged, and the blocks logged so far.  The log over any buffer cache
    implements the interface; [jintx] says that the caller is inside a
    transaction, which only [log_write] needs.  fs.c is written and verified
    against the interface alone. *)

From stdpp Require Import base numbers list gmap sets strings.
From Stdlib Require Import ZArith Lia.
From S2P Require Import Prelude Disk Blocks Log.

Open Scope Z_scope.

Class Journal (J : Type) := {
  jbread : Z -> Z -> M J nat;
  jlog_write : nat -> M J unit;
  jbrelse : nat -> M J unit;
  jdata : J -> nat -> block;
  jset : nat -> block -> J -> J
}.

Record ajournal := AJournal {
  j_view : Z -> block;
  j_held : gmap nat Z;
  j_dirty : gset nat;
  j_logged : list Z
}.

Definition j_hold (i : nat) (n : Z) (x : ajournal) : ajournal :=
  AJournal (j_view x) (<[i := n]> (j_held x)) (j_dirty x) (j_logged x).
Definition j_release (i : nat) (x : ajournal) : ajournal :=
  AJournal (j_view x) (delete i (j_held x)) (j_dirty x) (j_logged x).
Definition j_store (i : nat) (n : Z) (b : block) (x : ajournal) : ajournal :=
  AJournal (zset (j_view x) n b) (j_held x) ({[i]} ∪ j_dirty x) (j_logged x).
Definition j_log (i : nat) (n : Z) (x : ajournal) : ajournal :=
  AJournal (j_view x) (j_held x) (j_dirty x ∖ {[i]}) (add_logged n (j_logged x)).

Class JournalOk (J : Type) `{!Journal J} := {
  jsize : Z;
  jhome : Z -> Prop;
  jcap : Z;
  jintx : Prop;
  jrep : J -> ajournal -> Prop;
  jhome_range n : jhome n -> 2 <= n < jsize;
  jcap_bound : jcap < Z.of_nat NBUF;
  jview_ok s x n : jrep s x -> 0 <= n < jsize -> block_ok (j_view x n);
  jdata_ok s x i n : jrep s x -> j_held x !! i = Some n -> jdata s i = j_view x n;
  jbread_ok s x n :
    jrep s x -> 0 <= n < jsize -> n ∉ (map_img (j_held x) : gset Z) ->
    (length (j_logged x) + base.size (j_held x) < NBUF)%nat ->
    exists i s', jbread ROOTDEV n s = Ok i s' /\ j_held x !! i = None /\ i ∉ j_dirty x /\
      jrep s' (j_hold i n x);
  jset_ok s x i n b :
    jrep s x -> j_held x !! i = Some n -> block_ok b -> jrep (jset i b s) (j_store i n b x);
  jlog_write_ok s x i n :
    jintx -> jrep s x -> j_held x !! i = Some n -> jhome n -> Z.of_nat (length (j_logged x)) < jcap ->
    exists s', jlog_write i s = Ok tt s' /\ jrep s' (j_log i n x);
  jlog_write_full s x i n :
    jrep s x -> j_held x !! i = Some n -> jcap <= Z.of_nat (length (j_logged x)) ->
    jlog_write i s = Panic "too big a transaction";
  jlog_write_outside s x i :
    ~ jintx -> jrep s x -> Z.of_nat (length (j_logged x)) < jcap ->
    jlog_write i s = Panic "log_write outside of trans";
  jbrelse_ok s x i n :
    jrep s x -> j_held x !! i = Some n -> i ∉ j_dirty x ->
    exists s', jbrelse i s = Ok tt s' /\ jrep s' (j_release i x)
}.

(** The caller is inside a transaction. *)
Class InTx (J : Type) `{!Journal J, !JournalOk J} : Prop := in_tx : jintx.

(** ** The log is such a journal *)

Section log_journal.
Context {C : Type} `{!BlockCache C, !BlockCacheOk C}.

#[export] Instance log_journal : Journal (lstate C) := {
  jbread d n := cache (bread d n);
  jlog_write := log_write;
  jbrelse i := cache (brelse i);
  jdata s i := bdata (l_cache s) i;
  jset i b s := MkL (bset i b (l_cache s)) (l_log s)
}.

Context (st sz N : Z) (Hlay : layout st sz N).

(** The disk, the writes issued and the number of open calls when this call
    was admitted; an open transaction leaves them alone. *)
Context (d0 : Z -> block) (w0 : list (Z * block)) (o0 : Z).

(** [o0] calls are open; the buffers modified but not logged are the only
    ones that may differ from the disk besides the logged blocks. *)
Record tx_open (s : lstate C) (x : ajournal) (a : acache) : Prop := {
  to_rep : crep (l_cache s) a;
  to_size : a_size a = N;
  to_lists : lists st sz (l_log s) (j_logged x);
  to_loggable : loggable st sz N (j_logged x);
  to_out : outstanding (l_log s) = o0 /\ 0 <= o0;
  to_disk : a_disk a = d0;
  to_writes : a_writes a = w0;
  to_committing : committing (l_log s) = false;
  to_held : a_held a = j_held x;
  to_pinned : a_pinned a = list_to_set (j_logged x);
  to_view : forall n, a_view a n = j_view x n;
  to_dirty : forall i, i ∈ j_dirty x -> is_Some (j_held x !! i);
  to_inj : forall i j n, j_held x !! i = Some n -> j_held x !! j = Some n -> i = j;
  to_clean : forall n, n ∉ j_logged x -> (forall i, i ∈ j_dirty x -> j_held x !! i <> Some n) ->
    a_view a n = a_disk a n
}.

Definition open (s : lstate C) (x : ajournal) : Prop := exists a, tx_open s x a.

Lemma img_size (h : gmap nat Z) : (base.size (map_img h : gset Z) <= base.size h)%nat.
Proof.
  induction h as [|i n h Hi IH] using map_ind.
  - rewrite map_img_empty_L, size_empty. lia.
  - rewrite map_size_insert_None by done.
    pose proof (subseteq_size (map_img (<[i := n]> h) : gset Z) ({[n]} ∪ map_img h)) as Hs.
    rewrite size_union_alt, size_singleton in Hs.
    pose proof (subseteq_size ((map_img h : gset Z) ∖ {[n]}) (map_img h) ltac:(set_solver)).
    assert (base.size (map_img (<[i := n]> h) : gset Z) <= 1 + base.size ((map_img h : gset Z) ∖ {[n]}))%nat; [|lia].
    apply Hs. intros m (j & Hj)%elem_of_map_img. rewrite lookup_insert in Hj.
    case_decide; [set_solver|]. apply elem_of_union_r. by apply elem_of_map_img_2 with j.
Qed.

Lemma open_bread s x n :
  open s x -> 0 <= n < N -> n ∉ (map_img (j_held x) : gset Z) ->
  (length (j_logged x) + base.size (j_held x) < NBUF)%nat ->
  exists i s', jbread ROOTDEV n s = Ok i s' /\ j_held x !! i = None /\ i ∉ j_dirty x /\
    open s' (j_hold i n x).
Proof.
  intros [a I] Hn Hnh Hc. destruct s as [c l].
  assert (Hs : (base.size (a_stuck a) < NBUF)%nat).
  { unfold a_stuck. rewrite (to_pinned _ _ _ I), (to_held _ _ _ I), size_union_alt.
    pose proof (img_size (j_held x)).
    pose proof (subseteq_size ((map_img (j_held x) : gset Z) ∖ list_to_set (j_logged x)) (map_img (j_held x)) ltac:(set_solver)).
    rewrite size_list_to_set by apply (to_loggable _ _ _ I). lia. }
  destruct (bread_ok c a n) as (i & c' & E & Hi & R); [apply (to_rep _ _ _ I)| | |by right|].
  { by rewrite (to_size _ _ _ I). } { by rewrite (to_held _ _ _ I). }
  rewrite (to_held _ _ _ I) in Hi.
  assert (Hd : i ∉ j_dirty x).
  { intros [m Hm]%(to_dirty _ _ _ I). congruence. }
  exists i, (MkL c' l). split_and!; [by apply cache_ok|done|done|].
  exists (a_hold i n a). destruct I as [J1 J2 J3 J4 J5 K1 K2 J6 J7 J8 J9 J10 J11 J12].
  split; cbn [j_hold j_held j_dirty j_logged j_view a_hold a_held a_size a_pinned a_view a_disk]; try done.
  - by rewrite J7.
  - intros j Hj. rewrite lookup_insert_ne by set_solver. by apply J10.
  - intros j k m. rewrite !lookup_insert. intros H1 H2.
    assert (Hno : forall j', j_held x !! j' <> Some n) by (intros j' Hj'; apply Hnh; by apply elem_of_map_img_2 with j').
    repeat case_decide; subst; try done; [congruence|congruence|]. by apply (J11 j k m).
  - intros m Hm Hdm. apply J12; [done|]. intros j Hj Hjm. apply (Hdm j Hj).
    rewrite lookup_insert_ne by set_solver. done.
Qed.

Lemma open_data s x i n : open s x -> j_held x !! i = Some n -> jdata s i = j_view x n.
Proof.
  intros [a I] H. rewrite <- (to_view _ _ _ I). rewrite <- (to_held _ _ _ I) in H.
  apply (crep_held _ _ _ _ (to_rep _ _ _ I) H).
Qed.

Lemma open_view s x n : open s x -> 0 <= n < N -> block_ok (j_view x n).
Proof.
  intros [a I] H. rewrite <- (to_view _ _ _ I).
  destruct (crep_wf _ _ (to_rep _ _ _ I)) as (Hv & _). apply Hv. by rewrite (to_size _ _ _ I).
Qed.

Lemma open_set s x i n b :
  open s x -> j_held x !! i = Some n -> block_ok b -> open (jset i b s) (j_store i n b x).
Proof.
  intros [a [J1 J2 J3 J4 J5 K1 K2 J6 J7 J8 J9 J10 J11 J12]] H Hb. exists (a_store n b a).
  split; cbn [jset log_journal l_cache l_log j_store j_held j_dirty j_logged j_view
              a_store a_held a_size a_pinned a_view a_disk]; try done.
  - apply bset_ok; [done|by rewrite J7|done].
  - intros m. unfold zset. by rewrite J9.
  - intros j Hj. destruct (decide (j = i)) as [->|]; [by exists n|]. apply J10. set_solver.
  - intros m Hm Hdm. rewrite zset_ne.
    + apply J12; [done|]. intros j Hj. apply Hdm. set_solver.
    + intros ->. apply (Hdm i); [set_solver|done].
Qed.

Lemma open_log_write s x i n :
  1 <= o0 -> open s x -> j_held x !! i = Some n -> home st sz N n -> Z.of_nat (length (j_logged x)) < sz - 1 ->
  exists s', jlog_write i s = Ok tt s' /\ open s' (j_log i n x).
Proof.
  intros Ho0 [a [J1 J2 J3 J4 J5 K1 K2 J6 J7 J8 J9 J10 J11 J12]] H Hn Hlt. destruct s as [c l].
  assert (Hi : a_held a !! i = Some n) by (by rewrite J7).
  cbn [l_cache l_log] in *. destruct (crep_held c a i n J1 Hi) as [_ Eb].
  pose proof (absorb_lists st sz N l _ n Hlay J3 J4 Hn Hlt) as Hl'. cbn zeta in Hl'.
  set (l' := set_lh _ _ l) in Hl'. exists (MkL (bdirty i c) l'). split.
  - cbn [jlog_write log_journal]. unfold log_write. rewrite (bind_ok get _ _ _ _ eq_refl).
    cbn [l_cache l_log]. pose proof J3 as (_ & E2 & _ & En & _). pose proof Hlay as (_ & _ & _ & _ & L5).
    rewrite En, E2, !Z.geb_leb, !(proj2 (Z.leb_gt _ _)), (proj2 (Z.ltb_ge _ _)) by lia.
    cbn [orb]. rewrite (bind_ok _ _ _ _ _ (modlog_ok _ _ _)). rewrite Eb, <- En. fold l'. done.
  - exists (a_pin n a). split; cbn [l_cache l_log j_log j_held j_dirty j_logged j_view
                                     a_pin a_held a_size a_pinned a_view a_disk]; try done.
    + by apply bdirty_ok.
    + by apply loggable_add.
    + rewrite J8. unfold add_logged. case_decide; set_solver.
    + intros j Hj. apply J10. set_solver.
    + intros m Hm Hdm. apply J12.
      * unfold add_logged in Hm. case_decide; set_solver.
      * intros j Hj Hjm. destruct (decide (j = i)) as [->|Hne].
        -- rewrite H in Hjm. injection Hjm as ->. unfold add_logged in Hm. case_decide; set_solver.
        -- apply (Hdm j); [set_solver|done].
Qed.

Lemma open_log_full s x i n :
  open s x -> j_held x !! i = Some n -> sz - 1 <= Z.of_nat (length (j_logged x)) ->
  jlog_write i s = Panic "too big a transaction".
Proof.
  intros [a I] H Hge. destruct s as [c l]. pose proof (to_lists _ _ _ I) as (_ & E2 & _ & En & _).
  cbn [jlog_write log_journal l_log] in *. unfold log_write. rewrite (bind_ok get _ _ _ _ eq_refl).
  cbn [l_cache l_log]. by rewrite En, E2, !Z.geb_leb, (proj2 (Z.leb_le (sz - 1) _)), orb_true_r by lia.
Qed.

Lemma open_log_outside s x i :
  ~ 1 <= o0 -> open s x -> Z.of_nat (length (j_logged x)) < sz - 1 ->
  jlog_write i s = Panic "log_write outside of trans".
Proof.
  intros Ho [a I] Hlt. destruct s as [c l]. pose proof (to_lists _ _ _ I) as (_ & E2 & _ & En & _).
  pose proof (to_out _ _ _ I) as [Eo _]. pose proof Hlay as (_ & _ & _ & _ & L5).
  cbn [jlog_write log_journal l_log] in *. unfold log_write. rewrite (bind_ok get _ _ _ _ eq_refl).
  cbn [l_cache l_log].
  by rewrite En, E2, Eo, !Z.geb_leb, !(proj2 (Z.leb_gt _ _)), (proj2 (Z.ltb_lt _ _)) by lia.
Qed.

Lemma open_brelse s x i n :
  open s x -> j_held x !! i = Some n -> i ∉ j_dirty x ->
  exists s', jbrelse i s = Ok tt s' /\ open s' (j_release i x).
Proof.
  intros [a [J1 J2 J3 J4 J5 K1 K2 J6 J7 J8 J9 J10 J11 J12]] H Hd. destruct s as [c l].
  destruct (brelse_ok c a i n) as (c' & E & R); [done|by rewrite J7| |].
  { rewrite J8, elem_of_list_to_set. destruct (decide (n ∈ j_logged x)); [by left|right].
    apply J12; [done|]. intros j Hj Hjn. rewrite (J11 j i n Hjn H) in Hj. done. }
  exists (MkL c' l). split; [by apply cache_ok|]. exists (a_release i a).
  split; cbn [l_cache l_log j_release j_held j_dirty j_logged j_view
              a_release a_held a_size a_pinned a_view a_disk]; try done.
  - by rewrite J7.
  - intros j Hj. rewrite lookup_delete_ne by set_solver. by apply J10.
  - intros j k m. rewrite !lookup_delete. repeat case_decide; try done. apply J11.
  - intros m Hm Hdm. apply J12; [done|]. intros j Hj Hjm. apply (Hdm j Hj).
    rewrite lookup_delete_ne by set_solver. done.
Qed.

Lemma sz_bound : sz - 1 < Z.of_nat NBUF.
Proof. destruct Hlay as (_ & _ & _ & _ & L5). unfold LOGSIZE, MAXOPBLOCKS in L5. change (Z.of_nat NBUF) with 30. lia. Qed.

Lemma home_range n : home st sz N n -> 2 <= n < N.
Proof. by intros [? _]. Qed.

Definition log_journal_ok : JournalOk (lstate C) := {|
  jsize := N; jhome := home st sz N; jcap := sz - 1; jintx := 1 <= o0; jrep := open;
  jhome_range := home_range; jcap_bound := sz_bound; jview_ok := open_view; jdata_ok := open_data;
  jbread_ok := open_bread; jset_ok := open_set; jlog_write_ok := open_log_write;
  jlog_write_full := open_log_full; jlog_write_outside := open_log_outside; jbrelse_ok := open_brelse
|}.

(** An open transaction with nothing held is again what [end_op] expects. *)
Lemma open_inv s x old :
  open s x -> j_held x = ∅ -> j_dirty x = ∅ ->
  same_data st sz N d0 old -> logged st d0 [] -> sb_ok st sz d0 ->
  exists a, inv st sz N s (MkTx old (j_view x) (j_logged x) o0) a /\ a_disk a = d0 /\ a_writes a = w0.
Proof.
  intros [a [J1 J2 J3 J4 J5 K1 K2 J6 J7 J8 J9 J10 J11 J12]] Hh Hd Ho Hl Hs. exists a.
  split_and!; try done. destruct J5 as [J5 J5'].
  split; cbn [t_old t_new t_logged t_out]; rewrite ?K1; try done; try lia.
  - by rewrite J7.
  - intros n Hr Hn. apply J9.
  - intros n Hn. rewrite <- K1. apply J12; [done|]. rewrite Hd. set_solver.
Qed.

End log_journal.

(** A log between two calls is such a journal with nothing held. *)
Lemma inv_open {C} `{!BlockCache C, !BlockCacheOk C} st sz N (s : lstate C) t a :
  inv st sz N s t a ->
  open st sz N (a_disk a) (a_writes a) (t_out t) s (AJournal (a_view a) ∅ ∅ (t_logged t)).
Proof.
  intros [J1 J2 J3 J4 J5 J6 J7 J8 J9 J10 J11 J12 J13 J14]. exists a.
  split; cbn [j_held j_dirty j_logged j_view]; try done.
  intros n Hn _. by apply J12.
Qed.
