(* ===== verification/Storage.v ===== *)
(** * The storage stack assembled

    The buffer cache over a disk driver, the log over the cache: a boot runs
    [binit] and [initlog], system calls then open, update and close
    transactions, and the machine may lose power after any block write. *)

From stdpp Require Import base numbers list gmap sets strings.
From Stdlib Require Import ZArith Lia.
From S2P Require Import Prelude Disk Blocks Bio Log.
Import Bio.Cache.

Open Scope Z_scope.

Section stack.
Context {D : Type} `{!BlockDriver D, !BlockDriverOk D}.

(** A disk whose superblock places the log at [st], [sz] blocks long, and whose
    log is empty: what mkfs leaves. *)
Definition formatted (st sz : Z) (d : D) : Prop :=
  drv_wf d /\ layout st sz (drv_size d) /\ sb_ok st sz (drv_block d) /\ logged st (drv_block d) [].

(** Boot, then run the calls [es]. *)
Definition session (es : list ev) (d : D) : outcome (lstate (bcache D)) unit :=
  match binit (bss d) with
  | Ok _ c => (initlog ROOTDEV;; do_evs es) (MkL c log0)
  | Panic msg => Panic msg
  | Sleep ch c => Sleep ch (MkL c log0)
  | Undef why => Undef why
  | Diverge => Diverge
  end.

Lemma session_ok st sz d es t' :
  formatted st sz d ->
  tx_run st sz (drv_size d) es (MkTx (drv_block d) (drv_block d) [] 0) = Some t' ->
  exists s a, session es d = Ok tt s /\ inv st sz (drv_size d) s t' a /\
    forall p, p `prefix_of` a_writes a -> exists es1 es2 t1, es = es1 ++ es2 /\
      tx_run st sz (drv_size d) es1 (MkTx (drv_block d) (drv_block d) [] 0) = Some t1 /\
      recovers st sz (drv_size d) (apply_writes p (drv_block d)) (t_old t1).
Proof.
  intros (Hwf & Hlay & Hs & Hg) Hrun. destruct (binit_rep d Hwf) as (c & Eb & R).
  change (crep c (a_fresh (drv_size d) (drv_block d))) in R.
  pose proof Hlay as (L1 & L2 & L3 & _).
  assert (Hrec : recovers st sz (drv_size d) (drv_block d) (drv_block d)).
  { apply recovers_empty; try done. apply drv_block_ok; [done|lia]. }
  destruct (recovers_boot st sz (drv_size d) c (drv_block d) (drv_block d) Hlay Hrec R)
    as (s0 & a0 & E0 & I0 & Ed0 & Hp0).
  destruct (run_ok st sz (drv_size d) es s0 _ t' a0 Hlay I0 Hrun)
    as (s & a & ws & E & I & Ew & Ed & Hp).
  exists s, a. split_and!; [|done|].
  - unfold session. rewrite Eb. by rewrite (bind_ok _ _ _ _ _ E0).
  - rewrite Ew. intros p [Hpp|(q & -> & Hq)]%prefix_app_cases.
    + exists [], es, (MkTx (drv_block d) (drv_block d) [] 0). split_and!; try done. by apply Hp0.
    + destruct (Hp q Hq) as (es1 & es2 & t1 & -> & Ht & Hr). exists es1, es2, t1.
      split_and!; try done. by rewrite apply_writes_app, <- Ed0.
Qed.

End stack.

(** C1: Crash safety.  Boot a formatted disk and run any sequence of calls the
    log has room for, of any number of interleaved system calls: all of them
    return, the cache shows every update and the disk every committed one.  Cut
    the power after any prefix of the block writes made since boot: booting
    again, even through further crashes during recovery, brings the disk to
    the committed blocks as of some point of the sequence.  No transaction is
    ever half there. *)
Theorem crash_atomic {D} `{!BlockDriver D, !BlockDriverOk D} st sz (d : D) es t' :
  formatted st sz d ->
  tx_run st sz (drv_size d) es (MkTx (drv_block d) (drv_block d) [] 0) = Some t' ->
  exists s a, session es d = Ok tt s /\ crep (l_cache s) a /\
    same_data st sz (drv_size d) (a_view a) (t_new t') /\
    same_data st sz (drv_size d) (a_disk a) (t_old t') /\
    forall p, p `prefix_of` a_writes a -> exists es1 es2 t1, es = es1 ++ es2 /\
      tx_run st sz (drv_size d) es1 (MkTx (drv_block d) (drv_block d) [] 0) = Some t1 /\
      forall k, survives (C := bcache D) st sz (drv_size d) k
                  (apply_writes p (drv_block d)) (t_old t1).
Proof.
  intros Hf Hrun. pose proof Hf as (_ & Hlay & _).
  destruct (session_ok st sz d es t' Hf Hrun) as (s & a & E & I & Hp).
  exists s, a. split_and!; [done|apply I|apply I|apply I|].
  intros p Hpp. destruct (Hp p Hpp) as (es1 & es2 & t1 & -> & Ht & Hr). exists es1, es2, t1.
  split_and!; [done..|]. intros k. by apply recovers_survives.
Qed.

(** A disk of 40 blocks with a log of [LOGSIZE] blocks at block 2. *)
Definition small_image : list Z :=
  replicate 512 0
  ++ put32 (put32 (put32 (replicate 512 0) 0 40) 12 30) 16 2
  ++ replicate (38 * 512) 0.

Lemma small_formatted : formatted 2 30 (Memide.ideinit small_image).
Proof.
  assert (E : drv_size (Memide.ideinit small_image) = 40) by (vm_compute; reflexivity).
  split; [|split; [|split]].
  - split; vm_compute; congruence.
  - rewrite E. unfold layout, LOGSIZE, MAXOPBLOCKS. lia.
  - split; vm_compute; reflexivity.
  - split; [vm_compute; reflexivity|]. intros k h. by rewrite lookup_nil.
Defined.

Lemma crash_atomic_witness :
  let d := Memide.ideinit small_image in
  let x := replicate 512 7 in
  let es := [Begin; Update 35 x; Begin; Update 36 x; End; End] in
  exists s a, session es d = Ok tt s /\ crep (l_cache s) a /\ a_disk a 36 = x.
Proof.
  intros d x es.
  assert (E : drv_size d = 40) by (vm_compute; reflexivity).
  destruct (crash_atomic 2 30 d es
    (MkTx (zset (zset (drv_block d) 35 x) 36 x) (zset (zset (drv_block d) 35 x) 36 x) [] 0))
    as (s & a & Hs & R & _ & Hd & _).
  - exact small_formatted.
  - rewrite E. reflexivity.
  - exists s, a. split; [exact Hs|]. split; [exact R|].
    rewrite (Hd 36) by (rewrite ?E; lia). reflexivity.
Defined.

(** C4: The commit point.  The [end_op] of the last open system call makes
    exactly [2n + 2] block writes for [n] logged blocks: the log blocks, the
    header, the home blocks, the cleared header.  A crash after at most [n] of
    them loses the whole transaction, a crash later loses nothing. *)
Theorem header_write_commits {C} `{!BlockCache C, !BlockCacheOk C} st sz N (s : lstate C) t a :
  layout st sz N -> inv st sz N s t a -> t_out t = 1 -> t_logged t <> [] ->
  exists s' a' ws, end_op s = Ok tt s' /\ crep (l_cache s') a' /\ a_writes a' = a_writes a ++ ws /\
    length ws = (2 * length (t_logged t) + 2)%nat /\
    forall p k, p `prefix_of` ws ->
      survives (C := C) st sz N k (apply_writes p (a_disk a))
        (if decide (length p <= length (t_logged t))%nat then t_old t else t_new t).
Proof.
  intros Hlay I Ho Hne. destruct s as [c l].
  destruct (end_commit st sz N c l t a Hlay I Hne Ho) as (c' & l' & E & I').
  destruct (a_syncs_fields (commit_writes st (t_logged t) (a_view a)) a) as (_ & _ & _ & _ & _ & F6).
  eexists _, _, _. split_and!; [exact E|exact (inv_rep _ _ _ _ _ _ I')|exact F6| |].
  - unfold commit_writes, log_writes, new_writes. rewrite !length_app, length_imap, length_fmap. cbn. lia.
  - intros p k Hp. apply recovers_survives; [done|].
    destruct (inv_block_ok _ _ _ _ _ _ Hlay I) as [Hb1 Hb2].
    apply (recovers_commit st sz N (a_disk a)) in Hp; try done; try apply I.
    + case_decide; (eapply recovers_ext; [|exact Hp]); apply I.
    + intros n _ _ Hn. symmetry. by apply (inv_clean _ _ _ _ _ _ I).
Qed.

(** A state with a transaction open that has changed one block. *)
Lemma small_open :
  let d := Memide.ideinit small_image in
  let x := replicate 512 7 in
  exists (s : lstate (bcache Memide.state)) a,
    inv 2 30 40 s (MkTx (drv_block d) (zset (drv_block d) 35 x) [35] 1) a.
Proof.
  intros d x. assert (E : drv_size d = 40) by (vm_compute; reflexivity).
  destruct (session_ok 2 30 d [Begin; Update 35 x] (MkTx (drv_block d) (zset (drv_block d) 35 x) [35] 1))
    as (s & a & _ & I & _).
  - exact small_formatted.
  - rewrite E. reflexivity.
  - rewrite E in I. by exists s, a.
Defined.

Lemma header_write_commits_witness :
  exists (s s' : lstate (bcache Memide.state)) a a' ws,
    end_op s = Ok tt s' /\ a_writes a' = a_writes a ++ ws /\ length ws = 4%nat.
Proof.
  destruct small_open as (s & a & I).
  destruct (header_write_commits 2 30 40 s _ a ltac:(unfold layout, LOGSIZE, MAXOPBLOCKS; lia) I eq_refl ltac:(discriminate))
    as (s' & a' & ws & E & _ & Ew & Hl & _).
  exists s, s', a, a', ws. split; [exact E|]. split; [exact Ew|exact Hl].
Defined.

(** Admission.  [begin_op] admits a system call exactly when the log could
    still hold [MAXOPBLOCKS] more blocks for it and for every open call;
    otherwise the caller sleeps on the log with nothing changed. *)
Theorem begin_op_admission {C} `{!BlockCache C, !BlockCacheOk C} st sz N (s : lstate C) t a :
  inv st sz N s t a ->
  begin_op s =
    if Z.of_nat (length (t_logged t)) + (t_out t + 1) * MAXOPBLOCKS <=? LOGSIZE
    then Ok tt (MkL (l_cache s) (set_outstanding (t_out t + 1) (l_log s)))
    else Sleep ChanLog s.
Proof.
  intros I. destruct (tx_step st sz N Begin t) as [t'|] eqn:E.
  - revert E. cbn [tx_step]. case_match eqn:Hle; [|done]. intros _. by apply (begin_op_runs st sz N s t a).
  - rewrite (begin_op_waits st sz N s t a I E). revert E. cbn [tx_step]. by case_match.
Qed.

Lemma begin_op_admission_witness :
  exists s s' : lstate (bcache Memide.state), begin_op s = Ok tt s' /\ begin_op s' = Sleep ChanLog s'.
Proof.
  destruct small_open as (s & a & I).
  pose proof (begin_op_admission 2 30 40 s _ a I) as E.
  destruct (begin_op_ok 2 30 40 s _ _ a I eq_refl) as (s' & E' & I').
  exists s, s'. split; [exact E'|]. exact (begin_op_admission 2 30 40 s' _ a I').
Defined.

(** ** A full log *)

(** Updates of [k] distinct blocks after the log area, from the [j]th on. *)
Definition updates (st : Z) (x : block) (j k : nat) : list ev :=
  (fun i => Update (st + LOGSIZE + Z.of_nat i) x) <$> seq j k.

Lemma tx_run_updates st N x k : forall t j,
  0 <= st -> st + LOGSIZE + Z.of_nat (j + k) <= N -> block_ok x -> 1 <= t_out t ->
  t_logged t = (fun i => st + LOGSIZE + Z.of_nat i) <$> seq 0 j -> (j + k <= 29)%nat ->
  exists t', tx_run st LOGSIZE N (updates st x j k) t = Some t' /\
    t_logged t' = (fun i => st + LOGSIZE + Z.of_nat i) <$> seq 0 (j + k).
Proof.
  induction k as [|k IH]; intros t j Hst HN Hx Ho Hl Hk.
  - exists t. by rewrite Nat.add_0_r.
  - unfold updates. cbn [seq fmap list_fmap tx_run tx_step]. fold (updates st x (S j) k).
    assert (Hh : home_dec st LOGSIZE N (st + LOGSIZE + Z.of_nat j) = true)
      by (apply home_dec_spec; unfold home, LOGSIZE, MAXOPBLOCKS in *; lia).
    rewrite Hh, (proj2 (Nat.eqb_eq _ _) Hx), (proj2 (Z.leb_le _ _) Ho).
    rewrite Hl, length_fmap, length_seq, (proj2 (Z.ltb_lt _ _)) by (unfold LOGSIZE, MAXOPBLOCKS; lia).
    cbn [andb mbind option_bind].
    destruct (IH (MkTx (t_old t) (zset (t_new t) (st + LOGSIZE + Z.of_nat j) x)
                   (add_logged (st + LOGSIZE + Z.of_nat j)
                      ((fun i => st + LOGSIZE + Z.of_nat i) <$> seq 0 j)) (t_out t)) (S j))
      as (t' & E & Hl'); try done; try lia.
    { cbn [t_logged]. unfold add_logged. rewrite decide_False.
      - by rewrite seq_S, fmap_app.
      - intros (i & Ei & Hi)%list_elem_of_fmap. apply elem_of_seq in Hi. lia. }
    exists t'. split; [exact E|]. by rewrite Hl', Nat.add_succ_comm.
Qed.

(** Three calls are admitted to an empty log. *)
Lemma tx_three_calls st sz N es d :
  tx_run st sz N ([Begin; Begin; Begin] ++ es) (MkTx d d [] 0) = tx_run st sz N es (MkTx d d [] 3).
Proof. done. Qed.

Lemma do_evs_app {C} `{!BlockCache C} es es' (s : lstate C) :
  do_evs (es ++ es') s = (do_evs es;; do_evs es') s.
Proof.
  revert s. induction es as [|e es IH]; intros s; [done|]. cbn [app do_evs].
  rewrite bind_assoc. unfold mbind, M_bind. by destruct (do_ev e s).
Qed.

Lemma updates_S st x j k :
  updates st x j (S k) = updates st x j k ++ [Update (st + LOGSIZE + Z.of_nat (j + k)) x].
Proof. unfold updates. by rewrite seq_S, fmap_app. Qed.

Lemma session_snoc {D} `{!BlockDriver D} es e (d : D) s :
  session es d = Ok tt s -> session (es ++ [e]) d = (do_ev e;; mret tt) s.
Proof.
  unfold session. destruct (binit (bss d)) as [[] c| | | |]; try done.
  unfold mbind, M_bind. destruct (initlog ROOTDEV (MkL c log0)) as [[] s0| | | |]; try done.
  intros Es. rewrite do_evs_app. unfold mbind, M_bind. by rewrite Es.
Qed.

(** C7: The reservation of [begin_op] does not match the check of [log_write]
    on a disk made by mkfs ([nlog = LOGSIZE]): three system calls are admitted
    at once, and if each then updates [MAXOPBLOCKS] blocks, as it may, the last
    of these thirty updates panics the kernel. *)
Theorem admitted_calls_overflow_log {D} `{!BlockDriver D, !BlockDriverOk D} st (d : D) x :
  formatted st LOGSIZE d -> st + 2 * LOGSIZE <= drv_size d -> block_ok x ->
  session ([Begin; Begin; Begin] ++ updates st x 0 30) d = Panic "too big a transaction".
Proof.
  intros Hf HN Hx. pose proof Hf as (_ & Hlay & _). pose proof Hlay as (L1 & _).
  unfold LOGSIZE, MAXOPBLOCKS in HN.
  destruct (tx_run_updates st (drv_size d) x 29 (MkTx (drv_block d) (drv_block d) [] 3) 0)
    as (t' & E & Hl); try done; try (cbn; unfold LOGSIZE, MAXOPBLOCKS; lia).
  destruct (session_ok st LOGSIZE d ([Begin; Begin; Begin] ++ updates st x 0 29) t') as (s & a & Es & I & _);
    [done|by rewrite tx_three_calls|].
  rewrite updates_S, app_assoc, (session_snoc _ _ _ _ Es). destruct s as [c' l'].
  unfold mbind, M_bind. cbn [do_ev].
  assert (Hn : home st LOGSIZE (drv_size d) (st + LOGSIZE + Z.of_nat (0 + 29)))
    by (unfold home, LOGSIZE, MAXOPBLOCKS; lia).
  assert (Hfull : LOGSIZE - 1 <= Z.of_nat (length (t_logged t')))
    by (rewrite Hl, length_fmap, length_seq; unfold LOGSIZE, MAXOPBLOCKS; lia).
  by rewrite (update_panics st LOGSIZE (drv_size d) c' l' t' a _ x Hlay I Hn Hx Hfull).
Qed.

(** A disk of 100 blocks laid out as mkfs does: log of [LOGSIZE] blocks at 2. *)
Definition mid_image : list Z :=
  replicate 512 0
  ++ put32 (put32 (put32 (replicate 512 0) 0 100) 12 30) 16 2
  ++ replicate (98 * 512) 0.

Lemma admitted_calls_overflow_log_witness :
  session ([Begin; Begin; Begin] ++ updates 2 (replicate 512 1) 0 30) (Memide.ideinit mid_image)
  = Panic "too big a transaction".
Proof.
  assert (E : drv_size (Memide.ideinit mid_image) = 100) by (vm_compute; reflexivity).
  apply (admitted_calls_overflow_log 2 (Memide.ideinit mid_image) (replicate 512 1)).
  - split; [|split; [|split]].
    + split; vm_compute; congruence.
    + rewrite E. unfold layout, LOGSIZE, MAXOPBLOCKS. lia.
    + split; vm_compute; reflexivity.
    + split; [vm_compute; reflexivity|]. intros k h. by rewrite lookup_nil.
  - rewrite E. unfold LOGSIZE, MAXOPBLOCKS. lia.
  - reflexivity.
Defined.
