(* ===== verification/Fs.v ===== *)
(** * The file system (HW3/fs.c, fs.h, file.h)

    Blocks, inodes, file contents, directories and path names, written against
    the [Journal] interface.  A [struct inode *] is an index into [icache];
    [NULL] is [None].  Buffers of the caller (the [dst] of [readi], a path, a
    directory entry) are byte lists.

    The device switch [devsw] is a table of function pointers filled in at boot
    by the device drivers; it is an argument of the routines that call through
    it.  [icache.lock] sections are single steps; [ilock]'s wait for a busy
    inode is the outcome [Sleep (ChanInode i)]. *)

From stdpp Require Import base numbers list gmap sets strings.
From Stdlib Require Import ZArith Lia.
From S2P Require Import Prelude CStrings Disk Blocks Log Journal.

Open Scope Z_scope.

(** fs.h, file.h, stat.h, param.h *)
Definition ROOTINO : Z := 1.
Definition NDIRECT : Z := 12.
Definition NINDIRECT : Z := BSIZE / 4.
Definition MAXFILE : Z := NDIRECT + NINDIRECT.
Definition IPB : Z := BSIZE / 64.
Definition BPB : Z := BSIZE * 8.
Definition DIRSIZ : Z := 14.
Definition DIRENT : Z := 16.
Definition I_BUSY : Z := 1.
Definition I_VALID : Z := 2.
Definition T_DIR : Z := 1.
Definition T_FILE : Z := 2.
Definition T_DEV : Z := 3.
Definition NINODE : nat := 50.
Definition NDEV : Z := 10.

Definition IBLOCK (i : Z) (sb : superblock) : Z := u32 (i / IPB + sb_inodestart sb).
Definition BBLOCK (b : Z) (sb : superblock) : Z := u32 (b / BPB + sb_bmapstart sb).

(** [struct inode]; [addrs] has [NDIRECT+1] entries. *)
Record inode := MkInode {
  i_dev : Z; i_inum : Z; i_ref : Z; i_flags : Z;
  i_type : Z; i_major : Z; i_minor : Z; i_nlink : Z; i_size : Z; i_addrs : list Z
}.

#[export] Instance inode_inhabited : Inhabited inode :=
  populate (MkInode 0 0 0 0 0 0 0 0 0 (replicate 13 0)).

Definition set_ref (r : Z) (p : inode) : inode :=
  MkInode (i_dev p) (i_inum p) r (i_flags p) (i_type p) (i_major p) (i_minor p) (i_nlink p)
    (i_size p) (i_addrs p).
Definition set_iflags (f : Z) (p : inode) : inode :=
  MkInode (i_dev p) (i_inum p) (i_ref p) f (i_type p) (i_major p) (i_minor p) (i_nlink p)
    (i_size p) (i_addrs p).
Definition set_type (t : Z) (p : inode) : inode :=
  MkInode (i_dev p) (i_inum p) (i_ref p) (i_flags p) t (i_major p) (i_minor p) (i_nlink p)
    (i_size p) (i_addrs p).
Definition set_size (n : Z) (p : inode) : inode :=
  MkInode (i_dev p) (i_inum p) (i_ref p) (i_flags p) (i_type p) (i_major p) (i_minor p) (i_nlink p)
    n (i_addrs p).
Definition set_addr (k : nat) (a : Z) (p : inode) : inode :=
  MkInode (i_dev p) (i_inum p) (i_ref p) (i_flags p) (i_type p) (i_major p) (i_minor p) (i_nlink p)
    (i_size p) (<[k := a]> (i_addrs p)).

(** The fields kept on disk. *)
Definition set_dinode (t ma mi nl sz : Z) (ad : list Z) (p : inode) : inode :=
  MkInode (i_dev p) (i_inum p) (i_ref p) (i_flags p) t ma mi nl sz ad.

(** [struct dinode] at byte [o] of a block. *)
Definition dinode_off (inum : Z) : nat := Z.to_nat (inum mod IPB * 64).

Fixpoint get_words (x : block) (o : nat) (k : nat) : list Z :=
  match k with
  | O => []
  | S k' => get32 x o :: get_words x (o + 4) k'
  end.

Fixpoint put_words (x : block) (o : nat) (ws : list Z) : block :=
  match ws with
  | [] => x
  | w :: r => put_words (put32 x o w) (o + 4) r
  end.

Definition read_dinode (x : block) (o : nat) (p : inode) : inode :=
  set_dinode (s16 (get16 x o)) (s16 (get16 x (o + 2))) (s16 (get16 x (o + 4)))
    (s16 (get16 x (o + 6))) (get32 x (o + 8)) (get_words x (o + 12) 13) p.

Definition write_dinode (p : inode) (x : block) (o : nat) : block :=
  let x := put16 x o (i_type p) in
  let x := put16 x (o + 2) (i_major p) in
  let x := put16 x (o + 4) (i_minor p) in
  let x := put16 x (o + 6) (i_nlink p) in
  let x := put32 x (o + 8) (i_size p) in
  put_words x (o + 12) (i_addrs p).

(** ** Names

    A C string is the list of its bytes before the NUL; [place] lays bytes out
    in memory, where string.c compares and copies them. *)

Definition place (l : list Z) (a : Z) (m : mem) : mem :=
  fun x => if (a <=? x) && (x <? a + Z.of_nat (length l)) then l !!! Z.to_nat (x - a) else m x.

Definition nul_mem : mem := fun _ => 0.

Definition namecmp (s t : list Z) : Z :=
  KString.strncmp (place s 0 (place t 4096 nul_mem)) 0 4096 DIRSIZ.

(** [strncpy(de.name, name, DIRSIZ)] into an entry. *)
Definition name_field (name : list Z) : list Z :=
  KString.mem_bytes (KString.strncpy (place name 4096 nul_mem) 0 4096 DIRSIZ) 0 (Z.to_nat DIRSIZ).

Definition slash : Z := 47.

Fixpoint skip_slashes (path : list Z) : list Z :=
  match path with
  | c :: r => if c =? slash then skip_slashes r else path
  | [] => []
  end.

(** The element at the front of a path and what follows it. *)
Fixpoint span_elem (path : list Z) : list Z * list Z :=
  match path with
  | c :: r => if c =? slash then ([], path) else let '(e, k) := span_elem r in (c :: e, k)
  | [] => ([], [])
  end.

(** [skipelem]; [name] is the caller's [DIRSIZ]-byte buffer. *)
Definition skipelem (path name : list Z) : option (list Z * list Z) :=
  match skip_slashes path with
  | [] => None
  | path =>
      let '(s, rest) := span_elem path in
      let len := Z.of_nat (length s) in
      let name :=
        if len >=? DIRSIZ then put_bytes name 0 (take (Z.to_nat DIRSIZ) s)
        else put_bytes (put_bytes name 0 s) (length s) [0] in
      Some (skip_slashes rest, name)
  end.

Section fs.
Context {J : Type} `{!Journal J}.

(** [sb] and [icache]. *)
Record fs := MkFs { f_j : J; f_sb : superblock; f_inodes : list inode }.

Definition journal {A} (m : M J A) : M fs A :=
  lift f_j (fun j s => MkFs j (f_sb s) (f_inodes s)) m.

Definition modj (i : nat) (f : block -> block) : M fs unit :=
  modify (fun s => MkFs (jset i (f (jdata (f_j s) i)) (f_j s)) (f_sb s) (f_inodes s)).

Definition getdata (i : nat) : M fs block := reads (fun s => jdata (f_j s) i).

Definition geti (s : fs) (i : nat) : inode := f_inodes s !!! i.

Definition inode_of (i : nat) : M fs inode := reads (fun s => geti s i).

Definition modi (i : nat) (f : inode -> inode) : M fs unit :=
  modify (fun s => MkFs (f_j s) (f_sb s) (alter f i (f_inodes s))).

(** ** Blocks *)

Definition readsb (dev : Z) : M fs unit :=
  bp ← journal (jbread dev 1);
  x ← getdata bp;
  journal (jbrelse bp);;
  modify (fun s => MkFs (f_j s) (superblock_of x) (f_inodes s)).

Definition bzero (dev bno : Z) : M fs unit :=
  bp ← journal (jbread dev bno);
  modj bp (fun _ => replicate (Z.to_nat BSIZE) 0);;
  journal (jlog_write bp);;
  journal (jbrelse bp).

Definition bit_mask (bi : Z) : Z := Z.shiftl 1 (bi mod 8).

Definition byte_at (x : block) (k : Z) : Z := x !!! Z.to_nat k.

(** The inner loop of [balloc]: the first clear bit of a bitmap block. *)
Fixpoint scan (x : block) (b bi size : Z) (k : nat) : option Z :=
  match k with
  | O => None
  | S k' =>
      if b + bi <? size then
        if Z.land (byte_at x (bi / 8)) (bit_mask bi) =? 0 then Some bi
        else scan x b (bi + 1) size k'
      else None
  end.

Definition set_bit (bi : Z) (x : block) : block :=
  <[Z.to_nat (bi / 8) := u8 (Z.lor (byte_at x (bi / 8)) (bit_mask bi))]> x.

Definition clear_bit (bi : Z) (x : block) : block :=
  <[Z.to_nat (bi / 8) := u8 (Z.land (byte_at x (bi / 8)) (Z.lnot (bit_mask bi)))]> x.

Fixpoint balloc_from (k : nat) (dev b : Z) {struct k} : M fs Z :=
  s ← get (S := fs);
  if b <? sb_size (f_sb s) then
    match k with
    | O => diverge
    | S k' =>
        bp ← journal (jbread dev (BBLOCK b (f_sb s)));
        x ← getdata bp;
        match scan x b 0 (sb_size (f_sb s)) (Z.to_nat BPB) with
        | Some bi =>
            modj bp (set_bit bi);;
            journal (jlog_write bp);;
            journal (jbrelse bp);;
            bzero dev (b + bi);;
            mret (b + bi)
        | None =>
            journal (jbrelse bp);;
            balloc_from k' dev (b + BPB)
        end
    end
  else panic "balloc: out of blocks".

Definition balloc (dev : Z) : M fs Z :=
  s ← get;
  balloc_from (S (Z.to_nat (sb_size (f_sb s) / BPB))) dev 0.

Definition bfree (dev b : Z) : M fs unit :=
  readsb dev;;
  s ← get;
  bp ← journal (jbread dev (BBLOCK b (f_sb s)));
  x ← getdata bp;
  let bi := b mod BPB in
  if Z.land (byte_at x (bi / 8)) (bit_mask bi) =? 0 then panic "freeing free block"
  else
    modj bp (clear_bit bi);;
    journal (jlog_write bp);;
    journal (jbrelse bp).

(** ** Inodes *)

(** [iinit]; its [cprintf] of the superblock is console output. *)
Definition iinit (dev : Z) : M fs unit := readsb dev.

(** The loop of [iget]: the cached inode, or else the first empty slot. *)
Fixpoint iget_scan (dev inum : Z) (ps : list inode) (i : nat) (empty : option nat)
  : sum nat (option nat) :=
  match ps with
  | [] => inr empty
  | p :: r =>
      if (i_ref p >? 0) && (i_dev p =? dev) && (i_inum p =? inum) then inl i
      else iget_scan dev inum r (S i)
             (match empty with
              | Some e => Some e
              | None => if i_ref p =? 0 then Some i else None
              end)
  end.

Definition iget (dev inum : Z) : M fs nat :=
  s ← get;
  match iget_scan dev inum (f_inodes s) 0 None with
  | inl i => modi i (fun p => set_ref (i_ref p + 1) p);; mret i
  | inr None => panic "iget: no inodes"
  | inr (Some i) =>
      modi i (fun p => MkInode dev inum 1 0 (i_type p) (i_major p) (i_minor p) (i_nlink p)
                         (i_size p) (i_addrs p));;
      mret i
  end.

Fixpoint ialloc_from (k : nat) (dev type inum : Z) : M fs nat :=
  s ← get (S := fs);
  if inum <? sb_ninodes (f_sb s) then
    match k with
    | O => diverge
    | S k' =>
        bp ← journal (jbread dev (IBLOCK inum (f_sb s)));
        x ← getdata bp;
        let o := dinode_off inum in
        if s16 (get16 x o) =? 0 then
          modj bp (fun x => put16 (put_bytes x o (replicate 64 0)) o type);;
          journal (jlog_write bp);;
          journal (jbrelse bp);;
          iget dev inum
        else
          journal (jbrelse bp);;
          ialloc_from k' dev type (inum + 1)
    end
  else panic "ialloc: no inodes".

Definition ialloc (dev type : Z) : M fs nat :=
  s ← get;
  ialloc_from (Z.to_nat (sb_ninodes (f_sb s))) dev type 1.

Definition iupdate (i : nat) : M fs unit :=
  s ← get;
  let ip := geti s i in
  bp ← journal (jbread (i_dev ip) (IBLOCK (i_inum ip) (f_sb s)));
  modj bp (fun x => write_dinode ip x (dinode_off (i_inum ip)));;
  journal (jlog_write bp);;
  journal (jbrelse bp).

Definition idup (i : nat) : M fs nat :=
  modi i (fun p => set_ref (i_ref p + 1) p);; mret i.

Definition ilock (ip : option nat) : M fs unit :=
  match ip with
  | None => panic "ilock"
  | Some i =>
      s ← get;
      let p := geti s i in
      if i_ref p <? 1 then panic "ilock"
      else if has (i_flags p) I_BUSY then sleep_on (ChanInode i)
      else
        modi i (fun p => set_iflags (Z.lor (i_flags p) I_BUSY) p);;
        p ← inode_of i;
        when (negb (has (i_flags p) I_VALID)) (
          bp ← journal (jbread (i_dev p) (IBLOCK (i_inum p) (f_sb s)));
          x ← getdata bp;
          modi i (read_dinode x (dinode_off (i_inum p)));;
          journal (jbrelse bp);;
          modi i (fun p => set_iflags (Z.lor (i_flags p) I_VALID) p);;
          p ← inode_of i;
          if i_type p =? 0 then panic "ilock: no type" else mret tt)
  end.

Definition iunlock (ip : option nat) : M fs unit :=
  match ip with
  | None => panic "iunlock"
  | Some i =>
      p ← inode_of i;
      if negb (has (i_flags p) I_BUSY) || (i_ref p <? 1) then panic "iunlock"
      else modi i (fun p => set_iflags (Z.land (i_flags p) (Z.lnot I_BUSY)) p)
  end.

(** ** File contents *)

Definition addr (p : inode) (k : Z) : Z := i_addrs p !!! Z.to_nat k.

Definition bmap (i : nat) (bn : Z) : M fs Z :=
  p ← inode_of i;
  if bn <? NDIRECT then
    if addr p bn =? 0 then
      a ← balloc (i_dev p);
      modi i (set_addr (Z.to_nat bn) a);;
      mret a
    else mret (addr p bn)
  else
    let bn := bn - NDIRECT in
    if bn <? NINDIRECT then
      ind ← (if addr p NDIRECT =? 0 then
               a ← balloc (i_dev p);
               modi i (set_addr (Z.to_nat NDIRECT) a);;
               mret a
             else mret (addr p NDIRECT));
      bp ← journal (jbread (i_dev p) ind);
      x ← getdata bp;
      let a := get32 x (Z.to_nat (4 * bn)) in
      if a =? 0 then
        a ← balloc (i_dev p);
        modj bp (fun x => put32 x (Z.to_nat (4 * bn)) a);;
        journal (jlog_write bp);;
        journal (jbrelse bp);;
        mret a
      else
        journal (jbrelse bp);;
        mret a
    else panic "bmap: out of range".

Definition itrunc_direct (i : nat) (k : Z) : M fs unit :=
  p ← inode_of i;
  when (negb (addr p k =? 0)) (
    bfree (i_dev p) (addr p k);;
    modi i (set_addr (Z.to_nat k) 0)).

Definition itrunc (i : nat) : M fs unit :=
  for_ 0 NDIRECT (itrunc_direct i);;
  p ← inode_of i;
  when (negb (addr p NDIRECT =? 0)) (
    bp ← journal (jbread (i_dev p) (addr p NDIRECT));
    for_ 0 NINDIRECT (fun j =>
      x ← getdata bp;
      let a := get32 x (Z.to_nat (4 * j)) in
      when (negb (a =? 0)) (bfree (i_dev p) a));;
    journal (jbrelse bp);;
    bfree (i_dev p) (addr p NDIRECT);;
    modi i (set_addr (Z.to_nat NDIRECT) 0));;
  modi i (set_size 0);;
  iupdate i.

Definition iput (i : nat) : M fs unit :=
  p ← inode_of i;
  when ((i_ref p =? 1) && has (i_flags p) I_VALID && (i_nlink p =? 0)) (
    if has (i_flags p) I_BUSY then panic "iput busy"
    else
      modi i (fun p => set_iflags (Z.lor (i_flags p) I_BUSY) p);;
      itrunc i;;
      modi i (set_type 0);;
      iupdate i;;
      modi i (set_iflags 0));;
  modi i (fun p => set_ref (i_ref p - 1) p).

Definition iunlockput (i : nat) : M fs unit := iunlock (Some i);; iput i.

Record stat := MkStat { st_type : Z; st_dev : Z; st_ino : Z; st_nlink : Z; st_size : Z }.

Definition stati (i : nat) : M fs stat :=
  p ← inode_of i;
  mret (MkStat (i_type p) (i_dev p) (i_inum p) (i_nlink p) (i_size p)).

(** The functions a device driver puts into [devsw]: they take the inode and
    the byte count (and the bytes to write) and return the C result, [read]
    with the bytes it stored. *)
Record devops := MkDevops {
  dev_read : Z -> option (nat -> Z -> M fs (Z * list Z));
  dev_write : Z -> option (nat -> list Z -> M fs Z)
}.

Fixpoint readi_loop (k : nat) (i : nat) (off n tot : Z) (acc : list Z) : M fs (list Z) :=
  if tot <? n then
    match k with
    | O => diverge
    | S k' =>
        p ← inode_of i;
        a ← bmap i (off / BSIZE);
        bp ← journal (jbread (i_dev p) a);
        x ← getdata bp;
        let m := Z.min (n - tot) (BSIZE - off mod BSIZE) in
        journal (jbrelse bp);;
        readi_loop k' i (off + m) n (tot + m)
          (acc ++ get_bytes x (Z.to_nat (off mod BSIZE)) (Z.to_nat m))
    end
  else mret acc.

(** [readi]: the C result and the bytes stored at [dst]. *)
Definition readi (dv : devops) (i : nat) (off n : Z) : M fs (Z * list Z) :=
  p ← inode_of i;
  if i_type p =? T_DEV then
    if (i_major p <? 0) || (i_major p >=? NDEV) then mret (-1, [])
    else match dev_read dv (i_major p) with
         | None => mret (-1, [])
         | Some f => f i n
         end
  else if (off >? i_size p) || (u32 (off + n) <? off) then mret (-1, [])
  else
    let n := if off + n >? i_size p then i_size p - off else n in
    bs ← readi_loop (Z.to_nat n) i off n 0 [];
    mret (n, bs).

Fixpoint writei_loop (k : nat) (i : nat) (src : list Z) (off n tot : Z) : M fs Z :=
  if tot <? n then
    match k with
    | O => diverge
    | S k' =>
        p ← inode_of i;
        a ← bmap i (off / BSIZE);
        bp ← journal (jbread (i_dev p) a);
        let m := Z.min (n - tot) (BSIZE - off mod BSIZE) in
        modj bp (fun x => put_bytes x (Z.to_nat (off mod BSIZE)) (get_bytes src (Z.to_nat tot) (Z.to_nat m)));;
        journal (jlog_write bp);;
        journal (jbrelse bp);;
        writei_loop k' i src (off + m) n (tot + m)
    end
  else mret off.

(** [writei] of the bytes [src]; the loop returns the final [off]. *)
Definition writei (dv : devops) (i : nat) (src : list Z) (off : Z) : M fs Z :=
  let n := Z.of_nat (length src) in
  p ← inode_of i;
  if i_type p =? T_DEV then
    if (i_major p <? 0) || (i_major p >=? NDEV) then mret (-1)
    else match dev_write dv (i_major p) with
         | None => mret (-1)
         | Some f => f i src
         end
  else if (off >? i_size p) || (u32 (off + n) <? off) then mret (-1)
  else if off + n >? MAXFILE * BSIZE then mret (-1)
  else
    off' ← writei_loop (Z.to_nat n) i src off n 0;
    p ← inode_of i;
    when ((n >? 0) && (off' >? i_size p)) (
      modi i (set_size off');;
      iupdate i);;
    mret n.

(** ** Directories *)

Fixpoint dirlookup_from (k : nat) (dv : devops) (dp : nat) (name : list Z) (off : Z)
  : M fs (option (nat * Z)) :=
  p ← inode_of dp;
  if off <? i_size p then
    match k with
    | O => diverge
    | S k' =>
        '(n, de) ← readi dv dp off DIRENT;
        if negb (n =? DIRENT) then panic "dirlink read"
        else
          let inum := get16 de 0 in
          if inum =? 0 then dirlookup_from k' dv dp name (off + DIRENT)
          else if namecmp name (drop 2 de) =? 0 then
            ip ← iget (i_dev p) inum;
            mret (Some (ip, off))
          else dirlookup_from k' dv dp name (off + DIRENT)
    end
  else mret None.

(** [dirlookup]: the inode found and the offset stored through [poff]. *)
Definition dirlookup (dv : devops) (dp : nat) (name : list Z) : M fs (option (nat * Z)) :=
  p ← inode_of dp;
  if negb (i_type p =? T_DIR) then panic "dirlookup not DIR"
  else dirlookup_from (Z.to_nat (i_size p)) dv dp name 0.

(** The loop of [dirlink] that looks for an empty entry. *)
Fixpoint empty_dirent (k : nat) (dv : devops) (dp : nat) (off : Z) : M fs Z :=
  p ← inode_of dp;
  if off <? i_size p then
    match k with
    | O => diverge
    | S k' =>
        '(n, de) ← readi dv dp off DIRENT;
        if negb (n =? DIRENT) then panic "dirlink read"
        else if get16 de 0 =? 0 then mret off
        else empty_dirent k' dv dp (off + DIRENT)
    end
  else mret off.

Definition dirlink (dv : devops) (dp : nat) (name : list Z) (inum : Z) : M fs Z :=
  r ← dirlookup dv dp name;
  match r with
  | Some (ip, _) => iput ip;; mret (-1)
  | None =>
      p ← inode_of dp;
      off ← empty_dirent (Z.to_nat (i_size p)) dv dp 0;
      n ← writei dv dp (le_bytes 2 inum ++ name_field name) off;
      if negb (n =? DIRENT) then panic "dirlink"
      else mret 0
  end.

(** ** Paths *)

Fixpoint namex_loop (k : nat) (dv : devops) (ip : nat) (path : list Z) (nameiparent : bool)
    (name : list Z) : M fs (option nat * list Z) :=
  match skipelem path name with
  | None =>
      if nameiparent then iput ip;; mret (None, name)
      else mret (Some ip, name)
  | Some (path, name) =>
      match k with
      | O => diverge
      | S k' =>
          ilock (Some ip);;
          p ← inode_of ip;
          if negb (i_type p =? T_DIR) then iunlockput ip;; mret (None, name)
          else if nameiparent && bool_decide (path = []) then
            iunlock (Some ip);; mret (Some ip, name)
          else
            next ← dirlookup dv ip name;
            match next with
            | None => iunlockput ip;; mret (None, name)
            | Some (next, _) =>
                iunlockput ip;;
                namex_loop k' dv next path nameiparent name
            end
      end
  end.

(** [namex]: the inode, and the buffer [name] as it is left. *)
Definition namex (dv : devops) (cwd : nat) (path : list Z) (nameiparent : bool) (name : list Z)
  : M fs (option nat * list Z) :=
  ip ← (if bool_decide (head path = Some slash) then iget ROOTDEV ROOTINO else idup cwd);
  namex_loop (length path) dv ip path nameiparent name.

Definition namei (dv : devops) (cwd : nat) (path : list Z) : M fs (option nat) :=
  '(ip, _) ← namex dv cwd path false (replicate (Z.to_nat DIRSIZ) 0);
  mret ip.

Definition nameiparent (dv : devops) (cwd : nat) (path name : list Z) : M fs (option nat * list Z) :=
  namex dv cwd path true name.

End fs.
Arguments fs J : clear implicits.
