(* ===== verification/FsBlocks.v ===== *)
(** * Block allocation in the file system is correct

    The free bitmap, [balloc] and [bfree] of fs.c over any journal: [balloc]
    takes the first free block, marks it in the bitmap and zeroes it; [bfree]
    clears its bit; neither touches anything else. *)

From stdpp Require Import base numbers list gmap sets strings.
From Stdlib Require Import ZArith Lia.
From S2P Require Import Prelude CStrings Disk Blocks Log Journal Fs.

Open Scope Z_scope.

Ltac Zify.zify_post_hook ::= Z.to_euclidean_division_equations.

(** The constants of fs.h as numerals. *)
Ltac fs_consts :=
  change IPB with 8 in *; change BPB with 4096 in *; change BSIZE with 512 in *;
  change NDIRECT with 12 in *; change NINDIRECT with 128 in *; change MAXFILE with 140 in *;
  change DIRENT with 16 in *; change DIRSIZ with 14 in *.

(** ** Bits *)

Lemma land_bit z j : 0 <= j -> (Z.land z (Z.shiftl 1 j) =? 0) = negb (Z.testbit z j).
Proof.
  intros Hj. rewrite Z.shiftl_1_l. destruct (Z.testbit z j) eqn:E; cbn.
  - apply Z.eqb_neq. intros H. apply (f_equal (fun w => Z.testbit w j)) in H.
    rewrite Z.land_spec, E, Z.pow2_bits_true, Z.bits_0 in H by lia. done.
  - apply Z.eqb_eq. apply Z.bits_inj'. intros i Hi. rewrite Z.land_spec, Z.bits_0.
    destruct (decide (i = j)) as [->|]; [by rewrite E|].
    rewrite Z.pow2_bits_false by lia. apply andb_false_r.
Qed.

Lemma u8_testbit z j : 0 <= j < 8 -> Z.testbit (u8 z) j = Z.testbit z j.
Proof. intros H. unfold u8. apply Z.mod_pow2_bits_low. lia. Qed.

Definition clear (x : block) (r : Z) : bool := Z.land (byte_at x (r / 8)) (bit_mask r) =? 0.

Lemma clear_testbit x r : clear x r = negb (Z.testbit (byte_at x (r / 8)) (r mod 8)).
Proof. unfold clear, bit_mask. apply land_bit. lia. Qed.

Lemma byte_at_insert x k v j :
  0 <= k -> 0 <= j -> (Z.to_nat k < length x)%nat ->
  byte_at (<[Z.to_nat k := v]> x) j = if j =? k then v else byte_at x j.
Proof.
  intros Hk Hj Hl. unfold byte_at. destruct (Z.eqb_spec j k) as [->|Hne].
  - apply list_lookup_total_insert_eq. lia.
  - apply list_lookup_total_insert_ne. lia.
Qed.

Lemma clear_set_bit x r q :
  0 <= r < BPB -> 0 <= q -> block_ok x -> clear (set_bit r x) q = if q =? r then false else clear x q.
Proof.
  unfold block_ok, BPB, BSIZE. intros Hr Hq Hx. rewrite !clear_testbit. unfold set_bit.
  rewrite byte_at_insert by lia. destruct (Z.eqb_spec (q / 8) (r / 8)) as [E|E].
  - rewrite u8_testbit by lia. rewrite Z.lor_spec. unfold bit_mask. rewrite Z.shiftl_1_l, E.
    destruct (Z.eqb_spec q r) as [->|Hne].
    + rewrite Z.pow2_bits_true by lia. by rewrite orb_true_r.
    + rewrite Z.pow2_bits_false by lia. by rewrite orb_false_r.
  - destruct (Z.eqb_spec q r) as [->|]; done.
Qed.

Lemma clear_clear_bit x r q :
  0 <= r < BPB -> 0 <= q -> block_ok x -> clear (clear_bit r x) q = if q =? r then true else clear x q.
Proof.
  unfold block_ok, BPB, BSIZE. intros Hr Hq Hx. rewrite !clear_testbit. unfold clear_bit.
  rewrite byte_at_insert by lia. destruct (Z.eqb_spec (q / 8) (r / 8)) as [E|E].
  - rewrite u8_testbit by lia. rewrite Z.land_spec, Z.lnot_spec by lia. unfold bit_mask.
    rewrite Z.shiftl_1_l, E. destruct (Z.eqb_spec q r) as [->|Hne].
    + rewrite Z.pow2_bits_true by lia. by rewrite andb_false_r.
    + rewrite Z.pow2_bits_false by lia. by rewrite andb_true_r.
  - destruct (Z.eqb_spec q r) as [->|]; done.
Qed.

Lemma block_ok_set_bit r x : block_ok x -> block_ok (set_bit r x).
Proof. unfold block_ok, set_bit. by rewrite length_insert. Qed.

Lemma block_ok_clear_bit r x : block_ok x -> block_ok (clear_bit r x).
Proof. unfold block_ok, clear_bit. by rewrite length_insert. Qed.

Lemma scan_spec k : forall x b bi size,
  match scan x b bi size k with
  | Some r => bi <= r < bi + Z.of_nat k /\ b + r < size /\ clear x r = true /\
      forall q, bi <= q < r -> clear x q = false
  | None => forall q, bi <= q < bi + Z.of_nat k -> b + q < size -> clear x q = false
  end.
Proof.
  induction k as [|k IH]; intros x b bi size; cbn [scan]; [intros; lia|].
  destruct (Z.ltb_spec (b + bi) size) as [Hlt|Hge]; [|intros; lia].
  fold (clear x bi). destruct (clear x bi) eqn:E.
  - split_and!; try done; try lia.
  - specialize (IH x b (bi + 1) size). destruct (scan x b (bi + 1) size k) as [r|].
    + destruct IH as (H1 & H2 & H3 & H4). split_and!; try done; try lia.
      intros q Hq. destruct (decide (q = bi)) as [->|]; [done|]. apply H4. lia.
    + intros q Hq Hs. destruct (decide (q = bi)) as [->|]; [done|]. apply IH; lia.
Qed.

(** ** Blocks read and rewritten through the journal *)

Definition j_write (n : Z) (b : block) (x : ajournal) : ajournal :=
  AJournal (zset (j_view x) n b) (j_held x) (j_dirty x) (add_logged n (j_logged x)).

Lemma add_logged_length n l : (length (add_logged n l) <= S (length l))%nat.
Proof. unfold add_logged. case_decide; [lia|]. rewrite length_app. cbn. lia. Qed.

Section laws.
Context {J : Type} `{!Journal J, !JournalOk J, Htx : !InTx J}.
Implicit Types (j : J) (x : ajournal) (sb : superblock) (ps : list inode).

Lemma journal_ok {A} (m : M J A) j sb ps a j' :
  m j = Ok a j' -> journal m (MkFs j sb ps) = Ok a (MkFs j' sb ps).
Proof. intros H. unfold journal, lift. cbn. by rewrite H. Qed.

Lemma getdata_ok i j sb ps : getdata i (MkFs j sb ps) = Ok (jdata j i) (MkFs j sb ps).
Proof. done. Qed.

Lemma modj_ok i f j sb ps :
  modj i f (MkFs j sb ps) = Ok tt (MkFs (jset i (f (jdata j i)) j) sb ps).
Proof. done. Qed.

Lemma get_ok {S} (s : S) : get s = Ok s s.
Proof. done. Qed.

(** Room for [k] more blocks, with the buffers now held. *)
Definition room (k : nat) (x : ajournal) : Prop :=
  Z.of_nat (length (j_logged x) + k) <= jcap /\
  (length (j_logged x) + k + base.size (j_held x) <= NBUF)%nat.

Definition unheld (n : Z) (x : ajournal) : Prop := n ∉ (map_img (j_held x) : gset Z).

Lemma unheld_empty n x : j_held x = ∅ -> unheld n x.
Proof. intros H. unfold unheld. rewrite H, map_img_empty. apply not_elem_of_empty. Qed.

Lemma read_block j x n :
  jrep j x -> 0 <= n < jsize -> unheld n x ->
  (length (j_logged x) + base.size (j_held x) < NBUF)%nat ->
  exists i j1 j2, jbread ROOTDEV n j = Ok i j1 /\ jdata j1 i = j_view x n /\
    jbrelse i j1 = Ok tt j2 /\ jrep j2 x.
Proof.
  intros R Hn Hu Hc. destruct (jbread_ok j x n R Hn Hu Hc) as (i & j1 & E & Hi & Hd & R1).
  assert (Hi1 : j_held (j_hold i n x) !! i = Some n) by apply lookup_insert_eq.
  destruct (jbrelse_ok j1 _ i n R1 Hi1 Hd) as (j2 & E2 & R2).
  exists i, j1, j2. split_and!; try done; [by rewrite (jdata_ok j1 _ i n R1 Hi1)|].
  revert R2. unfold j_release, j_hold. cbn. rewrite delete_insert_id by done. by destruct x.
Qed.

(** The rest of an update once the block is read: store, log, release. *)
Lemma write_block j x n :
  jrep j x -> jhome n -> unheld n x ->
  (length (j_logged x) + base.size (j_held x) < NBUF)%nat -> Z.of_nat (length (j_logged x)) < jcap ->
  exists i j1, jbread ROOTDEV n j = Ok i j1 /\ jdata j1 i = j_view x n /\
    forall b, block_ok b -> exists j2 j3, jlog_write i (jset i b j1) = Ok tt j2 /\
      jbrelse i j2 = Ok tt j3 /\ jrep j3 (j_write n b x).
Proof.
  intros R Hh Hu Hc Hcap. pose proof (jhome_range n Hh) as Hn.
  destruct (jbread_ok j x n R) as (i & j1 & E & Hi & Hd & R1); [lia|done|done|].
  assert (Hi1 : j_held (j_hold i n x) !! i = Some n) by apply lookup_insert_eq.
  exists i, j1. split_and!; [done|by rewrite (jdata_ok j1 _ i n R1 Hi1)|]. intros b Hb.
  pose proof (jset_ok j1 _ i n b R1 Hi1 Hb) as R2.
  destruct (jlog_write_ok _ _ i n Htx R2 Hi1 Hh Hcap) as (j2 & E2 & R3).
  destruct (jbrelse_ok j2 _ i n R3 Hi1) as (j3 & E3 & R4); [cbn; set_solver|].
  exists j2, j3. split_and!; try done.
  revert R4. unfold j_release, j_log, j_store, j_hold, j_write. cbn.
  rewrite delete_insert_id by done.
  by replace (({[i]} ∪ j_dirty x) ∖ {[i]}) with (j_dirty x) by set_solver.
Qed.

Lemma bzero_ok j x sb ps n :
  jrep j x -> jhome n -> unheld n x -> room 1 x ->
  exists j', bzero ROOTDEV n (MkFs j sb ps) = Ok tt (MkFs j' sb ps) /\
    jrep j' (j_write n (replicate (Z.to_nat BSIZE) 0) x).
Proof.
  intros R Hh Hu [Hr Hc]. destruct (write_block j x n) as (i & j1 & E & _ & Hw); try done; try lia.
  destruct (Hw (replicate (Z.to_nat BSIZE) 0)) as (j2 & j3 & E2 & E3 & R3); [apply length_replicate|].
  exists j3. split; [|done]. unfold bzero. rewrite (bind_ok _ _ _ _ _ (journal_ok _ _ _ _ _ _ E)).
  rewrite (bind_ok _ _ _ _ _ (modj_ok _ _ _ _ _)), (bind_ok _ _ _ _ _ (journal_ok _ _ _ _ _ _ E2)).
  by apply journal_ok.
Qed.

(** *** The layout fs.c relies on

    Inode blocks, then bitmap blocks, then data blocks, all of them loggable. *)
Definition datastart sb : Z := sb_bmapstart sb + sb_size sb / BPB + 1.

Record geometry sb : Prop := {
  geo_size : datastart sb <= sb_size sb <= jsize;
  geo_jsize : jsize <= 2 ^ 31;
  geo_inodes : 2 <= sb_inodestart sb /\ 0 <= sb_ninodes sb /\
    sb_inodestart sb + sb_ninodes sb / IPB < sb_bmapstart sb;
  geo_home : forall n, sb_inodestart sb <= n < sb_size sb -> jhome n
}.

(** Block [b] is marked in use. *)
Definition used sb (v : Z -> block) (b : Z) : bool :=
  negb (clear (v (b / BPB + sb_bmapstart sb)) (b mod BPB)).

(** Only data blocks are free. *)
Definition meta_used sb (v : Z -> block) : Prop :=
  forall b, 0 <= b < sb_size sb -> used sb v b = false -> datastart sb <= b.

Lemma bblock sb b :
  geometry sb -> 0 <= b < sb_size sb ->
  BBLOCK b sb = b / BPB + sb_bmapstart sb /\ jhome (BBLOCK b sb) /\ BBLOCK b sb < datastart sb.
Proof.
  intros [G1 G2 G3 G4] Hb. unfold BBLOCK, datastart in *. fs_consts.
  assert (E : u32 (b / 4096 + sb_bmapstart sb) = b / 4096 + sb_bmapstart sb)
    by (apply u32_small; lia).
  rewrite E. split_and!; [done|apply G4; lia|lia].
Qed.

(** The state after block [b] has been allocated. *)
Definition allocated sb (b : Z) (x : ajournal) : ajournal :=
  j_write b (replicate (Z.to_nat BSIZE) 0)
    (j_write (b / BPB + sb_bmapstart sb)
       (set_bit (b mod BPB) (j_view x (b / BPB + sb_bmapstart sb))) x).

Lemma balloc_from_ok k : forall j x sb ps b0 b,
  jrep j x -> geometry sb -> meta_used sb (j_view x) -> room 2 x ->
  (forall n, sb_bmapstart sb <= n < sb_size sb ->
     n < datastart sb \/ used sb (j_view x) n = false -> unheld n x) ->
  0 <= b0 -> b0 mod BPB = 0 -> sb_size sb <= b0 + Z.of_nat k * BPB ->
  b0 <= b < sb_size sb -> used sb (j_view x) b = false ->
  (forall b', b0 <= b' < b -> used sb (j_view x) b' = true) ->
  exists j', balloc_from k ROOTDEV b0 (MkFs j sb ps) = Ok b (MkFs j' sb ps) /\
    jrep j' (allocated sb b x).
Proof.
  induction k as [|k IH]; intros j x sb ps b0 b R G Hm Hr Hu H0 Hmod Hfuel Hb Hfree Hmin; [lia|].
  destruct (bblock sb b0 G) as (Eb & Hhome & Hlt); [lia|].
  assert (Hbm : sb_bmapstart sb <= BBLOCK b0 sb < sb_size sb).
  { destruct G as [G1 _ _ _]. rewrite Eb in *. fs_consts. lia. }
  pose proof Hr as [Hr1 Hr2].
  cbn [balloc_from]. rewrite (bind_ok _ _ _ _ _ (get_ok _)). cbn [f_sb].
  rewrite (proj2 (Z.ltb_lt b0 (sb_size sb))) by lia.
  pose proof (scan_spec (Z.to_nat BPB) (j_view x (BBLOCK b0 sb)) b0 0 (sb_size sb)) as Hs.
  assert (Huse : forall q, 0 <= q < BPB -> used sb (j_view x) (b0 + q) = negb (clear (j_view x (BBLOCK b0 sb)) q)).
  { intros q Hq. unfold used. rewrite Eb. fs_consts. do 3 f_equal; [|lia]. f_equal. lia. }
  destruct (scan _ b0 0 (sb_size sb) (Z.to_nat BPB)) as [r|] eqn:Esc.
  - destruct Hs as (Hr' & Hsz & Hcl & Hbefore). fs_consts.
    assert (b = b0 + r) as ->.
    { destruct (Z.lt_trichotomy b (b0 + r)) as [H|[H|H]]; [|done|].
      - specialize (Hbefore (b - b0) ltac:(lia)). specialize (Huse (b - b0) ltac:(lia)).
        replace (b0 + (b - b0)) with b in Huse by lia. rewrite Hfree, Hbefore in Huse. done.
      - specialize (Hmin (b0 + r) ltac:(lia)). rewrite Huse, Hcl in Hmin by lia. done. }
    destruct (write_block j x (BBLOCK b0 sb)) as (i & j1 & E & Ed & Hw); try done; try lia; [by apply Hu; auto|].
    destruct (Hw (set_bit r (j_view x (BBLOCK b0 sb)))) as (j2 & j3 & E2 & E3 & R3).
    { apply block_ok_set_bit, (jview_ok j x); [done|]. apply jhome_range in Hhome. lia. }
    assert (Hbd : datastart sb <= b0 + r) by (by apply Hm; [lia|]).
    destruct (bzero_ok j3 (j_write (BBLOCK b0 sb) (set_bit r (j_view x (BBLOCK b0 sb))) x) sb ps (b0 + r))
      as (j4 & E4 & R4); try done.
    { apply (geo_home _ G). destruct G as [_ _ G3 _]. unfold datastart in Hbd. fs_consts. lia. }
    { apply Hu; [|by right]. unfold datastart in Hbd. fs_consts. lia. }
    { pose proof (add_logged_length (BBLOCK b0 sb) (j_logged x)). unfold room, j_write. cbn [j_logged j_held].
      pose proof jcap_bound. split; [lia|]. lia. }
    exists j4. split.
    + rewrite (bind_ok _ _ _ _ _ (journal_ok _ _ _ _ _ _ E)), (bind_ok _ _ _ _ _ (getdata_ok _ _ _ _)).
      rewrite Ed, Esc, (bind_ok _ _ _ _ _ (modj_ok _ _ _ _ _)), Ed.
      rewrite (bind_ok _ _ _ _ _ (journal_ok _ _ _ _ _ _ E2)), (bind_ok _ _ _ _ _ (journal_ok _ _ _ _ _ _ E3)).
      by rewrite (bind_ok _ _ _ _ _ E4).
    + revert R4. unfold allocated. rewrite Eb. fs_consts.
      replace ((b0 + r) / 4096) with (b0 / 4096) by lia. by replace ((b0 + r) mod 4096) with r by lia.
  - destruct (read_block j x (BBLOCK b0 sb)) as (i & j1 & j2 & E & Ed & E2 & R2); try done.
    { apply jhome_range in Hhome. lia. } { by apply Hu; auto. } { lia. }
    fs_consts. assert (Hge : b0 + 4096 <= b).
    { destruct (decide (b0 + 4096 <= b)) as [|Hlt']; [done|]. exfalso.
      specialize (Hs (b - b0) ltac:(lia) ltac:(lia)). specialize (Huse (b - b0) ltac:(lia)).
      replace (b0 + (b - b0)) with b in Huse by lia. rewrite Hs, Hfree in Huse. done. }
    destruct (IH j2 x sb ps (b0 + 4096) b) as (j' & E' & R'); try done; try lia.
    { intros b' Hb'. apply Hmin. lia. }
    exists j'. split; [|done].
    rewrite (bind_ok _ _ _ _ _ (journal_ok _ _ _ _ _ _ E)), (bind_ok _ _ _ _ _ (getdata_ok _ _ _ _)).
    rewrite Ed, Esc, (bind_ok _ _ _ _ _ (journal_ok _ _ _ _ _ _ E2)). exact E'.
Qed.

(** The bitmap blocks and the free blocks are not held by the caller. *)
Definition bitmap_unheld sb (x : ajournal) : Prop :=
  forall n, sb_bmapstart sb <= n < sb_size sb ->
    n < datastart sb \/ used sb (j_view x) n = false -> unheld n x.

Lemma balloc_ok j x sb ps b :
  jrep j x -> geometry sb -> meta_used sb (j_view x) -> room 2 x -> bitmap_unheld sb x ->
  0 <= b < sb_size sb -> used sb (j_view x) b = false ->
  (forall b', 0 <= b' < b -> used sb (j_view x) b' = true) ->
  exists j', balloc ROOTDEV (MkFs j sb ps) = Ok b (MkFs j' sb ps) /\ jrep j' (allocated sb b x).
Proof.
  intros R G Hm Hr Hu Hb Hfree Hmin. unfold balloc. rewrite (bind_ok _ _ _ _ _ (get_ok _)). cbn [f_sb].
  apply balloc_from_ok; try done. fs_consts. lia.
Qed.

(** Least free block, if any. *)
Lemma first_free sb v n :
  (forall b, 0 <= b < n -> used sb v b = true) \/
  exists b, 0 <= b < n /\ used sb v b = false /\ forall b', 0 <= b' < b -> used sb v b' = true.
Proof.
  destruct (decide (0 <= n)) as [Hn|Hn]; [|left; lia].
  revert n Hn. apply natlike_ind; [left; lia|]. intros n Hn [IH|(b & Hb & H1 & H2)].
  - destruct (used sb v n) eqn:E.
    + left. intros b Hb. destruct (decide (b = n)) as [->|]; [done|]. apply IH. lia.
    + right. exists n. split_and!; [lia|lia|done|]. intros b' Hb'. apply IH. lia.
  - right. exists b. split_and!; try done; lia.
Qed.

Lemma balloc_from_full k : forall j x sb ps b0,
  jrep j x -> geometry sb -> room 1 x -> bitmap_unheld sb x ->
  0 <= b0 -> b0 mod BPB = 0 -> sb_size sb <= b0 + Z.of_nat k * BPB ->
  (forall b, b0 <= b < sb_size sb -> used sb (j_view x) b = true) ->
  balloc_from k ROOTDEV b0 (MkFs j sb ps) = Panic "balloc: out of blocks".
Proof.
  induction k as [|k IH]; intros j x sb ps b0 R G Hr Hu H0 Hmod Hfuel Hall; cbn [balloc_from];
    rewrite (bind_ok _ _ _ _ _ (get_ok _)); cbn [f_sb];
    destruct (Z.ltb_spec b0 (sb_size sb)) as [Hlt|]; try done; try lia.
  destruct (bblock sb b0 G) as (Eb & Hhome & Hd); [lia|].
  assert (Hbm : sb_bmapstart sb <= BBLOCK b0 sb < sb_size sb).
  { destruct G as [G1 _ _ _]. rewrite Eb in *. fs_consts. lia. }
  destruct Hr as [Hr1 Hr2].
  destruct (read_block j x (BBLOCK b0 sb)) as (i & j1 & j2 & E & Ed & E2 & R2); try done.
  { apply jhome_range in Hhome. lia. } { by apply Hu; auto. } { lia. }
  rewrite (bind_ok _ _ _ _ _ (journal_ok _ _ _ _ _ _ E)), (bind_ok _ _ _ _ _ (getdata_ok _ _ _ _)), Ed.
  pose proof (scan_spec (Z.to_nat BPB) (j_view x (BBLOCK b0 sb)) b0 0 (sb_size sb)) as Hs.
  destruct (scan _ b0 0 (sb_size sb) (Z.to_nat BPB)) as [r|].
  - destruct Hs as (Hr' & Hsz & Hcl & _). exfalso. fs_consts.
    specialize (Hall (b0 + r) ltac:(lia)). unfold used in Hall. fs_consts.
    replace ((b0 + r) / 4096) with (b0 / 4096) in Hall by lia.
    replace ((b0 + r) mod 4096) with r in Hall by lia. by rewrite <- Eb, Hcl in Hall.
  - rewrite (bind_ok _ _ _ _ _ (journal_ok _ _ _ _ _ _ E2)).
    apply (IH j2 x); try done; fs_consts; try lia. intros b Hb. apply Hall. lia.
Qed.

(** What allocation does to the bitmap and to the blocks. *)
Lemma used_allocated sb x b n :
  geometry sb -> (forall m, 0 <= m < jsize -> block_ok (j_view x m)) ->
  datastart sb <= b < sb_size sb -> 0 <= n < sb_size sb ->
  used sb (j_view (allocated sb b x)) n = if n =? b then true else used sb (j_view x) n.
Proof.
  intros G Hok Hb Hn. pose proof G as [G1 G2 G3 _]. unfold used, allocated, j_write.
  cbn [j_view]. unfold datastart in *. fs_consts. rewrite zset_ne by lia. unfold zset.
  destruct (Z.eqb_spec (n / 4096 + sb_bmapstart sb) (b / 4096 + sb_bmapstart sb)) as [E|E].
  - rewrite clear_set_bit; [|fs_consts; lia|lia|apply Hok; lia].
    replace (n / 4096 + sb_bmapstart sb) with (b / 4096 + sb_bmapstart sb) by lia.
    destruct (Z.eqb_spec (n mod 4096) (b mod 4096)), (Z.eqb_spec n b); try done; lia.
  - destruct (Z.eqb_spec n b) as [->|]; [lia|done].
Qed.

Lemma view_allocated sb x b n :
  n <> b -> n <> b / BPB + sb_bmapstart sb -> j_view (allocated sb b x) n = j_view x n.
Proof. intros H1 H2. unfold allocated, j_write. cbn [j_view]. by rewrite !zset_ne. Qed.

Lemma view_allocated_new sb x b : j_view (allocated sb b x) b = replicate (Z.to_nat BSIZE) 0.
Proof. apply zset_eq. Qed.

(** *** Freeing *)

Definition freed sb (b : Z) (x : ajournal) : ajournal :=
  j_write (b / BPB + sb_bmapstart sb)
    (clear_bit (b mod BPB) (j_view x (b / BPB + sb_bmapstart sb))) x.

Lemma readsb_ok j x sb sb0 ps :
  jrep j x -> unheld 1 x -> (length (j_logged x) + base.size (j_held x) < NBUF)%nat -> 2 <= jsize ->
  superblock_of (j_view x 1) = sb ->
  exists j', readsb ROOTDEV (MkFs j sb0 ps) = Ok tt (MkFs j' sb ps) /\ jrep j' x.
Proof.
  intros R Hu Hc Hs Esb. destruct (read_block j x 1) as (i & j1 & j2 & E & Ed & E2 & R2); try done; [lia|].
  exists j2. split; [|done]. unfold readsb.
  rewrite (bind_ok _ _ _ _ _ (journal_ok _ _ _ _ _ _ E)), (bind_ok _ _ _ _ _ (getdata_ok _ _ _ _)).
  rewrite (bind_ok _ _ _ _ _ (journal_ok _ _ _ _ _ _ E2)). rewrite Ed, Esb. done.
Qed.

Lemma bfree_run j x sb ps b :
  jrep j x -> geometry sb -> room 1 x -> bitmap_unheld sb x -> unheld 1 x ->
  superblock_of (j_view x 1) = sb -> 0 <= b < sb_size sb ->
  if used sb (j_view x) b
  then exists j', bfree ROOTDEV b (MkFs j sb ps) = Ok tt (MkFs j' sb ps) /\ jrep j' (freed sb b x)
  else bfree ROOTDEV b (MkFs j sb ps) = Panic "freeing free block".
Proof.
  intros R G [Hr1 Hr2] Hu Hu1 Esb Hb. destruct (bblock sb b G Hb) as (Eb & Hhome & Hd).
  assert (Hbm : sb_bmapstart sb <= BBLOCK b sb < sb_size sb).
  { destruct G as [G1 _ _ _]. rewrite Eb in *. fs_consts. lia. }
  destruct (readsb_ok j x sb sb ps) as (j0 & E0 & R0); try done; try lia.
  { apply jhome_range in Hhome. lia. }
  destruct (write_block j0 x (BBLOCK b sb)) as (i & j1 & E & Ed & Hw); try done; try lia; [by apply Hu; auto|].
  assert (Ebody : forall T (k : bool -> T), k (used sb (j_view x) b) =
            k (negb (Z.land (byte_at (j_view x (BBLOCK b sb)) (b mod BPB / 8)) (bit_mask (b mod BPB)) =? 0)))
    by (intros; unfold used, clear; by rewrite Eb).
  unfold bfree. rewrite (bind_ok _ _ _ _ _ E0), (bind_ok _ _ _ _ _ (get_ok _)). cbn [f_sb].
  rewrite (bind_ok _ _ _ _ _ (journal_ok _ _ _ _ _ _ E)), (bind_ok _ _ _ _ _ (getdata_ok _ _ _ _)), Ed.
  cbn zeta. rewrite (Ebody _ (fun u => if u then _ else _)).
  destruct (Z.land _ _ =? 0); cbn [negb]; [done|].
  destruct (Hw (clear_bit (b mod BPB) (j_view x (BBLOCK b sb)))) as (j2 & j3 & E2 & E3 & R3).
  { apply block_ok_clear_bit, (jview_ok j x); [done|]. apply jhome_range in Hhome. lia. }
  exists j3. split.
  - rewrite (bind_ok _ _ _ _ _ (modj_ok _ _ _ _ _)), Ed, (bind_ok _ _ _ _ _ (journal_ok _ _ _ _ _ _ E2)).
    by apply journal_ok.
  - unfold freed. by rewrite <- Eb.
Qed.

Lemma used_freed sb x b n :
  geometry sb -> (forall m, 0 <= m < jsize -> block_ok (j_view x m)) ->
  0 <= b < sb_size sb -> 0 <= n < sb_size sb ->
  used sb (j_view (freed sb b x)) n = if n =? b then false else used sb (j_view x) n.
Proof.
  intros G Hok Hb Hn. pose proof G as [G1 G2 G3 _]. unfold used, freed, j_write.
  cbn [j_view]. unfold datastart in *. fs_consts. unfold zset.
  destruct (Z.eqb_spec (n / 4096 + sb_bmapstart sb) (b / 4096 + sb_bmapstart sb)) as [E|E].
  - rewrite clear_clear_bit; [|fs_consts; lia|lia|apply Hok; lia].
    replace (n / 4096 + sb_bmapstart sb) with (b / 4096 + sb_bmapstart sb) by lia.
    destruct (Z.eqb_spec (n mod 4096) (b mod 4096)), (Z.eqb_spec n b); try done; lia.
  - destruct (Z.eqb_spec n b) as [->|]; [lia|done].
Qed.

End laws.
