(* ===== verification/FsFiles.v ===== *)
(** * File contents: [bmap], [readi] and [writei] of fs.c

    A file is a sequence of blocks reached through the twelve direct addresses
    and the indirect block.  [bmap] maps every block index to one block of its
    own, allocating on demand; [readi] and [writei] read and write the bytes of
    the file as one array. *)

From stdpp Require Import base numbers list gmap sets strings.
From Stdlib Require Import ZArith Lia.
From S2P Require Import Prelude CStrings Disk Blocks Log Journal Fs FsBlocks.

Open Scope Z_scope.

Definition zeros : block := replicate (Z.to_nat BSIZE) 0.

(** The address of block [bn] of a file, 0 when there is none. *)
Definition blk (v : Z -> block) (p : inode) (bn : Z) : Z :=
  if bn <? NDIRECT then addr p bn
  else if addr p NDIRECT =? 0 then 0
  else get32 (v (addr p NDIRECT)) (Z.to_nat (4 * (bn - NDIRECT))).

(** Its contents. *)
Definition file_block (v : Z -> block) (p : inode) (bn : Z) : block :=
  if blk v p bn =? 0 then zeros else v (blk v p bn).

(** A file as an array of bytes. *)
Definition file_byte (v : Z -> block) (p : inode) (o : Z) : Z :=
  byte_at (file_block v p (o / BSIZE)) (o mod BSIZE).

Definition file_bytes (v : Z -> block) (p : inode) (off : Z) (m : nat) : list Z :=
  (fun k => file_byte v p (off + Z.of_nat k)) <$> seq 0 m.

Lemma lookup_file_bytes v p off m k :
  file_bytes v p off m !! k = if decide (k < m)%nat then Some (file_byte v p (off + Z.of_nat k)) else None.
Proof.
  unfold file_bytes. rewrite list_lookup_fmap. case_decide.
  - by rewrite lookup_seq_lt.
  - by rewrite lookup_seq_ge by lia.
Qed.

Lemma length_file_bytes v p off m : length (file_bytes v p off m) = m.
Proof. unfold file_bytes. by rewrite length_fmap, length_seq. Qed.

Lemma file_bytes_app v p off m r :
  file_bytes v p off (m + r) = file_bytes v p off m ++ file_bytes v p (off + Z.of_nat m) r.
Proof.
  apply list_eq. intros k. rewrite lookup_file_bytes. destruct (decide (k < m)%nat).
  - rewrite lookup_app_l by (by rewrite length_file_bytes). rewrite lookup_file_bytes.
    by rewrite !decide_True by lia.
  - rewrite lookup_app_r, length_file_bytes, lookup_file_bytes by (rewrite length_file_bytes; lia).
    repeat case_decide; try lia; [|done]. do 2 f_equal. lia.
Qed.

(** A run of bytes within one block. *)
Lemma block_bytes v p off m a :
  blk v p (off / BSIZE) = a -> a <> 0 -> block_ok (v a) -> 0 <= off ->
  off mod BSIZE + Z.of_nat m <= BSIZE ->
  get_bytes (v a) (Z.to_nat (off mod BSIZE)) m = file_bytes v p off m.
Proof.
  intros Ea Hnz Hok Hoff Hm. apply list_eq. intros k. rewrite lookup_get_bytes, lookup_file_bytes.
  case_decide; [|done]. unfold file_byte, file_block. unfold block_ok in Hok. fs_consts.
  replace ((off + Z.of_nat k) / 512) with (off / 512) by lia.
  rewrite Ea, (proj2 (Z.eqb_neq a 0)) by done. unfold byte_at.
  replace (Z.to_nat ((off + Z.of_nat k) mod 512)) with (Z.to_nat (off mod 512) + k)%nat by lia.
  apply list_lookup_lookup_total_lt. lia.
Qed.

Lemma byte_at_put_bytes y o bs k :
  (o + length bs <= length y)%nat -> 0 <= k ->
  byte_at (put_bytes y o bs) k =
    if (Z.of_nat o <=? k) && (k <? Z.of_nat (o + length bs)) then bs !!! (Z.to_nat k - o)%nat else byte_at y k.
Proof.
  intros Hl Hk. unfold byte_at. rewrite !list_lookup_total_alt.
  destruct (Z.leb_spec (Z.of_nat o) k), (Z.ltb_spec k (Z.of_nat (o + length bs))); cbn [andb].
  1: { f_equal. unfold put_bytes.
       rewrite lookup_app_r, length_take, Nat.min_l by (rewrite ?length_take; lia).
       by rewrite lookup_app_l by lia. }
  all: by rewrite lookup_put_bytes_out by lia.
Qed.

Section files.
Context {J : Type} `{!Journal J, !JournalOk J, Htx : !InTx J}.
Context (sb : superblock) (G : geometry sb).
Implicit Types (j : J) (x : ajournal) (p : inode) (v : Z -> block) (ps : list inode).

Definition data_used v (a : Z) : Prop := datastart sb <= a < sb_size sb /\ used sb v a = true.

(** An inode whose blocks are its own. *)
Record ino_ok v p : Prop := {
  io_dev : i_dev p = ROOTDEV;
  io_addrs : length (i_addrs p) = 13%nat;
  io_ind : addr p NDIRECT <> 0 -> data_used v (addr p NDIRECT);
  io_blk : forall bn, 0 <= bn < MAXFILE -> blk v p bn <> 0 ->
    data_used v (blk v p bn) /\ blk v p bn <> addr p NDIRECT;
  io_inj : forall bn bn', 0 <= bn < MAXFILE -> 0 <= bn' < MAXFILE -> bn <> bn' ->
    blk v p bn <> 0 -> blk v p bn <> blk v p bn'
}.

(** Metadata that mapping blocks leaves alone. *)
Definition same_meta p p' : Prop :=
  i_dev p' = i_dev p /\ i_inum p' = i_inum p /\ i_ref p' = i_ref p /\ i_flags p' = i_flags p /\
  i_type p' = i_type p /\ i_major p' = i_major p /\ i_minor p' = i_minor p /\
  i_nlink p' = i_nlink p /\ i_size p' = i_size p.

#[local] Instance same_meta_preorder : PreOrder same_meta.
Proof.
  split; [intros p; unfold same_meta; by split_and!|].
  intros p1 p2 p3 (?&?&?&?&?&?&?&?&?) (?&?&?&?&?&?&?&?&?). unfold same_meta. split_and!; congruence.
Qed.

(** The free blocks. *)
Definition free_set v : gset Z := filter (fun b => used sb v b = false) (list_to_set (seqZ 0 (sb_size sb))).

Lemma elem_of_free v b : b ∈ free_set v <-> 0 <= b < sb_size sb /\ used sb v b = false.
Proof.
  unfold free_set. rewrite elem_of_filter, elem_of_list_to_set, elem_of_seqZ. rewrite Z.add_0_l. tauto.
Qed.

Lemma free_allocated x b :
  (forall m, 0 <= m < jsize -> block_ok (j_view x m)) -> datastart sb <= b < sb_size sb ->
  free_set (j_view (allocated sb b x)) = free_set (j_view x) ∖ {[b]}.
Proof.
  intros Hok Hb. apply set_eq. intros n. rewrite elem_of_difference, elem_of_singleton, !elem_of_free.
  split.
  - intros [Hn Hu]. rewrite used_allocated in Hu by done. destruct (Z.eqb_spec n b); done.
  - intros [[Hn Hu] Hne]. split; [done|]. rewrite used_allocated by done.
    by destruct (Z.eqb_spec n b).
Qed.

(** [balloc] takes a free data block or reports that there is none. *)
Lemma balloc_cases j x ps :
  jrep j x -> meta_used sb (j_view x) -> room 2 x -> bitmap_unheld sb x ->
  (exists b j', balloc ROOTDEV (MkFs j sb ps) = Ok b (MkFs j' sb ps) /\ jrep j' (allocated sb b x) /\
     datastart sb <= b < sb_size sb /\ used sb (j_view x) b = false) \/
  (balloc ROOTDEV (MkFs j sb ps) = Panic "balloc: out of blocks" /\ free_set (j_view x) = ∅).
Proof.
  intros R Hm Hr Hu. destruct (first_free sb (j_view x) (sb_size sb)) as [Hall|(b & Hb & Hf & Hmin)].
  - right. split.
    + unfold balloc. rewrite (bind_ok _ _ _ _ _ (get_ok _)). cbn [f_sb].
      apply (balloc_from_full _ j x); try done; [|fs_consts; lia].
      destruct Hr. split; lia.
    + apply set_eq. intros n. rewrite elem_of_free. split; [|set_solver].
      intros [Hn Hu']. by rewrite Hall in Hu'.
  - left. destruct (balloc_ok j x sb ps b) as (j' & E & R'); try done.
    exists b, j'. split_and!; try done; [by apply Hm|lia].
Qed.

Lemma datastart_pos : sb_bmapstart sb < datastart sb /\ 2 <= sb_bmapstart sb /\ sb_size sb < 2 ^ 32.
Proof. destruct G as [G1 G2 G3 _]. unfold datastart in *. fs_consts. lia. Qed.

(** Blocks in use, other than bitmap blocks, survive an allocation. *)
Lemma view_alloc_used x b n :
  used sb (j_view x) b = false -> 0 <= b < sb_size sb ->
  data_used (j_view x) n -> j_view (allocated sb b x) n = j_view x n.
Proof.
  intros Hf Hb [Hn Hu]. apply view_allocated; [congruence|]. unfold datastart in Hn. fs_consts. lia.
Qed.

Lemma used_mono x b n :
  (forall m, 0 <= m < jsize -> block_ok (j_view x m)) -> datastart sb <= b < sb_size sb ->
  data_used (j_view x) n -> data_used (j_view (allocated sb b x)) n.
Proof.
  intros Hok Hb [Hn Hu]. split; [done|]. pose proof datastart_pos.
  rewrite used_allocated by (done || lia). by destruct (n =? b).
Qed.

Lemma addr_set k a p n : 0 <= k < 13 -> 0 <= n -> length (i_addrs p) = 13%nat ->
  addr (set_addr (Z.to_nat k) a p) n = if n =? k then a else addr p n.
Proof.
  intros Hk Hn Hl. unfold addr, set_addr. cbn [i_addrs]. destruct (Z.eqb_spec n k) as [->|].
  - apply list_lookup_total_insert_eq. lia.
  - apply list_lookup_total_insert_ne. lia.
Qed.

Lemma get32_zeros o : (o + 4 <= 512)%nat -> get32 zeros o = 0.
Proof.
  intros H. unfold get32, get_bytes, zeros. rewrite drop_replicate, take_replicate.
  change (Z.to_nat BSIZE) with 512%nat. by rewrite Nat.min_l by lia.
Qed.

(** A file that gains block [b] at index [bn]. *)
Lemma ino_ok_extend v p v' p' bn b :
  ino_ok v p -> 0 <= bn < MAXFILE -> blk v p bn = 0 ->
  i_dev p' = i_dev p -> length (i_addrs p') = 13%nat -> addr p' NDIRECT = addr p NDIRECT ->
  datastart sb <= b < sb_size sb -> used sb v b = false -> used sb v' b = true ->
  (forall n, data_used v n -> data_used v' n) ->
  (forall bn', 0 <= bn' < MAXFILE -> blk v' p' bn' = if bn' =? bn then b else blk v p bn') ->
  ino_ok v' p'.
Proof.
  intros [I1 I2 I3 I4 I5] Hbn H0 Hd Hl Ha Hb Hf Hu Hmono Hblk. pose proof datastart_pos as Hds.
  assert (Hnew : forall n, data_used v n -> n <> b) by (intros n [_ Hn] ->; congruence).
  split; [congruence|done|rewrite Ha; auto| |].
  - intros n Hn. rewrite Hblk, Ha by done. destruct (Z.eqb_spec n bn) as [->|Hne]; intros Hnz.
    + split; [done|]. intros E. rewrite <- E in I3. destruct I3 as [_ I3]; [lia|congruence].
    + destruct (I4 n Hn Hnz). auto.
  - intros n n' Hn Hn' Hne. rewrite !Hblk by done.
    destruct (Z.eqb_spec n bn) as [->|H1], (Z.eqb_spec n' bn) as [->|H2]; intros Hnz; try done.
    + destruct (decide (blk v p n' = 0)) as [->|Hz]; [done|].
      destruct (I4 n' Hn' Hz) as [Hdu _]. intros E. by apply (Hnew _ Hdu).
    + destruct (I4 n Hn Hnz) as [Hdu _]. by apply Hnew.
    + by apply I5.
Qed.

(** What mapping a block leaves alone: the contents of this file, every block
    in use other than the indirect block, and the blocks before the bitmap.
    At most [k] blocks are logged and [f] taken from the free ones. *)
Record mapped (k f : nat) x p x' p' : Prop := {
  mp_ok : ino_ok (j_view x') p';
  mp_meta : same_meta p p';
  mp_used : meta_used sb (j_view x');
  mp_held : j_held x' = j_held x;
  mp_dirty : j_dirty x' = j_dirty x;
  mp_logged : (length (j_logged x') <= length (j_logged x) + k)%nat;
  mp_data : forall n, data_used (j_view x) n -> data_used (j_view x') n;
  mp_file : forall bn, 0 <= bn < MAXFILE -> file_block (j_view x') p' bn = file_block (j_view x) p bn;
  mp_blk : forall bn, 0 <= bn < MAXFILE -> blk (j_view x) p bn <> 0 ->
    blk (j_view x') p' bn = blk (j_view x) p bn;
  mp_free : (base.size (free_set (j_view x)) <= base.size (free_set (j_view x')) + f)%nat;
  mp_frame : forall n, n < sb_bmapstart sb \/ (data_used (j_view x) n /\ n <> addr p NDIRECT) ->
    j_view x' n = j_view x n;
  mp_new : forall bn, 0 <= bn < MAXFILE ->
    blk (j_view x') p' bn = blk (j_view x) p bn \/ used sb (j_view x) (blk (j_view x') p' bn) = false;
  mp_newind : addr p' NDIRECT = addr p NDIRECT \/ used sb (j_view x) (addr p' NDIRECT) = false
}.

Lemma meta_used_alloc x b :
  (forall m, 0 <= m < jsize -> block_ok (j_view x m)) -> datastart sb <= b < sb_size sb ->
  meta_used sb (j_view x) -> meta_used sb (j_view (allocated sb b x)).
Proof.
  intros Hok Hb Hm n Hn. rewrite used_allocated by done.
  destruct (Z.eqb_spec n b); [done|]. by apply Hm.
Qed.

Lemma free_size x b :
  (forall m, 0 <= m < jsize -> block_ok (j_view x m)) -> datastart sb <= b < sb_size sb ->
  (base.size (free_set (j_view x)) <= base.size (free_set (j_view (allocated sb b x))) + 1)%nat.
Proof.
  intros Hok Hb. rewrite free_allocated by done.
  pose proof (size_union_alt {[b]} (free_set (j_view x))) as Hs. rewrite size_singleton in Hs.
  pose proof (subseteq_size (free_set (j_view x)) ({[b]} ∪ free_set (j_view x)) ltac:(set_solver)). lia.
Qed.

Lemma alloc_logged x b : (length (j_logged (allocated sb b x)) <= length (j_logged x) + 2)%nat.
Proof.
  unfold allocated, j_write. cbn [j_logged].
  pose proof (add_logged_length b (add_logged (b / BPB + sb_bmapstart sb) (j_logged x))).
  pose proof (add_logged_length (b / BPB + sb_bmapstart sb) (j_logged x)). lia.
Qed.

(** A direct address. *)
Lemma mapped_direct j x p bn b :
  jrep j x -> meta_used sb (j_view x) -> ino_ok (j_view x) p -> 0 <= bn < NDIRECT -> addr p bn = 0 ->
  datastart sb <= b < sb_size sb -> used sb (j_view x) b = false ->
  mapped 2 1 x p (allocated sb b x) (set_addr (Z.to_nat bn) b p) /\
  blk (j_view (allocated sb b x)) (set_addr (Z.to_nat bn) b p) bn = b.
Proof.
  intros R Hm I Hbn Ha Hb Hf. pose proof datastart_pos as Hds. pose proof I as [I1 I2 I3 I4 I5].
  assert (Hok : forall m, 0 <= m < jsize -> block_ok (j_view x m)) by (intros; by apply (jview_ok j)).
  set (p' := set_addr (Z.to_nat bn) b p). set (v := j_view x) in *. set (v' := j_view (allocated sb b x)).
  assert (Hind : addr p' NDIRECT = addr p NDIRECT).
  { unfold p'. fs_consts. rewrite addr_set by lia. by destruct (Z.eqb_spec 12 bn); [lia|]. }
  assert (Hblk : forall bn', 0 <= bn' < MAXFILE -> blk v' p' bn' = if bn' =? bn then b else blk v p bn').
  { intros n Hn. unfold blk. rewrite Hind. fs_consts. destruct (Z.ltb_spec n 12) as [Hlt|Hge].
    - unfold p'. apply addr_set; lia.
    - destruct (Z.eqb_spec n bn); [lia|]. destruct (Z.eqb_spec (addr p 12) 0); [done|].
      unfold v'. rewrite view_alloc_used; [done|done|lia|by apply I3]. }
  assert (Hbn0 : blk v p bn = 0) by (unfold blk; rewrite (proj2 (Z.ltb_lt _ _)) by lia; done).
  assert (Hmono : forall n, data_used v n -> data_used v' n) by (intros; by apply used_mono).
  assert (Hmf : 0 <= bn < MAXFILE) by (fs_consts; lia).
  split; [|by rewrite Hblk, Z.eqb_refl].
  split; try done.
  - apply (ino_ok_extend v p v' p' bn b); try done.
    + cbn. by rewrite length_insert.
    + unfold v'. rewrite used_allocated by (done || lia). by rewrite Z.eqb_refl.
  - by apply meta_used_alloc.
  - pose proof (alloc_logged x b). lia.
  - intros n Hn. change (file_block v' p' n = file_block v p n). unfold file_block. rewrite Hblk by done. destruct (Z.eqb_spec n bn) as [->|Hne].
    + rewrite Hbn0. cbn. destruct (Z.eqb_spec b 0); [lia|]. apply view_allocated_new.
    + destruct (Z.eqb_spec (blk v p n) 0); [done|]. apply view_alloc_used; [done|lia|by apply I4].
  - intros n Hn. change (blk v p n <> 0 -> blk v' p' n = blk v p n). rewrite Hblk by done. destruct (Z.eqb_spec n bn) as [->|]; done.
  - pose proof (free_size x b Hok Hb). lia.
  - intros n [Hn|[Hn _]]; [|by apply view_alloc_used; [|lia|]].
    apply view_allocated; [lia|]. fs_consts. lia.
  - intros n Hn. change (blk v' p' n = blk v p n \/ used sb v (blk v' p' n) = false).
    rewrite Hblk by done. destruct (n =? bn); [by right|by left].
  - by left.
Qed.

Lemma mapped_refl x p : meta_used sb (j_view x) -> ino_ok (j_view x) p -> mapped 0 0 x p x p.
Proof. intros Hm I. split; try done; try lia; by left. Qed.

(** New blocks of the second step were free before the first. *)
Lemma unused_before (v v1 : Z -> block) a :
  (forall n, data_used v n -> data_used v1 n) -> datastart sb <= a < sb_size sb ->
  used sb v1 a = false -> used sb v a = false.
Proof.
  intros Hm Ha Hu. destruct (used sb v a) eqn:E; [|done].
  destruct (Hm a) as [_ Hu']; [done|congruence].
Qed.

Lemma mapped_trans k f k' f' x p x1 p1 x2 p2 :
  mapped k f x p x1 p1 -> mapped k' f' x1 p1 x2 p2 -> mapped (k + k') (f + f') x p x2 p2.
Proof.
  intros [A1 A2 A3 A4 A5 A6 A7 A8 A9 A10 A11 A12 A13] [B1 B2 B3 B4 B5 B6 B7 B8 B9 B10 B11 B12 B13].
  pose proof datastart_pos as Hds.
  split; try done; try congruence; try lia.
  - by etrans.
  - auto.
  - intros bn Hbn. rewrite B8 by done. by apply A8.
  - intros bn Hbn Hnz. rewrite B9 by (rewrite ?A9; done). by apply A9.
  - intros n Hn. rewrite <- (A11 n Hn). apply B11. destruct Hn as [Hn|[Hn Hne]]; [by left|right].
    split; [by apply A7|]. intros E. destruct A13 as [E'|Hu]; [congruence|].
    destruct Hn as [_ Hn]. congruence.
  - intros bn Hbn. destruct (B12 bn Hbn) as [E|Hu]; [rewrite E; by apply A12|].
    destruct (decide (blk (j_view x2) p2 bn = 0)) as [Hz|Hz].
    + left. rewrite Hz. destruct (decide (blk (j_view x) p bn = 0)) as [|Hz']; [done|].
      exfalso. apply Hz'. rewrite <- (A9 bn), <- (B9 bn) by (rewrite ?A9; done). done.
    + right. apply (unused_before _ (j_view x1)); try done. by apply (io_blk _ _ B1).
  - destruct B13 as [E|Hu]; [by rewrite E|].
    destruct (decide (addr p2 NDIRECT = 0)) as [Hz|Hz].
    + exfalso. rewrite Hz in Hu. pose proof (geo_size _ G). apply A3 in Hu; lia.
    + right. apply (unused_before _ (j_view x1)); try done. by apply (io_ind _ _ B1).
Qed.

(** The indirect block itself. *)
Lemma mapped_indirect j x p b :
  jrep j x -> meta_used sb (j_view x) -> ino_ok (j_view x) p -> addr p NDIRECT = 0 ->
  datastart sb <= b < sb_size sb -> used sb (j_view x) b = false ->
  mapped 2 1 x p (allocated sb b x) (set_addr (Z.to_nat NDIRECT) b p) /\
  addr (set_addr (Z.to_nat NDIRECT) b p) NDIRECT = b.
Proof.
  intros R Hm I Ha Hb Hf. pose proof datastart_pos as Hds. pose proof I as [I1 I2 I3 I4 I5].
  assert (Hok : forall m, 0 <= m < jsize -> block_ok (j_view x m)) by (intros; by apply (jview_ok j)).
  set (p' := set_addr (Z.to_nat NDIRECT) b p).
  assert (Hind : addr p' NDIRECT = b) by (unfold p'; fs_consts; by rewrite addr_set by lia).
  assert (Hblk : forall bn, 0 <= bn < MAXFILE ->
            blk (j_view (allocated sb b x)) p' bn = blk (j_view x) p bn).
  { intros n Hn. unfold blk. rewrite Hind, Ha. fs_consts. destruct (Z.ltb_spec n 12) as [Hlt|Hge].
    - unfold p'. fs_consts. rewrite addr_set by lia. by destruct (Z.eqb_spec n 12); [lia|].
    - destruct (Z.eqb_spec b 0); [lia|]. cbn match. rewrite view_allocated_new.
      change (0 =? 0) with true. cbn match. apply get32_zeros. lia. }
  assert (Hmono : forall n, data_used (j_view x) n -> data_used (j_view (allocated sb b x)) n)
    by (intros; by apply used_mono).
  assert (Hbd : data_used (j_view (allocated sb b x)) b)
    by (split; [done|]; rewrite used_allocated by (done || lia); by rewrite Z.eqb_refl).
  split; [|done]. split; try done.
  - split; [done|cbn; by rewrite length_insert|by rewrite Hind| |].
    + intros n Hn. rewrite Hblk, Hind by done. intros Hnz. destruct (I4 n Hn Hnz) as [Hdu _].
      split; [auto|]. intros E. rewrite E in Hdu. destruct Hdu. congruence.
    + intros n n' Hn Hn'. rewrite !Hblk by done. by apply I5.
  - by apply meta_used_alloc.
  - apply alloc_logged.
  - intros n Hn. unfold file_block. rewrite !Hblk by done.
    destruct (Z.eqb_spec (blk (j_view x) p n) 0); [done|]. apply view_alloc_used; [done|lia|by apply I4].
  - intros n Hn _. by apply Hblk.
  - by apply free_size.
  - intros n [Hn|[Hn _]]; [|by apply view_alloc_used; [|lia|]].
    apply view_allocated; [lia|]. fs_consts. lia.
  - intros n Hn. left. by apply Hblk.
  - right. by rewrite Hind.
Qed.

(** An entry of the indirect block. *)
Definition set_entry (ind k a : Z) (x : ajournal) : ajournal :=
  j_write ind (put32 (j_view x ind) (Z.to_nat (4 * k)) a) x.

Lemma mapped_entry j x p bn b :
  jrep j x -> meta_used sb (j_view x) -> ino_ok (j_view x) p -> NDIRECT <= bn < MAXFILE ->
  addr p NDIRECT <> 0 -> blk (j_view x) p bn = 0 ->
  datastart sb <= b < sb_size sb -> used sb (j_view x) b = false ->
  let x' := set_entry (addr p NDIRECT) (bn - NDIRECT) b (allocated sb b x) in
  mapped 3 1 x p x' p /\ blk (j_view x') p bn = b.
Proof.
  intros R Hm I Hbn Ha H0 Hb Hf x'. pose proof datastart_pos as Hds. pose proof I as [I1 I2 I3 I4 I5].
  assert (Hok : forall m, 0 <= m < jsize -> block_ok (j_view x m)) by (intros; by apply (jview_ok j)).
  set (ind := addr p NDIRECT) in *. specialize (I3 Ha) as Hind. pose proof Hind as [Hir Hiu].
  assert (Hib : ind <> b) by congruence.
  assert (Hvi : j_view (allocated sb b x) ind = j_view x ind) by (apply view_alloc_used; [done|lia|done]).
  assert (Hv' : forall n, n <> ind -> j_view x' n = j_view (allocated sb b x) n)
    by (intros n Hn; unfold x', set_entry, j_write; cbn [j_view]; by apply zset_ne).
  assert (Hvi' : j_view x' ind = put32 (j_view x ind) (Z.to_nat (4 * (bn - NDIRECT))) b)
    by (unfold x', set_entry, j_write; cbn [j_view]; by rewrite zset_eq, Hvi).
  assert (Hused : forall n, 0 <= n < sb_size sb ->
            used sb (j_view x') n = used sb (j_view (allocated sb b x)) n).
  { intros n Hn. unfold used. rewrite Hv'; [done|]. unfold datastart in Hir. fs_consts. lia. }
  assert (Hmono : forall n, data_used (j_view x) n -> data_used (j_view x') n).
  { intros n Hn. destruct (used_mono x b n Hok Hb Hn) as [? Hu]. split; [done|]. by rewrite Hused by lia. }
  assert (Hblk : forall n, 0 <= n < MAXFILE -> blk (j_view x') p n = if n =? bn then b else blk (j_view x) p n).
  { intros n Hn. unfold blk. fs_consts. change (addr p 12) with ind.
    destruct (Z.ltb_spec n 12) as [Hlt|Hge].
    - by destruct (Z.eqb_spec n bn); [lia|].
    - destruct (Z.eqb_spec ind 0); [done|]. rewrite Hvi'.
      pose proof (Hok ind ltac:(destruct G; lia)) as Hli. unfold block_ok in Hli. fs_consts.
      destruct (Z.eqb_spec n bn) as [->|].
      + rewrite get32_put32_eq by lia. apply u32_small. lia.
      + apply get32_put32_ne; lia. }
  assert (Hmf : 0 <= bn < MAXFILE) by (fs_consts; lia).
  split; [|by rewrite Hblk, Z.eqb_refl]. split; try done.
  - apply (ino_ok_extend (j_view x) p (j_view x') p bn b); try done.
    rewrite Hused, used_allocated by (done || lia). by rewrite Z.eqb_refl.
  - intros n Hn. rewrite Hused by done. by apply meta_used_alloc.
  - unfold x', set_entry, j_write. cbn [j_logged].
    pose proof (add_logged_length ind (j_logged (allocated sb b x))). pose proof (alloc_logged x b). lia.
  - intros n Hn. unfold file_block. rewrite Hblk by done. destruct (Z.eqb_spec n bn) as [->|Hne].
    + rewrite H0. change (0 =? 0) with true. cbn match. destruct (Z.eqb_spec b 0); [lia|]. rewrite Hv' by done. apply view_allocated_new.
    + destruct (Z.eqb_spec (blk (j_view x) p n) 0); [done|]. destruct (I4 n Hn) as [Hdu Hni]; [done|].
      rewrite Hv' by done. apply view_alloc_used; [done|lia|done].
  - intros n Hn. rewrite Hblk by done. by destruct (Z.eqb_spec n bn) as [->|].
  - pose proof (free_size x b Hok Hb) as Hfs.
    replace (free_set (j_view x')) with (free_set (j_view (allocated sb b x))); [done|].
    apply set_eq. intros n. rewrite !elem_of_free. split; intros [Hn Hu]; (split; [done|]).
    + by rewrite Hused. + by rewrite <- Hused.
  - intros n Hn. assert (Hni : n <> ind) by (destruct Hn as [Hn|[_ Hn]]; [lia|done]).
    rewrite Hv' by done. destruct Hn as [Hn|[Hn _]]; [|by apply view_alloc_used; [|lia|]].
    apply view_allocated; [lia|]. fs_consts. lia.
  - intros n Hn. rewrite Hblk by done. destruct (n =? bn); [by right|by left].
  - by left.
Qed.

(** A call returns with [Q], or panics for lack of free blocks, of which there
    were fewer than [f]. *)
Definition ok_or_full {A} (o : outcome (fs J) A) (f : nat) (v : Z -> block) (Q : A -> fs J -> Prop) : Prop :=
  match o with
  | Ok a s => Q a s
  | Panic msg => msg = "balloc: out of blocks"%string /\ (base.size (free_set v) < f)%nat
  | _ => False
  end.

Lemma ok_or_full_bind {A B} (m : M (fs J) A) (k : A -> M (fs J) B) s f v Q Q' :
  ok_or_full (m s) f v Q -> (forall a s', Q a s' -> ok_or_full (k a s') f v Q') ->
  ok_or_full ((m ≫= k) s) f v Q'.
Proof. unfold mbind, M_bind, ok_or_full. intros H1 H2. destruct (m s); try done. by apply H2. Qed.

Lemma ok_or_full_weaken {A} (o : outcome (fs J) A) f v f' v' (Q : A -> fs J -> Prop) :
  ok_or_full o f v Q ->
  (base.size (free_set v') + f <= base.size (free_set v) + f')%nat -> ok_or_full o f' v' Q.
Proof. unfold ok_or_full. destruct o; try done. intros [? ?] ?. split; [done|lia]. Qed.

Lemma alter_insert (g : inode -> inode) i ps :
  (i < length ps)%nat -> alter g i ps = <[i := g (ps !!! i)]> ps.
Proof.
  intros Hi. apply list_eq. intros k. rewrite list_lookup_alter, list_lookup_insert.
  destruct (decide (i = k)) as [<-|Hne].
  - rewrite list_lookup_lookup_total_lt by done. cbn. by rewrite decide_True by done.
  - rewrite decide_False by (intros [? _]; done). done.
Qed.

Lemma modi_ok i g j ps :
  (i < length ps)%nat -> modi i g (MkFs j sb ps) = Ok tt (MkFs j sb (<[i := g (ps !!! i)]> ps)).
Proof. intros Hi. unfold modi, modify. cbn. by rewrite alter_insert. Qed.

Lemma inode_of_ok i j ps : inode_of i (MkFs j sb ps) = Ok (ps !!! i) (MkFs j sb ps).
Proof. done. Qed.

Lemma balloc_run j x ps :
  jrep j x -> meta_used sb (j_view x) -> room 2 x -> bitmap_unheld sb x ->
  ok_or_full (balloc ROOTDEV (MkFs j sb ps)) 1 (j_view x) (fun b s =>
    exists j', s = MkFs j' sb ps /\ jrep j' (allocated sb b x) /\
      datastart sb <= b < sb_size sb /\ used sb (j_view x) b = false).
Proof.
  intros R Hm Hr Hu. destruct (balloc_cases j x ps R Hm Hr Hu) as [(b & j' & -> & R' & Hb & Hf)|[-> Hf]].
  - cbn. by exists j'.
  - cbn. split; [done|]. rewrite Hf, size_empty. lia.
Qed.

(** The second half of [bmap]: block [bn] through the indirect block. *)
Lemma bmap_entry j x ps p bn :
  jrep j x -> meta_used sb (j_view x) -> j_held x = ∅ -> room 3 x ->
  ino_ok (j_view x) p -> NDIRECT <= bn < MAXFILE -> addr p NDIRECT <> 0 ->
  ok_or_full
    ((bp ← journal (jbread ROOTDEV (addr p NDIRECT));
      y ← getdata bp;
      let a := get32 y (Z.to_nat (4 * (bn - NDIRECT))) in
      if a =? 0 then
        a ← balloc ROOTDEV;
        modj bp (fun y => put32 y (Z.to_nat (4 * (bn - NDIRECT))) a);;
        journal (jlog_write bp);;
        journal (jbrelse bp);;
        mret a
      else
        journal (jbrelse bp);;
        mret a) (MkFs j sb ps)) 1 (j_view x)
    (fun a s => exists j' x', s = MkFs j' sb ps /\ jrep j' x' /\ mapped 3 1 x p x' p /\
       a <> 0 /\ blk (j_view x') p bn = a).
Proof.
  intros R Hm Hh [Hr1 Hr2] I Hbn Ha. set (ind := addr p NDIRECT) in *.
  assert (Hdu : data_used (j_view x) ind) by apply (io_ind _ _ I Ha).
  pose proof Hdu as [Hir Hiu]. pose proof datastart_pos as Hds.
  assert (Hhome : jhome ind) by (apply (geo_home _ G); destruct G as [_ _ G3 _]; fs_consts; lia).
  pose proof (jhome_range ind Hhome) as Hin.
  destruct (jbread_ok j x ind R) as (bp & j1 & E & Hbp & Hbd & R1); [lia|by apply unheld_empty|lia|].
  set (x1 := j_hold bp ind x) in *.
  assert (Hh1 : j_held x1 !! bp = Some ind) by apply lookup_insert_eq.
  assert (Ed : jdata j1 bp = j_view x ind) by apply (jdata_ok j1 x1 bp ind R1 Hh1).
  rewrite (bind_ok _ _ _ _ _ (journal_ok _ _ _ _ _ _ E)), (bind_ok _ _ _ _ _ (getdata_ok _ _ _ _)), Ed.
  assert (Eblk : blk (j_view x) p bn = get32 (j_view x ind) (Z.to_nat (4 * (bn - NDIRECT)))).
  { unfold blk. fold ind. rewrite (proj2 (Z.ltb_ge _ _)), (proj2 (Z.eqb_neq _ _)) by (done || lia). done. }
  cbn zeta. rewrite <- Eblk. destruct (Z.eqb_spec (blk (j_view x) p bn) 0) as [H0|H0].
  - eapply ok_or_full_bind.
    { apply (balloc_run j1 x1 ps R1 Hm).
      - split; [cbn; lia|]. cbn [x1 j_hold j_logged j_held]. unfold x1, j_hold. cbn. rewrite Hh.
        rewrite map_size_insert_None, map_size_empty by done. lia.
      - intros n Hn Hcase. unfold unheld, x1, j_hold. cbn [j_held]. rewrite Hh, insert_empty, map_img_singleton.
        intros ->%elem_of_singleton. destruct Hcase as [?|Hc]; [lia|].
        change (used sb (j_view x) ind = false) in Hc. congruence. }
    intros b s (j2 & -> & R2 & Hb & Hf). cbn [j_view x1 j_hold] in Hf.
    set (x2 := allocated sb b x1) in *.
    assert (Hh2 : j_held x2 !! bp = Some ind) by done.
    assert (Evi : j_view x2 ind = j_view x ind)
      by (apply (view_alloc_used x1 b ind); [done|lia|done]).
    assert (Ed2 : jdata j2 bp = j_view x ind) by (by rewrite (jdata_ok j2 x2 bp ind R2 Hh2)).
    rewrite (bind_ok _ _ _ _ _ (modj_ok _ _ _ _ _)), Ed2.
    set (y := put32 _ _ b).
    assert (Hy : block_ok y).
    { pose proof (jview_ok j x ind R ltac:(lia)) as Hli. unfold y, block_ok in *. fs_consts.
      rewrite length_put32; lia. }
    pose proof (jset_ok j2 x2 bp ind y R2 Hh2 Hy) as R3.
    destruct (jlog_write_ok _ _ bp ind Htx R3 Hh2 Hhome) as (j4 & E4 & R4).
    { pose proof (alloc_logged x1 b) as Hl. cbn [j_store j_logged]. fold x2 in Hl. cbn [x1 j_hold j_logged] in Hl. lia. }
    destruct (jbrelse_ok j4 _ bp ind R4 Hh2) as (j5 & E5 & R5); [cbn; set_solver|].
    rewrite (bind_ok _ _ _ _ _ (journal_ok _ _ _ _ _ _ E4)), (bind_ok _ _ _ _ _ (journal_ok _ _ _ _ _ _ E5)).
    destruct (mapped_entry j x p bn b) as [Hmap Hblk]; try done.
    exists j5, (set_entry ind (bn - NDIRECT) b (allocated sb b x)). split_and!; try done; [|lia].
    revert R5. unfold set_entry. fold ind in Hmap. rewrite (view_alloc_used x b ind) by (done || lia). fold y.
    unfold x2, x1, j_release, j_log, j_store, j_hold, allocated, j_write. cbn [j_view j_held j_dirty j_logged].
    rewrite delete_insert_id by done.
    by replace (({[bp]} ∪ j_dirty x) ∖ {[bp]}) with (j_dirty x) by set_solver.
  - destruct (jbrelse_ok j1 x1 bp ind R1 Hh1 Hbd) as (j2 & E2 & R2).
    rewrite (bind_ok _ _ _ _ _ (journal_ok _ _ _ _ _ _ E2)). exists j2, x. split_and!; try done.
    + revert R2. unfold x1, j_release, j_hold. cbn. rewrite delete_insert_id by done. by destruct x.
    + destruct (mapped_refl x p Hm I) as [A1 A2 A3 A4 A5 A6 A7 A8 A9 A10 A11 A12 A13]. split; try done; lia.
Qed.

Lemma mapped_weaken k f k' f' x p x' p' :
  mapped k f x p x' p' -> (k <= k')%nat -> (f <= f')%nat -> mapped k' f' x p x' p'.
Proof. intros [A1 A2 A3 A4 A5 A6 A7 A8 A9 A10 A11 A12 A13] Hk Hf. split; try done; lia. Qed.

(** [bmap] returns the file's block [bn], mapping it if need be. *)
Lemma bmap_ok j x ps i bn :
  jrep j x -> meta_used sb (j_view x) -> j_held x = ∅ -> room 5 x -> (i < length ps)%nat ->
  ino_ok (j_view x) (ps !!! i) -> 0 <= bn < MAXFILE ->
  ok_or_full (bmap i bn (MkFs j sb ps)) 2 (j_view x) (fun a s =>
    exists j' x' p', s = MkFs j' sb (<[i := p']> ps) /\ jrep j' x' /\
      mapped 5 2 x (ps !!! i) x' p' /\ a <> 0 /\ blk (j_view x') p' bn = a).
Proof.
  intros R Hm Hh Hr Hi I Hbn. pose proof datastart_pos as Hds. pose proof Hr as [Hr1 Hr2].
  set (p := ps !!! i) in *.
  assert (Hdev : i_dev p = ROOTDEV) by apply (io_dev _ _ I).
  assert (Hid : <[i := p]> ps = ps) by (apply list_insert_id, list_lookup_lookup_total_lt; done).
  assert (Hu : bitmap_unheld sb x) by (intros n _ _; by apply unheld_empty).
  assert (Hr' : room 2 x) by (split; lia).
  unfold bmap. rewrite (bind_ok _ _ _ _ _ (inode_of_ok _ _ _)). fold p.
  destruct (Z.ltb_spec bn NDIRECT) as [Hlt|Hge].
  - destruct (Z.eqb_spec (addr p bn) 0) as [H0|H0].
    + rewrite Hdev. eapply ok_or_full_bind.
      { eapply ok_or_full_weaken; [by apply (balloc_run j x)|lia]. }
      intros b s (j' & -> & R' & Hb & Hf). rewrite (bind_ok _ _ _ _ _ (modi_ok _ _ _ _ Hi)).
      destruct (mapped_direct j x p bn b) as [Hmap Hblk]; try done; try lia.
      hnf. eexists _, _, _. split_and!; [done|exact R'|by eapply mapped_weaken; [exact Hmap|lia|lia]|lia|done].
    + hnf. exists j, x, p. rewrite Hid. split_and!; try done.
      * eapply mapped_weaken; [by apply mapped_refl|lia|lia].
      * unfold blk. by rewrite (proj2 (Z.ltb_lt _ _)).
  - cbn zeta. rewrite (proj2 (Z.ltb_lt (bn - NDIRECT) NINDIRECT)) by (fs_consts; lia). rewrite Hdev.
    eapply (ok_or_full_bind _ _ _ _ _ (fun ind s => exists j1 x1 p1, s = MkFs j1 sb (<[i := p1]> ps) /\
        jrep j1 x1 /\ mapped 2 1 x p x1 p1 /\ ind = addr p1 NDIRECT /\ ind <> 0)).
    { destruct (Z.eqb_spec (addr p NDIRECT) 0) as [H0|H0].
      - eapply ok_or_full_bind.
        { eapply ok_or_full_weaken; [by apply (balloc_run j x)|lia]. }
        intros b s (j' & -> & R' & Hb & Hf). rewrite (bind_ok _ _ _ _ _ (modi_ok _ _ _ _ Hi)).
        destruct (mapped_indirect j x p b) as [Hmap Ha]; try done.
        hnf. eexists _, _, _. split_and!; [done|exact R'|exact Hmap|done|lia].
      - hnf. exists j, x, p. rewrite Hid. split_and!; try done.
        eapply mapped_weaken; [by apply mapped_refl|lia|lia]. }
    intros ind s (j1 & x1 & p1 & -> & R1 & Hmap & -> & Hnz).
    pose proof (mp_logged _ _ _ _ _ _ Hmap) as Hlg. pose proof (mp_free _ _ _ _ _ _ Hmap) as Hfr.
    assert (Hp1 : i_dev p1 = ROOTDEV) by (destruct (mp_meta _ _ _ _ _ _ Hmap) as [-> _]; done).
    eapply ok_or_full_weaken with (f := 1%nat) (v := j_view x1); [|lia].
    assert (Hcond : ok_or_full
      ((bp ← journal (jbread ROOTDEV (addr p1 NDIRECT));
        y ← getdata bp;
        let a := get32 y (Z.to_nat (4 * (bn - NDIRECT))) in
        if a =? 0 then
          a ← balloc ROOTDEV;
          modj bp (fun y => put32 y (Z.to_nat (4 * (bn - NDIRECT))) a);;
          journal (jlog_write bp);; journal (jbrelse bp);; mret a
        else journal (jbrelse bp);; mret a) (MkFs j1 sb (<[i := p1]> ps))) 1 (j_view x1)
      (fun a s => exists j' x', s = MkFs j' sb (<[i := p1]> ps) /\ jrep j' x' /\
         mapped 3 1 x1 p1 x' p1 /\ a <> 0 /\ blk (j_view x') p1 bn = a)).
    { apply bmap_entry; try done; try lia; [apply Hmap|by rewrite (mp_held _ _ _ _ _ _ Hmap)| |apply Hmap].
      split; rewrite ?(mp_held _ _ _ _ _ _ Hmap); lia. }
    revert Hcond. unfold ok_or_full. case_match; try done.
    intros (j' & x' & -> & R' & Hmap' & Hnz' & Hblk). exists j', x', p1. split_and!; try done.
    by apply (mapped_trans 2 1 3 1 x p x1 p1 x' p1).
Qed.

(** *** Reading *)

(** On a mapped block [bmap] only looks. *)
Lemma bmap_mapped j x ps i bn :
  jrep j x -> j_held x = ∅ -> (length (j_logged x) < NBUF)%nat ->
  ino_ok (j_view x) (ps !!! i) -> 0 <= bn < MAXFILE -> blk (j_view x) (ps !!! i) bn <> 0 ->
  exists j', bmap i bn (MkFs j sb ps) = Ok (blk (j_view x) (ps !!! i) bn) (MkFs j' sb ps) /\ jrep j' x.
Proof.
  intros R Hh Hc I Hbn Hnz. set (p := ps !!! i) in *. unfold bmap.
  rewrite (bind_ok _ _ _ _ _ (inode_of_ok _ _ _)). fold p.
  unfold blk in *. destruct (Z.ltb_spec bn NDIRECT) as [Hlt|Hge].
  - rewrite (proj2 (Z.eqb_neq _ _)) by done. by exists j.
  - cbn zeta. rewrite (proj2 (Z.ltb_lt (bn - NDIRECT) NINDIRECT)) by (fs_consts; lia).
    destruct (Z.eqb_spec (addr p NDIRECT) 0) as [|Ha]; [done|].
    destruct (io_ind _ _ I Ha) as [Hir _]. pose proof datastart_pos as Hds.
    assert (Hdev : i_dev p = ROOTDEV) by apply (io_dev _ _ I).
    destruct (read_block j x (addr p NDIRECT)) as (bp & j1 & j2 & E & Ed & E2 & R2); try done.
    { destruct G as [G1 _ _ _]. lia. } { by apply unheld_empty. } { by rewrite Hh, map_size_empty, Nat.add_0_r. }
    exists j2. split; [|done]. rewrite (bind_ok (mret _) _ _ _ _ eq_refl), Hdev.
    rewrite (bind_ok _ _ _ _ _ (journal_ok _ _ _ _ _ _ E)), (bind_ok _ _ _ _ _ (getdata_ok _ _ _ _)), Ed.
    rewrite (proj2 (Z.eqb_neq _ _)) by done. by rewrite (bind_ok _ _ _ _ _ (journal_ok _ _ _ _ _ _ E2)).
Qed.

(** Every block below byte [n] is mapped. *)
Definition dense v p (n : Z) : Prop := forall bn, 0 <= bn -> bn * BSIZE < n -> blk v p bn <> 0.

Lemma readi_loop_ok k : forall j x ps i off n tot acc,
  jrep j x -> j_held x = ∅ -> (length (j_logged x) < NBUF)%nat -> ino_ok (j_view x) (ps !!! i) ->
  0 <= off -> 0 <= tot <= n -> n - tot <= Z.of_nat k -> off + (n - tot) <= MAXFILE * BSIZE ->
  dense (j_view x) (ps !!! i) (off + (n - tot)) ->
  exists j', readi_loop k i off n tot acc (MkFs j sb ps)
      = Ok (acc ++ file_bytes (j_view x) (ps !!! i) off (Z.to_nat (n - tot))) (MkFs j' sb ps) /\ jrep j' x.
Proof.
  induction k as [|k IH]; intros j x ps i off n tot acc R Hh Hc I Hoff Htot Hk Hmax Hd; cbn [readi_loop];
    destruct (Z.ltb_spec tot n) as [Hlt|Hge]; try lia.
  1,3: exists j; replace (n - tot) with 0 by lia; cbn; by rewrite app_nil_r.
  set (p := ps !!! i) in *. set (m := Z.min (n - tot) (BSIZE - off mod BSIZE)).
  rewrite (bind_ok _ _ _ _ _ (inode_of_ok _ _ _)). fold p.
  assert (Hnz : blk (j_view x) p (off / BSIZE) <> 0) by (apply Hd; fs_consts; lia).
  assert (Hbn : 0 <= off / BSIZE < MAXFILE) by (fs_consts; lia).
  destruct (bmap_mapped j x ps i (off / BSIZE)) as (j1 & E1 & R1); try done. fold p in E1.
  destruct (io_blk _ _ I _ Hbn Hnz) as [[Har _] _]. pose proof datastart_pos as Hds.
  set (a := blk (j_view x) p (off / BSIZE)) in *.
  assert (Haj : 0 <= a < jsize) by (destruct G as [G1 _ _ _]; lia).
  destruct (read_block j1 x a) as (bp & j2 & j3 & E & Ed & E3 & R3); try done.
  { by apply unheld_empty. } { by rewrite Hh, map_size_empty, Nat.add_0_r. }
  assert (Hm : 0 < m <= n - tot /\ off mod BSIZE + m <= BSIZE) by (unfold m; fs_consts; lia).
  destruct (IH j3 x ps i (off + m) n (tot + m)
              (acc ++ get_bytes (j_view x a) (Z.to_nat (off mod BSIZE)) (Z.to_nat m))) as (j4 & E4 & R4);
    try done; try lia.
  { fold p. replace (off + m + (n - (tot + m))) with (off + (n - tot)) by lia. done. }
  exists j4. split; [|done]. rewrite (bind_ok _ _ _ _ _ E1), (io_dev _ _ I).
  rewrite (bind_ok _ _ _ _ _ (journal_ok _ _ _ _ _ _ E)), (bind_ok _ _ _ _ _ (getdata_ok _ _ _ _)), Ed.
  cbn zeta. fold m. rewrite (bind_ok _ _ _ _ _ (journal_ok _ _ _ _ _ _ E3)), E4. fold p. f_equal.
  rewrite <- app_assoc. f_equal. rewrite (block_bytes (j_view x) p off (Z.to_nat m) a); try done; try lia.
  - replace (Z.to_nat (n - tot)) with (Z.to_nat m + Z.to_nat (n - (tot + m)))%nat by lia.
    rewrite file_bytes_app. do 2 f_equal. lia.
  - by apply (jview_ok j x).
Qed.

(** What [readi] returns. *)
Definition read_result v p off n : Z * list Z :=
  if (off >? i_size p) || (2 ^ 32 <=? off + n) then (-1, [])
  else (Z.min n (i_size p - off), file_bytes v p off (Z.to_nat (Z.min n (i_size p - off)))).

Lemma readi_ok dv j x ps i off n :
  jrep j x -> j_held x = ∅ -> (length (j_logged x) < NBUF)%nat -> ino_ok (j_view x) (ps !!! i) ->
  i_type (ps !!! i) <> T_DEV -> 0 <= i_size (ps !!! i) <= MAXFILE * BSIZE ->
  dense (j_view x) (ps !!! i) (i_size (ps !!! i)) -> 0 <= off < 2 ^ 32 -> 0 <= n < 2 ^ 32 ->
  exists j', readi dv i off n (MkFs j sb ps)
      = Ok (read_result (j_view x) (ps !!! i) off n) (MkFs j' sb ps) /\ jrep j' x.
Proof.
  intros R Hh Hc I Ht Hsz Hd Hoff Hn. set (p := ps !!! i) in *. unfold readi, read_result.
  rewrite (bind_ok _ _ _ _ _ (inode_of_ok _ _ _)). fold p. rewrite (proj2 (Z.eqb_neq _ _)) by done.
  assert (Eov : (u32 (off + n) <? off) = (2 ^ 32 <=? off + n)).
  { destruct (Z.leb_spec (2 ^ 32) (off + n)).
    - apply Z.ltb_lt. unfold u32. lia.
    - rewrite u32_small by lia. apply Z.ltb_ge. lia. }
  rewrite Eov, Z.gtb_ltb. destruct (Z.ltb_spec (i_size p) off), (Z.leb_spec (2 ^ 32) (off + n));
    cbn [orb]; try (by exists j).
  assert (Em : (if off + n >? i_size p then i_size p - off else n) = Z.min n (i_size p - off)).
  { rewrite Z.gtb_ltb. destruct (Z.ltb_spec (i_size p) (off + n)); lia. }
  rewrite Em. cbn zeta. set (m := Z.min n (i_size p - off)) in *.
  destruct (readi_loop_ok (Z.to_nat m) j x ps i off m 0 []) as (j' & E & R'); try done; try lia.
  { fold p. intros bn Hbn Hlt. apply Hd; lia. }
  exists j'. split; [|done]. rewrite (bind_ok _ _ _ _ _ E). rewrite Z.sub_0_r. done.
Qed.

(** *** Writing *)

(** [bytes] stored at byte [off] of a file; nothing else of the file changes,
    nor does any block that is not the file's. *)
Record wrote (k f : nat) x p x' p' (off : Z) (bytes : list Z) : Prop := {
  wr_ok : ino_ok (j_view x') p';
  wr_meta : same_meta p p';
  wr_used : meta_used sb (j_view x');
  wr_held : j_held x' = j_held x;
  wr_dirty : j_dirty x' = j_dirty x;
  wr_logged : (length (j_logged x') <= length (j_logged x) + k)%nat;
  wr_free : (base.size (free_set (j_view x)) <= base.size (free_set (j_view x')) + f)%nat;
  wr_data : forall n, data_used (j_view x) n -> data_used (j_view x') n;
  wr_byte : forall o, 0 <= o < MAXFILE * BSIZE -> file_byte (j_view x') p' o =
    if (off <=? o) && (o <? off + Z.of_nat (length bytes)) then bytes !!! Z.to_nat (o - off)
    else file_byte (j_view x) p o;
  wr_blk : forall bn, 0 <= bn < MAXFILE -> blk (j_view x) p bn <> 0 ->
    blk (j_view x') p' bn = blk (j_view x) p bn;
  wr_map : forall o, 0 <= o < MAXFILE * BSIZE -> off <= o < off + Z.of_nat (length bytes) ->
    blk (j_view x') p' (o / BSIZE) <> 0;
  wr_new : forall bn, 0 <= bn < MAXFILE ->
    blk (j_view x') p' bn = blk (j_view x) p bn \/ used sb (j_view x) (blk (j_view x') p' bn) = false;
  wr_newind : addr p' NDIRECT = addr p NDIRECT \/ used sb (j_view x) (addr p' NDIRECT) = false;
  wr_frame : forall n, n < sb_bmapstart sb \/
    (data_used (j_view x) n /\ n <> addr p NDIRECT /\ forall bn, 0 <= bn < MAXFILE -> blk (j_view x) p bn <> n) ->
    j_view x' n = j_view x n
}.

Lemma wrote_nil x p off :
  meta_used sb (j_view x) -> ino_ok (j_view x) p -> wrote 0 0 x p x p off [].
Proof.
  intros Hm I. split; try done; try lia; try (by left).
  - intros o Ho. cbn [length]. rewrite Z.add_0_r.
    destruct (Z.leb_spec off o), (Z.ltb_spec o off); cbn [andb]; try done; lia.
  - intros o Ho. cbn [length]. lia.
Qed.

Lemma wrote_trans k f k' f' x p x1 p1 x2 p2 off b1 b2 :
  wrote k f x p x1 p1 off b1 -> wrote k' f' x1 p1 x2 p2 (off + Z.of_nat (length b1)) b2 ->
  wrote (k + k') (f + f') x p x2 p2 off (b1 ++ b2).
Proof.
  intros [A1 A2 A3 A4 A5 A6 A7 A8 A9 A10 A11 A12 A13 A14] [B1 B2 B3 B4 B5 B6 B7 B8 B9 B10 B11 B12 B13 B14].
  pose proof datastart_pos as Hds. pose proof (geo_size _ G) as Hgs.
  split; try done; try congruence; try lia.
  - by etrans.
  - auto.
  - intros o Ho. rewrite B9, A9 by done. rewrite length_app.
    destruct (Z.leb_spec (off + Z.of_nat (length b1)) o), (Z.leb_spec off o),
      (Z.ltb_spec o (off + Z.of_nat (length b1))),
      (Z.ltb_spec o (off + Z.of_nat (length b1) + Z.of_nat (length b2))),
      (Z.ltb_spec o (off + Z.of_nat (length b1 + length b2))); cbn [andb]; try done; try lia.
    + rewrite lookup_total_app_r by lia. f_equal. lia.
    + by rewrite lookup_total_app_l by lia.
  - intros bn Hbn Hnz. rewrite B10 by (rewrite ?A10; done). by apply A10.
  - intros o Ho Hr. rewrite length_app in Hr.
    destruct (decide (o < off + Z.of_nat (length b1))) as [Hc|Hc]; [|apply B11; [done|lia]].
    assert (Hbn : 0 <= o / BSIZE < MAXFILE) by (fs_consts; lia).
    rewrite B10; [apply A11; [done|lia]|done|apply A11; [done|lia]].
  - intros bn Hbn. destruct (B12 bn Hbn) as [E|Hu]; [rewrite E; by apply A12|].
    destruct (decide (blk (j_view x2) p2 bn = 0)) as [Hz|Hz].
    + exfalso. rewrite Hz in Hu. apply A3 in Hu; lia.
    + right. apply (unused_before _ (j_view x1)); try done. by apply (io_blk _ _ B1).
  - destruct B13 as [E|Hu]; [by rewrite E|].
    destruct (decide (addr p2 NDIRECT = 0)) as [Hz|Hz].
    + exfalso. rewrite Hz in Hu. apply A3 in Hu; lia.
    + right. apply (unused_before _ (j_view x1)); try done. by apply (io_ind _ _ B1).
  - intros n Hn. rewrite <- (A14 n Hn). apply B14. destruct Hn as [Hn|(Hn & Hi & Hb)]; [by left|right].
    destruct Hn as [Hr Hu]. split_and!; [by apply A8| |].
    + intros E. destruct A13 as [E'|Hu']; [congruence|]. congruence.
    + intros bn Hbn E. destruct (A12 bn Hbn) as [E'|Hu']; [apply (Hb bn Hbn); congruence|]. congruence.
Qed.

Lemma mapped_wrote k f x p x' p' off :
  mapped k f x p x' p' -> wrote k f x p x' p' off [].
Proof.
  intros [A1 A2 A3 A4 A5 A6 A7 A8 A9 A10 A11 A12 A13]. split; try done.
  - intros o Ho. cbn [length]. rewrite Z.add_0_r.
    replace ((off <=? o) && (o <? off)) with false
      by (destruct (Z.leb_spec off o), (Z.ltb_spec o off); try done; lia).
    unfold file_byte. rewrite A8 by (fs_consts; lia). done.
  - intros o Ho. cbn [length]. lia.
  - intros n [Hn|(Hn & Hi & _)]; apply A11; [by left|by right].
Qed.

(** A store into one block of the file. *)
Lemma wrote_chunk j x p off bytes a :
  jrep j x -> meta_used sb (j_view x) -> ino_ok (j_view x) p ->
  0 <= off < MAXFILE * BSIZE -> off mod BSIZE + Z.of_nat (length bytes) <= BSIZE ->
  blk (j_view x) p (off / BSIZE) = a -> a <> 0 ->
  wrote 1 0 x p (j_write a (put_bytes (j_view x a) (Z.to_nat (off mod BSIZE)) bytes) x) p off bytes.
Proof.
  intros R Hm I Hoff Hlen Ea Hnz. set (x' := j_write a _ x). pose proof datastart_pos as Hds.
  assert (Hbn : 0 <= off / BSIZE < MAXFILE) by (fs_consts; lia).
  pose proof I as [I1 I2 I3 I4 I5]. destruct (I4 _ Hbn) as [Hdu Hni]; [congruence|]. rewrite Ea in *.
  pose proof Hdu as [Har Hau].
  assert (Hok : block_ok (j_view x a)) by (apply (jview_ok j); [done|destruct G as [G1 _ _ _]; lia]).
  assert (Hv : forall n, n <> a -> j_view x' n = j_view x n) by (intros; by apply zset_ne).
  assert (Hva : j_view x' a = put_bytes (j_view x a) (Z.to_nat (off mod BSIZE)) bytes) by apply zset_eq.
  assert (Hused : forall n, 0 <= n < sb_size sb -> used sb (j_view x') n = used sb (j_view x) n).
  { intros n Hn. unfold used. rewrite Hv; [done|]. unfold datastart in Har. fs_consts. lia. }
  assert (Hblk : forall bn, blk (j_view x') p bn = blk (j_view x) p bn).
  { intros bn. unfold blk. by rewrite (Hv (addr p NDIRECT)) by congruence. }
  assert (Hmono : forall n, data_used (j_view x) n -> data_used (j_view x') n)
    by (intros n [Hn Hu]; split; [done|by rewrite Hused by lia]).
  split; try done; try lia; try (by left).
  - split; [done|done|auto| |].
    + intros bn Hb. rewrite Hblk. intros Hz. destruct (I4 bn Hb Hz). auto.
    + intros bn bn'. rewrite !Hblk. apply I5.
  - intros n Hn. rewrite Hused by done. by apply Hm.
  - cbn. pose proof (add_logged_length a (j_logged x)). lia.
  - rewrite Nat.add_0_r. apply subseteq_size. intros n. rewrite !elem_of_free.
    intros [Hn Hu]. by rewrite Hused.
  - intros o Ho. unfold file_byte, file_block. rewrite Hblk.
    destruct (decide (o / BSIZE = off / BSIZE)) as [E|E].
    + rewrite E, Ea, (proj2 (Z.eqb_neq a 0)), Hva by done. unfold block_ok in Hok. fs_consts.
      rewrite byte_at_put_bytes by lia.
      destruct (Z.leb_spec off o), (Z.ltb_spec o (off + Z.of_nat (length bytes))),
        (Z.leb_spec (Z.of_nat (Z.to_nat (off mod 512))) (o mod 512)),
        (Z.ltb_spec (o mod 512) (Z.of_nat (Z.to_nat (off mod 512) + length bytes))); cbn [andb]; try done; try lia.
      f_equal. lia.
    + replace ((off <=? o) && (o <? off + Z.of_nat (length bytes))) with false.
      * destruct (Z.eqb_spec (blk (j_view x) p (o / BSIZE)) 0) as [|Hz]; [done|].
        rewrite Hv; [done|]. rewrite <- Ea. apply I5; try done. fs_consts. lia.
      * symmetry. apply andb_false_iff. rewrite Z.leb_gt, Z.ltb_ge. fs_consts. lia.
  - intros o Ho Hr. rewrite Hblk. replace (o / BSIZE) with (off / BSIZE) by (fs_consts; lia). congruence.
  - intros n Hn. apply Hv. intros ->. destruct Hn as [Hn|(_ & _ & Hn)]; [lia|]. by apply (Hn _ Hbn).
Qed.

(** Blocks a run of bytes spans. *)
Definition spans (off m : Z) : nat :=
  if m =? 0 then 0%nat else Z.to_nat ((off mod BSIZE + m + BSIZE - 1) / BSIZE).

Lemma writei_loop_ok k : forall j x ps i src off tot,
  jrep j x -> meta_used sb (j_view x) -> j_held x = ∅ -> (i < length ps)%nat ->
  ino_ok (j_view x) (ps !!! i) ->
  let n := Z.of_nat (length src) in
  0 <= off -> 0 <= tot <= n -> n - tot <= Z.of_nat k -> off + (n - tot) <= MAXFILE * BSIZE ->
  room (6 * spans off (n - tot)) x ->
  ok_or_full (writei_loop k i src off n tot (MkFs j sb ps)) (2 * spans off (n - tot)) (j_view x)
    (fun off' s => off' = off + (n - tot) /\ exists j' x' p',
       s = MkFs j' sb (<[i := p']> ps) /\ jrep j' x' /\
       wrote (6 * spans off (n - tot)) (2 * spans off (n - tot)) x (ps !!! i) x' p' off
         (drop (Z.to_nat tot) src)).
Proof.
  induction k as [|k IH]; intros j x ps i src off tot R Hm Hh Hi I n Hoff Htot Hk Hmax Hr; cbn [writei_loop];
    destruct (Z.ltb_spec tot n) as [Hlt|Hge]; try lia.
  1,3: (split; [lia|]; exists j, x, (ps !!! i); split_and!; [|done|];
        [by rewrite list_insert_id by (apply list_lookup_lookup_total_lt; done)|
         rewrite drop_ge by lia; apply (mapped_wrote _ _ x (ps !!! i) x (ps !!! i) off);
         by eapply mapped_weaken; [apply mapped_refl|lia|lia]]).
  set (p := ps !!! i) in *. set (m := Z.min (n - tot) (BSIZE - off mod BSIZE)).
  assert (Hm' : 0 < m <= n - tot /\ off mod BSIZE + m <= BSIZE) by (unfold m; fs_consts; lia).
  assert (Hsp : spans off (n - tot) = S (spans (off + m) (n - (tot + m)))).
  { unfold spans. rewrite (proj2 (Z.eqb_neq (n - tot) 0)) by lia. unfold m in *. fs_consts.
    destruct (Z.eqb_spec (n - (tot + Z.min (n - tot) (512 - off mod 512))) 0); lia. }
  assert (Hbn : 0 <= off / BSIZE < MAXFILE) by (fs_consts; lia).
  rewrite (bind_ok _ _ _ _ _ (inode_of_ok _ _ _)). fold p.
  destruct Hr as [Hr1 Hr2]. rewrite Hsp in *.
  eapply ok_or_full_bind.
  { eapply ok_or_full_weaken; [apply (bmap_ok j x ps i (off / BSIZE)); try done; split; lia|lia]. }
  intros a s (j1 & x1 & p1 & -> & R1 & Hmap & Hnz & Ea). fold p in Hmap.
  pose proof (mp_logged _ _ _ _ _ _ Hmap) as Hlg. pose proof (mp_held _ _ _ _ _ _ Hmap) as Hh1.
  pose proof (mp_ok _ _ _ _ _ _ Hmap) as I1. pose proof datastart_pos as Hds.
  destruct (io_blk _ _ I1 _ Hbn) as [[Har _] _]; [congruence|]. rewrite Ea in Har.
  assert (Hhome : jhome a) by (apply (geo_home _ G); destruct G as [_ _ G3 _]; fs_consts; lia).
  destruct (write_block j1 x1 a) as (bp & j2 & E2 & Ed2 & Hw); try done.
  { apply unheld_empty. congruence. } { rewrite Hh1. lia. } { lia. }
  set (bs := get_bytes src (Z.to_nat tot) (Z.to_nat m)).
  assert (Hbs : length bs = Z.to_nat m) by (apply length_get_bytes; lia).
  destruct (Hw (put_bytes (j_view x1 a) (Z.to_nat (off mod BSIZE)) bs)) as (j3 & j4 & E3 & E4 & R4).
  { pose proof (jview_ok j1 x1 a R1) as Hok. unfold block_ok in *. fs_consts.
    rewrite length_put_bytes; [apply Hok|rewrite Hbs, Hok]; destruct G as [G1 _ _ _]; lia. }
  rewrite (io_dev _ _ I). rewrite (bind_ok _ _ _ _ _ (journal_ok _ _ _ _ _ _ E2)).
  cbn zeta. fold m. rewrite (bind_ok _ _ _ _ _ (modj_ok _ _ _ _ _)), Ed2. fold bs.
  rewrite (bind_ok _ _ _ _ _ (journal_ok _ _ _ _ _ _ E3)), (bind_ok _ _ _ _ _ (journal_ok _ _ _ _ _ _ E4)).
  set (x2 := j_write a _ x1) in *.
  assert (Hch : wrote 1 0 x1 p1 x2 p1 off bs)
    by (apply (wrote_chunk j1); try done; [apply Hmap|fs_consts; lia|rewrite Hbs; lia]).
  assert (Hw1 : wrote 6 2 x p x2 p1 off bs).
  { apply (wrote_trans 5 2 1 0 x p x1 p1 x2 p1 off [] bs); [by apply mapped_wrote|]. by rewrite Z.add_0_r. }
  pose proof (wr_logged _ _ _ _ _ _ _ _ Hw1) as Hlg2. pose proof (wr_free _ _ _ _ _ _ _ _ Hw1) as Hfr2.
  pose proof (wr_held _ _ _ _ _ _ _ _ Hw1) as Hh2.
  assert (Hi' : (i < length (<[i := p1]> ps))%nat) by (by rewrite length_insert).
  assert (Ep1 : <[i := p1]> ps !!! i = p1) by (apply list_lookup_total_insert_eq; done).
  assert (Hnext := IH j4 x2 (<[i := p1]> ps) i src (off + m) (tot + m) R4 (wr_used _ _ _ _ _ _ _ _ Hw1)
            ltac:(congruence) Hi' ltac:(rewrite Ep1; apply Hw1) ltac:(lia) ltac:(lia) ltac:(lia) ltac:(lia)).
  cbn zeta in Hnext. fold n in Hnext. rewrite Ep1 in Hnext.
  eapply ok_or_full_weaken in Hnext; [| |].
  - revert Hnext. unfold ok_or_full. case_match; try done.
    intros (-> & j5 & x5 & p5 & -> & R5 & Hw5). split; [lia|]. exists j5, x5, p5.
    split_and!; [by rewrite list_insert_insert_eq|done|].
    replace (drop (Z.to_nat tot) src) with (bs ++ drop (Z.to_nat (tot + m)) src).
    + rewrite !Nat.mul_succ_r, (Nat.add_comm _ 6), (Nat.add_comm _ 2).
      apply (wrote_trans 6 2 _ _ x p x2 p1 x5 p5); [done|]. rewrite Hbs, Z2Nat.id by lia. done.
    + unfold bs, get_bytes. replace (Z.to_nat (tot + m)) with (Z.to_nat tot + Z.to_nat m)%nat by lia.
      rewrite <- drop_drop. apply take_drop.
  - split; [lia|]. rewrite Hh2. lia.
  - lia.
Qed.

End files.
