(* ===== verification/FsInodes.v ===== *)
(** * On-disk inodes and whole-file operations of fs.c

    [iupdate] and [ilock] translate between the in-memory inode and its
    64 bytes on disk; [writei] ends by updating the inode, so that the file
    read back later is the file written. *)

From stdpp Require Import base numbers list gmap sets strings.
From Stdlib Require Import ZArith Lia.
From S2P Require Import Prelude CStrings Disk Blocks Log Journal Fs FsBlocks FsFiles.

Open Scope Z_scope.

(** ** The layout of [struct dinode] *)

Lemma length_put_words ws : forall x o,
  (o + 4 * length ws <= length x)%nat -> length (put_words x o ws) = length x.
Proof.
  induction ws as [|w ws IH]; intros x o H; cbn [put_words length] in *; [done|].
  rewrite IH, length_put32; rewrite ?length_put32; lia.
Qed.

Lemma get_bytes_put_words_out ws : forall x o k n,
  (o + 4 * length ws <= length x)%nat -> (k + n <= o \/ o + 4 * length ws <= k)%nat ->
  get_bytes (put_words x o ws) k n = get_bytes x k n.
Proof.
  induction ws as [|w ws IH]; intros x o k n H Hk; cbn [put_words length] in *; [done|].
  rewrite IH by (rewrite ?length_put32; lia). unfold put32.
  apply get_put_bytes_out; rewrite ?length_le_bytes; lia.
Qed.

Lemma get_words_put_words ws : forall x o,
  (o + 4 * length ws <= length x)%nat -> get_words (put_words x o ws) o (length ws) = u32 <$> ws.
Proof.
  induction ws as [|w ws IH]; intros x o H; cbn [put_words get_words length fmap list_fmap] in *; [done|].
  f_equal.
  - unfold get32 at 1. rewrite get_bytes_put_words_out by (rewrite ?length_put32; lia).
    fold (get32 (put32 x o w) o). apply get32_put32_eq. lia.
  - apply IH. rewrite length_put32; lia.
Qed.

(** In-memory values that fit their on-disk fields. *)
Definition dinode_fits (p : inode) : Prop :=
  - 2 ^ 15 <= i_type p < 2 ^ 15 /\ - 2 ^ 15 <= i_major p < 2 ^ 15 /\ - 2 ^ 15 <= i_minor p < 2 ^ 15 /\
  - 2 ^ 15 <= i_nlink p < 2 ^ 15 /\ 0 <= i_size p < 2 ^ 32 /\
  length (i_addrs p) = 13%nat /\ Forall (fun a => 0 <= a < 2 ^ 32) (i_addrs p).

Lemma s16_u16 z : - 2 ^ 15 <= z < 2 ^ 15 -> s16 (u16 z) = z.
Proof. intros H. unfold s16, u16. destruct (Z.ltb_spec ((z mod 2 ^ 16) mod 2 ^ 16) (2 ^ 15)); lia. Qed.

(** The block after each store of [iupdate]. *)
Lemma write_dinode_steps p x o :
  length (i_addrs p) = 13%nat -> (o + 64 <= length x)%nat ->
  exists x1 x2 x3 x4 x5,
    x1 = put16 x o (i_type p) /\ x2 = put16 x1 (o + 2) (i_major p) /\
    x3 = put16 x2 (o + 4) (i_minor p) /\ x4 = put16 x3 (o + 6) (i_nlink p) /\
    x5 = put32 x4 (o + 8) (i_size p) /\ write_dinode p x o = put_words x5 (o + 12) (i_addrs p) /\
    length x1 = length x /\ length x2 = length x /\ length x3 = length x /\ length x4 = length x /\
    length x5 = length x /\ length (write_dinode p x o) = length x.
Proof.
  intros Ha H. set (x1 := put16 x o (i_type p)). set (x2 := put16 x1 (o + 2) (i_major p)).
  set (x3 := put16 x2 (o + 4) (i_minor p)). set (x4 := put16 x3 (o + 6) (i_nlink p)).
  set (x5 := put32 x4 (o + 8) (i_size p)).
  assert (L1 : length x1 = length x) by (apply length_put16; lia).
  assert (L2 : length x2 = length x) by (rewrite <- L1; apply length_put16; lia).
  assert (L3 : length x3 = length x) by (rewrite <- L2; apply length_put16; lia).
  assert (L4 : length x4 = length x) by (rewrite <- L3; apply length_put16; lia).
  assert (L5 : length x5 = length x) by (rewrite <- L4; apply length_put32; lia).
  exists x1, x2, x3, x4, x5. split_and!; try done.
  change (length (put_words x5 (o + 12) (i_addrs p)) = length x).
  rewrite length_put_words by lia. done.
Qed.

Lemma length_write_dinode p x o :
  length (i_addrs p) = 13%nat -> (o + 64 <= length x)%nat -> length (write_dinode p x o) = length x.
Proof.
  intros Ha H. destruct (write_dinode_steps p x o Ha H) as (x1 & x2 & x3 & x4 & x5 & Hs).
  destruct Hs as (_ & _ & _ & _ & _ & _ & _ & _ & _ & _ & _ & L). done.
Qed.

Lemma write_dinode_out p x o k n :
  length (i_addrs p) = 13%nat -> (o + 64 <= length x)%nat -> (k + n <= o \/ o + 64 <= k)%nat ->
  get_bytes (write_dinode p x o) k n = get_bytes x k n.
Proof.
  intros Ha H Hk.
  destruct (write_dinode_steps p x o Ha H) as (x1 & x2 & x3 & x4 & x5 & E1 & E2 & E3 & E4 & E5 & E6 & L1 & L2 & L3 & L4 & L5 & L6).
  rewrite E6, get_bytes_put_words_out by lia. rewrite E5. unfold put32.
  rewrite get_put_bytes_out by (rewrite ?length_le_bytes; lia). rewrite E4. unfold put16.
  rewrite get_put_bytes_out by (rewrite ?length_le_bytes; lia). rewrite E3. unfold put16.
  rewrite get_put_bytes_out by (rewrite ?length_le_bytes; lia). rewrite E2. unfold put16.
  rewrite get_put_bytes_out by (rewrite ?length_le_bytes; lia). rewrite E1. unfold put16.
  by rewrite get_put_bytes_out by (rewrite ?length_le_bytes; lia).
Qed.

Ltac skip_put :=
  unfold put16, put32; rewrite get_put_bytes_out by (rewrite ?length_le_bytes; lia).

Lemma read_write_dinode p q x o :
  dinode_fits p -> (o + 64 <= length x)%nat ->
  read_dinode (write_dinode p x o) o q =
  set_dinode (i_type p) (i_major p) (i_minor p) (i_nlink p) (i_size p) (i_addrs p) q.
Proof.
  intros (F1 & F2 & F3 & F4 & F5 & Ha & F6) H.
  destruct (write_dinode_steps p x o Ha H) as (x1 & x2 & x3 & x4 & x5 & E1 & E2 & E3 & E4 & E5 & E6 & L1 & L2 & L3 & L4 & L5 & L6).
  unfold read_dinode. rewrite E6. rewrite <- Ha at 1. rewrite get_words_put_words by lia.
  assert (W : forall k n, (k + n <= o + 12)%nat -> get_bytes (put_words x5 (o + 12) (i_addrs p)) k n = get_bytes x5 k n)
    by (intros; apply get_bytes_put_words_out; lia).
  assert (R5 : get32 (put_words x5 (o + 12) (i_addrs p)) (o + 8) = i_size p).
  { unfold get32. rewrite W by lia. fold (get32 x5 (o + 8)). rewrite E5, get32_put32_eq by lia. apply u32_small. lia. }
  assert (R4 : get16 (put_words x5 (o + 12) (i_addrs p)) (o + 6) = u16 (i_nlink p)).
  { unfold get16. rewrite W by lia. rewrite E5. skip_put. rewrite E4. apply get16_put16_eq. lia. }
  assert (R3 : get16 (put_words x5 (o + 12) (i_addrs p)) (o + 4) = u16 (i_minor p)).
  { unfold get16. rewrite W by lia. rewrite E5. skip_put. rewrite E4. skip_put. rewrite E3. apply get16_put16_eq. lia. }
  assert (R2 : get16 (put_words x5 (o + 12) (i_addrs p)) (o + 2) = u16 (i_major p)).
  { unfold get16. rewrite W by lia. rewrite E5. skip_put. rewrite E4. skip_put. rewrite E3. skip_put.
    rewrite E2. apply get16_put16_eq. lia. }
  assert (R1 : get16 (put_words x5 (o + 12) (i_addrs p)) o = u16 (i_type p)).
  { unfold get16. rewrite W by lia. rewrite E5. skip_put. rewrite E4. skip_put. rewrite E3. skip_put.
    rewrite E2. skip_put. rewrite E1. apply get16_put16_eq. lia. }
  rewrite R1, R2, R3, R4, R5, !s16_u16 by done. f_equal.
  rewrite <- (list_fmap_id (i_addrs p)) at 2. apply list_fmap_ext. intros k a Hk. cbn.
  apply u32_small. by apply (proj1 (Forall_lookup _ _) F6 k).
Qed.

Section inodes.
Context {J : Type} `{!Journal J, !JournalOk J, Htx : !InTx J}.
Context (sb : superblock) (G : geometry sb).
Implicit Types (j : J) (x : ajournal) (p q : inode) (v : Z -> block) (ps : list inode).

Definition inum_ok p : Prop := i_dev p = ROOTDEV /\ 0 <= i_inum p < sb_ninodes sb.

(** The block that holds an inode. *)
Definition iblock p : Z := i_inum p / IPB + sb_inodestart sb.

Lemma iblock_spec p : inum_ok p ->
  IBLOCK (i_inum p) sb = iblock p /\ jhome (iblock p) /\ 2 <= iblock p < sb_bmapstart sb /\
  iblock p < jsize.
Proof.
  intros [_ Hi]. destruct G as [G1 G2 G3 G4]. unfold IBLOCK, iblock, datastart in *. fs_consts.
  split_and!; [apply u32_small; lia|apply G4; lia|lia|lia|lia].
Qed.

Lemma dinode_off_bound n : (dinode_off n + 64 <= 512)%nat.
Proof. unfold dinode_off. fs_consts. lia. Qed.

(** The state after [iupdate]. *)
Definition updated p (x : ajournal) : ajournal :=
  j_write (iblock p) (write_dinode p (j_view x (iblock p)) (dinode_off (i_inum p))) x.

Lemma iupdate_ok j x ps i :
  jrep j x -> j_held x = ∅ -> room 1 x -> inum_ok (ps !!! i) -> length (i_addrs (ps !!! i)) = 13%nat ->
  exists j', iupdate i (MkFs j sb ps) = Ok tt (MkFs j' sb ps) /\ jrep j' (updated (ps !!! i) x).
Proof.
  intros R Hh [Hr1 Hr2] Hi Ha. set (p := ps !!! i) in *.
  destruct (iblock_spec p Hi) as (Eb & Hhome & Hb & Hbs).
  destruct (write_block j x (iblock p)) as (bp & j1 & E & Ed & Hw); try done; try lia; [by apply unheld_empty|].
  destruct (Hw (write_dinode p (j_view x (iblock p)) (dinode_off (i_inum p)))) as (j2 & j3 & E2 & E3 & R3).
  { pose proof (jview_ok j x (iblock p) R ltac:(lia)) as Hok. unfold block_ok in *. fs_consts.
    pose proof (dinode_off_bound (i_inum p)). rewrite length_write_dinode; lia. }
  exists j3. split; [|done]. unfold iupdate. rewrite (bind_ok _ _ _ _ _ (get_ok _)). unfold geti.
  cbn [f_inodes f_sb]. cbn zeta. fold p. destruct Hi as [Hdev _]. rewrite Hdev, Eb.
  rewrite (bind_ok _ _ _ _ _ (journal_ok _ _ _ _ _ _ E)), (bind_ok _ _ _ _ _ (modj_ok _ _ _ _ _)), Ed.
  rewrite (bind_ok _ _ _ _ _ (journal_ok _ _ _ _ _ _ E2)). by apply journal_ok.
Qed.

(** The inode block of a file is not one of its own blocks, nor a bitmap block. *)
Lemma updated_view p x n :
  inum_ok p -> sb_bmapstart sb <= n -> j_view (updated p x) n = j_view x n.
Proof.
  intros Hi Hn. destruct (iblock_spec p Hi) as (_ & _ & Hb & _). apply zset_ne. lia.
Qed.

Lemma updated_used p x n : inum_ok p -> 0 <= n -> used sb (j_view (updated p x)) n = used sb (j_view x) n.
Proof. intros Hi Hn. unfold used. rewrite updated_view; [done|done|]. fs_consts. lia. Qed.

Lemma updated_data p x n : inum_ok p -> data_used sb (j_view (updated p x)) n <-> data_used sb (j_view x) n.
Proof.
  intros Hi. pose proof (datastart_pos sb G). unfold data_used.
  split; intros [Hn Hu]; split; try done; rewrite ?updated_used in * by (done || lia); done.
Qed.

Lemma updated_blk p q x bn :
  inum_ok p -> ino_ok sb (j_view x) q -> blk (j_view (updated p x)) q bn = blk (j_view x) q bn.
Proof.
  intros Hi I. pose proof (datastart_pos sb G). unfold blk. destruct (bn <? NDIRECT); [done|].
  destruct (Z.eqb_spec (addr q NDIRECT) 0) as [|Ha]; [done|]. destruct (io_ind _ _ _ I Ha) as [Hr _].
  by rewrite updated_view by (done || lia).
Qed.

Lemma updated_byte p q x o :
  inum_ok p -> ino_ok sb (j_view x) q -> 0 <= o < MAXFILE * BSIZE ->
  file_byte (j_view (updated p x)) q o = file_byte (j_view x) q o.
Proof.
  intros Hi I Ho. pose proof (datastart_pos sb G). unfold file_byte, file_block. rewrite updated_blk by done.
  destruct (Z.eqb_spec (blk (j_view x) q (o / BSIZE)) 0) as [|Hnz]; [done|].
  destruct (io_blk _ _ _ I (o / BSIZE)) as [[Hr _] _]; [fs_consts; lia|done|].
  by rewrite updated_view by (done || lia).
Qed.

Lemma updated_ino_ok p q x : inum_ok p -> ino_ok sb (j_view x) q -> ino_ok sb (j_view (updated p x)) q.
Proof.
  intros Hi I. pose proof I as [I1 I2 I3 I4 I5]. split; try done.
  - intros Ha. by apply updated_data, I3.
  - intros bn Hbn. rewrite updated_blk by done. rewrite updated_data by done. by apply I4.
  - intros bn bn'. rewrite !updated_blk by done. apply I5.
Qed.

(** A regular file or directory in good order: its blocks are its own, and
    every byte below its size has a block. *)
Record file_ok v p : Prop := {
  fo_ino : ino_ok sb v p;
  fo_inum : inum_ok p;
  fo_type : i_type p <> T_DEV;
  fo_size : 0 <= i_size p <= MAXFILE * BSIZE;
  fo_dense : dense v p (i_size p)
}.

(** The on-disk copy of an inode. *)
Definition on_disk v p : Prop :=
  forall q, read_dinode (v (iblock p)) (dinode_off (i_inum p)) q =
    set_dinode (i_type p) (i_major p) (i_minor p) (i_nlink p) (i_size p) (i_addrs p) q.

(** The effect of a successful [writei]. *)
Record stored (k : nat) x p x' p' (off : Z) (src : list Z) : Prop := {
  so_file : file_ok (j_view x') p';
  so_used : meta_used sb (j_view x');
  so_held : j_held x' = ∅;
  so_dirty : j_dirty x' = j_dirty x;
  so_logged : (length (j_logged x') <= length (j_logged x) + k)%nat;
  so_size : i_size p' = if (0 <? Z.of_nat (length src)) && (i_size p <? off + Z.of_nat (length src))
                        then off + Z.of_nat (length src) else i_size p;
  so_meta : same_meta (set_size (i_size p') p) p';
  so_byte : forall o, 0 <= o < MAXFILE * BSIZE -> file_byte (j_view x') p' o =
    if (off <=? o) && (o <? off + Z.of_nat (length src)) then src !!! Z.to_nat (o - off)
    else file_byte (j_view x) p o;
  so_disk : i_size p' <> i_size p -> dinode_fits p' -> on_disk (j_view x') p';
  so_frame : forall n, (n < sb_bmapstart sb /\ n <> iblock p) \/
    (data_used sb (j_view x) n /\ n <> addr p NDIRECT /\ forall bn, 0 <= bn < MAXFILE -> blk (j_view x) p bn <> n) ->
    j_view x' n = j_view x n
}.

Lemma wrote_dense k f x p x' p' off bytes n :
  wrote sb k f x p x' p' off bytes -> dense (j_view x) p n -> 0 <= off <= n -> n <= MAXFILE * BSIZE ->
  off + Z.of_nat (length bytes) <= MAXFILE * BSIZE ->
  dense (j_view x') p' (Z.max n (off + Z.of_nat (length bytes))).
Proof.
  intros W Hd Hoff Hn Hmax bn Hbn Hlt.
  destruct (decide (bn * BSIZE < n)) as [Hin|Hout].
  - rewrite (wr_blk _ _ _ _ _ _ _ _ _ W); [by apply Hd|fs_consts; lia|by apply Hd].
  - replace bn with (bn * BSIZE / BSIZE) by (fs_consts; lia).
    apply (wr_map _ _ _ _ _ _ _ _ _ W); fs_consts; lia.
Qed.

Lemma same_meta_size p q n : same_meta p q -> same_meta (set_size n p) (set_size n q).
Proof. intros (?&?&?&?&?&?&?&?&?). unfold same_meta. cbn. by split_and!. Qed.

(** No growth: the loop's result stands. *)
Lemma stored_same k f x p x' p' off src :
  wrote sb k f x p x' p' off src -> file_ok (j_view x) p -> j_held x = ∅ -> 0 <= off <= i_size p ->
  src = [] \/ off + Z.of_nat (length src) <= i_size p -> stored (k + 1) x p x' p' off src.
Proof.
  intros W [F1 F2 F3 F4 F5] Hh Hoff Hfit. pose proof (wr_meta _ _ _ _ _ _ _ _ _ W) as (M1&M2&M3&M4&M5&M6&M7&M8&M9).
  assert (Hle : off + Z.of_nat (length src) <= i_size p) by (destruct Hfit as [->|]; cbn; lia).
  assert (Hd : dense (j_view x') p' (i_size p)).
  { pose proof (wrote_dense _ _ _ _ _ _ _ _ (i_size p) W F5 Hoff ltac:(lia) ltac:(lia)) as Hd.
    by rewrite Z.max_l in Hd by lia. }
  split.
  - split; [apply W| |congruence|by rewrite M9|by rewrite M9]. destruct F2. split; congruence.
  - apply W.
  - rewrite (wr_held _ _ _ _ _ _ _ _ _ W). done.
  - apply W.
  - pose proof (wr_logged _ _ _ _ _ _ _ _ _ W). lia.
  - rewrite M9. destruct (Z.ltb_spec (i_size p) (off + Z.of_nat (length src))); [lia|by rewrite andb_false_r].
  - unfold same_meta. cbn. by split_and!.
  - apply W.
  - done.
  - intros n [[Hn _]|Hn]; apply (wr_frame _ _ _ _ _ _ _ _ _ W); [by left|by right].
Qed.

(** Growth: the new size is recorded in memory and on disk. *)
Lemma stored_grown j' k f x p x1 p1 off src :
  wrote sb k f x p x1 p1 off src -> jrep j' x1 -> file_ok (j_view x) p -> j_held x = ∅ -> 0 <= off <= i_size p ->
  src <> [] -> i_size p < off + Z.of_nat (length src) <= MAXFILE * BSIZE ->
  let p2 := set_size (off + Z.of_nat (length src)) p1 in
  stored (k + 1) x p (updated p2 x1) p2 off src.
Proof.
  intros W R [F1 F2 F3 F4 F5] Hh Hoff Hne Hgrow p2.
  pose proof (wr_meta _ _ _ _ _ _ _ _ _ W) as (M1&M2&M3&M4&M5&M6&M7&M8&M9).
  pose proof (wr_ok _ _ _ _ _ _ _ _ _ W) as I1.
  assert (Hi2 : inum_ok p2) by (destruct F2; split; cbn; congruence).
  assert (I2 : ino_ok sb (j_view x1) p2) by (destruct I1; by split).
  assert (Eib : iblock p2 = iblock p) by (unfold iblock; cbn; congruence).
  assert (Hd : dense (j_view x1) p1 (off + Z.of_nat (length src))).
  { pose proof (wrote_dense _ _ _ _ _ _ _ _ (i_size p) W F5 Hoff ltac:(lia) ltac:(lia)) as Hd.
    by rewrite Z.max_r in Hd by lia. }
  destruct (iblock_spec p2 Hi2) as (_ & _ & Hib & Hibs).
  split.
  - split; [by apply updated_ino_ok|done|cbn; congruence|cbn; lia|].
    intros bn Hbn Hlt. rewrite updated_blk by done. by apply Hd.
  - intros n Hn. rewrite updated_used by (done || lia). by apply (wr_used _ _ _ _ _ _ _ _ _ W).
  - cbn. by rewrite (wr_held _ _ _ _ _ _ _ _ _ W).
  - cbn. apply W.
  - pose proof (wr_logged _ _ _ _ _ _ _ _ _ W). cbn. pose proof (add_logged_length (iblock p2) (j_logged x1)). lia.
  - assert (Hpos : 0 < Z.of_nat (length src)) by (destruct src; [done|cbn; lia]).
    rewrite (proj2 (Z.ltb_lt 0 _)), (proj2 (Z.ltb_lt (i_size p) _)) by lia. done.
  - unfold same_meta. cbn. by split_and!.
  - intros o Ho. rewrite updated_byte by done. by apply (wr_byte _ _ _ _ _ _ _ _ _ W).
  - intros _ Hfit q. unfold updated at 1. cbn [j_view j_write]. rewrite zset_eq.
    apply read_write_dinode; [done|]. pose proof (jview_ok j' x1 (iblock p2) R ltac:(lia)) as Hok.
    unfold block_ok in Hok. fs_consts. pose proof (dinode_off_bound (i_inum p2)). lia.
  - intros n Hn. unfold updated. cbn [j_view j_write]. rewrite Eib. rewrite zset_ne.
    + apply (wr_frame _ _ _ _ _ _ _ _ _ W). destruct Hn as [[Hn _]|Hn]; [by left|by right].
    + rewrite Eib in Hib. destruct Hn as [[_ Hn]|[[Hn _] _]]; [done|]. pose proof (datastart_pos sb G). lia.
Qed.

Lemma writei_ok dv j x ps i src off :
  jrep j x -> meta_used sb (j_view x) -> j_held x = ∅ -> (i < length ps)%nat ->
  file_ok (j_view x) (ps !!! i) ->
  let n := Z.of_nat (length src) in
  0 <= off <= i_size (ps !!! i) -> off + n <= MAXFILE * BSIZE -> room (6 * spans off n + 1) x ->
  ok_or_full sb (writei dv i src off (MkFs j sb ps)) (2 * spans off n) (j_view x) (fun r s =>
    r = n /\ exists j' x' p', s = MkFs j' sb (<[i := p']> ps) /\ jrep j' x' /\
      stored (6 * spans off n + 1) x (ps !!! i) x' p' off src).
Proof.
  intros R Hm Hh Hi F n Hoff Hmax [Hr1 Hr2]. set (p := ps !!! i) in *. pose proof F as [F1 F2 F3 F4 F5].
  unfold writei. fold n. cbn zeta. rewrite (bind_ok _ _ _ _ _ (inode_of_ok _ _ _ _)). fold p.
  rewrite (proj2 (Z.eqb_neq _ _)), Z.gtb_ltb, (proj2 (Z.ltb_ge _ _)) by (done || lia). fs_consts.
  rewrite u32_small, (proj2 (Z.ltb_ge _ _)), Z.gtb_ltb, (proj2 (Z.ltb_ge (140 * 512) _)) by lia. cbn [orb].
  eapply ok_or_full_bind.
  { pose proof (writei_loop_ok sb G (Z.to_nat n) j x ps i src off 0 R Hm Hh Hi F1) as Hl. cbn zeta in Hl.
    fold n in Hl. rewrite Z.sub_0_r in Hl. apply Hl; fs_consts; try lia. split; lia. }
  intros off' s (-> & j1 & x1 & p1 & -> & R1 & W). change (drop (Z.to_nat 0) src) with src in W. fold p in W.
  assert (Ep1 : <[i := p1]> ps !!! i = p1) by (by apply list_lookup_total_insert_eq).
  rewrite (bind_ok _ _ _ _ _ (inode_of_ok _ _ _ _)), Ep1.
  pose proof (wr_meta _ _ _ _ _ _ _ _ _ W) as (M1&M2&_&_&_&_&_&_&M9). rewrite M9.
  pose proof (wr_held _ _ _ _ _ _ _ _ _ W) as Hh1. pose proof (wr_logged _ _ _ _ _ _ _ _ _ W) as Hl1.
  rewrite !Z.gtb_ltb.
  destruct (Z.ltb_spec 0 n) as [Hn|Hn], (Z.ltb_spec (i_size p) (off + n)) as [Hg|Hg]; cbn [andb when].
  - set (p2 := set_size (off + n) p1).
    destruct (iupdate_ok j1 x1 (<[i := p2]> ps) i) as (j2 & E2 & R2); try done.
    + by rewrite Hh1.
    + split; [lia|]. rewrite Hh1. lia.
    + rewrite list_lookup_total_insert_eq by done. destruct F2. split; cbn; congruence.
    + rewrite list_lookup_total_insert_eq by done. apply (io_addrs _ _ _ (wr_ok _ _ _ _ _ _ _ _ _ W)).
    + rewrite bind_assoc, (bind_ok _ _ _ _ _ (modi_ok _ _ _ _ _ ltac:(by rewrite length_insert))), Ep1.
      rewrite list_insert_insert_eq. fold p2. rewrite (bind_ok _ _ _ _ _ E2).
      rewrite list_lookup_total_insert_eq in R2 by done.
      hnf. split; [done|]. exists j2, (updated p2 x1), p2. split_and!; try done.
      apply (stored_grown j1 _ _ x p x1 p1 off src W); try done; fold n; fs_consts; try lia.
      intros ->. cbn in n. lia.
  - rewrite (bind_ok (mret _) _ _ _ _ eq_refl). hnf. split; [done|]. exists j1, x1, p1. split_and!; try done.
    apply (stored_same _ _ x p x1 p1 off src W); try done. by right.
  - rewrite (bind_ok (mret _) _ _ _ _ eq_refl). hnf. split; [done|]. exists j1, x1, p1. split_and!; try done.
    apply (stored_same _ _ x p x1 p1 off src W); try done. left. destruct src; [done|]. unfold n in Hn. cbn in Hn. lia.
  - rewrite (bind_ok (mret _) _ _ _ _ eq_refl). hnf. split; [done|]. exists j1, x1, p1. split_and!; try done.
    apply (stored_same _ _ x p x1 p1 off src W); try done. by right.
Qed.

(** [ilock] of an entry not yet read loads the on-disk inode. *)
Lemma ilock_load j x ps i :
  jrep j x -> j_held x = ∅ -> (length (j_logged x) < NBUF)%nat -> (i < length ps)%nat ->
  let p := ps !!! i in
  let q := read_dinode (j_view x (iblock p)) (dinode_off (i_inum p)) (set_iflags I_BUSY p) in
  inum_ok p -> 1 <= i_ref p -> i_flags p = 0 -> i_type q <> 0 ->
  exists j', ilock (Some i) (MkFs j sb ps) = Ok tt (MkFs j' sb (<[i := set_iflags (Z.lor I_BUSY I_VALID) q]> ps)) /\
    jrep j' x.
Proof.
  intros R Hh Hl Hi p q Hio Href Hf Ht. destruct (iblock_spec p Hio) as (Eb & _ & Hb & Hbs).
  destruct (read_block j x (iblock p)) as (bp & j1 & j2 & E1 & Ed & E2 & R2); try done; try lia.
  { by apply unheld_empty. } { rewrite Hh, map_size_empty. lia. }
  exists j2. split; [|done]. unfold ilock. rewrite (bind_ok _ _ _ _ _ (get_ok _)). unfold geti. cbn [f_inodes f_sb].
  cbn zeta. fold p. rewrite (proj2 (Z.ltb_ge _ _)) by lia. rewrite Hf. change (has 0 I_BUSY) with false. cbn iota.
  assert (Hu : forall a b, <[i := a]> (<[i := b]> ps) = <[i := a]> ps) by (intros; apply list_insert_insert_eq).
  assert (Ht' : forall a, <[i := a]> ps !!! i = a) by (intros; by apply list_lookup_total_insert_eq).
  rewrite (bind_ok _ _ _ _ _ (modi_ok _ _ _ _ _ Hi)), (bind_ok _ _ _ _ _ (inode_of_ok _ _ _ _)).
  fold p. rewrite Hf, Ht'. change (Z.lor 0 I_BUSY) with I_BUSY.
  change (has (i_flags (set_iflags I_BUSY p)) I_VALID) with false. cbn [negb when].
  cbn [set_iflags i_dev i_inum]. rewrite Eb. destruct Hio as [Hdev _]. rewrite Hdev.
  rewrite (bind_ok _ _ _ _ _ (journal_ok _ _ _ _ _ _ E1)), (bind_ok _ _ _ _ _ (getdata_ok _ _ _ _)), Ed.
  rewrite (bind_ok _ _ _ _ _ (modi_ok _ _ _ _ _ ltac:(by rewrite length_insert))), Ht', Hu.
  rewrite (bind_ok _ _ _ _ _ (journal_ok _ _ _ _ _ _ E2)).
  rewrite (bind_ok _ _ _ _ _ (modi_ok _ _ _ _ _ ltac:(by rewrite length_insert))), Ht', Hu.
  rewrite (bind_ok _ _ _ _ _ (inode_of_ok _ _ _ _)), Ht'.
  fold q. change (i_type (set_iflags _ q)) with (i_type q). by rewrite (proj2 (Z.eqb_neq _ _)).
Qed.

End inodes.

(** ** The inode cache *)

(** No two entries in use are for the same inode. *)
Definition icache_ok (ps : list inode) : Prop :=
  forall i k p q, ps !! i = Some p -> ps !! k = Some q -> 0 < i_ref p -> 0 < i_ref q ->
    i_dev p = i_dev q -> i_inum p = i_inum q -> i = k.

(** An entry in use for the inode. *)
Definition holds_ino (dev inum : Z) (p : inode) : Prop := 0 < i_ref p /\ i_dev p = dev /\ i_inum p = inum.

#[global] Instance holds_ino_dec dev inum p : Decision (holds_ino dev inum p).
Proof. unfold holds_ino. apply _. Defined.

Lemma iget_scan_spec dev inum ps : forall b e,
  match iget_scan dev inum ps b e with
  | inl i => (b <= i)%nat /\ exists p, ps !! (i - b)%nat = Some p /\ holds_ino dev inum p
  | inr r => Forall (fun p => ~ holds_ino dev inum p) ps /\
      match e, r with
      | Some k, _ => r = Some k
      | None, Some i => (b <= i)%nat /\ exists p, ps !! (i - b)%nat = Some p /\ i_ref p = 0
      | None, None => Forall (fun p => i_ref p <> 0) ps
      end
  end.
Proof.
  induction ps as [|p ps IH]; intros b e; cbn [iget_scan].
  - split; [constructor|]. destruct e; [done|constructor].
  - assert (Hh : (i_ref p >? 0) && (i_dev p =? dev) && (i_inum p =? inum) = bool_decide (holds_ino dev inum p)).
    { rewrite Z.gtb_ltb. apply eq_true_iff_eq. rewrite bool_decide_eq_true.
      unfold holds_ino. rewrite !andb_true_iff, Z.ltb_lt, !Z.eqb_eq. tauto. }
    rewrite Hh. case_bool_decide as Hm.
    + split; [lia|]. exists p. rewrite Nat.sub_diag. done.
    + set (e' := match e with Some e => Some e | None => if i_ref p =? 0 then Some b else None end).
      specialize (IH (S b) e'). destruct (iget_scan dev inum ps (S b) e') as [i|r].
      * destruct IH as (Hle & q & Hq & H). split; [lia|]. exists q. split; [|done].
        by replace (i - b)%nat with (S (i - S b)) by lia.
      * destruct IH as [Hf Hr]. split; [by constructor|]. unfold e' in Hr. destruct e as [k|]; [done|].
        destruct (Z.eqb_spec (i_ref p) 0) as [E|E].
        -- subst r. split; [lia|]. exists p. by rewrite Nat.sub_diag.
        -- destruct r as [i|]; [|by constructor]. destruct Hr as (Hle & q & Hq & H). split; [lia|].
           exists q. split; [|done]. by replace (i - b)%nat with (S (i - S b)) by lia.
Qed.

Lemma icache_ok_insert ps i p :
  icache_ok ps -> (forall k q, ps !! k = Some q -> k <> i -> ~ holds_ino (i_dev p) (i_inum p) q) ->
  icache_ok (<[i := p]> ps).
Proof.
  intros H Hn a b pa pb Ha Hb Hra Hrb Hd Hi.
  apply list_lookup_insert_Some in Ha as [(<- & <- & Hl)|[Hne Ha]];
    apply list_lookup_insert_Some in Hb as [(Eb & Epb & _)|[Hneb Hb]]; try done.
  - exfalso. apply (Hn b pb Hb); [done|]. unfold holds_ino. by rewrite <- Hd, <- Hi.
  - subst. exfalso. apply (Hn a pa Ha); [done|]. by unfold holds_ino.
  - by apply (H a b pa pb).
Qed.
