(* ===== verification/FsDirs.v ===== *)
(** * Directories and path names of fs.c

    A directory is a file of 16-byte entries.  [dirlookup] finds the first
    entry with a given name; [dirlink] puts a new entry into the first empty
    slot, or after the last, and leaves every other entry alone.  Path names
    are split at runs of slashes, each element cut to [DIRSIZ] bytes. *)

From stdpp Require Import base numbers list gmap sets strings.
From Stdlib Require Import ZArith Lia.
From S2P Require Import Prelude CStrings Disk Blocks Log Journal Fs FsBlocks FsFiles FsInodes.

Open Scope Z_scope.

(** ** Names *)

(** The string in the first [n] bytes. *)
Fixpoint cname (n : nat) (l : list Z) : list Z :=
  match n, l with
  | S k, c :: r => if c =? 0 then [] else c :: cname k r
  | _, _ => []
  end.

Definition byte_list (l : list Z) : Prop := Forall is_byte l.

Lemma cstrn_cname n : forall m a l,
  (forall i, (i < n)%nat -> m (a + Z.of_nat i) = default 0 (l !! i)) -> KString.cstrn m a n = cname n l.
Proof.
  induction n as [|n IH]; intros m a l H; cbn [KString.cstrn cname]; [done|].
  pose proof (H 0%nat ltac:(lia)) as H0. rewrite Z.add_0_r in H0. rewrite H0.
  destruct l as [|c r]; cbn [lookup list_lookup default]; [done|]. cbn. destruct (c =? 0); [done|]. f_equal.
  apply IH. intros i Hi. etransitivity; [|exact (H (S i) ltac:(lia))]. f_equal. lia.
Qed.

Lemma place_in l a m i :
  (i < length l)%nat -> place l a m (a + Z.of_nat i) = default 0 (l !! i).
Proof.
  intros H. unfold place. rewrite (proj2 (Z.leb_le _ _)), (proj2 (Z.ltb_lt _ _)) by lia. cbn [andb].
  replace (Z.to_nat (a + Z.of_nat i - a)) with i by lia.
  rewrite (list_lookup_lookup_total_lt l i) by done. done.
Qed.

Lemma place_out l a m y : y < a \/ a + Z.of_nat (length l) <= y -> place l a m y = m y.
Proof.
  intros H. unfold place.
  by destruct (Z.leb_spec a y), (Z.ltb_spec y (a + Z.of_nat (length l))); cbn [andb]; try done; lia.
Qed.

Lemma place_bytes l a m : byte_list l -> KString.bytes_mem m -> KString.bytes_mem (place l a m).
Proof.
  intros Hl Hm y. unfold place. destruct (_ && _) eqn:E; [|apply Hm].
  apply andb_true_iff in E as [H1%Z.leb_le H2%Z.ltb_lt].
  apply (proj1 (Forall_lookup _ _) Hl (Z.to_nat (y - a))). apply list_lookup_lookup_total_lt. lia.
Qed.

Lemma nul_bytes : KString.bytes_mem nul_mem.
Proof. intros y. unfold is_byte, nul_mem. lia. Qed.

(** [namecmp] compares the strings in the first [DIRSIZ] bytes. *)
Lemma namecmp_zero s t :
  byte_list s -> byte_list t -> (length s <= 4096)%nat ->
  namecmp s t = 0 <-> cname 14 s = cname 14 t.
Proof.
  intros Hs Ht Hl. unfold namecmp, KString.strncmp. change (Z.to_nat (u32 DIRSIZ)) with 14%nat.
  rewrite KString.strncmp_loop_zero.
  - rewrite (cstrn_cname 14 _ 0 s), (cstrn_cname 14 _ 4096 t); [done| |].
    + intros i Hi. rewrite place_out by lia. destruct (decide (i < length t)%nat) as [H|H].
      * by apply place_in.
      * rewrite place_out by lia. by rewrite lookup_ge_None_2 by lia.
    + intros i Hi. destruct (decide (i < length s)%nat) as [H|H]; [by apply place_in|].
      rewrite !place_out by lia. by rewrite lookup_ge_None_2 by lia.
  - apply place_bytes; [done|]. apply place_bytes; [done|]. apply nul_bytes.
Qed.

Lemma length_cname n l : (length (cname n l) <= n)%nat.
Proof. revert l. induction n as [|n IH]; intros [|c r]; cbn; try lia. destruct (c =? 0); cbn; [lia|]. specialize (IH r). lia. Qed.

Lemma name_field_spec name :
  name_field name = cname 14 name ++ replicate (14 - length (cname 14 name)) 0.
Proof.
  unfold name_field, KString.strncpy. change (Z.to_nat DIRSIZ) with 14%nat.
  rewrite KString.strncpy_loop_bytes by lia.
  rewrite (cstrn_cname 14 _ 4096 name); [done|].
  intros i Hi. destruct (decide (i < length name)%nat); [by apply place_in|].
  rewrite place_out by lia. by rewrite lookup_ge_None_2 by lia.
Qed.

Lemma cname_bytes n l : byte_list l -> byte_list (cname n l).
Proof.
  revert l. induction n as [|n IH]; intros [|c r] H; cbn; try constructor.
  apply Forall_cons in H as [Hc Hr]. destruct (c =? 0); constructor; [done|by apply IH].
Qed.

Lemma cname_pad n l k : cname n (cname n l ++ replicate k 0) = cname n l.
Proof.
  revert l. induction n as [|n IH]; intros [|c r]; cbn; try (by destruct k).
  destruct (c =? 0) eqn:E; cbn; [by destruct k|]. rewrite E. f_equal. apply IH.
Qed.

Lemma length_name_field name : length (name_field name) = 14%nat.
Proof. rewrite name_field_spec, length_app, length_replicate. pose proof (length_cname 14 name). lia. Qed.

Lemma name_field_bytes name : byte_list name -> byte_list (name_field name).
Proof.
  intros H. rewrite name_field_spec. apply Forall_app_2; [by apply cname_bytes|].
  apply Forall_replicate. unfold is_byte. lia.
Qed.

(** The name stored by [dirlink] is the name looked up, and no other. *)
Lemma namecmp_field name' name :
  byte_list name' -> byte_list name -> (length name' <= 4096)%nat ->
  namecmp name' (name_field name) = 0 <-> cname 14 name' = cname 14 name.
Proof.
  intros H' H Hl. rewrite namecmp_zero; [|done|by apply name_field_bytes|done].
  by rewrite name_field_spec, cname_pad.
Qed.

(** ** Entries *)

(** The entry at [off] is in use and has the name. *)
Definition matches (name de : list Z) : bool :=
  negb (get16 de 0 =? 0) && (namecmp name (drop 2 de) =? 0).

(** The first of [n] entries from [off] with the name: its inode and offset. *)
Fixpoint dir_find (n : nat) (de : Z -> list Z) (name : list Z) (off : Z) : option (Z * Z) :=
  match n with
  | O => None
  | S k => if matches name (de off) then Some (get16 (de off) 0, off) else dir_find k de name (off + DIRENT)
  end.

(** The first empty one, or the end. *)
Fixpoint free_slot (n : nat) (de : Z -> list Z) (off : Z) : Z :=
  match n with
  | O => off
  | S k => if get16 (de off) 0 =? 0 then off else free_slot k de (off + DIRENT)
  end.

Lemma dir_find_ext n de de' name off :
  (forall k, (k < n)%nat -> matches name (de (off + DIRENT * Z.of_nat k)) = matches name (de' (off + DIRENT * Z.of_nat k)) /\
    (matches name (de (off + DIRENT * Z.of_nat k)) = true ->
     get16 (de (off + DIRENT * Z.of_nat k)) 0 = get16 (de' (off + DIRENT * Z.of_nat k)) 0)) ->
  dir_find n de name off = dir_find n de' name off.
Proof.
  revert off. induction n as [|n IH]; intros off H; cbn [dir_find]; [done|].
  destruct (H 0%nat ltac:(lia)) as [H1 H2]. rewrite Z.mul_0_r, Z.add_0_r in H1, H2. rewrite <- H1.
  destruct (matches name (de off)); [by rewrite H2|]. apply IH. intros k Hk.
  replace (off + DIRENT + DIRENT * Z.of_nat k) with (off + DIRENT * Z.of_nat (S k)) by lia. apply H. lia.
Qed.

Lemma dir_find_none n de name off :
  dir_find n de name off = None <-> forall k, (k < n)%nat -> matches name (de (off + DIRENT * Z.of_nat k)) = false.
Proof.
  revert off. induction n as [|n IH]; intros off; cbn [dir_find]; [split; [intros _ k Hk; lia|done]|].
  destruct (matches name (de off)) eqn:E.
  - split; [done|]. intros H. specialize (H 0%nat ltac:(lia)). rewrite Z.mul_0_r, Z.add_0_r in H. congruence.
  - rewrite IH. split; intros H k Hk.
    + destruct k as [|k]; [by rewrite Z.mul_0_r, Z.add_0_r|].
      replace (off + DIRENT * Z.of_nat (S k)) with (off + DIRENT + DIRENT * Z.of_nat k) by lia. apply H. lia.
    + replace (off + DIRENT + DIRENT * Z.of_nat k) with (off + DIRENT * Z.of_nat (S k)) by lia. apply H. lia.
Qed.

Lemma dir_find_first n de name off i :
  (i < n)%nat -> matches name (de (off + DIRENT * Z.of_nat i)) = true ->
  (forall k, (k < i)%nat -> matches name (de (off + DIRENT * Z.of_nat k)) = false) ->
  dir_find n de name off = Some (get16 (de (off + DIRENT * Z.of_nat i)) 0, off + DIRENT * Z.of_nat i).
Proof.
  revert off i. induction n as [|n IH]; intros off i Hi Hm Hf; [lia|]. cbn [dir_find].
  destruct i as [|i].
  - rewrite Z.mul_0_r, Z.add_0_r in *. by rewrite Hm.
  - pose proof (Hf 0%nat ltac:(lia)) as H0. rewrite Z.mul_0_r, Z.add_0_r in H0. rewrite H0.
    replace (off + DIRENT * Z.of_nat (S i)) with (off + DIRENT + DIRENT * Z.of_nat i) in * by lia.
    apply IH; [lia|done|]. intros k Hk.
    replace (off + DIRENT + DIRENT * Z.of_nat k) with (off + DIRENT * Z.of_nat (S k)) by lia. apply Hf. lia.
Qed.

Lemma dir_find_snoc n de name off :
  matches name (de (off + DIRENT * Z.of_nat n)) = false -> dir_find (S n) de name off = dir_find n de name off.
Proof.
  revert off. induction n as [|n IH]; intros off H.
  - cbn [dir_find]. rewrite Z.mul_0_r, Z.add_0_r in H. by rewrite H.
  - change (dir_find (S (S n)) de name off) with
      (if matches name (de off) then Some (get16 (de off) 0, off) else dir_find (S n) de name (off + DIRENT)).
    rewrite IH; [done|].
    by replace (off + DIRENT + DIRENT * Z.of_nat n) with (off + DIRENT * Z.of_nat (S n)) by lia.
Qed.

Lemma free_slot_spec n de off :
  exists i, (i <= n)%nat /\ free_slot n de off = off + DIRENT * Z.of_nat i /\
    ((i < n)%nat -> get16 (de (off + DIRENT * Z.of_nat i)) 0 = 0).
Proof.
  revert off. induction n as [|n IH]; intros off; cbn [free_slot].
  - exists 0%nat. split_and!; lia.
  - destruct (Z.eqb_spec (get16 (de off) 0) 0) as [E|E].
    + exists 0%nat. rewrite Z.mul_0_r, Z.add_0_r. split_and!; [lia|done|done].
    + destruct (IH (off + DIRENT)) as (i & Hi & -> & Hz). exists (S i).
      replace (off + DIRENT * Z.of_nat (S i)) with (off + DIRENT + DIRENT * Z.of_nat i) by lia.
      split_and!; [lia|done|]. intros H. apply Hz. lia.
Qed.

Section dirs.
Context {J : Type} `{HJ : !Journal J, HJo : !JournalOk J, HI : !InTx J}.
Context (sb : superblock).
Context (G : geometry sb).

Implicit Types (j : J) (x : ajournal) (ps : list inode) (p : inode) (v : Z -> block).

Definition entry v p (off : Z) : list Z := file_bytes v p off 16.

Record dir_ok v p : Prop := {
  do_file : file_ok sb v p;
  do_type : i_type p = T_DIR;
  do_size : i_size p mod DIRENT = 0
}.

(** What the directory maps a name to, and where. *)
Definition dir_lookup v p (name : list Z) : option (Z * Z) :=
  dir_find (Z.to_nat (i_size p / DIRENT)) (entry v p) name 0.

Lemma read_entry_ok dv j x ps i off :
  jrep j x -> j_held x = ∅ -> (length (j_logged x) < NBUF)%nat -> dir_ok (j_view x) (ps !!! i) ->
  0 <= off -> off + DIRENT <= i_size (ps !!! i) ->
  exists j', readi dv i off DIRENT (MkFs j sb ps) = Ok (DIRENT, entry (j_view x) (ps !!! i) off) (MkFs j' sb ps)
    /\ jrep j' x.
Proof.
  intros R Hh Hl [[F1 F2 F3 F4 F5] _ _] H0 H1. unfold DIRENT in *.
  destruct (readi_ok sb G dv j x ps i off 16) as (j' & E & R'); try done; fs_consts; try lia.
  exists j'. split; [|done]. rewrite E. f_equal. unfold read_result, entry.
  rewrite Z.gtb_ltb, (proj2 (Z.ltb_ge _ _)), (proj2 (Z.leb_gt _ _)) by lia. cbn [orb]. by rewrite Z.min_l by lia.
Qed.

Lemma dirlookup_from_ok dv x ps i name : forall n k j off,
  jrep j x -> j_held x = ∅ -> (length (j_logged x) < NBUF)%nat -> dir_ok (j_view x) (ps !!! i) ->
  0 <= off -> off + DIRENT * Z.of_nat n = i_size (ps !!! i) -> (n <= k)%nat ->
  exists j', jrep j' x /\ dirlookup_from k dv i name off (MkFs j sb ps) =
    match dir_find n (entry (j_view x) (ps !!! i)) name off with
    | None => Ok None (MkFs j' sb ps)
    | Some (inum, o) => (ip ← iget (i_dev (ps !!! i)) inum; mret (Some (ip, o))) (MkFs j' sb ps)
    end.
Proof.
  induction n as [|n IH]; intros k j off R Hh Hl D H0 Hn Hk.
  - exists j. split; [done|]. unfold DIRENT in *.
    destruct k; cbn [dirlookup_from dir_find]; rewrite (bind_ok _ _ _ _ _ (inode_of_ok _ _ _ _)),
      (proj2 (Z.ltb_ge _ _)) by lia; done.
  - destruct k as [|k]; [lia|]. unfold DIRENT in *.
    cbn [dirlookup_from dir_find]. rewrite (bind_ok _ _ _ _ _ (inode_of_ok _ _ _ _)), (proj2 (Z.ltb_lt _ _)) by lia.
    destruct (read_entry_ok dv j x ps i off) as (j1 & E1 & R1); try done; unfold DIRENT in *; try lia.
    rewrite (bind_ok _ _ _ _ _ E1). rewrite Z.eqb_refl. cbn [negb].
    destruct (IH k j1 (off + 16)) as (j2 & R2 & E2); try done; try lia. unfold matches.
    destruct (get16 (entry (j_view x) (ps !!! i) off) 0 =? 0); cbn [negb andb]; [by exists j2|].
    destruct (namecmp name (drop 2 (entry (j_view x) (ps !!! i) off)) =? 0); [by exists j1|by exists j2].
Qed.

Lemma dir_entries v p : dir_ok v p -> DIRENT * Z.of_nat (Z.to_nat (i_size p / DIRENT)) = i_size p.
Proof. intros [[_ _ _ F4 _] _ Hm]. unfold DIRENT in *. lia. Qed.

(** [dirlookup] returns what the directory maps the name to. *)
Lemma dirlookup_ok dv j x ps i name :
  jrep j x -> j_held x = ∅ -> (length (j_logged x) < NBUF)%nat -> dir_ok (j_view x) (ps !!! i) ->
  exists j', jrep j' x /\ dirlookup dv i name (MkFs j sb ps) =
    match dir_lookup (j_view x) (ps !!! i) name with
    | None => Ok None (MkFs j' sb ps)
    | Some (inum, o) => (ip ← iget (i_dev (ps !!! i)) inum; mret (Some (ip, o))) (MkFs j' sb ps)
    end.
Proof.
  intros R Hh Hl D. unfold dirlookup. rewrite (bind_ok _ _ _ _ _ (inode_of_ok _ _ _ _)).
  rewrite (do_type _ _ D), Z.eqb_refl. cbn [negb]. pose proof (dir_entries _ _ D) as He.
  pose proof (fo_size _ _ _ (do_file _ _ D)).
  apply dirlookup_from_ok; try done; unfold DIRENT in *; lia.
Qed.

Lemma empty_dirent_ok dv x ps i : forall n k j off,
  jrep j x -> j_held x = ∅ -> (length (j_logged x) < NBUF)%nat -> dir_ok (j_view x) (ps !!! i) ->
  0 <= off -> off + DIRENT * Z.of_nat n = i_size (ps !!! i) -> (n <= k)%nat ->
  exists j', jrep j' x /\ empty_dirent k dv i off (MkFs j sb ps) =
    Ok (free_slot n (entry (j_view x) (ps !!! i)) off) (MkFs j' sb ps).
Proof.
  induction n as [|n IH]; intros k j off R Hh Hl D H0 Hn Hk.
  - exists j. split; [done|]. unfold DIRENT in *.
    destruct k; cbn [empty_dirent free_slot]; rewrite (bind_ok _ _ _ _ _ (inode_of_ok _ _ _ _)),
      (proj2 (Z.ltb_ge _ _)) by lia; done.
  - destruct k as [|k]; [lia|]. unfold DIRENT in *.
    cbn [empty_dirent free_slot]. rewrite (bind_ok _ _ _ _ _ (inode_of_ok _ _ _ _)), (proj2 (Z.ltb_lt _ _)) by lia.
    destruct (read_entry_ok dv j x ps i off) as (j1 & E1 & R1); try done; unfold DIRENT in *; try lia.
    rewrite (bind_ok _ _ _ _ _ E1). rewrite Z.eqb_refl. cbn [negb].
    destruct (get16 (entry (j_view x) (ps !!! i) off) 0 =? 0); [by exists j1|].
    apply IH; try done; lia.
Qed.

(** The entry [dirlink] writes. *)
Definition new_entry (name : list Z) (inum : Z) : list Z := le_bytes 2 inum ++ name_field name.

Lemma new_entry_inum name inum : 0 <= inum < 2 ^ 16 -> get16 (new_entry name inum) 0 = inum.
Proof.
  intros H. unfold get16, new_entry, get_bytes. rewrite drop_0, take_app_length' by done.
  rewrite le_val_le_bytes. apply Z.mod_small. lia.
Qed.

Lemma new_entry_matches name' name inum :
  byte_list name' -> byte_list name -> (length name' <= 4096)%nat -> 0 < inum < 2 ^ 16 ->
  matches name' (new_entry name inum) = true <-> cname 14 name' = cname 14 name.
Proof.
  intros H' H Hl Hi. unfold matches. rewrite new_entry_inum by lia. rewrite (proj2 (Z.eqb_neq _ _)) by lia.
  cbn [negb andb]. rewrite Z.eqb_eq. unfold new_entry. rewrite drop_app_length' by done. by apply namecmp_field.
Qed.

Lemma stored_entry k x p x' p' o src off :
  stored sb k x p x' p' o src -> length src = 16%nat -> 0 <= o -> 0 <= off ->
  o mod 16 = 0 -> off mod 16 = 0 -> off + 16 <= MAXFILE * BSIZE ->
  entry (j_view x') p' off = if off =? o then src else entry (j_view x) p off.
Proof.
  intros S Hl H0 H1 H2 H3 H4. apply list_eq. intros m. unfold entry. rewrite lookup_file_bytes.
  assert (E : (if off =? o then src else file_bytes (j_view x) p off 16) !! m =
    if decide (m < 16)%nat then Some (if off =? o then src !!! m else file_byte (j_view x) p (off + Z.of_nat m)) else None).
  { destruct (off =? o).
    - case_decide; [by apply list_lookup_lookup_total_lt; rewrite Hl|by apply lookup_ge_None; lia].
    - by rewrite lookup_file_bytes. }
  rewrite E. case_decide as Hm; [|done]. f_equal. rewrite (so_byte _ _ _ _ _ _ _ _ S), Hl by lia.
  destruct (Z.eqb_spec off o) as [->|Hne].
  - rewrite (proj2 (Z.leb_le _ _)), (proj2 (Z.ltb_lt _ _)) by lia. cbn [andb]. f_equal. lia.
  - rewrite (proj2 (andb_false_iff _ _)); [done|]. rewrite Z.leb_gt, Z.ltb_ge. lia.
Qed.

(** The effect of adding an entry, on the view of the directory. *)
Record linked v p v' p' (name : list Z) (inum : Z) : Prop := {
  li_dir : dir_ok v' p';
  li_new : exists off, dir_lookup v' p' name = Some (inum, off);
  li_old : forall name', byte_list name' -> (length name' <= 4096)%nat -> cname 14 name' <> cname 14 name ->
    dir_lookup v' p' name' = dir_lookup v p name'
}.

Definition dir_slot v p : Z := free_slot (Z.to_nat (i_size p / DIRENT)) (entry v p) 0.

Lemma dir_slot_bound v p : dir_ok v p -> 0 <= dir_slot v p <= i_size p /\ dir_slot v p mod 16 = 0.
Proof.
  intros D. pose proof (dir_entries _ _ D) as He. unfold dir_slot.
  destruct (free_slot_spec (Z.to_nat (i_size p / DIRENT)) (entry v p) 0) as (m & Hm & -> & _).
  unfold DIRENT in *. lia.
Qed.

Lemma linked_stored k x p x' p' name inum :
  dir_ok (j_view x) p -> dir_lookup (j_view x) p name = None -> byte_list name -> (length name <= 4096)%nat ->
  0 < inum < 2 ^ 16 -> i_size p + DIRENT <= MAXFILE * BSIZE ->
  stored sb k x p x' p' (dir_slot (j_view x) p) (new_entry name inum) ->
  linked (j_view x) p (j_view x') p' name inum.
Proof.
  intros D Hnone Hb Hlen Hinum Hmax S. pose proof (dir_entries _ _ D) as He. set (n := Z.to_nat (i_size p / DIRENT)) in *.
  unfold dir_slot in S. fold n in S.
  destruct (free_slot_spec n (entry (j_view x) p) 0) as (m & Hm & Eslot & Hz). rewrite Eslot in S. rewrite Z.add_0_l in *.
  assert (Hsl : length (new_entry name inum) = 16%nat)
    by (unfold new_entry; rewrite length_app, length_name_field; done).
  pose proof (fo_size _ _ _ (do_file _ _ D)) as Hsz. pose proof (so_size _ _ _ _ _ _ _ _ S) as Hs'.
  rewrite Hsl in Hs'. change (0 <? Z.of_nat 16) with true in Hs'. cbn [andb] in Hs'. unfold DIRENT in *.
  assert (Hent : forall q, (q <= n)%nat -> entry (j_view x') p' (0 + 16 * Z.of_nat q) =
    if Nat.eqb q m then new_entry name inum else entry (j_view x) p (0 + 16 * Z.of_nat q)).
  { intros q Hq. rewrite (stored_entry _ _ _ _ _ _ _ _ S) by (done || lia).
    destruct (Z.eqb_spec (0 + 16 * Z.of_nat q) (16 * Z.of_nat m)), (Nat.eqb_spec q m); try done; lia. }
  assert (Hn' : Z.to_nat (i_size p' / 16) = if Nat.eqb m n then (n + 1)%nat else n).
  { rewrite Hs'. destruct (Z.ltb_spec (i_size p) (16 * Z.of_nat m + Z.of_nat 16)), (Nat.eqb_spec m n); lia. }
  assert (Hnew : matches name (new_entry name inum) = true) by (by apply new_entry_matches).
  split.
  - split; [apply S| |].
    + destruct (so_meta _ _ _ _ _ _ _ _ S) as (_&_&_&_&Ht&_). rewrite Ht. apply D.
    + rewrite Hs'. unfold DIRENT. destruct (Z.ltb_spec (i_size p) (16 * Z.of_nat m + Z.of_nat 16)); lia.
  - exists (0 + 16 * Z.of_nat m). unfold dir_lookup, DIRENT. rewrite Hn'.
    rewrite (dir_find_first _ _ _ _ m); unfold DIRENT; rewrite ?Hent, ?Nat.eqb_refl by lia; try done.
    + rewrite new_entry_inum by lia. done.
    + destruct (Nat.eqb_spec m n); lia.
    + intros q Hq. rewrite Hent by lia. destruct (Nat.eqb_spec q m); [lia|].
      apply (proj1 (dir_find_none n _ name 0)); [apply Hnone|lia].
  - intros name' Hb' Hl' Hne. unfold dir_lookup, DIRENT. rewrite Hn'. fold n.
    assert (Hnm : matches name' (new_entry name inum) = false).
    { destruct (matches name' (new_entry name inum)) eqn:E; [|done]. by apply new_entry_matches in E. }
    transitivity (dir_find n (entry (j_view x') p') name' 0).
    + destruct (Nat.eqb_spec m n) as [->|]; [|done]. rewrite Nat.add_1_r. apply dir_find_snoc.
      unfold DIRENT. by rewrite Hent, Nat.eqb_refl.
    + apply dir_find_ext. unfold DIRENT. intros q Hq. rewrite Hent by lia. destruct (Nat.eqb_spec q m) as [->|]; [|done].
      rewrite Hnm. unfold matches. rewrite Z.add_0_l, Hz by lia. done.
Qed.

(** A new name goes in, and every other name stays what it was. *)
Lemma dirlink_ok dv j x ps i name inum :
  jrep j x -> meta_used sb (j_view x) -> j_held x = ∅ -> (i < length ps)%nat -> dir_ok (j_view x) (ps !!! i) ->
  dir_lookup (j_view x) (ps !!! i) name = None -> byte_list name -> (length name <= 4096)%nat ->
  0 < inum < 2 ^ 16 -> i_size (ps !!! i) + DIRENT <= MAXFILE * BSIZE -> room 7 x ->
  (2 <= base.size (free_set sb (j_view x)))%nat ->
  exists j' x' p', dirlink dv i name inum (MkFs j sb ps) = Ok 0 (MkFs j' sb (<[i := p']> ps)) /\ jrep j' x' /\
    stored sb 7 x (ps !!! i) x' p' (dir_slot (j_view x) (ps !!! i)) (new_entry name inum) /\
    linked (j_view x) (ps !!! i) (j_view x') p' name inum.
Proof.
  intros R Hm Hh Hi D Hnone Hb Hlen Hinum Hmax [Hr1 Hr2] Hfree. set (p := ps !!! i) in *.
  pose proof jcap_bound as Hcb. pose proof (dir_entries _ _ D) as He. pose proof (dir_slot_bound _ _ D) as [Hs0 Hs1].
  pose proof (fo_size _ _ _ (do_file _ _ D)) as Hsz.
  destruct (dirlookup_ok dv j x ps i name) as (j1 & R1 & E1); try done; try lia. fold p in E1. rewrite Hnone in E1.
  unfold dirlink. rewrite (bind_ok _ _ _ _ _ E1), (bind_ok _ _ _ _ _ (inode_of_ok _ _ _ _)). fold p.
  destruct (empty_dirent_ok dv x ps i (Z.to_nat (i_size p / DIRENT)) (Z.to_nat (i_size p)) j1 0)
    as (j2 & R2 & E2); try done; fold p; unfold DIRENT in *; try lia.
  rewrite (bind_ok _ _ _ _ _ E2). fold p. change (free_slot _ _ 0) with (dir_slot (j_view x) p).
  change (le_bytes 2 inum ++ name_field name) with (new_entry name inum).
  assert (Hsl : length (new_entry name inum) = 16%nat)
    by (unfold new_entry; rewrite length_app, length_name_field; done).
  assert (Hsp : spans (dir_slot (j_view x) p) 16 = 1%nat) by (unfold spans, BSIZE; cbn [Z.eqb]; lia).
  pose proof (writei_ok sb G dv j2 x ps i (new_entry name inum) (dir_slot (j_view x) p) R2 Hm Hh Hi (do_file _ _ D)) as Hw.
  cbn zeta in Hw. rewrite Hsl in Hw. change (Z.of_nat 16) with 16 in Hw. rewrite Hsp in Hw. fold p in Hw.
  specialize (Hw ltac:(lia) ltac:(lia) (conj Hr1 Hr2)).
  destruct (writei dv i (new_entry name inum) (dir_slot (j_view x) p) (MkFs j2 sb ps)) as [r s| | | |] eqn:Ew;
    cbn in Hw; try done; [|lia].
  destruct Hw as (-> & j3 & x' & p' & -> & R3 & S). exists j3, x', p'. split_and!; try done.
  - rewrite (bind_ok _ _ _ _ _ Ew). done.
  - by apply (linked_stored 7).
Qed.

End dirs.

(** ** Path elements *)

Fixpoint split_slash (path : list Z) : list (list Z) :=
  match path with
  | [] => [[]]
  | c :: r =>
      if c =? slash then [] :: split_slash r
      else match split_slash r with e :: es => (c :: e) :: es | [] => [[c]] end
  end.

(** The elements of a path: the non-empty strings between slashes. *)
Definition elements (path : list Z) : list (list Z) := filter (fun e => e <> []) (split_slash path).

Lemma elements_slash r : elements (slash :: r) = elements r.
Proof. done. Qed.

Lemma elements_skip path : elements (skip_slashes path) = elements path.
Proof.
  induction path as [|c r IH]; cbn [skip_slashes]; [done|].
  destruct (Z.eqb_spec c slash) as [->|]; [by rewrite elements_slash|done].
Qed.

Lemma skip_slashes_head path : head (skip_slashes path) <> Some slash.
Proof.
  induction path as [|c r IH]; cbn [skip_slashes]; [done|]. destruct (Z.eqb_spec c slash); [done|]. cbn. congruence.
Qed.

Lemma skip_slashes_suffix path : exists pre, path = pre ++ skip_slashes path.
Proof.
  induction path as [|c r [pre IH]]; cbn [skip_slashes]; [by exists []|].
  destruct (c =? slash); [exists (c :: pre); cbn; by f_equal|by exists []].
Qed.

Lemma split_elem path e rest :
  span_elem path = (e, rest) ->
  path = e ++ rest /\
  split_slash path = e :: (match rest with [] => [] | _ :: r => split_slash r end) /\
  (rest = [] \/ exists r, rest = slash :: r).
Proof.
  revert e rest. induction path as [|c r IH]; intros e rest; cbn [span_elem split_slash].
  - intros [= <- <-]. split_and!; try done. by left.
  - destruct (Z.eqb_spec c slash) as [->|Hc].
    + intros [= <- <-]. split_and!; try done. right. by exists r.
    + destruct (span_elem r) as [e' k] eqn:E. intros [= <- <-].
      destruct (IH e' k eq_refl) as (-> & -> & H). by split_and!.
Qed.

Lemma elements_elem path e rest :
  span_elem path = (e, rest) -> e <> [] -> elements path = e :: elements rest.
Proof.
  intros H Hne. destruct (split_elem _ _ _ H) as (_ & E & Hr). unfold elements at 1. rewrite E, filter_cons_True by done.
  f_equal. destruct Hr as [->|[r ->]]; [done|]. by rewrite elements_slash.
Qed.

Lemma span_elem_nonempty c r e rest : c <> slash -> span_elem (c :: r) = (e, rest) -> e <> [].
Proof.
  intros Hc. cbn [span_elem]. rewrite (proj2 (Z.eqb_neq _ _)) by done. destruct (span_elem r). by intros [= <- <-].
Qed.

Lemma cname_take n l : Forall (fun c => c <> 0) l -> cname n l = take n l.
Proof.
  revert l. induction n as [|n IH]; intros [|c r] H; cbn; try done. apply Forall_cons in H as [Hc Hr].
  rewrite (proj2 (Z.eqb_neq _ _)) by done. f_equal. by apply IH.
Qed.

Lemma cname_app_nul n l r : Forall (fun c => c <> 0) l -> (length l < n)%nat -> cname n (l ++ 0 :: r) = l.
Proof.
  revert l. induction n as [|n IH]; intros [|c l] H Hl; cbn in *; try done; try lia. apply Forall_cons in H as [Hc Hr].
  rewrite (proj2 (Z.eqb_neq _ _)) by done. f_equal. apply IH; [done|lia].
Qed.

(** The buffer [skipelem] leaves holds the element, cut to [DIRSIZ] bytes. *)
Lemma elem_name name e :
  length name = 14%nat -> Forall (fun c => c <> 0) e ->
  let name' := if Z.of_nat (length e) >=? DIRSIZ then put_bytes name 0 (take (Z.to_nat DIRSIZ) e)
               else put_bytes (put_bytes name 0 e) (length e) [0] in
  length name' = 14%nat /\ cname 14 name' = take 14 e.
Proof.
  intros Hl Hnz. cbn zeta. change (Z.to_nat DIRSIZ) with 14%nat. unfold DIRSIZ. rewrite Z.geb_leb.
  destruct (Z.leb_spec 14 (Z.of_nat (length e))) as [H|H].
  - assert (Ht : length (take 14 e) = 14%nat) by (rewrite length_take; lia).
    unfold put_bytes. rewrite Ht, take_0, app_nil_l, drop_ge, app_nil_r by lia.
    split; [done|]. rewrite cname_take by (by apply Forall_take). by rewrite take_take, Nat.min_id.
  - unfold put_bytes. rewrite take_0, app_nil_l.
    rewrite take_app_length, length_app, length_app, length_cons, length_drop, length_app, length_drop, Hl.
    split; [cbn [length]; lia|]. rewrite (take_ge e 14) by lia. apply cname_app_nul; [done|lia].
Qed.
