(* ===== verification/FsSpec.v ===== *)
(** * What the file system promises

    The theorems about fs.c, each stated for any journal that keeps the
    [JournalOk] contract, with an instance on the whole stack: the log over the
    buffer cache over the in-memory disk, booted from a formatted image. *)

From stdpp Require Import base numbers list gmap sets strings.
From Stdlib Require Import ZArith Lia.
From S2P Require Import Prelude CStrings Disk Blocks Bio Log Journal Storage Fs FsBlocks FsFiles FsInodes FsDirs.
Import Bio.Cache.

Open Scope Z_scope.

(** ** A formatted disk *)

(** Sixty blocks: the superblock, a log of 30 blocks at 2, one block of inodes
    at 32, the bitmap at 34 with the first 35 blocks in use, and data from 35. *)
Definition demo_sb : superblock := superblock_of
  (put32 (put32 (put32 (put32 (put32 (put32 (put32 (replicate 512 0) 0 60) 4 25) 8 8) 12 30) 16 2) 20 32) 24 34).

Definition demo_image : list Z :=
  replicate 512 0
  ++ put32 (put32 (put32 (put32 (put32 (put32 (put32 (replicate 512 0) 0 60) 4 25) 8 8) 12 30) 16 2) 20 32) 24 34
  ++ replicate (32 * 512) 0
  ++ put_bytes (replicate 512 0) 0 [255; 255; 255; 255; 7]
  ++ replicate (25 * 512) 0.

Notation demo_disk := (Memide.ideinit demo_image).

Lemma demo_size : drv_size demo_disk = 60.
Proof. vm_compute. reflexivity. Qed.

Lemma demo_layout : layout 2 30 60.
Proof. unfold layout, LOGSIZE, MAXOPBLOCKS. lia. Qed.

Lemma demo_formatted : formatted 2 30 demo_disk.
Proof.
  split; [|split; [|split]].
  - split; vm_compute; congruence.
  - rewrite demo_size. exact demo_layout.
  - split; vm_compute; reflexivity.
  - split; [vm_compute; reflexivity|]. intros k h. by rewrite lookup_nil.
Qed.

(** The journal in the first transaction after boot. *)
Definition demo_journal_ok (d0 : Z -> block) (w0 : list (Z * block)) : JournalOk (lstate (bcache Memide.state)) :=
  log_journal_ok 2 30 60 demo_layout d0 w0 1.

Definition demo_open (d0 : Z -> block) w0 (j : lstate (bcache Memide.state)) (x : ajournal) : Prop :=
  @jrep _ _ (demo_journal_ok d0 w0) j x /\ j_held x = ∅ /\ j_dirty x = ∅ /\ j_logged x = [] /\
  forall n, 0 <= n < 60 -> n < 2 \/ 32 <= n -> j_view x n = drv_block demo_disk n.

Lemma demo_boot : exists d0 w0 j x, demo_open d0 w0 j x.
Proof.
  destruct (session_ok 2 30 demo_disk [Begin]
    (MkTx (drv_block demo_disk) (drv_block demo_disk) [] 1)) as (s & a & _ & I & _).
  - exact demo_formatted.
  - rewrite demo_size. reflexivity.
  - rewrite demo_size in I. exists (a_disk a), (a_writes a), s, (AJournal (a_view a) ∅ ∅ []).
    split_and!; try done.
    + exact (inv_open 2 30 60 s _ a I).
    + intros n Hn Hl. cbn [j_view]. apply (inv_new _ _ _ _ _ _ I); lia.
Qed.

Section demo.
Context (d0 : Z -> block) (w0 : list (Z * block)) (j : lstate (bcache Memide.state)) (x : ajournal).
Context (O : demo_open d0 w0 j x).
#[local] Instance demo_jok : JournalOk (lstate (bcache Memide.state)) := demo_journal_ok d0 w0.
#[local] Instance demo_intx : InTx (lstate (bcache Memide.state)).
Proof. cbv. discriminate. Qed.

Lemma demo_geometry : geometry demo_sb.
Proof.
  split.
  - vm_compute. split; discriminate.
  - vm_compute. discriminate.
  - vm_compute. split_and!; (discriminate || reflexivity).
  - intros n Hn. change (32 <= n < 60) in Hn. change (home 2 30 60 n). unfold home. lia.
Qed.

(** The blocks in use are those below 35. *)
Lemma demo_used n : 0 <= n < 60 -> used demo_sb (j_view x) n = (n <? 35).
Proof.
  destruct O as (_ & _ & _ & _ & Hv). intros Hn. unfold used. change (sb_bmapstart demo_sb) with 34.
  change BPB with 4096. replace (n / 4096) with 0 by lia. change (0 + 34) with 34. rewrite Hv by lia.
  replace (n mod 4096) with n by lia.
  assert (H : forallb (fun n => Bool.eqb (negb (clear (drv_block demo_disk 34) n)) (n <? 35)) (seqZ 0 60) = true)
    by (vm_compute; reflexivity).
  rewrite forallb_forall in H. apply eqb_prop, H. apply list_elem_of_In, elem_of_seqZ. lia.
Qed.

Lemma demo_meta_used : meta_used demo_sb (j_view x).
Proof.
  intros b Hb Hu. change (sb_size demo_sb) with 60 in Hb. rewrite demo_used in Hu by done.
  change (datastart demo_sb) with 35. apply Z.ltb_ge in Hu. lia.
Qed.

Lemma demo_free : (25 <= base.size (free_set demo_sb (j_view x)))%nat.
Proof.
  transitivity (base.size (list_to_set (seqZ 35 25) : gset Z)); [vm_compute; lia|].
  apply subseteq_size. intros b [Hb]%elem_of_list_to_set%elem_of_seqZ. apply elem_of_filter.
  rewrite demo_used by lia. split; [apply Z.ltb_ge; lia|].
  apply elem_of_list_to_set, elem_of_seqZ. change (sb_size demo_sb) with 60. lia.
Qed.

Lemma demo_room k : (k <= 29)%nat -> room k x.
Proof.
  destruct O as (_ & Hh & _ & Hl & _). intros Hk. unfold room. rewrite Hl, Hh, map_size_empty.
  split; [change jcap with 29; cbn; lia|unfold NBUF, MAXOPBLOCKS; cbn; lia].
Qed.

End demo.

(** No device drivers. *)
Definition no_dev {J} : devops (J := J) := MkDevops (fun _ => None) (fun _ => None).

(** An empty file or directory, in a cache of one inode. *)
Definition demo_ino (type : Z) : inode := MkInode ROOTDEV 2 1 3 type 0 0 1 0 (replicate 13 0).

Lemma demo_blk v type bn : 0 <= bn -> blk v (demo_ino type) bn = 0.
Proof.
  intros H. unfold blk, addr. cbn [demo_ino i_addrs]. destruct (Z.ltb_spec bn NDIRECT) as [Hd|]; [|done].
  rewrite lookup_total_replicate_2; [done|]. fs_consts. lia.
Qed.

Lemma demo_file_ok {J} `{!Journal J, !JournalOk J} v type : type <> T_DEV -> file_ok demo_sb v (demo_ino type).
Proof.
  intros Ht. split.
  - split; try done.
    + intros bn Hbn H. by rewrite demo_blk in H by lia.
    + intros bn bn' Hbn _ _ H. by rewrite demo_blk in H by lia.
  - split; [done|]. vm_compute. split; [discriminate|reflexivity].
  - done.
  - cbn. fs_consts. lia.
  - intros bn H0 H1. cbn in H1. fs_consts. lia.
Qed.

(** ** Reading back what was written *)

(** C2: A [writei] within bounds, with room in the log and blocks free, returns
    the byte count; a [readi] of the same range then returns exactly the bytes
    written, every other byte of the file is what it was, and the size is the
    larger of the old size and the end of the write. *)
Theorem writei_readi_roundtrip {J} `{!Journal J, !JournalOk J, !InTx J} sb dv (j : J) x ps i src off :
  geometry sb -> jrep j x -> meta_used sb (j_view x) -> j_held x = ∅ -> (i < length ps)%nat ->
  file_ok sb (j_view x) (ps !!! i) ->
  0 <= off <= i_size (ps !!! i) -> off + Z.of_nat (length src) <= MAXFILE * BSIZE ->
  room (6 * spans off (Z.of_nat (length src)) + 1) x ->
  (2 * spans off (Z.of_nat (length src)) <= base.size (free_set sb (j_view x)))%nat ->
  exists j1 j2 x' p',
    writei dv i src off (MkFs j sb ps) = Ok (Z.of_nat (length src)) (MkFs j1 sb (<[i := p']> ps)) /\
    readi dv i off (Z.of_nat (length src)) (MkFs j1 sb (<[i := p']> ps))
      = Ok (Z.of_nat (length src), src) (MkFs j2 sb (<[i := p']> ps)) /\
    jrep j2 x' /\ file_ok sb (j_view x') p' /\
    i_size p' = Z.max (i_size (ps !!! i)) (off + Z.of_nat (length src)) /\
    forall o, 0 <= o < MAXFILE * BSIZE -> o < off \/ off + Z.of_nat (length src) <= o ->
      file_byte (j_view x') p' o = file_byte (j_view x) (ps !!! i) o.
Proof.
  intros G R Hm Hh Hi F Hoff Hmax [Hr1 Hr2] Hfree. set (n := Z.of_nat (length src)) in *.
  pose proof (writei_ok sb G dv j x ps i src off R Hm Hh Hi F Hoff Hmax (conj Hr1 Hr2)) as Hw. fold n in Hw.
  destruct (writei dv i src off (MkFs j sb ps)) as [r s| | | |]; try done; cbn in Hw; [|lia].
  destruct Hw as (-> & j1 & x' & p' & -> & R1 & [S1 S2 S3 _ S3' S4 S5 S6 _ _]).
  assert (Ep : <[i := p']> ps !!! i = p') by (by apply list_lookup_total_insert_eq).
  assert (Hsz : i_size p' = Z.max (i_size (ps !!! i)) (off + n)).
  { rewrite S4. fold n. destruct (Z.ltb_spec 0 n), (Z.ltb_spec (i_size (ps !!! i)) (off + n)); cbn [andb]; lia. }
  pose proof S1 as [T1 T2 T3 T4 T5]. pose proof (fo_size _ _ _ F) as Hsz0. pose proof jcap_bound as Hcb.
  destruct (readi_ok sb G dv j1 x' (<[i := p']> ps) i off n) as (j2 & E2 & R2);
    rewrite ?Ep; try done; fs_consts; try lia.
  exists j1, j2, x', p'. split_and!; try done.
  - rewrite E2, Ep. f_equal. unfold read_result.
    rewrite Z.gtb_ltb, (proj2 (Z.ltb_ge _ _)), (proj2 (Z.leb_gt _ _)) by lia. cbn [orb].
    rewrite Z.min_l by lia. f_equal. apply list_eq. intros k. rewrite lookup_file_bytes.
    unfold n. rewrite Nat2Z.id. case_decide as Hk.
    + rewrite S6 by lia. rewrite (proj2 (Z.leb_le _ _)), (proj2 (Z.ltb_lt _ _)) by lia. cbn [andb].
      replace (Z.to_nat (off + Z.of_nat k - off)) with k by lia.
      symmetry. by apply list_lookup_lookup_total_lt.
    + symmetry. apply lookup_ge_None. lia.
  - intros o Ho Hout. rewrite S6 by done. fold n.
    rewrite (proj2 (andb_false_iff _ _)); [done|]. rewrite Z.leb_gt, Z.ltb_ge. lia.
Qed.

Lemma writei_readi_roundtrip_witness :
  exists d0 w0 j x j1 p' r, demo_open d0 w0 j x /\
    writei no_dev 0 [1; 2; 3] 0 (MkFs j demo_sb [demo_ino T_FILE]) = Ok 3 (MkFs j1 demo_sb [p']) /\
    i_size p' = 3 /\ readi no_dev 0 0 3 (MkFs j1 demo_sb [p']) = Ok (3, [1; 2; 3]) r.
Proof.
  destruct demo_boot as (d0 & w0 & j & x & O). pose proof O as (R & Hh & _).
  destruct (@writei_readi_roundtrip _ _ (demo_jok d0 w0) (demo_intx d0 w0) demo_sb no_dev j x [demo_ino T_FILE] 0 [1; 2; 3] 0)
    as (j1 & j2 & x' & p' & E1 & E2 & _ & _ & Es & _).
  - apply demo_geometry.
  - exact R.
  - exact (demo_meta_used d0 w0 j x O).
  - exact Hh.
  - cbn; lia.
  - apply (@demo_file_ok _ _ (demo_jok d0 w0)). discriminate.
  - cbn; lia.
  - cbn; fs_consts; lia.
  - exact (demo_room d0 w0 j x O 7 ltac:(lia)).
  - pose proof (demo_free d0 w0 j x O). change (spans 0 (Z.of_nat (length [1; 2; 3]))) with 1%nat. lia.
  - exists d0, w0, j, x, j1, p', (MkFs j2 demo_sb [p']). split; [exact O|]. split; [exact E1|]. split; [exact Es|exact E2].
Defined.

(** ** Blocks *)

(** C6: [balloc] returns the lowest free block, zeroed and now in use, and
    changes no other bit of the bitmap; [bfree] of it gives the bitmap back as
    it was, and freeing it twice panics.  With no block free, [balloc] panics. *)
Theorem balloc_bfree_roundtrip {J} `{!Journal J, !JournalOk J, !InTx J} sb (j : J) x ps :
  geometry sb -> jrep j x -> meta_used sb (j_view x) -> j_held x = ∅ -> room 4 x ->
  superblock_of (j_view x 1) = sb ->
  (exists b j1 j2 x1 x2,
    balloc ROOTDEV (MkFs j sb ps) = Ok b (MkFs j1 sb ps) /\ jrep j1 x1 /\
    0 <= b < sb_size sb /\ used sb (j_view x) b = false /\
    (forall n, 0 <= n < b -> used sb (j_view x) n = true) /\
    j_view x1 b = replicate (Z.to_nat BSIZE) 0 /\
    (forall n, 0 <= n < sb_size sb -> used sb (j_view x1) n = (n =? b) || used sb (j_view x) n) /\
    bfree ROOTDEV b (MkFs j1 sb ps) = Ok tt (MkFs j2 sb ps) /\ jrep j2 x2 /\
    (forall n, 0 <= n < sb_size sb -> used sb (j_view x2) n = used sb (j_view x) n) /\
    bfree ROOTDEV b (MkFs j2 sb ps) = Panic "freeing free block") \/
  ((forall n, 0 <= n < sb_size sb -> used sb (j_view x) n = true) /\
   balloc ROOTDEV (MkFs j sb ps) = Panic "balloc: out of blocks").
Proof.
  intros G R Hm Hh [Hr1 Hr2] Hsb. pose proof (datastart_pos sb G) as Hds.
  assert (Hu : forall y n, j_held y = ∅ -> unheld n y) by (intros; by apply unheld_empty).
  destruct (first_free sb (j_view x) (sb_size sb)) as [Hall|(b & Hb & Hf & Hmin)]; [right|left].
  { split; [done|]. unfold balloc. rewrite (bind_ok _ _ _ _ _ (get_ok _)). cbn [f_sb].
    apply (balloc_from_full _ j x); try done; [split; lia|intros n _ _; by apply Hu|fs_consts; lia]. }
  destruct (balloc_ok j x sb ps b) as (j1 & E1 & R1); try done; [split; lia|intros n _ _; by apply Hu|].
  assert (Hlo : datastart sb <= b) by (by apply Hm).
  assert (Hb1 : forall n, 0 <= n < sb_size sb -> used sb (j_view (allocated sb b x)) n = (n =? b) || used sb (j_view x) n).
  { intros n Hn. rewrite used_allocated; try done; [intros m Hm'; by apply (jview_ok j x)|lia]. }
  set (x1 := allocated sb b x) in *. assert (Hh1 : j_held x1 = ∅) by done.
  assert (Hl1 : (length (j_logged x1) <= length (j_logged x) + 2)%nat).
  { cbn. etransitivity; [apply add_logged_length|]. pose proof (add_logged_length (b / BPB + sb_bmapstart sb) (j_logged x)). lia. }
  assert (Hsb1 : superblock_of (j_view x1 1) = sb).
  { unfold x1. rewrite view_allocated; [done|lia|]. destruct G as [_ _ [? [? ?]] _]. fs_consts. lia. }
  rewrite Hh, map_size_empty in Hr2.
  assert (Hroom : forall k, (k <= 2)%nat -> room k x1) by (intros k Hk; split; [lia|rewrite Hh1, map_size_empty; lia]).
  pose proof (bfree_run j1 x1 sb ps b R1 G (Hroom 1%nat ltac:(lia)) ltac:(intros n _ _; by apply Hu) (Hu _ _ Hh1) Hsb1 Hb) as Hfree.
  rewrite Hb1, Z.eqb_refl in Hfree by done. destruct Hfree as (j2 & E2 & R2). set (x2 := freed sb b x1) in *.
  assert (Hb2 : forall n, 0 <= n < sb_size sb -> used sb (j_view x2) n = used sb (j_view x) n).
  { intros n Hn. unfold x2. rewrite used_freed; try done; [|intros m Hm'; by apply (jview_ok j1 x1)].
    rewrite Hb1 by done. destruct (Z.eqb_spec n b); by subst. }
  assert (Hsb2 : superblock_of (j_view x2 1) = sb).
  { unfold x2, freed, j_write. cbn [j_view]. rewrite zset_ne; [done|]. destruct G as [_ _ [? [? ?]] _]. fs_consts. lia. }
  exists b, j1, j2, x1, x2. split_and!; try done; try lia; [apply view_allocated_new|].
  pose proof (bfree_run j2 x2 sb ps b R2 G) as Hagain. rewrite Hb2, Hf in Hagain by done.
  apply Hagain; try done; [|intros n _ _; by apply Hu|by apply Hu].
  pose proof (add_logged_length (b / BPB + sb_bmapstart sb) (j_logged x1)).
  split; cbn; rewrite ?Hh, ?map_size_empty; cbn in *; lia.
Qed.

Lemma demo_sb_block d0 w0 j x : demo_open d0 w0 j x -> superblock_of (j_view x 1) = demo_sb.
Proof. intros (_ & _ & _ & _ & Hv). rewrite Hv by lia. vm_compute. reflexivity. Qed.

Lemma balloc_bfree_roundtrip_witness :
  exists d0 w0 j x j1, demo_open d0 w0 j x /\ balloc ROOTDEV (MkFs j demo_sb []) = Ok 35 (MkFs j1 demo_sb []).
Proof.
  destruct demo_boot as (d0 & w0 & j & x & O). exists d0, w0, j, x. pose proof O as (R & Hh & _).
  destruct (@balloc_bfree_roundtrip _ _ (demo_jok d0 w0) (demo_intx d0 w0) demo_sb j x [])
    as [(b & j1 & j2 & x1 & x2 & E & _ & Hb & Hu & Hmin & _)|[Hall _]].
  - apply demo_geometry.
  - exact R.
  - exact (demo_meta_used d0 w0 j x O).
  - exact Hh.
  - exact (demo_room d0 w0 j x O 4 ltac:(lia)).
  - exact (demo_sb_block d0 w0 j x O).
  - exists j1. split; [exact O|]. change (sb_size demo_sb) with 60 in Hb.
    rewrite (demo_used d0 w0 j x O) in Hu by lia. apply Z.ltb_ge in Hu.
    destruct (Z.eq_dec b 35) as [->|Hne]; [exact E|].
    specialize (Hmin 35 ltac:(lia)). rewrite (demo_used d0 w0 j x O) in Hmin by lia. discriminate.
  - exfalso. specialize (Hall 35 ltac:(vm_compute; split; [discriminate|reflexivity])).
    rewrite (demo_used d0 w0 j x O) in Hall by lia. discriminate.
Defined.

(** ** Files *)

(** [bmap] gives block [bn] of a file an address of its own: with two
    blocks free it returns a non-zero address in the data area that no other
    block of the file has, asking again returns the same address and changes
    nothing, the file reads as before (a new block is all zeros), and every
    block in use elsewhere keeps its contents.  Out of range it panics. *)
Theorem bmap_own_block {J} `{!Journal J, !JournalOk J, !InTx J} sb (j : J) x ps i bn :
  geometry sb -> jrep j x -> meta_used sb (j_view x) -> j_held x = ∅ -> room 5 x -> (i < length ps)%nat ->
  ino_ok sb (j_view x) (ps !!! i) -> 0 <= bn -> (2 <= base.size (free_set sb (j_view x)))%nat ->
  if bn <? MAXFILE then
    exists a j1 j2 x' p', bmap i bn (MkFs j sb ps) = Ok a (MkFs j1 sb (<[i := p']> ps)) /\ jrep j1 x' /\
      ino_ok sb (j_view x') p' /\ datastart sb <= a < sb_size sb /\
      (forall bn', 0 <= bn' < MAXFILE -> bn' <> bn -> blk (j_view x') p' bn' <> a) /\
      bmap i bn (MkFs j1 sb (<[i := p']> ps)) = Ok a (MkFs j2 sb (<[i := p']> ps)) /\ jrep j2 x' /\
      (forall o, 0 <= o < MAXFILE * BSIZE -> file_byte (j_view x') p' o = file_byte (j_view x) (ps !!! i) o) /\
      (forall n, datastart sb <= n < sb_size sb -> used sb (j_view x) n = true -> n <> addr (ps !!! i) NDIRECT ->
        j_view x' n = j_view x n)
  else bmap i bn (MkFs j sb ps) = Panic "bmap: out of range".
Proof.
  intros G R Hm Hh Hr Hi I H0 Hfree. destruct (Z.ltb_spec bn MAXFILE) as [Hbn|Hbn].
  - pose proof (bmap_ok sb G j x ps i bn R Hm Hh Hr Hi I (conj H0 Hbn)) as Hb. pose proof Hr as [Hr1 Hr2].
    pose proof jcap_bound as Hcb.
    destruct (bmap i bn (MkFs j sb ps)) as [a s| | | |]; cbn in Hb; try done; [|lia].
    destruct Hb as (j1 & x' & p' & -> & R1 & M & Ha & Eb).
    assert (Ep : <[i := p']> ps !!! i = p') by (by apply list_lookup_total_insert_eq).
    pose proof (mp_ok _ _ _ _ _ _ _ M) as I'. pose proof (mp_logged _ _ _ _ _ _ _ M) as Hl.
    destruct (bmap_mapped sb G j1 x' (<[i := p']> ps) i bn) as (j2 & E2 & R2); rewrite ?Ep; try done; try congruence.
    { rewrite (mp_held _ _ _ _ _ _ _ M). done. } { lia. }
    rewrite Ep, Eb in E2. exists a, j1, j2, x', p'. subst a. split_and!; try done.
    + apply (io_blk _ _ _ I' bn (conj H0 Hbn) Ha).
    + apply (io_blk _ _ _ I' bn (conj H0 Hbn) Ha).
    + intros bn' Hbn' Hne E. by apply (io_inj _ _ _ I' bn bn' (conj H0 Hbn) Hbn' (not_eq_sym Hne) Ha).
    + intros o Ho. unfold file_byte. rewrite (mp_file _ _ _ _ _ _ _ M); [done|]. fs_consts. lia.
    + intros n Hn Hu Hne. apply (mp_frame _ _ _ _ _ _ _ M). by right.
  - unfold bmap. rewrite (bind_ok _ _ _ _ _ (inode_of_ok _ _ _ _)). fs_consts.
    rewrite !(proj2 (Z.ltb_ge _ _)) by lia. done.
Qed.

Lemma bmap_own_block_witness :
  exists d0 w0 j x a s, demo_open d0 w0 j x /\
    bmap 0 20 (MkFs j demo_sb [demo_ino T_FILE]) = Ok a s /\ 35 <= a < 60.
Proof.
  destruct demo_boot as (d0 & w0 & j & x & O). pose proof O as (R & Hh & _).
  destruct (@bmap_own_block _ _ (demo_jok d0 w0) (demo_intx d0 w0) demo_sb j x [demo_ino T_FILE] 0 20)
    as (a & j1 & j2 & x' & p' & E1 & _ & _ & Ha & _).
  - apply demo_geometry.
  - exact R.
  - exact (demo_meta_used d0 w0 j x O).
  - exact Hh.
  - exact (demo_room d0 w0 j x O 5 ltac:(lia)).
  - cbn; lia.
  - apply (@demo_file_ok _ _ (demo_jok d0 w0)). discriminate.
  - lia.
  - pose proof (demo_free d0 w0 j x O). lia.
  - exists d0, w0, j, x, a, (MkFs j1 demo_sb [p']). split; [exact O|]. split; [exact E1|exact Ha].
Defined.

(** ** Inodes *)

(** An inode survives the cache: [iupdate] writes it to disk, and [ilock] of
    a fresh entry for the same inode number, as [iget] makes it, reads every
    field back. *)
Theorem iupdate_ilock_roundtrip {J} `{!Journal J, !JournalOk J, !InTx J} sb (j : J) x ps i i' :
  geometry sb -> jrep j x -> j_held x = ∅ -> room 1 x -> (i' < length ps)%nat ->
  inum_ok sb (ps !!! i) -> dinode_fits (ps !!! i) -> i_type (ps !!! i) <> 0 ->
  i_dev (ps !!! i') = i_dev (ps !!! i) -> i_inum (ps !!! i') = i_inum (ps !!! i) ->
  1 <= i_ref (ps !!! i') -> i_flags (ps !!! i') = 0 ->
  exists j1 j2 q, iupdate i (MkFs j sb ps) = Ok tt (MkFs j1 sb ps) /\
    ilock (Some i') (MkFs j1 sb ps) = Ok tt (MkFs j2 sb (<[i' := q]> ps)) /\
    q = MkInode (i_dev (ps !!! i)) (i_inum (ps !!! i)) (i_ref (ps !!! i')) (Z.lor I_BUSY I_VALID)
          (i_type (ps !!! i)) (i_major (ps !!! i)) (i_minor (ps !!! i)) (i_nlink (ps !!! i))
          (i_size (ps !!! i)) (i_addrs (ps !!! i)).
Proof.
  intros G R Hh [Hr1 Hr2] Hi' Hio Hfit Ht Hd Hn Href Hfl. pose proof jcap_bound as Hcb.
  pose proof Hfit as (_ & _ & _ & _ & _ & Hlen & _).
  destruct (iupdate_ok sb G j x ps i R Hh (conj Hr1 Hr2) Hio Hlen) as (j1 & E1 & R1).
  set (p := ps !!! i) in *. set (p' := ps !!! i') in *. set (x1 := updated sb p x) in *.
  assert (Hio' : inum_ok sb p') by (unfold inum_ok; rewrite Hd, Hn; exact Hio).
  assert (Ei : iblock sb p' = iblock sb p) by (unfold iblock; by rewrite Hn).
  assert (Hrd : forall r, read_dinode (j_view x1 (iblock sb p')) (dinode_off (i_inum p')) r =
    set_dinode (i_type p) (i_major p) (i_minor p) (i_nlink p) (i_size p) (i_addrs p) r).
  { intros r. rewrite Ei, Hn. unfold x1, updated. cbn [j_view j_write]. rewrite zset_eq.
    apply read_write_dinode; [done|]. destruct (iblock_spec sb G p Hio) as (_ & _ & Hb & Hbs).
    pose proof (jview_ok j x (iblock sb p) R ltac:(lia)) as Hok. unfold block_ok in Hok. fs_consts.
    pose proof (dinode_off_bound (i_inum p)). lia. }
  destruct (ilock_load sb G j1 x1 ps i' R1 Hh) as (j2 & E2 & _); try done.
  - cbn. pose proof (add_logged_length (iblock sb p) (j_logged x)). lia.
  - fold p'. rewrite Hrd. done.
  - exists j1, j2. eexists. split_and!; [done|exact E2|]. fold p'. rewrite Hrd. unfold set_dinode, set_iflags. cbn. congruence.
Qed.

Lemma iupdate_ilock_roundtrip_witness :
  exists d0 w0 j x s, demo_open d0 w0 j x /\
    (iupdate 0;; ilock (Some 1%nat)) (MkFs j demo_sb [demo_ino T_FILE; set_iflags 0 (demo_ino 0)]) = Ok tt s /\
    f_inodes s !!! 1%nat = demo_ino T_FILE.
Proof.
  destruct demo_boot as (d0 & w0 & j & x & O). pose proof O as (R & Hh & _).
  destruct (@iupdate_ilock_roundtrip _ _ (demo_jok d0 w0) (demo_intx d0 w0) demo_sb j x
    [demo_ino T_FILE; set_iflags 0 (demo_ino 0)] 0 1) as (j1 & j2 & q & E1 & E2 & Eq).
  - apply demo_geometry.
  - exact R.
  - exact Hh.
  - exact (demo_room d0 w0 j x O 1 ltac:(lia)).
  - cbn; lia.
  - split; [reflexivity|]. vm_compute. split; [discriminate|reflexivity].
  - unfold dinode_fits. cbn. split_and!; try lia; try done. repeat constructor; lia.
  - discriminate.
  - reflexivity.
  - reflexivity.
  - cbn; lia.
  - reflexivity.
  - exists d0, w0, j, x, (MkFs j2 demo_sb (<[1%nat := q]> [demo_ino T_FILE; set_iflags 0 (demo_ino 0)])).
    split; [exact O|]. split; [|rewrite Eq; reflexivity].
    rewrite (bind_ok _ _ _ _ _ E1). exact E2.
Defined.

(** The inode cache holds at most one entry per inode.  [iget] returns an
    entry for the inode asked for: the one in use, with one more reference,
    or the first unused one, with one reference and nothing read yet; every
    other entry is untouched and still no inode has two.  It panics exactly
    when the inode is not cached and no entry is unused. *)
Theorem iget_one_entry {J} `{!Journal J} dev inum (s : fs J) :
  icache_ok (f_inodes s) -> Forall (fun p => 0 <= i_ref p) (f_inodes s) ->
  match iget dev inum s with
  | Ok i s' =>
      icache_ok (f_inodes s') /\ Forall (fun p => 0 <= i_ref p) (f_inodes s') /\
      f_j s' = f_j s /\ f_sb s' = f_sb s /\
      (exists p, f_inodes s !! i = Some p /\
        if decide (holds_ino dev inum p) then f_inodes s' = <[i := set_ref (i_ref p + 1) p]> (f_inodes s)
        else i_ref p = 0 /\ Forall (fun q => ~ holds_ino dev inum q) (f_inodes s) /\
          exists q, f_inodes s' = <[i := q]> (f_inodes s) /\ i_dev q = dev /\ i_inum q = inum /\
            i_ref q = 1 /\ i_flags q = 0)
  | Panic msg => msg = "iget: no inodes"%string /\
      Forall (fun p => 0 < i_ref p /\ ~ holds_ino dev inum p) (f_inodes s)
  | _ => False
  end.
Proof.
  intros Hok Hnn. destruct s as [j sb ps]. cbn [f_inodes f_j f_sb] in *.
  unfold iget. rewrite (bind_ok _ _ _ _ _ (get_ok _)). cbn [f_inodes].
  pose proof (iget_scan_spec dev inum ps 0 None) as H. destruct (iget_scan dev inum ps 0 None) as [i|[i|]].
  - destruct H as (_ & p & Hp & Hh). rewrite Nat.sub_0_r in Hp.
    pose proof (lookup_lt_Some _ _ _ Hp) as Hi. pose proof (list_lookup_total_correct _ _ _ Hp) as Ep.
    rewrite (bind_ok _ _ _ _ _ (modi_ok _ _ _ _ _ Hi)), Ep. cbn [mret M_ret f_inodes f_j f_sb]. hnf. cbn [f_inodes f_j f_sb].
    assert (Hk : forall k q, ps !! k = Some q -> k <> i -> ~ holds_ino (i_dev p) (i_inum p) q).
    { intros k q Hq Hne (H1 & H2 & H3). apply Hne. destruct Hh as (Hr & _). by apply (Hok k i q p). }
    split_and!; try done.
    + by apply icache_ok_insert.
    + apply Forall_insert; [done|]. destruct Hh as [Hr _]. cbn. lia.
    + exists p. split; [done|]. by rewrite decide_True.
  - destruct H as [Hf (_ & p & Hp & Hr)]. rewrite Nat.sub_0_r in Hp.
    pose proof (lookup_lt_Some _ _ _ Hp) as Hi. pose proof (list_lookup_total_correct _ _ _ Hp) as Ep.
    rewrite (bind_ok _ _ _ _ _ (modi_ok _ _ _ _ _ Hi)), Ep. hnf. cbn [f_inodes f_j f_sb].
    split_and!; try done.
    + apply icache_ok_insert; [done|]. cbn. intros k q Hq _. by apply (proj1 (Forall_lookup _ _) Hf k q).
    + apply Forall_insert; [done|]. cbn. lia.
    + exists p. split; [done|]. rewrite decide_False by (intros [? _]; lia). split_and!; try done. by eexists.
  - destruct H as [Hf Hr]. split; [done|]. apply Forall_lookup. intros k p Hp.
    pose proof (proj1 (Forall_lookup _ _) Hr k p Hp). pose proof (proj1 (Forall_lookup _ _) Hnn k p Hp).
    split; [cbn in *; lia|]. by apply (proj1 (Forall_lookup _ _) Hf k p).
Qed.

Lemma iget_one_entry_witness :
  let ps := [demo_ino T_FILE; set_ref 0 (demo_ino T_DIR)] in
  exists s, iget ROOTDEV 7 (MkFs (J := lstate (bcache Memide.state)) (MkL (bss demo_disk) log0) demo_sb ps) = Ok 1%nat s /\
    icache_ok (f_inodes s).
Proof.
  intros ps. eexists. split; [reflexivity|].
  pose proof (iget_one_entry (J := lstate (bcache Memide.state)) ROOTDEV 7
    (MkFs (MkL (bss demo_disk) log0) demo_sb ps)) as H.
  refine (proj1 (H _ _)); cbn.
  - intros [|[|i]] [|[|k]] p q; cbn; intros [= <-] [= <-]; cbn; try done; lia.
  - repeat constructor; cbn; lia.
Defined.

(** ** Directories *)

(** C5: [dirlink] of a new name adds the entry and nothing else: it returns 0,
    [dirlookup] of the name then finds the inode number given, and
    [dirlookup] of every name that differs in its first [DIRSIZ] bytes finds
    what it found before. *)
Theorem dirlink_dirlookup {J} `{!Journal J, !JournalOk J, !InTx J} sb dv (j : J) x ps i name inum :
  geometry sb -> jrep j x -> meta_used sb (j_view x) -> j_held x = ∅ -> (i < length ps)%nat ->
  dir_ok sb (j_view x) (ps !!! i) -> dir_lookup (j_view x) (ps !!! i) name = None ->
  byte_list name -> (length name <= 4096)%nat -> 0 < inum < 2 ^ 16 ->
  i_size (ps !!! i) + DIRENT <= MAXFILE * BSIZE -> room 8 x ->
  (2 <= base.size (free_set sb (j_view x)))%nat ->
  exists j1 x1 p', let ps' := <[i := p']> ps in
    dirlink dv i name inum (MkFs j sb ps) = Ok 0 (MkFs j1 sb ps') /\ jrep j1 x1 /\ dir_ok sb (j_view x1) p' /\
    (exists j2 off, jrep j2 x1 /\ dirlookup dv i name (MkFs j1 sb ps') =
      (ip ← iget ROOTDEV inum; mret (Some (ip, off))) (MkFs j2 sb ps')) /\
    (forall name', byte_list name' -> (length name' <= 4096)%nat -> cname 14 name' <> cname 14 name ->
      exists j0 j2, jrep j0 x /\ jrep j2 x1 /\
        match dir_lookup (j_view x) (ps !!! i) name' with
        | None => dirlookup dv i name' (MkFs j sb ps) = Ok None (MkFs j0 sb ps) /\
                  dirlookup dv i name' (MkFs j1 sb ps') = Ok None (MkFs j2 sb ps')
        | Some (k, o) =>
            dirlookup dv i name' (MkFs j sb ps) = (ip ← iget ROOTDEV k; mret (Some (ip, o))) (MkFs j0 sb ps) /\
            dirlookup dv i name' (MkFs j1 sb ps') = (ip ← iget ROOTDEV k; mret (Some (ip, o))) (MkFs j2 sb ps')
        end).
Proof.
  intros G R Hm Hh Hi D Hnone Hb Hlen Hinum Hmax [Hr1 Hr2] Hfree. pose proof jcap_bound as Hcb.
  destruct (dirlink_ok sb G dv j x ps i name inum) as (j1 & x1 & p' & E & R1 & S & [L1 [off L2] L3]); try done.
  { split; lia. }
  exists j1, x1, p'. cbn zeta. set (ps' := <[i := p']> ps).
  assert (Ep : ps' !!! i = p') by (by apply list_lookup_total_insert_eq).
  assert (Hdev : forall v p, dir_ok sb v p -> i_dev p = ROOTDEV) by (intros v p [[[Hdv] _ _ _ _] _ _]; done).
  assert (Hl : forall nm, exists j2, jrep j2 x1 /\ dirlookup dv i nm (MkFs j1 sb ps') =
    match dir_lookup (j_view x1) p' nm with
    | None => Ok None (MkFs j2 sb ps')
    | Some (k, o) => (ip ← iget ROOTDEV k; mret (Some (ip, o))) (MkFs j2 sb ps')
    end).
  { intros nm. destruct (dirlookup_ok sb G dv j1 x1 ps' i nm) as (j2 & R2 & E2); rewrite ?Ep in *; try done.
    - apply S.
    - pose proof (so_logged _ _ _ _ _ _ _ _ S). lia.
    - exists j2. split; [done|]. by rewrite E2, (Hdev _ _ L1). }
  split_and!; try done.
  - destruct (Hl name) as (j2 & R2 & E2). rewrite L2 in E2. by exists j2, off.
  - intros name' Hb' Hlen' Hne. destruct (Hl name') as (j2 & R2 & E2). rewrite L3 in E2 by done.
    destruct (dirlookup_ok sb G dv j x ps i name') as (j0 & R0 & E0); try done; [lia|]. rewrite (Hdev _ _ D) in E0.
    exists j0, j2. destruct (dir_lookup (j_view x) (ps !!! i) name') as [[k o]|]; done.
Qed.

Lemma dirlink_dirlookup_witness :
  exists d0 w0 j x j1 p', demo_open d0 w0 j x /\
    dirlink no_dev 0 [97; 98] 5 (MkFs j demo_sb [demo_ino T_DIR]) = Ok 0 (MkFs j1 demo_sb [p']).
Proof.
  destruct demo_boot as (d0 & w0 & j & x & O). pose proof O as (R & Hh & _).
  destruct (@dirlink_dirlookup _ _ (demo_jok d0 w0) (demo_intx d0 w0) demo_sb no_dev j x [demo_ino T_DIR] 0 [97; 98] 5)
    as (j1 & x1 & p' & E & _).
  - apply demo_geometry.
  - exact R.
  - exact (demo_meta_used d0 w0 j x O).
  - exact Hh.
  - cbn; lia.
  - split; [|reflexivity|reflexivity]. apply (@demo_file_ok _ _ (demo_jok d0 w0)). discriminate.
  - reflexivity.
  - unfold byte_list, is_byte. repeat constructor; lia.
  - cbn; lia.
  - lia.
  - cbn; unfold DIRENT; fs_consts; lia.
  - exact (demo_room d0 w0 j x O 8 ltac:(lia)).
  - pose proof (demo_free d0 w0 j x O). lia.
  - exists d0, w0, j, x, j1, p'. split; [exact O|exact E].
Defined.

(** [skipelem] walks a path: it returns nothing exactly when the path has no
    element left; otherwise it leaves the first element, cut to [DIRSIZ]
    bytes, in [name] and returns the rest of the path, without leading
    slashes and with the remaining elements. *)
Theorem skipelem_elements path name :
  Forall (fun c => c <> 0) path -> length name = Z.to_nat DIRSIZ ->
  match skipelem path name with
  | None => elements path = []
  | Some (rest, name') => exists e, elements path = e :: elements rest /\
      length name' = Z.to_nat DIRSIZ /\ cname 14 name' = take 14 e /\
      head rest <> Some slash /\ (length rest < length path)%nat
  end.
Proof.
  intros Hnz Hl. unfold skipelem. rewrite <- (elements_skip path). pose proof (skip_slashes_head path) as Hhd.
  destruct (skip_slashes_suffix path) as [pre Epre].
  assert (Hnz' : Forall (fun c => c <> 0) (skip_slashes path)) by (rewrite Epre in Hnz; by apply Forall_app in Hnz as [_ ?]).
  assert (Hle : (length (skip_slashes path) <= length path)%nat) by (rewrite Epre at 2; rewrite length_app; lia).
  destruct (skip_slashes path) as [|c r] eqn:E; [done|].
  destruct (span_elem (c :: r)) as [e rest] eqn:Es.
  assert (Hc : c <> slash) by (intros ->; by apply Hhd).
  destruct (split_elem _ _ _ Es) as (Eq & _ & _). pose proof (span_elem_nonempty c r e rest Hc Es) as Hne.
  assert (Hez : Forall (fun c => c <> 0) e) by (rewrite Eq in Hnz'; by apply Forall_app in Hnz' as [? _]).
  destruct (elem_name name e Hl Hez) as [Hn1 Hn2]. exists e. split_and!; try done.
  - rewrite (elements_elem _ _ _ Es Hne). by rewrite elements_skip.
  - apply skip_slashes_head.
  - destruct (skip_slashes_suffix rest) as [pre2 E2].
    assert (H1 : length (c :: r) = (length e + length rest)%nat) by (rewrite Eq, length_app; done).
    assert (H2 : length rest = (length pre2 + length (skip_slashes rest))%nat) by (rewrite E2 at 1; apply length_app).
    destruct e; [done|]. cbn [length] in *. lia.
Qed.

Lemma skipelem_elements_witness :
  let path := [47; 47; 97; 98; 47; 99] in
  exists name', skipelem path (replicate 14 0) = Some ([99], name') /\ elements path = [[97; 98]; [99]].
Proof.
  intros path. pose proof (skipelem_elements path (replicate 14 0)) as H.
  eexists. split; [reflexivity|].
  destruct H as (e & He & _ & Hn & _); [repeat constructor; lia|reflexivity|].
  rewrite He. f_equal. vm_compute in He. congruence.
Defined.
