(* ===== verification/Frames.v ===== *)
(** * Physical memory and page frames

    The address constants of memlayout.h and mmu.h, and the contract the
    virtual memory code relies on: an allocator that owns a set of free page
    frames in the byte memory, hands them out one at a time and takes them
    back.  Everything above only ever writes whole frames it was given, so
    memory is compared frame by frame. *)

From stdpp Require Import base numbers list gmap sets strings.
From Stdlib Require Import ZArith Lia.
From S2P Require Import Prelude CStrings.

Open Scope Z_scope.

Definition EXTMEM : Z := 0x100000.
Definition PHYSTOP : Z := 0xE000000.
Definition DEVSPACE : Z := 0xFE000000.
Definition KERNBASE : Z := 0x80000000.
Definition KERNLINK : Z := KERNBASE + EXTMEM.

Definition v2p (a : Z) : Z := u32 (a - KERNBASE).
Definition p2v (a : Z) : Z := u32 (a + KERNBASE).

Definition NPDENTRIES : Z := 1024.
Definition NPTENTRIES : Z := 1024.
Definition PGSIZE : Z := 4096.
Definition PTXSHIFT : Z := 12.
Definition PDXSHIFT : Z := 22.

Definition PDX (va : Z) : Z := Z.land (Z.shiftr (u32 va) PDXSHIFT) 0x3FF.
Definition PTX (va : Z) : Z := Z.land (Z.shiftr (u32 va) PTXSHIFT) 0x3FF.

Definition PGROUNDUP (sz : Z) : Z := Z.land (u32 (sz + PGSIZE - 1)) (Z.lnot (PGSIZE - 1)).
Definition PGROUNDDOWN (a : Z) : Z := Z.land a (Z.lnot (PGSIZE - 1)).

Definition PTE_P : Z := 1.
Definition PTE_W : Z := 2.
Definition PTE_U : Z := 4.

Definition PTE_ADDR (pte : Z) : Z := Z.land pte (Z.lnot 0xFFF).
Definition PTE_FLAGS (pte : Z) : Z := Z.land pte 0xFFF.

(** ** Masks as arithmetic *)

#[export] Ltac Zify.zify_post_hook ::= Z.to_euclidean_division_equations.

Lemma land_lnot_ones a k : 0 <= k -> Z.land a (Z.lnot (Z.ones k)) = a - a mod 2 ^ k.
Proof.
  intros Hk. rewrite <- Z.ldiff_land, Z.ldiff_ones_r by lia.
  rewrite Z.shiftl_mul_pow2, Z.shiftr_div_pow2 by lia.
  pose proof (Z.div_mod a (2 ^ k) ltac:(apply Z.pow_nonzero; lia)). lia.
Qed.

Lemma PGROUNDDOWN_eq a : PGROUNDDOWN a = a - a mod 4096.
Proof. exact (land_lnot_ones a 12 ltac:(lia)). Qed.

Lemma PGROUNDUP_eq a : PGROUNDUP a = u32 (a + 4095) - u32 (a + 4095) mod 4096.
Proof. unfold PGROUNDUP. replace (a + PGSIZE - 1) with (a + 4095) by (unfold PGSIZE; lia). exact (land_lnot_ones _ 12 ltac:(lia)). Qed.

Lemma PTE_ADDR_eq a : PTE_ADDR a = a - a mod 4096.
Proof. exact (land_lnot_ones a 12 ltac:(lia)). Qed.

Lemma PTE_FLAGS_eq a : PTE_FLAGS a = a mod 4096.
Proof. exact (Z.land_ones a 12 ltac:(lia)). Qed.

Lemma PDX_eq va : 0 <= va < 2 ^ 32 -> PDX va = va / 4096 / 1024.
Proof.
  intros H. unfold PDX. rewrite u32_small, Z.shiftr_div_pow2 by (unfold PDXSHIFT; lia).
  change 0x3FF with (Z.ones 10). rewrite Z.land_ones by lia. unfold PDXSHIFT. lia.
Qed.

Lemma PTX_eq va : 0 <= va < 2 ^ 32 -> PTX va = (va / 4096) mod 1024.
Proof.
  intros H. unfold PTX. rewrite u32_small, Z.shiftr_div_pow2 by (unfold PTXSHIFT; lia).
  change 0x3FF with (Z.ones 10). rewrite Z.land_ones by lia. unfold PTXSHIFT. lia.
Qed.

(** An entry with the present bit: the frame and its flags. *)
Lemma pte_parts pa fl :
  pa mod 4096 = 0 -> 0 <= fl < 4096 -> PTE_ADDR (Z.lor pa fl) = pa /\ PTE_FLAGS (Z.lor pa fl) = fl.
Proof.
  intros Hp Hf. assert (E : Z.lor pa fl = pa + fl).
  { replace pa with (Z.shiftl (pa / 4096) 12) at 1 by (rewrite Z.shiftl_mul_pow2 by lia; lia).
    rewrite lor_shiftl_add by lia. lia. }
  rewrite E, PTE_ADDR_eq, PTE_FLAGS_eq. lia.
Qed.

Lemma has_flags pte m : 0 <= m < 4096 -> has (PTE_FLAGS pte) m = has pte m.
Proof.
  intros H. unfold has, PTE_FLAGS. do 2 f_equal. rewrite <- Z.land_assoc. f_equal.
  change 0xFFF with (Z.ones 12). rewrite Z.land_comm, Z.land_ones by lia. apply Z.mod_small. lia.
Qed.

(** ** Frames *)

Definition page_of (a : Z) : Z := a - a mod 4096.

(** The memories agree outside the frames [S]. *)
Definition agree_off (S : gset Z) (m m' : mem) : Prop := forall a, page_of a ∉ S -> m' a = m a.

Lemma agree_off_refl S m : agree_off S m m.
Proof. done. Qed.

Lemma agree_off_trans S m m' m'' : agree_off S m m' -> agree_off S m' m'' -> agree_off S m m''.
Proof. intros H1 H2 a Ha. by rewrite H2, H1. Qed.

Lemma agree_off_weaken S S' m m' : agree_off S m m' -> S ⊆ S' -> agree_off S' m m'.
Proof. intros H Hs a Ha. apply H. set_solver. Qed.

Lemma agree_load32 S m m' a :
  agree_off S m m' -> a mod 4 = 0 -> page_of a ∉ S -> load32 m' a = load32 m a.
Proof.
  intros H Ha Hp. unfold page_of in Hp. unfold load32.
  rewrite !H; [done|unfold page_of; intros Hin; apply Hp; revert Hin..].
  - by replace (a + 3 - (a + 3) mod 4096) with (a - a mod 4096) by lia.
  - by replace (a + 2 - (a + 2) mod 4096) with (a - a mod 4096) by lia.
  - by replace (a + 1 - (a + 1) mod 4096) with (a - a mod 4096) by lia.
  - done.
Qed.

Lemma agree_store32 m a v : a mod 4 = 0 -> agree_off {[page_of a]} m (store32 m a v).
Proof.
  intros Ha x Hx. apply store32_ne. apply not_elem_of_singleton in Hx. unfold page_of in Hx.
  destruct (decide (x < a \/ a + 4 <= x)) as [H|H]; [done|]. exfalso. apply Hx. lia.
Qed.

Lemma agree_range S m m' v n :
  (forall x, x < v \/ v + n <= x -> m' x = m x) -> v mod 4096 = 0 -> n <= 4096 -> v ∈ S -> agree_off S m m'.
Proof.
  intros H Hv Hn Hin x Hx. apply H. unfold page_of in Hx.
  destruct (decide (x < v \/ v + n <= x)) as [|Hc]; [done|]. exfalso. apply Hx.
  by replace (x - x mod 4096) with v by lia.
Qed.

Lemma load32_range m a : 0 <= m a < 256 -> 0 <= m (a + 1) < 256 -> 0 <= m (a + 2) < 256 -> 0 <= m (a + 3) < 256 ->
  0 <= load32 m a < 2 ^ 32.
Proof. intros. unfold load32. lia. Qed.

Lemma set_put_back (F : gset Z) v : v ∈ F -> F ∖ {[v]} ∪ {[v]} = F.
Proof. intros H. apply set_eq. intros w. destruct (decide (w = v)); set_solver. Qed.

Lemma size_list_to_set_le (l : list Z) : (base.size (list_to_set l : gset Z) <= length l)%nat.
Proof.
  induction l as [|x l IH]; cbn [list_to_set length]; [by rewrite size_empty|].
  rewrite size_union_alt, size_singleton.
  assert (base.size ((list_to_set l : gset Z) ∖ {[x]}) <= base.size (list_to_set l : gset Z))%nat
    by (apply subseteq_size; set_solver). lia.
Qed.

(** ** The allocator's contract *)

Class Frames (K : Type) := {
  fr_mem : K -> mem;
  fr_set : mem -> K -> K;
  kalloc : M K Z;
  kfree : Z -> M K unit
}.

(** A page of memory the allocator may own: aligned, above the kernel image and
    below [PHYSTOP]. *)
Definition frame (kend v : Z) : Prop := v mod PGSIZE = 0 /\ kend <= v < KERNBASE + PHYSTOP.

(** [fr_rep k F] : the free frames of state [k] are [F]. *)
Class FramesOk (K : Type) `{!Frames K} := {
  kend : Z;
  kend_pos : KERNLINK <= kend;
  fr_rep : K -> gset Z -> Prop;
  fr_frames : forall k F v, fr_rep k F -> v ∈ F -> frame kend v;
  fr_bytes : forall k F a, fr_rep k F -> 0 <= fr_mem k a < 256;
  fr_mem_set : forall m k, fr_mem (fr_set m k) = m;
  fr_set_ok : forall k F S m,
    fr_rep k F -> agree_off S (fr_mem k) m -> S ## F -> (forall a, 0 <= m a < 256) -> fr_rep (fr_set m k) F;
  fr_kalloc : forall k F, fr_rep k F ->
    (F = ∅ /\ kalloc k = Ok 0 k) \/
    exists v k', kalloc k = Ok v k' /\ v ∈ F /\ fr_rep k' (F ∖ {[v]}) /\ fr_mem k' = fr_mem k;
  fr_kfree : forall k F v, fr_rep k F -> frame kend v -> v ∉ F ->
    exists k', kfree v k = Ok tt k' /\ fr_rep k' ({[v]} ∪ F) /\ agree_off {[v]} (fr_mem k) (fr_mem k');
  fr_kfree_bad : forall k v, 0 <= v < 2 ^ 32 -> ~ frame kend v -> kfree v k = Panic "kfree"
}.
