(* ===== verification/Kalloc.v ===== *)
(** * kalloc.c: the physical page allocator

    The free pages form a singly linked list threaded through the pages
    themselves, in the byte memory; [chain] is that list.  The allocator keeps
    the [Frames] contract of the virtual memory code. *)

From stdpp Require Import base numbers list gmap sets strings.
From Stdlib Require Import ZArith Lia.
From S2P Require Import Prelude CStrings Frames.

Open Scope Z_scope.

(** [kmem] and the memory it lives in; [kmem.lock] makes each operation atomic. *)
Record kmem := MkKmem { k_mem : mem; use_lock : bool; freelist : Z }.

Section kalloc.
(** [end], the first address after the kernel loaded from the ELF file. *)
Context (kernel_end : Z).

Definition kfree_page (v : Z) : M kmem unit :=
  if negb (v mod PGSIZE =? 0) || (v <? kernel_end) || (v2p v >=? PHYSTOP) then panic "kfree"
  else
    modify (fun k => MkKmem (KString.memset (k_mem k) v 1 PGSIZE) (use_lock k) (freelist k));;
    modify (fun k => MkKmem (store32 (k_mem k) v (freelist k)) (use_lock k) v).

Definition kalloc_page : M kmem Z :=
  r ← reads freelist;
  when (negb (r =? 0)) (modify (fun k => MkKmem (k_mem k) (use_lock k) (load32 (k_mem k) r)));;
  mret r.

Fixpoint freerange_loop (n : nat) (p vend : Z) : M kmem unit :=
  if u32 (p + PGSIZE) <=? vend then
    match n with
    | O => diverge
    | S n' => kfree_page p;; freerange_loop n' (u32 (p + PGSIZE)) vend
    end
  else mret tt.

Definition freerange (vstart vend : Z) : M kmem unit :=
  freerange_loop (Z.to_nat vend) (PGROUNDUP vstart) vend.

Definition kinit1 (vstart vend : Z) : M kmem unit :=
  modify (fun k => MkKmem (k_mem k) false (freelist k));;
  freerange vstart vend.

Definition kinit2 (vstart vend : Z) : M kmem unit :=
  freerange vstart vend;;
  modify (fun k => MkKmem (k_mem k) true (freelist k)).

(** ** The free list *)

Fixpoint chain (m : mem) (p : Z) (l : list Z) : Prop :=
  match l with
  | [] => p = 0
  | v :: r => p = v /\ chain m (load32 m v) r
  end.

Record kmem_ok (k : kmem) (l : list Z) : Prop := {
  ko_chain : chain (k_mem k) (freelist k) l;
  ko_frames : Forall (frame kernel_end) l;
  ko_nodup : NoDup l;
  ko_bytes : forall a, 0 <= k_mem k a < 256
}.

Lemma chain_agree S m m' p l :
  agree_off S m m' -> (forall v, v ∈ l -> v mod 4096 = 0 /\ v ∉ S) -> chain m p l -> chain m' p l.
Proof.
  intros Ha. revert p. induction l as [|v l IH]; intros p Hl; [done|]. intros [-> Hc]. split; [done|].
  destruct (Hl v ltac:(left)) as [H1 H2]. rewrite (agree_load32 S m) by
    (done || (unfold page_of; rewrite H1, Z.sub_0_r; done) || lia).
  apply IH; [|done]. intros w Hw. apply Hl. by right.
Qed.

Context (Hend : KERNLINK <= kernel_end).

Lemma frame_range v : frame kernel_end v -> 0x80100000 <= v < 0x8E000000 /\ v mod 4096 = 0.
Proof. intros [H1 H2]. unfold KERNLINK, KERNBASE, PHYSTOP, EXTMEM, PGSIZE in *. lia. Qed.

Lemma kfree_guard v : 0 <= v < 2 ^ 32 ->
  negb (v mod PGSIZE =? 0) || (v <? kernel_end) || (v2p v >=? PHYSTOP) = false <-> frame kernel_end v.
Proof.
  intros Hv. rewrite !orb_false_iff, negb_false_iff, Z.eqb_eq, Z.ltb_ge, Z.geb_leb, Z.leb_gt.
  unfold frame, v2p, u32, PGSIZE, PHYSTOP, KERNLINK, KERNBASE, EXTMEM in *. change (2 ^ 32) with 4294967296 in *.
  split; intros H; [|split; [split|]]; lia.
Qed.

(** Freeing pushes the page; only its own bytes change. *)
Lemma kfree_ok k l v :
  kmem_ok k l -> frame kernel_end v -> v ∉ l ->
  exists k', kfree_page v k = Ok tt k' /\ kmem_ok k' (v :: l) /\ agree_off {[v]} (k_mem k) (k_mem k') /\
    use_lock k' = use_lock k /\ forall i, 4 <= i < PGSIZE -> k_mem k' (v + i) = 1.
Proof.
  intros [K1 K2 K3 K4] Hf Hn. pose proof (frame_range v Hf) as [Hr Hv].
  unfold kfree_page. rewrite (proj2 (kfree_guard v ltac:(lia)) Hf).
  rewrite (bind_ok (modify _) _ _ _ _ eq_refl). eexists. split; [reflexivity|]. cbn [k_mem use_lock freelist].
  set (m1 := KString.memset (k_mem k) v 1 PGSIZE).
  assert (E1 : forall x, m1 x = if (v <=? x) && (x <? v + 4096) then 1 else k_mem k x) by (apply KString.memset_correct).
  assert (Ha : agree_off {[v]} (k_mem k) (store32 m1 v (freelist k))).
  { apply (agree_range _ _ _ v 4096); try done; [|set_solver].
    intros x Hx. rewrite store32_ne, E1 by lia.
    destruct (Z.leb_spec v x), (Z.ltb_spec x (v + 4096)); cbn [andb]; done || lia. }
  assert (Hfl : 0 <= freelist k < 2 ^ 32).
  { destruct l as [|w l]; cbn in K1; [lia|]. destruct K1 as [-> _]. apply Forall_cons in K2 as [Hw _].
    pose proof (frame_range w Hw). lia. }
  split_and!; try done.
  - split; cbn [k_mem freelist chain].
    + split; [done|]. rewrite load32_store32_eq, u32_small by lia.
      apply (chain_agree {[v]} (k_mem k)); try done. intros w Hw.
      pose proof (frame_range w (proj1 (Forall_forall _ _) K2 w Hw)). split; [lia|set_solver].
    + by constructor.
    + by constructor.
    + intros a. unfold store32, upd. rewrite E1. pose proof (K4 a).
      pose proof (u8_range (freelist k)). pose proof (u8_range (Z.shiftr (freelist k) 8)).
      pose proof (u8_range (Z.shiftr (freelist k) 16)). pose proof (u8_range (Z.shiftr (freelist k) 24)).
      repeat case_match; lia.
  - intros i Hi. unfold PGSIZE in Hi. rewrite store32_ne, E1 by lia.
    by rewrite (proj2 (Z.leb_le _ _)), (proj2 (Z.ltb_lt _ _)) by lia.
Qed.

Lemma kalloc_ok k l :
  kmem_ok k l ->
  match l with
  | [] => kalloc_page k = Ok 0 k
  | v :: r => kalloc_page k = Ok v (MkKmem (k_mem k) (use_lock k) (load32 (k_mem k) v)) /\
      kmem_ok (MkKmem (k_mem k) (use_lock k) (load32 (k_mem k) v)) r
  end.
Proof.
  intros [K1 K2 K3 K4]. unfold kalloc_page. rewrite (bind_ok (reads _) _ _ _ _ eq_refl).
  destruct l as [|v r]; cbn [chain] in K1.
  - rewrite K1. done.
  - destruct K1 as [-> Hc]. apply Forall_cons in K2 as [Hv Hr]. apply NoDup_cons in K3 as [Hn Hd].
    pose proof (frame_range v Hv) as [Hvr _]. rewrite (proj2 (Z.eqb_neq v 0)) by lia. cbn [negb when].
    by rewrite (bind_ok (modify _) _ _ _ _ eq_refl).
Qed.

Lemma kmem_ok_agree k l S m :
  kmem_ok k l -> agree_off S (k_mem k) m -> (forall v, v ∈ l -> v ∉ S) -> (forall a, 0 <= m a < 256) ->
  kmem_ok (MkKmem m (use_lock k) (freelist k)) l.
Proof.
  intros [K1 K2 K3 K4] Ha Hd Hb. split; cbn [k_mem freelist]; try done.
  apply (chain_agree S (k_mem k)); try done. intros v Hv. split; [|by apply Hd].
  apply frame_range. by apply (proj1 (Forall_forall _ _) K2).
Qed.

(** ** Initialisation *)

Definition whole_page (vstart vend v : Z) : Prop := v mod PGSIZE = 0 /\ vstart <= v /\ v + PGSIZE <= vend.

Lemma freerange_loop_ok n : forall k l p vend,
  kmem_ok k l -> p mod PGSIZE = 0 -> kernel_end <= p < 0x8F000000 -> vend <= KERNBASE + PHYSTOP ->
  vend < p + PGSIZE * (Z.of_nat n + 1) ->
  (forall v, v ∈ l -> ~ whole_page p vend v) ->
  exists k' l', freerange_loop n p vend k = Ok tt k' /\ kmem_ok k' l' /\ use_lock k' = use_lock k /\
    forall v, v ∈ l' <-> v ∈ l \/ whole_page p vend v.
Proof.
  unfold PGSIZE, KERNBASE, PHYSTOP. induction n as [|n IH]; intros k l p vend K Hp Hlo Hhi Hfuel Hd;
    cbn [freerange_loop]; unfold PGSIZE.
  - assert (E : (u32 (p + 4096) <=? vend) = false).
    { apply Z.leb_gt. rewrite u32_small; [lia|]. unfold KERNLINK, KERNBASE, EXTMEM in Hend. lia. }
    rewrite E. exists k, l. split_and!; try done. intros v. unfold whole_page, PGSIZE. split; [by left|].
    intros [?|?]; [done|lia].
  - assert (Hk : 0x80100000 <= p) by (unfold KERNLINK, KERNBASE, EXTMEM in Hend; lia).
    destruct (decide (p + 4096 <= vend)) as [Hin|Hout].
    + rewrite u32_small by lia. rewrite (proj2 (Z.leb_le _ _)) by lia.
      destruct (kfree_ok k l p K) as (k1 & E1 & K1 & _ & Hu & _).
      { unfold frame, PGSIZE, KERNBASE, PHYSTOP. lia. }
      { intros Hin'. apply (Hd p Hin'). unfold whole_page, PGSIZE. lia. }
      rewrite (bind_ok _ _ _ _ _ E1).
      destruct (IH k1 (p :: l) (p + 4096) vend K1) as (k2 & l2 & E2 & K2 & Hu2 & Hl2); try lia.
      { intros v [->|Hv]%elem_of_cons; unfold whole_page, PGSIZE; [lia|].
        intros Hw. apply (Hd v Hv). unfold whole_page, PGSIZE. lia. }
      exists k2, l2. split_and!; try done; [congruence|]. intros v. rewrite Hl2, elem_of_cons.
      unfold whole_page, PGSIZE. split; intros H; [destruct H as [[->|?]|?]; [right; lia|by left|right; lia]|].
      destruct H as [?|Hw]; [by left; right|]. destruct (decide (v = p)); [by left; left|right; lia].
    + assert (E : (u32 (p + 4096) <=? vend) = false).
      { apply Z.leb_gt. rewrite u32_small by lia. lia. }
      rewrite E. exists k, l. split_and!; try done. intros v. unfold whole_page, PGSIZE. split; [by left|].
      intros [?|?]; [done|lia].
Qed.

Lemma freerange_ok k l vstart vend :
  kmem_ok k l -> kernel_end <= vstart -> vstart <= vend -> vend <= KERNBASE + PHYSTOP ->
  (forall v, v ∈ l -> ~ whole_page vstart vend v) ->
  exists k' l', freerange vstart vend k = Ok tt k' /\ kmem_ok k' l' /\ use_lock k' = use_lock k /\
    forall v, v ∈ l' <-> v ∈ l \/ whole_page vstart vend v.
Proof.
  intros K Hlo Hle Hhi Hd.
  assert (Hk : 0x80100000 <= vstart <= 0x8E000000)
    by (unfold KERNLINK, KERNBASE, EXTMEM, PHYSTOP in *; lia).
  unfold freerange. assert (Ep : PGROUNDUP vstart = (vstart + 4095) - (vstart + 4095) mod 4096)
    by (rewrite PGROUNDUP_eq, u32_small by lia; done).
  destruct (freerange_loop_ok (Z.to_nat vend) k l (PGROUNDUP vstart) vend K) as (k' & l' & E & K' & Hu & Hl');
    rewrite ?Ep; unfold PGSIZE, whole_page in *; try lia.
  { intros v Hv Hw. apply (Hd v Hv). unfold PGSIZE in *. lia. }
  rewrite <- Ep. exists k', l'. split_and!; try done. intros v. rewrite Hl', Ep. unfold PGSIZE. split; intros [?|?]; auto; right; lia.
Qed.

End kalloc.

(** ** The contract *)

#[export] Instance kmem_frames (kernel_end : Z) : Frames kmem := {|
  fr_mem := k_mem;
  fr_set m k := MkKmem m (use_lock k) (freelist k);
  kalloc := kalloc_page;
  kfree := kfree_page kernel_end
|}.

Section contract.
Context (kernel_end : Z) (Hend : KERNLINK <= kernel_end).

Definition kmem_rep (k : kmem) (F : gset Z) : Prop := exists l, kmem_ok kernel_end k l /\ F = list_to_set l.

Lemma kmem_rep_kalloc k F : kmem_rep k F ->
  (F = ∅ /\ kalloc_page k = Ok 0 k) \/
  exists v k', kalloc_page k = Ok v k' /\ v ∈ F /\ kmem_rep k' (F ∖ {[v]}) /\ k_mem k' = k_mem k.
Proof.
  intros (l & K & ->). pose proof (kalloc_ok kernel_end Hend k l K) as H. destruct l as [|v r].
  - left. split; [set_solver|done].
  - right. destruct H as [E K']. eexists v, _. split_and!; [exact E|set_solver| |done].
    exists r. split; [done|]. pose proof (ko_nodup _ _ _ K) as [Hn _]%NoDup_cons.
    cbn [list_to_set]. set_solver.
Qed.

Lemma kmem_rep_kfree k F v : kmem_rep k F -> frame kernel_end v -> v ∉ F ->
  exists k', kfree_page kernel_end v k = Ok tt k' /\ kmem_rep k' ({[v]} ∪ F) /\
    agree_off {[v]} (k_mem k) (k_mem k').
Proof.
  intros (l & K & ->) Hf Hn. destruct (kfree_ok kernel_end Hend k l v K Hf) as (k' & E & K' & Ha & _).
  { by intros Hin%(elem_of_list_to_set (C := gset Z)). }
  exists k'. split_and!; try done. by exists (v :: l).
Qed.

Lemma kmem_rep_set k F S m : kmem_rep k F -> agree_off S (k_mem k) m -> S ## F -> (forall a, 0 <= m a < 256) ->
  kmem_rep (MkKmem m (use_lock k) (freelist k)) F.
Proof.
  intros (l & K & ->) Ha Hd Hb. exists l. split; [|done]. apply (kmem_ok_agree kernel_end Hend k l S); try done.
  intros v Hv Hs. apply (Hd v Hs). by apply elem_of_list_to_set.
Qed.

Lemma kfree_refuses k v : 0 <= v < 2 ^ 32 -> ~ frame kernel_end v -> kfree_page kernel_end v k = Panic "kfree".
Proof.
  intros Hv Hn. unfold kfree_page. destruct (negb _ || _ || _) eqn:E; [done|].
  apply kfree_guard in E; done.
Qed.

#[export] Instance kmem_frames_ok : FramesOk kmem (Frames0 := kmem_frames kernel_end).
Proof.
  refine (Build_FramesOk kmem (kmem_frames kernel_end) kernel_end Hend kmem_rep _ _ _ _ _ _ _).
  - intros k F v (l & K & ->) Hv%elem_of_list_to_set. by apply (proj1 (Forall_forall _ _) (ko_frames _ _ _ K)).
  - intros k F a (l & K & _). apply K.
  - done.
  - exact kmem_rep_set.
  - exact kmem_rep_kalloc.
  - exact kmem_rep_kfree.
  - exact kfree_refuses.
Defined.

(** ** Clients *)

(** A client that owns the pages [A] allocates, or frees a page it owns. *)
Inductive kop := Alloc | Free (v : Z).

Fixpoint kops (ops : list kop) (A : gset Z) : M kmem (gset Z) :=
  match ops with
  | [] => mret A
  | Alloc :: r => v ← kalloc_page; kops r (if v =? 0 then A else {[v]} ∪ A)
  | Free v :: r => if decide (v ∈ A) then kfree_page kernel_end v;; kops r (A ∖ {[v]}) else kops r A
  end.

Lemma kops_ok ops : forall k l A,
  kmem_ok kernel_end k l -> (forall v, v ∈ A -> frame kernel_end v /\ v ∉ l) ->
  exists k' l' A', kops ops A k = Ok A' k' /\ kmem_ok kernel_end k' l' /\
    (forall v, v ∈ A' -> frame kernel_end v /\ v ∉ l') /\
    forall v, (v ∈ l' \/ v ∈ A') <-> (v ∈ l \/ v ∈ A).
Proof.
  induction ops as [|[|v] ops IH]; intros k l A K HA; cbn [kops].
  - by exists k, l, A.
  - pose proof (kalloc_ok kernel_end Hend k l K) as H. destruct l as [|v r].
    + rewrite (bind_ok _ _ _ _ _ H). by apply IH.
    + destruct H as [E K1]. rewrite (bind_ok _ _ _ _ _ E).
      pose proof (ko_frames _ _ _ K) as [Hv Hr]%Forall_cons. pose proof (ko_nodup _ _ _ K) as [Hn Hd]%NoDup_cons.
      pose proof (frame_range kernel_end Hend v Hv). rewrite (proj2 (Z.eqb_neq v 0)) by lia.
      destruct (IH _ r ({[v]} ∪ A) K1) as (k' & l' & A' & E' & K' & HA' & Hall).
      { intros w [->%elem_of_singleton|Hw]%elem_of_union; [done|]. destruct (HA w Hw). set_solver. }
      exists k', l', A'. split_and!; try done. intros w. rewrite Hall. set_solver.
  - destruct (decide (v ∈ A)) as [Hin|Hout]; [|by apply IH]. destruct (HA v Hin) as [Hf Hn].
    destruct (kfree_ok kernel_end Hend k l v K Hf Hn) as (k1 & E1 & K1 & _).
    rewrite (bind_ok _ _ _ _ _ E1).
    destruct (IH k1 (v :: l) (A ∖ {[v]}) K1) as (k' & l' & A' & E' & K' & HA' & Hall).
    { intros w Hw. destruct (HA w ltac:(set_solver)). set_solver. }
    exists k', l', A'. split_and!; try done. intros w. rewrite Hall.
    destruct (decide (w = v)) as [->|]; set_solver.
Qed.

(** C8: The page allocator never hands out a page twice and never loses one.
    After [kinit1] gave it the pages of a range, any sequence of [kalloc]s and
    of [kfree]s of pages so obtained runs without a panic, and at its end
    every whole page of the range is either on the free list or owned by the
    client, never both. *)
Theorem kalloc_conserves_pages ops k vstart vend :
  kmem_ok kernel_end k [] -> kernel_end <= vstart -> vstart <= vend -> vend <= KERNBASE + PHYSTOP ->
  exists k' l A, (kinit1 kernel_end vstart vend;; kops ops ∅) k = Ok A k' /\ kmem_ok kernel_end k' l /\
    (forall v, v ∈ A -> v ∉ l) /\ forall v, (v ∈ l \/ v ∈ A) <-> whole_page vstart vend v.
Proof.
  intros K H1 H2 H3. unfold kinit1. rewrite bind_assoc, (bind_ok (modify _) _ _ _ _ eq_refl).
  set (k0 := MkKmem (k_mem k) false (freelist k)). assert (K0 : kmem_ok kernel_end k0 []) by (by destruct K).
  destruct (freerange_ok kernel_end Hend k0 [] vstart vend K0 H1 H2 H3) as (k1 & l1 & E1 & K1 & _ & Hl1).
  { intros v Hv. by apply elem_of_nil in Hv. }
  rewrite (bind_ok _ _ _ _ _ E1).
  destruct (kops_ok ops k1 l1 ∅ K1) as (k' & l & A & E & K' & HA & Hall).
  { intros v Hv. set_solver. }
  exists k', l, A. split_and!; try done.
  - intros v Hv. by apply HA.
  - intros v. rewrite Hall, Hl1. rewrite elem_of_nil. set_solver.
Qed.

End contract.

Lemma kalloc_conserves_pages_witness :
  let ke := KERNBASE + 0x200000 in
  let k := MkKmem (fun _ => 0) false 0 in
  exists k' l A, (kinit1 ke (ke + 5) (ke + 0x4000);; kops ke [Alloc; Alloc; Free (ke + 0x3000)] ∅) k = Ok A k' /\
    kmem_ok ke k' l /\ (ke + 0x1000 ∈ l \/ ke + 0x1000 ∈ A).
Proof.
  intros ke k.
  assert (He : KERNLINK <= ke) by (unfold ke, KERNLINK, KERNBASE, EXTMEM; lia).
  destruct (kalloc_conserves_pages ke He [Alloc; Alloc; Free (ke + 0x3000)] k (ke + 5) (ke + 0x4000))
    as (k' & l & A & E & K & _ & Hall).
  - split; cbn; [reflexivity|constructor|constructor|lia].
  - lia.
  - lia.
  - unfold ke, KERNBASE, PHYSTOP. lia.
  - exists k', l, A. split; [exact E|]. split; [exact K|]. apply Hall.
    unfold whole_page, ke, PGSIZE, KERNBASE. split; [reflexivity|lia].
Defined.

(** ** A machine whose kernel image ends at 2 megabytes *)

Definition demo_end : Z := KERNBASE + 0x200000.

Lemma demo_end_ok : KERNLINK <= demo_end.
Proof. unfold demo_end, KERNLINK, KERNBASE, EXTMEM. lia. Qed.

#[export] Instance demo_frames : Frames kmem := kmem_frames demo_end.
#[export] Instance demo_frames_ok : FramesOk kmem := kmem_frames_ok demo_end demo_end_ok.
