(* ===== verification/Vm.v ===== *)
(** * vm.c: page tables and user memory

    The two-level page tables are read and written in the byte memory of the
    frame allocator, entry by entry, as the code does.  Pointers are 32-bit
    addresses in the kernel's part of the address space. *)

From stdpp Require Import base numbers list gmap sets strings.
From Stdlib Require Import ZArith Lia.
From S2P Require Import Prelude CStrings Frames.

Open Scope Z_scope.

(** An entry of the table [kmap]. *)
Record kmap_entry := MkKmap { virt : Z; phys_start : Z; phys_end : Z; perm : Z }.

Section vm.
Context {K : Type} `{!Frames K}.

(** [*p] of a [uint *], and assignment to it. *)
Definition rd (p : Z) : M K Z := reads (fun k => load32 (fr_mem k) p).
Definition wr (p v : Z) : M K unit := modify (fun k => fr_set (store32 (fr_mem k) p v) k).

Definition memset (dst c n : Z) : M K unit := modify (fun k => fr_set (KString.memset (fr_mem k) dst c n) k).
Definition memmove (dst src n : Z) : M K unit := modify (fun k => fr_set (KString.memmove (fr_mem k) dst src n) k).

Definition walkpgdir (pgdir va : Z) (alloc : bool) : M K Z :=
  let pde := u32 (pgdir + 4 * PDX va) in
  e ← rd pde;
  if has e PTE_P then mret (u32 (p2v (PTE_ADDR e) + 4 * PTX va))
  else if negb alloc then mret 0
  else
    pgtab ← kalloc;
    if pgtab =? 0 then mret 0
    else
      memset pgtab 0 PGSIZE;;
      wr pde (Z.lor (Z.lor (Z.lor (v2p pgtab) PTE_P) PTE_W) PTE_U);;
      mret (u32 (pgtab + 4 * PTX va)).

Fixpoint mappages_loop (n : nat) (pgdir a last pa perm : Z) : M K Z :=
  match n with
  | O => diverge
  | S n' =>
      pte ← walkpgdir pgdir a true;
      if pte =? 0 then mret (-1)
      else
        e ← rd pte;
        if has e PTE_P then panic "remap"
        else
          wr pte (Z.lor (Z.lor pa perm) PTE_P);;
          if a =? last then mret 0
          else mappages_loop n' pgdir (u32 (a + PGSIZE)) last (u32 (pa + PGSIZE)) perm
  end.

Definition mappages (pgdir va size pa perm : Z) : M K Z :=
  let a := PGROUNDDOWN va in
  let last := PGROUNDDOWN (u32 (va + size - 1)) in
  mappages_loop (S (Z.to_nat (u32 (last - a) / PGSIZE))) pgdir a last pa perm.

(** [data], placed by kernel.ld. *)
Definition kmap (data : Z) : list kmap_entry := [
  MkKmap KERNBASE 0 EXTMEM PTE_W;
  MkKmap KERNLINK (v2p KERNLINK) (v2p data) 0;
  MkKmap data (v2p data) PHYSTOP PTE_W;
  MkKmap DEVSPACE DEVSPACE 0 PTE_W
].

Fixpoint map_all (pgdir : Z) (ks : list kmap_entry) : M K Z :=
  match ks with
  | [] => mret pgdir
  | k :: r =>
      n ← mappages pgdir (virt k) (u32 (phys_end k - phys_start k)) (phys_start k) (perm k);
      if n <? 0 then mret 0 else map_all pgdir r
  end.

Definition setupkvm (data : Z) : M K Z :=
  pgdir ← kalloc;
  if pgdir =? 0 then mret 0
  else
    memset pgdir 0 PGSIZE;;
    if p2v PHYSTOP >? DEVSPACE then panic "PHYSTOP too high"
    else map_all pgdir (kmap data).

(** [init] points at [sz] bytes; a failed allocation is not checked. *)
Definition inituvm (pgdir init sz : Z) : M K unit :=
  if sz >=? PGSIZE then panic "inituvm: more than a page"
  else
    m ← kalloc;
    if m =? 0 then undef "inituvm: memset through a null pointer"
    else
      memset m 0 PGSIZE;;
      _ ← mappages pgdir 0 PGSIZE (v2p m) (Z.lor PTE_W PTE_U);
      memmove m init sz.

Fixpoint deallocuvm_loop (n : nat) (pgdir a oldsz : Z) : M K unit :=
  if a <? oldsz then
    match n with
    | O => diverge
    | S n' =>
        pte ← walkpgdir pgdir a false;
        if pte =? 0 then deallocuvm_loop n' pgdir (u32 (a + (NPTENTRIES - 1) * PGSIZE + PGSIZE)) oldsz
        else
          e ← rd pte;
          if has e PTE_P then
            let pa := PTE_ADDR e in
            if pa =? 0 then panic "kfree"
            else
              kfree (p2v pa);;
              wr pte 0;;
              deallocuvm_loop n' pgdir (u32 (a + PGSIZE)) oldsz
          else deallocuvm_loop n' pgdir (u32 (a + PGSIZE)) oldsz
    end
  else mret tt.

Definition deallocuvm (pgdir oldsz newsz : Z) : M K Z :=
  if newsz >=? oldsz then mret oldsz
  else
    deallocuvm_loop (Z.to_nat oldsz) pgdir (PGROUNDUP newsz) oldsz;;
    mret newsz.

(** The result of [mappages] is not looked at. *)
Fixpoint allocuvm_loop (n : nat) (pgdir a oldsz newsz : Z) : M K Z :=
  if a <? newsz then
    match n with
    | O => diverge
    | S n' =>
        m ← kalloc;
        if m =? 0 then
          _ ← deallocuvm pgdir newsz oldsz;
          mret 0
        else
          memset m 0 PGSIZE;;
          _ ← mappages pgdir a PGSIZE (v2p m) (Z.lor PTE_W PTE_U);
          allocuvm_loop n' pgdir (u32 (a + PGSIZE)) oldsz newsz
    end
  else mret newsz.

Definition allocuvm (pgdir oldsz newsz : Z) : M K Z :=
  if newsz >=? KERNBASE then mret 0
  else if newsz <? oldsz then mret oldsz
  else allocuvm_loop (Z.to_nat newsz) pgdir (PGROUNDUP oldsz) oldsz newsz.

Definition free_table (pgdir i : Z) : M K unit :=
  e ← rd (u32 (pgdir + 4 * i));
  when (has e PTE_P) (kfree (p2v (PTE_ADDR e))).

Definition freevm (pgdir : Z) : M K unit :=
  if pgdir =? 0 then panic "freevm: no pgdir"
  else
    _ ← deallocuvm pgdir KERNBASE 0;
    for_ 0 NPDENTRIES (free_table pgdir);;
    kfree pgdir.

Definition clearpteu (pgdir uva : Z) : M K unit :=
  pte ← walkpgdir pgdir uva false;
  if pte =? 0 then panic "clearpteu"
  else
    e ← rd pte;
    wr pte (Z.land e (Z.lnot PTE_U)).

(** The loop of [copyuvm]; [false] is the jump to [bad]. *)
Fixpoint copyuvm_loop (n : nat) (pgdir d i sz : Z) : M K bool :=
  if i <? sz then
    match n with
    | O => diverge
    | S n' =>
        pte ← walkpgdir pgdir i false;
        if pte =? 0 then panic "copyuvm: pte should exist"
        else
          e ← rd pte;
          if negb (has e PTE_P) then panic "copyuvm: page not present"
          else
            let pa := PTE_ADDR e in
            let flags := PTE_FLAGS e in
            m ← kalloc;
            if m =? 0 then mret false
            else
              memmove m (p2v pa) PGSIZE;;
              r ← mappages d i PGSIZE (v2p m) flags;
              if r <? 0 then mret false
              else copyuvm_loop n' pgdir d (u32 (i + PGSIZE)) sz
    end
  else mret true.

Definition copyuvm (data pgdir sz : Z) : M K Z :=
  d ← setupkvm data;
  if d =? 0 then mret 0
  else
    ok ← copyuvm_loop (Z.to_nat sz) pgdir d 0 sz;
    if (ok : bool) then mret d
    else freevm d;; mret 0.

(** The entry is read even where [walkpgdir] returned a null pointer. *)
Definition uva2ka (pgdir uva : Z) : M K Z :=
  pte ← walkpgdir pgdir uva false;
  if pte =? 0 then undef "uva2ka: null pointer read"
  else
    e ← rd pte;
    if negb (has e PTE_P) then mret 0
    else if negb (has e PTE_U) then mret 0
    else mret (p2v (PTE_ADDR e)).

Fixpoint copyout_loop (k : nat) (pgdir va buf len : Z) : M K Z :=
  if len >? 0 then
    match k with
    | O => diverge
    | S k' =>
        let va0 := PGROUNDDOWN va in
        pa0 ← uva2ka pgdir va0;
        if pa0 =? 0 then mret (-1)
        else
          let n := PGSIZE - (va - va0) in
          let n := if n >? len then len else n in
          memmove (u32 (pa0 + (va - va0))) buf n;;
          copyout_loop k' pgdir (u32 (va0 + PGSIZE)) (u32 (buf + n)) (len - n)
    end
  else mret 0.

Definition copyout (pgdir va p len : Z) : M K Z := copyout_loop (Z.to_nat len) pgdir va p len.

End vm.
