(* ===== verification/VmSpec.v ===== *)
(** * What the page-table code does

    A page table is seen through [pte]: the entry of each of the [2^20] pages
    of the address space, zero where the second-level table is missing.
    [ptok] says which frames hold the directory and the tables; [uspace] that
    the user half maps a set of pages to frames of their own. *)

From stdpp Require Import base numbers list gmap sets strings.
From Stdlib Require Import ZArith Lia.
From S2P Require Import Prelude CStrings Frames Kalloc Vm.

Open Scope Z_scope.

(** ** Reading a page table *)

Definition pde (m : mem) (pgdir i : Z) : Z := load32 m (pgdir + 4 * i).
Definition present (m : mem) (pgdir i : Z) : bool := has (pde m pgdir i) PTE_P.
Definition tab (m : mem) (pgdir i : Z) : Z := p2v (PTE_ADDR (pde m pgdir i)).
Definition slot (m : mem) (pgdir k : Z) : Z := tab m pgdir (k / 1024) + 4 * (k mod 1024).
Definition pte (m : mem) (pgdir k : Z) : Z :=
  if present m pgdir (k / 1024) then load32 m (slot m pgdir k) else 0.

(** The frame a page is mapped to, and a byte of it. *)
Definition uframe (m : mem) (pgdir k : Z) : Z := p2v (PTE_ADDR (pte m pgdir k)).
Definition ubyte (m : mem) (pgdir va : Z) : Z := m (uframe m pgdir (va / 4096) + va mod 4096).

Section spec.
Context {K : Type} `{HK : !Frames K, HKo : !FramesOk K}.

Implicit Types (s : K) (m : mem) (F T S D : gset Z).

(** [T] is the directory with its tables. *)
Record ptok m pgdir T : Prop := {
  pt_dir : pgdir ∈ T;
  pt_frames : forall v, v ∈ T -> frame kend v;
  pt_tab : forall i, 0 <= i < 1024 -> present m pgdir i = true -> tab m pgdir i ∈ T /\ tab m pgdir i <> pgdir;
  pt_inj : forall i j, 0 <= i < 1024 -> 0 <= j < 1024 -> present m pgdir i = true -> present m pgdir j = true ->
    tab m pgdir i = tab m pgdir j -> i = j;
  pt_all : forall v, v ∈ T -> v = pgdir \/ exists i, 0 <= i < 1024 /\ present m pgdir i = true /\ v = tab m pgdir i
}.

Lemma frame_bounds v : frame kend v -> 0x80100000 <= v < 0x8E000000 /\ v mod 4096 = 0.
Proof.
  intros [H1 H2]. pose proof kend_pos. unfold KERNLINK, KERNBASE, PHYSTOP, EXTMEM, PGSIZE in *. lia.
Qed.

Lemma page_of_in v o : v mod 4096 = 0 -> 0 <= o < 4096 -> page_of (v + o) = v.
Proof. unfold page_of. lia. Qed.

(** A frame as a physical address and back. *)
Lemma frame_v2p v : frame kend v -> v2p v = v - 0x80000000 /\ p2v (v2p v) = v /\ v2p v mod 4096 = 0 /\
  0x100000 <= v2p v < 0xE000000.
Proof.
  intros [H Hv]%frame_bounds. unfold v2p, p2v, KERNBASE. rewrite (u32_small (v - 2147483648)) by lia.
  rewrite u32_small by lia. lia.
Qed.

Lemma slot_frame m pgdir T k :
  ptok m pgdir T -> 0 <= k < 2 ^ 20 -> present m pgdir (k / 1024) = true ->
  page_of (slot m pgdir k) = tab m pgdir (k / 1024) /\ slot m pgdir k mod 4 = 0 /\
  0 < slot m pgdir k < 2 ^ 32 /\ tab m pgdir (k / 1024) ∈ T /\ tab m pgdir (k / 1024) <> pgdir.
Proof.
  intros P Hk Hp. destruct (pt_tab _ _ _ P (k / 1024) ltac:(lia) Hp) as [Hin Hne].
  pose proof (frame_bounds _ (pt_frames _ _ _ P _ Hin)) as [Hr Hm].
  unfold slot. rewrite page_of_in by lia. split_and!; try done; lia.
Qed.

Lemma dir_frame m pgdir T i : ptok m pgdir T -> 0 <= i < 1024 ->
  page_of (pgdir + 4 * i) = pgdir /\ (pgdir + 4 * i) mod 4 = 0 /\ 0 < pgdir + 4 * i < 2 ^ 32.
Proof.
  intros P Hi. pose proof (frame_bounds _ (pt_frames _ _ _ P _ (pt_dir _ _ _ P))) as [Hr Hm].
  rewrite page_of_in by lia. split_and!; try done; lia.
Qed.

(** Writing outside the tables leaves the page table alone. *)
Lemma ptok_agree S m m' pgdir T :
  ptok m pgdir T -> agree_off S m m' -> S ## T ->
  ptok m' pgdir T /\ (forall i, 0 <= i < 1024 -> pde m' pgdir i = pde m pgdir i) /\
  (forall k, 0 <= k < 2 ^ 20 -> pte m' pgdir k = pte m pgdir k).
Proof.
  intros P Ha Hd.
  assert (Hpde : forall i, 0 <= i < 1024 -> pde m' pgdir i = pde m pgdir i).
  { intros i Hi. destruct (dir_frame m pgdir T i P Hi) as (E & Hm & _). apply (agree_load32 S); try done.
    rewrite E. intros Hin. by apply (Hd pgdir Hin), P. }
  assert (Htab : forall i, 0 <= i < 1024 -> tab m' pgdir i = tab m pgdir i /\ present m' pgdir i = present m pgdir i).
  { intros i Hi. unfold tab, present. by rewrite Hpde. }
  split_and!; [|done|].
  - destruct P as [P1 P2 P3 P4 P5]. split; try done.
    + intros i Hi. destruct (Htab i Hi) as [-> ->]. by apply P3.
    + intros i j Hi Hj. destruct (Htab i Hi) as [-> ->], (Htab j Hj) as [-> ->]. by apply P4.
    + intros v Hv. destruct (P5 v Hv) as [?|(i & Hi & Hp & E)]; [by left|]. right. exists i.
      destruct (Htab i Hi) as [-> ->]. done.
  - intros k Hk. unfold pte. destruct (Htab (k / 1024) ltac:(lia)) as [Et ->]. unfold slot. rewrite Et.
    destruct (present m pgdir (k / 1024)) eqn:Hp; [|done].
    destruct (slot_frame m pgdir T k P Hk Hp) as (E & Hm & _ & Hin & _).
    apply (agree_load32 S); try done. unfold slot in E. rewrite E. intros Hs. by apply (Hd _ Hs).
Qed.

(** Writing one entry of a table changes that page's entry only. *)
Lemma pte_store m pgdir T k v :
  ptok m pgdir T -> 0 <= k < 2 ^ 20 -> present m pgdir (k / 1024) = true -> 0 <= v < 2 ^ 32 ->
  let m' := store32 m (slot m pgdir k) v in
  ptok m' pgdir T /\ (forall i, 0 <= i < 1024 -> pde m' pgdir i = pde m pgdir i) /\
  (forall k', 0 <= k' < 2 ^ 20 -> pte m' pgdir k' = if k' =? k then v else pte m pgdir k') /\ agree_off T m m'.
Proof.
  intros P Hk Hp Hv m'. destruct (slot_frame m pgdir T k P Hk Hp) as (E & Hm & Hr & Hin & Hne).
  assert (Ha : agree_off {[page_of (slot m pgdir k)]} m m') by (by apply agree_store32).
  assert (Hpde : forall i, 0 <= i < 1024 -> pde m' pgdir i = pde m pgdir i).
  { intros i Hi. destruct (dir_frame m pgdir T i P Hi) as (E' & Hm' & _). apply (agree_load32 _ _ _ _ Ha); [done|].
    rewrite E', E, elem_of_singleton. congruence. }
  assert (Htab : forall i, 0 <= i < 1024 -> tab m' pgdir i = tab m pgdir i /\ present m' pgdir i = present m pgdir i).
  { intros i Hi. unfold tab, present. by rewrite Hpde. }
  split_and!; [|done| |].
  - destruct P as [P1 P2 P3 P4 P5]. split; try done.
    + intros i Hi. destruct (Htab i Hi) as [-> ->]. by apply P3.
    + intros i j Hi Hj. destruct (Htab i Hi) as [-> ->], (Htab j Hj) as [-> ->]. by apply P4.
    + intros w Hw. destruct (P5 w Hw) as [?|(i & Hi & Hp' & E')]; [by left|]. right. exists i.
      destruct (Htab i Hi) as [-> ->]. done.
  - intros k' Hk'. unfold pte. destruct (Htab (k' / 1024) ltac:(lia)) as [Et Ep]. rewrite Ep. unfold slot at 1. rewrite Et.
    fold (slot m pgdir k'). destruct (Z.eqb_spec k' k) as [->|Hkne].
    + rewrite Hp. unfold m'. by rewrite load32_store32_eq, u32_small by lia.
    + destruct (present m pgdir (k' / 1024)) eqn:Hp'; [|done].
      destruct (slot_frame m pgdir T k' P Hk' Hp') as (E' & Hm' & _).
      apply load32_store32_ne. destruct (decide (k' / 1024 = k / 1024)) as [Ed|Ed].
      * unfold slot. rewrite Ed. lia.
      * assert (Htn : tab m pgdir (k' / 1024) <> tab m pgdir (k / 1024)).
        { intros Et'. apply Ed. apply (pt_inj _ _ _ P); try done; lia. }
        pose proof (frame_bounds _ (pt_frames _ _ _ P _ Hin)) as [_ Hf].
        destruct (slot_frame m pgdir T k' P Hk' Hp') as (_ & _ & _ & Hin' & _).
        pose proof (frame_bounds _ (pt_frames _ _ _ P _ Hin')) as [_ Hf']. unfold slot. lia.
  - apply (agree_off_weaken _ _ _ _ Ha). rewrite E. set_solver.
Qed.

Lemma table_entry v : frame kend v ->
  let e := Z.lor (Z.lor (Z.lor (v2p v) PTE_P) PTE_W) PTE_U in
  0 <= e < 2 ^ 32 /\ has e PTE_P = true /\ p2v (PTE_ADDR e) = v.
Proof.
  intros Hv e. destruct (frame_v2p v Hv) as (_ & E2 & E3 & E4).
  assert (Ee : e = Z.lor (v2p v) 7) by (unfold e; by rewrite <- !Z.lor_assoc).
  destruct (pte_parts (v2p v) 7 E3) as [Ea Ef]; [lia|]. rewrite Ee. split_and!.
  - apply Z.lor_nonneg. lia.
  - apply Z.log2_lt_cancel. rewrite Z.log2_lor by lia. apply Z.max_lub_lt; [|done].
    change (Z.log2 (2 ^ 32)) with 32. apply Z.log2_lt_pow2; lia.
  - rewrite has_lor. apply orb_true_r.
  - by rewrite Ea.
Qed.

(** A zeroed frame put into an absent directory entry adds no page. *)
Lemma table_add m pgdir T i v :
  ptok m pgdir T -> 0 <= i < 1024 -> present m pgdir i = false -> frame kend v -> v ∉ T ->
  let m' := store32 (KString.memset m v 0 PGSIZE) (pgdir + 4 * i)
              (Z.lor (Z.lor (Z.lor (v2p v) PTE_P) PTE_W) PTE_U) in
  ptok m' pgdir ({[v]} ∪ T) /\ present m' pgdir i = true /\ tab m' pgdir i = v /\
  (forall k, 0 <= k < 2 ^ 20 -> pte m' pgdir k = pte m pgdir k) /\ agree_off ({[v]} ∪ T) m m'.
Proof.
  intros P Hi Hp Hv Hn m'. destruct (table_entry v Hv) as (He & Heb & Hea). cbn zeta in He, Heb, Hea.
  set (e := Z.lor (Z.lor (Z.lor (v2p v) PTE_P) PTE_W) PTE_U) in *. set (m1 := KString.memset m v 0 PGSIZE) in *.
  pose proof (frame_bounds v Hv) as [Hvr Hvm].
  assert (E1 : forall x, m1 x = if (v <=? x) && (x <? v + 4096) then 0 else m x) by (apply KString.memset_correct).
  assert (A1 : agree_off {[v]} m m1).
  { apply (agree_range _ _ _ v 4096); try done; [|set_solver]. intros x Hx. rewrite E1.
    destruct (Z.leb_spec v x), (Z.ltb_spec x (v + 4096)); cbn [andb]; done || lia. }
  destruct (ptok_agree {[v]} m m1 pgdir T P A1 ltac:(set_solver)) as (P1 & Hpde1 & Hpte1).
  destruct (dir_frame m pgdir T i P Hi) as (Ed & Hdm & Hdr).
  assert (A2 : agree_off {[pgdir]} m1 m') by (rewrite <- Ed; by apply agree_store32).
  assert (Hpgv : pgdir <> v) by (intros ->; apply Hn, P).
  assert (Hpde : forall j, 0 <= j < 1024 -> pde m' pgdir j = if j =? i then e else pde m pgdir j).
  { intros j Hj. unfold pde at 1, m'. destruct (Z.eqb_spec j i) as [->|]; [by rewrite load32_store32_eq, u32_small by lia|].
    rewrite load32_store32_ne by lia. by apply Hpde1. }
  assert (Htab : forall j, 0 <= j < 1024 -> present m' pgdir j = (j =? i) || present m pgdir j /\
                   tab m' pgdir j = if j =? i then v else tab m pgdir j).
  { intros j Hj. unfold present, tab. rewrite Hpde by done. destruct (j =? i); [by rewrite Heb|done]. }
  assert (Hz : forall k, 0 <= k < 1024 -> load32 m' (v + 4 * k) = 0).
  { intros k Hk. rewrite (agree_load32 {[pgdir]} m1) by (done || lia || (rewrite page_of_in by lia; by rewrite elem_of_singleton)).
    unfold load32. rewrite !E1, !(proj2 (Z.leb_le _ _)), !(proj2 (Z.ltb_lt _ _)) by lia. done. }
  split_and!.
  - destruct P as [Q1 Q2 Q3 Q4 Q5]. split.
    + by apply elem_of_union_r.
    + intros w [->%elem_of_singleton|Hw]%elem_of_union; [done|by apply Q2].
    + intros j Hj. destruct (Htab j Hj) as [-> ->]. destruct (Z.eqb_spec j i); cbn [orb].
      { intros _. split; [by apply elem_of_union_l, elem_of_singleton|congruence]. }
      intros Hpj. destruct (Q3 j Hj Hpj). split; [by apply elem_of_union_r|done].
    + intros j j' Hj Hj'. destruct (Htab j Hj) as [-> ->], (Htab j' Hj') as [-> ->].
      destruct (Z.eqb_spec j i) as [->|], (Z.eqb_spec j' i) as [->|]; cbn [orb]; intros Ha Hb Hc; try done.
      * destruct (Q3 j' Hj' Hb) as [Hin _]. rewrite <- Hc in Hin. done.
      * destruct (Q3 j Hj Ha) as [Hin _]. rewrite Hc in Hin. done.
      * by apply Q4.
    + intros w [->%elem_of_singleton|Hw]%elem_of_union.
      * right. exists i. destruct (Htab i Hi) as [-> ->]. by rewrite Z.eqb_refl.
      * destruct (Q5 w Hw) as [?|(j & Hj & Hpj & Ej)]; [by left|]. right. exists j.
        destruct (Htab j Hj) as [-> ->]. destruct (Z.eqb_spec j i); [congruence|]. done.
  - destruct (Htab i Hi) as [-> _]. by rewrite Z.eqb_refl.
  - destruct (Htab i Hi) as [_ ->]. by rewrite Z.eqb_refl.
  - intros k Hk. destruct (Htab (k / 1024) ltac:(lia)) as [Ep Et]. unfold pte. rewrite Ep. unfold slot at 1. rewrite Et.
    destruct (Z.eqb_spec (k / 1024) i) as [Ei|Hne]; cbn [orb].
    + rewrite Ei, Hp. apply Hz. lia.
    + destruct (present m pgdir (k / 1024)) eqn:Hpk; [|done].
      destruct (slot_frame m pgdir T k P Hk Hpk) as (Es & Hsm & _ & Hin & Hd). fold (slot m pgdir k).
      rewrite (agree_load32 {[pgdir]} m1); [|done|done|by rewrite Es, elem_of_singleton].
      apply (agree_load32 {[v]}); [done|done|]. rewrite Es, elem_of_singleton. congruence.
  - apply (agree_off_trans _ _ m1).
    + apply (agree_off_weaken _ _ _ _ A1). apply union_subseteq_l.
    + apply (agree_off_weaken _ _ _ _ A2). destruct P as [Q1 _ _ _ _]. set_solver +Q1.
Qed.

(** ** Walking *)

Record aspace s F T pgdir : Prop := {
  as_rep : fr_rep s F;
  as_pt : ptok (fr_mem s) pgdir T;
  as_disj : T ## F
}.

(** What [walkpgdir] and [mappages] may do besides: take frames for tables. *)
Record grown s F T pgdir s' F' T' : Prop := {
  gr_as : aspace s' F' T' pgdir;
  gr_T : T ⊆ T';
  gr_all : F' ∪ T' = F ∪ T;
  gr_mem : agree_off T' (fr_mem s) (fr_mem s')
}.

Lemma grown_refl s F T pgdir : aspace s F T pgdir -> grown s F T pgdir s F T.
Proof. intros A. by split. Qed.

Lemma grown_trans s F T pgdir s1 F1 T1 s2 F2 T2 :
  grown s F T pgdir s1 F1 T1 -> grown s1 F1 T1 pgdir s2 F2 T2 -> grown s F T pgdir s2 F2 T2.
Proof.
  intros [A1 B1 C1 D1] [A2 B2 C2 D2]. split; [done|by etransitivity|congruence|].
  apply (agree_off_trans _ _ (fr_mem s1)); [|done]. by apply (agree_off_weaken T1).
Qed.

Lemma agree_off_sym S m m' : agree_off S m m' -> agree_off S m' m.
Proof. intros H a Ha. by rewrite H. Qed.

(** Memory changed only inside the tables. *)
Lemma fr_write s F S m' :
  fr_rep s F -> agree_off S (fr_mem s) m' -> S ## F -> (forall a, 0 <= m' a < 256) ->
  fr_rep (fr_set m' s) F /\ fr_mem (fr_set m' s) = m'.
Proof. intros R A D B. split; [by apply (fr_set_ok s F S)|apply fr_mem_set]. Qed.

Lemma store32_bytes m a v : (forall x, 0 <= m x < 256) -> forall x, 0 <= store32 m a v x < 256.
Proof.
  intros H x. unfold store32, upd. pose proof (H x). pose proof (u8_range v). pose proof (u8_range (Z.shiftr v 8)).
  pose proof (u8_range (Z.shiftr v 16)). pose proof (u8_range (Z.shiftr v 24)). repeat case_match; lia.
Qed.

Lemma memset_bytes m d c n : (forall x, 0 <= m x < 256) -> forall x, 0 <= KString.memset m d c n x < 256.
Proof.
  intros H x. rewrite KString.memset_correct. unfold mset. pose proof (H x). pose proof (u8_range c).
  case_match; lia.
Qed.

Lemma memmove_bytes m d t n : (forall x, 0 <= m x < 256) -> forall x, 0 <= KString.memmove m d t n x < 256.
Proof. intros H x. rewrite KString.memmove_mcopy. unfold mcopy. case_match; apply H. Qed.

Lemma load32_bound s F a : fr_rep s F -> 0 <= load32 (fr_mem s) a < 2 ^ 32.
Proof. intros R. apply load32_range; apply (fr_bytes s F _ R). Qed.

Lemma walk_index va : 0 <= va < 2 ^ 32 -> 0 <= PDX va < 1024 /\ PDX va = va / 4096 / 1024 /\ PTX va = (va / 4096) mod 1024.
Proof. intros H. rewrite PDX_eq, PTX_eq by done. lia. Qed.

(** The table exists: the address of the entry, and nothing changes. *)
Lemma walk_present s F T pgdir va alloc :
  aspace s F T pgdir -> 0 <= va < 2 ^ 32 -> present (fr_mem s) pgdir (va / 4096 / 1024) = true ->
  walkpgdir pgdir va alloc s = Ok (slot (fr_mem s) pgdir (va / 4096)) s.
Proof.
  intros [R P D] Hva Hp. destruct (walk_index va Hva) as (Hi & E1 & E2).
  unfold walkpgdir. rewrite E1 in Hi. rewrite E1, E2.
  destruct (dir_frame _ _ _ _ P Hi) as (_ & _ & Hd). rewrite u32_small by lia.
  rewrite (bind_ok (rd _) _ _ _ _ eq_refl). change (has _ PTE_P) with (present (fr_mem s) pgdir (va / 4096 / 1024)).
  rewrite Hp. destruct (slot_frame _ _ _ (va / 4096) P ltac:(lia) Hp) as (_ & _ & Hs & _).
  change (p2v _) with (tab (fr_mem s) pgdir (va / 4096 / 1024)).
  change (tab (fr_mem s) pgdir (va / 4096 / 1024) + 4 * ((va / 4096) mod 1024)) with (slot (fr_mem s) pgdir (va / 4096)).
  rewrite u32_small by lia. done.
Qed.

Lemma walk_absent s F T pgdir va :
  aspace s F T pgdir -> 0 <= va < 2 ^ 32 -> present (fr_mem s) pgdir (va / 4096 / 1024) = false ->
  walkpgdir pgdir va false s = Ok 0 s.
Proof.
  intros [R P D] Hva Hp. destruct (walk_index va Hva) as (Hi & E1 & E2).
  unfold walkpgdir. rewrite E1 in Hi. rewrite E1.
  destruct (dir_frame _ _ _ _ P Hi) as (_ & _ & Hd). rewrite u32_small by lia.
  rewrite (bind_ok (rd _) _ _ _ _ eq_refl). change (has _ PTE_P) with (present (fr_mem s) pgdir (va / 4096 / 1024)).
  by rewrite Hp.
Qed.

(** No table and no frame for one. *)
Lemma walk_full s T pgdir va :
  aspace s ∅ T pgdir -> 0 <= va < 2 ^ 32 -> present (fr_mem s) pgdir (va / 4096 / 1024) = false ->
  walkpgdir pgdir va true s = Ok 0 s.
Proof.
  intros [R P D] Hva Hp. destruct (walk_index va Hva) as (Hi & E1 & E2).
  unfold walkpgdir. rewrite E1 in Hi. rewrite E1.
  destruct (dir_frame _ _ _ _ P Hi) as (_ & _ & Hd). rewrite u32_small by lia.
  rewrite (bind_ok (rd _) _ _ _ _ eq_refl). change (has _ PTE_P) with (present (fr_mem s) pgdir (va / 4096 / 1024)).
  rewrite Hp. cbn [negb]. destruct (fr_kalloc s ∅ R) as [[_ E]|(v & s1 & _ & Hv & _)]; [|set_solver +Hv].
  by rewrite (bind_ok _ _ _ _ _ E).
Qed.

(** With [alloc] the table is made if there is a frame for it. *)
Lemma walk_alloc s F T pgdir va :
  aspace s F T pgdir -> 0 <= va < 2 ^ 32 ->
  (exists s' F' T', walkpgdir pgdir va true s = Ok (slot (fr_mem s') pgdir (va / 4096)) s' /\
     grown s F T pgdir s' F' T' /\ present (fr_mem s') pgdir (va / 4096 / 1024) = true /\
     forall k, 0 <= k < 2 ^ 20 -> pte (fr_mem s') pgdir k = pte (fr_mem s) pgdir k) \/
  (walkpgdir pgdir va true s = Ok 0 s /\ F = ∅ /\ present (fr_mem s) pgdir (va / 4096 / 1024) = false).
Proof.
  intros A Hva. pose proof A as [R P D]. destruct (walk_index va Hva) as (Hi & E1 & E2).
  destruct (present (fr_mem s) pgdir (va / 4096 / 1024)) eqn:Hp.
  { left. exists s, F, T. split_and!; try done; first [by apply (walk_present s F T)|by apply grown_refl]. }
  rewrite E1 in Hi. destruct (dir_frame _ _ _ _ P Hi) as (_ & _ & Hd).
  assert (Ew : walkpgdir pgdir va true s = (pgtab ← kalloc;
    if pgtab =? 0 then mret 0
    else memset pgtab 0 PGSIZE;;
      wr (pgdir + 4 * (va / 4096 / 1024)) (Z.lor (Z.lor (Z.lor (v2p pgtab) PTE_P) PTE_W) PTE_U);;
      mret (u32 (pgtab + 4 * ((va / 4096) mod 1024)))) s).
  { unfold walkpgdir. rewrite E1, E2, u32_small by lia. rewrite (bind_ok (rd _) _ _ _ _ eq_refl).
    change (has _ PTE_P) with (present (fr_mem s) pgdir (va / 4096 / 1024)). by rewrite Hp. }
  rewrite Ew. destruct (fr_kalloc s F R) as [[-> E]|(v & s1 & E & Hv & R1 & Em)].
  { right. rewrite (bind_ok _ _ _ _ _ E). done. }
  left. pose proof (fr_frames s F v R Hv) as Hf. pose proof (frame_bounds v Hf) as [Hvr Hvm].
  assert (HvT : v ∉ T) by (intros HT; by apply (D v HT)).
  destruct (table_add (fr_mem s) pgdir T _ v P Hi Hp Hf HvT) as (P' & Hp' & Ht' & Hk' & A').
  set (m' := store32 _ _ _) in *.
  assert (Hb : forall a, 0 <= m' a < 256).
  { intros a. apply store32_bytes, memset_bytes. intros x. apply (fr_bytes s F _ R). }
  rewrite (bind_ok _ _ _ _ _ E), (proj2 (Z.eqb_neq v 0)) by lia.
  rewrite (bind_ok (memset _ _ _) _ _ _ _ eq_refl), (bind_ok (wr _ _) _ _ _ _ eq_refl).
  set (s2 := fr_set (store32 _ _ _) _).
  assert (E2m : fr_mem s2 = m') by (unfold s2; rewrite !fr_mem_set, Em; done).
  assert (Hd1 : ({[v]} ∪ T) ## (F ∖ {[v]})) by set_solver +D.
  assert (R2 : fr_rep s2 (F ∖ {[v]})).
  { unfold s2. apply (fr_set_ok _ _ ({[v]} ∪ T)); [|rewrite !fr_mem_set, Em|done|].
    - apply (fr_set_ok _ _ {[v]}); [done| |set_solver +|].
      + apply (agree_range _ _ _ v 4096); [|done|done|by apply elem_of_singleton].
        intros x Hx. rewrite KString.memset_correct. unfold mset. change (u32 PGSIZE) with 4096.
        destruct (Z.leb_spec v x), (Z.ltb_spec x (v + 4096)); cbn [andb]; done || lia.
      + apply memset_bytes. intros x. rewrite Em. apply (fr_bytes s F _ R).
    - apply (agree_off_weaken {[page_of (pgdir + 4 * (va / 4096 / 1024))]}).
      + apply agree_store32. pose proof (frame_bounds _ (pt_frames _ _ _ P _ (pt_dir _ _ _ P))). lia.
      + destruct (dir_frame _ _ _ _ P Hi) as (-> & _). pose proof (pt_dir _ _ _ P) as Hpd. set_solver +Hpd.
    - rewrite fr_mem_set, Em. exact Hb. }
  exists s2, (F ∖ {[v]}), ({[v]} ∪ T). rewrite E2m. split_and!; try done.
  - unfold slot. rewrite Ht', u32_small by lia. done.
  - split; [split; [done|by rewrite E2m|done]|set_solver +| |by rewrite E2m].
    apply set_eq. intros w. destruct (decide (w = v)) as [->|]; set_solver.
Qed.

(** ** Mapping *)

Lemma tables_bound m pgdir T i :
  ptok m pgdir T -> 0 <= i < 1024 -> present m pgdir i = false -> (base.size T <= 1024)%nat.
Proof.
  intros P Hi Hp.
  assert (Hs : T ⊆ list_to_set (pgdir :: (tab m pgdir <$> (seqZ 0 i ++ seqZ (i + 1) (1023 - i))))).
  { intros v Hv. apply elem_of_list_to_set. destruct (pt_all _ _ _ P v Hv) as [->|(j & Hj & Hpj & ->)]; [by left|].
    right. apply list_elem_of_fmap_2, elem_of_app. assert (j <> i) by congruence.
    destruct (decide (j < i)); [left|right]; apply elem_of_seqZ; lia. }
  apply subseteq_size in Hs. etransitivity; [exact Hs|]. etransitivity; [apply size_list_to_set_le|].
  cbn [length]. rewrite length_fmap, length_app, !length_seqZ. lia.
Qed.

(** Frames for [n] pages, and for every table the directory may still need. *)
Definition enough (n : nat) F T : Prop := (1025 + n <= base.size F + base.size T)%nat.

Lemma grown_size s F T pgdir s' F' T' :
  T ## F -> grown s F T pgdir s' F' T' -> (base.size F' + base.size T' = base.size F + base.size T)%nat.
Proof.
  intros D [[_ _ D'] _ E _]. apply (f_equal base.size) in E. rewrite !size_union in E by set_solver. done.
Qed.

Lemma walk_enough s F T pgdir va :
  aspace s F T pgdir -> enough 0 F T -> 0 <= va < 2 ^ 32 ->
  exists s' F' T', walkpgdir pgdir va true s = Ok (slot (fr_mem s') pgdir (va / 4096)) s' /\
     grown s F T pgdir s' F' T' /\ present (fr_mem s') pgdir (va / 4096 / 1024) = true /\
     forall k, 0 <= k < 2 ^ 20 -> pte (fr_mem s') pgdir k = pte (fr_mem s) pgdir k.
Proof.
  intros A He Hva. destruct (walk_alloc s F T pgdir va A Hva) as [?|(_ & -> & Hp)]; [done|].
  exfalso. pose proof (tables_bound _ _ _ (va / 4096 / 1024) (as_pt _ _ _ _ A) ltac:(lia) Hp).
  unfold enough in He. rewrite size_empty in He. lia.
Qed.

Lemma lor_pow2 k a b : 0 <= k -> 0 <= a < 2 ^ k -> 0 <= b < 2 ^ k -> 0 <= Z.lor a b < 2 ^ k.
Proof.
  intros Hk Ha Hb. pose proof (proj2 (Z.lor_nonneg a b) ltac:(lia)). split; [done|].
  rewrite <- (Z.mod_small a (2 ^ k)), <- (Z.mod_small b (2 ^ k)), <- !Z.land_ones, <- Z.land_lor_distr_l, Z.land_ones by lia.
  apply Z.mod_pos_bound. lia.
Qed.

Lemma lor_bound a b : 0 <= a < 2 ^ 32 -> 0 <= b < 2 ^ 32 -> 0 <= Z.lor a b < 2 ^ 32.
Proof. apply lor_pow2. lia. Qed.

(** Storing into a page's entry. *)
Lemma wr_slot s F T pgdir k v :
  aspace s F T pgdir -> 0 <= k < 2 ^ 20 -> present (fr_mem s) pgdir (k / 1024) = true -> 0 <= v < 2 ^ 32 ->
  exists s', wr (slot (fr_mem s) pgdir k) v s = Ok tt s' /\ grown s F T pgdir s' F T /\
    (forall i, 0 <= i < 1024 -> pde (fr_mem s') pgdir i = pde (fr_mem s) pgdir i) /\
    forall k', 0 <= k' < 2 ^ 20 -> pte (fr_mem s') pgdir k' = if k' =? k then v else pte (fr_mem s) pgdir k'.
Proof.
  intros [R P D] Hk Hp Hv. destruct (pte_store _ _ _ _ v P Hk Hp Hv) as (P' & Hpde & Hpte & Ha).
  destruct (fr_write s F T (store32 (fr_mem s) (slot (fr_mem s) pgdir k) v) R Ha D) as [R' Em].
  { apply store32_bytes. intros x. apply (fr_bytes s F _ R). }
  eexists. split; [reflexivity|]. rewrite Em. split_and!; try done. split; [split; [done|by rewrite Em|done]|done|done|by rewrite Em].
Qed.

Definition map_entry (pa perm : Z) : Z := Z.lor (Z.lor pa perm) PTE_P.

Lemma mappages_loop_S n pgdir a last pa pm :
  mappages_loop (S n) pgdir a last pa pm =
    (e ← walkpgdir pgdir a true;
     if e =? 0 then mret (-1)
     else
       x ← rd e;
       if has x PTE_P then panic "remap"
       else
         wr e (map_entry pa pm);;
         if a =? last then mret 0
         else mappages_loop n pgdir (u32 (a + PGSIZE)) last (u32 (pa + PGSIZE)) pm).
Proof. done. Qed.

Lemma mappages_loop_ok pgdir pm n : forall s F T k pa,
  aspace s F T pgdir -> enough 0 F T -> 0 <= k -> k + Z.of_nat n < 2 ^ 20 ->
  (forall j, k <= j <= k + Z.of_nat n -> has (pte (fr_mem s) pgdir j) PTE_P = false) ->
  0 <= pa -> pa + 4096 * Z.of_nat n < 2 ^ 32 -> 0 <= pm < 4096 ->
  exists s' F' T',
    mappages_loop (S n) pgdir (4096 * k) (4096 * (k + Z.of_nat n)) pa pm s = Ok 0 s' /\
    grown s F T pgdir s' F' T' /\
    forall j, 0 <= j < 2 ^ 20 -> pte (fr_mem s') pgdir j =
      if (k <=? j) && (j <=? k + Z.of_nat n) then map_entry (pa + 4096 * (j - k)) pm else pte (fr_mem s) pgdir j.
Proof.
  induction n as [|n IH]; intros s F T k pa A He Hk Hkn Hfree Hpa Hpan Hpm.
  all: destruct (walk_enough s F T pgdir (4096 * k) A He ltac:(lia)) as (s1 & F1 & T1 & E1 & G1 & Hp1 & Hpte1).
  all: replace (4096 * k / 4096) with k in * by lia.
  all: destruct (slot_frame _ _ _ k (as_pt _ _ _ _ (gr_as _ _ _ _ _ _ _ G1)) ltac:(lia) Hp1) as (_ & _ & Hs1 & _).
  all: assert (Hent : 0 <= map_entry pa pm < 2 ^ 32) by (unfold map_entry, PTE_P; apply lor_bound; [apply lor_bound|]; lia).
  all: destruct (wr_slot s1 F1 T1 pgdir k (map_entry pa pm) (gr_as _ _ _ _ _ _ _ G1) ltac:(lia) Hp1 Hent)
    as (s2 & E2 & G2 & _ & Hpte2).
  all: assert (Erd : rd (slot (fr_mem s1) pgdir k) s1 = Ok (pte (fr_mem s1) pgdir k) s1)
    by (unfold rd, reads, pte; rewrite Hp1; done).
  all: assert (Hnp : has (pte (fr_mem s1) pgdir k) PTE_P = false) by (rewrite Hpte1 by lia; apply Hfree; lia).
  all: rewrite mappages_loop_S, (bind_ok _ _ _ _ _ E1), (proj2 (Z.eqb_neq _ 0)) by lia.
  all: rewrite (bind_ok _ _ _ _ _ Erd), Hnp, (bind_ok _ _ _ _ _ E2).
  - rewrite Z.add_0_r, Z.eqb_refl. exists s2, F1, T1. split_and!; [done|by eapply grown_trans|].
    intros j Hj. rewrite Hpte2, Hpte1 by done. destruct (Z.eqb_spec j k) as [->|].
    + rewrite Z.leb_refl. cbn [andb]. f_equal. lia.
    + destruct (Z.leb_spec k j), (Z.leb_spec j k); cbn [andb]; done || lia.
  - rewrite (proj2 (Z.eqb_neq _ _)) by lia. unfold PGSIZE. rewrite !u32_small by lia.
    replace (4096 * k + 4096) with (4096 * (k + 1)) by lia.
    replace (4096 * (k + Z.of_nat (S n))) with (4096 * (k + 1 + Z.of_nat n)) by lia.
    assert (G12 : grown s F T pgdir s2 F1 T1) by (by eapply grown_trans).
    pose proof (grown_size _ _ _ _ _ _ _ (as_disj _ _ _ _ A) G12) as Hsz.
    destruct (IH s2 F1 T1 (k + 1) (pa + 4096)) as (s3 & F3 & T3 & E3 & G3 & Hpte3); try lia.
    { apply G2. } { unfold enough in *. lia. }
    { intros j Hj. rewrite Hpte2, (proj2 (Z.eqb_neq _ _)), Hpte1 by lia. apply Hfree. lia. }
    exists s3, F3, T3. split_and!; [done|by eapply grown_trans|]. intros j Hj. rewrite Hpte3, Hpte2, Hpte1 by done.
    destruct (Z.leb_spec (k + 1) j), (Z.leb_spec j (k + 1 + Z.of_nat n)), (Z.leb_spec k j),
      (Z.leb_spec j (k + Z.of_nat (S n))), (Z.eqb_spec j k); cbn [andb]; try lia; try done; subst; f_equal; lia.
Qed.

Lemma mappages_ok s F T pgdir pm k n pa :
  aspace s F T pgdir -> enough 0 F T -> 0 <= k -> 1 <= n -> k + n <= 2 ^ 20 ->
  (forall j, k <= j < k + n -> has (pte (fr_mem s) pgdir j) PTE_P = false) ->
  0 <= pa -> pa + 4096 * n <= 2 ^ 32 -> 0 <= pm < 4096 ->
  exists s' F' T', mappages pgdir (4096 * k) (4096 * n) pa pm s = Ok 0 s' /\ grown s F T pgdir s' F' T' /\
    forall j, 0 <= j < 2 ^ 20 -> pte (fr_mem s') pgdir j =
      if (k <=? j) && (j <? k + n) then map_entry (pa + 4096 * (j - k)) pm else pte (fr_mem s) pgdir j.
Proof.
  intros A He Hk Hn Hkn Hfree Hpa Hpan Hpm. unfold mappages. rewrite !PGROUNDDOWN_eq.
  rewrite (u32_small (4096 * k + 4096 * n - 1)) by lia.
  replace (4096 * k - (4096 * k) mod 4096) with (4096 * k) by lia.
  replace (4096 * k + 4096 * n - 1 - (4096 * k + 4096 * n - 1) mod 4096) with (4096 * (k + (n - 1))) by lia.
  rewrite u32_small by lia. unfold PGSIZE.
  replace ((4096 * (k + (n - 1)) - 4096 * k) / 4096) with (n - 1) by lia.
  destruct (mappages_loop_ok pgdir pm (Z.to_nat (n - 1)) s F T k pa) as (s' & F' & T' & E & G & Hpte);
    try done; try lia.
  { intros j Hj. apply Hfree. lia. }
  rewrite Z2Nat.id in E, Hpte by lia. exists s', F', T'. split_and!; try done. intros j Hj. rewrite Hpte by done.
  destruct (Z.leb_spec k j), (Z.leb_spec j (k + (n - 1))), (Z.ltb_spec j (k + n)); cbn [andb]; done || lia.
Qed.

(** ** The kernel's half *)

(** A zeroed frame is an empty page directory. *)
Lemma empty_dir s F v :
  fr_rep s F -> frame kend v -> v ∉ F ->
  exists s', memset v 0 PGSIZE s = Ok tt s' /\ aspace s' F {[v]} v /\ agree_off {[v]} (fr_mem s) (fr_mem s') /\
    (forall k, 0 <= k < 2 ^ 20 -> pte (fr_mem s') v k = 0) /\ forall i, 0 <= i < 4096 -> fr_mem s' (v + i) = 0.
Proof.
  intros R Hf Hv. pose proof (frame_bounds v Hf) as [Hvr Hvm]. set (m := KString.memset (fr_mem s) v 0 PGSIZE).
  assert (Em : forall x, m x = if (v <=? x) && (x <? v + 4096) then 0 else fr_mem s x) by (apply KString.memset_correct).
  assert (A : agree_off {[v]} (fr_mem s) m).
  { apply (agree_range _ _ _ v 4096); [|done|done|by apply elem_of_singleton]. intros x Hx. rewrite Em.
    destruct (Z.leb_spec v x), (Z.ltb_spec x (v + 4096)); cbn [andb]; done || lia. }
  destruct (fr_write s F {[v]} m R A) as [R' Em']; [set_solver +Hv| |].
  { apply memset_bytes. intros x. apply (fr_bytes s F _ R). }
  assert (Hz : forall i, 0 <= i < 4096 -> m (v + i) = 0).
  { intros i Hi. by rewrite Em, (proj2 (Z.leb_le _ _)), (proj2 (Z.ltb_lt _ _)) by lia. }
  assert (Hnp : forall i, 0 <= i < 1024 -> present m v i = false).
  { intros i Hi. unfold present, pde, load32. rewrite <- !Z.add_assoc, !Hz by lia. done. }
  eexists. split; [reflexivity|]. fold m. rewrite Em'. split_and!; try done.
  - split; [done| |set_solver +Hv]. rewrite Em'. split.
    + by apply elem_of_singleton.
    + by intros w ->%elem_of_singleton.
    + intros i Hi Hp. by rewrite Hnp in Hp.
    + intros i j Hi Hj Hp. by rewrite Hnp in Hp.
    + intros w ->%elem_of_singleton. by left.
  - intros k Hk. unfold pte. by rewrite Hnp by lia.
Qed.

(** The entry [kmap] asks for. *)
Definition kernel_pte (data j : Z) : Z :=
  if j <? 0x80000 then 0
  else if j <? 0x80100 then map_entry (4096 * (j - 0x80000)) PTE_W
  else if 4096 * j <? data then map_entry (4096 * (j - 0x80000)) 0
  else if j <? 0x8E000 then map_entry (4096 * (j - 0x80000)) PTE_W
  else if j <? 0xFE000 then 0
  else map_entry (4096 * j) PTE_W.

(** Where kernel.ld may put [data]: after the text, on a page of its own. *)
Definition data_ok (data : Z) : Prop := data mod 4096 = 0 /\ KERNLINK < data < KERNBASE + PHYSTOP.

Lemma setupkvm_ok data s F :
  data_ok data -> fr_rep s F -> (1025 <= base.size F)%nat ->
  exists pgdir s' F' T', setupkvm data s = Ok pgdir s' /\ aspace s' F' T' pgdir /\ F' ∪ T' = F /\
    agree_off T' (fr_mem s) (fr_mem s') /\
    forall j, 0 <= j < 2 ^ 20 -> pte (fr_mem s') pgdir j = kernel_pte data j.
Proof.
  intros [Hda Hdr] R Hsz. unfold KERNLINK, KERNBASE, PHYSTOP, EXTMEM in Hdr. set (q := data / 4096).
  assert (Eq : data = 4096 * q) by (unfold q; lia).
  destruct (fr_kalloc s F R) as [[-> _]|(v & s0 & E0 & Hv & R0 & Em0)]; [rewrite size_empty in Hsz; lia|].
  pose proof (fr_frames s F v R Hv) as Hf. pose proof (frame_bounds v Hf) as [Hvr _].
  destruct (empty_dir s0 (F ∖ {[v]}) v R0 Hf ltac:(set_solver +)) as (s1 & E1 & A1 & M1 & Z1 & _).
  assert (Hen : enough 0 (F ∖ {[v]}) {[v]}).
  { unfold enough. rewrite size_difference, size_singleton by set_solver +Hv. lia. }
  assert (Hz : has 0 PTE_P = false) by done.
  destruct (mappages_ok s1 _ _ v PTE_W 0x80000 0x100 0 A1 Hen) as (s2 & F2 & T2 & E2 & G2 & Z2);
    try (unfold PTE_W; lia); [intros j Hj; by rewrite Z1 by lia|].
  pose proof (grown_size _ _ _ _ _ _ _ (as_disj _ _ _ _ A1) G2) as S2.
  destruct (mappages_ok s2 F2 T2 v 0 0x80100 (q - 0x80100) 0x100000 (gr_as _ _ _ _ _ _ _ G2)) as (s3 & F3 & T3 & E3 & G3 & Z3);
    try lia; [unfold enough in *; lia| |].
  { intros j Hj. rewrite Z2 by lia. destruct (Z.leb_spec 0x80000 j), (Z.ltb_spec j (0x80000 + 0x100)); cbn [andb]; try lia.
    by rewrite Z1 by lia. }
  pose proof (grown_size _ _ _ _ _ _ _ (as_disj _ _ _ _ (gr_as _ _ _ _ _ _ _ G2)) G3) as S3.
  destruct (mappages_ok s3 F3 T3 v PTE_W q (0x8E000 - q) (4096 * (q - 0x80000)) (gr_as _ _ _ _ _ _ _ G3))
    as (s4 & F4 & T4 & E4 & G4 & Z4); try (unfold PTE_W; lia); [unfold enough in *; lia| |].
  { intros j Hj. rewrite Z3, Z2 by lia. destruct (Z.leb_spec 0x80100 j), (Z.ltb_spec j (0x80100 + (q - 0x80100))),
      (Z.leb_spec 0x80000 j), (Z.ltb_spec j (0x80000 + 0x100)); cbn [andb]; try lia. by rewrite Z1 by lia. }
  pose proof (grown_size _ _ _ _ _ _ _ (as_disj _ _ _ _ (gr_as _ _ _ _ _ _ _ G3)) G4) as S4.
  destruct (mappages_ok s4 F4 T4 v PTE_W 0xFE000 0x2000 0xFE000000 (gr_as _ _ _ _ _ _ _ G4))
    as (s5 & F5 & T5 & E5 & G5 & Z5); try (unfold PTE_W; lia); [unfold enough in *; lia| |].
  { intros j Hj. rewrite Z4, Z3, Z2 by lia. destruct (Z.leb_spec q j), (Z.ltb_spec j (q + (0x8E000 - q))),
      (Z.leb_spec 0x80100 j), (Z.ltb_spec j (0x80100 + (q - 0x80100))),
      (Z.leb_spec 0x80000 j), (Z.ltb_spec j (0x80000 + 0x100)); cbn [andb]; try lia. by rewrite Z1 by lia. }
  assert (G : grown s1 (F ∖ {[v]}) {[v]} v s5 F5 T5) by (do 3 (eapply grown_trans; [eassumption|]); eassumption).
  exists v, s5, F5, T5. split_and!.
  - unfold setupkvm. rewrite (bind_ok _ _ _ _ _ E0), (proj2 (Z.eqb_neq _ 0)) by lia.
    rewrite (bind_ok _ _ _ _ _ E1). change (p2v PHYSTOP >? DEVSPACE) with false. cbn iota.
    unfold kmap. cbn [map_all virt phys_start phys_end perm].
    change (u32 (EXTMEM - 0)) with (4096 * 0x100). change KERNBASE with (4096 * 0x80000) at 1.
    rewrite (bind_ok _ _ _ _ _ E2). cbn iota. change (0 <? 0) with false. cbn iota.
    change KERNLINK with (4096 * 0x80100) at 1. change (v2p KERNLINK) with 0x100000.
    assert (Ev : v2p data = 4096 * (q - 0x80000)) by (unfold v2p, KERNBASE; rewrite u32_small by lia; lia).
    rewrite Ev. replace (u32 (4096 * (q - 0x80000) - 0x100000)) with (4096 * (q - 0x80100)) by (rewrite u32_small; lia).
    rewrite (bind_ok _ _ _ _ _ E3). change (0 <? 0) with false. cbn iota.
    replace (u32 (PHYSTOP - 4096 * (q - 0x80000))) with (4096 * (0x8E000 - q)) by (unfold PHYSTOP; rewrite u32_small; lia).
    rewrite Eq, (bind_ok _ _ _ _ _ E4). change (0 <? 0) with false. cbn iota.
    change (u32 (0 - DEVSPACE)) with (4096 * 0x2000). change DEVSPACE with (4096 * 0xFE000) at 1.
    change DEVSPACE with 0xFE000000. rewrite (bind_ok _ _ _ _ _ E5). done.
  - apply G5.
  - rewrite (gr_all _ _ _ _ _ _ _ G). by apply set_put_back.
  - rewrite <- Em0. apply (agree_off_trans _ _ (fr_mem s1)); [|apply G].
    apply (agree_off_weaken _ _ _ _ M1). pose proof (gr_T _ _ _ _ _ _ _ G). done.
  - intros j Hj. rewrite Z5, Z4, Z3, Z2, Z1 by done. unfold kernel_pte. rewrite Eq.
    destruct (decide (j < 0x80000)); [by zdec|]. destruct (decide (j < 0x80100)); [zdec; f_equal; lia|].
    destruct (decide (j < q)); [zdec; f_equal; lia|]. destruct (decide (j < 0x8E000)); [zdec; f_equal; lia|].
    destruct (decide (j < 0xFE000)); [by zdec|]. zdec. f_equal. lia.
Qed.

End spec.
