(* ===== verification/VmUser.v ===== *)
(** * User address spaces

    [uspace] says that the user half of a page table maps exactly the pages
    [D], each to a frame of its own that is neither free nor a table.  Growing,
    shrinking, copying and freeing an address space keep it, and account for
    every frame. *)

From stdpp Require Import base numbers list gmap sets strings.
From Stdlib Require Import ZArith Lia.
From S2P Require Import Prelude CStrings Frames Kalloc Vm VmSpec.

Open Scope Z_scope.

Section user.
Context {K : Type} `{HK : !Frames K, HKo : !FramesOk K}.

Implicit Types (s : K) (m : mem) (F T S D : gset Z).

Record uspace s F T pgdir D : Prop := {
  us_as : aspace s F T pgdir;
  us_dom : forall k, k ∈ D -> 0 <= k < 2 ^ 19;
  us_live : forall k, 0 <= k < 2 ^ 19 -> has (pte (fr_mem s) pgdir k) PTE_P = true <-> k ∈ D;
  us_frame : forall k, k ∈ D -> frame kend (uframe (fr_mem s) pgdir k) /\
    uframe (fr_mem s) pgdir k ∉ T /\ uframe (fr_mem s) pgdir k ∉ F;
  us_inj : forall k k', k ∈ D -> k' ∈ D -> uframe (fr_mem s) pgdir k = uframe (fr_mem s) pgdir k' -> k = k'
}.

(** A change outside the tables, with perhaps fewer frames free. *)
Lemma uspace_agree s F T pgdir D s' F' S :
  uspace s F T pgdir D -> fr_rep s' F' -> F' ⊆ F -> agree_off S (fr_mem s) (fr_mem s') -> S ## T ->
  uspace s' F' T pgdir D /\ forall k, 0 <= k < 2 ^ 20 -> pte (fr_mem s') pgdir k = pte (fr_mem s) pgdir k.
Proof.
  intros [[R P D1] U1 U2 U3 U4] R' HF A Hd.
  destruct (ptok_agree S _ _ _ _ P A Hd) as (P' & _ & Hpte).
  assert (Hu : forall k, k ∈ D -> uframe (fr_mem s') pgdir k = uframe (fr_mem s) pgdir k).
  { intros k Hk. unfold uframe. rewrite Hpte; [done|]. pose proof (U1 k Hk). lia. }
  split; [|done]. split; try done.
  - split; [done|done|]. set_solver +D1 HF.
  - intros k Hk. rewrite Hpte by lia. by apply U2.
  - intros k Hk. rewrite Hu by done. destruct (U3 k Hk) as (? & ? & HnF). split_and!; try done. set_solver +HnF HF.
  - intros k k' Hk Hk'. rewrite !Hu by done. by apply U4.
Qed.

(** Writing into a frame the caller owns. *)
Lemma uspace_fill s F T pgdir D v m' :
  uspace s F T pgdir D -> v mod 4096 = 0 -> v ∉ F -> v ∉ T ->
  (forall x, x < v \/ v + 4096 <= x -> m' x = fr_mem s x) -> (forall a, 0 <= m' a < 256) ->
  uspace (fr_set m' s) F T pgdir D /\ agree_off {[v]} (fr_mem s) m' /\
  forall k, 0 <= k < 2 ^ 20 -> pte m' pgdir k = pte (fr_mem s) pgdir k.
Proof.
  intros U Hv HF HT Hm Hb. pose proof (as_rep _ _ _ _ (us_as _ _ _ _ _ U)) as R.
  assert (A : agree_off {[v]} (fr_mem s) m') by (apply (agree_range _ _ _ v 4096); try done; by apply elem_of_singleton).
  destruct (fr_write s F {[v]} m' R A) as [R' Em]; [set_solver +HF|done|].
  destruct (uspace_agree s F T pgdir D (fr_set m' s) F {[v]} U R') as [U' Hp]; rewrite ?Em; try done; [set_solver +HT|].
  rewrite Em in Hp. done.
Qed.

Lemma map_entry_parts v pm : frame kend v -> 0 <= pm < 4096 ->
  p2v (PTE_ADDR (map_entry (v2p v) pm)) = v /\ PTE_FLAGS (map_entry (v2p v) pm) = Z.lor pm PTE_P /\
  has (map_entry (v2p v) pm) PTE_P = true.
Proof.
  intros Hv Hpm. destruct (frame_v2p v Hv) as (_ & E2 & E3 & E4). unfold map_entry. rewrite <- Z.lor_assoc.
  assert (Hb : 0 <= Z.lor pm PTE_P < 4096).
  { apply (lor_pow2 12); unfold PTE_P; lia. }
  destruct (pte_parts (v2p v) (Z.lor pm PTE_P) E3 Hb) as [-> ->]. split_and!; try done.
  rewrite !has_lor. by rewrite !orb_true_r.
Qed.

(** Mapping one more page to a frame nobody uses. *)
Lemma uspace_map s F T pgdir D k v pm :
  uspace s F T pgdir D -> enough 0 F T -> 0 <= k < 2 ^ 19 -> k ∉ D ->
  frame kend v -> v ∉ F -> v ∉ T -> (forall j, j ∈ D -> uframe (fr_mem s) pgdir j <> v) -> 0 <= pm < 4096 ->
  exists s' F' T', mappages pgdir (4096 * k) PGSIZE (v2p v) pm s = Ok 0 s' /\
    uspace s' F' T' pgdir ({[k]} ∪ D) /\ grown s F T pgdir s' F' T' /\
    forall j, 0 <= j < 2 ^ 20 -> pte (fr_mem s') pgdir j =
      if j =? k then map_entry (v2p v) pm else pte (fr_mem s) pgdir j.
Proof.
  intros [A U1 U2 U3 U4] He Hk HkD Hv HvF HvT Hvu Hpm. destruct (frame_v2p v Hv) as (_ & _ & E3 & E4).
  destruct (mappages_ok s F T pgdir pm k 1 (v2p v) A He) as (s' & F' & T' & E & G & Hpte); try lia.
  { intros j Hj. replace j with k by lia. destruct (has _ _) eqn:Eh; [|done]. exfalso. apply HkD, U2; [done|exact Eh]. }
  assert (Hpte' : forall j, 0 <= j < 2 ^ 20 -> pte (fr_mem s') pgdir j =
      if j =? k then map_entry (v2p v) pm else pte (fr_mem s) pgdir j).
  { intros j Hj. rewrite Hpte by done. destruct (Z.eqb_spec j k) as [->|]; zdec; [f_equal; lia|].
    destruct (Z.leb_spec k j), (Z.ltb_spec j (k + 1)); cbn [andb]; done || lia. }
  destruct (map_entry_parts v pm Hv Hpm) as (Ea & _ & Eh).
  assert (Hu : forall j, j ∈ {[k]} ∪ D -> uframe (fr_mem s') pgdir j = if j =? k then v else uframe (fr_mem s) pgdir j).
  { intros j Hj. assert (0 <= j < 2 ^ 20).
    { apply elem_of_union in Hj as [->%elem_of_singleton|Hj]; [lia|]. pose proof (U1 j Hj). lia. }
    unfold uframe. rewrite Hpte' by done. by destruct (j =? k). }
  pose proof G as [[R' P' D'] HT Hall _].
  assert (Hin : forall w, w ∉ F -> w ∉ T -> w ∉ F' /\ w ∉ T').
  { intros w H1 H2. assert (w ∉ F' ∪ T') by (rewrite Hall; set_solver +H1 H2). set_solver. }
  exists s', F', T'. split_and!; try done. split.
  - done.
  - intros j [->%elem_of_singleton|Hj]%elem_of_union; [done|by apply U1].
  - intros j Hj. rewrite Hpte' by lia. rewrite elem_of_union, elem_of_singleton.
    destruct (Z.eqb_spec j k) as [->|Hne]; [rewrite Eh; tauto|]. rewrite U2 by done. tauto.
  - intros j Hj. rewrite Hu by done. destruct (Z.eqb_spec j k) as [->|Hne].
    + split_and!; [done|by apply Hin|by apply Hin].
    + apply elem_of_union in Hj as [Hj%elem_of_singleton|Hj]; [done|]. destruct (U3 j Hj) as (? & ? & ?).
      split_and!; [done|by apply Hin|by apply Hin].
  - intros j j' Hj Hj'. rewrite !Hu by done.
    apply elem_of_union in Hj as [->%elem_of_singleton|Hj]; apply elem_of_union in Hj' as [->%elem_of_singleton|Hj'];
      rewrite ?Z.eqb_refl; try done.
    + destruct (Z.eqb_spec j' k); [done|]. intros Ev. exfalso. by apply (Hvu j' Hj').
    + destruct (Z.eqb_spec j k); [done|]. intros Ev. exfalso. by apply (Hvu j Hj).
    + destruct (Z.eqb_spec j k) as [->|], (Z.eqb_spec j' k) as [->|]; try done. by apply U4.
Qed.

(** ** Growing *)

(** The pages from [k] up to [n]. *)
Definition pages (k n : Z) : gset Z := list_to_set (seqZ k (n - k)).

Lemma elem_of_pages k n j : j ∈ pages k n <-> k <= j < n.
Proof. unfold pages. rewrite elem_of_list_to_set, elem_of_seqZ. lia. Qed.

Lemma pages_nil k n : n <= k -> pages k n = ∅.
Proof. intros H. apply set_eq. intros j. rewrite elem_of_pages. set_solver by lia. Qed.

Lemma pages_cons k n : k < n -> pages k n = {[k]} ∪ pages (k + 1) n.
Proof.
  intros H. apply set_eq. intros j. rewrite elem_of_union, elem_of_singleton, !elem_of_pages. lia.
Qed.

(** [allocuvm] went from the pages [D] to [D] and those from [k] to [n]. *)
Record allocated s F T pgdir D k n s' F' T' : Prop := {
  al_us : uspace s' F' T' pgdir (D ∪ pages k n);
  al_T : T ⊆ T';
  al_FT : F' ∪ T' ⊆ F ∪ T;
  al_cover : forall v, v ∈ F ∪ T -> v ∈ F' ∪ T' \/ exists j, k <= j < n /\ v = uframe (fr_mem s') pgdir j;
  al_size : (base.size F' + base.size T' + Z.to_nat (n - k) = base.size F + base.size T)%nat;
  al_old : forall j, 0 <= j < 2 ^ 20 -> ~ k <= j < n -> pte (fr_mem s') pgdir j = pte (fr_mem s) pgdir j;
  al_new : forall j, k <= j < n -> PTE_FLAGS (pte (fr_mem s') pgdir j) = 7 /\
    uframe (fr_mem s') pgdir j ∈ F /\ forall o, 0 <= o < 4096 -> fr_mem s' (uframe (fr_mem s') pgdir j + o) = 0;
  al_mem : agree_off (F ∪ T) (fr_mem s) (fr_mem s')
}.

Lemma tables_max s F T pgdir : aspace s F T pgdir -> (base.size T <= 1025)%nat.
Proof.
  intros [_ P _]. transitivity (base.size (list_to_set (pgdir :: (tab (fr_mem s) pgdir <$> seqZ 0 1024)) : gset Z)).
  - apply subseteq_size. intros w Hw. apply elem_of_list_to_set.
    destruct (pt_all _ _ _ P w Hw) as [->|(i & Hi & _ & ->)]; [by left|]. right.
    apply list_elem_of_fmap_2, elem_of_seqZ. lia.
  - etransitivity; [apply size_list_to_set_le|]. cbn [length]. by rewrite length_fmap, length_seqZ.
Qed.

Lemma kalloc_enough s F T pgdir n : aspace s F T pgdir -> enough (S n) F T ->
  exists v s', kalloc s = Ok v s' /\ v ∈ F /\ fr_rep s' (F ∖ {[v]}) /\ fr_mem s' = fr_mem s /\
    enough n (F ∖ {[v]}) T /\ (base.size (F ∖ {[v]}) + 1 = base.size F)%nat.
Proof.
  intros A He. unfold enough in He. pose proof (tables_max _ _ _ _ A) as HT.
  destruct (fr_kalloc s F (as_rep _ _ _ _ A)) as [[-> _]|(v & s' & E & Hv & R' & Em)].
  - exfalso. rewrite size_empty in He. lia.
  - exists v, s'. assert (Hs : (base.size (F ∖ {[v]}) + 1 = base.size F)%nat).
    { rewrite size_difference, size_singleton by set_solver +Hv.
      assert (0 < base.size F)%nat; [|lia]. apply Nat.neq_0_lt_0. intros H0%size_empty_inv. set_solver +H0 Hv. }
    split_and!; try done. unfold enough. lia.
Qed.

Lemma allocuvm_step s F T pgdir D k n :
  uspace s F T pgdir D -> enough (S n) F T -> 0 <= k < 2 ^ 19 -> k ∉ D ->
  exists v s1 s2 s3 F' T', kalloc s = Ok v s1 /\ v <> 0 /\ memset v 0 PGSIZE s1 = Ok tt s2 /\
    mappages pgdir (4096 * k) PGSIZE (v2p v) (Z.lor PTE_W PTE_U) s2 = Ok 0 s3 /\
    allocated s F T pgdir D k (k + 1) s3 F' T' /\ enough n F' T'.
Proof.
  intros U He Hk HkD. pose proof (us_as _ _ _ _ _ U) as A. pose proof (as_disj _ _ _ _ A) as Dj.
  destruct (kalloc_enough s F T pgdir n A He) as (v & s1 & E1 & Hv & R1 & Em & He1 & Hs1).
  pose proof (fr_frames s F v (as_rep _ _ _ _ A) Hv) as Hf. pose proof (frame_bounds v Hf) as [Hvr Hvm].
  assert (HvT : v ∉ T) by (intros HT; by apply (Dj v HT)). assert (Dj1 : T ## F ∖ {[v]}) by set_solver +Dj.
  destruct (uspace_agree s F T pgdir D s1 (F ∖ {[v]}) ∅ U R1) as [U1 _]; [set_solver +|by rewrite Em|set_solver +|].
  set (m2 := KString.memset (fr_mem s1) v 0 PGSIZE).
  assert (Em2 : forall x, m2 x = if (v <=? x) && (x <? v + 4096) then 0 else fr_mem s1 x) by (apply KString.memset_correct).
  destruct (uspace_fill s1 (F ∖ {[v]}) T pgdir D v m2 U1 Hvm) as (U2 & A2 & Hp2); [set_solver +|done| | |].
  { intros x Hx. rewrite Em2. destruct (Z.leb_spec v x), (Z.ltb_spec x (v + 4096)); cbn [andb]; done || lia. }
  { apply memset_bytes. intros x. apply (fr_bytes s1 _ _ R1). }
  assert (Emm : fr_mem (fr_set m2 s1) = m2) by apply fr_mem_set.
  assert (Hvu : forall j, j ∈ D -> uframe m2 pgdir j <> v).
  { intros j Hj. pose proof (us_dom _ _ _ _ _ U j Hj). unfold uframe. rewrite Hp2, Em by lia.
    intros Ev. destruct (us_frame _ _ _ _ _ U j Hj) as (_ & _ & HnF). apply HnF. unfold uframe. by rewrite Ev. }
  destruct (uspace_map (fr_set m2 s1) (F ∖ {[v]}) T pgdir D k v (Z.lor PTE_W PTE_U) U2) as (s3 & F' & T' & E3 & U3 & G3 & Hp3);
    try done; try (set_solver +); [unfold enough in *; lia|by rewrite Emm|].
  rewrite Emm in Hp3. pose proof G3 as [_ HT3 Hall3 Hm3]. rewrite Emm in Hm3.
  assert (Hk20 : 0 <= k < 2 ^ 20) by lia.
  destruct (map_entry_parts v (Z.lor PTE_W PTE_U) Hf) as (Ea & Ef & _); [change (Z.lor PTE_W PTE_U) with 6; lia|].
  assert (Eu : uframe (fr_mem s3) pgdir k = v) by (unfold uframe; rewrite Hp3, Z.eqb_refl by done; exact Ea).
  exists v, s1, (fr_set m2 s1), s3, F', T'. split_and!; try done; [lia| |].
  2:{ pose proof (grown_size _ _ _ _ _ _ _ Dj1 G3) as Hgs. unfold enough in *. lia. }
  split.
  - replace (pages k (k + 1)) with ({[k]} : gset Z) by (rewrite pages_cons, pages_nil by lia; set_solver +).
    by rewrite union_comm_L.
  - done.
  - rewrite Hall3. set_solver +.
  - intros w Hw. destruct (decide (w = v)) as [->|Hne]; [right; exists k; split; [lia|done]|left].
    rewrite Hall3. clear -Hw Hne. set_solver.
  - pose proof (grown_size _ _ _ _ _ _ _ Dj1 G3) as Hgs.
    replace (Z.to_nat (k + 1 - k)) with 1%nat by lia. lia.
  - intros j Hj Hn. rewrite Hp3, (proj2 (Z.eqb_neq j k)), Hp2, Em by lia. done.
  - intros j Hj. replace j with k by lia. rewrite Eu. rewrite Hp3, Z.eqb_refl by done. split_and!; try done.
    intros o Ho. destruct (us_frame _ _ _ _ _ U3 k) as (_ & HuT & _); [set_solver +|]. rewrite Eu in HuT.
    rewrite (Hm3 (v + o)) by (rewrite page_of_in by lia; done). rewrite Em2. zdec. done.
  - apply (agree_off_trans _ _ m2).
    + rewrite <- Em. apply (agree_off_weaken _ _ _ _ A2). set_solver +Hv.
    + apply (agree_off_weaken _ _ _ _ Hm3). transitivity (F' ∪ T'); [set_solver +|]. rewrite Hall3. set_solver +.
Qed.

Lemma allocated_refl s F T pgdir D k : uspace s F T pgdir D -> allocated s F T pgdir D k k s F T.
Proof.
  intros U. split; try done; try lia; [|by left]. rewrite pages_nil by lia. by rewrite union_empty_r_L.
Qed.

Lemma allocated_cons s F T pgdir D k n s1 F1 T1 s2 F2 T2 :
  T ## F -> 0 <= k < n -> n <= 2 ^ 20 ->
  allocated s F T pgdir D k (k + 1) s1 F1 T1 ->
  allocated s1 F1 T1 pgdir (D ∪ pages k (k + 1)) (k + 1) n s2 F2 T2 ->
  allocated s F T pgdir D k n s2 F2 T2.
Proof.
  intros Dj Hk Hn [U1 B1 C1 V1 S1 O1 N1 M1] [U2 B2 C2 V2 S2 O2 N2 M2].
  assert (HF : F1 ⊆ F).
  { pose proof (as_disj _ _ _ _ (us_as _ _ _ _ _ U1)) as D1. intros w Hw.
    assert (w ∈ F ∪ T) as [?|HT]%elem_of_union by (apply C1; set_solver +Hw); [done|].
    exfalso. apply (D1 w); [by apply B1|done]. }
  split.
  - replace (D ∪ pages k n) with (D ∪ pages k (k + 1) ∪ pages (k + 1) n); [done|].
    rewrite (pages_cons k n), (pages_cons k (k + 1)), (pages_nil (k + 1) (k + 1)) by lia. set_solver +.
  - by etransitivity.
  - by etransitivity.
  - intros w Hw. destruct (V1 w Hw) as [Hw1|(j & Hj & ->)].
    + destruct (V2 w Hw1) as [?|(j & Hj & ->)]; [by left|]. right. exists j. split; [lia|done].
    + right. exists j. split; [lia|]. unfold uframe. by rewrite O2 by lia.
  - lia.
  - intros j Hj Hnot. rewrite O2, O1 by lia. done.
  - intros j Hj. destruct (decide (j = k)) as [->|Hne].
    + destruct (N1 k ltac:(lia)) as (Ef & Hu & Hz).
      assert (Ep : pte (fr_mem s2) pgdir k = pte (fr_mem s1) pgdir k) by (apply O2; lia).
      unfold uframe in *. rewrite Ep. split_and!; try done. intros o Ho.
      destruct (us_frame _ _ _ _ _ U1 k) as (Hf & HnT & HnF).
      { apply elem_of_union_r, elem_of_pages. lia. }
      rewrite (M2 _); [by apply Hz|]. unfold uframe in *. pose proof (frame_bounds _ Hf) as [_ Hm].
      rewrite page_of_in by done. set_solver +HnT HnF.
    + destruct (N2 j ltac:(lia)) as (Ef & Hu & Hz). split_and!; try done. by apply HF.
  - apply (agree_off_trans _ _ (fr_mem s1)); [done|]. by apply (agree_off_weaken _ _ _ _ M2).
Qed.

Lemma allocuvm_loop_ok pgdir oldsz newsz np : forall n s F T D k,
  4096 * (np - 1) < newsz <= 4096 * np -> np <= 2 ^ 19 ->
  uspace s F T pgdir D -> enough (Z.to_nat (np - k)) F T -> 0 <= k <= np ->
  (forall j, k <= j < np -> j ∉ D) -> np - k <= Z.of_nat n ->
  exists s' F' T', allocuvm_loop n pgdir (4096 * k) oldsz newsz s = Ok newsz s' /\
    allocated s F T pgdir D k np s' F' T'.
Proof.
  induction n as [|n IH]; intros s F T D k Hsz Hnp U He Hk HD Hn; cbn [allocuvm_loop].
  - assert (k = np) as -> by lia. zdec. exists s, F, T. split; [done|by apply allocated_refl].
  - destruct (decide (k = np)) as [->|Hne].
    { zdec. exists s, F, T. split; [done|by apply allocated_refl]. }
    rewrite (proj2 (Z.ltb_lt _ _)) by lia.
    destruct (allocuvm_step s F T pgdir D k (Z.to_nat (np - (k + 1))) U) as (v & s1 & s2 & s3 & F3 & T3 & E1 & Hv & E2 & E3 & A3 & He3).
    { by replace (S (Z.to_nat (np - (k + 1)))) with (Z.to_nat (np - k)) by lia. } { lia. } { apply HD. lia. }
    rewrite (bind_ok _ _ _ _ _ E1), (proj2 (Z.eqb_neq v 0)) by done.
    rewrite (bind_ok _ _ _ _ _ E2), (bind_ok _ _ _ _ _ E3). unfold PGSIZE. rewrite u32_small by lia.
    replace (4096 * k + 4096) with (4096 * (k + 1)) by lia.
    destruct (IH s3 F3 T3 (D ∪ pages k (k + 1)) (k + 1)) as (s4 & F4 & T4 & E4 & A4); try done; try lia.
    { apply A3. }
    { intros j Hj [?|Hin%elem_of_pages]%elem_of_union; [|lia]. apply (HD j); [lia|done]. }
    exists s4, F4, T4. split; [done|]. eapply allocated_cons; try done; try lia.
    apply (as_disj _ _ _ _ (us_as _ _ _ _ _ U)).
Qed.

(** The number of pages below a size. *)
Definition npages (sz : Z) : Z := (sz + 4095) / 4096.

Lemma PGROUNDUP_pages sz : 0 <= sz <= 2 ^ 31 -> PGROUNDUP sz = 4096 * npages sz.
Proof. intros H. rewrite PGROUNDUP_eq, u32_small by lia. unfold npages. lia. Qed.

Lemma allocuvm_ok s F T pgdir oldsz newsz :
  uspace s F T pgdir (pages 0 (npages oldsz)) -> 0 <= oldsz <= newsz -> newsz < KERNBASE ->
  enough (Z.to_nat (npages newsz - npages oldsz)) F T ->
  exists s' F' T', allocuvm pgdir oldsz newsz s = Ok newsz s' /\
    allocated s F T pgdir (pages 0 (npages oldsz)) (npages oldsz) (npages newsz) s' F' T'.
Proof.
  intros U Ho Hn He. unfold KERNBASE in Hn. unfold allocuvm, KERNBASE.
  rewrite Z.geb_leb, (proj2 (Z.leb_gt _ _)), (proj2 (Z.ltb_ge _ _)) by lia. rewrite PGROUNDUP_pages by lia.
  apply allocuvm_loop_ok; try done; unfold npages in *; try lia.
  intros j Hj. rewrite elem_of_pages. lia.
Qed.

(** ** Shrinking *)

(** A live page's table exists, and reading its entry. *)
Lemma live_present s F T pgdir D k : uspace s F T pgdir D -> k ∈ D ->
  present (fr_mem s) pgdir (k / 1024) = true /\
  rd (slot (fr_mem s) pgdir k) s = Ok (pte (fr_mem s) pgdir k) s /\ has (pte (fr_mem s) pgdir k) PTE_P = true.
Proof.
  intros U Hk. pose proof (us_dom _ _ _ _ _ U k Hk) as Hd.
  assert (Hh : has (pte (fr_mem s) pgdir k) PTE_P = true) by (by apply (us_live _ _ _ _ _ U)).
  assert (Hp : present (fr_mem s) pgdir (k / 1024) = true).
  { unfold pte in Hh. by destruct (present (fr_mem s) pgdir (k / 1024)). }
  split_and!; try done. unfold rd, reads, pte. by rewrite Hp.
Qed.

Lemma unmap_step s F T pgdir D k :
  uspace s F T pgdir D -> k ∈ D ->
  let v := uframe (fr_mem s) pgdir k in
  exists s1 s2, kfree v s = Ok tt s1 /\ wr (slot (fr_mem s) pgdir k) 0 s1 = Ok tt s2 /\
    uspace s2 ({[v]} ∪ F) T pgdir (D ∖ {[k]}) /\ agree_off ({[v]} ∪ T) (fr_mem s) (fr_mem s2) /\
    forall j, 0 <= j < 2 ^ 20 -> pte (fr_mem s2) pgdir j = if j =? k then 0 else pte (fr_mem s) pgdir j.
Proof.
  intros U Hk v. pose proof U as [[R P Dj] U1 U2 U3 U4]. destruct (U3 k Hk) as (Hf & HvT & HvF). pose proof (U1 k Hk) as Hkr.
  destruct (live_present _ _ _ _ _ _ U Hk) as (Hp & _ & _).
  destruct (fr_kfree s F v R Hf HvF) as (s1 & E1 & R1 & M1).
  destruct (ptok_agree {[v]} _ _ _ _ P M1 ltac:(set_solver +HvT)) as (P1 & Hpde1 & Hpte1).
  assert (A1 : aspace s1 ({[v]} ∪ F) T pgdir) by (split; [done|done|set_solver +Dj HvT]).
  assert (Es : slot (fr_mem s1) pgdir k = slot (fr_mem s) pgdir k) by (unfold slot, tab; by rewrite Hpde1 by lia).
  assert (Hp1 : present (fr_mem s1) pgdir (k / 1024) = true) by (unfold present in *; by rewrite Hpde1 by lia).
  destruct (wr_slot s1 _ T pgdir k 0 A1 ltac:(lia) Hp1 ltac:(lia)) as (s2 & E2 & G2 & _ & Hpte2). rewrite Es in E2.
  assert (Hpte : forall j, 0 <= j < 2 ^ 20 -> pte (fr_mem s2) pgdir j = if j =? k then 0 else pte (fr_mem s) pgdir j).
  { intros j Hj. rewrite Hpte2, Hpte1 by done. done. }
  assert (Hu : forall j, j ∈ D ∖ {[k]} -> uframe (fr_mem s2) pgdir j = uframe (fr_mem s) pgdir j).
  { intros j [Hj Hne%not_elem_of_singleton]%elem_of_difference. pose proof (U1 j Hj). unfold uframe. rewrite Hpte by lia.
    by rewrite (proj2 (Z.eqb_neq j k)). }
  exists s1, s2. split_and!; try done.
  - split.
    + apply G2.
    + intros j [Hj _]%elem_of_difference. by apply U1.
    + intros j Hj. rewrite Hpte by lia. rewrite elem_of_difference, elem_of_singleton.
      destruct (Z.eqb_spec j k) as [->|]; [by split; [|intros [_ ?]]|]. rewrite U2 by done. tauto.
    + intros j Hj. rewrite Hu by done. apply elem_of_difference in Hj as [Hj Hne%not_elem_of_singleton].
      destruct (U3 j Hj) as (? & ? & ?). split_and!; try done.
      intros [Ev%elem_of_singleton|?]%elem_of_union; [|done]. apply Hne. by apply U4.
    + intros j j' Hj Hj'. rewrite !Hu by done. apply elem_of_difference in Hj as [Hj _].
      apply elem_of_difference in Hj' as [Hj' _]. by apply U4.
  - apply (agree_off_trans _ _ (fr_mem s1)).
    + apply (agree_off_weaken _ _ _ _ M1). set_solver +.
    + apply (agree_off_weaken _ _ _ _ (gr_mem _ _ _ _ _ _ _ G2)). set_solver +.
Qed.

(** [deallocuvm] dropped the live pages from [k] that lie below [oldsz]. *)
Record dropped s F T pgdir D k oldsz s' F' : Prop := {
  dr_us : uspace s' F' T pgdir (filter (fun j => j < k \/ oldsz <= 4096 * j) D);
  dr_free : forall v, v ∈ F' <-> v ∈ F \/ exists j, j ∈ D /\ k <= j /\ 4096 * j < oldsz /\ v = uframe (fr_mem s) pgdir j;
  dr_old : forall j, 0 <= j < 2 ^ 20 -> j ∉ D \/ j < k \/ oldsz <= 4096 * j -> pte (fr_mem s') pgdir j = pte (fr_mem s) pgdir j;
  dr_mem : agree_off (F' ∪ T) (fr_mem s) (fr_mem s')
}.

Lemma dropped_none s F T pgdir D k oldsz :
  uspace s F T pgdir D -> (forall j, j ∈ D -> k <= j -> oldsz <= 4096 * j) -> dropped s F T pgdir D k oldsz s F.
Proof.
  intros U H. split; try done.
  - replace (filter _ D) with D; [done|]. apply set_eq. intros j. rewrite elem_of_filter.
    split; [|by intros [_ ?]]. intros Hj. split; [|done]. destruct (decide (j < k)); [by left|right]. apply H; [done|lia].
  - intros v. split; [by left|]. intros [?|(j & Hj & H1 & H2 & _)]; [done|]. specialize (H j Hj H1). lia.
Qed.

(** Live pages from [k] on come without gaps. *)
Definition gapless (k : Z) D : Prop := forall i j, k <= i <= j -> j ∈ D -> i ∈ D.

Lemma deallocuvm_loop_ok pgdir oldsz : forall n s F T D k,
  uspace s F T pgdir D -> gapless k D -> 0 <= k -> oldsz <= 2 ^ 31 -> oldsz <= 4096 * (k + Z.of_nat n) ->
  k <= 2 ^ 19 + 1024 ->
  exists s' F', deallocuvm_loop n pgdir (4096 * k) oldsz s = Ok tt s' /\ dropped s F T pgdir D k oldsz s' F'.
Proof.
  induction n as [|n IH]; intros s F T D k U Hg Hk Hold Hn Hk'; cbn [deallocuvm_loop].
  { zdec. exists s, F. split; [done|]. apply dropped_none; [done|]. intros j _ Hj. lia. }
  destruct (decide (4096 * k < oldsz)) as [Hlt|Hge].
  2:{ zdec. exists s, F. split; [done|]. apply dropped_none; [done|]. intros j _ Hj. lia. }
  rewrite (proj2 (Z.ltb_lt _ _)) by lia. pose proof (us_as _ _ _ _ _ U) as A.
  unfold NPTENTRIES, PGSIZE.
  destruct (decide (k ∈ D)) as [HkD|HkD].
  - destruct (live_present _ _ _ _ _ _ U HkD) as (Hp & Erd & Hh).
    assert (Ew : walkpgdir pgdir (4096 * k) false s = Ok (slot (fr_mem s) pgdir k) s).
    { pose proof (walk_present s F T pgdir (4096 * k) false A ltac:(lia)) as Hw.
      replace (4096 * k / 4096) with k in Hw by lia. by apply Hw. }
    destruct (slot_frame _ _ _ k (as_pt _ _ _ _ A) ltac:(lia) Hp) as (_ & _ & Hs & _).
    rewrite (bind_ok _ _ _ _ _ Ew), (proj2 (Z.eqb_neq _ 0)) by lia. rewrite (bind_ok _ _ _ _ _ Erd), Hh.
    destruct (us_frame _ _ _ _ _ U k HkD) as (Hf & HvT & HvF). pose proof (frame_bounds _ Hf) as [Hfr _].
    assert (Hpa : PTE_ADDR (pte (fr_mem s) pgdir k) <> 0).
    { intros E0. unfold uframe in Hfr. rewrite E0 in Hfr. vm_compute in Hfr. by destruct Hfr. }
    rewrite (proj2 (Z.eqb_neq _ 0) Hpa). change (p2v _) with (uframe (fr_mem s) pgdir k).
    destruct (unmap_step _ _ _ _ _ _ U HkD) as (s1 & s2 & E1 & E2 & U2 & M2 & Hpte2).
    set (v := uframe (fr_mem s) pgdir k) in *.
    rewrite (bind_ok _ _ _ _ _ E1), (bind_ok _ _ _ _ _ E2). rewrite u32_small by lia.
    replace (4096 * k + 4096) with (4096 * (k + 1)) by lia.
    destruct (IH s2 _ T (D ∖ {[k]}) (k + 1) U2) as (s3 & F3 & E3 & [V1 V2 V3 V4]); try lia.
    { intros i j Hij [Hj _]%elem_of_difference. apply elem_of_difference. split; [|set_solver by lia].
      apply (Hg i j); [lia|done]. }
    exists s3, F3. split; [done|]. split.
    + replace (filter (fun j => j < k \/ oldsz <= 4096 * j) D) with
        (filter (fun j => j < k + 1 \/ oldsz <= 4096 * j) (D ∖ {[k]})); [done|].
      apply set_eq. intros j. rewrite !elem_of_filter, elem_of_difference, elem_of_singleton.
      destruct (decide (j = k)) as [->|]; [lia|]. split; intros [? ?]; split; try tauto; lia.
    + intros w. rewrite V2. assert (Hu : forall j, j ∈ D -> j <> k -> uframe (fr_mem s2) pgdir j = uframe (fr_mem s) pgdir j).
      { intros j Hj Hne. pose proof (us_dom _ _ _ _ _ U j Hj). unfold uframe.
        by rewrite Hpte2, (proj2 (Z.eqb_neq j k)) by (done || lia). }
      split.
      * intros [[->%elem_of_singleton|?]%elem_of_union|(j & [Hj Hne%not_elem_of_singleton]%elem_of_difference & H1 & H2 & ->)].
        -- right. exists k. split_and!; try done; lia.
        -- by left.
        -- right. exists j. rewrite Hu by done. split_and!; try done; lia.
      * intros [?|(j & Hj & H1 & H2 & ->)]; [set_solver|]. destruct (decide (j = k)) as [->|Hne]; [set_solver +|].
        right. exists j. rewrite Hu by done. split_and!; try done; [set_solver|lia].
    + intros j Hj Hc. rewrite V3 by (done || set_solver by lia).
      rewrite Hpte2 by done. destruct (Z.eqb_spec j k) as [->|]; [|done]. destruct Hc as [?|?]; [done|lia].
    + apply (agree_off_trans _ _ (fr_mem s2)); [|done]. apply (agree_off_weaken _ _ _ _ M2).
      assert (v ∈ F3) by (apply V2; set_solver +). set_solver.
  - assert (Hnone : forall j, j ∈ D -> j < k).
    { intros j Hj. destruct (decide (j < k)); [done|]. exfalso. apply HkD. apply (Hg k j); [lia|done]. }
    assert (Hskip : forall k', k <= k' -> k' <= 2 ^ 19 + 1024 -> oldsz <= 4096 * (k' + Z.of_nat n) ->
      exists s' F', deallocuvm_loop n pgdir (4096 * k') oldsz s = Ok tt s' /\ dropped s F T pgdir D k oldsz s' F').
    { intros k' H1 H2 H3. destruct (IH s F T D k' U) as (s' & F' & E' & [V1 V2 V3 V4]); try lia.
      { intros i j Hij Hj. pose proof (Hnone j Hj). lia. }
      exists s', F'. split; [done|]. split.
      - replace (filter (fun j => j < k \/ oldsz <= 4096 * j) D) with (filter (fun j => j < k' \/ oldsz <= 4096 * j) D); [done|].
        apply set_eq. intros j. rewrite !elem_of_filter. split; intros [_ Hj]; (split; [|done]); pose proof (Hnone j Hj); lia.
      - intros v. rewrite V2. split; (intros [?|(j & Hj & ? & _)]; [by left|pose proof (Hnone j Hj); lia]).
      - intros j Hj _. apply V3; [done|]. destruct (decide (j ∈ D)) as [Hin|]; [|by left]. pose proof (Hnone j Hin). lia.
      - done. }
    destruct (present (fr_mem s) pgdir (k / 1024)) eqn:Hp.
    + pose proof (walk_present s F T pgdir (4096 * k) false A ltac:(lia)) as Hw.
      replace (4096 * k / 4096) with k in Hw by lia.
      destruct (slot_frame _ _ _ k (as_pt _ _ _ _ A) ltac:(lia) Hp) as (_ & _ & Hs & _).
      rewrite (bind_ok _ _ _ _ _ (Hw Hp)), (proj2 (Z.eqb_neq _ 0)) by lia.
      assert (Erd : rd (slot (fr_mem s) pgdir k) s = Ok (pte (fr_mem s) pgdir k) s)
        by (unfold rd, reads, pte; by rewrite Hp).
      rewrite (bind_ok _ _ _ _ _ Erd).
      assert (Hh : has (pte (fr_mem s) pgdir k) PTE_P = false).
      { destruct (has _ _) eqn:E; [|done]. exfalso. apply HkD, (us_live _ _ _ _ _ U); [lia|exact E]. }
      rewrite Hh, u32_small by lia. replace (4096 * k + 4096) with (4096 * (k + 1)) by lia. apply Hskip; lia.
    + pose proof (walk_absent s F T pgdir (4096 * k) A ltac:(lia)) as Hw.
      replace (4096 * k / 4096) with k in Hw by lia. rewrite (bind_ok _ _ _ _ _ (Hw Hp)).
      change (0 =? 0) with true. cbn iota. rewrite u32_small by lia.
      replace (4096 * k + (1024 - 1) * 4096 + 4096) with (4096 * (k + 1024)) by lia. apply Hskip; lia.
Qed.

Lemma gapless_pages k n : 0 <= k -> gapless k (pages 0 n).
Proof. intros Hk i j Hij Hj%elem_of_pages. apply elem_of_pages. lia. Qed.

Lemma deallocuvm_ok s F T pgdir sz oldsz newsz :
  uspace s F T pgdir (pages 0 (npages sz)) -> 0 <= newsz < oldsz -> oldsz <= KERNBASE -> newsz <= sz ->
  exists s' F', deallocuvm pgdir oldsz newsz s = Ok newsz s' /\
    dropped s F T pgdir (pages 0 (npages sz)) (npages newsz) oldsz s' F'.
Proof.
  intros U Hn Ho Hs. unfold KERNBASE in Ho. unfold deallocuvm.
  rewrite Z.geb_leb, (proj2 (Z.leb_gt _ _)), PGROUNDUP_pages by lia.
  destruct (deallocuvm_loop_ok pgdir oldsz (Z.to_nat oldsz) s F T _ (npages newsz) U) as (s' & F' & E & Dr);
    unfold npages; try lia; [apply gapless_pages; lia|].
  exists s', F'. unfold npages in E. rewrite (bind_ok _ _ _ _ _ E). done.
Qed.

(** ** Releasing an address space *)

Lemma free_tables s F T pgdir :
  aspace s F T pgdir ->
  exists s' F', for_ 0 NPDENTRIES (free_table pgdir) s = Ok tt s' /\ fr_rep s' F' /\ F' = F ∪ T ∖ {[pgdir]}.
Proof.
  intros [R P Dj]. pose proof (pt_dir _ _ _ P) as Hpd.
  set (I := fun i s' => exists F', fr_rep s' F' /\ agree_off (T ∖ {[pgdir]}) (fr_mem s) (fr_mem s') /\
    forall v, v ∈ F' <-> v ∈ F \/ exists j, 0 <= j < i /\ present (fr_mem s) pgdir j = true /\ v = tab (fr_mem s) pgdir j).
  destruct (for_inv I (free_table pgdir) 0 NPDENTRIES s) as (s' & E & F' & R' & _ & HF').
  - unfold NPDENTRIES. lia.
  - exists F. split_and!; try done. intros v. split; [by left|]. intros [?|(j & ? & _)]; [done|lia].
  - intros i s1 Hi (F1 & R1 & M1 & HF1). unfold NPDENTRIES in Hi.
    destruct (dir_frame _ _ _ i P ltac:(lia)) as (Ed & Hdm & Hd).
    assert (Epde : load32 (fr_mem s1) (pgdir + 4 * i) = pde (fr_mem s) pgdir i).
    { apply (agree_load32 _ _ _ _ M1); [done|]. rewrite Ed. set_solver +. }
    unfold free_table. rewrite u32_small by lia. rewrite (bind_ok (rd _) _ _ _ _ eq_refl), Epde.
    change (has _ PTE_P) with (present (fr_mem s) pgdir i). change (p2v _) with (tab (fr_mem s) pgdir i).
    destruct (present (fr_mem s) pgdir i) eqn:Hp; cbn [when].
    + destruct (pt_tab _ _ _ P i ltac:(lia) Hp) as [HtT Htn].
      destruct (fr_kfree s1 F1 (tab (fr_mem s) pgdir i) R1) as (s2 & E2 & R2 & M2).
      * by apply (pt_frames _ _ _ P).
      * rewrite HF1. intros [HF|(j & Hj & Hpj & Et)]; [by apply (Dj _ HtT)|].
        assert (i = j); [|lia]. apply (pt_inj _ _ _ P); try done; lia.
      * exists s2. split; [done|]. exists ({[tab (fr_mem s) pgdir i]} ∪ F1). split_and!; try done.
        -- apply (agree_off_trans _ _ (fr_mem s1)); [done|]. apply (agree_off_weaken _ _ _ _ M2). set_solver +HtT Htn.
        -- intros v. rewrite elem_of_union, elem_of_singleton, HF1. split.
           ++ intros [->|[?|(j & Hj & ?)]]; [right; exists i; split_and!; try done; lia|by left|].
              right. exists j. split; [lia|done].
           ++ intros [?|(j & Hj & Hpj & ->)]; [by right; left|].
              destruct (decide (j = i)) as [->|]; [by left|]. right; right. exists j. split; [lia|done].
    + exists s1. split; [done|]. exists F1. split_and!; try done. intros v. rewrite HF1. split.
      * intros [?|(j & Hj & ?)]; [by left|]. right. exists j. split; [lia|done].
      * intros [?|(j & Hj & Hpj & ->)]; [by left|]. right. exists j. split; [|done].
        destruct (decide (j = i)) as [->|]; [congruence|lia].
  - exists s', F'. split_and!; try done. apply set_eq. intros v. rewrite HF', elem_of_union, elem_of_difference, elem_of_singleton.
    split; (intros [?|Hv]; [by left|right]).
    + destruct Hv as (j & Hj & Hpj & ->). by apply (pt_tab _ _ _ P).
    + destruct Hv as [Hv Hne]. destruct (pt_all _ _ _ P v Hv) as [?|(j & Hj & ? & ?)]; [done|]. exists j. done.
Qed.

Lemma freevm_ok s F T pgdir sz :
  uspace s F T pgdir (pages 0 (npages sz)) -> 0 <= sz < KERNBASE ->
  exists s' F', freevm pgdir s = Ok tt s' /\ fr_rep s' F' /\
    forall v, v ∈ F' <-> v ∈ F \/ v ∈ T \/ exists j, 0 <= j < npages sz /\ v = uframe (fr_mem s) pgdir j.
Proof.
  intros U Hsz. unfold KERNBASE in Hsz. pose proof (as_pt _ _ _ _ (us_as _ _ _ _ _ U)) as P.
  pose proof (frame_bounds _ (pt_frames _ _ _ P _ (pt_dir _ _ _ P))) as [Hpr _].
  destruct (deallocuvm_ok s F T pgdir sz KERNBASE 0 U) as (s1 & F1 & E1 & [V1 V2 V3 V4]); try (unfold KERNBASE; lia).
  destruct (free_tables s1 F1 T pgdir (us_as _ _ _ _ _ V1)) as (s2 & F2 & E2 & R2 & EF2).
  pose proof (as_pt _ _ _ _ (us_as _ _ _ _ _ V1)) as P1. pose proof (as_disj _ _ _ _ (us_as _ _ _ _ _ V1)) as D1.
  pose proof (pt_dir _ _ _ P1) as Hpd.
  destruct (fr_kfree s2 F2 pgdir R2) as (s3 & E3 & R3 & _).
  { by apply (pt_frames _ _ _ P1). } { rewrite EF2. set_solver +D1 Hpd. }
  exists s3, ({[pgdir]} ∪ F2). split; [|split; [exact R3|]].
  - unfold freevm. rewrite (proj2 (Z.eqb_neq _ 0)) by lia.
    rewrite (bind_ok _ _ _ _ _ E1), (bind_ok _ _ _ _ _ E2). exact E3.
  - clear E1 E2 E3. intros v. rewrite EF2. rewrite !elem_of_union, elem_of_difference, elem_of_singleton, V2.
    change (npages 0) with 0. unfold KERNBASE.
    split.
    + intros [->|[[?|(j & Hj%elem_of_pages & _ & _ & ->)]|[? _]]]; auto. right; right. by exists j.
    + intros [?|[?|(j & Hj & ->)]]; auto.
      * destruct (decide (v = pgdir)); auto.
      * right; left; right. exists j. rewrite elem_of_pages. split_and!; try done; try lia.
        unfold npages in Hj. lia.
Qed.

End user.
