(* ===== verification/VmCopy.v ===== *)
(** * Copying address spaces and copying into them

    [copyuvm], the copy made by fork, and [copyout]. *)

From stdpp Require Import base numbers list gmap sets strings.
From Stdlib Require Import ZArith Lia.
From S2P Require Import Prelude CStrings Frames Kalloc Vm VmSpec VmUser.

Open Scope Z_scope.

Section copy.
Context {K : Type} `{HK : !Frames K, HKo : !FramesOk K}.

Implicit Types (s : K) (m : mem) (F T S D : gset Z).

Lemma flags_present e : has e PTE_P = true -> Z.lor (PTE_FLAGS e) PTE_P = PTE_FLAGS e.
Proof.
  intros H. rewrite PTE_FLAGS_eq. unfold has, PTE_P in *.
  assert (Hb : Z.testbit e 0 = true).
  { change 1 with (Z.ones 1) in H. rewrite Z.land_ones in H by lia. change (2 ^ 1) with 2 in H.
    rewrite <- Z.bit0_mod in H. by destruct (Z.testbit e 0). }
  change 4096 with (2 ^ 12). apply Z.bits_inj'. intros i Hi. rewrite Z.lor_spec.
  destruct (decide (i = 0)) as [->|].
  - rewrite Z.mod_pow2_bits_low by lia. by rewrite Hb.
  - change 1 with (2 ^ 0). rewrite Z.pow2_bits_false by lia. by rewrite orb_false_r.
Qed.

(** The frames of live pages keep their bytes when only [S] is written. *)
Lemma frame_bytes s F T pgdir D k S m' o :
  uspace s F T pgdir D -> k ∈ D -> uframe (fr_mem s) pgdir k ∉ S -> agree_off S (fr_mem s) m' -> 0 <= o < 4096 ->
  m' (uframe (fr_mem s) pgdir k + o) = fr_mem s (uframe (fr_mem s) pgdir k + o).
Proof.
  intros U Hk HS A Ho. destruct (us_frame _ _ _ _ _ U k Hk) as (Hf & _).
  apply A. pose proof (frame_bounds _ Hf) as [_ Hm]. by rewrite page_of_in.
Qed.

Lemma grown_free s F T pgdir s' F' T' : grown s F T pgdir s' F' T' -> F' ⊆ F /\ T' ⊆ F ∪ T.
Proof.
  intros [[_ _ D] HT Hall _]. split.
  - intros x Hx. assert (x ∈ F ∪ T) as [?|Hx2]%elem_of_union by (rewrite <- Hall; set_solver +Hx); [done|].
    exfalso. apply (D x); [by apply HT|done].
  - rewrite <- Hall. set_solver +.
Qed.

(** One page of the parent [pgdir] was copied to a new frame [v] of the child
    [d]; [T] and [T2] are their tables. *)
Record copied s F T pgdir D T2 d k v s' F' T2' : Prop := {
  cp_par : uspace s' F' T pgdir D;
  cp_chi : uspace s' F' T2' d (pages 0 (k + 1));
  cp_new : v ∈ F /\ v ∉ T2' /\ uframe (fr_mem s') d k = v;
  cp_flags : PTE_FLAGS (pte (fr_mem s') d k) = PTE_FLAGS (pte (fr_mem s) pgdir k);
  cp_bytes : forall o, 0 <= o < 4096 -> fr_mem s' (v + o) = fr_mem s (uframe (fr_mem s) pgdir k + o);
  cp_ptes : forall j, 0 <= j < 2 ^ 20 -> pte (fr_mem s') pgdir j = pte (fr_mem s) pgdir j;
  cp_child : forall i, 0 <= i < k -> pte (fr_mem s') d i = pte (fr_mem s) d i;
  cp_mem : agree_off (F ∪ T2) (fr_mem s) (fr_mem s');
  cp_T2 : T2 ⊆ T2';
  cp_all : F' ∪ T2' ⊆ F ∪ T2;
  cp_used : F ∪ T2 ⊆ F' ∪ T2' ∪ {[v]}
}.

Lemma copy_page s F T pgdir D T2 d k n :
  uspace s F T pgdir D -> uspace s F T2 d (pages 0 k) -> T ## T2 -> enough (S n) F T2 -> k ∈ D ->
  exists v s1 s2 s' F' T2', kalloc s = Ok v s1 /\ v <> 0 /\
    memmove v (uframe (fr_mem s) pgdir k) PGSIZE s1 = Ok tt s2 /\
    mappages d (4096 * k) PGSIZE (v2p v) (PTE_FLAGS (pte (fr_mem s) pgdir k)) s2 = Ok 0 s' /\
    copied s F T pgdir D T2 d k v s' F' T2' /\ enough n F' T2'.
Proof.
  intros Up Uc HT He HkD.
  pose proof (us_dom _ _ _ _ _ Up k HkD) as Hk. pose proof (us_as _ _ _ _ _ Uc) as Ac.
  destruct (kalloc_enough s F T2 d n Ac He) as (v & s1 & E1 & Hv & R1 & Em & He1 & Hs1).
  pose proof (fr_frames s F v (as_rep _ _ _ _ Ac) Hv) as Hf. pose proof (frame_bounds v Hf) as [Hvr Hvm].
  pose proof (as_disj _ _ _ _ Ac) as Dc. pose proof (as_disj _ _ _ _ (us_as _ _ _ _ _ Up)) as Dp.
  assert (HvT : v ∉ T) by (intros H; by apply (Dp v H)). assert (HvT2 : v ∉ T2) by (intros H; by apply (Dc v H)).
  destruct (uspace_agree s F T pgdir D s1 (F ∖ {[v]}) ∅ Up R1) as [Up1 _]; [set_solver +|by rewrite Em|set_solver +|].
  destruct (uspace_agree s F T2 d (pages 0 k) s1 (F ∖ {[v]}) ∅ Uc R1) as [Uc1 _]; [set_solver +|by rewrite Em|set_solver +|].
  set (w := uframe (fr_mem s) pgdir k). set (m2 := KString.memmove (fr_mem s1) v w PGSIZE).
  assert (Em2 : forall x, m2 x = if (v <=? x) && (x <? v + 4096) then fr_mem s1 (w + (x - v)) else fr_mem s1 x)
    by (intros x; unfold m2; by rewrite KString.memmove_mcopy).
  assert (Hout : forall x, x < v \/ v + 4096 <= x -> m2 x = fr_mem s1 x).
  { intros x Hx. rewrite Em2. destruct (Z.leb_spec v x), (Z.ltb_spec x (v + 4096)); cbn [andb]; done || lia. }
  assert (Hb2 : forall a, 0 <= m2 a < 256) by (apply memmove_bytes; intros x; apply (fr_bytes s1 _ _ R1)).
  destruct (uspace_fill s1 _ T pgdir D v m2 Up1 Hvm) as (Up2 & A2 & HpP); [set_solver +|done|done|done|].
  destruct (uspace_fill s1 _ T2 d _ v m2 Uc1 Hvm) as (Uc2 & _ & HpC); [set_solver +|done|done|done|].
  assert (Emm : fr_mem (fr_set m2 s1) = m2) by apply fr_mem_set. rewrite Em in HpP, HpC, A2.
  set (e := pte (fr_mem s) pgdir k). destruct (live_present _ _ _ _ _ _ Up HkD) as (_ & _ & Hh). fold e in Hh.
  assert (Hpm : 0 <= PTE_FLAGS e < 4096) by (rewrite PTE_FLAGS_eq; lia).
  destruct (uspace_map (fr_set m2 s1) (F ∖ {[v]}) T2 d (pages 0 k) k v (PTE_FLAGS e) Uc2) as (s3 & F' & T2' & E3 & U3 & G3 & Hp3);
    try done; [unfold enough in *; lia|rewrite elem_of_pages; lia|set_solver +| |].
  { intros i Hi. rewrite Emm. pose proof (proj1 (elem_of_pages _ _ _) Hi). unfold uframe. rewrite HpC by lia. intros Ev.
    destruct (us_frame _ _ _ _ _ Uc i Hi) as (_ & _ & HnF). unfold uframe in HnF. by rewrite Ev in HnF. }
  rewrite Emm in Hp3. pose proof G3 as [A3 HT3 Hall3 Hm3]. rewrite Emm in Hm3.
  destruct (grown_free _ _ _ _ _ _ _ G3) as [HF' HT2'].
  destruct (uspace_agree (fr_set m2 s1) (F ∖ {[v]}) T pgdir D s3 F' T2' Up2 (as_rep _ _ _ _ A3) HF') as [Up3 Hp3p];
    [by rewrite Emm|clear -HT2' HT Dp; set_solver|]. rewrite Emm in Hp3p.
  destruct (map_entry_parts v (PTE_FLAGS e) Hf Hpm) as (Ea & Ef & _). rewrite flags_present in Ef by done.
  assert (Epk : pte (fr_mem s3) d k = map_entry (v2p v) (PTE_FLAGS e)) by (rewrite Hp3, Z.eqb_refl by lia; done).
  assert (Euk : uframe (fr_mem s3) d k = v) by (unfold uframe; by rewrite Epk).
  assert (HvT3 : v ∉ T2').
  { destruct (us_frame _ _ _ _ _ U3 k) as (_ & H3 & _); [set_solver +|]. by rewrite Euk in H3. }
  exists v, s1, (fr_set m2 s1), s3, F', T2'. split_and!; try done; [lia| |].
  2:{ assert (Dc1 : T2 ## F ∖ {[v]}) by (clear -Dc; set_solver). pose proof (grown_size _ _ _ _ _ _ _ Dc1 G3). unfold enough in *. lia. }
  split; try done.
  - replace (pages 0 (k + 1)) with ({[k]} ∪ pages 0 k); [done|].
    apply set_eq. intros j. rewrite elem_of_union, elem_of_singleton, !elem_of_pages. lia.
  - by rewrite Epk.
  - intros o Ho. rewrite (Hm3 (v + o)) by (rewrite page_of_in by lia; done). rewrite Em2, Em. zdec. f_equal. unfold w. lia.
  - intros j Hj. rewrite Hp3p, HpP by done. done.
  - intros i Hi. rewrite Hp3, (proj2 (Z.eqb_neq i k)), HpC by lia. done.
  - apply (agree_off_trans _ _ m2); [apply (agree_off_weaken _ _ _ _ A2); set_solver +Hv|].
    apply (agree_off_weaken _ _ _ _ Hm3). clear -HT2'. set_solver.
  - rewrite Hall3. set_solver +.
  - rewrite Hall3. intros x Hx. destruct (decide (x = v)); [set_solver|]. set_solver +Hx n0.
Qed.

(** The child [d] has copies of the first [k] pages of the parent [pgdir]. *)
Record forked s F T pgdir D T2 d k : Prop := {
  fk_par : uspace s F T pgdir D;
  fk_chi : uspace s F T2 d (pages 0 k);
  fk_T : T ## T2;
  fk_dom : forall i, 0 <= i < k -> i ∈ D;
  fk_pT : forall j, j ∈ D -> uframe (fr_mem s) pgdir j ∉ T2;
  fk_cT : forall i, 0 <= i < k -> uframe (fr_mem s) d i ∉ T;
  fk_sep : forall j i, j ∈ D -> 0 <= i < k -> uframe (fr_mem s) pgdir j <> uframe (fr_mem s) d i;
  fk_copy : forall i, 0 <= i < k -> PTE_FLAGS (pte (fr_mem s) d i) = PTE_FLAGS (pte (fr_mem s) pgdir i) /\
    forall o, 0 <= o < 4096 -> fr_mem s (uframe (fr_mem s) d i + o) = fr_mem s (uframe (fr_mem s) pgdir i + o)
}.

Lemma forked_step s F T pgdir D T2 d k v s' F' T2' :
  forked s F T pgdir D T2 d k -> k ∈ D -> copied s F T pgdir D T2 d k v s' F' T2' ->
  forked s' F' T pgdir D T2' d (k + 1).
Proof.
  intros [Up Uc HT Hdom HpT HcT Hsep Hcopy] HkD [C1 C2 (HvF & HvT & Euk) C4 C5 C6 C7 C8 C9 C10 _].
  assert (HT2' : T2' ⊆ F ∪ T2) by (clear -C10; set_solver).
  pose proof (as_disj _ _ _ _ (us_as _ _ _ _ _ Up)) as Dp.
  assert (Eup : forall j, j ∈ D -> uframe (fr_mem s') pgdir j = uframe (fr_mem s) pgdir j).
  { intros j Hj. pose proof (us_dom _ _ _ _ _ Up j Hj). unfold uframe. by rewrite C6 by lia. }
  assert (Euc : forall i, 0 <= i < k -> uframe (fr_mem s') d i = uframe (fr_mem s) d i)
    by (intros i Hi; unfold uframe; by rewrite C7).
  assert (HnF : forall j, j ∈ D -> uframe (fr_mem s) pgdir j ∉ F ∪ T2).
  { intros j Hj. destruct (us_frame _ _ _ _ _ Up j Hj) as (_ & _ & HnF). specialize (HpT j Hj). clear -HnF HpT. set_solver. }
  assert (Hpb : forall j o, j ∈ D -> 0 <= o < 4096 ->
    fr_mem s' (uframe (fr_mem s) pgdir j + o) = fr_mem s (uframe (fr_mem s) pgdir j + o)).
  { intros j o Hj Ho. apply (frame_bytes s F T pgdir D j (F ∪ T2)); auto. }
  split; [done|done|clear -HT2' HT Dp; set_solver| | | | |].
  - intros i Hi. destruct (decide (i = k)) as [->|]; [done|apply Hdom; lia].
  - intros j Hj. rewrite Eup by done. intros Hin%HT2'. by apply (HnF j).
  - intros i Hi. destruct (decide (i = k)) as [->|]; [|rewrite Euc by lia; apply HcT; lia].
    rewrite Euk. intros HvT'. by apply (Dp v).
  - intros j i Hj Hi. rewrite Eup by done. destruct (decide (i = k)) as [->|]; [|rewrite Euc by lia; apply Hsep; [done|lia]].
    rewrite Euk. intros Ev. apply (HnF j Hj). rewrite Ev. clear -HvF. set_solver.
  - intros i Hi. destruct (decide (i = k)) as [->|Hne].
    + rewrite C4, Euk, Eup by done. rewrite C6 by (pose proof (us_dom _ _ _ _ _ Up k HkD); lia).
      split; [done|]. intros o Ho. rewrite C5, Hpb by done. done.
    + assert (HiD : i ∈ D) by (apply Hdom; lia). pose proof (us_dom _ _ _ _ _ Up i HiD).
      destruct (Hcopy i ltac:(lia)) as [Hfl Hby]. rewrite C7, C6, Euc, Eup by (done || lia). split; [done|]. intros o Ho.
      rewrite Hpb, <- Hby by done. apply (frame_bytes s F T2 d (pages 0 k) i (F ∪ T2)); try done.
      * apply elem_of_pages. lia.
      * destruct (us_frame _ _ _ _ _ Uc i) as (_ & H1 & H2); [apply elem_of_pages; lia|]. clear -H1 H2. set_solver.
Qed.

Lemma copyuvm_loop_ok pgdir sz : forall n s F T D T2 d k,
  forked s F T pgdir D T2 d k -> 0 <= k <= npages sz -> (forall i, 0 <= i < npages sz -> i ∈ D) -> 0 <= sz < KERNBASE ->
  enough (Z.to_nat (npages sz - k)) F T2 -> npages sz - k <= Z.of_nat n ->
  exists s' F' T2', copyuvm_loop n pgdir d (4096 * k) sz s = Ok true s' /\ forked s' F' T pgdir D T2' d (npages sz) /\
    agree_off (F ∪ T2) (fr_mem s) (fr_mem s') /\ F' ∪ T2' ⊆ F ∪ T2 /\
    (forall j, 0 <= j < 2 ^ 20 -> pte (fr_mem s') pgdir j = pte (fr_mem s) pgdir j) /\
    (forall i, 0 <= i < k -> pte (fr_mem s') d i = pte (fr_mem s) d i) /\
    (forall w, w ∈ F ∪ T2 -> w ∈ F' ∪ T2' \/ exists i, k <= i < npages sz /\ w = uframe (fr_mem s') d i) /\
    (forall i, k <= i < npages sz -> uframe (fr_mem s') d i ∈ F ∪ T2).
Proof.
  induction n as [|n IH]; intros s F T D T2 d k Fk Hk HD Hsz He Hn; cbn [copyuvm_loop].
  { assert (k = npages sz) as -> by lia. unfold npages, KERNBASE in *. zdec. exists s, F, T2. split_and!; try done; auto; intros; lia. }
  destruct (decide (k = npages sz)) as [->|Hne].
  { unfold npages, KERNBASE in *. zdec. exists s, F, T2. split_and!; try done; auto; intros; lia. }
  assert (Hlt : 4096 * k < sz) by (unfold npages in *; lia). rewrite (proj2 (Z.ltb_lt _ _)) by lia.
  pose proof (fk_par _ _ _ _ _ _ _ _ Fk) as Up. assert (HkD : k ∈ D) by (apply HD; lia).
  destruct (live_present _ _ _ _ _ _ Up HkD) as (Hp & Erd & Hh). pose proof (us_as _ _ _ _ _ Up) as Ap.
  pose proof (us_dom _ _ _ _ _ Up k HkD) as Hkr.
  pose proof (walk_present s F T pgdir (4096 * k) false Ap ltac:(lia)) as Hw.
  replace (4096 * k / 4096) with k in Hw by lia.
  destruct (slot_frame _ _ _ k (as_pt _ _ _ _ Ap) ltac:(lia) Hp) as (_ & _ & Hs & _).
  rewrite (bind_ok _ _ _ _ _ (Hw Hp)), (proj2 (Z.eqb_neq _ 0)) by lia. rewrite (bind_ok _ _ _ _ _ Erd), Hh. cbn [negb].
  destruct (copy_page s F T pgdir D T2 d k (Z.to_nat (npages sz - (k + 1)))) as (v & s1 & s2 & s3 & F3 & T3 & E1 & Hv & E2 & E3 & C & He3);
    try apply Fk; try done.
  { by replace (S (Z.to_nat (npages sz - (k + 1)))) with (Z.to_nat (npages sz - k)) by lia. }
  rewrite (bind_ok _ _ _ _ _ E1), (proj2 (Z.eqb_neq _ 0)) by done.
  change (p2v (PTE_ADDR (pte (fr_mem s) pgdir k))) with (uframe (fr_mem s) pgdir k).
  rewrite (bind_ok _ _ _ _ _ E2), (bind_ok _ _ _ _ _ E3). change (0 <? 0) with false. cbn iota.
  unfold PGSIZE. rewrite u32_small by lia. replace (4096 * k + 4096) with (4096 * (k + 1)) by lia.
  pose proof (forked_step _ _ _ _ _ _ _ _ _ _ _ _ Fk HkD C) as Fk3.
  destruct (IH s3 F3 T D T3 d (k + 1) Fk3) as (s4 & F4 & T4 & E4 & Fk4 & M4 & Hall4 & Hp4 & Hc4 & Hu4 & Hn4); try done; try lia.
  exists s4, F4, T4. split_and!; try done.
  - apply (agree_off_trans _ _ (fr_mem s3)); [apply C|]. apply (agree_off_weaken _ _ _ _ M4), C.
  - etransitivity; [done|apply C].
  - intros j Hj. rewrite Hp4, (cp_ptes _ _ _ _ _ _ _ _ _ _ _ _ C) by done. done.
  - intros i Hi. rewrite Hc4, (cp_child _ _ _ _ _ _ _ _ _ _ _ _ C) by lia. done.
  - intros x Hx. destruct (proj1 (elem_of_union _ _ _) (cp_used _ _ _ _ _ _ _ _ _ _ _ _ C x Hx)) as [Hx3|Hx3].
    + destruct (Hu4 x Hx3) as [|(i & Hi & Ei)]; [by left|right]. exists i. split; [lia|done].
    + right. exists k. split; [lia|]. apply elem_of_singleton in Hx3. rewrite Hx3.
      destruct (cp_new _ _ _ _ _ _ _ _ _ _ _ _ C) as (_ & _ & <-). unfold uframe. by rewrite Hc4 by lia.
  - intros i Hi. destruct (cp_new _ _ _ _ _ _ _ _ _ _ _ _ C) as (HvF & _ & Ev). destruct (decide (i = k)) as [->|].
    + replace (uframe (fr_mem s4) d k) with (uframe (fr_mem s3) d k) by (unfold uframe; by rewrite Hc4 by lia).
      rewrite Ev. set_solver +HvF.
    + pose proof (cp_all _ _ _ _ _ _ _ _ _ _ _ _ C) as Ha. by apply Ha, Hn4; lia.
Qed.

Lemma pages0 k : k <= 0 -> pages 0 k = ∅.
Proof. apply pages_nil. Qed.

(** [fork]'s copy: with frames for the tables and the pages, the child gets the
    parent's pages, bytes and permissions, in frames of its own. *)
Lemma copyuvm_ok data s F T pgdir D sz :
  data_ok data -> uspace s F T pgdir D -> 0 <= sz < KERNBASE -> (forall i, 0 <= i < npages sz -> i ∈ D) ->
  (1025 + Z.to_nat (npages sz) <= base.size F)%nat ->
  exists d s' F' T2, copyuvm data pgdir sz s = Ok d s' /\ d <> 0 /\ forked s' F' T pgdir D T2 d (npages sz) /\
    F' ∪ T2 ⊆ F /\ agree_off F (fr_mem s) (fr_mem s') /\
    (forall j, 0 <= j < 2 ^ 20 -> pte (fr_mem s') pgdir j = pte (fr_mem s) pgdir j) /\
    (forall w, w ∈ F -> w ∈ F' ∪ T2 \/ exists i, 0 <= i < npages sz /\ w = uframe (fr_mem s') d i) /\
    (forall i, 0 <= i < npages sz -> uframe (fr_mem s') d i ∈ F).
Proof.
  intros Hdata U Hsz HD He. pose proof (us_as _ _ _ _ _ U) as A.
  destruct (setupkvm_ok data s F Hdata (as_rep _ _ _ _ A) ltac:(lia)) as (d & s1 & F1 & T1 & E1 & A1 & Hall & M1 & Hk1).
  pose proof (as_disj _ _ _ _ A) as Dp. pose proof (as_disj _ _ _ _ A1) as D1.
  assert (HF1 : F1 ⊆ F) by (rewrite <- Hall; set_solver +). assert (HT1 : T1 ⊆ F) by (rewrite <- Hall; set_solver +).
  destruct (uspace_agree s F T pgdir D s1 F1 T1 U (as_rep _ _ _ _ A1) HF1 M1) as [U1 Hp1]; [clear -HT1 Dp; set_solver|].
  assert (Hsize : (base.size F1 + base.size T1 = base.size F)%nat) by (rewrite <- Hall, size_union; [done|by symmetry]).
  pose proof (frame_bounds _ (pt_frames _ _ _ (as_pt _ _ _ _ A1) _ (pt_dir _ _ _ (as_pt _ _ _ _ A1)))) as [Hdr _].
  assert (Fk : forked s1 F1 T pgdir D T1 d 0).
  { split; try done; try (intros; lia).
    - rewrite pages0 by lia. split; try set_solver +; [done|].
      intros k Hk. rewrite Hk1 by lia. unfold kernel_pte. zdec. split; [done|set_solver +].
    - clear -HT1 Dp. set_solver.
    - intros j Hj. pose proof (us_dom _ _ _ _ _ U j Hj). unfold uframe. rewrite Hp1 by lia.
      destruct (us_frame _ _ _ _ _ U j Hj) as (_ & _ & HnF). unfold uframe in HnF. clear -HnF HT1. set_solver. }
  destruct (copyuvm_loop_ok pgdir sz (Z.to_nat sz) s1 F1 T D T1 d 0 Fk) as (s2 & F2 & T2 & E2 & Fk2 & M2 & Hall2 & Hp2 & _ & Hu2 & Hn2);
    try done; try (unfold npages, KERNBASE in *; lia).
  { unfold enough. rewrite Z.sub_0_r. lia. }
  exists d, s2, F2, T2. split; [|split; [lia|split; [exact Fk2|split; [|split; [|split; [|split]]]]]].
  - unfold copyuvm. rewrite (bind_ok _ _ _ _ _ E1), (proj2 (Z.eqb_neq _ 0)) by lia. change (4096 * 0) with 0 in E2.
    rewrite (bind_ok _ _ _ _ _ E2). done.
  - rewrite <- Hall. done.
  - apply (agree_off_trans _ _ (fr_mem s1)); [by apply (agree_off_weaken _ _ _ _ M1)|].
    apply (agree_off_weaken _ _ _ _ M2). by rewrite Hall.
  - intros j Hj. rewrite Hp2, Hp1 by done. done.
  - intros w Hw. apply Hu2. by rewrite Hall.
  - intros i Hi. rewrite <- Hall. by apply Hn2.
Qed.

(** ** Copying out *)

(** A page the user may touch. *)
Definition user_page s pgdir D k : Prop := k ∈ D /\ has (pte (fr_mem s) pgdir k) PTE_U = true.

Lemma uva2ka_ok s F T pgdir D k :
  uspace s F T pgdir D -> user_page s pgdir D k ->
  uva2ka pgdir (4096 * k) s = Ok (uframe (fr_mem s) pgdir k) s.
Proof.
  intros U [HkD Hu]. pose proof (us_as _ _ _ _ _ U) as A. pose proof (us_dom _ _ _ _ _ U k HkD).
  destruct (live_present _ _ _ _ _ _ U HkD) as (Hp & Erd & Hh).
  pose proof (walk_present s F T pgdir (4096 * k) false A ltac:(lia)) as Hw.
  replace (4096 * k / 4096) with k in Hw by lia.
  destruct (slot_frame _ _ _ k (as_pt _ _ _ _ A) ltac:(lia) Hp) as (_ & _ & Hs & _).
  unfold uva2ka. rewrite (bind_ok _ _ _ _ _ (Hw Hp)), (proj2 (Z.eqb_neq _ 0)) by lia.
  by rewrite (bind_ok _ _ _ _ _ Erd), Hh, Hu.
Qed.

(** [len] bytes from [buf] arrived at the user address [va]; nothing else
    changed, as seen through the page table. *)
Record arrived s F T pgdir D (va buf len : Z) s' : Prop := {
  ar_us : uspace s' F T pgdir D;
  ar_ptes : forall j, 0 <= j < 2 ^ 20 -> pte (fr_mem s') pgdir j = pte (fr_mem s) pgdir j;
  ar_bytes : forall x, 0 <= x < 2 ^ 31 -> x / 4096 ∈ D ->
    ubyte (fr_mem s') pgdir x = if (va <=? x) && (x <? va + len) then fr_mem s (buf + (x - va)) else ubyte (fr_mem s) pgdir x;
  ar_mem : forall a, (forall k, k ∈ D -> page_of a <> uframe (fr_mem s) pgdir k) -> fr_mem s' a = fr_mem s a
}.

(** One round: [n] bytes into one page. *)
Lemma copyout_page s F T pgdir D va buf n :
  uspace s F T pgdir D -> va / 4096 ∈ D -> 0 <= n -> va mod 4096 + n <= 4096 ->
  exists s', memmove (uframe (fr_mem s) pgdir (va / 4096) + va mod 4096) buf n s = Ok tt s' /\
    arrived s F T pgdir D va buf n s'.
Proof.
  intros U HkD Hn Hfit. set (k := va / 4096) in *. pose proof (us_dom _ _ _ _ _ U k HkD) as Hk.
  destruct (us_frame _ _ _ _ _ U k HkD) as (Hf & HvT & HvF). pose proof (frame_bounds _ Hf) as [Hvr Hvm].
  set (v := uframe (fr_mem s) pgdir k) in *. set (m' := KString.memmove (fr_mem s) (v + va mod 4096) buf n).
  assert (Em : forall x, m' x = if (v + va mod 4096 <=? x) && (x <? v + va mod 4096 + n)
                                then fr_mem s (buf + (x - (v + va mod 4096))) else fr_mem s x).
  { intros x. unfold m'. rewrite KString.memmove_mcopy. unfold mcopy. by rewrite u32_small by lia. }
  destruct (uspace_fill s F T pgdir D v m' U Hvm HvF HvT) as (U' & A' & Hpte).
  { intros x Hx. rewrite Em. destruct (Z.leb_spec (v + va mod 4096) x), (Z.ltb_spec x (v + va mod 4096 + n)); cbn [andb]; done || lia. }
  { apply memmove_bytes. intros x. apply (fr_bytes s F _ (as_rep _ _ _ _ (us_as _ _ _ _ _ U))). }
  exists (fr_set m' s). split; [done|]. assert (Emm : fr_mem (fr_set m' s) = m') by apply fr_mem_set.
  split; rewrite ?Emm; try done.
  - intros x Hx HxD. unfold ubyte. assert (Eu : uframe m' pgdir (x / 4096) = uframe (fr_mem s) pgdir (x / 4096))
      by (unfold uframe; by rewrite Hpte by lia).
    rewrite Eu, Em. destruct (decide (x / 4096 = k)) as [Ek|Ek].
    + rewrite Ek. fold v. destruct (decide (va <= x < va + n)); [zdec; f_equal; lia|].
      assert (x < va \/ va + n <= x) as [?|?] by lia; zdec; try done.
    + destruct (us_frame _ _ _ _ _ U _ HxD) as (Hfx & _). pose proof (frame_bounds _ Hfx) as [_ Hxm].
      assert (Hne : uframe (fr_mem s) pgdir (x / 4096) <> v) by (intros E; apply Ek; by apply (us_inj _ _ _ _ _ U)).
      assert (Hout : uframe (fr_mem s) pgdir (x / 4096) + x mod 4096 < v \/ v + 4096 <= uframe (fr_mem s) pgdir (x / 4096) + x mod 4096) by lia.
      assert (x < va \/ va + n <= x) as Hx' by lia.
      rewrite !(proj2 (andb_false_iff _ _)); [done| |]; rewrite Z.leb_gt, Z.ltb_ge; lia.
  - intros a Ha. apply A'. rewrite elem_of_singleton. by apply Ha.
Qed.

(** The source is not in the address space written to. *)
Definition outside s pgdir D (buf len : Z) : Prop :=
  forall i k, 0 <= i < len -> k ∈ D -> page_of (buf + i) <> uframe (fr_mem s) pgdir k.

Lemma arrived_uframe s F T pgdir D va buf len s' k :
  uspace s F T pgdir D -> arrived s F T pgdir D va buf len s' -> k ∈ D ->
  uframe (fr_mem s') pgdir k = uframe (fr_mem s) pgdir k.
Proof. intros U A Hk. pose proof (us_dom _ _ _ _ _ U k Hk). unfold uframe. by rewrite (ar_ptes _ _ _ _ _ _ _ _ _ A) by lia. Qed.

Lemma arrived_app s F T pgdir D va buf n len s1 s2 :
  uspace s F T pgdir D -> 0 <= n <= len -> outside s pgdir D buf len ->
  arrived s F T pgdir D va buf n s1 -> arrived s1 F T pgdir D (va + n) (buf + n) (len - n) s2 ->
  arrived s F T pgdir D va buf len s2.
Proof.
  intros U Hn Hout A1 A2. pose proof (fun k => arrived_uframe _ _ _ _ _ _ _ _ _ k U A1) as Hu.
  pose proof A1 as [B1 B2 B3 B4]. pose proof A2 as [C1 C2 C3 C4]. split; [done| | |].
  - intros j Hj. by rewrite C2, B2.
  - intros x Hx HxD. rewrite C3, B3 by done. destruct (decide (va + n <= x < va + len)) as [Hin|Hnin].
    + zdec. rewrite B4.
      * f_equal. lia.
      * intros k Hk. replace (buf + n + (x - (va + n))) with (buf + (x - va)) by lia. apply Hout; [lia|done].
    + rewrite (proj2 (andb_false_iff (va + n <=? x) _)) by (rewrite Z.leb_gt, Z.ltb_ge; lia).
      destruct (decide (va <= x < va + n)); [by zdec|].
      rewrite !(proj2 (andb_false_iff _ _)); [done| |]; rewrite Z.leb_gt, Z.ltb_ge; lia.
  - intros a Ha. rewrite C4, B4; [done|done|]. intros k Hk. rewrite Hu by done. by apply Ha.
Qed.

Lemma copyout_loop_ok pgdir D : forall n s F T va buf len,
  uspace s F T pgdir D -> 0 <= va -> 0 <= len <= Z.of_nat n -> va + len <= KERNBASE ->
  0 <= buf -> buf + len < 2 ^ 32 -> outside s pgdir D buf len ->
  (forall k, va / 4096 <= k -> 4096 * k < va + len -> user_page s pgdir D k) ->
  exists s', copyout_loop n pgdir va buf len s = Ok 0 s' /\ arrived s F T pgdir D va buf len s'.
Proof.
  induction n as [|n IH]; intros s F T va buf len U Hva Hlen Hmax Hb Hbl Hout Hpg; cbn [copyout_loop];
    rewrite Z.gtb_ltb; unfold KERNBASE in Hmax.
  all: assert (H0 : arrived s F T pgdir D va buf 0 s)
    by (split; try done; intros x Hx _; by rewrite (proj2 (andb_false_iff _ _)) by (rewrite Z.leb_gt, Z.ltb_ge; lia)).
  { assert (len = 0) as -> by lia. by exists s. }
  destruct (decide (len = 0)) as [->|Hne]; [by exists s|]. rewrite (proj2 (Z.ltb_lt 0 len)) by lia.
  set (k := va / 4096). assert (Eva : PGROUNDDOWN va = 4096 * k) by (rewrite PGROUNDDOWN_eq; lia). rewrite Eva.
  assert (Hk : user_page s pgdir D k) by (apply Hpg; lia). pose proof Hk as [HkD _].
  destruct (us_frame _ _ _ _ _ U k HkD) as (Hf & _). pose proof (frame_bounds _ Hf) as [Hvr Hvm].
  rewrite (bind_ok _ _ _ _ _ (uva2ka_ok s F T pgdir D k U Hk)), (proj2 (Z.eqb_neq _ 0)) by lia.
  replace (va - 4096 * k) with (va mod 4096) by lia. unfold PGSIZE. rewrite Z.gtb_ltb.
  set (m := if len <? 4096 - va mod 4096 then len else 4096 - va mod 4096).
  assert (Hm : 1 <= m <= len /\ va mod 4096 + m <= 4096 /\ (m = len \/ va + m = 4096 * k + 4096)).
  { unfold m. destruct (Z.ltb_spec len (4096 - va mod 4096)); lia. }
  rewrite (u32_small (uframe (fr_mem s) pgdir k + va mod 4096)) by lia.
  destruct (copyout_page s F T pgdir D va buf m U HkD) as (s1 & E1 & A1); try lia.
  fold k in E1. rewrite (bind_ok _ _ _ _ _ E1). rewrite !u32_small by lia.
  destruct Hm as (Hm1 & Hm2 & [Hm3|Hm3]).
  - rewrite Hm3, Z.sub_diag. exists s1. split; [by destruct n|]. by rewrite <- Hm3.
  - rewrite <- Hm3. assert (Hu1 : forall k, k ∈ D -> uframe (fr_mem s1) pgdir k = uframe (fr_mem s) pgdir k)
      by (intros k' Hk'; by apply (arrived_uframe s F T pgdir D va buf m)).
    destruct (IH s1 F T (va + m) (buf + m) (len - m)) as (s2 & E2 & A2); try lia.
    + apply A1.
    + unfold KERNBASE. lia.
    + intros i k' Hi Hk'. rewrite Hu1 by done. replace (buf + m + i) with (buf + (m + i)) by lia. apply Hout; [lia|done].
    + intros k' H1 H2. destruct (Hpg k' ltac:(lia) ltac:(lia)) as [HD HU]. split; [done|].
      rewrite (ar_ptes _ _ _ _ _ _ _ _ _ A1); [done|]. pose proof (us_dom _ _ _ _ _ U k' HD). lia.
    + exists s2. split; [done|]. by apply (arrived_app s F T pgdir D va buf m len s1 s2); try lia.
Qed.

End copy.
