(* ===== verification/VmClaims.v ===== *)
(** * What the virtual memory code promises

    The theorems about vm.c, for any frame allocator that keeps the
    [FramesOk] contract, with instances on kalloc.c's allocator after
    [kinit1]. *)

From stdpp Require Import base numbers list gmap sets strings.
From Stdlib Require Import ZArith Lia.
From S2P Require Import Prelude CStrings Frames Kalloc Vm VmSpec VmUser VmCopy.

Open Scope Z_scope.

(** ** A machine with free memory *)

Definition demo_data : Z := KERNLINK + 0x10000.

Lemma demo_data_ok : data_ok demo_data.
Proof. unfold data_ok, demo_data, KERNLINK, KERNBASE, EXTMEM, PHYSTOP. split; [reflexivity|lia]. Qed.

(** After [kinit1] on a range of [n] pages, those are the free frames. *)
Lemma demo_memory n : 0 <= n <= 0xBE00 ->
  exists k F, fr_rep k F /\ base.size F = Z.to_nat n.
Proof.
  intros Hn. set (k0 := MkKmem (fun _ => 0) false 0).
  assert (K0 : kmem_ok demo_end k0 []) by (split; cbn; [done|constructor|constructor|lia]).
  assert (E : demo_end = 4096 * 0x80200) by reflexivity.
  destruct (freerange_ok demo_end demo_end_ok k0 [] demo_end (demo_end + 4096 * n) K0) as (k & l & _ & K1 & _ & Hl);
    try (unfold demo_end, KERNBASE, PHYSTOP; lia).
  { intros v Hv. by apply elem_of_nil in Hv. }
  exists k, (list_to_set l). split; [by exists l|]. rewrite size_list_to_set by apply K1.
  set (ps := (fun i => demo_end + 4096 * i) <$> seqZ 0 n).
  replace (length l) with (length ps); [unfold ps; rewrite length_fmap, length_seqZ; done|].
  apply Permutation_length, NoDup_Permutation; [|apply K1|].
  - apply NoDup_fmap_2; [intros x y; lia|apply NoDup_seqZ].
  - intros v. rewrite Hl. unfold ps, whole_page, PGSIZE. rewrite list_elem_of_fmap. setoid_rewrite elem_of_seqZ. split.
    + intros (i & -> & Hi). right. rewrite E. lia.
    + intros [Hv%elem_of_nil|Hv]; [done|]. exists ((v - demo_end) / 4096). rewrite E in *. lia.
Qed.

(** ** The kernel half *)

(** [setupkvm] builds the page table that [kmap] describes.  With a frame for
    every table it could need, it returns a page directory in which every page
    of the address space has the entry [kmap] gives it: physical memory at
    [KERNBASE], the kernel's text read-only, the devices mapped one to one, no
    user page at all; it writes nothing but frames that were free, and those it
    does not use stay free. *)
Theorem setupkvm_maps_kernel {K} `{!Frames K, !FramesOk K} data (s : K) (F : gset Z) :
  data_ok data -> fr_rep s F -> (1025 <= base.size F)%nat ->
  exists pgdir s' F' T, setupkvm data s = Ok pgdir s' /\ aspace s' F' T pgdir /\ F' ∪ T = F /\
    agree_off T (fr_mem s) (fr_mem s') /\
    forall va, 0 <= va < 2 ^ 32 -> pte (fr_mem s') pgdir (va / PGSIZE) = kernel_pte data (va / PGSIZE).
Proof.
  intros Hd R Hs. destruct (setupkvm_ok data s F Hd R Hs) as (pgdir & s' & F' & T & E & A & H1 & H2 & H3).
  exists pgdir, s', F', T. split; [exact E|]. split_and!; try done. intros va Hva. apply H3. unfold PGSIZE. lia.
Qed.

Lemma setupkvm_maps_kernel_witness :
  exists (k : kmem) F pgdir k' F' T, fr_rep k F /\ setupkvm demo_data k = Ok pgdir k' /\ aspace k' F' T pgdir /\
    pte (fr_mem k') pgdir 0x80000 = 3.
Proof.
  destruct (demo_memory 1025 ltac:(lia)) as (k & F & R & Hs).
  destruct (setupkvm_maps_kernel demo_data k F demo_data_ok R ltac:(rewrite Hs; lia))
    as (pgdir & k' & F' & T & E & A & _ & _ & Hp).
  exists k, F, pgdir, k', F', T. split; [exact R|]. split; [exact E|]. split; [exact A|].
  specialize (Hp KERNBASE ltac:(unfold KERNBASE; lia)). exact Hp.
Defined.

(** ** User memory *)

(** [allocuvm] grows an address space: every new page is mapped, present,
    writable and open to the user, to a frame of its own that was free, and
    reads as zero; every old page keeps its entry, and no frame in use is
    written. *)
Theorem allocuvm_grows_zeroed {K} `{!Frames K, !FramesOk K} (s : K) (F T : gset Z) pgdir oldsz newsz :
  uspace s F T pgdir (pages 0 (npages oldsz)) -> 0 <= oldsz <= newsz -> newsz < KERNBASE ->
  enough (Z.to_nat (npages newsz - npages oldsz)) F T ->
  exists s' F' T', allocuvm pgdir oldsz newsz s = Ok newsz s' /\
    uspace s' F' T' pgdir (pages 0 (npages newsz)) /\
    (forall k, npages oldsz <= k < npages newsz ->
      PTE_FLAGS (pte (fr_mem s') pgdir k) = Z.lor (Z.lor PTE_W PTE_U) PTE_P /\ uframe (fr_mem s') pgdir k ∈ F) /\
    (forall va, 4096 * npages oldsz <= va < 4096 * npages newsz -> ubyte (fr_mem s') pgdir va = 0) /\
    (forall k, 0 <= k < npages oldsz -> pte (fr_mem s') pgdir k = pte (fr_mem s) pgdir k) /\
    (forall va, 0 <= va < 4096 * npages oldsz -> ubyte (fr_mem s') pgdir va = ubyte (fr_mem s) pgdir va).
Proof.
  intros U Ho Hn He. destruct (allocuvm_ok s F T pgdir oldsz newsz U Ho Hn He) as (s' & F' & T' & E & [A1 _ _ _ _ A2 A3 A4]).
  unfold KERNBASE in Hn. exists s', F', T'. split; [exact E|]. split_and!.
  - replace (pages 0 (npages newsz)) with (pages 0 (npages oldsz) ∪ pages (npages oldsz) (npages newsz)); [done|].
    apply set_eq. intros j. rewrite elem_of_union, !elem_of_pages. unfold npages. lia.
  - intros k Hk. destruct (A3 k Hk) as (H1 & H2 & _). done.
  - intros va Hva. destruct (A3 (va / 4096) ltac:(lia)) as (_ & _ & H3). unfold ubyte. apply H3. lia.
  - intros k Hk. apply A2; unfold npages in *; lia.
  - intros va Hva. assert (HkD : va / 4096 ∈ pages 0 (npages oldsz)) by (apply elem_of_pages; lia).
    unfold ubyte, uframe. rewrite A2 by (unfold npages in *; lia).
    apply (frame_bytes s F T pgdir _ (va / 4096) (F ∪ T) (fr_mem s') (va mod 4096) U HkD); [|done|lia].
    destruct (us_frame _ _ _ _ _ U _ HkD) as (_ & H1 & H2). clear -H1 H2. set_solver.
Qed.

(** A new page directory holds an empty address space. *)
Lemma kernel_uspace {K} `{!Frames K, !FramesOk K} data (s : K) F T pgdir :
  aspace s F T pgdir -> (forall j, 0 <= j < 2 ^ 20 -> pte (fr_mem s) pgdir j = kernel_pte data j) ->
  uspace s F T pgdir (pages 0 (npages 0)).
Proof.
  intros A Hp. change (npages 0) with 0. rewrite pages0 by lia. split; try set_solver +; [done|].
  intros k Hk. rewrite Hp by lia. unfold kernel_pte. zdec. split; [done|set_solver +].
Qed.

Lemma demo_uspace n : 1025 <= n <= 0xBE00 ->
  exists (k : kmem) F T pgdir, uspace k F T pgdir (pages 0 (npages 0)) /\ (base.size F + base.size T = Z.to_nat n)%nat.
Proof.
  intros Hn. destruct (demo_memory n ltac:(lia)) as (k & F & R & Hs).
  destruct (setupkvm_ok demo_data k F demo_data_ok R ltac:(rewrite Hs; lia)) as (pgdir & k' & F' & T & _ & A & Hall & _ & Hp).
  exists k', F', T, pgdir. split; [by apply (kernel_uspace demo_data)|].
  rewrite <- Hs, <- Hall, size_union; [done|]. symmetry. apply A.
Qed.

Lemma allocuvm_grows_zeroed_witness :
  exists (k : kmem) F T pgdir k' F' T', uspace k F T pgdir (pages 0 (npages 0)) /\
    allocuvm pgdir 0 10000 k = Ok 10000 k' /\ uspace k' F' T' pgdir (pages 0 3).
Proof.
  destruct (demo_uspace 2000 ltac:(lia)) as (k & F & T & pgdir & U & Hs).
  destruct (allocuvm_grows_zeroed k F T pgdir 0 10000 U) as (k' & F' & T' & E & U' & _).
  - lia.
  - unfold KERNBASE. lia.
  - unfold enough. rewrite Hs. vm_compute. lia.
  - exists k, F, T, pgdir, k', F', T'. split; [exact U|]. split; [exact E|exact U'].
Defined.

(** The last frame goes to a page that cannot be mapped. *)
Lemma allocuvm_unmapped {K} `{!Frames K, !FramesOk K} (s : K) (T : gset Z) pgdir v :
  aspace s {[v]} T pgdir -> present (fr_mem s) pgdir 0 = false ->
  exists s', allocuvm pgdir 0 PGSIZE s = Ok PGSIZE s' /\ fr_rep s' ∅ /\ agree_off {[v]} (fr_mem s) (fr_mem s') /\ v ∉ T.
Proof.
  intros A Hp. pose proof A as [R P D].
  destruct (fr_kalloc s _ R) as [[He _]|(w & s1 & E1 & Hw%elem_of_singleton & R1 & Em)].
  { exfalso. assert (v ∈ (∅ : gset Z)) as H by (rewrite <- He; by apply elem_of_singleton). clear -H. set_solver. }
  subst w. assert (Hf : frame kend v) by (apply (fr_frames s _ v R); by apply elem_of_singleton).
  pose proof (frame_bounds v Hf) as [Hvr Hvm]. assert (HvT : v ∉ T) by (intros H; apply (D v H); by apply elem_of_singleton).
  rewrite difference_diag_L in R1.
  destruct (empty_dir s1 ∅ v R1 Hf ltac:(set_solver +)) as (s2 & E2 & [R2 _ _] & M2 & _). rewrite Em in M2.
  destruct (ptok_agree {[v]} _ _ _ _ P M2) as (P2 & Hpde & Hpte); [clear -HvT; set_solver|].
  assert (Hp2 : present (fr_mem s2) pgdir 0 = false) by (unfold present in *; by rewrite Hpde by lia).
  assert (A2 : aspace s2 ∅ T pgdir) by (split; [done|done|set_solver +]).
  pose proof (walk_full s2 T pgdir 0 A2 ltac:(lia) Hp2) as Ew.
  assert (Em2 : mappages pgdir 0 PGSIZE (v2p v) (Z.lor PTE_W PTE_U) s2 = Ok (-1) s2).
  { unfold mappages. rewrite mappages_loop_S. change (PGROUNDDOWN 0) with 0. by rewrite (bind_ok _ _ _ _ _ Ew). }
  exists s2. split_and!; try done.
  unfold allocuvm. change (PGSIZE >=? KERNBASE) with false. change (PGSIZE <? 0) with false. cbn iota.
  change (PGROUNDUP 0) with 0. destruct (Z.to_nat PGSIZE) as [|n] eqn:En; [unfold PGSIZE in En; lia|].
  cbn [allocuvm_loop]. change (0 <? PGSIZE) with true. cbn iota.
  rewrite (bind_ok _ _ _ _ _ E1), (proj2 (Z.eqb_neq v 0)) by lia.
  rewrite (bind_ok _ _ _ _ _ E2), (bind_ok _ _ _ _ _ Em2). by destruct n.
Qed.



(** An empty page directory, and one frame left. *)
Lemma demo_last_frame :
  exists (k : kmem) T pgdir v, uspace k {[v]} T pgdir (pages 0 (npages 0)) /\ present (fr_mem k) pgdir 0 = false.
Proof.
  destruct (demo_memory 2 ltac:(lia)) as (k & F & R & Hs).
  destruct (fr_kalloc k F R) as [[He _]|(d & k1 & _ & Hd & R1 & _)];
    [exfalso; rewrite He, size_empty in Hs; discriminate|].
  assert (H1 : base.size (F ∖ {[d]}) = 1%nat).
  { rewrite size_difference, size_singleton, Hs; [reflexivity|clear -Hd; set_solver]. }
  destruct (size_1_elem_of _ H1) as [v Hv]. assert (HF : F ∖ {[d]} = {[v]}) by (apply leibniz_equiv; exact Hv).
  destruct (empty_dir k1 (F ∖ {[d]}) d R1 (fr_frames k F d R Hd) ltac:(set_solver +)) as (k2 & _ & A2 & _ & Hp & Hz).
  rewrite HF in A2. exists k2, {[d]}, d, v. split.
  - change (npages 0) with 0. rewrite pages0 by lia. split; try set_solver +; [done|].
    intros j Hj. rewrite Hp by lia. split; [done|set_solver +].
  - unfold present, pde, load32. rewrite <- !Z.add_assoc, !Hz by lia. reflexivity.
Qed.


(** C10: [copyuvm] gives fork's child a copy of its own.  The child's page table
    shows the same bytes with the same permissions at every address below
    [sz]; no frame is shared between the two; the parent's page table and
    bytes are untouched. *)
Theorem copyuvm_isolates {K} `{!Frames K, !FramesOk K} data (s : K) (F T : gset Z) pgdir sz :
  data_ok data -> uspace s F T pgdir (pages 0 (npages sz)) -> 0 <= sz < KERNBASE ->
  (1025 + Z.to_nat (npages sz) <= base.size F)%nat ->
  exists d s' F' T2, copyuvm data pgdir sz s = Ok d s' /\
    uspace s' F' T pgdir (pages 0 (npages sz)) /\ uspace s' F' T2 d (pages 0 (npages sz)) /\ T ## T2 /\
    (forall va, 0 <= va < sz -> ubyte (fr_mem s') d va = ubyte (fr_mem s) pgdir va /\
      PTE_FLAGS (pte (fr_mem s') d (va / PGSIZE)) = PTE_FLAGS (pte (fr_mem s) pgdir (va / PGSIZE))) /\
    (forall va va', 0 <= va < sz -> 0 <= va' < sz ->
      uframe (fr_mem s') pgdir (va / PGSIZE) <> uframe (fr_mem s') d (va' / PGSIZE)) /\
    (forall k, 0 <= k < 2 ^ 20 -> pte (fr_mem s') pgdir k = pte (fr_mem s) pgdir k) /\
    (forall va, 0 <= va < sz -> ubyte (fr_mem s') pgdir va = ubyte (fr_mem s) pgdir va).
Proof.
  intros Hd U Hsz Hs. unfold PGSIZE.
  assert (HD : forall va, 0 <= va < sz -> va / 4096 ∈ pages 0 (npages sz))
    by (intros va Hva; apply elem_of_pages; unfold npages; lia).
  destruct (copyuvm_ok data s F T pgdir (pages 0 (npages sz)) sz Hd U Hsz) as (d & s' & F' & T2 & E & _ & Fk & _ & M & Hp & _).
  { intros i Hi. by apply elem_of_pages. } { done. }
  assert (Hb : forall va, 0 <= va < sz -> ubyte (fr_mem s') pgdir va = ubyte (fr_mem s) pgdir va).
  { intros va Hva. specialize (HD va Hva). unfold ubyte, uframe. rewrite Hp by (unfold KERNBASE in Hsz; lia).
    apply (frame_bytes s F T pgdir _ (va / 4096) F (fr_mem s') (va mod 4096) U HD); [|done|lia].
    apply (us_frame _ _ _ _ _ U _ HD). }
  destruct Fk as [F1 F2 F3 F4 F5 F6 F7 F8].
  exists d, s', F', T2. split; [exact E|]. clear E. split_and!; try done.
  - intros va Hva. pose proof (HD va Hva) as Hk%elem_of_pages. destruct (F8 _ Hk) as [Hfl Hby]. split.
    + rewrite <- Hb by done. unfold ubyte. apply Hby. lia.
    + rewrite Hfl, Hp; [done|]. unfold KERNBASE in Hsz. lia.
  - intros va va' Hva Hva'. apply F7; [by apply HD|]. apply elem_of_pages, HD. done.
Qed.

Lemma copyuvm_isolates_witness :
  exists (k : kmem) F T pgdir d k' F' T2, uspace k F T pgdir (pages 0 (npages 10000)) /\
    copyuvm demo_data pgdir 10000 k = Ok d k' /\ uspace k' F' T2 d (pages 0 (npages 10000)).
Proof.
  destruct (demo_uspace 3100 ltac:(lia)) as (k0 & F0 & T0 & pgdir & U0 & Hs0).
  destruct (allocuvm_ok k0 F0 T0 pgdir 0 10000 U0) as (k & F & T & _ & [A _ _ _ Hz _ _ _]);
    [lia|unfold KERNBASE; lia|unfold enough; rewrite Hs0; vm_compute; lia|].
  assert (U : uspace k F T pgdir (pages 0 (npages 10000))).
  { change (npages 0) with 0 in A. rewrite (pages0 0), union_empty_l_L in A by lia. exact A. }
  destruct (copyuvm_isolates demo_data k F T pgdir 10000) as (d & k' & F' & T2 & E & _ & U2 & _).
  - exact demo_data_ok.
  - exact U.
  - unfold KERNBASE. lia.
  - change (npages 10000) with 3 in *. change (npages 0) with 0 in Hz.
    pose proof (tables_max k F T pgdir (us_as _ _ _ _ _ U)). lia.
  - exists k, F, T, pgdir, d, k', F', T2. split; [exact U|]. split; [exact E|exact U2].
Defined.

(** [copyout] writes [len] bytes to the user address [va] and nothing else:
    seen through the page table, the bytes from [va] on are those of the
    kernel buffer, every other byte of the address space is what it was, and
    no memory outside the address space changes. *)
Theorem copyout_writes_user_bytes {K} `{!Frames K, !FramesOk K} (s : K) (F T D : gset Z) pgdir va p len :
  uspace s F T pgdir D -> 0 <= va -> 0 <= len -> va + len <= KERNBASE -> 0 <= p -> p + len < 2 ^ 32 ->
  outside s pgdir D p len ->
  (forall k, va / 4096 <= k -> 4096 * k < va + len -> user_page s pgdir D k) ->
  exists s', copyout pgdir va p len s = Ok 0 s' /\ arrived s F T pgdir D va p len s'.
Proof. intros. unfold copyout. apply copyout_loop_ok; try done. lia. Qed.

Lemma copyout_writes_user_bytes_witness :
  exists (k : kmem) F T pgdir k', uspace k F T pgdir (pages 0 (npages 10000)) /\
    copyout pgdir 4090 KERNLINK 100 k = Ok 0 k' /\
    ubyte (fr_mem k') pgdir 4100 = fr_mem k (KERNLINK + 10).
Proof.
  destruct (demo_uspace 3100 ltac:(lia)) as (k0 & F0 & T0 & pgdir & U0 & Hs0).
  destruct (allocuvm_ok k0 F0 T0 pgdir 0 10000 U0) as (k & F & T & _ & [A _ _ _ _ _ N _]);
    [lia|unfold KERNBASE; lia|unfold enough; rewrite Hs0; vm_compute; lia|].
  assert (U : uspace k F T pgdir (pages 0 (npages 10000))).
  { change (npages 0) with 0 in A. rewrite (pages0 0), union_empty_l_L in A by lia. exact A. }
  change (npages 10000) with 3 in *. change (npages 0) with 0 in *.
  destruct (copyout_writes_user_bytes k F T (pages 0 3) pgdir 4090 KERNLINK 100) as (k' & E & R).
  - exact U.
  - lia.
  - lia.
  - unfold KERNBASE. lia.
  - unfold KERNLINK, KERNBASE, EXTMEM. lia.
  - unfold KERNLINK, KERNBASE, EXTMEM. lia.
  - intros i j Hi Hj Ev. destruct (us_frame _ _ _ _ _ U j Hj) as ([_ Hf] & _).
    change (@kend kmem _ _) with demo_end in Hf. rewrite <- Ev in Hf.
    unfold page_of, demo_end, KERNLINK, KERNBASE, EXTMEM in Hf. lia.
  - intros j H1 H2. assert (Hj : 0 <= j < 3) by lia. split; [apply elem_of_pages; lia|].
    destruct (N j Hj) as (Hfl & _). rewrite <- has_flags by (unfold PTE_U; lia). rewrite Hfl. reflexivity.
  - exists k, F, T, pgdir, k'. split; [exact U|]. split; [exact E|].
    rewrite (ar_bytes _ _ _ _ _ _ _ _ _ R 4100) by (lia || (apply elem_of_pages; lia)). reflexivity.
Defined.

(** [allocuvm] does not look at the result of [mappages].  With one frame
    left and no table for the new page, it takes the frame for the page, finds
    none for the table, and still returns the new size: the page is not
    mapped, and the frame is neither free nor in the page table. *)
Theorem allocuvm_ignores_map_failure {K} `{!Frames K, !FramesOk K} (s : K) (T : gset Z) pgdir v :
  aspace s {[v]} T pgdir -> present (fr_mem s) pgdir 0 = false ->
  exists s', allocuvm pgdir 0 PGSIZE s = Ok PGSIZE s' /\ fr_rep s' ∅ /\ ptok (fr_mem s') pgdir T /\ v ∉ T /\
    pte (fr_mem s') pgdir 0 = 0.
Proof.
  intros A Hp. destruct (allocuvm_unmapped s T pgdir v A Hp) as (s' & E & R & M & HvT). exists s'.
  destruct (ptok_agree {[v]} _ _ _ _ (as_pt _ _ _ _ A) M) as (P2 & _ & Hpte); [clear -HvT; set_solver|].
  split_and!; try done. rewrite Hpte by lia. unfold pte. change (0 / 1024) with 0. by rewrite Hp.
Qed.

Lemma allocuvm_ignores_map_failure_witness :
  exists (k k' : kmem) T pgdir v, aspace k {[v]} T pgdir /\ allocuvm pgdir 0 PGSIZE k = Ok PGSIZE k' /\
    pte (fr_mem k') pgdir 0 = 0.
Proof.
  destruct demo_last_frame as (k & T & pgdir & v & U & Hp). pose proof (us_as _ _ _ _ _ U) as A.
  destruct (allocuvm_ignores_map_failure k T pgdir v A Hp) as (k' & E & _ & _ & _ & Hz).
  exists k, k', T, pgdir, v. split; [exact A|]. split; [exact E|exact Hz].
Defined.
