(* ===== verification/Spinlock.v ===== *)
(** * Spin locks (HW3/spinlock.c, spinlock.h)

    CPUs run concurrently, one shared access at a time.  Each CPU has its
    interrupt flag and the [pushcli] bookkeeping of [struct cpu], and works
    through a script of [acquire]s and [release]s; between two of them an
    interrupt handler may push a script of its own, when interrupts are on.
    [acquire] and [release] are split at their accesses to the lock, so every
    interleaving of the spinning loops is a run of the model.  The call stack
    recorded in [lk->pcs] for debugging, [getcallerpcs], is kept apart from
    them.

    The scripts of the routines that take two locks at once are those of
    proc.c and trap.c. *)

From stdpp Require Import base numbers list relations strings.
From Stdlib Require Import ZArith Lia.
From S2P Require Import Prelude Frames.

Open Scope Z_scope.

(** [struct spinlock]; [lk_cpu] is [NULL] or the index of a CPU. *)
Record spinlock := MkLock { lk_name : string; locked : Z; lk_cpu : option nat }.

#[export] Instance spinlock_inhabited : Inhabited spinlock := populate (MkLock "lock" 0 None).

(** The fields of [struct cpu] the locks use, and the CPU's interrupt flag. *)
Record cpu := MkCpu { ncli : Z; intena : bool; c_if : bool }.

Definition initlock (name : string) (lk : spinlock) : spinlock := MkLock name 0 None.

Definition holding (me : nat) (lk : spinlock) : bool :=
  negb (locked lk =? 0) && bool_decide (lk_cpu lk = Some me).

Definition pushcli : M cpu unit :=
  eflags ← reads c_if;
  modify (fun c => MkCpu (ncli c) (intena c) false);;
  n ← reads ncli;
  modify (fun c => MkCpu (n + 1) (intena c) (c_if c));;
  when (n =? 0) (modify (fun c => MkCpu (ncli c) eflags (c_if c))).

Definition popcli : M cpu unit :=
  fl ← reads c_if;
  if (fl : bool) then panic "popcli - interruptible" else
  modify (fun c => MkCpu (ncli c - 1) (intena c) (c_if c));;
  c ← get (S := cpu);
  if ncli c <? 0 then panic "popcli" else
  when ((ncli c =? 0) && intena c) (modify (fun c => MkCpu (ncli c) (intena c) true)).

(** [getcallerpcs]: the saved program counters along the frame pointers. *)
Fixpoint getcallerpcs_loop (m : mem) (n : nat) (ebp : Z) : list Z :=
  match n with
  | O => []
  | S n' =>
      if (ebp =? 0) || (ebp <? KERNBASE) || (ebp =? 0xffffffff) then replicate n 0
      else load32 m (u32 (ebp + 4)) :: getcallerpcs_loop m n' (load32 m ebp)
  end.

Definition getcallerpcs (m : mem) (v : Z) : list Z := getcallerpcs_loop m 10 (u32 (v - 8)).

(** ** CPUs taking and releasing locks *)

Inductive lockop := Acq (l : nat) | Rel (l : nat).

(** Where a CPU is: between two calls; after [pushcli], before [holding];
    spinning on the lock word; with the word set and [lk->cpu] not yet; with
    [lk->cpu] cleared and the word not yet; with the word cleared before
    [popcli]. *)
Inductive pc := Idle | Checking (l : nat) | Spin (l : nat) | Got (l : nat) | Clear (l : nat) | Free.

#[export] Instance pc_eq_dec : EqDecision pc.
Proof. solve_decision. Defined.

(** [t_held] records the locks taken and not released, latest first. *)
Record thread := MkThread { t_cpu : cpu; t_pc : pc; t_script : list lockop; t_held : list nat }.

Record machine := MkMachine { threads : nat -> thread; locks : nat -> spinlock }.

Definition fset {A} (f : nat -> A) (k : nat) (v : A) : nat -> A :=
  fun x => if decide (x = k) then v else f x.

(** The next access of CPU [me]. *)
Definition cpu_step (me : nat) : M machine unit :=
  m ← get (S := machine);
  let t := threads m me in
  let go c p s h := modify (fun m => MkMachine (fset (threads m) me (MkThread c p s h)) (locks m)) in
  let store l lk := modify (fun m => MkMachine (threads m) (fset (locks m) l lk)) in
  match t_pc t, t_script t with
  | Idle, [] => mret tt
  | Idle, Acq l :: s =>
      match pushcli (t_cpu t) with
      | Ok _ c => go c (Checking l) s (t_held t)
      | _ => undef "pushcli"
      end
  | Checking l, s =>
      if holding me (locks m l) then panic "acquire" else go (t_cpu t) (Spin l) s (t_held t)
  | Spin l, s =>
      let lk := locks m l in
      store l (MkLock (lk_name lk) 1 (lk_cpu lk));;
      if locked lk =? 0 then go (t_cpu t) (Got l) s (l :: t_held t) else mret tt
  | Got l, s =>
      store l (MkLock (lk_name (locks m l)) (locked (locks m l)) (Some me));;
      go (t_cpu t) Idle s (t_held t)
  | Idle, Rel l :: s =>
      if negb (holding me (locks m l)) then panic "release" else
      store l (MkLock (lk_name (locks m l)) (locked (locks m l)) None);;
      go (t_cpu t) (Clear l) s (t_held t)
  | Clear l, s =>
      store l (MkLock (lk_name (locks m l)) 0 (lk_cpu (locks m l)));;
      go (t_cpu t) Free s (filter (fun k => k <> l) (t_held t))
  | Free, s =>
      match popcli (t_cpu t) with
      | Ok _ c => go c Idle s (t_held t)
      | Panic msg => panic msg
      | _ => undef "popcli"
      end
  end.

(** The locks held after a script, if it releases only what it holds and takes
    nothing twice. *)
Fixpoint run_script (h : list nat) (s : list lockop) : option (list nat) :=
  match s with
  | [] => Some h
  | Acq l :: s => if decide (l ∈ h) then None else run_script (l :: h) s
  | Rel l :: s => if decide (l ∈ h) then run_script (filter (fun k => k <> l) h) s else None
  end.

Definition balanced (s : list lockop) : Prop := run_script [] s = Some [].

(** A step of the machine: a CPU makes its next access, or takes an interrupt
    whose handler runs a script that releases what it takes. *)
Inductive mstep (m : machine) : machine -> Prop :=
| step_cpu i m' : cpu_step i m = Ok tt m' -> mstep m m'
| step_intr i h :
    t_pc (threads m i) = Idle -> c_if (t_cpu (threads m i)) = true -> balanced h ->
    mstep m (MkMachine (fset (threads m) i
      (MkThread (t_cpu (threads m i)) Idle (h ++ t_script (threads m i)) (t_held (threads m i)))) (locks m)).

(** The same without conditions on what the handlers do. *)
Inductive any_step (m : machine) : machine -> Prop :=
| any_cpu i m' : cpu_step i m = Ok tt m' -> any_step m m'
| any_intr i h :
    t_pc (threads m i) = Idle -> c_if (t_cpu (threads m i)) = true ->
    any_step m (MkMachine (fset (threads m) i
      (MkThread (t_cpu (threads m i)) Idle (h ++ t_script (threads m i)) (t_held (threads m i)))) (locks m)).

(** Every CPU starts with interrupts off or on, holding nothing, with any
    script. *)
Definition powered_on (m : machine) : Prop :=
  (forall i, t_pc (threads m i) = Idle /\ t_held (threads m i) = [] /\ ncli (t_cpu (threads m i)) = 0) /\
  (forall l, locked (locks m l) = 0 /\ lk_cpu (locks m l) = None).

(** The scripts also release what they take. *)
Definition booted (m : machine) : Prop :=
  (forall i, t_pc (threads m i) = Idle /\ t_held (threads m i) = [] /\
     balanced (t_script (threads m i)) /\ ncli (t_cpu (threads m i)) = 0) /\
  (forall l, locked (locks m l) = 0 /\ lk_cpu (locks m l) = None).

(** ** The invariant *)

Lemma fset_eq {A} (f : nat -> A) k v : fset f k v k = v.
Proof. unfold fset. by rewrite decide_True. Qed.

Lemma fset_ne {A} (f : nat -> A) k v x : x <> k -> fset f k v x = f x.
Proof. intros H. unfold fset. by rewrite decide_False. Qed.

(** The locks a CPU will hold once the call it is in is over. *)
Definition t_after (t : thread) : list nat :=
  match t_pc t with
  | Checking l | Spin l => l :: t_held t
  | Clear l => filter (fun k => k <> l) (t_held t)
  | _ => t_held t
  end.

(** In [acquire] before the lock is taken and in [release] after it is given
    up, [pushcli] counts for one more. *)
Definition in_call (p : pc) : Z := match p with Checking _ | Spin _ | Free => 1 | _ => 0 end.

Record thread_ok (t : thread) : Prop := {
  th_nodup : NoDup (t_held t);
  th_ncli : ncli (t_cpu t) = Z.of_nat (length (t_held t)) + in_call (t_pc t);
  th_if : 0 < ncli (t_cpu t) -> c_if (t_cpu t) = false;
  th_pc : match t_pc t with
    | Spin l => l ∉ t_held t
    | Got l | Clear l => l ∈ t_held t
    | _ => True
    end
}.

(** The CPU goes on as a script does that releases what it takes. *)
Definition scripted (t : thread) : Prop :=
  run_script (t_after t) (t_script t) = Some [] /\ match t_pc t with Checking l => l ∉ t_held t | _ => True end.

Record inv (m : machine) : Prop := {
  inv_thread : forall i, thread_ok (threads m i);
  inv_excl : forall i j l, l ∈ t_held (threads m i) -> l ∈ t_held (threads m j) -> i = j;
  inv_free : forall l, locked (locks m l) = 0 \/ exists i, l ∈ t_held (threads m i);
  inv_taken : forall i l, l ∈ t_held (threads m i) -> locked (locks m l) = 1;
  inv_cpu : forall i l, lk_cpu (locks m l) = Some i ->
    l ∈ t_held (threads m i) /\ t_pc (threads m i) <> Got l /\ t_pc (threads m i) <> Clear l;
  inv_owner : forall i l, l ∈ t_held (threads m i) ->
    t_pc (threads m i) <> Got l -> t_pc (threads m i) <> Clear l -> lk_cpu (locks m l) = Some i
}.

Lemma inv_powered_on m : powered_on m -> inv m.
Proof.
  intros [Ht Hl]. split.
  - intros i. destruct (Ht i) as (Hp & Hh & Hn). split; rewrite ?Hp, ?Hh, ?Hn; try done; constructor.
  - intros i j l Hi. destruct (Ht i) as (_ & Hh & _). rewrite Hh in Hi. by apply elem_of_nil in Hi.
  - intros l. left. apply Hl.
  - intros i l Hi. destruct (Ht i) as (_ & Hh & _). rewrite Hh in Hi. by apply elem_of_nil in Hi.
  - intros i l Hc. destruct (Hl l) as [_ E]. congruence.
  - intros i l Hi. destruct (Ht i) as (_ & Hh & _). rewrite Hh in Hi. by apply elem_of_nil in Hi.
Qed.

Lemma booted_powered_on m : booted m -> powered_on m.
Proof. intros [Ht Hl]. split; [|done]. intros i. by destruct (Ht i) as (? & ? & _ & ?). Qed.

Lemma inv_booted m : booted m -> inv m.
Proof. intros H. by apply inv_powered_on, booted_powered_on. Qed.

Lemma scripted_booted m i : booted m -> scripted (threads m i).
Proof. intros [Ht _]. destruct (Ht i) as (Hp & Hh & Hs & _). unfold scripted, t_after. by rewrite Hp, Hh. Qed.

Lemma pushcli_ok c :
  pushcli c = Ok tt (MkCpu (ncli c + 1) (if ncli c =? 0 then c_if c else intena c) false).
Proof. destruct c as [n a f]. unfold pushcli. munfold. cbn. by destruct (n =? 0). Qed.

Lemma popcli_ok c :
  c_if c = false -> 1 <= ncli c ->
  popcli c = Ok tt (MkCpu (ncli c - 1) (intena c) ((ncli c =? 1) && intena c)).
Proof.
  destruct c as [n a f]. cbn. intros -> Hn. unfold popcli. munfold. cbn.
  destruct (Z.ltb_spec (n - 1) 0); [lia|].
  replace (n - 1 =? 0) with (n =? 1) by lia. by destruct (n =? 1), a.
Qed.

Lemma not_holding m i l : inv m -> l ∉ t_held (threads m i) -> holding i (locks m l) = false.
Proof.
  intros I Hn. unfold holding. apply andb_false_intro2, bool_decide_eq_false.
  intros Hc. by destruct (inv_cpu m I i l Hc).
Qed.

Lemma is_holding m i l :
  inv m -> l ∈ t_held (threads m i) -> t_pc (threads m i) <> Got l -> t_pc (threads m i) <> Clear l ->
  holding i (locks m l) = true.
Proof.
  intros I Hl Hg Hc. unfold holding. rewrite (inv_taken m I i l Hl).
  rewrite bool_decide_eq_true_2; [done|]. by apply (inv_owner m I).
Qed.

(** A CPU's access keeps the invariant if it takes only free locks and leaves
    the locks of others alone. *)
Lemma inv_update m i t ts ls :
  inv m -> thread_ok t -> (forall j, ts j = fset (threads m) i t j) ->
  (forall l, l ∈ t_held t -> l ∈ t_held (threads m i) \/ locked (locks m l) = 0) ->
  (forall l, l ∉ t_held t -> l ∉ t_held (threads m i) -> ls l = locks m l) ->
  (forall l, l ∈ t_held (threads m i) -> l ∉ t_held t -> locked (ls l) = 0 /\ lk_cpu (ls l) = None) ->
  (forall l, l ∈ t_held t -> locked (ls l) = 1) ->
  (forall l, l ∈ t_held t -> t_pc t = Got l \/ t_pc t = Clear l -> lk_cpu (ls l) = None) ->
  (forall l, l ∈ t_held t -> t_pc t <> Got l -> t_pc t <> Clear l -> lk_cpu (ls l) = Some i) ->
  inv (MkMachine ts ls).
Proof.
  intros I T Hts Hnew Hsame Hrel Htk Hnone Hsome.
  assert (Hx : forall j l, j <> i -> l ∈ t_held (threads m j) -> l ∉ t_held t /\ l ∉ t_held (threads m i)).
  { intros j l Hj Hl. split; intros Hc.
    - destruct (Hnew l Hc) as [Ho|Ho]; [by apply Hj, (inv_excl m I j i l)|].
      rewrite (inv_taken m I j l Hl) in Ho. lia.
    - by apply Hj, (inv_excl m I j i l). }
  split; cbn [threads locks]; setoid_rewrite Hts.
  - intros j. destruct (decide (j = i)) as [->|]; [by rewrite fset_eq|]. rewrite fset_ne by done. apply I.
  - intros j k l. destruct (decide (j = i)) as [->|], (decide (k = i)) as [->|];
      rewrite ?fset_eq, ?fset_ne by done; try done.
    + intros Hj Hk. by destruct (Hx k l ltac:(done) Hk).
    + intros Hj Hk. by destruct (Hx j l ltac:(done) Hj).
    + apply (inv_excl m I).
  - intros l. destruct (decide (l ∈ t_held t)); [right; exists i; by rewrite fset_eq|].
    destruct (decide (l ∈ t_held (threads m i))); [left; by apply Hrel|].
    rewrite Hsame by done. destruct (inv_free m I l) as [|[j Hj]]; [by left|right].
    exists j. by rewrite fset_ne by congruence.
  - intros j l. destruct (decide (j = i)) as [->|]; rewrite ?fset_eq, ?fset_ne by done; [apply Htk|].
    intros Hl. destruct (Hx j l ltac:(done) Hl). rewrite Hsame by done. by apply (inv_taken m I j).
  - intros j l Hc. destruct (decide (l ∈ t_held t)) as [Hl|Hl].
    + destruct (decide (t_pc t = Got l)) as [Hg|Hg]; [rewrite Hnone in Hc by auto; done|].
      destruct (decide (t_pc t = Clear l)) as [Hg'|Hg']; [rewrite Hnone in Hc by auto; done|].
      rewrite (Hsome l Hl Hg Hg') in Hc. injection Hc as <-. by rewrite fset_eq.
    + destruct (decide (l ∈ t_held (threads m i))) as [Ho|Ho]; [by destruct (Hrel l Ho Hl); congruence|].
      rewrite (Hsame l Hl Ho) in Hc. destruct (inv_cpu m I j l Hc) as [Hj ?].
      rewrite fset_ne by congruence. done.
  - intros j l. destruct (decide (j = i)) as [->|]; rewrite ?fset_eq, ?fset_ne by done; [apply Hsome|].
    intros Hl ? ?. destruct (Hx j l ltac:(done) Hl). rewrite Hsame by done. by apply (inv_owner m I).
Qed.

Lemma fset_id {A} (f : nat -> A) k v : v = f k -> forall x, fset f k v x = f x.
Proof. intros -> x. unfold fset. by case_decide as H; [rewrite H|]. Qed.

(** A step that changes no lock and holds what was held. *)
Lemma inv_local m i c p s :
  inv m -> (forall l, t_pc (threads m i) <> Got l) -> (forall l, t_pc (threads m i) <> Clear l) ->
  (forall l, p <> Got l) -> (forall l, p <> Clear l) -> thread_ok (MkThread c p s (t_held (threads m i))) ->
  inv (MkMachine (fset (threads m) i (MkThread c p s (t_held (threads m i)))) (locks m)).
Proof.
  intros I G1 C1 G2 C2 T. eapply inv_update; [done|exact T|done|..]; cbn; auto.
  - intros k Hk Hk'. done.
  - intros k. apply (inv_taken m I).
  - intros k Hk [|]; [by destruct (G2 k)|by destruct (C2 k)].
  - intros k Hk _ _. by apply (inv_owner m I).
Qed.

Lemma step_acquire m i l s :
  inv m -> t_pc (threads m i) = Idle -> t_script (threads m i) = Acq l :: s ->
  let c := t_cpu (threads m i) in
  let m' := MkMachine (fset (threads m) i (MkThread
      (MkCpu (ncli c + 1) (if ncli c =? 0 then c_if c else intena c) false)
      (Checking l) s (t_held (threads m i)))) (locks m) in
  cpu_step i m = Ok tt m' /\ inv m'.
Proof.
  intros I Hp Hs c m'. pose proof (inv_thread m I i) as T. split.
  - unfold cpu_step. munfold. rewrite Hp, Hs. cbn beta iota. by rewrite pushcli_ok.
  - apply inv_local; try done; [by rewrite Hp..|]. split; cbn; try done; [apply T|].
    subst c. rewrite (th_ncli _ T), Hp. cbn. lia.
Qed.

Lemma step_check m i l :
  inv m -> t_pc (threads m i) = Checking l -> l ∉ t_held (threads m i) ->
  let t := threads m i in
  let m' := MkMachine (fset (threads m) i (MkThread (t_cpu t) (Spin l) (t_script t) (t_held t))) (locks m) in
  cpu_step i m = Ok tt m' /\ inv m'.
Proof.
  intros I Hp Hl t m'. pose proof (inv_thread m I i) as T. split.
  - unfold cpu_step. munfold. rewrite Hp. cbn beta iota. by rewrite (not_holding m i l I Hl).
  - apply inv_local; try done; [by rewrite Hp..|]. split; cbn; try done; [apply T| |apply T].
    subst t. by rewrite (th_ncli _ T), Hp.
Qed.

(** The [xchg] of a spinning CPU either takes the lock or changes nothing. *)
Lemma step_xchg_free m i l :
  inv m -> t_pc (threads m i) = Spin l -> locked (locks m l) = 0 ->
  let t := threads m i in
  let m' := MkMachine (fset (threads m) i (MkThread (t_cpu t) (Got l) (t_script t) (l :: t_held t)))
    (fset (locks m) l (MkLock (lk_name (locks m l)) 1 (lk_cpu (locks m l)))) in
  cpu_step i m = Ok tt m' /\ inv m'.
Proof.
  intros I Hp E t m'. pose proof (inv_thread m I i) as T. pose proof (th_pc _ T) as Hl. rewrite Hp in Hl.
  split; [unfold cpu_step; munfold; rewrite Hp; cbn; by rewrite E|].
  eapply inv_update; [done| |done|..]; cbn; try done.
  - split; cbn; try done; [by constructor; [|apply T]| | |by left].
    + subst t. rewrite (th_ncli _ T), Hp. cbn. lia.
    + apply (th_if _ T).
  - intros k [->|]%elem_of_cons; auto.
  - intros k Hk _. rewrite fset_ne; [done|]. intros ->. apply Hk. by left.
  - intros k Hk Hk'. exfalso. apply Hk'. by right.
  - intros k Hk. destruct (decide (k = l)) as [->|]; [by rewrite fset_eq|]. rewrite fset_ne by done.
    apply elem_of_cons in Hk as [|]; [done|]. by apply (inv_taken m I i).
  - intros k Hk [[= <-]|[=]]. rewrite fset_eq. cbn.
    destruct (lk_cpu (locks m l)) as [j|] eqn:Ec; [|done].
    destruct (inv_cpu m I j l Ec) as [Hj _]. rewrite (inv_taken m I j l Hj) in E. lia.
  - intros k [->|Hk]%elem_of_cons Hg _; [done|]. rewrite fset_ne by congruence.
    apply (inv_owner m I); rewrite ?Hp; done.
Qed.

Lemma step_xchg_taken m i l :
  inv m -> t_pc (threads m i) = Spin l -> locked (locks m l) <> 0 ->
  let m' := MkMachine (threads m) (fset (locks m) l (MkLock (lk_name (locks m l)) 1 (lk_cpu (locks m l)))) in
  cpu_step i m = Ok tt m' /\ inv m'.
Proof.
  intros I Hp E m'. pose proof (inv_thread m I i) as T. pose proof (th_pc _ T) as Hl. rewrite Hp in Hl.
  assert (E1 : locked (locks m l) = 1).
  { destruct (inv_free m I l) as [|[j Hj]]; [done|]. by apply (inv_taken m I j). }
  split; [unfold cpu_step; munfold; rewrite Hp; cbn; by rewrite E1|].
  apply (inv_update m i (threads m i)); cbn; try done; auto.
  - intros j. by rewrite fset_id.
  - intros k Hk _. destruct (decide (k = l)) as [->|]; [|by rewrite fset_ne].
    rewrite fset_eq. by destruct (locks m l); cbn in *; subst.
  - intros k Hk. rewrite fset_ne by congruence. by apply (inv_taken m I i).
  - intros k Hk [Hg|Hg]; congruence.
  - intros k Hk _ _. rewrite fset_ne by congruence. apply (inv_owner m I); rewrite ?Hp; done.
Qed.

Lemma step_got m i l :
  inv m -> t_pc (threads m i) = Got l ->
  let t := threads m i in
  let m' := MkMachine (fset (threads m) i (MkThread (t_cpu t) Idle (t_script t) (t_held t)))
    (fset (locks m) l (MkLock (lk_name (locks m l)) (locked (locks m l)) (Some i))) in
  cpu_step i m = Ok tt m' /\ inv m'.
Proof.
  intros I Hp t m'. pose proof (inv_thread m I i) as T. pose proof (th_pc _ T) as Hl. rewrite Hp in Hl.
  split; [unfold cpu_step; munfold; rewrite Hp; done|].
  eapply inv_update; [done| |done|..]; cbn; try done; auto.
  - split; cbn; try done; [apply T| |apply T]. subst t. by rewrite (th_ncli _ T), Hp.
  - intros k Hk _. rewrite fset_ne; [done|]. by intros ->.
  - intros k Hk. destruct (decide (k = l)) as [->|]; [rewrite fset_eq|rewrite fset_ne by done];
      by apply (inv_taken m I i).
  - by intros k Hk [|].
  - intros k Hk _ _. destruct (decide (k = l)) as [->|]; [by rewrite fset_eq|]. rewrite fset_ne by done.
    apply (inv_owner m I); rewrite ?Hp; try done. by intros [= ->].
Qed.

Lemma step_release m i l s :
  inv m -> t_pc (threads m i) = Idle -> t_script (threads m i) = Rel l :: s -> l ∈ t_held (threads m i) ->
  let t := threads m i in
  let m' := MkMachine (fset (threads m) i (MkThread (t_cpu t) (Clear l) s (t_held t)))
    (fset (locks m) l (MkLock (lk_name (locks m l)) (locked (locks m l)) None)) in
  cpu_step i m = Ok tt m' /\ inv m'.
Proof.
  intros I Hp Hs Hl t m'. pose proof (inv_thread m I i) as T.
  split; [unfold cpu_step; munfold; rewrite Hp, Hs; cbn; by rewrite (is_holding m i l I Hl) by (by rewrite Hp)|].
  eapply inv_update; [done| |done|..]; cbn; try done; auto.
  - split; cbn; try done; [apply T| |apply T]. subst t. by rewrite (th_ncli _ T), Hp.
  - intros k Hk _. rewrite fset_ne; [done|]. by intros ->.
  - intros k Hk. destruct (decide (k = l)) as [->|]; [rewrite fset_eq|rewrite fset_ne by done];
      by apply (inv_taken m I i).
  - intros k Hk [|[= <-]]; [done|]. by rewrite fset_eq.
  - intros k Hk _ Hc. rewrite fset_ne by congruence. apply (inv_owner m I); rewrite ?Hp; done.
Qed.

Lemma length_filter_ne (l : nat) h :
  NoDup h -> l ∈ h -> length h = S (length (filter (fun k => k <> l) h)).
Proof.
  induction h as [|x h IH]; intros Hn Hl; [by apply elem_of_nil in Hl|].
  inversion_clear Hn as [|? ? Hx Hn']. rewrite filter_cons. case_decide as E; cbn.
  - f_equal. apply IH; [done|]. apply elem_of_cons in Hl as [->|]; done.
  - assert (x = l) as -> by (destruct (decide (x = l)); done). f_equal.
    clear -Hx. induction h as [|y h IH]; [done|]. rewrite not_elem_of_cons in Hx.
    rewrite filter_cons, decide_True by naive_solver. cbn. f_equal. naive_solver.
Qed.

Lemma step_clear m i l :
  inv m -> t_pc (threads m i) = Clear l ->
  let t := threads m i in
  let m' := MkMachine (fset (threads m) i (MkThread (t_cpu t) Free (t_script t) (filter (fun k => k <> l) (t_held t))))
    (fset (locks m) l (MkLock (lk_name (locks m l)) 0 (lk_cpu (locks m l)))) in
  cpu_step i m = Ok tt m' /\ inv m'.
Proof.
  intros I Hp t m'. pose proof (inv_thread m I i) as T. pose proof (th_pc _ T) as Hl. rewrite Hp in Hl.
  split; [unfold cpu_step; munfold; rewrite Hp; done|].
  eapply inv_update; [done| |done|..]; cbn; try done; try setoid_rewrite list_elem_of_filter.
  - split; cbn; try done; [by apply NoDup_filter, T| |apply T].
    subst t. rewrite (th_ncli _ T), Hp, (length_filter_ne l) by (apply T || done). cbn. lia.
  - naive_solver.
  - intros k Hk Hk'. rewrite fset_ne; [done|]. by intros ->.
  - intros k Hk Hk'. assert (k = l) as -> by (destruct (decide (k = l)); naive_solver).
    rewrite fset_eq. cbn. split; [done|].
    destruct (lk_cpu (locks m l)) as [j|] eqn:Ec; [|done].
    destruct (inv_cpu m I j l Ec) as (Hj & _ & Hc).
    by rewrite (inv_excl m I j i l Hj Hk) in Hc.
  - intros k [Hk Hk']. rewrite fset_ne by done. by apply (inv_taken m I i).
  - by intros k Hk [|].
  - intros k [Hk Hk'] _ _. rewrite fset_ne by done. apply (inv_owner m I); rewrite ?Hp; try done; congruence.
Qed.

Lemma step_free m i :
  inv m -> t_pc (threads m i) = Free ->
  let t := threads m i in let c := t_cpu t in
  let m' := MkMachine (fset (threads m) i (MkThread (MkCpu (ncli c - 1) (intena c) ((ncli c =? 1) && intena c))
      Idle (t_script t) (t_held t))) (locks m) in
  cpu_step i m = Ok tt m' /\ inv m'.
Proof.
  intros I Hp t c m'. pose proof (inv_thread m I i) as T. pose proof (th_ncli _ T) as N. rewrite Hp in N. cbn in N. split.
  - unfold cpu_step. munfold. rewrite Hp. rewrite popcli_ok; [done| |lia]. apply (th_if _ T). lia.
  - apply inv_local; try done; [by rewrite Hp..|]. split; cbn; try done; [apply T|subst c t; lia|].
    intros Hn. subst c t. destruct (Z.eqb_spec (ncli (t_cpu (threads m i))) 1); [lia|done].
Qed.

(** The ways to misuse a lock: taking it twice, or giving up one not held. *)
Definition misuse (t : thread) (msg : string) : Prop :=
  (exists l, t_pc t = Checking l /\ l ∈ t_held t /\ msg = "acquire"%string) \/
  (exists l s, t_pc t = Idle /\ t_script t = Rel l :: s /\ l ∉ t_held t /\ msg = "release"%string).

Lemma misuse_unique t msg msg' : misuse t msg -> misuse t msg' -> msg' = msg.
Proof. intros [(l & E & _ & ->)|(l & s & E & _ & _ & ->)] [(l' & E' & _ & ->)|(l' & s' & E' & _ & _ & ->)]; congruence. Qed.

Lemma scripted_no_misuse t msg : scripted t -> ~ misuse t msg.
Proof.
  intros [R C] [(l & E & Hl & _)|(l & s & E & Es & Hl & _)]; rewrite E in C; [done|].
  unfold t_after in R. rewrite E, Es in R. cbn in R. by rewrite decide_False in R.
Qed.

(** An access of a CPU keeps the invariant; it panics if and only if the CPU
    misuses a lock. *)
Lemma cpu_step_cases m i :
  inv m -> (exists m', cpu_step i m = Ok tt m' /\ inv m' /\ (scripted (threads m i) -> scripted (threads m' i)) /\
      forall msg, ~ misuse (threads m i) msg) \/
    (exists msg, cpu_step i m = Panic msg /\ misuse (threads m i) msg).
Proof.
  intros I. unfold scripted, misuse, t_after. destruct (t_pc (threads m i)) as [|l|l|l|l|] eqn:Hp.
  - destruct (t_script (threads m i)) as [|[l|l] s] eqn:Hs.
    + left. exists m. split_and!; [|done| |naive_solver].
      * unfold cpu_step. munfold. by rewrite Hp, Hs.
      * by rewrite Hp, Hs.
    + left. destruct (step_acquire m i l s I Hp Hs) as [E I']. eexists. split_and!; [exact E|exact I'| |naive_solver].
      cbn. rewrite fset_eq. cbn. case_decide; naive_solver.
    + destruct (decide (l ∈ t_held (threads m i))) as [Hl|Hl].
      * left. destruct (step_release m i l s I Hp Hs Hl) as [E I']. eexists. split_and!; [exact E|exact I'| |naive_solver].
        cbn. rewrite fset_eq. cbn. by rewrite decide_True.
      * right. exists "release"%string. split; [|right; by exists l, s].
        unfold cpu_step. munfold. rewrite Hp, Hs. cbn. by rewrite (not_holding m i l I Hl).
  - destruct (decide (l ∈ t_held (threads m i))) as [Hl|Hl].
    + right. exists "acquire"%string. split; [|left; by exists l].
      unfold cpu_step. munfold. rewrite Hp. cbn. by rewrite (is_holding m i l I Hl) by (by rewrite Hp).
    + left. destruct (step_check m i l I Hp Hl) as [E I']. eexists. split_and!; [exact E|exact I'| |naive_solver].
      cbn. rewrite fset_eq. cbn. naive_solver.
  - left. destruct (decide (locked (locks m l) = 0)) as [H0|H0].
    + destruct (step_xchg_free m i l I Hp H0) as [E I']. eexists. split_and!; [exact E|exact I'| |naive_solver].
      cbn. rewrite fset_eq. cbn. naive_solver.
    + destruct (step_xchg_taken m i l I Hp H0) as [E I']. eexists. split_and!; [exact E|exact I'| |naive_solver].
      cbn. by rewrite Hp.
  - left. destruct (step_got m i l I Hp) as [E I']. eexists. split_and!; [exact E|exact I'| |naive_solver].
    cbn. rewrite fset_eq. cbn. naive_solver.
  - left. destruct (step_clear m i l I Hp) as [E I']. eexists. split_and!; [exact E|exact I'| |naive_solver].
    cbn. rewrite fset_eq. cbn. naive_solver.
  - left. destruct (step_free m i I Hp) as [E I']. eexists. split_and!; [exact E|exact I'| |naive_solver].
    cbn. rewrite fset_eq. cbn. naive_solver.
Qed.

Lemma run_script_app h s s' :
  run_script h (s ++ s') = run_script h s ≫= (fun h' => run_script h' s').
Proof.
  revert h. induction s as [|[l|l] s IH]; intros h; cbn; [done| |]; case_decide; try done; apply IH.
Qed.

(** An interrupt comes only to a CPU that holds nothing. *)
Lemma interrupted_free m i :
  inv m -> t_pc (threads m i) = Idle -> c_if (t_cpu (threads m i)) = true -> t_held (threads m i) = [].
Proof.
  intros I Hp Hi. pose proof (inv_thread m I i) as T. pose proof (th_ncli _ T) as N. rewrite Hp in N. cbn in N.
  destruct (t_held (threads m i)) eqn:Hh; [done|]. cbn in N. rewrite (th_if _ T) in Hi; [done|]. lia.
Qed.

Lemma any_step_inv m m' : inv m -> any_step m m' -> inv m'.
Proof.
  intros I [i m1 E|i h Hp Hi].
  - destruct (cpu_step_cases m i I) as [(m2 & E2 & I2 & _)|(msg & E2 & _)]; congruence.
  - apply inv_local; try done; [by rewrite Hp..|]. pose proof (inv_thread m I i) as T.
    split; cbn; try apply T; [|done]. by rewrite (th_ncli _ T), Hp.
Qed.

Lemma any_steps_inv m m' : inv m -> rtc any_step m m' -> inv m'.
Proof. intros I H. induction H as [|m m1 m2 H1 _ IH]; [done|]. by apply IH, (any_step_inv m). Qed.

Lemma mstep_any m m' : mstep m m' -> any_step m m'.
Proof. intros [i m1 E|i h Hp Hi _]; [by apply (any_cpu m i)|by apply any_intr]. Qed.

Lemma mstep_inv m m' : inv m -> mstep m m' -> inv m'.
Proof. intros I H. by apply (any_step_inv m), mstep_any. Qed.

Lemma step_other m i m' j : cpu_step i m = Ok tt m' -> j <> i -> threads m' j = threads m j.
Proof.
  intros E Hj. unfold cpu_step in E. munfold.
  destruct (t_pc (threads m i)); [destruct (t_script (threads m i)) as [|[|]]|..].
  all: repeat match type of E with
    | context [match pushcli ?x with _ => _ end] => destruct (pushcli x)
    | context [match popcli ?x with _ => _ end] => destruct (popcli x)
    | context [if ?b then _ else _] => destruct b
    end; try done; injection E as <-; cbn; by rewrite ?fset_ne.
Qed.

(** Scripts that release what they take are kept by the steps. *)
Lemma mstep_scripted m m' :
  inv m -> (forall i, scripted (threads m i)) -> mstep m m' -> forall i, scripted (threads m' i).
Proof.
  intros I S [j m1 E|j h Hp Hi Hb] i.
  - destruct (decide (i = j)) as [->|Hn]; [|by rewrite (step_other m j m1 i E Hn)].
    destruct (cpu_step_cases m j I) as [(m2 & E2 & _ & K & _)|(msg & E2 & _)]; [|congruence].
    assert (m1 = m2) as -> by congruence. by apply K.
  - cbn. destruct (decide (i = j)) as [->|Hn]; [|by rewrite fset_ne].
    rewrite fset_eq. destruct (S j) as [R _]. unfold scripted, t_after in *. cbn. rewrite Hp in R.
    rewrite (interrupted_free m j I Hp Hi) in *. rewrite run_script_app. unfold balanced in Hb. by rewrite Hb.
Qed.

Lemma msteps_scripted m m' :
  inv m -> (forall i, scripted (threads m i)) -> rtc mstep m m' -> inv m' /\ forall i, scripted (threads m' i).
Proof.
  intros I S H. induction H as [|m m1 m2 H1 _ IH]; [done|].
  apply IH; [by apply (mstep_inv m)|by apply (mstep_scripted m)].
Qed.

(** C11: The spin locks work.  From a start with nothing held, whatever the CPUs
    do with the locks, whatever the interleaving and whenever interrupts
    arrive: two CPUs never hold the same lock; a CPU that holds a lock has
    interrupts off; [ncli] is at every moment the number of locks the CPU
    holds, and one more inside [acquire] before the lock is taken and inside
    [release] after it is given up; and a CPU panics at its next access if and
    only if it takes a lock it holds or gives up one it does not hold.  If
    moreover the code of every CPU and every interrupt handler releases what
    it takes, nothing panics, and a CPU at the end of its script holds nothing
    and has [ncli] 0. *)
Theorem spinlock_mutual_exclusion m0 m :
  powered_on m0 -> rtc any_step m0 m ->
  (forall i j l, l ∈ t_held (threads m i) -> l ∈ t_held (threads m j) -> i = j) /\
  (forall i, t_held (threads m i) <> [] -> c_if (t_cpu (threads m i)) = false) /\
  (forall i, ncli (t_cpu (threads m i)) = Z.of_nat (length (t_held (threads m i))) + in_call (t_pc (threads m i))) /\
  (forall i, (exists m', cpu_step i m = Ok tt m') \/ exists msg, cpu_step i m = Panic msg) /\
  (forall i msg, cpu_step i m = Panic msg <-> misuse (threads m i) msg) /\
  (booted m0 -> rtc mstep m0 m ->
   (forall i, exists m', cpu_step i m = Ok tt m') /\
   (forall i, t_pc (threads m i) = Idle -> t_script (threads m i) = [] ->
      t_held (threads m i) = [] /\ ncli (t_cpu (threads m i)) = 0)).
Proof.
  intros Hb Hr. pose proof (any_steps_inv _ _ (inv_powered_on _ Hb) Hr) as I. split_and!.
  - apply (inv_excl m I).
  - intros i Hh. apply (th_if _ (inv_thread m I i)). rewrite (th_ncli _ (inv_thread m I i)).
    destruct (t_held (threads m i)); [done|]. cbn. unfold in_call. destruct (t_pc (threads m i)); lia.
  - intros i. apply (th_ncli _ (inv_thread m I i)).
  - intros i. destruct (cpu_step_cases m i I) as [(m' & E & _)|(msg & E & _)]; [left|right]; eauto.
  - intros i msg. destruct (cpu_step_cases m i I) as [(m' & E & _ & _ & Hn)|(msg' & E & Hm)].
    + split; [congruence|]. intros Hm. by destruct (Hn msg).
    + split; [intros [= <-]%(eq_trans (eq_sym E)); exact Hm|]. intros Hm'. rewrite E. f_equal.
      by eapply misuse_unique.
  - intros Hb2 Hr2. destruct (msteps_scripted m0 m (inv_booted _ Hb2) (fun i => scripted_booted _ i Hb2) Hr2) as [_ S]. split.
    + intros i. destruct (cpu_step_cases m i I) as [(m' & E & _)|(msg & E & Hm)]; [by exists m'|].
      by destruct (scripted_no_misuse (threads m i) msg (S i)).
    + intros i Hp Hs. destruct (S i) as [R _]. unfold t_after in R. rewrite Hp, Hs in R. injection R as R.
      rewrite (th_ncli _ (inv_thread m I i)), Hp, R. done.
Qed.

(** ** Two locks at once *)

(** The locks of trap.c and proc.c by number. *)
Definition tickslock : nat := 0.
Definition ptable_lock : nat := 1.

(** The timer interrupt: [tickslock] around [update_stat] and [wakeup]. *)
Definition tick_locks : list lockop :=
  [Acq tickslock; Acq ptable_lock; Rel ptable_lock; Acq ptable_lock; Rel ptable_lock; Rel tickslock].

(** [kill] of an existing process. *)
Definition kill_locks : list lockop :=
  [Acq ptable_lock; Acq tickslock; Rel tickslock; Rel ptable_lock].

Lemma rtc_step_cpu m i m1 m2 : cpu_step i m = Ok tt m1 -> rtc mstep m1 m2 -> rtc mstep m m2.
Proof. intros E. apply rtc_l. by apply (step_cpu m i). Qed.

(** An [acquire] of a free lock, run without interruption. *)
Lemma acquire_free m i l s :
  inv m -> t_pc (threads m i) = Idle -> t_script (threads m i) = Acq l :: s -> locked (locks m l) = 0 ->
  exists m', rtc mstep m m' /\ inv m' /\ t_pc (threads m' i) = Idle /\ t_script (threads m' i) = s /\
    t_held (threads m' i) = l :: t_held (threads m i) /\
    (forall j, j <> i -> threads m' j = threads m j) /\ (forall k, k <> l -> locks m' k = locks m k).
Proof.
  intros I Hp Hs Hf.
  destruct (step_acquire m i l s I Hp Hs) as [E1 I1].
  destruct (step_check _ i l I1) as [E2 I2]; [by cbn; rewrite fset_eq|cbn; rewrite fset_eq; cbn; intros Hl; rewrite (inv_taken m I i l Hl) in Hf; lia|].
  destruct (step_xchg_free _ i l I2) as [E3 I3]; [by cbn; rewrite fset_eq|done|].
  destruct (step_got _ i l I3) as [E4 I4]; [by cbn; rewrite !fset_eq|].
  eexists. split; [|split; [exact I4|]].
  - eapply rtc_step_cpu; [exact E1|]. eapply rtc_step_cpu; [exact E2|]. eapply rtc_step_cpu; [exact E3|].
    eapply rtc_step_cpu; [exact E4|]. apply rtc_refl.
  - cbn. rewrite !fset_eq. cbn. rewrite ?fset_eq. split_and!; try done.
    + intros j Hj. by rewrite !fset_ne.
    + intros k Hk. by rewrite !fset_ne.
Qed.

(** A CPU that spins on a lock another CPU holds is not moved by any step. *)
Definition blocked (m : machine) (a l b : nat) : Prop :=
  t_pc (threads m a) = Spin l /\ l ∈ t_held (threads m b).

Lemma blocked_step m m' i j l : inv m -> blocked m i l j -> mstep m m' -> threads m' i = threads m i.
Proof.
  intros I [Hp Hh] [k m1 E|k h Hk _ _]; cbn.
  - destruct (decide (k = i)) as [->|]; [|by eapply step_other].
    destruct (step_xchg_taken m i l I Hp) as [E2 _]; [by rewrite (inv_taken m I j l Hh)|].
    rewrite E2 in E. by injection E as <-.
  - rewrite fset_ne; [done|]. congruence.
Qed.

Lemma deadlocked m a b l k :
  inv m -> blocked m a l b -> blocked m b k a ->
  forall m', rtc mstep m m' -> t_pc (threads m' a) = Spin l /\ t_pc (threads m' b) = Spin k.
Proof.
  intros I B1 B2 m' R. revert I B1 B2. induction R as [m|m m1 m2 S1 _ IH]; intros I B1 B2.
  - split; [apply B1|apply B2].
  - pose proof (blocked_step m m1 a b l I B1 S1) as Ea. pose proof (blocked_step m m1 b a k I B2 S1) as Eb.
    apply IH; [by apply (mstep_inv m)|..]; unfold blocked; by rewrite Ea, Eb.
Qed.

(** C12: [kill] takes [tickslock] while it holds the process table lock, and the
    timer interrupt takes the process table lock while it holds [tickslock].
    When one CPU runs the one and another CPU the other, the machine can reach
    a state that no further step of any CPU leaves: both spin for ever. *)
Theorem kill_tick_deadlock m a b r r' :
  booted m -> a <> b ->
  t_script (threads m a) = tick_locks ++ r -> t_script (threads m b) = kill_locks ++ r' ->
  exists m1, rtc mstep m m1 /\ forall m2, rtc mstep m1 m2 ->
    t_pc (threads m2 a) = Spin ptable_lock /\ t_pc (threads m2 b) = Spin tickslock.
Proof.
  intros Hb Hab Ha Hbs. pose proof (inv_booted m Hb) as I. destruct Hb as [Ht Hl].
  destruct (acquire_free m a tickslock _ I (proj1 (Ht a)) Ha (proj1 (Hl _)))
    as (m1 & R1 & I1 & P1 & S1 & H1 & T1 & L1).
  destruct (acquire_free m1 b ptable_lock (tl kill_locks ++ r') I1) as (m2 & R2 & I2 & P2 & S2 & H2 & T2 & L2).
  { rewrite T1 by done. apply Ht. }
  { rewrite T1 by done. done. }
  { rewrite L1 by done. apply Hl. }
  rewrite <- (T2 a) in P1, S1, H1 by done.
  assert (Hp : ptable_lock ∉ t_held (threads m2 a)).
  { intros Hin. apply Hab, (inv_excl m2 I2 a b ptable_lock Hin). rewrite H2. by left. }
  assert (Ht2 : tickslock ∉ t_held (threads m2 b)).
  { intros Hin. apply Hab. symmetry. apply (inv_excl m2 I2 b a tickslock Hin). rewrite H1. by left. }
  destruct (step_acquire m2 a _ _ I2 P1 S1) as [E3 I3].
  destruct (step_check _ a ptable_lock I3) as [E4 I4]; [by cbn; rewrite fset_eq|by cbn; rewrite fset_eq|].
  destruct (step_acquire _ b tickslock (drop 2 kill_locks ++ r') I4) as [E5 I5].
  { cbn. by rewrite !fset_ne by done. } { cbn. by rewrite !fset_ne by done. }
  destruct (step_check _ b tickslock I5) as [E6 I6]; [by cbn; rewrite fset_eq|by cbn; rewrite fset_eq; cbn; rewrite !fset_ne by done|].
  eexists. split; [|].
  - etrans; [exact R1|]. etrans; [exact R2|].
    eapply rtc_step_cpu; [exact E3|]. eapply rtc_step_cpu; [exact E4|].
    eapply rtc_step_cpu; [exact E5|]. eapply rtc_step_cpu; [exact E6|]. apply rtc_refl.
  - apply deadlocked; [exact I6|..]; split; cbn.
    + by rewrite !fset_ne, fset_eq by done.
    + rewrite !fset_eq. cbn. rewrite ?fset_eq. cbn. rewrite !fset_ne, H2 by done. by left.
    + by rewrite fset_eq.
    + rewrite !(fset_ne _ b), fset_eq by done. cbn. rewrite ?fset_eq. cbn. rewrite H1. by left.
Qed.

(** Two CPUs, the first in the timer interrupt and the second in [kill]. *)
Definition two_cpus : machine :=
  MkMachine (fun i => MkThread (MkCpu 0 false false) Idle
      (match i with 0%nat => tick_locks | 1%nat => kill_locks | _ => [] end) [])
    (fun _ => initlock "lock" inhabitant).

Lemma two_cpus_booted : booted two_cpus.
Proof. split; [|done]. intros [|[|i]]; vm_compute; done. Qed.

(** The accesses of the CPUs named, in turn. *)
Fixpoint run_cpus (ks : list nat) (m : machine) : machine :=
  match ks with
  | [] => m
  | i :: r => match cpu_step i m with Ok tt m' => run_cpus r m' | _ => m end
  end.

Lemma run_cpus_steps ks m : rtc mstep m (run_cpus ks m).
Proof.
  revert m. induction ks as [|i r IH]; intros m; cbn; [apply rtc_refl|].
  destruct (cpu_step i m) as [[] m'| | | |] eqn:E; try apply rtc_refl.
  by eapply rtc_step_cpu.
Qed.

Lemma run_cpus_any ks m : rtc any_step m (run_cpus ks m).
Proof. eapply rtc_subrel; [|apply run_cpus_steps]. intros. by apply mstep_any. Qed.

Lemma spinlock_mutual_exclusion_witness :
  let m := run_cpus [0; 1; 0; 1; 0; 1; 0]%nat two_cpus in
  t_held (threads m 0) = [0%nat] /\ t_held (threads m 1) = [1%nat] /\
  c_if (t_cpu (threads m 0)) = false /\ ncli (t_cpu (threads m 0)) = 1 /\ exists m', cpu_step 1 m = Ok tt m'.
Proof.
  intros m.
  destruct (spinlock_mutual_exclusion two_cpus m (booted_powered_on _ two_cpus_booted) (run_cpus_any _ _))
    as (_ & H & N & _ & _ & P).
  destruct (P two_cpus_booted (run_cpus_steps _ _)) as [Q _].
  split_and!; [by vm_compute..| | |apply Q]; [apply H; by vm_compute|rewrite N; by vm_compute].
Defined.

Lemma kill_tick_deadlock_witness :
  exists m1, rtc mstep two_cpus m1 /\ forall m2, rtc mstep m1 m2 ->
    t_pc (threads m2 0) = Spin 1 /\ t_pc (threads m2 1) = Spin 0.
Proof. apply (kill_tick_deadlock two_cpus 0 1 [] [] two_cpus_booted); done. Defined.
