(* ===== verification/Ptable.v ===== *)
(** * The process table (HW3/proc.c, proc.h)

    The table of [struct proc], the process each CPU runs and the position of
    each CPU's scheduler loop, with the sections of proc.c that run under
    [ptable.lock]: each is one routine here, and one step of the process
    table.  A [struct proc *] is an index into the table.

    [p_context] stands for the saved [struct context]: where the process
    continues when the scheduler switches to it.  A CPU between two processes
    is inside [scheduler]; [c_p] is the loop variable there. *)

From stdpp Require Import base numbers list strings.
From Stdlib Require Import ZArith Lia.
From S2P Require Import Prelude CStrings.

Open Scope Z_scope.

Definition NPROC : nat := 64.
Definition NOFILE : nat := 16.

Inductive procstate := UNUSED | EMBRYO | SLEEPING | RUNNABLE | RUNNING | ZOMBIE.

#[export] Instance procstate_eq_dec : EqDecision procstate.
Proof. solve_decision. Defined.

(** Where a process that is not running continues. *)
Inductive context := InForkret | InYield | InSleep | InExit.

#[export] Instance context_eq_dec : EqDecision context.
Proof. solve_decision. Defined.

Record proc := MkProc {
  p_sz : Z; p_pgdir : Z; p_kstack : Z; p_state : procstate; p_pid : Z; p_parent : option nat;
  p_tf : Z; p_context : context; p_chan : option chan; p_killed : Z;
  p_ofile : list (option nat); p_cwd : option nat; p_name : list Z;
  p_ctime : Z; p_ttime : Z; p_stime : Z; p_retime : Z; p_rutime : Z
}.

(** A slot of the zero-filled table. *)
Definition zero_proc : proc :=
  MkProc 0 0 0 UNUSED 0 None 0 InForkret None 0 (replicate NOFILE None) None (replicate 16 0) 0 0 0 0 0.

#[export] Instance proc_inhabited : Inhabited proc := populate zero_proc.

(** One setter per field or group of fields the code writes together. *)
Definition set_state (x : procstate) (p : proc) : proc :=
  MkProc (p_sz p) (p_pgdir p) (p_kstack p) x (p_pid p) (p_parent p) (p_tf p) (p_context p) (p_chan p)
    (p_killed p) (p_ofile p) (p_cwd p) (p_name p) (p_ctime p) (p_ttime p) (p_stime p) (p_retime p) (p_rutime p).
Definition set_pid (x : Z) (p : proc) : proc :=
  MkProc (p_sz p) (p_pgdir p) (p_kstack p) (p_state p) x (p_parent p) (p_tf p) (p_context p) (p_chan p)
    (p_killed p) (p_ofile p) (p_cwd p) (p_name p) (p_ctime p) (p_ttime p) (p_stime p) (p_retime p) (p_rutime p).
Definition set_parent (x : option nat) (p : proc) : proc :=
  MkProc (p_sz p) (p_pgdir p) (p_kstack p) (p_state p) (p_pid p) x (p_tf p) (p_context p) (p_chan p)
    (p_killed p) (p_ofile p) (p_cwd p) (p_name p) (p_ctime p) (p_ttime p) (p_stime p) (p_retime p) (p_rutime p).
Definition set_context (x : context) (p : proc) : proc :=
  MkProc (p_sz p) (p_pgdir p) (p_kstack p) (p_state p) (p_pid p) (p_parent p) (p_tf p) x (p_chan p)
    (p_killed p) (p_ofile p) (p_cwd p) (p_name p) (p_ctime p) (p_ttime p) (p_stime p) (p_retime p) (p_rutime p).
Definition set_chan (x : option chan) (p : proc) : proc :=
  MkProc (p_sz p) (p_pgdir p) (p_kstack p) (p_state p) (p_pid p) (p_parent p) (p_tf p) (p_context p) x
    (p_killed p) (p_ofile p) (p_cwd p) (p_name p) (p_ctime p) (p_ttime p) (p_stime p) (p_retime p) (p_rutime p).
Definition set_killed (x : Z) (p : proc) : proc :=
  MkProc (p_sz p) (p_pgdir p) (p_kstack p) (p_state p) (p_pid p) (p_parent p) (p_tf p) (p_context p) (p_chan p)
    x (p_ofile p) (p_cwd p) (p_name p) (p_ctime p) (p_ttime p) (p_stime p) (p_retime p) (p_rutime p).
Definition set_ttime (x : Z) (p : proc) : proc :=
  MkProc (p_sz p) (p_pgdir p) (p_kstack p) (p_state p) (p_pid p) (p_parent p) (p_tf p) (p_context p) (p_chan p)
    (p_killed p) (p_ofile p) (p_cwd p) (p_name p) (p_ctime p) x (p_stime p) (p_retime p) (p_rutime p).
Definition set_times (c t s re ru : Z) (p : proc) : proc :=
  MkProc (p_sz p) (p_pgdir p) (p_kstack p) (p_state p) (p_pid p) (p_parent p) (p_tf p) (p_context p) (p_chan p)
    (p_killed p) (p_ofile p) (p_cwd p) (p_name p) c t s re ru.

(** The fields that only the process itself, or the process that is creating
    it, reads and writes: memory, files, directory and name. *)
Definition set_own (sz pgdir kstack tf : Z) (files : list (option nat)) (cwd : option nat) (nm : list Z)
    (p : proc) : proc :=
  MkProc sz pgdir kstack (p_state p) (p_pid p) (p_parent p) tf (p_context p) (p_chan p)
    (p_killed p) files cwd nm (p_ctime p) (p_ttime p) (p_stime p) (p_retime p) (p_rutime p).

(** A CPU: the process it runs, and in [scheduler] the loop variable [p] and
    [foundproc]. *)
Record pcpu := MkPcpu { c_proc : option nat; c_p : nat; c_found : bool }.

#[export] Instance pcpu_inhabited : Inhabited pcpu := populate (MkPcpu None 0 true).

Record ptable := MkPtable {
  procs : list proc; cpus : list pcpu; initproc : option nat; nextpid : Z; ticks : Z
}.

Definition set_procs (l : list proc) (s : ptable) : ptable :=
  MkPtable l (cpus s) (initproc s) (nextpid s) (ticks s).
Definition set_cpu (c : nat) (x : pcpu) (s : ptable) : ptable :=
  MkPtable (procs s) (<[c := x]> (cpus s)) (initproc s) (nextpid s) (ticks s).
Definition set_nextpid (n : Z) (s : ptable) : ptable :=
  MkPtable (procs s) (cpus s) (initproc s) n (ticks s).
Definition set_ticks (n : Z) (s : ptable) : ptable :=
  MkPtable (procs s) (cpus s) (initproc s) (nextpid s) n.
Definition set_initproc (i : nat) (s : ptable) : ptable :=
  MkPtable (procs s) (cpus s) (Some i) (nextpid s) (ticks s).

Definition slot (s : ptable) (i : nat) : proc := procs s !!! i.
Definition getp (i : nat) : M ptable proc := reads (fun s => slot s i).
Definition modp (i : nat) (f : proc -> proc) : M ptable unit :=
  modify (fun s => set_procs (<[i := f (slot s i)]> (procs s)) s).

(** ** Creating a process *)

(** [allocproc]: the search for a slot, up to the release of the lock.  An
    overflow of the signed [nextpid] has no defined behaviour. *)
Fixpoint find_unused (ps : list proc) (i : nat) : option nat :=
  match ps with
  | [] => None
  | p :: r => if decide (p_state p = UNUSED) then Some i else find_unused r (S i)
  end.

Definition alloc_slot : M ptable (option nat) :=
  s ← get (S := ptable);
  match find_unused (procs s) 0 with
  | None => mret None
  | Some i =>
      modp i (set_state EMBRYO);;
      let n := nextpid s in
      if n =? 2 ^ 31 - 1 then undef "nextpid overflow" else
      modp i (set_pid n);;
      modify (set_nextpid (n + 1));;
      mret (Some i)
  end.

(** The fields [allocproc] fills in after it has a kernel stack; the context
    starts at [forkret]. *)
Definition alloc_fields (i : nat) (kstack tf : Z) : M ptable unit :=
  modp i (fun p => set_own (p_sz p) (p_pgdir p) kstack tf (p_ofile p) (p_cwd p) (p_name p) p);;
  modp i (set_context InForkret);;
  t ← reads ticks;
  modp i (set_times t 0 0 0 0).

(** ** Sleeping and waking *)

(** [sched]: switch to this CPU's scheduler, which clears [proc].  A section of
    this table runs with [ptable.lock] held and interrupts off, so the checks
    of [holding], of [ncli] and of the interrupt flag have no state to look at
    here and are left out. *)
Definition sched (c me : nat) (at_ : context) : M ptable unit :=
  p ← getp me;
  if decide (p_state p = RUNNING) then panic "sched running" else
  modp me (set_context at_);;
  modify (fun s => set_cpu c (MkPcpu None (c_p (cpus s !!! c)) (c_found (cpus s !!! c))) s).

Definition yield (c me : nat) : M ptable unit :=
  modp me (set_state RUNNABLE);;
  sched c me InYield.

(** [sleep] up to the switch; [resume] is its other half.  There is always a
    process and a lock, so the panics [sleep] and [sleep without lk] are left
    out. *)
Definition sleep (c me : nat) (ch : chan) : M ptable unit :=
  modp me (set_chan (Some ch));;
  modp me (set_state SLEEPING);;
  sched c me InSleep.

(** What a process does first when the scheduler switches to it. *)
Definition resume (me : nat) : M ptable unit :=
  p ← getp me;
  match p_context p with
  | InSleep => modp me (set_chan None)
  | InYield | InForkret => mret tt
  | InExit => panic "zombie exit"
  end.

Definition wake_one (ch : chan) (p : proc) : proc :=
  if decide (p_state p = SLEEPING /\ p_chan p = Some ch) then set_state RUNNABLE p else p.

Definition wakeup1 (ch : chan) : M ptable unit :=
  modify (fun s => set_procs (wake_one ch <$> procs s) s).

Definition wakeup (ch : chan) : M ptable unit := wakeup1 ch.

(** ** Leaving and reaping *)

(** [exit]'s pass over the table: children of [me] go to [init], who is woken
    if one of them is a zombie. *)
Definition adopt (me ini : nat) (i : Z) : M ptable unit :=
  p ← getp (Z.to_nat i);
  when (bool_decide (p_parent p = Some me)) (
    modp (Z.to_nat i) (set_parent (Some ini));;
    when (bool_decide (p_state p = ZOMBIE)) (wakeup1 (ChanProc ini))).

(** [exit] from [acquire(&ptable.lock)] on.  [wakeup1] of a [NULL] parent wakes
    nobody: no process sleeps on [NULL]. *)
Definition exit_section (c me : nat) : M ptable unit :=
  p ← getp me;
  match p_parent p with
  | Some q => wakeup1 (ChanProc q)
  | None => mret tt
  end;;
  s ← get (S := ptable);
  match initproc s with
  | None => undef "no init"
  | Some ini => for_ 0 (Z.of_nat NPROC) (adopt me ini)
  end;;
  t ← reads ticks;
  modp me (set_ttime t);;
  modp me (set_state ZOMBIE);;
  sched c me InExit.

(** [wait]'s scan: a zombie child, or whether there are children at all. *)
Inductive scanned := Zombie (i : nat) | NoZombie (havekids : bool).

Fixpoint wait_scan (me : nat) (ps : list proc) (i : nat) (havekids : bool) : scanned :=
  match ps with
  | [] => NoZombie havekids
  | p :: r =>
      if decide (p_parent p = Some me) then
        if decide (p_state p = ZOMBIE) then Zombie i else wait_scan me r (S i) true
      else wait_scan me r (S i) havekids
  end.

(** Giving the slot of a zombie back; [wait_stat] also clears the times. *)
Definition clear_slot (p : proc) : proc :=
  set_own (p_sz p) (p_pgdir p) 0 (p_tf p) (p_ofile p) (p_cwd p) (<[0%nat := 0]> (p_name p))
    (set_killed 0 (set_parent None (set_pid 0 (set_state UNUSED p)))).

Definition clear_slot_stat (p : proc) : proc := set_times 0 0 0 0 0 (clear_slot p).

Definition kill (pid : Z) : M ptable Z :=
  s ← get (S := ptable);
  match list_find (fun p => p_pid p = pid) (procs s) with
  | None => mret (-1)
  | Some (i, p) =>
      modp i (set_killed 1);;
      modp i (set_ttime (ticks s));;
      when (bool_decide (p_state p = SLEEPING)) (modp i (set_state RUNNABLE));;
      mret 0
  end.

(** ** Time *)

Definition count_tick (p : proc) : proc :=
  if decide (p_state p = RUNNING) then
    set_times (p_ctime p) (p_ttime p) (p_stime p) (p_retime p) (u32 (p_rutime p + 1)) p
  else if decide (p_state p = SLEEPING) then
    set_times (p_ctime p) (p_ttime p) (u32 (p_stime p + 1)) (p_retime p) (p_rutime p) p
  else if decide (p_state p = RUNNABLE) then
    set_times (p_ctime p) (p_ttime p) (p_stime p) (u32 (p_retime p + 1)) (p_rutime p) p
  else p.

Definition update_stat : M ptable unit := modify (fun s => set_procs (count_tick <$> procs s) s).

(** The timer interrupt on CPU 0: [tickslock] is held throughout, so nobody
    sees [ticks] between the increment and [update_stat]. *)
Definition timer_tick : M ptable unit :=
  modify (fun s => set_ticks (u32 (ticks s + 1)) s);;
  update_stat.

(** ** The scheduler *)

(** The body of the [for] loop up to the switch: [first] is declared in the
    body. *)
Definition choose (ps : list proc) (p : nat) : option nat :=
  let first : option nat := None in
  if decide (p_state (ps !!! p) <> RUNNABLE) then None else
  let first :=
    match first with
    | Some f => if p_ctime (ps !!! p) <? p_ctime (ps !!! f) then Some p else Some f
    | None => Some p
    end in
  match first with
  | Some f => Some f
  | None => Some p
  end.

(** The loop from [p] on: the process to switch to and the loop variable when
    the body runs. *)
Fixpoint scan_table (ps : list proc) (k p : nat) : option nat :=
  match k with
  | O => None
  | S k' => match choose ps p with Some f => Some f | None => scan_table ps k' (S p) end
  end.

(** [scheduler], from where the CPU is in the loop to the next switch to a
    process, or to the end of the pass over the table. *)
Definition scheduler (c : nat) : M ptable (option nat) :=
  s ← get (S := ptable);
  let x := cpus s !!! c in
  match scan_table (procs s) (NPROC - c_p x) (c_p x) with
  | Some i =>
      modify (set_cpu c (MkPcpu (Some i) (S i) true));;
      modp i (set_state RUNNING);;
      resume i;;
      mret (Some i)
  | None =>
      modify (set_cpu c (MkPcpu None 0 false));;
      mret None
  end.

(** ** Steps of the process table

    One step per section that holds [ptable.lock], for any CPU and in any
    order, and the writes to fields that nobody else looks at: those of a slot
    in the making and those of the process that runs.  A process publishes its
    child in one step: the parent pointer and the open files of a slot in the
    making are read by nobody before it is [RUNNABLE]. *)

Definition runs (s : ptable) (c me : nat) : Prop :=
  exists x, cpus s !! c = Some x /\ c_proc x = Some me.

Inductive pevent := Pick (c : nat) (r : option nat) | Timer | Other.

Inductive pstep (s : ptable) : pevent -> ptable -> Prop :=
| st_alloc c me i s' : runs s c me -> alloc_slot s = Ok (Some i) s' -> pstep s Other s'
| st_fields i kstack tf s' :
    p_state (slot s i) = EMBRYO -> alloc_fields i kstack tf s = Ok tt s' -> pstep s Other s'
| st_embryo i sz pgdir kstack tf nm s' :
    p_state (slot s i) = EMBRYO ->
    modp i (fun p => set_own sz pgdir kstack tf (p_ofile p) (p_cwd p) nm p) s = Ok tt s' -> pstep s Other s'
| st_undo i kstack s' :
    p_state (slot s i) = EMBRYO ->
    modp i (fun p => set_own (p_sz p) (p_pgdir p) kstack (p_tf p) (p_ofile p) (p_cwd p) (p_name p)
      (set_state UNUSED p)) s = Ok tt s' ->
    pstep s Other s'
| st_publish c me i sz pgdir kstack tf files cwd nm s' :
    runs s c me -> p_state (slot s i) = EMBRYO -> p_context (slot s i) = InForkret -> length files = NOFILE ->
    modp i (fun p => set_state RUNNABLE (set_parent (Some me) (set_own sz pgdir kstack tf files cwd nm p))) s
      = Ok tt s' ->
    pstep s Other s'
| st_own c me sz pgdir kstack tf files cwd nm s' :
    runs s c me -> length files = NOFILE -> modp me (set_own sz pgdir kstack tf files cwd nm) s = Ok tt s' -> pstep s Other s'
| st_fault c me s' : runs s c me -> modp me (set_killed 1) s = Ok tt s' -> pstep s Other s'
| st_exit c me s' :
    runs s c me -> initproc s <> Some me ->
    p_ofile (slot s me) = replicate NOFILE None -> p_cwd (slot s me) = None ->
    exit_section c me s = Ok tt s' -> pstep s Other s'
| st_reap c me i f s' :
    runs s c me -> wait_scan me (procs s) 0 false = Zombie i -> f = clear_slot \/ f = clear_slot_stat ->
    modp i f s = Ok tt s' -> pstep s Other s'
| st_wait c me s' :
    runs s c me -> wait_scan me (procs s) 0 false = NoZombie true -> p_killed (slot s me) = 0 ->
    sleep c me (ChanProc me) s = Ok tt s' -> pstep s Other s'
| st_sleep c me ch s' :
    runs s c me -> (forall q, ch <> ChanProc q) -> sleep c me ch s = Ok tt s' -> pstep s Other s'
| st_yield c me s' : runs s c me -> yield c me s = Ok tt s' -> pstep s Other s'
| st_wakeup ch s' : wakeup ch s = Ok tt s' -> pstep s Other s'
| st_kill pid r s' : kill pid s = Ok r s' -> pstep s Other s'
| st_timer s' : timer_tick s = Ok tt s' -> pstep s Timer s'
| st_sched c x r s' :
    cpus s !! c = Some x -> c_proc x = None -> scheduler c s = Ok r s' -> pstep s (Pick c r) s'.

(** The run of a list of steps. *)
Inductive prun (s : ptable) : list pevent -> ptable -> Prop :=
| run_nil : prun s [] s
| run_cons e s1 es s2 : pstep s e s1 -> prun s1 es s2 -> prun s (e :: es) s2.

(** The table when [userinit] has made the first process: it is [RUNNABLE] in
    slot 0, and no CPU runs a process. *)
Record first_process (s : ptable) : Prop := {
  fp_len : length (procs s) = NPROC;
  fp_init : initproc s = Some 0%nat;
  fp_pid : 0 < p_pid (slot s 0) < nextpid s /\ nextpid s <= 2 ^ 31 - 1;
  fp_state : p_state (slot s 0) = RUNNABLE;
  fp_fields : p_parent (slot s 0) = None /\ p_chan (slot s 0) = None /\ p_context (slot s 0) = InForkret;
  fp_files : length (p_ofile (slot s 0)) = NOFILE;
  fp_rest : forall i, i <> 0%nat -> slot s i = zero_proc;
  fp_cpus : forall c x, cpus s !! c = Some x -> c_proc x = None
}.
