(* ===== verification/PtableInv.v ===== *)
(** * The process table keeps its shape

    The invariant of the process table, kept by every step, and what follows
    from it: process ids are unique, a process runs on at most one CPU, the
    parent of a process is a process that can still wait for it, a slot that
    is not in use has no open files, and nobody sleeps in [wait] while a child
    of theirs is a zombie. *)

From stdpp Require Import base numbers list strings.
From Stdlib Require Import ZArith Lia.
From S2P Require Import Prelude CStrings Ptable.

Open Scope Z_scope.

(** ** Slots *)

Lemma slot_out s i : (length (procs s) <= i)%nat -> slot s i = zero_proc.
Proof. intros H. unfold slot. rewrite list_lookup_total_alt, lookup_ge_None_2 by done. done. Qed.

Lemma live_lt s i : p_state (slot s i) <> UNUSED -> (i < length (procs s))%nat.
Proof.
  intros H. destruct (decide (i < length (procs s))%nat); [done|].
  rewrite slot_out in H by lia. done.
Qed.

Lemma slot_insert_eq s i p : (i < length (procs s))%nat -> slot (set_procs (<[i := p]> (procs s)) s) i = p.
Proof. intros H. unfold slot. cbn. by rewrite list_lookup_total_insert_eq. Qed.

Lemma slot_insert_ne s i p j : j <> i -> slot (set_procs (<[i := p]> (procs s)) s) j = slot s j.
Proof. intros H. unfold slot. cbn. by rewrite list_lookup_total_insert_ne. Qed.

Lemma slot_map s f j :
  f zero_proc = zero_proc -> slot (set_procs (f <$> procs s) s) j = f (slot s j).
Proof.
  intros Hf. unfold slot. cbn. rewrite !list_lookup_total_alt, list_lookup_fmap.
  by destruct (procs s !! j).
Qed.

(** A step that rewrites slot [i]. *)
Definition replaced (s s' : ptable) (i : nat) (p : proc) : Prop :=
  length (procs s') = length (procs s) /\ slot s' i = p /\ forall j, j <> i -> slot s' j = slot s j.

Lemma modp_replaced i f s :
  (i < length (procs s))%nat ->
  let s' := set_procs (<[i := f (slot s i)]> (procs s)) s in
  modp i f s = Ok tt s' /\ replaced s s' i (f (slot s i)).
Proof.
  intros Hi s'. split; [done|]. split; [cbn; by rewrite length_insert|].
  split; [by apply slot_insert_eq|]. intros j Hj. by apply slot_insert_ne.
Qed.

(** ** The invariant *)

Definition active (p : proc) : Prop :=
  p_state p = SLEEPING \/ p_state p = RUNNABLE \/ p_state p = RUNNING.

Definition idle (p : proc) : Prop := p_state p = UNUSED \/ p_state p = EMBRYO.

(** Asleep in [wait] or [wait_stat]. *)
Definition in_wait (i : nat) (p : proc) : Prop :=
  p_state p = SLEEPING /\ p_chan p = Some (ChanProc i).

(** What holds of a slot by itself. *)
Record slot_ok (p : proc) : Prop := {
  so_asleep : p_state p = SLEEPING -> is_Some (p_chan p);
  so_chan : is_Some (p_chan p) ->
    (p_state p = SLEEPING \/ p_state p = RUNNABLE) /\ p_context p = InSleep;
  so_context : active p -> p_context p <> InExit;
  so_parent : idle p -> p_parent p = None;
  so_files : ~ active p -> p_ofile p = replicate NOFILE None /\ p_cwd p = None;
  so_len : length (p_ofile p) = NOFILE
}.

Record pt_ok (s : ptable) : Prop := {
  pt_len : length (procs s) = NPROC;
  pt_slot : forall i, slot_ok (slot s i);
  pt_pid : forall i, p_state (slot s i) <> UNUSED -> 0 < p_pid (slot s i) < nextpid s;
  pt_next : 0 < nextpid s <= 2 ^ 31 - 1;
  pt_unique : forall i j, p_state (slot s i) <> UNUSED -> p_state (slot s j) <> UNUSED ->
    p_pid (slot s i) = p_pid (slot s j) -> i = j;
  pt_runs : forall c i, runs s c i -> p_state (slot s i) = RUNNING;
  pt_running : forall i, p_state (slot s i) = RUNNING -> exists c, runs s c i;
  pt_one_cpu : forall c d i, runs s c i -> runs s d i -> c = d;
  pt_init : exists z, initproc s = Some z /\ active (slot s z) /\ p_parent (slot s z) = None;
  pt_parent : forall i, ~ idle (slot s i) -> initproc s <> Some i ->
    exists q, p_parent (slot s i) = Some q /\ active (slot s q) /\ q <> i;
  pt_wait : forall i j, in_wait i (slot s i) -> p_parent (slot s j) = Some i ->
    p_state (slot s j) <> ZOMBIE
}.

Lemma zero_ok : slot_ok zero_proc.
Proof. split; cbn; done. Qed.

Lemma runs_fun s c i j : runs s c i -> runs s c j -> i = j.
Proof. intros (x & E & H) (y & E' & H'). congruence. Qed.

Lemma first_process_ok s : first_process s -> pt_ok s.
Proof.
  intros [Hl Hi Hp Hs (Hpa & Hc & Hx) Hfl Hr Hcp].
  assert (H0 : forall i, i <> 0%nat -> p_state (slot s i) = UNUSED) by (intros i Hi'; by rewrite Hr).
  assert (Hn : forall c i, ~ runs s c i) by (intros c i (x & Ex & Ec); rewrite (Hcp c x Ex) in Ec; done).
  split; try done.
  - intros i. destruct (decide (i = 0%nat)) as [->|]; [|rewrite Hr by done; apply zero_ok].
    split; rewrite ?Hs, ?Hc, ?Hpa, ?Hx; try done.
    intros Ha. exfalso. apply Ha. right. by left.
  - intros i Hi'. destruct (decide (i = 0%nat)) as [->|]; [apply Hp|]. by rewrite H0 in Hi' by done.
  - lia.
  - intros i j Hi' Hj'. destruct (decide (i = 0%nat)) as [->|]; [|by rewrite H0 in Hi' by done].
    destruct (decide (j = 0%nat)) as [->|]; [done|]. by rewrite H0 in Hj' by done.
  - intros c i Hru. by destruct (Hn c i).
  - intros i Hru. destruct (decide (i = 0%nat)) as [->|]; [congruence|]. by rewrite H0 in Hru by done.
  - intros c d i Hru. by destruct (Hn c i).
  - exists 0%nat. split_and!; try done. right. by left.
  - intros i Hi' Hne. destruct (decide (i = 0%nat)) as [->|]; [done|].
    destruct Hi'. left. by apply H0.
  - intros i j [Hsl _] _. destruct (decide (i = 0%nat)) as [->|]; [congruence|]. by rewrite H0 in Hsl by done.
Qed.

(** ** Two kinds of change *)

(** A slot left as it was, but for the kill flag and the times, or woken. *)
Definition calm (p p' : proc) : Prop :=
  p_pid p' = p_pid p /\ p_parent p' = p_parent p /\ p_chan p' = p_chan p /\ p_context p' = p_context p /\
  p_ofile p' = p_ofile p /\ p_cwd p' = p_cwd p /\
  (p_state p' = p_state p \/ (p_state p = SLEEPING /\ p_state p' = RUNNABLE)).

Lemma calm_refl p : calm p p.
Proof. unfold calm. auto 10. Qed.

Lemma calm_active p p' : calm p p' -> active p' <-> active p.
Proof. unfold calm, active. intuition congruence. Qed.

Lemma calm_idle p p' : calm p p' -> idle p' <-> idle p.
Proof. unfold calm, idle. intuition congruence. Qed.

Lemma calm_state p p' x : calm p p' -> x <> SLEEPING -> x <> RUNNABLE -> p_state p' = x <-> p_state p = x.
Proof. unfold calm. intuition congruence. Qed.

Lemma calm_ok p p' : calm p p' -> slot_ok p -> slot_ok p'.
Proof.
  intros Hc [H1 H2 H3 H4 H5 H6]. pose proof (calm_active _ _ Hc) as Ha. pose proof (calm_idle _ _ Hc) as Hi.
  destruct Hc as (E1 & E2 & E3 & E4 & E5 & E6 & E7).
  split; rewrite ?Ha, ?Hi, ?E2, ?E3, ?E4, ?E5, ?E6; try done.
  - intros Hs. apply H1. destruct E7 as [|[]]; congruence.
  - intros Hs. destruct (H2 Hs) as [[Hx|Hx] ?]; split; try done; destruct E7 as [|[]]; intuition congruence.
Qed.

Lemma runs_same s s' c i : cpus s' = cpus s -> runs s' c i <-> runs s c i.
Proof. intros E. unfold runs. by rewrite E. Qed.

Lemma ok_calm s s' :
  pt_ok s -> length (procs s') = length (procs s) -> cpus s' = cpus s -> initproc s' = initproc s ->
  nextpid s' = nextpid s -> (forall j, calm (slot s j) (slot s' j)) -> pt_ok s'.
Proof.
  intros [H1 H2 H3 H4 H5 H6 H7 H8 H9 H10 H11] Hl Hc Hi Hn Hq.
  pose proof (fun j => calm_active _ _ (Hq j)) as Ha. pose proof (fun j => calm_idle _ _ (Hq j)) as Hid.
  pose proof (fun j x => calm_state _ _ x (Hq j)) as Hst.
  pose proof (fun j => Hq j) as Hf.
  assert (Hp : forall j, p_parent (slot s' j) = p_parent (slot s j)) by (intros j; apply Hq).
  assert (Hpid : forall j, p_pid (slot s' j) = p_pid (slot s j)) by (intros j; apply Hq).
  split; rewrite ?Hl, ?Hi, ?Hn; try done.
  - intros j. by apply (calm_ok (slot s j)).
  - intros j. rewrite Hpid, (Hst j UNUSED) by done. apply H3.
  - intros i j. rewrite !Hpid, !(Hst _ UNUSED) by done. apply H5.
  - intros c i. rewrite (runs_same s s' c i Hc), (Hst i RUNNING) by done. apply H6.
  - intros i. rewrite (Hst i RUNNING) by done. intros Hx. destruct (H7 i Hx) as [c ?].
    exists c. by rewrite (runs_same s s' c i Hc).
  - intros c d i. rewrite !(runs_same s s' _ i Hc). apply H8.
  - destruct H9 as (z & ? & ? & ?). exists z. by rewrite Ha, Hp.
  - intros i. rewrite Hid, Hp. intros Hx Hy. destruct (H10 i Hx Hy) as (q & ? & ? & ?).
    exists q. by rewrite Ha.
  - intros i j [Hs Hch]. rewrite Hp, (Hst j ZOMBIE) by done. apply H11.
    destruct (Hq i) as (_ & _ & E & _ & _ & _ & Es). split; [|congruence].
    destruct Es as [|[]]; congruence.
Qed.

(** One slot rewritten, the CPUs that run other processes left alone. *)
Lemma ok_replace s s' i p :
  pt_ok s -> replaced s s' i p -> initproc s' = initproc s ->
  nextpid s <= nextpid s' <= 2 ^ 31 - 1 ->
  slot_ok p ->
  (p_state p <> UNUSED ->
     0 < p_pid p < nextpid s' /\ ((p_pid p = p_pid (slot s i) /\ p_state (slot s i) <> UNUSED) \/ nextpid s <= p_pid p)) ->
  (forall c j, j <> i -> runs s' c j <-> runs s c j) ->
  (p_state p = RUNNING <-> exists c, runs s' c i) -> (forall c d, runs s' c i -> runs s' d i -> c = d) ->
  (active (slot s i) -> active p \/ (initproc s <> Some i /\ forall j, p_parent (slot s j) <> Some i)) ->
  (p_parent p = p_parent (slot s i) \/ initproc s <> Some i) ->
  (~ idle p -> initproc s <> Some i -> exists q, p_parent p = Some q /\ active (slot s q) /\ q <> i) ->
  (in_wait i p -> forall j, p_parent (slot s j) = Some i -> p_state (slot s j) <> ZOMBIE) ->
  (p_state p = ZOMBIE -> forall q, p_parent p = Some q -> ~ in_wait q (slot s q)) ->
  (forall j, p_parent p = Some j -> j <> i) ->
  pt_ok s'.
Proof.
  intros [H1 H2 H3 H4 H5 H6 H7 H8 H9 H10 H11] (Rl & Re & Rn) Hi Hn Hok Hpid Hru Hrun Hone Hact Hpi Hpar Hw Hz Hself.
  assert (Hcase : forall P : nat -> proc -> Prop, P i p -> (forall j, j <> i -> P j (slot s j)) -> forall j, P j (slot s' j)).
  { intros P Pi Pn j. destruct (decide (j = i)) as [->|]; [by rewrite Re|rewrite Rn by done; by apply Pn]. }
  assert (Hac : forall j k, p_parent (slot s k) = Some j \/ initproc s = Some j -> active (slot s j) -> active (slot s' j)).
  { intros j k Hk. destruct (decide (j = i)) as [->|]; [rewrite Re|by rewrite Rn].
    intros Ha. destruct (Hact Ha) as [|[Ho Hn']]; [done|]. destruct Hk as [Hk|Hk]; [by destruct (Hn' k)|done]. }
  split; rewrite ?Hi; try lia.
  - apply (Hcase (fun _ => slot_ok)); auto.
  - apply (Hcase (fun _ p => p_state p <> UNUSED -> 0 < p_pid p < nextpid s')).
    + intros Hp. by apply Hpid.
    + intros j Hj Hs. specialize (H3 j Hs). lia.
  - intros j k Hj Hk E. destruct (decide (j = i)) as [->|], (decide (k = i)) as [->|]; rewrite ?Re, ?Rn in * by done; try done.
    + destruct (Hpid Hj) as [_ [[E' ?]|Hb]]; [apply H5; congruence|]. specialize (H3 k Hk). lia.
    + destruct (Hpid Hk) as [_ [[E' ?]|Hb]]; [apply H5; congruence|]. specialize (H3 j Hj). lia.
    + by apply H5.
  - intros c j Hr. destruct (decide (j = i)) as [->|]; [rewrite Re; apply Hrun; by exists c|].
    rewrite Rn by done. apply (H6 c). by apply Hru.
  - intros j. destruct (decide (j = i)) as [->|]; [rewrite Re; apply Hrun|]. rewrite Rn by done.
    intros Hr. destruct (H7 j Hr) as [c Hc]. exists c. by apply Hru.
  - intros c d j Hc Hd. destruct (decide (j = i)) as [->|]; [by apply Hone|].
    apply Hru in Hc, Hd; try done. by apply (H8 c d j).
  - destruct H9 as (z & Ez & Ha & Hp). exists z. split_and!; [done|by apply (Hac z z); auto|].
    destruct (decide (z = i)) as [->|]; [rewrite Re; destruct Hpi; congruence|by rewrite Rn].
  - apply (Hcase (fun j p => ~ idle p -> initproc s <> Some j -> exists q, p_parent p = Some q /\ active (slot s' q) /\ q <> j)).
    + intros Hp Ho. destruct (Hpar Hp Ho) as (q & Eq & Ha & Hne). exists q. by rewrite Rn by done.
    + intros j Hj Hp Ho. destruct (H10 j Hp Ho) as (q & Eq & Ha & Hne). exists q. split_and!; try done.
      apply (Hac q j); auto.
  - intros k j. destruct (decide (k = i)) as [->|].
    + rewrite Re. intros Hik. destruct (decide (j = i)) as [->|]; rewrite ?Re, ?Rn by done; [|by apply Hw].
      intros Hp. by destruct (Hself i Hp).
    + rewrite (Rn k) by done. intros Hik. destruct (decide (j = i)) as [->|]; rewrite ?Re, ?Rn by done; [|by apply H11].
      intros Hp Hzz. by apply (Hz Hzz k Hp).
Qed.

(** ** The steps, one slot at a time *)

Definition same_env (s s' : ptable) : Prop :=
  cpus s' = cpus s /\ initproc s' = initproc s /\ nextpid s' = nextpid s /\ ticks s' = ticks s.

Lemma same_env_trans s s1 s2 : same_env s s1 -> same_env s1 s2 -> same_env s s2.
Proof. unfold same_env. intuition congruence. Qed.

Lemma replaced_trans s s1 s2 i p p' : replaced s s1 i p -> replaced s1 s2 i p' -> replaced s s2 i p'.
Proof.
  intros (L1 & E1 & N1) (L2 & E2 & N2). split_and!; [lia|done|].
  intros j Hj. by rewrite N2, N1.
Qed.

Lemma modp_inv i f s a s' :
  modp i f s = Ok a s' -> (i < length (procs s))%nat ->
  replaced s s' i (f (slot s i)) /\ same_env s s'.
Proof.
  intros E Hi. destruct (modp_replaced i f s Hi) as [E' R]. rewrite E in E'. injection E' as _ ->.
  split; [done|]. done.
Qed.

(** Two writes to the same slot. *)
Lemma modp_again i f s a s1 p s0 :
  replaced s0 s i p /\ same_env s0 s -> modp i f s = Ok a s1 -> (i < length (procs s0))%nat ->
  replaced s0 s1 i (f p) /\ same_env s0 s1.
Proof.
  intros [R S] E Hi. destruct (modp_inv i f s a s1 E) as [R1 S1].
  { destruct R as [-> _]. done. }
  destruct R as (L & <- & N). split; [by eapply replaced_trans|by eapply same_env_trans].
Qed.

Lemma find_unused_Some ps k i :
  find_unused ps k = Some i -> exists n p, i = (k + n)%nat /\ ps !! n = Some p /\ p_state p = UNUSED.
Proof.
  revert k. induction ps as [|p r IH]; intros k; cbn; [done|]. case_decide as H.
  - intros [= <-]. exists 0%nat, p. split_and!; [lia|done|done].
  - intros E. destruct (IH _ E) as (n & q & -> & ? & ?). exists (S n), q. split_and!; [lia|done|done].
Qed.

Lemma alloc_slot_inv s i s' :
  alloc_slot s = Ok (Some i) s' ->
  (i < length (procs s))%nat /\ p_state (slot s i) = UNUSED /\ nextpid s <> 2 ^ 31 - 1 /\
  replaced s s' i (set_pid (nextpid s) (set_state EMBRYO (slot s i))) /\
  cpus s' = cpus s /\ initproc s' = initproc s /\ nextpid s' = nextpid s + 1 /\ ticks s' = ticks s.
Proof.
  unfold alloc_slot, get. unfold mbind at 1, M_bind at 1.
  destruct (find_unused (procs s) 0) as [k|] eqn:F; [|done].
  destruct (find_unused_Some _ _ _ F) as (n & p & -> & Hp & Hs). cbn [Nat.add].
  intros E. minv E. destruct (Z.eqb_spec (nextpid s) (2 ^ 31 - 1)) as [|Hn]; [done|].
  minv E. minv E. injection E as <- <-. cbn in *. injection Hrun1 as _ <-.
  pose proof (lookup_lt_Some _ _ _ Hp) as Hi.
  destruct (modp_again n _ _ _ _ _ _ (modp_inv _ _ _ _ _ Hrun Hi) Hrun0 Hi) as [R S].
  destruct S as (? & ? & ? & ?). split_and!; try done.
  unfold slot. by rewrite (list_lookup_total_correct _ _ _ Hp).
Qed.

(** A slot rewritten without a change of what the CPUs run. *)
Lemma ok_edit s s' i p :
  pt_ok s -> replaced s s' i p -> cpus s' = cpus s -> initproc s' = initproc s ->
  nextpid s <= nextpid s' <= 2 ^ 31 - 1 ->
  slot_ok p -> (p_state p = RUNNING <-> p_state (slot s i) = RUNNING) ->
  (p_state p <> UNUSED ->
     0 < p_pid p < nextpid s' /\ ((p_pid p = p_pid (slot s i) /\ p_state (slot s i) <> UNUSED) \/ nextpid s <= p_pid p)) ->
  (active (slot s i) -> active p) ->
  (p_parent p = p_parent (slot s i) \/ initproc s <> Some i) ->
  (~ idle p -> initproc s <> Some i -> exists q, p_parent p = Some q /\ active (slot s q) /\ q <> i) ->
  (in_wait i p -> in_wait i (slot s i)) ->
  (p_state p = ZOMBIE -> forall q, p_parent p = Some q -> ~ in_wait q (slot s q)) ->
  pt_ok s'.
Proof.
  intros I R Hc Hi Hn Hok Hr Hpid Hact Hpi Hpar Hw Hz.
  pose proof (fun c j => runs_same s s' c j Hc) as Hru.
  eapply (ok_replace s s' i p); try done.
  - rewrite Hr. split.
    + intros Hx. destruct (pt_running s I i Hx) as [c Hx']. exists c. by apply Hru.
    + intros [c Hx]. apply (pt_runs s I c). by apply Hru.
  - intros c d. rewrite !Hru. apply (pt_one_cpu s I).
  - intros Ha. left. auto.
  - intros Hx j. apply (pt_wait s I). auto.
  - intros j Ej ->. destruct (decide (initproc s = Some i)) as [Ez|Ez].
    + destruct (pt_init s I) as (z & Ez' & _ & Hz'). assert (z = i) as -> by congruence.
      destruct Hpi; congruence.
    + destruct (decide (idle p)) as [Hd|Hd].
      * rewrite (so_parent _ Hok Hd) in Ej. done.
      * destruct (Hpar Hd Ez) as (q & Eq & _ & Hq). congruence.
Qed.

Lemma ini_active s i : pt_ok s -> initproc s = Some i -> active (slot s i) /\ p_parent (slot s i) = None.
Proof. intros I E. destruct (pt_init s I) as (z & Ez & ?). by assert (z = i) as -> by congruence. Qed.

Lemma idle_not_init s i : pt_ok s -> ~ active (slot s i) -> initproc s <> Some i.
Proof. intros I Ha E. by apply Ha, (ini_active s i). Qed.

Lemma embryo_lt s i : p_state (slot s i) = EMBRYO -> (i < length (procs s))%nat.
Proof. intros E. apply live_lt. congruence. Qed.

Lemma not_active_idle p : idle p -> ~ active p.
Proof. unfold idle, active. intuition congruence. Qed.

(** A slot in the making, edited or given up. *)
Lemma ok_embryo s s' i p :
  pt_ok s -> p_state (slot s i) = EMBRYO -> replaced s s' i p /\ same_env s s' ->
  idle p -> p_pid p = p_pid (slot s i) -> p_parent p = p_parent (slot s i) -> p_chan p = p_chan (slot s i) ->
  p_ofile p = p_ofile (slot s i) -> p_cwd p = p_cwd (slot s i) -> pt_ok s'.
Proof.
  intros I E [R (Hc & Hi & Hn & _)] Hid Hp Hpa Hch Ho Hcw.
  assert (Hie : idle (slot s i)) by (by right).
  destruct (pt_slot s I i) as [O1 O2 O3 O4 O5 O6].
  pose proof (pt_next s I). pose proof (pt_pid s I i ltac:(congruence)).
  pose proof (not_active_idle p Hid) as Hna.
  assert (Hcn : p_chan (slot s i) = None).
  { destruct (p_chan (slot s i)) eqn:Ec; [|done]. destruct O2 as [[|] _]; [done|congruence..]. }
  eapply (ok_edit s s' i p); try done; rewrite ?Hn; try lia.
  - split; rewrite ?Hch, ?Hcn, ?Hpa, ?Ho, ?Hcw; try done.
    + intros Hs. by destruct Hna; left.
    + intros _. by apply O4.
    + intros _. apply O5. by apply not_active_idle.
  - split; [|congruence]. intros Hr. destruct Hid; congruence.
  - intros _. rewrite Hp. split; [done|]. left. split; congruence.
  - intros Ha. by destruct (not_active_idle (slot s i)).
  - by left.
  - intros [Hs _]. destruct Hid; congruence.
  - intros Hz. destruct Hid; congruence.
Qed.

Lemma step_alloc s i s' : pt_ok s -> alloc_slot s = Ok (Some i) s' -> pt_ok s'.
Proof.
  intros I E. apply alloc_slot_inv in E as (Hi & Hu & Hn & R & Hc & Hini & Hnp & _).
  destruct (pt_slot s I i) as [O1 O2 O3 O4 O5 O6]. pose proof (pt_next s I).
  assert (Hidle : idle (slot s i)) by (by left).
  eapply (ok_edit s s' i _ I R); try done; cbn; rewrite ?Hnp; try lia.
  - split; cbn; try done.
    + intros Hch. destruct (O2 Hch) as [[|] _]; congruence.
    + intros [|[|]]; done.
    + intros _. by apply O4.
    + intros _. apply O5. by apply not_active_idle.
  - split; [done|congruence].
  - intros Ha. by destruct (not_active_idle (slot s i)).
  - by left.
  - intros Hx. destruct Hx. by right.
  - by intros [? _].
Qed.

Lemma fields_inv s i kstack tf s' :
  alloc_fields i kstack tf s = Ok tt s' -> (i < length (procs s))%nat ->
  replaced s s' i (set_times (ticks s) 0 0 0 0 (set_context InForkret
    (set_own (p_sz (slot s i)) (p_pgdir (slot s i)) kstack tf (p_ofile (slot s i)) (p_cwd (slot s i))
      (p_name (slot s i)) (slot s i)))) /\ same_env s s'.
Proof.
  unfold alloc_fields. intros H Hi. minv H. minv H. minv H. injection Hrun1 as <- <-.
  pose proof (modp_again _ _ _ _ _ _ _ (modp_inv _ _ _ _ _ Hrun Hi) Hrun0 Hi) as R1.
  pose proof (modp_again _ _ _ _ _ _ _ R1 H Hi) as R2. destruct R1 as [_ (_ & _ & _ & Ht)].
  by rewrite Ht in R2.
Qed.

Lemma step_fields s i kstack tf s' :
  pt_ok s -> p_state (slot s i) = EMBRYO -> alloc_fields i kstack tf s = Ok tt s' -> pt_ok s'.
Proof.
  intros I E H. eapply (ok_embryo s s' i _ I E (fields_inv _ _ _ _ _ H (embryo_lt s i E))); try done. by right.
Qed.

Lemma runs_running s c me : pt_ok s -> runs s c me -> p_state (slot s me) = RUNNING /\ (me < length (procs s))%nat.
Proof.
  intros I H. pose proof (pt_runs s I c me H) as E. split; [done|]. apply live_lt. congruence.
Qed.

Lemma step_publish s s' c me i sz pgdir kstack tf files cwd nm :
  pt_ok s -> runs s c me -> p_state (slot s i) = EMBRYO -> p_context (slot s i) = InForkret -> length files = NOFILE ->
  modp i (fun p => set_state RUNNABLE (set_parent (Some me) (set_own sz pgdir kstack tf files cwd nm p))) s = Ok tt s' ->
  pt_ok s'.
Proof.
  intros I Hr E Ectx Hfl H. pose proof (embryo_lt s i E) as Hi.
  destruct (runs_running s c me I Hr) as [Hme _].
  destruct (modp_inv _ _ _ _ _ H Hi) as [R (Hc & Hini & Hn & _)].
  destruct (pt_slot s I i) as [O1 O2 O3 O4 O5 O6]. pose proof (pt_next s I).
  assert (Hcn : p_chan (slot s i) = None).
  { destruct (p_chan (slot s i)) eqn:Ec; [|done]. destruct O2 as [[|] _]; [done|congruence..]. }
  assert (Hna : ~ active (slot s i)) by (apply not_active_idle; by right).
  eapply (ok_edit s s' i _ I R); try done; cbn; rewrite ?Hn; try lia.
  - split; cbn; rewrite ?Hcn; try done.
    + by rewrite Ectx.
    + by intros [|].
    + intros Hx. destruct Hx. right. by left.
  - split; [done|congruence].
  - intros _. pose proof (pt_pid s I i ltac:(congruence)). split; [done|]. left. split; congruence.
  - right. by apply idle_not_init.
  - intros _ _. exists me. split_and!; [done|by right; right|congruence].
  - by intros [? _].
Qed.

(** The running process writes its own fields, or is marked killed. *)
Lemma step_self s s' c me p :
  pt_ok s -> runs s c me -> replaced s s' me p /\ same_env s s' ->
  p_state p = p_state (slot s me) -> p_pid p = p_pid (slot s me) -> p_parent p = p_parent (slot s me) ->
  p_chan p = p_chan (slot s me) -> p_context p = p_context (slot s me) -> length (p_ofile p) = NOFILE -> pt_ok s'.
Proof.
  intros I Hr [R (Hc & Hi & Hn & _)] Es Ep Epa Ech Ectx Hfl.
  destruct (runs_running s c me I Hr) as [Hme _].
  destruct (pt_slot s I me) as [O1 O2 O3 O4 O5 O6]. pose proof (pt_next s I).
  assert (Ha : active p) by (right; right; congruence).
  assert (Ha' : active (slot s me)) by (by right; right).
  eapply (ok_edit s s' me p I R); try done; rewrite ?Es, ?Hn; try lia; try done.
  - split; rewrite ?Es, ?Ech, ?Ectx, ?Epa; try done.
    + intros _. by apply O3.
    + intros Hd. by destruct (not_active_idle p).
  - intros Hu. rewrite Ep. pose proof (pt_pid s I me Hu). auto.
  - by left.
  - intros Hd Hne. rewrite Epa. apply (pt_parent s I me); [|done].
    intros Hx. by destruct (not_active_idle (slot s me)).
  - intros [Hs _]. congruence.
  - congruence.
Qed.

(** ** Leaving the CPU *)

Lemma runs_leave s s' c me x :
  pt_ok s -> runs s c me -> cpus s' = <[c := x]> (cpus s) -> c_proc x = None ->
  (forall d j, j <> me -> runs s' d j <-> runs s d j) /\ (forall d, ~ runs s' d me).
Proof.
  intros I Hr Hc Hx. unfold runs. rewrite Hc. split.
  - intros d j Hj. destruct (decide (d = c)) as [->|Hd]; [|by rewrite list_lookup_insert_ne].
    destruct Hr as (y & Ey & Hy). pose proof (lookup_lt_Some _ _ _ Ey).
    rewrite list_lookup_insert_eq by done. split; intros (z & Ez & Hz); [|congruence].
    injection Ez as <-. congruence.
  - intros d (z & Ez & Hz). destruct (decide (d = c)) as [->|Hd].
    + destruct Hr as (y & Ey & Hy). pose proof (lookup_lt_Some _ _ _ Ey).
      rewrite list_lookup_insert_eq in Ez by done. congruence.
    + rewrite list_lookup_insert_ne in Ez by done.
      destruct Hd. apply (pt_one_cpu s I d c me); [by exists z|done].
Qed.

Lemma sched_inv c me ctx s s' :
  sched c me ctx s = Ok tt s' -> (me < length (procs s))%nat ->
  replaced s s' me (set_context ctx (slot s me)) /\
  initproc s' = initproc s /\ nextpid s' = nextpid s /\ ticks s' = ticks s /\
  cpus s' = <[c := MkPcpu None (c_p (cpus s !!! c)) (c_found (cpus s !!! c))]> (cpus s).
Proof.
  unfold sched. intros H Hi. minv H. injection Hrun as <- <-. case_decide; [done|].
  minv H. destruct (modp_inv _ _ _ _ _ Hrun Hi) as [R (Hc & Hini & Hn & Ht)].
  injection H as <-. cbn. rewrite Hc. split_and!; try done.
Qed.

Lemma ok_leave s s' c me p x :
  pt_ok s -> runs s c me -> replaced s s' me p -> cpus s' = <[c := x]> (cpus s) -> c_proc x = None ->
  initproc s' = initproc s -> nextpid s' = nextpid s ->
  p_pid p = p_pid (slot s me) -> p_parent p = p_parent (slot s me) -> slot_ok p ->
  p_state p <> RUNNING -> ~ idle p ->
  (active p \/ (initproc s <> Some me /\ forall j, p_parent (slot s j) <> Some me)) ->
  (in_wait me p -> forall j, p_parent (slot s j) = Some me -> p_state (slot s j) <> ZOMBIE) ->
  (p_state p = ZOMBIE -> forall q, p_parent p = Some q -> ~ in_wait q (slot s q)) ->
  pt_ok s'.
Proof.
  intros I Hr R Hc Hx Hi Hn Ep Epa Hok Hnr Hni Hact Hw Hz.
  destruct (runs_leave s s' c me x I Hr Hc Hx) as [Ho Hme].
  destruct (runs_running s c me I Hr) as [Est Hlt]. pose proof (pt_next s I).
  pose proof (pt_pid s I me ltac:(congruence)).
  assert (Hnid : ~ idle (slot s me)) by (intros [|]; congruence).
  eapply (ok_replace s s' me p I R); try done; rewrite ?Hn; try lia.
  - intros _. split; [lia|]. left. split; congruence.
  - split; [done|]. intros [d Hd]. by destruct (Hme d).
  - intros d e Hd. by destruct (Hme d).
  - by left.
  - intros _ Hne. rewrite Epa. by apply (pt_parent s I me).
  - intros j Ej ->. rewrite Epa in Ej. destruct (decide (initproc s = Some me)) as [Ez|Ez].
    + destruct (ini_active s me I Ez). congruence.
    + destruct (pt_parent s I me Hnid Ez) as (q & Eq & _ & Hq). congruence.
Qed.

(** [sleep] and [yield] write the slot of the process and leave the CPU. *)
Lemma leave_inv s c me p s1 ctx s' :
  replaced s s1 me p /\ same_env s s1 -> (me < length (procs s))%nat -> sched c me ctx s1 = Ok tt s' ->
  replaced s s' me (set_context ctx p) /\ initproc s' = initproc s /\ nextpid s' = nextpid s /\
  cpus s' = <[c := MkPcpu None (c_p (cpus s !!! c)) (c_found (cpus s !!! c))]> (cpus s).
Proof.
  intros [R1 (Hc1 & Hi1 & Hn1 & _)] Hlt H.
  apply sched_inv in H as (R2 & Hi & Hn & _ & Hc); [|by destruct R1 as [-> _]].
  pose proof (replaced_trans _ _ _ _ _ _ R1 R2) as R. destruct R1 as (_ & E1 & _). rewrite E1 in R.
  rewrite Hc1 in Hc. split_and!; congruence.
Qed.

Lemma sleep_inv s c me ch s' :
  sleep c me ch s = Ok tt s' -> (me < length (procs s))%nat ->
  replaced s s' me (set_context InSleep (set_state SLEEPING (set_chan (Some ch) (slot s me)))) /\
  initproc s' = initproc s /\ nextpid s' = nextpid s /\
  cpus s' = <[c := MkPcpu None (c_p (cpus s !!! c)) (c_found (cpus s !!! c))]> (cpus s).
Proof.
  unfold sleep. intros H Hlt. minv H. minv H.
  exact (leave_inv _ _ _ _ _ _ _ (modp_again _ _ _ _ _ _ _ (modp_inv _ _ _ _ _ Hrun Hlt) Hrun0 Hlt) Hlt H).
Qed.

Lemma yield_inv s c me s' :
  yield c me s = Ok tt s' -> (me < length (procs s))%nat ->
  replaced s s' me (set_context InYield (set_state RUNNABLE (slot s me))) /\
  initproc s' = initproc s /\ nextpid s' = nextpid s /\
  cpus s' = <[c := MkPcpu None (c_p (cpus s !!! c)) (c_found (cpus s !!! c))]> (cpus s).
Proof.
  unfold yield. intros H Hlt. minv H. exact (leave_inv _ _ _ _ _ _ _ (modp_inv _ _ _ _ _ Hrun Hlt) Hlt H).
Qed.

Lemma step_sleep s c me ch s' :
  pt_ok s -> runs s c me -> sleep c me ch s = Ok tt s' ->
  (ch = ChanProc me -> forall j, p_parent (slot s j) = Some me -> p_state (slot s j) <> ZOMBIE) -> pt_ok s'.
Proof.
  intros I Hr H Hz. destruct (runs_running s c me I Hr) as [Est Hlt].
  apply sleep_inv in H as (R & Hi & Hn & Hc); [|done].
  destruct (pt_slot s I me) as [O1 O2 O3 O4 O5 O6].
  eapply (ok_leave s s' c me _ _ I Hr R Hc); try done; cbn; try congruence.
  - split; cbn; try done.
    + intros _. split; [by left|done].
    + by intros [|].
    + intros Hx. destruct Hx. by left.
  - by intros [|].
  - by left; left.
  - intros [_ Hch]. cbn in Hch. apply Hz. congruence.
Qed.

Lemma step_yield s c me s' : pt_ok s -> runs s c me -> yield c me s = Ok tt s' -> pt_ok s'.
Proof.
  intros I Hr H. destruct (runs_running s c me I Hr) as [Est Hlt].
  apply yield_inv in H as (R & Hi & Hn & Hc); [|done].
  destruct (pt_slot s I me) as [O1 O2 O3 O4 O5 O6].
  assert (Hcn : p_chan (slot s me) = None).
  { destruct (p_chan (slot s me)) eqn:Ec; [|done]. destruct O2 as [[|] _]; [done|congruence..]. }
  eapply (ok_leave s s' c me _ _ I Hr R Hc); try done; cbn; try congruence.
  - split; cbn; rewrite ?Hcn; try done.
    + by intros [|].
    + intros Hx. destruct Hx. right. by left.
  - by intros [|].
  - by left; right; left.
  - by intros [? _].
Qed.

(** ** Waking, killing and counting *)

Lemma wake_one_calm ch p : calm p (wake_one ch p).
Proof. unfold wake_one. case_decide as H; [|apply calm_refl]. unfold calm. cbn. intuition. Qed.

Lemma count_tick_calm p : calm p (count_tick p).
Proof. unfold count_tick. repeat case_decide; unfold calm; cbn; auto 10. Qed.

Definition woken (ch : chan) (t : ptable) : ptable := set_procs (wake_one ch <$> procs t) t.

Lemma wakeup_slot ch s :
  let s' := set_procs (wake_one ch <$> procs s) s in
  wakeup1 ch s = Ok tt s' /\ length (procs s') = length (procs s) /\ same_env s s' /\
  forall j, slot s' j = wake_one ch (slot s j).
Proof.
  intros s'. split_and!; [done|cbn; by rewrite length_fmap|done|].
  intros j. apply slot_map. unfold wake_one. by rewrite decide_False by (by intros [? _]).
Qed.

Lemma step_wakeup s ch s' : pt_ok s -> wakeup ch s = Ok tt s' -> pt_ok s'.
Proof.
  intros I H. destruct (wakeup_slot ch s) as (E & Hl & (Hc & Hi & Hn & _) & Hs).
  unfold wakeup in H. rewrite E in H. injection H as <-.
  apply (ok_calm s); try done. intros j. rewrite Hs. apply wake_one_calm.
Qed.

Lemma timer_slot s s' :
  timer_tick s = Ok tt s' ->
  length (procs s') = length (procs s) /\ cpus s' = cpus s /\ initproc s' = initproc s /\
  nextpid s' = nextpid s /\ ticks s' = u32 (ticks s + 1) /\ forall j, slot s' j = count_tick (slot s j).
Proof.
  intros H. injection H as <-. split_and!; try done; [cbn; by rewrite length_fmap|].
  intros j. apply (slot_map (set_ticks (u32 (ticks s + 1)) s)).
  unfold count_tick. by rewrite !decide_False.
Qed.

Lemma step_timer s s' : pt_ok s -> timer_tick s = Ok tt s' -> pt_ok s'.
Proof.
  intros I (Hl & Hc & Hi & Hn & _ & Hs)%timer_slot. apply (ok_calm s); try done.
  intros j. rewrite Hs. apply count_tick_calm.
Qed.

(** [kill] marks the first slot with that number, and wakes it. *)
Lemma kill_inv s pid r s' :
  kill pid s = Ok r s' ->
  (r = -1 /\ s' = s /\ forall i, (i < length (procs s))%nat -> p_pid (slot s i) <> pid) \/
  (exists i, r = 0 /\ (i < length (procs s))%nat /\ p_pid (slot s i) = pid /\
     (forall j, (j < i)%nat -> p_pid (slot s j) <> pid) /\ same_env s s' /\
     replaced s s' i (let p := set_ttime (ticks s) (set_killed 1 (slot s i)) in
       if decide (p_state p = SLEEPING) then set_state RUNNABLE p else p)).
Proof.
  unfold kill. intros H. minv H. injection Hrun as <- <-.
  destruct (list_find _ (procs s)) as [[i p]|] eqn:F.
  - right. exists i. apply list_find_Some in F as (Hp & Epid & Hfst).
    pose proof (lookup_lt_Some _ _ _ Hp) as Hi.
    assert (Es : slot s i = p) by (unfold slot; by rewrite (list_lookup_total_correct _ _ _ Hp)).
    minv H. minv H. minv H. injection H as <- <-.
    pose proof (modp_again _ _ _ _ _ _ _ (modp_inv _ _ _ _ _ Hrun Hi) Hrun0 Hi) as R.
    rewrite Es in *. split_and!; try done.
    + intros j Hj. apply Hfst with (j := j); [|done]. apply list_lookup_lookup_total_lt. lia.
    + case_bool_decide; unfold when in Hrun1; [|injection Hrun1 as <- <-; apply R].
      by destruct (modp_again _ _ _ _ _ _ _ R Hrun1 Hi).
    + cbn. case_bool_decide as Eb; unfold when in Hrun1.
      * rewrite decide_True by done. by destruct (modp_again _ _ _ _ _ _ _ R Hrun1 Hi).
      * rewrite decide_False by done. injection Hrun1 as <- <-. apply R.
  - left. injection H as <- <-. split_and!; try done.
    intros i Hi. rewrite list_find_None, Forall_lookup in F. apply (F i).
    apply list_lookup_lookup_total_lt. lia.
Qed.

Lemma step_kill s pid r s' : pt_ok s -> kill pid s = Ok r s' -> pt_ok s'.
Proof.
  intros I [(_ & -> & _)|(i & _ & Hi & _ & _ & (Hc & Hini & Hn & _) & R)]%kill_inv; [done|].
  destruct R as (Hl & Re & Rn). apply (ok_calm s); try done.
  intros j. destruct (decide (j = i)) as [->|]; [rewrite Re|rewrite Rn by done; apply calm_refl].
  cbn. case_decide; unfold calm; cbn; auto 10.
Qed.

Lemma wait_scan_zombie me ps k hk i :
  wait_scan me ps k hk = Zombie i ->
  exists n p, i = (k + n)%nat /\ ps !! n = Some p /\ p_parent p = Some me /\ p_state p = ZOMBIE.
Proof.
  revert k hk. induction ps as [|p r IH]; intros k hk; cbn; [done|]. repeat case_decide.
  - intros [= <-]. exists 0%nat, p. split_and!; [lia|done..].
  - intros E. destruct (IH _ _ E) as (n & q & -> & ? & ? & ?). exists (S n), q. split_and!; [lia|done..].
  - intros E. destruct (IH _ _ E) as (n & q & -> & ? & ? & ?). exists (S n), q. split_and!; [lia|done..].
Qed.

Lemma wait_scan_none me ps k hk b :
  wait_scan me ps k hk = NoZombie b ->
  Forall (fun p => p_parent p = Some me -> p_state p <> ZOMBIE) ps /\
  (b = true <-> hk = true \/ Exists (fun p => p_parent p = Some me) ps).
Proof.
  revert k hk. induction ps as [|p r IH]; intros k hk; cbn.
  - intros [= <-]. split; [constructor|]. rewrite Exists_nil. tauto.
  - repeat case_decide; [done|..]; intros E; destruct (IH _ _ E) as [H1 H2]; rewrite Exists_cons;
      (split; [by constructor|]); rewrite H2; tauto.
Qed.

Lemma in_range s j me : p_parent (slot s j) = Some me -> procs s !! j = Some (slot s j).
Proof.
  intros H. apply list_lookup_lookup_total_lt. destruct (decide (j < length (procs s))%nat); [done|].
  rewrite slot_out in H by lia. done.
Qed.

Lemma not_asleep_chan p : slot_ok p -> p_state p <> SLEEPING -> p_state p <> RUNNABLE -> p_chan p = None.
Proof.
  intros O H1 H2. destruct (p_chan p) eqn:E; [|done].
  destruct (so_chan p O) as [[|] _]; [by rewrite E|done..].
Qed.

Lemma step_reap s me i f s' :
  pt_ok s -> wait_scan me (procs s) 0 false = Zombie i -> f = clear_slot \/ f = clear_slot_stat ->
  modp i f s = Ok tt s' -> pt_ok s'.
Proof.
  intros I (n & p & -> & Hp & Hpa & Hz)%wait_scan_zombie Hf H. cbn [Nat.add] in *.
  assert (Es : slot s n = p) by (unfold slot; by rewrite (list_lookup_total_correct _ _ _ Hp)).
  destruct (modp_inv _ _ _ _ _ H (lookup_lt_Some _ _ _ Hp)) as [R (Hc & Hi & Hn & _)].
  pose proof (pt_slot s I n) as O. pose proof (pt_next s I).
  assert (Hna : ~ active (slot s n)) by (rewrite Es; intros [|[|]]; congruence).
  assert (Ef : forall q, p_state (f q) = UNUSED /\ p_parent (f q) = None /\ p_chan (f q) = p_chan q /\
    p_ofile (f q) = p_ofile q /\ p_cwd (f q) = p_cwd q) by (intros q; by destruct Hf as [-> | ->]).
  destruct (Ef (slot s n)) as (E1 & E2 & E3 & E4 & E5).
  assert (Hid : idle (f (slot s n))) by (by left).
  eapply (ok_edit s s' n _ I R); try done; rewrite ?E1, ?Hn; try lia.
  - split; rewrite ?E2, ?E3, ?E4, ?E5, ?(not_asleep_chan _ O) by congruence; try done.
    + congruence.
    + intros Ha. by destruct (not_active_idle _ Hid).
    + intros _. by apply (so_files _ O).
    + apply O.
  - split; [done|]. rewrite Es, Hz. done.
  - right. by apply idle_not_init.
  - intros [Hx _]. congruence.
  - done.
Qed.

(** ** Switching to a process *)

Lemma choose_Some ps p f : choose ps p = Some f -> f = p /\ p_state (ps !!! p) = RUNNABLE.
Proof.
  unfold choose. destruct (decide (p_state (ps !!! p) <> RUNNABLE)) as [|H]; [done|]. intros [= <-].
  split; [done|]. destruct (decide (p_state (ps !!! p) = RUNNABLE)); [done|]. by destruct H.
Qed.

Lemma choose_None ps p : choose ps p = None -> p_state (ps !!! p) <> RUNNABLE.
Proof. unfold choose. by destruct (decide (p_state (ps !!! p) <> RUNNABLE)). Qed.

Lemma scan_table_Some ps k p i :
  scan_table ps k p = Some i ->
  (p <= i < p + k)%nat /\ p_state (ps !!! i) = RUNNABLE /\
  forall j, (p <= j < i)%nat -> p_state (ps !!! j) <> RUNNABLE.
Proof.
  revert p. induction k as [|k IH]; intros p; cbn; [done|].
  destruct (choose ps p) as [f|] eqn:E.
  - intros [= ->]. destruct (choose_Some _ _ _ E) as [-> H]. split_and!; [lia|lia|done|]. intros j Hj. lia.
  - intros H. destruct (IH _ H) as (H1 & H2 & H3). split_and!; [lia|lia|done|].
    intros j Hj. destruct (decide (j = p)) as [->|]; [by apply choose_None|]. apply H3. lia.
Qed.

Lemma scan_table_None ps k p :
  scan_table ps k p = None -> forall j, (p <= j < p + k)%nat -> p_state (ps !!! j) <> RUNNABLE.
Proof.
  revert p. induction k as [|k IH]; intros p; cbn; [intros; lia|].
  destruct (choose ps p) as [f|] eqn:E; [done|]. intros H j Hj.
  destruct (decide (j = p)) as [->|]; [by apply choose_None|]. apply (IH (S p)); [done|lia].
Qed.

Lemma scan_table_first ps k p i :
  (p <= i < p + k)%nat -> p_state (ps !!! i) = RUNNABLE ->
  (forall j, (p <= j < i)%nat -> p_state (ps !!! j) <> RUNNABLE) -> scan_table ps k p = Some i.
Proof.
  intros Hi Hr Hno. destruct (scan_table ps k p) as [j|] eqn:E.
  - apply scan_table_Some in E as (Hj & Hjr & Hjn). f_equal.
    destruct (decide (j < i)%nat); [by destruct (Hno j); [lia|]|].
    destruct (decide (i < j)%nat); [by destruct (Hjn i); [lia|]|]. lia.
  - by destruct (scan_table_None _ _ _ E i).
Qed.

(** The process the scheduler resumes. *)
Definition resumed (p : proc) : proc :=
  match p_context p with InSleep => set_chan None (set_state RUNNING p) | _ => set_state RUNNING p end.

Lemma scheduler_inv c s r s' :
  scheduler c s = Ok r s' -> length (procs s) = NPROC ->
  initproc s' = initproc s /\ nextpid s' = nextpid s /\ ticks s' = ticks s /\
  let p := c_p (cpus s !!! c) in
  match r with
  | None =>
      procs s' = procs s /\ cpus s' = <[c := MkPcpu None 0 false]> (cpus s) /\
      forall j, (p <= j)%nat -> p_state (slot s j) <> RUNNABLE
  | Some i =>
      replaced s s' i (resumed (slot s i)) /\ cpus s' = <[c := MkPcpu (Some i) (S i) true]> (cpus s) /\
      (p <= i < NPROC)%nat /\ p_state (slot s i) = RUNNABLE /\ p_context (slot s i) <> InExit /\
      forall j, (p <= j < i)%nat -> p_state (slot s j) <> RUNNABLE
  end.
Proof.
  unfold scheduler. intros H Hl. minv H. injection Hrun as <- <-.
  destruct (scan_table (procs s) _ _) as [i|] eqn:E.
  - apply scan_table_Some in E as (Hi & Hst & Hno). fold (slot s i) in Hst.
    minv H. minv H. minv H. injection H as <- <-. injection Hrun as <- <-.
    assert (Hlt : (i < length (procs (set_cpu c (MkPcpu (Some i) (S i) true) s)))%nat) by (cbn; lia).
    pose proof (modp_inv _ _ _ _ _ Hrun0 Hlt) as R1. pose proof R1 as ((Rl & Re & Rn) & Hc & Hi' & Hn' & Ht').
    unfold resume in Hrun1. minv Hrun1. injection Hrun as <- <-. rewrite Re in Hrun1.
    change (slot (set_cpu c (MkPcpu (Some i) (S i) true) s)) with (slot s) in *. cbn in Hrun1.
    assert (X : replaced (set_cpu c (MkPcpu (Some i) (S i) true) s) s2 i (resumed (slot s i)) /\
      same_env (set_cpu c (MkPcpu (Some i) (S i) true) s) s2 /\ p_context (slot s i) <> InExit).
    { unfold resumed. destruct (p_context (slot s i)); try done.
      - injection Hrun1 as <- <-. destruct R1. done.
      - injection Hrun1 as <- <-. destruct R1. done.
      - by destruct (modp_again _ _ _ _ _ _ _ R1 Hrun1 Hlt). }
    destruct X as (X & (Xc & Xi & Xn & Xt) & Hx). split_and!; try done; try lia.
  - minv H. injection H as <- <-. injection Hrun as <- <-. split_and!; try done.
    intros j Hj. destruct (decide (j < NPROC)%nat); [apply (scan_table_None _ _ _ E); lia|].
    rewrite slot_out by lia. done.
Qed.

Lemma scheduler_runs c s i :
  scan_table (procs s) (NPROC - c_p (cpus s !!! c)) (c_p (cpus s !!! c)) = Some i ->
  (i < length (procs s))%nat -> p_context (slot s i) <> InExit ->
  exists s', scheduler c s = Ok (Some i) s'.
Proof.
  intros E Hi Hx. unfold scheduler. rewrite (bind_ok (get (S := ptable)) _ _ _ _ eq_refl), E.
  rewrite (bind_ok (modify _) _ _ _ _ eq_refl). set (s1 := set_cpu _ _ s).
  destruct (modp_replaced i (set_state RUNNING) s1 Hi) as [E1 (_ & R1 & _)]. rewrite (bind_ok _ _ _ _ _ E1).
  unfold resume. rewrite bind_assoc, (bind_ok (getp i) _ _ _ _ eq_refl), R1.
  change (slot s1 i) with (slot s i). cbn. destruct (p_context (slot s i)); try done; by eexists.
Qed.

Lemma ok_cpus s s' :
  pt_ok s -> procs s' = procs s -> initproc s' = initproc s -> nextpid s' = nextpid s ->
  (forall c i, runs s' c i <-> runs s c i) -> pt_ok s'.
Proof.
  intros [H1 H2 H3 H4 H5 H6 H7 H8 H9 H10 H11] Hp Hi Hn Hr.
  assert (Hs : forall j, slot s' j = slot s j) by (intros j; unfold slot; by rewrite Hp).
  split; rewrite ?Hp, ?Hi, ?Hn; try done; try setoid_rewrite Hs; try setoid_rewrite Hr; done.
Qed.

Lemma runs_enter s c x i :
  c_proc x = Some i -> (c < length (cpus s))%nat -> (forall j, ~ runs s c j) ->
  forall s' d j, cpus s' = <[c := x]> (cpus s) -> runs s' d j <-> (d = c /\ j = i) \/ runs s d j.
Proof.
  intros Hx Hc Hn s' d j E. unfold runs. rewrite E. destruct (decide (d = c)) as [->|Hd].
  - rewrite list_lookup_insert_eq by done. split.
    + intros (y & [= <-] & Hy). left. split; congruence.
    + intros [[_ ->]|Hr]; [by exists x|]. by destruct (Hn j).
  - rewrite list_lookup_insert_ne by done. intuition.
Qed.

Lemma resumed_ok p : slot_ok p -> p_state p = RUNNABLE -> slot_ok (resumed p).
Proof.
  intros [O1 O2 O3 O4 O5 O6] E.
  assert (Ha : active p) by (right; by left).
  assert (Hc : p_context p <> InSleep -> p_chan p = None).
  { intros Hx. destruct (p_chan p) eqn:Ec; [|done]. destruct O2 as [_ ?]; done. }
  assert (Hna : active (set_state RUNNING p)) by (by right; right).
  unfold resumed. destruct (p_context p) eqn:Ex; split; cbn; rewrite ?Ex, ?Hc by done; try done;
    try (by intros [|]); try (intros Hx; by destruct Hx; right; right).
  by destruct O3.
Qed.

Lemma step_sched s c x r s' :
  pt_ok s -> cpus s !! c = Some x -> c_proc x = None -> scheduler c s = Ok r s' -> pt_ok s'.
Proof.
  intros I Hx Hn H. pose proof (lookup_lt_Some _ _ _ Hx) as Hlt.
  assert (Hno : forall j, ~ runs s c j) by (intros j (y & Ey & Hy); congruence).
  apply scheduler_inv in H as (Hi & Hnp & _ & H); [|apply (pt_len s I)].
  destruct r as [i|].
  - destruct H as (R & Hc & Hr & Hst & _).
    pose proof (fun d j => runs_enter s c (MkPcpu (Some i) (S i) true) i eq_refl Hlt Hno s' d j Hc) as Hru.
    assert (Hni : forall d, ~ runs s d i) by (intros d Hd; rewrite (pt_runs s I d i Hd) in Hst; done).
    assert (Er : p_state (resumed (slot s i)) = RUNNING /\ p_pid (resumed (slot s i)) = p_pid (slot s i) /\
      p_parent (resumed (slot s i)) = p_parent (slot s i)) by (unfold resumed; by destruct (p_context (slot s i))).
    destruct Er as (E1 & E2 & E3). pose proof (pt_next s I).
    assert (Hact : active (resumed (slot s i))) by (by right; right).
    eapply (ok_replace s s' i _ I R); try done; rewrite ?Hnp; try lia.
    + apply resumed_ok; [apply I|done].
    + intros _. rewrite E2. pose proof (pt_pid s I i ltac:(congruence)). split; [done|]. left. split; congruence.
    + intros d j Hj. rewrite Hru. intuition congruence.
    + rewrite E1. split; [|done]. intros _. exists c. apply Hru. auto.
    + intros d e. rewrite !Hru. intros [[-> _]|Hd]; [|by destruct (Hni d)].
      intros [[-> _]|Hd]; [done|by destruct (Hni e)].
    + by left.
    + by left.
    + intros _ Hz. rewrite E3. apply (pt_parent s I i); [|done]. intros [|]; congruence.
    + intros [Hs _]. congruence.
    + congruence.
    + intros j Ej ->. rewrite E3 in Ej. destruct (decide (initproc s = Some i)) as [Ez|Ez].
      * destruct (ini_active s i I Ez). congruence.
      * destruct (pt_parent s I i) as (q & Eq & _ & Hq); [intros [|]; congruence|done|congruence].
  - destruct H as (Hp & Hc & _). apply (ok_cpus s); try done.
    intros d j. unfold runs. rewrite Hc. destruct (decide (d = c)) as [->|Hd]; [|by rewrite list_lookup_insert_ne].
    rewrite list_lookup_insert_eq by done. split; [intros (y & [= <-] & Hy); done|]. intros Hr. by destruct (Hno j).
Qed.

(** ** Exit *)

Lemma calm_trans p q r : calm p q -> calm q r -> calm p r.
Proof. unfold calm. intuition congruence. Qed.

Lemma calm_in_wait i p p' : calm p p' -> in_wait i p' -> in_wait i p.
Proof. unfold calm, in_wait. intuition congruence. Qed.

Lemma calm_set_parent x p p' : calm p p' -> calm (set_parent x p) (set_parent x p').
Proof. unfold calm. cbn. intuition. Qed.

(** The counters of the accounting. *)
Definition same_times (p p' : proc) : Prop :=
  p_stime p' = p_stime p /\ p_retime p' = p_retime p /\ p_rutime p' = p_rutime p.

Lemma same_times_trans p q r : same_times p q -> same_times q r -> same_times p r.
Proof. unfold same_times. intuition congruence. Qed.

Lemma wake_one_times ch p : same_times p (wake_one ch p).
Proof. unfold wake_one. by case_decide. Qed.

Lemma woken_not_in_wait q p : ~ in_wait q (wake_one (ChanProc q) p).
Proof. unfold wake_one, in_wait. case_decide; cbn; [by intros [? _]|done]. Qed.

(** The slot [j] when the pass of [exit] over the table has come to [k]. *)
Definition adopted (me ini k j : nat) (p : proc) : proc :=
  if decide (p_parent p = Some me /\ (j < k)%nat) then set_parent (Some ini) p else p.

Lemma set_parent_ok s i ini :
  pt_ok s -> initproc s = Some ini -> is_Some (p_parent (slot s i)) ->
  (p_state (slot s i) = ZOMBIE -> ~ in_wait ini (slot s ini)) ->
  let s' := set_procs (<[i := set_parent (Some ini) (slot s i)]> (procs s)) s in pt_ok s'.
Proof.
  intros I Hini [q Hq] Hz s'. destruct (ini_active s ini I Hini) as [Hai Hpi].
  assert (Hi : (i < length (procs s))%nat) by (eapply lookup_lt_Some, in_range; done).
  destruct (modp_replaced i (set_parent (Some ini)) s Hi) as [_ R]. fold s' in R.
  assert (Hnid : ~ idle (slot s i)).
  { intros Hid. rewrite (so_parent _ (pt_slot s I i) Hid) in Hq. done. }
  assert (Hne : i <> ini) by congruence.
  pose proof (pt_next s I). destruct (pt_slot s I i) as [O1 O2 O3 O4 O5 O6].
  eapply (ok_edit s s' i _ I R); try done; cbn; try lia.
  - intros Hu. pose proof (pt_pid s I i Hu). auto.
  - right. congruence.
  - intros _ _. by exists ini.
  - intros Hzz q' [= <-]. auto.
Qed.

Lemma adopt_ok s0 s me ini k :
  pt_ok s -> same_env s0 s -> length (procs s) = length (procs s0) -> initproc s = Some ini ->
  (forall j, calm (adopted me ini k j (slot s0 j)) (slot s j)) ->
  exists s', adopt me ini (Z.of_nat k) s = Ok tt s' /\ pt_ok s' /\ same_env s0 s' /\
    length (procs s') = length (procs s0) /\
    (forall j, calm (adopted me ini (S k) j (slot s0 j)) (slot s' j)) /\
    (forall j, same_times (slot s j) (slot s' j)).
Proof.
  intros I E L Hini Hc. unfold adopt. rewrite Nat2Z.id.
  rewrite (bind_ok (getp k) _ _ _ _ eq_refl).
  assert (Hk : p_parent (slot s k) = p_parent (slot s0 k)).
  { destruct (Hc k) as (_ & -> & _). unfold adopted. rewrite decide_False by lia. done. }
  assert (Hother : forall j, j <> k -> adopted me ini (S k) j (slot s0 j) = adopted me ini k j (slot s0 j)).
  { intros j Hj. unfold adopted. destruct (decide (p_parent (slot s0 j) = Some me /\ (j < k)%nat)) as [[]|Hx].
    - rewrite decide_True; [done|]. split; [done|lia].
    - rewrite decide_False; [done|]. intros [? ?]. apply Hx. split; [done|lia]. }
  destruct (decide (p_parent (slot s k) = Some me)) as [Hp|Hp].
  - rewrite bool_decide_eq_true_2 by done. unfold when at 1.
    assert (Hak : forall t, calm (slot s k) t -> calm (adopted me ini (S k) k (slot s0 k)) (set_parent (Some ini) t)).
    { intros t Ht. specialize (Hc k). unfold adopted in *. rewrite decide_False in Hc by lia.
      rewrite decide_True by (rewrite <- Hk; split; [done|lia]). apply calm_set_parent. by eapply calm_trans. }
    assert (Hlk : (k < length (procs s))%nat) by (eapply lookup_lt_Some, in_range; done).
    destruct (decide (p_state (slot s k) = ZOMBIE)) as [Hz|Hz].
    + rewrite bool_decide_eq_true_2 by done. unfold when.
      destruct (wakeup_slot (ChanProc ini) s) as (_ & Lw & Ew & Sw).
      set (s1 := set_procs (wake_one (ChanProc ini) <$> procs s) s) in *.
      exists (set_procs (<[k := set_parent (Some ini) (slot s1 k)]> (procs s1)) s1).
      assert (Hwk : slot s1 k = slot s k).
      { rewrite Sw. unfold wake_one. rewrite decide_False; [done|]. intros [? _]. congruence. }
      split_and!.
      * assert (Hx : wake_one (ChanProc ini) (set_parent (Some ini) (slot s k)) = set_parent (Some ini) (slot s1 k)).
        { rewrite Hwk. unfold wake_one. rewrite decide_False; [done|]. cbn. intros [? _]. congruence. }
        unfold modp, wakeup1. munfold. unfold set_procs. cbn. rewrite list_fmap_insert, Hx. done.
      * apply set_parent_ok; [by apply (step_wakeup s (ChanProc ini))|by destruct Ew as (_ & -> & _)| |].
        -- rewrite Hwk, Hp. by eexists.
        -- intros _. rewrite Sw. apply woken_not_in_wait.
      * by eapply same_env_trans.
      * cbn. rewrite length_insert. cbn in Lw. lia.
      * intros j. destruct (decide (j = k)) as [->|Hj].
        -- rewrite slot_insert_eq by lia. rewrite Sw. apply Hak, wake_one_calm.
        -- rewrite slot_insert_ne by done. rewrite Sw, Hother by done.
           eapply calm_trans; [apply Hc|apply wake_one_calm].
      * intros j. destruct (decide (j = k)) as [->|Hj]; [rewrite slot_insert_eq by lia|rewrite slot_insert_ne by done];
          rewrite Sw; apply wake_one_times.
    + rewrite bool_decide_eq_false_2 by done. unfold when.
      eexists. split; [reflexivity|]. split_and!.
      * apply set_parent_ok; [done..|rewrite Hp; by eexists|done].
      * done.
      * cbn. by rewrite length_insert.
      * intros j. destruct (decide (j = k)) as [->|Hj].
        -- rewrite slot_insert_eq by lia. apply Hak, calm_refl.
        -- rewrite slot_insert_ne by done. rewrite Hother by done. apply Hc.
      * intros j. destruct (decide (j = k)) as [->|Hj]; [rewrite slot_insert_eq by lia|rewrite slot_insert_ne by done]; done.
  - rewrite bool_decide_eq_false_2 by done. exists s. split_and!; try done.
    intros j. destruct (decide (j = k)) as [->|Hj]; [|rewrite Hother by done; apply Hc].
    specialize (Hc k). unfold adopted in *. rewrite decide_False in Hc by lia.
    rewrite decide_False; [done|]. intros [? _]. congruence.
Qed.

Lemma adopt_all s me ini :
  pt_ok s -> initproc s = Some ini ->
  exists s', for_ 0 (Z.of_nat NPROC) (adopt me ini) s = Ok tt s' /\ pt_ok s' /\ same_env s s' /\
    length (procs s') = length (procs s) /\
    (forall j, calm (adopted me ini NPROC j (slot s j)) (slot s' j)) /\ (forall j, same_times (slot s j) (slot s' j)).
Proof.
  intros I Hini.
  destruct (for_inv (fun k s' => 0 <= k /\ pt_ok s' /\ same_env s s' /\ length (procs s') = length (procs s) /\
    (forall j, calm (adopted me ini (Z.to_nat k) j (slot s j)) (slot s' j)) /\
    (forall j, same_times (slot s j) (slot s' j))) (adopt me ini) 0 (Z.of_nat NPROC) s)
    as (s' & E & _ & H); [lia| | |].
  - split_and!; try done. intros j. unfold adopted. rewrite decide_False by lia. apply calm_refl.
  - intros k t Hk (_ & It & Et & Lt & Ct & Tt).
    destruct (adopt_ok s t me ini (Z.to_nat k)) as (t' & E & It' & Et' & Lt' & Ct' & Tt'); try done.
    { destruct Et as (_ & -> & _). done. }
    exists t'. rewrite Z2Nat.id in E by lia. split; [done|]. split_and!; try done; [lia| |].
    + by replace (Z.to_nat (k + 1)) with (S (Z.to_nat k)) by lia.
    + intros j. by eapply same_times_trans.
  - exists s'. split; [done|]. by rewrite Nat2Z.id in H.
Qed.

Lemma sched_ok c me ctx s : p_state (slot s me) <> RUNNING -> exists s', sched c me ctx s = Ok tt s'.
Proof.
  intros H. unfold sched. rewrite (bind_ok (getp me) _ _ _ _ eq_refl). rewrite decide_False by done.
  by eexists.
Qed.

Lemma same_position s s' c me x y :
  runs s c me -> cpus s' = <[c := MkPcpu x (c_p (cpus s !!! c)) y]> (cpus s) ->
  forall d, c_p (cpus s' !!! d) = c_p (cpus s !!! d).
Proof.
  intros (z & Ez & _) -> d. destruct (decide (d = c)) as [->|]; [|by rewrite list_lookup_total_insert_ne].
  by rewrite list_lookup_total_insert_eq by (by eapply lookup_lt_Some).
Qed.

(** The end of [exit], when the process has no children left. *)
Lemma exit_tail s c me :
  pt_ok s -> runs s c me -> initproc s <> Some me ->
  p_ofile (slot s me) = replicate NOFILE None -> p_cwd (slot s me) = None ->
  (forall j, p_parent (slot s j) <> Some me) ->
  (forall q, p_parent (slot s me) = Some q -> ~ in_wait q (slot s q)) ->
  exists s', (t ← reads ticks; modp me (set_ttime t);; modp me (set_state ZOMBIE);; sched c me InExit) s = Ok tt s' /\
    pt_ok s' /\ replaced s s' me (set_context InExit (set_state ZOMBIE (set_ttime (ticks s) (slot s me)))) /\
    initproc s' = initproc s /\ nextpid s' = nextpid s /\ ticks s' = ticks s /\ (forall d, ~ runs s' d me) /\
    (forall d, c_p (cpus s' !!! d) = c_p (cpus s !!! d)).
Proof.
  intros I Hr Hini Hof Hcw Hch Hw. destruct (runs_running s c me I Hr) as [Est Hlt].
  rewrite (bind_ok (reads ticks) _ _ _ _ eq_refl).
  destruct (modp_replaced me (set_ttime (ticks s)) s Hlt) as [E3 R3]. rewrite (bind_ok _ _ _ _ _ E3).
  pose proof (modp_inv _ _ _ _ _ E3 Hlt) as RS3. set (s3 := set_procs _ s) in *.
  destruct (modp_replaced me (set_state ZOMBIE) s3) as [E4 _]; [by destruct R3 as [-> _]|].
  rewrite (bind_ok _ _ _ _ _ E4).
  destruct (modp_again _ _ _ _ _ _ _ RS3 E4 Hlt) as [R4 (Hc & Hi & Hn & Ht)]. set (s4 := set_procs _ s3) in *.
  assert (Es4 : slot s4 me = set_state ZOMBIE (set_ttime (ticks s) (slot s me))) by apply R4.
  destruct (sched_ok c me InExit s4) as [s' E']; [by rewrite Es4|].
  exists s'. split; [done|].
  apply sched_inv in E' as (R5 & Hi5 & Hn5 & Ht5 & Hc5); [|by destruct R4 as [-> _]].
  rewrite Es4 in R5. pose proof (replaced_trans _ _ _ _ _ _ R4 R5) as R. rewrite Hc in Hc5.
  assert (Hcn : p_chan (slot s me) = None) by (apply not_asleep_chan; [apply I|congruence..]).
  split_and!; try done; try congruence.
  - eapply (ok_leave s s' c me _ _ I Hr R Hc5); try done; try congruence.
    + split; cbn; rewrite ?Hcn; try done; [by intros [|[|]]|by intros [|]|]. rewrite Hof. apply length_replicate.
    + by intros [|].
    + right. done.
  - by destruct (runs_leave s s' c me _ I Hr Hc5 eq_refl).
  - eapply same_position; [exact Hr|exact Hc5].
Qed.

(** [exit] makes the process a zombie and its children [init]'s. *)
Lemma exit_ok s c me ini :
  pt_ok s -> runs s c me -> initproc s = Some ini -> ini <> me ->
  p_ofile (slot s me) = replicate NOFILE None -> p_cwd (slot s me) = None ->
  exists s', exit_section c me s = Ok tt s' /\ pt_ok s' /\
    initproc s' = initproc s /\ nextpid s' = nextpid s /\ ticks s' = ticks s /\
    p_state (slot s' me) = ZOMBIE /\ p_ttime (slot s' me) = ticks s /\
    p_pid (slot s' me) = p_pid (slot s me) /\ p_parent (slot s' me) = p_parent (slot s me) /\
    (forall j, p_parent (slot s' j) <> Some me) /\ (forall d, ~ runs s' d me) /\
    (forall q, p_parent (slot s me) = Some q -> ~ in_wait q (slot s' q)) /\
    (forall j, j <> me -> calm (adopted me ini NPROC j (slot s j)) (slot s' j)) /\
    (forall j, same_times (slot s j) (slot s' j)) /\
    (forall d, c_p (cpus s' !!! d) = c_p (cpus s !!! d)).
Proof.
  intros I Hr Hini Hne Hof Hcw. destruct (runs_running s c me I Hr) as [Est Hlt].
  unfold exit_section. rewrite (bind_ok (getp me) _ _ _ _ eq_refl).
  assert (W : exists s1, match p_parent (slot s me) with Some q => wakeup1 (ChanProc q) | None => mret tt end s = Ok tt s1 /\
    pt_ok s1 /\ same_env s s1 /\ length (procs s1) = length (procs s) /\ (forall j, calm (slot s j) (slot s1 j)) /\
    (forall j, same_times (slot s j) (slot s1 j)) /\
    forall q, p_parent (slot s me) = Some q -> ~ in_wait q (slot s1 q)).
  { destruct (p_parent (slot s me)) as [q|].
    - destruct (wakeup_slot (ChanProc q) s) as (E & L & En & Sl). eexists. split; [exact E|].
      split_and!; try done; [by apply (step_wakeup s (ChanProc q))|..].
      + intros j. rewrite Sl. apply wake_one_calm.
      + intros j. rewrite Sl. apply wake_one_times.
      + intros q' [= <-]. rewrite Sl. apply woken_not_in_wait.
    - exists s. split_and!; try done. intros j. apply calm_refl. }
  destruct W as (s1 & E1 & I1 & (C1 & N1 & P1 & T1) & L1 & K1 & X1 & W1).
  rewrite (bind_ok _ _ _ _ _ E1), (bind_ok (get (S := ptable)) _ _ _ _ eq_refl). rewrite N1, Hini.
  destruct (adopt_all s1 me ini I1 ltac:(congruence)) as (s2 & E2 & I2 & (C2 & N2 & P2 & T2) & L2 & K2 & X2).
  rewrite (bind_ok _ _ _ _ _ E2), (bind_ok (reads ticks) _ _ _ _ eq_refl).
  assert (Hch : forall j, p_parent (slot s2 j) <> Some me).
  { intros j Hj. destruct (K2 j) as (_ & E & _). rewrite Hj in E. unfold adopted in E.
    case_decide as Hd; cbn in E; [congruence|]. apply Hd. split; [done|].
    apply eq_sym, in_range, lookup_lt_Some in E. rewrite <- (pt_len s1 I1). done. }
  assert (Hr2 : runs s2 c me) by (unfold runs in *; by rewrite C2, C1).
  destruct (runs_running s2 c me I2 Hr2) as [Est2 Hlt2].
  assert (Hmp : p_parent (slot s me) <> Some me).
  { intros Hx. destruct (pt_parent s I me) as (q & Eq & _ & Hq); [intros [|]; congruence|congruence|congruence]. }
  assert (Kme : calm (slot s me) (slot s2 me)).
  { eapply calm_trans; [apply K1|]. specialize (K2 me). unfold adopted in K2. rewrite decide_False in K2; [done|].
    intros [Hx _]. destruct (K1 me) as (_ & Ep & _). congruence. }
  destruct (exit_tail s2 c me I2 Hr2) as (s' & E3 & I3 & (L3 & Re & Rn) & Hi3 & Hn3 & Ht3 & Hno & Hcp); try done.
  { congruence. }
  { destruct Kme as (_ & _ & _ & _ & -> & _). done. }
  { destruct Kme as (_ & _ & _ & _ & _ & -> & _). done. }
  { intros q Hq Hx. destruct Kme as (_ & Ep & _). apply (W1 q); [congruence|].
    assert (q <> me) by congruence. pose proof (calm_in_wait q _ _ (K2 q) Hx) as Hy.
    unfold adopted in Hy. by case_decide. }
  exists s'. rewrite Re. cbn. destruct Kme as (Kp & Kpa & _). split_and!; try done; try congruence.
  - intros j. destruct (decide (j = me)) as [->|Hj]; [rewrite Re; cbn; congruence|by rewrite Rn].
  - intros q Hq. assert (q <> me) by congruence. rewrite Rn by done. intros Hx.
    apply (W1 q Hq). pose proof (calm_in_wait q _ _ (K2 q) Hx) as Hy. unfold adopted in Hy. by case_decide.
  - intros j Hj. rewrite Rn by done. eapply calm_trans; [|apply K2].
    destruct (K1 j) as (_ & Ep & _). unfold adopted. rewrite Ep. case_decide; [|apply K1].
    apply calm_set_parent, K1.
  - intros j. eapply same_times_trans; [apply X1|]. eapply same_times_trans; [apply X2|].
    destruct (decide (j = me)) as [->|]; [by rewrite Re|by rewrite Rn].
Qed.

(** ** Every step *)

Lemma pstep_ok s e s' : pt_ok s -> pstep s e s' -> pt_ok s'.
Proof.
  intros I H. destruct H as [c me i s' Hr E|i k t s' Hs E|i sz pg k t nm s' Hs E|i k s' Hs E|c me i sz pg k t fs cw nm s' Hr Hs Hx Hfl E
    |c me sz pg k t fs cw nm s' Hr Hfl E|c me s' Hr E|c me s' Hr Hi Hf Hc E|c me i f s' Hr Hw Hf E|c me s' Hr Hw Hk E
    |c me ch s' Hr Hch E|c me s' Hr E|ch s' E|pid r s' E|s' E|c x r s' Hx Hn E].
  - by apply (step_alloc s i).
  - by apply (step_fields s i k t).
  - eapply (ok_embryo s s' i _ I Hs (modp_inv _ _ _ _ _ E (embryo_lt s i Hs))); try done. by right.
  - eapply (ok_embryo s s' i _ I Hs (modp_inv _ _ _ _ _ E (embryo_lt s i Hs))); try done. by left.
  - by eapply (step_publish s s' c me i).
  - destruct (runs_running s c me I Hr) as [_ Hl].
    by eapply (step_self s s' c me _ I Hr (modp_inv _ _ _ _ _ E Hl)).
  - destruct (runs_running s c me I Hr) as [_ Hl].
    eapply (step_self s s' c me _ I Hr (modp_inv _ _ _ _ _ E Hl)); try done. apply (so_len _ (pt_slot s I me)).
  - destruct (pt_init s I) as (z & Ez & _).
    destruct (exit_ok s c me z I Hr Ez ltac:(congruence) Hf Hc) as (s1 & E1 & I1 & _). congruence.
  - by apply (step_reap s me i f).
  - apply (step_sleep s c me (ChanProc me)); try done.
    intros _ j Hj. destruct (wait_scan_none _ _ _ _ _ Hw) as [HF _].
    rewrite Forall_lookup in HF. apply (HF j); [by eapply in_range|done].
  - apply (step_sleep s c me ch); try done. intros ->. by destruct (Hch me).
  - by apply (step_yield s c me).
  - by apply (step_wakeup s ch).
  - by apply (step_kill s pid r).
  - by apply (step_timer s).
  - by apply (step_sched s c x r).
Qed.

Lemma prun_ok s es s' : pt_ok s -> prun s es s' -> pt_ok s'.
Proof. intros I H. induction H as [|s e s1 es s2 H1 _ IH]; [done|]. by apply IH, (pstep_ok s e). Qed.

Lemma prun_app s es s1 es' s2 : prun s es s1 -> prun s1 es' s2 -> prun s (es ++ es') s2.
Proof. intros H1 H2. induction H1 as [|s e s0 es s1 H0 _ IH]; cbn; [done|]. econstructor; [done|by apply IH]. Qed.

(** What a step does to the slot of an active process, and to the place of a
    scheduler it is not a step of. *)
Definition effect (i : nat) (e : pevent) (p p' : proc) : Prop :=
  match e with
  | Timer => p' = count_tick p
  | _ => same_times p p' /\ (p_state p = RUNNABLE -> p_state p' = RUNNABLE \/ exists d, e = Pick d (Some i))
  end.

Definition position_kept (e : pevent) (s s' : ptable) : Prop :=
  forall d, (forall r, e <> Pick d r) -> c_p (cpus s' !!! d) = c_p (cpus s !!! d).

Lemma effect_other s s' i k p e :
  replaced s s' k p -> (i = k -> effect i e (slot s i) p) -> e <> Timer -> effect i e (slot s i) (slot s' i).
Proof.
  intros (_ & Re & Rn) H He. destruct (decide (i = k)) as [->|]; [rewrite Re; auto|].
  rewrite Rn by done. destruct e; try done; (split; [done|auto]).
Qed.

Lemma kept_same e s s' : cpus s' = cpus s -> position_kept e s s'.
Proof. intros E d _. by rewrite E. Qed.

Lemma kept_leave s s' c me x y :
  runs s c me -> cpus s' = <[c := MkPcpu x (c_p (cpus s !!! c)) y]> (cpus s) -> position_kept Other s s'.
Proof. intros Hr E d _. by eapply same_position. Qed.

Lemma count_tick_zero p : p_state p = UNUSED -> count_tick p = p.
Proof. intros E. unfold count_tick. by rewrite E, !decide_False. Qed.

Lemma pstep_effect s e s' i :
  pt_ok s -> pstep s e s' -> active (slot s i) ->
  effect i e (slot s i) (slot s' i) /\ position_kept e s s'.
Proof.
  intros I H Ha. pose proof (fun c me Hr => proj1 (runs_running s c me I Hr)) as Hrun.
  pose proof (fun c me Hr => proj2 (runs_running s c me I Hr)) as Hrl.
  assert (Hne : forall k x, p_state (slot s k) = x -> x = UNUSED \/ x = EMBRYO \/ x = ZOMBIE -> i <> k).
  { intros k x Hk Hx ->. destruct Ha as [|[|]]; intuition congruence. }
  destruct H as [c me k s' Hr E|k a t s' Hs E|k sz pg a t nm s' Hs E|k a s' Hs E|c me k sz pg a t fs cw nm s' Hr Hs Hx Hfl E
    |c me sz pg a t fs cw nm s' Hr Hfl E|c me s' Hr E|c me s' Hr Hi Hf Hc E|c me k f s' Hr Hw Hf E|c me s' Hr Hw Hk E
    |c me ch s' Hr Hch E|c me s' Hr E|ch s' E|pid r s' E|s' E|c x r s' Hx Hn E].
  - apply alloc_slot_inv in E as (Hi & Hu & Hn & R & Hc & _). split; [|by apply kept_same].
    eapply effect_other; [exact R| |done]. intros ->. by destruct (Hne k UNUSED); auto.
  - destruct (fields_inv _ _ _ _ _ E (embryo_lt s k Hs)) as [R (Hc & _)]. split; [|by apply kept_same].
    eapply effect_other; [exact R| |done]. intros ->. by destruct (Hne k EMBRYO); auto.
  - destruct (modp_inv _ _ _ _ _ E (embryo_lt s k Hs)) as [R (Hc & _)]. split; [|by apply kept_same].
    eapply effect_other; [exact R| |done]. intros ->. by destruct (Hne k EMBRYO); auto.
  - destruct (modp_inv _ _ _ _ _ E (embryo_lt s k Hs)) as [R (Hc & _)]. split; [|by apply kept_same].
    eapply effect_other; [exact R| |done]. intros ->. by destruct (Hne k EMBRYO); auto.
  - destruct (modp_inv _ _ _ _ _ E (embryo_lt s k Hs)) as [R (Hc & _)]. split; [|by apply kept_same].
    eapply effect_other; [exact R| |done]. intros ->. by destruct (Hne k EMBRYO); auto.
  - destruct (modp_inv _ _ _ _ _ E (Hrl _ _ Hr)) as [R (Hc & _)]. split; [|by apply kept_same].
    eapply effect_other; [exact R| |done]. intros ->. split; [done|auto].
  - destruct (modp_inv _ _ _ _ _ E (Hrl _ _ Hr)) as [R (Hc & _)]. split; [|by apply kept_same].
    eapply effect_other; [exact R| |done]. intros ->. split; [done|auto].
  - destruct (pt_init s I) as (z & Ez & _).
    destruct (exit_ok s c me z I Hr Ez ltac:(congruence) Hf Hc)
      as (s1 & E1 & _ & _ & _ & _ & _ & _ & _ & _ & _ & _ & _ & K & T & P).
    assert (s1 = s') as -> by congruence. split; [|by intros d _]. split; [done|]. intros Hq. left.
    assert (Hme : i <> me) by (intros ->; specialize (Hrun _ _ Hr); congruence).
    destruct (K i Hme) as (_ & _ & _ & _ & _ & _ & Es). unfold adopted in Es.
    case_decide; cbn in Es; intuition congruence.
  - destruct (wait_scan_zombie _ _ _ _ _ Hw) as (n & p & -> & Hp & _ & Hz). cbn [Nat.add] in *.
    assert (Es : slot s n = p) by (unfold slot; by rewrite (list_lookup_total_correct _ _ _ Hp)).
    destruct (modp_inv _ _ _ _ _ E (lookup_lt_Some _ _ _ Hp)) as [R (Hc & _)]. split; [|by apply kept_same].
    eapply effect_other; [exact R| |done]. intros ->. destruct (Hne n ZOMBIE); [congruence|auto|done].
  - apply sleep_inv in E as (R & _ & _ & Hc); [|by apply (Hrl c)]. split; [|by eapply kept_leave].
    eapply effect_other; [exact R| |done]. intros ->. split; [done|]. specialize (Hrun _ _ Hr). congruence.
  - apply sleep_inv in E as (R & _ & _ & Hc); [|by apply (Hrl c)]. split; [|by eapply kept_leave].
    eapply effect_other; [exact R| |done]. intros ->. split; [done|]. specialize (Hrun _ _ Hr). congruence.
  - apply yield_inv in E as (R & _ & _ & Hc); [|by apply (Hrl c)]. split; [|by eapply kept_leave].
    eapply effect_other; [exact R| |done]. intros ->. split; [done|]. specialize (Hrun _ _ Hr). congruence.
  - destruct (wakeup_slot ch s) as (E1 & _ & (Hc & _) & Sl). unfold wakeup in E.
    rewrite E1 in E. injection E as <-. split; [|by apply kept_same]. rewrite Sl.
    split; [apply wake_one_times|]. intros Hq. left. unfold wake_one. by case_decide.
  - apply kill_inv in E as [(_ & -> & _)|(k & _ & _ & _ & _ & (Hc & _) & R)].
    + split; [|by apply kept_same]. split; [done|auto].
    + split; [|by apply kept_same]. eapply effect_other; [exact R| |done]. intros ->. cbn.
      case_decide; (split; [done|]); cbn; auto.
  - apply timer_slot in E as (_ & Hc & _ & _ & _ & Sl). split; [by rewrite Sl|by apply kept_same].
  - apply scheduler_inv in E as (_ & _ & _ & E); [|apply I].
    assert (Hpos : forall d y, (forall r', Pick c r <> Pick d r') -> c_p ((<[c := y]> (cpus s)) !!! d) = c_p (cpus s !!! d)).
    { intros d y Hd. rewrite list_lookup_total_insert_ne; [done|]. intros ->. by destruct (Hd r). }
    destruct r as [k|].
    + destruct E as (R & Hc & _). split; [|intros d Hd; rewrite Hc; by apply Hpos].
      eapply effect_other; [exact R| |done]. intros ->. split.
      * unfold resumed. by destruct (p_context (slot s k)).
      * intros _. right. by exists c.
    + destruct E as (Hp & Hc & _). split; [|intros d Hd; rewrite Hc; by apply Hpos].
      unfold slot. rewrite Hp. split; [done|auto].
Qed.
