(* ===== verification/PtableClaims.v ===== *)
(** * Theorems on processes and the scheduler

    What holds of the process table along every run of its steps from the
    first process on: the invariant, no lost wake-up in [wait], no starvation
    by the scheduler, the accounting of time, and what the scheduler's choice
    does not depend on. *)

From stdpp Require Import base numbers list strings.
From Stdlib Require Import ZArith Lia.
From S2P Require Import Prelude CStrings Ptable PtableInv.

Open Scope Z_scope.

(** The first process in slot 0, and two CPUs. *)
Definition boot_table : ptable :=
  MkPtable (set_state RUNNABLE (set_pid 1 zero_proc) :: replicate 63 zero_proc)
    [MkPcpu None 0 true; MkPcpu None 0 true] (Some 0%nat) 2 0.

Lemma boot_first : first_process boot_table.
Proof.
  split; try done.
  - intros i Hi. destruct i as [|i]; [done|]. unfold slot.
    change (procs boot_table !!! S i) with (replicate 63 zero_proc !!! i).
    rewrite list_lookup_total_alt. destruct (replicate 63 zero_proc !! i) as [p|] eqn:E; [|done].
    by apply lookup_replicate in E as [-> _].
  - intros [|[|c]] x [= <-]; done.
Qed.

(** Running a step function. *)
Ltac compute_step := vm_compute; reflexivity.

(** CPU 0 picks the first process, which forks a child; CPU 1 picks the child;
    the parent waits. *)
Definition table_picked : ptable := match scheduler 0 boot_table with Ok _ s => s | _ => boot_table end.
Definition table_alloc : ptable := match alloc_slot table_picked with Ok _ s => s | _ => boot_table end.
Definition table_fields : ptable := match alloc_fields 1 4096 8000 table_alloc with Ok _ s => s | _ => boot_table end.
Definition table_forked : ptable :=
  match modp 1 (fun p => set_state RUNNABLE (set_parent (Some 0%nat)
    (set_own 4096 0 4096 8000 (replicate NOFILE None) None [] p))) table_fields with Ok _ s => s | _ => boot_table end.
Definition table_waiting : ptable := match sleep 0 0 (ChanProc 0) table_forked with Ok _ s => s | _ => boot_table end.

Lemma run_to_forked : prun boot_table [Pick 0 (Some 0%nat); Other; Other; Other] table_forked.
Proof.
  eapply run_cons; [eapply (st_sched boot_table 0 _ (Some 0%nat) table_picked); compute_step|].
  assert (R : runs table_picked 0 0) by (by exists (MkPcpu (Some 0%nat) 1 true)).
  eapply run_cons; [apply (st_alloc table_picked 0 0 1 table_alloc R); compute_step|].
  eapply run_cons; [apply (st_fields table_alloc 1 4096 8000 table_fields); compute_step|].
  assert (R' : runs table_fields 0 0) by (by exists (MkPcpu (Some 0%nat) 1 true)).
  eapply run_cons; [|apply run_nil].
  apply (st_publish table_fields 0 0 1 4096 0 4096 8000 (replicate NOFILE None) None []); [done|compute_step..].
Qed.

Lemma run_to_waiting : prun table_forked [Other] table_waiting.
Proof.
  eapply run_cons; [|apply run_nil].
  apply (st_wait table_forked 0 0); [by exists (MkPcpu (Some 0%nat) 1 true)|compute_step..].
Qed.

(** ** The invariant *)

(** C13: The process table stays well formed.  From the first process on, whatever
    the CPUs do and in whatever order: live processes have distinct positive
    process ids; a process is [RUNNING] exactly when a CPU runs it, and then
    one CPU only; every process but [init] has a parent, other than itself,
    that is neither a zombie nor a free slot, so somebody can wait for it;
    [init] never exits; and a slot that is free, in the making or a zombie has
    no open files and no current directory. *)
Theorem process_table_invariant s0 es s :
  first_process s0 -> prun s0 es s ->
  (forall i j, p_state (slot s i) <> UNUSED -> p_state (slot s j) <> UNUSED ->
     0 < p_pid (slot s i) /\ (p_pid (slot s i) = p_pid (slot s j) -> i = j)) /\
  (forall i, p_state (slot s i) = RUNNING <-> exists c, runs s c i) /\
  (forall c d i, runs s c i -> runs s d i -> c = d) /\
  (forall i, ~ idle (slot s i) -> initproc s <> Some i ->
     exists q, p_parent (slot s i) = Some q /\ active (slot s q) /\ q <> i) /\
  (exists z, initproc s = Some z /\ active (slot s z)) /\
  (forall i, ~ active (slot s i) -> p_ofile (slot s i) = replicate NOFILE None /\ p_cwd (slot s i) = None).
Proof.
  intros Hf Hr. pose proof (prun_ok _ _ _ (first_process_ok _ Hf) Hr) as I. split_and!.
  - intros i j Hi Hj. split; [by apply (pt_pid s I)|by apply (pt_unique s I)].
  - intros i. split; [apply (pt_running s I)|]. intros [c Hc]. by apply (pt_runs s I c).
  - apply (pt_one_cpu s I).
  - apply (pt_parent s I).
  - destruct (pt_init s I) as (z & ? & ? & _). by exists z.
  - intros i. apply (so_files _ (pt_slot s I i)).
Qed.

Lemma process_table_invariant_witness :
  p_pid (slot table_forked 1) = 2 /\ exists q, p_parent (slot table_forked 1) = Some q /\ active (slot table_forked q).
Proof.
  destruct (process_table_invariant boot_table _ table_forked boot_first run_to_forked) as (_ & _ & _ & H & _).
  split; [compute_step|]. destruct (H 1%nat) as (q & Eq & Ha & _).
  - intros [E|E]; vm_compute in E; discriminate.
  - vm_compute. discriminate.
  - by exists q.
Defined.

(** C14: No wake-up is lost between [exit] and [wait].  At no point of any run is a
    process asleep in [wait] or [wait_stat] while a child of its own is a
    zombie: a child that exits first is found by the scan, and one that exits
    later, or is handed on to [init], wakes its parent. *)
Theorem wait_no_lost_wakeup s0 es s i j :
  first_process s0 -> prun s0 es s ->
  p_state (slot s i) = SLEEPING -> p_chan (slot s i) = Some (ChanProc i) ->
  p_parent (slot s j) = Some i -> p_state (slot s j) <> ZOMBIE.
Proof.
  intros Hf Hr Hs Hc. pose proof (prun_ok _ _ _ (first_process_ok _ Hf) Hr) as I.
  by apply (pt_wait s I).
Qed.

Lemma wait_no_lost_wakeup_witness : p_state (slot table_waiting 1) <> ZOMBIE.
Proof.
  apply (wait_no_lost_wakeup boot_table _ table_waiting 0 1 boot_first (prun_app _ _ _ _ _ run_to_forked run_to_waiting));
    compute_step.
Defined.

(** ** The scheduler *)

(** The turns of the scheduler of CPU [c]. *)
Fixpoint picks (c : nat) (es : list pevent) : nat :=
  match es with
  | [] => 0
  | Pick d _ :: r => if decide (d = c) then S (picks c r) else picks c r
  | _ :: r => picks c r
  end.

Lemma picks_cons c e es :
  (exists r, e = Pick c r /\ picks c (e :: es) = S (picks c es)) \/
  ((forall r, e <> Pick c r) /\ picks c (e :: es) = picks c es).
Proof.
  destruct e as [d r| |]; cbn; [|by right..].
  destruct (decide (d = c)) as [->|]; [left; by exists r|right]. split; [congruence|done].
Qed.

(** How far a scheduler at place [p] of the table is from slot [i]. *)
Definition distance (i p : nat) : nat := if decide (p <= i)%nat then i - p else NPROC - p + 1 + i.

Lemma pick_closer s c r s' i :
  pt_ok s -> (c < length (cpus s))%nat -> scheduler c s = Ok r s' -> p_state (slot s i) = RUNNABLE -> r <> Some i ->
  (distance i (c_p (cpus s' !!! c)) < distance i (c_p (cpus s !!! c)))%nat.
Proof.
  intros I Hc H Hi Hr. apply scheduler_inv in H as (_ & _ & _ & H); [|apply I].
  assert (Hlt : (i < NPROC)%nat) by (rewrite <- (pt_len s I); apply live_lt; congruence).
  set (p := c_p (cpus s !!! c)) in *. destruct r as [k|].
  - destruct H as (_ & Hcp & Hk & Hst & _ & Hno). rewrite Hcp, list_lookup_total_insert_eq by done. cbn [c_p].
    assert (k <> i) by congruence.
    assert ((p <= i)%nat -> (k < i)%nat).
    { intros Hp. destruct (decide (i < k)%nat); [|lia]. destruct (Hno i); [lia|done]. }
    unfold distance. repeat case_decide; lia.
  - destruct H as (_ & Hcp & Hno). rewrite Hcp, list_lookup_total_insert_eq by done. cbn [c_p].
    assert (~ (p <= i)%nat) by (intros Hp; by destruct (Hno i Hp)).
    unfold distance. repeat case_decide; lia.
Qed.

Lemma picked_in_run s es s' c i :
  pt_ok s -> prun s es s' -> p_state (slot s i) = RUNNABLE ->
  (distance i (c_p (cpus s !!! c)) < picks c es)%nat -> exists d, Pick d (Some i) ∈ es.
Proof.
  intros I H. induction H as [s|s e s1 es s2 H1 H2 IH]; intros Hi Hd; [cbn in Hd; lia|].
  assert (Ha : active (slot s i)) by (right; by left).
  destruct (pstep_effect s e s1 i I H1 Ha) as [Hef Hpos].
  assert (Hcase : p_state (slot s1 i) = RUNNABLE \/ exists d, e = Pick d (Some i)).
  { destruct e; [by apply Hef| |by apply Hef]. cbn in Hef. left. rewrite Hef. unfold count_tick.
    rewrite Hi. by rewrite !decide_False, decide_True by done. }
  destruct Hcase as [Hq|[d ->]]; [|exists d; by left].
  destruct (picks_cons c e es) as [(r & -> & Ep)|[He Ep]]; rewrite Ep in Hd.
  - destruct (decide (r = Some i)) as [->|Hr]; [exists c; by left|].
    destruct IH as [d Hin]; [by apply (pstep_ok s (Pick c r))|done| |exists d; by right].
    inversion H1 as [| | | | | | | | | | | | | | |c' x r' s'' Hx Hn E]; subst.
    pose proof (pick_closer s c r s1 i I (lookup_lt_Some _ _ _ Hx) E Hi Hr). lia.
  - destruct IH as [d Hin]; [by apply (pstep_ok s e)|done| |exists d; by right].
    by rewrite Hpos.
Qed.

(** C15: No process starves.  Once a process is [RUNNABLE], any run in which some
    CPU's scheduler takes more than [NPROC] turns contains a turn, of that CPU
    or of another, that switches to the process: at most one pass over the
    table goes by. *)
Theorem scheduler_no_starvation s0 es0 s es s' c i :
  first_process s0 -> prun s0 es0 s -> p_state (slot s i) = RUNNABLE ->
  prun s es s' -> (NPROC < picks c es)%nat ->
  exists d, Pick d (Some i) ∈ es.
Proof.
  intros Hf Hr0 Hi Hr Hp. pose proof (prun_ok _ _ _ (first_process_ok _ Hf) Hr0) as I.
  eapply picked_in_run; [done..|].
  assert ((i < NPROC)%nat) by (rewrite <- (pt_len s I); apply live_lt; congruence).
  instantiate (1 := c). unfold distance. case_decide; lia.
Qed.

Definition table_idle : ptable := match scheduler 1 table_picked with Ok _ s => s | _ => boot_table end.

Lemma idle_turns n : prun table_idle (replicate n (Pick 1 None)) table_idle.
Proof.
  induction n as [|n IH]; cbn; [apply run_nil|]. eapply run_cons; [|exact IH].
  apply (st_sched table_idle 1 (MkPcpu None 0 false)); compute_step.
Qed.

Lemma scheduler_no_starvation_witness :
  exists d, Pick d (Some 0%nat) ∈ Pick 0 (Some 0%nat) :: replicate 65 (Pick 1 None).
Proof.
  apply (scheduler_no_starvation boot_table [] boot_table _ table_idle 1 0 boot_first (run_nil _)).
  - compute_step.
  - eapply run_cons; [apply (st_sched boot_table 0 (MkPcpu None 0 true) (Some 0%nat) table_picked); compute_step|].
    eapply run_cons; [apply (st_sched table_picked 1 (MkPcpu None 0 true) None table_idle); compute_step|].
    apply (idle_turns 64).
  - vm_compute. lia.
Defined.

(** The scheduler does not look at creation times.  Whatever the creation
    times, the process switched to is the first [RUNNABLE] one from the place
    of this CPU's loop on, in table order: the comparison with [first] never
    takes part, so processes are not served in the order they were created. *)
Theorem scheduler_ignores_ctime s c i s' (t : nat -> Z) :
  length (procs s) = NPROC -> (c < length (cpus s))%nat ->
  scheduler c s = Ok (Some i) s' ->
  let retimed := imap (fun j p => set_times (t j) (p_ttime p) (p_stime p) (p_retime p) (p_rutime p) p) (procs s) in
  (forall j, (c_p (cpus s !!! c) <= j < NPROC)%nat -> p_state (slot s j) = RUNNABLE -> (i <= j)%nat) /\
  exists s'', scheduler c (set_procs retimed s) = Ok (Some i) s''.
Proof.
  intros Hl Hc H retimed. pose proof (scheduler_inv c s (Some i) s' H Hl) as (_ & _ & _ & _ & _ & Hi & Hst & Hx & Hno).
  split.
  - intros j Hj Hs. destruct (decide (j < i)%nat); [|lia]. by destruct (Hno j); [lia|].
  - assert (Hret : forall j, (j < NPROC)%nat -> p_state (retimed !!! j) = p_state (slot s j) /\
      p_context (retimed !!! j) = p_context (slot s j)).
    { intros j Hj. unfold retimed, slot. rewrite !list_lookup_total_alt, list_lookup_imap.
      destruct (procs s !! j) eqn:E; [done|]. apply lookup_ge_None in E. lia. }
    apply scheduler_runs; cbn [procs cpus set_procs].
    + apply scan_table_first; [lia|by rewrite (proj1 (Hret i ltac:(lia)))|].
      intros j Hj. rewrite (proj1 (Hret j ltac:(lia))). apply Hno. lia.
    + unfold retimed. rewrite length_imap. lia.
    + unfold slot. cbn. by rewrite (proj2 (Hret i ltac:(lia))).
Qed.

(** Slot 2 was made before slot 1; the scheduler picks slot 1. *)
Definition two_runnable : ptable :=
  MkPtable (zero_proc :: set_times 9 0 0 0 0 (set_state RUNNABLE (set_pid 3 zero_proc)) ::
      set_times 4 0 0 0 0 (set_state RUNNABLE (set_pid 2 zero_proc)) :: replicate 61 zero_proc)
    [MkPcpu None 0 true] (Some 0%nat) 4 9.

Lemma scheduler_ignores_ctime_witness :
  p_ctime (slot two_runnable 2) < p_ctime (slot two_runnable 1) /\
  exists s', scheduler 0 (set_procs (imap (fun j p => set_times (Z.of_nat j) (p_ttime p) (p_stime p) (p_retime p)
    (p_rutime p) p) (procs two_runnable)) two_runnable) = Ok (Some 1%nat) s'.
Proof.
  split; [vm_compute; reflexivity|].
  destruct (scheduler 0 two_runnable) as [r s'| | | |] eqn:E; [|vm_compute in E; discriminate..].
  assert (r = Some 1%nat) as -> by (vm_compute in E; congruence).
  apply (scheduler_ignores_ctime two_runnable 0 1 s' Z.of_nat); [compute_step|vm_compute; lia|exact E].
Defined.

(** ** Time *)

Definition turnaround (p : proc) : Z := p_stime p + p_retime p + p_rutime p.

(** The timer interrupts of a run. *)
Fixpoint timers (es : list pevent) : Z :=
  match es with
  | [] => 0
  | Timer :: r => 1 + timers r
  | _ :: r => timers r
  end.

(** A run in which [P] holds before every step. *)
Inductive prun_while (P : ptable -> Prop) (s : ptable) : list pevent -> ptable -> Prop :=
| while_nil : prun_while P s [] s
| while_cons e s1 es s2 : P s -> pstep s e s1 -> prun_while P s1 es s2 -> prun_while P s (e :: es) s2.

Lemma count_tick_turnaround p : active p -> u32 (turnaround (count_tick p)) = u32 (turnaround p + 1).
Proof.
  unfold turnaround, active, count_tick, u32. intros H.
  destruct (decide (p_state p = RUNNING)); [|destruct (decide (p_state p = SLEEPING));
    [|destruct (decide (p_state p = RUNNABLE)); [|tauto]]]; cbn [p_stime p_retime p_rutime set_times].
  - rewrite Zplus_mod_idemp_r. f_equal. lia.
  - rewrite <- Z.add_assoc, Zplus_mod_idemp_l. f_equal. lia.
  - rewrite (Z.add_comm (p_stime p)), <- Z.add_assoc, Zplus_mod_idemp_l. f_equal. lia.
Qed.

(** The accounting of time is exact.  While a process is alive, that is
    [SLEEPING], [RUNNABLE] or [RUNNING] before every step of the run, its
    sleeping, ready and running times together grow by the number of timer
    interrupts of the run, up to the width of a [uint]. *)
Theorem tick_accounting s0 es0 s es s' i :
  first_process s0 -> prun s0 es0 s -> prun_while (fun s => active (slot s i)) s es s' ->
  u32 (turnaround (slot s' i)) = u32 (turnaround (slot s i) + timers es).
Proof.
  intros Hf Hr H. pose proof (prun_ok _ _ _ (first_process_ok _ Hf) Hr) as I. clear Hf Hr.
  induction H as [s|s e s1 es s2 Ha H1 _ IH]; cbn; [f_equal; lia|].
  rewrite (IH (pstep_ok s e s1 I H1)). destruct (pstep_effect s e s1 i I H1 Ha) as [Hef _].
  assert (E : e <> Timer -> turnaround (slot s1 i) = turnaround (slot s i)).
  { intros He. unfold turnaround. destruct e; [|done|]; destruct Hef as [(-> & -> & ->) _]; done. }
  destruct e; [by rewrite E| |by rewrite E]. cbn in Hef. rewrite Hef. clear E IH.
  unfold u32. rewrite <- Zplus_mod_idemp_l. fold (u32 (turnaround (count_tick (slot s i)))).
  rewrite count_tick_turnaround by done. unfold u32. rewrite Zplus_mod_idemp_l. f_equal. lia.
Qed.

Lemma tick_accounting_witness :
  exists s', u32 (turnaround (slot s' 1)) = 2.
Proof.
  pose (t1 := match timer_tick table_forked with Ok _ s => s | _ => boot_table end).
  pose (t2 := match timer_tick t1 with Ok _ s => s | _ => boot_table end).
  exists t2. etransitivity; [apply (tick_accounting boot_table _ table_forked [Timer; Timer] t2 1 boot_first run_to_forked)|].
  - eapply while_cons; [right; left; compute_step|apply (st_timer table_forked t1); compute_step|].
    eapply while_cons; [right; left; compute_step|apply (st_timer t1 t2); compute_step|]. apply while_nil.
  - compute_step.
Defined.
