(* ===== verification/Pipe.v ===== *)
(** * Pipes (HW3/pipe.c)

    A [struct pipe] lives in a page from [kalloc]; its fields are read and
    written at their offsets in memory.  [pipewrite] and [piperead] may sleep
    and go on when woken: each is modelled as the section it runs under
    [p->lock], from entry or from a wake-up to the next sleep or the return.
    [sleep] gives up the lock and the CPU in one step of the process table.

    The caller's buffer is a byte list. *)

From stdpp Require Import base numbers list gmap sets strings.
From Stdlib Require Import ZArith Lia.
From S2P Require Import Prelude Frames CStrings Ptable.

Open Scope Z_scope.

Definition PIPESIZE : Z := 512.

(** The offsets of the fields of [struct pipe]; the lock is 52 bytes. *)
Definition o_data : Z := 52.
Definition o_nread : Z := 564.
Definition o_nwrite : Z := 568.
Definition o_readopen : Z := 572.
Definition o_writeopen : Z := 576.
Definition pipe_bytes : Z := 580.

Section pipe.
Context {K : Type} `{!Frames K}.

(** Memory and the process table. *)
Record core := MkCore { co_mem : K; co_pt : ptable }.

Definition inmem {A} (m : M K A) : M core A := lift co_mem (fun k s => MkCore k (co_pt s)) m.
Definition inpt {A} (m : M ptable A) : M core A := lift co_pt (fun t s => MkCore (co_mem s) t) m.

Definition ld (a : Z) : M core Z := reads (fun s => load32 (fr_mem (co_mem s)) a).
Definition st (a v : Z) : M core unit :=
  modify (fun s => MkCore (fr_set (store32 (fr_mem (co_mem s)) a v) (co_mem s)) (co_pt s)).
Definition ldb (a : Z) : M core Z := reads (fun s => fr_mem (co_mem s) a).
Definition stb (a v : Z) : M core unit :=
  modify (fun s => MkCore (fr_set (upd (fr_mem (co_mem s)) a v) (co_mem s)) (co_pt s)).

(** The part of [pipealloc] that fills in the new pipe; [initlock] clears the
    lock word and its holder and stores the address of its name. *)
Definition pipe_init (p name : Z) : M core unit :=
  st (p + o_readopen) 1;;
  st (p + o_writeopen) 1;;
  st (p + o_nwrite) 0;;
  st (p + o_nread) 0;;
  st (p + 4) name;;
  st p 0;;
  st (p + 8) 0.

Definition pipeclose (p : Z) (writable : bool) : M core unit :=
  (if writable then
     st (p + o_writeopen) 0;;
     inpt (wakeup (ChanPipeRead p))
   else
     st (p + o_readopen) 0;;
     inpt (wakeup (ChanPipeWrite p)));;
  r ← ld (p + o_readopen);
  w ← ld (p + o_writeopen);
  when ((r =? 0) && (w =? 0)) (inmem (kfree p)).

(** Returned, or asleep with these bytes still to write. *)
Inductive wrote := WDone (r : Z) | WSleep (rest : list Z).

(** [pipewrite] of a call for [n] bytes, with the bytes still to write, by
    process [me] on CPU [c]. *)
Fixpoint pipewrite_from (c me : nat) (p n : Z) (src : list Z) : M core wrote :=
  match src with
  | [] =>
      inpt (wakeup (ChanPipeRead p));;
      mret (WDone n)
  | b :: rest =>
      nw ← ld (p + o_nwrite);
      nr ← ld (p + o_nread);
      if nw =? u32 (nr + PIPESIZE) then
        ro ← ld (p + o_readopen);
        q ← inpt (getp me);
        if (ro =? 0) || negb (p_killed q =? 0) then mret (WDone (-1)) else
        inpt (wakeup (ChanPipeRead p));;
        inpt (sleep c me (ChanPipeWrite p));;
        mret (WSleep src)
      else
        st (p + o_nwrite) (u32 (nw + 1));;
        stb (p + o_data + nw mod PIPESIZE) b;;
        pipewrite_from c me p n rest
  end.

(** [pipewrite(p, addr, n)]; [src] is what [n] bytes at [addr] are, none of them
    when [n] is negative. *)
Definition pipewrite (c me : nat) (p : Z) (src : list Z) (n : Z) : M core wrote :=
  pipewrite_from c me p n src.

(** Returned with these bytes read, or asleep. *)
Inductive got := RDone (r : Z) (bs : list Z) | RSleep.

(** The copy loop of [piperead]. *)
Fixpoint piperead_copy (p : Z) (n : nat) : M core (list Z) :=
  match n with
  | O => mret []
  | S n' =>
      nr ← ld (p + o_nread);
      nw ← ld (p + o_nwrite);
      if nr =? nw then mret [] else
      st (p + o_nread) (u32 (nr + 1));;
      b ← ldb (p + o_data + nr mod PIPESIZE);
      bs ← piperead_copy p n';
      mret (b :: bs)
  end.

Definition piperead (c me : nat) (p n : Z) : M core got :=
  nr ← ld (p + o_nread);
  nw ← ld (p + o_nwrite);
  wo ← ld (p + o_writeopen);
  if (nr =? nw) && negb (wo =? 0) then
    q ← inpt (getp me);
    if negb (p_killed q =? 0) then mret (RDone (-1) []) else
    inpt (sleep c me (ChanPipeRead p));;
    mret RSleep
  else
    bs ← piperead_copy p (Z.to_nat n);
    inpt (wakeup (ChanPipeWrite p));;
    mret (RDone (Z.of_nat (length bs)) bs).

End pipe.
