(* ===== verification/PipeSpec.v ===== *)
(** * A pipe is a bounded first-in first-out queue

    [pipe_rep m p q]: the pipe at [p] in memory [m] holds the bytes [q], the
    oldest first.  Writes append, reads take from the front, across any
    interleaving of writers and readers that sleep and are woken; the counters
    may wrap.  A reader sleeps only while the pipe is empty and a writer only
    while it is full, but for one case: a writer that finds itself killed
    leaves without waking the readers. *)

From stdpp Require Import base numbers list gmap sets strings relations.
From Stdlib Require Import ZArith Lia.
From S2P Require Import Prelude CStrings Frames Ptable PtableInv PtableClaims Pipe Kalloc.

Open Scope Z_scope.

Ltac Zify.zify_post_hook ::= Z.to_euclidean_division_equations.

Lemma load32_upd_ne m a v b : a < b \/ b + 4 <= a -> load32 (upd m a v) b = load32 m b.
Proof. intros H. unfold load32. by rewrite !upd_ne by lia. Qed.

Record pipe_rep (m : mem) (p : Z) (q : list Z) : Prop := {
  pr_nread : 0 <= load32 m (p + o_nread) < 2 ^ 32;
  pr_nwrite : load32 m (p + o_nwrite) = u32 (load32 m (p + o_nread) + Z.of_nat (length q));
  pr_length : Z.of_nat (length q) <= PIPESIZE;
  pr_data : forall k b, q !! k = Some b ->
    m (p + o_data + (load32 m (p + o_nread) + Z.of_nat k) mod PIPESIZE) = b
}.

Lemma u32_mod512 z : u32 z mod 512 = z mod 512.
Proof. unfold u32. lia. Qed.

Lemma rep_full m p q :
  pipe_rep m p q ->
  (load32 m (p + o_nwrite) =? u32 (load32 m (p + o_nread) + PIPESIZE)) = bool_decide (Z.of_nat (length q) = PIPESIZE).
Proof.
  intros [H1 H2 H3 _]. rewrite H2. unfold PIPESIZE, u32 in *. revert H1 H3. generalize (load32 m (p + o_nread)).
  intros nr H1 H3. case_bool_decide; [apply Z.eqb_eq|apply Z.eqb_neq]; lia.
Qed.

Lemma rep_empty m p q :
  pipe_rep m p q -> (load32 m (p + o_nread) =? load32 m (p + o_nwrite)) = bool_decide (q = []).
Proof.
  intros [H1 H2 H3 _]. rewrite H2. unfold PIPESIZE, u32 in *. revert H1 H3. generalize (load32 m (p + o_nread)).
  intros nr H1 H3. case_bool_decide as E; [apply Z.eqb_eq; subst; cbn; lia|apply Z.eqb_neq].
  destruct q; [done|]. cbn in *. lia.
Qed.

(** One byte in. *)
Lemma rep_put m p q b :
  pipe_rep m p q -> Z.of_nat (length q) < PIPESIZE ->
  let nw := load32 m (p + o_nwrite) in
  let m' := upd (store32 m (p + o_nwrite) (u32 (nw + 1))) (p + o_data + nw mod PIPESIZE) b in
  pipe_rep m' p (q ++ [b]).
Proof.
  intros [H1 H2 H3 H4] Hl nw m'. unfold o_nread, o_nwrite, o_data, PIPESIZE in *.
  assert (Hnw : 0 <= nw mod 512 < 512) by lia.
  assert (Er : load32 m' (p + 564) = load32 m (p + 564)).
  { unfold m'. rewrite load32_upd_ne by lia. by rewrite load32_store32_ne by lia. }
  assert (Ew : load32 m' (p + 568) = u32 (nw + 1)).
  { unfold m'. rewrite load32_upd_ne by lia. rewrite load32_store32_eq. unfold u32. lia. }
  split; unfold o_nread, o_nwrite, o_data, PIPESIZE; rewrite ?Er, ?Ew; try done.
  - unfold nw. rewrite H2, length_app. cbn [length]. unfold u32. lia.
  - rewrite length_app. cbn. lia.
  - intros k x Hk. assert (Enw : nw mod 512 = (load32 m (p + 564) + Z.of_nat (length q)) mod 512)
      by (unfold nw; rewrite H2; apply u32_mod512).
    apply lookup_app_Some in Hk as [Hk|[Hk Hx]].
    + pose proof (lookup_lt_Some _ _ _ Hk). unfold m'. rewrite upd_ne by lia.
      rewrite store32_ne by lia. by apply H4.
    + assert (k = length q /\ x = b) as [-> ->].
      { destruct (k - length q)%nat as [|n] eqn:Ek; [|done]. injection Hx as ->. lia. }
      rewrite <- Enw. apply upd_eq.
Qed.

(** One byte out. *)
Lemma rep_take m p b q :
  pipe_rep m p (b :: q) ->
  let nr := load32 m (p + o_nread) in
  let m' := store32 m (p + o_nread) (u32 (nr + 1)) in
  pipe_rep m' p q /\ m' (p + o_data + nr mod PIPESIZE) = b.
Proof.
  intros [H1 H2 H3 H4] nr m'. unfold o_nread, o_nwrite, o_data, PIPESIZE in *. cbn [length] in *.
  assert (Er : load32 m' (p + 564) = u32 (nr + 1)).
  { unfold m'. rewrite load32_store32_eq. unfold u32. lia. }
  assert (Ew : load32 m' (p + 568) = load32 m (p + 568)) by (unfold m'; by rewrite load32_store32_ne by lia).
  split.
  - split; unfold o_nread, o_nwrite, o_data, PIPESIZE; rewrite ?Er, ?Ew.
    + apply u32_range.
    + rewrite H2. fold nr. unfold u32. lia.
    + lia.
    + intros k x Hk. specialize (H4 (S k) x Hk). rewrite <- H4. fold nr.
      assert (E : (u32 (nr + 1) + Z.of_nat k) mod 512 = (nr + Z.of_nat (S k)) mod 512) by (unfold u32; lia).
      rewrite E. unfold m'. rewrite store32_ne by lia. done.
  - unfold m'. rewrite store32_ne by lia. specialize (H4 0%nat b eq_refl). fold nr in H4.
    by rewrite Z.add_0_r in H4.
Qed.

(** Nothing but the data and the counters of the pipe changes. *)
Definition only_queue (p : Z) (m m' : mem) : Prop :=
  forall a, a < p + o_data \/ p + o_readopen <= a -> m' a = m a.

Lemma only_queue_trans p m1 m2 m3 : only_queue p m1 m2 -> only_queue p m2 m3 -> only_queue p m1 m3.
Proof. intros H1 H2 a Ha. by rewrite H2, H1. Qed.

Lemma only_queue_ro p m m' : only_queue p m m' ->
  load32 m' (p + o_readopen) = load32 m (p + o_readopen) /\
  load32 m' (p + o_writeopen) = load32 m (p + o_writeopen).
Proof. intros H. unfold load32. split; rewrite !H; unfold o_readopen, o_writeopen; auto; lia. Qed.

Section sections.
Context {K : Type} `{!Frames K, !FramesOk K}.

Definition cmem (s : core (K := K)) : mem := fr_mem (co_mem s).

Lemma st_ok a v s : exists s', st a v s = Ok tt s' /\ cmem s' = store32 (cmem s) a v /\ co_pt s' = co_pt s.
Proof. eexists. split; [done|]. unfold cmem. cbn. by rewrite fr_mem_set. Qed.

Lemma st_mem a v s u s' : st a v s = Ok u s' -> cmem s' = store32 (cmem s) a v /\ co_pt s' = co_pt s.
Proof. intros H. destruct (st_ok a v s) as (s1 & E & ?). rewrite H in E. by injection E as _ ->. Qed.

Lemma stb_ok a v s : exists s', stb a v s = Ok tt s' /\ cmem s' = upd (cmem s) a v /\ co_pt s' = co_pt s.
Proof. eexists. split; [done|]. unfold cmem. cbn. by rewrite fr_mem_set. Qed.

Lemma inpt_ok {A} (f : M ptable A) s a t :
  f (co_pt s) = Ok a t -> exists s', inpt f s = Ok a s' /\ cmem s' = cmem s /\ co_pt s' = t.
Proof. intros E. unfold inpt, lift. rewrite E. by eexists. Qed.

Lemma sleep_total c me ch t : exists t', sleep c me ch t = Ok tt t'.
Proof.
  unfold sleep. rewrite (bind_ok (modp me _) _ _ _ _ eq_refl), (bind_ok (modp me _) _ _ _ _ eq_refl).
  apply sched_ok. unfold slot. cbn. destruct (decide (me < length (procs t))%nat).
  - rewrite list_lookup_total_insert_eq; [done|]. by rewrite length_insert.
  - rewrite list_lookup_total_alt, lookup_ge_None_2; [done|]. rewrite !length_insert. lia.
Qed.

(** What [pipewrite] has done when it returns or sleeps: [bs] went in. *)
Definition wrote_by (c me : nat) (p n : Z) (bs rest : list Z) (s : core) (q : list Z) (r : wrote) (s' : core) : Prop :=
  pipe_rep (cmem s') p (q ++ bs) /\ only_queue p (cmem s) (cmem s') /\
  load32 (cmem s') (p + o_nread) = load32 (cmem s) (p + o_nread) /\
  match r with
  | WDone r =>
      (r = n /\ rest = [] /\ co_pt s' = woken (ChanPipeRead p) (co_pt s)) \/
      (r = -1 /\ rest <> [] /\ Z.of_nat (length (q ++ bs)) = PIPESIZE /\ co_pt s' = co_pt s /\
       (load32 (cmem s) (p + o_readopen) = 0 \/ p_killed (slot (co_pt s) me) <> 0))
  | WSleep rest' =>
      rest' = rest /\ rest <> [] /\ Z.of_nat (length (q ++ bs)) = PIPESIZE /\
      load32 (cmem s) (p + o_readopen) <> 0 /\ p_killed (slot (co_pt s) me) = 0 /\
      sleep c me (ChanPipeWrite p) (woken (ChanPipeRead p) (co_pt s)) = Ok tt (co_pt s')
  end.

Definition wrote_ok (c me : nat) (p n : Z) (src : list Z) (s : core) (q : list Z) (r : wrote) (s' : core) : Prop :=
  exists bs rest, src = bs ++ rest /\ wrote_by c me p n bs rest s q r s'.

Lemma pipewrite_ok c me p n src s q :
  pipe_rep (cmem s) p q ->
  exists r s', pipewrite_from c me p n src s = Ok r s' /\ wrote_ok c me p n src s q r s'.
Proof.
  unfold wrote_ok, wrote_by.
  revert s q. induction src as [|b rest IH]; intros s q R; cbn [pipewrite_from].
  - destruct (inpt_ok (wakeup (ChanPipeRead p)) s tt (woken (ChanPipeRead p) (co_pt s)) eq_refl) as (s' & E & Em & Et).
    exists (WDone n), s'. rewrite (bind_ok _ _ _ _ _ E). split; [done|]. exists [], [].
    rewrite (app_nil_r q), Em. split_and!; try done. by left.
  - rewrite (bind_ok (ld _) _ _ _ _ eq_refl), (bind_ok (ld _) _ _ _ _ eq_refl). fold (cmem s).
    rewrite (rep_full _ _ _ R). case_bool_decide as Hf.
    + rewrite (bind_ok (ld _) _ _ _ _ eq_refl). fold (cmem s).
      rewrite (bind_ok (inpt (getp me)) _ s (slot (co_pt s) me) s) by (by destruct s).
      destruct ((_ =? 0) || _) eqn:Ek.
      * exists (WDone (-1)), s. split; [done|]. exists [], (b :: rest). rewrite (app_nil_r q). split_and!; try done.
        right. split_and!; try done. apply orb_true_iff in Ek as [Ek|Ek]; [left|right]; lia.
      * apply orb_false_iff in Ek as [Er Ek].
        destruct (inpt_ok (wakeup (ChanPipeRead p)) s tt (woken (ChanPipeRead p) (co_pt s)) eq_refl) as (s1 & E1 & Em1 & Et1).
        rewrite (bind_ok _ _ _ _ _ E1).
        destruct (sleep_total c me (ChanPipeWrite p) (co_pt s1)) as [t' Hs].
        destruct (inpt_ok _ s1 tt t' Hs) as (s2 & E2 & Em2 & Et2). rewrite (bind_ok _ _ _ _ _ E2).
        exists (WSleep (b :: rest)), s2. split; [done|]. exists [], (b :: rest).
        rewrite (app_nil_r q), Em2, Em1. split_and!; try done; try lia. rewrite Et2. by rewrite <- Et1.
    + destruct (st_ok (p + o_nwrite) (u32 (load32 (cmem s) (p + o_nwrite) + 1)) s) as (s1 & E1 & Em1 & Et1).
      rewrite (bind_ok _ _ _ _ _ E1).
      destruct (stb_ok (p + o_data + load32 (cmem s) (p + o_nwrite) mod PIPESIZE) b s1) as (s2 & E2 & Em2 & Et2).
      rewrite (bind_ok _ _ _ _ _ E2). rewrite Em1 in Em2.
      assert (Hlt : Z.of_nat (length q) < PIPESIZE) by (pose proof (pr_length _ _ _ R); lia).
      pose proof (rep_put _ _ _ b R Hlt) as R2. cbn zeta in R2. rewrite <- Em2 in R2.
      assert (Ho : only_queue p (cmem s) (cmem s2)).
      { intros a Ha. rewrite Em2. unfold o_data, o_readopen, o_nwrite, PIPESIZE in *.
        rewrite upd_ne by lia. rewrite store32_ne by lia. done. }
      destruct (IH s2 (q ++ [b]) R2) as (r & s' & E & bs & rest' & Hsrc & R' & Ho' & Hn & Hr).
      exists r, s'. split; [done|]. exists (b :: bs), rest'. rewrite Hsrc.
      destruct (only_queue_ro _ _ _ Ho) as [Hro _].
      assert (Hn2 : load32 (cmem s2) (p + o_nread) = load32 (cmem s) (p + o_nread)).
      { rewrite Em2. unfold o_nread, o_nwrite, o_data, PIPESIZE.
        rewrite load32_upd_ne by lia. by rewrite load32_store32_ne by lia. }
      rewrite Hn2 in Hn. rewrite Et2, Et1, Hro, <- app_assoc in *. cbn in *. split_and!; try done. by eapply only_queue_trans.
Qed.

Lemma piperead_copy_ok p n s q :
  pipe_rep (cmem s) p q ->
  exists s', piperead_copy p n s = Ok (take n q) s' /\ pipe_rep (cmem s') p (drop n q) /\
    only_queue p (cmem s) (cmem s') /\ co_pt s' = co_pt s.
Proof.
  revert s q. induction n as [|n IH]; intros s q R; cbn [piperead_copy].
  - exists s. rewrite drop_0. by destruct q.
  - rewrite (bind_ok (ld _) _ _ _ _ eq_refl), (bind_ok (ld _) _ _ _ _ eq_refl). fold (cmem s).
    rewrite (rep_empty _ _ _ R). case_bool_decide as Hq.
    + subst. exists s. by split_and!.
    + destruct q as [|b q]; [done|].
      destruct (st_ok (p + o_nread) (u32 (load32 (cmem s) (p + o_nread) + 1)) s) as (s1 & E1 & Em1 & Et1).
      rewrite (bind_ok _ _ _ _ _ E1).
      destruct (rep_take _ _ _ _ R) as [R1 Hb]. rewrite <- Em1 in R1, Hb.
      rewrite (bind_ok (ldb _) _ _ _ _ eq_refl). fold (cmem s1). rewrite Hb.
      destruct (IH s1 q R1) as (s' & E & R' & Ho & Et). exists s'. rewrite (bind_ok _ _ _ _ _ E).
      split_and!; try done; [|congruence]. eapply only_queue_trans; [|exact Ho]. intros a Ha. rewrite Em1.
      unfold o_data, o_readopen, o_nread in *. rewrite store32_ne by lia. done.
Qed.

(** What [piperead] has done: the bytes it returns came from the front. *)
Definition read_ok (c me : nat) (p n : Z) (s : core) (q : list Z) (r : got) (s' : core) : Prop :=
  only_queue p (cmem s) (cmem s') /\
  match r with
  | RSleep =>
      q = [] /\ load32 (cmem s) (p + o_writeopen) <> 0 /\ p_killed (slot (co_pt s) me) = 0 /\
      cmem s' = cmem s /\ sleep c me (ChanPipeRead p) (co_pt s) = Ok tt (co_pt s')
  | RDone r bs =>
      (r = -1 /\ bs = [] /\ s' = s /\ q = [] /\ p_killed (slot (co_pt s) me) <> 0) \/
      (r = Z.of_nat (length bs) /\ bs = take (Z.to_nat n) q /\ pipe_rep (cmem s') p (drop (Z.to_nat n) q) /\
       co_pt s' = woken (ChanPipeWrite p) (co_pt s) /\
       (q = [] -> load32 (cmem s) (p + o_writeopen) = 0))
  end.

Lemma piperead_ok c me p n s q :
  pipe_rep (cmem s) p q -> exists r s', piperead c me p n s = Ok r s' /\ read_ok c me p n s q r s'.
Proof.
  intros R. unfold piperead.
  rewrite (bind_ok (ld _) _ _ _ _ eq_refl), (bind_ok (ld _) _ _ _ _ eq_refl), (bind_ok (ld _) _ _ _ _ eq_refl).
  fold (cmem s). rewrite (rep_empty _ _ _ R). destruct (bool_decide (q = []) && _) eqn:E.
  - apply andb_true_iff in E as [Eq Ew]. apply bool_decide_eq_true in Eq.
    rewrite (bind_ok (inpt (getp me)) _ s (slot (co_pt s) me) s) by (by destruct s).
    destruct (negb (p_killed (slot (co_pt s) me) =? 0)) eqn:Ek.
    + exists (RDone (-1) []), s. split; [done|]. split; [by intros a _|]. left. split_and!; try done. lia.
    + destruct (sleep_total c me (ChanPipeRead p) (co_pt s)) as [t' Hs].
      destruct (inpt_ok _ s tt t' Hs) as (s2 & E2 & Em2 & Et2). rewrite (bind_ok _ _ _ _ _ E2).
      exists RSleep, s2. split; [done|]. split; [intros a _; by rewrite Em2|]. split_and!; try done; try lia.
      by rewrite Et2.
  - destruct (piperead_copy_ok p (Z.to_nat n) s q R) as (s1 & E1 & R1 & Ho & Et). rewrite (bind_ok _ _ _ _ _ E1).
    destruct (inpt_ok (wakeup (ChanPipeWrite p)) s1 tt (woken (ChanPipeWrite p) (co_pt s1)) eq_refl) as (s2 & E2 & Em2 & Et2).
    rewrite (bind_ok _ _ _ _ _ E2). exists (RDone (Z.of_nat (length (take (Z.to_nat n) q))) (take (Z.to_nat n) q)), s2.
    split; [done|]. rewrite <- Em2 in R1, Ho. split; [done|]. right. rewrite Et2, Et. split_and!; try done.
    intros Hq. rewrite bool_decide_eq_true_2 in E by done. cbn in E. lia.
Qed.

End sections.

(** ** Writers and readers together *)

Definition asleep (t : ptable) (i : nat) (ch : chan) : Prop :=
  p_state (slot t i) = SLEEPING /\ p_chan (slot t i) = Some ch.

Lemma asleep_woken ch t i ch' : asleep (woken ch t) i ch' -> asleep t i ch' /\ ch' <> ch.
Proof.
  unfold asleep, woken. destruct (wakeup_slot ch t) as (_ & _ & _ & ->). unfold wake_one.
  case_decide as H; cbn; [by intros [? _]|]. intros [H1 H2]. split; [done|]. intros ->. by apply H.
Qed.

Lemma asleep_sleep c me ch t t' i ch' :
  p_state (slot t me) = RUNNING -> sleep c me ch t = Ok tt t' -> asleep t' i ch' ->
  (i = me /\ ch' = ch) \/ asleep t i ch'.
Proof.
  intros Hr H Ha. assert (Hl : (me < length (procs t))%nat) by (apply live_lt; congruence).
  apply sleep_inv in H as [(_ & Re & Rn) _]; [|done].
  destruct (decide (i = me)) as [->|]; unfold asleep in *; rewrite ?Re, ?Rn in Ha by done; [|by right].
  left. cbn in Ha. destruct Ha. split; congruence.
Qed.

Lemma woken_running ch t i : p_state (slot t i) = RUNNING -> p_state (slot (woken ch t) i) = RUNNING.
Proof.
  unfold woken. destruct (wakeup_slot ch t) as (_ & _ & _ & ->). unfold wake_one. intros E.
  rewrite decide_False; [done|]. intros [? _]. congruence.
Qed.

Section interleaving.
Context {K : Type} `{!Frames K, !FramesOk K} (p : Z).

(** The machine, and every byte ever written to and read from the pipe. *)
Record psys := MkPsys { ps_core : core (K := K); ps_written : list Z; ps_read : list Z }.

(** The bytes a write section took in, by the counter. *)
Definition accepted (s s' : core (K := K)) (src : list Z) : list Z :=
  take (Z.to_nat (u32 (load32 (cmem s') (p + o_nwrite) - load32 (cmem s) (p + o_nwrite)))) src.

Definition bytes_of (r : got) : list Z := match r with RDone _ bs => bs | RSleep => [] end.

(** A writer that was killed leaves a pipe it has just filled. *)
Definition gives_up (s s' : core (K := K)) (src : list Z) (r : wrote) : Prop :=
  r = WDone (-1) /\ accepted s s' src <> [] /\ load32 (cmem s) (p + o_readopen) <> 0.

(** The pipe in use: sections of [pipewrite] and [piperead] by processes that
    have the end in question open, the closing of an end that nobody is using
    while the other is open, and whatever else the kernel does that leaves
    the page of the pipe and its two channels alone.  The label says whether a
    killed writer gave up. *)
Inductive pipe_step : psys -> Prop -> psys -> Prop :=
| ps_write s W R c me n src r s' :
    p_state (slot (co_pt s) me) = RUNNING -> load32 (cmem s) (p + o_writeopen) <> 0 ->
    0 <= n -> Z.of_nat (length src) <= n -> pipewrite_from c me p n src s = Ok r s' ->
    pipe_step (MkPsys s W R) (gives_up s s' src r) (MkPsys s' (W ++ accepted s s' src) R)
| ps_readn s W R c me n r s' :
    p_state (slot (co_pt s) me) = RUNNING -> load32 (cmem s) (p + o_readopen) <> 0 ->
    piperead c me p n s = Ok r s' ->
    pipe_step (MkPsys s W R) False (MkPsys s' W (R ++ bytes_of r))
| ps_close s W R (w : bool) s' :
    load32 (cmem s) (p + if w then o_readopen else o_writeopen) <> 0 ->
    (forall i, ~ asleep (co_pt s) i (if w then ChanPipeWrite p else ChanPipeRead p)) ->
    pipeclose p w s = Ok tt s' -> pipe_step (MkPsys s W R) False (MkPsys s' W R)
| ps_other s W R s' :
    (forall a, p <= a < p + pipe_bytes -> cmem s' a = cmem s a) ->
    (forall i ch, ch = ChanPipeRead p \/ ch = ChanPipeWrite p -> asleep (co_pt s') i ch -> asleep (co_pt s) i ch) ->
    pipe_step (MkPsys s W R) False (MkPsys s' W R).

Inductive pipe_run (quiet : bool) (x : psys) : psys -> Prop :=
| pr_nil : pipe_run quiet x x
| pr_cons G y z : pipe_step x G y -> (quiet = true -> ~ G) -> pipe_run quiet y z -> pipe_run quiet x z.

(** Just made by [pipealloc]: empty, both ends open, nobody asleep on it. *)
Definition fresh_pipe (s : core (K := K)) : Prop :=
  exists s0 name, pipe_init p name s0 = Ok tt s /\
  forall i ch, ch = ChanPipeRead p \/ ch = ChanPipeWrite p -> ~ asleep (co_pt s) i ch.

Record queue_inv (x : psys) (q : list Z) : Prop := {
  qi_rep : pipe_rep (cmem (ps_core x)) p q;
  qi_fifo : ps_written x = ps_read x ++ q
}.

(** Who sleeps: writers of a full pipe and, if no killed writer gave up,
    readers of an empty one. *)
Record sleepers_inv (quiet : bool) (s : core (K := K)) (q : list Z) : Prop := {
  si_read : quiet = true -> forall i, asleep (co_pt s) i (ChanPipeRead p) -> q = [] /\ load32 (cmem s) (p + o_writeopen) <> 0 /\ load32 (cmem s) (p + o_readopen) <> 0;
  si_write : forall i, asleep (co_pt s) i (ChanPipeWrite p) ->
    Z.of_nat (length q) = PIPESIZE /\ load32 (cmem s) (p + o_readopen) <> 0
}.

Lemma rep_ext m m' q : (forall a, p + o_data <= a < p + o_readopen -> m' a = m a) -> pipe_rep m p q -> pipe_rep m' p q.
Proof.
  intros H [H1 H2 H3 H4].
  assert (Er : load32 m' (p + o_nread) = load32 m (p + o_nread))
    by (unfold load32, o_nread, o_data, o_readopen in *; by rewrite !H by lia).
  assert (Ew : load32 m' (p + o_nwrite) = load32 m (p + o_nwrite))
    by (unfold load32, o_nwrite, o_data, o_readopen in *; by rewrite !H by lia).
  split; rewrite ?Er, ?Ew; try done. intros k b Hk. rewrite H; [by apply H4|].
  unfold o_data, o_readopen, PIPESIZE. lia.
Qed.

Lemma rep_zero m : load32 m (p + o_nread) = 0 -> load32 m (p + o_nwrite) = 0 -> pipe_rep m p [].
Proof. intros E1 E2. by split; rewrite ?E1, ?E2. Qed.

Lemma fresh_rep s : fresh_pipe s -> pipe_rep (cmem s) p [] /\ load32 (cmem s) (p + o_readopen) = 1 /\
  load32 (cmem s) (p + o_writeopen) = 1.
Proof.
  intros (s0 & name & H & _). unfold pipe_init in H. repeat minv H.
  repeat match goal with
  | X : st _ _ _ = Ok _ _ |- _ => apply st_mem in X as [? _]
  end.
  unfold o_nread, o_nwrite, o_readopen, o_writeopen in *.
  split_and!; [apply rep_zero; unfold o_nread, o_nwrite|..]; 
    repeat match goal with E : cmem ?x = _ |- context [cmem ?x] => rewrite E end;
    repeat first [rewrite load32_store32_eq; done | rewrite load32_store32_ne by lia].
Qed.

Lemma wrote_accepted c me n src s q r s' :
  pipe_rep (cmem s) p q -> wrote_ok c me p n src s q r s' ->
  exists rest, src = accepted s s' src ++ rest /\ wrote_by c me p n (accepted s s' src) rest s q r s'.
Proof.
  intros R (bs & rest & Hsrc & X). pose proof X as (R' & _ & Hn & _). exists rest.
  assert (E : accepted s s' src = bs); [|by rewrite E].
  unfold accepted. rewrite (pr_nwrite _ _ _ R'), (pr_nwrite _ _ _ R), Hn, length_app.
  pose proof (pr_length _ _ _ R'). rewrite length_app in *. unfold PIPESIZE in *.
  replace (Z.to_nat (u32 _)) with (length bs); [by rewrite Hsrc, take_app_length|].
  unfold u32. lia.
Qed.

Lemma close_inv (w : bool) s s' :
  load32 (cmem s) (p + if w then o_readopen else o_writeopen) <> 0 -> pipeclose p w s = Ok tt s' ->
  cmem s' = store32 (cmem s) (p + if w then o_writeopen else o_readopen) 0 /\
  co_pt s' = woken (if w then ChanPipeRead p else ChanPipeWrite p) (co_pt s).
Proof.
  intros Ho H. unfold pipeclose in H. minv H. minv H. minv H. injection Hrun0 as <- <-. injection Hrun1 as <- <-.
  assert (X : cmem s0 = store32 (cmem s) (p + if w then o_writeopen else o_readopen) 0 /\
    co_pt s0 = woken (if w then ChanPipeRead p else ChanPipeWrite p) (co_pt s)).
  { destruct w; minv Hrun; apply st_mem in Hrun0 as [E1 E2]; injection Hrun as _ <-; rewrite <- E1, <- E2; done. }
  destruct X as [Em Et]. fold (cmem s0) in H.
  assert (E : (load32 (cmem s0) (p + o_readopen) =? 0) && (load32 (cmem s0) (p + o_writeopen) =? 0) = false).
  { rewrite Em. destruct w; unfold o_readopen, o_writeopen in *.
    - rewrite load32_store32_ne by lia. apply andb_false_iff. left. lia.
    - rewrite (load32_store32_ne _ _ (p + 576)) by lia. apply andb_false_iff. right. lia. }
  rewrite E in H. by injection H as <-.
Qed.

Lemma queue_step x G y q : queue_inv x q -> pipe_step x G y -> exists q', queue_inv y q'.
Proof.
  intros [R F] H. destruct H as [s W Rd c me n src r s' Hr Hwo Hn Hl E|s W Rd c me n r s' Hr Hro E|s W Rd w s' Ho Hs E|s W Rd s' Hm Ha];
    cbn [ps_core ps_written ps_read] in *.
  - destruct (pipewrite_ok c me p n src s q R) as (r1 & s1 & E1 & X). rewrite E in E1. injection E1 as <- <-.
    destruct (wrote_accepted _ _ _ _ _ _ _ _ R X) as (rest & _ & R' & _).
    exists (q ++ accepted s s' src). split; cbn; [done|]. by rewrite F, app_assoc.
  - destruct (piperead_ok c me p n s q R) as (r1 & s1 & E1 & _ & X). rewrite E in E1. injection E1 as <- <-.
    destruct r as [r bs|].
    + destruct X as [(-> & -> & -> & -> & _)|(_ & -> & R' & _)].
      * exists []. split; cbn; [done|]. by rewrite F, !app_nil_r.
      * exists (drop (Z.to_nat n) q). split; cbn; [done|]. by rewrite F, <- app_assoc, take_drop.
    + destruct X as (-> & _ & _ & Em & _). exists []. split; cbn; [by rewrite Em|]. by rewrite F, !app_nil_r.
  - destruct (close_inv w s s' Ho E) as [Em _]. exists q. split; cbn; [|done]. rewrite Em.
    eapply rep_ext; [|exact R]. intros a Hra. unfold o_data, o_readopen, o_writeopen in *.
    destruct w; by rewrite store32_ne by lia.
  - exists q. split; cbn; [|done]. eapply rep_ext; [|exact R]. intros a Hra. apply Hm.
    unfold o_data, o_readopen, pipe_bytes in *. lia.
Qed.

Lemma sleepers_write quiet c me n src s q r s' :
  pipe_rep (cmem s) p q -> sleepers_inv quiet s q -> p_state (slot (co_pt s) me) = RUNNING ->
  wrote_ok c me p n src s q r s' -> (quiet = true -> ~ gives_up s s' src r) ->
  sleepers_inv quiet s' (q ++ accepted s s' src).
Proof.
  intros R [S1 S2] Hr X Hg. destruct (wrote_accepted _ _ _ _ _ _ _ _ R X) as (rest & _ & R' & Ho & _ & Hc). clear X.
  destruct (only_queue_ro _ _ _ Ho) as [Ero Ewo].
  assert (Efull : Z.of_nat (length q) = PIPESIZE -> accepted s s' src = []).
  { intros Hq. pose proof (pr_length _ _ _ R') as Hx. rewrite length_app in Hx.
    destruct (accepted s s' src); [done|]. cbn in Hx. lia. }
  destruct r as [r|rest'].
  - destruct Hc as [(-> & -> & Et)|(-> & Hrest & Hfull & Et & Hk)].
    + split; [intros Hqt i Ha|intros i Ha]; rewrite Et in Ha; apply asleep_woken in Ha as [Ha Hne]; [done|].
      destruct (S2 i Ha) as [Hq Hro]. rewrite Efull, app_nil_r, Ero by done. done.
    + destruct (decide (accepted s s' src = [])) as [Ea|Ea].
      * rewrite Ea, app_nil_r. split; rewrite ?Ero, ?Ewo, ?Et; done.
      * split; [intros Hqt i Ha|intros i Ha]; rewrite Et in Ha; [|destruct (S2 i Ha) as [Hq _]; by destruct Ea; apply Efull].
        destruct (S1 Hqt i Ha) as (_ & _ & ?). by destruct (Hg Hqt).
  - destruct Hc as (-> & Hrest & Hfull & Hro & _ & Hs).
    split; [intros Hqt i Ha|intros i Ha]; apply (asleep_sleep _ _ _ _ _ _ _ (woken_running _ _ _ Hr) Hs) in Ha as [[-> Hch]|Ha];
      try done; [by apply asleep_woken in Ha as [_ ?]|by rewrite Ero|]. by rewrite Ero.
Qed.

Lemma sleepers_read quiet c me n s q r s' :
  sleepers_inv quiet s q -> p_state (slot (co_pt s) me) = RUNNING -> load32 (cmem s) (p + o_readopen) <> 0 ->
  pipe_rep (cmem s) p q -> read_ok c me p n s q r s' ->
  exists q', pipe_rep (cmem s') p q' /\ sleepers_inv quiet s' q'.
Proof.
  intros [S1 S2] Hr Hro R [Ho X]. destruct (only_queue_ro _ _ _ Ho) as [Ero Ewo]. destruct r as [r bs|].
  - destruct X as [(_ & _ & -> & Hq & _)|(_ & _ & R' & Et & Hw)]; [by exists q|].
    exists (drop (Z.to_nat n) q). split; [done|].
    split; [intros Hqt i Ha|intros i Ha]; rewrite Et in Ha; apply asleep_woken in Ha as [Ha Hne]; [|done].
    destruct (S1 Hqt i Ha) as (-> & Hwo & _). by destruct Hwo, Hw.
  - destruct X as (-> & Hwo & _ & Em & Hs). exists []. split; [by rewrite Em|].
    split; [intros Hqt i Ha|intros i Ha]; rewrite Em; apply (asleep_sleep _ _ _ _ _ _ _ Hr Hs) in Ha as [[-> Hch]|Ha]; try done.
    by apply (S2 i).
Qed.

Lemma rep_unique m q q' : pipe_rep m p q -> pipe_rep m p q' -> q = q'.
Proof.
  intros R R'. assert (Hl : length q = length q').
  { pose proof (pr_nwrite _ _ _ R) as E. rewrite (pr_nwrite _ _ _ R') in E.
    pose proof (pr_length _ _ _ R). pose proof (pr_length _ _ _ R'). unfold u32, PIPESIZE in *. lia. }
  apply list_eq. intros k. destruct (q !! k) as [b|] eqn:E.
  - destruct (lookup_lt_is_Some_2 q' k) as [b' E']; [rewrite <- Hl; by eapply lookup_lt_Some|].
    rewrite E'. f_equal. by rewrite <- (pr_data _ _ _ R k b E), <- (pr_data _ _ _ R' k b' E').
  - symmetry. apply lookup_ge_None in E. apply lookup_ge_None. lia.
Qed.

Definition sound (quiet : bool) (x : psys) : Prop :=
  exists q, pipe_rep (cmem (ps_core x)) p q /\ sleepers_inv quiet (ps_core x) q.

Lemma sound_step quiet x G y : sound quiet x -> pipe_step x G y -> (quiet = true -> ~ G) -> sound quiet y.
Proof.
  intros (q & R & S) H Hg. destruct H as [s W Rd c me n src r s' Hr Hwo Hn Hl E|s W Rd c me n r s' Hr Hro E|s W Rd w s' Ho Hs E|s W Rd s' Hm Ha];
    cbn [ps_core ps_written ps_read] in *.
  - destruct (pipewrite_ok c me p n src s q R) as (r1 & s1 & E1 & X). rewrite E in E1. injection E1 as <- <-.
    exists (q ++ accepted s s' src). split; [|by apply (sleepers_write quiet c me n src s q r s')].
    by destruct (wrote_accepted _ _ _ _ _ _ _ _ R X) as (rest & _ & R' & _).
  - destruct (piperead_ok c me p n s q R) as (r1 & s1 & E1 & X). rewrite E in E1. injection E1 as <- <-.
    by apply (sleepers_read quiet c me n s q r s').
  - destruct (close_inv w s s' Ho E) as [Em Et]. exists q. cbn [ps_core]. destruct S as [S1 S2]. split.
    + rewrite Em. eapply rep_ext; [|exact R]. intros a Hra. unfold o_data, o_readopen, o_writeopen in *.
      destruct w; by rewrite store32_ne by lia.
    + unfold o_readopen, o_writeopen in *. destruct w; (split; [intros Hqt i Ha|intros i Ha]); rewrite Et in Ha; apply asleep_woken in Ha as [Ha Hne];
        try done; [by destruct (Hs i)|by destruct (Hs i)].
  - exists q. cbn [ps_core]. destruct S as [S1 S2].
    assert (Eo : load32 (cmem s') (p + o_readopen) = load32 (cmem s) (p + o_readopen) /\
      load32 (cmem s') (p + o_writeopen) = load32 (cmem s) (p + o_writeopen)).
    { unfold load32, o_readopen, o_writeopen, pipe_bytes in *. by rewrite !Hm by lia. }
    destruct Eo as [Ero Ewo]. split; [|split; [intros Hqt i Hi|intros i Hi]; rewrite ?Ero, ?Ewo; [apply (S1 Hqt i)|apply (S2 i)]; auto].
    eapply rep_ext; [|exact R]. intros a Hra. apply Hm. unfold o_data, o_readopen, pipe_bytes in *. lia.
Qed.

(** C16: A pipe is a first-in first-out queue of at most [PIPESIZE] bytes.  However
    writers and readers interleave, sleep, are woken or killed, and whichever
    end is closed: the bytes written so far are the bytes read so far followed
    by those in the pipe, in order, none lost, none twice; also when the 32-bit
    counters wrap.  The calls always return or sleep. *)
Theorem pipe_fifo quiet s x :
  fresh_pipe s -> pipe_run quiet (MkPsys s [] []) x ->
  (exists q, ps_written x = ps_read x ++ q /\ Z.of_nat (length q) <= PIPESIZE /\ pipe_rep (cmem (ps_core x)) p q) /\
  (forall c me n src, exists r s', pipewrite_from c me p n src (ps_core x) = Ok r s') /\
  (forall c me n, exists r s', piperead c me p n (ps_core x) = Ok r s').
Proof.
  intros Hf H. destruct (fresh_rep s Hf) as [R _].
  assert (X : exists q, queue_inv x q).
  { assert (X0 : exists q, queue_inv (MkPsys s [] []) q) by (exists []; by split).
    revert X0. clear Hf R. induction H as [x|x G y z H1 _ _ IH]; [done|].
    intros [q Hq]. apply IH. by apply (queue_step x G y q). }
  destruct X as (q & R' & F). split_and!.
  - exists q. split_and!; try done. apply (pr_length _ _ _ R').
  - intros c me n src. destruct (pipewrite_ok c me p n src (ps_core x) q R') as (r & s' & E & _). by exists r, s'.
  - intros c me n. destruct (piperead_ok c me p n (ps_core x) q R') as (r & s' & E & _). by exists r, s'.
Qed.

Lemma sound_run quiet s x : fresh_pipe s -> pipe_run quiet (MkPsys s [] []) x -> sound quiet x.
Proof.
  intros Hf H. destruct (fresh_rep s Hf) as (R & _).
  assert (X0 : sound quiet (MkPsys s [] [])).
  { exists []. split; [done|]. destruct Hf as (s0 & name & _ & Hno). split; [intros _ i Ha|intros i Ha].
    - destruct (Hno i (ChanPipeRead p)); auto.
    - destruct (Hno i (ChanPipeWrite p)); auto. }
  revert X0. clear Hf R. induction H as [x|x G y z H1 Hq _ IH]; [done|].
  intros X0. apply IH. by apply (sound_step quiet x G y).
Qed.

Lemma killed_writer_strands s i c me src :
  pipe_rep (cmem s) p [] -> asleep (co_pt s) i (ChanPipeRead p) ->
  p_killed (slot (co_pt s) me) <> 0 -> PIPESIZE < Z.of_nat (length src) ->
  exists s', pipewrite c me p src (Z.of_nat (length src)) s = Ok (WDone (-1)) s' /\
    asleep (co_pt s') i (ChanPipeRead p) /\ pipe_rep (cmem s') p (take (Z.to_nat PIPESIZE) src).
Proof.
  intros R Ha Hk Hl. destruct (pipewrite_ok c me p (Z.of_nat (length src)) src s [] R) as (r & s' & E & X).
  destruct X as (bs & rest & -> & R' & _ & _ & X). pose proof (pr_length _ _ _ R') as Hb. cbn [app] in *.
  rewrite length_app in Hl. exists s'. unfold pipewrite. rewrite E.
  destruct r as [r|rest']; [destruct X as [(_ & -> & _)|(-> & _ & Hfull & Et & _)]|].
  - cbn in Hl. lia.
  - rewrite Et. split_and!; try done. rewrite take_app_le by lia. by rewrite take_ge by lia.
  - by destruct X as (_ & _ & _ & _ & ? & _).
Qed.

(** C17: Wake-ups on a pipe, and the one that is lost.  In every run a writer is
    asleep only while the pipe is full and its read end open.  In a run in
    which no killed writer gives up right after it has filled the pipe, a
    reader is asleep only while the pipe is empty and its write end open.
    Where one does, the wake-up of the reader is lost: with a reader asleep on
    the empty pipe, a killed writer of more than [PIPESIZE] bytes fills it and
    returns -1, and the reader sleeps on before a full pipe. *)
Theorem pipe_no_lost_wakeup quiet s x :
  fresh_pipe s -> pipe_run quiet (MkPsys s [] []) x ->
  (exists q, pipe_rep (cmem (ps_core x)) p q /\
    (forall i, asleep (co_pt (ps_core x)) i (ChanPipeWrite p) ->
       Z.of_nat (length q) = PIPESIZE /\ load32 (cmem (ps_core x)) (p + o_readopen) <> 0) /\
    (quiet = true -> forall i, asleep (co_pt (ps_core x)) i (ChanPipeRead p) ->
       q = [] /\ load32 (cmem (ps_core x)) (p + o_writeopen) <> 0)) /\
  (forall i c me src, pipe_rep (cmem (ps_core x)) p [] -> asleep (co_pt (ps_core x)) i (ChanPipeRead p) ->
     p_killed (slot (co_pt (ps_core x)) me) <> 0 -> PIPESIZE < Z.of_nat (length src) ->
     exists s', pipewrite c me p src (Z.of_nat (length src)) (ps_core x) = Ok (WDone (-1)) s' /\
       asleep (co_pt s') i (ChanPipeRead p) /\ pipe_rep (cmem s') p (take (Z.to_nat PIPESIZE) src)).
Proof.
  intros Hf H. split; [|intros; by apply killed_writer_strands].
  destruct (sound_run quiet s x Hf H) as (q & R' & [S1 S2]). exists q. split_and!; try done.
  intros Hq i Hi. by destruct (S1 Hq i Hi) as (? & ? & _).
Qed.
End interleaving.

(** ** A pipe in use *)

Lemma nobody_asleep t i ch :
  forallb (fun p => negb (bool_decide (p_state p = SLEEPING))) (procs t) = true -> ~ asleep t i ch.
Proof.
  intros H [Hs _]. assert (Hl : (i < length (procs t))%nat) by (apply live_lt; congruence).
  rewrite forallb_forall in H. specialize (H (slot t i)).
  rewrite Hs in H. cbn in H. discriminate H. apply list_elem_of_In.
  apply list_elem_of_lookup_2 with i. by apply list_lookup_lookup_total_lt.
Qed.

Definition pipe_page : Z := demo_end + 0x4000.

Definition run_core {A} (f : M (core (K := kmem)) A) (s : core) : core :=
  match f s with Ok _ s' => s' | _ => s end.

(** Process 0 runs on CPU 0 and its child, process 1, on CPU 1. *)
Definition two_running : ptable := match scheduler 1 table_forked with Ok _ t => t | _ => table_forked end.

Definition pipe_new : core := run_core (pipe_init pipe_page 0) (MkCore (MkKmem (fun _ => 0) false 0) two_running).
Definition pipe_written : core := run_core (pipewrite_from 0 0 pipe_page 3 [7; 8; 9]) pipe_new.
Definition pipe_part_read : core := run_core (piperead 1 1 pipe_page 2) pipe_written.
Definition pipe_reader_sleeps : core := run_core (piperead 1 1 pipe_page 2) pipe_new.

Lemma pipe_new_fresh : fresh_pipe pipe_page pipe_new.
Proof.
  exists (MkCore (MkKmem (fun _ => 0) false 0) two_running), 0. split; [vm_compute; reflexivity|].
  intros i ch _. apply nobody_asleep. vm_compute. reflexivity.
Qed.

Lemma pipe_fifo_witness :
  exists q, [] ++ accepted pipe_page pipe_new pipe_written [7; 8; 9] = ([] ++ [7; 8]) ++ q /\
    pipe_rep (cmem pipe_part_read) pipe_page q.
Proof.
  destruct (pipe_fifo pipe_page false pipe_new
    (MkPsys pipe_part_read ([] ++ accepted pipe_page pipe_new pipe_written [7; 8; 9]) ([] ++ bytes_of (RDone 2 [7; 8])))
    pipe_new_fresh) as [(q & E & _ & R) _].
  - eapply pr_cons; [apply (ps_write pipe_page pipe_new [] [] 0 0 3 [7; 8; 9] (WDone 3) pipe_written)|done|];
      [compute_step|by vm_compute|lia|cbn; lia|compute_step|].
    eapply pr_cons; [apply (ps_readn pipe_page pipe_written _ [] 1 1 2 (RDone 2 [7; 8]) pipe_part_read)|done|apply pr_nil];
      [compute_step|by vm_compute|compute_step].
  - exists q. split; [exact E|exact R].
Defined.

Definition sleeping_reader : psys := MkPsys pipe_reader_sleeps [] ([] ++ bytes_of RSleep).

(** The reader is asleep and the writer has been marked killed. *)
Definition pipe_killed : core := run_core (inpt (modp 0 (set_killed 1))) pipe_reader_sleeps.

Lemma pipe_no_lost_wakeup_witness :
  (asleep (co_pt (ps_core sleeping_reader)) 1 (ChanPipeRead pipe_page) /\
   pipe_rep (cmem (ps_core sleeping_reader)) pipe_page []) /\
  exists s', pipewrite 0 0 pipe_page (replicate 600 7) 600 pipe_killed = Ok (WDone (-1)) s' /\
    asleep (co_pt s') 1 (ChanPipeRead pipe_page).
Proof.
  assert (Hs : pipe_step pipe_page (MkPsys pipe_new [] []) False sleeping_reader).
  { apply (ps_readn pipe_page pipe_new [] [] 1 1 2 RSleep pipe_reader_sleeps); [compute_step|by vm_compute|compute_step]. }
  split.
  - destruct (pipe_no_lost_wakeup pipe_page true pipe_new sleeping_reader pipe_new_fresh) as [(q & R & _ & Hr) _].
    + eapply pr_cons; [exact Hs|by intros _ []|apply pr_nil].
    + assert (A : asleep (co_pt (ps_core sleeping_reader)) 1 (ChanPipeRead pipe_page)) by (split; compute_step).
      destruct (Hr eq_refl 1%nat A) as [E _]. rewrite E in R. split; [exact A|exact R].
  - destruct (pipe_no_lost_wakeup pipe_page true pipe_new (MkPsys pipe_killed [] ([] ++ bytes_of RSleep)) pipe_new_fresh) as [_ Hk].
    + eapply pr_cons; [exact Hs|by intros _ []|]. apply (pr_cons _ _ _ False (MkPsys pipe_killed [] ([] ++ bytes_of RSleep))); [|by intros _ []|apply pr_nil].
      apply ps_other; [intros a _; reflexivity|]. intros i ch _ [A1 A2].
      assert (E : forall j, p_state (slot (co_pt pipe_killed) j) = p_state (slot (co_pt pipe_reader_sleeps) j) /\
        p_chan (slot (co_pt pipe_killed) j) = p_chan (slot (co_pt pipe_reader_sleeps) j)).
      { intros j. do 64 (destruct j as [|j]; [split; compute_step|]). split; compute_step. }
      split; [rewrite <- (proj1 (E i)); exact A1|rewrite <- (proj2 (E i)); exact A2].
    + destruct (Hk 1%nat 0%nat 0%nat (replicate 600 7)) as (s' & E & A & _).
      * apply rep_zero; compute_step.
      * split; compute_step.
      * by vm_compute.
      * rewrite length_replicate. unfold PIPESIZE. lia.
      * exists s'. split; [exact E|exact A].
Defined.
