(* ===== verification/File.v ===== *)
(** * Open files (HW3/file.c, file.h, and pipealloc of pipe.c)

    The table of open files over the whole kernel state: memory and processes
    ([core]), the file system and the table itself.  A [struct file *] is an
    index into the table.  The log's [begin_op] and [end_op] are used through
    the interface [Transactions], which log.c implements.

    A call that blocks is the outcome [Sleep]; the buffers of the caller are
    byte lists. *)

From stdpp Require Import base numbers list gmap sets strings.
From Stdlib Require Import ZArith Lia.
From S2P Require Import Prelude CStrings Frames Disk Blocks Log Journal Fs Ptable Pipe.

Open Scope Z_scope.

(** What log.c offers around the system calls. *)
Class Transactions (J : Type) := {
  tinitlog : Z -> M J unit;
  tbegin_op : M J unit;
  tend_op : M J unit
}.

#[export] Instance log_transactions {C} `{!BlockCache C} : Transactions (lstate C) := {|
  tinitlog := initlog;
  tbegin_op := begin_op;
  tend_op := end_op
|}.

Definition NFILE : nat := 100.

Inductive ftype := FD_NONE | FD_PIPE | FD_INODE.

#[export] Instance ftype_eq_dec : EqDecision ftype.
Proof. solve_decision. Defined.

(** [struct file]; [f_ip] is the index of the inode in [icache]. *)
Record file := MkFile {
  f_type : ftype; f_ref : Z; f_readable : bool; f_writable : bool; f_pipe : Z; f_ip : nat; f_off : Z
}.

Definition zero_file : file := MkFile FD_NONE 0 false false 0 0 0.

#[export] Instance file_inhabited : Inhabited file := populate zero_file.

Definition set_fref (n : Z) (f : file) : file :=
  MkFile (f_type f) n (f_readable f) (f_writable f) (f_pipe f) (f_ip f) (f_off f).
Definition set_ftype (t : ftype) (f : file) : file :=
  MkFile t (f_ref f) (f_readable f) (f_writable f) (f_pipe f) (f_ip f) (f_off f).
Definition set_foff (n : Z) (f : file) : file :=
  MkFile (f_type f) (f_ref f) (f_readable f) (f_writable f) (f_pipe f) (f_ip f) n.

(** Opening: as a pipe end, and on an inode. *)
Definition set_pipe_end (w : bool) (p : Z) (f : file) : file :=
  MkFile FD_PIPE (f_ref f) (negb w) w p (f_ip f) (f_off f).
Definition set_inode_file (ip : nat) (r w : bool) (f : file) : file :=
  MkFile FD_INODE (f_ref f) r w (f_pipe f) ip 0.

Section files.
Context {K J : Type} `{!Frames K, !Journal J, !Transactions J}.

Record kernel := MkKernel { kn_core : core (K := K); kn_fs : fs J; kn_files : list file }.

Definition incore {A} (m : M core A) : M kernel A :=
  lift kn_core (fun c s => MkKernel c (kn_fs s) (kn_files s)) m.
Definition infs {A} (m : M (fs J) A) : M kernel A :=
  lift kn_fs (fun x s => MkKernel (kn_core s) x (kn_files s)) m.

Definition kbegin_op : M kernel unit := infs (journal tbegin_op).
Definition kend_op : M kernel unit := infs (journal tend_op).

Definition getf (f : nat) : M kernel file := reads (fun s => kn_files s !!! f).
Definition modf (f : nat) (g : file -> file) : M kernel unit :=
  modify (fun s => MkKernel (kn_core s) (kn_fs s) (<[f := g (kn_files s !!! f)]> (kn_files s))).

Definition filealloc : M kernel (option nat) :=
  s ← get (S := kernel);
  match list_find (fun x => f_ref x = 0) (kn_files s) with
  | None => mret None
  | Some (i, _) => modf i (set_fref 1);; mret (Some i)
  end.

Definition filedup (f : nat) : M kernel nat :=
  x ← getf f;
  if f_ref x <? 1 then panic "filedup" else
  modf f (set_fref (f_ref x + 1));;
  mret f.

Definition fileclose (f : nat) : M kernel unit :=
  x ← getf f;
  if f_ref x <? 1 then panic "fileclose" else
  modf f (set_fref (f_ref x - 1));;
  if f_ref x - 1 >? 0 then mret tt else
  ff ← getf f;
  modf f (set_fref 0);;
  modf f (set_ftype FD_NONE);;
  match f_type ff with
  | FD_PIPE => incore (pipeclose (f_pipe ff) (f_writable ff))
  | FD_INODE =>
      kbegin_op;;
      infs (iput (f_ip ff));;
      kend_op
  | FD_NONE => mret tt
  end.

Definition filestat (f : nat) : M kernel (option stat) :=
  x ← getf f;
  match f_type x with
  | FD_INODE =>
      infs (ilock (Some (f_ip x)));;
      st ← infs (stati (f_ip x));
      infs (iunlock (Some (f_ip x)));;
      mret (Some st)
  | _ => mret None
  end.

Context (dv : devops (J := J)).

(** [fileread] by process [me] on CPU [c]: the C result and the bytes. *)
Definition fileread (c me f : nat) (n : Z) : M kernel (Z * list Z) :=
  x ← getf f;
  if negb (f_readable x) then mret (-1, []) else
  match f_type x with
  | FD_PIPE =>
      g ← incore (piperead c me (f_pipe x) n);
      match g with
      | RDone r bs => mret (r, bs)
      | RSleep => sleep_on (ChanPipeRead (f_pipe x))
      end
  | FD_INODE =>
      infs (ilock (Some (f_ip x)));;
      rb ← infs (readi dv (f_ip x) (f_off x) (u32 n));
      when (s32 rb.1 >? 0) (modf f (set_foff (u32 (f_off x + s32 rb.1))));;
      infs (iunlock (Some (f_ip x)));;
      mret (s32 rb.1, rb.2)
  | FD_NONE => panic "fileread"
  end.

(** The bytes one transaction may write. *)
Definition max_write : Z := (LOGSIZE - 1 - 1 - 2) / 2 * 512.

(** The loop of [filewrite] on an inode from byte [i] of [src] on. *)
Fixpoint filewrite_loop (k : nat) (f : nat) (src : list Z) (i n : Z) : M kernel Z :=
  if negb (i <? n) then mret i else
  match k with
  | O => diverge
  | S k' =>
      let n1 := Z.min (n - i) max_write in
      kbegin_op;;
      x ← getf f;
      infs (ilock (Some (f_ip x)));;
      r ← infs (writei dv (f_ip x) (get_bytes src (Z.to_nat i) (Z.to_nat n1)) (f_off x));
      when (r >? 0) (modf f (set_foff (u32 (f_off x + r))));;
      infs (iunlock (Some (f_ip x)));;
      kend_op;;
      if r <? 0 then mret i
      else if negb (r =? n1) then panic "short filewrite"
      else filewrite_loop k' f src (i + r) n
  end.

(** [filewrite(f, addr, n)]; [src] is what [n] bytes at [addr] are, none of
    them when [n] is negative. *)
Definition filewrite (c me f : nat) (src : list Z) (n : Z) : M kernel Z :=
  x ← getf f;
  if negb (f_writable x) then mret (-1) else
  match f_type x with
  | FD_PIPE =>
      w ← incore (pipewrite c me (f_pipe x) src n);
      match w with
      | WDone r => mret r
      | WSleep _ => sleep_on (ChanPipeWrite (f_pipe x))
      end
  | FD_INODE =>
      i ← filewrite_loop (length src) f src 0 n;
      mret (if i =? n then n else -1)
  | FD_NONE => panic "filewrite"
  end.

(** [pipealloc]: the two ends, or [None] for -1; [name] is the address of the
    string "pipe". *)
Definition close_if (f : option nat) : M kernel unit :=
  match f with Some f => fileclose f | None => mret tt end.

Definition pipealloc (name : Z) : M kernel (option (nat * nat)) :=
  f0 ← filealloc;
  match f0 with
  | None => mret None
  | Some a =>
      f1 ← filealloc;
      match f1 with
      | None => close_if f0;; mret None
      | Some b =>
          p ← incore (inmem kalloc);
          if p =? 0 then close_if f0;; close_if f1;; mret None else
          incore (pipe_init p name);;
          modf a (set_pipe_end false p);;
          modf b (set_pipe_end true p);;
          mret (Some (a, b))
      end
  end.

End files.
