(* ===== verification/Proc.v ===== *)
(** * The life of a process (HW3/proc.c)

    [allocproc], [userinit], [growproc], [fork], [exit], [wait], [wait_stat]
    and [forkret] whole: the sections of the process table of [Ptable]
    together with kernel stacks, address spaces, open files and directories.

    The addresses of [trapret] and [forkret], where the kernel's data starts
    and the embedded image of the first program come from the linker; they are
    arguments.  Loading the page table register ([switchuvm], [switchkvm]) has
    no effect on the modelled state but for the check of [switchuvm]. *)

From stdpp Require Import base numbers list gmap sets strings.
From Stdlib Require Import ZArith Lia.
From S2P Require Import Prelude CStrings Frames Vm Disk Blocks Log Journal Fs Ptable Pipe File.

Open Scope Z_scope.

Definition KSTACKSIZE : Z := 4096.

(** [struct trapframe]: its size and the offsets used. *)
Definition sizeof_tf : Z := 76.
Definition tf_eax : Z := 28.
Definition tf_es : Z := 40.
Definition tf_ds : Z := 44.
Definition tf_eip : Z := 56.
Definition tf_cs : Z := 60.
Definition tf_eflags : Z := 64.
Definition tf_esp : Z := 68.
Definition tf_ss : Z := 72.

Definition sizeof_context : Z := 20.
Definition ctx_eip : Z := 16.

Definition SEG_UCODE : Z := 4.
Definition SEG_UDATA : Z := 5.
Definition DPL_USER : Z := 3.
Definition FL_IF : Z := 0x200.

(** Writes to single fields of [struct proc]. *)
Definition set_kstack (x : Z) (p : proc) : proc :=
  set_own (p_sz p) (p_pgdir p) x (p_tf p) (p_ofile p) (p_cwd p) (p_name p) p.
Definition set_pgdir (x : Z) (p : proc) : proc :=
  set_own (p_sz p) x (p_kstack p) (p_tf p) (p_ofile p) (p_cwd p) (p_name p) p.
Definition set_sz (x : Z) (p : proc) : proc :=
  set_own x (p_pgdir p) (p_kstack p) (p_tf p) (p_ofile p) (p_cwd p) (p_name p) p.
Definition set_ofile (fd : nat) (x : option nat) (p : proc) : proc :=
  set_own (p_sz p) (p_pgdir p) (p_kstack p) (p_tf p) (<[fd := x]> (p_ofile p)) (p_cwd p) (p_name p) p.
Definition set_cwd (x : option nat) (p : proc) : proc :=
  set_own (p_sz p) (p_pgdir p) (p_kstack p) (p_tf p) (p_ofile p) x (p_name p) p.
Definition set_name (x : list Z) (p : proc) : proc :=
  set_own (p_sz p) (p_pgdir p) (p_kstack p) (p_tf p) (p_ofile p) (p_cwd p) x p.

(** [safestrcpy(dst, src, 16)] of a name field. *)
Definition copy_name (dst src : list Z) : list Z :=
  KString.mem_bytes (KString.safestrcpy (place dst 0 (place src 4096 nul_mem)) 0 4096 16) 0 16.

Section proc.
Context {K J : Type} `{!Frames K, !Journal J, !Transactions J}.
Context (dv : devops (J := J)) (trapret forkret_addr data : Z).

Definition kmem_op {A} (m : M K A) : M (kernel (K := K) (J := J)) A := incore (inmem m).
Definition pt {A} (m : M ptable A) : M (kernel (K := K) (J := J)) A := incore (inpt m).
Definition myproc (me : nat) : M kernel proc := pt (getp me).

Definition switchuvm (me : nat) : M kernel unit :=
  p ← myproc me;
  if p_pgdir p =? 0 then panic "switchuvm: no pgdir" else mret tt.

(** The slot of the new process, or [None]. *)
Definition allocproc : M kernel (option nat) :=
  oi ← pt alloc_slot;
  match oi with
  | None => mret None
  | Some i =>
      k ← kmem_op kalloc;
      if k =? 0 then
        pt (modp i (fun p => set_kstack 0 (set_state UNUSED p)));;
        mret None
      else
        let sp := k + KSTACKSIZE in
        let sp := sp - sizeof_tf in
        let tf := sp in
        let sp := sp - 4 in
        kmem_op (wr sp trapret);;
        let sp := sp - sizeof_context in
        kmem_op (memset sp 0 sizeof_context);;
        kmem_op (wr (sp + ctx_eip) forkret_addr);;
        pt (alloc_fields i k tf);;
        mret (Some i)
  end.

(** 16-bit stores of the selectors. *)
Definition wr16 (p v : Z) : M K unit :=
  modify (fun k => fr_set (upd (upd (fr_mem k) p (u8 v)) (p + 1) (u8 (v / 256))) k).

Definition userinit (initcode initsize : Z) : M kernel unit :=
  op ← allocproc;
  match op with
  | None => undef "userinit: no process"
  | Some p =>
      pt (modify (set_initproc p));;
      pgdir ← kmem_op (setupkvm data);
      pt (modp p (set_pgdir pgdir));;
      if pgdir =? 0 then panic "userinit: out of memory?" else
      kmem_op (inituvm pgdir initcode initsize);;
      pt (modp p (set_sz PGSIZE));;
      q ← myproc p;
      let tf := p_tf q in
      kmem_op (memset tf 0 sizeof_tf);;
      kmem_op (wr16 (tf + tf_cs) (Z.lor (Z.shiftl SEG_UCODE 3) DPL_USER));;
      kmem_op (wr16 (tf + tf_ds) (Z.lor (Z.shiftl SEG_UDATA 3) DPL_USER));;
      kmem_op (wr16 (tf + tf_es) (Z.lor (Z.shiftl SEG_UDATA 3) DPL_USER));;
      kmem_op (wr16 (tf + tf_ss) (Z.lor (Z.shiftl SEG_UDATA 3) DPL_USER));;
      kmem_op (wr (tf + tf_eflags) FL_IF);;
      kmem_op (wr (tf + tf_esp) PGSIZE);;
      kmem_op (wr (tf + tf_eip) 0);;
      pt (modp p (fun q => set_name (copy_name (p_name q) (cbytes "initcode")) q));;
      cwd ← infs (namei dv 0 [slash]);
      pt (modp p (set_cwd cwd));;
      pt (modp p (set_state RUNNABLE))
  end.

Definition growproc (me : nat) (n : Z) : M kernel Z :=
  p ← myproc me;
  let sz := p_sz p in
  r ← (if n >? 0 then
         sz' ← kmem_op (allocuvm (p_pgdir p) sz (u32 (sz + n)));
         mret (if sz' =? 0 then None else Some sz')
       else if n <? 0 then
         sz' ← kmem_op (deallocuvm (p_pgdir p) sz (u32 (sz + n)));
         mret (if sz' =? 0 then None else Some sz')
       else mret (Some sz));
  match r with
  | None => mret (-1)
  | Some sz' =>
      pt (modp me (set_sz sz'));;
      switchuvm me;;
      mret 0
  end.

(** One round of [fork]'s loop over the open files. *)
Definition dup_file (me np : nat) (i : Z) : M kernel unit :=
  p ← myproc me;
  match p_ofile p !!! Z.to_nat i with
  | Some f =>
      f' ← filedup f;
      pt (modp np (set_ofile (Z.to_nat i) (Some f')))
  | None => mret tt
  end.

Definition fork (me : nat) : M kernel Z :=
  onp ← allocproc;
  match onp with
  | None => mret (-1)
  | Some np =>
      p ← myproc me;
      pgdir ← kmem_op (copyuvm data (p_pgdir p) (p_sz p));
      pt (modp np (set_pgdir pgdir));;
      if pgdir =? 0 then
        q ← myproc np;
        kmem_op (kfree (p_kstack q));;
        pt (modp np (set_kstack 0));;
        pt (modp np (set_state UNUSED));;
        mret (-1)
      else
        pt (modp np (set_sz (p_sz p)));;
        pt (modp np (set_parent (Some me)));;
        q ← myproc np;
        kmem_op (memmove (p_tf q) (p_tf p) sizeof_tf);;
        kmem_op (wr (p_tf q + tf_eax) 0);;
        for_ 0 (Z.of_nat NOFILE) (dup_file me np);;
        match p_cwd p with
        | None => undef "fork: no current directory"
        | Some d =>
            d' ← infs (idup d);
            pt (modp np (set_cwd (Some d')))
        end;;
        pt (modp np (fun q => set_name (copy_name (p_name q) (p_name p)) q));;
        pt (modp np (set_state RUNNABLE));;
        mret (p_pid q)
  end.

(** One round of [exit]'s loop over the open files. *)
Definition close_fd (me : nat) (fd : Z) : M kernel unit :=
  p ← myproc me;
  match p_ofile p !!! Z.to_nat fd with
  | Some f =>
      fileclose f;;
      pt (modp me (set_ofile (Z.to_nat fd) None))
  | None => mret tt
  end.

(** [exit] of process [me] on CPU [c], to the switch to the scheduler. *)
Definition exit (c me : nat) : M kernel unit :=
  ini ← pt (reads initproc);
  if decide (ini = Some me) then panic "init exiting" else
  for_ 0 (Z.of_nat NOFILE) (close_fd me);;
  kbegin_op;;
  p ← myproc me;
  match p_cwd p with
  | None => undef "exit: no current directory"
  | Some d => infs (iput d)
  end;;
  kend_op;;
  pt (modp me (set_cwd None));;
  pt (exit_section c me).

(** [wait], from entry or from a wake-up to the return or the next sleep; the
    write [p->kstack = 0] is part of [clear_slot]. *)
Definition wait (c me : nat) : M kernel Z :=
  sc ← pt (reads (fun t => wait_scan me (procs t) 0 false));
  match sc with
  | Zombie i =>
      p ← myproc i;
      kmem_op (kfree (p_kstack p));;
      kmem_op (freevm (p_pgdir p));;
      pt (modp i clear_slot);;
      mret (p_pid p)
  | NoZombie havekids =>
      p ← myproc me;
      if negb havekids || negb (p_killed p =? 0) then mret (-1)
      else
        pt (sleep c me (ChanProc me));;
        sleep_on (ChanProc me)
  end.

(** What [wait_stat] stores through its pointers, with its result. *)
Record wstat := MkWstat { ws_wtime : Z; ws_rtime : Z; ws_iotime : Z; ws_status : Z; ws_result : Z }.

Definition wait_stat (c me : nat) (old : wstat) : M kernel wstat :=
  sc ← pt (reads (fun t => wait_scan me (procs t) 0 false));
  match sc with
  | Zombie i =>
      p ← myproc i;
      kmem_op (kfree (p_kstack p));;
      kmem_op (freevm (p_pgdir p));;
      pt (modp i clear_slot_stat);;
      mret (MkWstat (s32 (p_retime p)) (s32 (p_rutime p)) (s32 (p_stime p)) (p_pid p) (p_pid p))
  | NoZombie havekids =>
      p ← myproc me;
      if negb havekids || negb (p_killed p =? 0) then
        mret (MkWstat (ws_wtime old) (ws_rtime old) (ws_iotime old) (-1) (-1))
      else
        pt (sleep c me (ChanProc me));;
        sleep_on (ChanProc me)
  end.

(** [forkret]; [first] is its static variable, whose new value it returns. *)
Definition forkret (first : bool) : M (kernel (K := K) (J := J)) bool :=
  when first (
    infs (iinit ROOTDEV);;
    infs (journal (tinitlog ROOTDEV)));;
  mret false.

End proc.
