(* ===== verification/ProcSteps.v ===== *)
(** * The process system calls as steps of the process table

    [fork], [exit], [wait], [wait_stat] and [growproc], whole, change the
    process table only by its steps: whatever they do to memory, files and the
    file system, whichever branch they take, and whether they return or block,
    the table they leave is reached by a run of [pstep].  So the theorems on
    runs of the table hold of the kernel that makes these calls.

    [tsteps P m Q]: from a table with [P], the routine [m] changes the table by
    steps, and if it returns [a] then [Q a] holds of the table. *)

From stdpp Require Import base numbers list gmap sets strings.
From Stdlib Require Import ZArith Lia.
From S2P Require Import Prelude CStrings Frames Kalloc Vm Disk Blocks Bio Log Journal Storage Fs FsSpec Ptable PtableInv PtableClaims Pipe File Proc.

Open Scope Z_scope.

Create HintDb quiet discriminated.

Section steps.
Context {K J : Type} `{!Frames K, !Journal J, !Transactions J}.

Definition table (s : kernel (K := K) (J := J)) : ptable := co_pt (kn_core s).

Definition tsteps {A} (P : ptable -> Prop) (m : M (kernel (K := K) (J := J)) A) (Q : A -> ptable -> Prop) : Prop :=
  forall s, P (table s) ->
  match m s with
  | Ok a s' => (exists es, prun (table s) es (table s')) /\ Q a (table s')
  | Sleep _ s' => exists es, prun (table s) es (table s')
  | _ => True
  end.

Lemma ts_bind {A B} P (m : M kernel A) (k : A -> M kernel B) R Q :
  tsteps P m R -> (forall a, tsteps (R a) (k a) Q) -> tsteps P (m ≫= k) Q.
Proof.
  intros Hm Hk s Hs. specialize (Hm s Hs). unfold mbind, M_bind. destruct (m s) as [a s1| |c s1| |]; try done.
  destruct Hm as [[es1 H1] Ha]. specialize (Hk a s1 Ha). destruct (k a s1) as [b s2| |c s2| |]; try done.
  - destruct Hk as [[es2 H2] Hb]. split; [|done]. exists (es1 ++ es2). by eapply prun_app.
  - destruct Hk as [es2 H2]. exists (es1 ++ es2). by eapply prun_app.
Qed.

Lemma ts_ret {A} (P : ptable -> Prop) (a : A) (Q : A -> ptable -> Prop) :
  (forall t, P t -> Q a t) -> tsteps P (mret a) Q.
Proof. intros H s Hs. split; [exists []; constructor|by apply H]. Qed.

Lemma ts_conseq {A} (P P' : ptable -> Prop) (m : M kernel A) (Q Q' : A -> ptable -> Prop) :
  tsteps P m Q -> (forall t, P' t -> P t) -> (forall a t, Q a t -> Q' a t) -> tsteps P' m Q'.
Proof.
  intros H HP HQ s Hs. specialize (H s (HP _ Hs)). destruct (m s); try done.
  destruct H. split; auto.
Qed.

(** A routine that leaves the table alone. *)
Definition quiet {A} (m : M (kernel (K := K) (J := J)) A) : Prop :=
  forall s, match m s with Ok _ s' | Sleep _ s' => table s' = table s | _ => True end.

Lemma ts_quiet {A} P (m : M kernel A) : quiet m -> tsteps P m (fun _ => P).
Proof.
  intros H s Hs. specialize (H s). destruct (m s) as [a s'| |c s'| |]; try done; rewrite H.
  - split; [exists []; constructor|done].
  - exists []. constructor.
Qed.

Lemma quiet_bind {A B} (m : M kernel A) (k : A -> M kernel B) : quiet m -> (forall a, quiet (k a)) -> quiet (m ≫= k).
Proof.
  intros Hm Hk s. specialize (Hm s). unfold mbind, M_bind. destruct (m s) as [a s1| |c s1| |]; try done.
  specialize (Hk a s1). destruct (k a s1); try done; congruence.
Qed.

Lemma quiet_kmem {A} (m : M K A) : quiet (kmem_op m).
Proof. intros s. unfold kmem_op, incore, inmem, lift. by destruct (m (co_mem (kn_core s))). Qed.

Lemma quiet_fs {A} (m : M (fs J) A) : quiet (infs m).
Proof. intros s. unfold infs, lift. by destruct (m (kn_fs s)). Qed.

Lemma quiet_modf f g : quiet (modf f g).
Proof. done. Qed.

Lemma quiet_getf f : quiet (getf f).
Proof. done. Qed.

Lemma quiet_ret {A} (a : A) : quiet (mret a).
Proof. done. Qed.

Lemma quiet_panic {A} msg : quiet (panic msg : M _ A).
Proof. done. Qed.

Lemma quiet_undef {A} msg : quiet (undef msg : M _ A).
Proof. done. Qed.

(** A step of the table by itself. *)
Lemma ts_pt {A} (P : ptable -> Prop) (m : M ptable A) (Q : A -> ptable -> Prop) :
  (forall t, P t ->
    match m t with
    | Ok a t' => (exists es, prun t es t') /\ Q a t'
    | Sleep _ t' => exists es, prun t es t'
    | _ => True
    end) -> tsteps P (pt m) Q.
Proof.
  intros H s Hs. specialize (H _ Hs). unfold pt, incore, inpt, lift, table in *.
  by destruct (m (co_pt (kn_core s))).
Qed.

(** Reading the table. *)
Lemma ts_read {A} (P : ptable -> Prop) (f : ptable -> A) : tsteps P (pt (reads f)) (fun a t => P t /\ a = f t).
Proof. apply ts_pt. intros t Ht. split; [exists []; constructor|done]. Qed.

Lemma ts_myproc (P : ptable -> Prop) me : tsteps P (myproc me) (fun p t => P t /\ p = slot t me).
Proof. apply ts_read. Qed.

Lemma ts_for (I : Z -> ptable -> Prop) lo hi body :
  lo <= hi -> (forall i, lo <= i < hi -> tsteps (I i) (body i) (fun _ => I (i + 1))) ->
  tsteps (I lo) (for_ lo hi body) (fun _ => I hi).
Proof.
  intros Hle H. unfold for_. remember (Z.to_nat (hi - lo)) as n eqn:En.
  revert lo Hle H En. induction n as [|n IH]; intros lo Hle H En; cbn [for_from].
  - apply ts_ret. intros t. by replace hi with lo by lia.
  - eapply ts_bind; [apply H; lia|]. intros u. apply IH; [lia| |lia]. intros i Hi. apply H. lia.
Qed.
End steps.

#[export] Hint Resolve quiet_kmem quiet_fs quiet_modf quiet_getf quiet_ret quiet_panic quiet_undef : quiet.

Section calls.
Context {K J : Type} `{!Frames K, !Journal J, !Transactions J}.
Context (dv : devops (J := J)) (trapret forkret_addr data : Z).

Notation kern := (kernel (K := K) (J := J)).

Lemma ts_ext {A} P (m m' : M kern A) Q : (forall s, m s = m' s) -> tsteps P m' Q -> tsteps P m Q.
Proof. intros E H s Hs. rewrite E. by apply H. Qed.

Lemma incore_bind {A B} (m : M core A) (k : A -> M core B) (s : kern) :
  incore (m ≫= k) s = (incore m ≫= (fun a => incore (k a))) s.
Proof. unfold incore, lift, mbind, M_bind. destruct (m (kn_core s)) as [a x| | | |]; done. Qed.

(** The process [me] runs on CPU [c] of a well-formed table. *)
Definition mine (c me : nat) (t : ptable) : Prop := pt_ok t /\ runs t c me.

Lemma one_step t t' : pstep t Other t' -> exists es, prun t es t'.
Proof. intros H. exists [Other]. econstructor; [done|constructor]. Qed.

Lemma ts_wakeup c me ch (X : ptable -> Prop) :
  (forall t, mine c me t -> X t -> X (woken ch t)) ->
  tsteps (fun t => mine c me t /\ X t) (pt (K := K) (J := J) (wakeup ch)) (fun _ t => mine c me t /\ X t).
Proof.
  intros HX. apply ts_pt. intros t [[I Hr] Hx]. cbn. split; [|split; [split|]].
  - apply one_step. by apply (st_wakeup t ch).
  - by apply (step_wakeup t ch).
  - done.
  - by apply HX.
Qed.

Lemma quiet_incore_st a v : quiet (K := K) (J := J) (incore (st a v)).
Proof. done. Qed.

(** Closing a file wakes sleepers on a pipe at most. *)
Lemma ts_fileclose c me f (X : ptable -> Prop) :
  (forall ch t, mine c me t -> X t -> X (woken ch t)) ->
  tsteps (K := K) (J := J) (fun t => mine c me t /\ X t) (fileclose f) (fun _ t => mine c me t /\ X t).
Proof.
  intros HX. set (P := fun t => mine c me t /\ X t).
  assert (Hpc : forall p w, tsteps (K := K) (J := J) P (incore (pipeclose p w)) (fun _ => P)).
  { intros p w. unfold pipeclose. eapply ts_ext; [apply incore_bind|].
    eapply (ts_bind _ _ _ (fun _ => P)).
    - destruct w; (eapply ts_ext; [apply incore_bind|]); (eapply (ts_bind _ _ _ (fun _ => P)); [by apply ts_quiet|]);
        intros u; apply ts_wakeup; intros t; apply HX.
    - intros u. apply ts_quiet. intros s. unfold incore, lift.
      unfold ld. rewrite (bind_ok (reads _) _ _ _ _ eq_refl), (bind_ok (reads _) _ _ _ _ eq_refl).
      destruct (_ && _); [|done]. cbn [when]. unfold inmem, lift. by destruct (kfree p (co_mem (kn_core s))). }
  unfold fileclose. eapply (ts_bind _ _ _ (fun _ => P)); [by apply ts_quiet|]. intros x.
  destruct (f_ref x <? 1); [by apply ts_quiet|].
  eapply (ts_bind _ _ _ (fun _ => P)); [by apply ts_quiet|]. intros u. destruct (f_ref x - 1 >? 0); [by apply ts_quiet|].
  eapply (ts_bind _ _ _ (fun _ => P)); [by apply ts_quiet|]. intros ff.
  do 2 (eapply (ts_bind _ _ _ (fun _ => P)); [by apply ts_quiet|]; intros ?).
  destruct (f_type ff); [by apply ts_quiet|apply Hpc|].
  apply ts_quiet. repeat (apply quiet_bind; [apply quiet_fs|intros ?]). apply quiet_fs.
Qed.

(** The running process writes fields of its own. *)
Definition own_write (g : proc -> proc) : Prop :=
  forall p, length (p_ofile p) = NOFILE -> exists sz pgdir kstack tf files cwd nm,
    g p = set_own sz pgdir kstack tf files cwd nm p /\ length files = NOFILE.

Lemma ts_own c me g (X X' : ptable -> Prop) :
  own_write g ->
  (forall t t', mine c me t -> X t -> slot t' me = g (slot t me) -> initproc t' = initproc t -> X' t') ->
  tsteps (K := K) (J := J) (fun t => mine c me t /\ X t) (pt (modp me g)) (fun _ t => mine c me t /\ X' t).
Proof.
  intros Hg HX. apply ts_pt. intros t [[I Hr] Hx]. destruct (runs_running t c me I Hr) as [_ Hlt].
  destruct (modp_replaced me g t Hlt) as [E (_ & Re & _)]. rewrite E.
  destruct (Hg (slot t me) (so_len _ (pt_slot t I me))) as (sz & pg & k & tf & fs & cw & nm & Eg & Hfl).
  set (t' := set_procs _ t) in *.
  assert (St : pstep t Other t').
  { apply (st_own t c me sz pg k tf fs cw nm); [done|done|]. unfold t'. rewrite Eg. done. }
  split; [by apply one_step|]. split; [split; [by eapply pstep_ok|done]|]. by apply (HX t).
Qed.

Lemma own_set_ofile fd x : own_write (set_ofile fd x).
Proof. intros p Hp. unfold set_ofile. do 7 eexists. split; [reflexivity|]. by rewrite length_insert. Qed.

Lemma own_set_cwd x : own_write (set_cwd x).
Proof. intros p Hp. unfold set_cwd. do 7 eexists. split; [reflexivity|done]. Qed.

Lemma own_set_sz x : own_write (set_sz x).
Proof. intros p Hp. unfold set_sz. do 7 eexists. split; [reflexivity|done]. Qed.

Lemma woken_mine c me ch t : mine c me t -> slot (woken ch t) me = slot t me.
Proof.
  intros [I Hr]. destruct (wakeup_slot ch t) as (_ & _ & _ & E). unfold woken. rewrite E. unfold wake_one.
  rewrite decide_False; [done|]. intros [Hs _]. rewrite (pt_runs t I c me Hr) in Hs. done.
Qed.

(** The first [k] descriptors are closed. *)
Definition closed_to (me : nat) (k : Z) (t : ptable) : Prop :=
  initproc t <> Some me /\ forall j, Z.of_nat j < k -> p_ofile (slot t me) !!! j = None.

Lemma ts_close_fd c me k :
  0 <= k < Z.of_nat NOFILE ->
  tsteps (K := K) (J := J) (fun t => mine c me t /\ closed_to me k t) (close_fd me k)
    (fun _ t => mine c me t /\ closed_to me (k + 1) t).
Proof.
  intros Hk. unfold close_fd. eapply ts_bind; [apply ts_myproc|]. intros p. cbn beta.
  destruct (p_ofile p !!! Z.to_nat k) as [f|] eqn:Ef.
  - eapply (ts_bind _ _ _ (fun _ t => mine c me t /\ closed_to me k t)).
    + eapply ts_conseq; [apply (ts_fileclose c me f (closed_to me k))| |done].
      * intros ch t Ht [H1 H2]. split; [done|]. by rewrite (woken_mine c me).
      * by intros t [? _].
    + intros u. apply ts_own; [apply own_set_ofile|]. intros t t' [I Hr] [H1 H2] Es Ei.
      split; [by rewrite Ei|]. intros j Hj. rewrite Es. cbn [p_ofile set_ofile set_own].
      destruct (decide (j = Z.to_nat k)) as [->|Hne].
      * rewrite list_lookup_total_insert_eq; [done|]. rewrite (so_len _ (pt_slot t I me)). lia.
      * rewrite list_lookup_total_insert_ne by done. apply H2. lia.
  - apply ts_ret. intros t [[Hm [H1 H2]] ->]. split; [done|]. split; [done|]. intros j Hj.
    destruct (decide (j = Z.to_nat k)) as [->|]; [done|]. apply H2. lia.
Qed.

Lemma all_closed t me : pt_ok t -> closed_to me (Z.of_nat NOFILE) t -> p_ofile (slot t me) = replicate NOFILE None.
Proof.
  intros I [_ H]. apply list_eq. intros j. pose proof (so_len _ (pt_slot t I me)) as Hl.
  destruct (decide (j < NOFILE)%nat) as [Hj|Hj].
  - rewrite lookup_replicate_2 by done. rewrite list_lookup_lookup_total_lt by lia. f_equal. apply H. lia.
  - rewrite (lookup_ge_None_2 (p_ofile (slot t me))) by lia. symmetry. apply lookup_ge_None_2. rewrite length_replicate. lia.
Qed.

Lemma ts_exit c me : tsteps (K := K) (J := J) (mine c me) (exit c me) (fun _ _ => True).
Proof.
  unfold exit. eapply ts_bind; [apply ts_read|]. intros ini. cbn beta.
  destruct (decide (ini = Some me)) as [|Hini]; [eapply ts_conseq; [by apply (ts_quiet (fun _ => True))|done|done]|].
  eapply (ts_bind _ _ _ (fun _ t => mine c me t /\ closed_to me (Z.of_nat NOFILE) t)).
  { eapply ts_conseq; [apply (ts_for (fun k t => mine c me t /\ closed_to me k t) 0 (Z.of_nat NOFILE)); [lia|]| |done].
    - intros k Hk. by apply ts_close_fd.
    - intros t [Hm ->]. split; [done|]. split; [done|]. intros j Hj. lia. }
  intros u. eapply ts_bind; [apply ts_quiet, quiet_fs|]. intros u1. eapply ts_bind; [apply ts_myproc|]. intros p.
  eapply ts_bind; [apply ts_quiet; destruct (p_cwd p); [apply quiet_fs|done]|]. intros u2.
  eapply ts_bind; [apply ts_quiet, quiet_fs|]. intros u3. cbn beta.
  eapply (ts_bind _ _ _ (fun _ t => mine c me t /\ (closed_to me (Z.of_nat NOFILE) t /\ p_cwd (slot t me) = None))).
  - eapply ts_conseq; [apply (ts_own c me _ (closed_to me (Z.of_nat NOFILE))
      (fun t => closed_to me (Z.of_nat NOFILE) t /\ p_cwd (slot t me) = None))| |done].
    + apply own_set_cwd.
    + intros t t' Ht [H1 H2] Es Ei. rewrite Es. split; [|done]. split; [by rewrite Ei|]. intros j Hj.
      rewrite Es. by apply H2.
    + by intros t [[? ?] _].
  - intros u4. apply ts_pt. intros t [[I Hr] [Hc Hw]]. destruct (pt_init t I) as (z & Ez & _).
    destruct (exit_ok t c me z I Hr Ez) as (t' & E & _); [by destruct Hc; congruence|by apply all_closed|done|].
    rewrite E. split; [|done]. apply one_step. apply (st_exit t c me); try done; [apply Hc|by apply all_closed].
Qed.

(** ** Waiting *)

Lemma ts_reap c me i f :
  f = clear_slot \/ f = clear_slot_stat ->
  tsteps (K := K) (J := J) (fun t => mine c me t /\ wait_scan me (procs t) 0 false = Zombie i) (pt (modp i f)) (fun _ _ => True).
Proof.
  intros Hf. apply ts_pt. intros t [[I Hr] Hw]. split; [|done]. apply one_step.
  by apply (st_reap t c me i f).
Qed.

Lemma ts_wait_sleep {A} c me :
  tsteps (K := K) (J := J)
    (fun t => mine c me t /\ wait_scan me (procs t) 0 false = NoZombie true /\ p_killed (slot t me) = 0)
    (pt (sleep c me (ChanProc me));; sleep_on (ChanProc me)) (fun (_ : A) _ => True).
Proof.
  eapply (ts_bind _ _ _ (fun _ _ => True)).
  - apply ts_pt. intros t [[I Hr] [Hw Hk]]. destruct (sleep c me (ChanProc me) t) as [[] t'| |ch t'| |] eqn:E; try done.
    + split; [|done]. apply one_step. by apply (st_wait t c me).
    + exfalso. unfold sleep, sched in E. repeat (unfold mbind, M_bind in E; cbn in E; try case_decide); done.
  - intros u s _. exists []. constructor.
Qed.

Lemma ts_wait_body {A} c me (zombie : nat -> M kern A) (giveup : M kern A) :
  (forall i, tsteps (fun t => mine c me t /\ wait_scan me (procs t) 0 false = Zombie i) (zombie i) (fun _ _ => True)) ->
  quiet giveup ->
  tsteps (mine c me)
    (sc ← pt (reads (fun t => wait_scan me (procs t) 0 false));
     match sc with
     | Zombie i => zombie i
     | NoZombie havekids =>
         p ← myproc me;
         if negb havekids || negb (p_killed p =? 0) then giveup
         else pt (sleep c me (ChanProc me));; sleep_on (ChanProc me)
     end) (fun _ _ => True).
Proof.
  intros Hz Hg. eapply ts_bind; [apply ts_read|]. intros [i|hk]; cbn beta iota.
  - eapply ts_conseq; [apply Hz| |done]. by intros t [? <-].
  - eapply ts_bind; [apply ts_myproc|]. intros p. cbn beta. destruct (negb hk || negb (p_killed p =? 0)) eqn:E.
    + eapply ts_conseq; [by apply (ts_quiet (fun _ => True))|done|done].
    + apply orb_false_iff in E as [E1 E2]. apply negb_false_iff in E1 as ->.
      eapply ts_conseq; [apply ts_wait_sleep| |done]. intros t [[Hm <-] ->]. split_and!; try done. lia.
Qed.

Lemma ts_wait c me : tsteps (K := K) (J := J) (mine c me) (wait c me) (fun _ _ => True).
Proof.
  apply ts_wait_body; [|done]. intros i. eapply ts_bind; [apply ts_myproc|]. intros p. cbn beta.
  do 2 (eapply ts_bind; [apply ts_quiet, quiet_kmem|]; intros ?). cbn beta.
  eapply ts_bind; [eapply ts_conseq; [apply (ts_reap c me i clear_slot); by left|by intros t [? _]|done]|].
  intros u. apply ts_ret. done.
Qed.

Lemma ts_wait_stat c me old : tsteps (K := K) (J := J) (mine c me) (wait_stat c me old) (fun _ _ => True).
Proof.
  apply ts_wait_body; [|done]. intros i. eapply ts_bind; [apply ts_myproc|]. intros p. cbn beta.
  do 2 (eapply ts_bind; [apply ts_quiet, quiet_kmem|]; intros ?). cbn beta.
  eapply ts_bind; [eapply ts_conseq; [apply (ts_reap c me i clear_slot_stat); by right|by intros t [? _]|done]|].
  intros u. apply ts_ret. done.
Qed.

Lemma ts_growproc c me n : tsteps (K := K) (J := J) (mine c me) (growproc me n) (fun _ _ => True).
Proof.
  unfold growproc. eapply ts_bind; [apply ts_myproc|]. intros p. cbn beta.
  eapply (ts_bind _ _ _ (fun _ => mine c me)).
  - eapply ts_conseq; [apply (ts_quiet (mine c me))|by intros t [? _]|done].
    destruct (n >? 0); [|destruct (n <? 0); [|done]]; (apply quiet_bind; [apply quiet_kmem|done]).
  - intros [sz'|]; [|by apply ts_ret].
    eapply (ts_bind _ _ _ (fun _ _ => True)).
    + eapply ts_conseq; [apply (ts_own c me _ (fun _ => True) (fun _ => True))|done|done]; [apply own_set_sz|done].
    + intros u. eapply (ts_bind _ _ _ (fun _ _ => True)).
      * unfold switchuvm. eapply ts_bind; [apply ts_myproc|]. intros q. cbn beta.
        eapply ts_conseq; [apply (ts_quiet (fun _ => True)); by destruct (p_pgdir q =? 0)|done|done].
      * intros u'. by apply ts_ret.
Qed.

(** ** Making a process *)

(** The process [me] runs, and slot [np] is in the making. *)
Definition making (c me np : nat) (t : ptable) : Prop :=
  mine c me t /\ p_state (slot t np) = EMBRYO /\ p_context (slot t np) = InForkret.

Lemma set_own_id x p :
  set_own (p_sz p) (p_pgdir p) (p_kstack p) (p_tf p) (p_ofile p) (p_cwd p) (p_name p) (set_state x p) = set_state x p.
Proof. by destruct p. Qed.

(** Writes to a slot in the making that concern nobody else. *)
Lemma ts_embryo c me np g :
  (forall p, exists sz pgdir kstack tf nm, g p = set_own sz pgdir kstack tf (p_ofile p) (p_cwd p) nm p) ->
  tsteps (K := K) (J := J) (making c me np) (pt (modp np g)) (fun _ => making c me np).
Proof.
  intros Hg. apply ts_pt. intros t [[I Hr] [Hs Hx]].
  destruct (modp_replaced np g t (embryo_lt t np Hs)) as [E (_ & Re & _)]. rewrite E. set (t' := set_procs _ t) in *.
  destruct (Hg (slot t np)) as (sz & pg & k & tf & nm & Eg).
  assert (St : pstep t Other t').
  { apply (st_embryo t np sz pg k tf nm); [done|]. unfold t'. rewrite Eg. done. }
  split; [by apply one_step|]. split; [split; [by eapply pstep_ok|done]|]. by rewrite Re, Eg.
Qed.

Lemma ts_undo c me np :
  tsteps (K := K) (J := J) (making c me np) (pt (modp np (set_state UNUSED))) (fun _ _ => True).
Proof.
  apply ts_pt. intros t [[I Hr] [Hs Hx]]. split; [|done]. apply one_step.
  apply (st_undo t np (p_kstack (slot t np))); [done|]. unfold modp, modify. by rewrite set_own_id.
Qed.

Lemma alloc_slot_other t :
  (forall t', alloc_slot t = Ok None t' -> t' = t) /\ (forall ch t', alloc_slot t <> Sleep ch t').
Proof.
  unfold alloc_slot. munfold. destruct (find_unused (procs t) 0); [|split; [by intros t' [= <-]|done]].
  unfold modp. munfold. destruct (nextpid t =? 2 ^ 31 - 1); done.
Qed.

Lemma ts_allocproc c me :
  tsteps (K := K) (J := J) (mine c me) (allocproc trapret forkret_addr)
    (fun o t => match o with Some np => making c me np t | None => True end).
Proof.
  unfold allocproc.
  eapply (ts_bind _ _ _ (fun o t => match o with Some np => mine c me t /\ p_state (slot t np) = EMBRYO | None => mine c me t end)).
  - apply ts_pt. intros t [I Hr]. destruct (alloc_slot t) as [[np|] t'| |ch t'| |] eqn:E; try done.
    + pose proof (alloc_slot_inv _ _ _ E) as (_ & _ & _ & (_ & Re & _) & Hc & _).
      split; [apply one_step; by apply (st_alloc t c me np)|]. rewrite Re. split; [split|done].
      * by apply (step_alloc t np).
      * by apply (runs_same t).
    + destruct (alloc_slot_other t) as (H1 & _). rewrite (H1 t' E). split; [exists []; constructor|done].
    + destruct (alloc_slot_other t) as (_ & H2). by destruct (H2 ch t' E).
  - intros [np|]; [|by apply ts_ret].
    eapply ts_bind; [apply ts_quiet, quiet_kmem|]. intros k. cbn beta. destruct (k =? 0).
    + eapply (ts_bind _ _ _ (fun _ _ => True)); [|intros u; by apply ts_ret].
      apply ts_pt. intros t [[I Hr] Hs]. split; [|done]. apply one_step. by apply (st_undo t np 0).
    + do 3 (eapply ts_bind; [apply ts_quiet, quiet_kmem|]; intros ?). cbn beta.
      eapply (ts_bind _ _ _ (fun _ => making c me np)); [|intros u; by apply ts_ret].
      apply ts_pt. intros t [[I Hr] Hs]. pose proof (embryo_lt t np Hs) as Hlt.
      destruct (alloc_fields np k _ t) as [[] t'| |ch t'| |] eqn:E; try done.
      destruct (fields_inv _ _ _ _ _ E Hlt) as [(_ & Re & _) (Hc & _)].
      split; [apply one_step; by eapply (st_fields t np)|]. split; [split|].
      * by eapply (step_fields t np).
      * by apply (runs_same t).
      * by rewrite Re.
Qed.

(** A routine that does not block, by what it makes of the table. *)
Definition tkeeps {A} (P : ptable -> Prop) (m : M kern A) (Q : A -> ptable -> Prop) : Prop :=
  forall s, P (table s) -> match m s with Ok a s' => Q a (table s') | Sleep _ _ => False | _ => True end.

Lemma tk_bind {A B} P (m : M kern A) (k : A -> M kern B) R Q :
  tkeeps P m R -> (forall a, tkeeps (R a) (k a) Q) -> tkeeps P (m ≫= k) Q.
Proof.
  intros Hm Hk s Hs. specialize (Hm s Hs). unfold mbind, M_bind. destruct (m s) as [a s1| |c s1| |]; try done.
  by apply Hk.
Qed.

Lemma tk_ret {A} (P : ptable -> Prop) (a : A) : tkeeps P (mret a) (fun b t => P t /\ b = a).
Proof. by intros s Hs. Qed.

Lemma tk_for (I : ptable -> Prop) lo hi body :
  (forall i, lo <= i < hi -> tkeeps I (body i) (fun _ => I)) -> tkeeps I (for_ lo hi body) (fun _ => I).
Proof.
  intros H. unfold for_. remember (Z.to_nat (hi - lo)) as n eqn:En. revert lo H En.
  induction n as [|n IH]; intros lo H En; cbn [for_from]; [by intros s Hs|].
  eapply tk_bind; [apply H; lia|]. intros u. apply IH; [|lia]. intros i Hi. apply H. lia.
Qed.

(** The table [t0] with slot [np] filled in as the child of [me]. *)
Definition filled (me np : nat) (t0 t : ptable) : Prop :=
  exists sz pgdir kstack tf files cwd nm,
    t = set_procs (<[np := set_parent (Some me) (set_own sz pgdir kstack tf files cwd nm (slot t0 np))]> (procs t0)) t0 /\
    length files = NOFILE.

Lemma tk_fill me np t0 g :
  (np < length (procs t0))%nat -> own_write g ->
  tkeeps (filled me np t0) (pt (modp np g)) (fun _ => filled me np t0).
Proof.
  intros Hlt Hg s (sz & pg & k & tf & fs & cw & nm & E & Hl). unfold table in *. cbn.
  set (p := set_parent (Some me) (set_own sz pg k tf fs cw nm (slot t0 np))) in *.
  assert (Es : slot (co_pt (kn_core s)) np = p) by (rewrite E; by apply slot_insert_eq).
  destruct (Hg p) as (sz' & pg' & k' & tf' & fs' & cw' & nm' & Eg & Hl'); [done|].
  exists sz', pg', k', tf', fs', cw', nm'. split; [|done]. rewrite Es, Eg, E. cbn. unfold set_procs. cbn.
  rewrite list_insert_insert_eq. done.
Qed.

Lemma tk_kmem P f : tkeeps P (kmem_op (modify f)) (fun _ => P).
Proof. by intros s Hs. Qed.

Lemma tk_filedup P f : tkeeps P (filedup f) (fun _ => P).
Proof. intros s Hs. unfold filedup. munfold. unfold getf. munfold. by destruct (_ <? 1). Qed.

Lemma tk_myproc P i : tkeeps P (myproc i) (fun _ => P).
Proof. by intros s Hs. Qed.

Lemma tk_dup_file me np t0 k :
  (np < length (procs t0))%nat -> tkeeps (filled me np t0) (dup_file me np k) (fun _ => filled me np t0).
Proof.
  intros Hlt. unfold dup_file. eapply tk_bind; [apply tk_myproc|]. intros p. cbn beta.
  destruct (p_ofile p !!! Z.to_nat k) as [f|]; [|by intros s Hs].
  eapply tk_bind; [apply tk_filedup|]. intros f'. apply tk_fill; [done|apply own_set_ofile].
Qed.

(** [fork] once it has the child's address space. *)
Definition fork_rest (me np : nat) (p : proc) : M kern Z :=
  pt (modp np (set_parent (Some me)));;
  q ← myproc np;
  kmem_op (memmove (p_tf q) (p_tf p) sizeof_tf);;
  kmem_op (wr (p_tf q + tf_eax) 0);;
  for_ 0 (Z.of_nat NOFILE) (dup_file me np);;
  match p_cwd p with
  | None => undef "fork: no current directory"
  | Some d =>
      d' ← infs (idup d);
      pt (modp np (set_cwd (Some d')))
  end;;
  pt (modp np (fun q => set_name (copy_name (p_name q) (p_name p)) q));;
  pt (modp np (set_state RUNNABLE));;
  mret (p_pid q).

Definition published (me np : nat) (t0 t : ptable) : Prop :=
  exists sz pgdir kstack tf files cwd nm,
    t = set_procs (<[np := set_state RUNNABLE (set_parent (Some me)
      (set_own sz pgdir kstack tf files cwd nm (slot t0 np)))]> (procs t0)) t0 /\ length files = NOFILE.

Lemma tk_fork_rest me np p t0 :
  (np < length (procs t0))%nat -> length (p_ofile (slot t0 np)) = NOFILE ->
  tkeeps (fun t => t = t0) (fork_rest me np p) (fun _ => published me np t0).
Proof.
  intros Hlt Hfl. unfold fork_rest. eapply (tk_bind _ _ _ (fun _ => filled me np t0)).
  { intros s Et. subst t0. cbn. unfold table. set (p0 := slot (co_pt (kn_core s)) np) in *.
    exists (p_sz p0), (p_pgdir p0), (p_kstack p0), (p_tf p0), (p_ofile p0), (p_cwd p0), (p_name p0). split; [|exact Hfl].
    reflexivity. }
  intros u. eapply tk_bind; [apply tk_myproc|]. intros q.
  do 2 (eapply tk_bind; [apply tk_kmem|]; intros ?).
  eapply (tk_bind _ _ _ (fun _ => filled me np t0)); [apply tk_for; intros; by apply tk_dup_file|]. intros u1.
  eapply (tk_bind _ _ _ (fun _ => filled me np t0)).
  { destruct (p_cwd p) as [d|]; [|by intros s Hs]. eapply (tk_bind _ _ _ (fun _ => filled me np t0)); [by intros s Hs|].
    intros d'. apply tk_fill; [done|apply own_set_cwd]. }
  intros u2. eapply (tk_bind _ _ _ (fun _ => filled me np t0)).
  { apply tk_fill; [done|]. intros x Hx. unfold set_name. do 7 eexists. split; [reflexivity|done]. }
  intros u3. eapply (tk_bind _ _ _ (fun _ => published me np t0)); [|by intros u4 s Hs].
  intros s (sz & pg & k & tf & fs & cw & nm & E & Hl). cbn. do 7 eexists. split; [|exact Hl]. unfold table in *. rewrite E.
  unfold slot at 1. cbn. rewrite list_lookup_total_insert_eq by done. unfold set_procs. cbn. by rewrite list_insert_insert_eq.
Qed.

Lemma ts_fork_rest c me np p : tsteps (making c me np) (fork_rest me np p) (fun _ _ => True).
Proof.
  intros s [[I Hr] [Hs Hx]].
  pose proof (tk_fork_rest me np p (table s) (embryo_lt _ _ Hs) (so_len _ (pt_slot _ I np)) s eq_refl) as H.
  destruct (fork_rest me np p s) as [a s'| |ch s'| |]; try done. split; [|done].
  destruct H as (sz & pg & k & tf & fs & cw & nm & E & Hl). apply one_step.
  by apply (st_publish (table s) c me np sz pg k tf fs cw nm); try done; rewrite E.
Qed.

Lemma ts_fork c me : tsteps (K := K) (J := J) (mine c me) (fork trapret forkret_addr data me) (fun _ _ => True).
Proof.
  unfold fork. eapply ts_bind; [apply ts_allocproc|]. intros [np|]; [|by apply ts_ret].
  eapply ts_bind; [apply ts_myproc|]. intros p. cbn beta.
  eapply (ts_bind _ _ _ (fun _ => making c me np)); [eapply ts_conseq; [apply (ts_quiet (making c me np)), quiet_kmem|by intros t [? _]|done]|].
  intros pgdir. eapply ts_bind; [apply (ts_embryo c me np); intros q; unfold set_pgdir; by do 5 eexists|]. intros u.
  destruct (pgdir =? 0).
  - eapply ts_bind; [apply ts_myproc|]. intros q. cbn beta.
    eapply (ts_bind _ _ _ (fun _ => making c me np)); [eapply ts_conseq; [apply (ts_quiet (making c me np)), quiet_kmem|by intros t [? _]|done]|].
    intros u1. eapply ts_bind; [apply (ts_embryo c me np); intros x; unfold set_kstack; by do 5 eexists|]. intros u2.
    eapply ts_bind; [apply ts_undo|]. intros u3. by apply ts_ret.
  - eapply ts_bind; [apply (ts_embryo c me np); intros x; unfold set_sz; by do 5 eexists|]. intros u1.
    apply (ts_fork_rest c me np p).
Qed.

(** The system calls that change the process table. *)
Inductive pcall := CFork | CExit | CWait | CWaitStat (old : wstat) | CGrow (n : Z).

Definition run_pcall (c me : nat) (x : pcall) : M kern unit :=
  match x with
  | CFork => _ ← fork trapret forkret_addr data me; mret tt
  | CExit => exit c me
  | CWait => _ ← wait c me; mret tt
  | CWaitStat old => _ ← wait_stat c me old; mret tt
  | CGrow n => _ ← growproc me n; mret tt
  end.

(** C18: The whole process calls refine the steps of the process table.  Made by a
    process that runs, [fork], [exit], [wait], [wait_stat] and the growth of
    memory change the table only by a run of its steps, on every branch,
    failures and blocking included, and leave it well formed. *)
Theorem process_calls_refine_table c me x s s' :
  pt_ok (table s) -> runs (table s) c me ->
  (run_pcall c me x s = Ok tt s' \/ exists ch, run_pcall c me x s = Sleep ch s') ->
  exists es, prun (table s) es (table s') /\ pt_ok (table s').
Proof.
  intros I Hr H.
  assert (T : tsteps (mine c me) (run_pcall c me x) (fun _ _ => True)).
  { destruct x; cbn; [eapply ts_bind; [apply ts_fork|]|apply ts_exit|eapply ts_bind; [apply ts_wait|]
      |eapply ts_bind; [apply ts_wait_stat|]|eapply ts_bind; [apply (ts_growproc c)|]]; intros a; by apply ts_ret. }
  specialize (T s (conj I Hr)).
  assert (X : exists es, prun (table s) es (table s')).
  { destruct H as [H|[ch H]]; rewrite H in T; [apply T|done]. }
  destruct X as [es X]. exists es. split; [done|]. by eapply prun_ok.
Qed.
End calls.

(** ** A call *)

Import Bio.Cache.

(** A kernel whose process table is [t]. *)
Definition demo_kernel (j : lstate (bcache Memide.state)) (t : ptable) : kernel (K := kmem) (J := lstate (bcache Memide.state)) :=
  MkKernel (MkCore (MkKmem (fun _ => 0) false 0) t) (MkFs j demo_sb []) (replicate NFILE zero_file).

Lemma process_calls_refine_table_witness :
  exists j s' es, prun table_forked es (table s') /\
    run_pcall 0 0 demo_end 0 0 CWait (demo_kernel j table_forked) = Sleep (ChanProc 0) s' /\
    p_state (slot (table s') 0) = SLEEPING.
Proof.
  destruct demo_boot as (_ & _ & j & _). exists j, (demo_kernel j table_waiting).
  destruct (process_calls_refine_table 0 0 demo_end 0 0 CWait (demo_kernel j table_forked) (demo_kernel j table_waiting))
    as (es & H & _).
  - exact (prun_ok _ _ _ (first_process_ok _ boot_first) run_to_forked).
  - by exists (MkPcpu (Some 0%nat) 1 true).
  - right. exists (ChanProc 0). compute_step.
  - exists es. split; [exact H|]. split; compute_step.
Defined.
