(* ===== verification/Syscall.v ===== *)
(** * System call arguments and the calls of sysproc.c (HW3/syscall.c, HW3/sysproc.c)

    The kernel reads and writes the memory of the calling process through the
    page table that is loaded: [translate] is the walk of the hardware, and an
    access it refuses is a page fault in kernel mode, on which [trap] panics.
    The system calls take the slot [me] of the calling process and the CPU [c]
    it runs on. *)

From stdpp Require Import base numbers list gmap sets strings.
From Stdlib Require Import ZArith Lia.
From S2P Require Import Prelude CStrings Frames Vm VmSpec Disk Blocks Log Journal Fs Ptable Pipe File Proc.

Open Scope Z_scope.

(** ** User memory *)

(** The kernel address of user address [va]; [CR0_WP] is set, so a write needs
    [PTE_W] also in kernel mode. *)
Definition translate (m : mem) (pgdir va : Z) (write : bool) : option Z :=
  let e := pte m pgdir (va / PGSIZE) in
  if has e PTE_P && (negb write || has e PTE_W)
  then Some (uframe m pgdir (va / PGSIZE) + va mod PGSIZE) else None.

Section umem.
Context {K : Type} `{!Frames K}.

Definition uload (pgdir va : Z) : M K Z := fun k =>
  match translate (fr_mem k) pgdir va false with
  | Some a => Ok (fr_mem k a) k
  | None => Panic "trap"
  end.

Definition ustore (pgdir va b : Z) : M K unit := fun k =>
  match translate (fr_mem k) pgdir va true with
  | Some a => Ok tt (fr_set (upd (fr_mem k) a b) k)
  | None => Panic "trap"
  end.

(** [n] bytes from [va] on, and the bytes [bs] to [va] on. *)
Fixpoint uloads (pgdir va : Z) (n : nat) : M K (list Z) :=
  match n with
  | O => mret []
  | S n' =>
      b ← uload pgdir va;
      bs ← uloads pgdir (u32 (va + 1)) n';
      mret (b :: bs)
  end.

Fixpoint ustores (pgdir va : Z) (bs : list Z) : M K unit :=
  match bs with
  | [] => mret tt
  | b :: bs' => ustore pgdir va b;; ustores pgdir (u32 (va + 1)) bs'
  end.

(** The string at [s], if it ends before [ep], within [n] bytes. *)
Fixpoint fetchstr_loop (n : nat) (pgdir s ep : Z) : M K (option (list Z)) :=
  if negb (s <? ep) then mret None else
  match n with
  | O => diverge
  | S n' =>
      b ← uload pgdir s;
      if b =? 0 then mret (Some []) else
      r ← fetchstr_loop n' pgdir (s + 1) ep;
      mret (cons b <$> r)
  end.

End umem.

(** ** Arguments *)

Section syscall.
Context {K J : Type} `{!Frames K, !Journal J, !Transactions J}.

Notation kern := (kernel (K := K) (J := J)).

(** The [n] bytes, and the bytes [bs], at address [va] of process [me]. *)
Definition from_user (me : nat) (va : Z) (n : nat) : M kern (list Z) :=
  p ← myproc me; kmem_op (uloads (p_pgdir p) va n).
Definition to_user (me : nat) (va : Z) (bs : list Z) : M kern unit :=
  p ← myproc me; kmem_op (ustores (p_pgdir p) va bs).

(** [None] is -1, [Some] the value stored through the pointer. *)
Definition fetchint (me : nat) (addr : Z) : M kern (option Z) :=
  p ← myproc me;
  if (addr >=? p_sz p) || (u32 (addr + 4) >? p_sz p) then mret None else
  bs ← from_user me addr 4;
  mret (Some (s32 (le_val bs))).

(** The string; the C result is its length. *)
Definition fetchstr (me : nat) (addr : Z) : M kern (option (list Z)) :=
  p ← myproc me;
  if addr >=? p_sz p then mret None else
  kmem_op (fetchstr_loop (Z.to_nat (p_sz p - addr)) (p_pgdir p) addr (p_sz p)).

Definition argint (me : nat) (n : Z) : M kern (option Z) :=
  p ← myproc me;
  esp ← kmem_op (rd (p_tf p + tf_esp));
  fetchint me (u32 (esp + 4 + 4 * n)).

Definition argptr (me : nat) (n size : Z) : M kern (option Z) :=
  oi ← argint me n;
  match oi with
  | None => mret None
  | Some i =>
      p ← myproc me;
      if (u32 i >=? p_sz p) || (u32 (u32 i + size) >? p_sz p) then mret None
      else mret (Some (u32 i))
  end.

Definition argstr (me : nat) (n : Z) : M kern (option (list Z)) :=
  oa ← argint me n;
  match oa with
  | None => mret None
  | Some addr => fetchstr me (u32 addr)
  end.

End syscall.

(** Give up with -1 when an argument is bad. *)
Notation "x ←? m ; k" := (mbind (fun o => match o with None => mret (-1) | Some x => k end) m)
  (at level 20, m at level 100, k at level 200, only parsing).

(** ** sysproc.c *)

Section sysproc.
Context {K J : Type} `{!Frames K, !Journal J, !Transactions J}.
Context (trapret forkret_addr data : Z).

Notation kern := (kernel (K := K) (J := J)).

Definition sys_fork (me : nat) : M kern Z := fork trapret forkret_addr data me.

(** To the switch to the scheduler; it does not return. *)
Definition sys_exit (c me : nat) : M kern unit := exit c me.

Definition sys_wait (c me : nat) : M kern Z := wait c me.

(** [wait_stat] stores through the first three pointers only when it finds a
    child. *)
Definition sys_wait_stat (c me : nat) : M kern Z :=
  wtime ←? argptr me 0 4;
  rtime ←? argptr me 1 4;
  iotime ←? argptr me 2 4;
  status ←? argptr me 3 4;
  w ← wait_stat c me (MkWstat 0 0 0 0 0);
  when (negb (ws_result w =? -1)) (
    to_user me wtime (le_bytes 4 (ws_wtime w));;
    to_user me rtime (le_bytes 4 (ws_rtime w));;
    to_user me iotime (le_bytes 4 (ws_iotime w)));;
  to_user me status (le_bytes 4 (ws_status w));;
  mret (ws_result w).

Definition sys_kill (me : nat) : M kern Z :=
  pid ←? argint me 0;
  pt (kill pid).

Definition sys_getpid (me : nat) : M kern Z :=
  p ← myproc me; mret (p_pid p).

Definition sys_sbrk (me : nat) : M kern Z :=
  n ←? argint me 0;
  p ← myproc me;
  r ← growproc me n;
  mret (if r <? 0 then -1 else s32 (p_sz p)).

(** The loop of [sys_sleep], from entry or from a wake-up to the return or the
    next sleep. *)
Definition sleep_until (c me : nat) (ticks0 n : Z) : M kern Z :=
  t ← pt (reads ticks);
  if u32 (t - ticks0) <? u32 n then
    p ← myproc me;
    if negb (p_killed p =? 0) then mret (-1)
    else
      pt (sleep c me ChanTicks);;
      sleep_on ChanTicks
  else mret 0.

Definition sys_sleep (c me : nat) : M kern Z :=
  n ←? argint me 0;
  ticks0 ← pt (reads ticks);
  sleep_until c me ticks0 n.

Definition sys_uptime : M kern Z :=
  xticks ← pt (reads ticks); mret (s32 xticks).

End sysproc.
