(* ===== verification/Sysfile.v ===== *)
(** * The system calls on files (HW3/sysfile.c)

    Argument checking, and the calls into file.c, fs.c, log.c and pipe.c.
    [sys_exec] is with [exec].  The buffer [name] that [nameiparent] fills is
    uninitialised in C; it is written before it is read, and here starts with
    zeros. *)

From stdpp Require Import base numbers list gmap sets strings.
From Stdlib Require Import ZArith Lia.
From S2P Require Import Prelude CStrings Frames Vm VmSpec Disk Blocks Log Journal Fs Ptable Pipe File Proc Syscall.

Open Scope Z_scope.

Definition O_RDONLY : Z := 0x000.
Definition O_WRONLY : Z := 0x001.
Definition O_RDWR : Z := 0x002.
Definition O_CREATE : Z := 0x200.

Definition set_nlink (n : Z) (p : inode) : inode :=
  set_dinode (i_type p) (i_major p) (i_minor p) (s16 n) (i_size p) (i_addrs p) p.
Definition set_device (major minor : Z) (p : inode) : inode :=
  set_dinode (i_type p) (s16 major) (s16 minor) (i_nlink p) (i_size p) (i_addrs p) p.

Definition dot : list Z := cbytes ".".
Definition dotdot : list Z := cbytes "..".
Definition no_name : list Z := replicate (Z.to_nat DIRSIZ) 0.

Section sysfile.
Context {K J : Type} `{!Frames K, !Journal J, !Transactions J}.
Context (dv : devops (J := J)).

Notation kern := (kernel (K := K) (J := J)).

(** ** Descriptors *)

(** The calls whose arguments are values are definitions of their own, so that
    a program can be run without a user memory to fetch them from; [sys_...]
    fetches the arguments first. *)

(** The descriptor and its file. *)
Definition fd_file (me : nat) (fd : Z) : M kern (option (nat * nat)) :=
  p ← myproc me;
  if (fd <? 0) || (fd >=? Z.of_nat NOFILE) then mret None else
  match p_ofile p !!! Z.to_nat fd with
  | None => mret None
  | Some f => mret (Some (Z.to_nat fd, f))
  end.

Definition argfd (me : nat) (n : Z) : M kern (option (nat * nat)) :=
  ofd ← argint me n;
  match ofd with
  | None => mret None
  | Some fd => fd_file me fd
  end.

Definition fdalloc (me f : nat) : M kern (option nat) :=
  p ← myproc me;
  match list_find (fun x => x = None) (p_ofile p) with
  | None => mret None
  | Some (fd, _) => pt (modp me (set_ofile fd (Some f)));; mret (Some fd)
  end.

Definition dup_file_fd (me : nat) (ff : nat * nat) : M kern Z :=
  fd ←? fdalloc me ff.2;
  filedup ff.2;;
  mret (Z.of_nat fd).

Definition sys_dup (me : nat) : M kern Z :=
  ff ←? argfd me 0;
  dup_file_fd me ff.

Definition sys_read (c me : nat) : M kern Z :=
  ff ←? argfd me 0;
  n ←? argint me 2;
  p ←? argptr me 1 n;
  rb ← fileread dv c me ff.2 n;
  to_user me p rb.2;;
  mret rb.1.

Definition sys_write (c me : nat) : M kern Z :=
  ff ←? argfd me 0;
  n ←? argint me 2;
  p ←? argptr me 1 n;
  src ← from_user me p (Z.to_nat n);
  filewrite dv c me ff.2 src n.

Definition close_file_fd (me : nat) (ff : nat * nat) : M kern Z :=
  pt (modp me (set_ofile ff.1 None));;
  fileclose ff.2;;
  mret 0.

Definition sys_close (me : nat) : M kern Z :=
  ff ←? argfd me 0;
  close_file_fd me ff.

(** [struct stat] as it lies in memory: [short type; int dev; uint ino; short
    nlink; uint size], padded to words. *)
Definition stat_bytes (old : list Z) (st : stat) : list Z :=
  put32 (put16 (put32 (put32 (put16 old 0 (st_type st)) 4 (st_dev st)) 8 (st_ino st)) 12 (st_nlink st)) 16 (st_size st).

Definition sys_fstat (me : nat) : M kern Z :=
  ff ←? argfd me 0;
  p ←? argptr me 1 20;
  st ←? filestat ff.2;
  old ← from_user me p 20;
  to_user me p (stat_bytes old st);;
  mret 0.

(** [sys_pipe] up to the stores of the two descriptors. *)
Definition pipe_fds (me : nat) (name : Z) : M kern (option (nat * nat)) :=
  rw ← pipealloc name;
  match rw with
  | None => mret None
  | Some (rf, wf) =>
      fd0 ← fdalloc me rf;
      match fd0 with
      | None => fileclose rf;; fileclose wf;; mret None
      | Some fd0 =>
          fd1 ← fdalloc me wf;
          match fd1 with
          | None =>
              pt (modp me (set_ofile fd0 None));;
              fileclose rf;;
              fileclose wf;;
              mret None
          | Some fd1 => mret (Some (fd0, fd1))
          end
      end
  end.

Definition sys_pipe (me : nat) (name : Z) : M kern Z :=
  fd ←? argptr me 0 8;
  fds ←? pipe_fds me name;
  to_user me fd (le_bytes 4 (Z.of_nat fds.1));;
  to_user me (fd + 4) (le_bytes 4 (Z.of_nat fds.2));;
  mret 0.

(** ** Names *)

(** The directory a relative path starts from; a null [proc->cwd] is used only
    by a relative path. *)
Definition cwd_of (me : nat) (path : list Z) : M kern nat :=
  p ← myproc me;
  match p_cwd p with
  | Some d => mret d
  | None => if bool_decide (head path = Some slash) then mret 0%nat else undef "no current directory"
  end.

Definition knamei (me : nat) (path : list Z) : M kern (option nat) :=
  d ← cwd_of me path; infs (namei dv d path).
Definition knameiparent (me : nat) (path : list Z) : M kern (option nat * list Z) :=
  d ← cwd_of me path; infs (nameiparent dv d path no_name).

Definition inode_at (i : nat) : M kern inode := infs (inode_of i).
Definition lock_inode (i : nat) : M kern unit := infs (ilock (Some i)).
Definition unlock_inode (i : nat) : M kern unit := infs (iunlock (Some i)).
Definition unlockput (i : nat) : M kern unit := infs (iunlockput i).

(** [bad:] of [sys_link]. *)
Definition link_bad (ip : nat) : M kern Z :=
  lock_inode ip;;
  p ← inode_at ip;
  infs (modi ip (set_nlink (i_nlink p - 1)));;
  infs (iupdate ip);;
  unlockput ip;;
  kend_op;;
  mret (-1).

Definition link_call (me : nat) (old new : list Z) : M kern Z :=
  kbegin_op;;
  oip ← knamei me old;
  match oip with
  | None => kend_op;; mret (-1)
  | Some ip =>
      lock_inode ip;;
      p ← inode_at ip;
      if i_type p =? T_DIR then unlockput ip;; kend_op;; mret (-1) else
      infs (modi ip (set_nlink (i_nlink p + 1)));;
      infs (iupdate ip);;
      unlock_inode ip;;
      dn ← knameiparent me new;
      match dn.1 with
      | None => link_bad ip
      | Some dp =>
          lock_inode dp;;
          d ← inode_at dp;
          p ← inode_at ip;
          r ← (if negb (i_dev d =? i_dev p) then mret (-1)
               else infs (dirlink dv dp dn.2 (i_inum p)));
          if r <? 0 then unlockput dp;; link_bad ip else
          unlockput dp;;
          infs (iput ip);;
          kend_op;;
          mret 0
      end
  end.

Definition sys_link (me : nat) : M kern Z :=
  old ←? argstr me 0;
  new ←? argstr me 1;
  link_call me old new.

(** The loop of [isdirempty]; [off] is compared with the unsigned [size]. *)
Fixpoint isdirempty_from (k : nat) (dp : nat) (off : Z) : M (fs J) bool :=
  p ← inode_of dp;
  if off <? i_size p then
    match k with
    | O => diverge
    | S k' =>
        '(n, de) ← readi dv dp off DIRENT;
        if negb (n =? DIRENT) then panic "isdirempty: readi"
        else if negb (get16 de 0 =? 0) then mret false
        else isdirempty_from k' dp (off + DIRENT)
    end
  else mret true.

Definition isdirempty (dp : nat) : M (fs J) bool :=
  p ← inode_of dp;
  isdirempty_from (Z.to_nat (i_size p)) dp (2 * DIRENT).

(** The empty entry written over the unlinked one. *)
Definition no_dirent : list Z := replicate (Z.to_nat DIRENT) 0.

Definition unlink_bad (dp : nat) : M kern Z := unlockput dp;; kend_op;; mret (-1).

Definition unlink_call (me : nat) (path : list Z) : M kern Z :=
  kbegin_op;;
  dn ← knameiparent me path;
  match dn.1 with
  | None => kend_op;; mret (-1)
  | Some dp =>
      lock_inode dp;;
      if (namecmp dn.2 dot =? 0) || (namecmp dn.2 dotdot =? 0) then unlink_bad dp else
      r ← infs (dirlookup dv dp dn.2);
      match r with
      | None => unlink_bad dp
      | Some (ip, off) =>
          lock_inode ip;;
          p ← inode_at ip;
          if i_nlink p <? 1 then panic "unlink: nlink < 1" else
          empty ← (if i_type p =? T_DIR then infs (isdirempty ip) else mret true);
          if negb empty then unlockput ip;; unlink_bad dp else
          n ← infs (writei dv dp no_dirent off);
          if negb (n =? DIRENT) then panic "unlink: writei" else
          when (i_type p =? T_DIR) (
            d ← inode_at dp;
            infs (modi dp (set_nlink (i_nlink d - 1)));;
            infs (iupdate dp));;
          unlockput dp;;
          p ← inode_at ip;
          infs (modi ip (set_nlink (i_nlink p - 1)));;
          infs (iupdate ip);;
          unlockput ip;;
          kend_op;;
          mret 0
      end
  end.

Definition sys_unlink (me : nat) : M kern Z :=
  path ←? argstr me 0;
  unlink_call me path.

(** The inode, locked. *)
Definition create (me : nat) (path : list Z) (type major minor : Z) : M kern (option nat) :=
  dn ← knameiparent me path;
  match dn.1 with
  | None => mret None
  | Some dp =>
      lock_inode dp;;
      r ← infs (dirlookup dv dp dn.2);
      match r with
      | Some (ip, _) =>
          unlockput dp;;
          lock_inode ip;;
          p ← inode_at ip;
          if (type =? T_FILE) && (i_type p =? T_FILE) then mret (Some ip) else
          unlockput ip;;
          mret None
      | None =>
          d ← inode_at dp;
          ip ← infs (ialloc (i_dev d) type);
          lock_inode ip;;
          infs (modi ip (set_device major minor));;
          infs (modi ip (set_nlink 1));;
          infs (iupdate ip);;
          p ← inode_at ip;
          when (type =? T_DIR) (
            infs (modi dp (set_nlink (i_nlink d + 1)));;
            infs (iupdate dp);;
            a ← infs (dirlink dv ip dot (i_inum p));
            b ← (if a <? 0 then mret a else infs (dirlink dv ip dotdot (i_inum d)));
            when (b <? 0) (panic "create dots"));;
          l ← infs (dirlink dv dp dn.2 (i_inum p));
          if l <? 0 then panic "create: dirlink" else
          unlockput dp;;
          mret (Some ip)
      end
  end.

(** [sys_open] after the inode is found and locked. *)
Definition open_file (me ip : nat) (omode : Z) : M kern Z :=
  f ← filealloc;
  match f with
  | None => unlockput ip;; kend_op;; mret (-1)
  | Some f =>
      fd ← fdalloc me f;
      match fd with
      | None => fileclose f;; unlockput ip;; kend_op;; mret (-1)
      | Some fd =>
          unlock_inode ip;;
          kend_op;;
          modf f (set_inode_file ip (negb (has omode O_WRONLY)) (has omode O_WRONLY || has omode O_RDWR));;
          mret (Z.of_nat fd)
      end
  end.

Definition open_call (me : nat) (path : list Z) (omode : Z) : M kern Z :=
  kbegin_op;;
  if has omode O_CREATE then
    oip ← create me path T_FILE 0 0;
    match oip with
    | None => kend_op;; mret (-1)
    | Some ip => open_file me ip omode
    end
  else
    oip ← knamei me path;
    match oip with
    | None => kend_op;; mret (-1)
    | Some ip =>
        lock_inode ip;;
        p ← inode_at ip;
        if (i_type p =? T_DIR) && negb (omode =? O_RDONLY) then unlockput ip;; kend_op;; mret (-1)
        else open_file me ip omode
    end.

Definition sys_open (me : nat) : M kern Z :=
  path ←? argstr me 0;
  omode ←? argint me 1;
  open_call me path omode.

(** The ending of [sys_mkdir] and [sys_mknod]. *)
Definition made (oip : option nat) : M kern Z :=
  match oip with
  | None => kend_op;; mret (-1)
  | Some ip => unlockput ip;; kend_op;; mret 0
  end.

Definition sys_mkdir (me : nat) : M kern Z :=
  kbegin_op;;
  path ← argstr me 0;
  match path with
  | None => made None
  | Some path => oip ← create me path T_DIR 0 0; made oip
  end.

Definition sys_mknod (me : nat) : M kern Z :=
  kbegin_op;;
  path ← argstr me 0;
  match path with
  | None => made None
  | Some path =>
      major ← argint me 1;
      match major with
      | None => made None
      | Some major =>
          minor ← argint me 2;
          match minor with
          | None => made None
          | Some minor => oip ← create me path T_DEV (s16 major) (s16 minor); made oip
          end
      end
  end.

(** [sys_chdir] after [begin_op] and the fetch of the path. *)
Definition chdir_call (me : nat) (path : list Z) : M kern Z :=
  oip ← knamei me path;
  match oip with
  | None => kend_op;; mret (-1)
  | Some ip =>
      lock_inode ip;;
      p ← inode_at ip;
      if negb (i_type p =? T_DIR) then unlockput ip;; kend_op;; mret (-1) else
      unlock_inode ip;;
      q ← myproc me;
      match p_cwd q with
      | None => undef "chdir: no current directory"
      | Some d => infs (iput d)
      end;;
      kend_op;;
      pt (modp me (set_cwd (Some ip)));;
      mret 0
  end.

Definition sys_chdir (me : nat) : M kern Z :=
  kbegin_op;;
  path ← argstr me 0;
  match path with
  | None => kend_op;; mret (-1)
  | Some path => chdir_call me path
  end.

End sysfile.
