(* ===== verification/Exec.v ===== *)
(** * Program loading (HW3/exec.c, [loaduvm] of HW3/vm.c, [sys_exec] of HW3/sysfile.c)

    The argument strings lie in the old address space of the caller, which is
    left alone until the new image is complete; [exec] takes them as bytes.
    The ELF header is a local variable: when [readi] fails with -1, which the
    unsigned comparison of [exec] lets through, its contents are
    undefined. *)

From stdpp Require Import base numbers list gmap sets strings.
From Stdlib Require Import ZArith Lia.
From S2P Require Import Prelude CStrings Frames Vm VmSpec Disk Blocks Log Journal Fs Ptable Pipe File Proc Syscall Sysfile.

Open Scope Z_scope.

Definition MAXARG : nat := 32.
Definition ELF_MAGIC : Z := 0x464C457F.
Definition ELF_PROG_LOAD : Z := 1.

(** [struct elfhdr] and [struct proghdr]: sizes and the fields used. *)
Definition sizeof_elf : Z := 52.
Definition e_magic (elf : list Z) : Z := get32 elf 0.
Definition e_entry (elf : list Z) : Z := get32 elf 24.
Definition e_phoff (elf : list Z) : Z := get32 elf 28.
Definition e_phnum (elf : list Z) : Z := get16 elf 44.

Definition sizeof_ph : Z := 32.
Definition ph_type (ph : list Z) : Z := get32 ph 0.
Definition ph_off (ph : list Z) : Z := get32 ph 4.
Definition ph_vaddr (ph : list Z) : Z := get32 ph 8.
Definition ph_filesz (ph : list Z) : Z := get32 ph 16.
Definition ph_memsz (ph : list Z) : Z := get32 ph 20.

(** What follows the last slash. *)
Fixpoint after_slash (s last : list Z) : list Z :=
  match s with
  | [] => last
  | c :: s' => after_slash s' (if c =? slash then s' else last)
  end.

Section copyout.
Context {K : Type} `{!Frames K}.

(** Bytes to a kernel address. *)
Definition put_mem (a : Z) (bs : list Z) : M K unit := modify (fun k => fr_set (place bs a (fr_mem k)) k).

(** [copyout] of bytes that are not at a kernel address. *)
Fixpoint copyout_from (k : nat) (pgdir va : Z) (bs : list Z) : M K Z :=
  let len := Z.of_nat (length bs) in
  if negb (len >? 0) then mret 0 else
  match k with
  | O => diverge
  | S k' =>
      let va0 := PGROUNDDOWN va in
      pa0 ← uva2ka pgdir va0;
      if pa0 =? 0 then mret (-1) else
      let n := Z.min (PGSIZE - (va - va0)) len in
      put_mem (pa0 + (va - va0)) (take (Z.to_nat n) bs);;
      copyout_from k' pgdir (u32 (va0 + PGSIZE)) (drop (Z.to_nat n) bs)
  end.

Definition copyout_bytes (pgdir va : Z) (bs : list Z) : M K Z := copyout_from (length bs) pgdir va bs.

End copyout.

Section exec.
Context {K J : Type} `{!Frames K, !Journal J, !Transactions J}.
Context (dv : devops (J := J)) (data : Z).

Notation kern := (kernel (K := K) (J := J)).

(** The loop of [loaduvm]; it runs once for each page. *)
Fixpoint loaduvm_loop (k : nat) (pgdir addr : Z) (ip : nat) (offset sz i : Z) : M kern Z :=
  if negb (i <? sz) then mret 0 else
  match k with
  | O => diverge
  | S k' =>
      pte ← kmem_op (walkpgdir pgdir (u32 (addr + i)) false);
      if pte =? 0 then panic "loaduvm: address should exist" else
      e ← kmem_op (rd pte);
      let pa := PTE_ADDR e in
      let n := if sz - i <? PGSIZE then sz - i else PGSIZE in
      rb ← infs (readi dv ip (u32 (offset + i)) n);
      kmem_op (put_mem (p2v pa) rb.2);;
      if negb (u32 rb.1 =? n) then mret (-1)
      else loaduvm_loop k' pgdir addr ip offset sz (u32 (i + PGSIZE))
  end.

Definition loaduvm (pgdir addr : Z) (ip : nat) (offset sz : Z) : M kern Z :=
  if negb (addr mod PGSIZE =? 0) then panic "loaduvm: addr must be page aligned"
  else loaduvm_loop (Z.to_nat ((sz + PGSIZE - 1) / PGSIZE)) pgdir addr ip offset sz 0.

(** The loop over the program headers, [k] of them left; [None] is [goto bad]. *)
Fixpoint load_segments (k : nat) (pgdir : Z) (ip : nat) (off sz : Z) : M kern (option Z) :=
  match k with
  | O => mret (Some sz)
  | S k' =>
      rb ← infs (readi dv ip (u32 off) sizeof_ph);
      if negb (u32 rb.1 =? sizeof_ph) then mret None else
      let ph := rb.2 in
      if negb (ph_type ph =? ELF_PROG_LOAD) then load_segments k' pgdir ip (off + sizeof_ph) sz else
      if ph_memsz ph <? ph_filesz ph then mret None else
      sz' ← kmem_op (allocuvm pgdir sz (u32 (ph_vaddr ph + ph_memsz ph)));
      if sz' =? 0 then mret None else
      r ← loaduvm pgdir (ph_vaddr ph) ip (ph_off ph) (ph_filesz ph);
      if r <? 0 then mret None else
      load_segments k' pgdir ip (off + sizeof_ph) sz'
  end.

(** The loop over [argv]: the new stack pointer and the pointers pushed. *)
Fixpoint push_args (pgdir : Z) (argv : list (list Z)) (argc : nat) (sp : Z) (ustack : list Z)
  : M kern (option (Z * list Z)) :=
  match argv with
  | [] => mret (Some (sp, ustack))
  | s :: argv' =>
      if (MAXARG <=? argc)%nat then mret None else
      let sp := Z.land (u32 (sp - (Z.of_nat (length s) + 1))) (Z.lnot 3) in
      r ← kmem_op (copyout_bytes pgdir sp (s ++ [0]));
      if r <? 0 then mret None else
      push_args pgdir argv' (S argc) sp (ustack ++ [sp])
  end.

(** [bad:] *)
Definition exec_bad (pgdir : Z) (ip : option nat) : M kern Z :=
  when (negb (pgdir =? 0)) (kmem_op (freevm pgdir));;
  match ip with
  | Some i => unlockput i;; kend_op
  | None => mret tt
  end;;
  mret (-1).

(** The user stack: [None] is [goto bad], else the stack pointer. *)
Definition exec_stack (pgdir sz : Z) (argv : list (list Z)) : M kern (option Z) :=
  kmem_op (clearpteu pgdir (u32 (sz - 2 * PGSIZE)));;
  a ← push_args pgdir argv 0 sz [];
  match a with
  | None => mret None
  | Some (sp, args) =>
      let argc := Z.of_nat (length args) in
      let ustack := [0xffffffff; argc; u32 (sp - (argc + 1) * 4)] ++ args ++ [0] in
      let sp := u32 (sp - (3 + argc + 1) * 4) in
      r ← kmem_op (copyout_bytes pgdir sp (mjoin (le_bytes 4 <$> ustack)));
      mret (if r <? 0 then None else Some sp)
  end.

(** The commit to the new image. *)
Definition exec_commit (me : nat) (path : list Z) (pgdir sz entry sp : Z) : M kern Z :=
  pt (modp me (fun q => set_name (copy_name (p_name q) (after_slash path path ++ [0])) q));;
  p ← myproc me;
  let oldpgdir := p_pgdir p in
  pt (modp me (set_pgdir pgdir));;
  pt (modp me (set_sz sz));;
  kmem_op (wr (p_tf p + tf_eip) entry);;
  kmem_op (wr (p_tf p + tf_esp) sp);;
  switchuvm me;;
  kmem_op (freevm oldpgdir);;
  mret 0.

Definition exec (me : nat) (path : list Z) (argv : list (list Z)) : M kern Z :=
  kbegin_op;;
  oip ← knamei dv me path;
  match oip with
  | None => kend_op;; mret (-1)
  | Some ip =>
      lock_inode ip;;
      rb ← infs (readi dv ip 0 sizeof_elf);
      if u32 rb.1 <? sizeof_elf then exec_bad 0 (Some ip) else
      if rb.1 <? 0 then undef "exec: elf is not initialised" else
      let elf := rb.2 in
      if negb (e_magic elf =? ELF_MAGIC) then exec_bad 0 (Some ip) else
      pgdir ← kmem_op (setupkvm data);
      if pgdir =? 0 then exec_bad 0 (Some ip) else
      osz ← load_segments (Z.to_nat (e_phnum elf)) pgdir ip (e_phoff elf) 0;
      match osz with
      | None => exec_bad pgdir (Some ip)
      | Some sz =>
          unlockput ip;;
          kend_op;;
          let sz := PGROUNDUP sz in
          sz ← kmem_op (allocuvm pgdir sz (u32 (sz + 2 * PGSIZE)));
          if sz =? 0 then exec_bad pgdir None else
          osp ← exec_stack pgdir sz argv;
          match osp with
          | None => exec_bad pgdir None
          | Some sp => exec_commit me path pgdir sz (e_entry elf) sp
          end
      end
  end.

(** ** sys_exec *)

(** The loop of [sys_exec] over the user's [argv], from entry [i] on; [None] is
    [return -1]. *)
Fixpoint fetch_argv (k : nat) (me : nat) (uargv i : Z) : M kern (option (list (list Z))) :=
  match k with
  | O => mret None
  | S k' =>
      uarg ← fetchint me (u32 (uargv + 4 * i));
      match uarg with
      | None => mret None
      | Some uarg =>
          if uarg =? 0 then mret (Some []) else
          s ← fetchstr me (u32 uarg);
          match s with
          | None => mret None
          | Some s =>
              r ← fetch_argv k' me uargv (i + 1);
              mret (cons s <$> r)
          end
      end
  end.

Definition sys_exec (me : nat) : M kern Z :=
  path ←? argstr me 0;
  uargv ←? argint me 1;
  argv ←? fetch_argv MAXARG me (u32 uargv) 0;
  exec me path argv.

End exec.
