(* ===== verification/Trap.v ===== *)
(** * System call dispatch and traps (HW3/syscall.c, HW3/trap.c)

    [syscall] calls by number and puts the result into [%eax] of the trap
    frame; [trap] is what every interrupt, exception and system call enters.
    The handlers of the disk, the keyboard and the serial line are arguments;
    the acknowledgement to the interrupt controller and the messages printed
    have no effect on the modelled state. *)

From stdpp Require Import base numbers list gmap sets strings.
From Stdlib Require Import ZArith Lia.
From S2P Require Import Prelude CStrings Frames Vm VmSpec Disk Blocks Log Journal Fs Ptable Pipe File Proc Syscall Sysfile Exec.

Open Scope Z_scope.

Definition T_SYSCALL : Z := 64.
Definition T_IRQ0 : Z := 32.
Definition IRQ_TIMER : Z := 0.
Definition IRQ_KBD : Z := 1.
Definition IRQ_COM1 : Z := 4.
Definition IRQ_IDE : Z := 14.
Definition IRQ_SPURIOUS : Z := 31.

Definition tf_trapno : Z := 48.

(** The numbers of syscall.h. *)
Inductive sysno :=
  SYS_fork | SYS_exit | SYS_wait | SYS_pipe | SYS_read | SYS_kill | SYS_exec | SYS_fstat | SYS_chdir | SYS_dup
| SYS_getpid | SYS_sbrk | SYS_sleep | SYS_uptime | SYS_open | SYS_write | SYS_mknod | SYS_unlink | SYS_link
| SYS_mkdir | SYS_close | SYS_wait_stat.

(** The table [syscalls], from entry 1 on. *)
Definition sysnos : list sysno :=
  [SYS_fork; SYS_exit; SYS_wait; SYS_pipe; SYS_read; SYS_kill; SYS_exec; SYS_fstat; SYS_chdir; SYS_dup;
   SYS_getpid; SYS_sbrk; SYS_sleep; SYS_uptime; SYS_open; SYS_write; SYS_mknod; SYS_unlink; SYS_link;
   SYS_mkdir; SYS_close; SYS_wait_stat].

(** How a trap ends: back to where it came from, in [exit], or in [yield], to go
    on when the process runs again. *)
Inductive trapped := Return | Gone | Yielded.

Section trap.
Context {K J : Type} `{!Frames K, !Journal J, !Transactions J}.
Context (dv : devops (J := J)) (trapret forkret_addr data pipe_name : Z).

Notation kern := (kernel (K := K) (J := J)).

Context (ideintr kbdintr uartintr : M kern unit).

Definition returns (m : M kern Z) : M kern (option Z) := r ← m; mret (Some r).

(** A call that returns gives the result; [None] is a call that does not. *)
Definition syscall_fn (c me : nat) (n : sysno) : M kern (option Z) :=
  match n with
  | SYS_exit => sys_exit c me;; mret None
  | SYS_fork => returns (sys_fork trapret forkret_addr data me)
  | SYS_wait => returns (sys_wait c me)
  | SYS_pipe => returns (sys_pipe me pipe_name)
  | SYS_read => returns (sys_read dv c me)
  | SYS_kill => returns (sys_kill me)
  | SYS_exec => returns (sys_exec dv data me)
  | SYS_fstat => returns (sys_fstat me)
  | SYS_chdir => returns (sys_chdir dv me)
  | SYS_dup => returns (sys_dup me)
  | SYS_getpid => returns (sys_getpid me)
  | SYS_sbrk => returns (sys_sbrk me)
  | SYS_sleep => returns (sys_sleep c me)
  | SYS_uptime => returns (sys_uptime)
  | SYS_open => returns (sys_open dv me)
  | SYS_write => returns (sys_write dv c me)
  | SYS_mknod => returns (sys_mknod dv me)
  | SYS_unlink => returns (sys_unlink dv me)
  | SYS_link => returns (sys_link dv me)
  | SYS_mkdir => returns (sys_mkdir dv me)
  | SYS_close => returns (sys_close me)
  | SYS_wait_stat => returns (sys_wait_stat c me)
  end.

(** [false] is a call that does not return. *)
Definition syscall (c me : nat) : M kern bool :=
  p ← myproc me;
  eax ← kmem_op (rd (p_tf p + tf_eax));
  let num := s32 eax in
  match (if num >? 0 then sysnos !! Z.to_nat (num - 1) else None) with
  | Some n =>
      r ← syscall_fn c me n;
      match r with
      | None => mret false
      | Some r =>
          p ← myproc me;
          kmem_op (wr (p_tf p + tf_eax) (u32 r));;
          mret true
      end
  | None =>
      kmem_op (wr (p_tf p + tf_eax) (u32 (-1)));;
      mret true
  end.

Definition set_tf (x : Z) (p : proc) : proc :=
  set_own (p_sz p) (p_pgdir p) (p_kstack p) x (p_ofile p) (p_cwd p) (p_name p) p.

(** [exit] if the process has been killed. *)
Definition exit_if_killed (c me : nat) (user : bool) : M kern bool :=
  p ← myproc me;
  if negb (p_killed p =? 0) && user then exit c me;; mret true else mret false.

(** The end of [trap], from the last check on. *)
Definition trap_end (c me : nat) (tf : Z) : M kern trapped :=
  cs ← kmem_op (rd (tf + tf_cs));
  gone ← exit_if_killed c me (Z.land cs 3 =? DPL_USER);
  mret (if (gone : bool) then Gone else Return).

(** The switch over the trap number. *)
Definition trap_cause (c : nat) (me : option nat) (trapno cs : Z) : M kern unit :=
  if trapno =? T_IRQ0 + IRQ_TIMER then when (c =? 0)%nat (pt timer_tick;; pt (wakeup ChanTicks))
  else if trapno =? T_IRQ0 + IRQ_IDE then ideintr
  else if trapno =? T_IRQ0 + IRQ_IDE + 1 then mret tt
  else if trapno =? T_IRQ0 + IRQ_KBD then kbdintr
  else if trapno =? T_IRQ0 + IRQ_COM1 then uartintr
  else if (trapno =? T_IRQ0 + 7) || (trapno =? T_IRQ0 + IRQ_SPURIOUS) then mret tt
  else match me with
       | None => panic "trap"
       | Some me => if Z.land cs 3 =? 0 then panic "trap" else pt (modp me (set_killed 1))
       end.

(** [trap] on CPU [c], where process [me] runs or none does. *)
Definition trap (c : nat) (me : option nat) (tf : Z) : M kern trapped :=
  trapno ← kmem_op (rd (tf + tf_trapno));
  if trapno =? T_SYSCALL then
    match me with
    | None => undef "trap: no process"
    | Some me =>
        gone ← exit_if_killed c me true;
        if (gone : bool) then mret Gone else
        pt (modp me (set_tf tf));;
        back ← syscall c me;
        if negb back then mret Gone else
        gone ← exit_if_killed c me true;
        mret (if (gone : bool) then Gone else Return)
    end
  else
    cs ← kmem_op (rd (tf + tf_cs));
    trap_cause c me trapno cs;;
    match me with
    | None => mret Return
    | Some me =>
        gone ← exit_if_killed c me (Z.land cs 3 =? DPL_USER);
        if (gone : bool) then mret Gone else
        p ← myproc me;
        if bool_decide (p_state p = RUNNING) && (trapno =? T_IRQ0 + IRQ_TIMER) then
          pt (yield c me);;
          mret Yielded
        else trap_end c me tf
    end.

End trap.
