(* ===== verification/SyscallSpec.v ===== *)
(** * Pointers from user space

    What the argument functions of syscall.c promise the system calls about
    the memory of the calling process. *)

From stdpp Require Import base numbers list gmap sets strings.
From Stdlib Require Import ZArith Lia.
From S2P Require Import Prelude CStrings Frames Kalloc Vm VmSpec VmUser VmCopy VmClaims.
From S2P Require Import Disk Blocks Bio Log Journal Storage Fs FsSpec Ptable PtableInv PtableClaims Pipe File Proc ProcSteps Syscall.

Open Scope Z_scope.
Ltac Zify.zify_post_hook ::= Z.to_euclidean_division_equations.

(** The [n] bytes of user memory from [va] on. *)
Definition ubytes (m : mem) (pgdir va : Z) (n : nat) : list Z :=
  (fun i => ubyte m pgdir (va + i)) <$> seqZ 0 (Z.of_nat n).

Lemma ubytes_S m pgdir va n : ubytes m pgdir va (S n) = ubyte m pgdir va :: ubytes m pgdir (va + 1) n.
Proof.
  unfold ubytes. rewrite seqZ_cons by lia. cbn [fmap list_fmap]. rewrite Z.add_0_r. f_equal.
  replace (Z.pred (Z.of_nat (S n))) with (Z.of_nat n) by lia. change (Z.succ 0) with (1 + 0).
  rewrite <- fmap_add_seqZ, <- list_fmap_compose.
  apply list_fmap_ext. intros i x _. cbn. f_equal. lia.
Qed.

Section umem.
Context {K : Type} `{HK : !Frames K, HKo : !FramesOk K}.

Implicit Types (s : K) (F T D : gset Z).

Lemma uload_ok s F T pgdir D va :
  uspace s F T pgdir D -> va / 4096 ∈ D -> uload pgdir va s = Ok (ubyte (fr_mem s) pgdir va) s.
Proof.
  intros U Hk. pose proof (us_dom _ _ _ _ _ U _ Hk) as Hr.
  unfold uload, translate, PGSIZE. rewrite (proj2 (us_live _ _ _ _ _ U _ Hr) Hk). reflexivity.
Qed.

Lemma uloads_ok s F T pgdir D n : forall va,
  uspace s F T pgdir D -> 0 <= va -> va + Z.of_nat n <= 2 ^ 31 ->
  (forall x, va <= x < va + Z.of_nat n -> x / 4096 ∈ D) ->
  uloads pgdir va n s = Ok (ubytes (fr_mem s) pgdir va n) s.
Proof.
  induction n as [|n IH]; intros va U Hva Hn HD; [done|]. cbn [uloads].
  rewrite (bind_ok _ _ _ _ _ (uload_ok s F T pgdir D va U ltac:(apply HD; lia))).
  rewrite u32_small by lia. rewrite (bind_ok _ _ _ _ _ (IH (va + 1) U ltac:(lia) ltac:(lia) ltac:(intros; apply HD; lia))).
  by rewrite ubytes_S.
Qed.

(** The bytes [bs] went to the user address [va]; nothing else changed. *)
Record stored s F T pgdir D (va : Z) (bs : list Z) s' : Prop := {
  sd_us : uspace s' F T pgdir D;
  sd_ptes : forall j, 0 <= j < 2 ^ 20 -> pte (fr_mem s') pgdir j = pte (fr_mem s) pgdir j;
  sd_bytes : forall x, 0 <= x < 2 ^ 31 -> x / 4096 ∈ D ->
    ubyte (fr_mem s') pgdir x =
      if (va <=? x) && (x <? va + Z.of_nat (length bs)) then bs !!! Z.to_nat (x - va) else ubyte (fr_mem s) pgdir x;
  sd_mem : forall a, (forall k, k ∈ D -> page_of a <> uframe (fr_mem s) pgdir k) -> fr_mem s' a = fr_mem s a
}.

Definition writable s pgdir k : Prop := has (pte (fr_mem s) pgdir k) PTE_W = true.

Lemma ustore_ok s F T pgdir D va b :
  uspace s F T pgdir D -> va / 4096 ∈ D -> writable s pgdir (va / 4096) -> is_byte b ->
  exists s', ustore pgdir va b s = Ok tt s' /\ stored s F T pgdir D va [b] s'.
Proof.
  intros U Hk Hw Hb. pose proof (us_dom _ _ _ _ _ U _ Hk) as Hr. set (k := va / 4096) in *.
  destruct (us_frame _ _ _ _ _ U k Hk) as (Hf & HvT & HvF). pose proof (frame_bounds _ Hf) as [Hvr Hvm].
  set (v := uframe (fr_mem s) pgdir k) in *. set (m' := upd (fr_mem s) (v + va mod 4096) b).
  destruct (uspace_fill s F T pgdir D v m' U Hvm HvF HvT) as (U' & A' & Hpte).
  { intros x Hx. unfold m', upd. by rewrite (proj2 (Z.eqb_neq _ _)) by lia. }
  { intros x. unfold m', upd. pose proof (fr_bytes s F x (as_rep _ _ _ _ (us_as _ _ _ _ _ U))).
    unfold is_byte in Hb. case_match; lia. }
  assert (Em : fr_mem (fr_set m' s) = m') by apply fr_mem_set.
  exists (fr_set m' s). split.
  { unfold ustore, translate, PGSIZE. fold k. rewrite (proj2 (us_live _ _ _ _ _ U _ Hr) Hk), Hw. reflexivity. }
  split; rewrite ?Em; try done.
  - intros x Hx HxD. unfold ubyte. replace (uframe m' pgdir (x / 4096)) with (uframe (fr_mem s) pgdir (x / 4096))
      by (unfold uframe; by rewrite Hpte by lia).
    destruct (us_frame _ _ _ _ _ U _ HxD) as (Hfx & _). pose proof (frame_bounds _ Hfx) as [_ Hxm].
    unfold m', upd. destruct (decide (x = va)) as [->|Hne].
    + fold k v. rewrite Z.eqb_refl. cbn [length]. zdec. by rewrite Z.sub_diag.
    + rewrite (proj2 (Z.eqb_neq _ _)).
      * rewrite (proj2 (andb_false_iff _ _)); [done|]. cbn. rewrite Z.leb_gt, Z.ltb_ge. lia.
      * intros E. apply Hne. assert (Ek : x / 4096 = k) by (apply (us_inj _ _ _ _ _ U); [done|done|]; fold v; lia).
        rewrite Ek in E. fold v in E. lia.
  - intros a Ha. apply A'. rewrite elem_of_singleton. by apply Ha.
Qed.

Lemma stored_cons s F T pgdir D va b bs s1 s2 :
  uspace s F T pgdir D -> stored s F T pgdir D va [b] s1 -> stored s1 F T pgdir D (va + 1) bs s2 ->
  stored s F T pgdir D va (b :: bs) s2.
Proof.
  intros U [A1 A2 A3 A4] [B1 B2 B3 B4]. split; [done| | |].
  - intros j Hj. by rewrite B2, A2.
  - intros x Hx HD. rewrite B3, A3 by done. cbn [length]. destruct (decide (x = va)) as [->|Hne].
    + rewrite (proj2 (andb_false_iff (va + 1 <=? va) _)) by (left; lia). zdec. by rewrite Z.sub_diag.
    + destruct (decide (va < x < va + 1 + Z.of_nat (length bs))).
      * zdec. replace (Z.to_nat (x - va)) with (S (Z.to_nat (x - (va + 1)))) by lia. done.
      * rewrite !(proj2 (andb_false_iff _ _)); [done| | |]; rewrite Z.leb_gt, Z.ltb_ge; lia.
  - intros a Ha. rewrite B4, A4; [done|done|]. intros k Hk. pose proof (us_dom _ _ _ _ _ U k Hk).
    unfold uframe. rewrite A2 by lia. by apply Ha.
Qed.

Lemma ustores_ok pgdir D bs : forall s F T va,
  uspace s F T pgdir D -> 0 <= va -> va + Z.of_nat (length bs) <= 2 ^ 31 -> Forall is_byte bs ->
  (forall x, va <= x < va + Z.of_nat (length bs) -> x / 4096 ∈ D /\ writable s pgdir (x / 4096)) ->
  exists s', ustores pgdir va bs s = Ok tt s' /\ stored s F T pgdir D va bs s'.
Proof.
  induction bs as [|b bs IH]; intros s F T va U Hva Hl Hb HD; cbn [ustores].
  { exists s. split; [done|]. split; try done. intros x _ _.
    rewrite (proj2 (andb_false_iff _ _)); [done|]. cbn. rewrite Z.leb_gt, Z.ltb_ge. lia. }
  apply Forall_cons in Hb as [Hb Hbs]. cbn [length] in *.
  destruct (HD va ltac:(lia)) as [Hv Hw]. destruct (ustore_ok s F T pgdir D va b U Hv Hw Hb) as (s1 & E1 & S1).
  rewrite (bind_ok _ _ _ _ _ E1), u32_small by lia.
  destruct (IH s1 F T (va + 1) (sd_us _ _ _ _ _ _ _ _ S1) ltac:(lia) ltac:(lia) Hbs) as (s2 & E2 & S2).
  { intros x Hx. destruct (HD x ltac:(lia)) as [HxD Hxw]. split; [done|]. pose proof (us_dom _ _ _ _ _ U _ HxD).
    unfold writable. by rewrite (sd_ptes _ _ _ _ _ _ _ _ S1) by lia. }
  exists s2. split; [done|]. by apply (stored_cons s F T pgdir D va b bs s1 s2).
Qed.

(** A string that was found lies before [ep] with its terminator. *)
Lemma fetchstr_loop_ok s F T pgdir D ep n : forall va,
  uspace s F T pgdir D -> 0 <= va -> ep <= 2 ^ 31 -> ep - va <= Z.of_nat n ->
  (forall x, va <= x < ep -> x / 4096 ∈ D) ->
  exists r, fetchstr_loop n pgdir va ep s = Ok r s /\
    forall str, r = Some str -> va + Z.of_nat (length str) < ep /\ str = ubytes (fr_mem s) pgdir va (length str) /\
      ubyte (fr_mem s) pgdir (va + Z.of_nat (length str)) = 0 /\ 0 ∉ str.
Proof.
  induction n as [|n IH]; intros va U Hva Hep Hn HD; cbn [fetchstr_loop].
  { rewrite (proj2 (Z.ltb_ge va ep)) by lia. by exists None. }
  destruct (Z.ltb_spec va ep) as [Hlt|_]; [cbn [negb]|by exists None].
  rewrite (bind_ok _ _ _ _ _ (uload_ok s F T pgdir D va U ltac:(apply HD; lia))).
  destruct (Z.eqb_spec (ubyte (fr_mem s) pgdir va) 0) as [E|Hne].
  { exists (Some []). split; [done|]. intros str [= <-]. cbn. rewrite Z.add_0_r. split_and!; try done. set_solver +. }
  destruct (IH (va + 1) U ltac:(lia) Hep ltac:(lia) ltac:(intros; apply HD; lia)) as (r & Er & Hr).
  rewrite (bind_ok _ _ _ _ _ Er). eexists. split; [reflexivity|].
  intros str. destruct r as [t|]; [|done]. intros [= <-]. destruct (Hr t eq_refl) as (H1 & H2 & H3 & H4).
  cbn [length]. split_and!; [lia|rewrite ubytes_S; congruence| |].
  - by replace (va + Z.of_nat (S (length t))) with (va + 1 + Z.of_nat (length t)) by lia.
  - rewrite not_elem_of_cons. by split.
Qed.

End umem.

(** ** The arguments of a system call *)

Section args.
Context {K J : Type} `{HK : !Frames K, HKo : !FramesOk K, !Journal J, !Transactions J}.

Notation kern := (kernel (K := K) (J := J)).
Implicit Types (s : kern) (F T : gset Z).

Definition memory s : K := co_mem (kn_core s).
Definition put_memory (k : K) s : kern := MkKernel (MkCore k (co_pt (kn_core s))) (kn_fs s) (kn_files s).

Lemma kmem_op_run {A} (m : M K A) s a k : m (memory s) = Ok a k -> kmem_op m s = Ok a (put_memory k s).
Proof. intros E. unfold kmem_op, incore, inmem, lift, memory in *. by rewrite E. Qed.

Lemma kmem_op_read {A} (m : M K A) s a : m (memory s) = Ok a (memory s) -> kmem_op m s = Ok a s.
Proof. intros E. rewrite (kmem_op_run _ _ _ _ E). by destruct s as [[] ? ?]. Qed.

Lemma myproc_ok i s : myproc i s = Ok (slot (table s) i) s.
Proof. by destruct s as [[] ? ?]. Qed.

(** The address space of process [me]: every page below its size is there. *)
Record user_ok (me : nat) F T s : Prop := {
  uo_space : uspace (memory s) F T (p_pgdir (slot (table s) me)) (pages 0 (npages (p_sz (slot (table s) me))));
  uo_size : 0 <= p_sz (slot (table s) me) < KERNBASE;
  uo_writable : forall k, 0 <= k < npages (p_sz (slot (table s) me)) ->
    writable (memory s) (p_pgdir (slot (table s) me)) k
}.

(** A byte of the memory of process [me]. *)
Definition mybyte (me : nat) s (va : Z) : Z := ubyte (fr_mem (memory s)) (p_pgdir (slot (table s) me)) va.
Definition mybytes (me : nat) s (va : Z) (n : nat) : list Z :=
  ubytes (fr_mem (memory s)) (p_pgdir (slot (table s) me)) va n.

Context (me : nat).

Lemma user_page_in x sz : 0 <= x < sz -> x / 4096 ∈ pages 0 (npages sz).
Proof. intros H. apply elem_of_pages. unfold npages. lia. Qed.

Lemma from_user_ok F T s va n :
  user_ok me F T s -> 0 <= va -> va + Z.of_nat n <= p_sz (slot (table s) me) ->
  from_user me va n s = Ok (mybytes me s va n) s.
Proof.
  intros [U Hsz _] Hva Hn. unfold KERNBASE in Hsz. unfold from_user.
  rewrite (bind_ok _ _ _ _ _ (myproc_ok me s)). apply kmem_op_read.
  apply (uloads_ok _ F T _ (pages 0 (npages (p_sz (slot (table s) me))))); try done; [lia|].
  intros x Hx. apply user_page_in. lia.
Qed.

Lemma fetchint_ok F T s addr :
  user_ok me F T s -> 0 <= addr ->
  exists r, fetchint me addr s = Ok r s /\
    forall v, r = Some v -> addr + 4 <= p_sz (slot (table s) me) /\ v = s32 (le_val (mybytes me s addr 4)).
Proof.
  intros H Ha. pose proof (uo_size _ _ _ _ H) as Hsz. unfold KERNBASE in Hsz. unfold fetchint.
  rewrite (bind_ok _ _ _ _ _ (myproc_ok me s)). rewrite Z.geb_leb, Z.gtb_ltb.
  destruct (Z.leb_spec (p_sz (slot (table s) me)) addr) as [|Hlt]; [by exists None|].
  rewrite u32_small by lia. destruct (Z.ltb_spec (p_sz (slot (table s) me)) (addr + 4)) as [|Hle]; [by exists None|].
  cbn [orb]. rewrite (bind_ok _ _ _ _ _ (from_user_ok F T s addr 4 H Ha ltac:(lia))).
  eexists. split; [reflexivity|]. by intros v [= <-].
Qed.

Lemma argint_ok F T s n : user_ok me F T s -> exists r, argint me n s = Ok r s.
Proof.
  intros H. unfold argint. rewrite (bind_ok _ _ _ _ _ (myproc_ok me s)).
  rewrite (bind_ok _ _ _ _ _ (kmem_op_read (rd _) s _ eq_refl)).
  match goal with |- context [fetchint me (u32 ?a)] => destruct (fetchint_ok F T s (u32 a) H) as (r & E & _) end.
  - apply u32_range.
  - by exists r.
Qed.

Lemma argptr_ok F T s n size :
  user_ok me F T s -> 0 <= size < 2 ^ 31 ->
  exists r, argptr me n size s = Ok r s /\
    forall a, r = Some a -> 0 <= a /\ a < p_sz (slot (table s) me) /\ a + size <= p_sz (slot (table s) me).
Proof.
  intros H Hs. destruct (argint_ok F T s n H) as (r & E). unfold argptr. rewrite (bind_ok _ _ _ _ _ E).
  destruct r as [i|]; [|by exists None]. rewrite (bind_ok _ _ _ _ _ (myproc_ok me s)), Z.geb_leb, Z.gtb_ltb.
  pose proof (uo_size _ _ _ _ H) as Hsz. unfold KERNBASE in Hsz. pose proof (u32_range i).
  destruct (Z.leb_spec (p_sz (slot (table s) me)) (u32 i)) as [|Hlt]; [by exists None|].
  rewrite (u32_small (u32 i + size)) by lia.
  destruct (Z.ltb_spec (p_sz (slot (table s) me)) (u32 i + size)) as [|Hle]; [by exists None|].
  exists (Some (u32 i)). split; [done|]. intros a [= <-]. lia.
Qed.

Lemma to_user_ok F T s va bs :
  user_ok me F T s -> 0 <= va -> va + Z.of_nat (length bs) <= p_sz (slot (table s) me) -> Forall is_byte bs ->
  exists s', to_user me va bs s = Ok tt s' /\ user_ok me F T s' /\ table s' = table s /\ kn_fs s' = kn_fs s /\
    kn_files s' = kn_files s /\
    forall x, 0 <= x < p_sz (slot (table s) me) -> mybyte me s' x =
      if (va <=? x) && (x <? va + Z.of_nat (length bs)) then bs !!! Z.to_nat (x - va) else mybyte me s x.
Proof.
  intros H Hva Hl Hb. pose proof H as [U Hsz Hw]. unfold KERNBASE in Hsz. set (p := slot (table s) me) in *.
  destruct (ustores_ok (p_pgdir p) (pages 0 (npages (p_sz p))) bs (memory s) F T va U Hva) as (k & E & S); [lia|done| |].
  { intros x Hx. pose proof (user_page_in x (p_sz p) ltac:(lia)) as Hi. split; [done|]. by apply Hw, elem_of_pages. }
  exists (put_memory k s). unfold to_user. rewrite (bind_ok _ _ _ _ _ (myproc_ok me s)).
  fold p. rewrite (kmem_op_run (ustores (p_pgdir p) va bs) s tt k E). split; [done|].
  destruct S as [S1 S2 S3 S4]. split_and!; try done.
  - split; [done|done|]. intros j Hj. change (table (put_memory k s)) with (table s) in Hj. fold p in Hj.
    unfold writable. cbn. change (co_pt (kn_core s)) with (table s). fold p.
    rewrite S2 by (unfold npages in Hj; lia). by apply Hw.
  - intros x Hx. apply (S3 x); [lia|]. by apply user_page_in.
Qed.

Lemma argstr_ok F T s n :
  user_ok me F T s ->
  exists r, argstr me n s = Ok r s /\
    forall str, r = Some str -> exists a, 0 <= a /\ a + Z.of_nat (length str) < p_sz (slot (table s) me) /\
      str = mybytes me s a (length str) /\ mybyte me s (a + Z.of_nat (length str)) = 0 /\ 0 ∉ str.
Proof.
  intros H. destruct (argint_ok F T s n H) as (r & E). unfold argstr. rewrite (bind_ok _ _ _ _ _ E).
  destruct r as [i|]; [|by exists None]. unfold fetchstr. rewrite (bind_ok _ _ _ _ _ (myproc_ok me s)), Z.geb_leb.
  pose proof H as [U Hsz _]. unfold KERNBASE in Hsz.
  pose proof (u32_range i). set (p := slot (table s) me) in *.
  destruct (Z.leb_spec (p_sz p) (u32 i)) as [|Hlt]; [by exists None|].
  destruct (fetchstr_loop_ok (memory s) F T (p_pgdir p) (pages 0 (npages (p_sz p))) (p_sz p)
    (Z.to_nat (p_sz p - u32 i)) (u32 i) U) as (r & Er & Hr); [lia|lia|lia| |].
  { intros x Hx. apply user_page_in. lia. }
  exists r. split; [by apply kmem_op_read|]. intros str Hstr. destruct (Hr str Hstr) as (H1 & H2 & H3 & H4).
  exists (u32 i). split_and!; try done. lia.
Qed.

End args.

(** [argptr] compares an unsigned sum: a negative size takes the end below the
    start, and the pointer is accepted for any such size. *)
Lemma argptr_negative_size {K J} `{!Frames K, !FramesOk K, !Journal J, !Transactions J}
    (s : kernel (K := K) (J := J)) me F T n i size :
  user_ok me F T s -> argint me n s = Ok (Some i) s -> - 2 ^ 31 <= size < 0 ->
  argptr me n size s = Ok (if (u32 i <? p_sz (slot (table s) me)) && (0 <=? u32 i + size) then Some (u32 i) else None) s.
Proof.
  intros H E Hs. unfold argptr. rewrite (bind_ok _ _ _ _ _ E), (bind_ok _ _ _ _ _ (myproc_ok me s)).
  pose proof (uo_size _ _ _ _ H) as Hsz. unfold KERNBASE in Hsz. rewrite Z.geb_leb, Z.gtb_ltb. pose proof (u32_range i).
  destruct (Z.leb_spec (p_sz (slot (table s) me)) (u32 i)) as [Hge|Hlt]; [by rewrite (proj2 (Z.ltb_ge (u32 i) _)) by lia|].
  rewrite (proj2 (Z.ltb_lt (u32 i) _)) by lia. cbn [orb andb]. destruct (Z.leb_spec 0 (u32 i + size)) as [Hp|Hn].
  - rewrite (u32_small (u32 i + size)) by lia. by rewrite (proj2 (Z.ltb_ge _ _)) by lia.
  - assert (u32 (u32 i + size) = u32 i + size + 2 ^ 32) as -> by (unfold u32 at 1; symmetry; apply (Z.mod_unique _ _ (-1)); lia).
    by rewrite (proj2 (Z.ltb_lt _ _)) by lia.
Qed.

(** C19: What system calls can reach.  For a process whose pages below its size
    are mapped and writable, fetching arguments never faults, whatever the
    stack pointer and the arguments are.  A pointer that [argptr] accepts for
    [size >= 0] bytes has all of them inside the process: they can be read,
    and writing them changes those bytes and no other.  For [size < 0] there
    is no such promise: [argptr] accepts every pointer into the process that
    is not below [- size], whatever the number of bytes the caller goes on to
    use.  A string that [argstr] accepts is inside the process with its
    terminator. *)
Theorem user_pointers_safe {K J} `{!Frames K, !FramesOk K, !Journal J, !Transactions J}
    (s : kernel (K := K) (J := J)) me F T n size :
  user_ok me F T s -> - 2 ^ 31 <= size < 2 ^ 31 ->
  let sz := p_sz (slot (table s) me) in
  (exists r, argint me n s = Ok r s) /\
  (0 <= size -> exists r, argptr me n size s = Ok r s /\ forall a, r = Some a -> 0 <= a /\ a + size <= sz /\
    from_user me a (Z.to_nat size) s = Ok (mybytes me s a (Z.to_nat size)) s /\
    forall bs, Z.of_nat (length bs) <= size -> Forall is_byte bs ->
      exists s', to_user me a bs s = Ok tt s' /\ user_ok me F T s' /\ table s' = table s /\ kn_fs s' = kn_fs s /\
        forall x, 0 <= x < sz -> mybyte me s' x =
          if (a <=? x) && (x <? a + Z.of_nat (length bs)) then bs !!! Z.to_nat (x - a) else mybyte me s x) /\
  (size < 0 -> forall i, argint me n s = Ok (Some i) s ->
    argptr me n size s = Ok (if (u32 i <? sz) && (0 <=? u32 i + size) then Some (u32 i) else None) s) /\
  (exists r, argstr me n s = Ok r s /\ forall str, r = Some str ->
    exists a, 0 <= a /\ a + Z.of_nat (length str) < sz /\ str = mybytes me s a (length str) /\
      mybyte me s (a + Z.of_nat (length str)) = 0 /\ 0 ∉ str).
Proof.
  intros H Hs sz. split_and!; [by apply (argint_ok me F T)| | |by apply (argstr_ok me F T)].
  - intros Hpos. destruct (argptr_ok me F T s n size H ltac:(lia)) as (r & E & Hr). exists r. split; [done|].
    intros a Ha. destruct (Hr a Ha) as (H0 & _ & H1). split_and!; [done|done| |].
    + apply (from_user_ok me F T); try done. lia.
    + intros bs Hl Hb. destruct (to_user_ok me F T s a bs H H0 ltac:(lia) Hb) as (s' & E' & U' & Ht & Hf & _ & Hx).
      by exists s'.
  - intros Hneg i E. apply (argptr_negative_size s me F T n i size H E). lia.
Qed.

(** A process of [sz] bytes. *)
Definition demo_proc_table (pgdir sz : Z) : ptable :=
  set_procs (<[0%nat := set_sz sz (set_pgdir pgdir (slot table_forked 0))]> (procs table_forked)) table_forked.

Lemma demo_user_space : exists (k : kmem) F T pgdir, uspace k F T pgdir (pages 0 (npages 10000)) /\
  forall i, 0 <= i < npages 10000 -> writable k pgdir i.
Proof.
  destruct (demo_uspace 3100 ltac:(lia)) as (k0 & F0 & T0 & pgdir & U0 & Hs0).
  destruct (allocuvm_ok k0 F0 T0 pgdir 0 10000 U0) as (k & F & T & _ & [A _ _ _ _ _ N _]);
    [lia|unfold KERNBASE; lia|unfold enough; rewrite Hs0; vm_compute; lia|].
  exists k, F, T, pgdir. change (npages 0) with 0 in *. split.
  - rewrite (pages0 0), union_empty_l_L in A by lia. exact A.
  - intros i Hi. destruct (N i Hi) as (Hfl & _). unfold writable. rewrite <- has_flags by (unfold PTE_W; lia).
    rewrite Hfl. reflexivity.
Qed.

Import Bio.Cache.

Definition demo_user_kernel (j : lstate (bcache Memide.state)) (k : kmem) (pgdir : Z)
  : kernel (K := kmem) (J := lstate (bcache Memide.state)) :=
  put_memory k (demo_kernel j (demo_proc_table pgdir 10000)).

Lemma demo_user_ok j k F T pgdir :
  uspace k F T pgdir (pages 0 (npages 10000)) -> (forall i, 0 <= i < npages 10000 -> writable k pgdir i) ->
  user_ok 0 F T (demo_user_kernel j k pgdir).
Proof. intros U W. split; [exact U|vm_compute; split; congruence|exact W]. Qed.

Lemma user_pointers_safe_witness :
  exists j k F T pgdir r, user_ok 0 F T (demo_user_kernel j k pgdir) /\
    argptr 0 1 100 (demo_user_kernel j k pgdir) = Ok r (demo_user_kernel j k pgdir).
Proof.
  destruct demo_boot as (_ & _ & j & _). destruct demo_user_space as (k & F & T & pgdir & U & W).
  pose proof (demo_user_ok j k F T pgdir U W) as H.
  destruct (user_pointers_safe (demo_user_kernel j k pgdir) 0 F T 1 100 H ltac:(lia)) as (_ & H1 & _).
  destruct (H1 ltac:(lia)) as (r & E & _). exists j, k, F, T, pgdir, r. split; [exact H|exact E].
Defined.
