(* ===== verification/ExecSpec.v ===== *)
(** * The stack of a new program

    What [exec] of exec.c puts on the user stack: the argument strings, their
    addresses and the words [main] finds, in the page above a guard page that
    user code cannot touch. *)

From stdpp Require Import base numbers list gmap sets strings.
From Stdlib Require Import ZArith Lia.
From S2P Require Import Prelude CStrings Frames Kalloc Vm VmSpec VmUser VmCopy VmClaims Disk Blocks Bio Log Journal Fs FsDirs FsSpec Ptable Pipe File Proc ProcSteps Exec SyscallSpec.

Open Scope Z_scope.

Section copyout.
Context {K : Type} `{HK : !Frames K, HKo : !FramesOk K}.

Implicit Types (s : K) (F T D : gset Z).

(** The memory of the process, as its page table shows it. *)
Definition view s (pgdir : Z) : mem := ubyte (fr_mem s) pgdir.

(** The bytes [bs] are at [va], and nothing else changed. *)
Record landed s F T pgdir D (va : Z) (bs : list Z) s' : Prop := {
  ld_us : uspace s' F T pgdir D;
  ld_ptes : forall j, 0 <= j < 2 ^ 20 -> pte (fr_mem s') pgdir j = pte (fr_mem s) pgdir j;
  ld_bytes : forall x, 0 <= x < 2 ^ 31 -> x / 4096 ∈ D -> view s' pgdir x = place bs va (view s pgdir) x
}.

Lemma landed_nil s F T pgdir D va : uspace s F T pgdir D -> landed s F T pgdir D va [] s.
Proof. intros U. split; try done. intros x _ _. by rewrite place_out by (cbn; lia). Qed.

Lemma landed_app s F T pgdir D va a b s1 s2 :
  landed s F T pgdir D va a s1 -> landed s1 F T pgdir D (va + Z.of_nat (length a)) b s2 ->
  landed s F T pgdir D va (a ++ b) s2.
Proof.
  intros [A1 A2 A3] [B1 B2 B3]. split; [done|intros j Hj; by rewrite B2, A2|].
  intros x Hx HD. rewrite B3 by done. unfold place at 1 2. rewrite A3 by done. unfold place. rewrite length_app.
  destruct (Z.leb_spec va x), (Z.leb_spec (va + Z.of_nat (length a)) x), (Z.ltb_spec x (va + Z.of_nat (length a))),
    (Z.ltb_spec x (va + Z.of_nat (length a) + Z.of_nat (length b))), (Z.ltb_spec x (va + Z.of_nat (length a + length b))); cbn [andb]; try lia; try done.
  - rewrite lookup_total_app_r by lia. f_equal. lia.
  - rewrite lookup_total_app_l by lia. done.
Qed.

(** Bytes into one page. *)
Lemma put_page s F T pgdir D va bs :
  uspace s F T pgdir D -> va / 4096 ∈ D -> byte_list bs -> va mod 4096 + Z.of_nat (length bs) <= 4096 ->
  exists s', put_mem (uframe (fr_mem s) pgdir (va / 4096) + va mod 4096) bs s = Ok tt s' /\ landed s F T pgdir D va bs s'.
Proof.
  intros U HkD Hb Hfit. set (k := va / 4096) in *. pose proof (us_dom _ _ _ _ _ U k HkD) as Hk.
  destruct (us_frame _ _ _ _ _ U k HkD) as (Hf & HvT & HvF). pose proof (frame_bounds _ Hf) as [Hvr Hvm].
  set (v := uframe (fr_mem s) pgdir k) in *. set (m' := place bs (v + va mod 4096) (fr_mem s)).
  destruct (uspace_fill s F T pgdir D v m' U Hvm HvF HvT) as (U' & _ & Hpte).
  { intros x Hx. apply place_out. lia. }
  { apply place_bytes; [done|]. intros x. apply (fr_bytes s F _ (as_rep _ _ _ _ (us_as _ _ _ _ _ U))). }
  exists (fr_set m' s). split; [done|]. assert (Emm : fr_mem (fr_set m' s) = m') by apply fr_mem_set.
  split; rewrite ?Emm; try done. intros x Hx HxD. unfold view, ubyte. rewrite Emm.
  assert (Eu : uframe m' pgdir (x / 4096) = uframe (fr_mem s) pgdir (x / 4096)) by (unfold uframe; by rewrite Hpte by lia).
  rewrite Eu. destruct (decide (va <= x < va + Z.of_nat (length bs))) as [Hin|Hout].
  - assert (Ex : x / 4096 = k) by lia. rewrite Ex. fold v. unfold m', place. zdec. f_equal. lia.
  - rewrite (place_out bs va) by lia. unfold m'. apply place_out. destruct (decide (x / 4096 = k)) as [Ek|Ek].
    + rewrite Ek. fold v. lia.
    + destruct (us_frame _ _ _ _ _ U _ HxD) as (Hfx & _). pose proof (frame_bounds _ Hfx) as [_ Hxm].
      assert (Hne : uframe (fr_mem s) pgdir (x / 4096) <> v) by (intros E; apply Ek; by apply (us_inj _ _ _ _ _ U)).
      lia.
Qed.

(** A live page the user may not touch is none to [uva2ka]. *)
Lemma uva2ka_kernel s F T pgdir D k :
  uspace s F T pgdir D -> k ∈ D -> has (pte (fr_mem s) pgdir k) PTE_U = false -> uva2ka pgdir (4096 * k) s = Ok 0 s.
Proof.
  intros U HkD Hu. pose proof (us_as _ _ _ _ _ U) as A. pose proof (us_dom _ _ _ _ _ U k HkD).
  destruct (live_present _ _ _ _ _ _ U HkD) as (Hp & Erd & Hh).
  pose proof (walk_present s F T pgdir (4096 * k) false A ltac:(lia)) as Hw.
  replace (4096 * k / 4096) with k in Hw by lia.
  destruct (slot_frame _ _ _ k (as_pt _ _ _ _ A) ltac:(lia) Hp) as (_ & _ & Hs & _).
  unfold uva2ka. rewrite (bind_ok _ _ _ _ _ (Hw Hp)), (proj2 (Z.eqb_neq _ 0)) by lia.
  by rewrite (bind_ok _ _ _ _ _ Erd), Hh, Hu.
Qed.

(** [copyout] over live pages: all the bytes, if the user may touch every page
    they fall in; else those before the first such page, and -1. *)
Lemma copyout_from_ok pgdir D n : forall s F T va bs,
  uspace s F T pgdir D -> byte_list bs -> (0 < length bs <= n)%nat -> 0 <= va -> va + Z.of_nat (length bs) <= KERNBASE ->
  (forall k, va / 4096 <= k -> 4096 * k < va + Z.of_nat (length bs) -> k ∈ D) ->
  exists r m s', copyout_from n pgdir va bs s = Ok r s' /\ landed s F T pgdir D va (take m bs) s' /\
    ((r = 0 /\ m = length bs /\
      forall k, va / 4096 <= k -> 4096 * k < va + Z.of_nat (length bs) -> has (pte (fr_mem s) pgdir k) PTE_U = true) \/
     (r = -1 /\ exists k, va / 4096 <= k /\ 4096 * k < va + Z.of_nat (length bs) /\ has (pte (fr_mem s) pgdir k) PTE_U = false)).
Proof.
  unfold KERNBASE. induction n as [|n IH]; intros s F T va bs U Hb Hlen Hva Hmax Hpg; cbn [copyout_from]; rewrite Z.gtb_ltb.
  { lia. }
  rewrite (proj2 (Z.ltb_lt 0 _)) by lia. cbn [negb].
  set (k := va / 4096). assert (Eva : PGROUNDDOWN va = 4096 * k) by (rewrite PGROUNDDOWN_eq; lia). rewrite Eva.
  assert (HkD : k ∈ D) by (apply Hpg; lia). destruct (has (pte (fr_mem s) pgdir k) PTE_U) eqn:Hu.
  2:{ rewrite (bind_ok _ _ _ _ _ (uva2ka_kernel _ _ _ _ _ _ U HkD Hu)). exists (-1), 0%nat, s. split; [done|].
      split; [by apply landed_nil|]. right. split; [done|]. exists k. split_and!; [lia|lia|done]. }
  destruct (us_frame _ _ _ _ _ U k HkD) as (Hf & _). pose proof (frame_bounds _ Hf) as [Hvr Hvm].
  rewrite (bind_ok _ _ _ _ _ (uva2ka_ok s F T pgdir D k U (conj HkD Hu))), (proj2 (Z.eqb_neq _ 0)) by lia.
  replace (va - 4096 * k) with (va mod 4096) by lia. unfold PGSIZE. set (m := Z.to_nat (Z.min (4096 - va mod 4096) (Z.of_nat (length bs)))).
  assert (Hm : (1 <= m <= length bs)%nat /\ va mod 4096 + Z.of_nat m <= 4096 /\ (m = length bs \/ va + Z.of_nat m = 4096 * k + 4096)) by lia.
  assert (Elm : length (take m bs) = m) by (rewrite length_take; lia).
  destruct (put_page s F T pgdir D va (take m bs) U HkD) as (s1 & E1 & L1); [by apply Forall_take|lia|].
  fold k in E1. rewrite (bind_ok _ _ _ _ _ E1), u32_small by lia.
  destruct (decide (m = length bs)) as [Em|Em].
  { rewrite (drop_ge bs m) by lia. exists 0, m, s1. split; [by destruct n|]. split; [done|]. left. split_and!; [done|done|].
    intros j H1 H2. replace j with k by lia. done. }
  assert (Hnext : 4096 * k + 4096 = va + Z.of_nat m) by lia. rewrite Hnext.
  destruct (IH s1 F T (va + Z.of_nat m) (drop m bs)) as (r & m2 & s2 & E2 & L2 & HR); rewrite ?length_drop; try lia.
  - apply L1.
  - by apply Forall_drop.
  - intros j H1 H2. apply Hpg; lia.
  - exists r, (m + m2)%nat, s2. split; [done|]. rewrite <- (take_take_drop bs m m2). split.
    { apply (landed_app _ _ _ _ _ _ _ _ s1); [done|]. by rewrite Elm. }
    rewrite length_drop in HR. pose proof (ld_ptes _ _ _ _ _ _ _ _ L1) as Hpt. destruct HR as [(-> & Hm2 & HR)|(-> & j & H1 & H2 & H3)].
    + left. split_and!; [done|lia|]. intros j H1 H2. destruct (decide (j = k)) as [->|]; [done|].
      pose proof (us_dom _ _ _ _ _ U j (Hpg j H1 H2)). rewrite <- Hpt by lia. apply HR; lia.
    + right. split; [done|]. exists j. split_and!; [lia|lia|].
      pose proof (us_dom _ _ _ _ _ U j (Hpg j ltac:(lia) ltac:(lia))). by rewrite <- Hpt by lia.
Qed.

End copyout.

(** ** The guard page *)

Section guard.
Context {K : Type} `{HK : !Frames K, HKo : !FramesOk K}.

Implicit Types (s : K) (F T D : gset Z).

(** The same pages with the same bytes; entries of page tables may differ. *)
Definition same_view s pgdir D s' : Prop :=
  forall x, 0 <= x < 2 ^ 31 -> x / 4096 ∈ D -> view s' pgdir x = view s pgdir x.

Lemma clearpteu_ok s F T pgdir D g : uspace s F T pgdir D -> g ∈ D ->
  exists s', clearpteu pgdir (4096 * g) s = Ok tt s' /\ uspace s' F T pgdir D /\ same_view s pgdir D s' /\
    has (pte (fr_mem s') pgdir g) PTE_U = false /\
    forall j, 0 <= j < 2 ^ 20 -> j <> g -> pte (fr_mem s') pgdir j = pte (fr_mem s) pgdir j.
Proof.
  intros U Hg. pose proof U as [A U1 U2 U3 U4]. pose proof (U1 g Hg) as Hr.
  destruct (live_present _ _ _ _ _ _ U Hg) as (Hp & Erd & Hh).
  pose proof (walk_present s F T pgdir (4096 * g) false A ltac:(lia)) as Hw. replace (4096 * g / 4096) with g in Hw by lia.
  destruct (slot_frame _ _ _ g (as_pt _ _ _ _ A) ltac:(lia) Hp) as (_ & _ & Hs & _).
  set (e := pte (fr_mem s) pgdir g) in *. set (e' := Z.land e (Z.lnot PTE_U)).
  assert (He : 0 <= e' < 2 ^ 32).
  { assert (Hb : 0 <= e < 2 ^ 32) by (unfold e, pte; rewrite Hp; apply (load32_bound s F), (as_rep _ _ _ _ A)).
    unfold e'. rewrite <- (Z.mod_small e (2 ^ 32) Hb), <- Z.land_ones, <- Z.land_assoc, (Z.land_comm (Z.ones 32)), Z.land_assoc, Z.land_ones by lia.
    apply Z.mod_pos_bound. lia. }
  destruct (wr_slot s F T pgdir g e' A ltac:(lia) Hp He) as (s' & E & G & _ & Hpte).
  assert (Ea : forall j, 0 <= j < 2 ^ 20 -> uframe (fr_mem s') pgdir j = uframe (fr_mem s) pgdir j).
  { intros j Hj. unfold uframe. rewrite Hpte by done. destruct (Z.eqb_spec j g) as [->|]; [|done]. fold e. unfold e', PTE_ADDR.
    by rewrite <- Z.land_assoc. }
  assert (Hdom : forall j, j ∈ D -> 0 <= j < 2 ^ 20) by (intros j Hj; pose proof (U1 j Hj); lia).
  exists s'. split; [unfold clearpteu; by rewrite (bind_ok _ _ _ _ _ (Hw Hp)), (proj2 (Z.eqb_neq _ 0)), (bind_ok _ _ _ _ _ Erd) by lia|].
  split_and!.
  - split; [apply G|done| | |].
    + intros j Hj. rewrite Hpte by lia. destruct (Z.eqb_spec j g) as [->|]; [|by apply U2].
      unfold e'. by rewrite has_clear_other, Hh by done.
    + intros j Hj. rewrite Ea by auto. by apply U3.
    + intros j j' Hj Hj'. rewrite !Ea by auto. by apply U4.
  - intros x Hx HxD. unfold view, ubyte. rewrite Ea by auto. apply (gr_mem _ _ _ _ _ _ _ G).
    destruct (U3 _ HxD) as (Hf & HT & _). pose proof (frame_bounds _ Hf) as [_ Hm]. by rewrite page_of_in by lia.
  - rewrite Hpte, Z.eqb_refl by lia. by apply has_clear_same.
  - intros j Hj Hne. by rewrite Hpte, (proj2 (Z.eqb_neq j g)).
Qed.

(** Words copied out one after the other. *)
Lemma word_bytes (l : list Z) : forall i j w, l !! i = Some w -> (j < 4)%nat ->
  mjoin (le_bytes 4 <$> l) !! (4 * i + j)%nat = le_bytes 4 w !! j.
Proof.
  induction l as [|v l IH]; intros i j w Hi Hj; [done|]. change (mjoin (le_bytes 4 <$> v :: l)) with (le_bytes 4 v ++ mjoin (le_bytes 4 <$> l)). destruct i as [|i].
  - injection Hi as ->. rewrite lookup_app_l by (rewrite length_le_bytes; lia). reflexivity.
  - rewrite lookup_app_r, length_le_bytes by (rewrite length_le_bytes; lia). rewrite <- (IH i j w) by done. f_equal. lia.
Qed.

Lemma length_words (l : list Z) : length (mjoin (le_bytes 4 <$> l)) = (4 * length l)%nat.
Proof.
  induction l as [|v l IH]; [done|]. change (mjoin (le_bytes 4 <$> v :: l)) with (le_bytes 4 v ++ mjoin (le_bytes 4 <$> l)). rewrite length_app, length_le_bytes, IH. cbn. lia.
Qed.

Lemma bytes_words (l : list Z) : byte_list (mjoin (le_bytes 4 <$> l)).
Proof.
  induction l as [|v l IH]; [constructor|]. change (mjoin (le_bytes 4 <$> v :: l)) with (le_bytes 4 v ++ mjoin (le_bytes 4 <$> l)). apply Forall_app. split; [apply le_bytes_are_bytes|done].
Qed.

Lemma load_word (l : list Z) m a i w : l !! i = Some w -> 0 <= w < 2 ^ 32 ->
  (forall x, a <= x < a + 4 * Z.of_nat (length l) -> m x = place (mjoin (le_bytes 4 <$> l)) a nul_mem x) ->
  load32 m (a + 4 * Z.of_nat i) = w.
Proof.
  intros Hi Hw Hm. pose proof (lookup_lt_Some _ _ _ Hi) as Hl.
  assert (B : forall j, (j < 4)%nat -> m (a + 4 * Z.of_nat i + Z.of_nat j) = default 0 (le_bytes 4 w !! j)).
  { intros j Hj. rewrite Hm by lia. replace (a + 4 * Z.of_nat i + Z.of_nat j) with (a + Z.of_nat (4 * i + j)) by lia.
    rewrite place_in by (rewrite length_words; lia). by rewrite (word_bytes l i j w). }
  pose proof (le_val_le_bytes 4 w) as E. rewrite Z.mod_small in E by (change (256 ^ Z.of_nat 4) with (2 ^ 32); lia).
  pose proof (B 0%nat ltac:(lia)) as B0. pose proof (B 1%nat ltac:(lia)) as B1. pose proof (B 2%nat ltac:(lia)) as B2.
  pose proof (B 3%nat ltac:(lia)) as B3. cbn [le_bytes lookup list_lookup default from_option id] in B0, B1, B2, B3. cbn [le_bytes le_val] in E.
  change (Z.of_nat 0) with 0 in B0. change (Z.of_nat 1) with 1 in B1. change (Z.of_nat 2) with 2 in B2. change (Z.of_nat 3) with 3 in B3.
  rewrite Z.add_0_r in B0. unfold load32. rewrite B0, B1, B2, B3. unfold default. cbn. lia.
Qed.

End guard.

(** ** Where things are on the stack *)

(** A string that is pushed at [sp]. *)
Definition arg_at (sp : Z) (a : list Z) : Z := (sp - (Z.of_nat (length a) + 1)) / 4 * 4.

Fixpoint args_at (sp : Z) (argv : list (list Z)) : list Z :=
  match argv with
  | [] => []
  | a :: argv => arg_at sp a :: args_at (arg_at sp a) argv
  end.

Fixpoint args_end (sp : Z) (argv : list (list Z)) : Z :=
  match argv with
  | [] => sp
  | a :: argv => args_end (arg_at sp a) argv
  end.

(** The stack pointer of [main]. *)
Definition main_sp (sz : Z) (argv : list (list Z)) : Z := args_end sz argv - 4 * (Z.of_nat (length argv) + 4).

(** A C string at [p]. *)
Definition string_at (m : mem) (p : Z) (a : list Z) : Prop :=
  forall i, (i <= length a)%nat -> m (p + Z.of_nat i) = (a ++ [0]) !!! i.

(** What [main(argc, argv)] finds at its stack pointer, in memory that ends at
    [sz]. *)
Record main_frame (m : mem) (sz sp : Z) (argv : list (list Z)) : Prop := {
  mf_return : load32 m sp = 0xffffffff;
  mf_argc : load32 m (sp + 4) = Z.of_nat (length argv);
  mf_argv : load32 m (sp + 8) = sp + 12;
  mf_arg : forall i a, argv !! i = Some a ->
    let p := load32 m (sp + 12 + 4 * Z.of_nat i) in
    sp + 16 + 4 * Z.of_nat (length argv) <= p /\ p + Z.of_nat (length a) < sz /\ string_at m p a;
  mf_null : load32 m (sp + 12 + 4 * Z.of_nat (length argv)) = 0
}.

(** Bytes other than NUL, and not so many that the address wraps around below
    the [n] pages under the stack and its guard page. *)
Definition arg_ok (n : Z) (a : list Z) : Prop :=
  Forall (fun c => 0 < c < 256) a /\ Z.of_nat (length a) + 4 <= 4096 * (n + 1).

Lemma arg_ok_bytes n a : arg_ok n a -> byte_list (a ++ [0]).
Proof.
  intros [H _]. apply Forall_app. split; [|repeat constructor; unfold is_byte; lia].
  eapply Forall_impl; [exact H|]. intros c Hc. cbn in *. unfold is_byte. lia.
Qed.

Lemma arg_at_below sp a : sp - Z.of_nat (length a) - 4 <= arg_at sp a /\ arg_at sp a + Z.of_nat (length a) + 1 <= sp.
Proof. unfold arg_at. lia. Qed.

Lemma args_end_below argv : forall sp, args_end sp argv <= sp.
Proof. induction argv as [|a argv IH]; intros sp; cbn; [lia|]. specialize (IH (arg_at sp a)). pose proof (arg_at_below sp a). lia. Qed.

Lemma push_address sp a : 0 <= arg_at sp a -> sp < 2 ^ 32 ->
  Z.land (u32 (sp - (Z.of_nat (length a) + 1))) (Z.lnot 3) = arg_at sp a.
Proof.
  intros H Hs. rewrite u32_small by (unfold arg_at in H; lia).
  change 3 with (Z.ones 2). rewrite land_lnot_ones by lia. unfold arg_at. change (2 ^ 2) with 4. lia.
Qed.

Lemma length_args_at argv : forall sp, length (args_at sp argv) = length argv.
Proof. induction argv as [|a argv IH]; intros sp; cbn; [done|]. by rewrite IH. Qed.

(** The words of [main_frame], from the strings and what is copied out last. *)
Lemma main_frame_words m e argv sz :
  let sp := e - 4 * (Z.of_nat (length argv) + 4) in
  let words := [0xffffffff; Z.of_nat (length argv); sp + 12] ++ args_at sz argv ++ [0] in
  0 <= sp -> e <= sz < 2 ^ 32 -> (length argv <= MAXARG)%nat ->
  (forall x, sp <= x < e -> m x = place (mjoin (le_bytes 4 <$> words)) sp nul_mem x) ->
  (forall i a, argv !! i = Some a -> exists p, args_at sz argv !! i = Some p /\
     e <= p /\ p + Z.of_nat (length a) < sz /\ string_at m p a) ->
  main_frame m sz sp argv.
Proof.
  intros sp words Hsp Hsz Hl Hm Hs. unfold MAXARG in Hl.
  assert (Hw : length words = (length argv + 4)%nat) by (unfold words; rewrite !length_app, length_args_at; cbn; lia).
  assert (L : forall i w, words !! i = Some w -> 0 <= w < 2 ^ 32 -> load32 m (sp + 4 * Z.of_nat i) = w).
  { intros i w Hi Hr. apply (load_word words); try done. intros x Hx. apply Hm. lia. }
  assert (A : forall i p, (args_at sz argv ++ [0]) !! i = Some p -> 0 <= p < 2 ^ 32 -> load32 m (sp + 12 + 4 * Z.of_nat i) = p).
  { intros i p Hi Hr. rewrite <- (L (3 + i)%nat p) by done. f_equal. lia. }
  split.
  - rewrite <- (L 0%nat 0xffffffff) at 1 by done. f_equal. lia.
  - apply (L 1%nat); [done|lia].
  - apply (L 2%nat); [done|lia].
  - intros i a Hi. destruct (Hs i a Hi) as (p & Hp & H1 & H2 & H3).
    rewrite (A i p); [|by apply lookup_app_l_Some|lia]. cbv zeta. split_and!; [lia|done|done].
  - apply A; [|lia]. rewrite lookup_app_r, length_args_at by (rewrite length_args_at; lia). by rewrite Nat.sub_diag.
Qed.

Section stack.
Context {K J : Type} `{HK : !Frames K, HKo : !FramesOk K}.

Notation kern := (kernel (K := K) (J := J)).

Lemma kmem_put {A} (m : M K A) k (s : kern) a k' : m k = Ok a k' -> kmem_op m (put_memory k s) = Ok a (put_memory k' s).
Proof. exact (kmem_op_run m (put_memory k s) a k'). Qed.

Context (F T : gset Z) (pgdir n : Z) (s : kern).
Context (n_ok : 0 <= n /\ 4096 * (n + 2) <= KERNBASE).

(** [n] pages, the guard page and the page of the stack. *)
Notation D := (pages 0 (n + 2)).
Notation sz := (4096 * (n + 2)).

Record guarded (k : K) : Prop := {
  gd_us : uspace k F T pgdir D;
  gd_guard : has (pte (fr_mem k) pgdir n) PTE_U = false;
  gd_stack : has (pte (fr_mem k) pgdir (n + 1)) PTE_U = true
}.

(** From [k] to [k'] only bytes from [lo] up to [hi] changed. *)
Definition wrote (lo hi : Z) (k k' : K) : Prop :=
  forall x, 0 <= x < sz -> x < lo \/ hi <= x -> view k' pgdir x = view k pgdir x.

(** [copyout] of bytes that end on the page of the stack or on the guard page:
    they must all be on the page of the stack. *)
Lemma copyout_stack k va bs : guarded k -> byte_list bs -> bs <> [] -> 0 <= va ->
  4096 * n < va + Z.of_nat (length bs) <= sz ->
  exists r k', copyout_bytes pgdir va bs k = Ok r k' /\ guarded k' /\
    if decide (4096 * (n + 1) <= va)
    then r = 0 /\ forall x, 0 <= x < sz -> view k' pgdir x = place bs va (view k pgdir) x
    else r = -1.
Proof.
  intros [U Hg Hs] Hb Hne Hva Hend. unfold KERNBASE in n_ok. assert (0 < length bs)%nat by (destruct bs; [done|cbn; lia]).
  destruct (copyout_from_ok pgdir D (length bs) k F T va bs U Hb) as (r & m & k' & E & L & HR); try (unfold KERNBASE; lia).
  { intros j H1 H2. apply elem_of_pages. lia. }
  pose proof (ld_ptes _ _ _ _ _ _ _ _ L) as Hp. exists r, k'. split; [exact E|].
  split; [split; [apply L|by rewrite Hp by lia|by rewrite Hp by lia]|]. case_decide as Hd.
  - destruct HR as [(-> & -> & _)|(_ & j & H1 & H2 & H3)].
    + split; [done|]. rewrite firstn_all in L. intros x Hx. apply (ld_bytes _ _ _ _ _ _ _ _ L); [lia|]. apply elem_of_pages. lia.
    + replace j with (n + 1) in H3 by lia. congruence.
  - destruct HR as [(_ & _ & H3)|[-> _]]; [|done]. specialize (H3 n ltac:(lia) ltac:(lia)). congruence.
Qed.

(** The loop over [argv]. *)
Lemma push_args_ok argv : forall argc sp acc k,
  guarded k -> (argc <= MAXARG)%nat -> 4096 * (n + 1) <= sp <= sz -> Forall (arg_ok n) argv ->
  exists r k', push_args pgdir argv argc sp acc (put_memory k s) = Ok r (put_memory k' s) /\ guarded k' /\
    if decide ((argc + length argv <= MAXARG)%nat /\ 4096 * (n + 1) <= args_end sp argv)
    then r = Some (args_end sp argv, acc ++ args_at sp argv) /\ wrote (args_end sp argv) sp k k' /\
      forall i a, argv !! i = Some a -> exists p, args_at sp argv !! i = Some p /\
        args_end sp argv <= p /\ p + Z.of_nat (length a) < sp /\ string_at (view k' pgdir) p a
    else r = None.
Proof.
  induction argv as [|a argv IH]; intros argc sp acc k G Hc Hsp Hok; cbn [push_args args_end args_at length].
  { exists (Some (sp, acc)), k. split; [done|]. split; [done|]. rewrite decide_True by lia. rewrite app_nil_r. split_and!; [done|by intros x _ _|done]. }
  apply Forall_cons in Hok as [Ha Hok]. pose proof (arg_at_below sp a) as [B1 B2]. pose proof (args_end_below argv (arg_at sp a)) as B3.
  destruct (Nat.leb_spec MAXARG argc) as [Hm|Hm].
  { exists None, k. split; [done|]. split; [done|]. by rewrite decide_False by lia. }
  unfold KERNBASE in n_ok. pose proof (proj2 Ha) as Hl. rewrite push_address by lia.
  destruct (copyout_stack k (arg_at sp a) (a ++ [0]) G (arg_ok_bytes n a Ha)) as (r & k1 & E & G1 & HR); rewrite ?length_app; cbn [length]; try lia; [by destruct a|].
  rewrite (bind_ok _ _ _ _ _ (kmem_put _ _ s _ _ E)). case_decide as Hd.
  2:{ subst r. exists None, k1. split; [done|]. split; [done|]. by rewrite decide_False by lia. }
  destruct HR as [-> HV]. change (0 <? 0) with false. cbv iota.
  destruct (IH (S argc) (arg_at sp a) (acc ++ [arg_at sp a]) k1 G1 ltac:(lia) ltac:(lia) Hok) as (r & k' & E' & G' & HR).
  exists r, k'. split; [exact E'|]. split; [done|].
  destruct (decide _) as [H1|H1] in HR; [rewrite decide_True by lia|by rewrite decide_False by lia].
  destruct HR as (-> & W & A). rewrite <- app_assoc. split; [done|].
  assert (Ev : forall x, 0 <= x < sz -> arg_at sp a <= x -> view k' pgdir x = place (a ++ [0]) (arg_at sp a) (view k pgdir) x).
  { intros x Hx Hx2. rewrite W by lia. by apply HV. }
  split.
  - intros x Hx Hout. destruct (decide (x < arg_at sp a)).
    + rewrite W by lia. rewrite HV by done. apply place_out. lia.
    + rewrite Ev by lia. apply place_out. rewrite length_app. cbn. lia.
  - intros [|i] b Hb; cbn [lookup list_lookup] in *.
    + injection Hb as <-. exists (arg_at sp a). split_and!; [done|lia|lia|]. intros j Hj.
      rewrite Ev by lia. rewrite place_in by (rewrite length_app; cbn; lia).
      rewrite (list_lookup_lookup_total_lt (a ++ [0]) j) by (rewrite length_app; cbn; lia). done.
    + destruct (A i b Hb) as (p & Hp & H2 & H3 & H4). exists p. split_and!; [done|lia|lia|done].
Qed.

(** The whole of it, given the pages. *)
Lemma exec_stack_ok argv k :
  uspace k F T pgdir D -> has (pte (fr_mem k) pgdir (n + 1)) PTE_U = true -> Forall (arg_ok n) argv ->
  exists r k', exec_stack pgdir sz argv (put_memory k s) = Ok r (put_memory k' s) /\ guarded k' /\
    if decide ((length argv <= MAXARG)%nat /\ 4096 * (n + 1) <= main_sp sz argv)
    then r = Some (main_sp sz argv) /\ main_frame (view k' pgdir) sz (main_sp sz argv) argv /\ wrote (main_sp sz argv) sz k k'
    else r = None.
Proof.
  intros U Hu Hok. unfold KERNBASE in n_ok. unfold exec_stack, PGSIZE. rewrite u32_small by lia.
  replace (sz - 2 * 4096) with (4096 * n) by lia.
  destruct (clearpteu_ok k F T pgdir D n U) as (k0 & E0 & U0 & V0 & Hg & Hp); [apply elem_of_pages; lia|].
  rewrite (bind_ok _ _ _ _ _ (kmem_put _ _ s _ _ E0)).
  assert (G0 : guarded k0) by (split; [done|done|by rewrite Hp by lia]).
  destruct (push_args_ok argv 0 sz [] k0 G0) as (r & k1 & E1 & G1 & HR); [lia|lia|done|]. rewrite (bind_ok _ _ _ _ _ E1).
  unfold main_sp. set (e := args_end sz argv) in *. set (sp := e - 4 * (Z.of_nat (length argv) + 4)).
  pose proof (args_end_below argv sz : e <= sz) as He. case_decide as Hd.
  2:{ subst r. exists None, k1. split; [done|]. split; [done|]. rewrite decide_False; [done|]. unfold sp. lia. }
  destruct HR as (-> & W & A). change ([] ++ args_at sz argv) with (args_at sz argv). rewrite length_args_at. unfold MAXARG in Hd.
  rewrite !u32_small by lia. replace (e - (Z.of_nat (length argv) + 1) * 4) with (sp + 12) by (unfold sp; lia).
  replace (e - (3 + Z.of_nat (length argv) + 1) * 4) with sp by (unfold sp; lia).
  set (words := [0xffffffff; _; _] ++ _). set (bs := mjoin (le_bytes 4 <$> words)).
  assert (Hb : Z.of_nat (length bs) = e - sp) by (unfold bs; rewrite length_words; unfold words; rewrite !length_app, length_args_at; cbn; lia).
  destruct (copyout_stack k1 sp bs G1) as (r & k2 & E2 & G2 & HR); [apply bytes_words|by destruct argv|unfold sp; lia|lia|].
  rewrite (bind_ok _ _ _ _ _ (kmem_put _ _ s _ _ E2)). case_decide as Hd2.
  2:{ subst r. exists None, k2. split; [done|]. split; [done|]. rewrite decide_False; [done|]. lia. }
  destruct HR as [-> V2]. exists (Some sp), k2. split; [done|]. split; [done|]. rewrite decide_True by (unfold MAXARG; lia). split; [done|].
  assert (V : forall x, 0 <= x < sz -> x < sp \/ e <= x -> view k2 pgdir x = view k1 pgdir x)
    by (intros x Hx Hout; rewrite V2 by done; apply place_out; lia).
  split.
  - apply main_frame_words; try (unfold MAXARG; lia).
    + intros x Hx. rewrite V2 by lia. fold sp words bs. unfold place. zdec. done.
    + intros i a Hi. destruct (A i a Hi) as (p & Hp1 & H2 & H3 & H4). exists p. split_and!; try done.
      intros j Hj. rewrite V by lia. by apply H4.
  - intros x Hx Hout. rewrite V by lia. rewrite W by lia. apply V0; [lia|]. apply elem_of_pages. lia.
Qed.

End stack.

(** The two pages [allocuvm] adds: the old ones keep their bytes, the new ones
    are zero and open to the user. *)
Lemma stack_pages {K} `{!Frames K, !FramesOk K} (k : K) F T pgdir n :
  uspace k F T pgdir (pages 0 n) -> 0 <= n -> 4096 * (n + 2) < KERNBASE -> enough 2 F T ->
  exists k1 F1 T1, allocuvm pgdir (4096 * n) (4096 * (n + 2)) k = Ok (4096 * (n + 2)) k1 /\
    uspace k1 F1 T1 pgdir (pages 0 (n + 2)) /\ has (pte (fr_mem k1) pgdir (n + 1)) PTE_U = true /\
    forall x, 0 <= x < 4096 * (n + 2) -> view k1 pgdir x = if x <? 4096 * n then view k pgdir x else 0.
Proof.
  intros U Hn Hmax He. assert (N : forall m, npages (4096 * m) = m) by (intros m; unfold npages; lia). unfold KERNBASE in Hmax.
  destruct (allocuvm_ok k F T pgdir (4096 * n) (4096 * (n + 2))) as (k1 & F1 & T1 & E & [A1 _ _ _ _ A6 A7 A8]); rewrite ?N; try lia.
  { done. } { unfold KERNBASE. lia. } { replace (Z.to_nat (n + 2 - n)) with 2%nat by lia. done. }
  rewrite !N in *. exists k1, F1, T1. split; [done|]. split_and!.
  - replace (pages 0 (n + 2)) with (pages 0 n ∪ pages n (n + 2)); [done|]. apply set_eq. intros j. rewrite elem_of_union, !elem_of_pages. lia.
  - destruct (A7 (n + 1) ltac:(lia)) as (Hf & _). rewrite <- has_flags, Hf by (unfold PTE_U; lia). done.
  - intros x Hx. unfold view, ubyte. destruct (Z.ltb_spec x (4096 * n)) as [Hl|Hl].
    + assert (Hj : x / 4096 ∈ pages 0 n) by (apply elem_of_pages; lia).
      assert (Eu : uframe (fr_mem k1) pgdir (x / 4096) = uframe (fr_mem k) pgdir (x / 4096)) by (unfold uframe; by rewrite A6 by lia).
      rewrite Eu. destruct (us_frame _ _ _ _ _ U _ Hj) as (Hf & H1 & H2). pose proof (frame_bounds _ Hf) as [_ Hm].
      apply A8. rewrite page_of_in by lia. set_solver +H1 H2.
    + apply A7; lia.
Qed.

(** C33: What [exec] gives a program to start with.  To [n] pages of a loaded
    program it adds two: a guard page, which user code cannot touch, and the
    page of the stack.  If there are at most 32 arguments and they fit, with
    four more words and a word for each, into the page of the stack, the stack
    pointer is at that frame: the return address 0xffffffff, [argc], the
    address of [argv], the array [argv] with its null pointer, whose entries
    lead to the strings; the bytes of the program are as they were, and those
    below the stack pointer are zero.  Otherwise the set-up fails, without
    panic or undefined behaviour.  It is assumed that the new size is below
    KERNBASE, that there are frames for the two pages and for any page tables,
    and that no argument is as long as all that is below the stack. *)
Theorem exec_prepares_main {K J} `{!Frames K, !FramesOk K} (s : kernel (K := K) (J := J)) (F T : gset Z) (pgdir n : Z) (argv : list (list Z)) :
  uspace (memory s) F T pgdir (pages 0 n) -> 0 <= n -> 4096 * (n + 2) < KERNBASE -> enough 2 F T ->
  Forall (arg_ok n) argv ->
  let sz := 4096 * (n + 2) in
  let sp := main_sp sz argv in
  exists r k F' T',
    (newsz ← kmem_op (allocuvm pgdir (4096 * n) (u32 (4096 * n + 2 * PGSIZE)));
     if newsz =? 0 then mret None else exec_stack pgdir newsz argv) s = Ok r (put_memory k s) /\
    uspace k F' T' pgdir (pages 0 (n + 2)) /\
    uva2ka pgdir (4096 * n) k = Ok 0 k /\
    if decide ((length argv <= MAXARG)%nat /\ sz - PGSIZE <= sp)
    then r = Some sp /\ main_frame (view k pgdir) sz sp argv /\
      forall x, 0 <= x < sp -> view k pgdir x = if x <? 4096 * n then view (memory s) pgdir x else 0
    else r = None.
Proof.
  intros U Hn Hmax He Hok sz sp. destruct (stack_pages _ F T pgdir n U Hn Hmax He) as (k1 & F1 & T1 & E & U1 & Hu & V).
  unfold KERNBASE in Hmax. unfold PGSIZE. rewrite u32_small by lia. replace (4096 * n + 2 * 4096) with sz by (unfold sz; lia).
  destruct s as [[k0 t] f l]. cbn [memory co_mem kn_core] in *. set (s := MkKernel (MkCore k0 t) f l).
  rewrite (bind_ok _ _ s _ _ (kmem_op_run _ s _ _ E)), (proj2 (Z.eqb_neq _ 0)) by (unfold sz; lia).
  destruct (exec_stack_ok F1 T1 pgdir n s ltac:(unfold KERNBASE; lia) argv k1 U1 Hu Hok) as (r & k2 & E2 & [U2 Hg _] & HR).
  exists r, k2, F1, T1. split; [exact E2|]. split; [done|]. split; [apply (uva2ka_kernel k2 F1 T1 pgdir (pages 0 (n + 2))); [done|apply elem_of_pages; lia|done]|].
  fold sz sp in HR. replace (sz - 4096) with (4096 * (n + 1)) by (unfold sz; lia). case_decide; [|done].
  destruct HR as (-> & MF & W). split; [done|]. split; [done|]. intros x Hx.
  assert (sp <= sz) by (unfold sp, main_sp; pose proof (args_end_below argv sz); lia).
  rewrite W by lia. apply V. unfold sz in *. lia.
Qed.

(** A program of two pages. *)
Lemma demo_two_pages : exists (k : kmem) F T pgdir, uspace k F T pgdir (pages 0 2) /\ enough 2 F T.
Proof.
  destruct (demo_uspace 3100 ltac:(lia)) as (k0 & F0 & T0 & pgdir & U0 & Hs0).
  destruct (allocuvm_ok k0 F0 T0 pgdir 0 8192 U0) as (k & F & T & _ & [A _ _ _ S _ _ _]);
    [lia|unfold KERNBASE; lia|unfold enough; rewrite Hs0; vm_compute; lia|].
  change (npages 0) with 0 in *. change (npages 8192) with 2 in *. exists k, F, T, pgdir. split.
  - rewrite (pages0 0), union_empty_l_L in A by lia. exact A.
  - unfold enough. lia.
Qed.

(** The arguments of [echo hi]; and an argument a byte too long for the page. *)
Lemma exec_prepares_main_witness :
  exists j (k : kmem) F T pgdir, let s := put_memory k (demo_kernel j (demo_proc_table pgdir 8192)) in
    let start argv := newsz ← kmem_op (allocuvm pgdir (4096 * 2) (u32 (4096 * 2 + 2 * PGSIZE)));
      if newsz =? 0 then mret None else exec_stack pgdir newsz argv in
    uspace k F T pgdir (pages 0 2) /\
    (exists k', start [cbytes "echo"; cbytes "hi"] s = Ok (Some 16348) (put_memory k' s) /\
       main_frame (view k' pgdir) 16384 16348 [cbytes "echo"; cbytes "hi"]) /\
    (exists k', start [replicate 4076 65] s = Ok None (put_memory k' s)).
Proof.
  destruct demo_boot as (_ & _ & j & _). destruct demo_two_pages as (k & F & T & pgdir & U & He). exists j, k, F, T, pgdir. intros s start.
  assert (Ha : forall a, forallb (fun c => (0 <? c) && (c <? 256)) a = true -> (length a < 5000)%nat -> arg_ok 2 a).
  { intros a H1 H2. split; [|lia]. apply Forall_forall. intros c Hc. rewrite forallb_forall in H1.
    apply list_elem_of_In in Hc. specialize (H1 c Hc). lia. }
  split; [exact U|]. split.
  - destruct (exec_prepares_main s F T pgdir 2 [cbytes "echo"; cbytes "hi"]) as (r & k' & _ & _ & E & _ & _ & HR); try done.
    { repeat constructor; apply Ha; try reflexivity; cbn; lia. }
    change (main_sp _ _) with 16348 in HR. rewrite decide_True in HR by (split; [cbn; unfold MAXARG; lia|done]).
    destruct HR as (-> & MF & _). exists k'. split; [exact E|exact MF].
  - destruct (exec_prepares_main s F T pgdir 2 [replicate 4076 65]) as (r & k' & _ & _ & E & _ & _ & HR); try done.
    { constructor; [|constructor]. apply Ha; [reflexivity|rewrite length_replicate; lia]. }
    rewrite decide_False in HR by (intros [_ H]; vm_compute in H; by apply H). subst r. exists k'. exact E.
Defined.
