(* ===== verification/FileSpec.v ===== *)
(** * Reference counts of open files

    [f_ref] of every entry of the file table is the number of descriptors that
    name it, over all processes; a slot of the process table that is unused or
    a zombie has no descriptor.  Between the writes of a call the two differ:
    [fa d o ws] says by how much ([d]), what the descriptor tables are ([o]),
    and which slots are in use ([ws]). *)

From stdpp Require Import base numbers list gmap sets strings.
From Stdlib Require Import ZArith Lia.
From S2P Require Import Prelude CStrings Frames Kalloc Vm VmSpec Disk Blocks Bio Log Journal Storage Fs FsSpec.
From S2P Require Import Ptable PtableInv PtableClaims Pipe File Proc ProcSteps Syscall Sysfile Exec Trap.

Open Scope Z_scope.

(** ** Counting *)

Definition ind (f g : nat) : Z := if decide (f = g) then 1 else 0.
Definition oind (x : option nat) (g : nat) : Z := match x with Some f => ind f g | None => 0 end.

Notation fds := (list (option nat)).

Fixpoint names (l : fds) (g : nat) : Z :=
  match l with [] => 0 | x :: r => oind x g + names r g end.

(** The descriptors that name file [g]. *)
Fixpoint held (o : list fds) (g : nat) : Z :=
  match o with [] => 0 | l :: r => names l g + held r g end.

Lemma names_insert l k x y g : l !! k = Some x -> names (<[k := y]> l) g = names l g - oind x g + oind y g.
Proof.
  revert k. induction l as [|z l IH]; intros [|k] H; cbn in *; try done.
  - injection H as ->. lia.
  - change (oind z g + names (<[k := y]> l) g = oind z g + names l g - oind x g + oind y g). rewrite (IH k H). lia.
Qed.

Lemma held_insert o i l l' g : o !! i = Some l -> held (<[i := l']> o) g = held o g - names l g + names l' g.
Proof.
  revert i. induction o as [|z o IH]; intros [|i] H; cbn in *; try done.
  - injection H as ->. lia.
  - change (names z g + held (<[i := l']> o) g = names z g + held o g - names l g + names l' g). rewrite (IH i H). lia.
Qed.

Lemma names_nonneg l g : 0 <= names l g.
Proof. induction l as [|[f|] l IH]; cbn; unfold ind; repeat case_decide; lia. Qed.

Lemma held_nonneg o g : 0 <= held o g.
Proof. induction o as [|l o IH]; cbn; [lia|]. pose proof (names_nonneg l g). lia. Qed.

Lemma names_elem l k g : l !! k = Some (Some g) -> 1 <= names l g.
Proof.
  revert k. induction l as [|x l IH]; intros [|k] H; cbn in *; try done.
  - injection H as ->. cbn. unfold ind. rewrite decide_True by done. pose proof (names_nonneg l g). lia.
  - specialize (IH k H). destruct x as [f|]; cbn; unfold ind; repeat case_decide; lia.
Qed.

Lemma held_elem o i l k g : o !! i = Some l -> l !! k = Some (Some g) -> 1 <= held o g.
Proof.
  revert i. induction o as [|z o IH]; intros [|i] H Hk; cbn in *; try done.
  - injection H as ->. pose proof (names_elem _ _ _ Hk). pose proof (held_nonneg o g). lia.
  - specialize (IH i H Hk). pose proof (names_nonneg z g). lia.
Qed.

(** Every descriptor table has its length and names entries of the file table. *)
Definition wfo (o : list fds) : Prop :=
  forall i l, o !! i = Some l -> length l = NOFILE /\ forall k f, l !! k = Some (Some f) -> (f < NFILE)%nat.

Lemma wfo_insert o i l k x : wfo o -> o !! i = Some l -> (forall f, x = Some f -> (f < NFILE)%nat) ->
  wfo (<[i := <[k := x]> l]> o).
Proof.
  intros W Hi Hx j l' Hj. destruct (decide (i = j)) as [<-|Hne].
  - rewrite list_lookup_insert_eq in Hj by (by eapply lookup_lt_Some). injection Hj as <-.
    destruct (W i l Hi) as [Hl Hf]. rewrite length_insert. split; [done|]. intros k' f Hk'.
    destruct (decide (k = k')) as [<-|Hk].
    + assert ((k < length l)%nat) by (rewrite <- (length_insert l k x); by eapply lookup_lt_Some).
      rewrite list_lookup_insert_eq in Hk' by done. by apply Hx; injection Hk'.
    + rewrite list_lookup_insert_ne in Hk' by done. by eapply Hf.
  - rewrite list_lookup_insert_ne in Hj by done. by apply (W j).
Qed.

Definition idle (p : proc) : Prop := p_state p = UNUSED \/ p_state p = ZOMBIE.
Definition no_files (l : fds) : Prop := forall k x, l !! k = Some x -> x = None.

(** ** Triples *)

Create HintDb fkeep discriminated.

Section triple.
Context {K J : Type} `{!Frames K, !Journal J, !Transactions J}.

Notation kern := (kernel (K := K) (J := J)).
Implicit Types (s : kern) (d : nat -> Z) (o : list fds) (ws : list nat).

Definition triple {A} (P : kern -> Prop) (m : M kern A) (Q : A -> kern -> Prop) : Prop :=
  forall s, P s -> match m s with Ok a s' => Q a s' | _ => True end.

Lemma tr_bind {A B} P (m : M kern A) R (k : A -> M kern B) Q :
  triple P m R -> (forall a, triple (R a) (k a) Q) -> triple P (m ≫= k) Q.
Proof.
  intros Hm Hk s Hs. specialize (Hm s Hs). unfold mbind, M_bind. destruct (m s) as [a s1| | | |]; try done.
  by apply Hk.
Qed.

Lemma tr_ret {A} P (a : A) (Q : A -> kern -> Prop) : (forall s, P s -> Q a s) -> triple P (mret a) Q.
Proof. intros H s Hs. by apply H. Qed.

Lemma tr_conseq {A} (P P' : kern -> Prop) (m : M kern A) (Q Q' : A -> kern -> Prop) :
  triple P m Q -> (forall s, P' s -> P s) -> (forall a s, Q a s -> Q' a s) -> triple P' m Q'.
Proof. intros H HP HQ s Hs. specialize (H s (HP s Hs)). destruct (m s); auto. Qed.

Lemma tr_for (I : Z -> kern -> Prop) lo hi body :
  lo <= hi -> (forall i, lo <= i < hi -> triple (I i) (body i) (fun _ => I (i + 1))) ->
  triple (I lo) (for_ lo hi body) (fun _ => I hi).
Proof.
  intros Hle H. unfold for_. remember (Z.to_nat (hi - lo)) as n eqn:En.
  revert lo Hle H En. induction n as [|n IH]; intros lo Hle H En; cbn [for_from].
  - apply tr_ret. intros s. by replace hi with lo by lia.
  - eapply tr_bind; [apply H; lia|]. intros u. apply IH; [lia| |lia]. intros i Hi. apply H. lia.
Qed.

(** ** The assertion *)

Record fa d o ws s : Prop := {
  fa_fds : p_ofile <$> procs (table s) = o;
  fa_wfo : wfo o;
  fa_idle : forall i, (i < length o)%nat -> idle (slot (table s) i) -> no_files (p_ofile (slot (table s) i));
  fa_ws : forall i, i ∈ ws -> (i < length o)%nat /\ ~ idle (slot (table s) i);
  fa_len : length (kn_files s) = NFILE;
  fa_ref : forall g, (g < NFILE)%nat -> f_ref (kn_files s !!! g) = held o g + d g
}.

Lemma fa_slot d o ws s i l : fa d o ws s -> o !! i = Some l -> p_ofile (slot (table s) i) = l.
Proof.
  intros H Hi. rewrite <- (fa_fds _ _ _ _ H), list_lookup_fmap in Hi.
  destruct (procs (table s) !! i) as [p|] eqn:Hp; [|done]. injection Hi as <-.
  unfold slot. by rewrite (list_lookup_total_correct _ _ _ Hp).
Qed.

Lemma fa_lookup d o ws s i : fa d o ws s -> (i < length o)%nat -> o !! i = Some (p_ofile (slot (table s) i)).
Proof. intros H Hi. destruct (lookup_lt_is_Some_2 o i Hi) as [l Hl]. by rewrite (fa_slot _ _ _ _ _ _ H Hl). Qed.

(** What leaves the descriptors, the reference counts and the slots in use alone. *)
Definition fkeeps {A} (m : M kern A) : Prop := forall d o ws, triple (fa d o ws) m (fun _ => fa d o ws).

Lemma fk_bind {A B} (m : M kern A) (k : A -> M kern B) : fkeeps m -> (forall a, fkeeps (k a)) -> fkeeps (m ≫= k).
Proof. intros Hm Hk d o ws. eapply tr_bind; [apply Hm|]. intros a. apply Hk. Qed.

Lemma fk_ret {A} (a : A) : fkeeps (mret a).
Proof. intros d o ws s. done. Qed.
Lemma fk_panic {A} msg : fkeeps (panic msg : M kern A).
Proof. by intros d o ws s. Qed.
Lemma fk_undef {A} msg : fkeeps (undef msg : M kern A).
Proof. by intros d o ws s. Qed.
Lemma fk_sleep {A} c : fkeeps (sleep_on c : M kern A).
Proof. by intros d o ws s. Qed.
Lemma fk_diverge {A} : fkeeps (diverge : M kern A).
Proof. by intros d o ws s. Qed.

Lemma fk_when b (m : M kern unit) : fkeeps m -> fkeeps (when b m).
Proof. destruct b; [done|]. intros _. apply fk_ret. Qed.

Lemma fa_same d o ws s s' : table s' = table s -> kn_files s' = kn_files s -> fa d o ws s -> fa d o ws s'.
Proof. intros Et Ef [H1 H2 H3 H4 H5 H6]. split; rewrite ?Et, ?Ef; done. Qed.

Lemma fk_kmem {A} (m : M K A) : fkeeps (kmem_op m).
Proof.
  intros d o ws s H. unfold kmem_op, incore, inmem, lift. destruct (m (co_mem (kn_core s))); try done.
  by apply (fa_same _ _ _ s).
Qed.

Lemma fk_fs {A} (m : M (fs J) A) : fkeeps (infs m).
Proof. intros d o ws s H. unfold infs, lift. destruct (m (kn_fs s)); try done. by apply (fa_same _ _ _ s). Qed.

Lemma fk_getf f : fkeeps (getf f).
Proof. intros d o ws s. done. Qed.

Lemma fa_modf d o ws s f g d' :
  fa d o ws s -> (forall i, (i < NFILE)%nat ->
    (if decide (i = f) then f_ref (g (kn_files s !!! f)) else f_ref (kn_files s !!! i)) = held o i + d' i) ->
  fa d' o ws (MkKernel (kn_core s) (kn_fs s) (<[f := g (kn_files s !!! f)]> (kn_files s))).
Proof.
  intros [H1 H2 H3 H4 H5 H6] Hd. split; try done; cbn [kn_files].
  - by rewrite length_insert.
  - intros i Hi. rewrite <- Hd by done. case_decide as E.
    + subst. by rewrite list_lookup_total_insert_eq by (by rewrite H5).
    + by rewrite list_lookup_total_insert_ne.
Qed.

Lemma fk_modf f g : (forall x, f_ref (g x) = f_ref x) -> fkeeps (modf f g).
Proof.
  intros Hg d o ws s H. unfold modf, modify. apply (fa_modf d); [done|].
  intros i Hi. rewrite Hg. case_decide as E; [subst|]; by apply (fa_ref _ _ _ _ H).
Qed.

(** ** The process table *)

(** Same descriptors, and a slot that was in use still is. *)
Definition pfr (t t' : ptable) : Prop :=
  p_ofile <$> procs t' = p_ofile <$> procs t /\ forall i, idle (slot t' i) -> idle (slot t i).

Lemma fa_pt d o ws (s : kern) t :
  fa d o ws s -> pfr (table s) t -> fa d o ws (MkKernel (MkCore (co_mem (kn_core s)) t) (kn_fs s) (kn_files s)).
Proof.
  intros [H1 H2 H3 H4 H5 H6] [Ho Hi].
  assert (Es : forall i, (i < length o)%nat -> p_ofile (slot t i) = p_ofile (slot (table s) i)).
  { intros i Hl. rewrite <- H1, length_fmap in Hl. unfold slot.
    destruct (lookup_lt_is_Some_2 _ _ Hl) as [p Hp].
    assert (Hl' : (i < length (procs t))%nat) by (rewrite <- (length_fmap p_ofile (procs t)), Ho, length_fmap; done).
    destruct (lookup_lt_is_Some_2 _ _ Hl') as [p' Hp'].
    rewrite (list_lookup_total_correct _ _ _ Hp), (list_lookup_total_correct _ _ _ Hp').
    apply (f_equal (fun l => l !! i)) in Ho. rewrite !list_lookup_fmap, Hp, Hp' in Ho. by injection Ho. }
  split; cbn; try done.
  - by rewrite <- H1.
  - intros i Hl Hid. rewrite Es by done. by apply H3, Hi.
  - intros i Hw. destruct (H4 i Hw) as [Hl Hn]. split; [done|]. intros Hid. by apply Hn, Hi.
Qed.

Definition pkeeps {A} (m : M ptable A) : Prop := forall t, match m t with Ok _ t' => pfr t t' | _ => True end.

Lemma fk_pt {A} (m : M ptable A) : pkeeps m -> fkeeps (pt m).
Proof.
  intros H d o ws s Hs. specialize (H (co_pt (kn_core s))). unfold pt, incore, inpt, lift.
  destruct (m (co_pt (kn_core s))); try done. by apply fa_pt.
Qed.
End triple.

#[export] Hint Resolve fk_ret fk_panic fk_undef fk_sleep fk_diverge fk_kmem fk_fs fk_getf : fkeep.

(** ** Sections of the process table *)

Lemma pfr_refl t : pfr t t.
Proof. done. Qed.

Lemma pfr_trans t1 t2 t3 : pfr t1 t2 -> pfr t2 t3 -> pfr t1 t3.
Proof. intros [A1 A2] [B1 B2]. split; [congruence|auto]. Qed.

Lemma pfr_modp t i (f : proc -> proc) :
  (p_ofile (f (slot t i)) = p_ofile (slot t i) /\ (idle (f (slot t i)) -> idle (slot t i))) ->
  pfr t (set_procs (<[i := f (slot t i)]> (procs t)) t).
Proof.
  intros [H1 H2]. destruct (decide (i < length (procs t))%nat) as [Hl|Hl].
  - split.
    + cbn. rewrite list_fmap_insert, H1. apply list_insert_id. rewrite list_lookup_fmap. unfold slot.
      destruct (lookup_lt_is_Some_2 _ _ Hl) as [p Hp]. by rewrite Hp, (list_lookup_total_correct _ _ _ Hp).
    + intros j. unfold slot at 1. cbn. destruct (decide (i = j)) as [<-|Hne].
      * rewrite list_lookup_total_insert_eq by done. done.
      * by rewrite list_lookup_total_insert_ne.
  - rewrite list_insert_ge by lia. by destruct t.
Qed.

Lemma pk_bind {A B} (m : M ptable A) (k : A -> M ptable B) : pkeeps m -> (forall a, pkeeps (k a)) -> pkeeps (m ≫= k).
Proof.
  intros Hm Hk t. specialize (Hm t). unfold mbind, M_bind. destruct (m t) as [a t1| | | |]; try done.
  specialize (Hk a t1). destruct (k a t1); try done. by eapply pfr_trans.
Qed.
Lemma pk_ret {A} (a : A) : pkeeps (mret a).
Proof. by intros t. Qed.
Lemma pk_panic {A} msg : pkeeps (panic msg : M ptable A).
Proof. by intros t. Qed.
Lemma pk_undef {A} msg : pkeeps (undef msg : M ptable A).
Proof. by intros t. Qed.
Lemma pk_reads {A} (f : ptable -> A) : pkeeps (reads f).
Proof. by intros t. Qed.
Lemma pk_get : pkeeps (get (S := ptable)).
Proof. by intros t. Qed.
Lemma pk_modp i f : (forall p, p_ofile (f p) = p_ofile p) -> (forall p, idle (f p) -> idle p) -> pkeeps (modp i f).
Proof. intros H1 H2 t. apply (pfr_modp t i f). auto. Qed.
Lemma pk_modify f : (forall t, procs (f t) = procs t) -> pkeeps (modify f).
Proof. intros H t. cbn. unfold pfr, slot. by rewrite H. Qed.
Lemma pk_when b m : pkeeps m -> pkeeps (when b m).
Proof. destruct b; [done|]. by intros _ t. Qed.

Lemma pfr_map t (f : proc -> proc) :
  (forall p, p_ofile (f p) = p_ofile p) -> (forall p, idle (f p) -> idle p) -> pfr t (set_procs (f <$> procs t) t).
Proof.
  intros H1 H2. split.
  - cbn. rewrite <- list_fmap_compose. apply list_fmap_ext. intros i p _. apply H1.
  - intros i. unfold slot. cbn. rewrite !list_lookup_total_alt, list_lookup_fmap.
    destruct (procs t !! i) as [p|]; cbn; auto.
Qed.

Lemma pk_wakeup ch : pkeeps (wakeup ch).
Proof.
  intros t. cbn. apply pfr_map; intros p; unfold wake_one; case_decide; try done.
  unfold idle. cbn. intuition congruence.
Qed.

Lemma pk_for lo hi body : (forall i, pkeeps (body i)) -> pkeeps (for_ lo hi body).
Proof.
  intros H. unfold for_. generalize (Z.to_nat (hi - lo)) as n. intros n. revert lo.
  induction n as [|n IH]; intros lo; cbn [for_from]; [apply pk_ret|]. by apply pk_bind.
Qed.

(** Walk through a routine of the table. *)
Ltac pkeep :=
  repeat first
    [ apply pk_ret | apply pk_panic | apply pk_undef | apply pk_reads | apply pk_get | apply pk_wakeup
    | apply pk_when | apply pk_for; intros ? | apply pk_bind; [|intros ?]
    | apply pk_modp; intros ?; [done|unfold idle; cbn; intuition congruence]
    | apply pk_modify; intros ?; done | case_match ].

Lemma pk_sched c me a : pkeeps (sched c me a).
Proof. unfold sched, getp. pkeep. Qed.

Lemma pk_sleep c me ch : pkeeps (Ptable.sleep c me ch).
Proof. unfold Ptable.sleep, sched, getp. pkeep. Qed.

Lemma pk_adopt me ini i : pkeeps (adopt me ini i).
Proof. unfold adopt, getp. pkeep; apply pk_wakeup. Qed.

Lemma pk_kill pid : pkeeps (kill pid).
Proof.
  intros t. unfold kill. rewrite (bind_ok get _ _ _ _ eq_refl).
  destruct (list_find _ _) as [[i q]|]; [|done].
  assert (X : pkeeps (modp i (set_killed 1);; modp i (set_ttime (ticks t));;
    when (bool_decide (p_state q = SLEEPING)) (modp i (set_state RUNNABLE));; mret 0)) by pkeep.
  apply X.
Qed.

Lemma pk_alloc_fields i k tf : pkeeps (alloc_fields i k tf).
Proof. unfold alloc_fields. pkeep. Qed.

(** Memory and the table together. *)
Section core.
Context {K : Type} `{!Frames K}.

Definition ckeeps {A} (m : M (core (K := K)) A) : Prop :=
  forall c, match m c with Ok _ c' => pfr (co_pt c) (co_pt c') | _ => True end.

Lemma ck_bind {A B} (m : M core A) (k : A -> M core B) : ckeeps m -> (forall a, ckeeps (k a)) -> ckeeps (m ≫= k).
Proof.
  intros Hm Hk t. specialize (Hm t). unfold mbind, M_bind. destruct (m t) as [a t1| | | |]; try done.
  specialize (Hk a t1). destruct (k a t1); try done. by eapply pfr_trans.
Qed.
Lemma ck_ret {A} (a : A) : ckeeps (mret a).
Proof. by intros t. Qed.
Lemma ck_mem {A} (m : M K A) : ckeeps (inmem m).
Proof. intros c. unfold inmem, lift. by destruct (m (co_mem c)). Qed.
Lemma ck_pt {A} (m : M ptable A) : pkeeps m -> ckeeps (inpt m).
Proof. intros H c. specialize (H (co_pt c)). unfold inpt, lift. by destruct (m (co_pt c)). Qed.
Lemma ck_ld a : ckeeps (ld a).
Proof. by intros c. Qed.
Lemma ck_ldb a : ckeeps (ldb a).
Proof. by intros c. Qed.
Lemma ck_st a v : ckeeps (st a v).
Proof. by intros c. Qed.
Lemma ck_stb a v : ckeeps (stb a v).
Proof. by intros c. Qed.
Lemma ck_when b (m : M core unit) : ckeeps m -> ckeeps (when b m).
Proof. destruct b; [done|]. by intros _ t. Qed.

Ltac ckeep :=
  repeat first
    [ apply ck_ret | apply ck_mem | apply ck_ld | apply ck_ldb | apply ck_st | apply ck_stb | apply ck_when
    | apply ck_pt; first [apply pk_wakeup | apply pk_reads | apply pk_sleep]
    | apply ck_bind; [|intros ?] | case_match ].

Lemma ck_pipe_init p name : ckeeps (pipe_init p name).
Proof. unfold pipe_init. ckeep. Qed.

Lemma ck_pipeclose p w : ckeeps (pipeclose p w).
Proof. unfold pipeclose. ckeep. Qed.

Lemma ck_pipewrite c me p src n : ckeeps (pipewrite c me p src n).
Proof. unfold pipewrite. induction src as [|b src IH]; cbn [pipewrite_from]; ckeep. apply IH. Qed.

Lemma ck_piperead_copy p n : ckeeps (piperead_copy p n).
Proof. induction n as [|n IH]; cbn [piperead_copy]; ckeep. apply IH. Qed.

Lemma ck_piperead c me p n : ckeeps (piperead c me p n).
Proof. unfold piperead. ckeep. apply ck_piperead_copy. Qed.
End core.

(** ** The writes that move a reference *)

Section refs.
Context {K J : Type} `{!Frames K, !Journal J, !Transactions J}.

Notation kern := (kernel (K := K) (J := J)).
Implicit Types (s : kern) (d : nat -> Z) (o : list fds) (ws : list nat).

Lemma fk_core {A} (m : M core A) : ckeeps m -> fkeeps (K := K) (J := J) (incore m).
Proof.
  intros H d o ws s Hs. specialize (H (kn_core s)). unfold incore, lift.
  destruct (m (kn_core s)) as [a [k t]| | | |]; try done. cbn in H.
  apply (fa_same _ _ _ (MkKernel (MkCore (co_mem (kn_core s)) t) (kn_fs s) (kn_files s))); try done.
  by apply fa_pt.
Qed.

Lemma fa_ext d d' o ws s : (forall g, (g < NFILE)%nat -> d' g = d g) -> fa d o ws s -> fa d' o ws s.
Proof. intros H [H1 H2 H3 H4 H5 H6]. split; try done. intros g Hg. rewrite H by done. by apply H6. Qed.

Lemma fa_sub d o ws ws' s : ws' ⊆ ws -> fa d o ws s -> fa d o ws' s.
Proof. intros Hs [H1 H2 H3 H4 H5 H6]. split; try done. intros i Hi. by apply H4, Hs. Qed.

(** A descriptor is written; a slot that gets one is in use. *)
Lemma tr_set_ofile d o ws i k l x y :
  o !! i = Some l -> l !! k = Some x -> (forall f, y = Some f -> (f < NFILE)%nat /\ i ∈ ws) ->
  triple (K := K) (J := J) (fa d o ws) (pt (modp i (set_ofile k y)))
    (fun _ => fa (fun g => d g + oind x g - oind y g) (<[i := <[k := y]> l]> o) ws).
Proof.
  intros Hi Hk Hy s H. pose proof (fa_slot _ _ _ _ _ _ H Hi) as El. pose proof H as [H1 H2 H3 H4 H5 H6].
  pose proof (lookup_lt_Some _ _ _ Hi) as Hlen. cbn.
  assert (Hlp : (i < length (procs (co_pt (kn_core s))))%nat) by (pose proof (f_equal length H1) as E; rewrite length_fmap in E; unfold table in E; lia).
  assert (Es : forall j, slot (set_procs (<[i := set_ofile k y (slot (table s) i)]> (procs (table s))) (table s)) j
    = if decide (i = j) then set_ofile k y (slot (table s) i) else slot (table s) j).
  { intros j. unfold slot at 1. cbn. case_decide as E; [subst|].
    - by rewrite list_lookup_total_insert_eq.
    - by rewrite list_lookup_total_insert_ne. }
  unfold table in *. split; cbn [kn_core kn_files co_pt table]; unfold table; cbn [kn_core co_pt].
  - cbn [procs set_procs]. rewrite list_fmap_insert. cbn [set_ofile p_ofile set_own]. unfold table in *. by rewrite H1, El.
  - apply wfo_insert; try done. intros f Hf. by apply Hy.
  - intros j Hj. rewrite length_insert in Hj. rewrite Es. case_decide as E; [subst j|by apply H3].
    intros Hid. cbn [set_ofile p_ofile set_own]. rewrite El. intros k' z Hz.
    assert (Hidle : idle (slot (co_pt (kn_core s)) i)) by exact Hid.
    destruct (decide (k = k')) as [<-|Hne].
    + rewrite list_lookup_insert_eq in Hz by (by eapply lookup_lt_Some). injection Hz as <-.
      destruct y as [f|]; [|done]. destruct (Hy f eq_refl) as [_ Hw]. by destruct (H4 i Hw).
    + rewrite list_lookup_insert_ne in Hz by done. specialize (H3 i Hlen Hidle). rewrite El in H3. by apply (H3 k').
  - intros j Hj. rewrite length_insert, Es. destruct (H4 j Hj) as [Hl Hn]. split; [done|]. by case_decide; [subst|].
  - done.
  - intros g Hg. rewrite H6, (held_insert _ _ _ _ _ Hi), (names_insert _ _ _ _ _ Hk) by done. lia.
Qed.

(** A slot without descriptors goes out of use. *)
Lemma tr_retire d o ws i f :
  (forall p, p_ofile (f p) = p_ofile p) -> i ∉ ws -> (forall l, o !! i = Some l -> no_files l) ->
  triple (K := K) (J := J) (fa d o ws) (pt (modp i f)) (fun _ => fa d o ws).
Proof.
  intros Hf Hw Hn s H. pose proof H as [H1 H2 H3 H4 H5 H6].
  destruct (decide (i < length (procs (table s)))%nat) as [Hl|Hl].
  2:{ unfold pt, incore, inpt, lift, modp, modify. rewrite list_insert_ge by (unfold table in Hl; lia).
      apply (fa_same _ _ _ s); [by destruct s as [[? []] ? ?]|done|done]. }
  assert (Es : forall j, slot (set_procs (<[i := f (slot (table s) i)]> (procs (table s))) (table s)) j
    = if decide (i = j) then f (slot (table s) i) else slot (table s) j).
  { intros j. unfold slot at 1. cbn. case_decide as E; [subst|].
    - by rewrite list_lookup_total_insert_eq.
    - by rewrite list_lookup_total_insert_ne. }
  pose proof (fa_lookup _ _ _ _ i H) as Ho. unfold table in *. split; cbn; unfold table; cbn; try done.
  - rewrite list_fmap_insert, Hf, H1. rewrite <- H1, length_fmap in Ho. rewrite <- H1.
    by apply list_insert_id, Ho.
  - intros j Hj Hid. rewrite Es in *. case_decide as E; [subst j|by apply H3].
    rewrite Hf. by apply Hn, Ho.
  - intros j Hj. rewrite Es. destruct (H4 j Hj) as [? ?]. split; [done|]. case_decide; [subst; done|done].
Qed.

(** ** file.c *)

Lemma tr_filealloc d o ws :
  triple (K := K) (J := J) (fa d o ws) filealloc (fun r s =>
    match r with Some i => (i < NFILE)%nat /\ fa (fun g => d g + ind i g) o ws s | None => fa d o ws s end).
Proof.
  intros s H. unfold filealloc. rewrite (bind_ok get _ _ _ _ eq_refl).
  destruct (list_find _ (kn_files s)) as [[i x]|] eqn:E; [|done].
  apply list_find_Some in E as (Hi & Hx & _). pose proof (lookup_lt_Some _ _ _ Hi) as Hl.
  rewrite (fa_len _ _ _ _ H) in Hl. cbn. split; [done|]. apply (fa_modf d); [done|].
  intros j Hj. pose proof (fa_ref _ _ _ _ H j Hj) as Hr. unfold ind. case_decide as Ej; [subst j|].
  - rewrite (list_lookup_total_correct _ _ _ Hi), Hx in Hr. rewrite decide_True by done. cbn. lia.
  - rewrite decide_False by done. lia.
Qed.

Lemma zero_ref s f : length (kn_files s) = NFILE -> 1 <= f_ref (kn_files s !!! f) -> (f < NFILE)%nat.
Proof.
  intros Hl Hr. destruct (decide (f < NFILE)%nat) as [|Hn]; [done|]. exfalso.
  rewrite list_lookup_total_alt, lookup_ge_None_2 in Hr by lia. cbn in Hr. lia.
Qed.

Lemma fa_ref_to d o ws s f n d' :
  fa d o ws s -> (f < NFILE)%nat -> (forall g, (g < NFILE)%nat -> d' g = if decide (g = f) then n - held o f else d g) ->
  fa d' o ws (MkKernel (kn_core s) (kn_fs s) (<[f := set_fref n (kn_files s !!! f)]> (kn_files s))).
Proof.
  intros H Hf Hd. apply (fa_modf d _ _ _ f (set_fref n)); [done|]. intros i Hi. rewrite Hd by done.
  case_decide as E; [subst; cbn; lia|]. by apply (fa_ref _ _ _ _ H).
Qed.

Lemma tr_filedup d o ws f :
  triple (K := K) (J := J) (fa d o ws) (filedup f) (fun r s =>
    r = f /\ (f < NFILE)%nat /\ fa (fun g => d g + ind f g) o ws s).
Proof.
  intros s H. unfold filedup. rewrite (bind_ok (getf f) _ _ _ _ eq_refl).
  destruct (Z.ltb_spec (f_ref (kn_files s !!! f)) 1) as [|Hr]; [done|]. cbn.
  pose proof (zero_ref s f (fa_len _ _ _ _ H) Hr) as Hf. split_and!; try done. apply (fa_ref_to d); try done.
  intros g Hg. pose proof (fa_ref _ _ _ _ H f Hf). unfold ind. repeat case_decide; subst; try done; lia.
Qed.

Lemma tr_fileclose d o ws f :
  triple (K := K) (J := J) (fa d o ws) (fileclose f) (fun _ => fa (fun g => d g - ind f g) o ws).
Proof.
  intros s H. unfold fileclose. rewrite (bind_ok (getf f) _ _ _ _ eq_refl).
  destruct (Z.ltb_spec (f_ref (kn_files s !!! f)) 1) as [|Hr]; [done|].
  pose proof (zero_ref s f (fa_len _ _ _ _ H) Hr) as Hf. set (r := f_ref (kn_files s !!! f)) in *.
  rewrite (bind_ok (modf _ _) _ _ _ _ eq_refl). set (s1 := MkKernel _ _ _).
  assert (H1 : fa (fun g => d g - ind f g) o ws s1).
  { apply (fa_ref_to d); try done. intros g Hg. pose proof (fa_ref _ _ _ _ H f Hf). fold r in H0.
    unfold ind. repeat case_decide; subst; try done; lia. }
  rewrite Z.gtb_ltb. destruct (Z.ltb_spec 0 (r - 1)) as [|Hr1]; [done|].
  rewrite (bind_ok (getf f) _ _ _ _ eq_refl). set (ff := kn_files s1 !!! f).
  rewrite (bind_ok (modf _ _) _ _ _ _ eq_refl). set (s2 := MkKernel _ _ _).
  assert (H2 : fa (fun g => d g - ind f g) o ws s2).
  { apply (fa_ref_to (fun g => d g - ind f g)); try done. intros g Hg. pose proof (fa_ref _ _ _ _ H f Hf). fold r in H0.
    unfold ind. repeat case_decide; subst; try done; lia. }
  clearbody s2 ff. clear s1 H1. revert s2 H2. refine (_ : triple _ _ _).
  assert (X : forall (m : M kern unit), fkeeps m -> triple (fa (fun g => d g - ind f g) o ws) m
    (fun _ => fa (fun g => d g - ind f g) o ws)) by (intros m Hm; apply Hm). apply X.
  apply fk_bind; [by apply fk_modf|]. intros _. case_match; eauto with fkeep.
  - apply fk_core, ck_pipeclose.
  - unfold kbegin_op, kend_op. repeat (apply fk_bind; [apply fk_fs|intros _]). apply fk_fs.
Qed.
End refs.
