(* ===== verification/FileClaims.v ===== *)
(** * Every system call keeps the reference counts

    [FileSpec] applied to all the system calls: most leave descriptors and
    counts alone ([fkeeps]); [fork], [exit], [dup], [open], [close] and [pipe]
    move references between the file table and the descriptor tables. *)

From stdpp Require Import base numbers list gmap sets strings.
From Stdlib Require Import ZArith Lia.
From S2P Require Import Prelude CStrings Frames Kalloc Vm VmSpec Disk Blocks Bio Log Journal Storage Fs FsSpec.
From S2P Require Import Ptable PtableInv PtableClaims Pipe File Proc ProcSteps Syscall Sysfile Exec Trap FileSpec.

Open Scope Z_scope.

Section calls.
Context {K J : Type} `{!Frames K, !Journal J, !Transactions J}.
Context (dv : devops (J := J)) (trapret forkret_addr data pipe_name : Z).

Notation kern := (kernel (K := K) (J := J)).
Notation triple := (triple (K := K) (J := J)).
Notation fkeeps := (fkeeps (K := K) (J := J)).

(** ** Calls that leave the files alone *)

Lemma fk_myproc i : fkeeps (myproc i).
Proof. apply fk_pt, pk_reads. Qed.

Lemma fk_begin_op : fkeeps kbegin_op.
Proof. apply fk_fs. Qed.
Lemma fk_end_op : fkeeps kend_op.
Proof. apply fk_fs. Qed.

Hint Resolve fk_myproc fk_begin_op fk_end_op : fkeep.

(** Walk through a routine; [fk] closes the calls inside. *)
Ltac fkeep fk :=
  repeat lazymatch goal with
  | |- FileSpec.fkeeps (mbind _ _) => apply fk_bind; [|intros ?]
  | |- FileSpec.fkeeps (when _ _) => apply fk_when
  | |- FileSpec.fkeeps (match _ with _ => _ end) => case_match
  | |- FileSpec.fkeeps _ => first [solve [eauto with fkeep] | fk]
  end.

Lemma fk_from_user me va n : fkeeps (from_user me va n).
Proof. unfold from_user. fkeep fail. Qed.
Lemma fk_to_user me va bs : fkeeps (to_user me va bs).
Proof. unfold to_user. fkeep fail. Qed.
Hint Resolve fk_from_user fk_to_user : fkeep.

Lemma fk_fetchint me a : fkeeps (fetchint me a).
Proof. unfold fetchint. fkeep fail. Qed.
Lemma fk_fetchstr me a : fkeeps (fetchstr me a).
Proof. unfold fetchstr. fkeep fail. Qed.
Hint Resolve fk_fetchint fk_fetchstr : fkeep.

Lemma fk_argint me n : fkeeps (argint me n).
Proof. unfold argint. fkeep fail. Qed.
Hint Resolve fk_argint : fkeep.

Lemma fk_argptr me n size : fkeeps (argptr me n size).
Proof. unfold argptr. fkeep fail. Qed.
Lemma fk_argstr me n : fkeeps (argstr me n).
Proof. unfold argstr. fkeep fail. Qed.
Lemma fk_argfd me n : fkeeps (argfd me n).
Proof. unfold argfd, fd_file. fkeep fail. Qed.
Hint Resolve fk_argptr fk_argstr fk_argfd : fkeep.

Lemma fk_modp i f : (forall p, p_ofile (f p) = p_ofile p) -> (forall p, idle (f p) -> idle p) -> fkeeps (pt (modp i f)).
Proof. intros H1 H2. by apply fk_pt, pk_modp. Qed.

Lemma fk_switchuvm me : fkeeps (switchuvm me).
Proof. unfold switchuvm. fkeep fail. Qed.
Hint Resolve fk_switchuvm : fkeep.

Lemma fk_growproc me n : fkeeps (growproc me n).
Proof. unfold growproc. fkeep ltac:(by apply fk_modp). Qed.

Lemma fk_cwd_of me path : fkeeps (cwd_of me path).
Proof. unfold cwd_of. fkeep fail. Qed.
Hint Resolve fk_cwd_of : fkeep.

Lemma fk_knamei me path : fkeeps (knamei dv me path).
Proof. unfold knamei. fkeep fail. Qed.
Lemma fk_knameiparent me path : fkeeps (knameiparent dv me path).
Proof. unfold knameiparent. fkeep fail. Qed.
Lemma fk_inode_at i : fkeeps (inode_at i).
Proof. apply fk_fs. Qed.
Lemma fk_lock_inode i : fkeeps (lock_inode i).
Proof. apply fk_fs. Qed.
Lemma fk_unlock_inode i : fkeeps (unlock_inode i).
Proof. apply fk_fs. Qed.
Lemma fk_unlockput i : fkeeps (unlockput i).
Proof. apply fk_fs. Qed.
Hint Resolve fk_knamei fk_knameiparent fk_inode_at fk_lock_inode fk_unlock_inode fk_unlockput : fkeep.

Lemma fk_create me path ty ma mi : fkeeps (create dv me path ty ma mi).
Proof. unfold create. fkeep fail. Qed.
Lemma fk_link_bad ip : fkeeps (link_bad ip).
Proof. unfold link_bad. fkeep fail. Qed.
Lemma fk_unlink_bad dp : fkeeps (unlink_bad dp).
Proof. unfold unlink_bad. fkeep fail. Qed.
Lemma fk_made o : fkeeps (made o).
Proof. unfold made. fkeep fail. Qed.
Hint Resolve fk_create fk_link_bad fk_unlink_bad fk_made : fkeep.

Lemma fk_link me : fkeeps (sys_link dv me).
Proof. unfold sys_link, link_call. fkeep fail. Qed.
Lemma fk_unlink me : fkeeps (sys_unlink dv me).
Proof. unfold sys_unlink, unlink_call. fkeep fail. Qed.
Lemma fk_mkdir me : fkeeps (sys_mkdir dv me).
Proof. unfold sys_mkdir. fkeep fail. Qed.
Lemma fk_mknod me : fkeeps (sys_mknod dv me).
Proof. unfold sys_mknod. fkeep fail. Qed.
Lemma fk_chdir me : fkeeps (sys_chdir dv me).
Proof. unfold sys_chdir, chdir_call. fkeep ltac:(by apply fk_modp). Qed.

Lemma fk_loaduvm pgdir addr ip off sz : fkeeps (loaduvm dv pgdir addr ip off sz).
Proof.
  unfold loaduvm. case_match; [eauto with fkeep|]. generalize (Z.to_nat ((sz + PGSIZE - 1) / PGSIZE)) as n. intros n.
  generalize 0 as i. induction n as [|n IH]; intros i; cbn [loaduvm_loop]; fkeep ltac:(apply IH).
Qed.
Hint Resolve fk_loaduvm : fkeep.

Lemma fk_load_segments n pgdir ip : forall off sz, fkeeps (load_segments dv n pgdir ip off sz).
Proof. induction n as [|n IH]; intros off sz; cbn [load_segments]; fkeep ltac:(apply IH). Qed.

Lemma fk_push_args pgdir argv : forall argc sp us, fkeeps (push_args pgdir argv argc sp us).
Proof. induction argv as [|x argv IH]; intros argc sp us; cbn [push_args]; fkeep ltac:(apply IH). Qed.
Hint Resolve fk_load_segments fk_push_args : fkeep.

Lemma fk_exec_bad pgdir ip : fkeeps (exec_bad pgdir ip).
Proof. unfold exec_bad. fkeep fail. Qed.
Lemma fk_exec_stack pgdir sz argv : fkeeps (exec_stack pgdir sz argv).
Proof. unfold exec_stack. fkeep fail. Qed.
Lemma fk_exec_commit me path pgdir sz e sp : fkeeps (exec_commit me path pgdir sz e sp).
Proof. unfold exec_commit. fkeep ltac:(by apply fk_modp). Qed.
Hint Resolve fk_exec_bad fk_exec_stack fk_exec_commit : fkeep.

Lemma fk_exec me path argv : fkeeps (exec dv data me path argv).
Proof. unfold exec. fkeep fail. Qed.

Lemma fk_fetch_argv n me uargv : forall i, fkeeps (fetch_argv n me uargv i).
Proof. induction n as [|n IH]; intros i; cbn [fetch_argv]; fkeep ltac:(apply IH). Qed.
Hint Resolve fk_exec fk_fetch_argv : fkeep.

Lemma fk_sys_exec me : fkeeps (sys_exec dv data me).
Proof. unfold sys_exec. fkeep fail. Qed.

Lemma fk_filestat f : fkeeps (filestat f).
Proof. unfold filestat. fkeep fail. Qed.
Lemma fk_fileread c me f n : fkeeps (fileread dv c me f n).
Proof. unfold fileread. fkeep ltac:(first [by apply fk_modf | apply fk_core, ck_piperead]). Qed.

Lemma fk_filewrite_loop n f src : forall i k, fkeeps (filewrite_loop dv n f src i k).
Proof. induction n as [|n IH]; intros i k; cbn [filewrite_loop]; fkeep ltac:(first [by apply fk_modf | apply IH]). Qed.
Hint Resolve fk_filestat fk_fileread fk_filewrite_loop : fkeep.

Lemma fk_filewrite c me f src n : fkeeps (filewrite dv c me f src n).
Proof. unfold filewrite. fkeep ltac:(apply fk_core, ck_pipewrite). Qed.
Hint Resolve fk_filewrite fk_growproc : fkeep.

Lemma fk_read c me : fkeeps (sys_read dv c me).
Proof. unfold sys_read. fkeep fail. Qed.
Lemma fk_write c me : fkeeps (sys_write dv c me).
Proof. unfold sys_write. fkeep fail. Qed.
Lemma fk_fstat me : fkeeps (sys_fstat me).
Proof. unfold sys_fstat. fkeep fail. Qed.
Lemma fk_sbrk me : fkeeps (sys_sbrk me).
Proof. unfold sys_sbrk. fkeep fail. Qed.
Lemma fk_kill me : fkeeps (sys_kill me).
Proof. unfold sys_kill. fkeep ltac:(apply fk_pt, pk_kill). Qed.
Lemma fk_getpid me : fkeeps (sys_getpid me).
Proof. unfold sys_getpid. fkeep fail. Qed.
Lemma fk_uptime : fkeeps sys_uptime.
Proof. unfold sys_uptime. fkeep ltac:(apply fk_pt, pk_reads). Qed.
Lemma fk_sys_sleep c me : fkeeps (sys_sleep c me).
Proof. unfold sys_sleep, sleep_until. fkeep ltac:(apply fk_pt; first [apply pk_reads | apply pk_sleep]). Qed.

(** A slot that is a zombie stays so while memory is freed, and is given back. *)
Definition zombie_at (d : nat -> Z) o ws i (s : kern) : Prop :=
  fa d o ws s /\ p_state (slot (table s) i) = ZOMBIE.

Lemma tr_zombie_kmem {A} d o ws i (m : M K A) :
  triple (zombie_at d o ws i) (kmem_op m) (fun _ => zombie_at d o ws i).
Proof.
  intros s [H Hz]. pose proof (fk_kmem (J := J) m d o ws s H) as X. pose proof (quiet_kmem (J := J) m s) as Y.
  destruct (kmem_op m s); try done. split; [done|]. by rewrite Y.
Qed.

Lemma tr_zombie_clear d o ws i f :
  (forall p, p_ofile (f p) = p_ofile p) -> triple (zombie_at d o ws i) (pt (modp i f)) (fun _ => fa d o ws).
Proof.
  intros Hf s [H Hz]. change (fa d o ws (MkKernel (MkCore (co_mem (kn_core s))
    (set_procs (<[i := f (slot (table s) i)]> (procs (table s))) (table s))) (kn_fs s) (kn_files s))).
  apply fa_pt; [done|]. apply pfr_modp. split; [apply Hf|]. intros _. by right.
Qed.

Lemma tr_myproc (P : kern -> Prop) i : triple P (myproc i) (fun p s => P s /\ p = slot (table s) i).
Proof. intros s H. by destruct s as [[] ? ?]. Qed.

(** What [wait] and [wait_stat] share: [f] clears the slot of the zombie found. *)
Lemma fk_reap {A} c me (f : proc -> proc) (r : proc -> A) (none : proc -> A) :
  (forall p, p_ofile (f p) = p_ofile p) ->
  fkeeps (sc ← pt (reads (fun t => wait_scan me (procs t) 0 false));
    match sc with
    | Zombie i =>
        p ← myproc i;
        kmem_op (kfree (p_kstack p));;
        kmem_op (freevm (p_pgdir p));;
        pt (modp i f);;
        mret (r p)
    | NoZombie havekids =>
        p ← myproc me;
        if negb havekids || negb (p_killed p =? 0) then mret (none p)
        else pt (Ptable.sleep c me (ChanProc me));; sleep_on (ChanProc me)
    end).
Proof.
  intros Hf d o ws s H. assert (E : pt (reads (fun t => wait_scan me (procs t) 0 false)) s
    = Ok (wait_scan me (procs (table s)) 0 false) s) by (by destruct s as [[] ? ?]).
  rewrite (bind_ok _ _ _ _ _ E). destruct (wait_scan me (procs (table s)) 0 false) as [i|hk] eqn:Es.
  - apply wait_scan_zombie in Es as (n & p & -> & Hp & _ & Hz). cbn [Nat.add].
    assert (Z : zombie_at d o ws n s).
    { split; [done|]. unfold slot. by rewrite (list_lookup_total_correct _ _ _ Hp). }
    revert Z. clear H E Hp. generalize s. refine (_ : triple _ _ _).
    eapply tr_bind; [apply tr_myproc|]. intros q.
    eapply tr_bind; [eapply tr_conseq; [apply tr_zombie_kmem|by intros ? []|done]|]. intros ?. eapply tr_bind; [apply tr_zombie_kmem|]. intros ?.
    eapply tr_bind; [by apply tr_zombie_clear|]. intros ?. by apply tr_ret.
  - revert H. generalize s. refine (_ : triple _ _ _).
    enough (X : forall (m : M kern A), fkeeps m -> triple (fa d o ws) m (fun _ => fa d o ws)).
    { apply X. fkeep ltac:(apply fk_pt, pk_sleep). } intros m Hm. apply Hm.
Qed.

Lemma fk_wait c me : fkeeps (wait c me).
Proof. apply (fk_reap c me clear_slot p_pid (fun _ => -1)). done. Qed.

Lemma fk_wait_stat c me old : fkeeps (wait_stat c me old).
Proof.
  apply (fk_reap c me clear_slot_stat
    (fun p => MkWstat (s32 (p_retime p)) (s32 (p_rutime p)) (s32 (p_stime p)) (p_pid p) (p_pid p))
    (fun _ => MkWstat (ws_wtime old) (ws_rtime old) (ws_iotime old) (-1) (-1))). done.
Qed.
Hint Resolve fk_wait fk_wait_stat : fkeep.

Lemma fk_sys_wait_stat c me : fkeeps (sys_wait_stat c me).
Proof. unfold sys_wait_stat. fkeep fail. Qed.

(** ** Descriptors *)

Lemma tr_ext {A} (P : kern -> Prop) (m m' : M kern A) Q : (forall s, m s = m' s) -> triple P m' Q -> triple P m Q.
Proof. intros E H s Hs. rewrite E. by apply H. Qed.

Lemma tr_ex {A X} (P : X -> kern -> Prop) (m : M kern A) Q :
  (forall x, triple (P x) m Q) -> triple (fun s => exists x, P x s) m Q.
Proof. intros H s [x Hx]. by apply (H x). Qed.

Lemma tr_pure {A} (X : Prop) (P : kern -> Prop) (m : M kern A) Q : (X -> triple P m Q) -> triple (fun s => X /\ P s) m Q.
Proof. intros H s [Hx Hp]. by apply H. Qed.

Lemma tr_facts {A} (X : Prop) (P : kern -> Prop) (m : M kern A) Q :
  (forall s, P s -> X) -> (X -> triple P m Q) -> triple P m Q.
Proof. intros HX H s Hp. exact (H (HX s Hp) s Hp). Qed.

Lemma tr_keep {A} d o ws (m : M kern A) (Q : A -> kern -> Prop) :
  fkeeps m -> (forall a s, fa d o ws s -> Q a s) -> triple (fa d o ws) m Q.
Proof. intros H HQ. eapply tr_conseq; [apply H|done|done]. Qed.

(** The descriptor and the file that [argfd] finds are there. *)
Lemma tr_argfd d o ws me n : me ∈ ws ->
  triple (fa d o ws) (argfd me n) (fun r s => fa d o ws s /\ forall fd f, r = Some (fd, f) ->
    exists l, o !! me = Some l /\ l !! fd = Some (Some f) /\ (f < NFILE)%nat).
Proof.
  intros Hme. unfold argfd. eapply tr_bind; [apply fk_argint|]. intros [fd|]; [|by apply tr_ret].
  eapply tr_bind; [apply tr_myproc|]. intros p s [H ->]. rewrite Z.geb_leb.
  destruct (Z.ltb_spec fd 0), (Z.leb_spec (Z.of_nat NOFILE) fd); cbn [orb]; try done.
  destruct (fa_ws _ _ _ _ H me Hme) as [Hl _]. pose proof (fa_lookup _ _ _ _ me H Hl) as Ho.
  set (l := p_ofile (slot (table s) me)) in *. destruct (fa_wfo _ _ _ _ H me l Ho) as [Hlen Hr].
  destruct (lookup_lt_is_Some_2 l (Z.to_nat fd)) as [x Hx]; [rewrite Hlen; lia|].
  rewrite (list_lookup_total_correct _ _ _ Hx). destruct x as [f|]; [|done]. cbn. split; [done|].
  intros fd' f' [= <- <-]. exists l. split_and!; try done. by apply (Hr (Z.to_nat fd)).
Qed.

Lemma tr_fdalloc d o ws me f : me ∈ ws -> (f < NFILE)%nat ->
  triple (fa d o ws) (fdalloc me f) (fun r s =>
    match r with
    | Some fd => exists l, o !! me = Some l /\ l !! fd = Some None /\
        fa (fun g => d g - ind f g) (<[me := <[fd := Some f]> l]> o) ws s
    | None => fa d o ws s
    end).
Proof.
  intros Hme Hf. unfold fdalloc. eapply tr_bind; [apply tr_myproc|]. intros p.
  apply (tr_facts (o !! me = Some (p_ofile p))).
  { intros s [H ->]. apply (fa_lookup _ _ _ _ me H). by apply (fa_ws _ _ _ _ H). }
  intros Ho. apply (tr_conseq (fa d o ws) _ _ (fun r s =>
    match r with
    | Some fd => exists l, o !! me = Some l /\ l !! fd = Some None /\
        fa (fun g => d g - ind f g) (<[me := <[fd := Some f]> l]> o) ws s
    | None => fa d o ws s
    end)); [|by intros ? []|done].
  destruct (list_find _ (p_ofile p)) as [[fd x]|] eqn:E; [|by apply tr_ret].
  apply list_find_Some in E as (Hx & -> & _).
  eapply tr_bind; [apply (tr_set_ofile d o ws me fd _ None (Some f) Ho Hx)|].
  - intros f' [= <-]. done.
  - intros u. apply tr_ret. intros s' H'. exists (p_ofile p). split_and!; try done.
    eapply fa_ext; [|exact H']. intros g _. cbn. lia.
Qed.

(** Counts and descriptors agree. *)
Definition fok ws (s : kern) : Prop := exists o, fa (fun _ => 0) o ws s.

Lemma fok_keep {A} ws (m : M kern A) : fkeeps m -> triple (fok ws) m (fun _ => fok ws).
Proof. intros H. apply tr_ex. intros o. apply tr_keep; [done|]. intros a s Hs. by exists o. Qed.

Lemma fok_intro d o ws s : (forall g, (g < NFILE)%nat -> d g = 0) -> fa d o ws s -> fok ws s.
Proof. intros Hd H. exists o. eapply fa_ext; [|exact H]. intros g Hg. by rewrite Hd. Qed.

(** Finish when the references in hand are all accounted for. *)
Ltac settled := apply tr_ret; intros ? ?; eapply fok_intro; [|eassumption]; intros ? _; cbn; lia.

Lemma tr_sys_dup ws me : me ∈ ws -> triple (fok ws) (sys_dup me) (fun _ => fok ws).
Proof.
  intros Hme. apply tr_ex. intros o. unfold sys_dup, dup_file_fd. eapply tr_bind; [by apply tr_argfd|].
  intros [[fd f]|]; [|apply tr_ret; intros s [H _]; by exists o].
  intros s [H Hr]. destruct (Hr fd f eq_refl) as (l & Ho & Hl & Hf). clear Hr. revert s H. refine (_ : triple _ _ _). cbn [snd].
  eapply tr_bind; [by apply tr_fdalloc|]. intros [fd'|]; [|settled].
  apply tr_ex. intros l'. do 2 (apply tr_pure; intros ?). eapply tr_bind; [apply tr_filedup|]. intros f'.
  do 2 (apply tr_pure; intros ?). settled.
Qed.

Lemma tr_sys_close ws me : me ∈ ws -> triple (fok ws) (sys_close me) (fun _ => fok ws).
Proof.
  intros Hme. apply tr_ex. intros o. unfold sys_close, close_file_fd. eapply tr_bind; [by apply tr_argfd|].
  intros [[fd f]|]; [|apply tr_ret; intros s [H _]; by exists o].
  intros s [H Hr]. destruct (Hr fd f eq_refl) as (l & Ho & Hl & Hf). clear Hr. revert s H. refine (_ : triple _ _ _). cbn [fst snd].
  eapply tr_bind; [by apply (tr_set_ofile _ o ws me fd l (Some f) None)|]. intros ?.
  eapply tr_bind; [apply tr_fileclose|]. intros ?. settled.
Qed.

Lemma tr_open_file ws me ip omode : me ∈ ws -> triple (fok ws) (open_file me ip omode) (fun _ => fok ws).
Proof.
  intros Hme. apply tr_ex. intros o. unfold open_file. eapply tr_bind; [apply tr_filealloc|].
  intros [f|]; [apply tr_pure; intros Hf|].
  - eapply tr_bind; [by apply tr_fdalloc|]. intros [fd|].
    + apply tr_ex. intros l. do 2 (apply tr_pure; intros ?). do 2 (eapply tr_bind; [apply fk_fs|intros ?]).
      eapply tr_bind; [by apply fk_modf|]. intros ?. settled.
    + eapply tr_bind; [apply tr_fileclose|]. intros ?. do 2 (eapply tr_bind; [apply fk_fs|intros ?]). settled.
  - do 2 (eapply tr_bind; [apply fk_fs|intros ?]). settled.
Qed.

(** Through a call that leaves the files alone. *)
Ltac step := eapply tr_bind; [apply fok_keep; solve [eauto with fkeep]|intros ?].
Ltac stop := apply fok_keep; solve [eauto with fkeep].

Lemma tr_sys_open ws me : me ∈ ws -> triple (fok ws) (sys_open dv me) (fun _ => fok ws).
Proof.
  intros Hme. unfold sys_open, open_call. eapply tr_bind; [apply fok_keep; eauto with fkeep|]. intros [path|]; [|stop].
  eapply tr_bind; [apply fok_keep; eauto with fkeep|]. intros [omode|]; [|stop]. step. case_match.
  - eapply tr_bind; [apply fok_keep; eauto with fkeep|]. intros [ip|]; [by apply tr_open_file|]. step. stop.
  - eapply tr_bind; [apply fok_keep; eauto with fkeep|]. intros [ip|]; [|step; stop].
    do 2 step. case_match; [do 2 step; stop|]. by apply tr_open_file.
Qed.

Lemma tr_pipealloc d o ws :
  triple (fa d o ws) (pipealloc pipe_name) (fun r s =>
    match r with
    | Some (a, b) => (a < NFILE)%nat /\ (b < NFILE)%nat /\ fa (fun g => d g + ind a g + ind b g) o ws s
    | None => fa d o ws s
    end).
Proof.
  unfold pipealloc. eapply tr_bind; [apply tr_filealloc|]. intros [a|]; [|by apply tr_ret].
  apply tr_pure. intros Ha. eapply tr_bind; [apply tr_filealloc|]. intros [b|].
  - apply tr_pure. intros Hb. eapply tr_bind; [apply fk_kmem|]. intros p. case_match.
    + cbn [close_if]. eapply tr_bind; [apply tr_fileclose|]. intros ?. eapply tr_bind; [apply tr_fileclose|]. intros ?.
      apply tr_ret. intros s H'. eapply fa_ext; [|exact H']. intros g _. cbn. lia.
    + eapply tr_bind; [apply fk_core, ck_pipe_init|]. intros ?. do 2 (eapply tr_bind; [by apply fk_modf|intros ?]).
      by apply tr_ret.
  - cbn [close_if]. eapply tr_bind; [apply tr_fileclose|]. intros ?.
    apply tr_ret. intros s H'. eapply fa_ext; [|exact H']. intros g _. cbn. lia.
Qed.

Lemma tr_pipe_fds ws me : me ∈ ws -> triple (fok ws) (pipe_fds me pipe_name) (fun _ => fok ws).
Proof.
  intros Hme. apply tr_ex. intros o. unfold pipe_fds.
  eapply tr_bind; [apply tr_pipealloc|]. intros [[rf wf]|]; [|settled]. do 2 (apply tr_pure; intros ?).
  eapply tr_bind; [by apply tr_fdalloc|]. intros [fd0|].
  - apply tr_ex. intros l. do 2 (apply tr_pure; intros ?). eapply tr_bind; [by apply tr_fdalloc|]. intros [fd1|].
    + apply tr_ex. intros l'. do 2 (apply tr_pure; intros ?). settled.
    + assert (Hl : o !! me = Some l) by done. pose proof (lookup_lt_Some _ _ _ Hl) as Hlt.
      eapply tr_bind; [apply (tr_set_ofile _ _ ws me fd0 (<[fd0 := Some rf]> l) (Some rf) None)|].
      * by apply list_lookup_insert_eq.
      * apply list_lookup_insert_eq. by eapply lookup_lt_Some.
      * done.
      * intros ?. do 2 (eapply tr_bind; [apply tr_fileclose|intros ?]). settled.
  - do 2 (eapply tr_bind; [apply tr_fileclose|intros ?]). settled.
Qed.

Lemma tr_sys_pipe ws me : me ∈ ws -> triple (fok ws) (sys_pipe me pipe_name) (fun _ => fok ws).
Proof.
  intros Hme. unfold sys_pipe. eapply tr_bind; [apply fok_keep; eauto with fkeep|]. intros [fd|]; [|stop].
  eapply tr_bind; [by apply tr_pipe_fds|]. intros [fds|]; [|stop]. do 2 (eapply tr_bind; [apply fok_keep; apply fk_to_user|intros ?]). stop.
Qed.

(** ** fork and exit *)

(** The slot found is in use from now on and has no descriptors. *)
Definition fresh (o : list fds) (ws : list nat) (i : nat) : Prop := i ∉ ws /\ exists l, o !! i = Some l /\ no_files l.

Lemma alloc_slot_frame t :
  match alloc_slot t with
  | Ok (Some i) t' => pfr t t' /\ (i < length (procs t))%nat /\ p_state (slot t i) = UNUSED /\ p_state (slot t' i) = EMBRYO
  | Ok None t' => t' = t
  | _ => True
  end.
Proof.
  unfold alloc_slot. rewrite (bind_ok get _ _ _ _ eq_refl).
  destruct (find_unused (procs t) 0) as [i|] eqn:E; [|done].
  apply find_unused_Some in E as (n & p & -> & Hp & Hu). cbn [Nat.add].
  pose proof (lookup_lt_Some _ _ _ Hp) as Hl.
  assert (X : pkeeps (modp n (set_state EMBRYO);;
    if nextpid t =? 2 ^ 31 - 1 then undef "nextpid overflow" else
    modp n (set_pid (nextpid t));; modify (set_nextpid (nextpid t + 1));; mret (Some n))) by pkeep.
  specialize (X t). destruct (nextpid t =? 2 ^ 31 - 1); cbv [mbind M_bind modp modify mret M_ret undef] in *; [done|].
  split_and!; try done.
  - unfold slot. by rewrite (list_lookup_total_correct _ _ _ Hp).
  - unfold slot. cbn. rewrite list_lookup_total_insert_eq by (by rewrite length_insert). unfold slot. cbn.
    by rewrite list_lookup_total_insert_eq.
Qed.

Lemma tr_alloc_slot d o ws :
  triple (fa d o ws) (pt alloc_slot) (fun r s =>
    match r with Some i => fresh o ws i /\ fa d o (i :: ws) s | None => fa d o ws s end).
Proof.
  intros s H. pose proof (alloc_slot_frame (table s)) as X. unfold pt, incore, inpt, lift. fold (table s).
  destruct (alloc_slot (table s)) as [[i|] t| | | |]; try done.
  - destruct X as (Hp & Hl & Hu & He). pose proof (fa_pt _ _ _ s t H Hp) as H'.
    assert (Hlo : (i < length o)%nat) by (pose proof (f_equal length (fa_fds _ _ _ _ H)) as E; rewrite length_fmap in E; lia).
    assert (Hid : idle (slot (table s) i)) by (by left). split; [split|].
    + intros Hw. by destruct (fa_ws _ _ _ _ H i Hw).
    + exists (p_ofile (slot (table s) i)). split; [by apply (fa_lookup _ _ _ _ i H)|]. by apply (fa_idle _ _ _ _ H).
    + destruct H' as [H1 H2 H3 H4 H5 H6]. split; try done. intros j [->|Hj]%elem_of_cons; [|by apply H4].
      split; [done|]. intros [E|E]; cbn in E; congruence.
  - subst t. apply (fa_same _ _ _ s); done.
Qed.

Lemma tr_allocproc d o ws :
  triple (fa d o ws) (allocproc trapret forkret_addr) (fun r s =>
    match r with Some i => fresh o ws i /\ fa d o (i :: ws) s | None => fa d o ws s end).
Proof.
  unfold allocproc. eapply tr_bind; [apply tr_alloc_slot|]. intros [i|]; [|by apply tr_ret].
  apply tr_pure. intros Hf. eapply tr_bind; [apply fk_kmem|]. intros k. case_match.
  - eapply tr_bind.
    + eapply tr_conseq; [apply (tr_retire d o ws i)| |done]; [done|apply Hf| |].
      * intros l Hl. destruct Hf as (_ & l' & Hl' & Hn). by replace l with l' by congruence.
      * intros s Hs. eapply fa_sub; [|exact Hs]. set_solver +.
    + intros ?. by apply tr_ret.
  - do 3 (eapply tr_bind; [apply fk_kmem|intros ?]). eapply tr_bind; [apply fk_pt, pk_alloc_fields|]. intros ?.
    by apply tr_ret.
Qed.

(** The loop of [fork]: the child has the descriptors below [i]. *)
Definition dup_inv ws np (i : Z) (s : kern) : Prop :=
  exists o l, o !! np = Some l /\ (forall k x, i <= Z.of_nat k -> l !! k = Some x -> x = None) /\
    fa (fun _ => 0) o ws s.

Lemma tr_dup_file ws me np i : np ∈ ws -> 0 <= i < Z.of_nat NOFILE ->
  triple (dup_inv ws np i) (dup_file me np i) (fun _ => dup_inv ws np (i + 1)).
Proof.
  intros Hnp Hi. apply tr_ex. intros o. apply tr_ex. intros l. apply tr_pure. intros Ho. apply tr_pure. intros Hl.
  assert (Hnone : forall s : kern, fa (fun _ => 0) o ws s -> dup_inv ws np (i + 1) s).
  { intros s Hs. exists o, l. split_and!; try done. intros k x Hk. apply Hl. lia. }
  unfold dup_file. eapply tr_bind; [apply fk_myproc|]. intros p. case_match; [|by apply tr_ret].
  eapply tr_bind; [apply tr_filedup|]. intros f'. apply tr_pure. intros ->. apply tr_pure. intros Hf.
  apply (tr_facts (l !! Z.to_nat i = Some None)).
  { intros s Hs. destruct (fa_wfo _ _ _ _ Hs np l Ho) as [Hlen _].
    destruct (lookup_lt_is_Some_2 l (Z.to_nat i)) as [x Hx]; [rewrite Hlen; lia|].
    rewrite Hx. f_equal. apply (Hl (Z.to_nat i)); [lia|done]. }
  intros Hx. eapply tr_conseq; [apply (tr_set_ofile (fun g => 0 + ind n g) o ws np (Z.to_nat i) l None (Some n) Ho Hx)|done|].
  - intros f [= <-]. done.
  - intros u s Hs. exists (<[np := <[Z.to_nat i := Some n]> l]> o), (<[Z.to_nat i := Some n]> l). split_and!.
    + apply list_lookup_insert_eq. by eapply lookup_lt_Some.
    + intros k x Hk. rewrite list_lookup_insert_ne by lia. apply Hl. lia.
    + eapply fa_ext; [|exact Hs]. intros g _. cbn. lia.
Qed.

Lemma tr_fork ws me : triple (fok ws) (fork trapret forkret_addr data me) (fun _ => fok ws).
Proof.
  apply tr_ex. intros o. unfold fork. eapply tr_bind; [apply tr_allocproc|]. intros [np|]; [|settled].
  apply tr_pure. intros [Hw (l & Hl & Hn)]. eapply tr_bind; [apply fk_myproc|]. intros p.
  eapply tr_bind; [apply fk_kmem|]. intros pgdir. eapply tr_bind; [by apply fk_modp|]. intros ?. case_match.
  - eapply tr_bind; [apply fk_myproc|]. intros q. eapply tr_bind; [apply fk_kmem|]. intros ?.
    eapply tr_bind; [by apply fk_modp|]. intros ?. eapply tr_bind.
    + eapply tr_conseq; [apply (tr_retire (fun _ => 0) o ws np (set_state UNUSED))| |done]; [done|done| |].
      * intros l' Hl'. by replace l' with l by congruence.
      * intros s Hs. eapply fa_sub; [|exact Hs]. set_solver +.
    + intros ?. settled.
  - do 2 (eapply tr_bind; [by apply fk_modp|intros ?]). eapply tr_bind; [apply fk_myproc|]. intros q.
    do 2 (eapply tr_bind; [apply fk_kmem|intros ?]).
    eapply (tr_bind _ _ (fun _ => fok (np :: ws))).
    + eapply tr_conseq; [apply (tr_for (dup_inv (np :: ws) np) 0 (Z.of_nat NOFILE)); [lia|]| |].
      * intros i Hi. apply tr_dup_file; [set_solver +|done].
      * intros s Hs. exists o, l. split_and!; try done. intros k x _. apply Hn.
      * intros u s (o' & l' & _ & _ & Hs). by exists o'.
    + intros ?. eapply tr_bind.
      * apply fok_keep. fkeep ltac:(by apply fk_modp).
      * intros ?. eapply tr_bind; [apply fok_keep; by apply fk_modp|]. intros ?.
        eapply tr_bind; [apply fok_keep, fk_modp; [done|unfold idle; cbn; intuition congruence]|]. intros ?.
        apply tr_ret. intros s [o' Hs]. exists o'. eapply fa_sub; [|exact Hs]. set_solver +.
Qed.

(** The loop of [exit]: the descriptors below [i] are closed. *)
Definition close_inv ws me (i : Z) (s : kern) : Prop :=
  exists o l, o !! me = Some l /\ (forall k x, Z.of_nat k < i -> l !! k = Some x -> x = None) /\
    fa (fun _ => 0) o ws s.

Lemma tr_close_fd ws me i : 0 <= i < Z.of_nat NOFILE ->
  triple (close_inv ws me i) (close_fd me i) (fun _ => close_inv ws me (i + 1)).
Proof.
  intros Hi. apply tr_ex. intros o. apply tr_ex. intros l. apply tr_pure. intros Ho. apply tr_pure. intros Hl.
  unfold close_fd. eapply tr_bind; [apply tr_myproc|]. intros p.
  apply (tr_facts (exists x, l !! Z.to_nat i = Some x /\ p_ofile p !!! Z.to_nat i = x)).
  { intros s [Hs ->]. rewrite (fa_slot _ _ _ _ _ _ Hs Ho). destruct (fa_wfo _ _ _ _ Hs me l Ho) as [Hlen _].
    destruct (lookup_lt_is_Some_2 l (Z.to_nat i)) as [x Hx]; [rewrite Hlen; lia|]. exists x. split; [done|].
    by apply list_lookup_total_correct. }
  intros (x & Hx & ->). apply (tr_conseq (fa (fun _ => 0) o ws) _ _ (fun _ => close_inv ws me (i + 1)));
    [|by intros ? []|done].
  destruct x as [f|].
  - eapply tr_bind; [apply tr_fileclose|]. intros ?.
    eapply tr_conseq; [apply (tr_set_ofile (fun g => 0 - ind f g) o ws me (Z.to_nat i) l (Some f) None Ho Hx); done|done|].
    intros u s Hs. exists (<[me := <[Z.to_nat i := None]> l]> o), (<[Z.to_nat i := None]> l). split_and!.
    + apply list_lookup_insert_eq. by eapply lookup_lt_Some.
    + intros k y Hk Hy. destruct (decide (k = Z.to_nat i)) as [->|Hne].
      * rewrite list_lookup_insert_eq in Hy by (by eapply lookup_lt_Some). congruence.
      * rewrite list_lookup_insert_ne in Hy by done. apply (Hl k); [lia|done].
    + eapply fa_ext; [|exact Hs]. intros g _. cbn. lia.
  - apply tr_ret. intros s Hs. exists o, l. split_and!; try done. intros k y Hk Hy.
    destruct (decide (k = Z.to_nat i)) as [->|Hne]; [congruence|]. apply (Hl k); [lia|done].
Qed.

Lemma pt_bind {A B} (m : M ptable A) (k : A -> M ptable B) (s : kern) :
  pt (m ≫= k) s = (pt m ≫= (fun a => pt (k a))) s.
Proof. unfold pt, incore, inpt, lift, mbind, M_bind. destruct (m (co_pt (kn_core s))) as [a x| | | |]; done. Qed.

(** The last section: a process without descriptors becomes a zombie. *)
Lemma tr_exit_section c me o : (forall l, o !! me = Some l -> no_files l) ->
  triple (fa (fun _ => 0) o []) (pt (exit_section c me)) (fun _ => fa (fun _ => 0) o []).
Proof.
  intros Hn. unfold exit_section.
  eapply tr_ext; [apply pt_bind|]. eapply tr_bind; [apply fk_pt, pk_reads|]. intros p.
  eapply tr_ext; [apply pt_bind|]. eapply tr_bind; [apply fk_pt; case_match; [apply pk_wakeup|apply pk_ret]|]. intros ?.
  eapply tr_ext; [apply pt_bind|]. eapply tr_bind; [apply fk_pt, pk_get|]. intros t.
  eapply tr_ext; [apply pt_bind|]. eapply tr_bind.
  { apply fk_pt. case_match; [|apply pk_undef]. apply pk_for. intros i. apply pk_adopt. } intros ?.
  eapply tr_ext; [apply pt_bind|]. eapply tr_bind; [apply fk_pt, pk_reads|]. intros tk.
  eapply tr_ext; [apply pt_bind|]. eapply tr_bind; [by apply fk_modp|]. intros ?.
  eapply tr_ext; [apply pt_bind|]. eapply tr_bind; [apply tr_retire; [done|set_solver +|done]|]. intros ?.
  apply fk_pt, pk_sched.
Qed.

Lemma tr_exit c me ws : me ∈ ws -> triple (fok ws) (exit c me) (fun _ => fok []).
Proof.
  intros Hme. unfold exit. eapply tr_bind; [apply fok_keep, fk_pt, pk_reads|]. intros ini. case_decide; [done|].
  eapply (tr_bind _ _ (fun _ => close_inv ws me (Z.of_nat NOFILE))).
  { eapply tr_conseq; [apply (tr_for (close_inv ws me) 0 (Z.of_nat NOFILE)); [lia|apply tr_close_fd]| |done].
    intros s [o Hs]. destruct (fa_ws _ _ _ _ Hs me Hme) as [Hl _].
    exists o, (p_ofile (slot (table s) me)). split_and!; [by apply (fa_lookup _ _ _ _ me Hs)|lia|done]. }
  intros ?. apply tr_ex. intros o. apply tr_ex. intros l. apply tr_pure. intros Ho. apply tr_pure. intros Hl.
  apply (tr_facts (no_files l)).
  { intros s Hs k x Hx. destruct (fa_wfo _ _ _ _ Hs me l Ho) as [Hlen _]. apply (Hl k); [|done].
    apply lookup_lt_Some in Hx. lia. }
  intros Hn. eapply tr_bind; [apply fk_begin_op|]. intros ?. eapply tr_bind; [apply fk_myproc|]. intros p.
  eapply tr_bind; [case_match; eauto with fkeep|]. { apply fk_fs. } { apply fk_undef. }
  intros ?. eapply tr_bind; [apply fk_end_op|]. intros ?. eapply tr_bind; [by apply fk_modp|]. intros ?.
  eapply tr_conseq; [apply (tr_exit_section c me o)| |].
  - intros l' Hl'. by replace l' with l by congruence.
  - intros s Hs. eapply fa_sub; [|exact Hs]. set_solver +.
  - intros u s Hs. by exists o.
Qed.

(** ** The system calls *)

Lemma tr_returns ws (m : M kern Z) : triple (fok ws) m (fun _ => fok ws) -> triple (fok ws) (returns m) (fun _ => fok []).
Proof.
  intros H. eapply tr_bind; [exact H|]. intros r. apply tr_ret. intros s [o Hs]. exists o.
  eapply fa_sub; [|exact Hs]. set_solver +.
Qed.

Lemma tr_syscall_fn c me ws n : me ∈ ws ->
  triple (fok ws) (syscall_fn dv trapret forkret_addr data pipe_name c me n) (fun _ => fok []).
Proof.
  intros Hme. destruct n; cbn [syscall_fn]; try (apply tr_returns).
  all: try (apply fok_keep; first
    [ apply fk_wait | apply fk_read | apply fk_kill | apply fk_sys_exec | apply fk_fstat | apply fk_chdir
    | apply fk_getpid | apply fk_sbrk | apply fk_sys_sleep | apply fk_uptime | apply fk_write | apply fk_mknod
    | apply fk_unlink | apply fk_link | apply fk_mkdir | apply fk_sys_wait_stat ]).
  - apply tr_fork.
  - eapply tr_bind; [by apply (tr_exit c me ws)|]. intros ?. by apply tr_ret.
  - by apply tr_sys_pipe.
  - by apply tr_sys_dup.
  - by apply tr_sys_open.
  - by apply tr_sys_close.
Qed.
End calls.

(** C20: Reference counts are exact.  Where [f_ref] of every entry of the file
    table is the number of descriptors that name it, over all processes, and
    only slots in use have descriptors, every system call that returns (and
    [exit], which does not) leaves it so, on success and on every error
    path; in particular no descriptor ever names a closed file. *)
Theorem descriptors_counted {K J} `{!Frames K, !Journal J, !Transactions J}
    (dv : devops (J := J)) trapret forkret_addr data pipe_name c me n r (s s' : kernel (K := K) (J := J)) :
  fok [] s -> p_state (slot (table s) me) = RUNNING ->
  syscall_fn dv trapret forkret_addr data pipe_name c me n s = Ok r s' ->
  fok [] s' /\
  forall i k f, p_ofile (slot (table s') i) !! k = Some (Some f) -> 1 <= f_ref (kn_files s' !!! f).
Proof.
  intros [o H] Hr E.
  assert (Hw : fok [me] s).
  { exists o. destruct H as [H1 H2 H3 H4 H5 H6]. split; try done. intros i ->%list_elem_of_singleton. split.
    - rewrite <- H1, length_fmap. apply live_lt. congruence.
    - intros [X|X]; congruence. }
  pose proof (tr_syscall_fn dv trapret forkret_addr data pipe_name c me [me] n ltac:(set_solver +) s Hw) as X.
  rewrite E in X. split; [done|]. destruct X as [o' X]. intros i k f Hf.
  assert (Hi : (i < length o')%nat).
  { rewrite <- (fa_fds _ _ _ _ X), length_fmap. destruct (decide (i < length (procs (table s')))%nat); [done|].
    unfold slot in Hf. rewrite list_lookup_total_alt, (lookup_ge_None_2 (procs (table s')) i) in Hf by lia.
    by apply (lookup_replicate NOFILE None) in Hf as [? _]. }
  pose proof (fa_lookup _ _ _ _ i X Hi) as Ho. destruct (fa_wfo _ _ _ _ X i _ Ho) as [_ Hr'].
  rewrite (fa_ref _ _ _ _ X f (Hr' k f Hf)), Z.add_0_r. by eapply (held_elem o' i).
Qed.

Import Bio.Cache.

(** Nobody has a file open. *)
Lemma fok_no_files {K J} (s : kernel (K := K) (J := J)) :
  p_ofile <$> procs (table s) = replicate NPROC (replicate NOFILE None) -> kn_files s = replicate NFILE zero_file -> fok [] s.
Proof.
  intros Ho Hf. exists (replicate NPROC (replicate NOFILE None)). split; [done| | | | |].
  - intros i l [-> _]%lookup_replicate. split; [done|]. intros k f [? _]%lookup_replicate. done.
  - intros i Hi _. rewrite length_replicate in Hi. assert (Hl : (i < length (procs (table s)))%nat).
    { apply (f_equal length) in Ho. rewrite length_fmap, length_replicate in Ho. lia. }
    destruct (lookup_lt_is_Some_2 _ _ Hl) as [p Hp]. unfold slot. rewrite (list_lookup_total_correct _ _ _ Hp).
    apply (f_equal (fun l => l !! i)) in Ho. rewrite list_lookup_fmap, Hp in Ho. symmetry in Ho.
    apply lookup_replicate in Ho as [-> _]. by intros k x [-> _]%lookup_replicate.
  - intros i Hi. by apply elem_of_nil in Hi.
  - by rewrite Hf, length_replicate.
  - intros g Hg. rewrite Hf, lookup_total_replicate_2 by done.
    assert (X : forall n, held (replicate n (replicate NOFILE None)) g = 0) by (induction n as [|n IH]; [done|exact IH]).
    by rewrite X.
Qed.

(** A process of one page that calls [pipe] with the address 0x200 on its stack:
    page directory, page table, the page, kernel stack and one free frame. *)
Definition one_page_memory : mem :=
  store32 (store32 (store32 (store32 nul_mem 0x80400000 0x00401007) 0x80401000 0x00402007) 0x80402104 0x200)
    (0x80403000 + tf_esp) 0x100.

Definition one_page_proc : proc := set_own 4096 0x80400000 0x80403000 0x80403000 (replicate NOFILE None) None [] (slot table_forked 0).

Definition pipe_caller (j : lstate (bcache Memide.state)) : kernel (K := kmem) (J := lstate (bcache Memide.state)) :=
  MkKernel (MkCore (MkKmem one_page_memory false 0x80404000)
    (set_procs (<[0%nat := one_page_proc]> (procs table_forked)) table_forked)) (MkFs j demo_sb []) (replicate NFILE zero_file).

Definition pipe_called j := match syscall_fn no_dev 0 0 demo_end 0 0 0 SYS_pipe (pipe_caller j) with Ok r s => (r, s) | _ => (None, pipe_caller j) end.

Lemma descriptors_counted_witness :
  exists j s', syscall_fn no_dev 0 0 demo_end 0 0 0 SYS_pipe (pipe_caller j) = Ok (Some 0) s' /\ fok [] s' /\
    p_ofile (slot (table s') 0) !! 0%nat = Some (Some 0%nat) /\ f_ref (kn_files s' !!! 0%nat) = 1.
Proof.
  destruct demo_boot as (_ & _ & j & _). exists j, (pipe_called j).2.
  assert (E : syscall_fn no_dev 0 0 demo_end 0 0 0 SYS_pipe (pipe_caller j) = Ok (Some 0) (pipe_called j).2) by compute_step.
  destruct (descriptors_counted no_dev 0 0 demo_end 0 0 0 SYS_pipe (Some 0) (pipe_caller j) (pipe_called j).2) as [H _].
  - apply fok_no_files; compute_step.
  - compute_step.
  - exact E.
  - split; [exact E|]. split; [exact H|]. split; compute_step.
Defined.
