(* ===== verification/ForkSpec.v ===== *)
(** * fork makes a copy

    What [fork] does when it succeeds: the child is a copy of the caller in
    memory of its own, shares its open files and its directory, and will
    return 0. *)

From stdpp Require Import base numbers list gmap sets strings.
From Stdlib Require Import ZArith Lia.
From S2P Require Import Prelude CStrings Frames Kalloc Vm VmSpec VmUser VmCopy VmClaims.
From S2P Require Import Disk Blocks Bio Log Journal Storage Fs FsSpec Ptable PtableInv PtableClaims Pipe File Proc ProcSteps.
From S2P Require Import Syscall SyscallSpec FileSpec FileClaims.

Open Scope Z_scope.
Ltac Zify.zify_post_hook ::= Z.to_euclidean_division_equations.

Section fork.
Context {K J : Type} `{HK : !Frames K, HKo : !FramesOk K, !Journal J, !Transactions J}.
Context (trapret forkret_addr data : Z).

Notation kern := (kernel (K := K) (J := J)).
Implicit Types (s : kern) (F T D : gset Z) (t : ptable) (fl : list file).

(** Run a routine on memory that is known to return. *)
Ltac kstep E :=
  match goal with
  | |- context [(kmem_op ?m ≫= ?f) ?s] => rewrite (bind_ok (kmem_op m) f s _ _ (kmem_op_run m s _ _ E))
  end.

(** ** One slot of the table *)

Lemma pt_modp k t x fl i f : (i < length (procs t))%nat ->
  exists t', pt (modp i f) (MkKernel (MkCore k t) x fl) = Ok tt (MkKernel (J := J) (MkCore (K := K) k t') x fl) /\
    replaced t t' i (f (slot t i)) /\ same_env t t'.
Proof.
  intros Hi. destruct (modp_replaced i f t Hi) as [E R]. eexists. split; [|split; [exact R|done]]. reflexivity.
Qed.

(** The table is as it was but for slot [i], which is now [q]. *)
Definition only t t' i q : Prop := replaced t t' i q /\ same_env t t'.

Lemma only_step t t1 t2 i q q' : only t t1 i q -> replaced t1 t2 i q' /\ same_env t1 t2 -> only t t2 i q'.
Proof.
  intros [(A1 & A2 & A3) B] [(C1 & C2 & C3) D]. split; [|by eapply same_env_trans]. split_and!; [congruence|done|].
  intros j Hj. by rewrite C3, A3.
Qed.

(** ** Memory of one frame *)

Lemma write_frame (k : K) F v m :
  fr_rep k F -> v mod 4096 = 0 -> v ∉ F -> (forall x, x < v \/ v + 4096 <= x -> m x = fr_mem k x) ->
  (forall a, 0 <= m a < 256) -> fr_rep (fr_set m k) F /\ agree_off {[v]} (fr_mem k) (fr_mem (fr_set m k)).
Proof.
  intros R Hv HF Hm Hb.
  assert (A : agree_off {[v]} (fr_mem k) m) by (apply (agree_range _ _ _ v 4096); try done; by apply elem_of_singleton).
  destruct (fr_write k F {[v]} m R A) as [R' E]; [set_solver +HF|done|]. by rewrite E.
Qed.

Lemma wr_frame (k : K) F v p w :
  fr_rep k F -> v mod 4096 = 0 -> v ∉ F -> v <= p -> p + 4 <= v + 4096 ->
  exists k', wr p w k = Ok tt k' /\ fr_rep k' F /\ agree_off {[v]} (fr_mem k) (fr_mem k') /\
    fr_mem k' = store32 (fr_mem k) p w.
Proof.
  intros R Hv HF H1 H2. exists (fr_set (store32 (fr_mem k) p w) k). split; [done|].
  destruct (write_frame k F v (store32 (fr_mem k) p w) R Hv HF) as [R' A].
  - intros x Hx. apply store32_ne. lia.
  - apply store32_bytes. intros a. by apply (fr_bytes k F).
  - split_and!; try done. apply fr_mem_set.
Qed.

Lemma memset_frame (k : K) F v p c n :
  fr_rep k F -> v mod 4096 = 0 -> v ∉ F -> v <= p -> 0 <= n -> p + n <= v + 4096 -> v + 4096 < 2 ^ 32 ->
  exists k', memset p c n k = Ok tt k' /\ fr_rep k' F /\ agree_off {[v]} (fr_mem k) (fr_mem k').
Proof.
  intros R Hv HF H1 Hn H2 H3. exists (fr_set (KString.memset (fr_mem k) p c n) k). split; [done|].
  apply write_frame; try done.
  - intros x Hx. rewrite KString.memset_correct. unfold mset. rewrite ?u32_small by lia.
    rewrite (proj2 (andb_false_iff _ _)); [done|]. rewrite Z.leb_gt, Z.ltb_ge. lia.
  - apply memset_bytes. intros a. by apply (fr_bytes k F).
Qed.

(** ** allocproc *)

(** The new process, before [fork] fills it in. *)
Record new_proc t np v q : Prop := {
  np_state : p_state q = EMBRYO;
  np_pid : p_pid q = nextpid t;
  np_kstack : p_kstack q = v;
  np_tf : p_tf q = v + 4020;
  np_ofile : p_ofile q = p_ofile (slot t np)
}.

Lemma allocproc_ok k t x fl F np :
  fr_rep k F -> F <> ∅ -> find_unused (procs t) 0 = Some np -> nextpid t <> 2 ^ 31 - 1 ->
  exists v k1 t1 q, allocproc trapret forkret_addr (MkKernel (MkCore k t) x fl)
      = Ok (Some np) (MkKernel (J := J) (MkCore (K := K) k1 t1) x fl) /\
    v ∈ F /\ fr_rep k1 (F ∖ {[v]}) /\ agree_off {[v]} (fr_mem k) (fr_mem k1) /\
    (np < length (procs t))%nat /\ p_state (slot t np) = UNUSED /\ replaced t t1 np q /\ new_proc t np v q.
Proof.
  intros R HF Hu Hn. destruct (find_unused_Some _ _ _ Hu) as (n & p & En & Hp & Hs). cbn [Nat.add] in En. subst n.
  pose proof (lookup_lt_Some _ _ _ Hp) as Hl.
  assert (Es : slot t np = p) by (unfold slot; by apply list_lookup_total_correct).
  unfold allocproc. set (q1 := set_pid (nextpid t) (set_state EMBRYO (slot t np))).
  assert (X : exists t1, pt alloc_slot (MkKernel (MkCore k t) x fl) = Ok (Some np) (MkKernel (J := J) (MkCore (K := K) k t1) x fl) /\
    replaced t t1 np q1).
  { unfold pt, incore, inpt, lift, alloc_slot. cbn [kn_core co_pt]. rewrite (bind_ok get _ _ _ _ eq_refl), Hu.
    rewrite (bind_ok (modp _ _) _ _ _ _ eq_refl), (proj2 (Z.eqb_neq _ _) Hn). eexists. split; [reflexivity|].
    split; [cbn; by rewrite !length_insert|]. split.
    - unfold slot at 1. cbn. rewrite list_lookup_total_insert_eq by (by rewrite length_insert). unfold slot at 1. cbn.
      by rewrite list_lookup_total_insert_eq.
    - intros j Hj. unfold slot. cbn. by rewrite !list_lookup_total_insert_ne. }
  destruct X as (t1 & E1 & R1). rewrite (bind_ok _ _ _ _ _ E1).
  destruct (fr_kalloc k F R) as [[? _]|(v & k1 & Ek & Hv & Rk & Em)]; [done|].
  rewrite (bind_ok _ _ _ _ _ (kmem_op_run kalloc (MkKernel (MkCore k t1) x fl) v k1 Ek)).
  pose proof (frame_bounds v (fr_frames _ _ _ R Hv)) as [Hvr Hvm]. rewrite (proj2 (Z.eqb_neq v 0)) by lia.
  unfold KSTACKSIZE, sizeof_tf, sizeof_context, ctx_eip. cbv zeta.
  assert (HvF : v ∉ F ∖ {[v]}) by set_solver +.
  destruct (wr_frame k1 (F ∖ {[v]}) v (v + 4096 - 76 - 4) trapret Rk Hvm HvF) as (k2 & E2 & R2 & A2 & _); [lia|lia|].
  kstep E2.
  destruct (memset_frame k2 (F ∖ {[v]}) v (v + 4096 - 76 - 4 - 20) 0 20 R2 Hvm HvF) as (k3 & E3 & R3 & A3); [lia|lia|lia|lia|].
  kstep E3.
  destruct (wr_frame k3 (F ∖ {[v]}) v (v + 4096 - 76 - 4 - 20 + 16) forkret_addr R3 Hvm HvF) as (k4 & E4 & R4 & A4 & _); [lia|lia|].
  kstep E4.
  change (put_memory k4 _) with (MkKernel (J := J) (MkCore k4 t1) x fl).
  assert (Hl1 : (np < length (procs t1))%nat) by (destruct R1 as [-> _]; done).
  assert (Y : exists t2, pt (alloc_fields np v (v + 4096 - 76)) (MkKernel (MkCore k4 t1) x fl)
    = Ok tt (MkKernel (J := J) (MkCore (K := K) k4 t2) x fl) /\
    replaced t t2 np (set_times (ticks t1) 0 0 0 0 (set_context InForkret
      (set_own (p_sz q1) (p_pgdir q1) v (v + 4096 - 76) (p_ofile q1) (p_cwd q1) (p_name q1) q1)))).
  { eexists. split; [reflexivity|]. destruct R1 as (L1 & S1 & O1). split; [cbn; by rewrite !length_insert|]. split.
    - unfold slot at 1. cbn. rewrite list_lookup_total_insert_eq by (by rewrite !length_insert). unfold slot at 1. cbn.
      rewrite list_lookup_total_insert_eq by (by rewrite length_insert). unfold slot at 1. cbn.
      rewrite list_lookup_total_insert_eq by done. by rewrite S1.
    - intros j Hj. rewrite <- O1 by done. unfold slot. cbn. by rewrite !list_lookup_total_insert_ne. }
  destruct Y as (t2 & E5 & R5). rewrite (bind_ok _ _ _ _ _ E5). do 4 eexists. split; [reflexivity|].
  split; [done|]. split; [done|]. split; [|split; [done|split; [congruence|split; [exact R5|]]]].
  - rewrite <- Em. by repeat (eapply agree_off_trans; [eassumption|]).
  - split; try done. cbn. lia.
Qed.

(** ** The open files *)

Definition with_files (o : list (option nat)) (q : proc) : proc :=
  set_own (p_sz q) (p_pgdir q) (p_kstack q) (p_tf q) o (p_cwd q) (p_name q) q.

(** Every file has [d g] more references than before. *)
Definition counted_up (d : nat -> Z) fl fl' : Prop :=
  length fl' = length fl /\ forall g, (g < length fl)%nat -> fl' !!! g = set_fref (f_ref (fl !!! g) + d g) (fl !!! g).

Lemma names_take_S l i x g : l !! i = Some x -> names (take (S i) l) g = names (take i l) g + oind x g.
Proof.
  intros H. rewrite (take_S_r _ _ _ H). generalize (take i l) as u. intros u. induction u as [|y u IH]; cbn; lia.
Qed.

(** A descriptor table copied up to [i]. *)
Definition copied_to (l : list (option nat)) (i : nat) : list (option nat) := take i l ++ replicate (length l - i) None.

Lemma copied_to_S l i x : l !! i = Some x -> <[i := x]> (copied_to l i) = copied_to l (S i).
Proof.
  intros H. pose proof (lookup_lt_Some _ _ _ H) as Hl. unfold copied_to. rewrite (take_S_r _ _ _ H), <- app_assoc.
  replace (length l - i)%nat with (S (length l - S i)) by lia. cbn [replicate app].
  rewrite insert_app_r_alt by (rewrite length_take; lia). rewrite length_take.
  by replace (i - i `min` length l)%nat with 0%nat by lia.
Qed.

Lemma copied_to_None l i : l !! i = Some None -> copied_to l (S i) = copied_to l i.
Proof.
  intros H. rewrite <- (copied_to_S _ _ _ H). apply list_insert_id. pose proof (lookup_lt_Some _ _ _ H) as Hl.
  unfold copied_to. rewrite lookup_app_r by (rewrite length_take; lia). rewrite length_take.
  replace (i - i `min` length l)%nat with 0%nat by lia. apply lookup_replicate. split; [done|lia].
Qed.

Lemma dup_files_ok k t x fl me np q l :
  me <> np -> (np < length (procs t))%nat -> slot t np = q -> p_ofile q = replicate NOFILE None ->
  p_ofile (slot t me) = l -> length l = NOFILE -> length fl = NFILE ->
  (forall i f, l !! i = Some (Some f) -> (f < NFILE)%nat /\ 1 <= f_ref (fl !!! f)) ->
  exists t' fl', for_ 0 (Z.of_nat NOFILE) (dup_file me np) (MkKernel (MkCore k t) x fl)
      = Ok tt (MkKernel (J := J) (MkCore (K := K) k t') x fl') /\
    replaced t t' np (with_files l q) /\ counted_up (names l) fl fl'.
Proof.
  intros Hne Hnp Hq Hqo Hme Hl Hfl Hf.
  set (I := fun (i : Z) (s : kern) => exists t' fl', s = MkKernel (MkCore k t') x fl' /\
    replaced t t' np (with_files (copied_to l (Z.to_nat i)) q) /\ counted_up (names (take (Z.to_nat i) l)) fl fl').
  destruct (for_inv I (dup_file me np) 0 (Z.of_nat NOFILE) (MkKernel (MkCore k t) x fl)) as (s' & E & H').
  - lia.
  - exists t, fl. split; [done|]. split.
    + split; [done|]. split; [|done]. rewrite Hq. unfold copied_to. cbn [Z.to_nat take app]. rewrite Nat.sub_0_r, Hl, <- Hqo.
      by destruct q.
    + split; [done|]. intros g _. cbn. rewrite Z.add_0_r. by destruct (fl !!! g).
  - intros j s Hj (t1 & fl1 & -> & (L1 & S1 & O1) & (Lf & Cf)). unfold dup_file.
    rewrite (bind_ok _ _ _ _ _ (myproc_ok me _)). cbn [table kn_core co_pt]. change (table _) with t1.
    rewrite O1 by done. rewrite Hme.
    assert (Hx : exists y, l !! Z.to_nat j = Some y) by (apply lookup_lt_is_Some_2; rewrite Hl; lia).
    destruct Hx as [y Hy]. rewrite (list_lookup_total_correct _ _ _ Hy).
    assert (Ej : Z.to_nat (j + 1) = S (Z.to_nat j)) by lia. destruct y as [f|].
    + destruct (Hf _ _ Hy) as [Hfn Hr]. unfold filedup.
      rewrite bind_assoc, (bind_ok (getf f) _ _ _ _ eq_refl). cbn [kn_files].
      assert (Hrf : f_ref (fl1 !!! f) = f_ref (fl !!! f) + names (take (Z.to_nat j) l) f) by (by rewrite Cf by (rewrite Hfl; done)).
      pose proof (names_nonneg (take (Z.to_nat j) l) f). rewrite (proj2 (Z.ltb_ge _ 1)) by lia.
      rewrite bind_assoc, (bind_ok (modf _ _) _ _ _ _ eq_refl). cbn [kn_core kn_fs kn_files].
      rewrite (bind_ok (mret f) _ _ _ _ eq_refl).
      destruct (pt_modp k t1 x (<[f := set_fref (f_ref (fl1 !!! f) + 1) (fl1 !!! f)]> fl1) np (set_ofile (Z.to_nat j) (Some f)))
        as (t2 & E2 & (L2 & S2 & O2) & _); [by rewrite L1|].
      rewrite E2. eexists. split; [reflexivity|]. unfold I. rewrite Ej. do 2 eexists. split; [reflexivity|]. split; [split; [congruence|split]|split].
      * rewrite S2, S1, <- (copied_to_S _ _ _ Hy). reflexivity.
      * intros i Hi. by rewrite O2, O1.
      * by rewrite length_insert.
      * intros g Hg. rewrite (names_take_S _ _ _ _ Hy). cbn [oind]. unfold ind. case_decide as Eg.
        -- subst g. rewrite list_lookup_total_insert_eq by (by rewrite Lf). rewrite Cf by done. unfold set_fref. cbn. f_equal; try done; lia.
        -- rewrite list_lookup_total_insert_ne by done. rewrite Cf by done. f_equal. lia.
    + eexists. split; [reflexivity|]. unfold I. rewrite Ej. exists t1, fl1. split; [done|]. split; [split; [done|split; [|done]]|split; [done|]].
      * by rewrite (copied_to_None _ _ Hy).
      * intros g Hg. rewrite (names_take_S _ _ _ _ Hy), Cf by done. cbn. f_equal. lia.
  - destruct H' as (t' & fl' & -> & R & C). exists t', fl'. split; [done|].
    rewrite Nat2Z.id in *. unfold copied_to in R. rewrite Hl, Nat.sub_diag, app_nil_r, take_ge in R by lia.
    by rewrite take_ge in C by lia.
Qed.

(** ** The trap frame *)

Lemma store32_zero m a x : store32 m a 0 x = if (a <=? x) && (x <? a + 4) then 0 else m x.
Proof.
  destruct (decide (a <= x < a + 4)).
  - rewrite (proj2 (andb_true_iff _ _)) by (rewrite Z.leb_le, Z.ltb_lt; lia). unfold store32, upd.
    repeat case_match; try done; lia.
  - rewrite (proj2 (andb_false_iff _ _)) by (rewrite Z.leb_gt, Z.ltb_ge; lia). apply store32_ne. lia.
Qed.

(** [*np->tf = *proc->tf; np->tf->eax = 0] in the kernel stack [v]. *)
Lemma copy_tf_ok (k : K) F v src :
  fr_rep k F -> v mod 4096 = 0 -> v ∉ F ->
  exists k1 k2, memmove (v + 4020) src sizeof_tf k = Ok tt k1 /\ wr (v + 4020 + tf_eax) 0 k1 = Ok tt k2 /\
    fr_rep k2 F /\ agree_off {[v]} (fr_mem k) (fr_mem k2) /\
    forall o, 0 <= o < sizeof_tf -> fr_mem k2 (v + 4020 + o) =
      if (tf_eax <=? o) && (o <? tf_eax + 4) then 0 else fr_mem k (src + o).
Proof.
  intros R Hv HF. unfold sizeof_tf, tf_eax. set (m := KString.memmove (fr_mem k) (v + 4020) src 76).
  assert (Em : forall x, m x = if (v + 4020 <=? x) && (x <? v + 4020 + 76) then fr_mem k (src + (x - (v + 4020))) else fr_mem k x).
  { intros x. unfold m. rewrite KString.memmove_mcopy. unfold mcopy. by rewrite u32_small by lia. }
  destruct (write_frame k F v m R Hv HF) as [R1 A1].
  { intros x Hx. rewrite Em, (proj2 (andb_false_iff _ _)); [done|]. rewrite Z.leb_gt, Z.ltb_ge. lia. }
  { apply memmove_bytes. intros a. by apply (fr_bytes k F). }
  destruct (wr_frame (fr_set m k) F v (v + 4020 + 28) 0 R1 Hv HF) as (k2 & E2 & R2 & A2 & Em2); [lia|lia|].
  exists (fr_set m k), k2. split_and!; try done; [by eapply agree_off_trans|].
  intros o Ho. rewrite Em2, store32_zero, fr_mem_set, Em.
  rewrite (proj2 (andb_true_iff (v + 4020 <=? v + 4020 + o) _)) by (rewrite Z.leb_le, Z.ltb_lt; lia).
  replace (v + 4020 + o - (v + 4020)) with o by lia.
  destruct (decide (28 <= o < 32)).
  - rewrite !(proj2 (andb_true_iff _ _)); [done| |]; rewrite Z.leb_le, Z.ltb_lt; lia.
  - rewrite !(proj2 (andb_false_iff _ _)); [done| |]; rewrite Z.leb_gt, Z.ltb_ge; lia.
Qed.

(** What counted descriptors give [fork]. *)
Lemma fok_slot t x fl (k : K) o i :
  fa (fun _ => 0) o [] (MkKernel (J := J) (MkCore k t) x fl) -> (i < length (procs t))%nat -> p_state (slot t i) = UNUSED ->
  p_ofile (slot t i) = replicate NOFILE None.
Proof.
  intros H Hi Hu. assert (Hl : (i < length o)%nat) by (rewrite <- (fa_fds _ _ _ _ H), length_fmap; done).
  pose proof (fa_lookup _ _ _ _ i H Hl) as Ho. destruct (fa_wfo _ _ _ _ H i _ Ho) as [Hlen _].
  change (table _) with t in *. symmetry. apply replicate_as_Forall. split; [done|]. apply Forall_lookup. intros n y Hy. symmetry.
  refine (fa_idle _ _ _ _ H i Hl _ n y Hy). by left.
Qed.

Lemma fok_open t x fl (k : K) o i :
  fa (fun _ => 0) o [] (MkKernel (J := J) (MkCore k t) x fl) -> p_state (slot t i) <> UNUSED ->
  length (p_ofile (slot t i)) = NOFILE /\
  forall n f, p_ofile (slot t i) !! n = Some (Some f) -> (f < NFILE)%nat /\ 1 <= f_ref (fl !!! f).
Proof.
  intros H Hu. assert (Hl : (i < length o)%nat) by (rewrite <- (fa_fds _ _ _ _ H), length_fmap; by apply live_lt).
  pose proof (fa_lookup _ _ _ _ i H Hl) as Ho. destruct (fa_wfo _ _ _ _ H i _ Ho) as [Hlen Hr]. change (table _) with t in *.
  split; [done|]. intros n f Hf. pose proof (Hr n f Hf) as Hn. split; [done|].
  pose proof (fa_ref _ _ _ _ H f Hn) as Href. change (kn_files _) with fl in Href. rewrite Href, Z.add_0_r.
  by eapply held_elem.
Qed.

(** ** Memory *)

(** Everything [fork] does to memory after [allocproc] took the frame [v]. *)
Lemma fork_memory_ok (k k1 : K) F T pgdir sz v src :
  let P := pages 0 (npages sz) in
  data_ok data -> uspace k F T pgdir P -> 0 <= sz < KERNBASE -> (1026 + Z.to_nat (npages sz) <= base.size F)%nat ->
  v ∈ F -> fr_rep k1 (F ∖ {[v]}) -> agree_off {[v]} (fr_mem k) (fr_mem k1) ->
  (forall o, 0 <= o < sizeof_tf -> page_of (src + o) ∉ F) ->
  exists d k2 k3 k4 F' T2, copyuvm data pgdir sz k1 = Ok d k2 /\ d <> 0 /\
    memmove (v + 4020) src sizeof_tf k2 = Ok tt k3 /\ wr (v + 4020 + tf_eax) 0 k3 = Ok tt k4 /\
    uspace k4 F' T pgdir P /\ uspace k4 F' T2 d P /\ T ## T2 /\
    (forall va, 0 <= va < sz -> ubyte (fr_mem k4) d va = ubyte (fr_mem k) pgdir va /\
      ubyte (fr_mem k4) pgdir va = ubyte (fr_mem k) pgdir va) /\
    (forall va va', 0 <= va < sz -> 0 <= va' < sz ->
      uframe (fr_mem k4) pgdir (va / PGSIZE) <> uframe (fr_mem k4) d (va' / PGSIZE)) /\
    (forall o, 0 <= o < sizeof_tf -> fr_mem k4 (v + 4020 + o) =
      if (tf_eax <=? o) && (o <? tf_eax + 4) then 0 else fr_mem k (src + o)).
Proof.
  intros P Hdata U Hsz HF Hv R1 A1 Hsrc. pose proof (us_as _ _ _ _ _ U) as [R Pt Dj].
  assert (HvT : v ∉ T) by (clear -Hv Dj; set_solver). assert (HvF : v ∉ F ∖ {[v]}) by set_solver +.
  pose proof (frame_bounds v (fr_frames _ _ _ R Hv)) as [Hvr Hvm].
  assert (HD : forall va, 0 <= va < sz -> va / 4096 ∈ P) by (intros va Hva; by apply user_page_in).
  destruct (uspace_agree k F T pgdir P k1 (F ∖ {[v]}) {[v]} U R1) as [U1 Hp1]; [set_solver +|done|set_solver +HvT|].
  destruct (copyuvm_ok data k1 (F ∖ {[v]}) T pgdir P sz Hdata U1 Hsz) as (d & k2 & F' & T2 & E2 & Hd & Fk & Hall & M2 & Hp2 & _ & Hn2).
  { intros i Hi. by apply elem_of_pages. }
  { rewrite size_difference, size_singleton by (apply singleton_subseteq_l; done). lia. }
  destruct Fk as [B1 B2 B3 B4 B5 B6 B7 B8].
  assert (HvF' : v ∉ F') by (clear -Hall HvF; set_solver). assert (HvT2 : v ∉ T2) by (clear -Hall HvF; set_solver).
  destruct (copy_tf_ok k2 F' v src (as_rep _ _ _ _ (us_as _ _ _ _ _ B1)) Hvm HvF') as (k3 & k4 & E3 & E4 & R4 & A4 & Htf).
  destruct (uspace_agree k2 F' T pgdir P k4 F' {[v]} B1 R4) as [U4 Hp4]; [done|done|set_solver +HvT|].
  destruct (uspace_agree k2 F' T2 d P k4 F' {[v]} B2 R4) as [U5 Hp5]; [done|done|set_solver +HvT2|].
  assert (Hk : forall va, 0 <= va < sz -> 0 <= va / 4096 < 2 ^ 19) by (intros va Hva; unfold KERNBASE in Hsz; lia).
  assert (Eu : forall va, 0 <= va < sz -> uframe (fr_mem k4) pgdir (va / 4096) = uframe (fr_mem k) pgdir (va / 4096)).
  { intros va Hva. specialize (Hk va Hva). unfold uframe. by rewrite Hp4, Hp2, Hp1 by lia. }
  assert (Hpar : forall va, 0 <= va < sz -> fr_mem k2 (uframe (fr_mem k) pgdir (va / 4096) + va mod 4096)
      = fr_mem k (uframe (fr_mem k) pgdir (va / 4096) + va mod 4096) /\ uframe (fr_mem k) pgdir (va / 4096) <> v).
  { intros va Hva. pose proof (HD va Hva) as Hi. destruct (us_frame _ _ _ _ _ U _ Hi) as (Hf & _ & HnF).
    pose proof (frame_bounds _ Hf) as [_ Hm]. split; [|congruence].
    rewrite M2 by (rewrite page_of_in by lia; clear -HnF; set_solver).
    apply A1. rewrite page_of_in by lia. rewrite elem_of_singleton. congruence. }
  exists d, k2, k3, k4, F', T2. split; [exact E2|]. split; [exact Hd|]. split; [exact E3|]. split; [exact E4|].
  split; [exact U4|]. split; [exact U5|]. split; [exact B3|]. split_and!.
  - intros va Hva. pose proof (HD va Hva) as Hi. destruct (Hpar va Hva) as [Hb Hne]. pose proof (Hk va Hva) as Hkv.
    assert (Hi' : 0 <= va / 4096 < npages sz) by (by apply elem_of_pages). split.
    + unfold ubyte. replace (uframe (fr_mem k4) d (va / 4096)) with (uframe (fr_mem k2) d (va / 4096))
        by (unfold uframe; by rewrite Hp5 by lia).
      rewrite (frame_bytes k2 F' T2 d P (va / 4096) {[v]} (fr_mem k4) (va mod 4096) B2 Hi); try done; try lia.
      * destruct (B8 _ Hi') as [_ Hby]. rewrite Hby by lia. rewrite <- Hb. f_equal. f_equal. unfold uframe. by rewrite Hp2, Hp1 by lia.
      * rewrite elem_of_singleton. intros E. specialize (Hn2 _ Hi'). rewrite E in Hn2. done.
    + unfold ubyte. rewrite Eu by done. rewrite A4; [done|].
      destruct (us_frame _ _ _ _ _ U _ Hi) as (Hf & _). pose proof (frame_bounds _ Hf) as [_ Hm].
      rewrite page_of_in by lia. by rewrite elem_of_singleton.
  - intros va va' Hva Hva'. unfold PGSIZE. rewrite Eu by done. pose proof (Hk va Hva). pose proof (Hk va' Hva').
    replace (uframe (fr_mem k) pgdir (va / 4096)) with (uframe (fr_mem k2) pgdir (va / 4096))
      by (unfold uframe; by rewrite Hp2, Hp1 by lia).
    replace (uframe (fr_mem k4) d (va' / 4096)) with (uframe (fr_mem k2) d (va' / 4096)) by (unfold uframe; by rewrite Hp5 by lia).
    apply B7; [by apply HD|]. by apply elem_of_pages, HD.
  - intros o Ho. rewrite Htf by done. case_match; [done|]. specialize (Hsrc o Ho).
    rewrite M2 by (clear -Hsrc; set_solver). apply A1. rewrite elem_of_singleton. intros E. by rewrite E in Hsrc.
Qed.

(** ** fork *)

(** [fork] by [me] can succeed: slot [np] is free, and there are frames for a
    kernel stack, page tables and pages; [d] is the current directory. *)
Record can_fork s me np F T d : Prop := {
  cf_space : uspace (memory s) F T (p_pgdir (slot (table s) me)) (pages 0 (npages (p_sz (slot (table s) me))));
  cf_size : 0 <= p_sz (slot (table s) me) < KERNBASE;
  cf_frames : (1026 + Z.to_nat (npages (p_sz (slot (table s) me))) <= base.size F)%nat;
  cf_running : p_state (slot (table s) me) = RUNNING;
  cf_free : find_unused (procs (table s)) 0 = Some np;
  cf_pid : nextpid (table s) <> 2 ^ 31 - 1;
  cf_files : fok [] s;
  cf_cwd : p_cwd (slot (table s) me) = Some d;
  cf_tf : forall o, 0 <= o < sizeof_tf -> page_of (p_tf (slot (table s) me) + o) ∉ F
}.

(** What [fork] leaves behind. *)
Record fork_done s me np T d s' : Prop := {
  fd_state : p_state (slot (table s') np) = RUNNABLE;
  fd_pid : p_pid (slot (table s') np) = nextpid (table s);
  fd_parent : p_parent (slot (table s') np) = Some me;
  fd_sz : p_sz (slot (table s') np) = p_sz (slot (table s) me);
  fd_ofile : p_ofile (slot (table s') np) = p_ofile (slot (table s) me);
  fd_cwd : p_cwd (slot (table s') np) = Some d;
  fd_others : forall j, j <> np -> slot (table s') j = slot (table s) j;
  fd_tf : forall o, 0 <= o < sizeof_tf -> fr_mem (memory s') (p_tf (slot (table s') np) + o) =
    if (tf_eax <=? o) && (o <? tf_eax + 4) then 0 else fr_mem (memory s) (p_tf (slot (table s) me) + o);
  fd_spaces : exists F' T2,
    uspace (memory s') F' T (p_pgdir (slot (table s) me)) (pages 0 (npages (p_sz (slot (table s) me)))) /\
    uspace (memory s') F' T2 (p_pgdir (slot (table s') np)) (pages 0 (npages (p_sz (slot (table s) me)))) /\ T ## T2;
  fd_bytes : forall va, 0 <= va < p_sz (slot (table s) me) ->
    ubyte (fr_mem (memory s')) (p_pgdir (slot (table s') np)) va = mybyte me s va /\
    ubyte (fr_mem (memory s')) (p_pgdir (slot (table s) me)) va = mybyte me s va;
  fd_apart : forall va va', 0 <= va < p_sz (slot (table s) me) -> 0 <= va' < p_sz (slot (table s) me) ->
    uframe (fr_mem (memory s')) (p_pgdir (slot (table s) me)) (va / PGSIZE) <>
    uframe (fr_mem (memory s')) (p_pgdir (slot (table s') np)) (va' / PGSIZE);
  fd_files : counted_up (names (p_ofile (slot (table s) me))) (kn_files s) (kn_files s');
  fd_dir : f_inodes (kn_fs s') = alter (fun i => set_ref (i_ref i + 1) i) d (f_inodes (kn_fs s)) /\ f_j (kn_fs s') = f_j (kn_fs s)
}.

(** The end of [fork]: directory, name, and the child is made runnable. *)
Lemma fork_publish_ok k t x fl np d name (pid : Z) :
  (np < length (procs t))%nat ->
  exists t' nm,
    ((d' ← infs (idup d); pt (modp np (set_cwd (Some d'))));;
     pt (modp np (fun q => set_name (copy_name (p_name q) name) q));;
     pt (modp np (set_state RUNNABLE));;
     mret pid) (MkKernel (MkCore k t) x fl)
    = Ok pid (MkKernel (J := J) (MkCore (K := K) k t')
        (MkFs (f_j x) (f_sb x) (alter (fun i => set_ref (i_ref i + 1) i) d (f_inodes x))) fl) /\
    replaced t t' np (set_state RUNNABLE (set_name nm (set_cwd (Some d) (slot t np)))).
Proof.
  intros Hl. rewrite bind_assoc, (bind_ok (infs (idup d)) _ _ _ _ eq_refl).
  set (x' := MkFs (f_j x) (f_sb x) (alter (fun i => set_ref (i_ref i + 1) i) d (f_inodes x))).
  match goal with |- context [(pt (modp np (set_cwd _)) ≫= _) ?s] => change s with (MkKernel (J := J) (MkCore k t) x' fl) end.
  destruct (pt_modp k t x' fl np (set_cwd (Some d)) Hl) as (t1 & E1 & (L1 & S1 & O1) & _).
  rewrite (bind_ok _ _ _ _ _ E1).
  destruct (pt_modp k t1 x' fl np (fun q => set_name (copy_name (p_name q) name) q)) as (t2 & E2 & (L2 & S2 & O2) & _);
    [by rewrite L1|]. rewrite (bind_ok _ _ _ _ _ E2).
  destruct (pt_modp k t2 x' fl np (set_state RUNNABLE)) as (t3 & E3 & (L3 & S3 & O3) & _); [by rewrite L2, L1|].
  rewrite (bind_ok _ _ _ _ _ E3). do 2 eexists. split; [reflexivity|]. split; [congruence|].
  split; [by rewrite S3, S2, S1|]. intros j Hj. by rewrite O3, O2, O1.
Qed.

Lemma fork_ok s me np F T d :
  data_ok data -> can_fork s me np F T d ->
  exists s', fork trapret forkret_addr data me s = Ok (nextpid (table s)) s' /\
    p_state (slot (table s) np) = UNUSED /\ fork_done s me np T d s'.
Proof.
  intros Hdata [U Hsz HF Hrun Hfree Hpid [o Ho] Hcwd Htf]. destruct s as [[k t] x fl].
  cbn [memory table kn_core co_mem co_pt] in *. change (table _) with t in *. change (memory _) with k in *.
  pose proof (as_rep _ _ _ _ (us_as _ _ _ _ _ U)) as R. set (p := slot t me) in *.
  assert (HFne : F <> ∅) by (intros ->; rewrite size_empty in HF; lia).
  destruct (allocproc_ok k t x fl F np R HFne Hfree Hpid) as (v & k1 & t1 & q1 & E1 & Hv & R1 & A1 & Hl & Hu & R1t & N).
  assert (Hne : me <> np) by (intros ->; unfold p in *; congruence).
  pose proof R1t as (L1 & S1 & O1).
  destruct (fork_memory_ok k k1 F T (p_pgdir p) (p_sz p) v (p_tf p) Hdata U Hsz HF Hv R1 A1 Htf)
    as (dd & k2 & k3 & k4 & F' & T2 & Ecp & Hd & Emv & Ewr & U4 & U5 & HT & Hby & Hap & Htfc).
  unfold fork. rewrite (bind_ok _ _ _ _ _ E1), (bind_ok _ _ _ _ _ (myproc_ok me _)). change (table _) with t1.
  rewrite O1 by done. fold p. kstep Ecp. change (put_memory k2 _) with (MkKernel (J := J) (MkCore k2 t1) x fl).
  destruct (pt_modp k2 t1 x fl np (set_pgdir dd)) as (t2 & E2 & X2 & _); [by rewrite L1|].
  rewrite (bind_ok _ _ _ _ _ E2), (proj2 (Z.eqb_neq _ 0) Hd). pose proof X2 as (L2 & S2 & O2).
  destruct (pt_modp k2 t2 x fl np (set_sz (p_sz p))) as (t3 & E3 & (L3 & S3 & O3) & _); [by rewrite L2, L1|].
  rewrite (bind_ok _ _ _ _ _ E3).
  destruct (pt_modp k2 t3 x fl np (set_parent (Some me))) as (t4 & E4 & (L4 & S4 & O4) & _); [by rewrite L3, L2, L1|].
  rewrite (bind_ok _ _ _ _ _ E4), (bind_ok _ _ _ _ _ (myproc_ok np _)). change (table _) with t4.
  set (q := slot t4 np). assert (Eq : q = set_parent (Some me) (set_sz (p_sz p) (set_pgdir dd q1))) by (unfold q; by rewrite S4, S3, S2, S1).
  assert (Oq : forall j, j <> np -> slot t4 j = slot t j) by (intros j Hj; by rewrite O4, O3, O2, O1).
  replace (p_tf q) with (v + 4020) by (rewrite Eq; cbn; by rewrite (np_tf _ _ _ _ N)).
  kstep Emv. change (put_memory k3 _) with (MkKernel (J := J) (MkCore k3 t4) x fl).
  kstep Ewr. change (put_memory k4 _) with (MkKernel (J := J) (MkCore k4 t4) x fl).
  destruct (dup_files_ok k4 t4 x fl me np q (p_ofile p)) as (t5 & fl5 & E5 & (L5 & S5 & O5) & C5); try done.
  { by rewrite L4, L3, L2, L1. }
  { rewrite Eq. cbn. rewrite (np_ofile _ _ _ _ N). by apply (fok_slot t x fl k o). }
  { by rewrite Oq. }
  { apply (fok_open t x fl k o me Ho). fold p. congruence. }
  { apply (fa_len _ _ _ _ Ho). }
  { apply (fok_open t x fl k o me Ho). fold p. congruence. }
  rewrite (bind_ok _ _ _ _ _ E5). fold p in Hcwd. rewrite Hcwd.
  destruct (fork_publish_ok k4 t5 x fl5 np d (p_name p) (p_pid q)) as (t8 & nm & E8 & _ & S8 & O8); [by rewrite L5, L4, L3, L2, L1|].
  rewrite E8. replace (p_pid q) with (nextpid t) by (rewrite Eq; cbn; by rewrite (np_pid _ _ _ _ N)).
  assert (Es : slot t8 np = set_state RUNNABLE (set_name nm (set_cwd (Some d) (with_files (p_ofile p) q)))) by (by rewrite S8, S5).
  assert (Eo : forall j, j <> np -> slot t8 j = slot t j) by (intros j Hj; by rewrite O8, O5, Oq).
  eexists. split; [reflexivity|]. split; [done|].
  split; cbn [table memory kn_core co_pt co_mem kn_files kn_fs]; change (table _) with t8; change (memory _) with k4; rewrite ?Es; cbn; rewrite ?Eq; cbn; try done.
  - apply (np_pid _ _ _ _ N).
  - intros i Hi. rewrite (np_tf _ _ _ _ N). by apply Htfc.
  - by exists F', T2.
Qed.
End fork.

(** C21: [fork] makes a copy of the calling process.  With a free slot and free
    frames it returns the new process id, and the child is runnable with the
    caller as parent, the same size, the same descriptors (each file has one
    reference more for each), the same directory, a trap frame that differs
    only in [%eax], which is 0, and the same bytes at every user address, in
    frames that are not the caller's; the memory of the caller and every other
    slot of the table are as they were. *)
Theorem fork_copies_process {K J} `{!Frames K, !FramesOk K, !Journal J, !Transactions J} trapret forkret_addr data
    (s : kernel (K := K) (J := J)) me np F T d :
  data_ok data -> can_fork s me np F T d ->
  exists s', fork trapret forkret_addr data me s = Ok (nextpid (table s)) s' /\
    p_state (slot (table s) np) = UNUSED /\ fork_done s me np T d s'.
Proof. apply fork_ok. Qed.

(** ** An instance *)

Import Bio.Cache.

Definition demo_parent (pgdir : Z) : proc :=
  set_own 10000 pgdir 0 KERNLINK (replicate NOFILE None) (Some 0%nat) [] (slot table_forked 0).

Definition fork_caller (j : lstate (bcache Memide.state)) (k : kmem) (pgdir : Z)
  : kernel (K := kmem) (J := lstate (bcache Memide.state)) :=
  put_memory k (demo_kernel j (set_procs (<[0%nat := demo_parent pgdir]> (procs table_forked)) table_forked)).

Lemma fork_copies_process_witness :
  exists j k F T pgdir s', uspace k F T pgdir (pages 0 (npages 10000)) /\
    fork 0 0 demo_data 0 (fork_caller j k pgdir) = Ok 3 s' /\
    forall va, 0 <= va < 10000 ->
      ubyte (fr_mem (memory s')) (p_pgdir (slot (table s') 2)) va = ubyte (fr_mem k) pgdir va.
Proof.
  destruct demo_boot as (_ & _ & j & _). destruct (demo_uspace 4200 ltac:(lia)) as (k0 & F0 & T0 & pgdir & U0 & Hs0).
  destruct (allocuvm_ok k0 F0 T0 pgdir 0 10000 U0) as (k & F & T & _ & [A _ _ _ Hz _ _ _]);
    [lia|unfold KERNBASE; lia|unfold enough; rewrite Hs0; vm_compute; lia|].
  assert (U : uspace k F T pgdir (pages 0 (npages 10000))).
  { change (npages 0) with 0 in A. rewrite (pages0 0), union_empty_l_L in A by lia. exact A. }
  destruct (fork_copies_process 0 0 demo_data (fork_caller j k pgdir) 0 2 F T 0) as (s' & E & _ & D).
  - exact demo_data_ok.
  - split.
    + exact U.
    + vm_compute. split; congruence.
    + change (p_sz (slot (table (fork_caller j k pgdir)) 0)) with 10000. change (npages 10000) with 3 in *.
      change (npages 0) with 0 in Hz. pose proof (tables_max k F T pgdir (us_as _ _ _ _ _ U)). lia.
    + compute_step.
    + compute_step.
    + vm_compute. congruence.
    + apply fok_no_files; compute_step.
    + compute_step.
    + intros o Ho Hin. apply (fr_frames k F _ (as_rep _ _ _ _ (us_as _ _ _ _ _ U))) in Hin as [_ Hin].
      change (@kend kmem _ _) with demo_end in Hin.
      change (p_tf (slot (table (fork_caller j k pgdir)) 0)) with KERNLINK in Hin.
      unfold page_of, demo_end, KERNLINK, KERNBASE, EXTMEM, sizeof_tf in *. lia.
  - exists j, k, F, T, pgdir, s'. split; [exact U|]. split; [exact E|].
    intros va Hva. exact (proj1 (fd_bytes _ _ _ _ _ _ D va Hva)).
Defined.
