(* ===== verification/Grep.v ===== *)
(** * grep (HW3/grep.c)

    The regular expression matcher against the language a pattern denotes, and
    the loop that cuts its input into lines.  A string is the list of its
    bytes without the terminating NUL. *)

From stdpp Require Import base numbers list sets strings.
From Stdlib Require Import ZArith Lia.
From S2P Require Import Prelude.

Open Scope Z_scope.

Definition caret : Z := 94.
Definition star : Z := 42.
Definition dollar : Z := 36.
Definition period : Z := 46.
Definition newline : Z := 10.

(** ** The matcher *)

(** The loop of [matchstar]; [here] is [matchhere] of the rest of the pattern. *)
Fixpoint matchstar (here : list Z -> bool) (c : Z) (text : list Z) : bool :=
  if here text then true else
  match text with
  | [] => false
  | t :: text' => if (t =? c) || (c =? period) then matchstar here c text' else false
  end.

Fixpoint matchhere (re text : list Z) {struct re} : bool :=
  match re with
  | [] => true
  | r :: re1 =>
      let next :=
        match text with
        | [] => false
        | t :: text' => if (r =? period) || (r =? t) then matchhere re1 text' else false
        end in
      match re1 with
      | r1 :: re2 => if r1 =? star then matchstar (matchhere re2) r text else next
      | [] => if r =? dollar then match text with [] => true | _ => false end else next
      end
  end.

(** The loop of [match]. *)
Fixpoint match_from (re text : list Z) : bool :=
  if matchhere re text then true else
  match text with
  | [] => false
  | _ :: text' => match_from re text'
  end.

Definition match_ (re text : list Z) : bool :=
  match re with
  | r :: re' => if r =? caret then matchhere re' text else match_from re text
  | [] => match_from re text
  end.

(** ** The lines *)

(** [strchr(p, '\n')] on the buffer from [p] on: the line and what follows it.
    [strchr] stops at a NUL. *)
Fixpoint next_line (p : list Z) : option (list Z * list Z) :=
  match p with
  | [] => None
  | c :: p' =>
      if c =? newline then Some ([], p')
      else if c =? 0 then None
      else match next_line p' with
           | Some (line, rest) => Some (c :: line, rest)
           | None => None
           end
  end.

(** The inner loop: what is written, and the buffer from the final [p] on. *)
Fixpoint scan_lines (k : nat) (pattern p : list Z) : list Z * list Z :=
  match k with
  | O => ([], p)
  | S k' =>
      match next_line p with
      | None => ([], p)
      | Some (line, rest) =>
          let '(out, p') := scan_lines k' pattern rest in
          ((if match_ pattern line then line ++ [newline] else []) ++ out, p')
      end
  end.

(** One round of the outer loop with [n > 0] bytes read behind the [m] kept: if
    no line was found all is dropped. *)
Definition grep_round (pattern kept chunk : list Z) : list Z * list Z :=
  let buf := kept ++ chunk in
  let '(out, p) := scan_lines (length buf) pattern buf in
  (out, if bool_decide (length p = length buf) then [] else p).

(** The size of [buf], less the terminator. *)
Definition BUFSIZE : nat := 1023.

(** [grep] on a file that still holds [data], where a read returns as many bytes
    as are asked for if there are so many. *)
Fixpoint grep_file (k : nat) (pattern kept data : list Z) : option (list Z) :=
  let n := (BUFSIZE - length kept)%nat in
  match take n data with
  | [] => Some []
  | chunk =>
      match k with
      | O => None
      | S k' =>
          let '(out, kept') := grep_round pattern kept chunk in
          app out <$> grep_file k' pattern kept' (drop n data)
      end
  end.

(** [grep] on a descriptor whose reads return these pieces. *)
Fixpoint grep_reads (pattern kept : list Z) (chunks : list (list Z)) : list Z :=
  match chunks with
  | [] | [] :: _ => []
  | chunk :: chunks' =>
      let '(out, kept') := grep_round pattern kept chunk in
      out ++ grep_reads pattern kept' chunks'
  end.

(** ** What a pattern denotes *)

Inductive item := One (c : Z) | Many (c : Z).

(** The items of a pattern, and whether it ends in [$]. *)
Fixpoint items (re : list Z) : list item * bool :=
  match re with
  | [] => ([], false)
  | r :: re1 =>
      match re1 with
      | r1 :: re2 =>
          if r1 =? star then let '(l, e) := items re2 in (Many r :: l, e)
          else let '(l, e) := items re1 in (One r :: l, e)
      | [] => if r =? dollar then ([], true) else ([One r], false)
      end
  end.

Definition accepts (c t : Z) : Prop := c = period \/ c = t.

Inductive lang : list item -> list Z -> Prop :=
| lang_nil : lang [] []
| lang_one c l t s : accepts c t -> lang l s -> lang (One c :: l) (t :: s)
| lang_many c l u s : Forall (accepts c) u -> lang l s -> lang (Many c :: l) (u ++ s).

(** A prefix of the text is in the language, all of it if the pattern ends in [$]. *)
Definition matches_here (re text : list Z) : Prop :=
  exists s rest, text = s ++ rest /\ lang (items re).1 s /\ ((items re).2 = true -> rest = []).

Definition matches (re text : list Z) : Prop :=
  match re with
  | r :: re' =>
      if r =? caret then matches_here re' text
      else exists pre suf, text = pre ++ suf /\ matches_here re suf
  | [] => True
  end.

(** ** The matcher decides the language *)

Lemma accepts_spec c t : (t =? c) || (c =? period) = true <-> accepts c t.
Proof. unfold accepts. rewrite orb_true_iff, !Z.eqb_eq. naive_solver. Qed.

Lemma accepts_spec' c t : (c =? period) || (c =? t) = true <-> accepts c t.
Proof. unfold accepts. by rewrite orb_true_iff, !Z.eqb_eq. Qed.

Lemma matchstar_spec here c text :
  matchstar here c text = true <-> exists u v, text = u ++ v /\ Forall (accepts c) u /\ here v = true.
Proof.
  induction text as [|t text IH]; cbn [matchstar].
  - destruct (here []) eqn:E.
    + split; [|done]. intros _. by exists [], [].
    + split; [done|]. intros (u & v & Hu & _ & Hv). symmetry in Hu. apply app_eq_nil in Hu as [-> ->]. congruence.
  - destruct (here (t :: text)) eqn:E.
    { split; [|done]. intros _. by exists [], (t :: text). }
    destruct ((t =? c) || (c =? period)) eqn:Ea.
    + rewrite IH. split; intros (u & v & Hu & Ha & Hv).
      * exists (t :: u), v. rewrite Hu. split_and!; [done| |done]. constructor; [by apply accepts_spec|done].
      * destruct u as [|x u]; [cbn in Hu; congruence|]. injection Hu as <- Hu. apply Forall_cons in Ha as [_ Ha].
        by exists u, v.
    + split; [done|]. intros (u & v & Hu & Ha & Hv). destruct u as [|x u]; [cbn in Hu; congruence|].
      injection Hu as <- _. apply Forall_cons in Ha as [Ha _]. apply accepts_spec in Ha. congruence.
Qed.

(** One character of the pattern, then the rest. *)
Lemma here_one r re1 text e l :
  items re1 = (l, e) ->
  (forall t text', text = t :: text' -> matchhere re1 text' = true <-> matches_here re1 text') ->
  match text with [] => false | t :: text' => if (r =? period) || (r =? t) then matchhere re1 text' else false end = true
  <-> exists s rest, text = s ++ rest /\ lang (One r :: l) s /\ (e = true -> rest = []).
Proof.
  intros Hi IH. destruct text as [|t text].
  - split; [done|]. intros (s & rest & Hs & Hl & _). inversion Hl; subst. done.
  - specialize (IH t text eq_refl). destruct ((r =? period) || (r =? t)) eqn:Ea.
    + rewrite IH. unfold matches_here. rewrite Hi. cbn [fst snd]. split.
      * intros (s & rest & -> & Hl & He). exists (t :: s), rest. split_and!; try done. constructor; [by apply accepts_spec'|done].
      * intros (s & rest & Hs & Hl & He). inversion Hl; subst. injection Hs as <- ->. by eexists _, rest.
    + split; [done|]. intros (s & rest & Hs & Hl & _). inversion Hl; subst. injection Hs as <- _.
      apply accepts_spec' in H1. congruence.
Qed.

Lemma matchhere_two r r1 re2 text : matchhere (r :: r1 :: re2) text =
  if r1 =? star then matchstar (matchhere re2) r text else
  match text with [] => false | t :: text' => if (r =? period) || (r =? t) then matchhere (r1 :: re2) text' else false end.
Proof. reflexivity. Qed.

Lemma items_two r r1 re2 : items (r :: r1 :: re2) =
  if r1 =? star then let '(l, e) := items re2 in (Many r :: l, e)
  else let '(l, e) := items (r1 :: re2) in (One r :: l, e).
Proof. reflexivity. Qed.

Lemma matchhere_spec n : forall re text, (length re <= n)%nat -> matchhere re text = true <-> matches_here re text.
Proof.
  induction n as [|n IH]; intros re text Hn.
  { destruct re; [|cbn in Hn; lia]. split; [|done]. intros _. exists [], text. split_and!; try done. constructor. }
  destruct re as [|r re1].
  { split; [|done]. intros _. exists [], text. split_and!; try done. constructor. }
  cbn [length] in Hn. destruct re1 as [|r1 re2].
  - cbn [matchhere]. unfold matches_here. cbn [items]. destruct (r =? dollar); cbn [fst snd].
    + split.
      * destruct text; [|done]. intros _. exists [], []. split_and!; try done. constructor.
      * intros (s & rest & -> & Hl & He). inversion Hl; subst. by rewrite (He eq_refl).
    + apply (here_one r [] text false []); [done|]. intros t text' ->. apply IH. cbn. lia.
  - cbn [length] in Hn. rewrite matchhere_two. unfold matches_here. rewrite items_two. destruct (r1 =? star).
    + destruct (items re2) as [l e] eqn:Ei. cbn [fst snd]. rewrite matchstar_spec. split.
      * intros (u & v & -> & Ha & Hv). apply IH in Hv as (s & rest & -> & Hl & He); [|lia]. rewrite Ei in Hl, He.
        exists (u ++ s), rest. rewrite app_assoc. split_and!; try done. by constructor.
      * intros (s & rest & -> & Hl & He). inversion Hl; subst. exists u, (s0 ++ rest). rewrite <- app_assoc.
        split_and!; try done. apply IH; [lia|]. exists s0, rest. by rewrite Ei.
    + destruct (items (r1 :: re2)) as [l e] eqn:Ei. cbn [fst snd].
      apply (here_one r (r1 :: re2) text e l Ei). intros t text' ->. apply IH. cbn. lia.
Qed.

Lemma match_from_spec re text :
  match_from re text = true <-> exists pre suf, text = pre ++ suf /\ matches_here re suf.
Proof.
  induction text as [|t text IH]; cbn [match_from].
  - destruct (matchhere re []) eqn:E.
    + split; [|done]. intros _. exists [], []. split; [done|]. by apply (matchhere_spec (length re)).
    + split; [done|]. intros (pre & suf & Hs & Hm). symmetry in Hs. apply app_eq_nil in Hs as [-> ->].
      apply (matchhere_spec (length re)) in Hm; [congruence|done].
  - destruct (matchhere re (t :: text)) eqn:E.
    + split; [|done]. intros _. exists [], (t :: text). split; [done|]. by apply (matchhere_spec (length re)).
    + rewrite IH. split; intros (pre & suf & Hs & Hm).
      * exists (t :: pre), suf. by rewrite Hs.
      * destruct pre as [|x pre]; [|injection Hs as <- ->; by exists pre, suf]. cbn in Hs. subst suf.
        apply (matchhere_spec (length re)) in Hm; [congruence|done].
Qed.

(** ** The loop prints the matching lines *)

(** The lines of the input; what follows the last newline is not one. *)
Fixpoint lines (cur data : list Z) : list (list Z) :=
  match data with
  | [] => []
  | c :: data' => if c =? newline then cur :: lines [] data' else lines (cur ++ [c]) data'
  end.

Definition selected (pattern data : list Z) : list Z :=
  mjoin ((fun l => if match_ pattern l then l ++ [newline] else []) <$> lines [] data).

Lemma lines_app_newline a b : forall cur, lines cur (a ++ newline :: b) = lines cur (a ++ [newline]) ++ lines [] b.
Proof.
  induction a as [|c a IH]; intros cur; cbn [app lines]; [reflexivity|].
  destruct (c =? newline); [cbn [app]; f_equal; apply IH|apply IH].
Qed.

Lemma lines_run a : forall cur, newline ∉ a -> lines cur a = [] /\ forall b, lines cur (a ++ newline :: b) = (cur ++ a) :: lines [] b.
Proof.
  induction a as [|c a IH]; intros cur Hn.
  - split; [done|]. intros b. cbn. by rewrite app_nil_r.
  - apply not_elem_of_cons in Hn as [Hc Hn]. cbn [lines app]. rewrite (proj2 (Z.eqb_neq c newline)) by done.
    destruct (IH (cur ++ [c]) Hn) as [H1 H2]. split; [done|]. intros b. rewrite H2, <- app_assoc. done.
Qed.

Lemma selected_run pattern a : newline ∉ a -> selected pattern a = [].
Proof. intros H. unfold selected. by rewrite (proj1 (lines_run a [] H)). Qed.

Lemma selected_line pattern a b : newline ∉ a ->
  selected pattern (a ++ newline :: b) = (if match_ pattern a then a ++ [newline] else []) ++ selected pattern b.
Proof. intros H. unfold selected. by rewrite (proj2 (lines_run a [] H)). Qed.

Lemma next_line_spec p : 0 ∉ p ->
  match next_line p with
  | Some (line, rest) => p = line ++ newline :: rest /\ newline ∉ line
  | None => newline ∉ p
  end.
Proof.
  induction p as [|c p IH]; intros Hz; [cbn; set_solver +|]. apply not_elem_of_cons in Hz as [Hc Hz]. cbn [next_line].
  destruct (Z.eqb_spec c newline) as [->|Hn]; [split; [done|set_solver +]|].
  rewrite (proj2 (Z.eqb_neq c 0)) by done. specialize (IH Hz). destruct (next_line p) as [[line rest]|].
  - destruct IH as [-> Hl]. split; [done|]. set_solver.
  - set_solver.
Qed.

(** The inner loop: the lines of the buffer, and what follows the last newline. *)
Lemma scan_lines_spec pattern k : forall p, 0 ∉ p -> (length p <= k)%nat ->
  exists done_ rest, scan_lines k pattern p = (selected pattern done_, rest) /\ p = done_ ++ rest /\ newline ∉ rest /\
    (forall b, selected pattern (done_ ++ b) = selected pattern done_ ++ selected pattern b) /\
    (done_ = [] \/ (length rest < length p)%nat).
Proof.
  induction k as [|k IH]; intros p Hz Hk.
  { destruct p; [|cbn in Hk; lia]. exists [], []. split_and!; try done; [set_solver +|by left]. }
  cbn [scan_lines]. pose proof (next_line_spec p Hz) as Hs. destruct (next_line p) as [[line rest]|].
  - destruct Hs as [-> Hl]. rewrite length_app in Hk. cbn [length] in Hk.
    destruct (IH rest ltac:(set_solver +Hz) ltac:(lia)) as (dn & r & E & -> & Hr & Happ & _). rewrite E.
    exists (line ++ newline :: dn), r. rewrite selected_line by done. split_and!; try done.
    + by rewrite <- app_assoc.
    + intros b. rewrite <- app_assoc. cbn [app]. rewrite selected_line, Happ by done. by rewrite app_assoc.
    + right. rewrite !length_app. cbn [length]. rewrite length_app. lia.
  - exists [], p. split_and!; try done. by left.
Qed.

(** Every run of bytes without a newline fits into the buffer. *)
Definition short_lines (data : list Z) : Prop :=
  forall a b c, data = a ++ b ++ c -> newline ∉ b -> (length b < BUFSIZE)%nat.

Lemma short_lines_suffix a data : short_lines (a ++ data) -> short_lines data.
Proof. intros H x b c E. apply (H (a ++ x) b c). rewrite E. by rewrite <- app_assoc. Qed.

Lemma grep_file_spec pattern k : forall kept data,
  0 ∉ kept ++ data -> newline ∉ kept -> short_lines (kept ++ data) -> (length data <= k)%nat ->
  grep_file k pattern kept data = Some (selected pattern (kept ++ data)).
Proof.
  induction k as [|k IH]; intros kept data Hz Hn Hs Hk.
  { destruct data; [|cbn in Hk; lia]. cbn [grep_file]. rewrite take_nil, app_nil_r. by rewrite selected_run. }
  pose proof (Hs [] kept data eq_refl Hn) as Hlk. set (n := (BUFSIZE - length kept)%nat).
  destruct data as [|x data].
  { cbn [grep_file]. rewrite take_nil, app_nil_r. by rewrite selected_run. }
  set (all := x :: data) in *. assert (Et : exists y c, take n all = y :: c) by (unfold n, all; destruct (BUFSIZE - length kept)%nat eqn:?; [lia|by cbn; eauto]).
  destruct Et as (y & chunk & Et). cbn [grep_file]. fold n. rewrite Et. set (ch := y :: chunk) in *.
  unfold grep_round. assert (Hall : kept ++ all = (kept ++ ch) ++ drop n all) by (by rewrite <- app_assoc, <- Et, take_drop).
  assert (Hdrop : (length (drop n all) <= k)%nat) by (assert (length all = S (length data)) by done; rewrite length_drop; unfold n; lia).
  destruct (scan_lines_spec pattern (length (kept ++ ch)) (kept ++ ch)) as (dn & rest & E & Eb & Hr & Happ & Hd);
    [rewrite Hall in Hz; set_solver +Hz|done|]. rewrite E.
  rewrite Hall, Eb. case_bool_decide as Hl.
  - assert (Ed : dn = []) by (rewrite length_app in Hl; destruct dn; [done|cbn in Hl; lia]). subst dn. cbn [app] in *. subst rest.
    rewrite (IH [] (drop n all)); cbn [app]; try done; [| |set_solver +|].
    + assert (Hend : drop n all = []).
      { apply drop_ge. destruct (decide (length all <= n)%nat) as [|Hlt]; [done|]. exfalso.
        pose proof (Hs [] (kept ++ ch) (drop n all) Hall Hr) as Hx. rewrite length_app, <- Et, length_take in Hx. unfold n in *. lia. }
      rewrite Hend, app_nil_r, (selected_run pattern (kept ++ ch)) by done. reflexivity.
    + rewrite Hall in Hz. set_solver +Hz.
    + apply (short_lines_suffix (kept ++ ch)). by rewrite <- Hall.
  - rewrite (IH rest (drop n all)); try done.
    + cbn. f_equal. by rewrite <- app_assoc, Happ.
    + rewrite Hall, Eb in Hz. set_solver +Hz.
    + apply (short_lines_suffix dn). rewrite app_assoc, <- Eb. by rewrite <- Hall.
Qed.

(** A piece without a newline is dropped, also when the buffer has room: the
    rest of its line then stands alone. *)
Lemma grep_reads_loses_piece pattern a chunks : 0 ∉ a -> newline ∉ a -> a <> [] ->
  grep_reads pattern [] (a :: chunks) = grep_reads pattern [] chunks.
Proof.
  intros Hz Hn Ha. destruct a as [|x a]; [done|]. cbn [grep_reads]. unfold grep_round. cbn [app].
  pose proof (next_line_spec (x :: a) Hz) as Hs. cbn [length scan_lines].
  destruct (next_line (x :: a)) as [[line rest]|]; [destruct Hs as [Hs _]; rewrite Hs in Hn; set_solver +Hn|].
  by rewrite bool_decide_eq_true_2.
Qed.

(** C23: The matcher of grep decides the language of its pattern: [match] returns 1
    exactly if some part of the text (a prefix, if the pattern starts with
    [^]; up to the end, if it ends in [$]) is in the language of the items, a
    character, a period for any character, or either of them starred. *)
Theorem match_decides_language re text : match_ re text = true <-> matches re text.
Proof.
  unfold match_, matches. destruct re as [|r re].
  - split; [done|]. intros _. apply match_from_spec. exists [], text. split; [done|].
    exists [], text. split_and!; try done. constructor.
  - destruct (r =? caret); [by apply (matchhere_spec (length re))|apply match_from_spec].
Qed.

(** grep prints the matching lines.  On a file without NUL bytes in which no
    line is as long as the buffer, the loop ends and writes exactly the lines
    that match, in order, each with its newline, wherever the reads cut
    them. *)
Theorem grep_prints_matching_lines pattern data :
  0 ∉ data -> short_lines data -> grep_file (length data) pattern [] data = Some (selected pattern data).
Proof. intros Hz Hs. apply grep_file_spec; try done. set_solver +. Qed.

Lemma grep_prints_matching_lines_witness :
  exists data, data = cbytes "one" ++ [newline] ++ cbytes "two" ++ [newline] ++ cbytes "three" ++ [newline] /\
    grep_file (length data) (cbytes "^t.*o$") [] data = Some (cbytes "two" ++ [newline]).
Proof.
  eexists. split; [reflexivity|]. rewrite grep_prints_matching_lines.
  - reflexivity.
  - intros H. repeat (apply elem_of_cons in H as [H|H]; [discriminate H|]). by apply elem_of_nil in H.
  - intros a b c E _. apply (f_equal length) in E. rewrite !length_app in E. unfold BUFSIZE. cbn in E. lia.
Defined.
