(* ===== verification/Sh.v ===== *)
(** * The parser of the shell (HW3/sh.c)

    A command line is the list of its bytes; a pointer into it is the position,
    and at the end position C reads the terminating NUL.  The parser is a
    state monad over the position [*ps].

    [parseexec] keeps filling the [execcmd] that [parseredirs] may have wrapped
    already; here the arguments and the redirections are collected and the
    tree is built when the node is complete.  [malloc] is assumed to
    succeed. *)

From stdpp Require Import base numbers list sets strings.
From Stdlib Require Import ZArith Lia.
From S2P Require Import Prelude Sysfile.

Open Scope Z_scope.

Definition MAXARGS : nat := 10.

(** A word of the line: from its first byte to the one after its last. *)
Definition word := (nat * nat)%type.

Inductive cmd :=
| EXEC (argv : list word)
| REDIR (c : cmd) (file : word) (mode fd : Z)
| PIPE (left right : cmd)
| LIST (left right : cmd)
| BACK (c : cmd).

Definition whitespace : list Z := [32; 9; 13; 10; 11].
Definition symbols : list Z := cbytes "<|>&;()".

(** [strchr(s, c)] of ulib.c, as a test. *)
Definition strchr (s : list Z) (c : Z) : bool := bool_decide (c ∈ s).

(** Writes a NUL after every word of the command. *)
Fixpoint nulterminate (c : cmd) (b : list Z) : list Z :=
  match c with
  | EXEC argv => fold_left (fun b w => <[w.2 := 0]> b) argv b
  | REDIR c f _ _ => <[f.2 := 0]> (nulterminate c b)
  | PIPE l r | LIST l r => nulterminate r (nulterminate l b)
  | BACK c => nulterminate c b
  end.

Section parser.
(** The line, up to the NUL. *)
Context (buf : list Z).

Definition es : nat := length buf.
Definition at_ (s : nat) : Z := default 0 (buf !! s).

(** [while(s < es && strchr(whitespace, *s)) s++], and the same for a word. *)
Fixpoint skip_while (f : Z -> bool) (k s : nat) : nat :=
  match k with
  | O => s
  | S k' => if (s <? es)%nat && f (at_ s) then skip_while f k' (S s) else s
  end.

Definition skip_space (s : nat) : nat := skip_while (strchr whitespace) (es - s) s.
Definition skip_word (s : nat) : nat :=
  skip_while (fun c => negb (strchr whitespace c) && negb (strchr symbols c)) (es - s) s.

Definition tok_word : Z := 97.
Definition tok_append : Z := 43.

(** The token at [s], 0 at the end of the line, and its word. *)
Definition token (s : nat) : Z * word :=
  let q := skip_space s in
  let c := at_ q in
  if c =? 0 then (0, (q, q))
  else if strchr (cbytes "|();&<") c then (c, (q, S q))
  else if c =? 62 then
    if at_ (S q) =? 62 then (tok_append, (q, S (S q))) else (c, (q, S q))
  else (tok_word, (q, skip_word q)).

Definition gettoken : M nat (Z * word) := fun s => Ok (token s) (skip_space (token s).2.2).

Definition peek (toks : list Z) : M nat bool := fun s =>
  let s := skip_space s in
  Ok (negb (at_ s =? 0) && strchr toks (at_ s)) s.

Definition redir := (word * Z * Z)%type.

(** The node for one redirection: [file], [mode] and [fd]. *)
Definition redir_of (tok : Z) (file : word) : list redir :=
  if tok =? 60 then [(file, O_RDONLY, 0)]
  else if tok =? 62 then [(file, Z.lor O_WRONLY O_CREATE, 1)]
  else if tok =? tok_append then [(file, Z.lor O_WRONLY O_CREATE, 1)]
  else [].

(** The loop of [parseredirs]: the redirections in the order they are read. *)
Fixpoint parseredirs (k : nat) (acc : list redir) : M nat (list redir) :=
  more ← peek (cbytes "<>");
  if negb more then mret acc else
  match k with
  | O => diverge
  | S k' =>
      t ← gettoken;
      f ← gettoken;
      if negb (f.1 =? tok_word) then panic "missing file for redirection" else
      parseredirs k' (acc ++ redir_of t.1 f.2)
  end.

Definition add_redirs (c : cmd) (rs : list redir) : cmd :=
  fold_left (fun c r => REDIR c r.1.1 r.1.2 r.2) rs c.

(** The loop of [parseexec] over the arguments. *)
Fixpoint parseargs (k : nat) (argv : list word) (rs : list redir) : M nat cmd :=
  stop ← peek (cbytes "|)&;");
  if (stop : bool) then mret (add_redirs (EXEC argv) rs) else
  match k with
  | O => diverge
  | S k' =>
      t ← gettoken;
      if t.1 =? 0 then mret (add_redirs (EXEC argv) rs)
      else if negb (t.1 =? tok_word) then panic "syntax"
      else
        let argv := argv ++ [t.2] in
        if (MAXARGS <=? length argv)%nat then panic "too many args" else
        rs ← parseredirs (S es) rs;
        parseargs k' argv rs
  end.

(** The loop of [parseline] over [&]. *)
Fixpoint parseback (k : nat) (c : cmd) : M nat cmd :=
  more ← peek (cbytes "&");
  if negb more then mret c else
  match k with
  | O => diverge
  | S k' => gettoken;; parseback k' (BACK c)
  end.

Fixpoint parseline (n : nat) : M nat cmd :=
  match n with
  | O => diverge
  | S n' =>
      c ← parsepipe n';
      c ← parseback (S es) c;
      more ← peek (cbytes ";");
      if negb more then mret c else
      gettoken;;
      r ← parseline n';
      mret (LIST c r)
  end
with parsepipe (n : nat) : M nat cmd :=
  match n with
  | O => diverge
  | S n' =>
      c ← parseexec n';
      more ← peek (cbytes "|");
      if negb more then mret c else
      gettoken;;
      r ← parsepipe n';
      mret (PIPE c r)
  end
with parseexec (n : nat) : M nat cmd :=
  match n with
  | O => diverge
  | S n' =>
      block ← peek (cbytes "(");
      if (block : bool) then parseblock n' else
      rs ← parseredirs (S es) [];
      parseargs (S es) [] rs
  end
with parseblock (n : nat) : M nat cmd :=
  match n with
  | O => diverge
  | S n' =>
      open ← peek (cbytes "(");
      if negb open then panic "parseblock" else
      gettoken;;
      c ← parseline n';
      close ← peek (cbytes ")");
      if negb close then panic "syntax - missing )" else
      gettoken;;
      rs ← parseredirs (S es) [];
      mret (add_redirs c rs)
  end.

(** The command and the line with its words terminated.  The calls nest at
    most four deep for each byte. *)
Definition parsecmd : outcome nat (cmd * list Z) :=
  (c ← parseline (4 * es + 4);
   peek [];;
   s ← get;
   if negb (s =? es)%nat then panic "syntax" else
   mret (c, nulterminate c (buf ++ [0]))) 0%nat.

End parser.

