(* ===== verification/ShSpec.v ===== *)
(** * The grammar of the shell and what its parser does (HW3/sh.c)

    The tokens of a line, the grammar of command lines over them as an
    inductive relation, and the parser against it: it always stops, it accepts
    exactly the lines of the grammar with the tree the grammar gives, and in
    the line it leaves behind every word of the command is a string of its
    own. *)

From stdpp Require Import base numbers list sets strings.
From Stdlib Require Import ZArith Lia.
From S2P Require Import Prelude Sysfile Sh.

Open Scope Z_scope.

(** ** Tokens *)

Notation tokens := (list (Z * word)).

Section lexer.
Context (buf : list Z).

(** The tokens from a position on. *)
Fixpoint lex (k s : nat) : tokens :=
  match k with
  | O => []
  | S k' =>
      let t := token buf s in
      if t.1 =? 0 then [] else t :: lex k' (skip_space buf t.2.2)
  end.

Definition line_tokens : tokens := lex (S (es buf)) 0%nat.

(** A byte of a word. *)
Definition word_char (c : Z) : bool := negb (strchr whitespace c) && negb (strchr symbols c).

(** A word as the lexer cuts it: not empty, word bytes only, and ended by the
    end of the line or another byte. *)
Definition word_ok (w : word) : Prop :=
  (w.1 < w.2 <= es buf)%nat /\
  (forall i, (w.1 <= i < w.2)%nat -> word_char (at_ buf i) = true) /\
  ((w.2 < es buf)%nat -> word_char (at_ buf w.2) = false).

(** From [s] the tokens are [ts]. *)
Inductive lexes : nat -> tokens -> Prop :=
| lexes_end s :
    (s <= es buf)%nat -> (token buf s).1 = 0 -> lexes s []
| lexes_token s ts :
    (s <= es buf)%nat -> (token buf s).1 <> 0 ->
    lexes (skip_space buf (token buf s).2.2) ts ->
    lexes s (token buf s :: ts).

Lemma at_lt s : at_ buf s <> 0 -> (s < es buf)%nat.
Proof.
  unfold at_, es. destruct (buf !! s) eqn:E; [|done].
  intros _. by eapply lookup_lt_Some.
Qed.

Lemma skip_while_spec f k s :
  (s <= skip_while buf f k s)%nat /\
  ((s <= es buf)%nat -> (skip_while buf f k s <= es buf)%nat) /\
  (forall i, (s <= i < skip_while buf f k s)%nat -> f (at_ buf i) = true) /\
  ((es buf - s <= k)%nat -> (skip_while buf f k s < es buf)%nat ->
     f (at_ buf (skip_while buf f k s)) = false).
Proof.
  revert s. induction k as [|k IH]; intros s; cbn [skip_while].
  - split_and!; intros; lia.
  - destruct ((s <? es buf)%nat && f (at_ buf s)) eqn:E.
    + apply andb_true_iff in E as [El%Nat.ltb_lt Ef].
      destruct (IH (S s)) as (H1 & H2 & H3 & H4). split_and!; try lia.
      * intros i Hi. destruct (decide (i = s)) as [->|]; [done|]. apply H3. lia.
      * intros. apply H4; lia.
    + split_and!; try lia. intros _ Hs.
      apply andb_false_iff in E as [El%Nat.ltb_ge|Ef]; [lia|done].
Qed.

Lemma skip_space_ge s : (s <= skip_space buf s)%nat.
Proof. apply skip_while_spec. Qed.

Lemma skip_space_le s : (s <= es buf)%nat -> (skip_space buf s <= es buf)%nat.
Proof. apply skip_while_spec. Qed.

Lemma skip_space_stop s :
  (skip_space buf s < es buf)%nat -> strchr whitespace (at_ buf (skip_space buf s)) = false.
Proof. apply skip_while_spec. done. Qed.

Lemma skip_space_idem s : skip_space buf (skip_space buf s) = skip_space buf s.
Proof.
  set (q := skip_space buf s). destruct (decide (q < es buf)%nat) as [Hq|Hq].
  - unfold skip_space at 1. destruct (es buf - q)%nat; [done|]. cbn [skip_while].
    unfold q. rewrite skip_space_stop by done. by rewrite andb_false_r.
  - unfold skip_space. by replace (es buf - q)%nat with 0%nat by lia.
Qed.

(** The bytes a token can start with, by its code. *)
Definition token_char (t c : Z) : Prop :=
  (t = c /\ c ∈ cbytes "|();&<>") \/ (t = tok_append /\ c = 62) \/
  (t = tok_word /\ c ∉ symbols).

Lemma token_spec s :
  (s <= es buf)%nat ->
  let q := skip_space buf s in
  let '(t, w) := token buf s in
  (t = 0 /\ at_ buf q = 0) \/
  (at_ buf q <> 0 /\ t <> 0 /\ token_char t (at_ buf q) /\
   (s < w.2 <= es buf)%nat /\ (t = tok_word -> word_ok w)).
Proof.
  intros Hs q. unfold token. fold q.
  pose proof (skip_space_ge s) as Hge. pose proof (skip_space_le s Hs) as Hle.
  fold q in Hge, Hle.
  destruct (Z.eqb_spec (at_ buf q) 0) as [E0|E0]; [cbv iota; by left|].
  pose proof (at_lt _ E0) as Hq. unfold strchr.
  destruct (bool_decide_reflect (at_ buf q ∈ cbytes "|();&<")) as [Hin|Hin].
  { right. split_and!; cbn; try lia; try done.
    - left. split; [done|]. revert Hin. generalize (at_ buf q). cbn. set_solver +.
    - intros E. rewrite E in Hin. exfalso. revert Hin. cbn. set_solver +. }
  destruct (Z.eqb_spec (at_ buf q) 62) as [E62|E62].
  { destruct (Z.eqb_spec (at_ buf (S q)) 62) as [E|E].
    - assert (S q < es buf)%nat by (apply at_lt; lia). right.
      split_and!; cbn; try lia; try done. right. by left.
    - right. split_and!; cbn; try lia; try done.
      + left. split; [done|]. rewrite E62. cbn. set_solver +.
      + rewrite E62. done. }
  assert (Hsym : at_ buf q ∉ symbols).
  { clear -Hin E62. revert Hin E62. generalize (at_ buf q). unfold symbols. cbn. set_solver +. }
  assert (Hq1 : word_char (at_ buf q) = true).
  { unfold word_char. unfold q. rewrite skip_space_stop by done. fold q.
    unfold strchr. by rewrite bool_decide_eq_false_2. }
  destruct (skip_while_spec word_char (es buf - q) q) as (H1 & H2 & H3 & H4).
  change (skip_while buf word_char (es buf - q) q) with (skip_word buf q) in H1, H2, H3, H4.
  assert (Hlt : (q < skip_word buf q)%nat).
  { destruct (decide (skip_word buf q = q)) as [E|]; [|lia].
    rewrite E in H4. rewrite H4 in Hq1; [done|done|done]. }
  right. split_and!; cbn; try lia; try done.
  - right. right. done.
  - intros _. split_and!; cbn; [lia|lia|exact H3|]. intros. by apply H4.
Qed.

Lemma token_next s :
  (s <= es buf)%nat -> (token buf s).1 <> 0 ->
  (s < skip_space buf (token buf s).2.2 <= es buf)%nat.
Proof.
  intros Hs Ht. pose proof (token_spec s Hs) as H. cbv zeta in H.
  destruct (token buf s) as [t w]. cbn in *.
  destruct H as [[? _]|(_ & _ & _ & [? ?] & _)]; [done|].
  pose proof (skip_space_ge w.2). pose proof (skip_space_le w.2). lia.
Qed.

Lemma lex_lexes k s : (es buf - s < k)%nat -> (s <= es buf)%nat -> lexes s (lex k s).
Proof.
  revert s. induction k as [|k IH]; intros s Hk Hs; [lia|]. cbn [lex].
  destruct (Z.eqb_spec (token buf s).1 0) as [E|E]; [by apply lexes_end|].
  pose proof (token_next s Hs E). apply lexes_token; [done|done|]. apply IH; lia.
Qed.

Lemma line_tokens_ok : lexes 0 line_tokens.
Proof. apply lex_lexes; lia. Qed.

Lemma lexes_le s ts : lexes s ts -> (s <= es buf)%nat.
Proof. by destruct 1. Qed.

Lemma lexes_length s ts : lexes s ts -> (length ts <= es buf - s)%nat.
Proof.
  induction 1 as [|s ts Hs Ht H IH]; cbn; [lia|].
  pose proof (token_next s Hs Ht). lia.
Qed.

Lemma lexes_words s ts w : lexes s ts -> (tok_word, w) ∈ ts -> word_ok w.
Proof.
  intros H. induction H as [|s ts Hs Ht H IH]; [by intros ?%elem_of_nil|].
  intros [E|Hin]%elem_of_cons; [|by apply IH].
  pose proof (token_spec s Hs) as Hsp. cbv zeta in Hsp. rewrite <- E in Hsp, Ht.
  destruct Hsp as [[? _]|(_ & _ & _ & _ & Hw)]; [done|]. by apply Hw.
Qed.

Lemma token_skip s : token buf (skip_space buf s) = token buf s.
Proof. unfold token. by rewrite skip_space_idem. Qed.

Lemma lexes_skip s ts : lexes s ts -> lexes (skip_space buf s) ts.
Proof.
  intros [s0 Hs Ht|s0 ts0 Hs Ht H]; pose proof (skip_space_le _ Hs).
  - apply lexes_end; [done|]. by rewrite token_skip.
  - rewrite <- token_skip. apply lexes_token; rewrite ?token_skip; done.
Qed.

(** *** The two operations of the parser, on tokens *)

(** [*s] at a token, and whether it is one of [toks]. *)
Definition starts_with (toks : list Z) (ts : tokens) : bool :=
  match ts with
  | [] => false
  | (t, _) :: _ => strchr toks (if t =? tok_append then 62 else t)
  end.

Lemma gettoken_cons s t ts :
  lexes s (t :: ts) -> exists s', gettoken buf s = Ok t s' /\ lexes s' ts.
Proof.
  intros H. inversion H; subst. eexists. split; [reflexivity|done].
Qed.

Lemma gettoken_nil s :
  lexes s [] -> exists w s', gettoken buf s = Ok (0, w) s' /\ lexes s' [].
Proof.
  intros H. inversion H as [? Hs Ht|]; subst.
  pose proof (token_spec s Hs) as Hsp. cbv zeta in Hsp. unfold gettoken.
  destruct (token buf s) as [t w] eqn:E. cbn in Ht. subst t.
  eexists w, _. split; [reflexivity|]. cbn [snd].
  assert (w.2 = skip_space buf s) as ->.
  { unfold token in E. destruct Hsp as [[_ E0]|(_ & ? & _)]; [|done].
    rewrite E0 in E. cbn in E. by inversion E. }
  by do 2 apply lexes_skip.
Qed.

Lemma peek_ok toks s ts :
  (forall c, c ∈ toks -> c ∈ symbols) -> lexes s ts ->
  exists s', peek buf toks s = Ok (starts_with toks ts) s' /\ lexes s' ts.
Proof.
  intros Hsub H. exists (skip_space buf s). split; [|by apply lexes_skip].
  unfold peek. cbv zeta. f_equal.
  pose proof (token_spec s (lexes_le _ _ H)) as Hsp. cbv zeta in Hsp.
  inversion H as [? Hs Ht|? ts' Hs Ht H']; subst; cbn [starts_with];
    destruct (token buf s) as [t w]; cbn in Ht.
  - destruct Hsp as [[_ ->]|(_ & ? & _)]; done.
  - destruct Hsp as [[? _]|(Hc & _ & Hch & _)]; [done|].
    rewrite (proj2 (Z.eqb_neq _ 0) Hc). cbn [negb andb].
    destruct Hch as [[-> Hin]|[[-> ->]|[-> Hns]]].
    + destruct (Z.eqb_spec (at_ buf (skip_space buf s)) tok_append) as [E|]; [|done].
      exfalso. rewrite E in Hin. revert Hin. cbn. clear. set_solver +.
    + done.
    + cbn. unfold strchr. rewrite !bool_decide_eq_false_2; [done| |].
      * intros Hin%Hsub. revert Hin. unfold symbols. cbn. clear. set_solver +.
      * intros Hin%Hsub. done.
Qed.

End lexer.

(** ** The grammar *)

(** Redirections: [< f], [> f] and [>> f]. *)
Inductive redirs_of : tokens -> list redir -> Prop :=
| redirs_nil : redirs_of [] []
| redirs_in w f ts rs :
    redirs_of ts rs ->
    redirs_of ((60, w) :: (tok_word, f) :: ts) ((f, O_RDONLY, 0) :: rs)
| redirs_out t w f ts rs :
    t = 62 \/ t = tok_append -> redirs_of ts rs ->
    redirs_of ((t, w) :: (tok_word, f) :: ts) ((f, Z.lor O_WRONLY O_CREATE, 1) :: rs).

(** Arguments, each with the redirections after it. *)
Inductive args_of : tokens -> list word -> list redir -> Prop :=
| args_nil : args_of [] [] []
| args_cons w rts rs ts ws rs' :
    redirs_of rts rs -> args_of ts ws rs' ->
    args_of ((tok_word, w) :: rts ++ ts) (w :: ws) (rs ++ rs').

(** A command put in the background once for each [&]. *)
Fixpoint back (n : nat) (c : cmd) : cmd :=
  match n with O => c | S n' => back n' (BACK c) end.

Definition ands (ts : tokens) : Prop := Forall (fun t => t.1 = 38) ts.

Inductive exec_of : tokens -> cmd -> Prop :=
| exec_args rts rs ats ws rs' :
    redirs_of rts rs -> args_of ats ws rs' -> (length ws < MAXARGS)%nat ->
    exec_of (rts ++ ats) (add_redirs (EXEC ws) (rs ++ rs'))
| exec_block w ts c w' rts rs :
    line_of ts c -> redirs_of rts rs ->
    exec_of ((40, w) :: ts ++ (41, w') :: rts) (add_redirs c rs)
with pipe_of : tokens -> cmd -> Prop :=
| pipe_one ts c : exec_of ts c -> pipe_of ts c
| pipe_more ts c w ts' c' :
    exec_of ts c -> pipe_of ts' c' -> pipe_of (ts ++ (124, w) :: ts') (PIPE c c')
with line_of : tokens -> cmd -> Prop :=
| line_one ts c us :
    pipe_of ts c -> ands us -> line_of (ts ++ us) (back (length us) c)
| line_more ts c us w ts' c' :
    pipe_of ts c -> ands us -> line_of ts' c' ->
    line_of (ts ++ us ++ (59, w) :: ts') (LIST (back (length us) c) c').

Scheme exec_of_mut := Minimality for exec_of Sort Prop
  with pipe_of_mut := Minimality for pipe_of Sort Prop
  with line_of_mut := Minimality for line_of Sort Prop.
Combined Scheme grammar_ind from exec_of_mut, pipe_of_mut, line_of_mut.

(** ** The parser stays in the grammar, and stops *)

(** What the parser reports. *)
Definition syntax_errors : list string :=
  ["missing file for redirection"; "syntax"; "too many args"; "syntax - missing )"]%string.

(** The bytes the parser looks for are symbols. *)
Definition all_symbols (toks : list Z) : bool := forallb (strchr symbols) toks.

Lemma all_symbols_in toks : all_symbols toks = true -> forall c, c ∈ toks -> c ∈ symbols.
Proof.
  intros H c Hc. unfold all_symbols in H. rewrite forallb_forall in H.
  apply list_elem_of_In, H in Hc. by apply bool_decide_eq_true in Hc.
Qed.

Section sound.
Context (buf : list Z).

(** [m] stops on the tokens [ts]: with a result and the tokens left as [Q]
    says, or with a syntax error. *)
Definition yields {A} (m : M nat A) (ts : tokens) (Q : A -> tokens -> Prop) : Prop :=
  forall s, lexes buf s ts ->
  match m s with
  | Ok a s' => exists ts', lexes buf s' ts' /\ Q a ts'
  | Panic msg => msg ∈ syntax_errors
  | _ => False
  end.

Lemma yields_bind {A B} (m : M nat A) (k : A -> M nat B) ts Q R :
  yields m ts Q -> (forall a ts', Q a ts' -> yields (k a) ts' R) -> yields (m ≫= k) ts R.
Proof.
  intros Hm Hk s Hs. specialize (Hm s Hs). unfold mbind, M_bind.
  destruct (m s) as [a s'| | | |]; try done.
  destruct Hm as (ts' & Hs' & HQ). by apply (Hk a ts' HQ).
Qed.

Lemma yields_ret {A} (a : A) ts (Q : A -> tokens -> Prop) : Q a ts -> yields (mret a) ts Q.
Proof. intros HQ s Hs. cbn. eauto. Qed.

Lemma yields_panic {A} msg ts (Q : A -> tokens -> Prop) :
  msg ∈ syntax_errors -> yields (panic msg) ts Q.
Proof. intros Hm s Hs. done. Qed.

Lemma yields_peek {B} toks (k : bool -> M nat B) ts R :
  all_symbols toks = true -> yields (k (starts_with toks ts)) ts R ->
  yields (peek buf toks ≫= k) ts R.
Proof.
  intros Ht Hk s Hs.
  destruct (peek_ok buf toks s ts (all_symbols_in _ Ht) Hs) as (s' & E & Hs').
  unfold mbind, M_bind. rewrite E. by apply Hk.
Qed.

Lemma yields_gettoken {B} (k : Z * word -> M nat B) ts R :
  match ts with
  | [] => forall w, yields (k (0, w)) [] R
  | t :: ts' => t.1 <> 0 -> yields (k t) ts' R
  end -> yields (gettoken buf ≫= k) ts R.
Proof.
  intros Hk s Hs. unfold mbind, M_bind. destruct ts as [|t ts].
  - destruct (gettoken_nil buf s Hs) as (w & s' & E & Hs'). rewrite E. by apply Hk.
  - destruct (gettoken_cons buf s t ts Hs) as (s' & E & Hs'). rewrite E.
    apply Hk; [|done]. by inversion Hs.
Qed.

Lemma starts_with_char c ts :
  starts_with [c] ts = true -> c <> 62 -> c <> tok_append -> exists w ts', ts = (c, w) :: ts'.
Proof.
  destruct ts as [|[t w] ts]; [done|]. cbn. unfold strchr. intros H%bool_decide_eq_true H1 H2.
  apply list_elem_of_singleton in H. destruct (Z.eqb_spec t tok_append); [done|]. subst. eauto.
Qed.

Lemma starts_with_redir ts :
  starts_with (cbytes "<>") ts = true ->
  exists t w ts', ts = (t, w) :: ts' /\ (t = 60 \/ t = 62 \/ t = tok_append).
Proof.
  destruct ts as [|[t w] ts]; [done|]. cbn. unfold strchr. intros H%bool_decide_eq_true.
  exists t, w, ts. split; [done|]. destruct (Z.eqb_spec t tok_append); [tauto|]. set_solver +H.
Qed.

Lemma redirs_app ts rs ts' rs' :
  redirs_of ts rs -> redirs_of ts' rs' -> redirs_of (ts ++ ts') (rs ++ rs').
Proof. induction 1; intros; cbn; [done|constructor; auto..]. Qed.

Lemma redirs_one t w f :
  t = 60 \/ t = 62 \/ t = tok_append -> redirs_of [(t, w); (tok_word, f)] (redir_of t f).
Proof.
  intros [->|[->| ->]]; unfold redir_of; cbn.
  - repeat constructor.
  - repeat constructor; tauto.
  - repeat constructor; tauto.
Qed.

Lemma parseredirs_yields k acc ts :
  (length ts <= k)%nat ->
  yields (parseredirs buf k acc) ts (fun rs ts' =>
    exists us rs', ts = us ++ ts' /\ rs = acc ++ rs' /\ redirs_of us rs').
Proof.
  revert acc ts. induction k as [|k IH]; intros acc ts Hk; cbn [parseredirs];
    (apply yields_peek; [reflexivity|]);
    (destruct (starts_with (cbytes "<>") ts) eqn:E; cbn [negb];
      [|apply yields_ret; exists [], []; rewrite app_nil_r; split_and!; [done|done|constructor]]).
  { destruct ts; [done|cbn in Hk; lia]. }
  apply starts_with_redir in E as (t & w & ts' & -> & Ht).
  apply yields_gettoken. intros _. cbn [fst].
  apply yields_gettoken. destruct ts' as [|[t' f] ts'].
  { intros w'. cbn. apply yields_panic. set_solver +. }
  intros _. cbn [fst snd].
  destruct (Z.eqb_spec t' tok_word) as [->|]; cbn [negb]; [|apply yields_panic; set_solver +].
  cbn in Hk. intros s Hs. specialize (IH (acc ++ redir_of t f) ts' ltac:(lia) s Hs).
  destruct (parseredirs buf k _ s) as [rs s'| | | |]; try done.
  destruct IH as (ts'' & Hs' & us & rs' & -> & -> & Hr).
  exists ts''. split; [done|].
  exists ((t, w) :: (tok_word, f) :: us), (redir_of t f ++ rs').
  split_and!; [done|by rewrite app_assoc|].
  apply (redirs_app [_; _]); [by apply redirs_one|done].
Qed.

Lemma yields_conseq {A} (m : M nat A) ts (Q R : A -> tokens -> Prop) :
  yields m ts Q -> (forall a ts', Q a ts' -> R a ts') -> yields m ts R.
Proof.
  intros Hm HR s Hs. specialize (Hm s Hs). destruct (m s); try done.
  destruct Hm as (ts' & ? & ?). eauto.
Qed.

Lemma yields_len {A} (m : M nat A) ts (Q : A -> tokens -> Prop) :
  ((length ts <= es buf)%nat -> yields m ts Q) -> yields m ts Q.
Proof. intros H s Hs. apply H; [|done]. pose proof (lexes_length _ _ _ Hs). lia. Qed.

Lemma parseargs_yields k argv rs ts :
  (length ts < k)%nat -> (length argv < MAXARGS)%nat ->
  yields (parseargs buf k argv rs) ts (fun c ts' =>
    exists us ws rs', ts = us ++ ts' /\ args_of us ws rs' /\
      (length (argv ++ ws) < MAXARGS)%nat /\ c = add_redirs (EXEC (argv ++ ws)) (rs ++ rs')).
Proof.
  revert argv rs ts. induction k as [|k IH]; intros argv rs ts Hk Ha; [lia|]. cbn [parseargs].
  assert (Hend : exists us ws rs', ts = us ++ ts /\ args_of us ws rs' /\
      (length (argv ++ ws) < MAXARGS)%nat /\
      add_redirs (EXEC argv) rs = add_redirs (EXEC (argv ++ ws)) (rs ++ rs')).
  { exists [], [], []. rewrite !app_nil_r. split_and!; [done|constructor|done|done]. }
  apply yields_peek; [reflexivity|]. destruct (starts_with _ ts); [by apply yields_ret|].
  apply yields_gettoken. destruct ts as [|[t w] ts].
  { intros w. cbn. by apply yields_ret. }
  clear Hend. cbn [fst snd]. intros Ht. rewrite (proj2 (Z.eqb_neq t 0) Ht).
  destruct (Z.eqb_spec t tok_word) as [->|]; cbn [negb]; [|apply yields_panic; set_solver +].
  destruct (Nat.leb_spec MAXARGS (length (argv ++ [w]))); [apply yields_panic; set_solver +|].
  apply yields_len. intros Hlen. cbn in Hk.
  eapply yields_bind; [apply parseredirs_yields; lia|].
  intros rs1 ts1 (us & rs' & -> & -> & Hr). rewrite length_app in Hk, Hlen.
  eapply yields_conseq; [apply IH; [lia|done]|]. cbn beta.
  intros c ts2 (us2 & ws & rs2 & -> & Hargs & Hws & ->).
  exists ((tok_word, w) :: us ++ us2), (w :: ws), (rs' ++ rs2).
  rewrite <- app_assoc in Hws. rewrite <- !app_assoc. cbn in *.
  split_and!; [by rewrite app_assoc|by constructor|done|done].
Qed.

Lemma parseback_yields k c ts :
  (length ts <= k)%nat ->
  yields (parseback buf k c) ts (fun c' ts' =>
    exists us, ts = us ++ ts' /\ ands us /\ c' = back (length us) c).
Proof.
  revert c ts. induction k as [|k IH]; intros c ts Hk; cbn [parseback];
    (apply yields_peek; [reflexivity|]);
    (destruct (starts_with (cbytes "&") ts) eqn:E; cbn [negb];
      [|apply yields_ret; exists []; split_and!; [done|constructor|done]]).
  { destruct ts; [done|cbn in Hk; lia]. }
  apply starts_with_char in E as (w & ts' & ->); [|done|done].
  apply yields_gettoken. intros _. cbn in Hk.
  eapply yields_conseq; [apply IH; lia|]. cbn beta.
  intros c' ts'' (us & -> & Hu & ->). exists ((38, w) :: us).
  split_and!; [done|by constructor|done].
Qed.

Definition grammatical (G : tokens -> cmd -> Prop) (ts : tokens) (c : cmd) (ts' : tokens) : Prop :=
  exists us, ts = us ++ ts' /\ G us c.

Definition parses (G : tokens -> cmd -> Prop) (m : M nat cmd) (ts : tokens) : Prop :=
  yields m ts (grammatical G ts).

Lemma parseline_step n ts :
  parses pipe_of (parsepipe buf n) ts ->
  (forall ts', (length ts' < length ts)%nat -> parses line_of (parseline buf n) ts') ->
  parses line_of (parseline buf (S n)) ts.
Proof.
  intros Hp Hl. unfold parses. cbn [parseline].
  eapply yields_bind; [exact Hp|]. intros c ts1 (us & -> & Hc).
  apply yields_len. intros Hlen.
  eapply yields_bind; [apply parseback_yields; lia|].
  intros c' ts2 (vs & -> & Hv & ->). apply yields_peek; [reflexivity|].
  destruct (starts_with (cbytes ";") ts2) eqn:E; cbn [negb].
  - apply starts_with_char in E as (w & ts3 & ->); [|done|done].
    apply yields_gettoken. intros _. rewrite !length_app in Hl.
    eapply yields_bind; [apply Hl; cbn; lia|].
    intros r ts4 (ws & -> & Hr). apply yields_ret.
    exists (us ++ vs ++ (59, w) :: ws). split; [|by constructor].
    by rewrite <- !app_assoc.
  - apply yields_ret. exists (us ++ vs). rewrite app_assoc. split; [done|by constructor].
Qed.

Lemma parsepipe_step n ts :
  parses exec_of (parseexec buf n) ts ->
  (forall ts', (length ts' < length ts)%nat -> parses pipe_of (parsepipe buf n) ts') ->
  parses pipe_of (parsepipe buf (S n)) ts.
Proof.
  intros He Hp. unfold parses. cbn [parsepipe].
  eapply yields_bind; [exact He|]. intros c ts1 (us & -> & Hc).
  apply yields_peek; [reflexivity|].
  destruct (starts_with (cbytes "|") ts1) eqn:E; cbn [negb].
  - apply starts_with_char in E as (w & ts3 & ->); [|done|done].
    apply yields_gettoken. intros _. rewrite !length_app in Hp.
    eapply yields_bind; [apply Hp; cbn; lia|].
    intros r ts4 (ws & -> & Hr). apply yields_ret.
    exists (us ++ (124, w) :: ws). split; [|by constructor].
    by rewrite <- !app_assoc.
  - apply yields_ret. exists us. split; [done|by constructor].
Qed.

Lemma parseexec_step n ts :
  (starts_with (cbytes "(") ts = true -> parses exec_of (parseblock buf n) ts) ->
  parses exec_of (parseexec buf (S n)) ts.
Proof.
  intros Hb. unfold parses. cbn [parseexec]. apply yields_peek; [reflexivity|].
  destruct (starts_with (cbytes "(") ts); [by apply Hb|].
  apply yields_len. intros Hlen.
  eapply yields_bind; [apply parseredirs_yields; lia|].
  intros rs ts1 (us & rs' & -> & -> & Hr). rewrite length_app in Hlen.
  eapply yields_conseq; [apply parseargs_yields; [lia|vm_compute; lia]|].
  intros c ts2 (vs & ws & rs2 & -> & Hargs & Hws & ->).
  exists (us ++ vs). rewrite app_assoc. split; [done|by constructor].
Qed.

Lemma parseblock_step n ts :
  starts_with (cbytes "(") ts = true ->
  (forall ts', (length ts' < length ts)%nat -> parses line_of (parseline buf n) ts') ->
  parses exec_of (parseblock buf (S n)) ts.
Proof.
  intros E Hl. unfold parses. cbn [parseblock]. apply yields_peek; [reflexivity|].
  rewrite E. cbn [negb]. apply starts_with_char in E as (w & ts1 & ->); [|done|done].
  apply yields_gettoken. intros _. eapply yields_bind; [apply Hl; cbn; lia|].
  intros c ts2 (us & -> & Hc). apply yields_peek; [reflexivity|].
  destruct (starts_with (cbytes ")") ts2) eqn:E; cbn [negb]; [|apply yields_panic; set_solver +].
  apply starts_with_char in E as (w' & ts3 & ->); [|done|done].
  apply yields_gettoken. intros _. apply yields_len. intros Hlen.
  eapply yields_bind; [apply parseredirs_yields; lia|].
  intros rs ts4 (vs & rs' & -> & -> & Hr). apply yields_ret.
  exists ((40, w) :: us ++ (41, w') :: vs). split; [|by constructor].
  cbn. by rewrite <- app_assoc.
Qed.

(** Every nonterminal, with fuel for four calls for each token. *)
Lemma parse_yields n ts :
  ((4 * length ts + 4 <= n)%nat -> parses line_of (parseline buf n) ts) /\
  ((4 * length ts + 3 <= n)%nat -> parses pipe_of (parsepipe buf n) ts) /\
  ((4 * length ts + 2 <= n)%nat -> parses exec_of (parseexec buf n) ts) /\
  ((4 * length ts + 1 <= n)%nat -> starts_with (cbytes "(") ts = true ->
     parses exec_of (parseblock buf n) ts).
Proof.
  revert ts. induction n as [|n IH]; intros ts; [split_and!; lia|].
  split_and!; intros Hn.
  - apply parseline_step; [apply IH; lia|]. intros. apply IH; lia.
  - apply parsepipe_step; [apply IH; lia|]. intros. apply IH; lia.
  - apply parseexec_step. intros. apply IH; [lia|done].
  - intros E. apply parseblock_step; [done|]. intros. apply IH; lia.
Qed.

End sound.

(** ** The parser accepts the grammar *)

(** The test of [peek] evaluates to [b]. *)
Ltac sees b :=
  match goal with |- context [starts_with ?toks ?ts] => change (starts_with toks ts) with b end;
  cbn [negb]; cbn iota.

Section complete.
Context (buf : list Z).

(** On the tokens [ts] the result of [m] is [a], and [rest] is left. *)
Definition gives {A} (m : M nat A) (ts : tokens) (a : A) (rest : tokens) : Prop :=
  forall s, lexes buf s ts -> exists s', m s = Ok a s' /\ lexes buf s' rest.

Lemma gives_bind {A B} (m : M nat A) (k : A -> M nat B) ts a ts' b rest :
  gives m ts a ts' -> gives (k a) ts' b rest -> gives (m ≫= k) ts b rest.
Proof.
  intros Hm Hk s Hs. destruct (Hm s Hs) as (s' & E & Hs').
  rewrite (bind_ok _ _ _ _ _ E). by apply Hk.
Qed.

Lemma gives_ret {A} (a : A) ts : gives (mret a) ts a ts.
Proof. intros s Hs. by exists s. Qed.

Lemma gives_peek {B} toks (k : bool -> M nat B) ts b rest :
  all_symbols toks = true -> gives (k (starts_with toks ts)) ts b rest ->
  gives (peek buf toks ≫= k) ts b rest.
Proof.
  intros Ht. apply gives_bind. intros s Hs.
  apply peek_ok; [by apply all_symbols_in|done].
Qed.

Lemma gives_gettoken {B} (k : Z * word -> M nat B) t ts b rest :
  gives (k t) ts b rest -> gives (gettoken buf ≫= k) (t :: ts) b rest.
Proof. apply gives_bind. intros s Hs. by apply gettoken_cons. Qed.

Lemma gives_len {A} (m : M nat A) ts a rest :
  ((length ts <= es buf)%nat -> gives m ts a rest) -> gives m ts a rest.
Proof. intros H s Hs. apply H; [|done]. pose proof (lexes_length _ _ _ Hs). lia. Qed.

(** What may follow: nothing, or one of the symbols [cs]. *)
Definition stops (cs : list Z) (rest : tokens) : Prop :=
  match rest with [] => True | t :: _ => t.1 ∈ cs end.

Lemma stops_peek toks cs rest :
  stops cs rest ->
  forallb (fun c => negb (c =? tok_append) && negb (strchr toks c)) cs = true ->
  starts_with toks rest = false.
Proof.
  destruct rest as [|[t w] rest]; [done|]. cbn. intros Hin H. rewrite forallb_forall in H.
  apply list_elem_of_In, H, andb_true_iff in Hin as [H1 H2].
  destruct (t =? tok_append); [done|]. by destruct (strchr toks t).
Qed.

Lemma stops_sub cs cs' rest :
  stops cs rest -> forallb (strchr cs') cs = true -> stops cs' rest.
Proof.
  destruct rest as [|t rest]; [done|]. cbn. intros Hin H. rewrite forallb_forall in H.
  apply list_elem_of_In, H in Hin. by apply bool_decide_eq_true in Hin.
Qed.

Lemma redirs_start us rs toks rest :
  redirs_of us rs -> strchr toks 60 = false -> strchr toks 62 = false ->
  starts_with toks rest = false -> starts_with toks (us ++ rest) = false.
Proof. intros [|w f ts rs' _|t w f ts rs' [->| ->] _] H1 H2 H3; done. Qed.

Lemma args_start us ws rs toks rest :
  args_of us ws rs -> strchr toks tok_word = false ->
  starts_with toks rest = false -> starts_with toks (us ++ rest) = false.
Proof. intros [|w rts rs' ts ws' rs'' _ _] H1 H2; done. Qed.

Lemma parseredirs_gives k acc us rs rest :
  redirs_of us rs -> (length us <= k)%nat -> starts_with (cbytes "<>") rest = false ->
  gives (parseredirs buf k acc) (us ++ rest) (acc ++ rs) rest.
Proof.
  intros Hr. revert k acc.
  induction Hr as [|w f ts rs Hr IH|t w f ts rs Ht Hr IH]; intros k acc Hk Hrest.
  - destruct k; cbn [parseredirs app]; (apply gives_peek; [reflexivity|]);
      rewrite Hrest, app_nil_r; apply gives_ret.
  - destruct k; cbn in Hk; [lia|]. cbn [parseredirs app]. apply gives_peek; [reflexivity|].
    sees true.
    do 2 apply gives_gettoken. cbn. rewrite (cons_middle _ acc rs), app_assoc. apply IH; [lia|done].
  - destruct k; cbn in Hk; [lia|]. cbn [parseredirs app]. apply gives_peek; [reflexivity|].
    assert (starts_with (cbytes "<>") ((t, w) :: (tok_word, f) :: ts ++ rest) = true) as ->
      by (by destruct Ht as [->| ->]).
    cbn [negb]. do 2 apply gives_gettoken. cbn [fst snd]. cbn [negb Z.eqb tok_word Pos.eqb].
    rewrite (cons_middle _ acc rs), app_assoc.
    assert (redir_of t f = [(f, Z.lor O_WRONLY O_CREATE, 1)]) as -> by (by destruct Ht as [->| ->]).
    apply IH; [lia|done].
Qed.

Lemma parseargs_gives k argv rs us ws rs' rest :
  args_of us ws rs' -> (length (us ++ rest) < k)%nat ->
  (length (argv ++ ws) < MAXARGS)%nat -> stops (cbytes "|)&;") rest ->
  gives (parseargs buf k argv rs) (us ++ rest) (add_redirs (EXEC (argv ++ ws)) (rs ++ rs')) rest.
Proof.
  intros Ha. revert k argv rs. induction Ha as [|w rts rs1 ts ws rs2 Hr Ha IH];
    intros k argv rs Hk Hlen Hrest; (destruct k as [|k]; [lia|]); cbn [parseargs].
  - rewrite !app_nil_r. cbn [app]. apply gives_peek; [reflexivity|].
    destruct rest as [|[t w] rest]; cbn [starts_with].
    + intros s Hs. destruct (gettoken_nil buf s Hs) as (w & s' & E & Hs').
      rewrite (bind_ok _ _ _ _ _ E). cbn. eauto.
    + cbn in Hrest. destruct (Z.eqb_spec t tok_append) as [->|]; [exfalso; set_solver +Hrest|].
      unfold strchr. rewrite bool_decide_eq_true_2 by done. apply gives_ret.
  - cbn [app]. apply gives_peek; [reflexivity|].
    sees false.
    apply gives_gettoken. cbn [fst snd]. change (tok_word =? 0) with false.
    change (negb (tok_word =? tok_word)) with false. cbn iota.
    rewrite length_app in Hlen. cbn in Hlen, Hk. rewrite !length_app in Hk.
    destruct (Nat.leb_spec MAXARGS (length (argv ++ [w]))) as [Hm|_];
      [rewrite length_app in Hm; cbn in Hm; lia|].
    apply gives_len. intros Hes. rewrite !length_app in Hes. rewrite <- app_assoc.
    eapply gives_bind.
    { apply parseredirs_gives; [exact Hr|lia|]. eapply args_start; [done|reflexivity|].
      by eapply stops_peek. }
    rewrite (cons_middle _ argv ws), !app_assoc. apply IH; [rewrite length_app; lia| |done].
    rewrite !length_app. cbn. lia.
Qed.

Lemma parseback_gives k c us rest :
  ands us -> (length us <= k)%nat -> starts_with (cbytes "&") rest = false ->
  gives (parseback buf k c) (us ++ rest) (back (length us) c) rest.
Proof.
  intros Hu. revert k c. induction Hu as [|[t w] us Ht Hu IH]; intros k c Hk Hrest.
  - destruct k; cbn [parseback app]; (apply gives_peek; [reflexivity|]);
      rewrite Hrest; apply gives_ret.
  - cbn in Ht. subst t. destruct k; cbn in Hk; [lia|]. cbn [parseback app].
    apply gives_peek; [reflexivity|]. sees true.
    apply gives_gettoken. apply IH; [lia|done].
Qed.

Lemma parseexec_gives_args n us rs vs ws rs' rest :
  redirs_of us rs -> args_of vs ws rs' -> (length ws < MAXARGS)%nat ->
  stops (cbytes "|)&;") rest ->
  gives (parseexec buf (S n)) (us ++ vs ++ rest) (add_redirs (EXEC ws) (rs ++ rs')) rest.
Proof.
  intros Hr Ha Hws Hrest. cbn [parseexec]. apply gives_peek; [reflexivity|].
  assert (starts_with (cbytes "(") (us ++ vs ++ rest) = false) as ->.
  { eapply redirs_start; [done|done|done|]. eapply args_start; [done|done|].
    by eapply stops_peek. }
  apply gives_len. rewrite !length_app. intros Hlen. eapply gives_bind.
  { apply parseredirs_gives; [exact Hr|lia|]. eapply args_start; [done|done|].
    by eapply stops_peek. }
  apply (parseargs_gives _ []); [done|rewrite length_app; lia|done|done].
Qed.

Lemma parseexec_gives_block n w us c w' vs rs rest :
  (forall rest', stops (cbytes ")") rest' -> (length rest' <= S (length vs + length rest))%nat ->
     gives (parseline buf n) (us ++ rest') c rest') ->
  redirs_of vs rs -> stops (cbytes "|)&;") rest ->
  gives (parseexec buf (S (S n))) ((40, w) :: us ++ (41, w') :: vs ++ rest) (add_redirs c rs) rest.
Proof.
  intros Hl Hr Hrest. cbn [parseexec]. apply gives_peek; [reflexivity|]. sees true.
  cbn [parseblock]. apply gives_peek; [reflexivity|]. sees true.
  apply gives_gettoken. eapply gives_bind.
  { apply Hl; [cbn; set_solver +|cbn; rewrite length_app; lia]. }
  apply gives_peek; [reflexivity|]. sees true. apply gives_gettoken.
  apply gives_len. rewrite length_app. intros Hlen. eapply gives_bind.
  { apply parseredirs_gives; [exact Hr|lia|]. by eapply stops_peek. }
  apply gives_ret.
Qed.

Lemma parsepipe_gives n us c rest :
  gives (parseexec buf n) (us ++ rest) c rest -> stops (cbytes ")&;") rest ->
  gives (parsepipe buf (S n)) (us ++ rest) c rest.
Proof.
  intros He Hrest. cbn [parsepipe]. eapply gives_bind; [exact He|].
  apply gives_peek; [reflexivity|]. rewrite (stops_peek _ _ _ Hrest) by done. apply gives_ret.
Qed.

Lemma parsepipe_gives_more n us c w vs c' rest :
  gives (parseexec buf n) (us ++ (124, w) :: vs ++ rest) c ((124, w) :: vs ++ rest) ->
  gives (parsepipe buf n) (vs ++ rest) c' rest ->
  gives (parsepipe buf (S n)) (us ++ (124, w) :: vs ++ rest) (PIPE c c') rest.
Proof.
  intros He Hp. cbn [parsepipe]. eapply gives_bind; [exact He|].
  apply gives_peek; [reflexivity|]. sees true. apply gives_gettoken.
  eapply gives_bind; [exact Hp|]. apply gives_ret.
Qed.

Lemma parseline_gives n us c vs rest :
  gives (parsepipe buf n) (us ++ vs ++ rest) c (vs ++ rest) -> ands vs ->
  stops (cbytes ")") rest ->
  gives (parseline buf (S n)) (us ++ vs ++ rest) (back (length vs) c) rest.
Proof.
  intros Hp Hv Hrest. cbn [parseline]. eapply gives_bind; [exact Hp|].
  apply gives_len. rewrite length_app. intros Hlen. eapply gives_bind.
  { apply parseback_gives; [exact Hv|lia|]. by eapply stops_peek. }
  apply gives_peek; [reflexivity|]. rewrite (stops_peek _ _ _ Hrest) by done. apply gives_ret.
Qed.

Lemma parseline_gives_more n us c vs w ts c' rest :
  gives (parsepipe buf n) (us ++ vs ++ (59, w) :: ts ++ rest) c (vs ++ (59, w) :: ts ++ rest) ->
  ands vs -> gives (parseline buf n) (ts ++ rest) c' rest ->
  gives (parseline buf (S n)) (us ++ vs ++ (59, w) :: ts ++ rest) (LIST (back (length vs) c) c') rest.
Proof.
  intros Hp Hv Hl. cbn [parseline]. eapply gives_bind; [exact Hp|].
  apply gives_len. rewrite length_app. intros Hlen. eapply gives_bind.
  { apply parseback_gives; [exact Hv|lia|done]. }
  apply gives_peek; [reflexivity|]. sees true. apply gives_gettoken.
  eapply gives_bind; [exact Hl|]. apply gives_ret.
Qed.

Lemma ands_stops vs cs rest : ands vs -> strchr cs 38 = true -> stops cs rest -> stops cs (vs ++ rest).
Proof. intros [|t vs' Ht _] H Hr; [done|]. cbn. rewrite Ht. by apply bool_decide_eq_true in H. Qed.

Lemma parse_gives :
  (forall us c, exec_of us c -> forall n rest, (4 * length (us ++ rest) + 2 <= n)%nat ->
     stops (cbytes "|)&;") rest -> gives (parseexec buf n) (us ++ rest) c rest) /\
  (forall us c, pipe_of us c -> forall n rest, (4 * length (us ++ rest) + 3 <= n)%nat ->
     stops (cbytes ")&;") rest -> gives (parsepipe buf n) (us ++ rest) c rest) /\
  (forall us c, line_of us c -> forall n rest, (4 * length (us ++ rest) + 4 <= n)%nat ->
     stops (cbytes ")") rest -> gives (parseline buf n) (us ++ rest) c rest).
Proof.
  apply grammar_ind.
  - intros us rs vs ws rs' Hr Ha Hws [|n] rest Hn Hrest; [lia|].
    rewrite <- app_assoc. by apply parseexec_gives_args.
  - intros w us c w' vs rs _ IH Hr [|[|n]] rest Hn Hrest; [lia|lia|].
    cbn in Hn. rewrite !length_app in Hn. cbn in Hn. cbn [app]. rewrite <- app_assoc. cbn [app].
    apply parseexec_gives_block; [|done|done].
    intros rest' Hst Hlen. apply IH; [rewrite length_app; lia|done].
  - intros us c _ IH [|n] rest Hn Hrest; [lia|].
    apply parsepipe_gives; [|done]. apply IH; [lia|]. by eapply stops_sub.
  - intros us c w vs c' _ IH1 _ IH2 [|n] rest Hn Hrest; [lia|].
    rewrite <- app_assoc in *. cbn [app] in *. rewrite length_app in Hn. cbn in Hn.
    apply parsepipe_gives_more; [apply IH1; [rewrite length_app; cbn; lia|cbn; set_solver +]|].
    apply IH2; [lia|done].
  - intros us c vs _ IH Hv [|n] rest Hn Hrest; [lia|]. rewrite <- app_assoc in *.
    apply parseline_gives; [|done|done]. apply IH; [lia|].
    apply ands_stops; [done|done|]. by eapply stops_sub.
  - intros us c vs w ts c' _ IH1 Hv _ IH2 [|n] rest Hn Hrest; [lia|].
    rewrite <- !app_assoc in *. cbn [app] in *.
    rewrite !length_app in Hn. cbn in Hn. rewrite length_app in Hn.
    apply parseline_gives_more; [|done|apply IH2; [rewrite length_app; lia|done]].
    apply IH1; [rewrite !length_app; cbn; rewrite length_app; lia|].
    apply ands_stops; [done|done|]. cbn. set_solver +.
Qed.

End complete.

(** ** Words *)

(** The words of a command, in the order [nulterminate] meets them. *)
Fixpoint words (c : cmd) : list word :=
  match c with
  | EXEC argv => argv
  | REDIR c f _ _ => words c ++ [f]
  | PIPE l r | LIST l r => words l ++ words r
  | BACK c => words c
  end.

(** The bytes of a word in the line. *)
Definition slice (buf : list Z) (w : word) : list Z := take (w.2 - w.1) (drop w.1 buf).

Fixpoint until_nul (l : list Z) : list Z :=
  match l with
  | [] => []
  | c :: l' => if c =? 0 then [] else c :: until_nul l'
  end.

(** The C string at a position. *)
Definition string_at (b : list Z) (p : nat) : list Z := until_nul (drop p b).

Definition put_nuls (ws : list word) (b : list Z) : list Z := fold_left (fun b w => <[w.2 := 0]> b) ws b.

Lemma nulterminate_words c b : nulterminate c b = put_nuls (words c) b.
Proof.
  revert b. induction c as [argv|c IH f m fd|l IHl r IHr|l IHl r IHr|c IH]; intros b; cbn;
    unfold put_nuls in *; rewrite ?fold_left_app; cbn; rewrite ?IHl, ?IHr, ?IH; done.
Qed.

Lemma put_nuls_length ws b : length (put_nuls ws b) = length b.
Proof.
  revert b. induction ws as [|w ws IH]; intros b; [done|].
  change (put_nuls (w :: ws) b) with (put_nuls ws (<[w.2:=0]> b)). by rewrite IH, length_insert.
Qed.

Lemma put_nuls_other ws b i : (forall w, w ∈ ws -> w.2 <> i) -> put_nuls ws b !! i = b !! i.
Proof.
  revert b. induction ws as [|w ws IH]; intros b H; [done|].
  change (put_nuls (w :: ws) b) with (put_nuls ws (<[w.2:=0]> b)).
  rewrite IH by (intros; apply H; by right). apply list_lookup_insert_ne. apply H. by left.
Qed.

Lemma put_nuls_end ws b i : i ∈ (snd <$> ws) -> (i < length b)%nat -> put_nuls ws b !! i = Some 0.
Proof.
  revert b. induction ws as [|w ws IH]; intros b H Hb; [by apply elem_of_nil in H|].
  change (put_nuls (w :: ws) b) with (put_nuls ws (<[w.2:=0]> b)).
  destruct (decide (i ∈ (snd <$> ws))) as [Hin|Hn]; [apply IH; by rewrite ?length_insert|].
  rewrite put_nuls_other.
  - rewrite fmap_cons in H. apply elem_of_cons in H as [->|H]; [|done].
    by apply list_lookup_insert_eq.
  - intros v Hv <-. apply Hn. by apply list_elem_of_fmap_2.
Qed.

Lemma until_nul_take l n :
  (forall i, (i < n)%nat -> exists x, l !! i = Some x /\ x <> 0) -> l !! n = Some 0 ->
  until_nul l = take n l.
Proof.
  revert l. induction n as [|n IH]; intros [|c l] H E; try done.
  - cbn in *. by injection E as ->.
  - cbn. destruct (H 0%nat ltac:(lia)) as (x & [= ->] & Hx).
    rewrite (proj2 (Z.eqb_neq _ 0) Hx). f_equal. apply IH; [|done].
    intros i Hi. apply (H (S i)). lia.
Qed.

(** The words of a command are words of its tokens. *)
Lemma add_redirs_words c rs w :
  w ∈ words (add_redirs c rs) -> w ∈ words c \/ exists m fd, (w, m, fd) ∈ rs.
Proof.
  revert c. induction rs as [|[[f m] fd] rs IH]; intros c H; [by left|].
  apply (IH (REDIR c f m fd)) in H as [H|(m' & fd' & H)].
  - cbn in H. apply elem_of_app in H as [H|H%list_elem_of_singleton]; [by left|].
    subst. right. exists m, fd. by left.
  - right. exists m', fd'. by right.
Qed.

Lemma redirs_words us rs w m fd : redirs_of us rs -> (w, m, fd) ∈ rs -> (tok_word, w) ∈ us.
Proof. induction 1; set_solver. Qed.

Lemma args_words us ws rs :
  args_of us ws rs ->
  (forall w, w ∈ ws -> (tok_word, w) ∈ us) /\
  (forall w m fd, (w, m, fd) ∈ rs -> (tok_word, w) ∈ us).
Proof.
  induction 1 as [|w rts rs ts ws rs' Hr Ha [IH1 IH2]].
  - split; intros; by eapply not_elem_of_nil in H.
  - split.
    + intros v [->|Hv]%elem_of_cons; [by left|]. right. apply elem_of_app. right. by apply IH1.
    + intros v m fd [Hv|Hv]%elem_of_app; right; apply elem_of_app.
      * left. by eapply redirs_words.
      * right. by eapply IH2.
Qed.

Lemma words_back n c : words (back n c) = words c.
Proof. revert c. induction n as [|n IH]; intros c; cbn; [done|]. by rewrite IH. Qed.

Lemma grammar_words :
  (forall us c, exec_of us c -> forall w, w ∈ words c -> (tok_word, w) ∈ us) /\
  (forall us c, pipe_of us c -> forall w, w ∈ words c -> (tok_word, w) ∈ us) /\
  (forall us c, line_of us c -> forall w, w ∈ words c -> (tok_word, w) ∈ us).
Proof.
  apply grammar_ind.
  - intros us rs vs ws rs' Hr Ha _ w Hw. apply args_words in Ha as [Ha1 Ha2].
    apply elem_of_app. apply add_redirs_words in Hw as [Hw|(m & fd & [Hw|Hw]%elem_of_app)].
    + right. by apply Ha1.
    + left. by eapply redirs_words.
    + right. by eapply Ha2.
  - intros w0 us c w' vs rs _ IH Hr w Hw. right. apply elem_of_app.
    apply add_redirs_words in Hw as [Hw|(m & fd & Hw)]; [left; by apply IH|].
    right. right. by eapply redirs_words.
  - done.
  - intros us c w0 vs c' _ IH1 _ IH2 w [Hw|Hw]%elem_of_app; apply elem_of_app; [left; by apply IH1|].
    right. right. by apply IH2.
  - intros us c vs _ IH _ w Hw. rewrite words_back in Hw. apply elem_of_app. left. by apply IH.
  - intros us c vs w0 ts c' _ IH1 _ _ IH2 w Hw. cbn in Hw. rewrite words_back in Hw.
    rewrite !elem_of_app, elem_of_cons. apply elem_of_app in Hw as [Hw|Hw]; [left; by apply IH1|].
    right. right. right. by apply IH2.
Qed.

(** ** The command line *)

(** A line as the shell reads it: no NUL before its end. *)
Definition c_line (buf : list Z) : Prop := Forall (fun x => x <> 0) buf.

Lemma at_end buf s : c_line buf -> (s <= es buf)%nat -> at_ buf s = 0 -> s = es buf.
Proof.
  intros Hc Hs E. destruct (decide (s = es buf)) as [|Hn]; [done|exfalso].
  destruct (lookup_lt_is_Some_2 buf s) as [x Hx]; [unfold es in *; lia|].
  unfold at_ in E. rewrite Hx in E. by apply (proj1 (Forall_lookup _ _) Hc s x Hx).
Qed.

Lemma end_skip buf s : c_line buf -> lexes buf s [] -> skip_space buf s = es buf.
Proof.
  intros Hc H. inversion H as [? Hs Ht|]; subst. apply at_end; [done|by apply skip_space_le|].
  pose proof (token_spec buf s Hs) as Hsp. cbv zeta in Hsp. destruct (token buf s) as [t w].
  destruct Hsp as [[_ E]|(_ & ? & _)]; done.
Qed.

Lemma token_left buf s t ts : lexes buf s (t :: ts) -> (skip_space buf s < es buf)%nat.
Proof.
  intros H. inversion H as [|? ? Hs Ht]; subst. apply at_lt.
  pose proof (token_spec buf s Hs) as Hsp. cbv zeta in Hsp. destruct (token buf s) as [t0 w].
  destruct Hsp as [[? _]|(? & _)]; done.
Qed.

(** [parsecmd] after [parseline]: accepts when no token is left. *)
Lemma parsecmd_tail buf c s ts :
  parseline buf (4 * es buf + 4) 0%nat = Ok c s -> lexes buf s ts ->
  parsecmd buf = if (skip_space buf s =? es buf)%nat
                 then Ok (c, nulterminate c (buf ++ [0])) (es buf) else Panic "syntax".
Proof.
  intros E Hs. unfold parsecmd. rewrite (bind_ok _ _ _ _ _ E).
  unfold peek, get, mbind, M_bind. cbv beta iota zeta.
  by destruct (Nat.eqb_spec (skip_space buf s) (es buf)) as [->|].
Qed.

Lemma parsecmd_sound buf c b s :
  c_line buf -> parsecmd buf = Ok (c, b) s ->
  line_of (line_tokens buf) c /\ b = nulterminate c (buf ++ [0]).
Proof.
  intros Hc E. pose proof (line_tokens_ok buf) as H0.
  pose proof (lexes_length _ _ _ H0) as Hlen.
  destruct (parse_yields buf (4 * es buf + 4) (line_tokens buf)) as [Hl _].
  specialize (Hl ltac:(lia) 0%nat H0).
  destruct (parseline buf _ 0%nat) as [c0 s0|msg| | |] eqn:El;
    [|by unfold parsecmd, mbind, M_bind in E; rewrite El in E|done..].
  destruct Hl as (ts & Hs & us & Hts & Hg). rewrite (parsecmd_tail _ _ _ _ El Hs) in E.
  destruct (Nat.eqb_spec (skip_space buf s0) (es buf)) as [Es|]; [|done].
  injection E as <- <- <-. destruct ts as [|t ts]; [|by pose proof (token_left _ _ _ _ Hs); lia].
  rewrite Hts, app_nil_r. done.
Qed.

(** C22: the parser of the shell decides the grammar of command lines: it
    accepts a line exactly when the tokens of the line derive a command, and
    then returns that command and the line with its words terminated. *)
Theorem parsecmd_decides_grammar buf c b :
  c_line buf ->
  (exists s, parsecmd buf = Ok (c, b) s) <->
  line_of (line_tokens buf) c /\ b = nulterminate c (buf ++ [0]).
Proof.
  intros Hc. split; [by intros [s E]; apply parsecmd_sound in E|].
  intros [Hg ->]. pose proof (line_tokens_ok buf) as H0.
  pose proof (lexes_length _ _ _ H0) as Hlen.
  destruct (parse_gives buf) as (_ & _ & Hl).
  specialize (Hl _ _ Hg (4 * es buf + 4)%nat []). rewrite app_nil_r in Hl.
  destruct (Hl ltac:(lia) I 0%nat H0) as (s & E & Hs).
  exists (es buf). rewrite (parsecmd_tail _ _ _ _ E Hs), (end_skip _ _ Hc Hs).
  by rewrite Nat.eqb_refl.
Qed.

(** parsing a command line always ends, with a command and the whole line
    read or with one of the four syntax errors; the panic of [parseblock] is
    never reached. *)
Theorem parsecmd_terminates buf :
  (exists c b, parsecmd buf = Ok (c, b) (es buf)) \/
  (exists msg, parsecmd buf = Panic msg /\ msg ∈ syntax_errors).
Proof.
  pose proof (line_tokens_ok buf) as H0. pose proof (lexes_length _ _ _ H0) as Hlen.
  destruct (parse_yields buf (4 * es buf + 4) (line_tokens buf)) as [Hl _].
  specialize (Hl ltac:(lia) 0%nat H0).
  destruct (parseline buf _ 0%nat) as [c s|msg| | |] eqn:E; try done.
  - destruct Hl as (ts & Hs & _). rewrite (parsecmd_tail _ _ _ _ E Hs).
    destruct (skip_space buf s =? es buf)%nat; [by left; eauto|].
    right. eexists. split; [done|]. set_solver +.
  - right. exists msg. split; [|done]. unfold parsecmd, mbind, M_bind. by rewrite E.
Qed.

(** The bytes of a word survive the terminators of all of them. *)
Lemma words_kept buf ws w :
  (forall v, v ∈ ws -> word_ok buf v) -> w ∈ ws ->
  forall i, (w.1 <= i < w.2)%nat -> exists x,
    put_nuls ws (buf ++ [0]) !! i = Some x /\ buf !! i = Some x /\ word_char x = true.
Proof.
  intros Hok Hw i Hi. destruct (Hok w Hw) as ([Hlt Hle] & Hin & _). unfold es in Hle.
  destruct (lookup_lt_is_Some_2 buf i) as [x Hx]; [lia|]. exists x.
  pose proof (Hin i Hi) as Hch. unfold at_ in Hch. rewrite Hx in Hch. cbn in Hch.
  split_and!; [|done|done]. rewrite put_nuls_other; [by rewrite lookup_app_l by lia|].
  intros v Hv <-. destruct (Hok v Hv) as (_ & _ & Hend).
  specialize (Hend ltac:(unfold es; lia)). unfold at_ in Hend. rewrite Hx in Hend.
  cbn in Hend. congruence.
Qed.

(** in the line the parser leaves, the C string at every argument and file
    name of the command is exactly the word the user typed, and not empty: no
    terminator lands in another word. *)
Theorem parsecmd_words_terminated buf c b s w :
  c_line buf -> parsecmd buf = Ok (c, b) s -> w ∈ words c ->
  string_at b w.1 = slice buf w /\ slice buf w <> [] /\
  Forall (fun x => word_char x = true) (slice buf w).
Proof.
  intros Hc E Hw. apply parsecmd_sound in E as [Hg ->]; [|done].
  destruct grammar_words as (_ & _ & Hgw). pose proof (Hgw _ _ Hg) as Htok.
  assert (Hok : forall v, v ∈ words c -> word_ok buf v).
  { intros v Hv. eapply lexes_words; [apply line_tokens_ok|by apply Htok]. }
  destruct (Hok w Hw) as ([Hlt Hle] & Hin & _). unfold es in Hle.
  rewrite nulterminate_words.
  pose proof (words_kept _ _ _ Hok Hw) as Hget.
  split_and!.
  - unfold string_at. rewrite (until_nul_take _ (w.2 - w.1)).
    + unfold slice. apply list_eq. intros i.
      destruct (decide (i < w.2 - w.1)%nat) as [Hi|Hi]; [|by rewrite !lookup_take_ge by lia].
      rewrite !lookup_take_lt, !lookup_drop by lia.
      destruct (Hget (w.1 + i)%nat ltac:(lia)) as (x & -> & -> & _). done.
    + intros i Hi. rewrite lookup_drop. destruct (Hget (w.1 + i)%nat ltac:(lia)) as (x & -> & Hx & _).
      exists x. split; [done|]. by apply (proj1 (Forall_lookup _ _) Hc _ x Hx).
    + rewrite lookup_drop. replace (w.1 + (w.2 - w.1))%nat with w.2 by lia.
      apply put_nuls_end; [by apply list_elem_of_fmap_2|]. rewrite length_app. cbn. lia.
  - unfold slice. intros H%(f_equal length). rewrite length_take, length_drop in H. cbn in H. lia.
  - unfold slice. apply Forall_lookup. intros i x Hx.
    apply lookup_take_Some in Hx as [Hx Hi]. rewrite lookup_drop in Hx.
    destruct (Hget (w.1 + i)%nat ltac:(lia)) as (y & _ & Hy & Hch). congruence.
Qed.

(** [(echo a >f;ls)&], with a redirection inside the block. *)
Definition sample_line : list Z := cbytes "(echo a >f;ls)&".
Definition sample_cmd : cmd :=
  BACK (LIST (REDIR (EXEC [(1, 5); (6, 7)]%nat) (9, 10)%nat 0x201 1) (EXEC [(11, 13)]%nat)).

Lemma sample_c_line : c_line sample_line.
Proof. apply (bool_decide_unpack _). vm_compute. exact I. Qed.

Lemma sample_parses :
  parsecmd sample_line = Ok (sample_cmd, nulterminate sample_cmd (sample_line ++ [0])) (es sample_line).
Proof. vm_compute. reflexivity. Qed.

Lemma parsecmd_decides_grammar_witness : line_of (line_tokens sample_line) sample_cmd.
Proof.
  apply (parsecmd_decides_grammar sample_line sample_cmd
           (nulterminate sample_cmd (sample_line ++ [0])) sample_c_line).
  exists (es sample_line). exact sample_parses.
Defined.

Lemma parsecmd_words_terminated_witness :
  string_at (nulterminate sample_cmd (sample_line ++ [0])) 9 = cbytes "f".
Proof.
  apply (parsecmd_words_terminated sample_line sample_cmd _ (es sample_line) (9, 10)%nat sample_c_line).
  - exact sample_parses.
  - cbn. set_solver +.
Defined.
