(* ===== verification/ShRun.v ===== *)
(** * Running commands (HW3/sh.c: runcmd, getcmd, main)

    The shell is a program of several processes.  What one process of it still
    has to do is a tree of system calls, [code]; [runcmd] and [main] give the
    trees.  The kernel's side is a step relation on a pool of processes: each
    has its own table of descriptors, [fork] copies it, [dup], [open] and
    [pipe] take the lowest free descriptors as [fdalloc] of sysfile.c does,
    [wait] takes away a child that has exited, and orphans fall to init.  The
    processes run in any order.

    Processes are named by the forks that lead to them, and a pipe by the
    process that made it.  [p_back] is not part of the kernel's state: it
    records that a process, or one it descends from, was started by a process
    that then exits at once, as for a command with an ampersand. *)

From stdpp Require Import base numbers list strings relations.
From Stdlib Require Import ZArith Lia.
From S2P Require Import Prelude CStrings Sysfile Sh ShSpec.

Open Scope Z_scope.

(** ** Descriptors *)

Definition pid := list nat.

Inductive object :=
| Inherited (n : nat)
| Opened (file : list Z) (mode : Z)
| ReadEnd (pipe : pid * nat)
| WriteEnd (pipe : pid * nat).

Notation table := (list (option object)).

Definition fdalloc (t : table) (o : object) : option (nat * table) :=
  match list_find (fun x => x = None) t with
  | None => None
  | Some (fd, _) => Some (fd, <[fd := Some o]> t)
  end.

(** [pipe]: the read end gets the first free descriptor. *)
Definition pipe_fds (t : table) (pipe : pid * nat) : option (nat * nat * table) :=
  match fdalloc t (ReadEnd pipe) with
  | None => None
  | Some (fd0, t) =>
      match fdalloc t (WriteEnd pipe) with
      | None => None
      | Some (fd1, t) => Some (fd0, fd1, t)
      end
  end.

Definition close (t : table) (fd : nat) : table := <[fd := None]> t.

(** A [dup] that fails leaves the table as it is. *)
Definition dup (t : table) (fd : nat) : table :=
  match t !! fd with
  | Some (Some o) => match fdalloc t o with Some (_, t') => t' | None => t end
  | _ => t
  end.

(** ** The shell *)

(** What a process does next; where the shell looks at a result, what it does
    if the call fails comes last. *)
Inductive code :=
| Exit
| Close (fd : nat) (k : code)
| Dup (fd : nat) (k : code)
| Open (file : list Z) (mode : Z) (k : nat -> code) (failed : code)
| Pipe (k : nat -> nat -> code) (failed : code)
| Fork (child parent failed : code)
| Wait (k : code)
| Exec (path : list Z) (argv : list (list Z)) (failed : code)
| Chdir (path : list Z) (k failed : code)
| Printf (text : list Z) (k : code).

Definition newline : Z := 10.

Definition panic (s : list Z) : code := Printf (s ++ [newline]) Exit.

Definition fork1 (child parent : code) : code := Fork child parent (panic (cbytes "fork")).

(** The words of [cmd] are C strings in the terminated line [b]. *)
Fixpoint runcmd (b : list Z) (cmd : cmd) : code :=
  match cmd with
  | EXEC argv =>
      match argv with
      | [] => Exit
      | w :: _ =>
          Exec (string_at b w.1) ((fun w => string_at b w.1) <$> argv)
            (Printf (cbytes "exec " ++ string_at b w.1 ++ cbytes " failed" ++ [newline]) Exit)
      end
  | REDIR c file mode fd =>
      Close (Z.to_nat fd)
        (Open (string_at b file.1) mode
           (fun _ => runcmd b c)
           (Printf (cbytes "open " ++ string_at b file.1 ++ cbytes " failed" ++ [newline]) Exit))
  | LIST l r => fork1 (runcmd b l) (Wait (runcmd b r))
  | PIPE l r =>
      Pipe (fun p0 p1 =>
        fork1 (Close 1 (Dup p1 (Close p0 (Close p1 (runcmd b l)))))
          (fork1 (Close 0 (Dup p0 (Close p0 (Close p1 (runcmd b r)))))
             (Close p0 (Close p1 (Wait (Wait Exit))))))
        (panic (cbytes "pipe"))
  | BACK c => fork1 (runcmd b c) Exit
  end.

(** [runcmd(parsecmd(buf))] *)
Definition run_line (buf : list Z) : code :=
  match parsecmd buf with
  | Ok (c, b) _ => runcmd b c
  | Panic msg => panic (cbytes msg)
  | _ => Exit
  end.

(** [getcmd(buf, 100)]: the line, and what standard input still holds. *)
Definition getcmd (inp : list Z) : option (list Z * list Z) :=
  let m := Ulib.memset (fun _ => 0) 0 0 100 in
  let '(m, rest) := Ulib.gets m 0 100 inp in
  if m 0 =? 0 then None else Some (until_nul (KString.mem_bytes m 0 100), rest).

(** The lines [main] gets, each of at least one byte of input. *)
Fixpoint lines (k : nat) (inp : list Z) : list (list Z) :=
  match k with
  | O => []
  | S k' => match getcmd inp with None => [] | Some (buf, rest) => buf :: lines k' rest end
  end.

Lemma getcmd_shorter inp buf rest : getcmd inp = Some (buf, rest) -> (length rest < length inp)%nat.
Proof.
  unfold getcmd, Ulib.gets. destruct (Ulib.gets_loop _ 0 0 100 inp) as [[m j] r] eqn:E.
  apply Ulib.gets_loop_stop in E as (Hj & _ & (pre & -> & Hlen & _) & _); [|lia..]. rewrite Z.add_0_l. intros H.
  destruct (decide (j = 0)) as [->|Hn]; [by rewrite upd_eq in H|]. case_match; [done|]. injection H as _ <-.
  rewrite length_app. lia.
Qed.

(** More turns than bytes of input make no difference. *)
Lemma lines_enough inp : forall k, (length inp < k)%nat -> lines k inp = lines (S (length inp)) inp.
Proof.
  assert (H : forall k k' inp, (length inp < k)%nat -> (length inp < k')%nat -> lines k inp = lines k' inp).
  { induction k as [|k IH]; intros [|k'] i H H'; try lia. cbn [lines]. destruct (getcmd i) as [[buf rest]|] eqn:E; [|done].
    apply getcmd_shorter in E. f_equal. apply IH; lia. }
  intros k Hk. apply H; lia.
Qed.

Definition is_cd (buf : list Z) : bool := bool_decide (take 3 buf = cbytes "cd ").

(** The loop of [main] over its input. *)
Fixpoint commands (bufs : list (list Z)) : code :=
  match bufs with
  | [] => Exit
  | buf :: rest =>
      if is_cd buf then
        let dir := drop 3 (removelast buf) in
        Chdir dir (commands rest) (Printf (cbytes "cannot cd " ++ dir ++ [newline]) (commands rest))
      else fork1 (run_line buf) (Wait (commands rest))
  end.

(** [while((fd = open("console", O_RDWR)) >= 0) if(fd >= 3) { close(fd); break; }];
    the descriptors grow, so the loop is left in its fourth turn at the latest. *)
Fixpoint open_console (k : nat) (rest : code) : code :=
  match k with
  | O => Exit
  | S k' =>
      Open (cbytes "console") O_RDWR
        (fun fd => if (3 <=? fd)%nat then Close fd rest else open_console k' rest) rest
  end.

Definition main (inp : list Z) : code := open_console 4 (commands (lines (S (length inp)) inp)).

(** ** Processes *)

Inductive status :=
| Runs (k : code)
| Program (path : list Z) (argv : list (list Z))
| Zombie.

Record process := MkProcess {
  p_pid : pid; p_table : table; p_forks : nat; p_pipes : nat; p_back : bool; p_status : status
}.

Definition goto (t : table) (k : code) (p : process) : process :=
  MkProcess (p_pid p) t (p_forks p) (p_pipes p) (p_back p) (Runs k).
Definition becomes (st : status) (p : process) : process :=
  MkProcess (p_pid p) (p_table p) (p_forks p) (p_pipes p) (p_back p) st.

(** A program that was started: where, what, and with which descriptors. *)
Record launch := MkLaunch { l_pid : pid; l_argv : list (list Z); l_path : list Z; l_table : table; l_back : bool }.

(** A call of one process that concerns no other; the flag says that it
    failed. *)
Inductive call (p : process) : bool -> process -> list launch -> Prop :=
| call_close fd k :
    p_status p = Runs (Close fd k) -> call p false (goto (close (p_table p) fd) k p) []
| call_dup fd k :
    p_status p = Runs (Dup fd k) -> call p false (goto (dup (p_table p) fd) k p) []
| call_open file mode k failed fd t :
    p_status p = Runs (Open file mode k failed) -> fdalloc (p_table p) (Opened file mode) = Some (fd, t) ->
    call p false (goto t (k fd) p) []
| call_open_failed file mode k failed :
    p_status p = Runs (Open file mode k failed) -> call p true (goto (p_table p) failed p) []
| call_pipe k failed fd0 fd1 t :
    p_status p = Runs (Pipe k failed) -> pipe_fds (p_table p) (p_pid p, p_pipes p) = Some (fd0, fd1, t) ->
    call p false (MkProcess (p_pid p) t (p_forks p) (S (p_pipes p)) (p_back p) (Runs (k fd0 fd1))) []
| call_pipe_failed k failed :
    p_status p = Runs (Pipe k failed) -> call p true (goto (p_table p) failed p) []
| call_exec path argv failed :
    p_status p = Runs (Exec path argv failed) ->
    call p false (becomes (Program path argv) p) [MkLaunch (p_pid p) argv path (p_table p) (p_back p)]
| call_exec_failed path argv failed :
    p_status p = Runs (Exec path argv failed) -> call p true (goto (p_table p) failed p) []
| call_chdir path k failed :
    p_status p = Runs (Chdir path k failed) -> call p false (goto (p_table p) k p) []
| call_chdir_failed path k failed :
    p_status p = Runs (Chdir path k failed) -> call p true (goto (p_table p) failed p) []
| call_printf text k :
    p_status p = Runs (Printf text k) -> call p false (goto (p_table p) k p) []
| call_exit :
    p_status p = Runs Exit -> call p false (becomes Zombie p) []
| call_program path argv :
    p_status p = Program path argv -> call p false (becomes Zombie p) [].

Definition child_of (q p : process) : Prop := exists j, p_pid q = p_pid p ++ [j].

Definition exits (k : code) : bool := match k with Exit => true | _ => false end.

Definition forked (p : process) (child parent : code) : list process :=
  [MkProcess (p_pid p ++ [p_forks p]) (p_table p) 0 0 (p_back p || exits parent) (Runs child);
   MkProcess (p_pid p) (p_table p) (S (p_forks p)) (p_pipes p) (p_back p) (Runs parent)].

Record system := MkSystem { procs : list process; started : list launch }.

Inductive step (s : system) : bool -> system -> Prop :=
| step_call p rest b p' l :
    procs s ≡ₚ p :: rest -> call p b p' l -> step s b (MkSystem (p' :: rest) (started s ++ l))
| step_fork p rest child parent failed :
    procs s ≡ₚ p :: rest -> p_status p = Runs (Fork child parent failed) ->
    step s false (MkSystem (forked p child parent ++ rest) (started s))
| step_fork_failed p rest child parent failed :
    procs s ≡ₚ p :: rest -> p_status p = Runs (Fork child parent failed) ->
    step s true (MkSystem (goto (p_table p) failed p :: rest) (started s))
| step_wait p z rest k :
    procs s ≡ₚ p :: z :: rest -> p_status p = Runs (Wait k) -> p_status z = Zombie -> child_of z p ->
    step s false (MkSystem (goto (p_table p) k p :: rest) (started s))
| step_wait_none p rest k :
    procs s ≡ₚ p :: rest -> p_status p = Runs (Wait k) -> Forall (fun q => ~ child_of q p) rest ->
    step s false (MkSystem (goto (p_table p) k p :: rest) (started s))
| step_init z rest :
    procs s ≡ₚ z :: rest -> p_status z = Zombie ->
    Forall (fun p => child_of z p -> p_status p = Zombie) rest ->
    step s false (MkSystem rest (started s)).

(** The shell started with the descriptors [t] and the input [inp]. *)
Definition shell (inp : list Z) (t : table) : system := MkSystem [MkProcess [] t 0 0 false (Runs (main inp))] [].

(** Steps with failures, and without. *)
Definition any_step (s s' : system) : Prop := exists b, step s b s'.
Definition good_step (s s' : system) : Prop := step s false s'.

(** ** Runs by a schedule *)

#[export] Instance child_of_dec q p : Decision (child_of q p).
Proof.
  refine (cast_if (decide (length (p_pid q) = S (length (p_pid p)) /\ take (length (p_pid p)) (p_pid q) = p_pid p))).
  - destruct a as [Hl Ht]. destruct (drop (length (p_pid p)) (p_pid q)) as [|j [|]] eqn:E;
      apply (f_equal length) in E as El; rewrite length_drop in El; cbn in El; try lia.
    exists j. rewrite <- (take_drop (length (p_pid p)) (p_pid q)) at 1. by rewrite Ht, E.
  - intros [j E]. apply n. rewrite E, length_app, take_app_length. cbn. split; [lia|done].
Defined.

#[export] Instance zombie_dec p : Decision (p_status p = Zombie).
Proof. destruct (p_status p); [right|right|left]; done. Defined.

(** The call of [p], if it has one that concerns no other process and succeeds. *)
Definition advance (p : process) : option (process * list launch) :=
  match p_status p with
  | Runs (Close fd k) => Some (goto (close (p_table p) fd) k p, [])
  | Runs (Dup fd k) => Some (goto (dup (p_table p) fd) k p, [])
  | Runs (Open file mode k _) =>
      match fdalloc (p_table p) (Opened file mode) with
      | Some (fd, t) => Some (goto t (k fd) p, [])
      | None => None
      end
  | Runs (Pipe k _) =>
      match pipe_fds (p_table p) (p_pid p, p_pipes p) with
      | Some (fd0, fd1, t) =>
          Some (MkProcess (p_pid p) t (p_forks p) (S (p_pipes p)) (p_back p) (Runs (k fd0 fd1)), [])
      | None => None
      end
  | Runs (Exec path argv _) =>
      Some (becomes (Program path argv) p, [MkLaunch (p_pid p) argv path (p_table p) (p_back p)])
  | Runs (Chdir _ k _) | Runs (Printf _ k) => Some (goto (p_table p) k p, [])
  | Runs Exit | Program _ _ => Some (becomes Zombie p, [])
  | _ => None
  end.

Lemma advance_call p p' l : advance p = Some (p', l) -> call p false p' l.
Proof.
  unfold advance. intros H. destruct (p_status p) as [k| |] eqn:E; [|simplify_eq; by eapply call_program|done].
  destruct k; simplify_eq; try (by econstructor).
  - destruct (fdalloc _ _) as [[fd t]|] eqn:Ef; simplify_eq. by eapply call_open.
  - destruct (pipe_fds _ _) as [[[fd0 fd1] t]|] eqn:Ef; simplify_eq. by eapply call_pipe.
Qed.

(** The [i]th process of the pool makes its next step, if it can. *)
Definition move (i : nat) (s : system) : option system :=
  match procs s !! i with
  | None => None
  | Some p =>
      let rest := delete i (procs s) in
      match p_status p with
      | Runs (Fork child parent _) => Some (MkSystem (forked p child parent ++ rest) (started s))
      | Runs (Wait k) =>
          match list_find (fun z => p_status z = Zombie /\ child_of z p) rest with
          | Some (j, _) => Some (MkSystem (goto (p_table p) k p :: delete j rest) (started s))
          | None => None
          end
      | Zombie =>
          if decide (Forall (fun q => child_of p q -> p_status q = Zombie) rest)
          then Some (MkSystem rest (started s)) else None
      | _ => match advance p with
             | Some (p', l) => Some (MkSystem (p' :: rest) (started s ++ l))
             | None => None
             end
      end
  end.

Lemma move_step i s s' : move i s = Some s' -> good_step s s'.
Proof.
  unfold move. destruct (procs s !! i) as [p|] eqn:Hi; [|done]. apply delete_Permutation in Hi as E.
  set (rest := delete i (procs s)) in *.
  assert (Hadv : match advance p with Some (p', l) => Some (MkSystem (p' :: rest) (started s ++ l)) | None => None end = Some s' -> good_step s s').
  { destruct (advance p) as [[p' l]|] eqn:Ea; [|done]. intros [= <-]. eapply step_call; [done|by apply advance_call]. }
  destruct (p_status p) as [k| |] eqn:Ek; [destruct k|..]; try exact Hadv.
  - intros [= <-]. by eapply step_fork.
  - destruct (list_find _ rest) as [[j z]|] eqn:Ef; [|done]. intros [= <-].
    apply list_find_Some in Ef as (Hz & [Hs Hc] & _). apply delete_Permutation in Hz.
    eapply (step_wait s p z (delete j rest)); [etrans; [exact E|by apply perm_skip]|done..].
  - case_decide; [|done]. intros [= <-]. by eapply step_init.
Qed.

Fixpoint moves (sched : list nat) (s : system) : option system :=
  match sched with
  | [] => Some s
  | i :: sched' => match move i s with Some s' => moves sched' s' | None => None end
  end.

Lemma moves_run sched s s' : moves sched s = Some s' -> rtc good_step s s'.
Proof.
  revert s. induction sched as [|i sched IH]; intros s H; cbn in H; [by simplify_eq|].
  destruct (move i s) as [s1|] eqn:E; [|done]. eapply rtc_l; [by apply (move_step i)|by apply IH].
Qed.
