(* ===== verification/ShPlan.v ===== *)
(** * Which programs a command line starts

    [plan] reads off a command which programs it is to run, each with its
    descriptors: a redirection replaces one descriptor, the two sides of a pipe
    have one end of it each, and nothing else changes.  The processes of the
    shell start these programs, whatever the order in which they run. *)

From stdpp Require Import base numbers list strings relations.
From Stdlib Require Import ZArith Lia.
From S2P Require Import Prelude CStrings Sysfile Sh ShSpec ShRun.

Open Scope Z_scope.

(** ** The plan *)

Section plan.
Context (text : word -> list Z).

Fixpoint plan (c : cmd) (t : table) (n : pid) (nf np : nat) (bg : bool) : list launch :=
  match c with
  | EXEC argv =>
      match argv with
      | [] => []
      | w :: _ => [MkLaunch n (text <$> argv) (text w) t bg]
      end
  | REDIR c file mode fd => plan c (<[Z.to_nat fd := Some (Opened (text file) mode)]> t) n nf np bg
  | LIST l r => plan l t (n ++ [nf]) 0 0 bg ++ plan r t n (S nf) np bg
  | PIPE l r =>
      plan l (<[1%nat := Some (WriteEnd (n, np))]> t) (n ++ [nf]) 0 0 bg ++
      plan r (<[0%nat := Some (ReadEnd (n, np))]> t) (n ++ [S nf]) 0 0 bg
  | BACK c => plan c t (n ++ [nf]) 0 0 true
  end.
End plan.

(** The plan of a line, and of a session; [i] counts the commands. *)
Definition line_plan (buf : list Z) (t : table) (n : pid) : list launch :=
  match parsecmd buf with
  | Ok (c, _) _ => plan (slice buf) c t n 0 0 false
  | _ => []
  end.

Fixpoint session_plan (bufs : list (list Z)) (t : table) (i : nat) : list launch :=
  match bufs with
  | [] => []
  | buf :: rest =>
      if is_cd buf then session_plan rest t i
      else line_plan buf t [i] ++ session_plan rest t (S i)
  end.

(** ** The programs of a tree of calls, if none fails *)

Fixpoint programs (k : code) (t : table) (n : pid) (nf np : nat) (bg : bool) : list launch :=
  match k with
  | Exit => []
  | Close fd k => programs k (close t fd) n nf np bg
  | Dup fd k => programs k (dup t fd) n nf np bg
  | Open file mode k _ =>
      match fdalloc t (Opened file mode) with
      | Some (fd, t') => programs (k fd) t' n nf np bg
      | None => []
      end
  | Pipe k _ =>
      match pipe_fds t (n, np) with
      | Some (fd0, fd1, t') => programs (k fd0 fd1) t' n nf (S np) bg
      | None => []
      end
  | Fork child parent _ =>
      programs child t (n ++ [nf]) 0 0 (bg || exits parent) ++ programs parent t n (S nf) np bg
  | Wait k => programs k t n nf np bg
  | Exec path argv _ => [MkLaunch n argv path t bg]
  | Chdir _ k _ => programs k t n nf np bg
  | Printf _ k => programs k t n nf np bg
  end.

(** After a failure nothing is started that was not to be started anyway. *)
Fixpoint tame (k : code) (t : table) (n : pid) (nf np : nat) (bg : bool) : Prop :=
  match k with
  | Exit => True
  | Close fd k => tame k (close t fd) n nf np bg
  | Dup fd k => tame k (dup t fd) n nf np bg
  | Open file mode k failed =>
      match fdalloc t (Opened file mode) with
      | Some (fd, t') => tame (k fd) t' n nf np bg /\ programs failed t n nf np bg ⊆+ programs (k fd) t' n nf np bg
      | None => programs failed t n nf np bg = []
      end /\ tame failed t n nf np bg
  | Pipe k failed =>
      match pipe_fds t (n, np) with
      | Some (fd0, fd1, t') => tame (k fd0 fd1) t' n nf (S np) bg
      | None => True
      end /\ tame failed t n nf np bg /\ programs failed t n nf np bg = []
  | Fork child parent failed =>
      tame child t (n ++ [nf]) 0 0 (bg || exits parent) /\ tame parent t n (S nf) np bg /\
      tame failed t n nf np bg /\ programs failed t n nf np bg = []
  | Wait k => tame k t n nf np bg
  | Exec _ _ failed => tame failed t n nf np bg /\ programs failed t n nf np bg = []
  | Chdir _ k failed =>
      tame k t n nf np bg /\ tame failed t n nf np bg /\ programs failed t n nf np bg ⊆+ programs k t n nf np bg
  | Printf _ k => tame k t n nf np bg
  end.

(** ** Steps *)

Definition pending (p : process) : list launch :=
  match p_status p with
  | Runs k => programs k (p_table p) (p_pid p) (p_forks p) (p_pipes p) (p_back p)
  | _ => []
  end.

Definition tame_process (p : process) : Prop :=
  match p_status p with
  | Runs k => tame k (p_table p) (p_pid p) (p_forks p) (p_pipes p) (p_back p)
  | _ => True
  end.

Definition to_start (ps : list process) : list launch := ps ≫= pending.

Instance to_start_proper : Proper ((≡ₚ) ==> (≡ₚ)) to_start.
Proof. intros ps ps' H. unfold to_start. by rewrite H. Qed.

Lemma to_start_cons p ps : to_start (p :: ps) = pending p ++ to_start ps.
Proof. done. Qed.

Lemma call_pending p b p' l :
  tame_process p -> call p b p' l ->
  tame_process p' /\ l ++ pending p' ⊆+ pending p /\ (b = false -> l ++ pending p' ≡ₚ pending p).
Proof.
  intros T C. unfold tame_process, pending in *.
  destruct C as [? ? E|? ? E|? ? ? ? ? ? E Ef|? ? ? ? E|? ? ? ? ? E Ef|? ? E|? ? ? E|? ? ? E|? ? ? E|? ? ? E|? ? E|E|? ? E];
    rewrite E in T |- *; cbn [goto becomes p_status p_table p_pid p_forks p_pipes p_back app programs tame] in *;
    rewrite ?Ef in *; try (by split_and!).
  - destruct T as [[T1 T2] T3]. by split_and!.
  - destruct T as [T1 T2]. destruct (fdalloc _ _) as [[fd t']|]; [|rewrite T1].
    + destruct T1 as [T1 T3]. by split_and!.
    + by split_and!.
  - destruct T as [T1 T2]. by split_and!.
  - destruct T as (T1 & T2 & ->). split_and!; [done|apply submseteq_nil_l|done].
  - destruct T as (T1 & ->). split_and!; [done|apply submseteq_nil_l|done].
  - destruct T as (T1 & T2 & T3). by split_and!.
  - destruct T as (T1 & T2 & T3). by split_and!.
Qed.

Lemma forked_pending p child parent failed :
  p_status p = Runs (Fork child parent failed) -> to_start (forked p child parent) = pending p.
Proof.
  intros E. unfold to_start, forked, pending. cbn [mbind list_bind p_status p_table p_pid p_forks p_pipes p_back].
  rewrite E. cbn [programs]. by rewrite app_nil_r.
Qed.

(** One step: what is started and what is still to be started. *)
Lemma step_programs s b s' :
  step s b s' -> Forall tame_process (procs s) ->
  Forall tame_process (procs s') /\
  started s' ++ to_start (procs s') ⊆+ started s ++ to_start (procs s) /\
  (b = false -> started s' ++ to_start (procs s') ≡ₚ started s ++ to_start (procs s)).
Proof.
  intros S T. destruct S as [p rest b p' l E C|p rest child parent failed E Hp|p rest child parent failed E Hp
    |p z rest k E Hp Hz Hc|p rest k E Hp Hn|z rest E Hz Ho]; rewrite E in T |- *; cbn [procs started];
    apply Forall_cons in T as [Tp T]; rewrite ?to_start_cons.
  - destruct (call_pending _ _ _ _ Tp C) as (T' & H1 & H2). split; [by constructor|].
    split; intros; rewrite <- app_assoc, (app_assoc l).
    + by apply submseteq_app, submseteq_app.
    + by rewrite (H2 H).
  - unfold to_start. rewrite bind_app. fold (to_start (forked p child parent)). rewrite (forked_pending _ _ _ _ Hp).
    split; [|done]. unfold tame_process in Tp. rewrite Hp in Tp. destruct Tp as (T1 & T2 & _). repeat constructor; done.
  - unfold tame_process in Tp. rewrite Hp in Tp. destruct Tp as (_ & _ & T1 & T2). split; [by constructor|].
    unfold pending at 1 3. cbn [goto p_status p_table p_pid p_forks p_pipes p_back]. rewrite T2. split; [|done].
    apply submseteq_app; [done|]. by apply submseteq_inserts_l.
  - apply Forall_cons in T as [Tz T]. unfold tame_process in Tp. rewrite Hp in Tp.
    split; [by constructor|]. unfold pending. rewrite Hp, Hz. done.
  - unfold tame_process in Tp. rewrite Hp in Tp. split; [by constructor|]. unfold pending. by rewrite Hp.
  - split; [done|]. unfold pending. by rewrite Hz.
Qed.

(** ** Descriptor tables *)

Definition free_at (t : table) (i : nat) : Prop :=
  t !! i = Some None /\ forall k, (k < i)%nat -> exists o, t !! k = Some (Some o).

(** Standard input and output are open, and two descriptors are free. *)
Definition ready (t : table) : Prop :=
  exists i j, (1 < i < j)%nat /\ free_at t i /\ forall o, free_at (<[i := Some o]> t) j.

Lemma fdalloc_first t i o : free_at t i -> fdalloc t o = Some (i, <[i := Some o]> t).
Proof.
  intros [Hi Hlt]. unfold fdalloc. rewrite (proj2 (list_find_Some _ t i None)); [done|]. split_and!; [done|done|].
  intros k y Hk Hki. destruct (Hlt k Hki) as [o' E]. by simplify_eq.
Qed.

Lemma table_lookup_insert (t : table) i x k :
  <[i := x]> t !! k = if decide (i = k) then (if decide (k < length t)%nat then Some x else None) else t !! k.
Proof.
  case_decide as D; [subst|by apply list_lookup_insert_ne]. case_decide as L; [by apply list_lookup_insert_eq|].
  apply lookup_ge_None. rewrite length_insert. lia.
Qed.

Lemma ready_lt t i j : (1 < i < j)%nat -> free_at t i -> (forall o, free_at (<[i := Some o]> t) j) -> (j < length t)%nat.
Proof. intros _ _ H. destruct (H (Inherited 0)) as [E _]. apply lookup_lt_Some in E. by rewrite length_insert in E. Qed.

(** A descriptor below the free ones is replaced. *)
Lemma free_at_replace t i fd o : (fd < i)%nat -> free_at t i -> free_at (<[fd := Some o]> t) i.
Proof.
  intros Hfd [Hi Hlt]. pose proof (lookup_lt_Some _ _ _ Hi). split.
  - by rewrite list_lookup_insert_ne by lia.
  - intros k Hk. rewrite table_lookup_insert. repeat case_decide; try lia; eauto.
Qed.

Lemma ready_replace t fd o : (fd < 2)%nat -> ready t -> ready (<[fd := Some o]> t).
Proof.
  intros Hfd (i & j & Hij & Hi & Hj). exists i, j. split_and!; try lia.
  - apply free_at_replace; [lia|done].
  - intros o'. rewrite list_insert_insert_ne by lia. apply free_at_replace; [lia|done].
Qed.

Lemma free_at_closed t i fd : (fd < i)%nat -> free_at t i -> free_at (close t fd) fd.
Proof.
  intros Hfd [Hi Hlt]. pose proof (lookup_lt_Some _ _ _ Hi). unfold close. split.
  - apply list_lookup_insert_eq. lia.
  - intros k Hk. rewrite list_lookup_insert_ne by lia. apply Hlt. lia.
Qed.

(** [close(fd); open(...)] gives the file the descriptor [fd]. *)
Lemma redirect t fd o : (fd < 2)%nat -> ready t -> fdalloc (close t fd) o = Some (fd, <[fd := Some o]> t).
Proof.
  intros Hfd (i & j & Hij & Hi & _). rewrite (fdalloc_first _ fd) by (by apply (free_at_closed t i); [lia|]).
  unfold close. by rewrite list_insert_insert_eq.
Qed.

Lemma pipe_fds_ready t i j pp :
  (1 < i < j)%nat -> free_at t i -> (forall o, free_at (<[i := Some o]> t) j) ->
  pipe_fds t pp = Some (i, j, <[j := Some (WriteEnd pp)]> (<[i := Some (ReadEnd pp)]> t)).
Proof.
  intros Hij Hi Hj. unfold pipe_fds. rewrite (fdalloc_first _ i) by done. by rewrite (fdalloc_first _ j).
Qed.

(** The table of a child after its calls in the [PIPE] case: only [fd] has
    changed, to the end of the pipe it takes. *)
Lemma pipe_child t i j fd e o o1 o2 :
  (1 < i < j)%nat -> free_at t i -> (forall o, free_at (<[i := Some o]> t) j) -> (fd < 2)%nat ->
  let t2 := <[j := Some o2]> (<[i := Some o1]> t) in
  (e = i \/ e = j) -> t2 !! e = Some (Some o) ->
  close (close (dup (close t2 fd) e) i) j = <[fd := Some o]> t.
Proof.
  intros Hij Hi Hj Hfd t2 He Ho. pose proof (ready_lt t i j Hij Hi Hj) as Hlen.
  destruct (Hj o1) as [Hj1 _]. rewrite list_lookup_insert_ne in Hj1 by lia. pose proof Hi as [Hi1 _].
  assert (Hclosed : free_at (close t2 fd) fd).
  { unfold close, t2. split.
    - apply list_lookup_insert_eq. rewrite !length_insert. lia.
    - intros k Hk. rewrite !list_lookup_insert_ne by lia. apply Hi. lia. }
  unfold dup. replace (close t2 fd !! e) with (Some (Some o)) by (unfold close; rewrite list_lookup_insert_ne by lia; done).
  rewrite (fdalloc_first _ fd _ Hclosed). unfold close, t2. apply list_eq. intros k.
  rewrite !table_lookup_insert, !length_insert. repeat case_decide; subst; try lia; congruence.
Qed.

Lemma pipe_parent t i j o1 o2 :
  (1 < i < j)%nat -> free_at t i -> (forall o, free_at (<[i := Some o]> t) j) ->
  close (close (<[j := Some o2]> (<[i := Some o1]> t)) i) j = t.
Proof.
  intros Hij Hi Hj. pose proof (ready_lt t i j Hij Hi Hj) as Hlen.
  destruct (Hj o1) as [Hj1 _]. rewrite list_lookup_insert_ne in Hj1 by lia. destruct Hi as [Hi1 _].
  unfold close. apply list_eq. intros k. rewrite !table_lookup_insert, !length_insert.
  repeat case_decide; subst; try lia; congruence.
Qed.

(** ** The tree of [runcmd] starts what the plan says *)

(** Redirections are of standard input and output. *)
Fixpoint standard (c : cmd) : Prop :=
  match c with
  | EXEC _ => True
  | REDIR c _ _ fd => (fd = 0 \/ fd = 1) /\ standard c
  | PIPE l r | LIST l r => standard l /\ standard r
  | BACK c => standard c
  end.

Lemma runcmd_plan b text c : forall t n nf np bg,
  (forall w, w ∈ words c -> string_at b w.1 = text w) -> standard c -> ready t ->
  programs (runcmd b c) t n nf np bg = plan text c t n nf np bg /\ tame (runcmd b c) t n nf np bg.
Proof.
  induction c as [argv|c IH file mode fd|l IHl r IHr|l IHl r IHr|c IH]; intros t n nf np bg Hw Hs Hr; cbn [words] in Hw.
  - destruct argv as [|w argv]; [done|]. cbn [runcmd plan programs tame]. split; [|done].
    do 2 f_equal; [|apply Hw; by left]. apply list_fmap_ext. intros i x Hx. apply Hw. by apply list_elem_of_lookup_2 with i.
  - cbn [standard] in Hs. destruct Hs as [Hfd Hs]. cbn [runcmd plan programs tame].
    assert (Hlt : (Z.to_nat fd < 2)%nat) by lia. rewrite (redirect t _ _ Hlt Hr).
    rewrite (Hw file) by (apply elem_of_app; right; by left).
    destruct (IH (<[Z.to_nat fd := Some (Opened (text file) mode)]> t) n nf np bg) as [H1 H2]; [|done|by apply ready_replace|].
    { intros w Hin. apply Hw, elem_of_app. by left. }
    split_and!; [done|done|apply submseteq_nil_l|done].
  - destruct Hs as [Hsl Hsr]. destruct Hr as (i & j & Hij & Hi & Hj). assert (Hr : ready t) by (by exists i, j).
    cbn [runcmd fork1 plan programs tame exits panic]. rewrite (pipe_fds_ready t i j) by done. cbn [programs tame].
    pose proof (ready_lt t i j Hij Hi Hj) as Hlen.
    rewrite orb_false_r.
    rewrite (pipe_child t i j 1 j (WriteEnd (n, np))), (pipe_child t i j 0 i (ReadEnd (n, np))); try done; try lia; try (by left); try (by right).
    2: { rewrite list_lookup_insert_ne by lia. apply list_lookup_insert_eq. lia. }
    2: { apply list_lookup_insert_eq. rewrite length_insert. lia. }
    destruct (IHl (<[1%nat := Some (WriteEnd (n, np))]> t) (n ++ [nf]) 0%nat 0%nat bg) as [H1 H2]; [|done|apply ready_replace; [lia|done]|].
    { intros w Hin. apply Hw, elem_of_app. by left. }
    destruct (IHr (<[0%nat := Some (ReadEnd (n, np))]> t) (n ++ [S nf]) 0%nat 0%nat bg) as [H3 H4]; [|done|apply ready_replace; [lia|done]|].
    { intros w Hin. apply Hw, elem_of_app. by right. }
    rewrite H1, H3, app_nil_r. by split_and!.
  - destruct Hs as [Hsl Hsr]. cbn [runcmd fork1 plan programs tame exits panic]. rewrite orb_false_r.
    destruct (IHl t (n ++ [nf]) 0%nat 0%nat bg) as [H1 H2]; [|done..|].
    { intros w Hin. apply Hw, elem_of_app. by left. }
    destruct (IHr t n (S nf) np bg) as [H3 H4]; [|done..|].
    { intros w Hin. apply Hw, elem_of_app. by right. }
    rewrite H1, H3. by split_and!.
  - cbn [runcmd fork1 plan programs tame exits panic]. rewrite orb_true_r, app_nil_r.
    destruct (IH t (n ++ [nf]) 0%nat 0%nat true) as [H1 H2]; [done..|]. by split_and!.
Qed.

(** ** Pipe ends *)

(** A process [n] with the descriptors [t] holds only ends of pipes that a
    process above it made, and never both ends of one. *)
Definition ends_ok (n : pid) (t : table) : Prop :=
  forall pp, (Some (WriteEnd pp) ∈ t \/ Some (ReadEnd pp) ∈ t -> exists m, m <> [] /\ n = pp.1 ++ m) /\
    ~ (Some (WriteEnd pp) ∈ t /\ Some (ReadEnd pp) ∈ t).

(** Whenever the process waits or becomes a program it has [ends_ok]. *)
Fixpoint settled (k : code) (t : table) (n : pid) (nf np : nat) : Prop :=
  match k with
  | Exit => True
  | Close fd k => settled k (close t fd) n nf np
  | Dup fd k => settled k (dup t fd) n nf np
  | Open file mode k failed =>
      match fdalloc t (Opened file mode) with
      | Some (fd, t') => settled (k fd) t' n nf np
      | None => True
      end /\ settled failed t n nf np
  | Pipe k failed =>
      match pipe_fds t (n, np) with
      | Some (fd0, fd1, t') => settled (k fd0 fd1) t' n nf (S np)
      | None => True
      end /\ settled failed t n nf np
  | Fork child parent failed =>
      settled child t (n ++ [nf]) 0 0 /\ settled parent t n (S nf) np /\ settled failed t n nf np
  | Wait k => ends_ok n t /\ settled k t n nf np
  | Exec _ _ failed => ends_ok n t /\ settled failed t n nf np
  | Chdir _ k failed => settled k t n nf np /\ settled failed t n nf np
  | Printf _ k => settled k t n nf np
  end.

Definition settled_process (p : process) : Prop :=
  match p_status p with
  | Runs k => settled k (p_table p) (p_pid p) (p_forks p) (p_pipes p)
  | Program _ _ => ends_ok (p_pid p) (p_table p)
  | Zombie => True
  end.

Lemma call_settled p b p' l : settled_process p -> call p b p' l -> settled_process p'.
Proof.
  intros H C. unfold settled_process in *.
  destruct C as [? ? E|? ? E|? ? ? ? ? ? E Ef|? ? ? ? E|? ? ? ? ? E Ef|? ? E|? ? ? E|? ? ? E|? ? ? E|? ? ? E|? ? E|E|? ? E];
    rewrite E in H; cbn [goto becomes p_status p_table p_pid p_forks p_pipes settled] in *;
    rewrite ?Ef in *; tauto.
Qed.

Lemma step_settled s b s' : step s b s' -> Forall settled_process (procs s) -> Forall settled_process (procs s').
Proof.
  intros S T. destruct S as [p rest b p' l E C|p rest child parent failed E Hp|p rest child parent failed E Hp
    |p z rest k E Hp Hz Hc|p rest k E Hp Hn|z rest E Hz Ho]; rewrite E in T; cbn [procs];
    apply Forall_cons in T as [Tp T]; [by constructor; [eapply call_settled|]|..]; unfold settled_process in Tp; rewrite ?Hp in Tp;
    cbn [settled] in Tp.
  - repeat constructor; unfold settled_process; cbn; tauto.
  - constructor; [|done]. unfold settled_process. cbn. tauto.
  - apply Forall_cons in T as [_ T]. constructor; [|done]. unfold settled_process. cbn. tauto.
  - constructor; [|done]. unfold settled_process. cbn. tauto.
  - done.
Qed.

(** Descriptors that stand for no pipe are harmless anywhere. *)
Definition ends_below (n : pid) (t : table) : Prop := forall k, ends_ok (n ++ k) t.

Lemma elem_of_replaced (t : table) fd o x : Some x ∈ <[fd := Some o]> t -> x = o \/ Some x ∈ t.
Proof.
  intros [k Hk]%list_elem_of_lookup. rewrite table_lookup_insert in Hk. repeat case_decide; simplify_eq; [by left|].
  right. by apply list_elem_of_lookup_2 with k.
Qed.

Lemma ends_below_app n k t : ends_below n t -> ends_below (n ++ k) t.
Proof. intros H k'. rewrite <- app_assoc. apply H. Qed.

Lemma ends_below_self n t : ends_below n t -> ends_ok n t.
Proof. intros H. specialize (H []). by rewrite app_nil_r in H. Qed.

Lemma ends_below_opened n t fd file mode : ends_below n t -> ends_below n (<[fd := Some (Opened file mode)]> t).
Proof.
  intros H k pp. destruct (H k pp) as [H1 H2]. split.
  - intros [[? |]%elem_of_replaced|[?|]%elem_of_replaced]; try done; apply H1; tauto.
  - intros [[?|]%elem_of_replaced [?|]%elem_of_replaced]; try done. tauto.
Qed.

(** A pipe of [n] is new in every table below [n]; a child takes one end. *)
Lemma ends_below_pipe n np t j fd o :
  ends_below n t -> o = WriteEnd (n, np) \/ o = ReadEnd (n, np) -> ends_below (n ++ [j]) (<[fd := Some o]> t).
Proof.
  intros H Ho k. rewrite <- app_assoc.
  assert (Hnew : forall e, e = WriteEnd (n, np) \/ e = ReadEnd (n, np) -> Some e ∉ t).
  { intros e He Hin. destruct (ends_below_self n t H (n, np)) as [H1 _].
    destruct H1 as (m & Hm & Hn); [destruct He as [-> | ->]; tauto|]. cbn in Hn. destruct m; [done|].
    apply (f_equal length) in Hn. rewrite length_app in Hn. cbn in Hn. lia. }
  intros pp. destruct (H ([j] ++ k) pp) as [H1 H2]. split.
  - intros [[E|Hin]%elem_of_replaced|[E|Hin]%elem_of_replaced]; try (apply H1; tauto).
    all: assert (pp = (n, np)) as -> by (destruct Ho; congruence); by exists ([j] ++ k).
  - intros [[E|Hin]%elem_of_replaced [E'|Hin']%elem_of_replaced]; [congruence| | |tauto].
    + assert (pp = (n, np)) as -> by (destruct Ho; congruence). by apply (Hnew (ReadEnd (n, np))); [right|].
    + assert (pp = (n, np)) as -> by (destruct Ho; congruence). by apply (Hnew (WriteEnd (n, np))); [left|].
Qed.

Lemma runcmd_settled b c : forall t n nf np,
  standard c -> ready t -> ends_below n t -> settled (runcmd b c) t n nf np.
Proof.
  induction c as [argv|c IH file mode fd|l IHl r IHr|l IHl r IHr|c IH]; intros t n nf np Hs Hr He.
  - destruct argv as [|w argv]; [done|]. split; [by apply ends_below_self|done].
  - destruct Hs as [Hfd Hs]. assert (Hlt : (Z.to_nat fd < 2)%nat) by lia. cbn [runcmd settled].
    rewrite (redirect t _ _ Hlt Hr). split; [|done]. apply IH; [done|by apply ready_replace|by apply ends_below_opened].
  - destruct Hs as [Hsl Hsr]. destruct Hr as (i & j & Hij & Hi & Hj). assert (Hr : ready t) by (by exists i, j).
    pose proof (ready_lt t i j Hij Hi Hj) as Hlen.
    cbn [runcmd fork1 settled panic]. rewrite (pipe_fds_ready t i j) by done. cbn [settled].
    rewrite (pipe_parent t i j) by done.
    rewrite (pipe_child t i j 1 j (WriteEnd (n, np))), (pipe_child t i j 0 i (ReadEnd (n, np))); try done; try lia; try (by left); try (by right).
    2: { rewrite list_lookup_insert_ne by lia. apply list_lookup_insert_eq. lia. }
    2: { apply list_lookup_insert_eq. rewrite length_insert. lia. }
    pose proof (ends_below_self n t He). split_and!; try done.
    + apply IHl; [done|apply ready_replace; [lia|done]|]. apply ends_below_pipe with np; [done|by left].
    + apply IHr; [done|apply ready_replace; [lia|done]|]. apply ends_below_pipe with np; [done|by right].
  - destruct Hs as [Hsl Hsr]. cbn [runcmd fork1 settled panic]. split_and!; [|by apply ends_below_self|by apply IHr|done].
    apply IHl; [done..|by apply ends_below_app].
  - cbn [runcmd fork1 settled panic]. split_and!; [|done..]. apply IH; [done..|by apply ends_below_app].
Qed.

(** ** Lines and sessions *)

Lemma add_redirs_standard c rs :
  standard c -> Forall (fun r => r.2 = 0 \/ r.2 = 1) rs -> standard (add_redirs c rs).
Proof.
  intros Hc H. revert c Hc. induction H as [|r rs Hr _ IH]; intros c Hc; [done|]. by apply IH.
Qed.

Lemma redirs_standard us rs : redirs_of us rs -> Forall (fun r : redir => r.2 = 0 \/ r.2 = 1) rs.
Proof. induction 1; constructor; auto. Qed.

Lemma args_standard us ws rs : args_of us ws rs -> Forall (fun r : redir => r.2 = 0 \/ r.2 = 1) rs.
Proof. induction 1; [constructor|]. apply Forall_app. eauto using redirs_standard. Qed.

Lemma back_standard k c : standard c -> standard (back k c).
Proof. revert c. induction k as [|k IH]; intros c H; [done|]. by apply IH. Qed.

Lemma grammar_standard :
  (forall us c, exec_of us c -> standard c) /\ (forall us c, pipe_of us c -> standard c) /\
  (forall us c, line_of us c -> standard c).
Proof.
  apply grammar_ind.
  - intros us rs vs ws rs' Hr Ha _. apply add_redirs_standard; [done|]. apply Forall_app.
    eauto using redirs_standard, args_standard.
  - intros w0 us c w' vs rs _ IH Hr. apply add_redirs_standard; eauto using redirs_standard.
  - done.
  - intros us c w0 vs c' _ IH1 _ IH2. done.
  - intros us c vs _ IH _. by apply back_standard.
  - intros us c vs w0 ts c' _ IH1 _ _ IH2. split; [by apply back_standard|done].
Qed.

Lemma run_line_plan buf t n :
  c_line buf -> ready t -> ends_below n t ->
  programs (run_line buf) t n 0 0 false = line_plan buf t n /\ tame (run_line buf) t n 0 0 false /\
  settled (run_line buf) t n 0 0.
Proof.
  intros Hc Hr He. unfold run_line, line_plan. destruct (parsecmd buf) as [[c b] s|msg| | |] eqn:E; try done.
  assert (Hs : standard c) by (apply parsecmd_sound in E as [Hg _]; [|done]; by apply grammar_standard in Hg).
  destruct (runcmd_plan b (slice buf) c t n 0 0 false) as [H1 H2]; [|done..|].
  { intros w Hw. by apply (parsecmd_words_terminated buf c b s w). }
  split_and!; [done|done|]. by apply runcmd_settled.
Qed.

Lemma until_nul_line l : c_line (until_nul l).
Proof.
  induction l as [|x l IH]; cbn; [constructor|]. destruct (Z.eqb_spec x 0); [constructor|]. by constructor.
Qed.

Lemma lines_c_line k inp : Forall c_line (lines k inp).
Proof.
  revert inp. induction k as [|k IH]; intros inp; cbn [lines]; [constructor|]. unfold getcmd.
  destruct (Ulib.gets _ _ _ _) as [m rest]. destruct (m 0 =? 0); constructor; [apply until_nul_line|apply IH].
Qed.

Lemma commands_plan bufs t : forall i,
  Forall c_line bufs -> ready t -> ends_below [] t ->
  programs (commands bufs) t [] i 0 false = session_plan bufs t i /\ tame (commands bufs) t [] i 0 false /\
  settled (commands bufs) t [] i 0.
Proof.
  induction bufs as [|buf bufs IH]; intros i Hl Hr He; [done|]. apply Forall_cons in Hl as [Hb Hl]. cbn [commands session_plan].
  destruct (is_cd buf).
  - destruct (IH i Hl Hr He) as (H1 & H2 & H3). by split_and!.
  - destruct (IH (S i) Hl Hr He) as (H1 & H2 & H3).
    destruct (run_line_plan buf t [i] Hb Hr) as (H4 & H5 & H6); [by apply (ends_below_app [] [i])|].
    cbn [fork1 programs tame settled exits panic app orb]. rewrite H1, H4. pose proof (ends_below_self _ _ He). by split_and!.
Qed.

(** The descriptors the shell is started with: the standard three and two
    more, none of them a pipe. *)
Definition prepared (t : table) : Prop :=
  (exists i j, (2 < i < j)%nat /\ free_at t i /\ forall o, free_at (<[i := Some o]> t) j) /\
  forall pp, Some (WriteEnd pp) ∉ t /\ Some (ReadEnd pp) ∉ t.

Lemma prepared_ready t : prepared t -> ready t /\ ends_below [] t.
Proof.
  intros [(i & j & Hij & Hi & Hj) Hp]. split; [exists i, j; split_and!; try lia; done|].
  intros k pp. destruct (Hp pp). split; tauto.
Qed.

(** The loop that opens the console leaves such a table as it is. *)
Lemma main_plan inp t :
  prepared t ->
  programs (main inp) t [] 0 0 false = session_plan (lines (S (length inp)) inp) t 0 /\
  tame (main inp) t [] 0 0 false /\ settled (main inp) t [] 0 0.
Proof.
  intros Hp. destruct (prepared_ready t Hp) as [Hr He]. destruct Hp as [(i & j & Hij & Hi & Hj) _].
  destruct (commands_plan (lines (S (length inp)) inp) t 0 (lines_c_line _ _) Hr He) as (H1 & H2 & H3).
  unfold main. cbn [open_console programs tame settled]. rewrite (fdalloc_first t i) by done.
  rewrite (proj2 (Nat.leb_le 3 i)) by lia. cbn [programs tame settled].
  replace (close (<[i := _]> t) i) with t. 2: { unfold close. by rewrite list_insert_insert_eq, list_insert_id by apply Hi. }
  by split_and!.
Qed.

(** ** Runs *)

(** A process that waits, or that runs a program. *)
Definition settled_now (p : process) : bool :=
  match p_status p with Runs (Wait _) | Program _ _ => true | _ => false end.

Lemma run_programs (R : system -> system -> Prop) s s' :
  (forall s s', R s s' -> any_step s s') -> rtc R s s' ->
  Forall tame_process (procs s) -> Forall settled_process (procs s) ->
  Forall tame_process (procs s') /\ Forall settled_process (procs s') /\
  started s' ++ to_start (procs s') ⊆+ started s ++ to_start (procs s).
Proof.
  intros HR. induction 1 as [s|s s1 s2 S _ IH]; intros T D; [done|]. destruct (HR _ _ S) as [b Sb].
  destruct (step_programs _ _ _ Sb T) as (T1 & H1 & _). destruct (IH T1 (step_settled _ _ _ Sb D)) as (T2 & D2 & H2).
  split_and!; [done|done|]. by etrans.
Qed.

Lemma good_run_programs s s' :
  rtc good_step s s' -> Forall tame_process (procs s) ->
  started s' ++ to_start (procs s') ≡ₚ started s ++ to_start (procs s).
Proof.
  induction 1 as [s|s s1 s2 S _ IH]; intros T; [done|]. destruct (step_programs _ _ _ S T) as (T1 & _ & H1).
  rewrite (IH T1). by apply H1.
Qed.

Lemma to_start_nil ps : (forall p k, p ∈ ps -> p_status p <> Runs k) -> to_start ps = [].
Proof.
  intros H. induction ps as [|p ps IH]; [done|]. rewrite to_start_cons, IH by (intros q k Hq; apply H; by right).
  unfold pending. destruct (p_status p) eqn:E; [|done..]. exfalso. by apply (H p k); [left|].
Qed.

(** C25: the shell runs what its input says.  In every run, in whatever order its
    processes proceed and whichever system calls fail, each program started is
    one the command lines ask for, at most once, with the words of the line as
    arguments and with exactly the descriptors the line calls for: those of
    the shell, but for redirections and, on the two sides of a pipe, one end
    of it each.  Once a process waits or has become a program it holds no pipe
    of its own making and never both ends of one, so that readers see the end
    of their input.  If no call fails, then when no process of the shell is
    left running everything asked for has been started. *)
Theorem shell_runs_plan inp t :
  prepared t ->
  let asked := session_plan (lines (S (length inp)) inp) t 0 in
  (forall s, rtc any_step (shell inp t) s ->
     started s ⊆+ asked /\
     forall p, p ∈ procs s -> settled_now p = true -> ends_ok (p_pid p) (p_table p)) /\
  (forall s, rtc good_step (shell inp t) s -> (forall p k, p ∈ procs s -> p_status p <> Runs k) ->
     started s ≡ₚ asked).
Proof.
  intros Hp asked. destruct (main_plan inp t Hp) as (H1 & H2 & H3).
  assert (T : Forall tame_process (procs (shell inp t))) by (by constructor; [|constructor]).
  assert (D : Forall settled_process (procs (shell inp t))) by (by constructor; [|constructor]).
  assert (E : started (shell inp t) ++ to_start (procs (shell inp t)) = asked).
  { cbn [shell started procs app]. rewrite to_start_cons. unfold pending. cbn [p_status p_table p_pid p_forks p_pipes p_back].
    by rewrite H1, app_nil_r. }
  split.
  - intros s Hs. destruct (run_programs any_step _ _ ltac:(done) Hs T D) as (_ & Ds & Hsub). rewrite E in Hsub. split.
    + etrans; [|exact Hsub]. by apply submseteq_inserts_r.
    + intros p Hin Hw. apply (proj1 (Forall_forall _ _) Ds) in Hin. unfold settled_process, settled_now in *.
      destruct (p_status p) as [k| |]; [|done..]. destruct k; try done. apply Hin.
  - intros s Hs Hdone. pose proof (good_run_programs _ _ Hs T) as Hperm. rewrite E, to_start_nil, app_nil_r in Hperm by done.
    done.
Qed.

(** The descriptors init gives the shell, and the line [ls | wc > out]. *)
Definition console_table : table := replicate 3 (Some (Opened (cbytes "console") O_RDWR)) ++ replicate 13 None.
Definition sample_input : list Z := cbytes "ls | wc > out" ++ [newline].

Lemma console_prepared : prepared console_table.
Proof.
  split.
  - exists 3%nat, 4%nat. split_and!; try lia; [split; [done|]|intros o; split; [done|]].
    all: intros k Hk; repeat (destruct k as [|k]; [by eexists|]); lia.
  - intros pp. split; intros [[? _]%elem_of_replicate|[? _]%elem_of_replicate]%elem_of_app; done.
Qed.

Definition sample_asked : list launch :=
  [MkLaunch [0; 0]%nat [cbytes "ls"] (cbytes "ls") (<[1%nat := Some (WriteEnd ([0%nat], 0%nat))]> console_table) false;
   MkLaunch [0; 1]%nat [cbytes "wc"] (cbytes "wc")
     (<[1%nat := Some (Opened (cbytes "out") (Z.lor O_WRONLY O_CREATE))]>
        (<[0%nat := Some (ReadEnd ([0%nat], 0%nat))]> console_table)) false].

Lemma sample_plan : session_plan (lines (S (length sample_input)) sample_input) console_table 0 = sample_asked.
Proof. vm_compute. reflexivity. Qed.

(** In one run the two programs are started, joined by the pipe. *)
Lemma shell_runs_plan_witness :
  exists s, rtc good_step (shell sample_input console_table) s /\ procs s = [] /\ started s ≡ₚ sample_asked.
Proof.
  destruct (shell_runs_plan sample_input console_table console_prepared) as [_ H]. rewrite sample_plan in H.
  assert (E : exists s, moves [0; 0; 0; 0; 0; 0; 0; 0; 0; 0; 0; 1; 0; 0; 0; 0; 0; 0; 0; 0; 1; 0; 0; 0; 0; 1; 0; 0]%nat
    (shell sample_input console_table) = Some s /\ procs s = []) by (eexists; split; vm_compute; reflexivity).
  destruct E as (s & Hs & Hn). apply moves_run in Hs. exists s. split_and!; [exact Hs|exact Hn|].
  apply H; [exact Hs|]. rewrite Hn. intros p k Hin. by apply elem_of_nil in Hin.
Defined.
