(* ===== verification/ShJobs.v ===== *)
(** * The processes of the shell end, and it waits for them

    No run of the shell goes on for ever or gets stuck in a [wait], and the
    shell asks for the next command only when every process of the last one
    that is not in the background is gone. *)

From stdpp Require Import base numbers list strings relations.
From Stdlib Require Import ZArith Lia.
From S2P Require Import Prelude CStrings Sysfile Sh ShSpec ShRun.

Open Scope nat_scope.

(** ** Children *)

Definition kids (p : process) (ps : list process) : nat := length (filter (fun q => child_of q p) ps).

Lemma kids_cons p q ps : kids p (q :: ps) = (if decide (child_of q p) then S (kids p ps) else kids p ps).
Proof. unfold kids. rewrite filter_cons. by case_decide. Qed.

Instance kids_proper p : Proper ((≡ₚ) ==> eq) (kids p).
Proof. intros ps ps' H. unfold kids. by rewrite H. Qed.

(** Only the names count. *)
Lemma child_of_pid q q' p p' : p_pid q' = p_pid q -> p_pid p' = p_pid p -> child_of q' p' <-> child_of q p.
Proof. intros E1 E2. unfold child_of. by rewrite E1, E2. Qed.

Lemma kids_pid p p' ps : p_pid p' = p_pid p -> kids p' ps = kids p ps.
Proof.
  intros E. induction ps as [|q ps IH]; [done|]. rewrite !kids_cons, IH.
  pose proof (child_of_pid q q p p' eq_refl E). repeat case_decide; tauto.
Qed.

Lemma kids_swap p q q' ps : p_pid q' = p_pid q -> kids p (q' :: ps) = kids p (q :: ps).
Proof. intros E. rewrite !kids_cons. pose proof (child_of_pid q q' p p E eq_refl). repeat case_decide; tauto. Qed.

Lemma kids_zero p ps q : kids p ps = 0 -> q ∈ ps -> ~ child_of q p.
Proof.
  intros H Hin Hc. unfold kids in H. apply length_zero_iff_nil in H.
  assert (Hf : q ∈ filter (fun q => child_of q p) ps) by (by apply list_elem_of_filter). rewrite H in Hf. by apply elem_of_nil in Hf.
Qed.

Lemma kids_pos p ps : 0 < kids p ps -> exists q, q ∈ ps /\ child_of q p.
Proof.
  intros H. unfold kids in H. destruct (filter _ ps) as [|q l] eqn:E; [cbn in H; lia|].
  exists q. apply and_comm, (list_elem_of_filter (fun q => child_of q p)). rewrite E. by left.
Qed.

Lemma not_own_child p : ~ child_of p p.
Proof. intros [j E]. apply (f_equal length) in E. rewrite length_app in E. cbn in E. lia. Qed.

(** ** What a process still waits for *)

(** Messages and the exit. *)
Fixpoint quits (k : code) : Prop :=
  match k with Exit => True | Printf _ k => quits k | _ => False end.

(** With [n] children, [k] waits for each before it exits or becomes a
    program, and for those it will have, but for one it starts as its last
    act. *)
Fixpoint awaits (n : nat) (k : code) : Prop :=
  match k with
  | Exit => n = 0
  | Close _ k | Dup _ k | Printf _ k => awaits n k
  | Open _ _ k failed => (forall fd, awaits n (k fd)) /\ (quits failed \/ awaits n failed)
  | Pipe k failed => (forall fd0 fd1, awaits n (k fd0 fd1)) /\ quits failed
  | Fork child parent failed =>
      awaits 0 child /\ (if exits parent then n = 0 else awaits (S n) parent) /\ quits failed
  | Wait k => match n with O => False | S n' => awaits n' k end
  | Exec _ _ failed => n = 0 /\ quits failed
  | Chdir _ k failed => awaits n k /\ awaits n failed
  end.

Lemma runcmd_awaits b c : awaits 0 (runcmd b c).
Proof.
  induction c as [argv|c IH file mode fd|l IHl r IHr|l IHl r IHr|c IH]; cbn [runcmd fork1 awaits exits panic quits];
    [by destruct argv|..]; split_and!; auto.
Qed.

Lemma run_line_awaits buf : awaits 0 (run_line buf).
Proof. unfold run_line. destruct (parsecmd buf) as [[c b] s| | | |]; [apply runcmd_awaits|done..]. Qed.

Lemma commands_awaits bufs : awaits 0 (commands bufs).
Proof.
  induction bufs as [|buf bufs IH]; [done|]. cbn [commands]. destruct (is_cd buf); [done|].
  split_and!; [apply run_line_awaits|done|done].
Qed.

(** At its prompt the shell has no child. *)
Lemma commands_no_kids bufs n : awaits n (commands bufs) -> n = 0.
Proof.
  revert n. induction bufs as [|buf bufs IH]; intros n; [done|]. cbn [commands]. destruct (is_cd buf).
  - intros [H _]. by apply IH.
  - intros (_ & H & _). by apply IH.
Qed.

Lemma main_awaits inp : awaits 0 (main inp).
Proof.
  unfold main. pose proof (commands_awaits (lines (S (length inp)) inp)) as H. generalize 4.
  induction n as [|n IH]; [done|]. split; [|by right]. intros fd. by destruct (3 <=? fd).
Qed.

(** ** The invariant of all runs *)

Record family (ps : list process) : Prop := {
  fam_names : NoDup (p_pid <$> ps);
  fam_fresh : forall p q j m, p ∈ ps -> q ∈ ps -> p_pid q = p_pid p ++ j :: m -> j < p_forks p;
  fam_waits : forall p k, p ∈ ps -> p_status p = Runs k -> quits k \/ awaits (kids p ps) k
}.

Instance family_proper : Proper ((≡ₚ) ==> iff) family.
Proof.
  assert (H : forall ps ps', ps ≡ₚ ps' -> family ps -> family ps').
  { intros ps ps' E [F1 F2 F3]. split.
    - by rewrite <- E.
    - intros p q j m Hp Hq. rewrite <- E in Hp, Hq. by apply F2.
    - intros p k Hp. rewrite <- E in Hp |- *. by apply F3. }
  intros ps ps' E. split; apply H; [done|by symmetry].
Qed.

(** A process that keeps its name and its count of forks. *)
Lemma family_call p p' rest :
  family (p :: rest) -> p_pid p' = p_pid p -> p_forks p' = p_forks p ->
  (forall k', p_status p' = Runs k' -> quits k' \/ awaits (kids p (p :: rest)) k') ->
  family (p' :: rest).
Proof.
  intros [F1 F2 F3] Epid Ef Hk. split.
  - cbn in *. by rewrite Epid.
  - intros a b j m Ha Hb E.
    assert (exists a', a' ∈ p :: rest /\ p_pid a' = p_pid a /\ p_forks a' = p_forks a) as (a' & Ha' & Ea & Eaf).
    { apply elem_of_cons in Ha as [->|Ha]; [exists p; split_and!; [by left|done|done]|exists a; split_and!; [by right|done|done]]. }
    assert (exists b', b' ∈ p :: rest /\ p_pid b' = p_pid b) as (b' & Hb' & Eb).
    { apply elem_of_cons in Hb as [->|Hb]; [exists p; split; [by left|done]|exists b; split; [by right|done]]. }
    rewrite <- Eaf. apply (F2 a' b' j m); [done|done|]. by rewrite Ea, Eb.
  - intros q k [->|Hq]%elem_of_cons Hs; rewrite (kids_swap _ p p') by done.
    + rewrite (kids_pid p p') by done. by apply Hk.
    + apply F3; [by right|done].
Qed.

Lemma kids_none p ps : (forall q, q ∈ ps -> ~ child_of q p) -> kids p ps = 0.
Proof.
  intros H. induction ps as [|q ps IH]; [done|]. rewrite kids_cons, decide_False by (apply H; by left).
  apply IH. intros r Hr. apply H. by right.
Qed.

(** Two processes of the pool with one child, or one name, are the same. *)
Lemma family_name p q rest : family (p :: rest) -> q ∈ rest -> p_pid q <> p_pid p.
Proof.
  intros [F1 _ _] Hq E. cbn in F1. apply NoDup_cons in F1 as [F1 _]. apply F1. rewrite <- E. by apply list_elem_of_fmap_2.
Qed.

Lemma child_parent z p q : child_of z p -> child_of z q -> p_pid q = p_pid p.
Proof. intros [i E] [j E']. rewrite E in E'. by apply app_inj_2 in E' as [-> _]. Qed.

Lemma family_forked p child parent rest :
  family (p :: rest) -> awaits 0 child ->
  (if exits parent then True else awaits (S (kids p (p :: rest))) parent) ->
  family (forked p child parent ++ rest).
Proof.
  intros F Hc Hp. pose proof F as [F1 F2 F3]. unfold forked. cbn [app]. set (c0 := MkProcess _ _ 0 _ _ _). set (p' := MkProcess _ _ (S _) _ _ _).
  assert (Hin : p ∈ p :: rest) by left.
  assert (Hfresh : forall q m, q ∈ rest -> p_pid q <> p_pid p ++ p_forks p :: m).
  { intros q m Hq E. pose proof (F2 p q (p_forks p) m Hin ltac:(by right) E). lia. }
  assert (Hown : kids p (p :: rest) = kids p rest) by (by rewrite kids_cons, decide_False by apply not_own_child).
  split.
  - cbn in F1 |- *. apply NoDup_cons. split; [|done]. intros [E|Hr]%elem_of_cons.
    + apply (f_equal length) in E. rewrite length_app in E. cbn in E. lia.
    + apply list_elem_of_fmap in Hr as (q & E & Hq). by apply (Hfresh q [] Hq).
  - intros a b j m [->|[->|Ha]%elem_of_cons]%elem_of_cons [->|[->|Hb]%elem_of_cons]%elem_of_cons E; cbn [c0 p' p_pid p_forks] in *.
    + apply (f_equal length) in E. rewrite !length_app in E. cbn in E. lia.
    + apply (f_equal length) in E. rewrite !length_app in E. cbn in E. lia.
    + rewrite <- app_assoc in E. by apply Hfresh in E.
    + apply app_inv_head in E. injection E as -> _. lia.
    + apply (f_equal length) in E. rewrite !length_app in E. cbn in E. lia.
    + pose proof (F2 p b j m Hin ltac:(by right) E). lia.
    + destruct (exists_last (l := j :: m)) as (m' & x & Em); [done|]. rewrite Em, app_assoc in E.
      apply app_inj_tail in E as [E _]. destruct m' as [|y m'].
      * rewrite app_nil_r in E. exfalso. by apply (family_name p a rest F Ha).
      * injection Em as -> Em. by apply (F2 a p y m' ltac:(by right) Hin).
    + by apply (F2 a p j m ltac:(by right) Hin).
    + by apply (F2 a b j m ltac:(by right) ltac:(by right)).
  - assert (Hnot : forall q, p_pid q = p_pid p -> ~ child_of q c0).
    { intros q E [j Ej]. rewrite E in Ej. apply (f_equal length) in Ej. cbn [c0 p_pid] in Ej. rewrite !length_app in Ej. cbn in Ej. lia. }
    intros q k [->|[->|Hq]%elem_of_cons]%elem_of_cons Hs.
    + injection Hs as <-. right. rewrite kids_none; [done|].
      intros q [->|[->|Hq]%elem_of_cons]%elem_of_cons; [apply not_own_child|by apply Hnot|].
      intros [j E]. cbn [c0 p_pid] in E. rewrite <- app_assoc in E. by apply (Hfresh q [j] Hq).
    + injection Hs as <-. destruct (exits parent) eqn:Ex; [left; by destruct parent|]. right.
      rewrite kids_cons, decide_True by (by exists (p_forks p)).
      rewrite kids_cons, decide_False by apply not_own_child. rewrite (kids_pid p p') by done. by rewrite <- Hown.
    + rewrite kids_cons, decide_False.
      2: { intros Hcq. apply (family_name p q rest F Hq). apply (child_parent c0 p q); [by exists (p_forks p)|done]. }
      rewrite (kids_swap q p p') by done. apply F3; [by right|done].
Qed.

(** A process goes; its parent, if it is running, no longer counts it. *)
Lemma family_gone z rest :
  family (z :: rest) ->
  (forall p k, p ∈ rest -> p_status p = Runs k -> child_of z p -> quits k \/ awaits (kids p rest) k) -> family rest.
Proof.
  intros [F1 F2 F3] H. split.
  - cbn in F1. by apply NoDup_cons in F1 as [_ F1].
  - intros p q j m Hp Hq. apply F2; by right.
  - intros p k Hp Hs. destruct (decide (child_of z p)) as [Hc|Hc]; [by apply (H p k)|].
    destruct (F3 p k ltac:(by right) Hs) as [Hk|Hk]; [by left|]. right. by rewrite kids_cons, decide_False in Hk.
Qed.

(** [wait] takes a child away from [p]. *)
Lemma family_waited p z rest k :
  family (p :: z :: rest) -> p_status p = Runs (Wait k) -> child_of z p -> family (goto (p_table p) k p :: rest).
Proof.
  intros F Hp Hz. pose proof (fam_waits _ F p (Wait k) ltac:(by left) Hp) as [[]|Hw].
  rewrite kids_cons, decide_False, kids_cons, decide_True in Hw by (done || apply not_own_child). cbn [awaits] in Hw.
  assert (E : kids p (p :: rest) = kids p rest) by (by rewrite kids_cons, decide_False by apply not_own_child).
  rewrite Permutation_swap in F.
  assert (F' : family (p :: z :: rest)) by (by rewrite Permutation_swap).
  split; destruct F as [F1 F2 F3]; set (p' := goto _ _ _).
  - cbn in F1 |- *. by apply NoDup_cons in F1 as [_ F1].
  - intros a b j m Ha Hb Eab.
    assert (Hold : forall x, x ∈ p' :: rest -> exists y, y ∈ z :: p :: rest /\ p_pid y = p_pid x /\ p_forks y = p_forks x).
    { intros x [->|Hx]%elem_of_cons; [exists p; split_and!; [right; by left|done|done]|exists x; split_and!; [right; by right|done|done]]. }
    destruct (Hold a Ha) as (a' & Ha' & Ea & Ef). destruct (Hold b Hb) as (b' & Hb' & Eb & _).
    rewrite <- Ef. apply (F2 a' b' j m); [done|done|]. by rewrite Ea, Eb.
  - intros q k' [->|Hq]%elem_of_cons Hs; rewrite (kids_swap _ p p') by done.
    + injection Hs as <-. right. by rewrite (kids_pid p p'), E.
    + destruct (F3 q k' ltac:(right; by right) Hs) as [Hk|Hk]; [by left|]. right.
      rewrite kids_cons, decide_False in Hk; [done|]. intros Hc.
      apply (family_name p q (z :: rest) F' ltac:(by right)). by apply (child_parent z p q).
Qed.

Lemma call_keeps p b p' l : call p b p' l -> p_pid p' = p_pid p /\ p_forks p' = p_forks p /\ p_back p' = p_back p.
Proof. by destruct 1. Qed.

Lemma call_awaits p b p' l k k' n :
  call p b p' l -> p_status p = Runs k -> quits k \/ awaits n k -> p_status p' = Runs k' -> quits k' \/ awaits n k'.
Proof.
  intros C Hk H Hk'. destruct C as [? ? E|? ? E|? ? ? ? ? ? E Ef|? ? ? ? E|? ? ? ? ? E Ef|? ? E|? ? ? E|? ? ? E|? ? ? E|? ? ? E|? ? E|E|? ? E];
    rewrite E in Hk; simplify_eq; cbn [goto becomes p_status quits awaits] in *; simplify_eq; naive_solver.
Qed.

Lemma step_family s b s' : step s b s' -> family (procs s) -> family (procs s').
Proof.
  intros S F. destruct S as [p rest b p' l E C|p rest child parent failed E Hp|p rest child parent failed E Hp
    |p z rest k E Hp Hz Hc|p rest k E Hp Hn|z rest E Hz Ho]; rewrite E in F; cbn [procs].
  - destruct (call_keeps _ _ _ _ C) as (E1 & E2 & _). apply (family_call p); [done..|]. intros k' Hk'.
    destruct (p_status p) as [k|path argv|] eqn:Ek.
    + apply (call_awaits _ _ _ _ _ _ _ C Ek); [|done]. by apply (fam_waits _ F); [left|].
    + destruct C; cbn in Hk'; congruence.
    + destruct C; cbn in Hk'; congruence.
  - destruct (fam_waits _ F p _ ltac:(by left) Hp) as [[]|(H1 & H2 & _)]. apply family_forked; [done..|].
    by destruct (exits parent).
  - destruct (fam_waits _ F p _ ltac:(by left) Hp) as [[]|(_ & _ & H)]. apply (family_call p); [done..|].
    intros k' [= <-]. by left.
  - by apply family_waited with z.
  - destruct (fam_waits _ F p _ ltac:(by left) Hp) as [[]|H]. rewrite kids_cons, decide_False, kids_none in H; [done| |apply not_own_child].
    by apply Forall_forall.
  - apply (family_gone z); [done|]. intros p k Hin Hs Hc. rewrite Forall_forall in Ho. specialize (Ho p Hin Hc). congruence.
Qed.

(** ** No run gets stuck *)

Lemma mover s p :
  p ∈ procs s -> match p_status p with Runs (Wait _) | Zombie => False | _ => True end -> exists s', any_step s s'.
Proof.
  intros [rest E]%elem_of_Permutation Hm.
  assert (Hcall : forall b p' l, call p b p' l -> exists s', any_step s s').
  { intros b p' l C. eexists. exists b. by apply step_call with p. }
  destruct (p_status p) as [k|path argv|] eqn:Ek; [|by eapply Hcall, call_program|done].
  destruct k as [|fd k|fd k|file mode k failed|k failed|child parent failed|k|path argv failed|path k failed|text k]; try done.
  - by eapply Hcall, call_exit.
  - by eapply Hcall, call_close.
  - by eapply Hcall, call_dup.
  - by eapply Hcall, call_open_failed.
  - by eapply Hcall, call_pipe_failed.
  - eexists. exists false. by eapply step_fork.
  - by eapply Hcall, call_exec.
  - by eapply Hcall, call_chdir.
  - by eapply Hcall, call_printf.
Qed.

Lemma deepest (ps : list process) :
  ps <> [] -> exists p, p ∈ ps /\ forall q, q ∈ ps -> length (p_pid q) <= length (p_pid p).
Proof.
  induction ps as [|p ps IH]; [done|intros _]. destruct ps as [|r ps].
  { exists p. split; [by left|]. intros q [->|[]%elem_of_nil]%elem_of_cons. done. }
  destruct IH as (m & Hm & Hmax); [done|]. destruct (le_lt_dec (length (p_pid p)) (length (p_pid m))) as [Hle|Hlt].
  - exists m. split; [by right|]. intros q [->|Hq]%elem_of_cons; [done|by apply Hmax].
  - exists p. split; [by left|]. intros q [->|Hq]%elem_of_cons; [done|]. specialize (Hmax q Hq). lia.
Qed.

Lemma family_progress s : family (procs s) -> procs s <> [] -> exists s', any_step s s'.
Proof.
  intros F Hne. destruct (deepest (procs s) Hne) as (p & Hp & Hmax).
  destruct (p_status p) as [k|path argv|] eqn:Ek; [|apply (mover s p Hp); by rewrite Ek|].
  - destruct k as [| | | | | |k| | |]; try (apply (mover s p Hp); by rewrite Ek).
    destruct (fam_waits _ F p _ Hp Ek) as [[]|H]. destruct (kids p (procs s)) as [|n] eqn:En; [done|].
    destruct (kids_pos p (procs s)) as (q & Hq & [j Ej]); [lia|]. specialize (Hmax q Hq).
    rewrite Ej, length_app in Hmax. cbn in Hmax. lia.
  - destruct (proj1 (elem_of_Permutation (procs s) p) Hp) as [rest E].
    destruct (decide (Forall (fun q => child_of p q -> p_status q = Zombie) rest)) as [Hall|Hsome].
    { eexists. exists false. by apply step_init with p. }
    apply not_Forall_Exists in Hsome; [|apply _]. apply Exists_exists in Hsome as (q & Hq & Hnot). change (~ (child_of p q -> p_status q = Zombie)) in Hnot.
    assert (Hqs : q ∈ procs s) by (rewrite E; by right).
    assert (Hc : child_of p q /\ p_status q <> Zombie) by (destruct (decide (child_of p q)), (decide (p_status q = Zombie)); tauto).
    destruct Hc as [Hc Hz]. destruct (p_status q) as [k|path argv|] eqn:Eq; [|apply (mover s q Hqs); by rewrite Eq|done].
    destruct k as [| | | | | |k| | |]; try (apply (mover s q Hqs); by rewrite Eq).
    apply elem_of_Permutation in Hq as [rest' E']. eexists. exists false. apply (step_wait s q p rest' k); try done.
    rewrite E, E'. apply Permutation_swap.
Qed.

(** ** Every run is finite *)

(** The processes of [k] take fewer than [n] steps until they are gone. *)
Fixpoint at_most (k : code) (n : nat) : Prop :=
  match n with
  | O => False
  | S n' =>
      match k with
      | Exit => 0 < n'
      | Close _ k | Dup _ k | Wait k | Printf _ k => at_most k n'
      | Open _ _ k failed => (forall fd, at_most (k fd) n') /\ at_most failed n'
      | Pipe k failed => (forall fd0 fd1, at_most (k fd0 fd1) n') /\ at_most failed n'
      | Fork child parent failed => at_most failed n' /\ exists a b, a + b <= n' /\ at_most child a /\ at_most parent b
      | Exec _ _ failed => 1 < n' /\ at_most failed n'
      | Chdir _ k failed => at_most k n' /\ at_most failed n'
      end
  end.

Lemma at_most_mono k : forall n m, n <= m -> at_most k n -> at_most k m.
Proof.
  induction k as [|fd k IH|fd k IH|file mode k IH failed IHf|k IH failed IHf|child IHc parent IHp failed IHf|k IH
    |path argv failed IHf|path k IH failed IHf|text k IH]; intros [|n] [|m] Hle H; try lia; try done; cbn [at_most] in *;
    assert (Hnm : n <= m) by lia; try (by apply (IH n m)).
  - lia.
  - destruct H as [H1 H2]. split; [intros fd; by apply (IH fd n m)|by apply (IHf n m)].
  - destruct H as [H1 H2]. split; [intros fd0 fd1; by apply (IH fd0 fd1 n m)|by apply (IHf n m)].
  - destruct H as (H1 & a & b & Hab & H2 & H3). split; [by apply (IHf n m)|]. exists a, b. split_and!; [lia|done|done].
  - destruct H as [H1 H2]. split; [lia|by apply (IHf n m)].
  - destruct H as [H1 H2]. split; [by apply (IH n m)|by apply (IHf n m)].
Qed.

Lemma message_at_most text n : 3 <= n -> at_most (Printf text Exit) n.
Proof. intros H. destruct n as [|[|[|n]]]; try lia. cbn. lia. Qed.

Lemma runcmd_at_most b c : exists n, at_most (runcmd b c) n.
Proof.
  induction c as [argv|c [n IH] file mode fd|l [n IHl] r [m IHr]|l [n IHl] r [m IHr]|c [n IH]]; cbn [runcmd fork1].
  - destruct argv as [|w argv]; [exists 2; cbn; lia|]. exists 4. split; [lia|by apply message_at_most].
  - exists (S (S (n + 3))). split; [intros _; apply (at_most_mono _ n); [lia|done]|]. apply message_at_most. lia.
  - exists (S (S (S (S (S (S n))) + S (S (S (S (S m))) + 8)))).
    split; [|apply message_at_most; lia]. intros fd0 fd1. split; [apply message_at_most; lia|].
    exists (S (S (S (S n)))), (S (S (S (S (S m))) + 8)). split_and!; [lia|done|].
    split; [apply message_at_most; lia|]. exists (S (S (S (S m)))), 8. split_and!; [lia|done|cbn; lia].
  - exists (S (3 + n + S m)). split; [apply message_at_most; lia|]. exists n, (S m). split_and!; [lia|done|done].
  - exists (S (3 + n)). split; [apply message_at_most; lia|]. exists n, 2. split_and!; [lia|done|cbn; lia].
Qed.

Lemma commands_at_most bufs : exists n, at_most (commands bufs) n.
Proof.
  induction bufs as [|buf bufs [n IH]]; [exists 2; cbn; lia|]. cbn [commands]. destruct (is_cd buf).
  - exists (S (S n)). cbn [at_most]. split; [apply (at_most_mono _ n); [lia|done]|done].
  - assert (exists m, at_most (run_line buf) m) as [m Hm].
    { unfold run_line. destruct (parsecmd buf) as [[c b] s| | | |]; [apply runcmd_at_most|exists 3; by apply message_at_most|exists 2; cbn; lia..]. }
    exists (S (3 + m + S n)). split; [apply message_at_most; lia|]. exists m, (S n). split_and!; [lia|done|done].
Qed.

Lemma main_at_most inp : exists n, at_most (main inp) n.
Proof.
  unfold main. destruct (commands_at_most (lines (S (length inp)) inp)) as [n Hn]. generalize 4.
  induction n0 as [|k [m IH]]; [exists 2; cbn; lia|]. exists (S (S (m + n))). cbn [open_console]. split.
  - intros fd. destruct (3 <=? fd); [cbn [at_most]; apply (at_most_mono _ n); [lia|done]|apply (at_most_mono _ m); [lia|done]].
  - apply (at_most_mono _ n); [lia|done].
Qed.

Definition weighs (p : process) (w : nat) : Prop :=
  match p_status p with Runs k => at_most k w | Program _ _ => 1 < w | Zombie => 0 < w end.

Definition budget (ps : list process) (n : nat) : Prop := exists ws, Forall2 weighs ps ws /\ sum_list ws = n.

Lemma budget_cons p ps n : budget (p :: ps) n <-> exists w m, weighs p w /\ budget ps m /\ n = w + m.
Proof.
  split.
  - intros (ws & H & E). inversion H as [|? w ? ws' Hw Hr]; subst. exists w, (sum_list ws'). split_and!; [done|by exists ws'|done].
  - intros (w & m & Hw & (ws & H & <-) & ->). exists (w :: ws). split; [by constructor|done].
Qed.

Lemma budget_perm ps ps' n : ps ≡ₚ ps' -> budget ps n -> budget ps' n.
Proof.
  intros H. revert n. induction H as [|p ps ps' _ IH|p q ps|ps ps1 ps2 _ IH1 _ IH2]; intros n; [done|..].
  - rewrite !budget_cons. intros (w & m & Hw & Hm & ->). exists w, m. eauto.
  - rewrite !budget_cons. intros (w & m & Hw & (w' & m' & Hw' & Hm' & ->)%budget_cons & ->). exists w', (w + m').
    split_and!; [done| |lia]. apply budget_cons. eauto.
  - intros Hb. by apply IH2, IH1.
Qed.

Lemma call_weighs p b p' l w : call p b p' l -> weighs p w -> exists w', w = S w' /\ weighs p' w'.
Proof.
  intros C H. unfold weighs in *. destruct w as [|w].
  { exfalso. destruct (p_status p) as [[]| |]; try done; lia. }
  exists w. split; [done|]. destruct C as [? ? E|? ? E|? ? ? ? ? ? E Ef|? ? ? ? E|? ? ? ? ? E Ef|? ? E|? ? ? E|? ? ? E|? ? ? E|? ? ? E|? ? E|E|? ? E];
    rewrite E in H; cbn [goto becomes p_status at_most] in *; try tauto; try done; lia || (destruct H as [H _]; apply H).
Qed.

Lemma step_budget s b s' n : step s b s' -> budget (procs s) n -> exists m, m < n /\ budget (procs s') m.
Proof.
  intros S B. destruct S as [p rest b p' l E C|p rest child parent failed E Hp|p rest child parent failed E Hp
    |p z rest k E Hp Hz Hc|p rest k E Hp Hn|z rest E Hz Ho]; apply (budget_perm _ _ _ E) in B; cbn [procs];
    apply budget_cons in B as (w & m & Hw & Hm & ->); unfold weighs in Hw; rewrite ?Hp in Hw.
  - destruct (call_weighs _ _ _ _ w C Hw) as (w' & -> & Hw'). exists (w' + m). split; [lia|]. apply budget_cons. eauto.
  - destruct w as [|w]; [done|]. destruct Hw as (_ & x & y & Hxy & Hx & Hy). exists (x + (y + m)). split; [lia|].
    apply budget_cons. exists x, (y + m). split_and!; [done| |done]. apply budget_cons. by exists y, m.
  - destruct w as [|w]; [done|]. destruct Hw as (Hf & _). exists (w + m). split; [lia|]. apply budget_cons. by exists w, m.
  - destruct w as [|w]; [done|]. apply budget_cons in Hm as (wz & m' & Hwz & Hm & ->). exists (w + m'). split; [lia|].
    apply budget_cons. by exists w, m'.
  - destruct w as [|w]; [done|]. exists (w + m). split; [lia|]. apply budget_cons. by exists w, m.
  - exists m. rewrite Hz in Hw. split; [lia|done].
Qed.

Lemma shell_family inp t : family (procs (shell inp t)).
Proof.
  split; cbn [shell procs].
  - apply NoDup_singleton.
  - intros p q j m ->%list_elem_of_singleton ->%list_elem_of_singleton E. done.
  - intros p k ->%list_elem_of_singleton [= <-]. right. rewrite kids_none; [apply main_awaits|].
    intros q ->%list_elem_of_singleton. apply not_own_child.
Qed.

(** every run of the shell ends.  There is a bound on the number of steps of
    all its processes together, in whatever order they run and whichever calls
    fail, and as long as a process is left some process can go on: no process
    waits for a child that it does not have or that will not exit. *)
Theorem shell_ends inp t :
  exists bound, forall n s, nsteps any_step n (shell inp t) s ->
    (n <= bound)%nat /\ (procs s <> [] -> exists s', any_step s s').
Proof.
  destruct (main_at_most inp) as [w Hw]. exists w. intros n s Hn.
  assert (B : budget (procs (shell inp t)) w) by (exists [w]; split; [by constructor; [|constructor]|cbn; lia]).
  pose proof (shell_family inp t) as F. revert B F. clear Hw. revert w.
  induction Hn as [s|n s s1 s2 [b S] _ IH]; intros w B F.
  - split; [lia|]. by apply family_progress.
  - destruct (step_budget _ _ _ _ S B) as (m & Hm & Bm). destruct (IH m Bm (step_family _ _ _ S F)) as [H1 H2].
    split; [lia|done].
Qed.

(** ** The shell waits for its commands *)

(** Every process that is not in the background has a parent that waits for
    it. *)
Definition attended (ps : list process) : Prop :=
  forall p, p ∈ ps -> p_back p = false -> p_pid p <> [] ->
  exists q k, q ∈ ps /\ child_of p q /\ p_back q = false /\ p_status q = Runs k /\ awaits (kids q ps) k.

Instance attended_proper : Proper ((≡ₚ) ==> iff) attended.
Proof.
  assert (H : forall ps ps', ps ≡ₚ ps' -> attended ps -> attended ps').
  { intros ps ps' E A p Hp Hb Hn. rewrite <- E in Hp. destruct (A p Hp Hb Hn) as (q & k & Hq & H). exists q, k.
    rewrite <- E. done. }
  intros ps ps' E. split; apply H; [done|by symmetry].
Qed.

Lemma kids_one p q ps : q ∈ ps -> child_of q p -> kids p ps <> 0.
Proof. intros Hq Hc H. by apply (kids_zero p ps q). Qed.

Lemma call_attends p p' l k n :
  call p false p' l -> p_status p = Runs k -> awaits n k -> n <> 0 -> exists k', p_status p' = Runs k' /\ awaits n k'.
Proof.
  intros C Hk H Hn. inversion C; subst; cbn [goto becomes p_status];
    match goal with E : p_status p = _ |- _ => rewrite E in Hk end; simplify_eq; cbn [awaits] in *; naive_solver.
Qed.

Lemma attended_call p p' l rest : attended (p :: rest) -> call p false p' l -> attended (p' :: rest).
Proof.
  intros A C x Hx Hb Hn. destruct (call_keeps _ _ _ _ C) as (E1 & _ & E3).
  assert (exists x0, x0 ∈ p :: rest /\ p_pid x0 = p_pid x /\ p_back x0 = p_back x) as (x0 & Hx0 & Epid & Eback).
  { apply elem_of_cons in Hx as [->|Hx]; [exists p; split_and!; [by left|done|done]|exists x; split_and!; [by right|done|done]]. }
  destruct (A x0 Hx0) as (q & k & Hq & Hc & Hbq & Hk & Hw); [congruence|congruence|].
  assert (Hcx : child_of x q) by (by apply (child_of_pid x0 x q q)). apply elem_of_cons in Hq as [->|Hq].
  - destruct (call_attends p p' l k _ C Hk Hw) as (k' & Hk' & Hw'); [by apply (kids_one p x0)|].
    exists p', k'. rewrite (kids_pid p p'), (kids_swap p p p') by done. split_and!; try done; [by left| |congruence].
    by apply (child_of_pid x x p p').
  - exists q, k. rewrite (kids_swap q p p') by done. split_and!; try done. by right.
Qed.

Lemma attended_forked p child parent failed rest :
  family (p :: rest) -> attended (p :: rest) -> p_status p = Runs (Fork child parent failed) ->
  attended (forked p child parent ++ rest).
Proof.
  intros F A Hp. destruct (fam_waits _ F p _ ltac:(by left) Hp) as [[]|(_ & Hw & _)]. unfold forked. cbn [app].
  set (c0 := MkProcess _ _ 0 _ _ _). set (p' := MkProcess _ _ (S _) _ _ _).
  assert (Hkids : kids p' (c0 :: p' :: rest) = S (kids p (p :: rest))).
  { rewrite kids_cons, decide_True by (by exists (p_forks p)).
    by rewrite (kids_pid p p'), (kids_swap p p p') by done. }
  intros x [->|Hx]%elem_of_cons Hb Hn.
  - cbn [c0 p_back] in Hb. apply orb_false_iff in Hb as [Hb Hex]. rewrite Hex in Hw.
    exists p', parent. rewrite Hkids. split_and!; try done; [right; by left|by exists (p_forks p)].
  - assert (exists x0, x0 ∈ p :: rest /\ p_pid x0 = p_pid x /\ p_back x0 = p_back x) as (x0 & Hx0 & Epid & Eback).
    { apply elem_of_cons in Hx as [->|Hx]; [exists p; split_and!; [by left|done|done]|exists x; split_and!; [by right|done|done]]. }
    destruct (A x0 Hx0) as (q & k & Hq & Hc & Hbq & Hk & Hwq); [congruence|congruence|].
    assert (Hcx : child_of x q) by (by apply (child_of_pid x0 x q q)). apply elem_of_cons in Hq as [->|Hq].
    + pose proof (kids_one p x0 _ Hx0 Hc) as Hpos. destruct (exits parent); [done|].
      exists p', parent. rewrite Hkids. split_and!; try done. right. by left.
    + exists q, k. rewrite kids_cons, decide_False, (kids_swap q p p'); [split_and!; try done; right; by right|done|].
      intros Hcq. apply (family_name p q rest F Hq). apply (child_parent c0 p q); [by exists (p_forks p)|done].
Qed.

Lemma attended_waited p z rest k :
  family (p :: z :: rest) -> attended (p :: z :: rest) -> p_status p = Runs (Wait k) -> p_status z = Zombie ->
  child_of z p -> attended (goto (p_table p) k p :: rest).
Proof.
  intros F A Hp Hz Hzp x Hx Hb Hn. set (p' := goto _ _ _) in *.
  assert (exists x0, x0 ∈ p :: z :: rest /\ p_pid x0 = p_pid x /\ p_back x0 = p_back x) as (x0 & Hx0 & Epid & Eback).
  { apply elem_of_cons in Hx as [->|Hx]; [exists p; split_and!; [by left|done|done]|exists x; split_and!; [right; by right|done|done]]. }
  destruct (A x0 Hx0) as (q & kq & Hq & Hc & Hbq & Hk & Hwq); [congruence|congruence|].
  assert (Hcx : child_of x q) by (by apply (child_of_pid x0 x q q)).
  apply elem_of_cons in Hq as [->|[->|Hq]%elem_of_cons]; [|congruence|].
  - rewrite Hp in Hk. injection Hk as <-. rewrite kids_cons, decide_False, kids_cons, decide_True in Hwq by (done || apply not_own_child).
    exists p', k. rewrite (kids_pid p p'), kids_cons, decide_False by (done || apply (not_own_child p)). split_and!; try done. by left.
  - exists q, kq. rewrite (kids_swap q p p'), kids_cons by done. rewrite !kids_cons, (decide_False (P := child_of z q)) in Hwq.
    { split_and!; try done. by right. }
    intros Hcz. apply (family_name p q (z :: rest) F ltac:(by right)). by apply (child_parent z p q).
Qed.

Lemma step_attended s s' : good_step s s' -> family (procs s) -> attended (procs s) -> attended (procs s').
Proof.
  intros S F A. inversion S as [p rest b p' l E C|p rest child parent failed E Hp|p rest child parent failed E Hp
    |p z rest k E Hp Hz Hc|p rest k E Hp Hn|z rest E Hz Ho]; subst; rewrite E in F, A; cbn [procs].
  - by apply attended_call with p l.
  - by apply attended_forked with failed.
  - by apply attended_waited with z.
  - destruct (fam_waits _ F p _ ltac:(by left) Hp) as [[]|H]. rewrite kids_cons, decide_False, kids_none in H; [done| |apply not_own_child].
    by apply Forall_forall.
  - intros x Hx Hb Hn. destruct (A x ltac:(by right) Hb Hn) as (q & k & Hq & Hc & Hbq & Hk & Hw).
    apply elem_of_cons in Hq as [->|Hq]; [congruence|]. exists q, k. rewrite kids_cons, decide_False in Hw; [done|].
    intros Hcz. rewrite Forall_forall in Ho. specialize (Ho q Hq Hcz). congruence.
Qed.

(** At its prompt the shell has no child, so no process below it is attended. *)
Lemma prompt_alone ps p bufs :
  family ps -> attended ps -> p ∈ ps -> p_pid p = [] -> p_status p = Runs (commands bufs) ->
  forall n q, q ∈ ps -> length (p_pid q) <= n -> p_pid q <> [] -> p_back q = true.
Proof.
  intros F A Hp Epid Hs. induction n as [|n IH]; intros q Hq Hl Hn.
  { destruct (p_pid q); [done|cbn in Hl; lia]. }
  destruct (p_back q) eqn:Eb; [done|exfalso]. destruct (A q Hq Eb Hn) as (r & k & Hr & Hc & Hbr & Hk & Hw).
  pose proof Hc as [j Ej]. rewrite Ej, length_app in Hl. cbn in Hl. destruct (decide (p_pid r = [])) as [E|E].
  - assert (r = p) as ->.
    { destruct (proj1 (elem_of_Permutation ps p) Hp) as [rest Eps]. rewrite Eps in Hr, F.
      apply elem_of_cons in Hr as [->|Hr]; [done|]. exfalso. apply (family_name p r rest F Hr). congruence. }
    rewrite Hs in Hk. injection Hk as <-. apply commands_no_kids in Hw. by apply (kids_zero p ps q).
  - pose proof (IH r Hr ltac:(lia) E). congruence.
Qed.

(** C26: the shell waits for its commands.  In a run in which no call fails,
    whenever the shell is about to ask for the next command line, every other
    process that is left is in the background: it, or a process it comes
    from, belongs to a command with an ampersand. *)
Theorem shell_waits_for_foreground inp t s p bufs :
  rtc good_step (shell inp t) s -> p ∈ procs s -> p_pid p = [] -> p_status p = Runs (commands bufs) ->
  Forall (fun q => p_pid q <> [] -> p_back q = true) (procs s).
Proof.
  intros Hrun Hp Epid Hs. assert (FA : family (procs s) /\ attended (procs s)).
  { assert (F0 : family (procs (shell inp t))) by apply shell_family.
    assert (A0 : attended (procs (shell inp t))) by (intros x ->%list_elem_of_singleton; done).
    clear Hp Hs. induction Hrun as [s|s s1 s2 S _ IH]; [done|].
    apply IH; [by apply (step_family s false)|by apply (step_attended s)]. }
  destruct FA as [F A]. apply Forall_forall. intros q Hq Hn. by apply (prompt_alone (procs s) p bufs F A Hp Epid Hs (length (p_pid q))).
Qed.

(** The line [ls &]: the shell is at its prompt while the program runs. *)
Definition sample_table : table := replicate 3 (Some (Inherited 0)) ++ replicate 13 None.
Definition sample_background : list Z := cbytes "ls &" ++ [newline].

Lemma shell_waits_for_foreground_witness :
  exists s, rtc good_step (shell sample_background sample_table) s /\
    (p_pid <$> procs s) = [[]; [0; 0]] /\ Forall (fun q => p_pid q <> [] -> p_back q = true) (procs s).
Proof.
  eexists. assert (E : moves [0; 0; 0; 0; 0; 1; 2] (shell sample_background sample_table) = Some _) by (vm_compute; reflexivity).
  apply moves_run in E. split_and!; [exact E|reflexivity|].
  eapply (shell_waits_for_foreground _ _ _ _ []); [exact E|left|reflexivity|reflexivity].
Defined.
