(* ===== verification/Umalloc.v ===== *)
(** * The user memory allocator (HW3/umalloc.c)

    Headers lie in the memory of the process: the link at the address of the
    header, the size in units of [sizeof(Header)] four bytes above.  The state
    is that memory, the static [freep] and the break of the process.  [sbrk] is
    a system call, a parameter: from the break and the increment it gives the
    new break, or refuses. *)

From stdpp Require Import base numbers list.
From Stdlib Require Import ZArith Lia.
From S2P Require Import Prelude.

Open Scope Z_scope.

Definition sizeof_Header : Z := 8.

Record heap := MkHeap { h_mem : mem; freep : Z; brk : Z }.

Section umalloc.
(** The address of the static [base], and the system call. *)
Context (base : Z) (sbrk : Z -> Z -> option Z).

(** [p->s.ptr] and [p->s.size]. *)
Definition ptr (p : Z) : M heap Z := reads (fun h => load32 (h_mem h) p).
Definition size (p : Z) : M heap Z := reads (fun h => load32 (h_mem h) (p + 4)).
Definition set_ptr (p v : Z) : M heap unit :=
  modify (fun h => MkHeap (store32 (h_mem h) p v) (freep h) (brk h)).
Definition set_size (p v : Z) : M heap unit :=
  modify (fun h => MkHeap (store32 (h_mem h) (p + 4) v) (freep h) (brk h)).
Definition set_freep (p : Z) : M heap unit :=
  modify (fun h => MkHeap (h_mem h) p (brk h)).

(** [p + n] for a pointer to headers. *)
Definition headers (p n : Z) : Z := u32 (p + sizeof_Header * n).

(** The loop of [free]: the node after which [bp] goes. *)
Fixpoint free_after (fuel : nat) (bp p : Z) : M heap Z :=
  match fuel with
  | O => diverge
  | S k =>
      q ← ptr p;
      if (p <? bp) && (bp <? q) then mret p
      else if (q <=? p) && ((p <? bp) || (bp <? q)) then mret p
      else free_after k bp q
  end.

(** More than the headers that fit below the break. *)
Definition node_fuel (h : heap) : nat := S (Z.to_nat (brk h / sizeof_Header)).

(** The two tests of [free]: join the block to the next one, link it to the
    node before, or join it to that one. *)
Definition join_next (bp p : Z) : M heap unit :=
  n ← size bp;
  q ← ptr p;
  if headers bp n =? q then
    m ← size q;
    set_size bp (n + m);;
    q ← ptr p;
    r ← ptr q;
    set_ptr bp r
  else set_ptr bp q.

Definition join_prev (bp p : Z) : M heap unit :=
  m ← size p;
  if headers p m =? bp then
    n ← size bp;
    set_size p (m + n);;
    r ← ptr bp;
    set_ptr p r
  else set_ptr p bp.

Definition free (ap : Z) : M heap unit :=
  let bp := ap - sizeof_Header in
  h ← get;
  p ← free_after (node_fuel h) bp (freep h);
  join_next bp p;;
  join_prev bp p;;
  set_freep p.

Definition morecore (nu : Z) : M heap Z :=
  let nu := if nu <? 4096 then 4096 else nu in
  h ← get;
  match sbrk (brk h) (s32 (u32 (nu * sizeof_Header))) with
  | None => mret 0
  | Some b =>
      let hp := brk h in
      modify (fun h => MkHeap (h_mem h) (freep h) b);;
      set_size hp nu;;
      free (hp + sizeof_Header);;
      reads freep
  end.

(** The tail of the loop of [malloc]: [nunits] from the free block [p]. *)
Definition carve (nunits prevp p : Z) : M heap Z :=
  n ← size p;
  q ← (if n =? nunits then
         r ← ptr p;
         set_ptr prevp r;;
         mret p
       else
         set_size p (n - nunits);;
         let q := headers p (n - nunits) in
         set_size q nunits;;
         mret q);
  set_freep prevp;;
  mret (q + sizeof_Header).

Fixpoint malloc_loop (fuel : nat) (nunits prevp p : Z) : M heap Z :=
  match fuel with
  | O => diverge
  | S k =>
      n ← size p;
      if nunits <=? n then carve nunits prevp p
      else
        h ← get;
        if p =? freep h then
          r ← morecore nunits;
          if r =? 0 then mret 0
          else (q ← ptr r; malloc_loop k nunits r q)
        else (q ← ptr p; malloc_loop k nunits p q)
  end.

Definition units (nbytes : Z) : Z :=
  u32 (u32 (nbytes + sizeof_Header - 1) / sizeof_Header + 1).

(** Twice around the list: the second time after [morecore]. *)
Definition malloc (nbytes : Z) : M heap Z :=
  let nunits := units nbytes in
  h ← get;
  (if freep h =? 0 then
     set_ptr base base;;
     set_freep base;;
     set_size base 0
   else mret tt);;
  h ← get;
  p ← ptr (freep h);
  malloc_loop (2 * node_fuel h + 1) nunits (freep h) p.

End umalloc.
