(* ===== verification/UmallocSpec.v ===== *)
(** * What [malloc] and [free] promise (HW3/umalloc.c)

    The heap between its start and the break is a row of blocks, free or in
    use; everything else follows from that row: the ring of free blocks, the
    sizes in the headers, and that blocks are disjoint. *)

From stdpp Require Import base numbers list sets.
From Stdlib Require Import ZArith Lia.
From S2P Require Import Prelude Umalloc.

Open Scope Z_scope.

(** ** Rows of blocks *)

(** Whether it is free, and its size in units with the header. *)
Notation block := (bool * Z)%type.

Fixpoint total (bl : list block) : Z :=
  match bl with [] => 0 | (_, n) :: r => n + total r end.

(** The address after the row. *)
Definition ends (a : Z) (bl : list block) : Z := a + 8 * total bl.

(** The headers of the free blocks, in the order of addresses. *)
Fixpoint free_at (a : Z) (bl : list block) : list Z :=
  match bl with
  | [] => []
  | (f, n) :: r => (if f : bool then [a] else []) ++ free_at (a + 8 * n) r
  end.

(** The blocks in use, with their sizes. *)
Fixpoint used_at (a : Z) (bl : list block) : list (Z * Z) :=
  match bl with
  | [] => []
  | (f, n) :: r => (if f : bool then [] else [(a, n)]) ++ used_at (a + 8 * n) r
  end.

(** The sizes in the headers. *)
Fixpoint sized (m : mem) (a : Z) (bl : list block) : Prop :=
  match bl with
  | [] => True
  | (_, n) :: r => load32 m (a + 4) = n /\ sized m (a + 8 * n) r
  end.

Definition positive (bl : list block) : Prop := Forall (fun b => 1 <= b.2) bl.

(** No two free blocks side by side, after a block that is free or not. *)
Fixpoint coalesced (after : bool) (bl : list block) : Prop :=
  match bl with
  | [] => True
  | (f, _) :: r => after && f = false /\ coalesced f r
  end.

Fixpoint last_free (after : bool) (bl : list block) : bool :=
  match bl with [] => after | (f, _) :: r => last_free f r end.

Definition starts_free (bl : list block) : bool :=
  match bl with (f, _) :: _ => f | [] => false end.

(** The links from [x] through [l] to [z], the last node, and ascending
    addresses. *)
Fixpoint links (m : mem) (x : Z) (l : list Z) (z : Z) : Prop :=
  match l with
  | [] => load32 m x = z
  | y :: r => load32 m x = y /\ links m y r z
  end.

Fixpoint lst (x : Z) (l : list Z) : Z := match l with [] => x | y :: r => lst y r end.

Fixpoint asc (x : Z) (l : list Z) : Prop :=
  match l with [] => True | y :: r => x < y /\ asc y r end.

Lemma total_app l1 l2 : total (l1 ++ l2) = total l1 + total l2.
Proof. induction l1 as [|[f n] r IH]; cbn; lia. Qed.

Lemma ends_nil a : ends a [] = a.
Proof. unfold ends. cbn. lia. Qed.

Lemma ends_cons a f n r : ends a ((f, n) :: r) = ends (a + 8 * n) r.
Proof. unfold ends. cbn. lia. Qed.

Lemma ends_app a l1 l2 : ends a (l1 ++ l2) = ends (ends a l1) l2.
Proof. unfold ends. rewrite total_app. lia. Qed.

Lemma free_at_app a l1 l2 : free_at a (l1 ++ l2) = free_at a l1 ++ free_at (ends a l1) l2.
Proof.
  revert a. induction l1 as [|[f n] r IH]; intros a; cbn.
  - by rewrite ends_nil.
  - rewrite IH, ends_cons. by rewrite app_assoc.
Qed.

Lemma used_at_app a l1 l2 : used_at a (l1 ++ l2) = used_at a l1 ++ used_at (ends a l1) l2.
Proof.
  revert a. induction l1 as [|[f n] r IH]; intros a; cbn.
  - by rewrite ends_nil.
  - rewrite IH, ends_cons. by rewrite app_assoc.
Qed.

Lemma sized_app m a l1 l2 : sized m a (l1 ++ l2) <-> sized m a l1 /\ sized m (ends a l1) l2.
Proof.
  revert a. induction l1 as [|[f n] r IH]; intros a; cbn.
  - rewrite ends_nil. tauto.
  - rewrite IH, ends_cons. tauto.
Qed.

Lemma coalesced_app b l1 l2 : coalesced b (l1 ++ l2) <-> coalesced b l1 /\ coalesced (last_free b l1) l2.
Proof. revert b. induction l1 as [|[f n] r IH]; intros b; cbn; [tauto|]. rewrite IH. tauto. Qed.

Lemma coalesced_weaken b bl : coalesced b bl -> coalesced false bl.
Proof. destruct bl as [|[f n] r]; [done|]. cbn. intros [_ H]. done. Qed.

Lemma links_app m x l1 y l2 z : links m x (l1 ++ y :: l2) z <-> links m x l1 y /\ links m y l2 z.
Proof.
  revert x. induction l1 as [|w r IH]; intros x; cbn; [done|]. rewrite IH. tauto.
Qed.

Lemma asc_app x l1 l2 : asc x (l1 ++ l2) <-> asc x l1 /\ asc (lst x l1) l2.
Proof. revert x. induction l1 as [|w r IH]; intros x; cbn; [tauto|]. rewrite IH. tauto. Qed.

Lemma lst_app x l1 l2 : lst x (l1 ++ l2) = lst (lst x l1) l2.
Proof. revert x. induction l1; intros x; cbn; auto. Qed.

Lemma lst_in x l : lst x l ∈ x :: l.
Proof. revert x. induction l as [|y r IH]; intros x; cbn; [by left|]. right. apply IH. Qed.

Lemma asc_lt x l y : asc x l -> y ∈ l -> x < y.
Proof.
  revert x. induction l as [|z r IH]; intros x; cbn; [by intros _ ?%elem_of_nil|].
  intros [H1 H2] [->|Hy]%elem_of_cons; [done|]. specialize (IH z H2 Hy). lia.
Qed.

Lemma asc_NoDup x l : asc x l -> NoDup (x :: l).
Proof.
  revert x. induction l as [|y r IH]; intros x H; [by repeat constructor; intros ?%elem_of_nil|].
  constructor; [|by apply IH; destruct H]. intros Hin. pose proof (asc_lt _ _ _ H Hin). lia.
Qed.

Lemma total_nonneg bl : positive bl -> 0 <= total bl.
Proof. induction 1 as [|[f n] r Hn _ IH]; cbn in *; lia. Qed.

(** A free block lies in the row. *)
Lemma free_at_in m a bl x :
  positive bl -> sized m a bl -> x ∈ free_at a bl ->
  exists l1 n l2, bl = l1 ++ (true, n) :: l2 /\ x = ends a l1 /\ load32 m (x + 4) = n.
Proof.
  intros Hp. revert a. induction Hp as [|[f n] r Hn Hp IH]; intros a Hs; cbn; [by intros ?%elem_of_nil|].
  destruct Hs as [Hs Hr]. intros [Hx|Hx]%elem_of_app.
  - destruct f; [|by apply elem_of_nil in Hx]. apply list_elem_of_singleton in Hx as ->.
    exists [], n, r. by rewrite ends_nil.
  - destruct (IH _ Hr Hx) as (l1 & k & l2 & -> & -> & E).
    exists ((f, n) :: l1), k, l2. rewrite ends_cons. done.
Qed.

Lemma free_at_range a bl x : positive bl -> x ∈ free_at a bl -> a <= x /\ x + 8 <= ends a bl.
Proof.
  intros Hp. revert a. induction Hp as [|[f n] r Hn Hp IH]; intros a; cbn; [by intros ?%elem_of_nil|].
  rewrite ends_cons. pose proof (total_nonneg _ Hp). cbn in Hn. intros [Hx|Hx]%elem_of_app.
  - destruct f; [|by apply elem_of_nil in Hx]. apply list_elem_of_singleton in Hx as ->. unfold ends. lia.
  - apply IH in Hx. lia.
Qed.

Lemma free_at_asc x a bl : positive bl -> x < a -> asc x (free_at a bl).
Proof.
  intros Hp. revert x a. induction Hp as [|[f n] r Hn Hp IH]; intros x a Hx; cbn in *; [done|].
  destruct f; cbn; [split; [done|]|]; apply IH; lia.
Qed.

Lemma free_at_length a bl : positive bl -> Z.of_nat (length (free_at a bl)) <= total bl.
Proof.
  intros Hp. revert a. induction Hp as [|[f n] r Hn Hp IH]; intros a; cbn in *; [lia|].
  specialize (IH (a + 8 * n)). destruct f; cbn; lia.
Qed.

Lemma used_at_range a bl x n : positive bl -> (x, n) ∈ used_at a bl -> a <= x /\ x + 8 * n <= ends a bl.
Proof.
  intros Hp. revert a. induction Hp as [|[f k] r Hn Hp IH]; intros a; cbn; [by intros ?%elem_of_nil|].
  rewrite ends_cons. pose proof (total_nonneg _ Hp). cbn in Hn. intros [Hx|Hx]%elem_of_app.
  - destruct f; [by apply elem_of_nil in Hx|]. apply list_elem_of_singleton in Hx as [= -> ->]. unfold ends. lia.
  - apply IH in Hx. lia.
Qed.

Lemma used_free_apart a bl x n p :
  positive bl -> (x, n) ∈ used_at a bl -> p ∈ free_at a bl -> p + 8 <= x \/ x + 8 * n <= p.
Proof.
  intros Hp. revert a. induction Hp as [|[f k] r Hn Hp IH]; intros a; cbn; [by intros ?%elem_of_nil|].
  cbn in Hn. intros [Hx|Hx]%elem_of_app [Hf|Hf]%elem_of_app; [by destruct f; set_solver| | |eauto].
  - destruct f; [by apply elem_of_nil in Hx|]. apply list_elem_of_singleton in Hx as [= -> ->].
    apply free_at_range in Hf; [lia|done].
  - destruct f; [|by apply elem_of_nil in Hf]. apply list_elem_of_singleton in Hf as ->.
    apply used_at_range in Hx; [lia|done].
Qed.

Lemma last_free_inv l :
  match last_free false l with
  | true => exists k j, l = k ++ [(true, j)]
  | false => l = [] \/ exists k j, l = k ++ [(false, j)]
  end.
Proof.
  destruct l as [|[f j] l _] using rev_ind; [by left|].
  assert (E : forall b, last_free b (l ++ [(f, j)]) = f).
  { clear. induction l as [|[g i] l IH]; intros b; cbn; [done|]. apply IH. }
  rewrite E. destruct f; eauto.
Qed.

(** ** The heap *)

Section heap.
Context (base heap0 : Z).

(** An address where a header may lie: two of them are equal or eight bytes
    apart. *)
Definition hdr (x : Z) : Prop := x = base \/ exists k, 0 <= k /\ x = heap0 + 8 * k.

Record heap_ok (h : heap) (bl : list block) : Prop := {
  ok_base : 0 < base;
  ok_start : base + 8 <= heap0;
  ok_break : brk h = ends heap0 bl;
  ok_limit : brk h <= 2 ^ 31;
  ok_positive : positive bl;
  ok_coalesced : coalesced false bl;
  ok_sized : sized (h_mem h) heap0 bl;
  ok_base_size : load32 (h_mem h) (base + 4) = 0;
  ok_ring : links (h_mem h) base (free_at heap0 bl) base;
  ok_freep : freep h ∈ base :: free_at heap0 bl;
}.

(** The bytes of the blocks in use are those of the other heap. *)
Definition keeps_used (bl : list block) (m m' : mem) : Prop :=
  forall a n x, (a, n) ∈ used_at heap0 bl -> a + 8 <= x < a + 8 * n -> m' x = m x.

Section apart.
Hypothesis Hstart : base + 8 <= heap0.

Lemma hdr_apart x y : hdr x -> hdr y -> x = y \/ x + 8 <= y \/ y + 8 <= x.
Proof. intros [->|(j & ? & ->)] [->|(k & ? & ->)]; lia. Qed.

Lemma ptr_ptr_eq m p v : load32 (store32 m p v) p = u32 v.
Proof. apply load32_store32_eq. Qed.

Lemma ptr_ptr_ne m p v x : hdr p -> hdr x -> x <> p -> load32 (store32 m p v) x = load32 m x.
Proof. intros Hp Hx Hn. destruct (hdr_apart x p Hx Hp); apply load32_store32_ne; lia. Qed.

Lemma size_ptr m p v x : hdr p -> hdr x -> load32 (store32 m p v) (x + 4) = load32 m (x + 4).
Proof. intros Hp Hx. destruct (hdr_apart x p Hx Hp); apply load32_store32_ne; lia. Qed.

Lemma ptr_size m p v x : hdr p -> hdr x -> load32 (store32 m (p + 4) v) x = load32 m x.
Proof. intros Hp Hx. destruct (hdr_apart x p Hx Hp); apply load32_store32_ne; lia. Qed.

Lemma size_size_ne m p v x :
  hdr p -> hdr x -> x <> p -> load32 (store32 m (p + 4) v) (x + 4) = load32 m (x + 4).
Proof. intros Hp Hx Hn. destruct (hdr_apart x p Hx Hp); apply load32_store32_ne; lia. Qed.

Lemma hdr_ends a bl : hdr a -> heap0 <= a -> positive bl -> hdr (ends a bl).
Proof.
  intros [->|(k & Hk & ->)] Ha Hp; [lia|]. pose proof (total_nonneg _ Hp).
  right. exists (k + total bl). unfold ends. lia.
Qed.

Lemma hdr_heap0 : hdr heap0.
Proof. right. exists 0. lia. Qed.

Lemma hdr_free a bl x : hdr a -> heap0 <= a -> positive bl -> x ∈ free_at a bl -> hdr x.
Proof.
  intros Ha Hh Hp. revert a Ha Hh. induction Hp as [|[f n] r Hn Hp IH]; intros a Ha Hh; cbn;
    [by intros ?%elem_of_nil|]. cbn in Hn.
  intros [Hx|Hx]%elem_of_app.
  - destruct f; [|by apply elem_of_nil in Hx]. by apply list_elem_of_singleton in Hx as ->.
  - apply IH in Hx; [done| |lia]. destruct Ha as [->|(k & Hk & ->)]; [lia|].
    right. exists (k + n). lia.
Qed.

Lemma sized_ptr m p v a bl :
  hdr p -> hdr a -> heap0 <= a -> positive bl -> sized m a bl -> sized (store32 m p v) a bl.
Proof.
  intros Hh Ha Hge Hp. revert a Ha Hge. induction Hp as [|[f n] r Hn Hp IH]; intros a Ha Hge; cbn; [done|].
  intros [E H]. cbn in Hn. split; [by rewrite size_ptr|]. apply IH; [|lia|done].
  destruct Ha as [->|(k & Hk & ->)]; [lia|]. right. exists (k + n). lia.
Qed.

Lemma sized_size m p v a bl :
  hdr p -> hdr a -> heap0 <= a -> positive bl -> p < a \/ ends a bl <= p ->
  sized m a bl -> sized (store32 m (p + 4) v) a bl.
Proof.
  intros Hh Ha Hge Hp. revert a Ha Hge.
  induction Hp as [|[f n] r Hn Hp IH]; intros a Ha Hge Hout; cbn; [done|].
  rewrite ends_cons in Hout. pose proof (total_nonneg _ Hp). cbn in Hn.
  intros [E H0]. split; [rewrite size_size_ne; [done|done|done|unfold ends in Hout; lia]|].
  apply IH; [|lia|lia|done].
  destruct Ha as [->|(k & Hk & ->)]; [lia|]. right. exists (k + n). lia.
Qed.

Lemma links_size m p v x l z :
  hdr p -> Forall hdr (x :: l) -> links m x l z -> links (store32 m (p + 4) v) x l z.
Proof.
  intros Hp. revert x. induction l as [|y r IH]; intros x Hx; cbn; inversion Hx; subst.
  - by rewrite ptr_size.
  - intros [E H]. rewrite ptr_size by done. split; [done|]. by apply IH.
Qed.

Lemma links_ptr m p v x l z :
  hdr p -> Forall hdr (x :: l) -> p ∉ x :: l -> links m x l z -> links (store32 m p v) x l z.
Proof.
  intros Hp. revert x. induction l as [|y r IH]; intros x Hx Hn; cbn; inversion Hx; subst.
  - rewrite ptr_ptr_ne; [done|done|done|set_solver +Hn].
  - intros [E H]. rewrite ptr_ptr_ne; [|done|done|set_solver +Hn]. split; [done|].
    apply IH; [done|set_solver +Hn|done].
Qed.
End apart.

(** *** The search of [free] *)

(** Nodes on one side of [bp] are passed over. *)
Lemma free_after_walk k bp m x l z fp b :
  links m x l z -> asc x l -> (forall y, y ∈ x :: l -> y < bp) \/ (forall y, y ∈ x :: l -> bp < y) ->
  free_after (length l + k) bp x (MkHeap m fp b) = free_after k bp (lst x l) (MkHeap m fp b).
Proof.
  revert x. induction l as [|y r IH]; intros x Hl Ha Hside; [done|].
  destruct Hl as [E Hl]. destruct Ha as [Hxy Ha]. cbn [length Nat.add free_after lst].
  unfold ptr at 1. munfold. cbn [h_mem]. rewrite E.
  assert ((x <? bp) && (bp <? y) = false /\ (y <=? x) = false) as [-> ->].
  { split; [|lia]. destruct Hside as [Hs|Hs]; pose proof (Hs x ltac:(left)); pose proof (Hs y ltac:(right; left)); lia. }
  cbn [andb]. apply IH; [done|done|]. destruct Hside as [Hs|Hs]; [left|right]; intros; apply Hs; by right.
Qed.

Lemma free_after_stop k bp m x q fp b :
  load32 m x = q -> x < bp -> bp < q \/ q <= x ->
  free_after (S k) bp x (MkHeap m fp b) = Ok x (MkHeap m fp b).
Proof.
  intros E Hx Hq. cbn [free_after]. unfold ptr. munfold. cbn [h_mem]. rewrite E.
  destruct Hq; [by assert ((x <? bp) && (bp <? q) = true) as -> by lia|].
  assert ((x <? bp) && (bp <? q) = false) as -> by lia.
  by assert ((q <=? x) && ((x <? bp) || (bp <? q)) = true) as -> by lia.
Qed.

(** A part of a chain from a node on. *)
Lemma links_from m x l z y :
  links m x l z -> asc x l -> y ∈ x :: l ->
  exists r, links m y r z /\ asc y r /\ lst y r = lst x l /\ (length r <= length l)%nat /\
    (forall w, w ∈ y :: r -> w ∈ x :: l).
Proof.
  intros Hl Ha [->|Hy]%elem_of_cons; [by exists l|].
  apply list_elem_of_split in Hy as (l1 & l2 & ->).
  apply links_app in Hl as [_ Hl]. apply asc_app in Ha as [_ [_ Ha]].
  exists l2. rewrite lst_app, length_app. cbn. split_and!; [done|done|done|lia|].
  intros w Hw. right. apply elem_of_app. by right.
Qed.

Lemma links_hd m x F1 F2 z : links m x (F1 ++ F2) z -> links m x F1 (hd z F2).
Proof.
  destruct F2 as [|y F2]; [by rewrite app_nil_r|]. intros H. by apply links_app in H as [H _].
Qed.

Lemma links_last m x l z : links m x l z -> load32 m (lst x l) = z.
Proof. revert x. induction l as [|y r IH]; intros x; cbn; [done|]. intros [_ H]. by apply IH. Qed.

(** From any node, the search ends at the last one below [bp]. *)
Lemma free_after_ok k bp m F1 F2 fp b :
  links m base (F1 ++ F2) base -> asc base (F1 ++ F2) ->
  (forall y, y ∈ base :: F1 -> y < bp) -> (forall y, y ∈ F2 -> bp < y) ->
  fp ∈ base :: F1 ++ F2 -> (length (F1 ++ F2) < k)%nat ->
  free_after k bp fp (MkHeap m fp b) = Ok (lst base F1) (MkHeap m fp b).
Proof.
  intros Hl Ha H1 H2 Hfp Hk. pose proof (links_hd _ _ _ _ _ Hl) as Hl1.
  pose proof (proj1 (proj1 (asc_app _ _ _) Ha)) as Ha1.
  assert (Hbelow : forall j y, y ∈ base :: F1 -> (length F1 < j)%nat ->
     free_after j bp y (MkHeap m fp b) = Ok (lst base F1) (MkHeap m fp b)).
  { intros j y Hy Hj. destruct (links_from _ _ _ _ _ Hl1 Ha1 Hy) as (r & Hr & Har & El & Hlen & Hin).
    replace j with (length r + (j - length r))%nat by lia.
    rewrite (free_after_walk _ _ _ _ _ _ _ _ Hr Har) by (left; intros; by apply H1, Hin).
    replace (j - length r)%nat with (S (j - length r - 1)) by lia. rewrite El.
    apply (free_after_stop _ _ _ _ _ _ _ (links_last _ _ _ _ Hl1)); [apply H1, lst_in|].
    destruct F2 as [|y2 F2]; cbn; [|left; apply H2; by left].
    right. pose proof (lst_in base F1) as [E|E]%elem_of_cons; [lia|].
    pose proof (asc_lt _ _ _ Ha1 E). lia. }
  rewrite length_app in Hk.
  apply elem_of_cons in Hfp as [->|[Hfp|Hfp]%elem_of_app]; [apply Hbelow; [by left|lia]|apply Hbelow; [by right|lia]|].
  destruct F2 as [|y2 F2]; [by apply elem_of_nil in Hfp|].
  apply links_app in Hl as [_ Hl2]. apply asc_app in Ha as [_ [_ Ha2]].
  destruct (links_from _ _ _ _ _ Hl2 Ha2 Hfp) as (r & Hr & Har & El & Hlen & Hin).
  cbn in Hk. replace k with (length r + S (k - length r - 1))%nat by lia.
  rewrite (free_after_walk _ _ _ _ _ _ _ _ Hr Har) by (right; intros; by apply H2, Hin).
  cbn [free_after]. unfold ptr at 1. munfold. cbn [h_mem]. rewrite (links_last _ _ _ _ Hr).
  pose proof (H2 (lst fp r) ltac:(apply Hin, lst_in)). pose proof (H1 base ltac:(left)).
  assert ((lst fp r <? bp) && (bp <? base) = false) as -> by lia.
  assert ((base <=? lst fp r) && ((lst fp r <? bp) || (bp <? base)) = false) as -> by lia.
  apply Hbelow; [by left|lia].
Qed.
(** *** The two joins *)

Lemma links_ext m m' x x' l z :
  links m x l z -> load32 m' x' = load32 m x -> (forall y, y ∈ l -> load32 m' y = load32 m y) ->
  links m' x' l z.
Proof.
  revert x x'. induction l as [|y r IH]; intros x x'; cbn; [by intros <-|].
  intros [E H] Ex Hy. split; [by rewrite Ex|]. eapply IH; [done|apply Hy; by left|].
  intros w Hw. apply Hy. by right.
Qed.

Lemma hd_bound a l : 0 < base < 2 ^ 31 -> (forall y, y ∈ l -> 0 <= y < 2 ^ 31) -> a = hd base l -> u32 a = a.
Proof.
  intros Hb Hl ->. apply u32_small. destruct l as [|y l]; cbn; [lia|]. specialize (Hl y ltac:(left)). lia.
Qed.

Lemma links_first m x l z : links m x l z -> load32 m x = hd z l.
Proof. destruct l; cbn; [done|]. by intros [-> _]. Qed.

Lemma load32_frame m m' x : (forall y, x <= y < x + 4 -> m' y = m y) -> load32 m' x = load32 m x.
Proof. intros H. unfold load32. rewrite !H by lia. done. Qed.

Lemma sized_frame m m' a bl :
  positive bl -> (forall x, a <= x < ends a bl -> m' x = m x) -> sized m a bl -> sized m' a bl.
Proof.
  intros Hp. revert a. induction Hp as [|[f n] r Hn Hp IH]; intros a Hx; cbn; [done|].
  cbn in Hn. rewrite ends_cons in Hx. pose proof (total_nonneg _ Hp). unfold ends in Hx.
  intros [E Hs]. split; [rewrite <- E; apply load32_frame; intros; apply Hx; lia|].
  apply IH; [|done]. intros x Hx'. apply Hx. unfold ends in Hx'. lia.
Qed.

(** Only the link of one header changes. *)
Lemma sized_link m m' p a bl :
  base + 8 <= heap0 -> hdr p -> hdr a -> heap0 <= a -> positive bl ->
  (forall x, x < p \/ p + 8 <= x -> m' x = m x) -> load32 m' (p + 4) = load32 m (p + 4) ->
  sized m a bl -> sized m' a bl.
Proof.
  intros Hst Hp Ha Hge Hpos Hm Hs. revert a Ha Hge.
  induction Hpos as [|[f n] r Hn Hpos IH]; intros a Ha Hge; cbn; [done|].
  cbn in Hn. intros [E H]. split.
  - rewrite <- E. destruct (hdr_apart Hst a p Ha Hp) as [->|]; [done|].
    apply load32_frame. intros y Hy. apply Hm. lia.
  - apply IH; [|lia|done]. destruct Ha as [->|(k & Hk & ->)]; [lia|]. right. exists (k + n). lia.
Qed.

Lemma links_frame m m' x l z :
  (forall y i, y ∈ x :: l -> y <= i < y + 4 -> m' i = m i) -> links m x l z -> links m' x l z.
Proof.
  intros Hm H. eapply links_ext; [exact H| |].
  - apply load32_frame. intros i. apply Hm. by left.
  - intros y Hy. apply load32_frame. intros i. apply Hm. by right.
Qed.

(** Only the last link changes. *)
Lemma links_redirect m m' x l z z' :
  asc x l -> links m x l z -> (forall y, y ∈ x :: l -> y <> lst x l -> load32 m' y = load32 m y) ->
  load32 m' (lst x l) = z' -> links m' x l z'.
Proof.
  revert x. induction l as [|y r IH]; intros x Ha Hl Hy Hz; cbn in *; [done|].
  destruct Ha as [Hxy Ha]. destruct Hl as [E Hl]. split.
  - rewrite Hy; [done|by left|]. pose proof (lst_in y r) as [->|Hin]%elem_of_cons; [lia|].
    pose proof (asc_lt _ _ _ Ha Hin). lia.
  - apply IH; [done|done| |done]. intros w Hw Hn. apply Hy; [by right|done].
Qed.

Section joins.
Context (m : mem) (fp b : Z) (l1 : list block) (n : Z).
Let bp := ends heap0 l1.
Let F1 := free_at heap0 l1.
Let p := lst base F1.
Hypothesis (Hbase : 0 < base) (Hstart : base + 8 <= heap0).
Hypothesis (Hp1 : positive l1) (Hn : 1 <= n).
Hypothesis (Hs1 : sized m heap0 l1) (Hsb : load32 m (base + 4) = 0).
Hypothesis (Hsn : load32 m (bp + 4) = n).

Lemma nodes_hdr : Forall hdr (base :: F1).
Proof.
  constructor; [by left|]. apply Forall_forall. intros x Hx.
  eapply (hdr_free Hstart); [apply hdr_heap0| |exact Hp1|exact Hx]; lia.
Qed.

Lemma bp_hdr : hdr bp.
Proof. apply hdr_ends; [done|apply hdr_heap0|lia|done]. Qed.

Lemma heap0_le_bp : heap0 <= bp.
Proof. unfold bp, ends. pose proof (total_nonneg _ Hp1). lia. Qed.

Lemma nodes_below x : x ∈ base :: F1 -> x + 8 <= bp.
Proof.
  pose proof heap0_le_bp. intros [->|Hx]%elem_of_cons; [lia|]. by apply (free_at_range heap0 l1).
Qed.

Lemma p_hdr : hdr p.
Proof. pose proof nodes_hdr as H. rewrite Forall_forall in H. apply H, lst_in. Qed.

(** [bp] takes over the next block if that is free, and its link. *)
Lemma join_next_run l2 :
  positive l2 -> ends bp ((false, n) :: l2) <= 2 ^ 31 -> sized m (bp + 8 * n) l2 ->
  links m base (F1 ++ free_at (bp + 8 * n) l2) base ->
  exists n' k2 m', join_next bp p (MkHeap m fp b) = Ok tt (MkHeap m' fp b) /\
    ((exists j, l2 = (true, j) :: k2 /\ n' = n + j) \/ (n' = n /\ l2 = k2 /\ starts_free l2 = false)) /\
    load32 m' (bp + 4) = n' /\ load32 m' bp = hd base (free_at (bp + 8 * n') k2) /\
    (forall x, x < bp \/ bp + 8 <= x -> m' x = m x).
Proof.
  intros Hp2 Hlim Hs2 Hl. pose proof heap0_le_bp as Hbp.
  pose proof (nodes_below p (lst_in _ _)) as Hpb.
  pose proof (links_hd _ _ _ _ _ Hl) as Hl1. pose proof (links_last _ _ _ _ Hl1) as Hq. fold p in Hq.
  pose proof (total_nonneg _ Hp2) as Ht. rewrite ends_cons in Hlim.
  assert (Hu : forall k a, positive k -> bp <= a -> ends a k <= 2 ^ 31 ->
      u32 (hd base (free_at a k)) = hd base (free_at a k)).
  { intros k a Hk Ha Hb. pose proof (total_nonneg _ Hk). unfold ends in Hb.
    apply (hd_bound _ (free_at a k)); [lia| |done].
    intros y Hy. apply free_at_range in Hy; [unfold ends in Hy; lia|done]. }
  unfold join_next, size, ptr, set_size, set_ptr. munfold. cbn [h_mem freep brk].
  rewrite Hsn, Hq. unfold headers, sizeof_Header. pose proof Hlim as Hlim'. unfold ends in Hlim'.
  rewrite (u32_small (bp + 8 * n)) by lia.
  destruct (starts_free l2) eqn:Ef.
  - destruct l2 as [|[[] j] k2]; [done| |done]. cbn [free_at app hd] in *.
    rewrite Z.eqb_refl. cbn [h_mem freep brk]. destruct Hs2 as [Ej Hs2]. rewrite Ej.
    assert (Hj : 1 <= j) by (by inversion Hp2). apply Forall_inv_tail in Hp2. pose proof (total_nonneg _ Hp2).
    apply links_app in Hl as [_ Hl2]. apply links_first in Hl2.
    rewrite (load32_store32_ne _ _ p), Hq by lia.
    rewrite (load32_store32_ne _ _ (bp + 8 * n)), Hl2 by lia. cbn [total] in *.
    eexists (n + j), k2, _. split_and!; [done|left; by exists j| | |].
    + rewrite load32_store32_ne, load32_store32_eq by lia. apply u32_small. lia.
    + rewrite ptr_ptr_eq. replace (bp + 8 * (n + j)) with (bp + 8 * n + 8 * j) by lia.
      apply Hu; [done|lia|unfold ends; lia].
    + intros x Hx. rewrite !store32_ne by lia. done.
  - rewrite (proj2 (Z.eqb_neq _ _)).
    2:{ destruct l2 as [|[[] j] k2]; [cbn; lia|done|]. cbn.
        pose proof (Forall_inv Hp2) as Hj. apply Forall_inv_tail in Hp2. cbn in Hj.
        destruct (free_at (bp + 8 * n + 8 * j) k2) as [|y F] eqn:E; cbn; [lia|].
        pose proof (free_at_range _ _ y Hp2 ltac:(rewrite E; left)). lia. }
    cbn [h_mem freep brk]. eexists n, l2, _. split_and!; [done|by right|by autorewrite with xv6| |].
    + rewrite ptr_ptr_eq. apply Hu; [done|lia|done].
    + intros x Hx. rewrite !store32_ne by lia. done.
Qed.

Lemma prev_ends :
  (l1 = [] \/ exists k j, l1 = k ++ [(false, j)]) ->
  p + 8 * load32 m (p + 4) < bp /\ 0 <= p + 8 * load32 m (p + 4).
Proof.
  intros Hlf. pose proof heap0_le_bp as Hbp. pose proof (lst_in base F1) as Hin. fold p in Hin.
  apply elem_of_cons in Hin as [->|Hin]; [lia|].
  destruct Hlf as [E|(k1 & j & E)]; [unfold F1 in Hin; rewrite E in Hin; by apply elem_of_nil in Hin|].
  unfold F1 in Hin. rewrite E, free_at_app in Hin. cbn in Hin. rewrite app_nil_r in Hin.
  pose proof Hp1 as Hp'. pose proof Hs1 as Hs'. rewrite E in Hs', Hp'.
  apply sized_app in Hs' as [Hs' _]. apply Forall_app in Hp' as [Hk1 Hj%Forall_inv]. cbn in Hj.
  destruct (free_at_in _ _ _ _ Hk1 Hs' Hin) as (i1 & s & i2 & Ek & Ei & ->).
  rewrite Ek in Hk1. apply Forall_app in Hk1 as [Hi1 Hi2].
  pose proof (Forall_inv Hi2) as Hs0. apply Forall_inv_tail in Hi2. cbn in Hs0.
  pose proof (total_nonneg _ Hi1). pose proof (total_nonneg _ Hi2).
  rewrite Ei. unfold bp. rewrite E, Ek. unfold ends. rewrite !total_app. cbn. lia.
Qed.

(** The node before [bp] takes it over if its block ends there, and otherwise
    points to it. *)
Lemma join_prev_run r :
  load32 m bp = r -> 0 <= r < 2 ^ 32 -> bp + 8 * n <= 2 ^ 31 ->
  exists m', join_prev bp p (MkHeap m fp b) = Ok tt (MkHeap m' fp b) /\
    ((exists k1 j, l1 = k1 ++ [(true, j)] /\ load32 m' (p + 4) = j + n /\ load32 m' p = r) \/
     (last_free false l1 = false /\ load32 m' (p + 4) = load32 m (p + 4) /\ load32 m' p = bp)) /\
    (forall x, x < p \/ p + 8 <= x -> m' x = m x).
Proof.
  intros Er Hr Hlim. pose proof heap0_le_bp as Hbp. pose proof (nodes_below p (lst_in _ _)) as Hpb.
  unfold join_prev, size, ptr, set_size, set_ptr. munfold. cbn [h_mem freep brk].
  unfold headers, sizeof_Header. pose proof (last_free_inv l1) as Hlf. destruct (last_free false l1).
  - destruct Hlf as (k1 & j & E). pose proof Hp1 as Hp'. pose proof Hs1 as Hs'. rewrite E in Hs', Hp'.
    apply sized_app in Hs' as [_ [Ej _]]. apply Forall_app in Hp' as [Hk1 Hj%Forall_inv]. cbn in Hj.
    assert (Ep : p = ends heap0 k1).
    { unfold p, F1. rewrite E, free_at_app, lst_app. done. }
    assert (Eb : p + 8 * j = bp).
    { unfold bp. rewrite E, ends_app, <- Ep. unfold ends. cbn. lia. }
    assert (Hp0 : 0 < p) by (rewrite Ep; unfold ends; pose proof (total_nonneg _ Hk1); lia).
    rewrite Ep, Ej, <- Ep, (u32_small (p + 8 * j)), Eb, Z.eqb_refl by lia. cbn [h_mem freep brk].
    rewrite Hsn, (load32_store32_ne _ _ bp), Er by lia.
    eexists. split_and!; [done| |intros x Hx; by rewrite !store32_ne by lia].
    left. exists k1, j. split_and!; [done| |].
    + rewrite load32_store32_ne, load32_store32_eq by lia. apply u32_small. lia.
    + rewrite load32_store32_eq. by apply u32_small.
  - rewrite (proj2 (Z.eqb_neq _ _)).
    + cbn [h_mem freep brk]. eexists. split_and!; [done| |intros x Hx; by rewrite !store32_ne by lia].
      right. split_and!; [done|by rewrite load32_store32_ne by lia|].
      rewrite load32_store32_eq. apply u32_small. lia.
    + pose proof (prev_ends Hlf). rewrite u32_small; lia.
Qed.

(** After the first test: the block at [bp] with what it took over. *)
Record joined (m' : mem) (l2 : list block) (n' : Z) (k2 : list block) : Prop := {
  jn_sized : sized m' heap0 l1;
  jn_base : load32 m' (base + 4) = 0;
  jn_size : load32 m' (bp + 4) = n';
  jn_rest : sized m' (bp + 8 * n') k2;
  jn_before : exists z, links m' base F1 z;
  jn_after : links m' bp (free_at (bp + 8 * n') k2) base;
  jn_positive : positive k2;
  jn_ends : ends bp ((false, n') :: k2) = ends bp ((false, n) :: l2);
  jn_grown : n <= n';
  jn_used : used_at (bp + 8 * n') k2 = used_at (bp + 8 * n) l2;
  jn_coalesced : coalesced false l2 -> coalesced true k2;
  jn_nodes : (length (free_at (bp + 8 * n') k2) <= length (free_at (bp + 8 * n) l2))%nat;
}.

Lemma join_next_ok l2 :
  positive l2 -> ends bp ((false, n) :: l2) <= 2 ^ 31 -> sized m (bp + 8 * n) l2 ->
  links m base (F1 ++ free_at (bp + 8 * n) l2) base ->
  exists n' k2 m', join_next bp p (MkHeap m fp b) = Ok tt (MkHeap m' fp b) /\ joined m' l2 n' k2 /\
    (forall x, x < bp \/ bp + 8 <= x -> m' x = m x).
Proof.
  intros Hp2 Hlim Hs2 Hl.
  destruct (join_next_run l2 Hp2 Hlim Hs2 Hl) as (n' & k2 & m' & E & Hcase & Hsz & Hpt & Hfr).
  exists n', k2, m'. split_and!; [done| |done]. pose proof heap0_le_bp as Hbp.
  assert (Hk2 : positive k2).
  { destruct Hcase as [(j & -> & _)|(_ & <- & _)]; [by apply Forall_inv_tail in Hp2|done]. }
  assert (Hnn : n <= n').
  { destruct Hcase as [(j & -> & ->)|(-> & _ & _)]; [apply Forall_inv in Hp2; cbn in Hp2|]; lia. }
  assert (Hafter : exists x, links m x (free_at (bp + 8 * n') k2) base).
  { destruct Hcase as [(j & -> & ->)|(-> & <- & _)].
    - cbn in Hl. apply links_app in Hl as [_ Hl].
      replace (bp + 8 * (n + j)) with (bp + 8 * n + 8 * j) by lia. eauto.
    - destruct (free_at (bp + 8 * n) l2) as [|y F]; [exists p; cbn|].
      + rewrite app_nil_r in Hl. by apply links_last in Hl.
      + apply links_app in Hl as [Hl1 Hl2]. exists p. split; [by apply links_last in Hl1|done]. }
  split; [..|done| |done| | |].
  - eapply sized_frame; [done| |done]. intros x Hx. apply Hfr. fold bp in Hx. lia.
  - rewrite <- Hsb. apply load32_frame. intros. apply Hfr. lia.
  - done.
  - assert (Hr : sized m (bp + 8 * n') k2).
    { destruct Hcase as [(j & -> & ->)|(-> & <- & _)]; [|done]. destruct Hs2 as [_ Hs2].
      by replace (bp + 8 * (n + j)) with (bp + 8 * n + 8 * j) by lia. }
    eapply sized_frame; [done| |done]. intros x Hx. apply Hfr. lia.
  - exists (hd base (free_at (bp + 8 * n) l2)). eapply links_frame; [|by apply links_hd].
    intros y i Hy Hi. apply Hfr. apply nodes_below in Hy. lia.
  - destruct Hafter as (x & Hx). eapply links_ext; [exact Hx| |].
    + rewrite Hpt. symmetry. by apply links_first.
    + intros y Hy. apply load32_frame. intros i Hi. apply Hfr. apply free_at_range in Hy; [lia|done].
  - destruct Hcase as [(j & -> & ->)|(-> & <- & _)]; [|done]. rewrite !ends_cons. f_equal. lia.
  - destruct Hcase as [(j & -> & ->)|(-> & <- & _)]; [|done]. cbn.
    by replace (bp + 8 * (n + j)) with (bp + 8 * n + 8 * j) by lia.
  - intros Hc. destruct Hcase as [(j & -> & _)|(_ & <- & Hf)]; [by destruct Hc|].
    destruct l2 as [|[[] j] k]; done.
  - destruct Hcase as [(j & -> & ->)|(-> & <- & _)]; [|done]. cbn.
    replace (bp + 8 * (n + j)) with (bp + 8 * n + 8 * j) by lia. lia.
Qed.
End joins.

(** After the second test the heap is whole again. *)
Section whole.
Context (m m' : mem) (b : Z) (l1 : list block) (n : Z) (k2 : list block).
Let bp := ends heap0 l1.
Let p := lst base (free_at heap0 l1).
Hypothesis (Hbase : 0 < base) (Hstart : base + 8 <= heap0).
Hypothesis (Hn : 1 <= n) (Hp2 : positive k2) (Hsn : load32 m (bp + 4) = n).
Hypothesis (Hc2 : coalesced true k2) (Eb : b = ends bp ((false, n) :: k2)) (Hlim : b <= 2 ^ 31).
Hypothesis (Hpb : p + 8 <= bp) (Hph : hdr p).
Hypothesis (Hfr : forall x, x < p \/ p + 8 <= x -> m' x = m x).
Hypothesis (Hrest : sized m' (bp + 8 * n) k2).
Hypothesis (Hpre : forall z, load32 m' p = z -> links m' base (free_at heap0 l1) z).
Hypothesis (Hpost : forall x, load32 m' x = load32 m bp -> links m' x (free_at (bp + 8 * n) k2) base).
Hypothesis (Hb0 : p = base \/ load32 m' (base + 4) = 0).

Definition whole : Prop :=
  exists bl, heap_ok (MkHeap m' p b) bl /\
    used_at heap0 bl = used_at heap0 l1 ++ used_at (bp + 8 * n) k2 /\
    (length (free_at heap0 bl) <= S (length (free_at heap0 l1) + length (free_at (bp + 8 * n) k2)))%nat /\
    (exists s, (true, s) ∈ bl /\ n <= s).

Lemma whole_joined k1 j :
  l1 = k1 ++ [(true, j)] -> positive l1 -> coalesced false l1 -> sized m heap0 l1 ->
  load32 m' (p + 4) = j + n -> load32 m' p = load32 m bp -> whole.
Proof.
  intros El Hp1 Hc1 Hs1 Hsz Hpt. rewrite El in Hp1, Hc1, Hs1. unfold whole.
  assert (Ep : p = ends heap0 k1) by (unfold p; rewrite El, free_at_app, lst_app; done).
  assert (Ebp : bp = p + 8 * j) by (unfold bp; rewrite El, ends_app, <- Ep; unfold ends; cbn; lia).
  apply Forall_app in Hp1 as [Hk1 Hj%Forall_inv]. cbn in Hj. apply coalesced_app in Hc1 as [Hc1 [Hc1' _]].
  rewrite andb_true_r in Hc1'. apply sized_app in Hs1 as [Hs1 _].
  assert (Hne : p <> base) by (rewrite Ep; unfold ends; pose proof (total_nonneg _ Hk1); lia).
  assert (En : p + 8 * (j + n) = bp + 8 * n) by lia.
  exists (k1 ++ (true, j + n) :: k2). rewrite El, used_at_app, free_at_app, free_at_app, used_at_app, <- Ep. cbn.
  rewrite En, !app_nil_r, !length_app. cbn. split_and!; [|done|lia|].
  + split; cbn; try done.
    * rewrite ends_app, ends_cons, <- Ep, En. rewrite Eb. by rewrite ends_cons.
    * apply Forall_app. split; [done|]. constructor; [cbn; lia|done].
    * apply coalesced_app. rewrite Hc1'. done.
    * apply sized_app. rewrite <- Ep. cbn. rewrite En. split_and!; [|done|done].
      eapply sized_frame; [done| |done]. intros x Hx. apply Hfr. lia.
    * by destruct Hb0.
    * rewrite free_at_app, <- Ep. cbn. rewrite En. apply links_app. split; [|by apply Hpost].
      specialize (Hpre _ eq_refl). rewrite El, free_at_app in Hpre. cbn in Hpre. rewrite <- Ep in Hpre.
      by apply links_app in Hpre as [Hpre _].
    * rewrite free_at_app, <- Ep. cbn. right. apply elem_of_app. right. by left.
  + exists (j + n). split; [|lia]. apply elem_of_app. right. by left.
Qed.

Lemma whole_linked :
  last_free false l1 = false -> positive l1 -> coalesced false l1 -> sized m heap0 l1 ->
  load32 m (base + 4) = 0 -> load32 m' (p + 4) = load32 m (p + 4) -> load32 m' p = bp -> whole.
Proof.
  intros Hlf Hp1 Hc1 Hs1 Hsb Hsz Hpt. pose proof (heap0_le_bp l1 Hp1) as Hbp. fold bp in Hbp.
  exists (l1 ++ (true, n) :: k2). rewrite used_at_app, free_at_app. fold bp. cbn.
  rewrite length_app. cbn. split_and!; [|done|lia|].
  + split; cbn; try done.
    * rewrite ends_app. fold bp. by rewrite ends_cons, Eb, ends_cons.
    * apply Forall_app. split; [done|]. by constructor.
    * apply coalesced_app. by rewrite Hlf.
    * apply sized_app. fold bp. cbn. split_and!; [|rewrite <- Hsn; apply load32_frame; intros; apply Hfr; lia|done].
      eapply (sized_link m m' p); solve [done|apply hdr_heap0|lia].
    * destruct Hb0 as [E0|E0]; [|done]. rewrite <- E0, Hsz, E0. done.
    * rewrite free_at_app. fold bp. cbn. apply links_app. split; [by apply Hpre|].
      apply Hpost. apply load32_frame. intros. apply Hfr. lia.
    * rewrite free_at_app. apply elem_of_cons. pose proof (lst_in base (free_at heap0 l1)) as Hin.
      fold p in Hin. apply elem_of_cons in Hin as [Hin|Hin]; [by left|]. right. apply elem_of_app. by left.
  + exists n. split; [|lia]. apply elem_of_app. right. by left.
Qed.
End whole.

Lemma join_prev_ok m fp b l1 n k2 z :
  let bp := ends heap0 l1 in let p := lst base (free_at heap0 l1) in
  0 < base -> base + 8 <= heap0 -> positive l1 -> 1 <= n -> positive k2 ->
  sized m heap0 l1 -> load32 m (base + 4) = 0 -> load32 m (bp + 4) = n -> sized m (bp + 8 * n) k2 ->
  links m base (free_at heap0 l1) z -> links m bp (free_at (bp + 8 * n) k2) base ->
  coalesced false l1 -> coalesced true k2 -> b = ends bp ((false, n) :: k2) -> b <= 2 ^ 31 ->
  exists bl m', join_prev bp p (MkHeap m fp b) = Ok tt (MkHeap m' fp b) /\
    heap_ok (MkHeap m' p b) bl /\
    used_at heap0 bl = used_at heap0 l1 ++ used_at (bp + 8 * n) k2 /\
    (length (free_at heap0 bl) <= S (length (free_at heap0 l1) + length (free_at (bp + 8 * n) k2)))%nat /\
    (exists s, (true, s) ∈ bl /\ n <= s) /\
    (forall x, x < p \/ p + 8 <= x -> m' x = m x).
Proof.
  intros bp p Hbase Hstart Hp1 Hn Hp2 Hs1 Hsb Hsn Hs2 Hl1 Hl2 Hc1 Hc2 Eb Hlim.
  pose proof (heap0_le_bp l1 Hp1) as Hbp. pose proof (nodes_below l1 Hstart Hp1) as Hnb.
  pose proof (Hnb p (lst_in _ _)) as Hpb. pose proof (p_hdr l1 Hstart Hp1) as Hph. fold bp p in Hbp, Hnb, Hpb, Hph.
  pose proof (total_nonneg _ Hp2) as Ht. pose proof Eb as Eb'. rewrite ends_cons in Eb'. unfold ends in Eb'.
  assert (Hr : 0 <= load32 m bp < 2 ^ 32).
  { rewrite (links_first _ _ _ _ Hl2). destruct (free_at (bp + 8 * n) k2) as [|y F] eqn:E; cbn; [lia|].
    pose proof (free_at_range _ _ y Hp2 ltac:(rewrite E; left)) as Hy. unfold ends in Hy. lia. }
  destruct (join_prev_run m fp b l1 n Hbase Hstart Hp1 Hn Hs1 Hsb Hsn _ eq_refl Hr ltac:(fold bp; lia))
    as (m' & E & Hcase & Hfr). fold bp p in E, Hcase, Hfr.
  assert (Hrest : sized m' (bp + 8 * n) k2).
  { eapply sized_frame; [done| |done]. intros x Hx. apply Hfr. lia. }
  assert (Hpre : forall z', load32 m' p = z' -> links m' base (free_at heap0 l1) z').
  { intros z' Ez. eapply links_redirect; [apply free_at_asc; [done|lia]|done| |done].
    intros y Hy Hyn. apply load32_frame. intros i Hi. apply Hfr.
    pose proof (nodes_hdr l1 Hstart Hp1) as Hh. rewrite Forall_forall in Hh. specialize (Hh y Hy).
    fold p in Hyn. destruct (hdr_apart Hstart y p Hh Hph); lia. }
  assert (Hpost : forall x, load32 m' x = load32 m bp -> links m' x (free_at (bp + 8 * n) k2) base).
  { intros x Ex. eapply links_ext; [exact Hl2|done|]. intros y Hy. apply load32_frame.
    intros i Hi. apply Hfr. apply free_at_range in Hy; [lia|done]. }
  assert (Hb0 : p = base \/ load32 m' (base + 4) = 0).
  { destruct (decide (p = base)) as [|Hne]; [by left|right]. rewrite <- Hsb. apply load32_frame.
    intros i Hi. apply Hfr. destruct (hdr_apart Hstart base p ltac:(by left) Hph); lia. }
  destruct Hcase as [(k1 & j & -> & Hsz & Hpt)|(Hlf & Hsz & Hpt)].
  - destruct (whole_joined m m' b (k1 ++ [(true, j)]) n k2) with k1 j as (bl & H1 & H2 & H3 & H4); eauto 8.
  - destruct (whole_linked m m' b l1 n k2) as (bl & H1 & H2 & H3 & H4); eauto 8.
Qed.

(** *** [free] *)

(** A block in use, and what [free] of it leaves. *)
Record freed (h : heap) (l1 : list block) (n : Z) (l2 : list block) (h' : heap) (bl : list block) : Prop := {
  fr_ok : heap_ok h' bl;
  fr_break : brk h' = brk h;
  fr_used : used_at heap0 bl = used_at heap0 l1 ++ used_at (ends heap0 l1 + 8 * n) l2;
  fr_kept : keeps_used bl (h_mem h) (h_mem h');
  fr_nodes : (length (free_at heap0 bl) <= S (length (free_at heap0 (l1 ++ (false, n) :: l2))))%nat;
  fr_room : exists s, (true, s) ∈ bl /\ n <= s;
}.

Lemma fuel_enough h bl : heap_ok h bl -> (length (free_at heap0 bl) < node_fuel h)%nat.
Proof.
  intros [Hb Hs Hbr _ Hp _ _ _ _ _]. pose proof (free_at_length heap0 _ Hp). unfold node_fuel, sizeof_Header.
  assert (total bl <= brk h / 8) by (apply Z.div_le_lower_bound; [lia|]; rewrite Hbr; unfold ends; lia). lia.
Qed.

Lemma free_ok h l1 n l2 :
  heap_ok h (l1 ++ (false, n) :: l2) ->
  exists h' bl, free (ends heap0 l1 + sizeof_Header) h = Ok tt h' /\ freed h l1 n l2 h' bl.
Proof.
  intros H. pose proof (fuel_enough _ _ H) as Hfuel. destruct h as [m fp b].
  destruct H as [Hbase Hstart Hbr Hlim Hp Hc Hs Hsb Hl Hfp]. cbn [h_mem freep brk] in *.
  pose proof (free_at_asc base heap0 _ Hp ltac:(lia)) as Hasc.
  rewrite free_at_app in Hl, Hfp, Hfuel, Hasc. cbn [free_at app] in Hl, Hfp, Hfuel, Hasc.
  apply Forall_app in Hp as [Hp1 Hp2]. pose proof (Forall_inv Hp2) as Hn. cbn in Hn.
  apply Forall_inv_tail in Hp2. apply sized_app in Hs as (Hs1 & Hsn & Hs2).
  apply coalesced_app in Hc as [Hc1 [_ Hc2]]. rewrite ends_app in Hbr.
  pose proof (nodes_below l1 Hstart Hp1) as Hnb. pose proof (heap0_le_bp l1 Hp1) as Hbp.
  set (bp := ends heap0 l1) in *. unfold free.
  replace (bp + sizeof_Header - sizeof_Header) with bp by lia. unfold get. munfold. cbn [freep].
  rewrite (free_after_ok _ bp m (free_at heap0 l1) (free_at (bp + 8 * n) l2) fp b Hl Hasc); [| | |done|done].
  2:{ intros y Hy. apply Hnb in Hy. lia. }
  2:{ intros y Hy. apply free_at_range in Hy; [lia|done]. }
  rewrite Hbr in Hlim.
  destruct (join_next_ok m fp b l1 n Hbase Hstart Hp1 Hn Hs1 Hsb Hsn l2 Hp2 Hlim Hs2 Hl)
    as (n' & k2 & m1 & E1 & [J1 J2 J3 J4 [z J5] J6 J7 J8 J9 J10 J11 J12] & Hfr1).
  fold bp in E1, Hfr1, J3, J4, J6, J8, J10, J12. rewrite E1.
  destruct (join_prev_ok m1 fp b l1 n' k2 z) as (bl & m2 & E2 & Hok & Hu & Hlen & (s & Hin & Hsn') & Hfr2);
    try done; [lia|by apply J11|by fold bp; rewrite J8|by rewrite Hbr|].
  fold bp in E2, Hu, Hlen. rewrite E2. unfold set_freep. munfold. cbn [h_mem brk].
  eexists _, bl. split; [done|]. split; cbn [h_mem brk]; [done|done|by rewrite Hu, J10| | |].
  - intros a k x Ha Hx. rewrite Hu, J10 in Ha. pose proof (Hnb _ (lst_in _ _)) as Hpb.
    apply elem_of_app in Ha as [Ha|Ha].
    + pose proof (used_at_range _ _ _ _ Hp1 Ha) as Hr. fold bp in Hr. rewrite Hfr2, Hfr1; [done|lia|].
      pose proof (lst_in base (free_at heap0 l1)) as [Ep|Ep]%elem_of_cons; [rewrite Ep; lia|].
      pose proof (used_free_apart _ _ _ _ _ Hp1 Ha Ep). lia.
    + pose proof (used_at_range _ _ _ _ Hp2 Ha) as Hr. rewrite Hfr2, Hfr1; [done|lia|lia].
  - rewrite free_at_app, length_app. fold bp. cbn [free_at app]. lia.
  - exists s. split; [done|lia].
Qed.
(** *** [malloc] on a free block *)

(** What the heap says at one of its blocks. *)
Record at_block (h : heap) (l1 : list block) (f : bool) (s : Z) (l2 : list block) : Prop := {
  ab_before : positive l1;
  ab_size : 1 <= s;
  ab_after : positive l2;
  ab_sized : sized (h_mem h) heap0 l1 /\ load32 (h_mem h) (ends heap0 l1 + 4) = s /\
    sized (h_mem h) (ends heap0 l1 + 8 * s) l2;
  ab_coalesced : coalesced false l1 /\ last_free false l1 && f = false /\ coalesced f l2;
  ab_hdr : hdr (ends heap0 l1);
  ab_ge : heap0 <= ends heap0 l1;
  ab_break : brk h = ends heap0 l1 + 8 * s + 8 * total l2;
  ab_total : 0 <= total l2;
  ab_nodes : Forall hdr (base :: free_at heap0 (l1 ++ (f, s) :: l2));
  ab_bound : brk h <= 2 ^ 31 -> Forall (fun x => 0 <= x < 2 ^ 32) (base :: free_at (ends heap0 l1 + 8 * s) l2);
  ab_asc : asc base (free_at heap0 (l1 ++ (f, s) :: l2));
}.

Lemma heap_ok_at h l1 f s l2 : heap_ok h (l1 ++ (f, s) :: l2) -> at_block h l1 f s l2.
Proof.
  intros [Hbase Hstart Hbr Hlim Hp Hc Hs Hsb Hl Hfp]. pose proof Hp as Hp'.
  apply Forall_app in Hp as [Hp1 Hp2]. pose proof (Forall_inv Hp2) as Hk. apply Forall_inv_tail in Hp2.
  apply sized_app in Hs as (Hs1 & Hsk & Hs2). apply coalesced_app in Hc as [Hc1 [Hcf Hc2]].
  rewrite ends_app, ends_cons in Hbr.
  split; try done.
  - by apply hdr_ends; [done|apply hdr_heap0|lia|].
  - by apply heap0_le_bp.
  - by apply total_nonneg.
  - constructor; [by left|]. apply Forall_forall. intros x Hx.
    eapply (hdr_free Hstart heap0); [apply hdr_heap0|lia|done|done].
  - intros _. pose proof (heap0_le_bp l1 Hp1). pose proof (total_nonneg _ Hp2). cbn in Hk.
    constructor; [unfold ends in *; lia|]. apply Forall_forall. intros x Hx.
    apply free_at_range in Hx; [unfold ends in *; lia|done].
  - apply free_at_asc; [done|lia].
Qed.

Lemma hdr_up a n : base + 8 <= heap0 -> hdr a -> heap0 <= a -> 0 <= n -> hdr (a + 8 * n).
Proof. intros Hs [->|(i & ? & ->)] Ha Hn; [lia|]. right. exists (i + n). lia. Qed.

Lemma pred_unique m x l z y q :
  links m x l z -> y ∈ x :: l -> load32 m y = q -> q ∉ l -> y = lst x l.
Proof.
  revert x. induction l as [|w r IH]; intros x Hl Hy E Hq.
  - by apply list_elem_of_singleton in Hy.
  - destruct Hl as [Ex Hl]. apply elem_of_cons in Hy as [->|Hy]; [set_solver|].
    cbn. apply IH; [done|done|done|set_solver +Hq].
Qed.

(** [k] units taken from the heap: [q] is the address [malloc] returns. *)
Record allocated (h : heap) (bl : list block) (k : Z) (q : Z) (h' : heap) (bl' : list block) : Prop := {
  al_ok : heap_ok h' bl';
  al_break : brk h <= brk h';
  al_used : exists u1 u2, used_at heap0 bl = u1 ++ u2 /\ used_at heap0 bl' = u1 ++ (q - 8, k) :: u2;
  al_kept : keeps_used bl (h_mem h) (h_mem h');
}.

(** Changes to the headers of free blocks leave the blocks in use alone. *)
Lemma keeps_used_nodes bl m m' :
  base + 8 <= heap0 -> positive bl ->
  (forall x, (forall p, p ∈ base :: free_at heap0 bl -> x < p \/ p + 8 <= x) -> m' x = m x) ->
  keeps_used bl m m'.
Proof.
  intros Hst Hp Hm a n x Ha Hx. apply Hm. intros p [->|Hin]%elem_of_cons.
  - pose proof (used_at_range _ _ _ _ Hp Ha). lia.
  - pose proof (used_free_apart _ _ _ _ _ Hp Ha Hin). lia.
Qed.

Lemma links_next m x l z y : links m x l z -> y ∈ x :: l -> load32 m y ∈ l ++ [z].
Proof.
  revert x. induction l as [|w r IH]; intros x Hl Hy.
  - apply list_elem_of_singleton in Hy as ->. rewrite Hl. by left.
  - destruct Hl as [Ex Hl]. apply elem_of_cons in Hy as [->|Hy]; [rewrite Ex; by left|].
    right. by apply (IH w).
Qed.

Lemma prev_node m F1 p F2 prevp :
  links m base (F1 ++ p :: F2) base -> asc base (F1 ++ p :: F2) ->
  prevp ∈ base :: F1 ++ p :: F2 -> load32 m prevp = p -> prevp = lst base F1.
Proof.
  intros Hl Ha Hin E. apply links_app in Hl as [Hl1 Hl2].
  pose proof (asc_NoDup _ _ Ha) as Hnd. rewrite app_comm_cons in Hnd, Hin.
  apply NoDup_app in Hnd as (_ & Hd & Hnd). apply elem_of_app in Hin as [Hin|Hin].
  - eapply pred_unique; [exact Hl1|done|done|]. intros Hp. apply (Hd p); [by right|by left].
  - exfalso. pose proof (links_next _ _ _ _ _ Hl2 Hin) as Hn. rewrite E in Hn.
    apply elem_of_app in Hn as [Hn|Hn%list_elem_of_singleton]; [by inversion Hnd|].
    apply (Hd p); [rewrite Hn; by left|by left].
Qed.

(** The link around a node. *)
Lemma unlink m F1 p F2 prevp :
  base + 8 <= heap0 -> Forall hdr (base :: F1 ++ p :: F2) -> Forall (fun x => 0 <= x < 2 ^ 32) (base :: F2) ->
  links m base (F1 ++ p :: F2) base -> asc base (F1 ++ p :: F2) ->
  prevp ∈ base :: F1 ++ p :: F2 -> load32 m prevp = p ->
  links (store32 m prevp (load32 m p)) base (F1 ++ F2) base.
Proof.
  intros Hstart Hh Hb Hl Ha Hin E. pose proof (prev_node _ _ _ _ _ Hl Ha Hin E) as Epv.
  rewrite app_comm_cons in Hh. pose proof Hh as Hh'. rewrite Forall_forall in Hh'.
  apply Forall_app in Hh as [Hh1 Hh2]. rewrite Forall_forall in Hh1.
  apply links_app in Hl as [Hl1 Hl2]. pose proof (links_first _ _ _ _ Hl2) as Ef.
  apply asc_app in Ha as [Ha1 [Hap Ha2]]. rewrite <- Epv in Hap.
  assert (Hpv : hdr prevp) by (by apply Hh').
  assert (Hl1' : links (store32 m prevp (load32 m p)) base F1 (hd base F2)).
  { eapply links_redirect; [done|done| |].
    - intros y Hy Hn. rewrite <- Epv in Hn. apply ptr_ptr_ne; [done|done|by apply Hh1|done].
    - rewrite <- Epv, ptr_ptr_eq, Ef. apply u32_small. rewrite Forall_forall in Hb. apply Hb.
      destruct F2; cbn; [by left|right; by left]. }
  destruct F2 as [|y F2]; [by rewrite app_nil_r|]. apply links_app. split; [done|].
  destruct Hl2 as [_ Hl2]. apply links_ptr; [done|done|by apply Forall_inv_tail in Hh2| |done].
  intros Hin'. pose proof (asc_lt _ _ _ Ha2 Hin'). lia.
Qed.

(** A block that fits exactly leaves the ring. *)
Lemma carve_whole h l1 k l2 prevp :
  heap_ok h (l1 ++ (true, k) :: l2) -> prevp ∈ base :: free_at heap0 (l1 ++ (true, k) :: l2) ->
  load32 (h_mem h) prevp = ends heap0 l1 ->
  exists h', carve k prevp (ends heap0 l1) h = Ok (ends heap0 l1 + 8) h' /\
    allocated h (l1 ++ (true, k) :: l2) k (ends heap0 l1 + 8) h' (l1 ++ (false, k) :: l2).
Proof.
  intros H Hprev Elink. pose proof (heap_ok_at _ _ _ _ _ H) as
    [Hp1 Hs Hp2 (Hs1 & Hsk & Hs2) (Hc1 & Hcf & Hc2) Hph Hge Hbr Ht Hnodes Hbnd Hasc].
  destruct H as [Hbase Hstart _ Hlim Hp _ _ Hsb Hl Hfp]. destruct h as [m fp b].
  cbn [h_mem freep brk] in *. set (p := ends heap0 l1) in *.
  pose proof (hdr_up p k Hstart Hph Hge ltac:(lia)) as Hnh.
  assert (Hpv : hdr prevp) by (rewrite Forall_forall in Hnodes; by apply Hnodes).
  unfold carve, size, ptr, set_ptr, set_freep, sizeof_Header. munfold. cbn [h_mem freep brk].
  rewrite Hsk, Z.eqb_refl. cbn [h_mem freep brk]. eexists. split; [done|].
  split; cbn [h_mem freep brk]; [|lia| |].
  - split; cbn [h_mem freep brk]; try done.
    + rewrite ends_app. fold p. rewrite ends_cons. unfold ends. lia.
    + apply Forall_app. split; [done|]. by constructor.
    + apply coalesced_app. split; [done|]. cbn. rewrite andb_false_r. split; [done|]. by eapply coalesced_weaken.
    + apply sized_app. fold p. cbn [sized]. split_and!; [apply sized_ptr; solve [done|apply hdr_heap0|lia]|by rewrite size_ptr|].
      apply sized_ptr; solve [done|lia].
    + rewrite size_ptr; [done|done|done|by left].
    + rewrite free_at_app in *. fold p in Hl, Hasc, Hnodes, Hprev |- *. by apply unlink; auto.
    + rewrite free_at_app in *. fold p in Hl, Hasc, Hprev |- *. cbn [free_at app] in *.
      rewrite (prev_node _ _ _ _ _ Hl Hasc Hprev Elink), app_comm_cons. apply elem_of_app. left. apply lst_in.
  - rewrite !used_at_app. fold p. cbn. eexists _, _. split; [done|]. by replace (p + 8 - 8) with p by lia.
  - apply keeps_used_nodes; [done|done|]. intros x Hx. specialize (Hx _ Hprev). apply store32_ne. lia.
Qed.

(** A larger block gives up its end. *)
Lemma carve_part h l1 s k l2 prevp :
  heap_ok h (l1 ++ (true, s) :: l2) -> prevp ∈ base :: free_at heap0 (l1 ++ (true, s) :: l2) ->
  1 <= k < s ->
  exists h', carve k prevp (ends heap0 l1) h = Ok (ends heap0 l1 + 8 * (s - k) + 8) h' /\
    allocated h (l1 ++ (true, s) :: l2) k (ends heap0 l1 + 8 * (s - k) + 8) h'
      (l1 ++ (true, s - k) :: (false, k) :: l2).
Proof.
  intros H Hprev Hk. pose proof (heap_ok_at _ _ _ _ _ H) as
    [Hp1 Hs Hp2 (Hs1 & Hsk & Hs2) (Hc1 & Hcf & Hc2) Hph Hge Hbr Ht Hnodes Hbnd Hasc].
  destruct H as [Hbase Hstart _ Hlim Hp _ _ Hsb Hl Hfp]. destruct h as [m fp b].
  cbn [h_mem freep brk] in *. set (p := ends heap0 l1) in *.
  pose proof (hdr_up p (s - k) Hstart Hph Hge ltac:(lia)) as Hqh. set (q := p + 8 * (s - k)) in *.
  pose proof (hdr_up p s Hstart Hph Hge ltac:(lia)) as Hnh.
  assert (Hin : p ∈ free_at heap0 (l1 ++ (true, s) :: l2)).
  { rewrite free_at_app. apply elem_of_app. right. by left. }
  unfold carve, size, set_size, set_freep, headers, sizeof_Header. munfold. cbn [h_mem freep brk].
  rewrite Hsk, (proj2 (Z.eqb_neq s k)) by lia. cbn [h_mem freep brk].
  fold q. rewrite (u32_small q) by lia. eexists. split; [done|].
  assert (Eq : q + 8 * k = p + 8 * s) by lia.
  split; cbn [h_mem freep brk]; [|lia| |].
  - split; cbn [h_mem freep brk]; try done.
    + rewrite ends_app. fold p. rewrite !ends_cons. unfold ends. lia.
    + apply Forall_app. split; [done|]. repeat constructor; [cbn; lia|cbn; lia|done].
    + apply coalesced_app. split; [done|]. cbn. rewrite Hcf. split_and!; [done|done|by eapply coalesced_weaken].
    + apply sized_app. fold p. cbn. fold q. rewrite Eq. split_and!.
      * do 2 (apply sized_size; [done|done|apply hdr_heap0|lia|done|right; fold p; lia|]). done.
      * rewrite size_size_ne, load32_store32_eq by first [done|lia]. apply u32_small. lia.
      * rewrite load32_store32_eq. apply u32_small. lia.
      * do 2 (apply sized_size; [done|done|done|lia|done|left; lia|]). done.
    + rewrite !size_size_ne; [done|done|done|by left|lia|done|done|by left|lia].
    + rewrite free_at_app in *. fold p in Hl, Hnodes |- *. cbn [free_at app] in *. fold q. rewrite Eq.
      by do 2 (apply links_size; [done|done|done|]).
    + rewrite free_at_app in *. fold p in Hprev |- *. cbn [free_at app] in *. fold q. by rewrite Eq.
  - rewrite !used_at_app. fold p. cbn. fold q. rewrite Eq. eexists _, _. split; [done|].
    by replace (q + 8 - 8) with q by lia.
  - intros a n x Ha Hx. pose proof (used_free_apart _ _ _ _ _ Hp Ha Hin).
    rewrite !store32_ne; [done|lia|].
    rewrite used_at_app in Ha. fold p in Ha. cbn in Ha.
    apply elem_of_app in Ha as [Ha|Ha].
    + pose proof (used_at_range _ _ _ _ Hp1 Ha) as Hr. fold p in Hr. lia.
    + pose proof (used_at_range _ _ _ _ Hp2 Ha) as Hr. lia.
Qed.
End heap.
