(* ===== verification/UmallocClaims.v ===== *)
(** * The user memory allocator as a whole (HW3/umalloc.c)

    The search of [malloc] around the ring, its growth by [morecore], and a
    program that allocates, writes and frees: the blocks it holds are disjoint
    and keep what it wrote. *)

From stdpp Require Import base numbers list sets.
From Stdlib Require Import ZArith Lia.
From S2P Require Import Prelude Umalloc UmallocSpec.

Open Scope Z_scope.

Section malloc.
Context (base heap0 : Z) (sbrk : Z -> Z -> option Z).

(** [sbrk] of a positive increment moves the break by it, and not above the
    memory of the process. *)
Hypothesis sbrk_ok : forall b n b', 0 <= n -> sbrk b n = Some b' -> b' = b + n /\ b' <= 2 ^ 31.

Local Notation heap_ok := (heap_ok base heap0).
Local Notation allocated := (allocated base heap0).
Local Notation keeps_used := (keeps_used heap0).
Local Notation malloc_loop := (malloc_loop sbrk).
Local Notation morecore := (morecore sbrk).

(** ** The search *)

(** The ring as it is met from [fp]. *)
Lemma ring_from m F fp :
  links m base F base -> fp ∈ base :: F -> exists r, links m fp r fp /\ fp :: r ≡ₚ base :: F.
Proof.
  intros Hl [->|Hin]%elem_of_cons; [by exists F|].
  apply list_elem_of_split in Hin as (F1 & F2 & ->). apply links_app in Hl as [Hl1 Hl2].
  exists (F2 ++ base :: F1). split; [by apply links_app|].
  rewrite Permutation_app_comm. cbn. rewrite Permutation_swap. f_equiv. apply Permutation_middle.
Qed.

(** Nodes that are too small are passed over. *)
Lemma malloc_walk j k m fp b x l z :
  links m x l z -> (forall y, y ∈ l -> load32 m (y + 4) < k /\ y <> fp) ->
  malloc_loop (length l + j) k x (hd z l) (MkHeap m fp b) = malloc_loop j k (lst x l) z (MkHeap m fp b).
Proof.
  revert x. induction l as [|y r IH]; intros x Hl Hy; [done|].
  destruct Hl as [E Hl]. destruct (Hy y ltac:(left)) as [Hs Hn].
  cbn [length Nat.add hd lst Umalloc.malloc_loop]. unfold size, get, ptr. munfold. cbn [h_mem freep].
  rewrite (proj2 (Z.leb_gt _ _) Hs). cbn [h_mem freep].
  rewrite (proj2 (Z.eqb_neq _ _) Hn). cbn [h_mem freep]. rewrite (links_first _ _ _ _ Hl).
  apply IH; [done|]. intros w Hw. apply Hy. by right.
Qed.

Lemma first_such {A} (P : A -> Prop) `{!forall x, Decision (P x)} (l : list A) :
  Forall (fun x => ~ P x) l \/ exists l1 x l2, l = l1 ++ x :: l2 /\ Forall (fun x => ~ P x) l1 /\ P x.
Proof.
  induction l as [|x l IH]; [by left|]. destruct (decide (P x)) as [Hx|Hx].
  - right. exists [], x, l. split_and!; [done|constructor|done].
  - destruct IH as [IH|(l1 & y & l2 & -> & H1 & H2)]; [left; by constructor|].
    right. exists (x :: l1), y, l2. split_and!; [done|by constructor|done].
Qed.

(** A node large enough is a block of the heap. *)
Lemma node_block h bl y k :
  heap_ok h bl -> y ∈ base :: free_at heap0 bl -> 1 <= k <= load32 (h_mem h) (y + 4) ->
  exists l1 s l2, bl = l1 ++ (true, s) :: l2 /\ y = ends heap0 l1 /\ s = load32 (h_mem h) (y + 4).
Proof.
  intros [] [->|Hy]%elem_of_cons Hk; [lia|].
  destruct (free_at_in _ _ _ _ ok_positive ok_sized Hy) as (l1 & s & l2 & ? & ? & ?). eauto 6.
Qed.

Lemma carve_ok h bl y k prevp :
  heap_ok h bl -> prevp ∈ base :: free_at heap0 bl -> load32 (h_mem h) prevp = y ->
  y ∈ base :: free_at heap0 bl -> 1 <= k <= load32 (h_mem h) (y + 4) ->
  exists q h' bl', carve k prevp y h = Ok q h' /\ allocated h bl k q h' bl' /\ 0 < q.
Proof.
  intros H Hprev E Hy Hk. destruct (node_block _ _ _ _ H Hy Hk) as (l1 & s & l2 & -> & -> & Es).
  pose proof (heap_ok_at _ _ _ _ _ _ _ H) as A. destruct H. pose proof (ab_ge _ _ _ _ _ _ _ A).
  destruct (decide (s = k)) as [->|Hn].
  - destruct (carve_whole base heap0 h l1 k l2 prevp) as (h' & E' & Ha); [done|done|done|].
    eexists _, h', _. split_and!; [done|done|lia].
  - destruct (carve_part base heap0 h l1 s k l2 prevp) as (h' & E' & Ha); [done|done|lia|].
    eexists _, h', _. split_and!; [done|done|lia].
Qed.

(** The way around the ring to one of its nodes. *)
Lemma ring_to m fp r A y B :
  links m fp r fp -> r ++ [fp] = A ++ y :: B ->
  links m fp A y /\ (forall x, x ∈ A -> x ∈ r) /\ y ∈ fp :: r /\ (length A <= length r)%nat.
Proof.
  intros Hl E. destruct B as [|w B _] using rev_ind.
  - apply app_inj_tail in E as [-> ->]. split_and!; [done|done|by left|lia].
  - rewrite app_comm_cons, app_assoc in E. apply app_inj_tail in E as [-> _].
    apply links_app in Hl as [Hl _]. rewrite length_app. split_and!; [done| | |cbn; lia].
    + intros x Hx. apply elem_of_app. by left.
    + right. apply elem_of_app. right. by left.
Qed.

(** Once around the ring: a block is taken, or all are too small and the search
    is back where it started. *)
Lemma malloc_scan h bl j k :
  heap_ok h bl -> 1 <= k ->
  let run := malloc_loop (length (free_at heap0 bl) + S j) k (freep h) (load32 (h_mem h) (freep h)) h in
  (exists q h' bl', run = Ok q h' /\ allocated h bl k q h' bl' /\ 0 < q) \/
  ((forall y, y ∈ base :: free_at heap0 bl -> load32 (h_mem h) (y + 4) < k) /\
   exists prevp, run = malloc_loop (S j) k prevp (freep h) h).
Proof.
  intros H Hk. destruct (ring_from _ _ _ (ok_ring _ _ _ _ H) (ok_freep _ _ _ _ H)) as (r & Hr & Hperm).
  assert (Hnd : NoDup (freep h :: r)).
  { rewrite Hperm. apply asc_NoDup. destruct H. apply free_at_asc; [done|lia]. }
  pose proof (Permutation_length Hperm) as Hlen. cbn in Hlen. injection Hlen as Hlen.
  apply NoDup_cons in Hnd as [Hfp _]. rewrite (links_first _ _ _ _ Hr), <- Hlen. cbv zeta.
  destruct (first_such (fun y => k <= load32 (h_mem h) (y + 4)) (r ++ [freep h]))
    as [Hall|(A & y & B & E & HA & Hy)].
  - right. rewrite Forall_forall in Hall. split.
    + intros y Hy. rewrite <- Hperm in Hy. specialize (Hall y). rewrite elem_of_app, list_elem_of_singleton in Hall.
      apply elem_of_cons in Hy. apply Z.nle_gt. apply Hall. tauto.
    + exists (lst (freep h) r). destruct h as [m fp b]. cbn [h_mem freep] in *.
      apply malloc_walk; [done|]. intros y Hy. specialize (Hall y). rewrite elem_of_app in Hall.
      split; [apply Z.nle_gt, Hall; by left|]. by intros ->.
  - left. destruct (ring_to _ _ _ _ _ _ Hr E) as (Hl & HA' & Hyin & HlenA).
    destruct (carve_ok h bl y k (lst (freep h) A)) as (q & h' & bl' & Ec & Hal & Hq); [done| | | |lia|].
    { rewrite <- Hperm. pose proof (lst_in (freep h) A) as [->|Hin]%elem_of_cons; [by left|right; by apply HA']. }
    { by apply links_last in Hl. }
    { by rewrite <- Hperm. }
    exists q, h', bl'. split_and!; [|done|done]. rewrite <- Ec. destruct h as [m fp b]. cbn [h_mem freep] in *.
    replace (length r + S j)%nat with (length A + S (length r - length A + j))%nat by lia.
    rewrite <- (links_first _ _ _ _ Hr), (links_first _ _ _ _ Hl), malloc_walk; [|done|].
    + cbn [Umalloc.malloc_loop]. unfold size, mbind, M_bind, reads. cbn [h_mem]. by rewrite (proj2 (Z.leb_le _ _) Hy).
    + intros x Hx. rewrite Forall_forall in HA. specialize (HA x Hx). split; [lia|].
      intros ->. by apply Hfp, HA'.
Qed.

(** ** Growth *)

Record grown (h : heap) (bl : list block) (k : Z) (h' : heap) (bl' : list block) : Prop := {
  gr_ok : heap_ok h' bl';
  gr_break : brk h <= brk h';
  gr_used : used_at heap0 bl' = used_at heap0 bl;
  gr_kept : keeps_used bl (h_mem h) (h_mem h');
  gr_nodes : (length (free_at heap0 bl') <= S (length (free_at heap0 bl)))%nat;
  gr_room : exists s, (true, s) ∈ bl' /\ k <= s;
}.

(** The increment [morecore] asks for. *)
Definition increment (k : Z) : Z := (if k <? 4096 then 4096 else k) * sizeof_Header.

Lemma morecore_ok h bl k :
  heap_ok h bl -> 1 <= k < 2 ^ 28 ->
  (sbrk (brk h) (increment k) = None /\ morecore k h = Ok 0 h) \/
  (exists h' bl', morecore k h = Ok (freep h') h' /\ grown h bl k h' bl').
Proof.
  intros H Hk. unfold Umalloc.morecore, increment. set (nu := if k <? 4096 then 4096 else k).
  assert (Hnu : 1 <= nu /\ k <= nu < 2 ^ 28) by (unfold nu; destruct (Z.ltb_spec k 4096); lia).
  unfold sizeof_Header, set_size. rewrite !(u32_small (nu * 8)), !(s32_small (nu * 8)) by lia. munfold.
  destruct (sbrk (brk h) (nu * 8)) as [b'|] eqn:Eb; [right|by left].
  apply sbrk_ok in Eb as [Eb Hb']; [|lia]. cbn [h_mem freep brk].
  set (h1 := MkHeap (store32 (h_mem h) (brk h + 4) nu) (freep h) b').
  assert (Hfr : forall x, x < brk h -> h_mem h1 x = h_mem h x).
  { intros x Hx. cbn. apply store32_ne. lia. }
  assert (H1 : heap_ok h1 (bl ++ [(false, nu)])).
  { destruct H as [Hbase Hstart Hbr Hlim Hp Hc Hs Hsb Hl Hfp]. pose proof (total_nonneg _ Hp).
    split; cbn [h1 h_mem freep brk]; try done.
    - rewrite ends_app, <- Hbr. unfold ends. cbn. lia.
    - apply Forall_app. split; [done|]. repeat constructor. cbn. lia.
    - apply coalesced_app. split; [done|]. cbn. by rewrite andb_false_r.
    - apply sized_app. rewrite <- Hbr. split.
      + eapply sized_frame; [done| |done]. intros x Hx. apply Hfr. lia.
      + cbn. rewrite load32_store32_eq. split; [apply u32_small; lia|done].
    - rewrite <- Hsb. apply load32_frame. intros. apply Hfr. unfold ends in Hbr. lia.
    - rewrite free_at_app. cbn. rewrite app_nil_r. eapply links_frame; [|done].
      intros y i [->|Hy]%elem_of_cons Hi; apply Hfr; [unfold ends in Hbr; lia|].
      apply free_at_range in Hy; [lia|done].
    - rewrite free_at_app. cbn. by rewrite app_nil_r. }
  destruct (free_ok base heap0 h1 bl nu [] H1) as (h2 & bl2 & E2 & [F1 F2 F3 F4 F5 F6]).
  rewrite <- (ok_break _ _ _ _ H) in E2. unfold sizeof_Header in E2. rewrite E2.
  exists h2, bl2. split; [done|]. cbn [used_at] in F3. rewrite app_nil_r in F3.
  split; [done|rewrite F2; cbn; lia|done| | |].
  - intros a n x Ha Hx. rewrite F4 with a n x; [|by rewrite F3|done]. apply Hfr.
    rewrite (ok_break _ _ _ _ H). pose proof (used_at_range _ _ _ _ (ok_positive _ _ _ _ H) Ha). lia.
  - rewrite free_at_app in F5. cbn in F5. by rewrite app_nil_r in F5.
  - destruct F6 as (s & ? & ?). exists s. split; [done|lia].
Qed.
(** ** [malloc] *)

(** Before the first call. *)
Definition fresh (h : heap) : Prop :=
  freep h = 0 /\ brk h = heap0 /\ 0 < base /\ base + 8 <= heap0 <= 2 ^ 31.

Definition heap_inv (h : heap) (bl : list block) : Prop := heap_ok h bl \/ fresh h /\ bl = [].

Lemma units_ok n : 0 <= n <= 2 ^ 31 - 16 -> 1 <= units n < 2 ^ 28 /\ n <= 8 * (units n - 1).
Proof.
  intros H. unfold units, sizeof_Header. rewrite (u32_small (n + 8 - 1)) by lia.
  pose proof (Z.div_mod (n + 8 - 1) 8 ltac:(lia)). pose proof (Z.mod_pos_bound (n + 8 - 1) 8 ltac:(lia)).
  rewrite u32_small; lia.
Qed.

Lemma free_member m a bl s :
  sized m a bl -> (true, s) ∈ bl -> exists y, y ∈ free_at a bl /\ load32 m (y + 4) = s.
Proof.
  revert a. induction bl as [|[f n] r IH]; intros a Hs Hin; [by apply elem_of_nil in Hin|].
  destruct Hs as [E Hs]. apply elem_of_cons in Hin as [[= <- ->]|Hin].
  - exists a. split; [by left|done].
  - destruct (IH _ Hs Hin) as (y & Hy & Ey). exists y. split; [|done]. cbn. apply elem_of_app. by right.
Qed.

Lemma freep_pos h bl : heap_ok h bl -> freep h <> 0.
Proof.
  intros []. apply elem_of_cons in ok_freep as [->|Hin]; [lia|].
  apply free_at_range in Hin; [lia|done].
Qed.

(** [malloc] when [freep] is set. *)
Lemma malloc_set h bl k j :
  heap_ok h bl -> 1 <= k < 2 ^ 28 -> (length (free_at heap0 bl) + 1 < j)%nat ->
  exists q h' bl', malloc_loop (length (free_at heap0 bl) + S j) k (freep h) (load32 (h_mem h) (freep h)) h = Ok q h' /\
    ((q = 0 /\ h' = h /\ bl' = bl /\ sbrk (brk h) (increment k) = None) \/ (0 < q /\ allocated h bl k q h' bl')).
Proof.
  intros H Hk Hj. destruct (malloc_scan h bl j k H) as [(q & h' & bl' & E & Ha & Hq)|[Hsmall [prevp E]]]; [lia| |].
  { exists q, h', bl'. split; [done|by right]. }
  cbv zeta in E. rewrite E. cbn [Umalloc.malloc_loop]. unfold size, get, ptr, mbind, M_bind, reads. cbn beta iota.
  rewrite (proj2 (Z.leb_gt _ _) (Hsmall _ (ok_freep _ _ _ _ H))), Z.eqb_refl.
  destruct (morecore_ok h bl k H Hk) as [[Es Em]|(h1 & bl1 & Em & [G1 G2 G3 G4 G5 G6])]; rewrite Em.
  { exists 0, h, bl. split; [done|by left]. }
  rewrite (proj2 (Z.eqb_neq _ _) (freep_pos _ _ G1)).
  replace j with (length (free_at heap0 bl1) + S (j - 1 - length (free_at heap0 bl1)))%nat by lia.
  destruct (malloc_scan h1 bl1 (j - 1 - length (free_at heap0 bl1)) k G1)
    as [(q & h' & bl' & E' & [A1 A2 A3 A4] & Hq)|[Hsmall' _]]; [lia| |].
  - exists q, h', bl'. split; [done|]. right. split; [done|]. split; [done|lia|by rewrite <- G3|].
    intros a n x Ha Hx. rewrite (A4 a n x); [|by rewrite G3|done]. by apply (G4 a n x).
  - destruct G6 as (s & Hin & Hs). destruct (free_member _ _ _ _ (ok_sized _ _ _ _ G1) Hin) as (y & Hy & Ey).
    specialize (Hsmall' y ltac:(by right)). lia.
Qed.

Lemma malloc_ok h bl n :
  heap_inv h bl -> 0 <= n <= 2 ^ 31 - 16 ->
  exists q h' bl', malloc base sbrk n h = Ok q h' /\ heap_ok h' bl' /\ keeps_used bl (h_mem h) (h_mem h') /\
    brk h <= brk h' /\
    ((q = 0 /\ used_at heap0 bl' = used_at heap0 bl /\ sbrk (brk h) (increment (units n)) = None) \/
     (0 < q /\ exists u1 u2, used_at heap0 bl = u1 ++ u2 /\ used_at heap0 bl' = u1 ++ (q - 8, units n) :: u2)).
Proof.
  intros Hinv Hn. destruct (units_ok n Hn) as [Hu _].
  assert (Hrun : exists h0, heap_ok h0 bl /\ brk h0 = brk h /\ keeps_used bl (h_mem h) (h_mem h0) /\
    malloc base sbrk n h = malloc_loop (2 * node_fuel h0 + 1) (units n) (freep h0) (load32 (h_mem h0) (freep h0)) h0).
  { unfold malloc, get, ptr, set_ptr, set_size, set_freep. munfold. destruct Hinv as [H|[(Hf & Hb & Hb1 & Hb2 & Hb3) ->]].
    - exists h. rewrite (proj2 (Z.eqb_neq _ _) (freep_pos _ _ H)). split_and!; done.
    - rewrite Hf. cbn [Z.eqb h_mem freep brk].
      exists (MkHeap (store32 (store32 (h_mem h) base base) (base + 4) 0) base (brk h)).
      split_and!; [|done|by intros a k x Ha; apply elem_of_nil in Ha|done].
      split; cbn [h_mem freep brk free_at]; try done; [by rewrite Hb, ends_nil|lia|constructor| | |by left].
      + rewrite load32_store32_eq. done.
      + cbn. rewrite load32_store32_ne, load32_store32_eq by lia. apply u32_small. lia. }
  destruct Hrun as (h0 & H0 & Hb0 & Hk0 & ->). pose proof (fuel_enough _ _ _ _ H0) as Hfuel.
  replace (2 * node_fuel h0 + 1)%nat with
    (length (free_at heap0 bl) + S (2 * node_fuel h0 - length (free_at heap0 bl)))%nat by lia.
  destruct (malloc_set h0 bl (units n) (2 * node_fuel h0 - length (free_at heap0 bl)) H0 Hu)
    as (q & h' & bl' & E & Hcase); [lia|].
  exists q, h', bl'. rewrite <- Hb0. destruct Hcase as [(-> & -> & -> & Es)|(Hq & [A1 A2 A3 A4])].
  - split_and!; [done|done|done|lia|by left].
  - split_and!; [done|done| |lia|by right]. intros a k x Ha Hx. rewrite (A4 a k x) by done. by apply (Hk0 a k x).
Qed.
(** ** Programs *)

(** What a program does with its memory: the blocks it holds are numbered, and
    each is known with the bytes the program expects in it. *)
Inductive call :=
| Alloc (n : Z)
| Store (i : nat) (off v : Z)
| Release (i : nat).

Definition contents (m : mem) (q n : Z) : list Z := (fun i => m (q + i)) <$> seqZ 0 n.

Fixpoint run (cs : list call) (live : list (Z * list Z)) : M heap (list (Z * list Z)) :=
  match cs with
  | [] => mret live
  | Alloc n :: cs =>
      q ← malloc base sbrk n;
      h ← get;
      run cs (if q =? 0 then live else live ++ [(q, contents (h_mem h) q n)])
  | Store i off v :: cs =>
      match live !! i with
      | Some (q, bs) =>
          if (0 <=? off) && (off <? Z.of_nat (length bs)) then
            modify (fun h => MkHeap (upd (h_mem h) (q + off) (u8 v)) (freep h) (brk h));;
            run cs (<[i := (q, <[Z.to_nat off := u8 v]> bs)]> live)
          else run cs live
      | None => run cs live
      end
  | Release i :: cs =>
      match live !! i with
      | Some (q, _) => free q;; run cs (delete i live)
      | None => run cs live
      end
  end.

(** The sizes the program may ask for: beyond them the byte count of the
    request does not fit a positive [int]. *)
Definition sane (c : call) : Prop := match c with Alloc n => 0 <= n <= 2 ^ 31 - 16 | _ => True end.

(** A block of the program is one in use, and holds what it should. *)
Definition block_of (b : Z * list Z) (u : Z * Z) : Prop :=
  b.1 = u.1 + 8 /\ Z.of_nat (length b.2) <= 8 * (u.2 - 1).

Definition holds (m : mem) (b : Z * list Z) : Prop :=
  forall i x, b.2 !! i = Some x -> m (b.1 + Z.of_nat i) = x.

Definition owns (live : list (Z * list Z)) (h : heap) (bl : list block) : Prop :=
  heap_inv h bl /\ Forall (holds (h_mem h)) live /\
  exists us, us ≡ₚ used_at heap0 bl /\ Forall2 block_of live us.

Lemma used_at_in a bl x n :
  (x, n) ∈ used_at a bl -> exists l1 l2, bl = l1 ++ (false, n) :: l2 /\ x = ends a l1.
Proof.
  revert a. induction bl as [|[f k] r IH]; intros a; cbn; [by intros ?%elem_of_nil|].
  intros [Hx|Hx]%elem_of_app.
  - destruct f; [by apply elem_of_nil in Hx|]. apply list_elem_of_singleton in Hx as [= -> ->].
    exists [], r. by rewrite ends_nil.
  - destruct (IH _ Hx) as (l1 & l2 & -> & ->). exists ((f, k) :: l1), l2. by rewrite ends_cons.
Qed.

(** Blocks in use at two places of the row are apart. *)
Lemma used_at_apart a bl i j x n y k :
  positive bl -> used_at a bl !! i = Some (x, n) -> used_at a bl !! j = Some (y, k) -> (i < j)%nat ->
  x + 8 * n <= y.
Proof.
  intros Hp. revert a i j. induction Hp as [|[f s] r Hs Hp IH]; intros a i j; cbn; [done|].
  destruct f; cbn; [apply IH|]. destruct i as [|i], j as [|j]; cbn; try lia.
  - intros [= <- <-] Hy _. apply list_elem_of_lookup_2, used_at_range in Hy; [lia|done].
  - intros Hx Hy Hij. eapply (IH _ i j); [done|done|lia].
Qed.

Lemma inv_positive h bl : heap_inv h bl -> positive bl.
Proof. intros [[]|[_ ->]]; [done|constructor]. Qed.

Lemma perm_apart us bl i j x n y k :
  positive bl -> us ≡ₚ used_at heap0 bl -> us !! i = Some (x, n) -> us !! j = Some (y, k) -> i <> j ->
  x + 8 * n <= y \/ y + 8 * k <= x.
Proof.
  intros Hp Hperm Hi Hj Hn. apply Permutation_inj in Hperm as [_ (f & Hf & Hl)].
  pose proof (Hl i) as Ei. pose proof (Hl j) as Ej. rewrite Hi in Ei. rewrite Hj in Ej.
  assert (f i <> f j) by (intros E; by apply Hn, Hf).
  destruct (decide (f i < f j)%nat); [left|right]; eapply used_at_apart; try done; lia.
Qed.

(** Blocks in use that are kept still hold what they held. *)
Lemma holds_kept live us bl m m' :
  us ≡ₚ used_at heap0 bl -> Forall2 block_of live us -> keeps_used bl m m' ->
  Forall (holds m) live -> Forall (holds m') live.
Proof.
  intros Hperm H2 Hk Hh. rewrite Forall_lookup in Hh |- *. intros i [q bs] Hi j x Hx. cbn in Hx |- *.
  destruct (Forall2_lookup_l _ _ _ _ _ H2 Hi) as ([a n] & Hu & Eq & Hlen). cbn in Eq, Hlen.
  pose proof (lookup_lt_Some _ _ _ Hx). rewrite <- (Hh i _ Hi j x Hx). cbn.
  apply (Hk a n); [rewrite <- Hperm; by eapply list_elem_of_lookup_2|lia].
Qed.

Lemma contents_lookup m q n i x : contents m q n !! i = Some x -> m (q + Z.of_nat i) = x.
Proof.
  unfold contents. rewrite list_lookup_fmap, fmap_Some. intros (k & Hk & ->).
  apply lookup_seqZ in Hk as [-> _]. done.
Qed.

Lemma alloc_step live h bl n :
  owns live h bl -> 0 <= n <= 2 ^ 31 - 16 ->
  exists q h' bl', malloc base sbrk n h = Ok q h' /\
    owns (if q =? 0 then live else live ++ [(q, contents (h_mem h') q n)]) h' bl'.
Proof.
  intros (Hinv & Hh & us & Hperm & H2) Hn. destruct (units_ok n Hn) as [_ Hu].
  destruct (malloc_ok h bl n Hinv Hn) as (q & h' & bl' & E & Hok & Hkept & _ & Hcase).
  exists q, h', bl'. split; [done|]. pose proof (holds_kept _ _ _ _ _ Hperm H2 Hkept Hh) as Hh'.
  destruct Hcase as [(-> & Eu & _)|(Hq & u1 & u2 & E1 & E2)].
  - cbn. split_and!; [by left|done|]. exists us. by rewrite Eu.
  - rewrite (proj2 (Z.eqb_neq q 0)) by lia. split_and!; [by left| |].
    + apply Forall_app. split; [done|]. constructor; [|done]. intros i x Hx. by apply contents_lookup in Hx.
    + exists (us ++ [(q - 8, units n)]). split.
      * rewrite E2, <- (Permutation_middle u1 u2), <- E1, <- Hperm. symmetry. apply Permutation_cons_append.
      * apply Forall2_app; [done|]. constructor; [|constructor]. split; cbn; [lia|].
        unfold contents. rewrite length_fmap, length_seqZ. lia.
Qed.

Lemma release_step live h bl i q bs :
  owns live h bl -> live !! i = Some (q, bs) ->
  exists h' bl', free q h = Ok tt h' /\ owns (delete i live) h' bl' /\ brk h' = brk h.
Proof.
  intros (Hinv & Hh & us & Hperm & H2) Hi.
  destruct (Forall2_lookup_l _ _ _ _ _ H2 Hi) as ([a n] & Hu & Eq & _). cbn in Eq.
  assert (Hin : (a, n) ∈ used_at heap0 bl) by (rewrite <- Hperm; by eapply list_elem_of_lookup_2).
  destruct (used_at_in _ _ _ _ Hin) as (l1 & l2 & -> & ->).
  destruct Hinv as [Hok|[_ Hnil]]; [|by destruct l1].
  destruct (free_ok _ _ _ _ _ _ Hok) as (h' & bl' & E & [F1 F2 F3 F4 F5 F6]).
  exists h', bl'. rewrite Eq. split_and!; [done| |done].
  assert (Hperm' : delete i us ≡ₚ used_at heap0 bl').
  { rewrite used_at_app in Hperm. cbn in Hperm. rewrite F3.
    apply (Permutation_cons_inv (a := (ends heap0 l1, n))).
    rewrite <- (delete_Permutation _ _ _ Hu), Hperm. by rewrite Permutation_middle. }
  split_and!; [by left| |exists (delete i us); split; [done|by apply Forall2_delete]].
  eapply holds_kept; [done|by apply Forall2_delete|done|]. by apply Forall_delete.
Qed.

(** Writing into a block in use. *)
Lemma heap_ok_write h bl a n x v :
  heap_ok h bl -> (a, n) ∈ used_at heap0 bl -> a + 8 <= x < a + 8 * n ->
  heap_ok (MkHeap (upd (h_mem h) x v) (freep h) (brk h)) bl.
Proof.
  intros H Hin Hx. pose proof (used_at_in _ _ _ _ Hin) as (l1 & l2 & -> & ->).
  pose proof (heap_ok_at _ _ _ _ _ _ _ H) as [Hp1 Hs Hp2 (Hs1 & Hsn & Hs2) _ _ Hge _ _ _ _ _].
  destruct H. split; cbn [h_mem freep brk]; try done.
  - apply sized_app. split; [|split].
    + eapply sized_frame; [done| |done]. intros y Hy. apply upd_ne. lia.
    + rewrite <- Hsn. apply load32_frame. intros y Hy. apply upd_ne. lia.
    + eapply sized_frame; [done| |done]. intros y Hy. apply upd_ne. lia.
  - rewrite <- ok_base_size. apply load32_frame. intros y Hy. apply upd_ne. lia.
  - eapply links_frame; [|done]. intros y i [->|Hy]%elem_of_cons Hi; apply upd_ne; [lia|].
    pose proof (used_free_apart _ _ _ _ _ ok_positive Hin Hy). lia.
Qed.

Lemma store_step live h bl i q bs off v :
  owns live h bl -> live !! i = Some (q, bs) -> 0 <= off < Z.of_nat (length bs) ->
  owns (<[i := (q, <[Z.to_nat off := v]> bs)]> live)
    (MkHeap (upd (h_mem h) (q + off) v) (freep h) (brk h)) bl.
Proof.
  intros (Hinv & Hh & us & Hperm & H2) Hi Hoff.
  destruct (Forall2_lookup_l _ _ _ _ _ H2 Hi) as ([a n] & Hu & Eq & Hlen). cbn in Eq, Hlen.
  assert (Hin : (a, n) ∈ used_at heap0 bl) by (rewrite <- Hperm; by eapply list_elem_of_lookup_2).
  split_and!.
  - destruct Hinv as [Hok|[_ ->]]; [left; eapply heap_ok_write; [done|done|lia]|by apply elem_of_nil in Hin].
  - cbn [h_mem]. apply Forall_lookup. intros j [q' bs'] Hj k x Hx. cbn in Hx |- *.
    rewrite Forall_lookup in Hh. destruct (decide (i = j)) as [->|Hn].
    + rewrite list_lookup_insert_eq in Hj by (by eapply lookup_lt_Some). injection Hj as <- <-.
      destruct (decide (k = Z.to_nat off)) as [->|Hk].
      * rewrite list_lookup_insert_eq in Hx by lia. injection Hx as <-.
        rewrite Z2Nat.id by lia. apply upd_eq.
      * rewrite list_lookup_insert_ne in Hx by done. rewrite upd_ne by lia. by apply (Hh j _ Hi k x).
    + rewrite list_lookup_insert_ne in Hj by done.
      destruct (Forall2_lookup_l _ _ _ _ _ H2 Hj) as ([a' n'] & Hu' & Eq' & Hlen'). cbn in Eq', Hlen'.
      pose proof (perm_apart _ _ _ _ _ _ _ _ (inv_positive _ _ Hinv) Hperm Hu Hu' Hn).
      pose proof (lookup_lt_Some _ _ _ Hx). rewrite upd_ne by lia. by apply (Hh j _ Hj k x).
  - exists us. split; [done|]. rewrite <- (list_insert_id us i (a, n)) by done.
    apply Forall2_insert; [done|]. split; cbn; [done|]. by rewrite length_insert.
Qed.

Lemma client_run_ok cs live h bl :
  owns live h bl -> Forall sane cs -> exists live' h' bl', run cs live h = Ok live' h' /\ owns live' h' bl'.
Proof.
  intros H Hc. revert live h bl H. induction Hc as [|c cs Hs Hc IH]; intros live h bl H; [by exists live, h, bl|].
  destruct c as [n|i off v|i]; cbn [run].
  - destruct (alloc_step _ _ _ n H Hs) as (q & h' & bl' & E & H'). rewrite (bind_ok _ _ _ _ _ E).
    erewrite bind_ok by reflexivity. by eapply IH.
  - destruct (live !! i) as [[q bs]|] eqn:Hi; [|by eapply IH].
    destruct ((0 <=? off) && (off <? Z.of_nat (length bs))) eqn:Ho; [|by eapply IH].
    erewrite bind_ok by reflexivity. eapply IH. eapply store_step; [done|done|lia].
  - destruct (live !! i) as [[q bs]|] eqn:Hi; [|by eapply IH].
    destruct (release_step _ _ _ _ _ _ H Hi) as (h' & bl' & E & H' & _). rewrite (bind_ok _ _ _ _ _ E). by eapply IH.
Qed.

(** A heap with no block in use is one free block. *)
Lemma all_free bl a : coalesced false bl -> used_at a bl = [] -> bl = [] \/ exists n, bl = [(true, n)].
Proof.
  destruct bl as [|[[] n] [|[[] k] r]]; cbn; try done; [by left|by right; exists n|by intros (_ & ? & _)].
Qed.

(** The blocks of a program lie in the heap and apart from each other. *)
Record apart (h : heap) (live : list (Z * list Z)) : Prop := {
  ap_inside : forall i q bs, live !! i = Some (q, bs) -> heap0 < q /\ q + Z.of_nat (length bs) <= brk h;
  ap_disjoint : forall i j q bs q' bs', i <> j -> live !! i = Some (q, bs) -> live !! j = Some (q', bs') ->
    q + Z.of_nat (length bs) <= q' \/ q' + Z.of_nat (length bs') <= q
}.

Lemma owns_apart live h bl : owns live h bl -> apart h live.
Proof.
  intros (Hinv & _ & us & Hperm & H2). split.
  - intros i q bs Hi. destruct (Forall2_lookup_l _ _ _ _ _ H2 Hi) as ([a n] & Hu & Eq & Hlen). cbn in *.
    assert (Hin : (a, n) ∈ used_at heap0 bl) by (rewrite <- Hperm; by eapply list_elem_of_lookup_2).
    pose proof (used_at_range _ _ _ _ (inv_positive _ _ Hinv) Hin).
    destruct Hinv as [[]|[_ ->]]; [|by apply elem_of_nil in Hin]. rewrite ok_break. lia.
  - intros i j q bs q' bs' Hn Hi Hj.
    destruct (Forall2_lookup_l _ _ _ _ _ H2 Hi) as ([a n] & Hu & Eq & Hlen).
    destruct (Forall2_lookup_l _ _ _ _ _ H2 Hj) as ([a' n'] & Hu' & Eq' & Hlen'). cbn in *.
    pose proof (perm_apart _ _ _ _ _ _ _ _ (inv_positive _ _ Hinv) Hperm Hu Hu' Hn). lia.
Qed.

(** [malloc] fails only when the system gives no more memory. *)
Lemma malloc_refuses live h bl n :
  owns live h bl -> 0 <= n <= 2 ^ 31 - 16 ->
  exists q h', malloc base sbrk n h = Ok q h' /\ (q = 0 -> sbrk (brk h) (increment (units n)) = None).
Proof.
  intros (Hinv & _) Hn. destruct (malloc_ok h bl n Hinv Hn) as (q & h' & bl' & E & _ & _ & _ & Hcase).
  exists q, h'. split; [done|]. intros ->. destruct Hcase as [(_ & _ & ?)|[? _]]; [done|lia].
Qed.

Lemma fresh_owns h : fresh h -> owns [] h [].
Proof. intros H. split_and!; [by right|constructor|]. by exists []. Qed.
End malloc.

(** The requests beyond [sane]: the count of units wraps for the last seven. *)
Lemma units_wrap n : 2 ^ 32 - 7 <= n < 2 ^ 32 -> units n = 1.
Proof.
  intros H. unfold units, sizeof_Header. assert (u32 (n + 8 - 1) = n + 7 - 2 ^ 32) as ->.
  { unfold u32. symmetry. apply (Z.mod_unique _ _ 1); lia. }
  rewrite Z.div_small by lia. done.
Qed.

(** C32: The user memory allocator gives a program blocks of its own.  Starting
    with an empty heap, any sequence of [malloc] of at most 2^31 - 16 bytes
    each, stores into held blocks and [free] of held blocks runs to its end;
    then every block the program holds has the bytes it wrote there, each
    lies between the start of the heap and the break, and they are disjoint;
    and a [malloc] at that point returns 0 only when [sbrk] refuses to grow
    the heap.  The bound on the sizes is needed: of the largest requests the
    last seven wrap around to a single unit, a block with no room at all. *)
Theorem malloc_blocks_isolated base heap0 sbrk cs h :
  (forall b n b', 0 <= n -> sbrk b n = Some b' -> b' = b + n /\ b' <= 2 ^ 31) ->
  fresh base heap0 h -> Forall sane cs ->
  (exists live h', run base sbrk cs [] h = Ok live h' /\
    Forall (holds (h_mem h')) live /\ apart heap0 h' live /\
    forall n, sane (Alloc n) -> exists q h2, malloc base sbrk n h' = Ok q h2 /\
      (q = 0 -> sbrk (brk h') (increment (units n)) = None)) /\
  (forall n, 2 ^ 32 - 7 <= n < 2 ^ 32 -> units n = 1).
Proof.
  intros Hsbrk Hf Hc. split; [|exact units_wrap].
  destruct (client_run_ok base heap0 sbrk Hsbrk cs [] h [] (fresh_owns _ _ _ Hf) Hc)
    as (live & h' & bl & E & H). exists live, h'. split_and!; [done|apply H|by eapply owns_apart|].
  intros n Hn. by apply (malloc_refuses base heap0 sbrk Hsbrk live h' bl).
Qed.

(** Nothing is lost and the free list is compact.  When a program has given
    back every block, whatever the order, the whole heap up to the break is a
    single free block. *)
Theorem free_coalesces_heap base heap0 sbrk cs h h' :
  (forall b n b', 0 <= n -> sbrk b n = Some b' -> b' = b + n /\ b' <= 2 ^ 31) ->
  fresh base heap0 h -> Forall sane cs -> run base sbrk cs [] h = Ok [] h' -> brk h' <> heap0 ->
  heap_ok base heap0 h' [(true, (brk h' - heap0) / 8)].
Proof.
  intros Hsbrk Hf Hc E Hb. destruct (client_run_ok base heap0 sbrk Hsbrk cs [] h [] (fresh_owns _ _ _ Hf) Hc)
    as (live & h1 & bl & E1 & Hinv & _ & us & Hperm & H2).
  rewrite E in E1. injection E1 as <- <-. apply Forall2_nil_inv_l in H2 as ->.
  apply Permutation_nil_l in Hperm. symmetry in Hperm.
  destruct Hinv as [Hok|[(_ & ? & _) _]]; [|done]. pose proof (ok_break _ _ _ _ Hok) as Hbr.
  destruct (all_free bl heap0 (ok_coalesced _ _ _ _ Hok) Hperm) as [->|[n ->]]; [by rewrite ends_nil in Hbr|].
  replace ((brk h' - heap0) / 8) with n; [done|]. rewrite Hbr. unfold ends. cbn.
  replace (heap0 + 8 * (n + 0) - heap0) with (n * 8) by lia. by rewrite Z.div_mul.
Qed.

(** ** An instance *)

(** A kernel that grants up to one megabyte. *)
Definition sample_sbrk (b n : Z) : option Z := if b + n <=? 0x100000 then Some (b + n) else None.
Definition sample_heap : heap := MkHeap (fun _ => 0) 0 4096.

Lemma sample_sbrk_ok b n b' : 0 <= n -> sample_sbrk b n = Some b' -> b' = b + n /\ b' <= 2 ^ 31.
Proof. unfold sample_sbrk. intros Hn. destruct (Z.leb_spec (b + n) 0x100000); [|done]. intros [= <-]. lia. Qed.

Lemma sample_fresh : fresh 100 4096 sample_heap.
Proof. unfold fresh. cbn. lia. Qed.

Lemma malloc_blocks_isolated_witness :
  exists live h', run 100 sample_sbrk [Alloc 10; Alloc 5000; Store 0 3 65; Alloc 7; Release 1; Store 1 0 66] [] sample_heap = Ok live h' /\
    Forall (holds (h_mem h')) live /\ apart 4096 h' live.
Proof.
  destruct (malloc_blocks_isolated 100 4096 sample_sbrk
    [Alloc 10; Alloc 5000; Store 0 3 65; Alloc 7; Release 1; Store 1 0 66] sample_heap) as [(live & h' & E & H1 & H2 & _) _];
    [exact sample_sbrk_ok|exact sample_fresh|repeat constructor; cbn; lia|].
  exists live, h'. split; [exact E|]. split; [exact H1|exact H2].
Defined.

Definition sample_calls : list call := [Alloc 10; Alloc 5000; Alloc 100; Release 1; Release 0; Release 0].

Lemma sample_run : exists h', run 100 sample_sbrk sample_calls [] sample_heap = Ok [] h' /\ brk h' = 4096 + 4096 * 8.
Proof.
  assert (H : match run 100 sample_sbrk sample_calls [] sample_heap with
              | Ok [] h' => brk h' =? 4096 + 4096 * 8 | _ => false end = true) by (vm_compute; reflexivity).
  destruct (run 100 sample_sbrk sample_calls [] sample_heap) as [[|] h'| | | |]; try done.
  exists h'. split; [done|]. by apply Z.eqb_eq in H.
Qed.

Lemma free_coalesces_heap_witness :
  exists h', run 100 sample_sbrk sample_calls [] sample_heap = Ok [] h' /\ heap_ok 100 4096 h' [(true, 4096)].
Proof.
  destruct sample_run as (h' & E & Hb). exists h'. split; [exact E|].
  replace 4096 with ((brk h' - 4096) / 8) at 2 by (rewrite Hb; reflexivity).
  apply (free_coalesces_heap 100 4096 sample_sbrk sample_calls sample_heap h');
    [exact sample_sbrk_ok|exact sample_fresh|repeat constructor; cbn; lia|exact E|rewrite Hb; lia].
Defined.
