(* ===== verification/LinkedList.v ===== *)
(** * The linked lists of HW2 (HW2/linkedList.c)

    Nodes lie in a store, a finite map from addresses; a pointer is [None] for
    NULL.  [malloc] and [atoi] are of the C library and are parameters: an
    address that is not in use, and the number a string denotes.  What the
    program prints is the list of numbers with what follows each. *)

From stdpp Require Import base numbers list gmap sorting strings.
From Stdlib Require Import ZArith Lia.
From S2P Require Import Prelude.

Open Scope Z_scope.

Notation loc := nat.

Record Node := MkNode { data : Z; next : option loc }.

Notation nodes := (gmap loc Node).

(** A number printed before [->], or as the last of its line. *)
Inductive output := Arrow (d : Z) | Last (d : Z).

Section program.
Context (malloc : nodes -> loc) (atoi : list Z -> Z).

(** [p->data] and [p->next]; following NULL has no meaning. *)
Definition node (p : option loc) : M nodes Node := fun h =>
  match p with
  | Some l => match h !! l with Some n => Ok n h | None => Undef "dangling pointer" end
  | None => Undef "null pointer"
  end.

Definition set_next (p : loc) (q : option loc) : M nodes unit :=
  modify (fun h => alter (fun n => MkNode (data n) q) p h).

(** [while (tail->next != NULL) tail = tail->next] *)
Fixpoint find_tail (k : nat) (tail : loc) : M nodes loc :=
  match k with
  | O => diverge
  | S k' =>
      n ← node (Some tail);
      match next n with None => mret tail | Some t => find_tail k' t end
  end.

Definition listInsertTail (head : option loc) (d : Z) : M nodes (option loc) :=
  h ← get;
  let new := malloc h in
  match head with
  | None =>
      modify (fun h => <[new := MkNode d None]> h);;
      mret (Some new)
  | Some hd =>
      tail ← find_tail (size h) hd;
      modify (fun h => <[new := MkNode d None]> h);;
      set_next tail (Some new);;
      mret head
  end.

(** The loop of [mergeLists]. *)
Fixpoint merge_loop (k : nat) (merged l1 l2 : option loc) : M nodes (option loc) :=
  match k with
  | O => diverge
  | S k' =>
      match l1, l2 with
      | Some _, Some _ =>
          n1 ← node l1;
          n2 ← node l2;
          if data n1 <=? data n2 then
            merged ← listInsertTail merged (data n1);
            n1 ← node l1;
            merge_loop k' merged (next n1) l2
          else
            merged ← listInsertTail merged (data n2);
            n2 ← node l2;
            merge_loop k' merged l1 (next n2)
      | None, Some _ =>
          n2 ← node l2;
          merged ← listInsertTail merged (data n2);
          n2 ← node l2;
          merge_loop k' merged l1 (next n2)
      | Some _, None =>
          n1 ← node l1;
          merged ← listInsertTail merged (data n1);
          n1 ← node l1;
          merge_loop k' merged (next n1) l2
      | None, None => mret merged
      end
  end.

Definition mergeLists (l1 l2 : option loc) : M nodes (option loc) :=
  match l1, l2 with
  | None, None => mret None
  | None, _ => mret l2
  | _, None => mret l1
  | _, _ =>
      h ← get;
      merge_loop (S (size h + size h)) None l1 l2
  end.

Fixpoint print_loop (k : nat) (curr : option loc) : M nodes (list output) :=
  match k with
  | O => diverge
  | S k' =>
      n ← node curr;
      match next n with
      | Some _ =>
          rest ← print_loop k' (next n);
          mret (Arrow (data n) :: rest)
      | None => mret [Last (data n)]
      end
  end.

Definition printList (head : option loc) : M nodes (list output) :=
  match head with
  | None => mret []
  | Some _ => h ← get; print_loop (size h) head
  end.

(** [strcmp(s, ",")] as a test. *)
Definition is_comma (s : list Z) : bool := bool_decide (s = [44]).

(** The first loop of [main]: the arguments up to the comma, [None] when they
    end before one. *)
Fixpoint read_first (args : list (list Z)) (l : option loc) : M nodes (option (option loc * list (list Z))) :=
  match args with
  | [] => mret None
  | a :: args' =>
      if is_comma a then mret (Some (l, args'))
      else l ← listInsertTail l (atoi a); read_first args' l
  end.

Fixpoint read_second (args : list (list Z)) (l : option loc) : M nodes (option loc) :=
  match args with
  | [] => mret l
  | a :: args' => l ← listInsertTail l (atoi a); read_second args' l
  end.

(** [main] on [argv[1..]]: [None] is the error message and exit status 1. *)
Definition main (args : list (list Z)) : M nodes (option (list output)) :=
  r ← read_first args None;
  match r with
  | None => mret None
  | Some (list1, rest) =>
      list2 ← read_second rest None;
      list3 ← mergeLists list1 list2;
      o2 ← printList list2;
      o1 ← printList list1;
      o3 ← printList list3;
      mret (Some (o2 ++ o1 ++ o3))
  end.

(** ** Lists in the store *)

Hypothesis malloc_fresh : forall h, h !! malloc h = None.

(** The numbers of the list from a pointer on, and its nodes. *)
Fixpoint lseg (h : nodes) (p : option loc) (xs : list Z) (ls : list loc) : Prop :=
  match xs, ls with
  | [], [] => p = None
  | x :: xs', l :: ls' =>
      p = Some l /\ exists q, h !! l = Some (MkNode x q) /\ lseg h q xs' ls'
  | _, _ => False
  end.

Definition is_list (h : nodes) (p : option loc) (xs : list Z) : Prop :=
  exists ls, lseg h p xs ls /\ NoDup ls.

(** The merge of two lists. *)
Fixpoint merge (xs : list Z) : list Z -> list Z :=
  fix merge_ys (ys : list Z) : list Z :=
  match xs, ys with
  | [], _ => ys
  | _, [] => xs
  | x :: xs', y :: ys' => if x <=? y then x :: merge xs' ys else y :: merge_ys ys'
  end.

Fixpoint printed (xs : list Z) : list output :=
  match xs with [] => [] | [x] => [Last x] | x :: xs' => Arrow x :: printed xs' end.

Lemma lseg_in h p xs ls l : lseg h p xs ls -> l ∈ ls -> is_Some (h !! l).
Proof.
  revert p ls. induction xs as [|x xs IH]; intros p [|l' ls]; cbn; try done; [by intros _ ?%elem_of_nil|].
  intros (-> & q & Hl & Hr) [->|Hin]%elem_of_cons; [by rewrite Hl|]. by eapply IH.
Qed.

Lemma lseg_length h p xs ls : lseg h p xs ls -> NoDup ls -> (length xs <= size h)%nat.
Proof.
  intros H Hnd. assert (length xs = length ls) as ->.
  { revert p ls H Hnd. induction xs as [|x xs IH]; intros p [|l ls]; cbn; try done.
    intros (_ & q & _ & H) [_ Hnd]%NoDup_cons. f_equal. by eapply IH. }
  rewrite <- size_dom, <- (size_list_to_set (C := gset loc)) by done.
  apply subseteq_size. intros l Hl%elem_of_list_to_set. apply elem_of_dom. by eapply lseg_in.
Qed.

(** Nodes that are not of a list may change. *)
Lemma lseg_frame h h' p xs ls :
  lseg h p xs ls -> (forall l, l ∈ ls -> h' !! l = h !! l) -> lseg h' p xs ls.
Proof.
  revert p ls. induction xs as [|x xs IH]; intros p [|l ls]; cbn; try done.
  intros (-> & q & Hl & Hr) Hf. split; [done|]. exists q. split; [rewrite Hf; [done|by left]|].
  apply IH; [done|]. intros l' Hl'. apply Hf. by right.
Qed.

Lemma node_ok h l n : h !! l = Some n -> node (Some l) h = Ok n h.
Proof. unfold node. by intros ->. Qed.

Lemma find_tail_ok h k hd xs ls :
  lseg h (Some hd) xs ls -> (length xs <= k)%nat ->
  exists ls0 l x xs0, ls = ls0 ++ [l] /\ xs = xs0 ++ [x] /\ length xs0 = length ls0 /\
    find_tail k hd h = Ok l h /\ h !! l = Some (MkNode x None).
Proof.
  revert k hd ls. induction xs as [|x xs IH]; intros k hd [|l ls]; cbn; try done.
  intros ([= ->] & q & Hl & H) Hk. destruct k as [|k]; [lia|]. cbn [find_tail].
  rewrite (bind_ok _ _ _ _ _ (node_ok _ _ _ Hl)). cbn [next].
  destruct q as [q|].
  - destruct (IH k q ls H ltac:(lia)) as (ls0 & l' & x' & xs0 & -> & -> & El & E & Hl').
    exists (l :: ls0), l', x', (x :: xs0). split_and!; [done|done|cbn; lia|done|done].
  - assert (xs = [] /\ ls = []) as [-> ->] by (destruct xs, ls; cbn in H; try done; by destruct H).
    exists [], l, x, []. done.
Qed.

(** The last node of a list gets a successor. *)
Lemma lseg_snoc h p xs0 x ls0 l d new :
  length xs0 = length ls0 -> lseg h p (xs0 ++ [x]) (ls0 ++ [l]) -> NoDup (ls0 ++ [l]) -> new ∉ ls0 ++ [l] ->
  lseg (<[l := MkNode x (Some new)]> (<[new := MkNode d None]> h)) p ((xs0 ++ [x]) ++ [d]) ((ls0 ++ [l]) ++ [new]).
Proof.
  revert p ls0. induction xs0 as [|y xs0 IH]; intros p [|k ls0]; cbn; try done.
  - intros _ (-> & q & Hl & ->) _ Hn. split; [done|]. exists (Some new). rewrite lookup_insert_eq.
    split; [done|]. split; [done|]. exists None. rewrite lookup_insert_ne, lookup_insert_eq by set_solver +Hn. done.
  - intros [= E] (-> & q & Hk & H) [Hnk Hnd]%NoDup_cons Hn. split; [done|]. exists q. split.
    + rewrite lookup_insert_ne by set_solver +Hnk. rewrite lookup_insert_ne by set_solver +Hn. done.
    + apply IH; [done|done|done|set_solver +Hn].
Qed.

Lemma listInsertTail_ok h p xs ls d :
  lseg h p xs ls -> NoDup ls ->
  exists p' h' new, listInsertTail p d h = Ok p' h' /\ h !! new = None /\
    lseg h' p' (xs ++ [d]) (ls ++ [new]) /\ NoDup (ls ++ [new]) /\
    (forall l, l ∉ ls ++ [new] -> h' !! l = h !! l) /\ size h' = S (size h).
Proof.
  intros H Hnd. pose proof (malloc_fresh h) as Hfresh. set (new := malloc h) in *.
  assert (Hnew : new ∉ ls). { intros Hin. destruct (lseg_in _ _ _ _ _ H Hin) as [? E]. congruence. }
  assert (Hnd' : NoDup (ls ++ [new])).
  { apply NoDup_app. split_and!; [done|set_solver +Hnew|apply NoDup_singleton]. }
  unfold listInsertTail, get. munfold. fold new. destruct p as [hd|].
  - destruct (find_tail_ok h (size h) hd xs ls H (lseg_length _ _ _ _ H Hnd))
      as (ls0 & l & x & xs0 & -> & -> & El & E & Hl).
    rewrite E. unfold set_next. munfold.
    assert (Ea : alter (fun n => MkNode (data n) (Some new)) l (<[new := MkNode d None]> h)
      = <[l := MkNode x (Some new)]> (<[new := MkNode d None]> h)).
    { apply map_eq. intros i. destruct (decide (i = l)) as [->|Hi].
      - rewrite lookup_alter_eq, lookup_insert_eq, lookup_insert_ne by set_solver +Hnew. by rewrite Hl.
      - rewrite lookup_alter_ne by done. symmetry. by apply lookup_insert_ne. }
    rewrite Ea. eexists _, _, new. split_and!; [done|done|by apply lseg_snoc|done| |].
    + intros i Hi. rewrite !lookup_insert_ne by set_solver +Hi. done.
    + rewrite map_size_insert_Some; [by apply map_size_insert_None|].
      rewrite lookup_insert_ne by set_solver +Hnew. by rewrite Hl.
  - assert (xs = [] /\ ls = []) as [-> ->] by (destruct xs, ls; cbn in H; try done; by destruct H).
    eexists _, _, new. split_and!; [done|done| |done| |by apply map_size_insert_None].
    + cbn. split; [done|]. exists None. by rewrite lookup_insert_eq.
    + intros i Hi. by rewrite lookup_insert_ne by set_solver +Hi.
Qed.

Lemma merge_nil_r xs : merge xs [] = xs.
Proof. by destruct xs. Qed.

Lemma merge_nil_l ys : merge [] ys = ys.
Proof. by destruct ys. Qed.

Lemma merge_cons x xs y ys :
  merge (x :: xs) (y :: ys) = if x <=? y then x :: merge xs (y :: ys) else y :: merge (x :: xs) ys.
Proof. done. Qed.

(** One round of the loop: a number is appended, the two lists are kept. *)
Lemma insert_step h merged acc lm d p xs ls q ys ks :
  lseg h merged acc lm -> NoDup lm -> lseg h p xs ls -> lseg h q ys ks ->
  (forall l, l ∈ lm -> l ∉ ls /\ l ∉ ks) ->
  exists merged' h' new, listInsertTail merged d h = Ok merged' h' /\ h !! new = None /\
    lseg h' merged' (acc ++ [d]) (lm ++ [new]) /\ NoDup (lm ++ [new]) /\
    lseg h' p xs ls /\ lseg h' q ys ks /\ (forall l, l ∈ lm ++ [new] -> l ∉ ls /\ l ∉ ks) /\
    (forall l, l ∉ lm ++ [new] -> h' !! l = h !! l).
Proof.
  intros Hm Hnd Hp Hq Hd. destruct (listInsertTail_ok h merged acc lm d Hm Hnd)
    as (m' & h' & new & E & Hnew & Hm' & Hnd' & Hf & _).
  assert (Hno : forall r zs ms, lseg h r zs ms -> new ∉ ms).
  { intros r zs ms Hr Hin. destruct (lseg_in _ _ _ _ _ Hr Hin). congruence. }
  assert (Hd' : forall l, l ∈ lm ++ [new] -> l ∉ ls /\ l ∉ ks).
  { intros l [Hl|Hl%list_elem_of_singleton]%elem_of_app; [by apply Hd|subst l]. split; by eapply Hno. }
  exists m', h', new. split_and!; try done; eapply lseg_frame; try done.
  - intros l Hl. apply Hf. intros Hin. by apply Hd' in Hin as [? _].
  - intros l Hl. apply Hf. intros Hin. by apply Hd' in Hin as [_ ?].
Qed.

Lemma lseg_cons h p x xs ls :
  lseg h p (x :: xs) ls -> exists l ls' q, p = Some l /\ ls = l :: ls' /\ h !! l = Some (MkNode x q) /\ lseg h q xs ls'.
Proof. destruct ls as [|l ls]; [done|]. intros (-> & q & Hl & H). by exists l, ls, q. Qed.

Lemma lseg_nil h p ls : lseg h p [] ls -> p = None /\ ls = [].
Proof. by destruct ls. Qed.

Lemma merge_loop_ok k h merged acc lm p xs ls q ys ks :
  lseg h merged acc lm -> NoDup lm -> lseg h p xs ls -> lseg h q ys ks ->
  (forall l, l ∈ lm -> l ∉ ls /\ l ∉ ks) -> (length xs + length ys < k)%nat ->
  exists r h' lm', merge_loop k merged p q h = Ok r h' /\
    lseg h' r (acc ++ merge xs ys) lm' /\ NoDup lm' /\
    (forall l, is_Some (h !! l) -> l ∉ lm -> h' !! l = h !! l).
Proof.
  revert h merged acc lm p xs ls q ys ks.
  induction k as [|k IH]; intros h merged acc lm p xs ls q ys ks Hm Hnd Hp Hq Hd Hk; [lia|].
  assert (Hstep : forall d p' xs' ls' q' ys' ks', lseg h p' xs' ls' -> lseg h q' ys' ks' ->
    (forall l, l ∈ lm -> l ∉ ls' /\ l ∉ ks') -> (length xs' + length ys' < k)%nat ->
    exists m1 h1, listInsertTail merged d h = Ok m1 h1 /\
    (forall l n, h !! l = Some n -> l ∉ lm -> node (Some l) h1 = Ok n h1) /\
    exists r h' lm', merge_loop k m1 p' q' h1 = Ok r h' /\ lseg h' r (acc ++ d :: merge xs' ys') lm' /\ NoDup lm' /\
      (forall l, is_Some (h !! l) -> l ∉ lm -> h' !! l = h !! l)).
  { intros d p' xs' ls' q' ys' ks' Hp' Hq' Hd' Hk'.
    destruct (insert_step _ _ _ _ d _ _ _ _ _ _ Hm Hnd Hp' Hq' Hd')
      as (m1 & h1 & new & E1 & Hnew & Hm1 & Hnd1 & Hp1 & Hq1 & Hd1 & Hf1).
    assert (Hf1' : forall l, is_Some (h !! l) -> l ∉ lm -> h1 !! l = h !! l).
    { intros l [n Hl] Hn. apply Hf1. intros [?|E'%list_elem_of_singleton]%elem_of_app; [done|congruence]. }
    exists m1, h1. split_and!; [done|intros l n Hl Hn; apply node_ok; by rewrite Hf1'|].
    destruct (IH _ _ _ _ _ _ _ _ _ _ Hm1 Hnd1 Hp1 Hq1 Hd1 Hk') as (r & h' & lm' & E & Hr & Hnd' & Hf).
    exists r, h', lm'. rewrite cons_middle, app_assoc. split_and!; [done|done|done|].
    intros l [n Hl] Hn. rewrite Hf; [by apply Hf1'| |].
    - rewrite Hf1' by done. by exists n.
    - intros [?|E'%list_elem_of_singleton]%elem_of_app; [done|congruence]. }
  destruct xs as [|x xs], ys as [|y ys]; cbn [merge_loop length] in *.
  - apply lseg_nil in Hp as [-> ->], Hq as [-> ->]. exists merged, h, lm. rewrite app_nil_r. done.
  - apply lseg_nil in Hp as [-> ->]. apply lseg_cons in Hq as (l & ks' & q' & -> & -> & Hl & Hq).
    assert (Hn : l ∉ lm) by (intros Hi; destruct (Hd l Hi); set_solver).
    destruct (Hstep y None [] [] q' ys ks') as (m1 & h1 & E1 & Hf1 & r & h' & lm' & E & Hr);
      [done|done|intros i Hi; destruct (Hd i Hi); set_solver|cbn; lia|]. rewrite merge_nil_l in Hr.
    rewrite (bind_ok _ _ _ _ _ (node_ok _ _ _ Hl)), (bind_ok _ _ _ _ _ E1), (bind_ok _ _ _ _ _ (Hf1 _ _ Hl Hn)).
    by exists r, h', lm'.
  - apply lseg_nil in Hq as [-> ->]. apply lseg_cons in Hp as (l & ls' & p' & -> & -> & Hl & Hp).
    assert (Hn : l ∉ lm) by (intros Hi; destruct (Hd l Hi); set_solver).
    destruct (Hstep x p' xs ls' None [] []) as (m1 & h1 & E1 & Hf1 & r & h' & lm' & E & Hr);
      [done|done|intros i Hi; destruct (Hd i Hi); set_solver|cbn; lia|]. rewrite merge_nil_r in Hr.
    rewrite (bind_ok _ _ _ _ _ (node_ok _ _ _ Hl)), (bind_ok _ _ _ _ _ E1), (bind_ok _ _ _ _ _ (Hf1 _ _ Hl Hn)).
    by exists r, h', lm'.
  - pose proof Hp as Hp0. pose proof Hq as Hq0.
    apply lseg_cons in Hp as (l & ls' & p' & -> & -> & Hl & Hp), Hq as (l' & ks' & q' & -> & -> & Hl' & Hq).
    assert (Hn : l ∉ lm /\ l' ∉ lm) by (split; intros Hi; destruct (Hd _ Hi); set_solver). destruct Hn as [Hn Hn'].
    rewrite (bind_ok _ _ _ _ _ (node_ok _ _ _ Hl)), (bind_ok _ _ _ _ _ (node_ok _ _ _ Hl')), merge_cons. cbn [data].
    destruct (x <=? y).
    + destruct (Hstep x p' xs ls' (Some l') (y :: ys) (l' :: ks')) as (m1 & h1 & E1 & Hf1 & r & h' & lm' & E & Hr);
        [done|done|intros i Hi; destruct (Hd i Hi); set_solver|cbn; lia|].
      rewrite (bind_ok _ _ _ _ _ E1), (bind_ok _ _ _ _ _ (Hf1 _ _ Hl Hn)). by exists r, h', lm'.
    + destruct (Hstep y (Some l) (x :: xs) (l :: ls') q' ys ks') as (m1 & h1 & E1 & Hf1 & r & h' & lm' & E & Hr);
        [done|done|intros i Hi; destruct (Hd i Hi); set_solver|cbn; lia|].
      rewrite (bind_ok _ _ _ _ _ E1), (bind_ok _ _ _ _ _ (Hf1 _ _ Hl' Hn')). by exists r, h', lm'.
Qed.

Lemma mergeLists_ok h p xs ls q ys ks :
  lseg h p xs ls -> NoDup ls -> lseg h q ys ks -> NoDup ks ->
  exists r h' lm, mergeLists p q h = Ok r h' /\ lseg h' r (merge xs ys) lm /\ NoDup lm /\
    lseg h' p xs ls /\ lseg h' q ys ks.
Proof.
  intros Hp Hnp Hq Hnq. pose proof (lseg_length _ _ _ _ Hp Hnp). pose proof (lseg_length _ _ _ _ Hq Hnq).
  destruct xs as [|x xs].
  { apply lseg_nil in Hp as [-> ->]. exists q, h, ks. rewrite merge_nil_l. destruct q; done. }
  destruct ys as [|y ys].
  { pose proof Hp as Hp0. apply lseg_cons in Hp0 as (l & ls' & p' & -> & -> & _). apply lseg_nil in Hq as [-> ->].
    by exists (Some l), h, (l :: ls'). }
  pose proof Hp as Hp0. pose proof Hq as Hq0.
  apply lseg_cons in Hp0 as (l & ls' & p' & -> & -> & _), Hq0 as (l' & ks' & q' & -> & -> & _).
  unfold mergeLists, get. munfold.
  destruct (merge_loop_ok (S (size h + size h)) h None [] [] (Some l) (x :: xs) (l :: ls') (Some l') (y :: ys) (l' :: ks'))
    as (r & h' & lm & E & Hr & Hnd & Hf); try done; [apply NoDup_nil_2|by intros i ?%elem_of_nil|lia|].
  exists r, h', lm. split_and!; [exact E|done|done| |]; eapply lseg_frame; try done.
  - intros i Hi. apply Hf; [exact (lseg_in _ _ _ _ _ Hp Hi)|by intros ?%elem_of_nil].
  - intros i Hi. apply Hf; [exact (lseg_in _ _ _ _ _ Hq Hi)|by intros ?%elem_of_nil].
Qed.

Lemma merge_perm xs ys : merge xs ys ≡ₚ xs ++ ys.
Proof.
  revert ys. induction xs as [|x xs IHx]; intros ys; [by rewrite merge_nil_l|].
  induction ys as [|y ys IHy]; [by rewrite merge_nil_r, app_nil_r|]. rewrite merge_cons.
  destruct (x <=? y); [by constructor|]. rewrite IHy. apply Permutation_middle.
Qed.

Lemma merge_sorted xs ys : StronglySorted Z.le xs -> StronglySorted Z.le ys -> StronglySorted Z.le (merge xs ys).
Proof.
  revert ys. induction xs as [|x xs IHx]; intros ys Hx Hy; [by rewrite merge_nil_l|].
  induction ys as [|y ys IHy]; [by rewrite merge_nil_r|]. rewrite merge_cons.
  apply StronglySorted_inv in Hx as Hx', Hy as Hy'. destruct Hx' as [Hx1 Hx2], Hy' as [Hy1 Hy2].
  rewrite Forall_forall in Hx2, Hy2. destruct (Z.leb_spec x y).
  - constructor; [by apply IHx|]. apply Forall_forall. intros z. rewrite merge_perm, elem_of_app, elem_of_cons.
    intros [Hz|[->|Hz]]; [by apply Hx2|done|]. specialize (Hy2 z Hz). lia.
  - constructor; [by apply IHy|]. apply Forall_forall. intros z. rewrite merge_perm, elem_of_app, elem_of_cons.
    intros [[->|Hz]|Hz]; [lia| |by apply Hy2]. specialize (Hx2 z Hz). lia.
Qed.

Lemma print_loop_ok h k p x xs ls :
  lseg h p (x :: xs) ls -> (length xs < k)%nat -> print_loop k p h = Ok (printed (x :: xs)) h.
Proof.
  revert p x ls k. induction xs as [|y xs IH]; intros p x ls k Hp Hk; (destruct k as [|k]; [lia|]);
    apply lseg_cons in Hp as (l & ls' & q & -> & -> & Hl & Hq); cbn [print_loop];
    rewrite (bind_ok _ _ _ _ _ (node_ok _ _ _ Hl)); cbn [next data].
  - by apply lseg_nil in Hq as [-> ->].
  - pose proof Hq as Hq0. apply lseg_cons in Hq0 as (l' & ks & q' & -> & -> & _).
    cbn in Hk. rewrite (bind_ok _ _ _ _ _ (IH _ _ _ k Hq ltac:(lia))). done.
Qed.

Lemma printList_ok h p xs ls : lseg h p xs ls -> NoDup ls -> printList p h = Ok (printed xs) h.
Proof.
  intros Hp Hnd. pose proof (lseg_length _ _ _ _ Hp Hnd) as Hlen. destruct xs as [|x xs].
  - by apply lseg_nil in Hp as [-> ->].
  - pose proof Hp as Hp0. apply lseg_cons in Hp0 as (l & ls' & q & -> & -> & _).
    unfold printList, get. munfold. by eapply print_loop_ok.
Qed.

Lemma read_first_ok args rest h l xs ls :
  Forall (fun a => is_comma a = false) args -> lseg h l xs ls -> NoDup ls ->
  exists l' h' ls', read_first (args ++ [44] :: rest) l h = Ok (Some (l', rest)) h' /\
    lseg h' l' (xs ++ (atoi <$> args)) ls' /\ NoDup ls'.
Proof.
  intros Hc. revert h l xs ls. induction Hc as [|a args Ha Hc IH]; intros h l xs ls Hl Hnd; cbn [app read_first].
  - exists l, h, ls. by rewrite app_nil_r.
  - rewrite Ha. destruct (listInsertTail_ok h l xs ls (atoi a) Hl Hnd) as (l1 & h1 & new & E & _ & Hl1 & Hnd1 & _).
    rewrite (bind_ok _ _ _ _ _ E). destruct (IH _ _ _ _ Hl1 Hnd1) as (l' & h' & ls' & E' & Hl' & Hnd').
    exists l', h', ls'. rewrite <- app_assoc in Hl'. done.
Qed.

Lemma read_first_none args h l xs ls :
  Forall (fun a => is_comma a = false) args -> lseg h l xs ls -> NoDup ls ->
  exists h', read_first args l h = Ok None h'.
Proof.
  intros Hc. revert h l xs ls. induction Hc as [|a args Ha Hc IH]; intros h l xs ls Hl Hnd; cbn [read_first]; [by exists h|].
  rewrite Ha. destruct (listInsertTail_ok h l xs ls (atoi a) Hl Hnd) as (l1 & h1 & new & E & _ & Hl1 & Hnd1 & _).
  rewrite (bind_ok _ _ _ _ _ E). by eapply IH.
Qed.

Lemma read_second_ok args h l xs ls p zs ms :
  lseg h l xs ls -> NoDup ls -> lseg h p zs ms -> (forall i, i ∈ ls -> i ∉ ms) ->
  exists l' h' ls', read_second args l h = Ok l' h' /\
    lseg h' l' (xs ++ (atoi <$> args)) ls' /\ NoDup ls' /\ lseg h' p zs ms.
Proof.
  revert h l xs ls. induction args as [|a args IH]; intros h l xs ls Hl Hnd Hp Hd; cbn [read_second].
  - exists l, h, ls. by rewrite app_nil_r.
  - destruct (insert_step h l xs ls (atoi a) p zs ms p zs ms) as
      (l1 & h1 & new & E & _ & Hl1 & Hnd1 & Hp1 & _ & Hd1 & _); try done; [intros i Hi; split; by apply Hd|].
    rewrite (bind_ok _ _ _ _ _ E).
    destruct (IH h1 l1 _ _ Hl1 Hnd1 Hp1 ltac:(intros i Hi; by apply Hd1)) as (l' & h' & ls' & E' & Hl' & Hnd' & Hp').
    exists l', h', ls'. rewrite <- app_assoc in Hl'. done.
Qed.

(** The program merges its two lists.  With a comma among the arguments it
    prints the second list, the first list and the numbers of both merged,
    in ascending order if both lists were; without one it reports an
    error.  It always ends, and never follows a null or dangling pointer. *)
Theorem main_prints_merge args :
  (forall as_ bs, args = as_ ++ [44] :: bs -> Forall (fun a => is_comma a = false) as_ ->
    exists zs h', main args ∅ = Ok (Some (printed (atoi <$> bs) ++ printed (atoi <$> as_) ++ printed zs)) h' /\
      zs ≡ₚ (atoi <$> as_) ++ (atoi <$> bs) /\
      (StronglySorted Z.le (atoi <$> as_) -> StronglySorted Z.le (atoi <$> bs) -> StronglySorted Z.le zs)) /\
  (Forall (fun a => is_comma a = false) args -> exists h', main args ∅ = Ok None h').
Proof.
  split.
  - intros as_ bs -> Hc. unfold main.
    destruct (read_first_ok as_ bs ∅ None [] [] Hc) as (l1 & h1 & ls1 & E1 & Hl1 & Hnd1); [done|apply NoDup_nil_2|].
    rewrite (bind_ok _ _ _ _ _ E1).
    destruct (read_second_ok bs h1 None [] [] l1 (atoi <$> as_) ls1) as (l2 & h2 & ls2 & E2 & Hl2 & Hnd2 & Hl1');
      [done|apply NoDup_nil_2|done|by intros i ?%elem_of_nil|].
    rewrite (bind_ok _ _ _ _ _ E2). cbn [app] in Hl1', Hl2.
    destruct (mergeLists_ok _ _ _ _ _ _ _ Hl1' Hnd1 Hl2 Hnd2) as (l3 & h3 & ls3 & E3 & Hl3 & Hnd3 & Hl1'' & Hl2').
    rewrite (bind_ok _ _ _ _ _ E3), (bind_ok _ _ _ _ _ (printList_ok _ _ _ _ Hl2' Hnd2)),
      (bind_ok _ _ _ _ _ (printList_ok _ _ _ _ Hl1'' Hnd1)), (bind_ok _ _ _ _ _ (printList_ok _ _ _ _ Hl3 Hnd3)).
    exists (merge (atoi <$> as_) (atoi <$> bs)), h3. split_and!; [done|apply merge_perm|apply merge_sorted].
  - intros Hc. unfold main. destruct (read_first_none args ∅ None [] [] Hc) as (h' & E); [done|apply NoDup_nil_2|].
    exists h'. by rewrite (bind_ok _ _ _ _ _ E).
Qed.
End program.

(** An allocator that takes the first address not in use, and numbers of one
    digit. *)
Definition sample_malloc (h : nodes) : loc := fresh (dom h : gset loc).
Definition sample_atoi (a : list Z) : Z := match a with [c] => c - 48 | _ => 0 end.

Lemma sample_malloc_fresh h : h !! sample_malloc h = None.
Proof. apply not_elem_of_dom. exact (is_fresh (dom h : gset loc)). Qed.

Lemma main_prints_merge_witness :
  exists zs h', main sample_malloc sample_atoi [[49]; [53]; [44]; [50]; [55]] ∅
      = Ok (Some ([Arrow 2; Last 7] ++ [Arrow 1; Last 5] ++ printed zs)) h' /\ StronglySorted Z.le zs.
Proof.
  destruct (proj1 (main_prints_merge sample_malloc sample_atoi sample_malloc_fresh [[49]; [53]; [44]; [50]; [55]])
    [[49]; [53]] [[50]; [55]]) as (zs & h' & E & _ & Hs).
  - reflexivity.
  - repeat constructor.
  - exists zs, h'. split; [exact E|]. apply Hs; repeat constructor; cbn; lia.
Defined.
