(* ===== verification/Tail.v ===== *)
(** * tail (HW1/tail.c)

    The function [tail] on the bytes of its input, with the copy it makes in
    the file [destroy] and reads back; that file is taken to be new.  The
    local [startLine] is used before it is set: its first value is an argument
    [start0] of the model.  The line buffer is a function from indices with a
    capacity; an access outside has no meaning in C.  [malloc] is taken to
    succeed, and counts not to overflow an [int]. *)

From stdpp Require Import base numbers list strings.
From Stdlib Require Import ZArith Lia.
From S2P Require Import Prelude.

Open Scope Z_scope.

Definition newline : Z := 10.
Definition BUFSZ : nat := 512.

Record tstate := MkTail {
  thisC : Z;            (** 1 for [-c +n], 2 for [-c n], 0 for lines *)
  charcount : Z;
  lesser : Z;           (** lines still to come *)
  startLine : Z;        (** where the next byte of the line goes *)
  doubler : Z;          (** capacity of the line buffer *)
  eachLine : Z -> Z;
  written : list Z;     (** output so far *)
}.

Definition set_mode (v : Z) (t : tstate) := MkTail v (charcount t) (lesser t) (startLine t) (doubler t) (eachLine t) (written t).
Definition set_charcount (v : Z) (t : tstate) := MkTail (thisC t) v (lesser t) (startLine t) (doubler t) (eachLine t) (written t).
Definition set_lesser (v : Z) (t : tstate) := MkTail (thisC t) (charcount t) v (startLine t) (doubler t) (eachLine t) (written t).
Definition set_line (s d : Z) (l : Z -> Z) (t : tstate) := MkTail (thisC t) (charcount t) (lesser t) s d l (written t).
Definition put (bs : list Z) (t : tstate) := MkTail (thisC t) (charcount t) (lesser t) (startLine t) (doubler t) (eachLine t) (written t ++ bs).

Section tail.
(** What is in memory that has not been written. *)
Context (garbage : Z -> Z).

(** A new buffer of twice the size with the old bytes. *)
Definition doubleSize (source : Z -> Z) (originalLength : Z) : Z -> Z :=
  fun i => if (0 <=? i) && (i <? originalLength) then source i else garbage i.

(** The bytes [write(1, eachLine, startLine)] sends. *)
Definition line_bytes (t : tstate) : list Z := eachLine t <$> seqZ 0 (startLine t).

(** A byte of a line that is printed. *)
Definition print_char (c : Z) : M tstate unit :=
  t ← get;
  if c =? newline then
    if (startLine t <? 0) || (doubler t <? startLine t) then undef "write outside the buffer" else
    modify (put (line_bytes t));;
    modify (put [newline]);;
    modify (set_line 0 512 garbage)
  else
    when (startLine t =? doubler t)
      (modify (fun t => set_line (startLine t) (doubler t * 2) (doubleSize (eachLine t) (doubler t)) t));;
    t ← get;
    if (startLine t <? 0) || (doubler t <=? startLine t) then undef "store outside the buffer" else
    modify (set_line (startLine t + 1) (doubler t) (upd (eachLine t) (startLine t) c)).

(** The body of the second loop. *)
Definition tail_char (offset linenumreplace c : Z) : M tstate unit :=
  t ← get;
  when (thisC t =? 2)
    (if offset <? charcount t then modify (set_charcount (charcount t - 1))
     else when (charcount t =? offset) (modify (set_mode 0)));;
  t ← get;
  if negb (thisC t =? 2) && (linenumreplace <? lesser t) then
    when (c =? newline) (modify (set_lesser (lesser t - 1)))
  else when (negb (thisC t =? 2) && (lesser t <=? linenumreplace)) (print_char c).

Fixpoint tail_chars (offset linenumreplace : Z) (cs : list Z) : M tstate unit :=
  match cs with
  | [] => mret tt
  | c :: cs => tail_char offset linenumreplace c;; tail_chars offset linenumreplace cs
  end.

(** A file read to its end, a buffer at a time. *)
Fixpoint read_loop {S} (k : nat) (body : list Z -> M S unit) (file : list Z) : M S unit :=
  match k with
  | O => diverge
  | Datatypes.S k' =>
      match take BUFSZ file with
      | [] => mret tt
      | chunk => body chunk;; read_loop k' body (drop BUFSZ file)
      end
  end.

(** The first loop: newlines and bytes counted, everything copied. *)
Record counts := MkCounts { c_lesser : Z; c_chars : Z; c_copy : list Z }.

Definition count_chunk (chunk : list Z) : M counts unit :=
  modify (fun s => MkCounts
    (foldl (fun n c => if c =? newline then n + 1 else n) (c_lesser s) chunk)
    (foldl (fun n _ => n + 1) (c_chars s) chunk)
    (c_copy s ++ chunk)).

(** The output of [tail(fd, name, linenumber, offset, whichC)] on [input]. *)
Definition tail (start0 : Z) (input : list Z) (linenumber offset whichC : Z) : outcome tstate unit :=
  match read_loop (S (length input)) count_chunk input (MkCounts 0 0 []) with
  | Ok _ s =>
      let replace :=
        if negb (whichC =? 1) && negb (whichC =? 2) then
          if negb (offset =? 0) then c_lesser s - offset else linenumber
        else c_lesser s in
      let body := read_loop (S (length input)) (tail_chars offset replace) in
      let t := MkTail whichC (c_chars s) (c_lesser s) start0 512 garbage [] in
      if whichC =? 1 then
        if Z.of_nat BUFSZ <? Z.min offset (Z.of_nat (length input)) then Undef "read past buf2"
        else body (drop (Z.to_nat offset) (c_copy s)) t
      else body (c_copy s) t
  | Panic m => Panic m | Undef u => Undef u | _ => Diverge
  end.

End tail.

(** ** The command line *)

Inductive action :=
| Run (file : option (list Z)) (linenumber offset whichC : Z)
| Message (msg : string).

(** [atoi] of ulib.c on the bytes of a string. *)
Fixpoint atoi_from (n : Z) (s : list Z) : Z :=
  match s with
  | c :: s' => if (48 <=? c) && (c <=? 57) then atoi_from (s32 (s32 (s32 (n * 10) + c) - 48)) s' else n
  | [] => n
  end.

Definition bad_number : string := "tail: Either you put a bad number, or you put in 0, and then whats the point then?".

Definition byte_at (s : list Z) (i : nat) : Z := default 0 (s !! i).

(** [main] on [argv[1..]], up to the call of [tail]. *)
Definition main (can_open : list Z -> bool) (args : list (list Z)) : action :=
  match args with
  | [] => Run None 10 0 0
  | [f] => if can_open f then Run (Some f) 10 0 0 else Message "tail: cannot open"
  | [opt; num; f] =>
      if negb (can_open f) then Message "tail: cannot open" else
      if byte_at opt 0 =? 45 then
        let plus := byte_at num 0 =? 43 in
        let val := if plus then atoi_from 0 (drop 1 num) else atoi_from 0 num in
        if byte_at opt 1 =? 110 then
          if val =? 0 then Message bad_number
          else if plus then Run (Some f) 0 (val - 1) 0 else Run (Some f) val 0 0
        else if byte_at opt 1 =? 99 then
          if val =? 0 then Message bad_number
          else if plus then Run (Some f) 0 (val - 1) 1 else Run (Some f) 0 val 2
        else Message "tail:  not valid command"
      else Message "tail: I can't work with the amount of inputs you gave :("
  | _ => Message "tail: INput INvalid IMbecile"
  end.

(** ** What is printed *)

(** The lines of [cs] that end in a newline, after [cur]. *)
Fixpoint whole_lines (cur cs : list Z) : list Z :=
  match cs with
  | [] => []
  | c :: cs' => if c =? newline then cur ++ [newline] ++ whole_lines [] cs' else whole_lines (cur ++ [c]) cs'
  end.

(** [cs] after its first [k] lines. *)
Fixpoint drop_lines (k : nat) (cs : list Z) : list Z :=
  match k, cs with
  | O, _ => cs
  | S _, [] => []
  | S k', c :: cs' => if c =? newline then drop_lines k' cs' else drop_lines k cs'
  end.

Lemma drop_lines_0 cs : drop_lines 0 cs = cs.
Proof. by destruct cs. Qed.

Definition count_lines (cs : list Z) : nat := length (filter (fun c => c = newline) cs).

Section output.
Context (garbage : Z -> Z).

(** The line read so far is in the buffer. *)
Record holding (cur : list Z) (t : tstate) : Prop := {
  ho_start : startLine t = Z.of_nat (length cur);
  ho_room : Z.of_nat (length cur) <= doubler t;
  ho_size : 0 < doubler t;
  ho_bytes : forall i x, cur !! i = Some x -> eachLine t (Z.of_nat i) = x;
}.

Lemma line_bytes_ok cur t : holding cur t -> line_bytes t = cur.
Proof.
  intros [Hs _ _ Hb]. unfold line_bytes. rewrite Hs. apply list_eq. intros i.
  rewrite list_lookup_fmap. destruct (cur !! i) as [x|] eqn:E.
  - pose proof (lookup_lt_Some _ _ _ E). rewrite (proj2 (lookup_seqZ _ _ i (Z.of_nat i))) by lia.
    cbn. by rewrite (Hb i x).
  - apply lookup_ge_None in E. by rewrite lookup_seqZ_ge by lia.
Qed.

Lemma holding_new t : holding [] (set_line 0 512 garbage t).
Proof. split; cbn; try lia. done. Qed.

Lemma holding_same cur t t' :
  holding cur t -> startLine t' = startLine t -> doubler t' = doubler t -> eachLine t' = eachLine t -> holding cur t'.
Proof. intros [H1 H2 H3 H4] E1 E2 E3. split; rewrite ?E1, ?E2, ?E3; done. Qed.

(** One byte of a line that is printed. *)
Lemma print_char_ok cur c t :
  holding cur t ->
  exists t', print_char garbage c t = Ok tt t' /\ thisC t' = thisC t /\ lesser t' = lesser t /\
    written t' = written t ++ (if c =? newline then cur ++ [newline] else []) /\
    holding (if c =? newline then [] else cur ++ [c]) t'.
Proof.
  intros H. pose proof (line_bytes_ok _ _ H) as Hl. destruct H as [Hs Hr Hd Hb].
  unfold print_char, get. do 2 munfold. destruct (c =? newline).
  - assert ((startLine t <? 0) || (doubler t <? startLine t) = false) as -> by lia.
    eexists. split; [done|]. cbn. rewrite Hl, <- app_assoc. split_and!; [done|done|done|apply holding_new].
  - destruct (Z.eqb_spec (startLine t) (doubler t)) as [E|E]; cbn [startLine doubler eachLine set_line].
    + assert ((startLine t <? 0) || (doubler t * 2 <=? startLine t) = false) as -> by lia.
      eexists. split; [done|]. cbn. rewrite app_nil_r. split_and!; [done|done|done|].
      split; cbn; rewrite ?length_app; cbn; [lia|lia|lia|].
      intros i x [Hi|[Hi Hx]]%lookup_app_Some.
      * pose proof (lookup_lt_Some _ _ _ Hi). rewrite upd_ne by lia. unfold doubleSize.
        assert ((0 <=? Z.of_nat i) && (Z.of_nat i <? doubler t) = true) as -> by lia. by apply Hb.
      * apply list_lookup_singleton_Some in Hx as [Hx ->].
        replace (Z.of_nat i) with (startLine t) by lia. apply upd_eq.
    + assert ((startLine t <? 0) || (doubler t <=? startLine t) = false) as -> by lia.
      eexists. split; [done|]. cbn. rewrite app_nil_r. split_and!; [done|done|done|].
      split; cbn; rewrite ?length_app; cbn; [lia|lia|lia|].
      intros i x [Hi|[Hi Hx]]%lookup_app_Some.
      * pose proof (lookup_lt_Some _ _ _ Hi). rewrite upd_ne by lia. by apply Hb.
      * apply list_lookup_singleton_Some in Hx as [Hx ->].
        replace (Z.of_nat i) with (startLine t) by lia. apply upd_eq.
Qed.

Lemma tail_chars_print o r cs cur t :
  holding cur t -> thisC t <> 2 -> lesser t <= r ->
  exists t', tail_chars garbage o r cs t = Ok tt t' /\ written t' = written t ++ whole_lines cur cs.
Proof.
  revert cur t. induction cs as [|c cs IH]; intros cur t H Hc Hl; cbn [tail_chars whole_lines].
  - exists t. by rewrite app_nil_r.
  - destruct (print_char_ok _ c _ H) as (t1 & E1 & Ec & El & Ew & H1).
    assert (Es : tail_char garbage o r c t = Ok tt t1).
    { unfold tail_char, get. do 2 munfold. rewrite (proj2 (Z.eqb_neq _ _) Hc). cbn [negb andb].
      rewrite (proj2 (Z.ltb_ge _ _) Hl), (proj2 (Z.eqb_neq _ _) Hc). cbn [negb andb].
      by rewrite (proj2 (Z.leb_le _ _) Hl). }
    rewrite (bind_ok _ _ _ _ _ Es).
    destruct (IH _ _ H1 ltac:(by rewrite Ec) ltac:(by rewrite El)) as (t' & E' & Ew').
    exists t'. split; [done|]. rewrite Ew', Ew. destruct (c =? newline); rewrite <- ?app_assoc; done.
Qed.

Lemma tail_chars_skip o r k cs cur t :
  holding cur t -> thisC t <> 2 -> lesser t = r + Z.of_nat k ->
  exists t', tail_chars garbage o r cs t = Ok tt t' /\ written t' = written t ++ whole_lines cur (drop_lines k cs).
Proof.
  revert k t. induction cs as [|c cs IH]; intros k t H Hc Hl.
  { exists t. split; [done|]. destruct k; cbn; by rewrite app_nil_r. }
  destruct k as [|k]; [apply tail_chars_print; [done|done|lia]|]. cbn [drop_lines tail_chars].
  assert (Es : tail_char garbage o r c t = Ok tt (if c =? newline then set_lesser (lesser t - 1) t else t)).
  { unfold tail_char, get. do 2 munfold. rewrite (proj2 (Z.eqb_neq _ _) Hc). cbn [negb andb].
    rewrite (proj2 (Z.ltb_lt r (lesser t))), (proj2 (Z.eqb_neq _ _) Hc) by lia. cbn [negb andb].
    by destruct (c =? newline). }
  rewrite (bind_ok _ _ _ _ _ Es). destruct (c =? newline).
  - destruct (IH k (set_lesser (lesser t - 1) t)) as (t' & E' & Ew'); [by eapply holding_same|done|cbn; lia|].
    exists t'. done.
  - destruct (IH (S k) t) as (t' & E' & Ew'); [done|done|lia|]. by exists t'.
Qed.

(** Bytes before the last [o]. *)
Lemma tail_chars_bytes o r cs t :
  holding [] t -> thisC t = 2 -> lesser t <= r -> o <= charcount t ->
  exists t', tail_chars garbage o r cs t = Ok tt t' /\
    written t' = written t ++ whole_lines [] (drop (Z.to_nat (charcount t - o)) cs).
Proof.
  revert t. induction cs as [|c cs IH]; intros t H Hc Hl Ho.
  { exists t. split; [done|]. rewrite drop_nil. cbn. by rewrite app_nil_r. }
  destruct (decide (o < charcount t)) as [Hlt|Hge].
  - cbn [tail_chars]. assert (Es : tail_char garbage o r c t = Ok tt (set_charcount (charcount t - 1) t)).
    { unfold tail_char, get. do 2 munfold. rewrite Hc. cbn [Z.eqb Pos.eqb].
      rewrite (proj2 (Z.ltb_lt _ _) Hlt). cbn. by rewrite Hc. }
    rewrite (bind_ok _ _ _ _ _ Es).
    destruct (IH (set_charcount (charcount t - 1) t)) as (t' & E' & Ew'); [by eapply holding_same|done|done|cbn; lia|].
    exists t'. split; [done|]. rewrite Ew'. cbn [charcount set_charcount written].
    replace (Z.to_nat (charcount t - o)) with (S (Z.to_nat (charcount t - 1 - o))) by lia. done.
  - replace (Z.to_nat (charcount t - o)) with 0%nat by lia. rewrite drop_0.
    assert (Es : tail_chars garbage o r (c :: cs) t = tail_chars garbage o r (c :: cs) (set_mode 0 t)).
    { cbn [tail_chars]. unfold tail_char, get. do 2 munfold. rewrite Hc. cbn [Z.eqb Pos.eqb thisC set_mode charcount lesser].
      rewrite (proj2 (Z.ltb_ge _ _)) by lia. by rewrite (proj2 (Z.eqb_eq (charcount t) o)) by lia. }
    rewrite Es. change (written t) with (written (set_mode 0 t)). apply tail_chars_print; [by eapply holding_same|done|done].
Qed.

(** Fewer bytes than asked for: nothing is printed. *)
Lemma tail_chars_short o r cs t :
  thisC t = 2 -> charcount t < o -> tail_chars garbage o r cs t = Ok tt t.
Proof.
  intros Hc Ho. induction cs as [|c cs IH]; [done|]. cbn [tail_chars].
  assert (Es : tail_char garbage o r c t = Ok tt t).
  { unfold tail_char, get. do 2 munfold. rewrite Hc. cbn [Z.eqb Pos.eqb].
    rewrite (proj2 (Z.ltb_ge _ _)), (proj2 (Z.eqb_neq (charcount t) o)) by lia. by rewrite Hc. }
  by rewrite (bind_ok _ _ _ _ _ Es).
Qed.

Lemma tail_chars_app o r a b t :
  tail_chars garbage o r (a ++ b) t = (tail_chars garbage o r a;; tail_chars garbage o r b) t.
Proof.
  revert t. induction a as [|c a IH]; intros t; cbn [app tail_chars]; [done|].
  rewrite bind_assoc. destruct (tail_char garbage o r c t) as [[] t'|?|? ?|?|] eqn:E;
    unfold mbind, M_bind; by rewrite ?E.
Qed.
End output.

(** Reading by buffers is reading at once. *)
Lemma read_loop_ok {S} (body : list Z -> M S unit) k file s :
  (forall s, body [] s = Ok tt s) -> (forall a b s, body (a ++ b) s = (body a;; body b) s) ->
  (length file < k)%nat -> read_loop k body file s = body file s.
Proof.
  intros H0 Happ. revert file s. induction k as [|k IH]; intros file s Hk; [lia|]. cbn [read_loop].
  destruct (take BUFSZ file) as [|c chunk] eqn:E.
  - destruct file; [by rewrite H0|done].
  - replace (body file s) with (body ((c :: chunk) ++ drop BUFSZ file) s) by (by rewrite <- E, take_drop).
    rewrite Happ. unfold mbind, M_bind.
    destruct (body (c :: chunk) s); try done. apply IH.
    assert (file <> []) by (by intros ->). rewrite length_drop. destruct file; [done|cbn in *; unfold BUFSZ; lia].
Qed.

Lemma count_chunk_all file :
  count_chunk file (MkCounts 0 0 []) = Ok tt (MkCounts (Z.of_nat (count_lines file)) (Z.of_nat (length file)) file).
Proof.
  unfold count_chunk, modify. do 2 f_equal; cbn [c_lesser c_chars].
  - enough (H : forall n, foldl (fun n c => if c =? newline then n + 1 else n) n file = n + Z.of_nat (count_lines file))
      by (rewrite H; lia).
    unfold count_lines. induction file as [|c file IH]; intros n; cbn [foldl]; [cbn; lia|].
    rewrite IH, filter_cons. destruct (Z.eqb_spec c newline), (decide (c = newline)); cbn; try done; lia.
  - enough (H : forall n, foldl (fun n (_ : Z) => n + 1) n file = n + Z.of_nat (length file)) by (rewrite H; lia).
    induction file as [|c file IH]; intros n; cbn [foldl length]; [lia|]. rewrite IH. lia.
Qed.

(** The call after its first loop. *)
Lemma tail_second garbage start0 input k o w :
  tail garbage start0 input k o w =
    let lines := Z.of_nat (count_lines input) in
    let replace := if negb (w =? 1) && negb (w =? 2) then (if negb (o =? 0) then lines - o else k) else lines in
    let t := MkTail w (Z.of_nat (length input)) lines start0 512 garbage [] in
    if w =? 1 then
      if Z.of_nat BUFSZ <? Z.min o (Z.of_nat (length input)) then Undef "read past buf2"
      else tail_chars garbage o replace (drop (Z.to_nat o) input) t
    else tail_chars garbage o replace input t.
Proof.
  unfold tail. rewrite read_loop_ok, count_chunk_all;
    [|intros [l c f]; unfold count_chunk, modify; cbn; by rewrite app_nil_r| |lia].
  - cbn [c_lesser c_chars c_copy]. cbv zeta. destruct (w =? 1).
    + destruct (Z.of_nat BUFSZ <? _); [done|]. apply read_loop_ok; [done|apply tail_chars_app|].
      rewrite length_drop. lia.
    + apply read_loop_ok; [done|apply tail_chars_app|lia].
  - intros a b s. unfold count_chunk. munfold. cbn. by rewrite !foldl_app, app_assoc.
Qed.

(** What [tail] prints, when its uninitialised [startLine] happens to be 0:
    with a line count the last [k] lines, with a line offset all but the
    first [o] lines, with a byte offset (that fits its buffer) what follows
    the first [o] bytes, with a byte count the last [o] bytes; each time only
    up to the last newline.  No access to its buffers is out of bounds. *)
Theorem tail_prints garbage input k o :
  0 <= k -> 0 <= o ->
  (exists t, tail garbage 0 input k 0 0 = Ok tt t /\
     written t = whole_lines [] (drop_lines (count_lines input - Z.to_nat k) input)) /\
  (0 < o -> exists t, tail garbage 0 input 0 o 0 = Ok tt t /\
     written t = whole_lines [] (drop_lines (Z.to_nat o) input)) /\
  (o <= Z.of_nat BUFSZ -> exists t, tail garbage 0 input 0 o 1 = Ok tt t /\
     written t = whole_lines [] (drop (Z.to_nat o) input)) /\
  (o <= Z.of_nat (length input) -> exists t, tail garbage 0 input 0 o 2 = Ok tt t /\
     written t = whole_lines [] (drop (length input - Z.to_nat o) input)).
Proof.
  intros Hk Ho. assert (Hh : forall c n l, holding [] (MkTail c n l 0 512 garbage [])) by (intros; split; cbn; [lia|lia|lia|done]).
  split_and!; intros; rewrite tail_second; cbv zeta; cbn [negb andb Z.eqb Pos.eqb].
  - destruct (decide (Z.of_nat (count_lines input) <= k)).
    + replace (count_lines input - Z.to_nat k)%nat with 0%nat by lia. rewrite drop_lines_0.
      apply (tail_chars_print garbage _ _ input []); [done|done|cbn; lia].
    + apply (tail_chars_skip garbage _ _ (count_lines input - Z.to_nat k) input []); [done|done|cbn; lia].
  - rewrite (proj2 (Z.eqb_neq o 0)) by lia. apply (tail_chars_skip garbage _ _ (Z.to_nat o) input []); [done|done|cbn; lia].
  - rewrite (proj2 (Z.ltb_ge _ _)) by lia. apply (tail_chars_print garbage _ _ (drop (Z.to_nat o) input) []); [done|done|cbn; lia].
  - replace (length input - Z.to_nat o)%nat with (Z.to_nat (Z.of_nat (length input) - o)) by lia.
    apply (tail_chars_bytes garbage o _ input (MkTail 2 (Z.of_nat (length input)) _ 0 512 garbage [])); [done|done|cbn; lia|cbn; lia].
Qed.

Definition sample_input : list Z := cbytes "one" ++ [newline] ++ cbytes "two" ++ [newline] ++ cbytes "three" ++ [newline].

Lemma tail_prints_witness :
  exists t, tail (fun _ => 255) 0 sample_input 2 0 0 = Ok tt t /\
    written t = cbytes "two" ++ [newline] ++ cbytes "three" ++ [newline].
Proof.
  destruct (proj1 (tail_prints (fun _ => 255) sample_input 2 0 ltac:(lia) ltac:(lia))) as (t & E & Hw).
  exists t. split; [exact E|]. rewrite Hw. reflexivity.
Defined.

Lemma drop_lines_all cs : newline ∉ drop_lines (count_lines cs) cs.
Proof.
  unfold count_lines. induction cs as [|c cs IH]; [by intros ?%elem_of_nil|].
  rewrite filter_cons. destruct (decide (c = newline)) as [->|Hn]; [exact IH|].
  destruct (filter (fun c => c = newline) cs) as [|x l] eqn:E.
  - cbn in IH. rewrite drop_lines_0 in IH. cbn. intros [?|?]%elem_of_cons; congruence.
  - cbn. by rewrite (proj2 (Z.eqb_neq _ _) Hn).
Qed.

Lemma whole_lines_none cur cs : newline ∉ cs -> whole_lines cur cs = [].
Proof.
  revert cur. induction cs as [|c cs IH]; intros cur Hn; [done|]. cbn.
  rewrite (proj2 (Z.eqb_neq c newline)) by (intros ->; apply Hn; by left). apply IH. intros H. apply Hn. by right.
Qed.

(** Three command lines that go wrong.  [tail -n +1] prints nothing instead
    of the whole file, because an offset of 0 is taken for none; [tail -c n]
    prints nothing when the file has fewer than [n] bytes; [tail -c +n] with
    [n] above 513 reads past the end of its buffer on a file that is longer
    than the buffer. *)
Theorem tail_edge_cases garbage input f o :
  main (fun _ => true) [cbytes "-n"; cbytes "+1"; f] = Run (Some f) 0 0 0 /\
  (exists t, tail garbage 0 input 0 0 0 = Ok tt t /\ written t = []) /\
  (Z.of_nat (length input) < o -> exists t, tail garbage 0 input 0 o 2 = Ok tt t /\ written t = []) /\
  (Z.of_nat BUFSZ < o -> Z.of_nat BUFSZ < Z.of_nat (length input) ->
     tail garbage 0 input 0 o 1 = Undef "read past buf2").
Proof.
  split_and!; [reflexivity|..].
  - rewrite tail_second. cbv zeta. cbn [negb andb Z.eqb Pos.eqb].
    destruct (tail_chars_skip garbage 0 0 (count_lines input) input []
      (MkTail 0 (Z.of_nat (length input)) (Z.of_nat (count_lines input)) 0 512 garbage [])) as (t & E & Hw);
      [split; cbn; [lia|lia|lia|done]|done|cbn; lia|].
    exists t. split; [done|]. rewrite Hw. apply whole_lines_none, drop_lines_all.
  - intros Ho. rewrite tail_second. cbv zeta. cbn [negb andb Z.eqb Pos.eqb].
    rewrite tail_chars_short; [|done|done]. eexists. split; [done|]. done.
  - intros Ho Hl. rewrite tail_second. cbv zeta. cbn [Z.eqb Pos.eqb].
    by rewrite (proj2 (Z.ltb_lt _ _)) by lia.
Qed.

Lemma tail_edge_cases_witness :
  exists t, tail (fun _ => 255) 0 sample_input 0 100 2 = Ok tt t /\ written t = [].
Proof.
  apply (proj1 (proj2 (proj2 (tail_edge_cases (fun _ => 255) sample_input [] 100)))). vm_compute. reflexivity.
Defined.
