(* ===== verification/UserProgs.v ===== *)
(** * Small user programs (HW3/wc.c, cat.c, echo.c, ls.c)

    The programs read a file by buffers; a file is the list of its bytes, and
    [read_loop] of [Tail] gives it to a loop body a buffer at a time. *)

From stdpp Require Import base numbers list strings.
From Stdlib Require Import ZArith Lia.
From S2P Require Import Prelude Tail.

Open Scope Z_scope.

(** ** wc *)

Record wstate := MkWc { w_lines : Z; w_words : Z; w_chars : Z; inword : bool }.

(** [strchr(" \r\t\n\v", c)] as a test; ulib's [strchr] does not find NUL. *)
Definition is_space (c : Z) : bool := bool_decide (c ∈ [32; 13; 9; 10; 11]).

Definition wc_char (s : wstate) (c : Z) : wstate :=
  let l := if c =? newline then w_lines s + 1 else w_lines s in
  if is_space c then MkWc l (w_words s) (w_chars s + 1) false
  else if inword s then MkWc l (w_words s) (w_chars s + 1) true
  else MkWc l (w_words s + 1) (w_chars s + 1) true.

Definition wc (file : list Z) : outcome wstate unit :=
  read_loop (S (length file)) (fun chunk => modify (fun s => foldl wc_char s chunk)) file (MkWc 0 0 0 false).

(** The fields of a text between spaces, empty ones included. *)
Fixpoint fields (cur cs : list Z) : list (list Z) :=
  match cs with
  | [] => [cur]
  | c :: cs' => if is_space c then cur :: fields [] cs' else fields (cur ++ [c]) cs'
  end.

Definition words (cs : list Z) : list (list Z) := filter (fun w => w <> []) (fields [] cs).

Lemma wc_lines_chars cs s :
  w_lines (foldl wc_char s cs) = w_lines s + Z.of_nat (count_lines cs) /\
  w_chars (foldl wc_char s cs) = w_chars s + Z.of_nat (length cs).
Proof.
  unfold count_lines. revert s. induction cs as [|c cs IH]; intros s; [cbn; lia|]. cbn [foldl length].
  assert (w_lines (wc_char s c) = (if c =? newline then w_lines s + 1 else w_lines s) /\
    w_chars (wc_char s c) = w_chars s + 1) as [El Ec].
  { unfold wc_char. destruct (is_space c), (inword s); done. }
  destruct (IH (wc_char s c)) as [-> ->]. rewrite El, Ec, filter_cons.
  destruct (Z.eqb_spec c newline), (decide (c = newline)); cbn [length]; try done; lia.
Qed.

Definition nonempty (cur : list Z) : bool := match cur with [] => false | _ => true end.

Lemma count_nonempty w ws :
  length (filter (fun w => w <> []) (w :: ws)) =
    ((if nonempty w then 1 else 0) + length (filter (fun w => w <> []) ws))%nat.
Proof. rewrite filter_cons. destruct w as [|c w]; destruct (decide _) as [Hd|Hd]; [done|done|done|by destruct Hd]. Qed.

(** The word being read counts already. *)
Lemma wc_words cs s cur :
  inword s = nonempty cur ->
  w_words (foldl wc_char s cs) + (if nonempty cur then 1 else 0) =
    w_words s + Z.of_nat (length (filter (fun w => w <> []) (fields cur cs))).
Proof.
  revert s cur. induction cs as [|c cs IH]; intros s cur Hin; cbn [foldl fields].
  - rewrite count_nonempty. cbn. destruct (nonempty cur); lia.
  - assert (Hne : nonempty (cur ++ [c]) = true) by (by destruct cur).
    unfold wc_char at 2. rewrite Hin. destruct (is_space c).
    + rewrite count_nonempty. pose proof (IH (MkWc (if c =? newline then w_lines s + 1 else w_lines s)
        (w_words s) (w_chars s + 1) false) [] eq_refl) as I. cbn in I. destruct (nonempty cur); lia.
    + destruct (nonempty cur) eqn:E.
      * pose proof (IH (MkWc (if c =? newline then w_lines s + 1 else w_lines s)
          (w_words s) (w_chars s + 1) true) (cur ++ [c]) (eq_sym Hne)) as I. rewrite Hne in I. exact I.
      * pose proof (IH (MkWc (if c =? newline then w_lines s + 1 else w_lines s)
          (w_words s + 1) (w_chars s + 1) true) (cur ++ [c]) (eq_sym Hne)) as I. rewrite Hne in I. cbn in I. lia.
Qed.

(** wc counts what it says: the newlines, the non-empty fields between
    spaces, wherever the buffer cuts them, and the bytes. *)
Theorem wc_counts file :
  exists s, wc file = Ok tt s /\ w_lines s = Z.of_nat (count_lines file) /\
    w_words s = Z.of_nat (length (words file)) /\ w_chars s = Z.of_nat (length file).
Proof.
  unfold wc. rewrite read_loop_ok; [|done|intros a b s; munfold; by rewrite foldl_app|lia].
  eexists. split; [done|]. pose proof (wc_words file (MkWc 0 0 0 false) [] eq_refl) as Hw.
  destruct (wc_lines_chars file (MkWc 0 0 0 false)) as [Hl Hc]. cbn [w_words w_lines w_chars nonempty] in *.
  split_and!; [done| |done]. unfold words. lia.
Qed.

(** ** cat and echo: the bytes they write *)

Definition cat (file : list Z) : outcome (list Z) unit :=
  read_loop (S (length file)) (fun chunk => modify (fun out => out ++ chunk)) file [].

Lemma cat_copies file : cat file = Ok tt file.
Proof.
  unfold cat. rewrite read_loop_ok; [done| | |lia].
  - intros s. munfold. by rewrite app_nil_r.
  - intros a b s. munfold. by rewrite app_assoc.
Qed.

(** The loop of [main] over [argv[1..]]. *)
Fixpoint echo (args : list (list Z)) : list Z :=
  match args with
  | [] => []
  | a :: args' => a ++ (match args' with [] => [newline] | _ => [32] end) ++ echo args'
  end.

Lemma echo_joins a args : echo (a :: args) = a ++ concat ((fun b => 32 :: b) <$> args) ++ [newline].
Proof.
  revert a. induction args as [|b args IH]; intros a; [done|].
  change (echo (a :: b :: args)) with (a ++ [32] ++ echo (b :: args)). rewrite IH. cbn. by rewrite <- app_assoc.
Qed.

(** ** The names ls prints *)

Definition DIRSIZ : nat := 14.

(** [for(p = path + k; p >= path && *p != '/'; p--); p++] *)
Fixpoint name_start (path : list Z) (k : nat) : nat :=
  if bool_decide (path !! k = Some 47) then S k
  else match k with O => O | S k' => name_start path k' end.

Definition fmtname (path : list Z) : list Z :=
  let p := drop (name_start path (length path)) path in
  if (DIRSIZ <=? length p)%nat then p else p ++ replicate (DIRSIZ - length p) 32.

Lemma name_start_slash dir name :
  47 ∉ name -> name_start (dir ++ 47 :: name) (length (dir ++ 47 :: name)) = S (length dir).
Proof.
  intros Hn. rewrite length_app. cbn [length].
  assert (H : forall j, (j <= S (length name))%nat ->
    name_start (dir ++ 47 :: name) (length dir + j) = S (length dir)); [|apply H; lia].
  induction j as [|j IH]; intros Hj.
  - rewrite Nat.add_0_r. assert (E : (dir ++ 47 :: name) !! length dir = Some 47) by (by rewrite list_lookup_middle).
    destruct (length dir); cbn [name_start]; by rewrite bool_decide_eq_true_2.
  - rewrite Nat.add_succ_r. cbn [name_start]. rewrite bool_decide_eq_false_2; [apply IH; lia|].
    rewrite lookup_app_r by lia. replace (S (length dir + j) - length dir)%nat with (S j) by lia.
    cbn. intros E. apply Hn. by eapply list_elem_of_lookup_2.
Qed.

(** The last element of a path, padded to the width of a directory name. *)
Lemma fmtname_last dir name :
  47 ∉ name -> (length name < DIRSIZ)%nat ->
  fmtname (dir ++ 47 :: name) = name ++ replicate (DIRSIZ - length name) 32.
Proof.
  intros Hn Hl. unfold fmtname. rewrite name_start_slash by done.
  replace (S (length dir)) with (length (dir ++ [47])) by (rewrite length_app; cbn; lia).
  rewrite (cons_middle 47 dir name), app_assoc, drop_app_length.
  by rewrite (proj2 (Nat.leb_gt _ _) Hl).
Qed.
