(* ===== verification/Printf.v ===== *)
(** * Formatted output (HW3/printf.c and the printing of console.c)

    The bytes [printf] writes and [cprintf] shows.  Arguments are the words on
    the stack above the format, [args]; the C string at an address is [str]. *)

From stdpp Require Import base numbers list strings.
From Stdlib Require Import ZArith Lia.
From S2P Require Import Prelude CStrings.

Open Scope Z_scope.

(** ** Numbers *)

(** [do buf[i++] = digits[x % base]; while((x /= base) != 0)]: a 32-bit word
    has at most 32 digits. *)
Fixpoint int_digits (digits : list Z) (k : nat) (x base : Z) : list Z :=
  match k with
  | O => []
  | S k' => default 0 (digits !! Z.to_nat (x mod base)) ::
      (if x / base =? 0 then [] else int_digits digits k' (x / base) base)
  end.

(** [buf] as it is filled. *)
Definition int_buf (digits : list Z) (xx base : Z) (sgn : bool) : list Z :=
  let neg := sgn && (xx <? 0) in
  let x := u32 (if neg then - xx else xx) in
  int_digits digits 32 x base ++ (if neg then [45] else []).

(** The bytes of [buf], last first. *)
Definition printint (digits : list Z) (xx base : Z) (sgn : bool) : list Z :=
  reverse (int_buf digits xx base sgn).

Definition digits_upper : list Z := cbytes "0123456789ABCDEF".
Definition digits_lower : list Z := cbytes "0123456789abcdef".

(** The [printint] of console.c: the same steps, with its own digits. *)
Definition kprintint (xx base : Z) (sign : bool) : list Z := printint digits_lower xx base sign.

(** The number a row of digits denotes, least significant first. *)
Fixpoint value (base : Z) (ds : list Z) : Z :=
  match ds with [] => 0 | d :: ds' => d + base * value base ds' end.

Definition digit_of (digits : list Z) (c d : Z) : Prop := digits !! Z.to_nat d = Some c /\ 0 <= d.

(** What the loop leaves: the digits of [x], the last one not 0 unless it is
    the only one. *)
Lemma int_digits_ok digits k x base :
  1 < base <= Z.of_nat (length digits) -> 0 <= x < base ^ Z.of_nat k -> (0 < k)%nat ->
  exists ds, Forall2 (digit_of digits) (int_digits digits k x base) ds /\ value base ds = x /\
    Forall (fun d => 0 <= d < base) ds /\ (last ds = Some 0 -> x = 0 /\ ds = [0]).
Proof.
  intros Hb. revert x. induction k as [|k IH]; intros x Hx Hk; [lia|]. cbn [int_digits].
  pose proof (Z.mod_pos_bound x base ltac:(lia)) as Hm. pose proof (Z.div_mod x base ltac:(lia)) as Hd.
  destruct (lookup_lt_is_Some_2 digits (Z.to_nat (x mod base))) as [c Ec]; [lia|]. rewrite Ec. cbn [default].
  destruct (Z.eqb_spec (x / base) 0) as [E|E].
  - exists [x mod base]. split_and!; [|cbn; lia|by repeat constructor; lia|].
    + constructor; [split; [done|lia]|constructor].
    + cbn. intros [= E']. split; [lia|by rewrite E'].
  - assert (Hx' : 0 <= x / base < base ^ Z.of_nat k).
    { split; [apply Z.div_pos; lia|]. apply Z.div_lt_upper_bound; [lia|].
      rewrite <- Z.pow_succ_r by lia. rewrite <- Nat2Z.inj_succ. apply Hx. }
    destruct (IH (x / base) Hx') as (ds & H2 & Hv & Hr & Hl).
    { destruct k; [cbn in Hx'; lia|lia]. }
    exists (x mod base :: ds). split_and!; [|cbn; lia|by constructor|].
    + constructor; [split; [done|lia]|done].
    + destruct ds as [|d ds]; [cbn in Hv; lia|]. change (last (x mod base :: d :: ds)) with (last (d :: ds)).
      intros Hl'. apply Hl in Hl'. lia.
Qed.

Lemma int_digits_length digits k x base n :
  1 < base -> 0 <= x < base ^ Z.of_nat n -> (0 < n)%nat -> (length (int_digits digits k x base) <= n)%nat.
Proof.
  intros Hb. revert x n. induction k as [|k IH]; intros x n Hx Hn; cbn [int_digits length]; [lia|].
  destruct (Z.eqb_spec (x / base) 0) as [E|E]; [cbn; lia|].
  destruct n as [|n]; [lia|]. apply le_n_S. apply IH.
  - split; [apply Z.div_pos; lia|]. apply Z.div_lt_upper_bound; [lia|].
    rewrite <- Z.pow_succ_r by lia. rewrite <- Nat2Z.inj_succ. apply Hx.
  - destruct n; [|lia]. exfalso. apply E. apply Z.div_small. cbn in Hx. lia.
Qed.

Lemma digits_value_snoc n s c : Ulib.digits_value n (s ++ [c]) = 10 * Ulib.digits_value n s + (c - 48).
Proof. revert n. induction s as [|d s IH]; intros n; cbn [app Ulib.digits_value]; [lia|]. apply IH. Qed.

Lemma decimal_digit digits d c :
  digits = digits_upper \/ digits = digits_lower -> digit_of digits c d -> d < 10 -> c = 48 + d.
Proof.
  intros Ht [Hc Hd] H. assert (Hn : forall n, (n < 10)%nat -> digits !! n = Some c -> c = 48 + Z.of_nat n).
  { intros n Hn. do 10 (destruct n as [|n]; [destruct Ht as [->| ->]; cbn; by intros [= <-]|]). lia. }
  rewrite (Hn (Z.to_nat d)); [lia|lia|done].
Qed.

Lemma decimal_value digits cs ds :
  digits = digits_upper \/ digits = digits_lower ->
  Forall2 (digit_of digits) cs ds -> Forall (fun d => 0 <= d < 10) ds ->
  Forall (fun c => 48 <= c <= 57) (reverse cs) /\ Ulib.digits_value 0 (reverse cs) = value 10 ds.
Proof.
  intros Ht H2 Hd. induction H2 as [|c d cs ds Hc H2 IH]; [by split|].
  pose proof (Forall_inv Hd) as Hd0. apply Forall_inv_tail in Hd. cbn beta in Hd0. destruct (IH Hd) as [I1 I2].
  pose proof (decimal_digit digits d c Ht Hc ltac:(lia)) as ->. rewrite reverse_cons. split.
  - apply Forall_app. split; [done|]. repeat constructor; lia.
  - rewrite digits_value_snoc, I2. cbn [value]. lia.
Qed.

(** [%d] prints a number so that it can be read back.  For every [int] the
    text is a minus sign if it is negative and decimal digits that denote its
    absolute value, the first of them not 0 unless it is the only one; also
    for the smallest [int], whose negation overflows.  [%x] prints digits
    that denote the word in base 16.  The 16 bytes of [buf] always suffice. *)
Theorem printint_roundtrip digits xx :
  digits = digits_upper \/ digits = digits_lower -> - 2 ^ 31 <= xx < 2 ^ 31 ->
  (exists s, printint digits xx 10 true = (if xx <? 0 then [45] else []) ++ s /\
     Forall (fun c => 48 <= c <= 57) s /\ Ulib.digits_value 0 s = Z.abs xx /\
     (head s = Some 48 -> s = [48]) /\ (length (int_buf digits xx 10 true) <= 16)%nat) /\
  (exists ds, Forall2 (digit_of digits) (reverse (printint digits xx 16 false)) ds /\
     value 16 ds = u32 xx /\ (length (int_buf digits xx 16 false) <= 16)%nat).
Proof.
  intros Ht Hxx. assert (Hlen : length digits = 16%nat) by (by destruct Ht as [->| ->]).
  pose proof (u32_range xx) as Hu. split.
  - unfold printint, int_buf. cbn [andb]. set (x := u32 (if xx <? 0 then - xx else xx)).
    assert (Hx : x = Z.abs xx).
    { unfold x. destruct (Z.ltb_spec xx 0); rewrite u32_small; lia. }
    destruct (int_digits_ok digits 32 x 10) as (ds & H2 & Hv & Hr & Hl); [lia| |lia|].
    { rewrite Hx. change (10 ^ Z.of_nat 32) with 100000000000000000000000000000000. lia. }
    destruct (decimal_value digits _ ds Ht H2 Hr) as [D1 D2].
    exists (reverse (int_digits digits 32 x 10)). split_and!; [|done|by rewrite D2, Hv| |].
    + rewrite reverse_app. by destruct (xx <? 0).
    + rewrite head_reverse. intros Hh. pose proof (Forall2_last _ _ _ H2) as Hd. rewrite Hh in Hd.
      destruct (last ds) as [d|] eqn:Ed; [|by inversion Hd]. inversion Hd as [? ? Hdd|]; subst.
      assert (Hd10 : 0 <= d < 10). { rewrite Forall_forall in Hr. apply Hr. by apply last_Some_elem_of. }
      pose proof (decimal_digit digits d 48 Ht Hdd ltac:(lia)) as E. replace d with 0 in * by lia.
      destruct (Hl eq_refl) as [_ ->]. pose proof (Forall2_length _ _ _ H2) as Hlen1. change (length [0]) with 1%nat in Hlen1.
      destruct (int_digits digits 32 x 10) as [|c [|c' l]]; cbn in Hlen1; [lia| |lia].
      cbn in Hh |- *. by injection Hh as ->.
    + rewrite length_app. pose proof (int_digits_length digits 32 x 10 10 ltac:(lia)) as H10.
      change (10 ^ Z.of_nat 10) with 10000000000 in H10. specialize (H10 ltac:(lia) ltac:(lia)).
      destruct (xx <? 0); cbn [length]; lia.
  - unfold printint, int_buf. cbn [andb]. rewrite app_nil_r, reverse_involutive.
    destruct (int_digits_ok digits 32 (u32 xx) 16) as (ds & H2 & Hv & _); [lia| |lia|].
    { change (16 ^ Z.of_nat 32) with (2 ^ 128). lia. }
    exists ds. split_and!; [done|done|].
    pose proof (int_digits_length digits 32 (u32 xx) 16 8 ltac:(lia)) as H8.
    change (16 ^ Z.of_nat 8) with 4294967296 in H8. specialize (H8 ltac:(lia) ltac:(lia)). lia.
Qed.

Lemma printint_roundtrip_witness :
  exists s, printint digits_upper (- 2 ^ 31) 10 true = [45] ++ s /\ Ulib.digits_value 0 s = 2 ^ 31.
Proof.
  destruct (proj1 (printint_roundtrip digits_upper (- 2 ^ 31) (or_introl eq_refl) ltac:(lia)))
    as (s & E & _ & Hv & _).
  exists s. split; [exact E|exact Hv].
Defined.

(** ** Formats *)

Section formats.
(** The arguments after the format, and the strings in memory. *)
Context (args : nat -> Z) (str : Z -> list Z).

(** The string of [%s]. *)
Definition string_arg (s : Z) : list Z := if s =? 0 then cbytes "(null)" else str s.

(** One character after [%] in [printf]: what is written, and how many
    arguments are used. *)
Definition printf_directive (c : Z) (ap : nat) : list Z * nat :=
  if c =? 100 then (printint digits_upper (s32 (args ap)) 10 true, S ap)
  else if (c =? 120) || (c =? 112) then (printint digits_upper (s32 (args ap)) 16 false, S ap)
  else if c =? 115 then (string_arg (args ap), S ap)
  else if c =? 99 then ([u8 (args ap)], S ap)
  else if c =? 37 then ([c], ap)
  else ([37; c], ap).

(** The loop of [printf]: [state] is set after a [%]. *)
Fixpoint printf_loop (fmt : list Z) (state : bool) (ap : nat) : list Z :=
  match fmt with
  | [] => []
  | c :: fmt' =>
      if state then
        let '(out, ap) := printf_directive c ap in out ++ printf_loop fmt' false ap
      else if c =? 37 then printf_loop fmt' true ap
      else c :: printf_loop fmt' false ap
  end.

Definition printf (fmt : list Z) : list Z := printf_loop fmt false 0.

(** The switch of [cprintf]. *)
Definition cprintf_directive (c : Z) (ap : nat) : list Z * nat :=
  if c =? 100 then (kprintint (s32 (args ap)) 10 true, S ap)
  else if (c =? 120) || (c =? 112) then (kprintint (s32 (args ap)) 16 false, S ap)
  else if c =? 115 then (string_arg (args ap), S ap)
  else if c =? 37 then ([37], ap)
  else ([37; c], ap).

(** The loop of [cprintf], which reads the character after [%] at once. *)
Fixpoint cprintf_loop (fmt : list Z) (ap : nat) : list Z :=
  match fmt with
  | [] => []
  | c :: fmt' =>
      if negb (c =? 37) then c :: cprintf_loop fmt' ap
      else match fmt' with
           | [] => []
           | d :: fmt'' => let '(out, ap) := cprintf_directive d ap in out ++ cprintf_loop fmt'' ap
           end
  end.

Definition cprintf (fmt : list Z) : list Z := cprintf_loop fmt 0.

(** *** A format as text and directives *)

Inductive piece := Text (c : Z) | Directive (c : Z).

Fixpoint pieces (fmt : list Z) : list piece :=
  match fmt with
  | [] => []
  | c :: fmt' =>
      if c =? 37 then match fmt' with [] => [] | d :: fmt'' => Directive d :: pieces fmt'' end
      else Text c :: pieces fmt'
  end.

Fixpoint render (directive : Z -> nat -> list Z * nat) (ps : list piece) (ap : nat) : list Z :=
  match ps with
  | [] => []
  | Text c :: ps => c :: render directive ps ap
  | Directive c :: ps => let '(out, ap) := directive c ap in out ++ render directive ps ap
  end.

Lemma printf_renders_pieces n fmt ap :
  (length fmt < n)%nat -> printf_loop fmt false ap = render printf_directive (pieces fmt) ap.
Proof.
  revert fmt ap. induction n as [|n IH]; intros fmt ap Hn; [lia|].
  destruct fmt as [|c fmt]; [done|]. cbn in Hn |- *. destruct (c =? 37).
  - destruct fmt as [|d fmt]; [done|]. cbn in Hn |- *. destruct (printf_directive d ap) as [out ap'].
    rewrite IH by lia. done.
  - cbn. rewrite IH by lia. done.
Qed.

Lemma cprintf_renders_pieces n fmt ap :
  (length fmt < n)%nat -> cprintf_loop fmt ap = render cprintf_directive (pieces fmt) ap.
Proof.
  revert fmt ap. induction n as [|n IH]; intros fmt ap Hn; [lia|].
  destruct fmt as [|c fmt]; [done|]. cbn in Hn |- *. destruct (c =? 37); cbn [negb].
  - destruct fmt as [|d fmt]; [done|]. cbn in Hn |- *. destruct (cprintf_directive d ap) as [out ap'].
    rewrite IH by lia. done.
  - cbn. rewrite IH by lia. done.
Qed.

(** Formats both understand alike. *)
Definition common (p : piece) : Prop :=
  match p with Text _ => True | Directive c => c <> 99 /\ c <> 120 /\ c <> 112 end.

Lemma int_digits_decimal n x : int_digits digits_upper n x 10 = int_digits digits_lower n x 10.
Proof.
  revert x. induction n as [|n IH]; intros x; [done|]. cbn [int_digits]. rewrite IH. f_equal.
  pose proof (Z.mod_pos_bound x 10 ltac:(lia)) as Hm. assert (Hn : (Z.to_nat (x mod 10) < 10)%nat) by lia.
  revert Hn. generalize (Z.to_nat (x mod 10)). intros k Hk. do 10 (destruct k as [|k]; [done|]). lia.
Qed.

(** The two formatted printers agree.  [printf] and [cprintf], one with a
    state and one with a look ahead, print exactly the text and directives of
    the format in order; on formats without [%c] and hexadecimal directives
    they print the same bytes, also for a [%] at the end of the format, for
    unknown directives and for null strings. *)
Theorem printf_cprintf_agree fmt :
  printf fmt = render printf_directive (pieces fmt) 0 /\
  cprintf fmt = render cprintf_directive (pieces fmt) 0 /\
  (Forall common (pieces fmt) -> printf fmt = cprintf fmt).
Proof.
  assert (H1 : printf fmt = render printf_directive (pieces fmt) 0) by (apply (printf_renders_pieces (S (length fmt))); lia).
  assert (H2 : cprintf fmt = render cprintf_directive (pieces fmt) 0) by (apply (cprintf_renders_pieces (S (length fmt))); lia).
  split_and!; [done|done|]. intros Hc. rewrite H1, H2. clear H1 H2. generalize 0%nat.
  induction Hc as [|p ps Hp Hc IH]; intros ap; [done|]. destruct p as [c|c]; cbn [render]; [by rewrite IH|].
  assert (printf_directive c ap = cprintf_directive c ap) as ->; [|destruct (cprintf_directive c ap); by rewrite IH].
  unfold printf_directive, cprintf_directive. destruct Hp as (P1 & P2 & P3).
  rewrite (proj2 (Z.eqb_neq _ _) P1), (proj2 (Z.eqb_neq _ _) P2), (proj2 (Z.eqb_neq _ _) P3). cbn [orb].
  unfold printint at 1, int_buf at 1. rewrite int_digits_decimal. destruct (Z.eqb_spec c 37) as [->|]; done.
Qed.
End formats.

Lemma printf_cprintf_agree_witness :
  printf (fun n => if (n =? 0)%nat then 7 else 0) (fun _ => []) (cbytes "a%d %s%%%")
    = cprintf (fun n => if (n =? 0)%nat then 7 else 0) (fun _ => []) (cbytes "a%d %s%%%").
Proof.
  apply (proj2 (proj2 (printf_cprintf_agree _ _ _))).
  change (pieces _) with [Text 97; Directive 100; Text 32; Directive 115; Directive 37].
  repeat constructor; cbn; lia.
Defined.
