(* ===== verification/Console.v ===== *)
(** * The console: line editing, reading and the display (HW3/console.c)

    The input buffer is a ring of [INPUT_BUF] bytes with three 32-bit
    counters.  What [consputc] sends to the display and the serial line is
    recorded in the order it is sent.  A read that finds the ring empty
    blocks with what it has copied so far and goes on from there. *)

From stdpp Require Import base numbers list strings.
From Stdlib Require Import ZArith Lia.
From S2P Require Import Prelude.

Open Scope Z_scope.

Definition BACKSPACE : Z := 0x100.
Definition INPUT_BUF : Z := 128.

(** [C(x)] *)
Definition ctrl_P : Z := 16.
Definition ctrl_U : Z := 21.
Definition ctrl_H : Z := 8.
Definition ctrl_D : Z := 4.

(** ** Input *)

Record input := MkInput {
  ibuf : Z -> Z;
  ir : Z;          (** read index *)
  iw : Z;          (** write index *)
  ie : Z;          (** edit index *)
  echoed : list Z;
}.

Definition consputc (c : Z) (s : input) : input := MkInput (ibuf s) (ir s) (iw s) (ie s) (echoed s ++ [c]).

(** The loop of [^U]. *)
Fixpoint kill_line (k : nat) (s : input) : option input :=
  if (ie s =? iw s) || (ibuf s (u32 (ie s - 1) mod INPUT_BUF) =? 10) then Some s
  else match k with
       | O => None
       | S k' => kill_line k' (consputc BACKSPACE (MkInput (ibuf s) (ir s) (iw s) (u32 (ie s - 1)) (echoed s)))
       end.

(** The body of the loop of [consoleintr] on one character; [^P] only sets the
    flag for [procdump]. *)
Definition console_char (c : Z) (s : input) : option input :=
  if c =? ctrl_P then Some s
  else if c =? ctrl_U then kill_line (Z.to_nat INPUT_BUF) s
  else if (c =? ctrl_H) || (c =? 0x7f) then
    if negb (ie s =? iw s) then
      Some (consputc BACKSPACE (MkInput (ibuf s) (ir s) (iw s) (u32 (ie s - 1)) (echoed s)))
    else Some s
  else if negb (c =? 0) && (u32 (ie s - ir s) <? INPUT_BUF) then
    let c := if c =? 13 then 10 else c in
    let s := consputc c (MkInput (upd (ibuf s) (ie s mod INPUT_BUF) c) (ir s) (iw s) (u32 (ie s + 1)) (echoed s)) in
    if (c =? 10) || (c =? ctrl_D) || (ie s =? u32 (ir s + INPUT_BUF))
    then Some (MkInput (ibuf s) (ir s) (ie s) (ie s) (echoed s)) else Some s
  else Some s.

Fixpoint consoleintr (cs : list Z) (s : input) : option input :=
  match cs with
  | [] => Some s
  | c :: cs' => match console_char c s with Some s' => consoleintr cs' s' | None => None end
  end.

(** A read returns, or waits for [n] more bytes. *)
Inductive read_result := Return (copied : list Z) | Wait (copied : list Z) (n : nat).

(** The loop of [consoleread]: [n] bytes are left of the request. *)
Fixpoint consoleread (n : nat) (copied : list Z) (s : input) : read_result * input :=
  match n with
  | O => (Return copied, s)
  | S n' =>
      if ir s =? iw s then (Wait copied n, s)
      else
        let c := ibuf s (ir s mod INPUT_BUF) in
        let s' := MkInput (ibuf s) (u32 (ir s + 1)) (iw s) (ie s) (echoed s) in
        if c =? ctrl_D then
          (Return copied, if bool_decide (copied = []) then s'
             else MkInput (ibuf s') (u32 (ir s' - 1)) (iw s') (ie s') (echoed s'))
        else if c =? 10 then (Return (copied ++ [c]), s')
        else consoleread n' (copied ++ [c]) s'
  end.

(** ** What it implements: lines being edited and bytes ready to be read *)

Record line := MkLine { ready : list Z; edit : list Z; shown : list Z }.

Definition lcommit (c : Z) (t : line) : line :=
  if (c =? 10) || (c =? ctrl_D) || (length (ready t ++ edit t) =? Z.to_nat INPUT_BUF)%nat
  then MkLine (ready t ++ edit t) [] (shown t) else t.

Definition line_char (c : Z) (t : line) : line :=
  if c =? ctrl_P then t
  else if c =? ctrl_U then MkLine (ready t) [] (shown t ++ replicate (length (edit t)) BACKSPACE)
  else if (c =? ctrl_H) || (c =? 0x7f) then
    match edit t with
    | [] => t
    | _ => MkLine (ready t) (removelast (edit t)) (shown t ++ [BACKSPACE])
    end
  else if negb (c =? 0) && (length (ready t ++ edit t) <? Z.to_nat INPUT_BUF)%nat then
    let c := if c =? 13 then 10 else c in
    lcommit c (MkLine (ready t) (edit t ++ [c]) (shown t ++ [c]))
  else t.

(** Reading takes ready bytes up to a newline, the end mark or [n]. *)
Fixpoint line_read (n : nat) (copied q : list Z) : read_result * list Z :=
  match n, q with
  | O, _ => (Return copied, q)
  | S _, [] => (Wait copied n, [])
  | S n', c :: q' =>
      if c =? ctrl_D then (Return copied, if bool_decide (copied = []) then q' else q)
      else if c =? 10 then (Return (copied ++ [c]), q')
      else line_read n' (copied ++ [c]) q'
  end.

(** The ring holds the ready bytes and then the line being edited. *)
Record rep (s : input) (t : line) : Prop := {
  rep_r : 0 <= ir s < 2 ^ 32;
  rep_w : iw s = u32 (ir s + Z.of_nat (length (ready t)));
  rep_e : ie s = u32 (ir s + Z.of_nat (length (ready t ++ edit t)));
  rep_len : (length (ready t ++ edit t) <= Z.to_nat INPUT_BUF)%nat;
  rep_bytes : forall i x, (ready t ++ edit t) !! i = Some x -> ibuf s ((ir s + Z.of_nat i) mod INPUT_BUF) = x;
  rep_line : 10 ∉ edit t;
  rep_shown : echoed s = shown t;
}.

Lemma u32_mod_buf z : u32 z mod INPUT_BUF = z mod INPUT_BUF.
Proof. unfold u32, INPUT_BUF. apply Z.mod_mod_divide. by exists (2 ^ 25). Qed.

(** Counters at a distance below the size of the ring are told apart. *)
Lemma u32_apart r i j :
  0 <= i -> 0 <= j -> Z.abs (i - j) < 2 ^ 32 -> u32 (r + i) = u32 (r + j) -> i = j.
Proof.
  unfold u32. intros Hi Hj Hd E. pose proof (Z.div_mod (r + i) (2 ^ 32) ltac:(lia)).
  pose proof (Z.div_mod (r + j) (2 ^ 32) ltac:(lia)). nia.
Qed.

Lemma ring_apart r i j : 0 <= i < INPUT_BUF -> 0 <= j < INPUT_BUF -> (r + i) mod INPUT_BUF = (r + j) mod INPUT_BUF -> i = j.
Proof.
  unfold INPUT_BUF. intros Hi Hj E. pose proof (Z.div_mod (r + i) 128 ltac:(lia)).
  pose proof (Z.div_mod (r + j) 128 ltac:(lia)). nia.
Qed.

Lemma u32_add a b : u32 (u32 a + b) = u32 (a + b).
Proof. unfold u32. by rewrite Zplus_mod_idemp_l. Qed.

(** Taking the last byte back. *)
Lemma rep_pop s t l x :
  rep s t -> edit t = l ++ [x] ->
  ie s <> iw s /\ ibuf s (u32 (ie s - 1) mod INPUT_BUF) = x /\ x <> 10 /\
  rep (consputc BACKSPACE (MkInput (ibuf s) (ir s) (iw s) (u32 (ie s - 1)) (echoed s)))
      (MkLine (ready t) l (shown t ++ [BACKSPACE])).
Proof.
  intros [R1 R2 R3 R4 R5 R6 R7] E. rewrite E in *. rewrite app_assoc, length_app in R3, R4. cbn in R3, R4.
  rewrite length_app in R3, R4. unfold INPUT_BUF in R4.
  assert (Ee : u32 (ie s - 1) = u32 (ir s + Z.of_nat (length (ready t ++ l)))).
  { rewrite R3. unfold Z.sub. rewrite u32_add. f_equal. rewrite length_app. lia. }
  split_and!.
  - rewrite R2, R3. intros Eq. apply u32_apart in Eq; lia.
  - rewrite Ee, u32_mod_buf. apply R5. rewrite app_assoc, lookup_app_r, Nat.sub_diag by done. done.
  - intros ->. apply R6. apply elem_of_app. right. by left.
  - split; cbn [consputc ibuf ir iw ie echoed ready edit shown]; try done.
    + rewrite length_app. unfold INPUT_BUF. lia.
    + intros i y Hy. apply R5. rewrite app_assoc. by apply lookup_app_l_Some.
    + intros Hin. apply R6. apply elem_of_app. by left.
    + by rewrite R7.
Qed.

Lemma kill_line_ok k s t :
  rep s t -> (length (edit t) <= k)%nat ->
  exists s', kill_line k s = Some s' /\ rep s' (MkLine (ready t) [] (shown t ++ replicate (length (edit t)) BACKSPACE)).
Proof.
  revert s t. induction k as [|k IH]; intros s t R Hk; destruct t as [q l out]; cbn in Hk;
    (destruct l as [|x l _] using rev_ind;
      [assert (ie s =? iw s = true) as Ee by (destruct R; cbn in *; rewrite app_nil_r in *; lia);
       cbn [kill_line]; rewrite Ee; exists s; split; [done|]; cbn; by rewrite app_nil_r|]).
  - rewrite length_app in Hk. cbn in Hk. lia.
  - destruct (rep_pop s _ l x R eq_refl) as (Hne & Hx & Hn & R').
    cbn [kill_line]. rewrite (proj2 (Z.eqb_neq _ _) Hne), Hx, (proj2 (Z.eqb_neq _ _) Hn). cbn [orb].
    destruct (IH _ _ R') as (s' & E & R''); [cbn; rewrite length_app in Hk; cbn in Hk; lia|].
    exists s'. split; [done|]. cbn in R'' |- *. rewrite length_app. cbn.
    rewrite Nat.add_1_r. cbn [replicate]. by rewrite <- app_assoc in R''.
Qed.

(** A byte at the end of the line. *)
Lemma rep_push s t c :
  rep s t -> (length (ready t ++ edit t) < Z.to_nat INPUT_BUF)%nat ->
  let s' := consputc c (MkInput (upd (ibuf s) (ie s mod INPUT_BUF) c) (ir s) (iw s) (u32 (ie s + 1)) (echoed s)) in
  ie s' = u32 (ir s + Z.of_nat (length (ready t ++ edit t ++ [c]))) /\
  (forall i x, (ready t ++ edit t ++ [c]) !! i = Some x -> ibuf s' ((ir s + Z.of_nat i) mod INPUT_BUF) = x).
Proof.
  intros [R1 R2 R3 R4 R5 R6 R7] Hlen s'. cbn. rewrite app_assoc. split.
  - rewrite R3, u32_add. f_equal. rewrite (length_app _ [c]). cbn. lia.
  - intros i x [Hi|[Hi Hx]]%lookup_app_Some.
    + pose proof (lookup_lt_Some _ _ _ Hi). rewrite upd_ne; [by apply R5|].
      rewrite R3, u32_mod_buf. intros Eq. apply ring_apart in Eq; unfold INPUT_BUF in *; lia.
    + apply list_lookup_singleton_Some in Hx as [Hi0 ->].
      rewrite R3, u32_mod_buf. replace i with (length (ready t ++ edit t)) by lia. apply upd_eq.
Qed.

Lemma console_char_ok c s t : rep s t -> exists s', console_char c s = Some s' /\ rep s' (line_char c t).
Proof.
  intros R. unfold console_char, line_char. destruct (c =? ctrl_P); [by exists s|].
  destruct (c =? ctrl_U).
  { apply kill_line_ok; [done|]. destruct R. rewrite length_app in rep_len0. lia. }
  destruct ((c =? ctrl_H) || (c =? 0x7f)).
  { destruct t as [q l out]. cbn [edit]. destruct l as [|x l _] using rev_ind.
    - pose proof R as [R1 R2 R3 R4 R5 R6 R7]. cbn in R2, R3. rewrite app_nil_r in R3.
      rewrite R2, R3, Z.eqb_refl. by exists s.
    - destruct (rep_pop s _ l x R eq_refl) as (Hne & _ & _ & R').
      rewrite (proj2 (Z.eqb_neq _ _) Hne). cbn [negb]. eexists. split; [done|].
      rewrite removelast_last. destruct (l ++ [x]) eqn:E; [by destruct l|]. exact R'. }
  assert (Hlen : u32 (ie s - ir s) = Z.of_nat (length (ready t ++ edit t))).
  { destruct R as [R1 R2 R3 R4 R5 R6 R7]. unfold INPUT_BUF in R4. rewrite R3. unfold Z.sub. rewrite u32_add.
    replace (ir s + Z.of_nat (length (ready t ++ edit t)) + - ir s) with (Z.of_nat (length (ready t ++ edit t))) by lia.
    apply u32_small. lia. }
  rewrite Hlen. destruct (negb (c =? 0)); cbn [andb]; [|by exists s].
  destruct (Z.ltb_spec (Z.of_nat (length (ready t ++ edit t))) INPUT_BUF) as [Hl|Hl].
  2:{ rewrite (proj2 (Nat.ltb_ge _ _)) by lia. by exists s. }
  rewrite (proj2 (Nat.ltb_lt _ _)) by lia. set (d := if c =? 13 then 10 else c).
  destruct (rep_push s t d R ltac:(lia)) as [He Hb]. cbv zeta in He, Hb.
  set (s1 := consputc d _) in *. destruct R as [R1 R2 R3 R4 R5 R6 R7].
  assert (Efull : (ie s1 =? u32 (ir s1 + INPUT_BUF)) = (length (ready t ++ edit t ++ [d]) =? Z.to_nat INPUT_BUF)%nat).
  { rewrite He. change (ir s1) with (ir s). unfold INPUT_BUF in *. apply eq_true_iff_eq. rewrite Z.eqb_eq, Nat.eqb_eq.
    rewrite app_assoc, (length_app _ [d]). cbn. split; [|intros; f_equal; lia].
    intros Eq. apply u32_apart in Eq; lia. }
  rewrite Efull. unfold lcommit. cbn [ready edit shown].
  assert (Hl1 : (length (ready t ++ edit t ++ [d]) <= Z.to_nat INPUT_BUF)%nat).
  { rewrite app_assoc, length_app. cbn. lia. }
  destruct ((d =? 10) || (d =? ctrl_D) || _) eqn:Ec; (eexists; split; [done|]);
    split; cbn [ibuf ir iw ie echoed ready edit shown]; rewrite ?app_nil_r; try done.
  - by intros ?%elem_of_nil.
  - cbn. by rewrite R7.
  - intros [Hin|Hin%list_elem_of_singleton]%elem_of_app; [done|].
    rewrite <- Hin, Z.eqb_refl in Ec. done.
  - cbn. by rewrite R7.
Qed.

Lemma consoleread_ok n copied s t :
  rep s t ->
  exists q s', consoleread n copied s = ((line_read n copied (ready t)).1, s') /\
    q = (line_read n copied (ready t)).2 /\ rep s' (MkLine q (edit t) (shown t)).
Proof.
  revert copied s t. induction n as [|n IH]; intros copied s [q l out] R; cbn [consoleread line_read ready edit shown].
  { exists q, s. split_and!; [by destruct q|by destruct q|done]. }
  destruct q as [|c q].
  { exists [], s. pose proof R as [R1 R2 R3 R4 R5 R6 R7]. cbn in R2. rewrite Z.add_0_r, u32_small in R2 by lia.
    rewrite R2, Z.eqb_refl. done. }
  assert (Hstep : ir s <> iw s /\ ibuf s (ir s mod INPUT_BUF) = c /\
    rep (MkInput (ibuf s) (u32 (ir s + 1)) (iw s) (ie s) (echoed s)) (MkLine q l out)).
  { destruct R as [R1 R2 R3 R4 R5 R6 R7]. cbn in *. unfold INPUT_BUF in R4. rewrite length_app in R3, R4. split_and!.
    - rewrite R2. intros Eq. rewrite <- (u32_small (ir s)) in Eq at 1 by lia. rewrite <- (Z.add_0_r (ir s)) in Eq at 1.
      apply u32_apart in Eq; lia.
    - rewrite <- (Z.add_0_r (ir s)). by apply (R5 0%nat).
    - split; cbn [ibuf ir iw ie echoed ready edit shown]; try done.
      + apply u32_range.
      + rewrite u32_add, R2. f_equal. lia.
      + rewrite u32_add, R3, length_app. f_equal. lia.
      + rewrite length_app. unfold INPUT_BUF. lia.
      + intros i x Hi. rewrite <- (R5 (S i) x Hi). f_equal.
        rewrite <- (u32_mod_buf (u32 (ir s + 1) + Z.of_nat i)), u32_add, u32_mod_buf. f_equal. lia. }
  destruct Hstep as (Hne & Hc & R'). rewrite (proj2 (Z.eqb_neq _ _) Hne), Hc.
  destruct (c =? ctrl_D).
  - case_bool_decide; cbn [fst snd]; [by eexists _, _|].
    exists (c :: q), s. split_and!; [|done|done]. f_equal. cbn. destruct R as [R1 _ _ _ _ _ _]. destruct s; cbn in *.
    f_equal. unfold Z.sub. rewrite u32_add. rewrite u32_small; lia.
  - destruct (c =? 10); cbn [fst snd]; [by eexists _, _|].
    destruct (IH (copied ++ [c]) _ _ R') as (q' & s' & E & Eq & R''). by exists q', s'.
Qed.

(** ** Sessions *)

(** What happens at the console: characters arrive in an interrupt, or a
    process reads, from the start or going on after it was woken. *)
Inductive event := Typed (cs : list Z) | Reads (n : nat) (copied : list Z).

Fixpoint session (es : list event) (s : input) : option (list read_result * input) :=
  match es with
  | [] => Some ([], s)
  | Typed cs :: es => match consoleintr cs s with Some s' => session es s' | None => None end
  | Reads n copied :: es =>
      let '(r, s') := consoleread n copied s in
      match session es s' with Some (rs, s'') => Some (r :: rs, s'') | None => None end
  end.

Fixpoint line_session (es : list event) (t : line) : list read_result * line :=
  match es with
  | [] => ([], t)
  | Typed cs :: es => line_session es (foldl (fun t c => line_char c t) t cs)
  | Reads n copied :: es =>
      let '(r, q) := line_read n copied (ready t) in
      let '(rs, t') := line_session es (MkLine q (edit t) (shown t)) in (r :: rs, t')
  end.

Lemma consoleintr_ok cs s t :
  rep s t -> exists s', consoleintr cs s = Some s' /\ rep s' (foldl (fun t c => line_char c t) t cs).
Proof.
  revert s t. induction cs as [|c cs IH]; intros s t R; [by exists s|]. cbn [consoleintr foldl].
  destruct (console_char_ok c s t R) as (s' & -> & R'). by apply IH.
Qed.

(** The console is a line editor with a queue of finished input.  In any
    session of typing and reading, whatever value the 32-bit counters of the
    ring start from, every read returns what the queue says: bytes in the
    order they were typed, after backspaces and killed lines, up to a newline,
    the end mark or the count; the echo is that of the editor, and the loop of
    [^U] ends. *)
Theorem console_refines_lines es buf r0 :
  0 <= r0 < 2 ^ 32 ->
  exists s', session es (MkInput buf r0 r0 r0 []) = Some ((line_session es (MkLine [] [] [])).1, s') /\
    echoed s' = shown (line_session es (MkLine [] [] [])).2.
Proof.
  intros Hr. assert (R0 : rep (MkInput buf r0 r0 r0 []) (MkLine [] [] [])).
  { split; cbn; try done; [by rewrite Z.add_0_r, u32_small by lia|by rewrite Z.add_0_r, u32_small by lia|lia|by intros ?%elem_of_nil]. }
  revert R0. generalize (MkInput buf r0 r0 r0 []). generalize (MkLine [] [] []).
  induction es as [|e es IH]; intros t s R; cbn [session line_session].
  { exists s. split; [done|]. apply R. }
  destruct e as [cs|n copied].
  - destruct (consoleintr_ok cs s t R) as (s' & -> & R'). by apply IH.
  - destruct (consoleread_ok n copied s t R) as (q & s' & -> & Eq & R').
    destruct (line_read n copied (ready t)) as [res q']. cbn in Eq. subst q'. cbn [fst].
    destruct (IH _ _ R') as (s'' & -> & Es).
    destruct (line_session es _) as [rs t']. by exists s''.
Qed.

Lemma console_refines_lines_witness :
  exists s', session [Typed (cbytes "lx" ++ [ctrl_H] ++ cbytes "s" ++ [13] ++ cbytes "x"); Reads 10 []]
      (MkInput (fun _ => 0) (2 ^ 32 - 2) (2 ^ 32 - 2) (2 ^ 32 - 2) []) =
    Some ([Return (cbytes "ls" ++ [10])], s').
Proof.
  destruct (console_refines_lines [Typed (cbytes "lx" ++ [ctrl_H] ++ cbytes "s" ++ [13] ++ cbytes "x"); Reads 10 []]
    (fun _ => 0) (2 ^ 32 - 2) ltac:(lia)) as (s' & E & _).
  exists s'. exact E.
Defined.

(** ** The display

    24 lines of 80 cells are used.  The cursor lies in two registers of the
    display controller; [pos] is their value. *)

Record screen := MkScreen { pos : Z; crt : Z -> Z }.

Definition blank : Z := Z.lor 32 0x0700.

(** [memmove(crt, crt+80, sizeof(crt[0])*23*80)] *)
Definition scroll_up (m : Z -> Z) : Z -> Z :=
  fun i => if (0 <=? i) && (i <? 23 * 80) then m (i + 80) else m i.

(** [memset(crt+p, 0, sizeof(crt[0])*(24*80 - p))] *)
Definition clear_from (p : Z) (m : Z -> Z) : Z -> Z :=
  fun i => if (p <=? i) && (i <? 24 * 80) then 0 else m i.

Definition cgaputc (c : Z) : M screen unit :=
  s ← get;
  let '(p, m) :=
    if c =? 10 then (pos s + (80 - pos s mod 80), crt s)
    else if c =? BACKSPACE then ((if 0 <? pos s then pos s - 1 else pos s), crt s)
    else (pos s + 1, upd (crt s) (pos s) (Z.lor (Z.land c 0xff) 0x0700)) in
  if (p <? 0) || (25 * 80 <? p) then panic "pos under/overflow" else
  let '(p, m) := if 24 <=? p / 80 then (p - 80, clear_from (p - 80) (scroll_up m)) else (p, m) in
  modify (fun _ => MkScreen p (upd m p blank)).

(** The bytes of [consolewrite] and of the echo. *)
Fixpoint display (cs : list Z) : M screen unit :=
  match cs with
  | [] => mret tt
  | c :: cs' => cgaputc c;; display cs'
  end.

Definition on_screen (p : Z) : Prop := 0 <= p < 24 * 80.

Lemma cgaputc_ok c s :
  on_screen (pos s) ->
  exists s', cgaputc c s = Ok tt s' /\ on_screen (pos s') /\
    (forall i, ~ on_screen i -> crt s' i = crt s i) /\ crt s' (pos s') = blank.
Proof.
  unfold on_screen. intros Hp. unfold cgaputc, get. munfold.
  pose proof (Z.div_mod (pos s) 80 ltac:(lia)). pose proof (Z.mod_pos_bound (pos s) 80 ltac:(lia)).
  set (pm := if c =? 10 then _ else _).
  assert (Hpm : 0 <= pm.1 <= 24 * 80 /\ forall i, ~ 0 <= i < 24 * 80 -> pm.2 i = crt s i).
  { unfold pm. destruct (c =? 10); [split; [cbn; lia|done]|].
    destruct (c =? BACKSPACE); cbn [fst snd].
    - split; [|done]. destruct (Z.ltb_spec 0 (pos s)); lia.
    - split; [lia|]. intros i Hi. apply upd_ne. lia. }
  destruct pm as [p m]. destruct Hpm as [Hp1 Hm]. cbn [fst snd] in Hp1, Hm.
  assert ((p <? 0) || (25 * 80 <? p) = false) as -> by lia.
  pose proof (Z.div_mod p 80 ltac:(lia)). pose proof (Z.mod_pos_bound p 80 ltac:(lia)).
  destruct (Z.leb_spec 24 (p / 80)); (eexists; split; [done|]); cbn [pos crt]; (split_and!; [lia|lia| |apply upd_eq]).
  - intros i Hi. rewrite upd_ne by lia. unfold clear_from, scroll_up.
    rewrite (proj2 (andb_false_iff _ _)) by lia. rewrite (proj2 (andb_false_iff _ _)) by lia. by apply Hm.
  - intros i Hi. rewrite upd_ne by lia. by apply Hm.
Qed.

(** The display stays in its bounds.  From a cursor on the 24 lines,
    whatever bytes and backspaces are shown, the position check of [cgaputc]
    never panics, the cursor is on the 24 lines again and marked blank, and no
    memory outside them has changed. *)
Theorem display_in_bounds cs s :
  on_screen (pos s) -> crt s (pos s) = blank ->
  exists s', display cs s = Ok tt s' /\ on_screen (pos s') /\ crt s' (pos s') = blank /\
    forall i, ~ on_screen i -> crt s' i = crt s i.
Proof.
  revert s. induction cs as [|c cs IH]; intros s Hp Hb; cbn [display]; [by exists s|].
  destruct (cgaputc_ok c s Hp) as (s1 & E & Hp1 & Hm1 & Hb1). rewrite (bind_ok _ _ _ _ _ E).
  destruct (IH s1 Hp1 Hb1) as (s' & E' & Hp' & Hb' & Hm'). exists s'. split_and!; [done|done|done|].
  intros i Hi. by rewrite Hm', Hm1.
Qed.

Lemma display_in_bounds_witness :
  exists s', display (replicate 100 10 ++ [BACKSPACE; 65]) (MkScreen 0 (fun _ => blank)) = Ok tt s' /\ on_screen (pos s').
Proof.
  destruct (display_in_bounds (replicate 100 10 ++ [BACKSPACE; 65]) (MkScreen 0 (fun _ => blank)))
    as (s' & E & Hp & _).
  - unfold on_screen. cbn. lia.
  - reflexivity.
  - exists s'. split; [exact E|exact Hp].
Defined.
