(* ===== verification/Ide.v ===== *)
(** * The IDE disk driver (HW3/ide.c)

    The driver proper: the queue of buffers threaded through [qnext], the
    port writes that start a request, the interrupt handler, and the entry
    point [iderw].  The disk controller is hardware, so it is a class: what its
    ports do ([Controller]) and what the ATA documentation promises about them
    ([ControllerOk]).  [IdeSpec] shows that the driver serves requests first
    come first served and that it keeps the contract of [Disk]. *)

From Stdlib Require Import ZArith Lia.
From stdpp Require Import base functions numbers list gmap strings.
From S2P Require Import Prelude Disk Blocks.

Open Scope Z_scope.

Definition SECTOR_SIZE : Z := 512.
Definition IDE_BSY : Z := 0x80.
Definition IDE_DRDY : Z := 0x40.
Definition IDE_DF : Z := 0x20.
Definition IDE_ERR : Z := 0x01.
Definition IDE_CMD_READ : Z := 0x20.
Definition IDE_CMD_WRITE : Z := 0x30.

(** ** The controller

    [inb], [outb], [insl] and [outsl] are the port instructions of x86.h;
    reading a port may change the device, whose state moves on between polls.
    [finish] is the time until the drive raises the interrupt of the command
    it was given.  [sector w d n] is what is stored at address [n] of drive
    [d]; [patience] bounds the polls until the drive is ready. *)

Class Controller (W : Type) := {
  outb : Z -> Z -> W -> W;
  outsl : Z -> list Z -> W -> W;
  inb : Z -> W -> Z * W;
  insl : Z -> Z -> W -> list Z * W;
  finish : W -> W;
  sector : W -> Z -> Z -> block;
  patience : nat;
  drive1 : bool
}.

(** The test of the loop in [idewait]. *)
Definition drive_ready (r : Z) : bool := Z.land r (Z.lor IDE_BSY IDE_DRDY) =? IDE_DRDY.

(** The task file: control, sector count, address in four parts, command. *)
Definition command {W} `{!Controller W} (n l0 l1 l2 drive_head cmd : Z) (w : W) : W :=
  outb 0x1f7 cmd (outb 0x1f6 drive_head (outb 0x1f5 l2 (outb 0x1f4 l1
    (outb 0x1f3 l0 (outb 0x1f2 n (outb 0x3f6 0 w)))))).

Definition same_sectors {W} `{!Controller W} (w w' : W) : Prop :=
  forall d n, sector w' d n = sector w d n.

(** [ready k x w]: the drive is idle, or has the block [x] to hand over, and
    shows it after at most [k] polls; [settled x w]: it has shown it. *)
Class ControllerOk (W : Type) `{!Controller W} := {
  ready : nat -> option block -> W -> Prop;
  settled : option block -> W -> Prop;
  probing : W -> Prop;
  ready_sector k x w d n : ready k x w -> block_ok (sector w d n);
  ready_poll k x w :
    ready k x w -> exists r w', inb 0x1f7 w = (r, w') /\ same_sectors w w' /\
      ((drive_ready r = true /\ has r (Z.lor IDE_DF IDE_ERR) = false /\ settled x w') \/
       (drive_ready r = false /\ exists k', k = S k' /\ ready k' x w'));
  command_read w d l0 l1 l2 l3 :
    settled None w -> d = 0 \/ (d = 1 /\ drive1 = true) ->
    is_byte l0 -> is_byte l1 -> is_byte l2 -> 0 <= l3 < 16 ->
    let w' := finish (command 1 l0 l1 l2 (0xe0 + 16 * d + l3) IDE_CMD_READ w) in
    same_sectors w w' /\
    ready patience (Some (sector w d (l0 + 256 * l1 + 65536 * l2 + 16777216 * l3))) w';
  command_write w d l0 l1 l2 l3 x :
    settled None w -> d = 0 \/ (d = 1 /\ drive1 = true) ->
    is_byte l0 -> is_byte l1 -> is_byte l2 -> 0 <= l3 < 16 -> block_ok x ->
    let w' := finish (outsl 0x1f0 x (command 1 l0 l1 l2 (0xe0 + 16 * d + l3) IDE_CMD_WRITE w)) in
    ready patience None w' /\
    forall d' n, sector w' d' n =
      if (d' =? d) && (n =? l0 + 256 * l1 + 65536 * l2 + 16777216 * l3) then x else sector w d' n;
  data_in w x :
    settled (Some x) w -> exists w', insl 0x1f0 (BSIZE / 4) w = (x, w') /\
      same_sectors w w' /\ ready patience None w';
  probe w : settled None w -> probing (outb 0x1f6 0xf0 w) /\ same_sectors w (outb 0x1f6 0xf0 w);
  probe_poll w : probing w -> exists r w', inb 0x1f7 w = (r, w') /\
    same_sectors w w' /\ probing w' /\ (r =? 0) = negb drive1;
  probe_end w : probing w -> ready patience None (outb 0x1f6 0xe0 w) /\ same_sectors w (outb 0x1f6 0xe0 w)
}.

(** ** The driver *)

Section driver.
Context {W : Type} `{!Controller W}.
(** How many buffers there are. *)
Context (nbuf : nat).

Record ide := MkIde {
  ctl : W;
  bufs : nat -> buf;
  qnext : nat -> option nat;
  idequeue : option nat;
  havedisk1 : bool
}.

Definition set_ctl (w : W) (s : ide) := MkIde w (bufs s) (qnext s) (idequeue s) (havedisk1 s).
Definition set_buf (i : nat) (x : buf) (s : ide) :=
  MkIde (ctl s) (<[i := x]> (bufs s)) (qnext s) (idequeue s) (havedisk1 s).
Definition set_qnext (i : nat) (q : option nat) (s : ide) :=
  MkIde (ctl s) (bufs s) (<[i := q]> (qnext s)) (idequeue s) (havedisk1 s).
Definition set_idequeue (q : option nat) (s : ide) :=
  MkIde (ctl s) (bufs s) (qnext s) q (havedisk1 s).

Definition out (port v : Z) : M ide unit := modify (fun s => set_ctl (outb port v (ctl s)) s).
Definition in_ (port : Z) : M ide Z := fun s => let '(r, w) := inb port (ctl s) in Ok r (set_ctl w s).

Fixpoint idewait_loop (k : nat) : M ide Z :=
  match k with
  | O => diverge
  | S k' => r ← in_ 0x1f7; if drive_ready r then mret r else idewait_loop k'
  end.

Definition idewait (checkerr : bool) : M ide Z :=
  r ← idewait_loop (S patience);
  if checkerr && has r (Z.lor IDE_DF IDE_ERR) then mret (-1) else mret 0.

(** Look for drive 1 at most [k] times. *)
Fixpoint probe_loop (k : nat) : M ide unit :=
  match k with
  | O => mret tt
  | S k' =>
      r ← in_ 0x1f7;
      if negb (r =? 0) then modify (fun s => MkIde (ctl s) (bufs s) (qnext s) (idequeue s) true)
      else probe_loop k'
  end.

Definition ideinit : M ide unit :=
  idewait false;;
  out 0x1f6 (Z.lor 0xe0 (Z.shiftl 1 4));;
  probe_loop 1000;;
  out 0x1f6 (Z.lor 0xe0 (Z.shiftl 0 4)).

Definition idestart (b : option nat) : M ide unit :=
  match b with
  | None => panic "idestart"
  | Some i =>
      x ← reads (fun s => bufs s i);
      if blockno x >=? FSSIZE then panic "incorrect blockno"
      else
        let sector_per_block := BSIZE / SECTOR_SIZE in
        let sec := blockno x * sector_per_block in
        if sector_per_block >? 7 then panic "idestart"
        else
          idewait false;;
          out 0x3f6 0;;
          out 0x1f2 sector_per_block;;
          out 0x1f3 (Z.land sec 0xff);;
          out 0x1f4 (Z.land (Z.shiftr sec 8) 0xff);;
          out 0x1f5 (Z.land (Z.shiftr sec 16) 0xff);;
          out 0x1f6 (Z.lor (Z.lor 0xe0 (Z.shiftl (Z.land (dev x) 1) 4)) (Z.land (Z.shiftr sec 24) 0x0f));;
          if has (flags x) B_DIRTY then
            out 0x1f7 IDE_CMD_WRITE;;
            modify (fun s => set_ctl (outsl 0x1f0 (data x) (ctl s)) s)
          else out 0x1f7 IDE_CMD_READ
  end.

(** The buffer whose waiter is woken, if any. *)
Definition ideintr : M ide (option nat) :=
  q ← reads idequeue;
  match q with
  | None => mret None
  | Some b =>
      nx ← reads (fun s => qnext s b);
      modify (set_idequeue nx);;
      x ← reads (fun s => bufs s b);
      (if negb (has (flags x) B_DIRTY) then
         r ← idewait true;
         when (r >=? 0)
           (fun s => let '(d, w) := insl 0x1f0 (BSIZE / 4) (ctl s) in Ok tt (set_buf b (set_data d x) (set_ctl w s)))
       else mret tt);;
      modify (fun s => set_buf b (set_flags (Z.lor (flags (bufs s b)) B_VALID) (bufs s b)) s);;
      modify (fun s => set_buf b (set_flags (Z.land (flags (bufs s b)) (Z.lnot B_DIRTY)) (bufs s b)) s);;
      q' ← reads idequeue;
      when (bool_decide (q' <> None)) (idestart q');;
      mret (Some b)
  end.

(** A [struct buf **]: the head of the queue, or the link of a buffer. *)
Inductive link := Head | Next (i : nat).

Definition follow (pp : link) (s : ide) : option nat :=
  match pp with Head => idequeue s | Next i => qnext s i end.

Definition store (pp : link) (b : nat) : M ide unit :=
  modify (match pp with Head => set_idequeue (Some b) | Next i => set_qnext i (Some b) end).

Fixpoint find_end (k : nat) (pp : link) : M ide link :=
  match k with
  | O => diverge
  | S k' =>
      q ← reads (follow pp);
      match q with None => mret pp | Some c => find_end k' (Next c) end
  end.

(** [iderw] up to its wait. *)
Definition iderw_enqueue (b : nat) : M ide unit :=
  x ← reads (fun s => bufs s b);
  if negb (has (flags x) B_BUSY) then panic "iderw: buf not busy"
  else if Z.land (flags x) (Z.lor B_VALID B_DIRTY) =? B_VALID then panic "iderw: nothing to do"
  else
    h ← reads havedisk1;
    if negb (dev x =? 0) && negb h then panic "iderw: ide disk 1 not present"
    else
      modify (set_qnext b None);;
      pp ← find_end (S nbuf) Head;
      store pp b;;
      q ← reads idequeue;
      when (bool_decide (q = Some b)) (idestart (Some b)).

(** One turn of the wait: the process sleeps, or finds its request done. *)
Definition iderw_wait (b : nat) : M ide unit :=
  x ← reads (fun s => bufs s b);
  if negb (Z.land (flags x) (Z.lor B_VALID B_DIRTY) =? B_VALID) then sleep_on (ChanBuf b)
  else mret tt.

Definition iderw (b : nat) : M ide unit := iderw_enqueue b;; iderw_wait b.

End driver.
Arguments ide W : clear implicits.
