(* ===== verification/IdeSpec.v ===== *)
(** * The IDE driver serves its queue

    What ide.c promises: requests are served one at a time in the order of
    their arrival, each as if the disk were an array of blocks; a request is
    done after one interrupt more than there were requests before it.  Seen by
    a caller that finds the driver idle, it keeps the contract of
    [Disk.BlockDriverOk], so everything above it in the development also holds
    over this driver. *)

From Stdlib Require Import ZArith Lia.
From stdpp Require Import base functions numbers list gmap strings.
From S2P Require Import Prelude Disk Blocks Ide.

Open Scope Z_scope.

(** ** The abstract driver *)

(** The contents of the drives, the buffers waiting, and all buffers. *)
Record drives := MkDrives { contents : Z -> Z -> block; queue : list nat; copies : nat -> buf }.

Definition drive (x : buf) : Z := Z.land (dev x) 1.

(** The flags of a request that is done. *)
Definition finished (x : buf) : buf :=
  set_flags (Z.land (Z.lor (flags x) B_VALID) (Z.lnot B_DIRTY)) x.

Definition serve (i : nat) (q : list nat) (t : drives) : drives :=
  let x := copies t i in
  if dirty x then
    MkDrives (fun d n => if (d =? drive x) && (n =? blockno x) then data x else contents t d n) q
      (<[i := finished x]> (copies t))
  else MkDrives (contents t) q
      (<[i := finished (set_data (contents t (drive x) (blockno x)) x)]> (copies t)).

(** A process asks for its buffer to be synced, the drive completes a command,
    or the holder of a buffer that is not queued changes it. *)
Inductive event := Request (i : nat) | Interrupt | Touch (i : nat) (x : buf).

Definition astep (e : event) (t : drives) : drives :=
  match e with
  | Request i => MkDrives (contents t) (queue t ++ [i]) (copies t)
  | Interrupt => match queue t with [] => t | i :: q => serve i q t end
  | Touch i x => MkDrives (contents t) (queue t) (<[i := x]> (copies t))
  end.

Definition arun (es : list event) (t : drives) : drives := foldl (fun t e => astep e t) t es.

(** The queue as the code links it. *)
Fixpoint chain (f : nat -> option nat) (p : option nat) (l : list nat) : Prop :=
  match l with
  | [] => p = None
  | i :: l' => p = Some i /\ chain f (f i) l'
  end.

Lemma chain_insert f p l i q : i ∉ l -> chain f p l -> chain (<[i := q]> f) p l.
Proof.
  revert p. induction l as [|j l IH]; intros p Hi; cbn; [done|].
  intros [-> Hc]. apply not_elem_of_cons in Hi as [Hne Hi]. split; [done|].
  rewrite fn_lookup_insert_ne by done. by apply IH.
Qed.

Lemma chain_append f p l j b :
  NoDup (l ++ [j]) -> b ∉ l ++ [j] -> f b = None -> chain f p (l ++ [j]) ->
  chain (<[j := Some b]> f) p ((l ++ [j]) ++ [b]).
Proof.
  revert p. induction l as [|i l IH]; intros p Hnd Hb Hf; cbn.
  - intros [-> _]. rewrite fn_lookup_insert. cbn in Hb. apply not_elem_of_cons in Hb as [Hb _].
    split_and!; try done. by rewrite fn_lookup_insert_ne by congruence.
  - intros [-> Hc]. cbn in Hnd, Hb. apply NoDup_cons in Hnd as [Hi Hnd]. apply not_elem_of_cons in Hb as [Hne Hb].
    split; [done|]. rewrite fn_lookup_insert_ne; [by apply IH|].
    intros ->. apply Hi, elem_of_app. right. by left.
Qed.

Section laws.
Context {W : Type} `{!Controller W, !ControllerOk W} (nbuf : nat).

(** A buffer [iderw] may be called on. *)
Definition request_ok (x : buf) : Prop :=
  busy x = true /\ (valid x = false \/ dirty x = true) /\ (dev x = 0 \/ drive1 = true) /\
  0 <= blockno x < FSSIZE /\ (dirty x = true -> block_ok (data x)).

Definition admissible (e : event) (t : drives) : Prop :=
  match e with
  | Request i => i ∉ queue t /\ (i < nbuf)%nat /\ request_ok (copies t i)
  | Interrupt => True
  | Touch i _ => i ∉ queue t
  end.

Fixpoint admissible_run (es : list event) (t : drives) : Prop :=
  match es with
  | [] => True
  | e :: es' => admissible e t /\ admissible_run es' (astep e t)
  end.

(** ** The code, event by event *)

(** The drive ends its command, if it has one, and interrupts. *)
Definition device_intr : M (ide W) unit :=
  q ← reads idequeue;
  when (bool_decide (q <> None)) (modify (fun s => set_ctl (finish (ctl s)) s));;
  ideintr;;
  mret tt.

Definition cstep (e : event) : M (ide W) unit :=
  match e with
  | Request i => iderw_enqueue nbuf i
  | Interrupt => device_intr
  | Touch i x => modify (set_buf i x)
  end.

Fixpoint crun (es : list event) : M (ide W) unit :=
  match es with [] => mret tt | e :: es' => cstep e;; crun es' end.

(** What the drive has been told when it works for a buffer. *)
Definition issued (x : buf) (w : W) : W :=
  let sec := blockno x * 1 in
  let c cmd := command 1 (Z.land sec 0xff) (Z.land (Z.shiftr sec 8) 0xff) (Z.land (Z.shiftr sec 16) 0xff)
    (Z.lor (Z.lor 0xe0 (Z.shiftl (drive x) 4)) (Z.land (Z.shiftr sec 24) 0x0f)) cmd w in
  if dirty x then outsl 0x1f0 (data x) (c IDE_CMD_WRITE) else c IDE_CMD_READ.

Record rep (s : ide W) (t : drives) : Prop := {
  rep_bufs : forall i, bufs s i = copies t i;
  rep_chain : chain (qnext s) (idequeue s) (queue t);
  rep_nodup : NoDup (queue t);
  rep_bound : Forall (fun i => i < nbuf)%nat (queue t);
  rep_req : Forall (fun i => request_ok (copies t i)) (queue t);
  rep_disk1 : havedisk1 s = drive1;
  rep_dev : match queue t with
    | [] => ready patience None (ctl s) /\ forall d n, sector (ctl s) d n = contents t d n
    | i :: _ => exists w0, settled None w0 /\ (forall d n, block_ok (sector w0 d n)) /\
        (forall d n, sector w0 d n = contents t d n) /\ ctl s = issued (copies t i) w0
    end
}.

(** The four address registers and the drive bit. *)
Lemma drive_cases x : drive x = 0 \/ drive x = 1.
Proof.
  unfold drive. change 1 with (Z.ones 1) at 1 2. rewrite Z.land_ones by lia.
  pose proof (Z.mod_pos_bound (dev x) (2 ^ 1) ltac:(lia)). lia.
Qed.

Lemma address_ok n (P : Z -> Z -> Z -> Z -> Prop) :
  0 <= n < FSSIZE ->
  (forall l0 l1 l2, is_byte l0 -> is_byte l1 -> is_byte l2 ->
    l0 + 256 * l1 + 65536 * l2 + 16777216 * 0 = n -> P l0 l1 l2 0) ->
  P (Z.land (n * 1) 0xff) (Z.land (Z.shiftr (n * 1) 8) 0xff) (Z.land (Z.shiftr (n * 1) 16) 0xff)
    (Z.land (Z.shiftr (n * 1) 24) 0x0f).
Proof.
  unfold FSSIZE, is_byte. intros Hn HP. rewrite Z.mul_1_r.
  assert (H24 : Z.shiftr n 24 = 0) by (rewrite Z.shiftr_div_pow2 by lia; apply Z.div_small; lia).
  rewrite H24. change (Z.land 0 0x0f) with 0. change 0xff with (Z.ones 8). rewrite !Z.land_ones by lia.
  rewrite !Z.shiftr_div_pow2 by lia. change (2 ^ 8) with 256. change (2 ^ 16) with 65536.
  apply HP; try (apply Z.mod_pos_bound; lia).
  rewrite (Z.div_small n 65536) by lia. rewrite (Z.mod_small (n / 256) 256) by (split; [apply Z.div_pos; lia|apply Z.div_lt_upper_bound; lia]).
  pose proof (Z.div_mod n 256 ltac:(lia)). change (0 mod 256) with 0. lia.
Qed.

Lemma drive_head d : d = 0 \/ d = 1 -> Z.lor (Z.lor 0xe0 (Z.shiftl d 4)) 0 = 0xe0 + 16 * d + 0.
Proof. by intros [-> | ->]. Qed.

Lemma request_drive x : request_ok x -> drive x = 0 \/ (drive x = 1 /\ drive1 = true).
Proof.
  intros (_ & _ & Hd & _). destruct (drive_cases x) as [|E]; [by left|]. right. split; [done|].
  destruct Hd as [Hd|]; [|done]. unfold drive in E. by rewrite Hd in E.
Qed.

(** The command of a read, and of a write, carried out. *)
Lemma issued_read x w :
  settled None w -> request_ok x -> dirty x = false ->
  same_sectors w (finish (issued x w)) /\
  ready patience (Some (sector w (drive x) (blockno x))) (finish (issued x w)).
Proof.
  intros Hw Hx Hd. unfold issued. rewrite Hd. pose proof Hx as (_ & _ & _ & Hn & _).
  apply (address_ok (blockno x) (fun l0 l1 l2 l3 =>
    let w' := finish (command 1 l0 l1 l2 (Z.lor (Z.lor 0xe0 (Z.shiftl (drive x) 4)) l3) IDE_CMD_READ w) in
    same_sectors w w' /\ ready patience (Some (sector w (drive x) (blockno x))) w')); [done|].
  intros l0 l1 l2 H0 H1 H2 E. rewrite (drive_head _ (drive_cases x)). cbn beta. rewrite <- E.
  apply command_read; [done|by apply request_drive|done..|lia].
Qed.

Lemma issued_write x w :
  settled None w -> request_ok x -> dirty x = true ->
  ready patience None (finish (issued x w)) /\
  forall d n, sector (finish (issued x w)) d n =
    if (d =? drive x) && (n =? blockno x) then data x else sector w d n.
Proof.
  intros Hw Hx Hd. unfold issued. rewrite Hd. pose proof Hx as (_ & _ & _ & Hn & Hok).
  apply (address_ok (blockno x) (fun l0 l1 l2 l3 =>
    let w' := finish (outsl 0x1f0 (data x)
      (command 1 l0 l1 l2 (Z.lor (Z.lor 0xe0 (Z.shiftl (drive x) 4)) l3) IDE_CMD_WRITE w)) in
    ready patience None w' /\
    forall d n, sector w' d n = if (d =? drive x) && (n =? blockno x) then data x else sector w d n)); [done|].
  intros l0 l1 l2 H0 H1 H2 E. rewrite (drive_head _ (drive_cases x)). cbn beta. rewrite <- E.
  apply command_write; [done|by apply request_drive|done..|lia|by apply Hok].
Qed.

(** *** Waiting and starting *)

Lemma idewait_loop_ok k x (s : ide W) :
  ready k x (ctl s) -> exists r w', idewait_loop (S k) s = Ok r (set_ctl w' s) /\
    has r (Z.lor IDE_DF IDE_ERR) = false /\ settled x w' /\ same_sectors (ctl s) w'.
Proof.
  revert s. induction k as [|k IH]; intros s H;
    destruct (ready_poll _ _ _ H) as (r & w' & E & Es & [(Hr & Herr & Hs)|(Hr & k' & Ek & Hk)]); try done.
  1, 2: exists r, w'; split_and!; try done; cbn [idewait_loop]; unfold in_; munfold; by rewrite E, Hr.
  injection Ek as <-. destruct (IH (set_ctl w' s) Hk) as (r2 & w2 & E2 & Herr & Hs & Es2).
  exists r2, w2. split_and!; [|done|done|].
  - change (idewait_loop (S (S k))) with (r ← in_ 0x1f7; if drive_ready r then mret r else idewait_loop (W:=W) (S k)).
    erewrite bind_ok by (unfold in_; rewrite E; reflexivity). rewrite Hr. exact E2.
  - intros d n. rewrite (Es2 d n). apply Es.
Qed.

Lemma idewait_ok ce x (s : ide W) :
  ready patience x (ctl s) -> exists w', idewait ce s = Ok 0 (set_ctl w' s) /\
    settled x w' /\ same_sectors (ctl s) w'.
Proof.
  intros H. destruct (idewait_loop_ok _ _ _ H) as (r & w' & E & Herr & Hs & Es).
  exists w'. split_and!; [|done|done]. unfold idewait. rewrite (bind_ok _ _ _ _ _ E), Herr.
  by rewrite andb_false_r.
Qed.

Lemma idestart_ok (s : ide W) i :
  ready patience None (ctl s) -> request_ok (bufs s i) ->
  exists w0, settled None w0 /\ same_sectors (ctl s) w0 /\
    idestart (Some i) s = Ok tt (set_ctl (issued (bufs s i) w0) s).
Proof.
  intros H Hx. destruct (idewait_ok false _ _ H) as (w0 & E & Hs & Es). exists w0. split_and!; [done|done|].
  pose proof Hx as (_ & _ & _ & Hn & _). unfold idestart. erewrite bind_ok by reflexivity. cbv zeta.
  rewrite Z.geb_leb, (proj2 (Z.leb_gt _ _)) by lia.
  change (BSIZE / SECTOR_SIZE) with 1. change (1 >? 7) with false. cbn match.
  rewrite (bind_ok _ _ _ _ _ E). unfold issued, dirty, drive. munfold. unfold out, command. munfold.
  by destruct (has (flags (bufs s i)) B_DIRTY).
Qed.

(** *** The queue *)

Lemma find_end_ok l : forall k pp (s : ide W),
  chain (qnext s) (follow pp s) l -> (length l < k)%nat ->
  find_end k pp s = Ok (from_option Next pp (last l)) s.
Proof.
  induction l as [|i l IH]; intros k pp s Hc Hk; (destruct k as [|k]; [cbn in Hk; lia|]); cbn [find_end].
  - munfold. cbn in Hc. by rewrite Hc.
  - destruct Hc as [Hp Hc]. munfold. rewrite Hp. cbn in Hk. rewrite (IH k (Next i) s Hc) by lia.
    rewrite last_cons. by destruct (last l).
Qed.

Lemma queue_length (s : ide W) t : rep s t -> (length (queue t) <= nbuf)%nat.
Proof.
  intros R. rewrite <- (length_seq nbuf 0). apply submseteq_length, NoDup_submseteq; [apply R|].
  intros i Hi. apply elem_of_seq. pose proof (proj1 (Forall_forall _ _) (rep_bound _ _ R) i Hi). cbn in *. lia.
Qed.

(** The rest of the interrupt handler: the next request is started. *)
Lemma restart_ok (s : ide W) t :
  (forall i, bufs s i = copies t i) -> chain (qnext s) (idequeue s) (queue t) -> NoDup (queue t) ->
  Forall (fun i => i < nbuf)%nat (queue t) -> Forall (fun i => request_ok (copies t i)) (queue t) ->
  havedisk1 s = drive1 -> ready patience None (ctl s) ->
  (forall d n, sector (ctl s) d n = contents t d n) ->
  exists s', (q' ← reads idequeue; when (bool_decide (q' <> None)) (idestart q')) s = Ok tt s' /\ rep s' t.
Proof.
  intros Hb Hc Hnd Hbd Hrq Hd1 Hr Hs. erewrite bind_ok by reflexivity.
  destruct (queue t) as [|i q] eqn:Eq; cbn in Hc.
  - rewrite Hc. exists s. split; [done|]. split; rewrite ?Eq; try done.
  - destruct Hc as [Hq Hc]. rewrite Hq. pose proof (Forall_inv Hrq) as Hi. cbn in Hi. rewrite <- Hb in Hi.
    destruct (idestart_ok s i Hr Hi) as (w0 & Hw & Es & E). eexists. split; [exact E|].
    split; cbn [set_ctl ctl bufs qnext idequeue havedisk1]; rewrite ?Eq; try done.
    exists w0. split_and!; [done| | |by rewrite Hb].
    + intros d n. rewrite (Es d n). by eapply ready_sector.
    + intros d n. rewrite (Es d n). apply Hs.
Qed.

(** *** The events *)

Lemma enqueue_last (s : ide W) t i :
  rep s t -> admissible (Request i) t ->
  exists s1, iderw_enqueue nbuf i s =
      (q ← reads idequeue; when (bool_decide (q = Some i)) (idestart (Some i))) s1 /\
    chain (qnext s1) (idequeue s1) (queue t ++ [i]) /\
    (forall j, bufs s1 j = copies t j) /\ ctl s1 = ctl s /\ havedisk1 s1 = drive1.
Proof.
  intros R (Hni & Hi & Hx). pose proof Hx as (Hbusy & Hv & Hdev & Hn & Hok).
  unfold iderw_enqueue. erewrite bind_ok by reflexivity. rewrite (rep_bufs _ _ R).
  unfold busy in Hbusy. rewrite Hbusy, (Memide.nothing_to_do _ Hv). cbn [negb].
  erewrite bind_ok by reflexivity. rewrite (rep_disk1 _ _ R).
  replace (negb (dev (copies t i) =? 0) && negb drive1) with false
    by (destruct Hdev as [-> | ->]; [done|by rewrite andb_false_r]).
  erewrite bind_ok by reflexivity.
  assert (Hc : chain (qnext (set_qnext i None s)) (follow Head (set_qnext i None s)) (queue t))
    by (apply chain_insert; [done|apply R]).
  rewrite (bind_ok _ _ _ _ _ (find_end_ok _ (S nbuf) Head _ Hc ltac:(pose proof (queue_length _ _ R); lia))).
  eexists. split; [erewrite bind_ok by reflexivity; reflexivity|].
  assert (Hnd := rep_nodup _ _ R). revert Hc Hnd Hni. generalize (queue t). intros l Hc Hnd Hni.
  destruct l as [|j l _] using rev_ind.
  - cbn in *. rewrite fn_lookup_insert. split_and!; try done; try apply R.
  - rewrite last_snoc. cbn [from_option]. split_and!; try done; try apply R.
    apply chain_append; try done. cbn [set_qnext qnext]. apply fn_lookup_insert.
Qed.

Lemma enqueue_ok (s : ide W) t i :
  rep s t -> admissible (Request i) t ->
  exists s', cstep (Request i) s = Ok tt s' /\ rep s' (astep (Request i) t).
Proof.
  intros R H. destruct (enqueue_last s t i R H) as (s1 & E & Hc & Hb & Ec & Hd1).
  cbn [cstep]. rewrite E. clear E. destruct H as (Hni & Hi & Hx).
  assert (Hnd : NoDup (queue t ++ [i])).
  { apply NoDup_app. split_and!; [apply R| |apply NoDup_singleton].
    intros j Hj ->%list_elem_of_singleton. done. }
  assert (Hbd : Forall (fun i => i < nbuf)%nat (queue t ++ [i])) by (apply Forall_app; split; [apply R|by constructor]).
  assert (Hrq : Forall (fun i => request_ok (copies t i)) (queue t ++ [i])) by (apply Forall_app; split; [apply R|by constructor]).
  pose proof (rep_dev _ _ R) as Hdev. destruct (queue t) as [|h q] eqn:Eq; cbn in Hc.
  - destruct Hc as [Eh Hc]. erewrite bind_ok by reflexivity. rewrite Eh, bool_decide_true by done.
    destruct Hdev as [Hr Hs]. rewrite <- Ec in Hr, Hs.
    destruct (restart_ok s1 (astep (Request i) t)) as (s' & E & R');
      [cbn [astep queue copies contents]; rewrite ?Eq; done..|].
    exists s'. split; [|done]. erewrite bind_ok in E by reflexivity. by rewrite Eh in E.
  - destruct Hc as [Eh Hc]. erewrite bind_ok by reflexivity. rewrite Eh.
    rewrite bool_decide_false by (intros [= ->]; by apply Hni; left).
    exists s1. split; [done|]. split; cbn [astep queue copies contents]; rewrite ?Eq; try done.
    cbn. rewrite Ec. destruct Hdev as (w0 & ? & ? & ? & ?). by exists w0.
Qed.

Lemma touch_ok (s : ide W) t i x :
  rep s t -> admissible (Touch i x) t ->
  exists s', cstep (Touch i x) s = Ok tt s' /\ rep s' (astep (Touch i x) t).
Proof.
  intros R Hi. cbn in Hi. eexists. split; [reflexivity|].
  split; cbn [astep set_buf queue copies contents ctl bufs qnext idequeue havedisk1]; try apply R.
  - intros j. destruct (decide (i = j)) as [->|]; [by rewrite !fn_lookup_insert|].
    rewrite !fn_lookup_insert_ne by done. apply R.
  - apply Forall_forall. intros j Hj. rewrite fn_lookup_insert_ne by (intros ->; done).
    by apply (proj1 (Forall_forall _ _) (rep_req _ _ R)).
  - pose proof (rep_dev _ _ R) as Hd. destruct (queue t) as [|h q]; [done|].
    rewrite fn_lookup_insert_ne by (intros ->; by apply Hi; left). done.
Qed.

(** The transfer at the start of the handler. *)
Lemma transfer_ok (s : ide W) b w0 :
  let x := bufs s b in
  settled None w0 -> request_ok x -> (forall d n, block_ok (sector w0 d n)) -> ctl s = finish (issued x w0) ->
  exists s', (if negb (has (flags x) B_DIRTY) then
       r ← idewait true;
       when (r >=? 0)
         (fun s => let '(d, w) := insl 0x1f0 (BSIZE / 4) (ctl s) in Ok tt (set_buf b (set_data d x) (set_ctl w s)))
     else mret tt) s = Ok tt s' /\
    (forall j, bufs s' j = if decide (j = b) then
       (if dirty x then x else set_data (sector w0 (drive x) (blockno x)) x) else bufs s j) /\
    qnext s' = qnext s /\ idequeue s' = idequeue s /\ havedisk1 s' = havedisk1 s /\
    ready patience None (ctl s') /\
    forall d n, sector (ctl s') d n =
      if dirty x && (d =? drive x) && (n =? blockno x) then data x else sector w0 d n.
Proof.
  intros x Hw Hx Hok Ec. destruct (dirty x) eqn:Hd.
  - destruct (issued_write x w0 Hw Hx Hd) as [Hr Hs]. unfold dirty in Hd. rewrite Hd. exists s.
    rewrite Ec. split_and!; try done. intros j. by case_decide; subst.
  - destruct (issued_read x w0 Hw Hx Hd) as [Es Hr]. unfold dirty in Hd. rewrite Hd. cbn [negb].
    rewrite <- Ec in Hr, Es. destruct (idewait_ok true _ _ Hr) as (w1 & E1 & Hs1 & Es1).
    destruct (data_in _ _ Hs1) as (w2 & E2 & Es2 & Hr2). rewrite (bind_ok _ _ _ _ _ E1).
    change (0 >=? 0) with true. cbn [when set_ctl ctl]. rewrite E2. eexists. split; [reflexivity|].
    cbn [set_buf set_ctl ctl bufs qnext idequeue havedisk1 andb]. split_and!; try done.
    + intros j. case_decide; [subst; by rewrite fn_lookup_insert|by rewrite fn_lookup_insert_ne].
    + intros d n. by rewrite (Es2 d n), (Es1 d n), (Es d n).
Qed.

Lemma interrupt_ok (s : ide W) t :
  rep s t -> exists s', cstep Interrupt s = Ok tt s' /\ rep s' (astep Interrupt t).
Proof.
  intros R. pose proof (rep_chain _ _ R) as Hc. pose proof (rep_dev _ _ R) as Hdev.
  pose proof (rep_nodup _ _ R) as Hnd. pose proof (rep_bound _ _ R) as Hbd. pose proof (rep_req _ _ R) as Hrq.
  cbn [cstep astep]. unfold device_intr. erewrite bind_ok by reflexivity.
  destruct (queue t) as [|b q] eqn:Eq; cbn in Hc.
  { rewrite Hc. cbn. unfold ideintr. munfold. rewrite Hc. by exists s. }
  destruct Hc as [Eh Hc], Hdev as (w0 & Hw & Hwok & Hws & Ec). rewrite Eh. cbn.
  apply NoDup_cons in Hnd as [Hbq Hnd].
  erewrite bind_ok by reflexivity. unfold ideintr. rewrite bind_assoc. erewrite bind_ok by reflexivity.
  cbn [set_ctl idequeue]. rewrite Eh, bind_assoc. erewrite bind_ok by reflexivity. rewrite bind_assoc.
  erewrite bind_ok by reflexivity. rewrite bind_assoc. erewrite bind_ok by reflexivity. rewrite bind_assoc.
  set (s1 := set_idequeue _ _).
  assert (Ex : bufs s1 b = copies t b) by apply R.
  destruct (transfer_ok s1 b w0 Hw) as (s2 & E2 & Hb2 & Eq2 & Ei2 & Ed2 & Hr2 & Hs2);
    [rewrite Ex; by apply (Forall_inv Hrq)|done|rewrite Ex; cbn; by rewrite Ec|].
  rewrite (bind_ok _ _ _ _ _ E2), !bind_assoc. erewrite bind_ok by reflexivity. rewrite bind_assoc.
  erewrite bind_ok by reflexivity. set (s3 := set_buf _ _ _).
  assert (Eb3 : forall j, bufs s3 j = copies (serve b q t) j).
  { intros j. unfold s3. cbn [set_buf bufs]. rewrite fn_lookup_insert, Hb2, decide_True by done.
    unfold serve. rewrite Ex. destruct (decide (b = j)) as [<-|Hne].
    - rewrite fn_lookup_insert. rewrite Hws. destruct (dirty (copies t b)); cbn [copies]; by rewrite fn_lookup_insert.
    - rewrite !fn_lookup_insert_ne, Hb2, decide_False by congruence.
      destruct (dirty (copies t b)); cbn [copies]; rewrite fn_lookup_insert_ne by done; apply R. }
  assert (Ecp : forall j, j ∈ q -> copies (serve b q t) j = copies t j).
  { intros j Hj. unfold serve. cbv zeta. destruct (dirty (copies t b)); cbn [copies]; rewrite fn_lookup_insert_ne by (intros ->; done); done. }
  assert (Eqq : queue (serve b q t) = q) by (unfold serve; cbv zeta; by destruct (dirty (copies t b))).
  destruct (restart_ok s3 (serve b q t)) as (s4 & E4 & R4); rewrite ?Eqq; try done.
  - unfold s3. cbn [set_buf qnext idequeue]. rewrite Eq2, Ei2. exact Hc.
  - exact (Forall_inv_tail Hbd).
  - apply Forall_forall. intros j Hj. rewrite Ecp by done. by apply (proj1 (Forall_forall _ _) (Forall_inv_tail Hrq)).
  - unfold s3. cbn [set_buf havedisk1]. rewrite Ed2. apply R.
  - intros d n. unfold s3. cbn [set_buf ctl]. rewrite Hs2, Hws, Ex. unfold serve.
    by destruct (dirty (copies t b)).
  - exists s4. split; [|done]. erewrite bind_ok in E4 by reflexivity. rewrite ?bind_assoc.
    erewrite bind_ok by reflexivity. rewrite ?bind_assoc, (bind_ok _ _ _ _ _ E4). done.
Qed.

Lemma event_ok e (s : ide W) t :
  rep s t -> admissible e t -> exists s', cstep e s = Ok tt s' /\ rep s' (astep e t).
Proof. destruct e; [apply enqueue_ok|intros; by apply interrupt_ok|apply touch_ok]. Qed.

Lemma crun_ok es : forall (s : ide W) t,
  rep s t -> admissible_run es t -> exists s', crun es s = Ok tt s' /\ rep s' (arun es t).
Proof.
  induction es as [|e es IH]; intros s t R H; [by exists s|]. destruct H as [He H].
  destruct (event_ok e s t R He) as (s1 & E & R1). destruct (IH s1 _ R1 H) as (s2 & E2 & R2).
  exists s2. split; [|done]. cbn [crun]. by rewrite (bind_ok _ _ _ _ _ E).
Qed.

(** *** Boot *)

Lemma probe_loop_ok k : forall (s : ide W),
  probing (ctl s) -> havedisk1 s = false -> exists w',
    probe_loop (S k) s = Ok tt (MkIde w' (bufs s) (qnext s) (idequeue s) drive1) /\
    probing w' /\ same_sectors (ctl s) w'.
Proof.
  induction k as [|k IH]; intros s Hp Hd; destruct (probe_poll _ Hp) as (r & w' & E & Es & Hp' & Hr);
    (change (probe_loop (S ?n)) with (r ← in_ 0x1f7;
      if negb (r =? 0) then modify (fun s : ide W => MkIde (ctl s) (bufs s) (qnext s) (idequeue s) true)
      else probe_loop n)); (erewrite bind_ok by (unfold in_; rewrite E; reflexivity)); rewrite Hr, negb_involutive.
  - exists w'. split_and!; try done. destruct drive1; [done|]. cbn. unfold mret, M_ret, set_ctl. by rewrite Hd.
  - destruct drive1 eqn:E1; [by exists w'|].
    destruct (IH (set_ctl w' s) Hp' Hd) as (w2 & E2 & Hp2 & Es2). exists w2. rewrite E2. split_and!; [done|done|].
    intros d n. rewrite (Es2 d n). cbn [set_ctl ctl]. apply Es.
Qed.

Lemma ideinit_ok w xs nx :
  ready patience None w -> exists s, ideinit (MkIde w xs nx None false) = Ok tt s /\
    rep s (MkDrives (sector w) [] xs).
Proof.
  intros H. destruct (idewait_ok false _ (MkIde w xs nx None false) H) as (w1 & E1 & Hs1 & Es1).
  destruct (probe _ Hs1) as [Hp Es2].
  destruct (probe_loop_ok 999 (MkIde (outb 0x1f6 0xf0 w1) xs nx None false) Hp eq_refl) as (w3 & E3 & Hp3 & Es3).
  destruct (probe_end _ Hp3) as [Hr Es4].
  eexists. split.
  - unfold ideinit. rewrite (bind_ok _ _ _ _ _ E1). erewrite bind_ok by reflexivity.
    rewrite (bind_ok _ _ _ _ _ E3). reflexivity.
  - split; cbn; try done; try constructor; [done|].
    intros d n. refine (eq_trans (Es4 d n) (eq_trans (Es3 d n) (eq_trans (Es2 d n) (Es1 d n)))).
Qed.

(** *** Latency *)

Fixpoint interrupts (es : list event) : nat :=
  match es with [] => 0 | Interrupt :: es' => S (interrupts es') | _ :: es' => interrupts es' end.

Definition about (i : nat) (e : event) : Prop :=
  match e with Request j | Touch j _ => j = i | Interrupt => False end.

Lemma finished_flags x : valid (finished x) = true /\ dirty (finished x) = false.
Proof.
  unfold valid, dirty, finished. cbn [set_flags flags]. rewrite has_clear_same, has_clear_other, has_lor by done.
  by rewrite orb_true_r.
Qed.

Lemma done_stays i es : forall t,
  i ∉ queue t -> Forall (fun e => ~ about i e) es ->
  copies (arun es t) i = copies t i.
Proof.
  induction es as [|e es IH]; intros t Hi Ha; [done|].
  pose proof (Forall_inv Ha) as He. apply Forall_inv_tail in Ha. cbn in He. cbn [arun foldl].
  fold (arun es (astep e t)). destruct e as [j| |j y]; cbn [astep about] in *.
  - rewrite IH; [done| |done]. cbn. rewrite elem_of_app, list_elem_of_singleton. naive_solver.
  - destruct (queue t) as [|h q] eqn:Eq; [apply IH; [by rewrite Eq|done]|].
    apply not_elem_of_cons in Hi as [Hh Hi].
    rewrite IH; [|unfold serve; cbv zeta; by destruct (dirty (copies t h))|done].
    unfold serve. cbv zeta. destruct (dirty (copies t h)); cbn [copies]; by rewrite fn_lookup_insert_ne by done.
  - rewrite IH; [cbn; by rewrite fn_lookup_insert_ne by done|done|done].
Qed.

Lemma arun_waiting i es : forall t q r,
  queue t = q ++ i :: r -> NoDup (queue t) -> admissible_run es t -> Forall (fun e => ~ about i e) es ->
  if (interrupts es <=? length q)%nat then copies (arun es t) i = copies t i
  else valid (copies (arun es t) i) = true /\ dirty (copies (arun es t) i) = false.
Proof.
  induction es as [|e es IH]; intros t q r Eq Hnd Hadm Ha; [done|].
  pose proof (Forall_inv Ha) as He. apply Forall_inv_tail in Ha. cbn in He. destruct Hadm as [Had Hadm].
  cbn [arun foldl]. fold (arun es (astep e t)). destruct e as [j| |j y]; cbn [astep about interrupts] in *.
  - apply (IH (MkDrives (contents t) (queue t ++ [j]) (copies t)) q (r ++ [j])); cbn [queue]; try done;
      [by rewrite Eq, <- app_assoc|].
    apply NoDup_app. split_and!; [done| |apply NoDup_singleton].
    intros k Hk ->%list_elem_of_singleton. by destruct Had.
  - destruct q as [|h q]; rewrite Eq in Hadm, Hnd |- *; cbn [app length] in *.
    + apply NoDup_cons in Hnd as [Hi _]. cbn [Nat.leb].
      assert (Hi' : i ∉ queue (serve i r t)) by (unfold serve; cbv zeta; by destruct (dirty (copies t i))).
      rewrite (done_stays i es _ Hi' Ha). unfold serve. cbv zeta.
      destruct (dirty (copies t i)); cbn [copies]; rewrite fn_lookup_insert; apply finished_flags.
    + apply NoDup_cons in Hnd as [Hh Hnd].
      assert (Ec : copies (serve h (q ++ i :: r) t) i = copies t i).
      { unfold serve. cbv zeta. destruct (dirty (copies t h)); cbn [copies];
          rewrite fn_lookup_insert_ne by (intros ->; apply Hh; set_solver); done. }
      assert (Eq' : queue (serve h (q ++ i :: r) t) = q ++ i :: r) by (unfold serve; cbv zeta; by destruct (dirty (copies t h))).
      specialize (IH (serve h (q ++ i :: r) t) q r Eq'). rewrite Eq', Ec in IH. by apply IH.
  - specialize (IH (MkDrives (contents t) (queue t) (<[j := y]> (copies t))) q r Eq Hnd Hadm Ha).
    cbn [copies] in IH. by rewrite fn_lookup_insert_ne in IH by done.
Qed.

Lemma flags_done x :
  valid x = true -> dirty x = false -> (Z.land (flags x) (Z.lor B_VALID B_DIRTY) =? B_VALID) = true.
Proof.
  unfold valid, dirty, has. rewrite negb_true_iff, negb_false_iff, Z.land_lor_distr_r, Z.eqb_neq, !Z.eqb_eq.
  intros Hv ->. rewrite Z.lor_0_r. destruct (Z.testbit (flags x) 1) eqn:Eb.
  - apply Z.bits_inj'. intros n Hn. rewrite Z.land_spec. unfold B_VALID. change 2 with (2 ^ 1).
    rewrite Z.pow2_bits_eqb by lia. destruct (Z.eqb_spec 1 n) as [<-|]; [by rewrite Eb|apply andb_false_r].
  - destruct Hv. apply Z.bits_inj'. intros n Hn. rewrite Z.land_spec, Z.bits_0. unfold B_VALID. change 2 with (2 ^ 1).
    rewrite Z.pow2_bits_eqb by lia. destruct (Z.eqb_spec 1 n) as [<-|]; [by rewrite Eb|apply andb_false_r].
Qed.

Lemma admissible_app es1 es2 t :
  admissible_run (es1 ++ es2) t <-> admissible_run es1 t /\ admissible_run es2 (arun es1 t).
Proof. revert t. induction es1 as [|e es1 IH]; intros t; cbn; [naive_solver|]. rewrite IH. naive_solver. Qed.

Lemma arun_app es1 es2 t : arun (es1 ++ es2) t = arun es2 (arun es1 t).
Proof. unfold arun. by rewrite foldl_app. Qed.

(** C28: The driver serves its queue as an array of blocks.  After [ideinit],
    whatever sequence of requests, interrupts and changes of buffers by their
    holders follows, the driver never panics or hangs, the buffers are those
    of a machine that serves the requests one at a time in order of arrival,
    and when no request is left the drives hold what that machine stored. *)
Theorem ide_refines_queue w xs es :
  ready patience None w -> admissible_run es (MkDrives (sector w) [] xs) ->
  let t := arun es (MkDrives (sector w) [] xs) in
  exists s, (ideinit;; crun es) (MkIde w xs (fun _ => None) None false) = Ok tt s /\
    (forall i, bufs s i = copies t i) /\
    (queue t = [] -> forall d n, sector (ctl s) d n = contents t d n).
Proof.
  intros Hr Ha t. destruct (ideinit_ok w xs (fun _ => None) Hr) as (s0 & E0 & R0).
  destruct (crun_ok es s0 _ R0 Ha) as (s & E & R). exists s. rewrite (bind_ok _ _ _ _ _ E0).
  split_and!; [done|apply R|]. intros Eq. pose proof (rep_dev _ _ R) as Hd. fold t in Hd. rewrite Eq in Hd. apply Hd.
Qed.

(** A request waits for those before it and no longer.  A process that has
    called [iderw] sleeps while at most as many interrupts have come as there
    were requests in the queue when it called, and finds its request done
    from the next interrupt on, whatever else is requested meanwhile. *)
Theorem ide_request_latency w xs es1 i es2 :
  ready patience None w ->
  admissible_run (es1 ++ Request i :: es2) (MkDrives (sector w) [] xs) ->
  Forall (fun e => ~ about i e) es2 ->
  exists s, (ideinit;; crun (es1 ++ Request i :: es2)) (MkIde w xs (fun _ => None) None false) = Ok tt s /\
    iderw_wait i s =
      if (interrupts es2 <=? length (queue (arun es1 (MkDrives (sector w) [] xs))))%nat
      then Sleep (ChanBuf i) s else Ok tt s.
Proof.
  intros Hr Ha Hm. destruct (ideinit_ok w xs (fun _ => None) Hr) as (s0 & E0 & R0).
  destruct (crun_ok _ s0 _ R0 Ha) as (s & E & R). exists s. rewrite (bind_ok _ _ _ _ _ E0). split; [done|].
  apply admissible_app in Ha as [Ha1 Ha2]. destruct Ha2 as [Hi Ha2].
  destruct (crun_ok es1 s0 _ R0 Ha1) as (s1 & _ & R1). destruct (event_ok _ _ _ R1 Hi) as (s2 & _ & R2).
  rewrite arun_app in R. set (t1 := arun es1 _) in *. cbn [arun foldl] in R. fold (arun es2 (astep (Request i) t1)) in R.
  pose proof (arun_waiting i es2 (astep (Request i) t1) (queue t1) [] eq_refl (rep_nodup _ _ R2) Ha2 Hm) as Hw.
  unfold iderw_wait. erewrite bind_ok by reflexivity. rewrite (rep_bufs _ _ R).
  destruct (interrupts es2 <=? length (queue t1))%nat.
  - rewrite Hw. cbn [astep copies]. destruct Hi as (_ & _ & _ & Hv & _). by rewrite (Memide.nothing_to_do _ Hv).
  - destruct Hw as [Hv Hd]. by rewrite (flags_done _ Hv Hd).
Qed.

End laws.

(** ** The contract of the buffer cache

    [iderw] as the cache sees it when no other request is under way: the
    caller sleeps until the interrupt, then goes on. *)

Section contract.
Context {W : Type} `{!Controller W, !ControllerOk W}.

Definition iderw_sync (b : buf) : M W buf := fun w =>
  match (iderw_enqueue 1 0;; device_intr;; iderw_wait 0;; reads (fun s => bufs s 0%nat))
      (MkIde w (fun _ => b) (fun _ => None) None drive1) with
  | Ok x s => Ok x (ctl s)
  | Panic msg => Panic msg
  | Sleep c s => Sleep c (ctl s)
  | Undef why => Undef why
  | Diverge => Diverge
  end.

Lemma iderw_sync_ok b w :
  ready patience None w -> request_ok b ->
  let t := serve 0 [] (MkDrives (sector w) [0%nat] (fun _ => b)) in
  exists w', iderw_sync b w = Ok (copies t 0%nat) w' /\ ready patience None w' /\
    forall d n, sector w' d n = contents t d n.
Proof.
  intros Hr Hb t. set (s0 := MkIde w (fun _ => b) (fun _ => None) None drive1).
  assert (R0 : rep 1 s0 (MkDrives (sector w) [] (fun _ => b))) by (split; cbn; try done; constructor).
  destruct (crun_ok 1 [Request 0; Interrupt] s0 _ R0) as (s & E & R); [cbn; split_and!; try done; [set_solver|lia]|].
  change (arun [Request 0; Interrupt] (MkDrives (sector w) [] (fun _ => b))) with t in R.
  assert (Eq : queue t = []) by (unfold t, serve; cbv zeta; cbn [copies]; by destruct (dirty b)).
  pose proof (rep_dev _ _ _ R) as Hd. rewrite Eq in Hd. exists (ctl s). split; [|done].
  cbn [crun cstep] in E. apply bind_ok_inv in E as ([] & s1 & E1 & E). apply bind_ok_inv in E as ([] & s2 & E2 & E).
  injection E as ->. unfold iderw_sync. fold s0. rewrite (bind_ok _ _ _ _ _ E1), (bind_ok _ _ _ _ _ E2).
  assert (Hf : valid (copies t 0%nat) = true /\ dirty (copies t 0%nat) = false)
    by (unfold t, serve; cbv zeta; cbn [copies]; destruct (dirty b); cbn [copies]; rewrite fn_lookup_insert; apply finished_flags).
  erewrite bind_ok; [unfold reads; by rewrite (rep_bufs _ _ _ R)|].
  unfold iderw_wait. erewrite bind_ok by reflexivity. rewrite (rep_bufs _ _ _ R), flags_done by apply Hf. done.
Qed.

(** Disk 1 of the controller, up to the size of the file system. *)
#[local] Instance ide_driver : BlockDriver W := {
  drv_rw := iderw_sync; drv_size := fun _ => FSSIZE; drv_block := fun w n => sector w 1 n
}.

Lemma finished_busy x : busy (finished x) = busy x.
Proof.
  unfold busy, finished. cbn [set_flags flags]. rewrite has_clear_other, has_lor by done.
  change (has B_VALID B_BUSY) with false. apply orb_false_r.
Qed.

Context (Hdisk1 : drive1 = true).

Lemma ide_read w b :
  ready patience None w -> busy b = true -> valid b = false -> dirty b = false ->
  dev b = 1 -> 0 <= blockno b < FSSIZE ->
  exists b' w', drv_rw b w = Ok b' w' /\ same_buf b b' /\ data b' = sector w 1 (blockno b) /\
    busy b' = true /\ valid b' = true /\ dirty b' = false /\
    ready patience None w' /\ drv_size w' = drv_size w /\
    forall n, 0 <= n < drv_size w -> drv_block w' n = drv_block w n.
Proof.
  intros Hr Hb Hv Hd Hdev Hn.
  destruct (iderw_sync_ok b w Hr) as (w' & E & Hr' & Hs); [split_and!; auto; try lia; congruence|].
  unfold serve in E, Hs. cbv zeta in E, Hs. cbn [copies] in E, Hs. rewrite Hd in E, Hs.
  cbn [copies contents] in E, Hs. rewrite fn_lookup_insert in E.
  replace (drive b) with 1 in E by (unfold drive; by rewrite Hdev).
  eexists _, w'. split; [exact E|]. rewrite finished_busy. split_and!; try done; try apply finished_flags.
  intros n _. apply Hs.
Qed.

Lemma ide_write w b :
  ready patience None w -> busy b = true -> dirty b = true ->
  dev b = 1 -> 0 <= blockno b < FSSIZE -> block_ok (data b) ->
  exists b' w', drv_rw b w = Ok b' w' /\ same_buf b b' /\ data b' = data b /\
    busy b' = true /\ valid b' = true /\ dirty b' = false /\
    ready patience None w' /\ drv_size w' = drv_size w /\
    forall n, 0 <= n < drv_size w -> drv_block w' n = if n =? blockno b then data b else drv_block w n.
Proof.
  intros Hr Hb Hd Hdev Hn Hok.
  destruct (iderw_sync_ok b w Hr) as (w' & E & Hr' & Hs); [split_and!; auto; lia|].
  unfold serve in E, Hs. cbv zeta in E, Hs. cbn [copies] in E, Hs. rewrite Hd in E, Hs.
  cbn [copies contents] in E, Hs. rewrite fn_lookup_insert in E.
  replace (drive b) with 1 in Hs by (unfold drive; by rewrite Hdev).
  eexists _, w'. split; [exact E|]. rewrite finished_busy. split_and!; try done; try apply finished_flags.
  intros n _. apply Hs.
Qed.

(** ide.c in place of memide.c under the buffer cache. *)
Definition ide_driver_ok : BlockDriverOk W := {|
  drv_wf := ready patience None;
  drv_block_ok w n H _ := ready_sector _ _ _ 1 n H;
  drv_read := ide_read; drv_write := ide_write
|}.

End contract.

(** ** A controller

    Two drives, a task file, and a drive that needs two polls after each
    command. *)

Module Drive.

Record device := MkDevice {
  regs : Z -> Z;
  outdata : list Z;
  hold : block;
  delay : nat;
  platter : Z -> Z -> block
}.

Definition selected (w : device) : Z := if Z.testbit (regs w 0x1f6) 4 then 1 else 0.
Definition lba (w : device) : Z :=
  regs w 0x1f3 + 256 * regs w 0x1f4 + 65536 * regs w 0x1f5 + 16777216 * Z.land (regs w 0x1f6) 15.

Definition carry_out (w : device) : device :=
  if regs w 0x1f7 =? IDE_CMD_READ
  then MkDevice (regs w) (outdata w) (platter w (selected w) (lba w)) 2 (platter w)
  else MkDevice (regs w) (outdata w) (hold w) 2
    (fun d n => if (d =? selected w) && (n =? lba w) then outdata w else platter w d n).

#[export] Instance device_controller : Controller device := {
  outb port v w := MkDevice (zset (regs w) port v) (outdata w) (hold w) (delay w) (platter w);
  outsl _ x w := MkDevice (regs w) x (hold w) (delay w) (platter w);
  inb _ w := match delay w with
    | O => (IDE_DRDY, w)
    | S k => (IDE_BSY, MkDevice (regs w) (outdata w) (hold w) k (platter w))
    end;
  insl _ _ w := (hold w, w);
  finish := carry_out;
  sector := platter;
  patience := 2;
  drive1 := true
}.

Definition holds (x : option block) (w : device) : Prop :=
  (forall d n, block_ok (platter w d n)) /\ match x with Some y => hold w = y | None => True end.

Lemma head_decodes d l3 :
  d = 0 \/ (d = 1 /\ drive1 = true) -> 0 <= l3 < 16 ->
  (if Z.testbit (0xe0 + 16 * d + l3) 4 then 1 else 0) = d /\ Z.land (0xe0 + 16 * d + l3) 15 = l3.
Proof.
  intros Hd Hl. assert (H : l3 ∈ seqZ 0 16) by (apply elem_of_seqZ; lia).
  assert (Hall : Forall (fun l => Forall (fun d =>
    (if Z.testbit (0xe0 + 16 * d + l) 4 then 1 else 0) = d /\ Z.land (0xe0 + 16 * d + l) 15 = l) [0; 1]) (seqZ 0 16))
    by (vm_compute; repeat constructor).
  rewrite Forall_forall in Hall. specialize (Hall l3 H). rewrite Forall_forall in Hall.
  apply Hall. destruct Hd as [-> |[-> _]]; set_solver.
Qed.

#[export] Instance device_ok : ControllerOk device.
Proof.
  refine {| ready k x w := (delay w <= k)%nat /\ holds x w; settled x w := delay w = O /\ holds x w;
    probing w := delay w = O /\ holds None w |}.
  - intros k x w d n [_ [H _]]. apply H.
  - intros k x w [Hk H]. cbn. destruct (delay w) as [|j] eqn:Ej.
    + eexists _, _. split; [reflexivity|]. split; [done|]. left. done.
    + eexists _, _. split; [reflexivity|]. split; [done|]. right. split; [done|]. exists (k - 1)%nat.
      split; [lia|]. cbn. split; [lia|done].
  - intros w d l0 l1 l2 l3 [Hd [Hp _]] Hdr _ _ _ Hl3. destruct (head_decodes d l3 Hdr Hl3) as [E1 E2].
    cbn -[Z.testbit Z.land Z.add Z.mul]. unfold carry_out, same_sectors, holds. cbn -[Z.testbit Z.land Z.add Z.mul].
    unfold selected, lba. cbn -[Z.testbit Z.land Z.add Z.mul]. rewrite E1, E2. split_and!; done || lia.
  - intros w d l0 l1 l2 l3 x [Hd [Hp _]] Hdr _ _ _ Hl3 Hx. destruct (head_decodes d l3 Hdr Hl3) as [E1 E2].
    cbn -[Z.testbit Z.land Z.add Z.mul]. unfold carry_out, holds. cbn -[Z.testbit Z.land Z.add Z.mul].
    unfold selected, lba. cbn -[Z.testbit Z.land Z.add Z.mul]. rewrite E1, E2. split_and!; try (done || lia).
    intros d' n. by destruct ((d' =? d) && (n =? _)).
  - intros w x [Hd [Hp Hx]]. exists w. cbn in *. rewrite Hx. unfold holds. split_and!; try done. lia.
  - intros w [Hd [Hp _]]. unfold holds, same_sectors. cbn. done.
  - intros w [Hd [Hp _]]. cbn. rewrite Hd. exists IDE_DRDY, w. unfold holds, same_sectors. done.
  - intros w [Hd [Hp _]]. unfold holds, same_sectors. cbn. rewrite Hd. split_and!; try done. lia.
Defined.

Definition zeros : block := replicate (Z.to_nat BSIZE) 0.
Definition blank : device := MkDevice (fun _ => 0) [] [] 1 (fun _ _ => zeros).

(** Buffer 0 is to be written to block 3 of disk 1, buffer 1 to be read from it. *)
Definition sample_bufs (i : nat) : buf :=
  if decide (i = O) then MkBuf (Z.lor B_BUSY B_DIRTY) 1 3 0 0 (replicate (Z.to_nat BSIZE) 7)
  else MkBuf B_BUSY 1 3 0 0 [].

Lemma blank_ready : ready patience None blank.
Proof. split; [cbn; lia|]. split; [|done]. intros d n. reflexivity. Qed.

Lemma sample_admissible es :
  Forall (eq Interrupt) es ->
  admissible_run 2 (Request 0 :: Request 1 :: es) (MkDrives (sector blank) [] sample_bufs).
Proof.
  intros He. cbn. split_and!; try (done || set_solver || lia).
  - split_and!; try done; [by right|by right].
  - split_and!; try done; [by left|by right].
  - match goal with |- admissible_run _ _ ?t => generalize t end. induction He as [|? es <- _ IH]; [done|].
    intros t. split; [done|apply IH].
Qed.

End Drive.

#[export] Existing Instances Drive.device_controller Drive.device_ok.

Lemma ide_refines_queue_witness :
  exists s, (ideinit;; crun 2 [Request 0; Request 1; Interrupt; Interrupt])
      (MkIde Drive.blank Drive.sample_bufs (fun _ => None) None false) = Ok tt s /\
    data (bufs s 1%nat) = replicate (Z.to_nat BSIZE) 7.
Proof.
  destruct (ide_refines_queue 2 Drive.blank Drive.sample_bufs [Request 0; Request 1; Interrupt; Interrupt]
    Drive.blank_ready) as (s & E & Hb & _); [apply Drive.sample_admissible; by repeat constructor|].
  exists s. split; [exact E|]. rewrite Hb. reflexivity.
Defined.

Lemma ide_request_latency_witness :
  exists s, (ideinit;; crun 2 [Request 0; Request 1; Interrupt; Interrupt])
      (MkIde Drive.blank Drive.sample_bufs (fun _ => None) None false) = Ok tt s /\
    iderw_wait 1 s = Ok tt s.
Proof.
  destruct (ide_request_latency 2 Drive.blank Drive.sample_bufs [Request 0] 1 [Interrupt; Interrupt]
    Drive.blank_ready) as (s & E & Hw);
    [apply (Drive.sample_admissible [Interrupt; Interrupt]); by repeat constructor|repeat constructor; by intros []|].
  exists s. split; [exact E|exact Hw].
Defined.
