(* ===== verification/Kbd.v ===== *)
(** * The keyboard (HW3/kbd.c and kbd.h)

    The decoding of scan codes into characters and its way into the console.
    The keyboard controller holds a queue of scan codes; [kbdgetc] takes one.
    The specification is in terms of keys pressed and released: which modifier
    keys are down, which locks are on, and what a key means then. *)

From stdpp Require Import base numbers list strings.
From Stdlib Require Import ZArith Lia Btauto.
From S2P Require Import Prelude Console.

Open Scope Z_scope.

Definition NO : Z := 0.
Definition SHIFT : Z := Z.shiftl 1 0.
Definition CTL : Z := Z.shiftl 1 1.
Definition ALT : Z := Z.shiftl 1 2.
Definition CAPSLOCK : Z := Z.shiftl 1 3.
Definition NUMLOCK : Z := Z.shiftl 1 4.
Definition SCROLLLOCK : Z := Z.shiftl 1 5.
Definition E0ESC : Z := Z.shiftl 1 6.

Definition KEY_HOME : Z := 0xE0.
Definition KEY_END : Z := 0xE1.
Definition KEY_UP : Z := 0xE2.
Definition KEY_DN : Z := 0xE3.
Definition KEY_LF : Z := 0xE4.
Definition KEY_RT : Z := 0xE5.
Definition KEY_PGUP : Z := 0xE6.
Definition KEY_PGDN : Z := 0xE7.
Definition KEY_INS : Z := 0xE8.
Definition KEY_DEL : Z := 0xE9.

(** [C(x)], stored in a [uchar]. *)
Definition C (x : Z) : Z := u8 (x - 64).

(** An initialiser of a [uchar[256]]: the first entries in a row, then entries
    by index; the rest are 0. *)
Definition table (row : list Z) (at_ : list (Z * Z)) (i : Z) : Z :=
  match List.find (fun e => e.1 =? i) at_ with
  | Some (_, v) => v
  | None => nth (Z.to_nat i) row 0
  end.

Definition shiftcode : Z -> Z :=
  table [] [(0x1D, CTL); (0x2A, SHIFT); (0x36, SHIFT); (0x38, ALT); (0x9D, CTL); (0xB8, ALT)].

Definition togglecode : Z -> Z := table [] [(0x3A, CAPSLOCK); (0x45, NUMLOCK); (0x46, SCROLLLOCK)].

Definition keypad : list (Z * Z) :=
  [(0xC8, KEY_UP); (0xD0, KEY_DN); (0xC9, KEY_PGUP); (0xD1, KEY_PGDN); (0xCB, KEY_LF); (0xCD, KEY_RT);
   (0x97, KEY_HOME); (0xCF, KEY_END); (0xD2, KEY_INS); (0xD3, KEY_DEL)].

(** Characters written as strings; the rows are those of the source. *)
Definition normalmap : Z -> Z := table (
  [NO; 0x1B] ++ cbytes "123456" ++
  cbytes "7890-=" ++ [8; 9] ++
  cbytes "qwertyui" ++
  cbytes "op[]" ++ [10; NO] ++ cbytes "as" ++
  cbytes "dfghjkl;" ++
  cbytes "'`" ++ [NO] ++ cbytes "\zxcv" ++
  cbytes "bnm,./" ++ [NO] ++ cbytes "*" ++
  [NO; 32; NO; NO; NO; NO; NO; NO] ++
  [NO; NO; NO; NO; NO; NO; NO] ++ cbytes "7" ++
  cbytes "89-456+1" ++
  cbytes "230." ++ [NO; NO; NO; NO])
  ([(0x9C, 10); (0xB5, 47)] ++ keypad).

Definition shiftmap : Z -> Z := table (
  [NO; 27] ++ cbytes "!@#$%^" ++
  cbytes "&*()_+" ++ [8; 9] ++
  cbytes "QWERTYUI" ++
  cbytes "OP{}" ++ [10; NO] ++ cbytes "AS" ++
  cbytes "DFGHJKL:" ++
  [34] ++ cbytes "~" ++ [NO] ++ cbytes "|ZXCV" ++
  cbytes "BNM<>?" ++ [NO] ++ cbytes "*" ++
  [NO; 32; NO; NO; NO; NO; NO; NO] ++
  [NO; NO; NO; NO; NO; NO; NO] ++ cbytes "7" ++
  cbytes "89-456+1" ++
  cbytes "230." ++ [NO; NO; NO; NO])
  ([(0x9C, 10); (0xB5, 47)] ++ keypad).

Definition ctlmap : Z -> Z := table (
  replicate 16 NO ++
  (C <$> cbytes "QWERTYUI") ++
  (C <$> cbytes "OP") ++ [NO; NO; 13; NO] ++ (C <$> cbytes "AS") ++
  (C <$> cbytes "DFGHJKL") ++ [NO] ++
  [NO; NO; NO] ++ (C <$> cbytes "\ZXCV") ++
  (C <$> cbytes "BNM") ++ [NO; NO] ++ (C <$> cbytes "/") ++ [NO; NO])
  ([(0x9C, 13); (0xB5, C 47)] ++ keypad).

(** [charcode[i]] *)
Definition charcode (i : Z) : Z -> Z :=
  if i =? 0 then normalmap else if i =? 1 then shiftmap else ctlmap.

(** [kbdgetc] on the queue of the controller and [shift]. *)
Definition kbdgetc (pending : list Z) (shift : Z) : Z * list Z * Z :=
  match pending with
  | [] => (-1, [], shift)
  | data :: rest =>
      if data =? 0xE0 then (0, rest, Z.lor shift E0ESC)
      else if has data 0x80 then
        let data := if has shift E0ESC then data else Z.land data 0x7F in
        (0, rest, Z.land shift (Z.lnot (Z.lor (shiftcode data) E0ESC)))
      else
        let '(data, shift) := if has shift E0ESC then (Z.lor data 0x80, Z.land shift (Z.lnot E0ESC))
                              else (data, shift) in
        let shift := Z.lor shift (shiftcode data) in
        let shift := Z.lxor shift (togglecode data) in
        let c := charcode (Z.land shift (Z.lor CTL SHIFT)) data in
        let c := if has shift CAPSLOCK then
                   if (97 <=? c) && (c <=? 122) then c + (65 - 97)
                   else if (65 <=? c) && (c <=? 90) then c + (97 - 65) else c
                 else c in
        (c, rest, shift)
  end.

(** What the loop of [consoleintr] gets until [kbdgetc] has no more; each
    call takes one code. *)
Fixpoint drain (k : nat) (pending : list Z) (shift : Z) : list Z * Z :=
  match k with
  | O => ([], shift)
  | S k' =>
      let '(c, rest, shift') := kbdgetc pending shift in
      if c <? 0 then ([], shift')
      else let '(cs, shift'') := drain k' rest shift' in (c :: cs, shift'')
  end.

Definition kbdintr (pending : list Z) (shift : Z) (s : input) : option (input * Z) :=
  let '(cs, shift') := drain (S (length pending)) pending shift in
  match consoleintr cs s with Some s' => Some (s', shift') | None => None end.

(** ** Keys

    A key has the number the tables use: its scan code, plus 128 for the keys
    whose codes follow an escape.  No key has the code of the escape itself. *)

Definition is_key (k : Z) : bool := (0 <=? k) && (k <? 256) && negb (k mod 128 =? 0x60).

Inductive stroke := Press (k : Z) | Release (k : Z).

Definition stroke_key (e : stroke) : Z := match e with Press k | Release k => k end.

(** The codes the keyboard sends. *)
Definition scan (e : stroke) : list Z :=
  match e with
  | Press k => if k <? 128 then [k] else [0xE0; k - 128]
  | Release k => if k <? 128 then [k + 128] else [0xE0; k]
  end.

(** Modifiers and locks. *)
Record mods := MkMods { m_shift : bool; m_ctl : bool; m_alt : bool; m_caps : bool; m_num : bool; m_scroll : bool }.

Definition no_mods : mods := MkMods false false false false false false.

Definition one_of (k : Z) (ks : list Z) : bool := existsb (Z.eqb k) ks.

(** The flags of [shift]: a modifier goes on with either of its two keys and
    off with either of them. *)
Definition stroke_flags (e : stroke) (m : mods) : mods :=
  match e with
  | Press k => MkMods (m_shift m || one_of k [0x2A; 0x36]) (m_ctl m || one_of k [0x1D; 0x9D])
      (m_alt m || one_of k [0x38; 0xB8]) (xorb (m_caps m) (k =? 0x3A)) (xorb (m_num m) (k =? 0x45))
      (xorb (m_scroll m) (k =? 0x46))
  | Release k => MkMods (m_shift m && negb (one_of k [0x2A; 0x36])) (m_ctl m && negb (one_of k [0x1D; 0x9D]))
      (m_alt m && negb (one_of k [0x38; 0xB8])) (m_caps m) (m_num m) (m_scroll m)
  end.

(** The keyboard itself: the keys that are down, and the locks, which each
    press of their key turns over. *)
Record keyboard := MkKeyboard { k_down : list Z; k_caps : bool; k_num : bool; k_scroll : bool }.

Definition untouched : keyboard := MkKeyboard [] false false false.

Definition stroke_keyboard (e : stroke) (b : keyboard) : keyboard :=
  match e with
  | Press k => MkKeyboard (k :: k_down b) (xorb (k_caps b) (k =? 0x3A)) (xorb (k_num b) (k =? 0x45)) (xorb (k_scroll b) (k =? 0x46))
  | Release k => MkKeyboard (filter (fun x => x <> k) (k_down b)) (k_caps b) (k_num b) (k_scroll b)
  end.

Definition keyboard_after (es : list stroke) (b : keyboard) : keyboard := foldl (fun b e => stroke_keyboard e b) b es.

(** A modifier is down while one of its keys is. *)
Definition some_down (ks : list Z) (b : keyboard) : bool := existsb (fun k => one_of k (k_down b)) ks.

Definition held_mods (b : keyboard) : mods :=
  MkMods (some_down [0x2A; 0x36] b) (some_down [0x1D; 0x9D] b) (some_down [0x38; 0xB8] b) (k_caps b) (k_num b) (k_scroll b).

(** The other key of a modifier. *)
Definition twin (k : Z) : option Z :=
  if k =? 0x2A then Some 0x36 else if k =? 0x36 then Some 0x2A else if k =? 0x1D then Some 0x9D
  else if k =? 0x9D then Some 0x1D else if k =? 0x38 then Some 0xB8 else if k =? 0xB8 then Some 0x38 else None.

(** No key of a modifier is let go while the other one is down. *)
Fixpoint one_at_a_time (es : list stroke) (b : keyboard) : bool :=
  match es with
  | [] => true
  | e :: es' =>
      match e with
      | Release k => match twin k with Some k' => negb (one_of k' (k_down b)) | None => true end
      | Press _ => true
      end && one_at_a_time es' (stroke_keyboard e b)
  end.

Definition swap_case (c : Z) : Z :=
  if (97 <=? c) && (c <=? 122) then c - 32 else if (65 <=? c) && (c <=? 90) then c + 32 else c.

(** The character of a key. *)
Definition glyph (m : mods) (k : Z) : Z :=
  let c := if m_ctl m then ctlmap k else if m_shift m then shiftmap k else normalmap k in
  if m_caps m then swap_case c else c.

(** What a sequence of strokes types: by the flags, and by the keys that are
    down. *)
Fixpoint typed (es : list stroke) (m : mods) : list Z :=
  match es with
  | [] => []
  | e :: es' =>
      let m' := stroke_flags e m in
      match e with Press k => glyph m' k :: typed es' m' | Release _ => typed es' m' end
  end.

Definition flags_after (es : list stroke) (m : mods) : mods := foldl (fun m e => stroke_flags e m) m es.

Fixpoint typed_on (es : list stroke) (b : keyboard) : list Z :=
  match es with
  | [] => []
  | e :: es' =>
      let b' := stroke_keyboard e b in
      match e with Press k => glyph (held_mods b') k :: typed_on es' b' | Release _ => typed_on es' b' end
  end.

(** [shift] between keys. *)
Definition encode (m : mods) : Z :=
  Z.b2z (m_shift m) + 2 * Z.b2z (m_ctl m) + 4 * Z.b2z (m_alt m) + 8 * Z.b2z (m_caps m) +
  16 * Z.b2z (m_num m) + 32 * Z.b2z (m_scroll m).

(** ** Every table entry, checked *)

Definition bools : list bool := [false; true].
Definition all_mods : list mods :=
  a ← bools; b ← bools; c ← bools; d ← bools; e ← bools; f ← bools; [MkMods a b c d e f].
Definition bytes : list Z := seqZ 0 256.

Lemma all_mods_complete m : m ∈ all_mods.
Proof. destruct m as [[] [] [] [] [] []]; vm_compute; repeat constructor. Qed.

(** The results of a run of codes, and [shift] after it. *)
Fixpoint codes (ds : list Z) (shift : Z) : list Z * Z :=
  match ds with
  | [] => ([], shift)
  | d :: ds' =>
      let '(c, _, shift') := kbdgetc [d] shift in
      let '(cs, shift'') := codes ds' shift' in (c :: cs, shift'')
  end.

Definition results (e : stroke) (m : mods) : list Z :=
  match e with
  | Press k => if k <? 128 then [glyph (stroke_flags e m) k] else [0; glyph (stroke_flags e m) k]
  | Release k => if k <? 128 then [0] else [0; 0]
  end.

Definition stroke_check (m : mods) (e : stroke) : bool :=
  negb (is_key (stroke_key e)) ||
  bool_decide (codes (scan e) (encode m) = (results e m, encode (stroke_flags e m))).

Lemma strokes_checked : forallb (fun m => forallb (stroke_check m) ((Press <$> bytes) ++ (Release <$> bytes))) all_mods = true.
Proof. vm_compute. reflexivity. Qed.

Definition typed_check (shift d : Z) : bool :=
  let '(c, _, shift') := kbdgetc [d] shift in
  (0 <=? c) && (c <? 256) && (0 <=? shift') && (shift' <? 128).

Lemma codes_checked : forallb (fun shift => forallb (typed_check shift) bytes) (seqZ 0 128) = true.
Proof. vm_compute. reflexivity. Qed.

Lemma elem_of_bytes d : 0 <= d < 256 -> d ∈ bytes.
Proof. intros. apply elem_of_seqZ. lia. Qed.

Lemma forallb_elem {A} (f : A -> bool) l x : forallb f l = true -> x ∈ l -> f x = true.
Proof. rewrite forallb_forall. intros H Hx. apply H. by apply list_elem_of_In. Qed.

Lemma stroke_codes e m :
  is_key (stroke_key e) = true -> codes (scan e) (encode m) = (results e m, encode (stroke_flags e m)).
Proof.
  intros Hk. pose proof (forallb_elem _ _ _ strokes_checked (all_mods_complete m)) as H. cbn beta in H.
  assert (Hr : 0 <= stroke_key e < 256).
  { unfold is_key in Hk. rewrite !andb_true_iff, Z.leb_le, Z.ltb_lt in Hk. lia. }
  apply elem_of_bytes in Hr.
  assert (He : e ∈ (Press <$> bytes) ++ (Release <$> bytes)).
  { apply elem_of_app. destruct e as [k|k]; [left|right]; apply list_elem_of_fmap; by exists k. }
  pose proof (forallb_elem _ _ _ H He) as H2. unfold stroke_check in H2. rewrite Hk in H2. cbn [negb orb] in H2.
  by apply bool_decide_eq_true in H2.
Qed.

(** ** Typing *)

(** The scan codes in portions, one for each interrupt. *)
Fixpoint deliver (portions : list (list Z)) (shift : Z) (s : input) : option (input * Z) :=
  match portions with
  | [] => Some (s, shift)
  | p :: ps => match kbdintr p shift s with Some (s', shift') => deliver ps shift' s' | None => None end
  end.

Lemma codes_app d1 d2 shift :
  codes (d1 ++ d2) shift =
    ((codes d1 shift).1 ++ (codes d2 (codes d1 shift).2).1, (codes d2 (codes d1 shift).2).2).
Proof.
  revert shift. induction d1 as [|d d1 IH]; intros shift; cbn [app codes].
  - cbn. by destruct (codes d2 shift).
  - destruct (kbdgetc [d] shift) as [[c r] sh]. rewrite IH. destruct (codes d1 sh) as [cs sh']. cbn.
    by destruct (codes d2 sh').
Qed.

Lemma kbdgetc_range d shift :
  is_byte d -> 0 <= shift < 128 -> 0 <= (kbdgetc [d] shift).1.1 < 256 /\ 0 <= (kbdgetc [d] shift).2 < 128.
Proof.
  intros Hd Hs.
  pose proof (forallb_elem _ _ shift codes_checked ltac:(apply elem_of_seqZ; lia)) as H. cbn beta in H.
  pose proof (forallb_elem _ _ d H (elem_of_bytes d Hd)) as H2. unfold typed_check in H2.
  destruct (kbdgetc [d] shift) as [[c r] sh].
  rewrite !andb_true_iff, !Z.leb_le, !Z.ltb_lt in H2. cbn. lia.
Qed.

Lemma kbdgetc_rest d ds shift : kbdgetc (d :: ds) shift = ((kbdgetc [d] shift).1.1, ds, (kbdgetc [d] shift).2).
Proof.
  unfold kbdgetc. destruct (d =? 0xE0); [done|]. destruct (has d 0x80); [done|].
  by destruct (has shift E0ESC).
Qed.

Lemma drain_codes ds : forall shift,
  Forall is_byte ds -> 0 <= shift < 128 ->
  drain (S (length ds)) ds shift = codes ds shift /\ 0 <= (codes ds shift).2 < 128.
Proof.
  induction ds as [|d ds IH]; intros shift Hb Hs; [done|].
  pose proof (Forall_inv Hb) as Hd. destruct (kbdgetc_range d shift Hd Hs) as [Hc Hs'].
  destruct (IH _ (Forall_inv_tail Hb) Hs') as [E Hs2].
  change (drain (S (length (d :: ds))) (d :: ds) shift) with
    (let '(c, rest, shift') := kbdgetc (d :: ds) shift in
     if c <? 0 then ([], shift') else let '(cs, shift'') := drain (S (length ds)) rest shift' in (c :: cs, shift'')).
  rewrite kbdgetc_rest. cbn [codes]. destruct (kbdgetc [d] shift) as [[c r] sh]. cbn in *.
  rewrite (proj2 (Z.ltb_ge c 0)) by lia. rewrite E. by destruct (codes ds sh).
Qed.

Lemma deliver_codes ps : forall shift s t,
  Forall is_byte (concat ps) -> 0 <= shift < 128 -> Console.rep s t ->
  exists s', deliver ps shift s = Some (s', (codes (concat ps) shift).2) /\
    Console.rep s' (foldl (fun t c => line_char c t) t (codes (concat ps) shift).1).
Proof.
  induction ps as [|p ps IH]; intros shift s t Hb Hs R; [by exists s|]. cbn [concat] in *.
  apply Forall_app in Hb as [Hp Hb]. destruct (drain_codes p shift Hp Hs) as [E Hs'].
  destruct (consoleintr_ok (codes p shift).1 s t R) as (s1 & E1 & R1).
  destruct (IH (codes p shift).2 s1 _ Hb Hs' R1) as (s2 & E2 & R2).
  exists s2. rewrite codes_app. cbn [fst snd]. rewrite foldl_app. split; [|done].
  cbn [deliver]. unfold kbdintr. rewrite E. destruct (codes p shift) as [cs sh]. cbn in *. by rewrite E1.
Qed.

Lemma line_char_0 t : line_char 0 t = t.
Proof. done. Qed.

(** Zeros are no characters: the results of the strokes are what they type. *)
Lemma codes_typed es : forall m t,
  Forall (fun e => is_key (stroke_key e) = true) es ->
  (codes (concat (scan <$> es)) (encode m)).2 = encode (flags_after es m) /\
  foldl (fun t c => line_char c t) t (codes (concat (scan <$> es)) (encode m)).1 =
  foldl (fun t c => line_char c t) t (typed es m).
Proof.
  induction es as [|e es IH]; intros m t Hk; [done|]. cbn [fmap list_fmap concat].
  rewrite codes_app, (stroke_codes _ _ (Forall_inv Hk)). cbn [fst snd].
  destruct (IH (stroke_flags e m) (foldl (fun t c => line_char c t) t (results e m)) (Forall_inv_tail Hk)) as [IH1 IH2].
  split; [exact IH1|]. rewrite foldl_app, IH2. clear.
  destruct e as [k|k]; cbn [typed results]; destruct (k <? 128); cbn [foldl]; by rewrite ?line_char_0.
Qed.

Lemma scan_bytes e : is_key (stroke_key e) = true -> Forall is_byte (scan e).
Proof.
  unfold is_key, is_byte. rewrite !andb_true_iff, Z.leb_le, Z.ltb_lt. intros [Hr _].
  destruct e as [k|k]; cbn in *; destruct (Z.ltb_spec k 128); repeat constructor; lia.
Qed.

(** The flags follow the keys that are down as long as one key of a modifier
    is let go at a time. *)
Lemma one_of_cons k x l : one_of k (x :: l) = (k =? x) || one_of k l.
Proof. done. Qed.

Lemma one_of_filter k x l : one_of k (filter (fun y => y <> x) l) = negb (k =? x) && one_of k l.
Proof.
  induction l as [|y l IH]; [by rewrite andb_false_r|]. rewrite filter_cons, one_of_cons.
  destruct (decide (y <> x)) as [Hn|Hn].
  - rewrite one_of_cons, IH. destruct (Z.eqb_spec k y) as [->|]; [|done]. by rewrite (proj2 (Z.eqb_neq y x)).
  - assert (y = x) as -> by (by destruct (decide (y = x))). rewrite IH. by destruct (k =? x).
Qed.

Lemma press_flags k b : stroke_flags (Press k) (held_mods b) = held_mods (stroke_keyboard (Press k) b).
Proof.
  unfold held_mods, some_down. cbn [stroke_flags stroke_keyboard k_down k_caps k_num k_scroll existsb m_shift m_ctl m_alt m_caps m_num m_scroll].
  rewrite !one_of_cons. unfold one_of. cbn [existsb]. rewrite !(Z.eqb_sym k). f_equal; rewrite !orb_false_r; btauto.
Qed.

Lemma release_flags k b :
  match twin k with Some k' => negb (one_of k' (k_down b)) | None => true end = true ->
  stroke_flags (Release k) (held_mods b) = held_mods (stroke_keyboard (Release k) b).
Proof.
  intros H. unfold held_mods, some_down.
  cbn [stroke_flags stroke_keyboard k_down k_caps k_num k_scroll existsb m_shift m_ctl m_alt m_caps m_num m_scroll].
  rewrite !one_of_filter, !(Z.eqb_sym _ k), !orb_false_r. unfold twin in H. unfold one_of at 3 6 9. cbn [existsb]. rewrite !orb_false_r.
  repeat match goal with |- context [k =? ?n] => destruct (Z.eqb_spec k n) as [->|] end;
    cbn in H |- *; try (apply negb_true_iff in H; rewrite H); by rewrite ?orb_false_r, ?orb_true_r, ?andb_false_r, ?andb_true_r.
Qed.

Lemma flags_follow es : forall b,
  one_at_a_time es b = true ->
  flags_after es (held_mods b) = held_mods (keyboard_after es b) /\ typed es (held_mods b) = typed_on es b.
Proof.
  induction es as [|e es IH]; intros b H; [done|]. cbn [one_at_a_time] in H. apply andb_true_iff in H as [H1 H2].
  assert (E : stroke_flags e (held_mods b) = held_mods (stroke_keyboard e b)).
  { destruct e; [apply press_flags|by apply release_flags]. }
  destruct (IH _ H2) as [IH1 IH2]. cbn [typed typed_on]. unfold flags_after, keyboard_after in *. cbn [foldl].
  rewrite E, IH1, IH2. by destruct e.
Qed.

Lemma letter_keys m k :
  is_key k = true -> 97 <= normalmap k <= 122 ->
  glyph m k = if m_ctl m then normalmap k - 96
              else if xorb (m_shift m) (m_caps m) then normalmap k - 32 else normalmap k.
Proof.
  intros Hkk. unfold is_key in Hkk. rewrite !andb_true_iff, Z.leb_le, Z.ltb_lt in Hkk.
  assert (Hm : k ∈ bytes) by (apply elem_of_bytes; lia).
  assert (Hall : forallb (fun m => forallb (fun k => negb ((97 <=? normalmap k) && (normalmap k <=? 122)) ||
    (glyph m k =? if m_ctl m then normalmap k - 96
     else if xorb (m_shift m) (m_caps m) then normalmap k - 32 else normalmap k)) bytes) all_mods = true)
    by (vm_compute; reflexivity).
  pose proof (forallb_elem _ _ _ (forallb_elem _ _ _ Hall (all_mods_complete m)) Hm) as H. cbn beta in H.
  intros [H1%Z.leb_le H2%Z.leb_le]. rewrite H1, H2 in H. cbn [andb negb orb] in H. by apply Z.eqb_eq.
Qed.

Lemma both_shifts k :
  is_key k = true -> 97 <= normalmap k <= 122 ->
  let es := [Press 0x2A; Press 0x36; Release 0x36; Press k] in
  typed es no_mods = [0; 0; normalmap k] /\ typed_on es untouched = [0; 0; normalmap k - 32].
Proof.
  intros Hkk. unfold is_key in Hkk. rewrite !andb_true_iff, Z.leb_le, Z.ltb_lt in Hkk.
  assert (Hm : k ∈ bytes) by (apply elem_of_bytes; lia).
  assert (Hall : forallb (fun k => negb ((97 <=? normalmap k) && (normalmap k <=? 122)) ||
    (bool_decide (typed [Press 0x2A; Press 0x36; Release 0x36; Press k] no_mods = [0; 0; normalmap k]) &&
     bool_decide (typed_on [Press 0x2A; Press 0x36; Release 0x36; Press k] untouched = [0; 0; normalmap k - 32]))) bytes = true)
    by (vm_compute; reflexivity).
  pose proof (forallb_elem _ _ _ Hall Hm) as H. cbn beta in H. intros [H1%Z.leb_le H2%Z.leb_le].
  rewrite H1, H2 in H. cbn [andb negb orb] in H. apply andb_true_iff in H as [E1 E2].
  split; [exact (bool_decide_eq_true_1 _ E1)|exact (bool_decide_eq_true_1 _ E2)].
Qed.

(** However the codes of any strokes are divided among interrupts. *)
Lemma deliver_flags es ps s t :
  Forall (fun e => is_key (stroke_key e) = true) es -> concat ps = concat (scan <$> es) -> Console.rep s t ->
  exists s', deliver ps 0 s = Some (s', encode (flags_after es no_mods)) /\
    Console.rep s' (foldl (fun t c => line_char c t) t (typed es no_mods)).
Proof.
  intros Hk Eps R. destruct (deliver_codes ps 0 s t) as (s' & E & R'); [|lia|done|].
  { rewrite Eps. apply Forall_concat, Forall_fmap. eapply Forall_impl; [exact Hk|]. intros e. apply scan_bytes. }
  exists s'. rewrite E. rewrite Eps in R' |- *. change 0 with (encode no_mods) in R' |- *.
  destruct (codes_typed es no_mods t Hk) as [-> E2]. by rewrite E2 in R'.
Qed.

(** C29: The console receives what is typed.  For any strokes on the keys of the
    keyboard, however their scan codes are divided among interrupts, the line
    editor of the console has received exactly the characters of the keys
    pressed, each by the keys down and the locks on at that time, and [shift]
    holds those modifiers and no half-read escape, provided that no shift,
    control or alt key is let go while the other key of that name is down.  A
    letter key gives the capital letter when shift or caps lock is on but not
    both, and the control character when control is down.  Without the proviso
    the characters are those by the flags of kbd.c: after both shift keys have
    been pressed and one of them let go, a letter comes out small although the
    other is down. *)
Theorem keyboard_types_lines es ps s t :
  Forall (fun e => is_key (stroke_key e) = true) es -> concat ps = concat (scan <$> es) -> Console.rep s t ->
  (one_at_a_time es untouched = true ->
   exists s', deliver ps 0 s = Some (s', encode (held_mods (keyboard_after es untouched))) /\
     Console.rep s' (foldl (fun t c => line_char c t) t (typed_on es untouched))) /\
  (forall m k, is_key k = true -> 97 <= normalmap k <= 122 ->
     glyph m k = if m_ctl m then normalmap k - 96
                 else if xorb (m_shift m) (m_caps m) then normalmap k - 32 else normalmap k) /\
  (exists s', deliver ps 0 s = Some (s', encode (flags_after es no_mods)) /\
     Console.rep s' (foldl (fun t c => line_char c t) t (typed es no_mods))) /\
  (forall k, is_key k = true -> 97 <= normalmap k <= 122 ->
     let es := [Press 0x2A; Press 0x36; Release 0x36; Press k] in
     typed es no_mods = [0; 0; normalmap k] /\ typed_on es untouched = [0; 0; normalmap k - 32]).
Proof.
  intros Hk Eps R. destruct (deliver_flags es ps s t Hk Eps R) as (s' & E & R'). split_and!.
  - intros Ho. destruct (flags_follow es untouched Ho) as [F1 F2]. change (held_mods untouched) with no_mods in F1, F2.
    exists s'. rewrite <- F1, <- F2. by split.
  - apply letter_keys.
  - by exists s'.
  - apply both_shifts.
Qed.

Definition fresh_input : input := MkInput (fun _ => 0) 0 0 0 [].

Lemma fresh_input_rep : Console.rep fresh_input (MkLine [] [] []).
Proof. split; cbn; try done; [lia|]. by intros ?%elem_of_nil. Qed.

Lemma keyboard_types_lines_witness :
  exists s', deliver [[0x2A; 0x23; 0xA3]; [0xAA; 0x17; 0x97; 0xE0]; [0x1C; 0xE0; 0x9C]] 0 fresh_input = Some (s', 0) /\
    Console.rep s' (foldl (fun t c => line_char c t) (MkLine [] [] []) (cbytes "Hi" ++ [10] )).
Proof.
  destruct (keyboard_types_lines
    [Press 0x2A; Press 0x23; Release 0x23; Release 0x2A; Press 0x17; Release 0x17; Press 0x9C; Release 0x9C]
    [[0x2A; 0x23; 0xA3]; [0xAA; 0x17; 0x97; 0xE0]; [0x1C; 0xE0; 0x9C]] fresh_input (MkLine [] [] []))
    as [H _]; [by repeat constructor|reflexivity|exact fresh_input_rep|].
  destruct (H eq_refl) as (s' & E & R).
  exists s'. split; [exact E|exact R].
Defined.

(** C30: [kbdgetc] stays within its types on any input.  Whatever bytes the
    controller holds, also codes no keyboard sends, each call returns a
    character of 8 bits, or -1 exactly when there is no code; [shift] keeps to
    its seven flags; and the loop over it ends with one character per code. *)
Theorem kbdgetc_typed pending shift :
  Forall is_byte pending -> 0 <= shift < 128 ->
  let '(c, rest, shift') := kbdgetc pending shift in
  -1 <= c < 256 /\ (c = -1 <-> pending = []) /\ rest = drop 1 pending /\ 0 <= shift' < 128 /\
  length (drain (S (length pending)) pending shift).1 = length pending /\
  Forall is_byte (drain (S (length pending)) pending shift).1.
Proof.
  intros Hb Hs. destruct (drain_codes pending shift Hb Hs) as [E _]. rewrite E.
  assert (Hc : length (codes pending shift).1 = length pending /\ Forall is_byte (codes pending shift).1).
  { clear E. revert shift Hs. induction pending as [|d ds IH]; intros shift Hs; [done|].
    destruct (kbdgetc_range d shift (Forall_inv Hb) Hs) as [Hc Hs']. cbn [codes].
    specialize (IH (Forall_inv_tail Hb) _ Hs'). destruct (kbdgetc [d] shift) as [[c r] sh]. cbn in *.
    destruct (codes ds sh) as [cs sh']. cbn in *. destruct IH as [-> IH]. split; [done|]. by constructor. }
  destruct pending as [|d ds]; [cbn; naive_solver lia|]. rewrite kbdgetc_rest.
  destruct (kbdgetc_range d shift (Forall_inv Hb) Hs) as [Hr Hs']. split_and!; try done; try lia; try apply Hc.
  split; [lia|done].
Qed.

Lemma kbdgetc_typed_witness :
  (drain 4 [0xE0; 0x60; 0xFF] 127).1 = [0; 0; 0] /\ 0 <= (kbdgetc [0xE0; 0x60; 0xFF] 127).2 < 128.
Proof.
  pose proof (kbdgetc_typed [0xE0; 0x60; 0xFF] 127 ltac:(repeat constructor; unfold is_byte; lia) ltac:(lia)) as H.
  destruct H as (_ & _ & _ & H & _). split; [reflexivity|exact H].
Defined.
