(* ===== verification/Mp.v ===== *)
(** * Multiprocessor tables (HW3/mp.c)

    How the kernel finds the processors: the search for the floating pointer
    structure in the memory the BIOS leaves, the checks of the configuration
    table, and the walk over its entries.  Memory is physical memory; a
    pointer stands for the physical address it was made from. *)

From stdpp Require Import base numbers list strings.
From Stdlib Require Import ZArith Lia.
From S2P Require Import Prelude.

Open Scope Z_scope.

Definition NCPU : Z := 8.
Definition MPBOOT : Z := 0x02.
Definition MPPROC : Z := 0x00.
Definition MPBUS : Z := 0x01.
Definition MPIOAPIC : Z := 0x02.
Definition MPIOINTR : Z := 0x03.
Definition MPLINTR : Z := 0x04.

(** Sizes and field offsets of mp.h. *)
Definition sizeof_mp : Z := 16.
Definition sizeof_mpconf : Z := 44.
Definition sizeof_mpproc : Z := 20.
Definition sizeof_mpioapic : Z := 8.

Section memory.
Context (m : mem).

Definition load16 (a : Z) : Z := m a + 256 * m (a + 1).

Definition mp_physaddr (mp : Z) : Z := load32 m (mp + 4).
Definition mp_imcrp (mp : Z) : Z := m (mp + 12).
Definition conf_length (conf : Z) : Z := load16 (conf + 4).
Definition conf_version (conf : Z) : Z := m (conf + 6).
Definition conf_lapicaddr (conf : Z) : Z := load32 m (conf + 36).

(** [memcmp(p, s, n) == 0] *)
Definition begins (p : Z) (s : list Z) : bool :=
  bool_decide (m <$> seqZ p (Z.of_nat (length s)) = s).

Definition sum (addr len : Z) : Z := u8 (foldl Z.add 0 (m <$> seqZ addr len)).

Fixpoint mpsearch1_loop (k : nat) (p e : Z) : option Z :=
  match k with
  | O => None
  | S k' =>
      if p <? e then
        if begins p (cbytes "_MP_") && (sum p sizeof_mp =? 0) then Some p
        else mpsearch1_loop k' (p + sizeof_mp) e
      else None
  end.

(** The loop takes a step of 16 bytes each time. *)
Definition mpsearch1 (a len : Z) : option Z := mpsearch1_loop (Z.to_nat len) a (a + len).

Definition mpsearch : option Z :=
  let p := Z.shiftl (Z.lor (Z.shiftl (m 0x40F) 8) (m 0x40E)) 4 in
  match (if negb (p =? 0) then mpsearch1 p 1024
         else let p := Z.lor (Z.shiftl (m 0x414) 8) (m 0x413) * 1024 in
              mpsearch1 (u32 (p - 1024)) 1024) with
  | Some mp => Some mp
  | None => mpsearch1 0xF0000 0x10000
  end.

(** The floating pointer and the table it points to. *)
Definition mpconfig : option (Z * Z) :=
  match mpsearch with
  | None => None
  | Some mp =>
      if mp_physaddr mp =? 0 then None
      else
        let conf := mp_physaddr mp in
        if negb (begins conf (cbytes "PCMP")) then None
        else if negb (conf_version conf =? 1) && negb (conf_version conf =? 4) then None
        else if negb (sum conf (conf_length conf) =? 0) then None
        else Some (mp, conf)
  end.

(** The globals of mp.c: the [id] fields of [cpus], [bcpu] as an index, and
    the ports written. *)
Record smp := MkSmp {
  cpu_id : Z -> Z;
  bcpu : Z;
  ismp : Z;
  ncpu : Z;
  ioapicid : Z;
  lapic : Z;
  ports : list (Z * Z)
}.

Definition set_ismp (v : Z) (s : smp) := MkSmp (cpu_id s) (bcpu s) v (ncpu s) (ioapicid s) (lapic s) (ports s).
Definition set_bcpu (v : Z) (s : smp) := MkSmp (cpu_id s) v (ismp s) (ncpu s) (ioapicid s) (lapic s) (ports s).
Definition set_ioapicid (v : Z) (s : smp) := MkSmp (cpu_id s) (bcpu s) (ismp s) (ncpu s) v (lapic s) (ports s).
Definition set_lapic (v : Z) (s : smp) := MkSmp (cpu_id s) (bcpu s) (ismp s) (ncpu s) (ioapicid s) v (ports s).
Definition set_ncpu (v : Z) (s : smp) := MkSmp (cpu_id s) (bcpu s) (ismp s) v (ioapicid s) (lapic s) (ports s).
Definition set_id (i v : Z) (s : smp) :=
  MkSmp (zset (cpu_id s) i v) (bcpu s) (ismp s) (ncpu s) (ioapicid s) (lapic s) (ports s).
Definition outb (port v : Z) (s : smp) :=
  MkSmp (cpu_id s) (bcpu s) (ismp s) (ncpu s) (ioapicid s) (lapic s) (ports s ++ [(port, v)]).

Definition mpbcpu (s : smp) : Z := bcpu s.

(** The case of a processor entry. *)
Definition mpproc_case (p : Z) : M smp unit :=
  n ← reads ncpu;
  when (negb (n =? m (p + 1))) (modify (set_ismp 0));;
  when (has (m (p + 3)) MPBOOT) (modify (set_bcpu n));;
  if n >=? NCPU then undef "cpus[ncpu]"
  else modify (set_id n n);; modify (set_ncpu (n + 1)).

Fixpoint mpinit_loop (k : nat) (p e : Z) : M smp unit :=
  match k with
  | O => diverge
  | S k' =>
      if negb (p <? e) then mret tt
      else if m p =? MPPROC then mpproc_case p;; mpinit_loop k' (p + sizeof_mpproc) e
      else if m p =? MPIOAPIC then
        modify (set_ioapicid (m (p + 1)));; mpinit_loop k' (p + sizeof_mpioapic) e
      else if (m p =? MPBUS) || (m p =? MPIOINTR) || (m p =? MPLINTR) then mpinit_loop k' (p + 8) e
      else modify (set_ismp 0);; mpinit_loop k' p e
  end.

(** [k] bounds the turns of the loop; [imcr] is what port 0x23 reads. *)
Definition mpinit (k : nat) (imcr : Z) : M smp unit :=
  modify (set_bcpu 0);;
  match mpconfig with
  | None => mret tt
  | Some (mp, conf) =>
      modify (set_ismp 1);;
      modify (set_lapic (conf_lapicaddr conf));;
      mpinit_loop k (conf + sizeof_mpconf) (conf + conf_length conf);;
      i ← reads ismp;
      if i =? 0 then
        modify (set_ncpu 1);; modify (set_lapic 0);; modify (set_ioapicid 0)
      else when (negb (mp_imcrp mp =? 0))
        (modify (outb 0x22 0x70);; modify (outb 0x23 (Z.lor imcr 1)))
  end.

(** ** Tables *)

Inductive entry :=
| Processor (apicid flags : Z)
| IoApic (apicno : Z)
| Other (type : Z).

Definition entry_size (x : entry) : Z := match x with Processor _ _ => sizeof_mpproc | _ => 8 end.

Definition table_size (es : list entry) : Z := foldr (fun x n => entry_size x + n) 0 es.

Definition entry_at (p : Z) (x : entry) : Prop :=
  match x with
  | Processor apicid flags => m p = MPPROC /\ m (p + 1) = apicid /\ m (p + 3) = flags
  | IoApic no => m p = MPIOAPIC /\ m (p + 1) = no
  | Other type => m p = type /\ (type = MPBUS \/ type = MPIOINTR \/ type = MPLINTR)
  end.

Fixpoint entries_at (p : Z) (es : list entry) : Prop :=
  match es with
  | [] => True
  | x :: es' => entry_at p x /\ entries_at (p + entry_size x) es'
  end.

Definition processors (es : list entry) : list (Z * Z) :=
  omap (fun x => match x with Processor a f => Some (a, f) | _ => None end) es.

(** The boot processor: the last one marked, counted from [n]. *)
Fixpoint boot_from (n b : Z) (ps : list (Z * Z)) : Z :=
  match ps with
  | [] => b
  | (_, f) :: ps' => boot_from (n + 1) (if has f MPBOOT then n else b) ps'
  end.

Fixpoint last_ioapic (id : Z) (es : list entry) : Z :=
  match es with
  | [] => id
  | IoApic no :: es' => last_ioapic no es'
  | _ :: es' => last_ioapic id es'
  end.

(** The APIC numbers count up from [n]. *)
Fixpoint in_order (n : Z) (ps : list (Z * Z)) : bool :=
  match ps with [] => true | (a, _) :: ps' => (n =? a) && in_order (n + 1) ps' end.

(** ** The walk *)

Lemma table_size_app es x : table_size (x :: es) = entry_size x + table_size es.
Proof. done. Qed.

Lemma entry_size_pos x : 8 <= entry_size x.
Proof. destruct x; cbn; unfold sizeof_mpproc; lia. Qed.

Lemma table_size_nonneg es : 0 <= table_size es.
Proof. induction es as [|x es IH]; [done|]. rewrite table_size_app. pose proof (entry_size_pos x). lia. Qed.

Lemma mpproc_case_ok p s :
  ncpu s < NCPU -> mpproc_case p s = Ok tt (MkSmp (zset (cpu_id s) (ncpu s) (ncpu s))
    (if has (m (p + 3)) MPBOOT then ncpu s else bcpu s) (if ncpu s =? m (p + 1) then ismp s else 0)
    (ncpu s + 1) (ioapicid s) (lapic s) (ports s)).
Proof.
  intros Hn. unfold mpproc_case. munfold. rewrite Z.geb_leb.
  destruct (Z.leb_spec NCPU (ncpu s)); [lia|]. destruct (ncpu s =? m (p + 1)), (has (m (p + 3)) MPBOOT); done.
Qed.

Lemma mpproc_case_full p s : NCPU <= ncpu s -> mpproc_case p s = Undef "cpus[ncpu]".
Proof.
  intros Hn. unfold mpproc_case. munfold. rewrite Z.geb_leb, (proj2 (Z.leb_le _ _) Hn).
  by destruct (ncpu s =? m (p + 1)), (has (m (p + 3)) MPBOOT).
Qed.

(** The state after a row of entries. *)
Definition walked (es : list entry) (s s' : smp) : Prop :=
  let n := Z.of_nat (length (processors es)) in
  (forall i, cpu_id s' i = if (ncpu s <=? i) && (i <? ncpu s + n) then i else cpu_id s i) /\
  bcpu s' = boot_from (ncpu s) (bcpu s) (processors es) /\
  ismp s' = (if in_order (ncpu s) (processors es) then ismp s else 0) /\
  ncpu s' = ncpu s + n /\ ioapicid s' = last_ioapic (ioapicid s) es /\ lapic s' = lapic s /\ ports s' = ports s.

Lemma walked_nil s : walked [] s s.
Proof.
  unfold walked. change (Z.of_nat (length (processors []))) with 0. rewrite Z.add_0_r.
  split_and!; try done. intros i. zcases; try done; lia.
Qed.

(** Entries the loop has before it are walked in one turn each. *)
Lemma mpinit_loop_prefix es : forall k p e s,
  entries_at p es -> p + table_size es <= e -> ncpu s + Z.of_nat (length (processors es)) <= NCPU ->
  exists s', mpinit_loop (length es + k) p e s = mpinit_loop k (p + table_size es) e s' /\ walked es s s'.
Proof.
  induction es as [|x es IH]; intros k p e s He Hp Hn.
  { exists s. rewrite Z.add_0_r. split; [done|apply walked_nil]. }
  destruct He as [Hx He]. rewrite table_size_app, Z.add_assoc in *.
  pose proof (table_size_nonneg es). pose proof (entry_size_pos x). cbn [length Nat.add mpinit_loop].
  rewrite (proj2 (Z.ltb_lt p _)) by lia. cbn [negb]. destruct x as [a f|no|ty]; cbn [entry_size] in *.
  - destruct Hx as (-> & Ha & Hf). change (MPPROC =? MPPROC) with true. cbn match.
    change (processors (Processor a f :: es)) with ((a, f) :: processors es) in *. cbn [length] in Hn.
    rewrite (bind_ok _ _ _ _ _ (mpproc_case_ok p s ltac:(lia))), Ha, Hf.
    match goal with |- context [mpinit_loop (length es + k) _ _ ?s1] =>
      destruct (IH k (p + sizeof_mpproc) e s1) as (s' & E & H1 & H2 & H3 & H4 & H5 & H6 & H7) end;
      [done|done|cbn [ncpu]; lia|]. cbn [cpu_id bcpu ismp ncpu ioapicid lapic ports] in *.
    exists s'. split; [exact E|]. unfold walked.
    change (processors (Processor a f :: es)) with ((a, f) :: processors es). cbn [length boot_from in_order].
    split_and!; try done; [|rewrite H3; by destruct (ncpu s =? a), (in_order (ncpu s + 1) (processors es))|lia].
    intros i. rewrite H1. unfold zset. zcases; try done; lia.
  - destruct Hx as [Ep Ha]. rewrite Ep. change (MPIOAPIC =? MPPROC) with false. change (MPIOAPIC =? MPIOAPIC) with true.
    cbn match. erewrite bind_ok by reflexivity. rewrite Ha.
    destruct (IH k (p + sizeof_mpioapic) e (set_ioapicid no s)) as (s' & E & H'); [done|done|exact Hn|].
    exists s'. split; [exact E|exact H'].
  - destruct Hx as [Ep Ht]. rewrite Ep. destruct (IH k (p + 8) e s) as (s' & E & H'); [done|done|exact Hn|].
    exists s'. split; [|exact H']. etransitivity; [|exact E]. by destruct Ht as [-> |[-> | ->]].
Qed.

(** An entry of an unknown type is never left. *)
Lemma mpinit_loop_unknown k : forall p e s,
  p < e -> m p ∉ [MPPROC; MPBUS; MPIOAPIC; MPIOINTR; MPLINTR] -> mpinit_loop k p e s = Diverge.
Proof.
  induction k as [|k IH]; intros p e s Hp Ht; [done|]. cbn [mpinit_loop].
  rewrite (proj2 (Z.ltb_lt p e)) by done. cbn [negb].
  assert (Hn : forall t, t ∈ [MPPROC; MPBUS; MPIOAPIC; MPIOINTR; MPLINTR] -> (m p =? t) = false).
  { intros t Hin. apply Z.eqb_neq. intros E. by rewrite E in Ht. }
  rewrite !Hn by (repeat constructor). cbn [orb]. erewrite bind_ok by reflexivity. by apply IH.
Qed.

Lemma entries_at_take k es : forall p, entries_at p es -> entries_at p (take k es).
Proof.
  revert k. induction es as [|x es IH]; intros [|k] p; cbn; try done. intros [Hx He]. split; [done|by apply IH].
Qed.

Lemma table_size_take k es : table_size (take k es) <= table_size es.
Proof.
  revert k. induction es as [|x es IH]; intros [|k]; cbn [take]; try done.
  - apply table_size_nonneg.
  - rewrite !table_size_app. specialize (IH k). lia.
Qed.

Lemma processors_take k es : (length (processors (take k es)) <= length (processors es))%nat.
Proof.
  revert k. induction es as [|x es IH]; intros [|k]; cbn [take]; try (cbn; lia).
  specialize (IH k). destruct x; cbn; unfold processors in IH; lia.
Qed.

(** *** The search *)

Definition floating (p : Z) : bool := begins p (cbytes "_MP_") && (sum p sizeof_mp =? 0).

Lemma mpsearch1_loop_ok k : forall p e,
  (e - p <= 16 * Z.of_nat k) ->
  match mpsearch1_loop k p e with
  | Some r => exists i, 0 <= i /\ r = p + 16 * i /\ r < e /\ floating r = true /\
      forall j, 0 <= j < i -> floating (p + 16 * j) = false
  | None => forall j, 0 <= j -> p + 16 * j < e -> floating (p + 16 * j) = false
  end.
Proof.
  induction k as [|k IH]; intros p e Hk; cbn [mpsearch1_loop].
  { intros j Hj He. lia. }
  destruct (Z.ltb_spec p e) as [Hp|Hp]; [|intros j Hj He; lia]. fold (floating p).
  destruct (floating p) eqn:Ef.
  - exists 0. rewrite Z.mul_0_r, Z.add_0_r. split_and!; try done. lia.
  - unfold sizeof_mp. specialize (IH (p + 16) e ltac:(lia)). destruct (mpsearch1_loop k (p + 16) e) as [r|].
    + destruct IH as (i & Hi & -> & Hr & Hf & Hj). exists (i + 1). split_and!; try done; try lia.
      intros j Hj'. destruct (decide (j = 0)) as [->|]; [by rewrite Z.mul_0_r, Z.add_0_r|].
      replace (p + 16 * j) with (p + 16 + 16 * (j - 1)) by lia. apply Hj. lia.
    + intros j Hj He. destruct (decide (j = 0)) as [->|]; [by rewrite Z.mul_0_r, Z.add_0_r|].
      replace (p + 16 * j) with (p + 16 + 16 * (j - 1)) by lia. apply IH; lia.
Qed.

(** [mpsearch1] returns the first valid structure of its range. *)
Lemma mpsearch1_ok a len :
  0 <= len ->
  match mpsearch1 a len with
  | Some r => exists i, 0 <= i /\ r = a + 16 * i /\ r < a + len /\ floating r = true /\
      forall j, 0 <= j < i -> floating (a + 16 * j) = false
  | None => forall j, 0 <= j -> 16 * j < len -> floating (a + 16 * j) = false
  end.
Proof.
  intros Hl. pose proof (mpsearch1_loop_ok (Z.to_nat len) a (a + len) ltac:(lia)) as H.
  unfold mpsearch1. destruct (mpsearch1_loop _ _ _); [done|]. intros j Hj He. apply H; lia.
Qed.

Lemma mpsearch_floating mp : mpsearch = Some mp -> floating mp = true.
Proof.
  assert (H : forall a len, 0 <= len -> forall r, mpsearch1 a len = Some r -> floating r = true).
  { intros a len Hl r E. pose proof (mpsearch1_ok a len Hl) as H. rewrite E in H.
    by destruct H as (i & _ & _ & _ & Hf & _). }
  unfold mpsearch. cbv zeta. intros E.
  destruct (negb (Z.shiftl (Z.lor (Z.shiftl (m 1039) 8) (m 1038)) 4 =? 0));
    (destruct (mpsearch1 _ 1024) as [r|] eqn:E1; [injection E as ->|]; (eapply H; [|eassumption]; lia)).
Qed.

Lemma mpconfig_ok mp conf :
  mpconfig = Some (mp, conf) ->
  floating mp = true /\ conf = mp_physaddr mp /\ begins conf (cbytes "PCMP") = true /\
  (conf_version conf = 1 \/ conf_version conf = 4) /\ sum conf (conf_length conf) = 0.
Proof.
  unfold mpconfig. destruct mpsearch as [p|] eqn:Es; [|done]. destruct (mp_physaddr p =? 0); [done|]. cbv zeta.
  destruct (begins _ _) eqn:Eb; [|done]. cbn [negb].
  destruct (Z.eqb_spec (conf_version (mp_physaddr p)) 1) as [Hv|Hv], (Z.eqb_spec (conf_version (mp_physaddr p)) 4) as [Hv4|Hv4];
    cbn [negb andb]; try done; (destruct (Z.eqb_spec (sum (mp_physaddr p) (conf_length (mp_physaddr p))) 0); [|done]);
    intros [= <- <-]; split_and!; auto; by apply mpsearch_floating.
Qed.
End memory.

(** The globals at boot. *)
Definition boot : smp := MkSmp (fun _ => 0) 0 0 0 0 0 [].

(** C31: [mpinit] reads the tables of the BIOS.  If a configuration table is
    found, it and the structure that points to it carry their signatures and
    add up to 0.  A table of processors, I/O APICs and other known entries,
    with at most [NCPU] processors, is walked to its end.  If the APIC numbers
    of the processors count up from 0 the kernel then knows their number,
    which of them boots, the I/O APIC and the local APIC; if not, it falls back
    to a single processor. *)
Theorem mpinit_decodes_table m imcr mp conf es k :
  mpconfig m = Some (mp, conf) -> entries_at m (conf + sizeof_mpconf) es ->
  conf_length m conf = sizeof_mpconf + table_size es ->
  Z.of_nat (length (processors es)) <= NCPU -> (length es < k)%nat ->
  (floating m mp = true /\ conf = mp_physaddr m mp /\ begins m conf (cbytes "PCMP") = true /\
     (conf_version m conf = 1 \/ conf_version m conf = 4) /\ sum m conf (conf_length m conf) = 0) /\
  exists s, mpinit m k imcr boot = Ok tt s /\
    (forall i, 0 <= i < Z.of_nat (length (processors es)) -> cpu_id s i = i) /\
    mpbcpu s = boot_from 0 0 (processors es) /\
    if in_order 0 (processors es)
    then ismp s = 1 /\ ncpu s = Z.of_nat (length (processors es)) /\ ioapicid s = last_ioapic 0 es /\
      lapic s = conf_lapicaddr m conf /\
      ports s = (if mp_imcrp m mp =? 0 then [] else [(0x22, 0x70); (0x23, Z.lor imcr 1)])
    else ismp s = 0 /\ ncpu s = 1 /\ ioapicid s = 0 /\ lapic s = 0 /\ ports s = [].
Proof.
  intros Hc He Hl Hn Hk. split; [by apply mpconfig_ok|].
  set (s0 := set_lapic (conf_lapicaddr m conf) (set_ismp 1 (set_bcpu 0 boot))).
  destruct (mpinit_loop_prefix m es (k - length es) (conf + sizeof_mpconf) (conf + conf_length m conf) s0)
    as (s1 & E & H1 & H2 & H3 & H4 & H5 & H6 & H7); [done|lia|exact Hn|].
  replace (length es + (k - length es))%nat with k in E by lia.
  destruct (k - length es)%nat as [|k'] eqn:Ek; [lia|]. cbn [mpinit_loop] in E.
  rewrite Hl in E. rewrite (proj2 (Z.ltb_ge _ _)) in E by lia. cbn [negb] in E.
  unfold mpinit. erewrite bind_ok by reflexivity. rewrite Hc. erewrite bind_ok by reflexivity.
  erewrite bind_ok by reflexivity. fold s0. rewrite Hl, (bind_ok _ _ _ _ _ E). erewrite bind_ok by reflexivity.
  cbn [s0 set_lapic set_ismp set_bcpu boot ncpu bcpu ismp ioapicid lapic ports] in *.
  rewrite H3. destruct (in_order 0 (processors es)).
  - change (1 =? 0) with false. cbn match. destruct (mp_imcrp m mp =? 0); cbn [negb when].
    all: eexists; split; [reflexivity|].
    all: cbn [outb set_ncpu cpu_id bcpu ismp ncpu ioapicid lapic ports mpbcpu]; rewrite ?H7; split_and!; try done.
    all: intros i Hi; rewrite H1; zcases; try done; lia.
  - change (0 =? 0) with true. cbn match. eexists. split; [reflexivity|].
    cbn [set_ioapicid set_lapic set_ncpu cpu_id bcpu ismp ncpu ioapicid lapic ports mpbcpu]; split_and!; try done.
    intros i Hi. rewrite H1. zcases; try done; lia.
Qed.

(** Tables the code does not survive.  Behind well-formed entries, an entry
    of an unknown type makes [mpinit] loop for ever, because nothing moves the
    pointer past it; and a ninth processor is written past the end of [cpus]. *)
Theorem mpinit_bad_table m imcr mp conf es :
  mpconfig m = Some (mp, conf) -> entries_at m (conf + sizeof_mpconf) es ->
  sizeof_mpconf + table_size es < conf_length m conf -> Z.of_nat (length (processors es)) <= NCPU ->
  (m (conf + sizeof_mpconf + table_size es) ∉ [MPPROC; MPBUS; MPIOAPIC; MPIOINTR; MPLINTR] ->
     forall k, mpinit m k imcr boot = Diverge) /\
  (m (conf + sizeof_mpconf + table_size es) = MPPROC -> Z.of_nat (length (processors es)) = NCPU ->
     forall k, (length es < k)%nat -> mpinit m k imcr boot = Undef "cpus[ncpu]").
Proof.
  intros Hc He Hl Hn.
  set (s0 := set_lapic (conf_lapicaddr m conf) (set_ismp 1 (set_bcpu 0 boot))).
  assert (Hrun : forall k, mpinit m k imcr boot =
    (mpinit_loop m k (conf + sizeof_mpconf) (conf + conf_length m conf);;
      i ← reads ismp;
      if i =? 0 then modify (set_ncpu 1);; modify (set_lapic 0);; modify (set_ioapicid 0)
      else when (negb (mp_imcrp m mp =? 0)) (modify (outb 0x22 0x70);; modify (outb 0x23 (Z.lor imcr 1)))) s0).
  { intros k. unfold mpinit. erewrite bind_ok by reflexivity. rewrite Hc. done. }
  split.
  - intros Ht k. rewrite Hrun. unfold mbind at 1, M_bind at 1.
    destruct (decide (k <= length es)%nat) as [Hk|Hk].
    + pose proof (table_size_take k es) as Hs. pose proof (processors_take k es) as Hp.
      destruct (mpinit_loop_prefix m (take k es) 0 (conf + sizeof_mpconf) (conf + conf_length m conf) s0)
        as (s1 & E & _); [by apply entries_at_take|lia|cbn; lia|].
      rewrite length_take, Nat.min_l, Nat.add_0_r in E by lia. by rewrite E.
    + destruct (mpinit_loop_prefix m es (k - length es) (conf + sizeof_mpconf) (conf + conf_length m conf) s0)
        as (s1 & E & _); [done|lia|exact Hn|].
      replace (length es + (k - length es))%nat with k in E by lia.
      rewrite E, mpinit_loop_unknown; [done|lia|done].
  - intros Ht Hp k Hk. rewrite Hrun. unfold mbind at 1, M_bind at 1.
    destruct (mpinit_loop_prefix m es (k - length es) (conf + sizeof_mpconf) (conf + conf_length m conf) s0)
      as (s1 & E & _ & _ & _ & Hnc & _); [done|lia|exact Hn|].
    replace (length es + (k - length es))%nat with k in E by lia. rewrite E.
    destruct (k - length es)%nat as [|k'] eqn:Ek; [lia|]. cbn [mpinit_loop].
    rewrite (proj2 (Z.ltb_lt _ _)) by lia. cbn [negb]. rewrite Ht. change (MPPROC =? MPPROC) with true. cbn match.
    cbn in Hnc. unfold mbind, M_bind. by rewrite mpproc_case_full by lia.
Qed.

(** ** A machine with two processors *)

Module Sample.

Definition negsum (bs : list Z) : Z := u8 (- foldl Z.add 0 bs).

Definition two_cpus : list Z :=
  [0; 0; 0; 3] ++ replicate 16 0 ++ [0; 1; 0; 1] ++ replicate 16 0 ++ [2; 2; 0; 1; 0; 0; 0; 0].

Definition header (len chk : Z) : list Z :=
  cbytes "PCMP" ++ le_bytes 2 len ++ [4; chk] ++ replicate 28 0 ++ le_bytes 4 0xFEE00000 ++ replicate 4 0.

Definition conf_bytes (body : list Z) : list Z :=
  let len := 44 + Z.of_nat (length body) in header len (negsum (header len 0 ++ body)) ++ body.

Definition mp_bytes (chk : Z) : list Z := cbytes "_MP_" ++ le_bytes 4 0x9FC10 ++ [1; 4; chk; 0; 0x80; 0; 0; 0].

(** The extended BIOS data area starts at 0x9FC00. *)
Definition image (body : list Z) (a : Z) : Z :=
  if a =? 0x40E then 0xC0 else if a =? 0x40F then 0x9F
  else nth (Z.to_nat (a - 0x9FC00)) (if a <? 0x9FC00 then [] else mp_bytes (negsum (mp_bytes 0)) ++ conf_bytes body) 0.

End Sample.

Lemma mpinit_decodes_table_witness :
  exists s, mpinit (Sample.image Sample.two_cpus) 10 0 boot = Ok tt s /\ ismp s = 1 /\ ncpu s = 2 /\
    ioapicid s = 2 /\ lapic s = 0xFEE00000.
Proof.
  destruct (mpinit_decodes_table (Sample.image Sample.two_cpus) 0 0x9FC00 0x9FC10
    [Processor 0 3; Processor 1 1; IoApic 2] 10) as (_ & s & E & _ & _ & H);
    [vm_compute; reflexivity|vm_compute; repeat split|vm_compute; reflexivity|vm_compute; discriminate|cbn; lia|].
  exists s. split; [exact E|]. destruct H as (H1 & H2 & H3 & H4 & _). split_and!; assumption.
Defined.

Lemma mpinit_bad_table_witness :
  mpinit (Sample.image ([5] ++ replicate 7 0)) 1000 0 boot = Diverge.
Proof.
  apply (mpinit_bad_table (Sample.image ([5] ++ replicate 7 0)) 0 0x9FC00 0x9FC10 []);
    [vm_compute; reflexivity|exact I|vm_compute; reflexivity|vm_compute; discriminate|].
  change (5 ∉ [MPPROC; MPBUS; MPIOAPIC; MPIOINTR; MPLINTR]). intros H. repeat (apply elem_of_cons in H as [H|H]; [done|]).
  by apply elem_of_nil in H.
Defined.
