(* ===== verification/Mkfs.v ===== *)
(** * The image builder (HW3/mkfs.c)

    The program that makes the disk image the kernel boots from.  The image is
    a file of sectors; a part of it that was never written reads as zeros, and
    reading past its end fails; writing it succeeds.  [struct dinode] is the
    record of [Fs] (its in-memory fields play no role), written and read at the
    same offsets.  [MkfsSpec] shows that the image is a file system fs.c can
    work on. *)

From stdpp Require Import base numbers list strings.
From Stdlib Require Import ZArith Lia.
From S2P Require Import Prelude Disk Blocks Log Fs.

Open Scope Z_scope.

Definition NINODES : Z := 200.
Definition nbitmap : Z := FSSIZE / (BSIZE * 8) + 1.
Definition ninodeblocks : Z := NINODES / IPB + 1.
Definition nlog : Z := LOGSIZE.
Definition nmeta : Z := 2 + nlog + ninodeblocks + nbitmap.
Definition nblocks : Z := FSSIZE - nmeta.

(** Intel byte order. *)
Definition xshort (x : Z) : Z := le_val (le_bytes 2 x).
Definition xint (x : Z) : Z := le_val (le_bytes 4 x).

Definition sb : superblock :=
  MkSb (xint FSSIZE) (xint nblocks) (xint NINODES) (xint nlog) (xint 2) (xint (2 + nlog))
    (xint (2 + nlog + ninodeblocks)).

Definition sb_bytes : list Z :=
  le_bytes 4 (sb_size sb) ++ le_bytes 4 (sb_nblocks sb) ++ le_bytes 4 (sb_ninodes sb) ++
  le_bytes 4 (sb_nlog sb) ++ le_bytes 4 (sb_logstart sb) ++ le_bytes 4 (sb_inodestart sb) ++
  le_bytes 4 (sb_bmapstart sb).

Definition zeroes : block := replicate (Z.to_nat BSIZE) 0.

(** The image file, its length in sectors, and the two counters. *)
Record mkfs := MkMkfs { img : Z -> block; sectors : Z; freeinode : Z; freeblock : Z }.

Definition set_freeinode (n : Z) (s : mkfs) : mkfs := MkMkfs (img s) (sectors s) n (freeblock s).
Definition set_freeblock (n : Z) (s : mkfs) : mkfs := MkMkfs (img s) (sectors s) (freeinode s) n.

Definition wsect (sec : Z) (buf : block) : M mkfs unit :=
  modify (fun s => MkMkfs (zset (img s) sec buf) (Z.max (sectors s) (sec + 1)) (freeinode s) (freeblock s)).

Definition rsect (sec : Z) : M mkfs block := fun s =>
  if sec <? sectors s then Ok (img s sec) s else Panic "read".

Definition winode (inum : Z) (ip : inode) : M mkfs unit :=
  let bn := IBLOCK inum sb in
  buf ← rsect bn;
  wsect bn (write_dinode ip buf (dinode_off inum)).

(** A [struct dinode] variable of mkfs, cleared. *)
Definition cleared (inum : Z) : inode := MkInode ROOTDEV inum 1 0 0 0 0 0 0 (replicate 13 0).

Definition rinode (inum : Z) : M mkfs inode :=
  let bn := IBLOCK inum sb in
  buf ← rsect bn;
  mret (read_dinode buf (dinode_off inum) (cleared inum)).

Definition ialloc (type : Z) : M mkfs Z :=
  inum ← reads freeinode;
  modify (set_freeinode (u32 (inum + 1)));;
  winode inum (set_dinode (xshort type) 0 0 (xshort 1) (xint 0) (replicate 13 0) (cleared inum));;
  mret inum.

Definition balloc (used : Z) : M mkfs unit :=
  if negb (used <? BSIZE * 8) then panic "assert"
  else wsect (sb_bmapstart sb) (foldl (fun buf i => set_bit i buf) zeroes (seqZ 0 used)).

(** [xint(freeblock++)] *)
Definition next_block : M mkfs Z :=
  b ← reads freeblock;
  modify (set_freeblock (u32 (b + 1)));;
  mret (xint b).

(** The block of the file for [fbn], found or made; [din] with its addresses. *)
Definition block_for (din : inode) (fbn : Z) : M mkfs (Z * inode) :=
  if fbn <? NDIRECT then
    if xint (addr din fbn) =? 0 then
      b ← next_block;
      let din := set_addr (Z.to_nat fbn) b din in
      mret (xint (addr din fbn), din)
    else mret (xint (addr din fbn), din)
  else
    din ← (if xint (addr din NDIRECT) =? 0 then
             b ← next_block; mret (set_addr (Z.to_nat NDIRECT) b din)
           else mret din);
    indirect ← rsect (xint (addr din NDIRECT));
    let o := Z.to_nat (4 * (fbn - NDIRECT)) in
    if get32 indirect o =? 0 then
      b ← next_block;
      let indirect := put32 indirect o b in
      wsect (xint (addr din NDIRECT)) indirect;;
      mret (xint (get32 indirect o), din)
    else mret (xint (get32 indirect o), din).

(** The loop of [iappend]; each turn copies at least one byte of [p]. *)
Fixpoint iappend_loop (k : nat) (din : inode) (off : Z) (p : list Z) : M mkfs (inode * Z) :=
  match k with
  | O => mret (din, off)
  | S k' =>
      match p with
      | [] => mret (din, off)
      | _ =>
          let fbn := off / BSIZE in
          if negb (fbn <? MAXFILE) then panic "assert"
          else
            r ← block_for din fbn;
            let '(x, din) := r in
            let n1 := Z.min (Z.of_nat (length p)) ((fbn + 1) * BSIZE - off) in
            buf ← rsect x;
            wsect x (put_bytes buf (Z.to_nat (off - fbn * BSIZE)) (take (Z.to_nat n1) p));;
            iappend_loop k' din (off + n1) (drop (Z.to_nat n1) p)
      end
  end.

Definition iappend (inum : Z) (p : list Z) : M mkfs unit :=
  din ← rinode inum;
  r ← iappend_loop (length p) din (xint (i_size din)) p;
  let '(din, off) := r in
  winode inum (set_size (xint off) din).

(** A [struct dirent] as bytes; the name is copied by [strncpy], which pads
    with zeros. *)
Definition dirent (inum : Z) (name : list Z) : list Z := le_bytes 2 (xshort inum) ++ name_field name.

(** [while((cc = read(fd, buf, sizeof(buf))) > 0) iappend(inum, buf, cc)]: the
    portions the reads of a file return until one returns nothing. *)
Fixpoint copy_file (inum : Z) (portions : list (list Z)) : M mkfs unit :=
  match portions with
  | [] => mret tt
  | buf :: rest => iappend inum buf;; copy_file inum rest
  end.

(** The name a file gets: without a leading underscore. *)
Definition image_name (arg : list Z) : list Z :=
  match arg with c :: rest => if c =? 95 then rest else arg | [] => [] end.

(** An argument: the name, and what reading the file gives if it opens. *)
Notation argument := (list Z * option (list (list Z)))%type.

Fixpoint add_files (rootino : Z) (args : list argument) : M mkfs unit :=
  match args with
  | [] => mret tt
  | (name, contents) :: rest =>
      if bool_decide (slash ∈ name) then panic "assert"
      else match contents with
      | None => panic "open"
      | Some portions =>
          inum ← ialloc T_FILE;
          iappend rootino (dirent inum (image_name name));;
          copy_file inum portions;;
          add_files rootino rest
      end
  end.

Definition main (args : list argument) : M mkfs unit :=
  modify (set_freeblock nmeta);;
  for_ 0 FSSIZE (fun i => wsect i zeroes);;
  wsect 1 (put_bytes zeroes 0 sb_bytes);;
  rootino ← ialloc T_DIR;
  if negb (rootino =? ROOTINO) then panic "assert"
  else
    iappend rootino (dirent rootino (cbytes "."));;
    iappend rootino (dirent rootino (cbytes ".."));;
    add_files rootino args;;
    din ← rinode rootino;
    let off := xint (i_size din) in
    let off := (off / BSIZE + 1) * BSIZE in
    winode rootino (set_size (xint off) din);;
    b ← reads freeblock;
    balloc b.

(** The program at its start; [freeinode] is initialised to 1. *)
Definition start : mkfs := MkMkfs (fun _ => zeroes) 0 1 0.
