(* ===== verification/MkfsFiles.v ===== *)
(** * Files in an image under construction

    The files of the image mkfs.c is building, each with its inode, its bytes
    and the number of its data blocks, and the steps by which a file grows: a
    direct block, the indirect block, an entry in it, and bytes in the last
    block.  Blocks are told apart by the places that refer to them. *)

From stdpp Require Import base numbers list gmap sets strings.
From Stdlib Require Import ZArith Lia.
From S2P Require Import Prelude CStrings Disk Blocks Log Journal Fs FsBlocks FsFiles FsInodes FsDirs Mkfs.

Open Scope Z_scope.

(** ** Files of the image *)

Record file := MkFile { f_ino : inode; f_data : list Z; f_nb : Z }.

(** Block [i] of a file; index [MAXFILE] stands for its indirect block. *)
Definition slot (v : Z -> block) (p : inode) (i : Z) : Z :=
  if i =? MAXFILE then addr p NDIRECT else blk v p i.

Record owns (v : Z -> block) (f : file) : Prop := {
  ow_addrs : length (i_addrs (f_ino f)) = 13%nat;
  ow_nb : 0 <= f_nb f <= MAXFILE;
  ow_blk : forall bn, 0 <= bn < MAXFILE -> blk v (f_ino f) bn <> 0 <-> bn < f_nb f;
  ow_ind : NDIRECT < f_nb f -> addr (f_ino f) NDIRECT <> 0;
  ow_data : forall o, 0 <= o < MAXFILE * BSIZE -> file_byte v (f_ino f) o = nth (Z.to_nat o) (f_data f) 0;
  ow_len : Z.of_nat (length (f_data f)) <= BSIZE * f_nb f
}.

(** All files: their blocks lie below [fb], no two places use the same block,
    and the blocks from [fb] on are zero. *)
Record good (v : Z -> block) (fb : Z) (fs : list file) : Prop := {
  g_fb : nmeta <= fb;
  g_ok : forall b, block_ok (v b);
  g_free : forall b, fb <= b -> v b = zeros;
  g_owns : forall k f, fs !! k = Some f -> owns v f;
  g_range : forall k f i, fs !! k = Some f -> 0 <= i <= MAXFILE -> slot v (f_ino f) i <> 0 ->
    nmeta <= slot v (f_ino f) i < fb;
  g_inj : forall k f i k' f' i', fs !! k = Some f -> fs !! k' = Some f' ->
    0 <= i <= MAXFILE -> 0 <= i' <= MAXFILE ->
    slot v (f_ino f) i = slot v (f_ino f') i' -> slot v (f_ino f) i <> 0 -> k = k' /\ i = i'
}.

(** ** Frames *)

Lemma blk_frame v v' p bn :
  (addr p NDIRECT <> 0 -> v' (addr p NDIRECT) = v (addr p NDIRECT)) -> blk v' p bn = blk v p bn.
Proof.
  intros H. unfold blk. destruct (bn <? NDIRECT); [done|]. destruct (Z.eqb_spec (addr p NDIRECT) 0); [done|].
  by rewrite H.
Qed.

Lemma slot_ind v p : slot v p MAXFILE = addr p NDIRECT.
Proof. done. Qed.

Lemma slot_blk v p i : 0 <= i < MAXFILE -> slot v p i = blk v p i.
Proof. intros H. unfold slot. destruct (Z.eqb_spec i MAXFILE); [lia|done]. Qed.

(** A file none of whose blocks changes. *)
Lemma file_slot_frame v v' p :
  (forall i, 0 <= i <= MAXFILE -> slot v p i <> 0 -> v' (slot v p i) = v (slot v p i)) ->
  forall i, 0 <= i <= MAXFILE -> slot v' p i = slot v p i.
Proof.
  intros H i Hi. unfold slot. destruct (i =? MAXFILE); [done|]. apply blk_frame. rewrite <- (slot_ind v p).
  apply H. fs_consts. lia.
Qed.

Lemma byte_frame v v' p o :
  (forall i, 0 <= i <= MAXFILE -> slot v p i <> 0 -> v' (slot v p i) = v (slot v p i)) ->
  0 <= o < MAXFILE * BSIZE -> file_byte v' p o = file_byte v p o.
Proof.
  intros H Ho. assert (Hi : 0 <= o / BSIZE < MAXFILE) by (fs_consts; lia).
  pose proof (file_slot_frame v v' p H (o / BSIZE) ltac:(lia)) as E. rewrite !slot_blk in E by done.
  unfold file_byte, file_block. rewrite E. destruct (Z.eqb_spec (blk v p (o / BSIZE)) 0) as [|Hn]; [done|].
  specialize (H (o / BSIZE) ltac:(lia)). rewrite slot_blk in H by done. by rewrite H.
Qed.

Lemma owns_frame v v' f :
  (forall i, 0 <= i <= MAXFILE -> slot v (f_ino f) i <> 0 -> v' (slot v (f_ino f) i) = v (slot v (f_ino f) i)) ->
  owns v f -> owns v' f.
Proof.
  intros H [O1 O2 O3 O4 O5 O6]. split; try done.
  - intros bn Hbn. pose proof (file_slot_frame v v' _ H bn ltac:(lia)) as E. rewrite !slot_blk in E by done. rewrite E. by apply O3.
  - intros o Ho. rewrite (byte_frame v v') by done. by apply O5.
Qed.

(** One file changes, in blocks of its own or new ones. *)
Lemma good_update v fb fs v' fb' k f f' :
  good v fb fs -> fs !! k = Some f -> fb <= fb' -> (forall b, block_ok (v' b)) ->
  (forall b, fb' <= b -> v' b = zeros) -> owns v' f' ->
  (forall b, v' b <> v b -> fb <= b \/ exists i, 0 <= i <= MAXFILE /\ slot v (f_ino f) i = b /\ b <> 0) ->
  (forall i, 0 <= i <= MAXFILE -> slot v' (f_ino f') i = slot v (f_ino f) i \/ fb <= slot v' (f_ino f') i < fb') ->
  (forall i i', 0 <= i <= MAXFILE -> 0 <= i' <= MAXFILE ->
    slot v' (f_ino f') i = slot v' (f_ino f') i' -> slot v' (f_ino f') i <> 0 -> i = i') ->
  good v' fb' (<[k := f']> fs).
Proof.
  intros G Hk Hfb Hok Hfree Hown Hch Hnew Hinj. pose proof G as [G1 G2 G3 G4 G5 G6].
  assert (Hlt : (k < length fs)%nat) by (by eapply lookup_lt_Some).
  assert (Hother : forall j g, j <> k -> fs !! j = Some g -> forall i, 0 <= i <= MAXFILE ->
    slot v (f_ino g) i <> 0 -> v' (slot v (f_ino g) i) = v (slot v (f_ino g) i)).
  { intros j g Hj Hg i Hi Hn. destruct (decide (v' (slot v (f_ino g) i) = v (slot v (f_ino g) i))) as [|Hne]; [done|].
    destruct (Hch _ Hne) as [Hge|(i' & Hi' & E & _)]; [destruct (G5 j g i Hg Hi Hn); lia|].
    destruct (G6 k f i' j g i Hk Hg Hi' Hi E) as [-> _]; [by rewrite E|done]. }
  split; try done; try lia.
  - intros j g. rewrite list_lookup_insert. case_decide as D; [by intros [= <-]|].
    intros Hg. assert (j <> k) by naive_solver. eapply owns_frame; [by eapply Hother|by eapply G4].
  - intros j g i. rewrite list_lookup_insert. case_decide as D.
    + intros [= <-] Hi Hn. destruct (Hnew i Hi) as [E|]; [|lia]. rewrite E in Hn |- *.
      destruct (G5 k f i Hk Hi Hn). lia.
    + intros Hg Hi. assert (j <> k) by naive_solver. rewrite (file_slot_frame v v' _ (Hother j g ltac:(done) Hg) i Hi).
      intros Hn. destruct (G5 j g i Hg Hi Hn). lia.
  - assert (Hx : forall j g i i', j <> k -> fs !! j = Some g -> 0 <= i <= MAXFILE -> 0 <= i' <= MAXFILE ->
      slot v' (f_ino f') i = slot v' (f_ino g) i' -> slot v' (f_ino f') i <> 0 -> False).
    { intros j g i i' Hj Hg Hi Hi' E Hn. rewrite (file_slot_frame v v' _ (Hother j g Hj Hg) i' Hi') in E.
      destruct (Hnew i Hi) as [E'|E'].
      - rewrite E' in E, Hn. by destruct (G6 k f i j g i' Hk Hg Hi Hi' E Hn).
      - rewrite E in E', Hn. destruct (G5 j g i' Hg Hi' Hn). lia. }
    intros j g i j' g' i'. rewrite !list_lookup_insert. case_decide as D; case_decide as D'.
    + intros [= <-] [= <-] Hi Hi' E Hn. destruct D as [-> _], D' as [-> _]. split; [done|by apply Hinj].
    + intros [= <-] Hg' Hi Hi' E Hn. exfalso. apply (Hx j' g' i i'); naive_solver.
    + intros Hg [= <-] Hi Hi' E Hn. exfalso. apply (Hx j g i' i); [naive_solver|done|done|done|done|by rewrite <- E].
    + intros Hg Hg' Hi Hi'. rewrite (file_slot_frame v v' _ (Hother j g ltac:(naive_solver) Hg) i Hi),
        (file_slot_frame v v' _ (Hother j' g' ltac:(naive_solver) Hg') i' Hi'). by apply G6.
Qed.

(** ** The steps of [iappend] *)

Section steps.
Context (v : Z -> block) (fb : Z) (fs : list file) (k : nat) (f : file).
Context (G : good v fb fs) (Hk : fs !! k = Some f) (Hfb : fb < 2 ^ 31).
#[local] Notation p := (f_ino f).

Lemma nmeta_value : nmeta = 59.
Proof. reflexivity. Qed.

Lemma own_range i : 0 <= i <= MAXFILE -> slot v p i <> 0 -> 59 <= slot v p i < fb.
Proof. rewrite <- nmeta_value. by apply (g_range _ _ _ G k). Qed.

Lemma own_inj i i' :
  0 <= i <= MAXFILE -> 0 <= i' <= MAXFILE -> slot v p i = slot v p i' -> slot v p i <> 0 -> i = i'.
Proof. intros Hi Hi' E Hn. by destruct (g_inj _ _ _ G k f i k f i' Hk Hk Hi Hi' E Hn). Qed.

Lemma fb_pos : 59 <= fb.
Proof. rewrite <- nmeta_value. apply G. Qed.

(** The file with one more slot in use, at block [fb]. *)
Lemma new_slot_inj v' p' i0 :
  0 <= i0 <= MAXFILE ->
  (forall i, 0 <= i <= MAXFILE -> slot v' p' i = if i =? i0 then fb else slot v p i) ->
  (forall i, 0 <= i <= MAXFILE -> slot v' p' i = slot v p i \/ fb <= slot v' p' i < fb + 1) /\
  (forall i i', 0 <= i <= MAXFILE -> 0 <= i' <= MAXFILE ->
    slot v' p' i = slot v' p' i' -> slot v' p' i <> 0 -> i = i').
Proof.
  intros H0 H. split.
  - intros i Hi. rewrite H by done. destruct (i =? i0); [right; lia|by left].
  - intros i i' Hi Hi'. rewrite !H by done. pose proof fb_pos.
    destruct (Z.eqb_spec i i0) as [->|], (Z.eqb_spec i' i0) as [->|]; intros E Hn; try done.
    + destruct (own_range i' Hi'); lia.
    + destruct (own_range i Hi); lia.
    + by apply own_inj.
Qed.

Lemma nth_past o : BSIZE * f_nb f <= o -> nth (Z.to_nat o) (f_data f) 0 = 0.
Proof.
  intros Ho. apply nth_overflow. pose proof (ow_len _ _ (g_owns _ _ _ G k f Hk)). pose proof (ow_nb _ _ (g_owns _ _ _ G k f Hk)).
  fs_consts. lia.
Qed.

Lemma byte_zeros i : 0 <= i < BSIZE -> byte_at zeros i = 0.
Proof.
  intros Hi. unfold byte_at, zeros. rewrite list_lookup_total_alt. by rewrite lookup_replicate_2 by lia.
Qed.

(** Data after a new block at index [f_nb f], whatever holds it. *)
Lemma new_block_owns v' p' :
  length (i_addrs p') = 13%nat -> f_nb f < MAXFILE ->
  (forall bn, 0 <= bn < MAXFILE -> blk v' p' bn = if bn =? f_nb f then fb else blk v p bn) ->
  (NDIRECT <= f_nb f -> addr p' NDIRECT <> 0) -> v' fb = zeros ->
  (forall bn, 0 <= bn < MAXFILE -> blk v p bn <> 0 -> v' (blk v p bn) = v (blk v p bn)) ->
  owns v' (MkFile p' (f_data f) (f_nb f + 1)).
Proof.
  intros Hl Hnb Hblk Hind Hz Hsame. pose proof (g_owns _ _ _ G k f Hk) as [O1 O2 O3 O4 O5 O6]. pose proof fb_pos.
  split; cbn [f_ino f_data f_nb]; try done.
  - lia.
  - intros bn Hbn. rewrite Hblk by done. destruct (Z.eqb_spec bn (f_nb f)) as [->|]; [lia|]. rewrite O3 by done. lia.
  - intros. apply Hind. lia.
  - intros o Ho. rewrite <- O5 by done. assert (Hi : 0 <= o / BSIZE < MAXFILE) by (fs_consts; lia).
    unfold file_byte, file_block. rewrite Hblk by done. destruct (Z.eqb_spec (o / BSIZE) (f_nb f)) as [E|E].
    + rewrite (proj2 (Z.eqb_neq fb 0)) by lia. rewrite Hz, byte_zeros by (fs_consts; lia).
      destruct (Z.eqb_spec (blk v p (o / BSIZE)) 0) as [E'|E']; [by rewrite byte_zeros by (fs_consts; lia)|].
      apply O3 in E'; [lia|done].
    + destruct (Z.eqb_spec (blk v p (o / BSIZE)) 0) as [|Hn]; [done|]. by rewrite Hsame.
  - fs_consts. lia.
Qed.

Lemma good_direct :
  f_nb f < NDIRECT ->
  good v (fb + 1) (<[k := MkFile (set_addr (Z.to_nat (f_nb f)) fb p) (f_data f) (f_nb f + 1)]> fs).
Proof.
  intros Hnb. pose proof (g_owns _ _ _ G k f Hk) as [O1 O2 O3 O4 O5 O6]. pose proof fb_pos.
  set (p' := set_addr (Z.to_nat (f_nb f)) fb p).
  assert (Hblk : forall bn, 0 <= bn < MAXFILE -> blk v p' bn = if bn =? f_nb f then fb else blk v p bn).
  { intros bn Hbn. unfold blk, p'. fs_consts. rewrite !addr_set by (done || lia).
    destruct (Z.ltb_spec bn 12); [done|]. zdec. done. }
  assert (Hslot : forall i, 0 <= i <= MAXFILE -> slot v p' i = if i =? f_nb f then fb else slot v p i).
  { intros i Hi. unfold slot. destruct (Z.eqb_spec i MAXFILE) as [->|]; [|apply Hblk; lia].
    unfold p'. fs_consts. rewrite addr_set by (done || lia). by zdec. }
  destruct (new_slot_inj v p' (f_nb f)) as [Hn Hi]; [lia|done|].
  eapply good_update; try done; try apply G; cbn [f_ino]; try lia.
  - intros b Hb. apply G. lia.
  - apply new_block_owns; try done; [by unfold p', set_addr; cbn; rewrite length_insert|fs_consts; lia|lia|apply G; lia].
Qed.

Lemma good_indirect :
  addr p NDIRECT = 0 ->
  good v (fb + 1) (<[k := MkFile (set_addr (Z.to_nat NDIRECT) fb p) (f_data f) (f_nb f)]> fs).
Proof.
  intros Ha. pose proof (g_owns _ _ _ G k f Hk) as [O1 O2 O3 O4 O5 O6]. pose proof fb_pos.
  set (p' := set_addr (Z.to_nat NDIRECT) fb p).
  assert (Hz : v fb = zeros) by (apply G; lia).
  assert (Eind : addr p' NDIRECT = fb) by (unfold p'; fs_consts; rewrite addr_set by (done || lia); done).
  assert (Hblk : forall bn, 0 <= bn < MAXFILE -> blk v p' bn = blk v p bn).
  { intros bn Hbn. unfold blk. rewrite Eind, Ha. rewrite (proj2 (Z.eqb_neq fb 0)) by lia. change (0 =? 0) with true.
    fs_consts. destruct (Z.ltb_spec bn 12).
    - unfold p'. rewrite addr_set by (done || lia). by zdec.
    - rewrite Hz. apply get32_zeros. lia. }
  destruct (new_slot_inj v p' MAXFILE) as [Hn Hi]; [fs_consts; lia| |].
  { intros i Hi. unfold slot. destruct (Z.eqb_spec i MAXFILE); [done|apply Hblk; lia]. }
  eapply good_update; try done; try apply G; cbn [f_ino]; try lia.
  - intros b Hb. apply G. lia.
  - split; cbn [f_ino f_data f_nb]; try done.
    + unfold p', set_addr. cbn. by rewrite length_insert.
    + intros bn Hbn. rewrite Hblk by done. by apply O3.
    + intros. lia.
    + intros o Ho. unfold file_byte, file_block. rewrite Hblk by (fs_consts; lia). by apply O5.
Qed.

Lemma good_entry :
  NDIRECT <= f_nb f < MAXFILE -> addr p NDIRECT <> 0 ->
  good (zset v (addr p NDIRECT) (put32 (v (addr p NDIRECT)) (Z.to_nat (4 * (f_nb f - NDIRECT))) fb)) (fb + 1)
    (<[k := MkFile p (f_data f) (f_nb f + 1)]> fs).
Proof.
  intros Hnb Ha. pose proof (g_owns _ _ _ G k f Hk) as [O1 O2 O3 O4 O5 O6]. pose proof fb_pos.
  set (ind := addr p NDIRECT) in *. set (o := Z.to_nat (4 * (f_nb f - NDIRECT))).
  set (v' := zset v ind (put32 (v ind) o fb)).
  assert (Hr : 59 <= ind < fb) by (apply (own_range MAXFILE); [fs_consts; lia|done]).
  pose proof (g_ok _ _ _ G ind) as Hok. unfold block_ok in Hok. fs_consts.
  assert (Hblk : forall bn, 0 <= bn < 140 -> blk v' p bn = if bn =? f_nb f then fb else blk v p bn).
  { intros bn Hbn. unfold blk. fs_consts. fold ind. destruct (Z.ltb_spec bn 12); [by zdec|].
    rewrite (proj2 (Z.eqb_neq ind 0)) by lia. unfold v'. rewrite zset_eq.
    destruct (Z.eqb_spec bn (f_nb f)) as [->|].
    - rewrite get32_put32_eq by lia. apply u32_small. lia.
    - apply get32_put32_ne; lia. }
  destruct (new_slot_inj v' p (f_nb f)) as [Hn Hi]; [fs_consts; lia| |].
  { intros i Hi. unfold slot. fs_consts. destruct (Z.eqb_spec i 140) as [->|]; [by zdec|apply Hblk; lia]. }
  eapply good_update; try done; cbn [f_ino]; try lia.
  - intros b. unfold v', zset. destruct (b =? ind); [|apply G]. unfold block_ok. fs_consts. rewrite length_put32; lia.
  - intros b Hb. unfold v'. rewrite zset_ne by lia. apply G. lia.
  - apply new_block_owns; try done.
    + fs_consts. lia.
    + unfold v'. rewrite zset_ne by lia. apply G. lia.
    + intros bn Hbn Hne. unfold v'. apply zset_ne. intros E. fs_consts.
      assert (bn = 140); [|lia]. apply own_inj; fs_consts; try lia; rewrite slot_blk by (fs_consts; lia); done.
  - intros b. unfold v', zset. destruct (Z.eqb_spec b ind) as [->|]; [|done]. intros _. right.
    exists 140. split_and!; [fs_consts; lia..|done|lia].
Qed.

Lemma good_write bytes :
  let off := Z.of_nat (length (f_data f)) in
  let a := blk v p (off / BSIZE) in
  off + Z.of_nat (length bytes) <= BSIZE * f_nb f -> off mod BSIZE + Z.of_nat (length bytes) <= BSIZE ->
  off / BSIZE < f_nb f ->
  good (zset v a (put_bytes (v a) (Z.to_nat (off mod BSIZE)) bytes)) fb
    (<[k := MkFile p (f_data f ++ bytes) (f_nb f)]> fs).
Proof.
  intros off a Hlen Hblock Hin. pose proof (g_owns _ _ _ G k f Hk) as [O1 O2 O3 O4 O5 O6]. pose proof fb_pos.
  assert (Hi : 0 <= off / BSIZE < MAXFILE) by (fs_consts; lia).
  assert (Ha : a <> 0) by (by apply O3).
  pose proof (own_range (off / BSIZE) ltac:(lia)) as Hr. rewrite slot_blk in Hr by done. specialize (Hr Ha). fold a in Hr.
  set (v' := zset v a _). pose proof (g_ok _ _ _ G a) as Hok. unfold block_ok in Hok.
  assert (Hne : addr p NDIRECT <> 0 -> addr p NDIRECT <> a).
  { intros Hn E. fs_consts. assert (140 = off / 512); [|lia].
    apply own_inj; fs_consts; try lia; [rewrite (slot_blk _ _ (off / 512)) by (fs_consts; lia); exact E|done]. }
  assert (Hblk : forall bn, blk v' p bn = blk v p bn).
  { intros bn. apply blk_frame. intros Hn. unfold v'. apply zset_ne. by apply Hne. }
  eapply good_update; try done; cbn [f_ino].
  - intros b. unfold v', zset. destruct (b =? a); [|apply G]. unfold block_ok. fs_consts. rewrite length_put_bytes; lia.
  - intros b Hb. unfold v'. rewrite zset_ne by lia. by apply G.
  - split; cbn [f_ino f_data f_nb]; try done.
    + intros bn Hbn. rewrite Hblk. by apply O3.
    + intros o Ho. assert (Ho' : 0 <= o / BSIZE < MAXFILE) by (fs_consts; lia).
      pose proof (O5 o Ho) as E. unfold file_byte, file_block in E |- *. rewrite Hblk.
      destruct (Z.eqb_spec (blk v p (o / BSIZE)) 0) as [E0|E0].
      * rewrite E. assert (Hge : ~ o / BSIZE < f_nb f) by (rewrite <- O3 by done; tauto).
        rewrite !nth_overflow; [done|rewrite length_app; fs_consts; lia|fs_consts; lia].
      * unfold v', zset. destruct (Z.eqb_spec (blk v p (o / BSIZE)) a) as [Ea|Ea].
        -- assert (Eb : o / BSIZE = off / BSIZE).
           { apply own_inj; [lia|lia| |]; rewrite ?slot_blk by done; done. }
           rewrite Ea in E. rewrite byte_at_put_bytes by (fs_consts; lia). rewrite Z2Nat.id by (fs_consts; lia).
           zcases.
           ++ rewrite app_nth2 by (fs_consts; lia). rewrite list_lookup_total_alt, nth_lookup.
              replace (Z.to_nat o - length (f_data f))%nat with (Z.to_nat (o mod BSIZE) - Z.to_nat (off mod BSIZE))%nat
                by (fs_consts; lia).
              destruct (bytes !! _) eqn:El; [done|]. apply lookup_ge_None in El. fs_consts. lia.
           ++ rewrite E. rewrite !nth_overflow; [done|rewrite length_app; fs_consts; lia|fs_consts; lia].
           ++ rewrite E, app_nth1; [done|fs_consts; lia].
           ++ fs_consts. lia.
        -- rewrite E. destruct (decide (o < off)) as [|Hge]; [by rewrite app_nth1 by lia|].
           rewrite !nth_overflow; [done| |lia]. rewrite length_app.
           assert (o / BSIZE <> off / BSIZE) by (intros E'; apply Ea; unfold a; by rewrite E'). fs_consts. lia.
    + rewrite length_app. lia.
  - intros b. unfold v', zset. destruct (Z.eqb_spec b a) as [->|]; [|done]. intros _. right.
    exists (off / BSIZE). rewrite slot_blk by done. split_and!; done || lia.
  - intros i Hi'. left. unfold slot. by rewrite Hblk.
  - intros i i' H1 H2. unfold slot. rewrite !Hblk. fold (slot v p i) (slot v p i'). by apply own_inj.
Qed.
End steps.
