(* ===== verification/MkfsAppend.v ===== *)
(** * Appending to a file of the image

    The loop of [iappend] of mkfs.c on the files of [MkfsFiles]: it ends,
    appends exactly its bytes, and takes exactly the blocks a file of that
    length needs. *)

From stdpp Require Import base numbers list gmap sets strings.
From Stdlib Require Import ZArith Lia.
From S2P Require Import Prelude CStrings Disk Blocks Log Journal Fs FsBlocks FsFiles FsInodes FsDirs Mkfs MkfsFiles.

Open Scope Z_scope.

(** ** [iappend] *)

(** How many blocks a file of [n] bytes takes. *)
Definition need (n : Z) : Z := (n + (BSIZE - 1)) / BSIZE + (if NDIRECT * BSIZE <? n then 1 else 0).

Definition tidy (f : file) : Prop :=
  f_nb f = (Z.of_nat (length (f_data f)) + (BSIZE - 1)) / BSIZE /\
  (addr (f_ino f) NDIRECT <> 0 -> NDIRECT < f_nb f).

Lemma xint_small x : 0 <= x < 2 ^ 32 -> xint x = x.
Proof. intros H. unfold xint. rewrite le_val_le_bytes. apply Z.mod_small. exact H. Qed.

Lemma next_block_ok s :
  0 <= freeblock s < 2 ^ 31 ->
  next_block s = Ok (freeblock s) (MkMkfs (img s) (sectors s) (freeinode s) (freeblock s + 1)).
Proof.
  intros H. unfold next_block. munfold. unfold set_freeblock. rewrite u32_small, xint_small by lia. done.
Qed.

Lemma same_meta_refl p : same_meta p p.
Proof. unfold same_meta. by split_and!. Qed.

Lemma same_meta_addr k a p : same_meta p (set_addr k a p).
Proof. unfold same_meta. by split_and!. Qed.

(** What the search for a block leaves: the file has the block, nothing else
    of it has changed, and the superblock, inodes and bitmap are as before. *)
Record extended (k : nat) (fs : list file) (f : file) (s : mkfs) (fbn : Z) (r : Z * inode) (s' : mkfs) : Prop := {
  ex_good : good (img s') (freeblock s') (<[k := MkFile r.2 (f_data f) (fbn + 1)]> fs);
  ex_blk : blk (img s') r.2 fbn = r.1;
  ex_ind : addr r.2 NDIRECT <> 0 -> NDIRECT < fbn + 1;
  ex_meta : same_meta (f_ino f) r.2;
  ex_sectors : sectors s' = sectors s;
  ex_inode : freeinode s' = freeinode s;
  ex_low : forall b, b < nmeta -> img s' b = img s b
}.

Section append.
Context (k : nat).
Implicit Types (fs : list file) (f : file) (s : mkfs).

(** The last block of the file has room. *)
Lemma block_for_found fs f s :
  let off := Z.of_nat (length (f_data f)) in
  good (img s) (freeblock s) fs -> fs !! k = Some f -> tidy f -> off mod BSIZE <> 0 ->
  sectors s = FSSIZE -> freeblock s <= FSSIZE ->
  exists r, block_for (f_ino f) (off / BSIZE) s = Ok r s /\ extended k fs f s (off / BSIZE) r s.
Proof.
  intros off G Hk [T1 T2] Hm Hs Hfb. set (fbn := off / BSIZE). fold off in T1.
  pose proof (g_owns _ _ _ G k f Hk) as [O1 O2 O3 O4 O5 O6].
  assert (Enb : f_nb f = fbn + 1) by (unfold fbn; fs_consts; lia).
  assert (Hfbn : 0 <= fbn < MAXFILE) by (unfold fbn; fs_consts; lia).
  assert (Hb : blk (img s) (f_ino f) fbn <> 0) by (apply O3; lia).
  pose proof (g_range _ _ _ G k f fbn Hk ltac:(lia)) as Hr. rewrite slot_blk in Hr by done. specialize (Hr Hb).
  rewrite nmeta_value in Hr. unfold FSSIZE in *.
  exists (blk (img s) (f_ino f) fbn, f_ino f). split.
  - unfold block_for. assert (Hx : xint (blk (img s) (f_ino f) fbn) = blk (img s) (f_ino f) fbn) by (apply xint_small; lia).
    destruct (Z.ltb_spec fbn NDIRECT) as [Hd|Hd].
    + assert (E : blk (img s) (f_ino f) fbn = addr (f_ino f) fbn) by (unfold blk; by rewrite (proj2 (Z.ltb_lt _ _) Hd)).
      rewrite E in Hb, Hx |- *. by rewrite Hx, (proj2 (Z.eqb_neq _ _) Hb).
    + assert (Hi : addr (f_ino f) NDIRECT <> 0) by (apply O4; lia).
      pose proof (g_range _ _ _ G k f MAXFILE Hk ltac:(fs_consts; lia) Hi) as Hri. change (slot (img s) (f_ino f) MAXFILE) with (addr (f_ino f) NDIRECT) in Hri.
      rewrite nmeta_value in Hri.
      assert (E : blk (img s) (f_ino f) fbn = get32 (img s (addr (f_ino f) NDIRECT)) (Z.to_nat (4 * (fbn - NDIRECT))))
        by (unfold blk; rewrite (proj2 (Z.ltb_ge _ _) Hd), (proj2 (Z.eqb_neq _ _) Hi); done).
      rewrite (xint_small (addr _ _)) by lia. rewrite (proj2 (Z.eqb_neq _ _) Hi). munfold. unfold rsect. rewrite xint_small by lia.
      rewrite Hs, (proj2 (Z.ltb_lt _ 1000)) by lia. rewrite <- E, (proj2 (Z.eqb_neq _ _) Hb). by rewrite Hx.
  - split; cbn [fst snd]; rewrite <- ?Enb; try done.
    replace (MkFile (f_ino f) (f_data f) (f_nb f)) with f by (by destruct f).
    by rewrite list_insert_id.
Qed.

(** The indirect block has no entry yet for the next block. *)
Lemma block_for_entry fs f s :
  good (img s) (freeblock s) fs -> fs !! k = Some f -> NDIRECT <= f_nb f < MAXFILE ->
  addr (f_ino f) NDIRECT <> 0 -> sectors s = FSSIZE -> freeblock s < FSSIZE ->
  exists r s', block_for (f_ino f) (f_nb f) s = Ok r s' /\ extended k fs f s (f_nb f) r s' /\
    freeblock s' = freeblock s + 1.
Proof.
  intros G Hk Hnb Ha Hs Hfb. pose proof (g_owns _ _ _ G k f Hk) as [O1 O2 O3 O4 O5 O6].
  pose proof (g_fb _ _ _ G) as Hfb0. rewrite nmeta_value in Hfb0. unfold FSSIZE in *.
  pose proof (g_range _ _ _ G k f MAXFILE Hk ltac:(fs_consts; lia) Ha) as Hri.
  change (slot (img s) (f_ino f) MAXFILE) with (addr (f_ino f) NDIRECT) in Hri. rewrite nmeta_value in Hri.
  pose proof (good_entry _ _ _ _ _ G Hk ltac:(lia) Hnb Ha) as Ge.
  set (ind := addr (f_ino f) NDIRECT) in *. set (o := Z.to_nat (4 * (f_nb f - NDIRECT))) in *.
  assert (E0 : get32 (img s ind) o = 0).
  { destruct (decide (get32 (img s ind) o = 0)) as [|Hn]; [done|].
    assert (H : blk (img s) (f_ino f) (f_nb f) <> 0)
      by (unfold blk; rewrite (proj2 (Z.ltb_ge _ _)) by lia; fold ind; rewrite (proj2 (Z.eqb_neq _ _) Ha); done).
    apply O3 in H; lia. }
  pose proof (g_ok _ _ _ G ind) as Hok. unfold block_ok in Hok.
  assert (Hput : get32 (put32 (img s ind) o (freeblock s)) o = freeblock s)
    by (unfold o; fs_consts; rewrite get32_put32_eq by lia; apply u32_small; lia).
  eexists _, _. split_and!.
  - unfold block_for. rewrite (proj2 (Z.ltb_ge _ _)) by lia. fold ind. rewrite (xint_small ind), (proj2 (Z.eqb_neq _ _) Ha) by lia.
    erewrite bind_ok by reflexivity. fold ind. unfold rsect at 1.
    erewrite bind_ok by (rewrite xint_small by lia; rewrite Hs, (proj2 (Z.ltb_lt _ 1000)) by lia; reflexivity).
    fold o. rewrite E0. change (0 =? 0) with true. cbn match.
    rewrite (bind_ok _ _ _ _ _ (next_block_ok s ltac:(lia))). cbv zeta. erewrite bind_ok by reflexivity. reflexivity.
  - rewrite Hput, !xint_small by lia.
    split; cbn [fst snd img freeblock sectors freeinode]; try done; [| |lia|].
    + unfold blk. fold ind. rewrite (proj2 (Z.ltb_ge _ _)) by lia. rewrite (proj2 (Z.eqb_neq _ _) Ha), zset_eq. exact Hput.
    + lia.
    + intros b Hb. rewrite nmeta_value in Hb. apply zset_ne. lia.
  - done.
Qed.

(** The next block is new: up to two blocks are taken. *)
Lemma block_for_new fs f s :
  let off := Z.of_nat (length (f_data f)) in
  good (img s) (freeblock s) fs -> fs !! k = Some f -> tidy f -> off mod BSIZE = 0 -> off / BSIZE < MAXFILE ->
  sectors s = FSSIZE -> freeblock s + (need (off + 1) - need off) <= FSSIZE ->
  exists r s', block_for (f_ino f) (off / BSIZE) s = Ok r s' /\ extended k fs f s (off / BSIZE) r s' /\
    freeblock s' = freeblock s + (need (off + 1) - need off).
Proof.
  intros off G Hk [T1 T2] Hm Hmax Hs Hroom. set (fbn := off / BSIZE) in *. fold off in T1.
  pose proof (g_owns _ _ _ G k f Hk) as [O1 O2 O3 O4 O5 O6].
  assert (Enb : f_nb f = fbn) by (unfold fbn; fs_consts; lia).
  assert (Hfbn : 0 <= fbn < MAXFILE) by (unfold fbn; fs_consts; lia).
  pose proof (g_fb _ _ _ G) as Hfb0. rewrite nmeta_value in Hfb0.
  assert (Hneed : need (off + 1) - need off = if fbn =? NDIRECT then 2 else 1).
  { unfold need, fbn in *. fs_consts. zcases; lia. }
  rewrite Hneed in *. clear Hneed. unfold FSSIZE in *.
  destruct (Z.ltb_spec fbn NDIRECT) as [Hd|Hd].
  - rewrite (proj2 (Z.eqb_neq fbn NDIRECT)) in * by lia. eexists _, _.
    assert (Ha : addr (f_ino f) fbn = 0).
    { destruct (decide (addr (f_ino f) fbn = 0)) as [|Hn]; [done|].
      assert (H : blk (img s) (f_ino f) fbn <> 0) by (unfold blk; by rewrite (proj2 (Z.ltb_lt _ _) Hd)).
      apply O3 in H; [lia|done]. }
    split_and!.
    + unfold block_for. rewrite (proj2 (Z.ltb_lt _ _) Hd), Ha. change (xint 0 =? 0) with true. cbn match.
      rewrite (bind_ok _ _ _ _ _ (next_block_ok s ltac:(lia))). reflexivity.
    + pose proof (good_direct _ _ _ _ _ G Hk ltac:(lia)) as Gd. rewrite Enb in Gd.
      assert (Ex : addr (set_addr (Z.to_nat fbn) (freeblock s) (f_ino f)) fbn = freeblock s)
        by (fs_consts; rewrite addr_set by (done || lia); by rewrite Z.eqb_refl).
      split; cbn [fst snd img freeblock sectors freeinode]; try done; [|].
      * unfold blk. rewrite (proj2 (Z.ltb_lt _ _) Hd), Ex. rewrite xint_small by lia. done.
      * fs_consts. rewrite addr_set by (done || lia). rewrite (proj2 (Z.eqb_neq 12 fbn)) by lia. intros H. apply T2 in H. lia.
    + done.
  - destruct (Z.eqb_spec fbn NDIRECT) as [E12|E12].
    + assert (Ha : addr (f_ino f) NDIRECT = 0)
        by (destruct (decide (addr (f_ino f) NDIRECT = 0)) as [|Hn]; [done|]; apply T2 in Hn; lia).
      pose proof (good_indirect _ _ _ _ _ G Hk Ha) as G1. set (p1 := set_addr _ _ _) in G1.
      assert (E1 : addr p1 NDIRECT = freeblock s)
        by (unfold p1; fs_consts; rewrite addr_set by (done || lia); done).
      destruct (block_for_entry (<[k := MkFile p1 (f_data f) (f_nb f)]> fs) (MkFile p1 (f_data f) (f_nb f))
        (MkMkfs (img s) (sectors s) (freeinode s) (freeblock s + 1))) as (r & s' & E & X & Ef);
        cbn [img sectors freeinode freeblock f_ino f_nb] in *; try done; try lia.
      { by apply list_lookup_insert_eq, lookup_lt_Some with f. }
      { unfold FSSIZE. lia. }
      eexists r, s'. split_and!; [| |lia].
      * unfold block_for in E |- *. rewrite Enb in E. rewrite (proj2 (Z.ltb_ge _ _) Hd) in E |- *. rewrite Ha.
        change (xint 0 =? 0) with true. cbn match. rewrite bind_assoc, (bind_ok _ _ _ _ _ (next_block_ok s ltac:(lia))).
        fold p1. rewrite E1, (xint_small (freeblock s)) in E by lia. rewrite (proj2 (Z.eqb_neq (freeblock s) 0)) in E by lia. exact E.
      * rewrite Enb in X. destruct X as [X1 X2 X3 X4 X5 X6 X7]. cbn [f_ino f_data img sectors freeinode] in *. split; try done.
        by rewrite list_insert_insert_eq in X1.
    + assert (Ha : addr (f_ino f) NDIRECT <> 0) by (apply O4; lia).
      destruct (block_for_entry fs f s) as (r & s' & E & X & Ef); try done; try (unfold FSSIZE; lia).
      rewrite Enb in E, X. by exists r, s'.
Qed.

Lemma block_for_ok fs f s :
  let off := Z.of_nat (length (f_data f)) in
  good (img s) (freeblock s) fs -> fs !! k = Some f -> tidy f -> off / BSIZE < MAXFILE ->
  sectors s = FSSIZE -> freeblock s + (need (off + 1) - need off) <= FSSIZE ->
  exists r s', block_for (f_ino f) (off / BSIZE) s = Ok r s' /\ extended k fs f s (off / BSIZE) r s' /\
    freeblock s' = freeblock s + (need (off + 1) - need off).
Proof.
  intros off G Hk T Hmax Hs Hroom. destruct (decide (off mod BSIZE = 0)) as [Hm|Hm]; [by apply block_for_new|].
  assert (E : need (off + 1) - need off = 0) by (unfold need; fs_consts; zcases; lia).
  destruct (block_for_found fs f s G Hk T Hm Hs ltac:(lia)) as (r & E1 & X). exists r, s. split_and!; [done|done|lia].
Qed.

(** The effect of appending [bytes] to file [k]. *)
Record appended fs f s (bytes : list Z) (f' : file) s' : Prop := {
  ap_good : good (img s') (freeblock s') (<[k := f']> fs);
  ap_data : f_data f' = f_data f ++ bytes;
  ap_tidy : tidy f';
  ap_meta : same_meta (f_ino f) (f_ino f');
  ap_sectors : sectors s' = FSSIZE;
  ap_inode : freeinode s' = freeinode s;
  ap_free : freeblock s' = freeblock s +
    (need (Z.of_nat (length (f_data f) + length bytes)) - need (Z.of_nat (length (f_data f))));
  ap_low : forall b, b < nmeta -> img s' b = img s b
}.

Lemma need_mono a b : 0 <= a <= b -> need a <= need b.
Proof. intros H. unfold need. fs_consts. zcases; lia. Qed.

(** One turn of the loop. *)
Lemma append_turn fs f s p :
  let off := Z.of_nat (length (f_data f)) in
  let n1 := Z.to_nat (Z.min (Z.of_nat (length p)) ((off / BSIZE + 1) * BSIZE - off)) in
  good (img s) (freeblock s) fs -> fs !! k = Some f -> tidy f -> sectors s = FSSIZE -> p <> [] ->
  off + Z.of_nat (length p) <= MAXFILE * BSIZE ->
  freeblock s + (need (off + Z.of_nat (length p)) - need off) <= FSSIZE ->
  exists r s1 f', block_for (f_ino f) (off / BSIZE) s = Ok r s1 /\ rsect r.1 s1 = Ok (img s1 r.1) s1 /\
    f_ino f' = r.2 /\
    appended fs f s (take n1 p) f'
      (MkMkfs (zset (img s1) r.1 (put_bytes (img s1 r.1) (Z.to_nat (off - off / BSIZE * BSIZE)) (take n1 p)))
         (Z.max (sectors s1) (r.1 + 1)) (freeinode s1) (freeblock s1)).
Proof.
  intros off n1 G Hk T Hs Hp Hmax Hroom.
  assert (Hlp : 1 <= Z.of_nat (length p)) by (destruct p; [done|cbn; lia]).
  assert (Hn1 : (0 < n1)%nat /\ (n1 <= length p)%nat /\ off mod BSIZE + Z.of_nat n1 <= BSIZE) by (unfold n1; fs_consts; lia).
  pose proof (need_mono (off + 1) (off + Z.of_nat (length p)) ltac:(lia)) as Hmono.
  destruct (block_for_ok fs f s) as (r & s1 & E & X & Ef); try done; [fold off; fs_consts; lia|fold off; lia|].
  fold off in E, X, Ef. destruct X as [X1 X2 X3 X4 X5 X6 X7]. destruct r as [x p']. cbn [fst snd] in *.
  set (f1 := MkFile p' (f_data f) (off / BSIZE + 1)) in X1.
  assert (Hk1 : <[k := f1]> fs !! k = Some f1) by (by apply list_lookup_insert_eq, lookup_lt_Some with f).
  assert (Hl : length (take n1 p) = n1) by (rewrite length_take; lia).
  pose proof (good_write _ _ _ k f1 X1 Hk1 (take n1 p)) as Gw. cbv zeta in Gw. cbn [f_ino f_data f_nb f1] in Gw.
  fold off in Gw. rewrite X2, Hl in Gw.
  specialize (Gw ltac:(fs_consts; lia) ltac:(lia) ltac:(lia)).
  assert (Hx : 59 <= x < freeblock s1).
  { rewrite <- nmeta_value. pose proof (g_range _ _ _ X1 k f1 (off / BSIZE) Hk1) as Hr. cbn [f_ino f1] in Hr.
    rewrite slot_blk in Hr by (fs_consts; lia). rewrite X2 in Hr. apply Hr; [fs_consts; lia|].
    rewrite <- X2. apply (ow_blk _ _ (g_owns _ _ _ X1 k f1 Hk1)); cbn [f_nb f1]; fs_consts; lia. }
  unfold FSSIZE in *.
  exists (x, p'), s1, (MkFile p' (f_data f ++ take n1 p) (off / BSIZE + 1)). split_and!; [done| |done|].
  { unfold rsect. cbn [fst]. by rewrite X5, Hs, (proj2 (Z.ltb_lt _ 1000)) by lia. }
  split; cbn [fst snd f_ino f_data img freeblock sectors freeinode]; try done.
  - rewrite list_insert_insert_eq in Gw. replace (off - off / BSIZE * BSIZE) with (off mod BSIZE) by (fs_consts; lia). exact Gw.
  - split; cbn [f_ino f_data f_nb]; [|exact X3]. rewrite length_app, Hl. fs_consts. lia.
  - unfold FSSIZE. lia.
  - rewrite Ef. fold off. rewrite Hl, Nat2Z.inj_add. fold off.
    assert (need (off + Z.of_nat n1) = need (off + 1)) by (unfold need; fs_consts; zcases; lia). lia.
  - intros b Hb. rewrite nmeta_value in Hb. rewrite zset_ne by lia. apply X7. by rewrite nmeta_value.
Qed.

Lemma appended_nil fs f s :
  good (img s) (freeblock s) fs -> fs !! k = Some f -> tidy f -> sectors s = FSSIZE -> appended fs f s [] f s.
Proof.
  intros G Hk T Hs. split; try done; [by rewrite list_insert_id|by rewrite app_nil_r|].
  rewrite Nat.add_0_r. lia.
Qed.

Lemma appended_trans fs f s b1 f1 s1 b2 f2 s2 :
  appended fs f s b1 f1 s1 -> appended (<[k := f1]> fs) f1 s1 b2 f2 s2 -> appended fs f s (b1 ++ b2) f2 s2.
Proof.
  intros [A1 A2 A3 A4 A5 A6 A7 A8] [B1 B2 B3 B4 B5 B6 B7 B8]. split; try done.
  - by rewrite list_insert_insert_eq in B1.
  - by rewrite B2, A2, app_assoc.
  - destruct A4 as (?&?&?&?&?&?&?&?&?), B4 as (?&?&?&?&?&?&?&?&?). unfold same_meta. split_and!; congruence.
  - congruence.
  - rewrite B7, A7, A2, !length_app. rewrite Nat.add_assoc. lia.
  - intros b Hb. rewrite B8, A8 by done. done.
Qed.

Lemma iappend_loop_S n din off p :
  p <> [] -> iappend_loop (S n) din off p =
    (let fbn := off / BSIZE in
     if negb (fbn <? MAXFILE) then panic "assert"
     else
       r ← block_for din fbn;
       let '(x, din) := r in
       let n1 := Z.min (Z.of_nat (length p)) ((fbn + 1) * BSIZE - off) in
       buf ← rsect x;
       wsect x (put_bytes buf (Z.to_nat (off - fbn * BSIZE)) (take (Z.to_nat n1) p));;
       iappend_loop n din (off + n1) (drop (Z.to_nat n1) p)).
Proof. by destruct p. Qed.

Lemma iappend_loop_ok n : forall fs f s p,
  let off := Z.of_nat (length (f_data f)) in
  (length p <= n)%nat -> good (img s) (freeblock s) fs -> fs !! k = Some f -> tidy f -> sectors s = FSSIZE ->
  off + Z.of_nat (length p) <= MAXFILE * BSIZE ->
  freeblock s + (need (off + Z.of_nat (length p)) - need off) <= FSSIZE ->
  exists f' s', iappend_loop n (f_ino f) off p s = Ok (f_ino f', off + Z.of_nat (length p)) s' /\
    appended fs f s p f' s'.
Proof.
  induction n as [|n IH]; intros fs f s p off Hn G Hk T Hs Hmax Hroom.
  { destruct p; [|cbn in Hn; lia]. exists f, s. cbn [iappend_loop length]. rewrite Z.add_0_r. split; [done|by apply appended_nil]. }
  destruct (decide (p = [])) as [->|Hp].
  { exists f, s. cbn [iappend_loop length]. rewrite Z.add_0_r. split; [done|by apply appended_nil]. }
  destruct (append_turn fs f s p G Hk T Hs Hp Hmax Hroom) as (r & s1 & f1 & E1 & E2 & Ei & A).
  fold off in E1, A. set (m := Z.min (Z.of_nat (length p)) ((off / BSIZE + 1) * BSIZE - off)) in A.
  assert (Hlp : 1 <= Z.of_nat (length p)) by (destruct p; [done|cbn; lia]).
  assert (Hm : 1 <= m <= Z.of_nat (length p)) by (unfold m; fs_consts; lia).
  set (s2 := MkMkfs _ _ _ _) in A.
  assert (Hl1 : length (f_data f1) = (length (f_data f) + Z.to_nat m)%nat)
    by (rewrite (ap_data _ _ _ _ _ _ A), length_app, length_take; lia).
  destruct (IH (<[k := f1]> fs) f1 s2 (drop (Z.to_nat m) p)) as (f2 & s3 & E3 & A2).
  - rewrite length_drop. lia.
  - apply A.
  - by apply list_lookup_insert_eq, lookup_lt_Some with f.
  - apply A.
  - apply A.
  - rewrite Hl1, length_drop. lia.
  - rewrite (ap_free _ _ _ _ _ _ A), Hl1, length_take, length_drop.
    replace (Z.of_nat (length (f_data f) + Z.to_nat m) + Z.of_nat (length p - Z.to_nat m)) with (off + Z.of_nat (length p)) by (unfold off; lia).
    replace (length (f_data f) + Z.to_nat m `min` length p)%nat with (length (f_data f) + Z.to_nat m)%nat by lia. unfold off in *. lia.
  - exists f2, s3. split.
    + rewrite iappend_loop_S by done. cbv zeta. rewrite (proj2 (Z.ltb_lt _ _)) by (fs_consts; lia). cbn [negb].
      rewrite (bind_ok _ _ _ _ _ E1). destruct r as [x din]. cbn [fst snd] in *. rewrite (bind_ok _ _ _ _ _ E2).
      erewrite bind_ok by reflexivity. fold m s2. rewrite Hl1, length_drop in E3. subst din.
      replace (Z.of_nat (length (f_data f) + Z.to_nat m)) with (off + m) in E3 by (unfold off; lia).
      rewrite E3. f_equal. f_equal. lia.
    + rewrite <- (take_drop (Z.to_nat m) p). by eapply appended_trans.
Qed.
End append.
