(* ===== verification/MkfsImage.v ===== *)
(** * Inodes and directories of the image mkfs.c builds

    Inodes on the image, [ialloc], [iappend] and the copying of files, and the
    image at the end, in the terms in which [FsFiles], [FsInodes] and [FsDirs]
    describe a disk to the kernel. *)

From stdpp Require Import base numbers list gmap sets strings.
From Stdlib Require Import ZArith Lia.
From S2P Require Import Prelude CStrings Disk Blocks Log Journal Fs FsBlocks FsFiles FsInodes FsDirs.
From S2P Require Import Mkfs MkfsFiles MkfsAppend.

Open Scope Z_scope.

(** ** Inodes *)

(** An inode as mkfs reads it from the image. *)
Definition from_disk (p : inode) : Prop :=
  p = set_dinode (i_type p) (i_major p) (i_minor p) (i_nlink p) (i_size p) (i_addrs p) (cleared (i_inum p)).

Lemma get_words_ext x x' n : forall o,
  (forall k, (o <= k)%nat -> (k + 4 <= o + 4 * n)%nat -> get_bytes x' k 4 = get_bytes x k 4) ->
  get_words x' o n = get_words x o n.
Proof.
  induction n as [|n IH]; intros o H; cbn [get_words]; [done|]. f_equal.
  - unfold get32. by rewrite H by lia.
  - apply IH. intros k Hk Hk'. apply H; lia.
Qed.

Lemma read_dinode_ext x x' o q :
  (forall k n, (o <= k)%nat -> (k + n <= o + 64)%nat -> get_bytes x' k n = get_bytes x k n) ->
  read_dinode x' o q = read_dinode x o q.
Proof.
  intros H. unfold read_dinode, get16, get32. rewrite !H by lia.
  rewrite (get_words_ext x x'); [done|]. intros k Hk Hk'. apply H; lia.
Qed.

Lemma dinode_off_apart i j :
  0 <= i -> 0 <= j -> i / IPB = j / IPB -> i <> j ->
  (dinode_off i + 64 <= dinode_off j \/ dinode_off j + 64 <= dinode_off i)%nat.
Proof. unfold dinode_off. intros Hi Hj E Hne. fs_consts. lia. Qed.

Lemma sb_values : sb_inodestart sb = 32 /\ sb_bmapstart sb = 58 /\ sb_ninodes sb = 200 /\ sb_size sb = 1000.
Proof. done. Qed.

Lemma iblock_value p : iblock sb p = i_inum p / 8 + 32.
Proof. done. Qed.

(** The image after [winode]. *)
Definition with_inode (p : inode) (v : Z -> block) : Z -> block :=
  zset v (iblock sb p) (write_dinode p (v (iblock sb p)) (dinode_off (i_inum p))).

Lemma on_disk_written p v :
  dinode_fits p -> block_ok (v (iblock sb p)) -> on_disk sb (with_inode p v) p.
Proof.
  intros Hf Hok q. unfold with_inode. rewrite zset_eq. apply read_write_dinode; [done|].
  unfold block_ok in Hok. rewrite Hok. apply dinode_off_bound.
Qed.

Lemma on_disk_other p q v :
  dinode_fits p -> block_ok (v (iblock sb p)) -> 0 <= i_inum p -> 0 <= i_inum q -> i_inum p <> i_inum q ->
  on_disk sb v q -> on_disk sb (with_inode p v) q.
Proof.
  intros Hf Hok Hp Hq Hne Hd r. rewrite <- Hd. unfold with_inode, zset.
  destruct (Z.eqb_spec (iblock sb q) (iblock sb p)) as [E|]; [|done]. rewrite E.
  pose proof (dinode_off_bound (i_inum p)) as Ho. unfold block_ok in Hok.
  assert (E8 : i_inum p / IPB = i_inum q / IPB) by (rewrite !iblock_value in E; fs_consts; lia).
  destruct (dinode_off_apart (i_inum p) (i_inum q)) as [H|H]; try done;
    apply read_dinode_ext; intros k n Hk Hk'; apply write_dinode_out; try apply Hf; fs_consts; lia.
Qed.

Lemma iblock_low p : 0 <= i_inum p < 200 -> 32 <= iblock sb p < 58.
Proof. intros H. rewrite iblock_value. lia. Qed.

Lemma IBLOCK_value p : 0 <= i_inum p < 200 -> IBLOCK (i_inum p) sb = iblock sb p.
Proof. intros H. pose proof (iblock_low p H). unfold IBLOCK. apply u32_small. unfold iblock in *. lia. Qed.

Lemma winode_ok p s :
  0 <= i_inum p < 200 -> sectors s = FSSIZE ->
  winode (i_inum p) p s = Ok tt (MkMkfs (with_inode p (img s)) FSSIZE (freeinode s) (freeblock s)).
Proof.
  intros Hp Hs. pose proof (iblock_low p Hp). unfold winode. rewrite IBLOCK_value by done. unfold rsect. munfold.
  rewrite Hs. unfold FSSIZE. rewrite (proj2 (Z.ltb_lt _ 1000)) by lia. unfold wsect, modify. rewrite Hs.
  unfold FSSIZE. by rewrite Z.max_l by lia.
Qed.

Lemma rinode_ok p s :
  0 <= i_inum p < 200 -> sectors s = FSSIZE -> on_disk sb (img s) p -> from_disk p -> rinode (i_inum p) s = Ok p s.
Proof.
  intros Hp Hs Hd Hf. pose proof (iblock_low p Hp). unfold rinode. rewrite IBLOCK_value by done. unfold rsect. munfold.
  rewrite Hs. unfold FSSIZE. rewrite (proj2 (Z.ltb_lt _ 1000)) by lia. rewrite Hd, <- Hf. done.
Qed.

(** Changes below the data blocks leave the files alone. *)
Lemma good_low v v' fb fs :
  good v fb fs -> (forall b, nmeta <= b -> v' b = v b) -> (forall b, block_ok (v' b)) -> good v' fb fs.
Proof.
  intros G Hsame Hok. pose proof G as [G1 G2 G3 G4 G5 G6].
  assert (Hf : forall k f, fs !! k = Some f -> forall i, 0 <= i <= MAXFILE -> slot v (f_ino f) i <> 0 ->
    v' (slot v (f_ino f) i) = v (slot v (f_ino f) i)).
  { intros k f Hk i Hi Hn. apply Hsame. apply (G5 k f i Hk Hi Hn). }
  split; try done.
  - intros b Hb. rewrite Hsame by lia. by apply G3.
  - intros k f Hk. eapply owns_frame; [by eapply Hf|by eapply G4].
  - intros k f i Hk Hi. rewrite (file_slot_frame v v' _ (Hf k f Hk) i Hi). by apply G5 with k.
  - intros k f i k' f' i' Hk Hk' Hi Hi'.
    rewrite (file_slot_frame v v' _ (Hf k f Hk) i Hi), (file_slot_frame v v' _ (Hf k' f' Hk') i' Hi'). by apply G6.
Qed.

(** A file may change all of its inode but the addresses. *)
Lemma good_meta v fb fs k f p' :
  good v fb fs -> fs !! k = Some f -> i_addrs p' = i_addrs (f_ino f) ->
  good v fb (<[k := MkFile p' (f_data f) (f_nb f)]> fs).
Proof.
  intros G Hk Ha.
  assert (Hb : forall bn, blk v p' bn = blk v (f_ino f) bn) by (intros bn; unfold blk, addr; by rewrite Ha).
  assert (Hs : forall i, slot v p' i = slot v (f_ino f) i) by (intros i; unfold slot, addr; by rewrite Hb, Ha).
  pose proof (g_owns _ _ _ G k f Hk) as [O1 O2 O3 O4 O5 O6].
  eapply good_update; try done; try apply G; cbn [f_ino]; try (intros b Hb'; by apply G).
  - split; cbn [f_ino f_data f_nb]; try done.
    + by rewrite Ha.
    + intros bn Hbn. rewrite Hb. by apply O3.
    + unfold addr. rewrite Ha. exact O4.
    + intros o Ho. unfold file_byte, file_block. rewrite Hb. by apply O5.
  - intros i Hi. left. apply Hs.
  - intros i i' Hi Hi'. rewrite !Hs. intros E Hn. by destruct (g_inj _ _ _ G k f i k f i' Hk Hk Hi Hi' E Hn).
Qed.

(** A new file has no blocks. *)
Lemma good_snoc v fb fs p :
  good v fb fs -> i_addrs p = replicate 13 0 -> good v fb (fs ++ [MkFile p [] 0]).
Proof.
  intros G Ha. pose proof G as [G1 G2 G3 G4 G5 G6].
  assert (Hadr : forall i, 0 <= i < 13 -> addr p i = 0).
  { intros i Hi. unfold addr. rewrite Ha, list_lookup_total_alt. by rewrite lookup_replicate_2 by lia. }
  assert (Hb : forall bn, 0 <= bn -> blk v p bn = 0).
  { intros bn Hbn. unfold blk. fs_consts. destruct (Z.ltb_spec bn 12); [apply Hadr; lia|]. by rewrite Hadr by lia. }
  assert (Hs : forall i, 0 <= i <= MAXFILE -> slot v p i = 0).
  { intros i Hi. unfold slot. destruct (i =? MAXFILE); [apply Hadr; fs_consts; lia|apply Hb; lia]. }
  assert (Hl : forall k f, (fs ++ [MkFile p [] 0]) !! k = Some f ->
    fs !! k = Some f \/ (k = length fs /\ f = MkFile p [] 0)).
  { intros k f [H|[Hk H]]%lookup_app_Some; [by left|]. right. apply list_lookup_singleton_Some in H as [Hk' <-].
    split; [lia|done]. }
  split; try done.
  - intros k f [H|[_ ->]]%Hl; [by eapply G4|]. split; cbn [f_ino f_data f_nb].
    + by rewrite Ha.
    + fs_consts. lia.
    + intros bn Hbn. rewrite Hb by lia. lia.
    + fs_consts. lia.
    + intros o Ho. unfold file_byte, file_block. rewrite Hb by (fs_consts; lia). change (0 =? 0) with true. cbn match.
      rewrite byte_zeros by (fs_consts; lia). by destruct (Z.to_nat o).
    + cbn. lia.
  - intros k f i [H|[_ ->]]%Hl; [by eapply G5|]. cbn [f_ino]. intros Hi Hn. by rewrite Hs in Hn.
  - intros k f i k' f' i' [H|[Ek ->]]%Hl [H'|[Ek' ->]]%Hl Hi Hi'; [by apply G6| | |]; cbn [f_ino].
    + rewrite (Hs i' Hi'). intros E Hn. by rewrite E in Hn.
    + rewrite (Hs i Hi). done.
    + rewrite (Hs i Hi). done.
Qed.

(** ** The image under construction *)

Record stored_file (v : Z -> block) (k : nat) (f : file) : Prop := {
  sf_tidy : tidy f;
  sf_disk : on_disk sb v (f_ino f);
  sf_from : from_disk (f_ino f);
  sf_inum : i_inum (f_ino f) = Z.of_nat k + 1;
  sf_size : i_size (f_ino f) = Z.of_nat (length (f_data f));
  sf_type : i_type (f_ino f) = T_DIR \/ i_type (f_ino f) = T_FILE;
  sf_dev : i_major (f_ino f) = 0 /\ i_minor (f_ino f) = 0 /\ i_nlink (f_ino f) = 1
}.

Definition total (fs : list file) : Z := foldr (fun f n => need (Z.of_nat (length (f_data f))) + n) 0 fs.

Record image (s : mkfs) (fs : list file) : Prop := {
  im_good : good (img s) (freeblock s) fs;
  im_sectors : sectors s = FSSIZE;
  im_blocks : freeblock s = nmeta + total fs;
  im_room : freeblock s <= FSSIZE;
  im_count : freeinode s = Z.of_nat (length fs) + 1;
  im_inodes : Z.of_nat (length fs) < NINODES;
  im_files : forall k f, fs !! k = Some f -> stored_file (img s) k f;
  im_sb : img s 1 = put_bytes zeroes 0 sb_bytes
}.

Lemma total_cons f fs : total (f :: fs) = need (Z.of_nat (length (f_data f))) + total fs.
Proof. done. Qed.

Lemma total_insert fs k f f' :
  fs !! k = Some f ->
  total (<[k := f']> fs) = total fs + (need (Z.of_nat (length (f_data f'))) - need (Z.of_nat (length (f_data f)))).
Proof.
  revert k. induction fs as [|g fs IH]; intros [|k] Hk; try done.
  - injection Hk as ->. change (<[0%nat := f']> (f :: fs)) with (f' :: fs). rewrite !total_cons. lia.
  - change (<[S k := f']> (g :: fs)) with (g :: <[k := f']> fs). rewrite !total_cons, (IH k Hk). lia.
Qed.

Lemma total_snoc fs f : f_data f = [] -> total (fs ++ [f]) = total fs.
Proof.
  intros E. induction fs as [|g fs IH]; cbn [app]; rewrite total_cons; [by rewrite E|]. by rewrite total_cons, IH.
Qed.

Lemma addr_bound v fb fs k f i :
  good v fb fs -> fb <= FSSIZE -> fs !! k = Some f -> 0 <= i < 13 -> 0 <= addr (f_ino f) i < FSSIZE.
Proof.
  intros G Hfb Hk Hi. destruct (decide (addr (f_ino f) i = 0)) as [->|Hn]; [unfold FSSIZE; lia|].
  assert (H : nmeta <= addr (f_ino f) i < fb).
  { destruct (decide (i = 12)) as [->|].
    - apply (g_range _ _ _ G k f MAXFILE Hk); [fs_consts; lia|exact Hn].
    - pose proof (g_range _ _ _ G k f i Hk ltac:(fs_consts; lia)) as H. rewrite slot_blk in H by (fs_consts; lia).
      unfold blk in H. rewrite (proj2 (Z.ltb_lt i NDIRECT)) in H by (fs_consts; lia). by apply H. }
  rewrite nmeta_value in H. lia.
Qed.

Lemma fits v fb fs k f p :
  good v fb fs -> fb <= FSSIZE -> fs !! k = Some f -> i_addrs p = i_addrs (f_ino f) ->
  i_type p = T_DIR \/ i_type p = T_FILE -> i_major p = 0 /\ i_minor p = 0 /\ i_nlink p = 1 ->
  0 <= i_size p < 2 ^ 32 -> dinode_fits p.
Proof.
  intros G Hfb Hk Ha Ht (H1 & H2 & H3) Hs. pose proof (ow_addrs _ _ (g_owns _ _ _ G k f Hk)) as Hl.
  unfold dinode_fits. rewrite H1, H2, H3, Ha. split_and!; try done; try lia; try (destruct Ht as [-> | ->]; done).
  apply Forall_lookup. intros i a Hi. pose proof (lookup_lt_Some _ _ _ Hi).
  pose proof (addr_bound v fb fs k f (Z.of_nat i) G Hfb Hk ltac:(lia)) as Hb. unfold addr in Hb.
  rewrite Nat2Z.id, list_lookup_total_alt, Hi in Hb. cbn in Hb. unfold FSSIZE in Hb. lia.
Qed.

Lemma set_size_from_disk n p : from_disk p -> from_disk (set_size n p).
Proof. unfold from_disk. intros ->. done. Qed.

Lemma same_meta_from_disk p p' : same_meta p p' -> from_disk p -> from_disk p'.
Proof.
  intros (E1 & E2 & E3 & E4 & E5 & E6 & E7 & E8 & E9) H. unfold from_disk in *. destruct p, p'; cbn in *. subst.
  injection H as -> -> ->. done.
Qed.

(** Writing the inode of file [k] after its blocks have changed. *)
Lemma winode_file s fs k f :
  good (img s) (freeblock s) fs -> sectors s = FSSIZE -> freeblock s <= FSSIZE -> freeblock s = nmeta + total fs ->
  freeinode s = Z.of_nat (length fs) + 1 -> Z.of_nat (length fs) < NINODES -> img s 1 = put_bytes zeroes 0 sb_bytes ->
  (forall j g, j <> k -> fs !! j = Some g -> stored_file (img s) j g) ->
  fs !! k = Some f -> tidy f -> from_disk (f_ino f) -> i_inum (f_ino f) = Z.of_nat k + 1 ->
  i_size (f_ino f) = Z.of_nat (length (f_data f)) -> i_type (f_ino f) = T_DIR \/ i_type (f_ino f) = T_FILE ->
  i_major (f_ino f) = 0 /\ i_minor (f_ino f) = 0 /\ i_nlink (f_ino f) = 1 ->
  exists s', winode (i_inum (f_ino f)) (f_ino f) s = Ok tt s' /\ image s' fs.
Proof.
  intros G Hs Hfb Hbl Hc Hn H1 Hf Hk T Hd Hi Hsz Ht Hdv.
  assert (Hlt : (k < length fs)%nat) by (by eapply lookup_lt_Some). unfold NINODES in Hn.
  assert (Hr : 0 <= i_inum (f_ino f) < 200) by lia.
  pose proof (iblock_low _ Hr) as Hb. rewrite winode_ok by done. eexists. split; [reflexivity|].
  pose proof (g_owns _ _ _ G k f Hk) as [O1 O2 O3 O4 O5 O6].
  assert (Hfit : dinode_fits (f_ino f)).
  { eapply fits; try done. rewrite Hsz. fs_consts. lia. }
  pose proof (g_ok _ _ _ G (iblock sb (f_ino f))) as Hok.
  split; cbn [img sectors freeinode freeblock]; try done.
  - eapply good_low; [done| |].
    + intros b Hb'. rewrite nmeta_value in Hb'. apply zset_ne. lia.
    + intros b. unfold with_inode, zset. destruct (b =? _); [|apply G]. unfold block_ok in *.
      rewrite length_write_dinode; [done|done|]. rewrite Hok. apply dinode_off_bound.
  - intros j g Hj. destruct (decide (j = k)) as [->|Hne].
    + rewrite Hk in Hj. injection Hj as <-. split; try done. by apply on_disk_written.
    + pose proof (Hf j g Hne Hj) as [S1 S2 S3 S4 S5 S6 S7]. split; try done.
      apply on_disk_other; try done; lia.
  - unfold with_inode. rewrite zset_ne by lia. done.
Qed.

Lemma iappend_ok s fs k f bytes :
  image s fs -> fs !! k = Some f ->
  Z.of_nat (length (f_data f) + length bytes) <= MAXFILE * BSIZE ->
  freeblock s + (need (Z.of_nat (length (f_data f) + length bytes)) - need (Z.of_nat (length (f_data f)))) <= FSSIZE ->
  exists f' s', iappend (Z.of_nat k + 1) bytes s = Ok tt s' /\ image s' (<[k := f']> fs) /\
    f_data f' = f_data f ++ bytes /\ i_type (f_ino f') = i_type (f_ino f).
Proof.
  intros I Hk Hmax Hroom. pose proof I as [I1 I2 I3 I4 I5 I6 I7 I8]. pose proof (I7 k f Hk) as [S1 S2 S3 S4 S5 S6 S7].
  assert (Hlt : (k < length fs)%nat) by (by eapply lookup_lt_Some). unfold NINODES in I6.
  assert (Hr : 0 <= i_inum (f_ino f) < 200) by lia. rewrite Nat2Z.inj_add in Hmax, Hroom.
  destruct (iappend_loop_ok k (length bytes) fs f s bytes) as (f1 & s1 & E1 & [A1 A2 A3 A4 A5 A6 A7 A8]); try done.
  pose proof A4 as (M1 & M2 & M3 & M4 & M5 & M6 & M7 & M8 & M9).
  set (off := Z.of_nat (length (f_data f)) + Z.of_nat (length bytes)) in *.
  assert (Hoff : 0 <= off < 2 ^ 32) by (unfold off in *; fs_consts; lia).
  set (f2 := MkFile (set_size off (f_ino f1)) (f_data f1) (f_nb f1)).
  assert (Hk1 : <[k := f1]> fs !! k = Some f1) by (by apply list_lookup_insert_eq).
  pose proof (good_meta _ _ _ k f1 (set_size off (f_ino f1)) A1 Hk1 eq_refl) as G2. fold f2 in G2.
  rewrite list_insert_insert_eq in G2.
  assert (Hl1 : Z.of_nat (length (f_data f1)) = off) by (rewrite A2, length_app; unfold off; lia).
  destruct (winode_file s1 (<[k := f2]> fs) k f2) as (s2 & E2 & I'); try done; cbn [f2 f_ino f_data f_nb set_size i_inum i_size i_type i_major i_minor i_nlink].
  - rewrite A7, Nat2Z.inj_add. exact Hroom.
  - rewrite A7, I3, (total_insert fs k f f2 Hk). cbn [f2 f_data]. rewrite Hl1, Nat2Z.inj_add. fold off. lia.
  - rewrite length_insert, A6. done.
  - rewrite length_insert. done.
  - rewrite A8 by (rewrite nmeta_value; lia). done.
  - intros j g Hne Hj. rewrite list_lookup_insert_ne in Hj by done. pose proof (I7 j g Hj) as [B1 B2 B3 B4 B5 B6 B7].
    split; try done. intros q. rewrite A8; [apply B2|]. rewrite nmeta_value.
    pose proof (lookup_lt_Some _ _ _ Hj). pose proof (iblock_low (f_ino g) ltac:(lia)). lia.
  - by apply list_lookup_insert_eq.
  - apply set_size_from_disk. by eapply same_meta_from_disk.
  - congruence.
  - by rewrite M5.
  - rewrite M6, M7, M8. done.
  - exists f2, s2. split_and!; [|done|done|exact M5].
    unfold iappend. rewrite <- S4. rewrite (bind_ok _ _ _ _ _ (rinode_ok _ _ Hr I2 S2 S3)).
    rewrite S5, xint_small by (unfold off in Hoff; lia). rewrite (bind_ok _ _ _ _ _ E1). rewrite xint_small by done.
    rewrite <- M2. exact E2.
Qed.

Lemma ialloc_ok s fs type :
  image s fs -> Z.of_nat (length fs) + 1 < NINODES -> type = T_DIR \/ type = T_FILE ->
  exists f' s', ialloc type s = Ok (Z.of_nat (length fs) + 1) s' /\ image s' (fs ++ [f']) /\
    f_data f' = [] /\ i_type (f_ino f') = type.
Proof.
  intros [I1 I2 I3 I4 I5 I6 I7 I8] Hn Ht. unfold NINODES in *.
  set (n := Z.of_nat (length fs) + 1) in *.
  set (p := set_dinode type 0 0 1 0 (replicate 13 0) (cleared n)). set (f := MkFile p [] 0).
  assert (Hk : (fs ++ [f]) !! length fs = Some f) by (by rewrite lookup_app_r, Nat.sub_diag).
  destruct (winode_file (set_freeinode (n + 1) s) (fs ++ [f]) (length fs) f) as (s' & E & I');
    cbn [set_freeinode img sectors freeinode freeblock f p f_ino f_data f_nb set_dinode i_inum i_size i_type i_major i_minor i_nlink]; try done.
  - by apply good_snoc.
  - by rewrite total_snoc.
  - rewrite length_app. cbn. unfold n. lia.
  - rewrite length_app. cbn. unfold NINODES. lia.
  - intros j g Hne [Hj|[Hj Hg]]%lookup_app_Some; [by apply I7|].
    apply list_lookup_singleton_Some in Hg as [? _]. lia.
  - exists f, s'. split_and!; [|done|done|done].
    unfold ialloc. erewrite bind_ok by reflexivity. erewrite bind_ok by reflexivity. rewrite I5. fold n.
    rewrite u32_small by lia.
    replace (set_dinode (xshort type) 0 0 (xshort 1) (xint 0) (replicate 13 0) (cleared n)) with p
      by (destruct Ht as [-> | ->]; done).
    by rewrite (bind_ok _ _ _ _ _ E).
Qed.

(** ** Copying the files *)

Lemma copy_file_ok portions : forall s fs k f,
  image s fs -> fs !! k = Some f ->
  Z.of_nat (length (f_data f) + length (concat portions)) <= MAXFILE * BSIZE ->
  freeblock s + (need (Z.of_nat (length (f_data f) + length (concat portions))) - need (Z.of_nat (length (f_data f)))) <= FSSIZE ->
  exists f' s', copy_file (Z.of_nat k + 1) portions s = Ok tt s' /\ image s' (<[k := f']> fs) /\
    f_data f' = f_data f ++ concat portions /\ i_type (f_ino f') = i_type (f_ino f).
Proof.
  induction portions as [|bytes rest IH]; intros s fs k f I Hk Hmax Hroom.
  { exists f, s. cbn [concat]. rewrite app_nil_r, list_insert_id by done. done. }
  cbn [concat copy_file] in *. rewrite length_app in Hmax, Hroom.
  pose proof (need_mono (Z.of_nat (length (f_data f) + length bytes))
    (Z.of_nat (length (f_data f) + (length bytes + length (concat rest)))) ltac:(lia)) as Hm.
  destruct (iappend_ok s fs k f bytes I Hk) as (f1 & s1 & E1 & I1 & D1 & T1); [lia|lia|].
  assert (Hk1 : <[k := f1]> fs !! k = Some f1) by (by apply list_lookup_insert_eq, lookup_lt_Some with f).
  assert (Hl : length (f_data f1) = (length (f_data f) + length bytes)%nat) by (by rewrite D1, length_app).
  destruct (IH s1 (<[k := f1]> fs) k f1 I1 Hk1) as (f2 & s2 & E2 & I2 & D2 & T2).
  - rewrite Hl. lia.
  - rewrite (im_blocks _ _ I1), (total_insert _ _ _ _ Hk), Hl. rewrite (im_blocks _ _ I) in Hroom.
    replace (length (f_data f) + length bytes + length (concat rest))%nat
      with (length (f_data f) + (length bytes + length (concat rest)))%nat by lia. lia.
  - exists f2, s2. rewrite (bind_ok _ _ _ _ _ E1). rewrite list_insert_insert_eq in I2.
    split_and!; [done|done|by rewrite D2, D1, app_assoc|congruence].
Qed.

(** An argument that can be copied, and its contents. *)
Definition contents (a : argument) : list Z := concat (default [] a.2).

Definition copyable (a : argument) : Prop :=
  slash ∉ a.1 /\ is_Some a.2 /\ Z.of_nat (length (contents a)) <= MAXFILE * BSIZE.

(** The entries of the root directory for the arguments, from inode [n] on. *)
Fixpoint entries_from (n : Z) (args : list argument) : list (list Z) :=
  match args with
  | [] => []
  | a :: rest => dirent n (image_name a.1) :: entries_from (n + 1) rest
  end.

Definition args_need (args : list argument) : Z := foldr (fun a n => need (Z.of_nat (length (contents a))) + n) 0 args.

Lemma length_dirent n name : length (dirent n name) = 16%nat.
Proof. unfold dirent, name_field. by rewrite length_app, length_le_bytes, KString.length_mem_bytes. Qed.

Lemma length_entries args : forall n, length (concat (entries_from n args)) = (16 * length args)%nat.
Proof.
  induction args as [|a args IH]; intros n; cbn [entries_from concat length]; [done|].
  rewrite length_app, length_dirent, IH. lia.
Qed.

Lemma args_need_nonneg args : 0 <= args_need args.
Proof.
  induction args as [|a args IH]; cbn; [done|]. pose proof (need_mono 0 (Z.of_nat (length (contents a))) ltac:(lia)) as H.
  change (need 0) with 0 in H. unfold args_need in IH. lia.
Qed.

Lemma add_files_ok args : forall s fs root,
  image s fs -> fs !! 0%nat = Some root -> i_type (f_ino root) = T_DIR -> Forall copyable args ->
  Z.of_nat (length fs + length args) < NINODES ->
  Z.of_nat (length (f_data root) + 16 * length args) <= MAXFILE * BSIZE ->
  freeblock s + (need (Z.of_nat (length (f_data root) + 16 * length args)) - need (Z.of_nat (length (f_data root))))
    + args_need args <= FSSIZE ->
  exists root' new s', add_files ROOTINO args s = Ok tt s' /\ image s' (<[0%nat := root']> fs ++ new) /\
    f_data root' = f_data root ++ concat (entries_from (Z.of_nat (length fs) + 1) args) /\ i_type (f_ino root') = T_DIR /\
    Forall2 (fun a f => f_data f = contents a /\ i_type (f_ino f) = T_FILE) args new.
Proof.
  induction args as [|[name cts] rest IH]; intros s fs root I Hk Ht Ha Hn Hmax Hroom.
  { exists root, [], s. cbn [entries_from concat]. rewrite !app_nil_r, list_insert_id by done. split_and!; try done. }
  pose proof (Forall_inv Ha) as (Hsl & [portions Ep] & Hsz). cbn in Hsl, Ep. subst cts. unfold contents in Hsz. cbn in Hsz.
  change (args_need ((name, Some portions) :: rest)) with (need (Z.of_nat (length (concat portions))) + args_need rest) in Hroom.
  pose proof (args_need_nonneg rest) as Hnn. pose proof (need_mono 0 (Z.of_nat (length (concat portions))) ltac:(lia)) as Hn0.
  change (need 0) with 0 in Hn0. cbn [length] in *.
  pose proof (need_mono (Z.of_nat (length (f_data root) + 16)) (Z.of_nat (length (f_data root) + 16 * S (length rest))) ltac:(lia)) as Hm.
  destruct (ialloc_ok s fs T_FILE I) as (f0 & s0 & E0 & I0 & D0 & T0); [lia|by right|].
  assert (Hlt : (0 < length fs)%nat) by (by eapply lookup_lt_Some).
  assert (Hk0 : (fs ++ [f0]) !! 0%nat = Some root) by (by rewrite lookup_app_l).
  set (de := dirent (Z.of_nat (length fs) + 1) (image_name name)).
  assert (Hde : length de = 16%nat) by apply length_dirent.
  assert (Efb0 : freeblock s0 = freeblock s) by (rewrite (im_blocks _ _ I0), (im_blocks _ _ I), total_snoc by done; done).
  destruct (iappend_ok s0 (fs ++ [f0]) 0 root de I0 Hk0) as (r1 & s1 & E1 & I1 & D1 & T1); [lia|rewrite Hde, Efb0; lia|].
  assert (Hk1 : <[0%nat := r1]> (fs ++ [f0]) !! length fs = Some f0)
    by (rewrite list_lookup_insert_ne by lia; by rewrite lookup_app_r, Nat.sub_diag).
  assert (Efb1 : freeblock s1 = freeblock s + (need (Z.of_nat (length (f_data root) + 16)) - need (Z.of_nat (length (f_data root))))).
  { rewrite (im_blocks _ _ I1), (total_insert _ _ _ _ Hk0). 
    rewrite D1, length_app, Hde. rewrite (im_blocks _ _ I), total_snoc by done. lia. }
  destruct (copy_file_ok portions s1 _ (length fs) f0 I1 Hk1) as (f2 & s2 & E2 & I2 & D2 & T2).
  { rewrite D0. cbn. lia. }
  { rewrite D0, Efb1. cbn [length Nat.add]. change (need (Z.of_nat 0)) with 0. lia. }
  rewrite D0 in D2. cbn [app] in D2.
  assert (Efs : <[length fs := f2]> (<[0%nat := r1]> (fs ++ [f0])) = <[0%nat := r1]> fs ++ [f2]).
  { rewrite insert_app_l by done. rewrite insert_app_r_alt by (rewrite length_insert; lia).
    rewrite length_insert, Nat.sub_diag. done. }
  rewrite Efs in I2. set (fs2 := <[0%nat := r1]> fs ++ [f2]) in *.
  assert (Hlen2 : length fs2 = S (length fs)) by (unfold fs2; rewrite length_app, length_insert; cbn; lia).
  assert (Hr1 : fs2 !! 0%nat = Some r1).
  { unfold fs2. rewrite lookup_app_l by (rewrite length_insert; lia). by apply list_lookup_insert_eq. }
  assert (Hl1 : length (f_data r1) = (length (f_data root) + 16)%nat) by (rewrite D1, length_app; lia).
  destruct (IH s2 fs2 r1 I2 Hr1) as (r3 & new & s3 & E3 & I3 & D3 & T3 & F3).
  - congruence.
  - by apply Forall_inv_tail in Ha.
  - rewrite Hlen2. lia.
  - rewrite Hl1. lia.
  - assert (Efb2 : freeblock s2 = freeblock s1 + need (Z.of_nat (length (concat portions)))).
    { rewrite (im_blocks _ _ I2), (im_blocks _ _ I1), <- Efs, (total_insert _ _ _ _ Hk1), D2, D0.
      change (need (Z.of_nat (length []))) with 0. lia. }
    rewrite Efb2, Efb1, Hl1.
    replace (length (f_data root) + 16 + 16 * length rest)%nat with (length (f_data root) + 16 * S (length rest))%nat by lia. lia.
  - exists r3, (f2 :: new), s3. split_and!.
    + cbn [add_files]. rewrite bool_decide_false by done. rewrite (bind_ok _ _ _ _ _ E0).
      change ROOTINO with (Z.of_nat 0 + 1). fold de. rewrite (bind_ok _ _ _ _ _ E1), (bind_ok _ _ _ _ _ E2). exact E3.
    + unfold fs2 in I3. rewrite insert_app_l in I3 by (rewrite length_insert; lia). rewrite list_insert_insert_eq in I3.
      by rewrite <- app_assoc in I3.
    + rewrite D3, D1, Hlen2. cbn [entries_from concat]. rewrite <- app_assoc. fold de. do 4 f_equal. lia.
    + done.
    + constructor; [|done]. split; [done|congruence].
Qed.

(** ** The finished image *)

(** The bytes of the root directory. *)
Definition root_entries (args : list argument) : list (list Z) :=
  dirent 1 (cbytes ".") :: dirent 1 (cbytes "..") :: entries_from 2 args.

(** An image [v] with its first [fb] blocks in use that holds the arguments as
    files, as the kernel sees it.  The root directory is in order unless its
    entries fill their blocks: its size then covers a block that it does not
    have. *)
Record built (args : list argument) (v : Z -> block) (fb : Z) (root : inode) (files : list inode) : Prop := {
  b_sb : superblock_of (v 1) = sb;
  b_used : forall b, 0 <= b < FSSIZE -> used sb v b = (b <? fb);
  b_meta : meta_used sb v;
  b_root : on_disk sb v root /\ i_type root = T_DIR /\ i_inum root = ROOTINO /\ i_nlink root = 1;
  b_root_ok : Z.of_nat (length (root_entries args)) mod 32 <> 0 -> dir_ok sb v root;
  b_root_full : let n := Z.of_nat (length (root_entries args)) in
    n mod 32 = 0 -> i_size root = BSIZE * (n / 32 + 1) /\ blk v root (n / 32) = 0;
  b_size : 16 * Z.of_nat (length (root_entries args)) <= i_size root;
  b_entries : forall i de, root_entries args !! i = Some de -> entry v root (16 * Z.of_nat i) = de;
  b_rest : forall off, 16 * Z.of_nat (length (root_entries args)) <= off < i_size root -> file_byte v root off = 0;
  b_files : Forall2 (fun a p => file_ok sb v p /\ on_disk sb v p /\ i_type p = T_FILE /\ i_nlink p = 1 /\
    i_size p = Z.of_nat (length (contents a)) /\ file_bytes v p 0 (length (contents a)) = contents a) args files;
  b_inums : forall i p, files !! i = Some p -> i_inum p = Z.of_nat i + 2;
  b_apart : forall i j p q bn bn', (root :: files) !! i = Some p -> (root :: files) !! j = Some q -> i <> j ->
    0 <= bn < MAXFILE -> 0 <= bn' < MAXFILE -> blk v p bn <> 0 -> blk v p bn <> blk v q bn'
}.

Lemma clear_marked n : forall x q,
  (n <= 4096)%nat -> block_ok x -> 0 <= q ->
  clear (foldl (fun buf i => set_bit i buf) x (seqZ 0 (Z.of_nat n))) q = if q <? Z.of_nat n then false else clear x q.
Proof.
  induction n as [|n IH]; intros x q Hn Hx Hq.
  { cbn [seqZ]. change (seqZ 0 (Z.of_nat 0)) with (@nil Z). cbn [foldl]. rewrite (proj2 (Z.ltb_ge q (Z.of_nat 0))) by lia. done. }
  replace (Z.of_nat (S n)) with (Z.of_nat n + 1) by lia. rewrite seqZ_app by lia. rewrite foldl_app.
  change (seqZ (0 + Z.of_nat n) 1) with [0 + Z.of_nat n]. cbn [foldl]. rewrite Z.add_0_l.
  assert (Hok : block_ok (foldl (fun buf i => set_bit i buf) x (seqZ 0 (Z.of_nat n)))).
  { clear IH. generalize (seqZ 0 (Z.of_nat n)). intros l. revert x Hx. induction l as [|i l IHl]; intros x Hx; [done|].
    cbn. apply IHl. by apply block_ok_set_bit. }
  rewrite clear_set_bit by (try done; fs_consts; lia). rewrite IH by (done || lia).
  zcases; try done; lia.
Qed.

(** Files as the kernel asks for them. *)
Lemma good_file_ok v fb fs k f :
  good v fb fs -> fb <= FSSIZE -> (forall b, 0 <= b < FSSIZE -> used sb v b = (b <? fb)) -> fs !! k = Some f ->
  from_disk (f_ino f) -> i_inum (f_ino f) = Z.of_nat k + 1 -> Z.of_nat (length fs) < NINODES ->
  i_type (f_ino f) = T_DIR \/ i_type (f_ino f) = T_FILE -> 0 <= i_size (f_ino f) <= BSIZE * f_nb f ->
  file_ok sb v (f_ino f).
Proof.
  intros G Hfb Hu Hk Hd Hi Hn Ht Hs. pose proof (g_owns _ _ _ G k f Hk) as [O1 O2 O3 O4 O5 O6].
  assert (Hlt : (k < length fs)%nat) by (by eapply lookup_lt_Some).
  assert (Hdat : forall i, 0 <= i <= MAXFILE -> slot v (f_ino f) i <> 0 -> data_used sb v (slot v (f_ino f) i)).
  { intros i Hi' Hne. destruct (g_range _ _ _ G k f i Hk Hi' Hne) as [H1 H2]. rewrite nmeta_value in H1.
    unfold FSSIZE in *. split; [change (datastart sb) with 59; change (sb_size sb) with 1000; lia|].
    rewrite Hu by lia. apply Z.ltb_lt. lia. }
  assert (Hin : forall i i', 0 <= i <= MAXFILE -> 0 <= i' <= MAXFILE -> slot v (f_ino f) i <> 0 -> i <> i' ->
    slot v (f_ino f) i <> slot v (f_ino f) i').
  { intros i i' H1 H2 Hne Hd' E. by destruct (g_inj _ _ _ G k f i k f i' Hk Hk H1 H2 E Hne). }
  split.
  - split; [by rewrite Hd|done| | |].
    + intros Ha. apply (Hdat MAXFILE); [fs_consts; lia|exact Ha].
    + intros bn Hbn. rewrite <- (slot_blk v) by done. intros Hne. split; [apply Hdat; [lia|done]|].
      apply (Hin bn MAXFILE); try done; fs_consts; lia.
    + intros bn bn' Hbn Hbn' Hne. rewrite <- !(slot_blk v) by done. intros Hz. apply Hin; try done; lia.
  - split; [by rewrite Hd|]. rewrite Hi. change (sb_ninodes sb) with 200. unfold NINODES in Hn. lia.
  - destruct Ht as [-> | ->]; done.
  - fs_consts. lia.
  - intros bn Hbn Hlt'. apply O3; fs_consts; lia.
Qed.

Lemma good_bytes v fb fs k f :
  good v fb fs -> fs !! k = Some f -> Z.of_nat (length (f_data f)) <= MAXFILE * BSIZE ->
  file_bytes v (f_ino f) 0 (length (f_data f)) = f_data f.
Proof.
  intros G Hk Hl. apply list_eq. intros i. rewrite lookup_file_bytes. case_decide as Hi.
  - rewrite (ow_data _ _ (g_owns _ _ _ G k f Hk)) by lia.
    replace (Z.to_nat (0 + Z.of_nat i)) with i by lia. rewrite nth_lookup.
    by destruct (lookup_lt_is_Some_2 _ _ Hi) as [x ->].
  - symmetry. apply lookup_ge_None. lia.
Qed.

(** Entries of equal length in a row. *)
Lemma concat_entry (des : list (list Z)) i de :
  Forall (fun d => length d = 16%nat) des -> des !! i = Some de ->
  length de = 16%nat /\ forall j, (j < 16)%nat -> concat des !! (16 * i + j)%nat = de !! j.
Proof.
  revert i. induction des as [|d des IH]; intros [|i] Hf Hi; try done; pose proof (Forall_inv Hf) as Hd; cbn in Hd.
  - injection Hi as <-. split; [done|]. intros j Hj. cbn [concat]. by rewrite lookup_app_l by lia.
  - destruct (IH i (Forall_inv_tail Hf) Hi) as [Hl H]. split; [done|]. intros j Hj. cbn [concat].
    rewrite lookup_app_r by lia. rewrite <- (H j Hj). f_equal. lia.
Qed.

Lemma entries_lengths n args : Forall (fun d => length d = 16%nat) (entries_from n args).
Proof. revert n. induction args as [|a args IH]; intros n; constructor; [apply length_dirent|apply IH]. Qed.

Lemma root_entries_lengths args : Forall (fun d => length d = 16%nat) (root_entries args).
Proof. constructor; [apply length_dirent|]. constructor; [apply length_dirent|apply entries_lengths]. Qed.

Lemma length_entries_from n args : length (entries_from n args) = length args.
Proof. revert n. induction args as [|a args IH]; intros n; cbn; [done|]. by rewrite IH. Qed.

(** The end of [main]: the size of the root is rounded up and the bitmap
    written. *)
Definition finish : M mkfs unit :=
  din ← rinode ROOTINO;
  let off := xint (i_size din) in
  let off := (off / BSIZE + 1) * BSIZE in
  winode ROOTINO (set_size (xint off) din);;
  b ← reads freeblock;
  balloc b.

Lemma finish_ok args s root new :
  image s (root :: new) -> f_data root = concat (root_entries args) -> i_type (f_ino root) = T_DIR ->
  Forall2 (fun a f => f_data f = contents a /\ i_type (f_ino f) = T_FILE) args new ->
  Forall copyable args -> Z.of_nat (length (f_data root)) <= (MAXFILE - 1) * BSIZE ->
  exists s' rp, finish s = Ok tt s' /\ freeblock s' = freeblock s /\
    built args (img s') (freeblock s') rp (f_ino <$> new).
Proof.
  intros I Hd Ht H2 Ha Hmax. pose proof I as [I1 I2 I3 I4 I5 I6 I7 I8].
  pose proof (I7 0%nat root eq_refl) as [S1 S2 S3 S4 S5 S6 S7].
  set (n := length (f_data root)) in *.
  assert (En : n = (16 * (length args + 2))%nat).
  { unfold n. rewrite Hd. unfold root_entries. cbn [concat]. rewrite !length_app, !length_dirent, length_entries. lia. }
  set (off := (Z.of_nat n / BSIZE + 1) * BSIZE).
  set (rp := set_size off (f_ino root)). set (root' := MkFile rp (f_data root) (f_nb root)).
  assert (Hr : 0 <= i_inum rp < 200) by (cbn; lia).
  assert (Hlen : length (root_entries args) = (length args + 2)%nat).
  { unfold root_entries. cbn [length]. rewrite length_entries_from. lia. }
  assert (Hnb : f_nb root = (Z.of_nat n + BSIZE - 1) / BSIZE).
  { destruct S1 as [-> _]. fold n. fs_consts. lia. }
  assert (Hoff : 0 <= off < 2 ^ 32 /\ off mod DIRENT = 0) by (unfold off; fs_consts; lia).
  assert (Hfit : dinode_fits rp).
  { eapply (fits _ _ _ 0%nat root); try done; cbn [rp set_size i_size]; lia. }
  set (v1 := with_inode rp (img s)).
  set (bm := foldl (fun buf i => set_bit i buf) zeroes (seqZ 0 (freeblock s))).
  set (v2 := zset v1 58 bm).
  pose proof (iblock_low rp Hr) as Hib. pose proof (g_fb _ _ _ I1) as Hfb0. rewrite nmeta_value in Hfb0. unfold FSSIZE in I4.
  exists (MkMkfs v2 1000 (freeinode s) (freeblock s)), rp. split_and!; [|done|].
  { unfold finish.
    replace ROOTINO with (i_inum (f_ino root)) by (rewrite S4; done).
    rewrite (bind_ok _ _ _ _ _ (rinode_ok (f_ino root) s Hr I2 S2 S3)). cbv zeta. rewrite S5. fold n.
    rewrite (xint_small (Z.of_nat n)) by (fs_consts; lia). fold off. rewrite xint_small by lia. fold rp.
    rewrite (bind_ok _ _ _ _ _ (winode_ok rp s Hr I2)). erewrite bind_ok by reflexivity. cbn [freeblock]. unfold balloc.
    fs_consts. rewrite (proj2 (Z.ltb_lt _ (512 * 8))) by lia. cbn [negb]. fold bm. change (sb_bmapstart sb) with 58.
    unfold wsect, modify. cbn [img sectors freeinode freeblock]. done. }
  cbn [img freeblock].
  assert (Hhigh : forall b, nmeta <= b -> v2 b = img s b).
  { intros b Hb. rewrite nmeta_value in Hb. unfold v2, v1, with_inode. rewrite !zset_ne by lia. done. }
  assert (Hbok : forall b, block_ok (v2 b)).
  { intros b. unfold v2, v1, with_inode, zset. destruct (b =? 58).
    - unfold bm. clear. generalize (seqZ 0 (freeblock s)). intros l.
      assert (Hz : block_ok zeroes) by done. revert Hz. generalize zeroes. induction l as [|i l IH]; intros x Hx; [done|].
      cbn. apply IH. by apply block_ok_set_bit.
    - destruct (b =? iblock sb rp); [|apply I1]. pose proof (g_ok _ _ _ I1 (iblock sb rp)) as Hok. unfold block_ok in *.
      rewrite length_write_dinode; [done|apply Hfit|]. rewrite Hok. apply dinode_off_bound. }
  pose proof (good_meta _ _ _ 0 root rp I1 eq_refl eq_refl) as G1. cbn [insert list_insert] in G1. fold root' in G1.
  pose proof (good_low _ v2 _ _ G1 Hhigh Hbok) as G2.
  assert (Hused : forall b, 0 <= b < FSSIZE -> used sb v2 b = (b <? freeblock s)).
  { intros b Hb. unfold FSSIZE in Hb. unfold used. change (sb_bmapstart sb) with 58. fs_consts.
    rewrite Z.div_small, Z.mod_small by lia. unfold v2. rewrite zset_eq. unfold bm.
    replace (freeblock s) with (Z.of_nat (Z.to_nat (freeblock s))) by lia.
    rewrite clear_marked by (done || lia). destruct (b <? _); [done|].
    rewrite clear_testbit, negb_involutive. change zeroes with zeros. rewrite (byte_zeros (b / 8)) by (fs_consts; lia). apply Z.testbit_0_l. }
  assert (Hdisk : forall p, 0 <= i_inum p < 200 -> on_disk sb v1 p -> on_disk sb v2 p).
  { intros p Hp Hdp q. pose proof (iblock_low p Hp). unfold v2. rewrite zset_ne by lia. apply Hdp. }
  assert (Hroot : Z.of_nat (length (root_entries args)) mod 32 <> 0 -> file_ok sb v2 rp).
  { intros Hmod. apply (good_file_ok v2 (freeblock s) (root' :: new) 0 root' G2); try done; [by apply set_size_from_disk|].
    cbn [root' f_ino rp set_size i_size f_nb]. rewrite Hnb. unfold off. fs_consts. lia. }
  assert (Hnew : forall i f, new !! i = Some f -> (root' :: new) !! S i = Some f) by done.
  assert (Hmax' : forall i f, new !! i = Some f -> Z.of_nat (length (f_data f)) <= MAXFILE * BSIZE).
  { intros i f Hf. pose proof (g_owns _ _ _ G2 (S i) f Hf) as [_ O2 _ _ _ O6]. fs_consts. lia. }
  split.
  - unfold v2, v1, with_inode. rewrite !zset_ne by lia. rewrite I8. vm_compute. reflexivity.
  - exact Hused.
  - intros b Hb Hu. change (sb_size sb) with 1000 in Hb. rewrite Hused in Hu by done. apply Z.ltb_ge in Hu.
    change (datastart sb) with 59. lia.
  - split_and!; [apply Hdisk; [done|]|exact Ht|exact S4|apply S7]. apply on_disk_written; [done|apply I1].
  - intros Hmod. split; [by apply Hroot|exact Ht|]. cbn [rp set_size i_size]. apply Hoff.
  - intros k Hk. subst k. rewrite Hlen in Hk |- *. split; [cbn [rp set_size i_size]; unfold off; fs_consts; lia|].
    pose proof (g_owns _ _ _ G2 0%nat root' eq_refl) as [_ _ O3 _ _ _]. cbn [root' f_ino f_nb] in O3.
    destruct (decide (blk v2 rp (Z.of_nat (length args + 2) / 32) = 0)) as [|Hne]; [done|].
    apply O3 in Hne; [rewrite Hnb in Hne; fs_consts; lia|fs_consts; lia].
  - cbn [rp set_size i_size]. unfold root_entries. cbn [length]. rewrite length_entries_from. unfold off. fs_consts. lia.
  - intros i de Hde. destruct (concat_entry _ _ _ (root_entries_lengths args) Hde) as [Hl He].
    pose proof (lookup_lt_Some _ _ _ Hde) as Hlt. unfold root_entries in Hlt. cbn [length] in Hlt. rewrite length_entries_from in Hlt.
    apply list_eq. intros j. unfold entry. rewrite lookup_file_bytes. case_decide as Hj; [|symmetry; apply lookup_ge_None; lia].
    rewrite (ow_data _ _ (g_owns _ _ _ G2 0%nat root' eq_refl)) by (fs_consts; lia). cbn [root' f_data].
    rewrite Hd, nth_lookup. replace (Z.to_nat (16 * Z.of_nat i + Z.of_nat j)) with (16 * i + j)%nat by lia.
    rewrite He by done. destruct (lookup_lt_is_Some_2 de j) as [x ->]; [lia|done].
  - intros o Ho. cbn [rp set_size i_size] in Ho. unfold root_entries in Ho. cbn [length] in Ho. rewrite length_entries_from in Ho.
    rewrite (ow_data _ _ (g_owns _ _ _ G2 0%nat root' eq_refl)) by (unfold off in Ho; fs_consts; lia).
    apply nth_overflow. cbn [root' f_data]. fold n. lia.
  - apply Forall2_fmap_r. apply Forall2_same_length_lookup. split; [by eapply Forall2_length|].
    intros i a f Hai Hf. destruct (Forall2_lookup_lr _ _ _ _ _ _ H2 Hai Hf) as [Hc Htf].
    pose proof (I7 (S i) f Hf) as [B1 B2 B3 B4 B5 B6 B7].
    assert (Hri : 0 <= i_inum (f_ino f) < 200).
    { pose proof (lookup_lt_Some _ _ _ Hf). unfold NINODES in I6. cbn [length] in I6. lia. }
    assert (Hsz : 0 <= i_size (f_ino f) <= BSIZE * f_nb f).
    { rewrite B5. pose proof (g_owns _ _ _ G2 (S i) f Hf) as [_ _ _ _ _ O6]. lia. }
    split_and!; [|apply Hdisk; [done|]|done|apply B7|by rewrite B5, Hc|].
    + by apply (good_file_ok v2 (freeblock s) (root' :: new) (S i) f G2).
    + apply on_disk_other; try done; try lia; [apply I1|]. cbn [rp set_size i_inum]. rewrite S4, B4. lia.
    + rewrite <- Hc. apply (good_bytes v2 (freeblock s) (root' :: new) (S i) f G2); [done|by eapply Hmax'].
  - intros i p Hp. rewrite list_lookup_fmap in Hp. apply fmap_Some in Hp as (f & Hf & ->).
    rewrite (sf_inum _ _ _ (I7 (S i) f Hf)). lia.
  - intros i j p q bn bn' Hp Hq Hne Hbn Hbn'. rewrite <- (slot_blk v2 p), <- (slot_blk v2 q) by done.
    change (rp :: (f_ino <$> new)) with (f_ino <$> (root' :: new)) in Hp, Hq. rewrite list_lookup_fmap in Hp, Hq.
    apply fmap_Some in Hp as (f & Hf & ->), Hq as (g & Hg & ->). intros Hn E.
    destruct (g_inj _ _ _ G2 i f bn j g bn' Hf Hg ltac:(lia) ltac:(lia) E Hn). done.
Qed.
