(* ===== verification/MkfsSpec.v ===== *)
(** * The image mkfs.c builds is a file system: the theorem

    [main] of mkfs.c as a whole, and the names of the root directory looked up
    the way [dirlookup] of the kernel does. *)

From stdpp Require Import base numbers list gmap sets strings.
From Stdlib Require Import ZArith Lia.
From S2P Require Import Prelude CStrings Disk Blocks Log Journal Fs FsBlocks FsFiles FsInodes FsDirs.
From S2P Require Import Mkfs MkfsFiles MkfsAppend MkfsImage.

Open Scope Z_scope.

(** *** Looking names up *)

Lemma dir_find_at n de name off i :
  (i < n)%nat -> (forall j, (j < i)%nat -> matches name (de (off + 16 * Z.of_nat j)) = false) ->
  matches name (de (off + 16 * Z.of_nat i)) = true ->
  dir_find n de name off = Some (get16 (de (off + 16 * Z.of_nat i)) 0, off + 16 * Z.of_nat i).
Proof.
  revert n off. induction i as [|i IH]; intros n off Hn Hno Hyes; (destruct n as [|n]; [lia|]); cbn [dir_find].
  - rewrite Z.add_0_r in Hyes |- *. by rewrite Hyes.
  - pose proof (Hno 0%nat ltac:(lia)) as H0. rewrite Z.add_0_r in H0. rewrite H0.
    replace (off + 16 * Z.of_nat (S i)) with (off + 16 + 16 * Z.of_nat i) in * by lia.
    change (off + DIRENT) with (off + 16). apply IH; [lia| |done].
    intros j Hj. replace (off + 16 + 16 * Z.of_nat j) with (off + 16 * Z.of_nat (S j)) by lia. apply Hno. lia.
Qed.

Lemma get16_dirent n name : 0 <= n < 65536 -> get16 (dirent n name) 0 = n.
Proof.
  intros Hn. unfold get16, get_bytes, dirent. rewrite drop_0, take_app_le, take_ge by (rewrite length_le_bytes; lia).
  unfold xshort. rewrite !le_val_le_bytes. rewrite !Z.mod_small; [done|lia|rewrite Z.mod_small; lia].
Qed.

Lemma drop_dirent n name : drop 2 (dirent n name) = name_field name.
Proof. unfold dirent. by rewrite drop_app_length' by (by rewrite length_le_bytes). Qed.

Lemma matches_dirent name n name' :
  byte_list name -> byte_list name' -> (length name <= 4096)%nat -> 0 < n < 65536 ->
  matches name (dirent n name') = bool_decide (cname 14 name = cname 14 name').
Proof.
  intros H H' Hl Hn. unfold matches. rewrite get16_dirent, drop_dirent by lia.
  rewrite (proj2 (Z.eqb_neq n 0)) by lia. cbn [negb andb].
  pose proof (namecmp_field name name' H H' Hl) as Hc. case_bool_decide as D.
  - by apply Z.eqb_eq, Hc.
  - apply Z.eqb_neq. intros E. by apply D, Hc.
Qed.

(** The names in the root directory, and the inodes they stand for. *)
Definition root_names (args : list argument) : list (list Z) :=
  cbytes "." :: cbytes ".." :: ((fun a => image_name a.1) <$> args).

Definition root_inum (i : nat) : Z := if decide (i < 2)%nat then 1 else Z.of_nat i.

Lemma entries_from_lookup args : forall n i a,
  args !! i = Some a -> entries_from n args !! i = Some (dirent (n + Z.of_nat i) (image_name a.1)).
Proof.
  induction args as [|b args IH]; intros n [|i] a Ha; try done; cbn [entries_from lookup list_lookup] in Ha |- *.
  - injection Ha as ->. by rewrite Z.add_0_r.
  - rewrite (IH _ i a Ha). do 2 f_equal. lia.
Qed.

Lemma root_entries_lookup args i name :
  root_names args !! i = Some name -> root_entries args !! i = Some (dirent (root_inum i) name).
Proof.
  destruct i as [|[|i]]; [by intros [= <-]..|]. 
  change (((fun a => image_name a.1) <$> args) !! i = Some name -> entries_from 2 args !! i = Some (dirent (root_inum (S (S i))) name)).
  rewrite list_lookup_fmap. intros (a & Ha & ->)%fmap_Some.
  rewrite (entries_from_lookup args 2 i a Ha). unfold root_inum. rewrite decide_False by lia. do 2 f_equal. lia.
Qed.

Lemma built_lookup args v fb root files i name :
  built args v fb root files -> Z.of_nat (length args) + 1 < NINODES ->
  Forall (fun x => byte_list x /\ (length x <= 4096)%nat) (root_names args) ->
  NoDup (cname 14 <$> root_names args) -> root_names args !! i = Some name ->
  dir_lookup v root name = Some (root_inum i, 16 * Z.of_nat i).
Proof.
  intros B Hn Hb Hnd Hi. destruct B as [_ _ _ _ _ _ Hsize B8 _ _ _ _].
  pose proof (lookup_lt_Some _ _ _ Hi) as Hlt. unfold root_names in Hlt. cbn [length] in Hlt. rewrite length_fmap in Hlt.
  unfold NINODES in Hn. destruct (proj1 (Forall_lookup _ _) Hb i name Hi) as [Hbn Hln].
  assert (Hrange : forall j, (j < length args + 2)%nat -> 0 < root_inum j < 65536)
    by (intros j Hj; unfold root_inum; case_decide; lia).
  assert (Hmatch : forall j y, root_names args !! j = Some y ->
    matches name (entry v root (16 * Z.of_nat j)) = bool_decide (cname 14 name = cname 14 y)).
  { intros j y Hj. pose proof (lookup_lt_Some _ _ _ Hj) as Hltj. unfold root_names in Hltj. cbn [length] in Hltj.
    rewrite length_fmap in Hltj. destruct (proj1 (Forall_lookup _ _) Hb j y Hj) as [Hby _].
    rewrite (B8 j _ (root_entries_lookup args j y Hj)). apply matches_dirent; try done. apply Hrange. lia. }
  unfold root_entries in Hsize. cbn [length] in Hsize. rewrite length_entries_from in Hsize.
  unfold dir_lookup.
  rewrite (dir_find_at _ _ _ 0 i); rewrite ?Z.add_0_l; [|fs_consts; lia| |].
  - rewrite (B8 i _ (root_entries_lookup args i name Hi)), get16_dirent; [done|]. pose proof (Hrange i ltac:(lia)). lia.
  - intros j Hj. rewrite Z.add_0_l. destruct (lookup_lt_is_Some_2 (root_names args) j) as [y Hy].
    { unfold root_names. cbn [length]. rewrite length_fmap. lia. }
    rewrite (Hmatch j y Hy). apply bool_decide_false. intros E.
    assert (i = j); [|lia]. eapply NoDup_lookup; [exact Hnd| |].
    + rewrite list_lookup_fmap, Hi. reflexivity.
    + rewrite list_lookup_fmap, Hy. apply (f_equal Some). by symmetry.
  - rewrite (Hmatch i name Hi). by apply bool_decide_true.
Qed.

(** *** The whole program *)

Lemma zero_image s :
  (forall b, img s b = zeroes) -> sectors s = FSSIZE -> freeinode s = 1 -> freeblock s = nmeta ->
  image (MkMkfs (zset (img s) 1 (put_bytes zeroes 0 sb_bytes)) FSSIZE 1 nmeta) [].
Proof.
  intros Hz Hs Hi Hb. split; cbn [img sectors freeinode freeblock]; try done.
  - split; try done.
    + intros b. unfold zset. destruct (b =? 1); [done|]. by rewrite Hz.
    + intros b Hbb. rewrite nmeta_value in Hbb. rewrite zset_ne by lia. by rewrite Hz.
Qed.

(** The root directory with its two links, in a fresh image. *)
Lemma make_root_ok s :
  image s [] ->
  exists f s1 s2 s3, ialloc T_DIR s = Ok ROOTINO s1 /\
    iappend ROOTINO (dirent ROOTINO (cbytes ".")) s1 = Ok tt s2 /\
    iappend ROOTINO (dirent ROOTINO (cbytes "..")) s2 = Ok tt s3 /\
    image s3 [f] /\ f_data f = dirent ROOTINO (cbytes ".") ++ dirent ROOTINO (cbytes "..") /\
    i_type (f_ino f) = T_DIR.
Proof.
  intros I0. destruct (ialloc_ok s [] T_DIR I0) as (f1 & s1 & E1 & I1 & D1 & T1); [done|by left|]. cbn [app] in I1.
  pose proof (length_dirent ROOTINO (cbytes ".")) as L1. pose proof (length_dirent ROOTINO (cbytes "..")) as L2.
  assert (F1 : freeblock s1 = nmeta) by (by rewrite (im_blocks _ _ I1), total_cons, D1).
  destruct (iappend_ok s1 [f1] 0 f1 (dirent ROOTINO (cbytes ".")) I1 eq_refl) as (f2 & s2 & E2 & I2 & D2 & T2).
  { by rewrite D1, L1. }
  { by rewrite D1, L1, F1. }
  cbn [insert list_insert] in I2. rewrite D1 in D2. cbn [app] in D2.
  assert (F2 : freeblock s2 = nmeta + 1) by (by rewrite (im_blocks _ _ I2), total_cons, D2, L1).
  destruct (iappend_ok s2 [f2] 0 f2 (dirent ROOTINO (cbytes "..")) I2 eq_refl) as (f3 & s3 & E3 & I3 & D3 & T3).
  { by rewrite D2, L1, L2. }
  { by rewrite D2, L1, L2, F2. }
  exists f3, s1, s2, s3. split_and!; try done; congruence.
Qed.

(** C27: mkfs builds a file system.  For files that open, have no slash in their
    names and fit, in number and size, the program ends, and in the image it
    leaves the superblock describes it, the bitmap marks exactly the blocks
    before the first free one, the root has its two links and one entry for
    each file in order, each file has its own blocks and reads back as the
    bytes copied, no block is used twice, and as many blocks are taken as the
    files need.  If the names differ in their first 14 bytes, looking a name
    up gives its inode.  The root is a directory in good order for the kernel
    unless the number of its entries, files and two links, is a multiple of
    32: then the size it is given covers one block more than it has. *)
Theorem mkfs_builds_file_system args :
  let n := Z.of_nat (length args) in
  Forall copyable args -> n + 1 < NINODES ->
  nmeta + need (16 * (n + 2)) + args_need args <= FSSIZE ->
  exists s root files, main args start = Ok tt s /\
    freeblock s = nmeta + need (16 * (n + 2)) + args_need args /\
    built args (img s) (freeblock s) root files /\
    ((n + 2) mod 32 <> 0 -> dir_ok sb (img s) root) /\
    ((n + 2) mod 32 = 0 -> i_size root = BSIZE * ((n + 2) / 32 + 1) /\ blk (img s) root ((n + 2) / 32) = 0) /\
    (Forall (fun x => byte_list x /\ (length x <= 4096)%nat) (root_names args) ->
     NoDup (cname 14 <$> root_names args) ->
     forall i name, root_names args !! i = Some name ->
       dir_lookup (img s) root name = Some (root_inum i, 16 * Z.of_nat i)).
Proof.
  intros n Ha Hn Hroom. unfold NINODES in Hn. pose proof (args_need_nonneg args) as Hnn.
  destruct (for_inv (fun i s => (forall b, img s b = zeroes) /\ sectors s = i /\ freeinode s = 1 /\ freeblock s = nmeta)
    (fun i => wsect i zeroes) 0 FSSIZE (set_freeblock nmeta start)) as (s0 & E0 & Hz & Hs & Hi & Hb).
  { unfold FSSIZE. lia. }
  { done. }
  { intros i s Hi (H1 & H2 & H3 & H4). eexists. split; [reflexivity|]. cbn [img sectors freeinode freeblock]. split_and!; try done.
    - intros b. unfold zset. by destruct (b =? i).
    - lia. }
  pose proof (zero_image s0 Hz Hs Hi Hb) as I0. set (s1 := MkMkfs _ _ _ _) in I0.
  destruct (make_root_ok s1 I0) as (f4 & s2 & s3 & s4 & E2 & E3 & E4 & I4 & D4 & T4).
  pose proof (need_mono 32 (16 * (n + 2)) ltac:(lia)) as Hm. change (need 32) with 1 in Hm.
  assert (L4 : length (f_data f4) = 32%nat) by (by rewrite D4, length_app, !length_dirent).
  assert (Hfb4 : freeblock s4 = nmeta + 1).
  { by rewrite (im_blocks _ _ I4), total_cons, L4. }
  destruct (add_files_ok args s4 [f4] f4 I4 eq_refl) as (r5 & new & s5 & E5 & I5 & D5 & T5 & F5); try done.
  { cbn [length]. unfold NINODES. lia. }
  { rewrite L4. fs_consts. lia. }
  { rewrite L4, Hfb4. replace (Z.of_nat (32 + 16 * length args)) with (16 * (n + 2)) by lia. change (need (Z.of_nat 32)) with 1. lia. }
  cbn [insert list_insert app length] in I5, D5. change (Z.of_nat 1 + 1) with 2 in D5.
  assert (D5' : f_data r5 = concat (root_entries args)) by (rewrite D5, D4; unfold root_entries; cbn [concat]; by rewrite app_assoc).
  destruct (finish_ok args s5 r5 new I5 D5' T5 F5 Ha) as (s6 & rp & E6 & Hfb6 & B6).
  { rewrite D5, length_app, length_entries, L4. fs_consts. lia. }
  assert (Hlen : Z.of_nat (length (root_entries args)) = n + 2).
  { unfold root_entries. cbn [length]. rewrite length_entries_from. lia. }
  exists s6, rp, (f_ino <$> new). split_and!; [| |done| | |].
  - unfold main. erewrite bind_ok by reflexivity. rewrite (bind_ok _ _ _ _ _ E0). erewrite bind_ok by reflexivity.
    unfold FSSIZE in Hs. rewrite Hs, Hi, Hb. change (Z.max 1000 (1 + 1)) with FSSIZE. fold s1.
    rewrite (bind_ok _ _ _ _ _ E2). change (ROOTINO =? ROOTINO) with true. cbn [negb].
    rewrite (bind_ok _ _ _ _ _ E3), (bind_ok _ _ _ _ _ E4), (bind_ok _ _ _ _ _ E5). exact E6.
  - rewrite Hfb6, (im_blocks _ _ I5), total_cons, D5, length_app, length_entries, L4.
    replace (Z.of_nat (32 + 16 * length args)) with (16 * (n + 2)) by lia.
    assert (Et : total new = args_need args).
    { clear -F5. induction F5 as [|a f args new [Hd _] _ IH]; [done|]. rewrite total_cons, IH, Hd. done. }
    lia.
  - rewrite <- Hlen. apply (b_root_ok _ _ _ _ _ B6).
  - rewrite <- Hlen. apply (b_root_full _ _ _ _ _ B6).
  - intros Hbytes Hnd i name Hname. by apply (built_lookup args (img s6) (freeblock s6) rp (f_ino <$> new)).
Qed.

(** Two files, one with a leading underscore and in two portions. *)
Definition sample_args : list argument :=
  [(cbytes "_cat", Some [replicate 512 7; replicate 100 8]); (cbytes "README", Some [cbytes "xv6"])].

Lemma sample_names : Forall (fun x => byte_list x /\ (length x <= 4096)%nat) (root_names sample_args).
Proof.
  repeat apply Forall_cons_2; try apply Forall_nil_2; (split; [|by apply Nat.leb_le]);
    apply (bool_decide_unpack _); vm_compute; exact I.
Qed.

Lemma sample_distinct : NoDup (cname 14 <$> root_names sample_args).
Proof. apply (bool_decide_unpack _). vm_compute. exact I. Qed.

Lemma mkfs_builds_file_system_witness :
  exists s root (files : list inode), main sample_args start = Ok tt s /\ freeblock s = 63 /\ dir_ok sb (img s) root /\
    dir_lookup (img s) root (cbytes "cat") = Some (2, 32) /\
    (exists p, files !! 1%nat = Some p /\ file_bytes (img s) p 0 3 = cbytes "xv6").
Proof.
  destruct (mkfs_builds_file_system sample_args) as (s & root & files & E & Hfb & B & Hd & _ & Hl).
  - apply Forall_cons_2; [|apply Forall_cons_2; [|apply Forall_nil_2]]; (split_and!;
      [by apply (bool_decide_unpack _)|by eexists|vm_compute; discriminate]).
  - vm_compute. reflexivity.
  - vm_compute. discriminate.
  - exists s, root, files. split_and!; [exact E|exact Hfb|apply Hd; vm_compute; discriminate| |].
    + exact (Hl sample_names sample_distinct 2%nat (cbytes "cat") eq_refl).
    + destruct (Forall2_lookup_l _ _ _ 1%nat _ (b_files _ _ _ _ _ B) eq_refl) as (p & Hp & _ & _ & _ & _ & _ & Hbytes).
      exists p. split; [exact Hp|exact Hbytes].
Defined.
