(* ===== verification/Boot.v ===== *)
(** * The boot loader (HW3/bootmain.c)

    [bootmain] reads the kernel, an ELF file that starts in sector 1 of the
    disk, into physical memory and gives the entry point to jump to.  The disk
    controller is the class of [Ide] with laws for polling: the loader runs
    without interrupts.  The theorem says which images it loads as their
    headers ask. *)

From stdpp Require Import base numbers list strings.
From Stdlib Require Import ZArith Lia.
From S2P Require Import Prelude CStrings Fs FsDirs Mp Disk Ide Exec.

Open Scope Z_scope.

Definition SECTSIZE : Z := 512.

(** What the controller promises a driver that polls: the drive shows within
    [patience] polls that it is ready, and a read command makes the sector it
    names the next data. *)
Class PolledOk (W : Type) `{!Controller W} := {
  p_ready : nat -> option block -> W -> Prop;
  p_settled : option block -> W -> Prop;
  p_sector k x w n : p_ready k x w -> block_ok (sector w 0 n);
  p_poll k x w :
    p_ready k x w -> exists r w', inb 0x1f7 w = (r, w') /\ same_sectors w w' /\
      ((drive_ready r = true /\ p_settled x w') \/
       (drive_ready r = false /\ exists k', k = S k' /\ p_ready k' x w'));
  p_command w l0 l1 l2 l3 :
    p_settled None w -> is_byte l0 -> is_byte l1 -> is_byte l2 -> 0 <= l3 < 16 ->
    let w' := outb 0x1f7 0x20 (outb 0x1f6 (0xe0 + l3) (outb 0x1f5 l2 (outb 0x1f4 l1 (outb 0x1f3 l0 (outb 0x1f2 1 w))))) in
    same_sectors w w' /\
    p_ready patience (Some (sector w 0 (l0 + 256 * l1 + 65536 * l2 + 16777216 * l3))) w';
  p_data w x :
    p_settled (Some x) w -> exists w', insl 0x1f0 (SECTSIZE / 4) w = (x, w') /\
      same_sectors w w' /\ p_ready patience None w'
}.

(** ** The loader *)

Section loader.
Context {W : Type} `{!Controller W}.

Record machine := MkMachine { memory : mem; ctl : W }.

Definition out (port v : Z) : M machine unit := modify (fun s => MkMachine (memory s) (outb port (u8 v) (ctl s))).

(** [while((inb(0x1F7) & 0xC0) != 0x40);] *)
Fixpoint waitdisk_loop (k : nat) : M machine unit :=
  match k with
  | O => diverge
  | S k' => fun s =>
      let '(r, w) := inb 0x1f7 (ctl s) in
      if Z.land r 0xC0 =? 0x40 then Ok tt (MkMachine (memory s) w)
      else waitdisk_loop k' (MkMachine (memory s) w)
  end.

Definition waitdisk : M machine unit := waitdisk_loop (S patience).

Definition readsect (dst offset : Z) : M machine unit :=
  waitdisk;;
  out 0x1F2 1;;
  out 0x1F3 offset;;
  out 0x1F4 (Z.shiftr offset 8);;
  out 0x1F5 (Z.shiftr offset 16);;
  out 0x1F6 (Z.lor (Z.shiftr offset 24) 0xE0);;
  out 0x1F7 0x20;;
  waitdisk;;
  modify (fun s => let '(x, w) := insl 0x1F0 (SECTSIZE / 4) (ctl s) in MkMachine (place x dst (memory s)) w).

Fixpoint readseg_loop (k : nat) (pa epa offset : Z) : M machine unit :=
  if negb (pa <? epa) then mret tt else
  match k with
  | O => diverge
  | S k' => readsect pa offset;; readseg_loop k' (u32 (pa + SECTSIZE)) epa (u32 (offset + 1))
  end.

(** Each turn brings [pa] nearer to [epa] by a sector. *)
Definition readseg (pa count offset : Z) : M machine unit :=
  let epa := u32 (pa + count) in
  let pa := u32 (pa - offset mod SECTSIZE) in
  readseg_loop (Z.to_nat (epa - pa)) pa epa (offset / SECTSIZE + 1).

(** The fields of [struct proghdr] in memory. *)
Definition paddr_at (m : mem) (ph : Z) : Z := load32 m (ph + 12).
Definition off_at (m : mem) (ph : Z) : Z := load32 m (ph + 4).
Definition filesz_at (m : mem) (ph : Z) : Z := load32 m (ph + 16).
Definition memsz_at (m : mem) (ph : Z) : Z := load32 m (ph + 20).

Fixpoint load_loop (n : nat) (ph : Z) : M machine unit :=
  match n with
  | O => mret tt
  | S n' =>
      m ← reads memory;
      let pa := paddr_at m ph in
      let filesz := filesz_at m ph in
      readseg pa filesz (off_at m ph);;
      m ← reads memory;
      when (memsz_at m ph >? filesz_at m ph) (
        modify (fun s => MkMachine (KString.stosb (memory s) (pa + filesz_at m ph) 0 (Z.to_nat (memsz_at m ph - filesz_at m ph))) (ctl s)));;
      load_loop n' (ph + sizeof_ph)
  end.

(** The entry point, or [None] when [bootmain] returns to bootasm.S. *)
Definition bootmain : M machine (option Z) :=
  let elf := 0x10000 in
  readseg elf 4096 0;;
  m ← reads memory;
  if negb (load32 m elf =? ELF_MAGIC) then mret None else
  load_loop (Z.to_nat (load16 m (elf + 44))) (elf + load32 m (elf + 28));;
  m ← reads memory;
  mret (Some (load32 m (elf + 24))).

End loader.
Arguments machine : clear implicits.
Arguments MkMachine {W}.

(** ** What it reads *)

Section loads.
Context {W : Type} `{!Controller W} `{!PolledOk W}.

(** The kernel file as it lies on the disk. *)
Definition image (w : W) : mem := fun off => sector w 0 (off / SECTSIZE + 1) !!! Z.to_nat (off mod SECTSIZE).

Lemma image_same w w' off : same_sectors w w' -> image w' off = image w off.
Proof. intros H. unfold image. by rewrite H. Qed.

Lemma same_sectors_trans (w1 w2 w3 : W) : same_sectors w1 w2 -> same_sectors w2 w3 -> same_sectors w1 w3.
Proof. intros H1 H2 d n. by rewrite H2, H1. Qed.

Lemma waitdisk_ok m x w :
  p_ready patience x w ->
  exists w', waitdisk (MkMachine m w) = Ok tt (MkMachine m w') /\ p_settled x w' /\ same_sectors w w'.
Proof.
  unfold waitdisk. generalize patience as k. intros k. revert w. induction k as [|k IH]; intros w Hr;
    destruct (p_poll _ _ _ Hr) as (r & w1 & E & Hs & [[Hd Hw]|(Hd & k' & Ek & Hr')]); cbn; rewrite E;
    unfold drive_ready, IDE_BSY, IDE_DRDY in Hd; change (Z.lor 0x80 0x40) with 0xC0 in Hd; rewrite Hd; [by exists w1|done|by exists w1|].
  injection Ek as <-. destruct (IH w1 Hr') as (w2 & E2 & H2 & H3). exists w2. split_and!; [exact E2|done|].
  by apply same_sectors_trans with w1.
Qed.

Lemma head_value l : 0 <= l < 16 -> u8 (Z.lor l 0xE0) = 0xe0 + l.
Proof.
  intros Hl. assert (H : l ∈ seqZ 0 16) by (apply elem_of_seqZ; lia).
  assert (Hall : Forall (fun l => u8 (Z.lor l 0xE0) = 0xe0 + l) (seqZ 0 16)) by (vm_compute; repeat constructor).
  rewrite Forall_forall in Hall. by apply Hall.
Qed.

Lemma readsect_ok m w dst n :
  p_ready patience None w -> 0 <= n < 2 ^ 28 ->
  exists w', readsect dst n (MkMachine m w) = Ok tt (MkMachine (place (sector w 0 n) dst m) w') /\
    p_ready patience None w' /\ same_sectors w w'.
Proof.
  intros Hr Hn. destruct (waitdisk_ok m None w Hr) as (w1 & E1 & S1 & Q1). unfold readsect.
  rewrite (bind_ok _ _ _ _ _ E1). munfold. unfold out. munfold. cbn [memory ctl].
  assert (Hs : forall k, 0 <= k -> Z.shiftr n k = n / 2 ^ k) by (intros; by apply Z.shiftr_div_pow2).
  rewrite !Hs by lia. rewrite head_value by lia. change (u8 1) with 1. change (u8 0x20) with 0x20.
  destruct (p_command w1 (u8 n) (u8 (n / 2 ^ 8)) (u8 (n / 2 ^ 16)) (n / 2 ^ 24)) as [Q2 R2]; try (unfold is_byte, u8; lia); [done|].
  replace (u8 n + 256 * u8 (n / 2 ^ 8) + 65536 * u8 (n / 2 ^ 16) + 16777216 * (n / 2 ^ 24)) with n in R2 by (unfold u8; lia).
  destruct (waitdisk_ok m _ _ R2) as (w3 & E3 & S3 & Q3). rewrite E3.
  destruct (p_data w3 _ S3) as (w4 & E4 & Q4 & R4). cbn [ctl memory]. rewrite E4. exists w4. rewrite (Q1 0 n). split_and!; [done|done|].
  eauto using same_sectors_trans.
Qed.

(** The addresses the loop writes: whole sectors from [pa] until [epa]. *)
Definition stop (pa epa : Z) : Z := pa + (epa - pa + 511) / 512 * 512.

Lemma readseg_loop_ok k : forall pa epa n m w,
  p_ready patience None w -> 0 <= pa -> 0 <= epa -> epa + SECTSIZE <= 2 ^ 32 -> epa - pa <= Z.of_nat k ->
  0 <= n -> n + (Z.max 0 (epa - pa) + 511) / 512 <= 2 ^ 28 ->
  exists m' w', readseg_loop k pa epa n (MkMachine m w) = Ok tt (MkMachine m' w') /\
    p_ready patience None w' /\ same_sectors w w' /\
    forall x, m' x = if (pa <=? x) && (x <? stop pa epa) then image w ((n - 1) * 512 + (x - pa)) else m x.
Proof.
  unfold SECTSIZE, stop. induction k as [|k IH]; intros pa epa n m w Hr Hpa Hepa Hmax Hk Hn Hlast; cbn [readseg_loop];
    destruct (Z.ltb_spec pa epa) as [Hlt|Hge]; cbn [negb]; try lia.
  1, 3: exists m, w; split_and!; try done; intros x; zcases; try done; lia.
  destruct (readsect_ok m w pa n Hr) as (w1 & E1 & R1 & Q1); [lia|]. rewrite (bind_ok _ _ _ _ _ E1).
  unfold SECTSIZE. rewrite !u32_small by lia.
  destruct (IH (pa + 512) epa (n + 1) (place (sector w 0 n) pa m) w1) as (m' & w' & E & R & Q & H); try done; try lia.
  exists m', w'. split_and!; [exact E|done|by apply same_sectors_trans with w1|]. intros x. rewrite H.
  pose proof (p_sector _ _ _ n Hr) as Hlen. unfold block_ok, BSIZE in Hlen.
  destruct (Z.leb_spec (pa + 512) x) as [H1|H1]; cbn [andb].
  - destruct (Z.ltb_spec x (pa + 512 + (epa - (pa + 512) + 511) / 512 * 512)); zcases; try lia.
    + rewrite (image_same w w1) by done. f_equal. lia.
    + apply place_out. lia.
  - unfold place. rewrite Hlen. change (Z.of_nat (Z.to_nat 512)) with 512. zcases; try lia; try done.
    unfold image, SECTSIZE. replace (((n - 1) * 512 + (x - pa)) / 512 + 1) with n by lia.
    by replace (((n - 1) * 512 + (x - pa)) mod 512) with (x - pa) by lia.
Qed.

(** [readseg] puts the bytes of the file from [offset] on at [pa], and whole
    sectors around them. *)
Lemma readseg_ok pa count offset m w :
  p_ready patience None w -> 0 <= offset -> 0 <= count -> offset mod SECTSIZE <= pa -> pa + count + SECTSIZE <= 2 ^ 32 ->
  offset + count <= 2 ^ 36 ->
  exists m' w', readseg pa count offset (MkMachine m w) = Ok tt (MkMachine m' w') /\
    p_ready patience None w' /\ same_sectors w w' /\
    forall x, m' x = if (pa - offset mod SECTSIZE <=? x) && (x <? stop (pa - offset mod SECTSIZE) (pa + count))
      then image w (offset + (x - pa)) else m x.
Proof.
  intros Hr Ho Hc Hpa Hmax Hlast. unfold readseg, SECTSIZE in *. rewrite !u32_small by lia.
  destruct (readseg_loop_ok (Z.to_nat (pa + count - (pa - offset mod 512))) (pa - offset mod 512) (pa + count) (offset / 512 + 1) m w)
    as (m' & w' & E & R & Q & H); unfold SECTSIZE; try done; try lia.
  exists m', w'. split_and!; [exact E|done|done|]. intros x. rewrite H.
  by replace ((offset / 512 + 1 - 1) * 512 + (x - (pa - offset mod 512))) with (offset + (x - pa)) by lia.
Qed.

(** ** Loading the kernel *)

(** The program headers of a file. *)
Definition phnum (file : mem) : Z := load16 file 44.
Definition header (file : mem) (i : Z) : Z := load32 file 28 + sizeof_ph * i.
Definition paddr (file : mem) (i : Z) : Z := paddr_at file (header file i).
Definition off (file : mem) (i : Z) : Z := off_at file (header file i).
Definition filesz (file : mem) (i : Z) : Z := filesz_at file (header file i).
Definition size (file : mem) (i : Z) : Z := Z.max (filesz file i) (memsz_at file (header file i)).

(** An ELF file that can be loaded: its headers are in the first page, its
    segments lie above the page the loader works in, and each begins, rounded
    down to its sector, behind the end of those before it. *)
Record loadable (file : mem) : Prop := {
  l_bytes : forall x, is_byte (file x);
  l_magic : load32 file 0 = ELF_MAGIC;
  l_headers : load32 file 28 + sizeof_ph * phnum file <= 4096;
  l_where : forall i, 0 <= i < phnum file ->
    0x11000 <= paddr file i - off file i mod SECTSIZE /\ paddr file i + size file i + SECTSIZE <= 2 ^ 32;
  l_order : forall i j, 0 <= i < j -> j < phnum file ->
    paddr file i + size file i <= paddr file j - off file j mod SECTSIZE
}.

(** Segment [i] is in memory: the bytes of the file, then zeros. *)
Definition loaded (file m : mem) (i : Z) : Prop :=
  forall x, paddr file i <= x < paddr file i + size file i ->
    m x = if x <? paddr file i + filesz file i then file (off file i + (x - paddr file i)) else 0.

Lemma word_range file a : (forall x, is_byte (file x)) -> 0 <= load32 file a < 2 ^ 32.
Proof.
  intros H. unfold load32. pose proof (H a). pose proof (H (a + 1)). pose proof (H (a + 2)). pose proof (H (a + 3)).
  unfold is_byte in *. lia.
Qed.

(** The first page of the file, where the loader has put it. *)
Definition scratch (file m : mem) : Prop := forall x, 0 <= x < 4096 -> m (0x10000 + x) = file x.

Lemma scratch_word file m a : scratch file m -> 0 <= a -> a + 4 <= 4096 -> load32 m (0x10000 + a) = load32 file a.
Proof.
  intros H Ha Hb. unfold load32. rewrite <- !Z.add_assoc, !H by lia. done.
Qed.

Lemma scratch_frame file m m' : scratch file m -> (forall x, x < 0x11000 -> m' x = m x) -> scratch file m'.
Proof. intros H Hf x Hx. rewrite Hf by lia. by apply H. Qed.

Lemma loaded_frame file m m' i j :
  loadable file -> 0 <= i < j -> j < phnum file -> loaded file m i ->
  (forall x, x < paddr file j - off file j mod SECTSIZE -> m' x = m x) -> loaded file m' i.
Proof.
  intros L Hij Hj H Hf x Hx. pose proof (l_order _ L i j Hij Hj). rewrite Hf by lia. by apply H.
Qed.

(** One segment. *)
Lemma load_one file m w i :
  p_ready patience None w -> (forall x, image w x = file x) -> loadable file -> scratch file m -> 0 <= i < phnum file ->
  exists m' w', load_loop 1 (0x10000 + header file i) (MkMachine m w) = Ok tt (MkMachine m' w') /\
    p_ready patience None w' /\ (forall x, image w' x = file x) /\ loaded file m' i /\
    forall x, x < paddr file i - off file i mod SECTSIZE -> m' x = m x.
Proof.
  intros Hr Him L Hs Hi. pose proof (l_bytes _ L) as Hb. destruct (l_where _ L i Hi) as [Hlow Hhigh].
  pose proof (l_headers _ L) as Hh. pose proof (word_range file 28 Hb) as H28.
  assert (Hhd : 0 <= header file i /\ header file i + 32 <= 4096) by (unfold header, sizeof_ph in *; lia).
  assert (Hfields : forall m, scratch file m -> paddr_at m (0x10000 + header file i) = paddr file i /\
    off_at m (0x10000 + header file i) = off file i /\ filesz_at m (0x10000 + header file i) = filesz file i /\
    memsz_at m (0x10000 + header file i) = memsz_at file (header file i)).
  { intros m0 Hs0. unfold paddr, off, filesz, paddr_at, off_at, filesz_at, memsz_at. rewrite <- !Z.add_assoc.
    rewrite !(scratch_word file m0) by (done || lia). done. }
  pose proof (word_range file (header file i + 12) Hb : 0 <= paddr file i < _) as Rp.
  pose proof (word_range file (header file i + 4) Hb : 0 <= off file i < _) as Ro.
  pose proof (word_range file (header file i + 16) Hb : 0 <= filesz file i < _) as Rf.
  destruct (Hfields m Hs) as (F1 & F2 & F3 & F4). unfold size in *. set (ms := memsz_at file (header file i)) in *.
  destruct (readseg_ok (paddr file i) (filesz file i) (off file i) m w) as (m1 & w1 & E1 & R1 & Q1 & M1); unfold SECTSIZE in *; try done; try lia.
  assert (Hs1 : scratch file m1).
  { apply (scratch_frame file m); [done|]. intros x Hx. rewrite M1. zcases; try done; lia. }
  destruct (Hfields m1 Hs1) as (_ & _ & F3' & F4'). unfold stop in M1.
  cbn [load_loop]. unfold mbind, M_bind, reads. cbn [memory]. rewrite F1, F2, F3, E1. cbn [memory]. rewrite F3', F4'.
  assert (Hfile : forall x, image w1 x = file x) by (intros x; by rewrite (image_same w w1)).
  unfold when. destruct (Z.gtb_spec ms (filesz file i)) as [Hgt|Hle]; munfold; cbn [memory ctl];
    eexists _, _; (split; [reflexivity|]); split_and!; try done.
  - intros x Hx. rewrite (KString.stosb_mset _ m1 _ _ x). unfold mset. unfold size in Hx. fold ms in Hx. change (u8 0) with 0.
    rewrite Z2Nat.id by lia. rewrite M1. zcases; try done; lia || (rewrite Him; f_equal; lia).
  - intros x Hx. rewrite (KString.stosb_mset _ m1 _ _ x). unfold mset. rewrite Z2Nat.id by lia. rewrite M1. zcases; try done; lia.
  - intros x Hx. unfold size in Hx. fold ms in Hx. rewrite M1. zcases; try done; lia || (rewrite Him; f_equal; lia).
  - intros x Hx. rewrite M1. zcases; try done; lia.
Qed.

Lemma load_loop_one n ph s s' : load_loop 1 ph s = Ok tt s' -> load_loop (S n) ph s = load_loop n (ph + sizeof_ph) s'.
Proof.
  cbn [load_loop]. unfold mbind, M_bind. intros H. destruct (reads memory s) as [m s1| | | |]; try done.
  destruct (readseg _ _ _ s1) as [[] s2| | | |]; try done. destruct (reads memory s2) as [m2 s3| | | |]; try done.
  destruct (when _ _ s3) as [[] s4| | | |]; try done. by injection H as ->.
Qed.

Lemma load_all file n : forall i m w,
  p_ready patience None w -> (forall x, image w x = file x) -> loadable file -> scratch file m ->
  0 <= i -> i + Z.of_nat n = phnum file -> (forall j, 0 <= j < i -> loaded file m j) ->
  exists m' w', load_loop n (0x10000 + header file i) (MkMachine m w) = Ok tt (MkMachine m' w') /\
    scratch file m' /\ forall j, 0 <= j < phnum file -> loaded file m' j.
Proof.
  induction n as [|n IH]; intros i m w Hr Him L Hs Hi Hn Hdone.
  - exists m, w. split_and!; [done|done|]. intros j Hj. apply Hdone. lia.
  - destruct (load_one file m w i Hr Him L Hs ltac:(lia)) as (m1 & w1 & E1 & R1 & Q1 & L1 & F1).
    rewrite (load_loop_one n _ _ _ E1). destruct (l_where _ L i ltac:(lia)) as [Hlow _].
    replace (0x10000 + header file i + sizeof_ph) with (0x10000 + header file (i + 1)) by (unfold header, sizeof_ph; lia).
    apply IH; try done; try lia.
    + apply (scratch_frame file m); [done|]. intros x Hx. apply F1. lia.
    + intros j Hj. destruct (decide (j = i)) as [->|Hne]; [done|].
      apply (loaded_frame file m m1 j i); try done; try lia. apply Hdone. lia.
Qed.

(** C24: the boot loader loads the kernel.  If the file on the disk is an ELF file
    with its headers in the first page, whose segments lie in increasing order,
    above the page the loader works in, with a sector to spare below 4 Gbytes,
    and none of them, with the sector it begins in, reaching back into another,
    then [bootmain] ends with the entry point of the file and every segment is
    in memory at its physical address: the bytes of the file and behind them
    zeros.  A file without the magic number is refused. *)
Theorem bootmain_loads_kernel m w :
  p_ready patience None w ->
  (loadable (image w) ->
   exists m' w', bootmain (MkMachine m w) = Ok (Some (load32 (image w) 24)) (MkMachine m' w') /\
     forall i, 0 <= i < phnum (image w) -> loaded (image w) m' i) /\
  (load32 (image w) 0 <> ELF_MAGIC -> exists s', bootmain (MkMachine m w) = Ok None s').
Proof.
  intros Hr. destruct (readseg_ok 0x10000 4096 0 m w Hr) as (m1 & w1 & E1 & R1 & Q1 & M1); try (unfold SECTSIZE; lia).
  assert (Hs : scratch (image w) m1).
  { intros x Hx. rewrite M1. unfold stop, SECTSIZE. zcases; try lia. f_equal. lia. }
  unfold bootmain. rewrite (bind_ok _ _ _ _ _ E1). unfold mbind, M_bind, reads. cbn [memory].
  pose proof (scratch_word _ _ 0 Hs ltac:(lia) ltac:(lia)) as Hmagic. rewrite Z.add_0_r in Hmagic. rewrite Hmagic. split.
  - intros L. rewrite (l_magic _ L), Z.eqb_refl. cbn [negb].
    assert (E16 : load16 m1 (0x10000 + 44) = phnum (image w)).
    { unfold phnum, load16. rewrite <- !Z.add_assoc, !Hs by lia. done. }
    assert (Hpos : 0 <= phnum (image w)).
    { unfold phnum, load16. pose proof (l_bytes _ L 44). pose proof (l_bytes _ L (44 + 1)). unfold is_byte in *. lia. }
    rewrite E16, (scratch_word _ _ 28 Hs) by lia.
    destruct (load_all (image w) (Z.to_nat (phnum (image w))) 0 m1 w1) as (m2 & w2 & E2 & Hs2 & H2); try done; try lia.
    { intros x. by apply image_same. }
    replace (header (image w) 0) with (load32 (image w) 28) in E2 by (unfold header; lia). rewrite E2. cbn [memory].
    rewrite (scratch_word _ _ 24 Hs2) by lia. eexists _, _. split; [reflexivity|done].
  - intros Hne. rewrite (proj2 (Z.eqb_neq _ _) Hne). cbn [negb]. by eexists.
Qed.
End loads.

(** ** A drive with a small kernel *)

Module PolledDrive.

(** Registers, the sector to hand over, and how many polls show it busy. *)
Record drive := MkDrive { regs : Z -> Z; hold : block; delay : nat; platter : Z -> block }.

Definition lba (d : drive) : Z :=
  regs d 0x1f3 + 256 * regs d 0x1f4 + 65536 * regs d 0x1f5 + 16777216 * (regs d 0x1f6 - 0xe0).

#[export] Instance drive_controller : Controller drive := {
  outb port v d :=
    let d := MkDrive (zset (regs d) port v) (hold d) (delay d) (platter d) in
    if port =? 0x1f7 then MkDrive (regs d) (platter d (lba d)) 3 (platter d) else d;
  outsl _ _ d := d;
  inb _ d := match delay d with
    | O => (0x50, d)
    | S k => (0x80, MkDrive (regs d) (hold d) k (platter d))
    end;
  insl _ _ d := (hold d, d);
  finish d := d;
  sector d _ n := platter d n;
  patience := 3;
  drive1 := false
}.

Definition holds (x : option block) (d : drive) : Prop :=
  (forall n, block_ok (platter d n)) /\ match x with Some y => hold d = y | None => True end.

#[export] Instance drive_polled : PolledOk drive.
Proof.
  refine {| p_ready k x d := (delay d <= k)%nat /\ holds x d; p_settled x d := delay d = O /\ holds x d |}.
  - intros k x d n [_ [H _]]. apply H.
  - intros k x d [Hk H]. cbn. destruct (delay d) as [|j] eqn:Ej.
    + eexists _, _. split; [reflexivity|]. split; [done|]. by left.
    + eexists _, _. split; [reflexivity|]. split; [done|]. right. split; [done|]. exists (k - 1)%nat.
      split; [lia|]. cbn. split; [lia|done].
  - intros d l0 l1 l2 l3 [Hd [Hp _]] _ _ _ Hl. cbn -[Z.sub Z.add Z.mul]. unfold same_sectors, holds, lba. cbn -[Z.sub Z.add Z.mul].
    replace (224 + l3 - 224) with l3 by lia. split_and!; done || lia.
  - intros d x [Hd [Hp Hx]]. exists d. cbn in *. rewrite Hx. unfold holds. split_and!; try done. lia.
Defined.

(** One program header, behind it the three bytes of the segment, at offset
    100 of the file; the segment has room for ten. *)
Definition elf_sector : block :=
  put_bytes (put_bytes (put_bytes (put_bytes (put_bytes (put_bytes (put_bytes (put_bytes (put_bytes (replicate 512 0)
    0 (le_bytes 4 ELF_MAGIC)) 24 (le_bytes 4 0x10000c)) 28 (le_bytes 4 52)) 44 (le_bytes 2 1))
    (52 + 4) (le_bytes 4 100)) (52 + 12) (le_bytes 4 0x100000)) (52 + 16) (le_bytes 4 3)) (52 + 20) (le_bytes 4 10))
    100 (cbytes "abc").

Definition kernel_drive : drive :=
  MkDrive (fun _ => 0) [] 1 (fun n => if n =? 1 then elf_sector else replicate 512 0).

Lemma kernel_bytes x : is_byte (image kernel_drive x).
Proof.
  unfold image. cbn [sector drive_controller platter kernel_drive].
  assert (H : Forall is_byte elf_sector /\ Forall is_byte (replicate 512 0)).
  { split; apply Forall_forall; intros y Hy.
    - assert (Hall : forallb (fun y => (0 <=? y) && (y <? 256)) elf_sector = true) by (vm_compute; reflexivity).
      rewrite forallb_forall in Hall. apply list_elem_of_In, Hall in Hy. unfold is_byte. lia.
    - apply elem_of_replicate in Hy as [-> _]. done. }
  destruct H as [H1 H2]. assert (Hm : (Z.to_nat (x mod SECTSIZE) < 512)%nat) by (unfold SECTSIZE; lia).
  destruct (_ =? 1); [apply (Forall_lookup_total_1 _ _ _ H1)|apply (Forall_lookup_total_1 _ _ _ H2)]; exact Hm.
Qed.

Lemma kernel_loadable : loadable (image kernel_drive).
Proof.
  assert (E : phnum (image kernel_drive) = 1) by (vm_compute; reflexivity).
  split.
  - exact kernel_bytes.
  - vm_compute. reflexivity.
  - vm_compute. discriminate.
  - rewrite E. intros i Hi. assert (i = 0) as -> by lia. split; vm_compute; discriminate.
  - rewrite E. lia.
Qed.

Lemma bootmain_loads_kernel_witness :
  exists m' d', bootmain (MkMachine (fun _ => 1) kernel_drive) = Ok (Some 0x10000c) (MkMachine m' d') /\
    m' 0x100001 = 98 /\ m' 0x100009 = 0.
Proof.
  destruct (bootmain_loads_kernel (fun _ => 1) kernel_drive) as [H _].
  - split; [cbn; lia|]. split; [|done]. intros n. cbn. by destruct (n =? 1).
  - destruct (H kernel_loadable) as (m' & d' & E & L). exists m', d'. split; [exact E|].
    assert (Hi : 0 <= 0 < phnum (image kernel_drive)) by (vm_compute; split; [discriminate|reflexivity]).
    split; (rewrite (L 0 Hi); [vm_compute; reflexivity|vm_compute; split; [discriminate|reflexivity]]).
Defined.
End PolledDrive.
