(* ===== verification/Clock.v ===== *)
(** * The real-time clock (HW3/lapic.c: cmos_read, fill_rtcdate, cmostime)

    The clock chip is hardware that goes on while its registers are read one
    by one: [shows i r] is what register [r] reads at the [i]th access.  The
    theorem says when [cmostime] returns a date the clock has shown, and not a
    mixture of two. *)

From stdpp Require Import base numbers list sets strings.
From Stdlib Require Import ZArith Lia.
From S2P Require Import Prelude.

Open Scope Z_scope.

#[local] Ltac Zify.zify_post_hook ::= Z.to_euclidean_division_equations.

Definition CMOS_STATA : Z := 0x0a.
Definition CMOS_STATB : Z := 0x0b.
Definition CMOS_UIP : Z := Z.shiftl 1 7.

Definition SECS : Z := 0x00.
Definition MINS : Z := 0x02.
Definition HOURS : Z := 0x04.
Definition DAY : Z := 0x07.
Definition MONTH : Z := 0x08.
Definition YEAR : Z := 0x09.

Record rtcdate := MkDate { second : Z; minute : Z; hour : Z; day : Z; month : Z; year : Z }.

Instance rtcdate_eq_dec : EqDecision rtcdate.
Proof. solve_decision. Defined.

Section clock.
Context (shows : nat -> Z -> Z).

(** The state is the number of accesses so far. *)
Definition cmos_read (reg : Z) : M nat Z := fun i => Ok (shows i reg) (S i).

Definition fill_rtcdate : M nat rtcdate :=
  s ← cmos_read SECS;
  mi ← cmos_read MINS;
  h ← cmos_read HOURS;
  d ← cmos_read DAY;
  mo ← cmos_read MONTH;
  y ← cmos_read YEAR;
  mret (MkDate s mi h d mo y).

(** The loop; the structures are compared byte by byte. *)
Fixpoint read_twice (k : nat) : M nat rtcdate :=
  match k with
  | O => diverge
  | S k' =>
      t1 ← fill_rtcdate;
      a ← cmos_read CMOS_STATA;
      if has a CMOS_UIP then read_twice k'
      else
        t2 ← fill_rtcdate;
        if decide (t1 = t2) then mret t1 else read_twice k'
  end.

Definition CONV (x : Z) : Z := Z.shiftr x 4 * 10 + Z.land x 0xf.

Definition convert (t : rtcdate) : rtcdate :=
  MkDate (CONV (second t)) (CONV (minute t)) (CONV (hour t)) (CONV (day t)) (CONV (month t)) (CONV (year t)).

(** [k] bounds the turns of the loop. *)
Definition cmostime (k : nat) : M nat rtcdate :=
  sb ← cmos_read CMOS_STATB;
  let bcd := Z.land sb (Z.shiftl 1 2) =? 0 in
  t1 ← read_twice k;
  let t1 := if bcd then convert t1 else t1 in
  mret (MkDate (second t1) (minute t1) (hour t1) (day t1) (month t1) (u32 (year t1 + 2000))).

(** ** What the clock is to do *)

(** The field of a register. *)
Definition field (reg : Z) (t : rtcdate) : Z :=
  if reg =? SECS then second t else if reg =? MINS then minute t else if reg =? HOURS then hour t
  else if reg =? DAY then day t else if reg =? MONTH then month t else year t.

Definition two_digits (t : rtcdate) : Prop :=
  0 <= second t < 100 /\ 0 <= minute t < 100 /\ 0 <= hour t < 100 /\ 0 <= day t < 100 /\
  0 <= month t < 100 /\ 2000 <= year t < 2100.

(** Two decimal digits in a byte. *)
Definition to_bcd (x : Z) : Z := x / 10 * 16 + x mod 10.

Definition code (bcd : bool) (x : Z) : Z := if bcd then to_bcd x else x.

Definition registers (bcd : bool) (t : rtcdate) (r : Z) : Z :=
  code bcd (if r =? YEAR then year t - 2000 else field r t).

Definition time_regs : list Z := [SECS; MINS; HOURS; DAY; MONTH; YEAR].

(** The clock shows the dates [date i] in the coding its status register
    names. *)
Record keeps_time (bcd : bool) (date : nat -> rtcdate) : Prop := {
  k_statb : forall i, (Z.land (shows i CMOS_STATB) (Z.shiftl 1 2) =? 0) = bcd;
  k_date : forall i, two_digits (date i);
  k_shows : forall i r, r ∈ time_regs -> shows i r = registers bcd (date i) r
}.

(** At most one change of date in any thirteen accesses. *)
Definition slow (date : nat -> rtcdate) : Prop :=
  forall n, exists c, forall i, (n <= i < n + 13)%nat -> date i = if (i <? c)%nat then date n else date (n + 12)%nat.

(** No update and no change of date for 26 accesses from [n] on. *)
Definition quiet (date : nat -> rtcdate) (n : nat) : Prop :=
  forall i, (n <= i < n + 26)%nat -> date i = date n /\ has (shows i CMOS_STATA) CMOS_UIP = false.

(** ** The loop *)

(** The six registers read from access [n] on. *)
Definition read_from (n : nat) : rtcdate :=
  MkDate (shows n SECS) (shows (n + 1) MINS) (shows (n + 2) HOURS) (shows (n + 3) DAY) (shows (n + 4) MONTH) (shows (n + 5) YEAR).

Lemma fill_rtcdate_run n : fill_rtcdate n = Ok (read_from n) (n + 6)%nat.
Proof.
  unfold fill_rtcdate, cmos_read, read_from. munfold.
  replace (S (S (S (S (S (S n)))))) with (n + 6)%nat by lia. do 2 f_equal; f_equal; lia.
Qed.

Lemma read_twice_turn k n :
  read_twice (S k) n =
    if has (shows (n + 6) CMOS_STATA) CMOS_UIP then read_twice k (n + 7)%nat
    else if decide (read_from n = read_from (n + 7)) then Ok (read_from n) (n + 13)%nat else read_twice k (n + 13)%nat.
Proof.
  cbn [read_twice]. rewrite (bind_ok _ _ _ _ _ (fill_rtcdate_run n)). unfold cmos_read at 1.
  erewrite bind_ok by reflexivity. replace (S (n + 6)) with (n + 7)%nat by lia.
  destruct (has _ _); [done|]. rewrite (bind_ok _ _ _ _ _ (fill_rtcdate_run (n + 7))).
  replace (n + 7 + 6)%nat with (n + 13)%nat by lia. by case_decide.
Qed.

(** It returns what it has read twice in a row. *)
Lemma read_twice_result k : forall n t n',
  read_twice k n = Ok t n' ->
  exists m, (n <= m)%nat /\ n' = (m + 13)%nat /\ t = read_from m /\ t = read_from (m + 7).
Proof.
  induction k as [|k IH]; intros n t n'; [done|]. rewrite read_twice_turn.
  destruct (has _ _); [|case_decide as D].
  - intros (m & Hm & H)%IH. exists m. split; [lia|done].
  - intros [= <- <-]. exists n. by split_and!.
  - intros (m & Hm & H)%IH. exists m. split; [lia|done].
Qed.

(** ** Dates *)

Context (bcd : bool) (date : nat -> rtcdate) (T : keeps_time bcd date).

Definition raw (t : rtcdate) : rtcdate :=
  MkDate (registers bcd t SECS) (registers bcd t MINS) (registers bcd t HOURS) (registers bcd t DAY)
    (registers bcd t MONTH) (registers bcd t YEAR).

Lemma read_from_same n t : (forall i, (n <= i < n + 6)%nat -> date i = t) -> read_from n = raw t.
Proof.
  intros H. unfold read_from, raw. rewrite !(k_shows _ _ T) by (unfold time_regs; set_solver +). by rewrite !H by lia.
Qed.

Lemma CONV_to_bcd x : 0 <= x < 100 -> CONV (to_bcd x) = x.
Proof.
  intros H. unfold CONV, to_bcd. rewrite Z.shiftr_div_pow2 by lia. change 0xf with (Z.ones 4). rewrite Z.land_ones by lia.
  lia.
Qed.

(** The date that [cmostime] makes of what it has read. *)
Definition decode (t1 : rtcdate) : rtcdate :=
  let t1 := if bcd then convert t1 else t1 in
  MkDate (second t1) (minute t1) (hour t1) (day t1) (month t1) (u32 (year t1 + 2000)).

Lemma decode_raw t : two_digits t -> decode (raw t) = t.
Proof.
  intros (H1 & H2 & H3 & H4 & H5 & H6). unfold decode, raw, registers, code, field, convert. cbn.
  destruct t as [s mi h d mo y]; cbn in *. destruct bcd; cbn; rewrite ?CONV_to_bcd by lia;
    replace (y - 2000 + 2000) with y by lia; by rewrite u32_small by lia.
Qed.

(** Read twice without a difference, it is the date before or after a change. *)
Lemma read_twice_date k n t n' :
  slow date -> read_twice k n = Ok t n' -> exists i, (n <= i < n')%nat /\ t = raw (date i).
Proof.
  intros Hslow (m & Hm & -> & E1 & E2)%read_twice_result. destruct (Hslow m) as [c Hc].
  destruct (le_lt_dec c (m + 7)) as [Hle|Hlt].
  - exists (m + 12)%nat. split; [lia|]. rewrite E2. apply read_from_same. intros i Hi. rewrite (Hc i) by lia.
    by rewrite (proj2 (Nat.ltb_ge i c)) by lia.
  - exists m. split; [lia|]. rewrite E1. apply read_from_same. intros i Hi. rewrite (Hc i) by lia.
    by rewrite (proj2 (Nat.ltb_lt i c)) by lia.
Qed.

Lemma read_twice_ends N k : forall n,
  quiet date N -> (n < N + 13)%nat -> (N - n < k)%nat -> exists t n', read_twice k n = Ok t n'.
Proof.
  induction k as [|k IH]; intros n HN Hn Hk; [lia|]. rewrite read_twice_turn. destruct (le_lt_dec N n) as [Hge|Hlt].
  - destruct (HN (n + 6)%nat ltac:(lia)) as [_ ->]. rewrite decide_True; [by eexists _, _|].
    rewrite (read_from_same n (date N)), (read_from_same (n + 7) (date N)); [done|..]; intros i Hi; apply HN; lia.
  - destruct (has _ _); [|case_decide; [by eexists _, _|]]; apply IH; try done; lia.
Qed.

(** [cmostime] returns a date the clock has shown.  The clock goes on while
    its registers are read, in either coding; if it changes the date at most
    once in any thirteen accesses and has one quiet spell of 26 accesses from
    access [N] on, then [cmostime], called before, returns, and the date is one
    that the clock showed between the call and the return. *)
Theorem cmostime_reads_clock N n k :
  slow date -> quiet date N -> (n <= N < k)%nat ->
  exists d n', cmostime k n = Ok d n' /\ exists i, (n <= i < n')%nat /\ d = date i.
Proof.
  intros Hslow HN Hk. destruct (read_twice_ends N k (S n) HN ltac:(lia) ltac:(lia)) as (t & n' & E).
  destruct (read_twice_date k (S n) t n' Hslow E) as (i & Hi & Et). exists (decode t), n'. split.
  - unfold cmostime, cmos_read. erewrite bind_ok by reflexivity. rewrite (bind_ok _ _ _ _ _ E). by rewrite (k_statb _ _ T n).
  - exists i. split; [lia|]. rewrite Et. apply decode_raw, (k_date _ _ T).
Qed.

End clock.

(** A clock in the last second of a year, which goes over at the ninth access,
    in the middle of the second reading. *)
Definition sample_date (i : nat) : rtcdate :=
  if (i <? 9)%nat then MkDate 59 59 23 31 12 2026 else MkDate 0 0 0 1 1 2027.
Definition sample_clock (i : nat) (r : Z) : Z :=
  if r =? CMOS_STATA then 0 else if r =? CMOS_STATB then 2 else registers true (sample_date i) r.

Lemma sample_keeps_time : keeps_time sample_clock true sample_date.
Proof.
  split.
  - done.
  - intros i. unfold sample_date, two_digits. destruct (i <? 9)%nat; cbn; lia.
  - intros i r Hr. unfold sample_clock. unfold time_regs in Hr. rewrite !elem_of_cons, elem_of_nil in Hr.
    by destruct Hr as [->|[->|[->|[->|[->|[->|[]]]]]]].
Qed.

Lemma sample_slow : slow sample_date.
Proof.
  intros n. exists 9%nat. intros i Hi. unfold sample_date.
  destruct (Nat.ltb_spec i 9), (Nat.ltb_spec n 9), (Nat.ltb_spec (n + 12) 9); done || lia.
Qed.

Lemma sample_quiet : quiet sample_clock sample_date 9.
Proof. intros i Hi. unfold sample_date. by rewrite (proj2 (Nat.ltb_ge i 9)) by lia. Qed.

Lemma cmostime_reads_clock_witness :
  cmostime sample_clock 10 0%nat = Ok (MkDate 0 0 0 1 1 2027) 27%nat /\
  exists i, (0 <= i < 27)%nat /\ sample_date i = MkDate 0 0 0 1 1 2027.
Proof.
  assert (E : cmostime sample_clock 10 0%nat = Ok (MkDate 0 0 0 1 1 2027) 27%nat) by (vm_compute; reflexivity).
  split; [exact E|].
  destruct (cmostime_reads_clock sample_clock true sample_date sample_keeps_time 9%nat 0%nat 10%nat sample_slow sample_quiet ltac:(lia))
    as (d & n' & E' & i & Hi & Hd).
  rewrite E in E'. injection E' as <- <-. exists i. split; [exact Hi|symmetry; exact Hd].
Defined.
