(* ===== verification/Interrupts.v ===== *)
(** * Interrupt controllers (HW3/picirq.c, HW3/ioapic.c, HW3/lapic.c, HW3/timer.c)

    The 8259A pair, the I/O APIC and the local APIC are hardware: what their
    ports and registers do is a class each, with the documented behaviour as
    its laws.  The theorems say that after the kernel has set them up exactly
    the interrupts it has asked for are let through, with the trap numbers that
    [Trap] dispatches on. *)

From stdpp Require Import base numbers list strings.
From Stdlib Require Import ZArith Lia.
From S2P Require Import Prelude Console Trap.

Open Scope Z_scope.

#[local] Ltac Zify.zify_post_hook ::= Z.to_euclidean_division_equations.

(** ** The two 8259A (picirq.c) *)

Module Pic.

Definition IO_PIC1 : Z := 0x20.
Definition IO_PIC2 : Z := 0xA0.
Definition IRQ_SLAVE : Z := 2.

(** [out port v]; of the chip whose command port is [c]: its mask register,
    its first vector, and whether it has been initialised. *)
Class Chips (W : Type) := {
  out : Z -> Z -> W -> W;
  imr : W -> Z -> Z;
  base : W -> Z -> Z;
  idle : W -> Z -> Prop
}.

Definition chip (c : Z) : Prop := c = IO_PIC1 \/ c = IO_PIC2.

(** The other chip does not notice. *)
Definition apart {W} `{!Chips W} (c : Z) (w w' : W) : Prop :=
  forall c', chip c' -> c' <> c -> imr w' c' = imr w c' /\ base w' c' = base w c' /\ (idle w c' -> idle w' c').

(** Command words of the data sheet: initialisation from any state, the mask,
    and the selection of a register to read. *)
Class ChipsOk (W : Type) `{!Chips W} := {
  icw w c v x :
    chip c -> let w' := out (c + 1) 3 (out (c + 1) x (out (c + 1) v (out c 0x11 w))) in
    idle w' c /\ base w' c = v /\ imr w' c = 0 /\ apart c w w';
  ocw1 w c v :
    chip c -> idle w c -> is_byte v -> let w' := out (c + 1) v w in
    idle w' c /\ base w' c = base w c /\ imr w' c = v /\ apart c w w';
  ocw3 w c v :
    chip c -> idle w c -> v = 0x68 \/ v = 0x0a -> let w' := out c v w in
    idle w' c /\ base w' c = base w c /\ imr w' c = imr w c /\ apart c w w'
}.

Section pic.
Context {W : Type} `{!Chips W}.

Record pic := MkPic { irqmask : Z; chips : W }.

Definition outb (port v : Z) : M pic unit := modify (fun s => MkPic (irqmask s) (out port (u8 v) (chips s))).

Definition initial_mask : Z := Z.land 0xFFFF (Z.lnot (Z.shiftl 1 IRQ_SLAVE)).

Definition picsetmask (mask : Z) : M pic unit :=
  modify (fun s => MkPic mask (chips s));;
  outb (IO_PIC1 + 1) mask;;
  outb (IO_PIC2 + 1) (Z.shiftr mask 8).

Definition picenable (irq : Z) : M pic unit :=
  s ← get;
  picsetmask (u16 (Z.land (irqmask s) (Z.lnot (Z.shiftl 1 irq)))).

Definition picinit : M pic unit :=
  outb (IO_PIC1 + 1) 0xFF;;
  outb (IO_PIC2 + 1) 0xFF;;
  outb IO_PIC1 0x11;;
  outb (IO_PIC1 + 1) T_IRQ0;;
  outb (IO_PIC1 + 1) (Z.shiftl 1 IRQ_SLAVE);;
  outb (IO_PIC1 + 1) 0x3;;
  outb IO_PIC2 0x11;;
  outb (IO_PIC2 + 1) (T_IRQ0 + 8);;
  outb (IO_PIC2 + 1) IRQ_SLAVE;;
  outb (IO_PIC2 + 1) 0x3;;
  outb IO_PIC1 0x68;;
  outb IO_PIC1 0x0a;;
  outb IO_PIC2 0x68;;
  outb IO_PIC2 0x0a;;
  s ← get;
  when (negb (irqmask s =? 0xFFFF)) (picsetmask (irqmask s)).

(** Drivers ask for their interrupts one after the other. *)
Fixpoint picenable_all (irqs : list Z) : M pic unit :=
  match irqs with
  | [] => mret tt
  | irq :: rest => picenable irq;; picenable_all rest
  end.

(** ** What gets through *)

Definition chip_of (irq : Z) : Z := if irq <? 8 then IO_PIC1 else IO_PIC2.
Definition lets_through (w : W) (irq : Z) : bool := negb (Z.testbit (imr w (chip_of irq)) (irq mod 8)).
Definition vector (w : W) (irq : Z) : Z := base w (chip_of irq) + irq mod 8.

Context `{!ChipsOk W}.

Record set_up (s : pic) : Prop := {
  su_idle : idle (chips s) IO_PIC1 /\ idle (chips s) IO_PIC2;
  su_base : base (chips s) IO_PIC1 = T_IRQ0 /\ base (chips s) IO_PIC2 = T_IRQ0 + 8
}.

(** The chips have the mask of the kernel. *)
Definition masked (s : pic) : Prop :=
  0 <= irqmask s < 65536 /\ imr (chips s) IO_PIC1 = u8 (irqmask s) /\ imr (chips s) IO_PIC2 = u8 (Z.shiftr (irqmask s) 8).

Lemma chip1 : chip IO_PIC1. Proof. by left. Qed.
Lemma chip2 : chip IO_PIC2. Proof. by right. Qed.

Lemma picsetmask_ok mask s :
  set_up s -> 0 <= mask < 65536 ->
  exists s', picsetmask mask s = Ok tt s' /\ irqmask s' = mask /\ set_up s' /\ masked s'.
Proof.
  intros [[I1 I2] [B1 B2]] Hm. unfold picsetmask, outb. munfold. cbn [irqmask chips]. eexists. split; [reflexivity|].
  destruct (ocw1 (chips s) IO_PIC1 (u8 mask) chip1 I1) as (J1 & C1 & M1 & A1); [unfold is_byte, u8; lia|].
  destruct (A1 IO_PIC2 chip2 ltac:(done)) as (M2 & C2 & J2). set (w1 := out (IO_PIC1 + 1) (u8 mask) (chips s)) in *.
  destruct (ocw1 w1 IO_PIC2 (u8 (Z.shiftr mask 8)) chip2 (J2 I2)) as (J3 & C3 & M3 & A3); [unfold is_byte, u8; lia|].
  destruct (A3 IO_PIC1 chip1 ltac:(done)) as (M4 & C4 & J4). cbn [irqmask].
  split; [done|]. split; [split; cbn [chips]; split; auto; congruence|]. split; [done|]. cbn [chips irqmask]. split; [congruence|done].
Qed.

(** Clearing bits keeps sixteen bits. *)
Lemma land_u16 a c : 0 <= a < 65536 -> u16 (Z.land a c) = Z.land a c.
Proof.
  intros Ha. unfold u16. apply Z.bits_inj'. intros n Hn. destruct (Z.lt_ge_cases n 16) as [Hlt|Hge].
  - by rewrite Z.mod_pow2_bits_low by lia.
  - rewrite Z.mod_pow2_bits_high, Z.land_spec by lia. replace a with (a mod 2 ^ 16) by lia.
    by rewrite Z.mod_pow2_bits_high by lia.
Qed.

Lemma picenable_ok irq s :
  set_up s -> 0 <= irqmask s < 65536 -> 0 <= irq ->
  exists s', picenable irq s = Ok tt s' /\ set_up s' /\ masked s' /\
    irqmask s' = Z.land (irqmask s) (Z.lnot (Z.shiftl 1 irq)).
Proof.
  intros U Hm Hi. unfold picenable. erewrite bind_ok by reflexivity.
  pose proof (land_u16 (irqmask s) (Z.lnot (Z.shiftl 1 irq)) Hm) as E16.
  pose proof (u16_range (Z.land (irqmask s) (Z.lnot (Z.shiftl 1 irq)))) as Hr. rewrite E16 in Hr |- *.
  destruct (picsetmask_ok _ s U Hr) as (s' & E & Em & U' & M'). exists s'. by split_and!.
Qed.

Lemma picinit_ok s :
  0 <= irqmask s < 65535 ->
  exists s', picinit s = Ok tt s' /\ irqmask s' = irqmask s /\ set_up s' /\ masked s'.
Proof.
  intros Hm. unfold picinit, outb. do 14 (erewrite bind_ok by reflexivity; cbn [irqmask chips]).
  change (u8 0x11) with 0x11. change (u8 0x3) with 3. change (u8 0x68) with 0x68. change (u8 0x0a) with 0x0a.
  change (u8 (T_IRQ0 + 8)) with (T_IRQ0 + 8). change (u8 T_IRQ0) with T_IRQ0.
  set (w0 := out (IO_PIC2 + 1) (u8 0xFF) _).
  destruct (icw w0 IO_PIC1 T_IRQ0 (u8 (Z.shiftl 1 IRQ_SLAVE)) chip1) as (I1 & B1 & _ & _). set (w1 := out (IO_PIC1 + 1) 3 _) in *.
  destruct (icw w1 IO_PIC2 (T_IRQ0 + 8) (u8 IRQ_SLAVE) chip2) as (I2 & B2 & _ & A2). set (w2 := out (IO_PIC2 + 1) 3 _) in *.
  destruct (A2 IO_PIC1 chip1 ltac:(done)) as (_ & B3 & I3). specialize (I3 I1).
  destruct (ocw3 w2 IO_PIC1 0x68 chip1 I3 ltac:(by left)) as (I4 & B4 & _ & A4). set (w3 := out IO_PIC1 0x68 w2) in *.
  destruct (ocw3 w3 IO_PIC1 0x0a chip1 I4 ltac:(by right)) as (I5 & B5 & _ & A5). set (w4 := out IO_PIC1 0x0a w3) in *.
  destruct (A4 IO_PIC2 chip2 ltac:(done)) as (_ & B6 & I6). destruct (A5 IO_PIC2 chip2 ltac:(done)) as (_ & B7 & I7).
  specialize (I6 I2). specialize (I7 I6).
  destruct (ocw3 w4 IO_PIC2 0x68 chip2 I7 ltac:(by left)) as (I8 & B8 & _ & A8). set (w5 := out IO_PIC2 0x68 w4) in *.
  destruct (ocw3 w5 IO_PIC2 0x0a chip2 I8 ltac:(by right)) as (I9 & B9 & _ & A9). set (w6 := out IO_PIC2 0x0a w5) in *.
  destruct (A8 IO_PIC1 chip1 ltac:(done)) as (_ & B10 & I10). destruct (A9 IO_PIC1 chip1 ltac:(done)) as (_ & B11 & I11).
  erewrite bind_ok by reflexivity. cbn [irqmask]. rewrite (proj2 (Z.eqb_neq _ 0xFFFF)) by lia. cbn [negb when].
  destruct (picsetmask_ok (irqmask s) (MkPic (irqmask s) w6)) as (s' & E & Em & U & M); [|lia|by exists s'; split_and!].
  split; cbn [chips]; split; auto; congruence.
Qed.

Lemma picenable_all_ok irqs : forall s,
  set_up s -> masked s -> Forall (fun irq => 0 <= irq) irqs ->
  exists s', picenable_all irqs s = Ok tt s' /\ set_up s' /\ masked s' /\
    forall i, 0 <= i -> Z.testbit (irqmask s') i = Z.testbit (irqmask s) i && negb (bool_decide (i ∈ irqs)).
Proof.
  induction irqs as [|irq irqs IH]; intros s U M H.
  - exists s. split_and!; try done. intros i Hi. rewrite bool_decide_false by apply not_elem_of_nil. by rewrite andb_true_r.
  - apply Forall_cons in H as [Hi H]. destruct (picenable_ok irq s U ltac:(apply M) Hi) as (s1 & E1 & U1 & M1 & K1).
    destruct (IH s1 U1 M1 H) as (s2 & E2 & U2 & M2 & K2). exists s2. cbn [picenable_all]. rewrite (bind_ok _ _ _ _ _ E1).
    split_and!; try done. intros i Hi'. rewrite K2, K1, Z.land_spec, Z.lnot_spec, Z.shiftl_1_l, Z.pow2_bits_eqb by done.
    rewrite <- andb_assoc. f_equal. destruct (Z.eqb_spec irq i) as [->|Hne].
    + rewrite (bool_decide_true (i ∈ i :: irqs)) by left. done.
    + cbn [negb andb]. f_equal. apply bool_decide_ext. rewrite elem_of_cons. naive_solver.
Qed.

(** the 8259A let through what the drivers ask for.  After [picinit], from
    whatever state the chips were in, and [picenable] of any interrupts,
    exactly these and the line of the slave are unmasked, and each arrives as
    the trap 32 plus its number. *)
Theorem pic_lets_through irqs w :
  Forall (fun irq => 0 <= irq < 16) irqs ->
  exists s, (picinit;; picenable_all irqs) (MkPic initial_mask w) = Ok tt s /\
    Forall (fun irq => lets_through (chips s) irq = bool_decide (irq = IRQ_SLAVE \/ irq ∈ irqs) /\
      vector (chips s) irq = T_IRQ0 + irq) (seqZ 0 16).
Proof.
  intros H. destruct (picinit_ok (MkPic initial_mask w)) as (s1 & E1 & K1 & U1 & M1); [vm_compute; split; [discriminate|reflexivity]|].
  destruct (picenable_all_ok irqs s1 U1 M1) as (s2 & E2 & U2 & M2 & K2).
  { eapply Forall_impl; [exact H|]. by intros irq []. }
  exists s2. rewrite (bind_ok _ _ _ _ _ E1). split; [exact E2|]. apply Forall_forall. intros irq Hi. apply elem_of_seqZ in Hi.
  destruct M2 as (R2 & Mm1 & Mm2). destruct U2 as [_ [B1 B2]].
  assert (Hbit : Z.testbit (imr (chips s2) (chip_of irq)) (irq mod 8) = Z.testbit (irqmask s2) irq).
  { unfold chip_of. destruct (Z.ltb_spec irq 8) as [Hlt|Hge].
    - rewrite Mm1, Z.mod_small by lia. unfold u8. change 256 with (2 ^ 8). by rewrite Z.mod_pow2_bits_low by lia.
    - replace (irq mod 8) with (irq - 8) by lia.
      rewrite Mm2. unfold u8. change 256 with (2 ^ 8). rewrite Z.mod_pow2_bits_low, Z.shiftr_spec by lia. f_equal. lia. }
  split.
  - unfold lets_through. rewrite Hbit, K2, K1 by lia. cbn [irqmask].
    assert (Hs : Z.testbit initial_mask irq = negb (irq =? 2)).
    { assert (Hall : Forall (fun i => Z.testbit initial_mask i = negb (i =? 2)) (seqZ 0 16)) by (vm_compute; repeat constructor).
      rewrite Forall_forall in Hall. apply Hall, elem_of_seqZ. lia. }
    rewrite Hs, negb_andb, !negb_involutive. rewrite bool_decide_or. f_equal. unfold IRQ_SLAVE.
    destruct (Z.eqb_spec irq 2) as [->|Hne]; [by rewrite bool_decide_true|by rewrite bool_decide_false].
  - unfold vector, chip_of. destruct (Z.ltb_spec irq 8) as [Hlt|Hge]; [rewrite B1, Z.mod_small by lia; lia|].
    rewrite B2. lia.
Qed.

End pic.
Arguments pic : clear implicits.
Arguments MkPic {W}.
End Pic.

(** Two chips that follow the data sheet; [phase] counts the initialisation
    words still to come. *)
Module Chips8259.
Import Pic.

Record state := MkState { mask : Z; first : Z; phase : nat }.

Definition data (v : Z) (x : state) : state :=
  match phase x with
  | 3%nat => MkState (mask x) v 2
  | S k => MkState (mask x) (first x) k
  | O => MkState v (first x) 0
  end.

Definition command (v : Z) (x : state) : state := if v =? 0x11 then MkState 0 (first x) 3 else x.

#[export] Instance chips_8259 : Chips (Z -> state) := {
  out port v w := fun c =>
    if port =? c then command v (w c) else if port =? c + 1 then data v (w c) else w c;
  imr w c := mask (w c);
  base w c := first (w c);
  idle w c := phase (w c) = O
}.

Lemma out_command c v (w : Z -> state) : out c v w c = command v (w c).
Proof. cbn. by rewrite Z.eqb_refl. Qed.

Lemma out_data c v (w : Z -> state) : out (c + 1) v w c = data v (w c).
Proof. cbn. by rewrite (proj2 (Z.eqb_neq (c + 1) c)), Z.eqb_refl by lia. Qed.

Lemma out_other c p v (w : Z -> state) c' : chip c -> chip c' -> c' <> c -> p = c \/ p = c + 1 -> out p v w c' = w c'.
Proof.
  intros Hc Hc' Hne Hp. cbn. unfold chip, IO_PIC1, IO_PIC2 in *.
  by rewrite (proj2 (Z.eqb_neq p c')), (proj2 (Z.eqb_neq p (c' + 1))) by lia.
Qed.

Lemma apart_other c (w w' : Z -> state) : (forall c', chip c' -> c' <> c -> w' c' = w c') -> apart c w w'.
Proof. intros H c' Hc Hne. cbn. by rewrite (H c' Hc Hne). Qed.

#[export] Instance chips_8259_ok : ChipsOk (Z -> state).
Proof.
  split.
  - intros w c v x Hc. cbn [idle base imr chips_8259]. rewrite !out_data, out_command. split_and!; try done.
    apply apart_other. intros c' Hc' Hne. by rewrite !(out_other c) by auto.
  - intros w c v Hc I _. cbn [idle base imr chips_8259] in *. rewrite out_data. unfold data. rewrite I. split_and!; try done.
    apply apart_other. intros c' Hc' Hne. by rewrite (out_other c) by auto.
  - intros w c v Hc I Hv. cbn [idle base imr chips_8259] in *. rewrite out_command. unfold command.
    assert ((v =? 0x11) = false) as -> by (destruct Hv as [-> | ->]; done). split_and!; try done.
    apply apart_other. intros c' Hc' Hne. by rewrite (out_other c) by auto.
Qed.

Definition power_on : Z -> state := fun _ => MkState 0xAA 0 2.

(** The disk and the keyboard. *)
Lemma pic_lets_through_witness :
  exists s, (picinit;; picenable_all [IRQ_IDE; IRQ_KBD]) (MkPic initial_mask power_on) = Ok tt s /\
    lets_through (chips s) IRQ_IDE = true /\ vector (chips s) IRQ_IDE = T_IRQ0 + IRQ_IDE /\
    lets_through (chips s) IRQ_COM1 = false.
Proof.
  destruct (pic_lets_through [IRQ_IDE; IRQ_KBD] power_on) as (s & E & H).
  { repeat constructor; unfold IRQ_IDE, IRQ_KBD; lia. }
  exists s. split; [exact E|]. rewrite Forall_forall in H.
  destruct (H IRQ_IDE) as [H1 H2]; [by apply elem_of_seqZ|]. destruct (H IRQ_COM1) as [H3 _]; [by apply elem_of_seqZ|].
  split_and!; [rewrite H1; vm_compute; reflexivity|exact H2|rewrite H3; vm_compute; reflexivity].
Defined.
End Chips8259.

(** ** The I/O APIC (ioapic.c) *)

Module Ioapic.

Definition REG_ID : Z := 0x00.
Definition REG_VER : Z := 0x01.
Definition REG_TABLE : Z := 0x10.
Definition INT_DISABLED : Z := 0x00010000.

(** [struct ioapic]: a register is selected by writing its number to [reg] and
    then read or written at [data]; [register w r] is what it holds. *)
Class Window (W : Type) := {
  set_reg : Z -> W -> W;
  get_data : W -> Z;
  set_data : Z -> W -> W;
  register : W -> Z -> Z
}.

Class WindowOk (W : Type) `{!Window W} := {
  set_reg_register w r r' : register (set_reg r w) r' = register w r';
  get_data_register w r : get_data (set_reg r w) = register w r;
  set_data_register w r v r' :
    REG_TABLE <= r -> register (set_data v (set_reg r w)) r' = if r' =? r then v else register w r'
}.

Section ioapic.
Context {W : Type} `{!Window W}.
(** [ismp] of mp.c: whether there is an I/O APIC. *)
Context (ismp : bool).

Definition ioapicread (reg : Z) : M W Z := fun w => Ok (get_data (set_reg reg w)) (set_reg reg w).

Definition ioapicwrite (reg data : Z) : M W unit := modify (fun w => set_data data (set_reg reg w)).

Definition ioapicinit : M W unit :=
  if negb ismp then mret tt else
  ver ← ioapicread REG_VER;
  let maxintr := Z.land (Z.shiftr ver 16) 0xFF in
  ioapicread REG_ID;;
  for_ 0 (maxintr + 1) (fun i =>
    ioapicwrite (REG_TABLE + 2 * i) (Z.lor INT_DISABLED (T_IRQ0 + i));;
    ioapicwrite (REG_TABLE + 2 * i + 1) 0).

Definition ioapicenable (irq cpunum : Z) : M W unit :=
  if negb ismp then mret tt else
  ioapicwrite (REG_TABLE + 2 * irq) (T_IRQ0 + irq);;
  ioapicwrite (REG_TABLE + 2 * irq + 1) (u32 (Z.shiftl cpunum 24)).

Fixpoint ioapicenable_all (l : list (Z * Z)) : M W unit :=
  match l with
  | [] => mret tt
  | (irq, cpunum) :: rest => ioapicenable irq cpunum;; ioapicenable_all rest
  end.

(** The entry of the redirection table for an interrupt. *)
Definition entry (w : W) (i : Z) : Z * Z := (register w (REG_TABLE + 2 * i), register w (REG_TABLE + 2 * i + 1)).

(** What it is to be after the last [ioapicenable] of the interrupt, if any. *)
Fixpoint route (l : list (Z * Z)) (i : Z) (old : Z * Z) : Z * Z :=
  match l with
  | [] => old
  | (irq, cpunum) :: rest =>
      route rest i (if i =? irq then (T_IRQ0 + irq, u32 (Z.shiftl cpunum 24)) else old)
  end.
End ioapic.

Section routes.
Context {W : Type} `{!Window W} `{!WindowOk W}.

Lemma ioapicwrite_ok r v w :
  REG_TABLE <= r -> exists w', ioapicwrite r v w = Ok tt w' /\ forall r', register w' r' = if r' =? r then v else register w r'.
Proof. intros Hr. eexists. split; [reflexivity|]. intros r'. by rewrite set_data_register. Qed.

(** Both words of an entry. *)
Lemma write_entry i lo hi w :
  0 <= i ->
  exists w', (ioapicwrite (REG_TABLE + 2 * i) lo;; ioapicwrite (REG_TABLE + 2 * i + 1) hi) w = Ok tt w' /\
    (forall j, entry w' j = if j =? i then (lo, hi) else entry w j) /\ forall r, r < REG_TABLE -> register w' r = register w r.
Proof.
  intros Hi. destruct (ioapicwrite_ok (REG_TABLE + 2 * i) lo w) as (w1 & E1 & H1); [lia|].
  destruct (ioapicwrite_ok (REG_TABLE + 2 * i + 1) hi w1) as (w2 & E2 & H2); [lia|].
  exists w2. rewrite (bind_ok _ _ _ _ _ E1). split_and!; [done| |].
  - intros j. unfold entry. rewrite !H2, !H1. zcases; try done; lia.
  - intros r Hr. rewrite H2, H1. unfold REG_TABLE in *. zcases; try done; lia.
Qed.

Definition off_entry (i : Z) : Z * Z := (Z.lor INT_DISABLED (T_IRQ0 + i), 0).

Lemma ioapicinit_ok w :
  let maxintr := Z.land (Z.shiftr (register w REG_VER) 16) 0xFF in
  exists w', ioapicinit true w = Ok tt w' /\ forall i, 0 <= i <= maxintr -> entry w' i = off_entry i.
Proof.
  intros maxintr. unfold ioapicinit, ioapicread. cbn [negb]. do 2 (erewrite bind_ok by reflexivity).
  rewrite get_data_register. fold maxintr. set (w0 := set_reg REG_ID _).
  assert (Hm : 0 <= maxintr) by (apply Z.land_nonneg; by right).
  destruct (for_inv (fun k w => forall i, 0 <= i < k -> entry w i = off_entry i)
    (fun i => ioapicwrite (REG_TABLE + 2 * i) (Z.lor INT_DISABLED (T_IRQ0 + i));; ioapicwrite (REG_TABLE + 2 * i + 1) 0)
    0 (maxintr + 1) w0) as (w' & E & H).
  { lia. }
  { intros i Hi. lia. }
  { intros i w1 Hi H1. destruct (write_entry i (Z.lor INT_DISABLED (T_IRQ0 + i)) 0 w1) as (w2 & E2 & H2 & _); [lia|].
    exists w2. split; [exact E2|]. intros j Hj. rewrite H2. zcases; [by subst|apply H1; lia]. }
  exists w'. split; [exact E|]. intros i Hi. apply H. lia.
Qed.

Lemma ioapicenable_all_ok l : forall w,
  Forall (fun x => 0 <= x.1) l ->
  exists w', ioapicenable_all true l w = Ok tt w' /\ forall i, entry w' i = route l i (entry w i).
Proof.
  induction l as [|[irq cpunum] l IH]; intros w H; [by exists w|]. apply Forall_cons in H as [Hi H]. cbn in Hi.
  destruct (write_entry irq (T_IRQ0 + irq) (u32 (Z.shiftl cpunum 24)) w Hi) as (w1 & E1 & H1 & _).
  destruct (IH w1 H) as (w2 & E2 & H2). exists w2. cbn [ioapicenable_all]. unfold ioapicenable. cbn [negb].
  rewrite (bind_ok _ _ _ _ _ E1). split; [exact E2|]. intros i. by rewrite H2, H1.
Qed.

(** the I/O APIC routes what the drivers ask for.  After [ioapicinit] and
    any calls of [ioapicenable], the entry of every interrupt the chip has is
    the one of the last call for it: its trap number, enabled, edge-triggered,
    for the processor named; and every other interrupt is disabled and routed
    nowhere. *)
Theorem ioapic_routes l w :
  Forall (fun x => 0 <= x.1) l ->
  let maxintr := Z.land (Z.shiftr (register w REG_VER) 16) 0xFF in
  exists w', (ioapicinit true;; ioapicenable_all true l) w = Ok tt w' /\
    Forall (fun i => entry w' i = route l i (off_entry i)) (seqZ 0 (maxintr + 1)).
Proof.
  intros Hl maxintr. destruct (ioapicinit_ok w) as (w1 & E1 & H1). fold maxintr in H1.
  destruct (ioapicenable_all_ok l w1 Hl) as (w2 & E2 & H2). exists w2. rewrite (bind_ok _ _ _ _ _ E1).
  split; [exact E2|]. apply Forall_forall. intros i Hi%elem_of_seqZ. rewrite H2, H1 by lia. done.
Qed.
End routes.

(** A chip with 24 interrupts. *)
Definition bank := (Z * (Z -> Z))%type.

#[export] Instance bank_window : Window bank := {
  set_reg r w := (r, w.2);
  get_data w := w.2 w.1;
  set_data v w := (w.1, zset w.2 w.1 v);
  register w r := w.2 r
}.

#[export] Instance bank_window_ok : WindowOk bank.
Proof. split; done. Qed.

Definition bank24 : bank := (0, zset (fun _ => 0) REG_VER (Z.shiftl 23 16)).

Lemma ioapic_routes_witness :
  exists w', (ioapicinit true;; ioapicenable_all true [(IRQ_KBD, 0); (IRQ_IDE, 1)]) bank24 = Ok tt w' /\
    entry w' IRQ_IDE = (T_IRQ0 + IRQ_IDE, 0x1000000) /\ entry w' 23 = off_entry 23.
Proof.
  destruct (ioapic_routes [(IRQ_KBD, 0); (IRQ_IDE, 1)] bank24) as (w' & E & H).
  { repeat constructor; cbn; unfold IRQ_KBD, IRQ_IDE; lia. }
  exists w'. split; [exact E|]. rewrite Forall_forall in H. split.
  - rewrite (H IRQ_IDE) by (by apply elem_of_seqZ). reflexivity.
  - rewrite (H 23) by (by apply elem_of_seqZ). reflexivity.
Defined.
End Ioapic.

(** ** The local APIC (lapic.c) *)

Module Lapic.

Definition ID : Z := 0x0020 / 4.
Definition VER : Z := 0x0030 / 4.
Definition TPR : Z := 0x0080 / 4.
Definition EOI : Z := 0x00B0 / 4.
Definition SVR : Z := 0x00F0 / 4.
Definition ENABLE : Z := 0x00000100.
Definition ESR : Z := 0x0280 / 4.
Definition ICRLO : Z := 0x0300 / 4.
Definition INIT : Z := 0x00000500.
Definition STARTUP : Z := 0x00000600.
Definition DELIVS : Z := 0x00001000.
Definition ASSERT : Z := 0x00004000.
Definition LEVEL : Z := 0x00008000.
Definition BCAST : Z := 0x00080000.
Definition ICRHI : Z := 0x0310 / 4.
Definition TIMER : Z := 0x0320 / 4.
Definition X1 : Z := 0x0000000B.
Definition PERIODIC : Z := 0x00020000.
Definition PCINT : Z := 0x0340 / 4.
Definition LINT0 : Z := 0x0350 / 4.
Definition LINT1 : Z := 0x0360 / 4.
Definition ERROR : Z := 0x0370 / 4.
Definition MASKED : Z := 0x00010000.
Definition TICR : Z := 0x0380 / 4.
Definition TDCR : Z := 0x03E0 / 4.
Definition IRQ_ERROR : Z := 19.

(** The registers as [uint lapic[]]: [store] and [load] are the accesses, [held]
    what was last stored, [sent] the interrupt commands given so far, each
    with its destination word. *)
Class Apic (W : Type) := {
  store : Z -> Z -> W -> W;
  load : Z -> W -> Z * W;
  held : W -> Z -> Z;
  sent : W -> list (Z * Z);
  patience : nat
}.

(** A command is shown as delivered within [patience] loads of [ICRLO]. *)
Class ApicOk (W : Type) `{!Apic W} := {
  pending : nat -> W -> Prop;
  store_held w i v j : held (store i v w) j = if j =? i then v else held w j;
  store_sent w i v : sent (store i v w) = if i =? ICRLO then sent w ++ [(held w ICRHI, v)] else sent w;
  store_pending w v : pending patience (store ICRLO v w);
  load_held w i : held (load i w).2 = held w /\ sent (load i w).2 = sent w;
  load_id k w : pending k w -> pending k (load ID w).2;
  load_icr k w : pending k w ->
    has (load ICRLO w).1 DELIVS = false \/ exists k', k = S k' /\ pending k' (load ICRLO w).2
}.

Section lapic.
Context {W : Type} `{!Apic W}.

(** The mapped registers, if there are any, and the memory of the machine. *)
Record cpu := MkCpu { lapic : option W; memory : mem; cmos : list (Z * Z) }.

Definition lapic_op {A} (f : W -> A * W) : M cpu A := fun s =>
  match lapic s with
  | Some w => let '(a, w') := f w in Ok a (MkCpu (Some w') (memory s) (cmos s))
  | None => Undef "null pointer"
  end.

Definition lapicr (index : Z) : M cpu Z := lapic_op (load index).

Definition lapicw (index value : Z) : M cpu unit :=
  lapic_op (fun w => (tt, store index value w));;
  lapicr ID;;
  mret tt.

(** [while(lapic[ICRLO] & DELIVS);] *)
Fixpoint delivered (k : nat) : M cpu unit :=
  match k with
  | O => diverge
  | S k' => x ← lapicr ICRLO; if has x DELIVS then delivered k' else mret tt
  end.

Definition lapicinit : M cpu unit :=
  l ← reads lapic;
  match l with
  | None => mret tt
  | Some _ =>
      lapicw SVR (Z.lor ENABLE (T_IRQ0 + IRQ_SPURIOUS));;
      lapicw TDCR X1;;
      lapicw TIMER (Z.lor PERIODIC (T_IRQ0 + IRQ_TIMER));;
      lapicw TICR 10000000;;
      lapicw LINT0 MASKED;;
      lapicw LINT1 MASKED;;
      ver ← lapicr VER;
      when (Z.land (Z.shiftr ver 16) 0xFF >=? 4) (lapicw PCINT MASKED);;
      lapicw ERROR (T_IRQ0 + IRQ_ERROR);;
      lapicw ESR 0;;
      lapicw ESR 0;;
      lapicw EOI 0;;
      lapicw ICRHI 0;;
      lapicw ICRLO (Z.lor (Z.lor BCAST INIT) LEVEL);;
      delivered (S patience);;
      lapicw TPR 0
  end.

(** The warning about interrupts that are on is left out. *)
Definition cpunum : M cpu Z :=
  l ← reads lapic;
  match l with
  | Some _ => x ← lapicr ID; mret (Z.shiftr x 24)
  | None => mret 0
  end.

Definition lapiceoi : M cpu unit :=
  l ← reads lapic;
  match l with Some _ => lapicw EOI 0 | None => mret tt end.

Definition cmos_out (port v : Z) : M cpu unit := modify (fun s => MkCpu (lapic s) (memory s) (cmos s ++ [(port, u8 v)])).

(** [wrv[i] = v] for the warm reset vector. *)
Definition wrv : Z := Z.lor (Z.shiftl 0x40 4) 0x67.
Definition store16 (a v : Z) : M cpu unit := modify (fun s =>
  MkCpu (lapic s) (upd (upd (memory s) a (u8 v)) (a + 1) (u8 (Z.shiftr v 8))) (cmos s)).

(** [microdelay] does nothing. *)
Definition lapicstartap (apicid addr : Z) : M cpu unit :=
  cmos_out 0x70 0xF;;
  cmos_out 0x71 0x0A;;
  store16 wrv 0;;
  store16 (wrv + 2) (Z.shiftr addr 4);;
  lapicw ICRHI (u32 (Z.shiftl apicid 24));;
  lapicw ICRLO (Z.lor (Z.lor INIT LEVEL) ASSERT);;
  lapicw ICRLO (Z.lor INIT LEVEL);;
  for_ 0 2 (fun _ =>
    lapicw ICRHI (u32 (Z.shiftl apicid 24));;
    lapicw ICRLO (Z.lor STARTUP (Z.shiftr addr 12))).

End lapic.
Arguments cpu : clear implicits.
Arguments MkCpu {W}.

Section commands.
Context {W : Type} `{!Apic W} `{!ApicOk W}.

Lemma lapicw_ok w m c i v :
  exists w', lapicw i v (MkCpu (Some w) m c) = Ok tt (MkCpu (Some w') m c) /\
    (forall j, held w' j = if j =? i then v else held w j) /\
    sent w' = (if i =? ICRLO then sent w ++ [(held w ICRHI, v)] else sent w) /\
    (i = ICRLO -> pending patience w').
Proof.
  unfold lapicw, lapicr, lapic_op. munfold. cbn [lapic memory cmos].
  destruct (load ID (store i v w)) as [x w'] eqn:E. exists w'. split; [done|].
  pose proof (load_held (store i v w) ID) as [Hh Hs]. rewrite E in Hh, Hs. cbn in Hh, Hs. split_and!.
  - intros j. by rewrite Hh, store_held.
  - by rewrite Hs, store_sent.
  - intros ->. pose proof (load_id patience _ (store_pending w v)) as Hp. by rewrite E in Hp.
Qed.

Lemma delivered_ok k : forall w m c, pending k w ->
  exists w', delivered (S k) (MkCpu (Some w) m c) = Ok tt (MkCpu (Some w') m c) /\ held w' = held w /\ sent w' = sent w.
Proof.
  induction k as [|k IH]; intros w m c Hp; cbn [delivered]; unfold lapicr, lapic_op, mbind, M_bind; cbn [lapic memory cmos];
    pose proof (load_held w ICRLO) as [Hh Hs]; pose proof (load_icr _ w Hp) as Hl;
    destruct (load ICRLO w) as [x w1]; cbn [fst snd] in *; destruct Hl as [Hd|(k' & Ek & Hp')].
  - rewrite Hd. by exists w1.
  - lia.
  - rewrite Hd. by exists w1.
  - injection Ek as <-. destruct (has x DELIVS); [|by exists w1]. destruct (IH w1 m c Hp') as (w2 & E & H1 & H2).
    exists w2. split_and!; [exact E|congruence|congruence].
Qed.

(** One store after the other; the facts about each state stay in the context. *)
#[local] Ltac next_store :=
  match goal with
  | |- context [mbind _ (lapicw ?i ?v) (MkCpu (Some ?w) ?m ?c)] =>
      let w' := fresh "w" in let E := fresh "E" in let H := fresh "H" in let S := fresh "S" in let P := fresh "P" in
      destruct (lapicw_ok w m c i v) as (w' & E & H & S & P); rewrite (bind_ok _ _ _ _ _ E); clear E
  end.

#[local] Ltac closed_test :=
  match goal with
  | |- context [?a =? ?b] => let v := eval vm_compute in (a =? b) in change (a =? b) with v; cbv iota
  end.

#[local] Ltac apic_held :=
  repeat first [closed_test | match goal with
  | H : forall j, held ?w j = _ |- context [held ?w ?i] => rewrite (H i)
  | H : held ?w = held ?w' |- context [held ?w _] => rewrite H
  | H : forall j, j <> _ -> held ?w j = _ |- context [held ?w ?i] => rewrite (H i) by done
  | H : sent ?w = _ |- context [sent ?w] => rewrite H
  end].

(** [lapicinit] ends and leaves the local APIC enabled, with the timer
    interrupting periodically as trap 32, the external lines masked, errors on
    their own trap and no priority threshold; the one command it sends is the
    initial synchronisation. *)
Theorem lapicinit_sets_up w m c :
  exists w', lapicinit (MkCpu (Some w) m c) = Ok tt (MkCpu (Some w') m c) /\
    held w' SVR = Z.lor ENABLE (T_IRQ0 + IRQ_SPURIOUS) /\ held w' TIMER = Z.lor PERIODIC (T_IRQ0 + IRQ_TIMER) /\
    held w' TDCR = X1 /\ held w' TICR = 10000000 /\ held w' LINT0 = MASKED /\ held w' LINT1 = MASKED /\
    held w' ERROR = T_IRQ0 + IRQ_ERROR /\ held w' TPR = 0 /\
    sent w' = sent w ++ [(0, Z.lor (Z.lor BCAST INIT) LEVEL)].
Proof.
  unfold lapicinit. erewrite bind_ok by reflexivity. cbn [lapic]. do 6 next_store.
  destruct (load_held w5 VER) as [Hh Hs]. destruct (load VER w5) as [ver w6] eqn:Ev. cbn [snd] in Hh, Hs.
  assert (Er : lapicr VER (MkCpu (Some w5) m c) = Ok ver (MkCpu (Some w6) m c)) by (unfold lapicr, lapic_op; cbn; by rewrite Ev).
  rewrite (bind_ok _ _ _ _ _ Er). clear Er.
  assert (exists w7, when (Z.land (Z.shiftr ver 16) 0xFF >=? 4) (lapicw PCINT MASKED) (MkCpu (Some w6) m c) = Ok tt (MkCpu (Some w7) m c) /\
    (forall j, j <> PCINT -> held w7 j = held w6 j) /\ sent w7 = sent w6) as (w7 & E7 & H7 & S7).
  { unfold when. destruct (_ >=? 4); [|by exists w6]. destruct (lapicw_ok w6 m c PCINT MASKED) as (w7 & E & H' & S' & _).
    exists w7. split_and!; [exact E| |by rewrite S']. intros j Hj. by rewrite H', (proj2 (Z.eqb_neq _ _) Hj). }
  rewrite (bind_ok _ _ _ _ _ E7). do 6 next_store.
  destruct (delivered_ok _ w13 m c (P10 eq_refl)) as (w14 & E14 & H14 & S14). rewrite (bind_ok _ _ _ _ _ E14).
  destruct (lapicw_ok w14 m c TPR 0) as (w15 & E15 & H15 & S15 & _). exists w15. split; [exact E15|].
  split_and!; apic_held; reflexivity.
Qed.

(** [lapicstartap] sends the processor it is to start the commands of the
    universal start-up algorithm, INIT, its release and twice STARTUP at the
    page of the entry code, and sets the shutdown code and the warm reset
    vector to that code, as a real-mode address. *)
Theorem lapicstartap_sends apicid addr w m c :
  0 <= addr < 2 ^ 20 ->
  let dest := u32 (Z.shiftl apicid 24) in
  let startup := Z.lor STARTUP (Z.shiftr addr 12) in
  exists w' m', lapicstartap apicid addr (MkCpu (Some w) m c) = Ok tt (MkCpu (Some w') m' (c ++ [(0x70, 0xF); (0x71, 0x0A)])) /\
    sent w' = sent w ++ [(dest, Z.lor (Z.lor INIT LEVEL) ASSERT); (dest, Z.lor INIT LEVEL); (dest, startup); (dest, startup)] /\
    load32 m' 0x467 = Z.shiftl (Z.shiftr addr 4) 16 /\ forall a, a < 0x467 \/ 0x46b <= a -> m' a = m a.
Proof.
  intros Ha dest startup. unfold lapicstartap, cmos_out, store16. do 4 (erewrite bind_ok by reflexivity; cbn [lapic memory cmos]).
  rewrite <- app_assoc. cbn [app]. change (u8 0xF) with 0xF. change (u8 0x0A) with 0x0A. change wrv with 0x467.
  set (m1 := upd _ _ _). fold dest. do 3 next_store. change (for_ 0 2 ?f) with (f 0;; (f 1;; mret tt)). cbv beta.
  fold dest. fold startup. rewrite bind_assoc. next_store. next_store. rewrite bind_assoc. next_store. next_store.
  exists w6, m1. split; [reflexivity|]. split; [|split].
  - apic_held. rewrite <- !app_assoc. reflexivity.
  - unfold load32, m1, upd. rewrite !Z.shiftr_div_pow2, Z.shiftl_mul_pow2 by lia. unfold u8.
    repeat closed_test. change (0 / 2 ^ 8) with 0. change (0 mod 2 ^ 8) with 0. lia.
  - intros a Hne. unfold m1. rewrite !upd_ne by lia. done.
Qed.
End commands.

(** Registers that keep what is stored; a command takes one load to be
    delivered. *)
Record registers := MkRegisters { values : Z -> Z; commands : list (Z * Z); busy : nat }.

#[export] Instance registers_apic : Apic registers := {
  store i v w := MkRegisters (zset (values w) i v)
    (if i =? ICRLO then commands w ++ [(values w ICRHI, v)] else commands w) (if i =? ICRLO then 1 else busy w);
  load i w := if i =? ICRLO then ((if (0 <? busy w)%nat then DELIVS else 0), MkRegisters (values w) (commands w) (pred (busy w)))
    else (values w i, w);
  held := values;
  sent := commands;
  patience := 1
}.

#[export] Instance registers_apic_ok : ApicOk registers.
Proof.
  refine {| pending k w := (busy w <= k)%nat |}; try done.
  - intros w i. cbn. by destruct (i =? ICRLO).
  - intros k w Hb. cbn. rewrite Z.eqb_refl. destruct (busy w) as [|j]; [by left|]. right. exists (k - 1)%nat.
    split; cbn; lia.
Defined.

Lemma lapicstartap_sends_witness :
  exists w' m', lapicstartap 1 0x7000 (MkCpu (Some (MkRegisters (fun _ => 0) [] 0)) (fun _ => 0) []) =
      Ok tt (MkCpu (Some w') m' [(0x70, 0xF); (0x71, 0x0A)]) /\
    sent w' = [(0x1000000, 0xC500); (0x1000000, 0x8500); (0x1000000, 0x607); (0x1000000, 0x607)] /\
    load32 m' 0x467 = 0x7000000.
Proof.
  destruct (lapicstartap_sends 1 0x7000 (MkRegisters (fun _ => 0) [] 0) (fun _ => 0) []) as (w' & m' & E & Hs & Hm & _); [lia|].
  exists w', m'. split; [exact E|]. split; [exact Hs|exact Hm].
Defined.
End Lapic.

(** ** The serial line (uart.c) *)

Module Uart.

Definition COM1 : Z := 0x3f8.

(** The ports of the 8250; [line w] is what was sent, [received w] what has come
    in and was not read, [free k w] that the transmitter shows itself empty
    after at most [k] more looks. *)
Class Serial (W : Type) := {
  out : Z -> Z -> W -> W;
  inp : Z -> W -> Z * W;
  line : W -> list Z;
  received : W -> list Z;
  patience : nat
}.

Definition calm {W} `{!Serial W} (w w' : W) : Prop := line w' = line w /\ received w' = received w.

Class SerialOk (W : Type) `{!Serial W} := {
  free : nat -> W -> Prop;
  status k w :
    free k w -> exists r w', inp (COM1 + 5) w = (r, w') /\ calm w w' /\
      has r 0x01 = bool_decide (received w <> []) /\
      ((has r 0x20 = true /\ free 0 w') \/ (has r 0x20 = false /\ exists k', k = S k' /\ free k' w'));
  send w v : free 0 w -> is_byte v ->
    line (out COM1 v w) = line w ++ [v] /\ received (out COM1 v w) = received w /\ free patience (out COM1 v w);
  take k w c cs : free k w -> received w = c :: cs ->
    exists w', inp COM1 w = (c, w') /\ line w' = line w /\ received w' = cs /\ free k w' /\ 0 <= c
}.

Section uart.
Context {W : Type} `{!Serial W}.

(** Whether there is a uart, and the uart. *)
Record serial := MkSerial { uart : bool; dev : W }.

Definition outb (port v : Z) : M serial unit := modify (fun s => MkSerial (uart s) (out port (u8 v) (dev s))).
Definition inb (port : Z) : M serial Z := fun s => let '(r, w) := inp port (dev s) in Ok r (MkSerial (uart s) w).

(** [for(i = 0; i < 128 && !(inb(COM1+5) & 0x20); i++)] with [k] turns left. *)
Fixpoint wait_empty (k : nat) : M serial unit :=
  match k with
  | O => mret tt
  | S k' => r ← inb (COM1 + 5); if has r 0x20 then mret tt else wait_empty k'
  end.

Definition uartputc (c : Z) : M serial unit :=
  s ← get;
  if negb (uart s) then mret tt else
  wait_empty 128;;
  outb COM1 c.

Definition uartgetc : M serial Z :=
  s ← get;
  if negb (uart s) then mret (-1) else
  r ← inb (COM1 + 5);
  if negb (has r 0x01) then mret (-1) else inb COM1.

Fixpoint uartputs (cs : list Z) : M serial unit :=
  match cs with
  | [] => mret tt
  | c :: rest => uartputc c;; uartputs rest
  end.

(** [enable] stands for [picenable] and [ioapicenable] of the line. *)
Definition uartinit (enable : M serial unit) : M serial unit :=
  outb (COM1 + 2) 0;;
  outb (COM1 + 3) 0x80;;
  outb COM1 (115200 / 9600);;
  outb (COM1 + 1) 0;;
  outb (COM1 + 3) 0x03;;
  outb (COM1 + 4) 0;;
  outb (COM1 + 1) 0x01;;
  r ← inb (COM1 + 5);
  if r =? 0xFF then mret tt else
  modify (fun s => MkSerial true (dev s));;
  inb (COM1 + 2);;
  inb COM1;;
  enable;;
  uartputs (cbytes "xv6..." ++ [10]).

(** The characters [consoleintr] gets from [uartgetc] until there are no more. *)
Fixpoint drain (k : nat) : M serial (list Z) :=
  match k with
  | O => diverge
  | S k' => c ← uartgetc; if c <? 0 then mret [] else cs ← drain k'; mret (c :: cs)
  end.

Definition uartintr (k : nat) (i : Console.input) : M serial (option Console.input) :=
  cs ← drain k; mret (Console.consoleintr cs i).

End uart.
Arguments serial : clear implicits.
Arguments MkSerial {W}.

Section transfer.
Context {W : Type} `{!Serial W} `{!SerialOk W}.

Lemma wait_empty_ok k : forall n w b,
  free n w -> (n < k)%nat ->
  exists w', wait_empty k (MkSerial b w) = Ok tt (MkSerial b w') /\ calm w w' /\ free 0 w'.
Proof.
  induction k as [|k IH]; intros n w b Hf Hn; [lia|].
  destruct (status n w Hf) as (r & w1 & E & Hc & _ & [[Hr H0]|(Hr & n' & -> & Hf')]); cbn [wait_empty];
    unfold inb, mbind, M_bind; cbn [dev uart]; rewrite E, Hr; [by exists w1|].
  destruct (IH n' w1 b Hf' ltac:(lia)) as (w2 & E2 & Hc2 & H2). exists w2. split_and!; [exact E2| |done].
  destruct Hc, Hc2. split; congruence.
Qed.

Lemma uartputs_ok cs : forall w,
  free patience w -> (patience < 128)%nat -> Forall is_byte cs ->
  exists w', uartputs cs (MkSerial true w) = Ok tt (MkSerial true w') /\
    line w' = line w ++ cs /\ received w' = received w /\ free patience w'.
Proof.
  induction cs as [|c cs IH]; intros w Hf Hp H; [exists w; by rewrite app_nil_r|]. apply Forall_cons in H as [Hc H].
  destruct (wait_empty_ok 128 patience w true Hf Hp) as (w1 & E1 & [L1 R1] & F1).
  destruct (send w1 c F1 Hc) as (L2 & R2 & F2). destruct (IH _ F2 Hp H) as (w3 & E3 & L3 & R3 & F3). exists w3.
  cbn [uartputs]. unfold uartputc at 1. unfold mbind at 1, M_bind at 1. unfold mbind at 1, M_bind at 1. cbn [get uart negb].
  unfold mbind at 1, M_bind at 1. rewrite E1. unfold outb at 1, modify. cbn [uart dev]. rewrite u8_small by (unfold is_byte in Hc; lia).
  split_and!; [exact E3|rewrite L3, L2, L1, <- app_assoc; done|congruence|done].
Qed.

Lemma drain_ok k : forall n w,
  free n w -> (length (received w) < k)%nat ->
  exists w' n', drain k (MkSerial true w) = Ok (received w) (MkSerial true w') /\ line w' = line w /\ received w' = [] /\ free n' w'.
Proof.
  induction k as [|k IH]; intros n w Hf Hk; [lia|].
  destruct (status n w Hf) as (r & w1 & E & [L1 R1] & Hr & Hnext).
  assert (exists n1, free n1 w1) as [n1 F1] by (destruct Hnext as [[_ H]|(_ & n' & _ & H)]; eauto).
  cbn [drain]. unfold uartgetc at 1, inb at 1 2, mbind, M_bind. cbn [get uart negb dev]. rewrite E, Hr.
  destruct (received w) as [|c cs] eqn:Er.
  - rewrite bool_decide_false by tauto. cbn [negb]. change (-1 <? 0) with true. cbv iota. exists w1, n1. by split_and!.
  - rewrite bool_decide_true by done. cbn [negb dev].
    destruct (take n1 w1 c cs F1 ltac:(congruence)) as (w2 & E2 & L2 & R2 & F2 & Hpos). rewrite E2.
    rewrite (proj2 (Z.ltb_ge c 0)) by lia. destruct (IH n1 w2 F2) as (w3 & n3 & E3 & L3 & R3 & F3).
    { rewrite R2. cbn in Hk. lia. }
    cbn [uart]. rewrite E3, R2. exists w3, n3. split_and!; try done. congruence.
Qed.

(** the serial line loses nothing.  If the transmitter is free again within
    127 looks, a string put out with [uartputc] is sent byte for byte in
    order, and what comes in meanwhile stays; an interrupt hands every byte
    received, in order, to the line editor of the console and leaves none. *)
Theorem uart_transfers cs k i w :
  free patience w -> (patience < 128)%nat -> Forall is_byte cs -> (length (received w) < k)%nat ->
  exists w1 w2, uartputs cs (MkSerial true w) = Ok tt (MkSerial true w1) /\
    line w1 = line w ++ cs /\
    uartintr k i (MkSerial true w1) = Ok (Console.consoleintr (received w) i) (MkSerial true w2) /\
    received w2 = [] /\ line w2 = line w1.
Proof.
  intros Hf Hp Hc Hk. destruct (uartputs_ok cs w Hf Hp Hc) as (w1 & E1 & L1 & R1 & F1).
  destruct (drain_ok k _ w1 F1) as (w2 & n2 & E2 & L2 & R2 & _); [by rewrite R1|]. exists w1, w2. rewrite R1 in E2.
  unfold uartintr. rewrite (bind_ok _ _ _ _ _ E2). by split_and!.
Qed.
End transfer.

(** A line that is busy for three looks after each byte. *)
Record wire := MkWire { gone : list Z; waiting : list Z; left : nat }.

#[export] Instance wire_serial : Serial wire := {
  out port v w := if port =? COM1 then MkWire (gone w ++ [v]) (waiting w) 3 else w;
  inp port w :=
    if port =? COM1 then match waiting w with c :: cs => (c, MkWire (gone w) cs (left w)) | [] => (0, w) end
    else (Z.lor (if bool_decide (waiting w <> []) then 1 else 0) (if (left w =? 0)%nat then 0x20 else 0),
          MkWire (gone w) (waiting w) (pred (left w)));
  line := gone;
  received := waiting;
  patience := 3
}.

#[export] Instance wire_serial_ok : SerialOk wire.
Proof.
  refine {| free k w := (left w <= k)%nat /\ Forall (fun c => 0 <= c) (waiting w) |}.
  - intros k w [Hk Hw]. eexists _, _. split; [reflexivity|]. split; [done|]. cbn.
    destruct (left w) as [|j]; destruct (bool_decide _); (split; [done|]); cbn.
    1, 2: left; split; [done|]; split; [lia|done].
    all: right; split; [done|]; exists (k - 1)%nat; split; [lia|]; cbn; split; [lia|done].
  - intros w v [_ Hw] _. done.
  - intros k w c cs [Hk Hw] E. cbn in *. rewrite E in *. eexists. split; [reflexivity|]. apply Forall_cons in Hw as [Hc Hw]. done.
Defined.

Lemma uart_transfers_witness :
  exists w1 w2, uartputs (cbytes "ok") (MkSerial true (MkWire [] (cbytes "ls") 2)) = Ok tt (MkSerial true w1) /\
    line w1 = cbytes "ok" /\
    uartintr 3 (Console.MkInput (fun _ => 0) 0 0 0 []) (MkSerial true w1) =
      Ok (Console.consoleintr (cbytes "ls") (Console.MkInput (fun _ => 0) 0 0 0 [])) (MkSerial true w2) /\
    received w2 = [] /\ line w2 = line w1.
Proof.
  destruct (uart_transfers (cbytes "ok") 3 (Console.MkInput (fun _ => 0) 0 0 0 []) (MkWire [] (cbytes "ls") 2))
    as (w1 & w2 & E1 & L1 & E2 & R2 & L2).
  - split; [cbn; lia|]. repeat constructor; lia.
  - cbn. lia.
  - repeat constructor; unfold is_byte; lia.
  - cbn. lia.
  - exists w1, w2. split; [exact E1|]. split; [exact L1|]. split; [exact E2|]. split; [exact R2|exact L2].
Defined.
End Uart.
