(* ===== verification/X86.v ===== *)
(** * The processor

    What the x86 documents of the parts the kernel programs directly: bit
    fields of descriptors, the segment registers with the descriptors they
    were loaded from, the stack instructions, the entry of an interrupt
    through a gate and the return from it.  A violation of the protection
    rules is undefined here, except at the entry of an interrupt, where it is
    an answer.  Memory is the linear address space of the kernel, which every
    page table maps the same way. *)

From stdpp Require Import base numbers list strings.
From Stdlib Require Import ZArith Lia.
From S2P Require Import Prelude Frames.

Open Scope Z_scope.

(** ** Bit fields

    A [struct] of bit fields is laid out from the lowest bit up; a value is
    cut to the width of its field. *)

Fixpoint pack (l : list (Z * Z)) : Z :=
  match l with
  | [] => 0
  | (w, v) :: r => v mod 2 ^ w + 2 ^ w * pack r
  end.

Fixpoint width (l : list (Z * Z)) : Z :=
  match l with
  | [] => 0
  | (w, _) :: r => w + width r
  end.

Definition field (x lo w : Z) : Z := (x / 2 ^ lo) mod 2 ^ w.

Definition widths_ok (l : list (Z * Z)) : Prop := Forall (fun f => 0 <= f.1) l.

Lemma width_nonneg l : widths_ok l -> 0 <= width l.
Proof. induction 1 as [|[w v] l Hw _ IH]; cbn in *; lia. Qed.

Lemma pack_bounds l : widths_ok l -> 0 <= pack l < 2 ^ width l.
Proof.
  induction 1 as [|[w v] l Hw Hl IH]; cbn [pack width]; [lia|]. cbn in Hw.
  rewrite Z.pow_add_r by (try apply width_nonneg; done).
  pose proof (Z.mod_pos_bound v (2 ^ w) ltac:(apply Z.pow_pos_nonneg; lia)).
  assert (0 < 2 ^ w) by (apply Z.pow_pos_nonneg; lia). nia.
Qed.

Lemma field_skip w v r lo k : 0 <= w <= lo -> field (v mod 2 ^ w + 2 ^ w * r) lo k = field r (lo - w) k.
Proof.
  intros H. unfold field. f_equal. assert (0 < 2 ^ w) by (apply Z.pow_pos_nonneg; lia).
  replace lo with (w + (lo - w)) at 1 by lia. rewrite Z.pow_add_r by lia.
  assert (0 < 2 ^ (lo - w)) by (apply Z.pow_pos_nonneg; lia).
  rewrite <- Z.div_div by lia. f_equal.
  rewrite Z.add_comm, Z.mul_comm, Z.div_add_l by lia.
  rewrite (Z.div_small (v mod 2 ^ w)); [lia|]. by apply Z.mod_pos_bound.
Qed.

Lemma field_head w v r : 0 <= w -> field (v mod 2 ^ w + 2 ^ w * r) 0 w = v mod 2 ^ w.
Proof.
  intros H. unfold field. assert (0 < 2 ^ w) by (apply Z.pow_pos_nonneg; lia).
  change (2 ^ 0) with 1. rewrite Z.div_1_r, (Z.mul_comm (2 ^ w)), Z.mod_add by lia. by rewrite Z.mod_mod by lia.
Qed.

(** Reading a field of a packed value gives what was put there. *)
Lemma field_pack l1 w v l2 :
  widths_ok l1 -> 0 <= w -> field (pack (l1 ++ (w, v) :: l2)) (width l1) w = v mod 2 ^ w.
Proof.
  intros H Hw. induction H as [|[w1 v1] l1 H1 Hl IH]; cbn [app pack width].
  - by apply field_head.
  - cbn in H1. rewrite field_skip by (pose proof (width_nonneg _ Hl); lia).
    by replace (w1 + width l1 - w1) with (width l1) by lia.
Qed.

(** A field that spans two neighbours. *)
Lemma field_pack_two l1 w1 v1 w2 v2 l2 :
  widths_ok l1 -> 0 <= w1 -> 0 <= w2 ->
  field (pack (l1 ++ (w1, v1) :: (w2, v2) :: l2)) (width l1) (w1 + w2) = v1 mod 2 ^ w1 + 2 ^ w1 * (v2 mod 2 ^ w2).
Proof.
  intros H H1 H2.
  assert (E : pack (l1 ++ (w1, v1) :: (w2, v2) :: l2) = pack (l1 ++ (w1 + w2, v1 mod 2 ^ w1 + 2 ^ w1 * (v2 mod 2 ^ w2)) :: l2)).
  { assert (0 < 2 ^ w1) by (apply Z.pow_pos_nonneg; lia). assert (0 < 2 ^ w2) by (apply Z.pow_pos_nonneg; lia).
    pose proof (Z.mod_pos_bound v1 (2 ^ w1) ltac:(lia)). pose proof (Z.mod_pos_bound v2 (2 ^ w2) ltac:(lia)).
    clear H. induction l1 as [|[w v] l1 IH]; cbn [app pack]; [|congruence].
    rewrite Z.pow_add_r by lia. rewrite (Z.mod_small (_ + _)) by nia. ring. }
  rewrite E, field_pack by (done || lia). assert (0 < 2 ^ w1) by (apply Z.pow_pos_nonneg; lia).
  assert (0 < 2 ^ w2) by (apply Z.pow_pos_nonneg; lia).
  pose proof (Z.mod_pos_bound v1 (2 ^ w1) ltac:(lia)). pose proof (Z.mod_pos_bound v2 (2 ^ w2) ltac:(lia)).
  rewrite Z.pow_add_r by lia. apply Z.mod_small. nia.
Qed.

(** ** 64-bit descriptors in memory *)

Definition load64 (m : mem) (a : Z) : Z := load32 m a + 2 ^ 32 * load32 m (a + 4).
Definition store64 (m : mem) (a v : Z) : mem := store32 (store32 m a v) (a + 4) (v / 2 ^ 32).

Lemma load64_store64_eq m a v : 0 <= v < 2 ^ 64 -> load64 (store64 m a v) a = v.
Proof.
  intros H. unfold load64, store64.
  rewrite load32_store32_ne, !load32_store32_eq by lia. unfold u32.
  rewrite (Z.mod_small (v / 2 ^ 32)) by (apply Z.div_lt_upper_bound || split; try apply Z.div_pos; lia || (apply Z.div_lt_upper_bound; lia)).
  pose proof (Z.div_mod v (2 ^ 32)). lia.
Qed.

Lemma store64_ne m a v x : x < a \/ a + 8 <= x -> store64 m a v x = m x.
Proof. intros H. unfold store64. by rewrite !store32_ne by lia. Qed.

Lemma load32_ext m m' a : (forall x, a <= x < a + 4 -> m' x = m x) -> load32 m' a = load32 m a.
Proof. intros H. unfold load32. by rewrite !H by lia. Qed.

Lemma load64_ext m m' a : (forall x, a <= x < a + 8 -> m' x = m x) -> load64 m' a = load64 m a.
Proof. intros H. unfold load64. by rewrite !(load32_ext m m') by (intros; apply H; lia). Qed.

Lemma load64_store64_ne m a b v : b + 8 <= a \/ a + 8 <= b -> load64 (store64 m a v) b = load64 m b.
Proof. intros H. apply load64_ext. intros. apply store64_ne. lia. Qed.

(** A descriptor of a segment as the processor reads it. *)
Record desc := MkDesc { d_base : Z; d_limit : Z; d_type : Z; d_s : Z; d_dpl : Z; d_p : Z }.

Definition decode (x : Z) : desc :=
  let lim := field x 0 16 + 2 ^ 16 * field x 48 4 in
  MkDesc (field x 16 24 + 2 ^ 24 * field x 56 8)
    (if field x 55 1 =? 1 then lim * 4096 + 4095 else lim)
    (field x 40 4) (field x 44 1) (field x 45 2) (field x 47 1).

Definition is_code (d : desc) : bool := (d_s d =? 1) && Z.testbit (d_type d) 3.
Definition is_conforming (d : desc) : bool := Z.testbit (d_type d) 2.
Definition is_readable (d : desc) : bool := (d_s d =? 1) && (negb (Z.testbit (d_type d) 3) || Z.testbit (d_type d) 1).
Definition is_writable (d : desc) : bool := (d_s d =? 1) && negb (Z.testbit (d_type d) 3) && Z.testbit (d_type d) 1.

(** A gate of the interrupt table. *)
Record gate := MkGate { g_off : Z; g_sel : Z; g_type : Z; g_s : Z; g_dpl : Z; g_p : Z }.

Definition decode_gate (x : Z) : gate :=
  MkGate (field x 0 16 + 2 ^ 16 * field x 48 16) (field x 16 16) (field x 40 4) (field x 44 1) (field x 45 2) (field x 47 1).

(** ** The machine *)

(** In the order [pushal] stores them. *)
Inductive reg := EAX | ECX | EDX | EBX | ESP | EBP | ESI | EDI.
Inductive sreg := CS | SS | DS | ES | FS | GS.

(** A segment register: the selector, and what was loaded with it.  The limit
    of a null segment is [-1], so that nothing can be accessed through it. *)
Record segment := MkSegment { sg_sel : Z; sg_base : Z; sg_limit : Z; sg_dpl : Z }.

Definition null_segment (sel : Z) : segment := MkSegment sel 0 (-1) 3.

Record regs := MkRegs { eax : Z; ecx : Z; edx : Z; ebx : Z; esp : Z; ebp : Z; esi : Z; edi : Z }.
Record sregs := MkSregs { cs : segment; ss : segment; ds : segment; es : segment; fs : segment; gs : segment }.

Definition rget (g : regs) (r : reg) : Z :=
  match r with
  | EAX => eax g | ECX => ecx g | EDX => edx g | EBX => ebx g
  | ESP => esp g | EBP => ebp g | ESI => esi g | EDI => edi g
  end.

Definition rset (g : regs) (r : reg) (v : Z) : regs :=
  let '(MkRegs a c d b sp bp si di) := g in
  match r with
  | EAX => MkRegs v c d b sp bp si di | ECX => MkRegs a v d b sp bp si di
  | EDX => MkRegs a c v b sp bp si di | EBX => MkRegs a c d v sp bp si di
  | ESP => MkRegs a c d b v bp si di | EBP => MkRegs a c d b sp v si di
  | ESI => MkRegs a c d b sp bp v di | EDI => MkRegs a c d b sp bp si v
  end.

Definition sget (g : sregs) (r : sreg) : segment :=
  match r with CS => cs g | SS => ss g | DS => ds g | ES => es g | FS => fs g | GS => gs g end.

Definition sset (g : sregs) (r : sreg) (v : segment) : sregs :=
  let '(MkSregs c s d e f h) := g in
  match r with
  | CS => MkSregs v s d e f h | SS => MkSregs c v d e f h | DS => MkSregs c s v e f h
  | ES => MkSregs c s d v f h | FS => MkSregs c s d e v h | GS => MkSregs c s d e f v
  end.

Record x86 := MkX86 {
  gpr : regs;
  sr : sregs;
  eip : Z;
  eflags : Z;
  cr3 : Z;
  gdtr : Z * Z;
  idtr : Z * Z;
  tr : segment;
  memory : mem }.

Definition set_gpr (f : regs) (s : x86) : x86 :=
  MkX86 f (sr s) (eip s) (eflags s) (cr3 s) (gdtr s) (idtr s) (tr s) (memory s).
Definition set_sr (f : sregs) (s : x86) : x86 :=
  MkX86 (gpr s) f (eip s) (eflags s) (cr3 s) (gdtr s) (idtr s) (tr s) (memory s).
Definition set_eip (v : Z) (s : x86) : x86 :=
  MkX86 (gpr s) (sr s) v (eflags s) (cr3 s) (gdtr s) (idtr s) (tr s) (memory s).
Definition set_eflags (v : Z) (s : x86) : x86 :=
  MkX86 (gpr s) (sr s) (eip s) v (cr3 s) (gdtr s) (idtr s) (tr s) (memory s).
Definition set_cr3 (v : Z) (s : x86) : x86 :=
  MkX86 (gpr s) (sr s) (eip s) (eflags s) v (gdtr s) (idtr s) (tr s) (memory s).
Definition set_gdtr (v : Z * Z) (s : x86) : x86 :=
  MkX86 (gpr s) (sr s) (eip s) (eflags s) (cr3 s) v (idtr s) (tr s) (memory s).
Definition set_idtr (v : Z * Z) (s : x86) : x86 :=
  MkX86 (gpr s) (sr s) (eip s) (eflags s) (cr3 s) (gdtr s) v (tr s) (memory s).
Definition set_tr (v : segment) (s : x86) : x86 :=
  MkX86 (gpr s) (sr s) (eip s) (eflags s) (cr3 s) (gdtr s) (idtr s) v (memory s).
Definition set_memory (m : mem) (s : x86) : x86 :=
  MkX86 (gpr s) (sr s) (eip s) (eflags s) (cr3 s) (gdtr s) (idtr s) (tr s) m.

(** The privilege level is that of the code that runs. *)
Definition cpl (s : x86) : Z := sg_sel (cs (sr s)) mod 4.

Definition geti (r : reg) : M x86 Z := reads (fun s => rget (gpr s) r).
Definition seti (r : reg) (v : Z) : M x86 unit := modify (fun s => set_gpr (rset (gpr s) r v) s).

(** *** Memory through a segment *)

Definition lin (r : sreg) (off : Z) : M x86 Z :=
  g ← reads (fun s => sget (sr s) r);
  if off + 3 <=? sg_limit g then mret (u32 (sg_base g + off)) else undef "#GP".

Definition mov_from (r : sreg) (off : Z) : M x86 Z :=
  a ← lin r off; reads (fun s => load32 (memory s) a).
Definition mov_to (r : sreg) (off v : Z) : M x86 unit :=
  a ← lin r off; modify (fun s => set_memory (store32 (memory s) a v) s).

Definition pushl (v : Z) : M x86 unit :=
  sp ← geti ESP;
  mov_to SS (u32 (sp - 4)) v;;
  seti ESP (u32 (sp - 4)).

Definition popl : M x86 Z :=
  sp ← geti ESP;
  v ← mov_from SS sp;
  seti ESP (u32 (sp + 4));;
  mret v.

Fixpoint pushes (vs : list Z) : M x86 unit :=
  match vs with
  | [] => mret tt
  | v :: vs => pushl v;; pushes vs
  end.

(** [pushal] stores [%esp] as it was before. *)
Definition pushal : M x86 unit :=
  s ← get (S := x86);
  pushes [eax (gpr s); ecx (gpr s); edx (gpr s); ebx (gpr s); esp (gpr s); ebp (gpr s); esi (gpr s); edi (gpr s)].

(** [popal] leaves the saved [%esp] alone. *)
Definition popal : M x86 unit :=
  edi ← popl; seti EDI edi;;
  esi ← popl; seti ESI esi;;
  ebp ← popl; seti EBP ebp;;
  popl;;
  ebx ← popl; seti EBX ebx;;
  edx ← popl; seti EDX edx;;
  ecx ← popl; seti ECX ecx;;
  eax ← popl; seti EAX eax.

Definition ret : M x86 unit := a ← popl; modify (set_eip a).

(** A call: the code [f] of the routine, which has to come back to [here], the
    address behind the call. *)
Definition call (here : Z) (f : M x86 unit) : M x86 unit :=
  pushl here;;
  f;;
  a ← reads eip;
  if a =? here then mret tt else undef "returns elsewhere".

(** *** Segments *)

(** The descriptor a selector names; [None] for a selector of the null
    segment, of a local table or beyond the limit of the table. *)
Definition descriptor (s : x86) (sel : Z) : option desc :=
  if (sel / 4 =? 0) || Z.testbit sel 2 || ((gdtr s).2 <? sel / 8 * 8 + 7) then None
  else Some (decode (load64 (memory s) ((gdtr s).1 + sel / 8 * 8))).

Definition load_sreg (r : sreg) (sel : Z) : M x86 unit :=
  s ← get (S := x86);
  let put g := modify (fun s => set_sr (sset (sr s) r g) s) in
  if sel / 4 =? 0 then put (null_segment sel) else
  match descriptor s sel with
  | None => undef "#GP"
  | Some d =>
      if is_readable d && (cpl s <=? d_dpl d) && (sel mod 4 <=? d_dpl d) && (d_p d =? 1)
      then put (MkSegment sel (d_base d) (d_limit d) (d_dpl d))
      else undef "#GP"
  end.

(** [ltr] needs an available task state and marks it busy. *)
Definition STS_T32A : Z := 9.

Definition ltr (sel : Z) : M x86 unit :=
  s ← get (S := x86);
  match descriptor s sel with
  | None => undef "#GP"
  | Some d =>
      if (d_s d =? 0) && (d_type d =? STS_T32A) && (d_p d =? 1) then
        modify (set_tr (MkSegment sel (d_base d) (d_limit d) (d_dpl d)));;
        modify (fun s => let a := (gdtr s).1 + sel / 8 * 8 + 5 in set_memory (upd (memory s) a (Z.lor (memory s a) 2)) s)
      else undef "#GP"
  end.

(** *** Interrupts *)

Definition FL_IF : Z := 0x200.
Definition STS_IG32 : Z := 14.
Definition STS_TG32 : Z := 15.

(** The flags an entry clears: the trap, nested task, resume and virtual mode
    flags, and the interrupt flag when the gate is an interrupt gate. *)
Definition entry_flags (ty fl : Z) : Z :=
  Z.land (if ty =? STS_IG32 then Z.ldiff fl FL_IF else fl) (Z.lnot 0x34100).

(** The stack for privilege level [l], from the task state. *)
Definition ring_stack (s : x86) (l : Z) : option (segment * Z) :=
  let a := sg_base (tr s) + 8 * l + 4 in
  let sel := load32 (memory s) (a + 4) mod 2 ^ 16 in
  if sg_limit (tr s) <? 8 * l + 9 then None else
  match descriptor s sel with
  | None => None
  | Some d =>
      if is_writable d && (d_dpl d =? l) && (sel mod 4 =? l) && (d_p d =? 1)
      then Some (MkSegment sel (d_base d) (d_limit d) (d_dpl d), load32 (memory s) a) else None
  end.

(** Where the gate of interrupt [n] leads: the gate, its code segment, and the
    new stack when the privilege level changes.  [None] when the processor
    refuses; [soft] is an [int] instruction, which the level of the gate must
    allow. *)
Definition gate_to (s : x86) (soft : bool) (n : Z) : option (gate * segment * option (segment * Z)) :=
  if (idtr s).2 <? 8 * n + 7 then None else
  let g := decode_gate (load64 (memory s) ((idtr s).1 + 8 * n)) in
  if negb ((g_s g =? 0) && ((g_type g =? STS_IG32) || (g_type g =? STS_TG32)) && (g_p g =? 1)) then None else
  if soft && (g_dpl g <? cpl s) then None else
  match descriptor s (g_sel g) with
  | None => None
  | Some d =>
      if negb (is_code d && (d_p d =? 1) && (d_dpl d <=? cpl s)) then None else
      let lev := if is_conforming d then cpl s else d_dpl d in
      let code := MkSegment (g_sel g / 4 * 4 + lev) (d_base d) (d_limit d) (d_dpl d) in
      if lev <? cpl s then
        match ring_stack s lev with
        | None => None
        | Some st => Some (g, code, Some st)
        end
      else Some (g, code, None)
  end.

(** Entering interrupt [n]: [back] is the address to return to, [err] the error
    code of those exceptions that have one. *)
Definition enter (soft : bool) (n back : Z) (err : option Z) : M x86 bool :=
  s ← get (S := x86);
  match gate_to s soft n with
  | None => mret false
  | Some (g, code, st) =>
      match st with
      | None => mret tt
      | Some (stk, sp) =>
          modify (fun s => set_sr (sset (sr s) SS stk) s);;
          seti ESP sp;;
          pushes [sg_sel (ss (sr s)); esp (gpr s)]
      end;;
      pushes [eflags s; sg_sel (cs (sr s)); back];;
      match err with None => mret tt | Some e => pushl e end;;
      modify (fun s => set_sr (sset (sr s) CS code) s);;
      modify (set_eflags (entry_flags (g_type g) (eflags s)));;
      modify (set_eip (g_off g));;
      mret true
  end.

(** The [int] instruction at [%eip], two bytes long; when it is refused, the
    general protection exception at the instruction.  Gives the interrupt
    entered. *)
Definition int_ (n : Z) : M x86 Z :=
  pc ← reads eip;
  ok ← enter true n (u32 (pc + 2)) None;
  if (ok : bool) then mret n else
  ok ← enter false 13 pc (Some (8 * n + 2));
  if (ok : bool) then mret 13 else undef "double fault".

(** A return to a lower privilege makes the segments unusable that only the
    higher one may use. *)
Definition keep_segment (l : Z) (g : segment) : segment := if sg_dpl g <? l then null_segment 0 else g.

Definition iret : M x86 unit :=
  s ← get (S := x86);
  pc ← popl;
  sel ← popl;
  fl ← popl;
  let sel := sel mod 2 ^ 16 in
  match descriptor s sel with
  | None => undef "#GP"
  | Some d =>
      if negb (is_code d && (d_p d =? 1) && (cpl s <=? sel mod 4) &&
               (if is_conforming d then d_dpl d <=? sel mod 4 else d_dpl d =? sel mod 4)) then undef "#GP" else
      let code := MkSegment sel (d_base d) (d_limit d) (d_dpl d) in
      (if cpl s <? sel mod 4 then
         sp ← popl;
         sel2 ← popl;
         let sel2 := sel2 mod 2 ^ 16 in
         match descriptor s sel2 with
         | None => undef "#GP"
         | Some e =>
             if negb (is_writable e && (d_p e =? 1) && (sel2 mod 4 =? sel mod 4) && (d_dpl e =? sel mod 4)) then undef "#GP" else
             seti ESP sp;;
             modify (fun s => let keep := keep_segment (sel mod 4) in
               set_sr (MkSregs (cs (sr s)) (MkSegment sel2 (d_base e) (d_limit e) (d_dpl e))
                 (keep (ds (sr s))) (keep (es (sr s))) (keep (fs (sr s))) (keep (gs (sr s)))) s)
         end
       else mret tt);;
      modify (fun s => set_sr (sset (sr s) CS code) s);;
      modify (set_eflags (if cpl s =? 0 then fl else Z.lor (Z.ldiff fl 0x3200) (Z.land (eflags s) 0x3200)));;
      modify (set_eip pc)
  end.

(** ** The stack *)

Definition flat (g : segment) : Prop := sg_base g = 0 /\ sg_limit g = 0xffffffff.
Definition word (v : Z) : Prop := 0 <= v < 2 ^ 32.

Lemma lin_flat r off s : flat (sget (sr s) r) -> 0 <= off <= 2 ^ 32 - 4 -> lin r off s = Ok off s.
Proof.
  intros [Hb Hl] Ho. unfold lin. munfold. rewrite Hb, Hl. zdec. by rewrite Z.add_0_l, u32_small by lia.
Qed.

Lemma lin_ok r off s :
  off + 3 <= sg_limit (sget (sr s) r) -> lin r off s = Ok (u32 (sg_base (sget (sr s) r) + off)) s.
Proof. intros H. unfold lin. munfold. by rewrite (proj2 (Z.leb_le _ _) H). Qed.

Lemma mov_to_ok r off v s :
  off + 3 <= sg_limit (sget (sr s) r) ->
  mov_to r off v s = Ok tt (set_memory (store32 (memory s) (u32 (sg_base (sget (sr s) r) + off)) v) s).
Proof. intros H. unfold mov_to. by rewrite (bind_ok _ _ _ _ _ (lin_ok r off s H)). Qed.

Lemma mov_from_ok r off s :
  off + 3 <= sg_limit (sget (sr s) r) ->
  mov_from r off s = Ok (load32 (memory s) (u32 (sg_base (sget (sr s) r) + off))) s.
Proof. intros H. unfold mov_from. by rewrite (bind_ok _ _ _ _ _ (lin_ok r off s H)). Qed.

Lemma mov_from_flat r off s :
  flat (sget (sr s) r) -> 0 <= off <= 2 ^ 32 - 4 -> mov_from r off s = Ok (load32 (memory s) off) s.
Proof. intros Hf Ho. unfold mov_from. by rewrite (bind_ok _ _ _ _ _ (lin_flat r off s Hf Ho)). Qed.

Lemma mov_to_flat r off v s :
  flat (sget (sr s) r) -> 0 <= off <= 2 ^ 32 - 4 ->
  mov_to r off v s = Ok tt (set_memory (store32 (memory s) off v) s).
Proof. intros Hf Ho. unfold mov_to. by rewrite (bind_ok _ _ _ _ _ (lin_flat r off s Hf Ho)). Qed.

(** Memory after pushing [vs] below [sp]. *)
Fixpoint push_mem (m : mem) (sp : Z) (vs : list Z) : mem :=
  match vs with
  | [] => m
  | v :: vs => push_mem (store32 m (sp - 4) v) (sp - 4) vs
  end.

(** Consecutive words from [a]. *)
Fixpoint words_at (m : mem) (a : Z) (ws : list Z) : Prop :=
  match ws with
  | [] => True
  | w :: ws => load32 m a = w /\ words_at m (a + 4) ws
  end.

Lemma rset_rset g r v w : rset (rset g r v) r w = rset g r w.
Proof. by destruct g, r. Qed.

Lemma rget_rset g r v : rget (rset g r v) r = v.
Proof. by destruct g, r. Qed.

Lemma sget_sset g r v : sget (sset g r v) r = v.
Proof. by destruct g, r. Qed.

Lemma sget_sset_ne g r r' v : r <> r' -> sget (sset g r v) r' = sget g r'.
Proof. by destruct g, r, r'. Qed.

Lemma esp_rset g v : esp (rset g ESP v) = v.
Proof. by destruct g. Qed.

Lemma pushl_ok v s :
  flat (ss (sr s)) -> 4 <= esp (gpr s) < 2 ^ 32 ->
  pushl v s = Ok tt (set_gpr (rset (gpr s) ESP (esp (gpr s) - 4)) (set_memory (store32 (memory s) (esp (gpr s) - 4) v) s)).
Proof.
  intros Hf He. unfold pushl, geti. rewrite (bind_ok (reads _) _ _ _ _ eq_refl). cbn [rget].
  rewrite (u32_small (_ - 4)) by lia. by rewrite (bind_ok _ _ _ _ _ (mov_to_flat SS (esp (gpr s) - 4) v s Hf ltac:(lia))).
Qed.

Lemma popl_ok s :
  flat (ss (sr s)) -> 0 <= esp (gpr s) -> esp (gpr s) + 4 < 2 ^ 32 ->
  popl s = Ok (load32 (memory s) (esp (gpr s))) (set_gpr (rset (gpr s) ESP (esp (gpr s) + 4)) s).
Proof.
  intros Hf H0 H1. unfold popl, geti. rewrite (bind_ok (reads _) _ _ _ _ eq_refl). cbn [rget].
  rewrite (bind_ok _ _ _ _ _ (mov_from_flat SS (esp (gpr s)) s Hf ltac:(lia))).
  unfold seti. munfold. by rewrite (u32_small (_ + 4)) by lia.
Qed.

Lemma pushes_ok vs s :
  flat (ss (sr s)) -> 4 * Z.of_nat (length vs) <= esp (gpr s) < 2 ^ 32 ->
  pushes vs s = Ok tt (set_gpr (rset (gpr s) ESP (esp (gpr s) - 4 * Z.of_nat (length vs)))
    (set_memory (push_mem (memory s) (esp (gpr s)) vs) s)).
Proof.
  revert s. induction vs as [|v vs IH]; intros s Hf He; cbn [pushes push_mem length] in *.
  - destruct s as [[] ? ? ? ? ? ? ? ?]. cbn. by rewrite Z.sub_0_r.
  - rewrite (bind_ok _ _ _ _ _ (pushl_ok v s Hf ltac:(lia))). rewrite IH; [|done|cbn [gpr set_gpr set_memory]; rewrite esp_rset; lia].
    cbn [gpr set_gpr set_memory memory]. rewrite !esp_rset, rset_rset.
    by replace (esp (gpr s) - 4 - 4 * Z.of_nat (length vs)) with (esp (gpr s) - 4 * Z.of_nat (S (length vs))) by lia.
Qed.

Lemma push_mem_ne m sp vs x :
  x < sp - 4 * Z.of_nat (length vs) \/ sp <= x -> push_mem m sp vs x = m x.
Proof.
  revert m sp. induction vs as [|v vs IH]; intros m sp H; cbn [push_mem length] in *; [done|].
  rewrite IH by lia. apply store32_ne. lia.
Qed.

Lemma words_at_app m a l1 l2 :
  words_at m a (l1 ++ l2) <-> words_at m a l1 /\ words_at m (a + 4 * Z.of_nat (length l1)) l2.
Proof.
  revert a. induction l1 as [|w l1 IH]; intros a; cbn [app words_at length].
  - replace (a + 4 * Z.of_nat 0) with a by lia. tauto.
  - rewrite IH. replace (a + 4 + 4 * Z.of_nat (length l1)) with (a + 4 * Z.of_nat (S (length l1))) by lia. tauto.
Qed.

Lemma words_at_ext m m' a l :
  (forall x, a <= x < a + 4 * Z.of_nat (length l) -> m' x = m x) -> words_at m a l -> words_at m' a l.
Proof.
  revert a. induction l as [|w l IH]; intros a H; cbn [words_at length] in *; [done|]. intros [<- Hl].
  split; [apply load32_ext; intros; apply H; lia|]. apply IH; [|done]. intros. apply H. lia.
Qed.

(** What was pushed lies below the old top, the last word first. *)
Lemma words_at_push m sp vs :
  Forall word vs -> words_at (push_mem m sp vs) (sp - 4 * Z.of_nat (length vs)) (rev vs).
Proof.
  intros H. revert m sp. induction H as [|v vs Hv Hvs IH]; intros m sp; [done|]. cbn [push_mem length rev].
  rewrite words_at_app. replace (sp - 4 * Z.of_nat (S (length vs))) with (sp - 4 - 4 * Z.of_nat (length vs)) by lia.
  split; [apply IH|]. rewrite length_rev. cbn [words_at]. split; [|done].
  replace (sp - 4 - 4 * Z.of_nat (length vs) + 4 * Z.of_nat (length vs)) with (sp - 4) by lia.
  erewrite load32_ext; [rewrite load32_store32_eq; by apply u32_small|]. intros x Hx. apply push_mem_ne. lia.
Qed.

Lemma push_mem_app m sp l1 l2 :
  push_mem m sp (l1 ++ l2) = push_mem (push_mem m sp l1) (sp - 4 * Z.of_nat (length l1)) l2.
Proof.
  revert m sp. induction l1 as [|v l1 IH]; intros m sp; cbn [app push_mem length].
  - by replace (sp - 4 * Z.of_nat 0) with sp by lia.
  - rewrite IH. by replace (sp - 4 - 4 * Z.of_nat (length l1)) with (sp - 4 * Z.of_nat (S (length l1))) by lia.
Qed.

(** The machine after pushing [vs] with the stack at [sp]. *)
Definition pushed (vs : list Z) (sp : Z) (s : x86) : x86 :=
  set_gpr (rset (gpr s) ESP (sp - 4 * Z.of_nat (length vs))) (set_memory (push_mem (memory s) sp vs) s).

Lemma pushes_pushed vs sp s :
  flat (ss (sr s)) -> esp (gpr s) = sp -> 4 * Z.of_nat (length vs) <= sp < 2 ^ 32 -> pushes vs s = Ok tt (pushed vs sp s).
Proof. intros Hf <- He. by rewrite pushes_ok. Qed.

Lemma pushes_more l1 l2 sp s :
  flat (ss (sr s)) -> 4 * Z.of_nat (length (l1 ++ l2)) <= sp < 2 ^ 32 ->
  pushes l2 (pushed l1 sp s) = Ok tt (pushed (l1 ++ l2) sp s).
Proof.
  rewrite length_app. intros Hf He. rewrite (pushes_pushed l2 (sp - 4 * Z.of_nat (length l1))); [|done|apply esp_rset|lia].
  unfold pushed. cbn [gpr set_gpr set_memory memory]. rewrite rset_rset, push_mem_app, length_app.
  by replace (sp - 4 * Z.of_nat (length l1) - 4 * Z.of_nat (length l2)) with (sp - 4 * Z.of_nat (length l1 + length l2)) by lia.
Qed.

Lemma pushed_nil s : pushed [] (esp (gpr s)) s = s.
Proof. destruct s as [[] ? ? ? ? ? ? ? ?]. unfold pushed. cbn. by rewrite Z.sub_0_r. Qed.

Lemma enter_refused soft n back err s : gate_to s soft n = None -> enter soft n back err s = Ok false s.
Proof. intros H. unfold enter. by rewrite (bind_ok get _ _ _ _ eq_refl), H. Qed.

(** The part of an entry that is the same on both stacks. *)
Lemma enter_rest l ws err sp s code fl off :
  flat (ss (sr s)) -> 4 * Z.of_nat (length (l ++ ws) + 1) <= sp < 2 ^ 32 ->
  (pushes ws;;
   match err with None => mret tt | Some e => pushl e end;;
   modify (fun s => set_sr (sset (sr s) CS code) s);;
   modify (set_eflags fl);;
   modify (set_eip off);;
   mret true) (pushed l sp s)
  = Ok true (set_eip off (set_eflags fl (set_sr (sset (sr s) CS code)
      (pushed (l ++ ws ++ match err with None => [] | Some e => [e] end) sp s)))).
Proof.
  intros Hf He. rewrite (bind_ok _ _ _ _ _ (pushes_more l ws sp s Hf ltac:(lia))). destruct err as [e|].
  - assert (Ee : pushl e (pushed (l ++ ws) sp s) = Ok tt (pushed (l ++ ws ++ [e]) sp s)).
    { rewrite app_assoc, <- (pushes_more (l ++ ws) [e]); [|done|rewrite length_app; cbn [length]; lia].
      cbn [pushes]. munfold. by destruct (pushl _ _) as [[]| | | |]. }
    by rewrite (bind_ok _ _ _ _ _ Ee).
  - by rewrite app_nil_r.
Qed.
