(* ===== verification/Segments.v ===== *)
(** * Segments and gates (HW3/mmu.h, HW3/vm.c, HW3/trap.c, HW3/x86.h, HW3/proc.h)

    The descriptor tables of a CPU as [seginit], [tvinit], [idtinit] and
    [switchuvm] build them in memory, byte by byte, and what the processor
    then does when user code is interrupted or asks for the kernel: it enters
    at the vector, at the highest privilege, on the kernel stack of the
    process that runs, and only the gate of the system calls can be asked for
    by an instruction. *)

From stdpp Require Import base numbers list strings.
From Stdlib Require Import ZArith Lia.
From S2P Require Import Prelude Frames X86 Spinlock.

Open Scope Z_scope.

(** ** Descriptors (mmu.h) *)

Definition SEG_KCODE : Z := 1.
Definition SEG_KDATA : Z := 2.
Definition SEG_KCPU : Z := 3.
Definition SEG_UCODE : Z := 4.
Definition SEG_UDATA : Z := 5.
Definition SEG_TSS : Z := 6.
Definition NSEGS : Z := 7.

Definition DPL_USER : Z := 3.
Definition STA_X : Z := 0x8.
Definition STA_W : Z := 0x2.
Definition STA_R : Z := 0x2.

Definition T_SYSCALL : Z := 64.

Record segdesc := MkSegdesc {
  lim_15_0 : Z; base_15_0 : Z; base_23_16 : Z; sd_type : Z; sd_s : Z; sd_dpl : Z; sd_p : Z;
  lim_19_16 : Z; sd_avl : Z; sd_rsv1 : Z; sd_db : Z; sd_g : Z; base_31_24 : Z }.

Definition segdesc_bits (d : segdesc) : Z :=
  pack [(16, lim_15_0 d); (16, base_15_0 d); (8, base_23_16 d); (4, sd_type d); (1, sd_s d); (2, sd_dpl d); (1, sd_p d);
        (4, lim_19_16 d); (1, sd_avl d); (1, sd_rsv1 d); (1, sd_db d); (1, sd_g d); (8, base_31_24 d)].

Definition SEG (type base lim dpl : Z) : segdesc :=
  MkSegdesc (Z.land (Z.shiftr lim 12) 0xffff) (Z.land (u32 base) 0xffff)
    (Z.land (Z.shiftr (u32 base) 16) 0xff) type 1 dpl 1
    (Z.shiftr (u32 lim) 28) 0 0 1 1 (Z.shiftr (u32 base) 24).

Definition SEG16 (type base lim dpl : Z) : segdesc :=
  MkSegdesc (Z.land lim 0xffff) (Z.land (u32 base) 0xffff)
    (Z.land (Z.shiftr (u32 base) 16) 0xff) type 1 dpl 1
    (Z.shiftr (u32 lim) 16) 0 0 1 0 (Z.shiftr (u32 base) 24).

Definition set_sd_s (v : Z) (d : segdesc) : segdesc :=
  MkSegdesc (lim_15_0 d) (base_15_0 d) (base_23_16 d) (sd_type d) v (sd_dpl d) (sd_p d)
    (lim_19_16 d) (sd_avl d) (sd_rsv1 d) (sd_db d) (sd_g d) (base_31_24 d).

Record gatedesc := MkGatedesc {
  off_15_0 : Z; gd_cs : Z; gd_args : Z; gd_rsv1 : Z; gd_type : Z; gd_s : Z; gd_dpl : Z; gd_p : Z; off_31_16 : Z }.

Definition gatedesc_bits (g : gatedesc) : Z :=
  pack [(16, off_15_0 g); (16, gd_cs g); (5, gd_args g); (3, gd_rsv1 g); (4, gd_type g); (1, gd_s g); (2, gd_dpl g); (1, gd_p g);
        (16, off_31_16 g)].

(** [SETGATE] assigns every field of the gate. *)
Definition SETGATE (istrap : bool) (sel off d : Z) : gatedesc :=
  MkGatedesc (Z.land (u32 off) 0xffff) sel 0 0 (if istrap then STS_TG32 else STS_IG32) 0 d 1 (Z.shiftr (u32 off) 16).

(** ** Structures in memory

    The fields of a [struct] in order, with their sizes; padding is written
    out. *)

Fixpoint offset (fields : list (string * Z)) (name : string) : Z :=
  match fields with
  | [] => 0
  | (f, n) :: rest => if String.eqb f name then 0 else n + offset rest name
  end.

Fixpoint sizeof (fields : list (string * Z)) : Z :=
  match fields with
  | [] => 0
  | (_, n) :: rest => n + sizeof rest
  end.

Definition taskstate : list (string * Z) :=
  [("link", 4); ("esp0", 4); ("ss0", 2); ("padding1", 2); ("esp1", 4); ("ss1", 2); ("padding2", 2);
   ("esp2", 4); ("ss2", 2); ("padding3", 2); ("cr3", 4); ("eip", 4); ("eflags", 4);
   ("eax", 4); ("ecx", 4); ("edx", 4); ("ebx", 4); ("esp", 4); ("ebp", 4); ("esi", 4); ("edi", 4);
   ("es", 2); ("padding4", 2); ("cs", 2); ("padding5", 2); ("ss", 2); ("padding6", 2); ("ds", 2); ("padding7", 2);
   ("fs", 2); ("padding8", 2); ("gs", 2); ("padding9", 2); ("ldt", 2); ("padding10", 2); ("t", 2); ("iomb", 2)].

(** [struct cpu] of proc.h. *)
Definition cpu_struct : list (string * Z) :=
  [("id", 1); ("padding", 3); ("scheduler", 4); ("ts", sizeof taskstate); ("gdt", 8 * NSEGS); ("started", 4);
   ("ncli", 4); ("intena", 4); ("cpu", 4); ("proc", 4)].

(** The first fields of [struct proc]. *)
Definition proc_struct : list (string * Z) := [("sz", 4); ("pgdir", 4); ("kstack", 4)].

Definition KSTACKSIZE : Z := 4096.

Definition store16 (m : mem) (a v : Z) : mem := upd (upd m a (u8 v)) (a + 1) (u8 (Z.shiftr v 8)).

Definition put_seg (a : Z) (d : segdesc) : M x86 unit :=
  modify (fun s => set_memory (store64 (memory s) a (segdesc_bits d)) s).
Definition put_gate (a : Z) (g : gatedesc) : M x86 unit :=
  modify (fun s => set_memory (store64 (memory s) a (gatedesc_bits g)) s).

(** ** x86.h *)

(** The three half words of the operand of [lgdt] and [lidt], and what the
    processor takes from them. *)
Definition table_operand (p size : Z) : list Z := [u16 (size - 1); u16 (u32 p); u16 (Z.shiftr (u32 p) 16)].

Definition table_register (pd : list Z) : Z * Z :=
  match pd with
  | [limit; lo; hi] => (lo + 2 ^ 16 * hi, limit)
  | _ => (0, 0)
  end.

Definition lgdt (p size : Z) : M x86 unit := modify (set_gdtr (table_register (table_operand p size))).
Definition lidt (p size : Z) : M x86 unit := modify (set_idtr (table_register (table_operand p size))).
Definition loadgs (v : Z) : M x86 unit := load_sreg GS v.
Definition lcr3 (v : Z) : M x86 unit := modify (set_cr3 v).

(** ** vm.c and trap.c *)

(** [c] is [&cpus[cpunum()]]; [cpu] and [proc] are the words at [%gs:0] and
    [%gs:4]. *)
Definition seginit (c : Z) : M x86 unit :=
  let gdt := c + offset cpu_struct "gdt" in
  put_seg (gdt + 8 * SEG_KCODE) (SEG (Z.lor STA_X STA_R) 0 0xffffffff 0);;
  put_seg (gdt + 8 * SEG_KDATA) (SEG STA_W 0 0xffffffff 0);;
  put_seg (gdt + 8 * SEG_UCODE) (SEG (Z.lor STA_X STA_R) 0 0xffffffff DPL_USER);;
  put_seg (gdt + 8 * SEG_UDATA) (SEG STA_W 0 0xffffffff DPL_USER);;
  put_seg (gdt + 8 * SEG_KCPU) (SEG STA_W (c + offset cpu_struct "cpu") 8 0);;
  lgdt gdt (8 * NSEGS);;
  loadgs (Z.shiftl SEG_KCPU 3);;
  mov_to GS 0 c;;
  mov_to GS 4 0.

(** [idt] and [vectors] are the addresses of the arrays; the lock [tickslock]
    is set up in [Trap]. *)
Definition tvinit (idt vectors : Z) : M x86 unit :=
  let set istrap i d :=
    v ← reads (fun s => load32 (memory s) (vectors + 4 * i));
    put_gate (idt + 8 * i) (SETGATE istrap (Z.shiftl SEG_KCODE 3) v d) in
  for_ 0 256 (fun i => set false i 0);;
  set true T_SYSCALL DPL_USER.

Definition idtinit (idt : Z) : M x86 unit := lidt idt (8 * 256).

(** A CPU with the counters of [pushcli], whose interrupt flag is the one of
    [%eflags]. *)
Record core := MkCore { mach : x86; co_ncli : Z; co_intena : bool }.

Definition on_mach {A} (m : M x86 A) : M core A :=
  lift mach (fun x s => MkCore x (co_ncli s) (co_intena s)) m.

Definition put_if (b : bool) (fl : Z) : Z := if b then Z.lor fl FL_IF else Z.ldiff fl FL_IF.

Definition on_cli {A} (m : M cpu A) : M core A :=
  lift (fun s => MkCpu (co_ncli s) (co_intena s) (has (eflags (mach s)) FL_IF))
    (fun c s => MkCore (set_eflags (put_if (c_if c) (eflags (mach s))) (mach s)) (ncli c) (intena c)) m.

Definition switchkvm (kpgdir : Z) : M x86 unit := lcr3 (v2p kpgdir).

Definition switchuvm (p : Z) : M core unit :=
  on_cli pushcli;;
  cpu ← on_mach (mov_from GS 0);
  let ts := cpu + offset cpu_struct "ts" in
  let tss := cpu + offset cpu_struct "gdt" + 8 * SEG_TSS in
  let d := SEG16 STS_T32A ts (sizeof taskstate - 1) 0 in
  on_mach (put_seg tss d);;
  on_mach (put_seg tss (set_sd_s 0 d));;
  on_mach (modify (fun s => set_memory (store16 (memory s) (ts + offset taskstate "ss0") (Z.shiftl SEG_KDATA 3)) s));;
  proc ← on_mach (mov_from GS 4);
  kstack ← on_mach (reads (fun s => load32 (memory s) (proc + offset proc_struct "kstack")));
  on_mach (modify (fun s => set_memory (store32 (memory s) (ts + offset taskstate "esp0") (u32 (kstack + KSTACKSIZE))) s));;
  on_mach (ltr (Z.shiftl SEG_TSS 3));;
  pgdir ← on_mach (reads (fun s => load32 (memory s) (p + offset proc_struct "pgdir")));
  if pgdir =? 0 then panic "switchuvm: no pgdir" else
  on_mach (lcr3 (v2p pgdir));;
  on_cli popcli.

(** ** What the processor reads *)

#[local] Ltac Zify.zify_post_hook ::= Z.to_euclidean_division_equations.

Lemma field_here w v r lo : lo = 0 -> 0 <= w -> field (v mod 2 ^ w + 2 ^ w * r) lo w = v mod 2 ^ w.
Proof. intros -> H. by apply field_head. Qed.

Lemma field_here_two w1 v1 w2 v2 r lo w :
  lo = 0 -> 0 <= w1 -> 0 <= w2 -> w = w1 + w2 ->
  field (v1 mod 2 ^ w1 + 2 ^ w1 * (v2 mod 2 ^ w2 + 2 ^ w2 * r)) lo w = v1 mod 2 ^ w1 + 2 ^ w1 * (v2 mod 2 ^ w2).
Proof.
  intros -> H1 H2 ->. rewrite (Z.add_comm _ (2 ^ w2 * r)), Z.mul_add_distr_l, Z.mul_assoc, <- Z.pow_add_r by lia.
  assert (0 < 2 ^ w1) by (apply Z.pow_pos_nonneg; lia). assert (0 < 2 ^ w2) by (apply Z.pow_pos_nonneg; lia).
  pose proof (Z.mod_pos_bound v1 (2 ^ w1) ltac:(lia)). pose proof (Z.mod_pos_bound v2 (2 ^ w2) ltac:(lia)).
  unfold field. change (2 ^ 0) with 1. rewrite Z.div_1_r.
  replace (v1 mod 2 ^ w1 + (2 ^ (w1 + w2) * r + 2 ^ w1 * (v2 mod 2 ^ w2)))
    with (v1 mod 2 ^ w1 + 2 ^ w1 * (v2 mod 2 ^ w2) + r * 2 ^ (w1 + w2)) by ring.
  rewrite Z.mod_add by (apply Z.pow_nonzero; lia). apply Z.mod_small. rewrite Z.pow_add_r by lia. nia.
Qed.

(** Read every field of a packed descriptor. *)
Ltac read_fields :=
  cbn [pack];
  repeat match goal with
  | |- context [field (?v mod 2 ^ ?w + 2 ^ ?w * ?r) ?lo ?k] =>
      first [rewrite (field_here w v r lo) by (vm_compute; congruence || reflexivity)
            | rewrite (field_skip w v r lo k) by (split; vm_compute; congruence)]
  | |- context [field (?v mod 2 ^ ?w + 2 ^ ?w * (?v2 mod 2 ^ ?w2 + 2 ^ ?w2 * ?r)) ?lo ?k] =>
      rewrite (field_here_two w v w2 v2 r lo k) by (vm_compute; congruence || reflexivity)
  end.

Lemma decode_segdesc d :
  decode (segdesc_bits d) =
    let lim := lim_15_0 d mod 2 ^ 16 + 2 ^ 16 * (lim_19_16 d mod 2 ^ 4) in
    MkDesc (base_15_0 d mod 2 ^ 16 + 2 ^ 16 * (base_23_16 d mod 2 ^ 8) + 2 ^ 24 * (base_31_24 d mod 2 ^ 8))
      (if sd_g d mod 2 ^ 1 =? 1 then lim * 4096 + 4095 else lim)
      (sd_type d mod 2 ^ 4) (sd_s d mod 2 ^ 1) (sd_dpl d mod 2 ^ 2) (sd_p d mod 2 ^ 1).
Proof. unfold decode, segdesc_bits. read_fields. reflexivity. Qed.

Lemma decode_gatedesc g :
  decode_gate (gatedesc_bits g) =
    MkGate (off_15_0 g mod 2 ^ 16 + 2 ^ 16 * (off_31_16 g mod 2 ^ 16)) (gd_cs g mod 2 ^ 16)
      (gd_type g mod 2 ^ 4) (gd_s g mod 2 ^ 1) (gd_dpl g mod 2 ^ 2) (gd_p g mod 2 ^ 1).
Proof. unfold decode_gate, gatedesc_bits. read_fields. reflexivity. Qed.

(** The pieces a base address is cut into. *)
Lemma base_pieces b :
  word b -> Z.land b 0xffff mod 2 ^ 16 + 2 ^ 16 * (Z.land (Z.shiftr b 16) 0xff mod 2 ^ 8) + 2 ^ 24 * (Z.shiftr b 24 mod 2 ^ 8) = b.
Proof.
  unfold word. intros H. change 0xffff with (Z.ones 16). change 0xff with (Z.ones 8).
  rewrite !Z.land_ones, !Z.shiftr_div_pow2 by lia. cbn [Z.pow Z.pow_pos Pos.iter Z.mul]. lia.
Qed.

Lemma offset_pieces b :
  word b -> Z.land b 0xffff mod 2 ^ 16 + 2 ^ 16 * (Z.shiftr b 16 mod 2 ^ 16) = b.
Proof.
  unfold word. intros H. change 0xffff with (Z.ones 16).
  rewrite !Z.land_ones, !Z.shiftr_div_pow2 by lia. cbn [Z.pow Z.pow_pos Pos.iter Z.mul]. lia.
Qed.

(** A normal segment covers whole pages; the bytes of [lim] round up. *)
Lemma decode_SEG type b lim dpl :
  0 <= type < 16 -> word b -> word lim -> 0 <= dpl < 4 ->
  decode (segdesc_bits (SEG type b lim dpl)) = MkDesc b (lim / 4096 * 4096 + 4095) type 1 dpl 1.
Proof.
  unfold word. intros Ht Hb Hl Hd. rewrite decode_segdesc. unfold SEG. cbn beta iota zeta delta [lim_15_0 base_15_0 base_23_16 sd_type sd_s sd_dpl sd_p lim_19_16 sd_g base_31_24].
  rewrite (u32_small b), (u32_small lim) by lia. rewrite base_pieces by done. f_equal; try (cbn [Z.pow Z.pow_pos Pos.iter Z.mul]; lia).
  change (1 mod 2 ^ 1 =? 1) with true. cbn beta iota. change 0xffff with (Z.ones 16).
  rewrite Z.land_ones, !Z.shiftr_div_pow2 by lia. cbn [Z.pow Z.pow_pos Pos.iter Z.mul]. lia.
Qed.

Lemma decode_SEG16 type b lim dpl s :
  0 <= type < 16 -> word b -> 0 <= lim < 2 ^ 20 -> 0 <= dpl < 4 -> 0 <= s < 2 ->
  decode (segdesc_bits (set_sd_s s (SEG16 type b lim dpl))) = MkDesc b lim type s dpl 1.
Proof.
  unfold word. intros Ht Hb Hl Hd Hs. rewrite decode_segdesc. unfold SEG16, set_sd_s.
  cbn beta iota zeta delta [lim_15_0 base_15_0 base_23_16 sd_type sd_s sd_dpl sd_p lim_19_16 sd_g base_31_24].
  rewrite (u32_small b), (u32_small lim) by lia. rewrite base_pieces by done. f_equal; try (cbn [Z.pow Z.pow_pos Pos.iter Z.mul]; lia).
  change (0 mod 2 ^ 1 =? 1) with false. cbn beta iota. change 0xffff with (Z.ones 16).
  rewrite Z.land_ones, !Z.shiftr_div_pow2 by lia. cbn [Z.pow Z.pow_pos Pos.iter Z.mul]. lia.
Qed.

Lemma decode_SETGATE b sel off d :
  0 <= sel < 2 ^ 16 -> word off -> 0 <= d < 4 ->
  decode_gate (gatedesc_bits (SETGATE b sel off d)) = MkGate off sel (if b then STS_TG32 else STS_IG32) 0 d 1.
Proof.
  unfold word. intros Hs Ho Hd. rewrite decode_gatedesc. unfold SETGATE.
  cbn beta iota zeta delta [off_15_0 off_31_16 gd_cs gd_type gd_s gd_dpl gd_p].
  rewrite (u32_small off), offset_pieces by (done || lia). f_equal; try (cbn [Z.pow Z.pow_pos Pos.iter Z.mul]; lia). by destruct b.
Qed.

Ltac packed_bounds :=
  match goal with |- 0 <= ?f ?d < _ => unfold f end;
  match goal with |- 0 <= pack ?l < _ => apply (pack_bounds l); repeat constructor; cbn; lia end.

Lemma segdesc_bits_bounds d : 0 <= segdesc_bits d < 2 ^ 64.
Proof. packed_bounds. Qed.

Lemma gatedesc_bits_bounds g : 0 <= gatedesc_bits g < 2 ^ 64.
Proof. packed_bounds. Qed.

(** ** The tables of a running kernel *)

Lemma cpu_offsets :
  offset cpu_struct "ts" = 8 /\ offset cpu_struct "gdt" = 112 /\ offset cpu_struct "cpu" = 180 /\
  offset cpu_struct "proc" = 184 /\ sizeof cpu_struct = 188 /\ sizeof taskstate = 104 /\
  offset taskstate "esp0" = 4 /\ offset taskstate "ss0" = 8.
Proof. by vm_compute. Qed.

(** The segments [seginit] describes. *)
Definition kcode : desc := MkDesc 0 0xffffffff 10 1 0 1.
Definition kdata : desc := MkDesc 0 0xffffffff 2 1 0 1.
Definition kcpu (c : Z) : desc := MkDesc (c + 180) 4095 2 1 0 1.
Definition ucode : desc := MkDesc 0 0xffffffff 10 1 3 1.
Definition udata : desc := MkDesc 0 0xffffffff 2 1 3 1.

Definition gdt_entry (m : mem) (c i : Z) : desc := decode (load64 m (c + 112 + 8 * i)).

Record gdt_ok (c : Z) (m : mem) : Prop := {
  gdt_kcode : gdt_entry m c SEG_KCODE = kcode;
  gdt_kdata : gdt_entry m c SEG_KDATA = kdata;
  gdt_kcpu : gdt_entry m c SEG_KCPU = kcpu c;
  gdt_ucode : gdt_entry m c SEG_UCODE = ucode;
  gdt_udata : gdt_entry m c SEG_UDATA = udata }.

(** The gate of interrupt [n], whose handler is at [v]. *)
Definition gate_for (n v : Z) : gate :=
  if n =? T_SYSCALL then MkGate v 8 STS_TG32 0 DPL_USER 1 else MkGate v 8 STS_IG32 0 0 1.

Definition idt_ok (idt : Z) (vec : Z -> Z) (m : mem) : Prop :=
  forall n, 0 <= n < 256 -> decode_gate (load64 m (idt + 8 * n)) = gate_for n (vec n).

Lemma gdt_ok_ext c m m' :
  (forall x, c + 120 <= x < c + 160 -> m' x = m x) -> gdt_ok c m -> gdt_ok c m'.
Proof.
  intros H [H1 H2 H3 H4 H5]. unfold SEG_KCODE, SEG_KDATA, SEG_KCPU, SEG_UCODE, SEG_UDATA, gdt_entry in *.
  split; unfold gdt_entry, SEG_KCODE, SEG_KDATA, SEG_KCPU, SEG_UCODE, SEG_UDATA; (rewrite (load64_ext m); [done|]);
    intros x Hx; apply H; lia.
Qed.

Lemma idt_ok_ext idt vec m m' :
  (forall x, idt <= x < idt + 2048 -> m' x = m x) -> idt_ok idt vec m -> idt_ok idt vec m'.
Proof. intros H Hi n Hn. rewrite (load64_ext m); [by apply Hi|]. intros x Hx. apply H. lia. Qed.

Lemma descriptor_gdt s c i rpl :
  gdtr s = (c + 112, 55) -> 1 <= i < 7 -> 0 <= rpl < 4 ->
  descriptor s (8 * i + rpl) = Some (gdt_entry (memory s) c i).
Proof.
  intros Hg Hi Hr. unfold descriptor, gdt_entry. rewrite Hg. cbn [fst snd].
  replace ((8 * i + rpl) / 8) with i by lia. replace (Z.testbit (8 * i + rpl) 2) with false.
  - zdec. cbn [orb]. do 3 f_equal. lia.
  - symmetry. apply Z.testbit_false; [lia|]. change (2 ^ 2) with 4. lia.
Qed.

Lemma put_seg_ok a d s : put_seg a d s = Ok tt (set_memory (store64 (memory s) a (segdesc_bits d)) s).
Proof. done. Qed.

Lemma table_register_ok p size : word p -> 0 < size <= 2 ^ 16 -> table_register (table_operand p size) = (p, size - 1).
Proof.
  unfold word. intros Hp Hs. unfold table_register, table_operand. rewrite (u32_small p) by lia.
  unfold u16. rewrite Z.shiftr_div_pow2 by lia. cbn [Z.pow Z.pow_pos Pos.iter Z.mul] in *. f_equal; lia.
Qed.

(** The effect of [seginit] on the machine of the CPU at [c]. *)
Lemma seginit_ok c s :
  cpl s = 0 -> 0 <= c -> c + 188 <= 2 ^ 32 ->
  exists m, seginit c s = Ok tt (set_memory m (set_sr (sset (sr s) GS (MkSegment 24 (c + 180) 4095 0)) (set_gdtr (c + 112, 55) s))) /\
    gdt_ok c m /\ load32 m (c + 180) = c /\ load32 m (c + 184) = 0 /\
    (forall x, x < c + 112 \/ c + 188 <= x -> m x = memory s x).
Proof.
  intros Hp H0 H1. set (m0 := memory s).
  set (D1 := SEG (Z.lor STA_X STA_R) 0 0xffffffff 0). set (D2 := SEG STA_W 0 0xffffffff 0).
  set (D4 := SEG (Z.lor STA_X STA_R) 0 0xffffffff DPL_USER). set (D5 := SEG STA_W 0 0xffffffff DPL_USER).
  set (D3 := SEG STA_W (c + 180) 8 0).
  set (m5 := store64 (store64 (store64 (store64 (store64 m0 (c + 112 + 8 * 1) (segdesc_bits D1))
    (c + 112 + 8 * 2) (segdesc_bits D2)) (c + 112 + 8 * 4) (segdesc_bits D4))
    (c + 112 + 8 * 5) (segdesc_bits D5)) (c + 112 + 8 * 3) (segdesc_bits D3)).
  assert (G : gdt_ok c m5).
  { pose proof (segdesc_bits_bounds D1). pose proof (segdesc_bits_bounds D2). pose proof (segdesc_bits_bounds D3).
    pose proof (segdesc_bits_bounds D4). pose proof (segdesc_bits_bounds D5).
    split; unfold gdt_entry, SEG_KCODE, SEG_KDATA, SEG_KCPU, SEG_UCODE, SEG_UDATA, m5;
      repeat rewrite load64_store64_ne by lia; rewrite load64_store64_eq by lia;
      unfold D1, D2, D3, D4, D5; (rewrite decode_SEG; [reflexivity|..]); unfold word, DPL_USER, STA_X, STA_W, STA_R; change (Z.lor 8 2) with 10; lia. }
  assert (E : seginit c s = (loadgs 24;; mov_to GS 0 c;; mov_to GS 4 0) (set_memory m5 (set_gdtr (c + 112, 55) s))).
  { unfold seginit. change (offset cpu_struct "gdt") with 112. change (offset cpu_struct "cpu") with 180.
    unfold SEG_KCODE, SEG_KDATA, SEG_KCPU, SEG_UCODE, SEG_UDATA, NSEGS.
    do 5 rewrite (bind_ok _ _ _ _ _ (put_seg_ok _ _ _)). unfold lgdt.
    rewrite (bind_ok (modify _) _ _ _ _ eq_refl), table_register_ok by (unfold word; lia). reflexivity. }
  rewrite E. set (s5 := set_memory m5 (set_gdtr (c + 112, 55) s)).
  assert (E2 : loadgs 24 s5 = Ok tt (set_sr (sset (sr s) GS (MkSegment 24 (c + 180) 4095 0)) s5)).
  { unfold loadgs, load_sreg. munfold. change (24 / 4 =? 0) with false. cbn beta iota.
    change 24 with (8 * 3 + 0) at 1. rewrite (descriptor_gdt s5 c 3 0 eq_refl ltac:(lia) ltac:(lia)).
    change (gdt_entry (memory s5) c 3) with (gdt_entry m5 c SEG_KCPU). rewrite (gdt_kcpu _ _ G). change (cpl s5) with (cpl s). rewrite Hp. reflexivity. }
  rewrite (bind_ok _ _ _ _ _ E2). set (s6 := set_sr _ s5).
  assert (Eg : sget (sr s6) GS = MkSegment 24 (c + 180) 4095 0) by apply sget_sset.
  rewrite (bind_ok _ _ _ _ _ (mov_to_ok GS 0 c s6 ltac:(rewrite Eg; cbn; lia))).
  rewrite mov_to_ok by (cbn [sr set_memory]; rewrite Eg; cbn; lia). cbn [sr set_memory]. rewrite Eg. cbn [sg_base].
  rewrite !(u32_small (c + 180 + _)) by lia. rewrite Z.add_0_r. replace (c + 180 + 4) with (c + 184) by lia.
  exists (store32 (store32 m5 (c + 180) c) (c + 184) 0). split; [reflexivity|].
  assert (F : forall x, x < c + 180 \/ c + 188 <= x -> store32 (store32 m5 (c + 180) c) (c + 184) 0 x = m5 x).
  { intros x Hx. by rewrite !store32_ne by lia. }
  split_and!.
  - eapply gdt_ok_ext; [|exact G]. intros x Hx. apply F. lia.
  - rewrite load32_store32_ne, load32_store32_eq by lia. apply u32_small. lia.
  - by rewrite load32_store32_eq.
  - intros x Hx. rewrite F by lia. unfold m5. by rewrite !store64_ne by lia.
Qed.

(** The gates, with the vectors read from the table before any gate was
    written. *)
Lemma tvinit_ok idt vectors s :
  (forall n, 0 <= n < 256 -> word (load32 (memory s) (vectors + 4 * n))) ->
  (vectors + 1024 <= idt \/ idt + 2048 <= vectors) ->
  exists m, tvinit idt vectors s = Ok tt (set_memory m s) /\
    idt_ok idt (fun n => load32 (memory s) (vectors + 4 * n)) m /\
    (forall x, x < idt \/ idt + 2048 <= x -> m x = memory s x).
Proof.
  intros Hv Hd. set (vec n := load32 (memory s) (vectors + 4 * n)). unfold tvinit.
  set (body := fun i => reads (fun s => load32 (memory s) (vectors + 4 * i)) ≫= _).
  set (I := fun (k : Z) (t : x86) => exists m, t = set_memory m s /\
    (forall n, 0 <= n < k -> decode_gate (load64 m (idt + 8 * n)) = MkGate (vec n) 8 STS_IG32 0 0 1) /\
    (forall x, x < idt \/ idt + 2048 <= x -> m x = memory s x)).
  assert (V : forall m, (forall x, x < idt \/ idt + 2048 <= x -> m x = memory s x) ->
    forall n, 0 <= n < 256 -> load32 m (vectors + 4 * n) = vec n).
  { intros m F n Hn. apply load32_ext. intros x Hx. apply F. lia. }
  destruct (for_inv I body 0 256 s) as (t & E & m & -> & Hg & Hf); [lia| | |].
  - exists (memory s). split; [by destruct s|]. split; [intros; lia|done].
  - intros i t Hi (m & -> & Hg & Hf). unfold body. rewrite (bind_ok (reads _) _ _ _ _ eq_refl). cbn [memory set_memory].
    rewrite (V m Hf i Hi). eexists. split; [reflexivity|]. eexists. split; [reflexivity|].
    pose proof (gatedesc_bits_bounds (SETGATE false 8 (vec i) 0)). split.
    + intros n Hn. destruct (decide (n = i)) as [->|Hne].
      * change (Z.shiftl SEG_KCODE 3) with 8. cbn [memory set_memory]. rewrite load64_store64_eq by done.
        by rewrite decode_SETGATE by (try apply Hv; lia).
      * cbn [memory set_memory]. rewrite load64_store64_ne by lia. apply Hg. lia.
    + intros x Hx. cbn [memory set_memory]. rewrite store64_ne by lia. by apply Hf.
  - rewrite (bind_ok _ _ _ _ _ E). rewrite (bind_ok (reads _) _ _ _ _ eq_refl). cbn [memory set_memory].
    unfold T_SYSCALL. rewrite (V m Hf 64 ltac:(lia)). eexists. split; [reflexivity|].
    pose proof (gatedesc_bits_bounds (SETGATE true 8 (vec 64) 3)). split.
    + intros n Hn. unfold gate_for, T_SYSCALL. change (Z.shiftl SEG_KCODE 3) with 8. destruct (Z.eqb_spec n 64) as [->|Hne].
      * rewrite load64_store64_eq by done. by rewrite decode_SETGATE by (try apply Hv; unfold DPL_USER; lia).
      * rewrite load64_store64_ne by lia. by apply Hg.
    + intros x Hx. rewrite store64_ne by lia. by apply Hf.
Qed.

(** The task state names [k] as the top of the kernel stack. *)
Record task_ok (c k : Z) (s : x86) : Prop := {
  task_tr : tr s = MkSegment 48 (c + 8) 103 0;
  task_esp0 : load32 (memory s) (c + 12) = k;
  task_ss0 : load32 (memory s) (c + 16) mod 2 ^ 16 = 16 }.

Lemma put_if_back fl : put_if (has fl FL_IF) (put_if false fl) = fl.
Proof.
  unfold put_if, has. destruct (Z.eqb_spec (Z.land fl FL_IF) 0) as [E|E]; cbn [negb].
  - apply Z.bits_inj'. intros n Hn. apply (f_equal (fun x => Z.testbit x n)) in E.
    rewrite Z.land_spec, Z.bits_0 in E. rewrite !Z.ldiff_spec. by destruct (Z.testbit fl n), (Z.testbit FL_IF n).
  - assert (T : Z.testbit fl 9 = true).
    { destruct (Z.testbit fl 9) eqn:T; [done|]. exfalso. apply E. apply Z.bits_inj'. intros n Hn.
      rewrite Z.land_spec, Z.bits_0. unfold FL_IF. change 0x200 with (2 ^ 9). destruct (decide (n = 9)) as [->|Hne].
      + by rewrite T.
      + rewrite Z.pow2_bits_false by lia. apply andb_false_r. }
    apply Z.bits_inj'. intros n Hn. rewrite Z.lor_spec, Z.ldiff_spec. unfold FL_IF. change 0x200 with (2 ^ 9).
    destruct (decide (n = 9)) as [->|Hne].
    + by rewrite T.
    + rewrite Z.pow2_bits_false by lia. by destruct (Z.testbit fl n).
Qed.

Lemma store16_ne m a v x : x < a \/ a + 2 <= x -> store16 m a v x = m x.
Proof. intros H. unfold store16. by rewrite !upd_ne by lia. Qed.

Lemma load16_store16 m a v : 0 <= v < 2 ^ 16 -> load32 (store16 m a v) a mod 2 ^ 16 = v.
Proof.
  intros Hv. unfold load32, store16, u8. rewrite upd_ne, !upd_eq by lia. rewrite !upd_ne by lia. rewrite Z.shiftr_div_pow2 by lia.
  change (2 ^ 8) with 256. change (2 ^ 16) with 65536 in *. lia.
Qed.

Lemma on_mach_ok {A} (m : M x86 A) s a x :
  m (mach s) = Ok a x -> on_mach m s = Ok a (MkCore x (co_ncli s) (co_intena s)).
Proof. intros H. unfold on_mach, lift. by rewrite H. Qed.

Lemma on_mach_modify f s : on_mach (modify f) s = Ok tt (MkCore (f (mach s)) (co_ncli s) (co_intena s)).
Proof. done. Qed.

Lemma on_mach_reads {A} (f : x86 -> A) s : on_mach (reads f) s = Ok (f (mach s)) s.
Proof. by destruct s. Qed.

(** Where [cpu] and [proc] are: [%gs] points at the two words of the CPU at
    [c], on which process [q] runs. *)
Record gs_ok (c q : Z) (s : x86) : Prop := {
  gs_seg : gs (sr s) = MkSegment 24 (c + 180) 4095 0;
  gs_cpu : load32 (memory s) (c + 180) = c;
  gs_proc : load32 (memory s) (c + 184) = q }.

Lemma mov_from_gs c q s :
  gs_ok c q s -> 0 <= c -> c + 188 <= 2 ^ 32 -> mov_from GS 0 s = Ok c s /\ mov_from GS 4 s = Ok q s.
Proof.
  intros [Hg Hc Hq] H0 H1. split; rewrite mov_from_ok; cbn [sget]; rewrite Hg; cbn [sg_base sg_limit]; try lia;
    rewrite u32_small by lia.
  - by rewrite Z.add_0_r, Hc.
  - by replace (c + 180 + 4) with (c + 184) by lia; rewrite Hq.
Qed.

(** Memory after the writes of [switchuvm] on CPU [c]. *)
Definition switch_mem (m : mem) (c k : Z) : mem :=
  let d := SEG16 STS_T32A (c + 8) 103 0 in
  store32 (store16 (store64 (store64 m (c + 160) (segdesc_bits d)) (c + 160) (segdesc_bits (set_sd_s 0 d))) (c + 16) 16) (c + 12) k.

Lemma switch_mem_ne m c k x :
  x < c + 12 \/ c + 18 <= x < c + 160 \/ c + 168 <= x -> switch_mem m c k x = m x.
Proof. intros H. unfold switch_mem. rewrite store32_ne, store16_ne, !store64_ne by lia. done. Qed.

Lemma switch_mem_tss m c k : 0 <= c -> c + 188 <= 2 ^ 32 -> gdt_entry (switch_mem m c k) c SEG_TSS = MkDesc (c + 8) 103 9 0 0 1.
Proof.
  intros H0 H1. unfold gdt_entry, switch_mem, SEG_TSS. replace (c + 112 + 8 * 6) with (c + 160) by lia.
  erewrite load64_ext; [|intros x Hx; rewrite store32_ne, store16_ne by lia; reflexivity].
  rewrite load64_store64_eq by apply segdesc_bits_bounds. apply decode_SEG16; unfold STS_T32A, word; lia.
Qed.

Lemma switch_mem_esp0 m c k : word k -> load32 (switch_mem m c k) (c + 12) = k.
Proof. intros Hk. unfold switch_mem. rewrite load32_store32_eq. by apply u32_small. Qed.

Lemma switch_mem_ss0 m c k : load32 (switch_mem m c k) (c + 16) mod 2 ^ 16 = 16.
Proof. unfold switch_mem. rewrite load32_store32_ne by lia. apply load16_store16. lia. Qed.

(** The counters and the flag after [pushcli] and [popcli]. *)
Lemma pushcli_core s :
  on_cli pushcli s = Ok tt (MkCore (set_eflags (put_if false (eflags (mach s))) (mach s)) (co_ncli s + 1)
    (if co_ncli s =? 0 then has (eflags (mach s)) FL_IF else co_intena s)).
Proof. unfold on_cli, lift. by rewrite pushcli_ok. Qed.

Lemma has_put_if b fl : has (put_if b fl) FL_IF = b.
Proof.
  unfold has, put_if, FL_IF. destruct b.
  - destruct (Z.eqb_spec (Z.land (Z.lor fl 512) 512) 0) as [E|]; [|done].
    apply (f_equal (fun x => Z.testbit x 9)) in E. rewrite Z.land_spec, Z.lor_spec in E. cbn in E. by rewrite orb_true_r in E.
  - rewrite (proj2 (Z.eqb_eq _ _)); [done|]. apply Z.bits_inj'. intros n Hn.
    rewrite Z.land_spec, Z.ldiff_spec, Z.bits_0. by destruct (Z.testbit fl n), (Z.testbit 512 n).
Qed.

Lemma popcli_core x n i fl :
  eflags x = fl -> has fl FL_IF = false -> 1 <= n ->
  on_cli popcli (MkCore x n i) = Ok tt (MkCore (set_eflags (put_if ((n =? 1) && i) fl) x) (n - 1) i).
Proof. intros <- Hf Hn. unfold on_cli, lift. by rewrite popcli_ok. Qed.

Lemma ltr_ok c s :
  gdtr s = (c + 112, 55) -> gdt_entry (memory s) c SEG_TSS = MkDesc (c + 8) 103 9 0 0 1 ->
  ltr 48 s = Ok tt (set_memory (upd (memory s) (c + 165) (Z.lor (memory s (c + 165)) 2)) (set_tr (MkSegment 48 (c + 8) 103 0) s)).
Proof.
  intros Hg Ht. unfold ltr. munfold. change 48 with (8 * 6 + 0) at 1. rewrite (descriptor_gdt s c 6 0 Hg) by lia.
  change 6 with SEG_TSS. rewrite Ht. cbn [d_s d_type d_p d_base d_limit d_dpl].
  change ((0 =? 0) && (9 =? STS_T32A) && (1 =? 1)) with true. cbn beta iota. cbn [gdtr set_tr memory].
  rewrite Hg. cbn [fst]. change (48 / 8 * 8) with 48. by replace (c + 112 + 48 + 5) with (c + 165) by lia.
Qed.

(** The end of [switchuvm], from [ltr] on. *)
Definition switchuvm_end (p : Z) : M core unit :=
  on_mach (ltr 48);;
  pgdir ← on_mach (reads (fun s => load32 (memory s) (p + 4)));
  if pgdir =? 0 then panic "switchuvm: no pgdir" else
  on_mach (lcr3 (v2p pgdir));;
  on_cli popcli.

Lemma switchuvm_start c q p s :
  let x := mach s in
  gs_ok c q x -> 0 <= c -> c + 188 <= 2 ^ 32 -> (q + 12 <= c \/ c + 188 <= q) ->
  0 <= load32 (memory x) (q + 8) -> load32 (memory x) (q + 8) + KSTACKSIZE < 2 ^ 32 ->
  switchuvm p s = switchuvm_end p (MkCore (set_memory (switch_mem (memory x) c (load32 (memory x) (q + 8) + KSTACKSIZE))
    (set_eflags (put_if false (eflags x)) x)) (co_ncli s + 1) (if co_ncli s =? 0 then has (eflags x) FL_IF else co_intena s)).
Proof.
  intros x G H0 H1 Hq Hk Hk1.
  unfold switchuvm. rewrite (bind_ok _ _ _ _ _ (pushcli_core s)). fold x. set (i1 := if co_ncli s =? 0 then _ else _).
  set (x1 := set_eflags (put_if false (eflags x)) x).
  assert (G1 : gs_ok c q x1) by (by destruct G; split).
  rewrite (bind_ok _ _ _ _ _ (on_mach_ok (mov_from GS 0) (MkCore x1 _ i1) _ _ (proj1 (mov_from_gs c q x1 G1 H0 H1)))).
  cbv zeta. change (offset cpu_struct "ts") with 8. change (offset cpu_struct "gdt" ) with 112. change (sizeof taskstate - 1) with 103.
  change (offset taskstate "ss0") with 8. change (offset taskstate "esp0") with 4. change (offset proc_struct "kstack") with 8.
  change (Z.shiftl SEG_KDATA 3) with 16.
  replace (c + 112 + 8 * SEG_TSS) with (c + 160) by (unfold SEG_TSS; lia). replace (c + 8 + 8) with (c + 16) by lia.
  replace (c + 8 + 4) with (c + 12) by lia.
  unfold put_seg. do 3 rewrite (bind_ok _ _ _ _ _ (on_mach_modify _ _)). cbn [mach co_ncli co_intena memory set_memory].
  set (m3 := store16 _ _ _). set (x3 := set_memory m3 _).
  assert (F3 : forall y, y < c + 16 \/ c + 18 <= y < c + 160 \/ c + 168 <= y -> m3 y = memory x y).
  { intros y Hy. unfold m3. rewrite store16_ne, !store64_ne by lia. done. }
  assert (G3 : gs_ok c q x3).
  { destruct G as [G3 G4 G5]. split; [done|..]; cbn [memory set_memory]; (rewrite (load32_ext (memory x)); [done|]); intros; apply F3; lia. }
  rewrite (bind_ok _ _ _ _ _ (on_mach_ok (mov_from GS 4) (MkCore x3 _ i1) _ _ (proj2 (mov_from_gs c q x3 G3 H0 H1)))).
  rewrite (bind_ok _ _ _ _ _ (on_mach_reads _ _)). cbn [mach]. change (memory x3) with m3.
  rewrite (load32_ext (memory x) m3) by (intros; apply F3; lia).
  rewrite u32_small by (unfold KSTACKSIZE in *; lia). by rewrite (bind_ok _ _ _ _ _ (on_mach_modify _ _)).
Qed.

(** [switchuvm] on CPU [c] where [q] runs: the task state leads to the kernel
    stack of [q], the address space is that of [p]; nothing else changes. *)
Lemma switchuvm_ok c q p s :
  let x := mach s in
  gs_ok c q x -> gdtr x = (c + 112, 55) -> 0 <= c -> c + 188 <= 2 ^ 32 ->
  (q + 12 <= c \/ c + 188 <= q) -> (p + 12 <= c \/ c + 188 <= p) ->
  0 <= load32 (memory x) (q + 8) -> load32 (memory x) (q + 8) + KSTACKSIZE < 2 ^ 32 ->
  load32 (memory x) (p + 4) <> 0 ->
  0 <= co_ncli s -> (0 < co_ncli s -> has (eflags x) FL_IF = false) ->
  exists m i, switchuvm p s = Ok tt (MkCore (set_memory m (set_tr (MkSegment 48 (c + 8) 103 0)
      (set_cr3 (v2p (load32 (memory x) (p + 4))) x))) (co_ncli s) i) /\
    load32 m (c + 12) = load32 (memory x) (q + 8) + KSTACKSIZE /\ load32 m (c + 16) mod 2 ^ 16 = 16 /\
    (forall y, y < c + 12 \/ c + 18 <= y < c + 160 \/ c + 168 <= y -> m y = memory x y).
Proof.
  intros x G Hg H0 H1 Hq Hp Hk Hk1 Hpg Hn Hi. rewrite (switchuvm_start c q p s G H0 H1 Hq Hk Hk1). fold x.
  set (i1 := if co_ncli s =? 0 then _ else _). set (k := load32 (memory x) (q + 8) + KSTACKSIZE) in *.
  set (m4 := switch_mem _ _ _). set (x4 := set_memory m4 _). unfold switchuvm_end.
  assert (Ht : gdt_entry (memory x4) c SEG_TSS = MkDesc (c + 8) 103 9 0 0 1) by (by apply switch_mem_tss).
  rewrite (bind_ok _ _ _ _ _ (on_mach_ok (ltr 48) (MkCore x4 _ i1) _ _ (ltr_ok c x4 Hg Ht))).
  rewrite (bind_ok _ _ _ _ _ (on_mach_reads _ _)). cbn [mach memory set_memory co_ncli co_intena]. change (memory x4) with m4.
  set (m5 := upd m4 _ _). assert (F5 : forall y, y < c + 12 \/ c + 18 <= y < c + 160 \/ c + 168 <= y -> m5 y = memory x y).
  { intros y Hy. unfold m5. rewrite upd_ne by lia. by apply switch_mem_ne. }
  rewrite (load32_ext (memory x) m5) by (intros; apply F5; lia).
  rewrite (proj2 (Z.eqb_neq _ _) Hpg). unfold lcr3. rewrite (bind_ok _ _ _ _ _ (on_mach_modify _ _)). cbn [mach co_ncli co_intena].
  rewrite (popcli_core _ _ _ (put_if false (eflags x))) by (reflexivity || apply has_put_if || lia).
  exists m5, i1. split_and!; [|..|exact F5].
  - assert (Ef : put_if ((co_ncli s + 1 =? 1) && i1) (put_if false (eflags x)) = eflags x).
    { unfold i1. destruct (Z.eqb_spec (co_ncli s) 0) as [En|En].
      - rewrite En. apply put_if_back.
      - rewrite (proj2 (Z.eqb_neq _ _)) by lia. rewrite <- (put_if_back (eflags x)) at 2. by rewrite (Hi ltac:(lia)). }
    by rewrite Ef, Z.add_simpl_r.
  - rewrite (load32_ext m4) by (intros; apply upd_ne; lia). apply switch_mem_esp0. unfold word, k, KSTACKSIZE in *. lia.
  - rewrite (load32_ext m4) by (intros; apply upd_ne; lia). apply switch_mem_ss0.
Qed.

(** ** Entering the kernel *)

(** A CPU set up: its tables at [c] and [idt], handlers [vec], and [k] the top
    of the kernel stack of the process that runs. *)
Record cpu_ok (c idt : Z) (vec : Z -> Z) (k : Z) (s : x86) : Prop := {
  ok_gdtr : gdtr s = (c + 112, 55);
  ok_gdt : gdt_ok c (memory s);
  ok_idtr : idtr s = (idt, 2047);
  ok_idt : idt_ok idt vec (memory s);
  ok_task : task_ok c k s }.

Definition kcode_seg : segment := MkSegment 8 0 0xffffffff 0.
Definition kdata_seg : segment := MkSegment 16 0 0xffffffff 0.

Section entry.
Context (c idt : Z) (vec : Z -> Z) (k : Z) (s : x86).
Hypothesis OK : cpu_ok c idt vec k s.

Lemma descriptor_kcode : descriptor s 8 = Some kcode.
Proof.
  change 8 with (8 * 1 + 0). rewrite (descriptor_gdt s c 1 0 (ok_gdtr _ _ _ _ _ OK)) by lia.
  f_equal. apply (gdt_kcode _ _ (ok_gdt _ _ _ _ _ OK)).
Qed.

Lemma descriptor_kdata : descriptor s 16 = Some kdata.
Proof.
  change 16 with (8 * 2 + 0). rewrite (descriptor_gdt s c 2 0 (ok_gdtr _ _ _ _ _ OK)) by lia.
  f_equal. apply (gdt_kdata _ _ (ok_gdt _ _ _ _ _ OK)).
Qed.

Lemma ring_stack_kernel : ring_stack s 0 = Some (kdata_seg, k).
Proof.
  destruct (ok_task _ _ _ _ _ OK) as [Ht H0 H1]. unfold ring_stack. rewrite Ht. cbn [sg_base sg_limit].
  replace (c + 8 + 8 * 0 + 4) with (c + 12) by lia. replace (c + 12 + 4) with (c + 16) by lia.
  rewrite H1, descriptor_kdata, H0. reflexivity.
Qed.

Lemma gate_at n : 0 <= n < 256 -> decode_gate (load64 (memory s) ((idtr s).1 + 8 * n)) = gate_for n (vec n).
Proof. intros Hn. rewrite (ok_idtr _ _ _ _ _ OK). cbn [fst]. by apply (ok_idt _ _ _ _ _ OK). Qed.

Lemma gate_to_ok soft n :
  0 <= n < 256 -> (soft = true -> n = T_SYSCALL) -> cpl s = 0 \/ cpl s = 3 ->
  gate_to s soft n = Some (gate_for n (vec n), kcode_seg, if cpl s =? 0 then None else Some (kdata_seg, k)).
Proof.
  intros Hn Hs Hc. unfold gate_to. rewrite gate_at by done. rewrite (ok_idtr _ _ _ _ _ OK). cbn [snd].
  rewrite (proj2 (Z.ltb_ge 2047 (8 * n + 7))) by lia. unfold gate_for.
  destruct (Z.eqb_spec n T_SYSCALL) as [->|Hne]; cbn [g_s g_type g_p g_dpl g_sel g_off].
  - destruct Hc as [Hc|Hc]; rewrite Hc; rewrite descriptor_kcode; [by destruct soft|].
    cbn -[ring_stack]. rewrite ring_stack_kernel. by destruct soft.
  - destruct soft; [by specialize (Hs eq_refl)|].
    destruct Hc as [Hc|Hc]; rewrite Hc; rewrite descriptor_kcode; [done|].
    cbn -[ring_stack]. by rewrite ring_stack_kernel.
Qed.

Lemma gate_to_refused n : 0 <= n < 256 -> n <> T_SYSCALL -> cpl s = 3 -> gate_to s true n = None.
Proof.
  intros Hn Hne Hc. unfold gate_to. rewrite gate_at by done. rewrite (ok_idtr _ _ _ _ _ OK). cbn [snd].
  rewrite (proj2 (Z.ltb_ge 2047 (8 * n + 7))) by lia. unfold gate_for. rewrite (proj2 (Z.eqb_neq _ _) Hne), Hc. reflexivity.
Qed.

(** What is pushed at the entry, and from where down. *)
Definition entry_words (back : Z) (err : option Z) : list Z :=
  (if cpl s =? 0 then [] else [sg_sel (ss (sr s)); esp (gpr s)]) ++
  [eflags s; sg_sel (cs (sr s)); back] ++ match err with None => [] | Some e => [e] end.

Definition entry_sp : Z := if cpl s =? 0 then esp (gpr s) else k.

(** The machine at the first instruction of the handler. *)
Definition entered (n back : Z) (err : option Z) : x86 :=
  set_eip (vec n) (set_eflags (entry_flags (if n =? T_SYSCALL then STS_TG32 else STS_IG32) (eflags s))
    (set_sr (MkSregs kcode_seg (if cpl s =? 0 then ss (sr s) else kdata_seg) (ds (sr s)) (es (sr s)) (fs (sr s)) (gs (sr s)))
      (pushed (entry_words back err) entry_sp s))).

Lemma enter_ok soft n back err :
  0 <= n < 256 -> (soft = true -> n = T_SYSCALL) -> cpl s = 0 /\ flat (ss (sr s)) \/ cpl s = 3 ->
  24 <= entry_sp < 2 ^ 32 -> enter soft n back err s = Ok true (entered n back err).
Proof.
  intros Hn Hs Hc Hsp. unfold enter. rewrite (bind_ok get _ _ _ _ eq_refl), gate_to_ok by naive_solver.
  unfold entered, entry_words, entry_sp in *.
  assert (Eg : g_type (gate_for n (vec n)) = (if n =? T_SYSCALL then STS_TG32 else STS_IG32) /\ g_off (gate_for n (vec n)) = vec n).
  { unfold gate_for. by destruct (n =? T_SYSCALL). }
  destruct Eg as [-> ->]. destruct Hc as [[Hc Hf]|Hc]; rewrite Hc in *;
    [change (0 =? 0) with true in *|change (3 =? 0) with false in *]; cbn beta iota in *.
  - rewrite (bind_ok (mret tt) _ _ _ _ eq_refl). pose proof (enter_rest [] [eflags s; sg_sel (cs (sr s)); back] err (esp (gpr s)) s kcode_seg
      (entry_flags (if n =? T_SYSCALL then STS_TG32 else STS_IG32) (eflags s)) (vec n) Hf ltac:(cbn; lia)) as E.
    rewrite pushed_nil in E. rewrite E. by destruct s as [? [] ? ? ? ? ? ? ?].
  - set (s1 := set_gpr (rset (gpr s) ESP k) (set_sr (sset (sr s) SS kdata_seg) s)).
    assert (Hf : flat (ss (sr s1))) by (by destruct s as [? [] ? ? ? ? ? ? ?]).
    assert (E1 : (modify (fun s => set_sr (sset (sr s) SS kdata_seg) s);; seti ESP k;; pushes [sg_sel (ss (sr s)); esp (gpr s)]) s
      = Ok tt (pushed [sg_sel (ss (sr s)); esp (gpr s)] k s1)).
    { rewrite (bind_ok (modify _) _ _ _ _ eq_refl). unfold seti. rewrite (bind_ok (modify _) _ _ _ _ eq_refl).
      apply pushes_pushed; [done|apply esp_rset|cbn; lia]. }
    rewrite (bind_ok _ _ _ _ _ E1), enter_rest by (done || (cbn; lia)). by destruct s as [[] [] ? ? ? ? ? ? ?].
Qed.

End entry.

(** ** Setting up a CPU and running a process on it *)

(** What [main] and [mpmain] do to the tables of the CPU at [c]. *)
Definition boot_cpu (c idt vectors : Z) : M x86 unit :=
  seginit c;;
  tvinit idt vectors;;
  idtinit idt.

(** The start of a turn in [scheduler]: [proc = p; switchuvm(p)]. *)
Definition run_process (p : Z) : M core unit :=
  on_mach (mov_to GS 4 p);;
  switchuvm p.

(** Where the objects are: apart from each other, in the address space. *)
Record layout (c idt vectors p : Z) : Prop := {
  lay_c : 0 <= c /\ c + 188 <= 2 ^ 32;
  lay_idt : 0 <= idt /\ idt + 2048 <= 2 ^ 32;
  lay_p : word p;
  lay_c_idt : c + 188 <= idt \/ idt + 2048 <= c;
  lay_c_vec : c + 188 <= vectors \/ vectors + 1024 <= c;
  lay_vec_idt : vectors + 1024 <= idt \/ idt + 2048 <= vectors;
  lay_p_c : p + 12 <= c \/ c + 188 <= p;
  lay_p_idt : p + 12 <= idt \/ idt + 2048 <= p }.

Lemma boot_cpu_ok c idt vectors p s :
  layout c idt vectors p -> cpl s = 0 ->
  (forall n, 0 <= n < 256 -> word (load32 (memory s) (vectors + 4 * n))) ->
  exists s1, boot_cpu c idt vectors s = Ok tt s1 /\
    gdtr s1 = (c + 112, 55) /\ gdt_ok c (memory s1) /\ idtr s1 = (idt, 2047) /\
    idt_ok idt (fun n => load32 (memory s) (vectors + 4 * n)) (memory s1) /\ gs_ok c 0 s1 /\
    (forall x, (x < c + 112 \/ c + 188 <= x) -> (x < idt \/ idt + 2048 <= x) -> memory s1 x = memory s x).
Proof.
  intros [Lc Li Lw Lci Lcv Lvi Lpc Lpi] Hp Hv. destruct (seginit_ok c s Hp) as (m1 & E1 & G1 & C1 & P1 & F1); [lia..|].
  set (s1 := set_memory m1 _) in E1.
  assert (V : forall n, 0 <= n < 256 -> load32 (memory s1) (vectors + 4 * n) = load32 (memory s) (vectors + 4 * n)).
  { intros n Hn. apply load32_ext. intros x Hx. apply F1. lia. }
  destruct (tvinit_ok idt vectors s1) as (m2 & E2 & G2 & F2); [intros n Hn; rewrite V by done; by apply Hv|lia|].
  exists (set_idtr (idt, 2047) (set_memory m2 s1)). unfold boot_cpu.
  rewrite (bind_ok _ _ _ _ _ E1), (bind_ok _ _ _ _ _ E2). unfold idtinit, lidt. rewrite table_register_ok by (unfold word; lia).
  assert (F : forall x, c <= x < c + 188 -> m2 x = m1 x) by (intros; apply F2; lia).
  split; [reflexivity|]. split; [reflexivity|]. split; [|split; [reflexivity|split; [|split]]].
  - eapply gdt_ok_ext; [|exact G1]. intros x Hx. apply F. lia.
  - intros n Hn. cbn beta. rewrite <- V by done. by apply G2.
  - split; cbn [memory set_idtr set_memory sr].
    + apply (sget_sset (sr s) GS).
    + etransitivity; [|exact C1]. apply load32_ext. intros. apply F. lia.
    + etransitivity; [|exact P1]. apply load32_ext. intros. apply F. lia.
  - intros x H1 H2. cbn [memory set_idtr set_memory]. rewrite F2 by done. by apply F1.
Qed.

(** The tables the processor uses are the same in [u] as in [s]. *)
Record same_tables (c idt : Z) (s u : x86) : Prop := {
  same_gdtr : gdtr u = gdtr s;
  same_idtr : idtr u = idtr s;
  same_tr : tr u = tr s;
  same_cpu : forall x, c <= x < c + 188 -> memory u x = memory s x;
  same_idt : forall x, idt <= x < idt + 2048 -> memory u x = memory s x }.

Lemma cpu_ok_same c idt vec k s u : cpu_ok c idt vec k s -> same_tables c idt s u -> cpu_ok c idt vec k u.
Proof.
  intros [H1 H2 H3 H4 [T1 T2 T3]] [S1 S2 S3 S4 S5]. split; [congruence| |congruence| |split; [congruence|..]].
  - eapply gdt_ok_ext; [|exact H2]. intros. apply S4. lia.
  - by eapply idt_ok_ext.
  - rewrite (load32_ext (memory s)); [done|]. intros. apply S4. lia.
  - rewrite (load32_ext (memory s)); [done|]. intros. apply S4. lia.
Qed.

Lemma run_process_ok c idt vectors p s vec :
  layout c idt vectors p -> gdtr s = (c + 112, 55) -> gdt_ok c (memory s) -> idtr s = (idt, 2047) ->
  idt_ok idt vec (memory s) -> gs_ok c 0 s ->
  0 <= load32 (memory s) (p + 8) -> load32 (memory s) (p + 8) + KSTACKSIZE < 2 ^ 32 -> load32 (memory s) (p + 4) <> 0 ->
  exists s2, run_process p (MkCore s 0 false) = Ok tt s2 /\
    cpu_ok c idt vec (load32 (memory s) (p + 8) + KSTACKSIZE) (mach s2) /\
    cr3 (mach s2) = v2p (load32 (memory s) (p + 4)) /\ gs_ok c p (mach s2) /\ co_ncli s2 = 0 /\ eflags (mach s2) = eflags s.
Proof.
  intros [Lc Li Lw Lci Lcv Lvi Lpc Lpi] Hg Hgdt Hi Hidt [G1 G2 G3] Hk Hk1 Hpg. unfold run_process.
  set (m1 := store32 (memory s) (c + 184) p). set (s1 := set_memory m1 s).
  assert (E1 : on_mach (mov_to GS 4 p) (MkCore s 0 false) = Ok tt (MkCore s1 0 false)).
  { apply on_mach_ok. cbn [mach]. rewrite mov_to_ok; cbn [sget]; rewrite G1; cbn [sg_base sg_limit]; [|lia].
    rewrite u32_small by lia. by replace (c + 180 + 4) with (c + 184) by lia. }
  rewrite (bind_ok _ _ _ _ _ E1).
  assert (F1 : forall x, x < c + 184 \/ c + 188 <= x -> m1 x = memory s x) by (intros; apply store32_ne; lia).
  assert (K : load32 m1 (p + 8) = load32 (memory s) (p + 8)) by (apply load32_ext; intros; apply F1; lia).
  assert (Q : load32 m1 (p + 4) = load32 (memory s) (p + 4)) by (apply load32_ext; intros; apply F1; lia).
  destruct (switchuvm_ok c p p (MkCore s1 0 false)) as (m & i & E & T1 & T2 & F); cbn [mach co_ncli];
    change (memory s1) with m1; rewrite ?K, ?Q; try done; try lia.
  { split; [done|..]; change (memory s1) with m1.
    - etransitivity; [|exact G2]. apply load32_ext. intros. apply F1. lia.
    - unfold m1. rewrite load32_store32_eq. apply u32_small, Lw. }
  cbn [mach co_ncli] in *. change (memory s1) with m1 in *. rewrite K in T1. eexists. split; [exact E|].
  cbn [mach co_ncli]. split_and!; try done; [split|by rewrite <- Q|split]; cbn [gdtr idtr tr sr memory set_memory set_tr set_cr3]; try done.
  - eapply gdt_ok_ext; [|exact Hgdt]. intros x Hx. rewrite F by lia. apply F1. lia.
  - eapply idt_ok_ext; [|exact Hidt]. intros x Hx. rewrite F by lia. apply F1. lia.
  - etransitivity; [|exact G2]. apply load32_ext. intros. rewrite F by lia. apply F1. lia.
  - rewrite (load32_ext m1) by (intros; apply F; lia). unfold m1. rewrite load32_store32_eq. apply u32_small, Lw.
Qed.

(** ** What user code can and cannot do *)

(** The machine [e] at the handler of [n], entered from [u] with [ws] pushed
    on the kernel stack below [k]. *)
Record in_kernel (vec : Z -> Z) (k n : Z) (ws : list Z) (u e : x86) : Prop := {
  ik_cpl : cpl e = 0;
  ik_code : cs (sr e) = kcode_seg;
  ik_stack : ss (sr e) = kdata_seg;
  ik_eip : eip e = vec n;
  ik_esp : esp (gpr e) = k - 4 * Z.of_nat (length ws);
  ik_words : words_at (memory e) (esp (gpr e)) (rev ws);
  ik_mem : forall x, x < k - 24 \/ k <= x -> memory e x = memory u x;
  ik_if : has (eflags e) FL_IF = (n =? T_SYSCALL) && has (eflags u) FL_IF }.

Lemma has_entry_flags ty fl : has (entry_flags ty fl) FL_IF = negb (ty =? STS_IG32) && has fl FL_IF.
Proof.
  assert (H : forall x, has (Z.land x (Z.lnot 0x34100)) FL_IF = has x FL_IF).
  { intros x. unfold has, FL_IF. rewrite <- Z.land_assoc. by change (Z.land (Z.lnot 0x34100) 512) with 512. }
  unfold entry_flags. rewrite H. destruct (ty =? STS_IG32); [|done]. apply (has_put_if false).
Qed.

(** The registers of a machine hold 32 bits. *)
Definition words_ok (u : x86) : Prop :=
  Forall word [sg_sel (ss (sr u)); esp (gpr u); eflags u; sg_sel (cs (sr u)); eip u].

Lemma entered_in_kernel c idt vec k u n back err :
  cpu_ok c idt vec k u -> cpl u = 3 -> words_ok u -> word back -> (forall e, err = Some e -> word e) -> 24 <= k < 2 ^ 32 ->
  in_kernel vec k n ([sg_sel (ss (sr u)); esp (gpr u); eflags u; sg_sel (cs (sr u)); back] ++
    match err with None => [] | Some e => [e] end) u (entered vec k u n back err).
Proof.
  intros OK Hc Hw Hb He Hk. unfold entered, entry_words, entry_sp. rewrite Hc. change (3 =? 0) with false. cbn beta iota.
  set (ws := [_; _] ++ _). change ([_; _; _; _; back] ++ _) with ws.
  assert (Hl : Z.of_nat (length ws) <= 6) by (unfold ws; destruct err; cbn; lia).
  assert (Hws : Forall word ws).
  { unfold words_ok in Hw. rewrite !Forall_cons in Hw. destruct Hw as (W1 & W2 & W3 & W4 & W5 & _).
    unfold ws. destruct err as [e|]; cbn [app]; repeat (constructor; [by auto|]); try constructor. }
  assert (He' : esp (gpr (entered vec k u n back err)) = k - 4 * Z.of_nat (length ws)).
  { unfold entered, entry_words, entry_sp. rewrite Hc. apply esp_rset. }
  unfold entered, entry_words, entry_sp in He'. rewrite Hc in He'. change (3 =? 0) with false in He'. cbn beta iota in He'. fold ws in He'.
  split; try done.
  - rewrite He'. by apply words_at_push.
  - intros x Hx. apply push_mem_ne. lia.
  - cbn [eflags set_eip set_eflags]. rewrite has_entry_flags. by destruct (n =? T_SYSCALL).
Qed.

(** C36: the kernel set up and running process [p] cannot be entered by user
    code but through its gates.  After [seginit], [tvinit] and [idtinit] on a
    CPU and [switchuvm] for a process, whatever the process does at user
    level: [int T_SYSCALL] enters the handler of system calls with interrupts
    as they were; any other [int] is a protection fault, which enters the
    handler of exception 13 with the number asked for; and an interrupt or an
    exception enters the handler of its number with interrupts off.  Every
    entry is at the highest privilege level, on the empty kernel stack of the
    process that runs, with what is needed to return pushed on it, and
    changes no other memory. *)
Theorem user_entries_protected (c idt vectors p : Z) (s : x86) :
  layout c idt vectors p -> cpl s = 0 ->
  (forall n, 0 <= n < 256 -> word (load32 (memory s) (vectors + 4 * n))) ->
  0 <= load32 (memory s) (p + 8) -> load32 (memory s) (p + 8) + KSTACKSIZE < 2 ^ 32 -> load32 (memory s) (p + 4) <> 0 ->
  let vec n := load32 (memory s) (vectors + 4 * n) in
  let k := load32 (memory s) (p + 8) + KSTACKSIZE in
  exists s1 s2, boot_cpu c idt vectors s = Ok tt s1 /\ run_process p (MkCore s1 0 false) = Ok tt s2 /\
  cr3 (mach s2) = v2p (load32 (memory s) (p + 4)) /\
  forall u, same_tables c idt (mach s2) u -> cpl u = 3 -> words_ok u ->
    let saved back := [sg_sel (ss (sr u)); esp (gpr u); eflags u; sg_sel (cs (sr u)); back] in
    (exists e, int_ T_SYSCALL u = Ok T_SYSCALL e /\ in_kernel vec k T_SYSCALL (saved (u32 (eip u + 2))) u e) /\
    (forall n, 0 <= n < 256 -> n <> T_SYSCALL ->
      exists e, int_ n u = Ok 13 e /\ in_kernel vec k 13 (saved (eip u) ++ [8 * n + 2]) u e) /\
    (forall n err, 0 <= n < 256 -> (forall x, err = Some x -> word x) ->
      exists e, enter false n (eip u) err u = Ok true e /\
        in_kernel vec k n (saved (eip u) ++ match err with None => [] | Some x => [x] end) u e).
Proof.
  intros L Hp Hv Hk Hk1 Hpg vec k. destruct (boot_cpu_ok c idt vectors p s L Hp Hv) as (s1 & E1 & G1 & G2 & G3 & G4 & G5 & F).
  pose proof (lay_p_c _ _ _ _ L). pose proof (lay_p_idt _ _ _ _ L).
  assert (K : load32 (memory s1) (p + 8) = load32 (memory s) (p + 8)) by (apply load32_ext; intros; apply F; lia).
  assert (Q : load32 (memory s1) (p + 4) = load32 (memory s) (p + 4)) by (apply load32_ext; intros; apply F; lia).
  destruct (run_process_ok c idt vectors p s1 _ L G1 G2 G3 G4 G5) as (s2 & E2 & C2 & R2 & _); rewrite ?K, ?Q in *; try done.
  exists s1, s2. split_and!; [done..|]. intros u Su Hu Wu saved. pose proof (cpu_ok_same _ _ _ _ _ _ C2 Su) as Cu.
  assert (Hs : 24 <= entry_sp k u < 2 ^ 32) by (unfold entry_sp; rewrite Hu; cbn; unfold k, KSTACKSIZE in *; lia).
  assert (Hk24 : 24 <= k < 2 ^ 32) by (unfold k, KSTACKSIZE in *; lia).
  assert (We : word (eip u)) by (unfold words_ok in Wu; rewrite !Forall_cons in Wu; tauto).
  assert (Int : forall n err, 0 <= n < 256 -> (forall x, err = Some x -> word x) ->
    enter false n (eip u) err u = Ok true (entered vec k u n (eip u) err)) by (intros; apply (enter_ok c idt vec k u Cu); auto; lia).
  split_and!.
  - exists (entered vec k u T_SYSCALL (u32 (eip u + 2)) None). split; [|exact (entered_in_kernel c idt vec k u T_SYSCALL _ None Cu Hu Wu (u32_range _) ltac:(done) Hk24)].
    unfold int_. rewrite (bind_ok (reads _) _ _ _ _ eq_refl).
    rewrite (bind_ok _ _ _ _ _ (enter_ok c idt vec k u Cu true T_SYSCALL (u32 (eip u + 2)) None ltac:(done) ltac:(done) (or_intror Hu) Hs)). done.
  - intros n Hn Hne. assert (W : forall x, Some (8 * n + 2) = Some x -> word x) by (intros x [= <-]; unfold word; lia).
    exists (entered vec k u 13 (eip u) (Some (8 * n + 2))). split; [|exact (entered_in_kernel c idt vec k u 13 _ (Some (8 * n + 2)) Cu Hu Wu We W Hk24)].
    unfold int_. rewrite (bind_ok (reads _) _ _ _ _ eq_refl).
    rewrite (bind_ok _ _ _ _ _ (enter_refused true n _ None u (gate_to_refused c idt vec k u Cu n Hn Hne Hu))). by rewrite (bind_ok _ _ _ _ _ (Int 13 _ ltac:(lia) W)).
  - intros n err Hn He. exists (entered vec k u n (eip u) err). split; [by apply Int|exact (entered_in_kernel c idt vec k u n _ err Cu Hu Wu We He Hk24)].
Qed.

(** A machine at boot, every byte of its memory the same. *)
Definition demo_machine : x86 :=
  MkX86 (MkRegs 0 0 0 0 0x80200000 0 0 0) (MkSregs kcode_seg kdata_seg kdata_seg kdata_seg (null_segment 0) (null_segment 0))
    0x80100000 2 0 (0, 0) (0, 0) (null_segment 0) (fun _ => 0x80).

(** The machine in user mode at address 0. *)
Definition to_user (s : x86) : x86 :=
  set_sr (MkSregs (MkSegment 35 0 0xffffffff 3) (MkSegment 43 0 0xffffffff 3) (MkSegment 43 0 0xffffffff 3)
    (MkSegment 43 0 0xffffffff 3) (null_segment 0) (null_segment 0)) (set_gpr (MkRegs 0 0 0 0 0x3000 0 0 0) (set_eflags 0x202 (set_eip 0 s))).

Lemma user_entries_protected_witness :
  exists s1 s2, boot_cpu 0x80110000 0x80120000 0x80130000 demo_machine = Ok tt s1 /\
    run_process 0x80140000 (MkCore s1 0 false) = Ok tt s2 /\
    exists e, int_ 3 (to_user (mach s2)) = Ok 13 e /\ cpl e = 0 /\ esp (gpr e) = 0x80808080 + 4096 - 24.
Proof.
  destruct (user_entries_protected 0x80110000 0x80120000 0x80130000 0x80140000 demo_machine) as (s1 & s2 & E1 & E2 & _ & H).
  - split; unfold word; lia.
  - reflexivity.
  - intros n _. unfold load32, word. cbn. lia.
  - unfold load32. cbn. lia.
  - unfold load32, KSTACKSIZE. cbn. lia.
  - unfold load32. cbn. lia.
  - exists s1, s2. split; [exact E1|]. split; [exact E2|].
    destruct (H (to_user (mach s2))) as (_ & H3 & _).
    + by split.
    + reflexivity.
    + repeat constructor; unfold word; cbn; lia.
    + destruct (H3 3) as (e & E & I); [lia|done|]. exists e. split; [exact E|]. split; [exact (ik_cpl _ _ _ _ _ _ I)|].
      exact (ik_esp _ _ _ _ _ _ I).
Defined.
