(* ===== verification/Entry.v ===== *)
(** * Entering and leaving the kernel (HW3/vectors.pl, trapasm.S, swtch.S)

    The assembly that every trap goes through and that switches between
    kernel threads, instruction by instruction over the processor of [X86].
    The C routine [trap] in the middle is a parameter that keeps to the
    calling convention.  A trap saves the state it interrupts in a
    [struct trapframe] at a known place and what it returns to is what that
    frame holds when [trap] is done; a context switch resumes a thread where
    it called [swtch]. *)

From stdpp Require Import base numbers list strings.
From Stdlib Require Import ZArith Lia.
From S2P Require Import Prelude Frames X86 Segments.

Open Scope Z_scope.

(** ** Instructions *)

(** [movw $v, %ax] *)
Definition movw_ax (v : Z) : M x86 unit := a ← geti EAX; seti EAX (a / 2 ^ 16 * 2 ^ 16 + v).
(** [movw %ax, %r] *)
Definition movw_sreg (r : sreg) : M x86 unit := a ← geti EAX; load_sreg r (a mod 2 ^ 16).
Definition pushl_reg (r : reg) : M x86 unit := v ← geti r; pushl v.
Definition pushl_sreg (r : sreg) : M x86 unit := s ← get (S := x86); pushl (sg_sel (sget (sr s) r)).
Definition popl_reg (r : reg) : M x86 unit := v ← popl; seti r v.
Definition popl_sreg (r : sreg) : M x86 unit := v ← popl; load_sreg r (v mod 2 ^ 16).
Definition addl (n : Z) (r : reg) : M x86 unit := v ← geti r; seti r (u32 (v + n)).

(** ** trapasm.S and vectors.pl *)

Definition trapret : M x86 unit :=
  popal;;
  popl_sreg GS;;
  popl_sreg FS;;
  popl_sreg ES;;
  popl_sreg DS;;
  addl 0x8 ESP;;
  iret.

(** A C routine of one argument, called with the argument on the stack. *)
Definition c_routine (f : Z -> M x86 unit) : M x86 unit :=
  sp ← geti ESP;
  a ← mov_from SS (u32 (sp + 4));
  f a;;
  ret.

Section trapasm.
Context (trap : Z -> M x86 unit) (after_call : Z).

Definition alltraps : M x86 unit :=
  pushl_sreg DS;;
  pushl_sreg ES;;
  pushl_sreg FS;;
  pushl_sreg GS;;
  pushal;;
  movw_ax (Z.shiftl SEG_KDATA 3);;
  movw_sreg DS;;
  movw_sreg ES;;
  movw_ax (Z.shiftl SEG_KCPU 3);;
  movw_sreg FS;;
  movw_sreg GS;;
  pushl_reg ESP;;
  call after_call (c_routine trap);;
  addl 4 ESP;;
  trapret.

(** The exceptions for which the processor pushes an error code. *)
Definition has_error_code (i : Z) : bool := (i =? 8) || ((10 <=? i) && (i <=? 14)) || (i =? 17).

(** The entry point [vector<i>]. *)
Definition vector (i : Z) : M x86 unit :=
  when (negb (has_error_code i)) (pushl 0);;
  pushl i;;
  alltraps.

End trapasm.

(** ** swtch.S *)

Definition swtch : M x86 unit :=
  sp ← geti ESP; old ← mov_from SS (u32 (sp + 4)); seti EAX old;;
  sp ← geti ESP; new ← mov_from SS (u32 (sp + 8)); seti EDX new;;
  pushl_reg EBP;;
  pushl_reg EBX;;
  pushl_reg ESI;;
  pushl_reg EDI;;
  sp ← geti ESP; a ← geti EAX; mov_to DS a sp;;
  d ← geti EDX; seti ESP d;;
  popl_reg EDI;;
  popl_reg ESI;;
  popl_reg EBX;;
  popl_reg EBP;;
  ret.

(** ** The trap frame *)

(** [struct trapframe], without the padding. *)
Record trapframe := MkTrapframe {
  f_edi : Z; f_esi : Z; f_ebp : Z; f_oesp : Z; f_ebx : Z; f_edx : Z; f_ecx : Z; f_eax : Z;
  f_gs : Z; f_fs : Z; f_es : Z; f_ds : Z; f_trapno : Z;
  f_err : Z; f_eip : Z; f_cs : Z; f_eflags : Z;
  f_esp : Z; f_ss : Z }.

(** The words of the frame that are there for every trap. *)
Definition frame_words (f : trapframe) : list Z :=
  [f_edi f; f_esi f; f_ebp f; f_oesp f; f_ebx f; f_edx f; f_ecx f; f_eax f;
   f_gs f; f_fs f; f_es f; f_ds f; f_trapno f; f_err f; f_eip f; f_cs f; f_eflags f].

(** Those that are there when the trap came from user level. *)
Definition user_words (f : trapframe) : list Z := [f_esp f; f_ss f].

(** ** Stepping through the code *)

Lemma pushl_more v l sp s :
  flat (ss (sr s)) -> 4 * Z.of_nat (length l + 1) <= sp < 2 ^ 32 -> pushl v (pushed l sp s) = Ok tt (pushed (l ++ [v]) sp s).
Proof.
  intros Hf He. rewrite <- (pushes_more l [v]) by (done || (rewrite length_app; cbn [length]; lia)).
  cbn [pushes]. munfold. by destruct (pushl _ _) as [[]| | | |].
Qed.

(** [pushal] on a stack with [l] pushed. *)
Lemma pushal_more l sp s :
  flat (ss (sr s)) -> 4 * Z.of_nat (length l + 8) <= sp < 2 ^ 32 ->
  pushal (pushed l sp s) = Ok tt (pushed (l ++ [eax (gpr s); ecx (gpr s); edx (gpr s); ebx (gpr s);
    sp - 4 * Z.of_nat (length l); ebp (gpr s); esi (gpr s); edi (gpr s)]) sp s).
Proof.
  intros Hf He. unfold pushal. rewrite (bind_ok get _ _ _ _ eq_refl).
  rewrite pushes_more by (done || (rewrite length_app; cbn [length]; lia)). by destruct s as [[] ? ? ? ? ? ? ? ?].
Qed.

(** The segment a selector of the table of CPU [c] gives. *)
Definition seg_for (c sel : Z) : option segment :=
  if (0 <=? sel) && (sel <? 4) then Some (null_segment sel)
  else if sel =? 16 then Some kdata_seg
  else if sel =? 24 then Some (MkSegment 24 (c + 180) 4095 0)
  else if sel =? 35 then Some (MkSegment 35 0 0xffffffff 3)
  else if sel =? 43 then Some (MkSegment 43 0 0xffffffff 3)
  else None.

Lemma load_sreg_ok c s r sel g :
  gdtr s = (c + 112, 55) -> gdt_ok c (memory s) -> cpl s = 0 -> seg_for c sel = Some g ->
  load_sreg r sel s = Ok tt (set_sr (sset (sr s) r g) s).
Proof.
  intros Hg G Hc H. unfold load_sreg. rewrite (bind_ok get _ _ _ _ eq_refl). unfold seg_for in H.
  destruct ((0 <=? sel) && (sel <? 4)) eqn:E0.
  { injection H as <-. by rewrite (proj2 (Z.eqb_eq (sel / 4) 0)) by lia. }
  pose proof (fun i rpl => descriptor_gdt s c i rpl Hg) as D.
  destruct (Z.eqb_spec sel 16) as [->|]; [|destruct (Z.eqb_spec sel 24) as [->|]; [|destruct (Z.eqb_spec sel 35) as [->|];
    [|destruct (Z.eqb_spec sel 43) as [->|]; [|done]]]]; injection H as <-.
  - rewrite (D 2 0 ltac:(lia) ltac:(lia) : descriptor s 16 = _), (gdt_kdata _ _ G : gdt_entry _ c 2 = _), Hc. reflexivity.
  - rewrite (D 3 0 ltac:(lia) ltac:(lia) : descriptor s 24 = _), (gdt_kcpu _ _ G : gdt_entry _ c 3 = _), Hc. reflexivity.
  - rewrite (D 4 3 ltac:(lia) ltac:(lia) : descriptor s 35 = _), (gdt_ucode _ _ G : gdt_entry _ c 4 = _), Hc. reflexivity.
  - rewrite (D 5 3 ltac:(lia) ltac:(lia) : descriptor s 43 = _), (gdt_udata _ _ G : gdt_entry _ c 5 = _), Hc. reflexivity.
Qed.

(** Popping a known word, with the registers written out. *)
Lemma popl_word a c d b sp bp si di s w :
  load32 (memory s) sp = w -> flat (ss (sr s)) -> 0 <= sp -> sp + 4 < 2 ^ 32 ->
  popl (set_gpr (MkRegs a c d b sp bp si di) s) = Ok w (set_gpr (MkRegs a c d b (sp + 4) bp si di) s).
Proof. intros <- Hf H0 H1. by rewrite popl_ok. Qed.

Lemma seti_ok r v g s : seti r v (set_gpr g s) = Ok tt (set_gpr (rset g r v) s).
Proof. done. Qed.

(** One [popl] into a register; [H] says what is at the top of the stack. *)
Ltac step_pop H :=
  match goal with Hf : flat (ss (sr ?s)) |- _ =>
    rewrite (bind_ok _ _ _ _ _ (popl_word _ _ _ _ _ _ _ _ s _ H Hf ltac:(lia) ltac:(lia)))
  end; rewrite (bind_ok _ _ _ _ _ (seti_ok _ _ _ _)); cbn [rset].

Lemma popal_ok sp s f :
  flat (ss (sr s)) -> esp (gpr s) = sp -> 0 <= sp -> sp + 32 < 2 ^ 32 -> words_at (memory s) sp (frame_words f) ->
  popal s = Ok tt (set_gpr (MkRegs (f_eax f) (f_ecx f) (f_edx f) (f_ebx f) (sp + 32) (f_ebp f) (f_esi f) (f_edi f)) s).
Proof.
  intros Hf He H0 H1 W. cbn [words_at frame_words] in W. destruct W as (W1 & W2 & W3 & W4 & W5 & W6 & W7 & W8 & _).
  assert (Es : s = set_gpr (MkRegs (eax (gpr s)) (ecx (gpr s)) (edx (gpr s)) (ebx (gpr s)) sp (ebp (gpr s)) (esi (gpr s)) (edi (gpr s))) s).
  { subst sp. by destruct s as [[] ? ? ? ? ? ? ? ?]. }
  rewrite Es at 1. unfold popal.
  step_pop W1. step_pop W2. step_pop W3.
  rewrite (bind_ok _ _ _ _ _ (popl_word _ _ _ _ _ _ _ _ s _ W4 Hf ltac:(lia) ltac:(lia))).
  step_pop W5. step_pop W6. step_pop W7.
  rewrite (bind_ok _ _ _ _ _ (popl_word _ _ _ _ _ _ _ _ s _ W8 Hf ltac:(lia) ltac:(lia))).
  by replace (sp + 32) with (sp + 4 + 4 + 4 + 4 + 4 + 4 + 4 + 4) by lia.
Qed.

(** The table of CPU [c] is in place and the kernel runs. *)
Record kernel_mode (c : Z) (s : x86) : Prop := {
  km_gdtr : gdtr s = (c + 112, 55);
  km_gdt : gdt_ok c (memory s);
  km_cpl : cpl s = 0;
  km_ss : flat (ss (sr s)) }.

Lemma kernel_mode_sset c s r g :
  r <> CS -> r <> SS -> kernel_mode c s -> kernel_mode c (set_sr (sset (sr s) r g) s).
Proof. intros H1 H2 [K1 K2 K3 K4]. destruct s as [? [] ? ? ? ? ? ? ?]. by destruct r; split. Qed.

Lemma popl_sreg_word c0 r a c d b sp bp si di s w g :
  load32 (memory s) sp = w -> kernel_mode c0 s -> 0 <= sp -> sp + 4 < 2 ^ 32 -> seg_for c0 (w mod 2 ^ 16) = Some g ->
  popl_sreg r (set_gpr (MkRegs a c d b sp bp si di) s) =
    Ok tt (set_gpr (MkRegs a c d b (sp + 4) bp si di) (set_sr (sset (sr s) r g) s)).
Proof.
  intros Hw K H0 H1 Hg. destruct K as [K1 K2 K3 K4]. unfold popl_sreg.
  rewrite (bind_ok _ _ _ _ _ (popl_word a c d b sp bp si di s w Hw K4 H0 H1)). by rewrite (load_sreg_ok c0 _ r _ g).
Qed.

(** The segment registers a frame gives. *)
Record frame_segs (c : Z) (f : trapframe) (gd ge gf gg : segment) : Prop := {
  fs_ds : seg_for c (f_ds f mod 2 ^ 16) = Some gd;
  fs_es : seg_for c (f_es f mod 2 ^ 16) = Some ge;
  fs_fs : seg_for c (f_fs f mod 2 ^ 16) = Some gf;
  fs_gs : seg_for c (f_gs f mod 2 ^ 16) = Some gg }.

Definition frame_regs (f : trapframe) (sp : Z) : regs :=
  MkRegs (f_eax f) (f_ecx f) (f_edx f) (f_ebx f) sp (f_ebp f) (f_esi f) (f_edi f).

(** [trapret] up to its last instruction. *)
Lemma trapret_to_iret c s sp f gd ge gf gg :
  kernel_mode c s -> esp (gpr s) = sp -> 0 <= sp -> sp + 68 < 2 ^ 32 -> words_at (memory s) sp (frame_words f) ->
  frame_segs c f gd ge gf gg ->
  trapret s = iret (set_gpr (frame_regs f (sp + 56)) (set_sr (MkSregs (cs (sr s)) (ss (sr s)) gd ge gf gg) s)).
Proof.
  intros K He H0 H1 W [Sd Se Sf Sg]. unfold trapret.
  rewrite (bind_ok _ _ _ _ _ (popal_ok sp s f (km_ss _ _ K) He H0 ltac:(lia) W)).
  cbn [words_at frame_words] in W. destruct W as (_ & _ & _ & _ & _ & _ & _ & _ & W9 & W10 & W11 & W12 & _).
  replace (sp + 4 + 4 + 4 + 4 + 4 + 4 + 4 + 4) with (sp + 32) in * by lia.
  rewrite (bind_ok _ _ _ _ _ (popl_sreg_word c GS _ _ _ _ _ _ _ _ s _ _ W9 K ltac:(lia) ltac:(lia) Sg)).
  apply (kernel_mode_sset c s GS gg) in K; [|done..].
  rewrite (bind_ok _ _ _ _ _ (popl_sreg_word c FS _ _ _ _ _ _ _ _ (set_sr _ s) _ _ W10 K ltac:(lia) ltac:(lia) Sf)).
  apply (kernel_mode_sset c _ FS gf) in K; [|done..].
  rewrite (bind_ok _ _ _ _ _ (popl_sreg_word c ES _ _ _ _ _ _ _ _ (set_sr _ (set_sr _ s)) _ _ W11 K ltac:(lia) ltac:(lia) Se)).
  apply (kernel_mode_sset c _ ES ge) in K; [|done..].
  rewrite (bind_ok _ _ _ _ _ (popl_sreg_word c DS _ _ _ _ _ _ _ _ (set_sr _ (set_sr _ (set_sr _ s))) _ _ W12 K ltac:(lia) ltac:(lia) Sd)).
  unfold addl, geti. rewrite bind_assoc, (bind_ok (reads _) _ _ _ _ eq_refl). cbn [rget gpr set_gpr esp].
  rewrite (bind_ok _ _ _ _ _ (seti_ok _ _ _ _)). cbn [rset]. rewrite u32_small by lia. unfold frame_regs.
  replace (sp + 32 + 4 + 4 + 4 + 4 + 8) with (sp + 56) by lia. by destruct s as [? [] ? ? ? ? ? ? ?].
Qed.

Definition ucode_seg : segment := MkSegment 35 0 0xffffffff 3.
Definition udata_seg : segment := MkSegment 43 0 0xffffffff 3.

(** [iret] to user level. *)
Lemma iret_user c s a cx d b sp bp si di pc fl usp :
  kernel_mode c s -> 0 <= sp -> sp + 20 < 2 ^ 32 -> words_at (memory s) sp [pc; 35; fl; usp; 43] ->
  let keep := keep_segment 3 in
  iret (set_gpr (MkRegs a cx d b sp bp si di) s) =
    Ok tt (set_eip pc (set_eflags fl (set_gpr (MkRegs a cx d b usp bp si di)
      (set_sr (MkSregs ucode_seg udata_seg (keep (ds (sr s))) (keep (es (sr s))) (keep (fs (sr s))) (keep (gs (sr s)))) s)))).
Proof.
  intros [K1 K2 K3 K4] H0 H1 W keep. cbn [words_at] in W. destruct W as (W1 & W2 & W3 & W4 & W5 & _).
  unfold iret. rewrite (bind_ok get _ _ _ _ eq_refl).
  rewrite (bind_ok _ _ _ _ _ (popl_word _ _ _ _ _ _ _ _ s _ W1 K4 ltac:(lia) ltac:(lia))).
  rewrite (bind_ok _ _ _ _ _ (popl_word _ _ _ _ _ _ _ _ s _ W2 K4 ltac:(lia) ltac:(lia))).
  rewrite (bind_ok _ _ _ _ _ (popl_word _ _ _ _ _ _ _ _ s _ W3 K4 ltac:(lia) ltac:(lia))). cbv zeta.
  set (s0 := set_gpr _ s).
  rewrite (descriptor_gdt s0 c 4 3 K1 ltac:(lia) ltac:(lia) : descriptor s0 (35 mod 2 ^ 16) = _).
  rewrite (gdt_ucode _ _ K2 : gdt_entry (memory s0) c 4 = _). change (cpl s0) with (cpl s). rewrite K3.
  change (is_code ucode) with true. change (is_conforming ucode) with false. change (d_p ucode =? 1) with true.
  change (d_dpl ucode) with 3. change ((35 mod 2 ^ 16) mod 4) with 3. change (3 =? 3) with true.
  change (0 <=? 3) with true. change (0 <? 3) with true. cbn [andb negb].
  rewrite bind_assoc, (bind_ok _ _ _ _ _ (popl_word _ _ _ _ _ _ _ _ s _ W4 K4 ltac:(lia) ltac:(lia))).
  rewrite bind_assoc, (bind_ok _ _ _ _ _ (popl_word _ _ _ _ _ _ _ _ s _ W5 K4 ltac:(lia) ltac:(lia))).
  rewrite (descriptor_gdt s0 c 5 3 K1 ltac:(lia) ltac:(lia) : descriptor s0 (43 mod 2 ^ 16) = _).
  rewrite (gdt_udata _ _ K2 : gdt_entry (memory s0) c 5 = _). reflexivity.
Qed.

(** [iret] inside the kernel. *)
Lemma iret_kernel c s a cx d b sp bp si di pc fl :
  kernel_mode c s -> 0 <= sp -> sp + 12 < 2 ^ 32 -> words_at (memory s) sp [pc; 8; fl] ->
  iret (set_gpr (MkRegs a cx d b sp bp si di) s) =
    Ok tt (set_eip pc (set_eflags fl (set_gpr (MkRegs a cx d b (sp + 12) bp si di) (set_sr (sset (sr s) CS kcode_seg) s)))).
Proof.
  intros [K1 K2 K3 K4] H0 H1 W. cbn [words_at] in W. destruct W as (W1 & W2 & W3 & _).
  unfold iret. rewrite (bind_ok get _ _ _ _ eq_refl).
  rewrite (bind_ok _ _ _ _ _ (popl_word _ _ _ _ _ _ _ _ s _ W1 K4 ltac:(lia) ltac:(lia))).
  rewrite (bind_ok _ _ _ _ _ (popl_word _ _ _ _ _ _ _ _ s _ W2 K4 ltac:(lia) ltac:(lia))).
  rewrite (bind_ok _ _ _ _ _ (popl_word _ _ _ _ _ _ _ _ s _ W3 K4 ltac:(lia) ltac:(lia))). cbv zeta.
  set (s0 := set_gpr _ s).
  rewrite (descriptor_gdt s0 c 1 0 K1 ltac:(lia) ltac:(lia) : descriptor s0 (8 mod 2 ^ 16) = _).
  rewrite (gdt_kcode _ _ K2 : gdt_entry (memory s0) c 1 = _). change (cpl s0) with (cpl s). rewrite K3.
  replace (sp + 12) with (sp + 4 + 4 + 4) by lia. reflexivity.
Qed.

(** ** From the vector to [trap] and back *)

Section through_trap.
Context (trap : Z -> M x86 unit) (after_call c : Z).
Hypothesis Hac : word after_call.

(** What [vector n] and [alltraps] push above [l] words already pushed. *)
Definition vector_words (n : Z) (sp : Z) (l : list Z) (s : x86) : list Z :=
  (if has_error_code n then [] else [0]) ++
  [n; sg_sel (ds (sr s)); sg_sel (es (sr s)); sg_sel (fs (sr s)); sg_sel (gs (sr s));
   eax (gpr s); ecx (gpr s); edx (gpr s); ebx (gpr s);
   sp - 4 * (Z.of_nat (length l) + (if has_error_code n then 5 else 6)); ebp (gpr s); esi (gpr s); edi (gpr s)].

Definition kcpu_seg : segment := MkSegment 24 (c + 180) 4095 0.

(** The machine when [trap] is called, its frame at [tf] in the memory [m]. *)
Definition at_trap (s : x86) (m : mem) (tf : Z) : x86 :=
  let g := gpr s in
  pushed [tf; after_call] tf
    (set_gpr (MkRegs (eax g / 2 ^ 16 * 2 ^ 16 + 24) (ecx g) (edx g) (ebx g) tf (ebp g) (esi g) (edi g))
      (set_sr (MkSregs (cs (sr s)) (ss (sr s)) kdata_seg kdata_seg kcpu_seg kcpu_seg) (set_memory m s))).

(** What [trap] leaves alone, as every C routine does: the stack pointer and
    its return address, the code and stack segments, the descriptor table. *)
Record c_return (t t' : x86) : Prop := {
  cr_esp : esp (gpr t') = esp (gpr t);
  cr_cs : cs (sr t') = cs (sr t);
  cr_ss : ss (sr t') = ss (sr t);
  cr_gdtr : gdtr t' = gdtr t;
  cr_gdt : gdt_ok c (memory t) -> gdt_ok c (memory t');
  cr_ret : load32 (memory t') (esp (gpr t)) = load32 (memory t) (esp (gpr t)) }.

(** Compute on machines whose registers are written out. *)
Ltac mcompute :=
  cbv beta iota delta [rget rset set_gpr set_sr sset sget gpr sr eip eflags cr3 gdtr idtr tr memory eax ecx edx ebx esp ebp esi edi cs ss ds es fs gs].

(** Loading the kernel's segments. *)
Lemma load_kernel_segs (k : M x86 unit) s :
  kernel_mode c s -> word (eax (gpr s)) ->
  (movw_ax (Z.shiftl SEG_KDATA 3);; movw_sreg DS;; movw_sreg ES;; movw_ax (Z.shiftl SEG_KCPU 3);; movw_sreg FS;; movw_sreg GS;; k) s
  = k (set_gpr (rset (gpr s) EAX (eax (gpr s) / 2 ^ 16 * 2 ^ 16 + 24))
      (set_sr (MkSregs (cs (sr s)) (ss (sr s)) kdata_seg kdata_seg kcpu_seg kcpu_seg) s)).
Proof.
  intros K He. destruct s as [[a cx d b sp bp si di] [s1 s2 s3 s4 s5 s6] pc fl r3 gd id tr0 m]. cbn [gpr eax] in He.
  change (Z.shiftl SEG_KDATA 3) with 16. change (Z.shiftl SEG_KCPU 3) with 24. unfold movw_ax, movw_sreg, geti, seti.
  assert (E16 : (a / 2 ^ 16 * 2 ^ 16 + 16) mod 2 ^ 16 = 16) by (rewrite Z.add_comm, Z.mod_add by lia; done).
  assert (E24 : (a / 2 ^ 16 * 2 ^ 16 + 24) mod 2 ^ 16 = 24) by (rewrite Z.add_comm, Z.mod_add by lia; done).
  assert (Ea : (a / 2 ^ 16 * 2 ^ 16 + 16) / 2 ^ 16 = a / 2 ^ 16) by (rewrite Z.div_add_l by lia; change (16 / 2 ^ 16) with 0; lia).
  assert (Seg : forall r g0 v g1 g2 g3 g4, r <> CS -> r <> SS -> seg_for c v = Some g0 ->
    load_sreg r v (MkX86 (MkRegs (a / 2 ^ 16 * 2 ^ 16 + v) cx d b sp bp si di) (MkSregs s1 s2 g1 g2 g3 g4) pc fl r3 gd id tr0 m)
    = Ok tt (MkX86 (MkRegs (a / 2 ^ 16 * 2 ^ 16 + v) cx d b sp bp si di) (sset (MkSregs s1 s2 g1 g2 g3 g4) r g0) pc fl r3 gd id tr0 m)).
  { intros r g0 v g1 g2 g3 g4 _ _ Hv. destruct K as [K1 K2 K3 K4]. by rewrite (load_sreg_ok c _ r v g0). }
  munfold. mcompute.
  rewrite E16, (Seg DS kdata_seg 16) by done. mcompute.
  rewrite E16, (Seg ES kdata_seg 16) by done. mcompute.
  rewrite Ea, E24, (Seg FS kcpu_seg 24) by done. mcompute.
  rewrite E24, (Seg GS kcpu_seg 24) by done. reflexivity.
Qed.

Lemma vector_pushes n sp l s :
  kernel_mode c s -> 4 * (Z.of_nat (length l) + 14) <= sp < 2 ^ 32 ->
  vector trap after_call n (pushed l sp s) =
    (movw_ax (Z.shiftl SEG_KDATA 3);; movw_sreg DS;; movw_sreg ES;; movw_ax (Z.shiftl SEG_KCPU 3);; movw_sreg FS;; movw_sreg GS;;
     pushl_reg ESP;; call after_call (c_routine trap);; addl 4 ESP;; trapret) (pushed (l ++ vector_words n sp l s) sp s).
Proof.
  intros [_ _ _ Hf] Hb. unfold vector, alltraps, pushl_sreg.
  assert (E0 : when (negb (has_error_code n)) (pushl 0) (pushed l sp s) = Ok tt (pushed (l ++ if has_error_code n then [] else [0]) sp s)).
  { unfold when. destruct (has_error_code n); cbn [negb].
    - by rewrite app_nil_r.
    - apply pushl_more; [done|lia]. }
  rewrite (bind_ok _ _ _ _ _ E0). set (l0 := l ++ _).
  assert (Hl : Z.of_nat (length l0) = Z.of_nat (length l) + if has_error_code n then 0 else 1).
  { unfold l0. rewrite length_app. destruct (has_error_code n); cbn [length]; lia. }
  assert (Hl1 : Z.of_nat (length l0) <= Z.of_nat (length l) + 1) by (destruct (has_error_code n); lia).
  assert (P : forall v l1, (length l1 <= 5)%nat -> pushl v (pushed (l0 ++ l1) sp s) = Ok tt (pushed (l0 ++ l1 ++ [v]) sp s)).
  { intros v l1 H1. rewrite app_assoc. apply pushl_more; [done|]. rewrite length_app. lia. }
  pose proof (P n [] ltac:(cbn; lia)) as P1. rewrite app_nil_r in P1. rewrite (bind_ok _ _ _ _ _ P1). cbn [app].
  do 4 (rewrite bind_assoc, (bind_ok get _ _ _ _ eq_refl);
    match goal with |- context [pushed (l0 ++ ?l1) sp s] => rewrite (bind_ok _ _ _ _ _ (P _ l1 ltac:(cbn; lia))) end; cbn [app]).
  match goal with |- context [pushed ?l1 sp s] => rewrite (bind_ok _ _ _ _ _ (pushal_more l1 sp s Hf ltac:(rewrite length_app; cbn [length]; lia))) end.
  f_equal. unfold pushed at 1. unfold vector_words. set (w1 := (l0 ++ _) ++ _). set (w2 := l ++ _).
  assert (E : w1 = w2); [|by rewrite E].
  unfold w1, w2, l0. rewrite <- !app_assoc. do 2 f_equal. cbn [app sget sr pushed set_gpr set_memory]. do 9 f_equal.
  rewrite !length_app. f_equal. f_equal. f_equal. cbn [length]. destruct (has_error_code n); cbn [length]; lia.
Qed.

Lemma vector_ok n sp l s t' :
  let ws := l ++ vector_words n sp l s in
  let tf := sp - 4 * Z.of_nat (length ws) in
  let t := at_trap s (push_mem (memory s) sp ws) tf in
  kernel_mode c s -> word (eax (gpr s)) -> 8 <= tf -> sp < 2 ^ 32 -> sp <= c + 120 \/ c + 160 <= tf - 8 ->
  trap tf t = Ok tt t' -> c_return t t' ->
  vector trap after_call n (pushed l sp s) = trapret (set_gpr (rset (gpr t') ESP tf) (set_eip after_call t')).
Proof.
  intros ws tf t K Ha Htf Hsp Hd Et R.
  assert (Hlen : Z.of_nat (length ws) = Z.of_nat (length l) + if has_error_code n then 13 else 14).
  { unfold ws, vector_words. rewrite !length_app. destruct (has_error_code n); cbn [length]; lia. }
  assert (Hb : 4 * (Z.of_nat (length l) + 14) <= sp < 2 ^ 32) by (destruct (has_error_code n); lia).
  rewrite vector_pushes by done. fold ws. set (s1 := pushed ws sp s).
  assert (K1 : kernel_mode c s1).
  { destruct K as [K1 K2 K3 K4]. split; [done| |done|done]. eapply gdt_ok_ext; [|exact K2]. intros x Hx. apply push_mem_ne. lia. }
  rewrite load_kernel_segs by (done || by destruct s as [[] ? ? ? ? ? ? ? ?]).
  set (s2 := set_gpr _ (set_sr _ s1)).
  assert (E2 : s2 = set_gpr (MkRegs (eax (gpr s) / 2 ^ 16 * 2 ^ 16 + 24) (ecx (gpr s)) (edx (gpr s)) (ebx (gpr s)) tf (ebp (gpr s)) (esi (gpr s)) (edi (gpr s)))
      (set_sr (MkSregs (cs (sr s)) (ss (sr s)) kdata_seg kdata_seg kcpu_seg kcpu_seg) (set_memory (push_mem (memory s) sp ws) s))).
  { by destruct s as [[] [] ? ? ? ? ? ? ?]. }
  assert (Hf : flat (ss (sr s2))) by (rewrite E2; apply K).
  assert (He : esp (gpr s2) = tf) by (by rewrite E2).
  unfold pushl_reg, geti. rewrite bind_assoc, (bind_ok (reads _) _ _ _ _ eq_refl). cbn [rget]. rewrite He.
  assert (P : forall v l1, (length l1 <= 1)%nat -> pushl v (pushed l1 tf s2) = Ok tt (pushed (l1 ++ [v]) tf s2)).
  { intros v l1 H1. apply pushl_more; [done|lia]. }
  pose proof (P tf [] ltac:(cbn; lia)) as P1. rewrite <- He in P1 at 2. rewrite pushed_nil in P1. rewrite (bind_ok _ _ _ _ _ P1).
  unfold call. rewrite bind_assoc, (bind_ok _ _ _ _ _ (P after_call [tf] ltac:(cbn; lia))). cbn [app].
  assert (T : pushed [tf; after_call] tf s2 = t) by (by rewrite E2). rewrite T. unfold c_routine.
  assert (Tf : flat (ss (sr t))) by (rewrite <- T; done).
  assert (Te : esp (gpr t) = tf - 8) by (rewrite <- T; apply esp_rset).
  assert (Tw : words_at (memory t) (tf - 8) [after_call; tf]).
  { rewrite <- T. apply (words_at_push (memory s2) tf [tf; after_call]). apply Forall_cons. split; [unfold word; lia|]. by apply Forall_singleton. }
  cbn [words_at] in Tw. destruct Tw as (Tw1 & Tw2 & _). replace (tf - 8 + 4) with (tf - 4) in Tw2 by lia.
  rewrite !bind_assoc. unfold geti. rewrite (bind_ok (reads _) _ _ _ _ eq_refl). cbn [rget].
  rewrite Te, (u32_small (tf - 8 + 4)) by lia. replace (tf - 8 + 4) with (tf - 4) by lia. rewrite !bind_assoc.
  rewrite (bind_ok _ _ _ _ _ (mov_from_flat SS (tf - 4) t Tf ltac:(lia))), Tw2.
  rewrite !bind_assoc, (bind_ok _ _ _ _ _ Et). destruct R as [R1 R2 R6 R7 R8 R9].
  assert (Tf' : flat (ss (sr t'))) by (by rewrite R6). rewrite Te in *. unfold ret. rewrite !bind_assoc.
  rewrite (bind_ok _ _ _ _ _ (popl_ok t' Tf' ltac:(lia) ltac:(lia))). rewrite R1, R9, Tw1.
  rewrite (bind_ok (modify _) _ _ _ _ eq_refl), bind_assoc, (bind_ok (reads _) _ _ _ _ eq_refl). cbn [eip set_eip].
  rewrite Z.eqb_refl. rewrite (bind_ok (mret tt) _ _ _ _ eq_refl). unfold addl, geti.
  rewrite bind_assoc, (bind_ok (reads _) _ _ _ _ eq_refl). cbn [gpr set_eip set_gpr rget]. rewrite esp_rset, u32_small by lia.
  rewrite (bind_ok (seti _ _) _ _ _ _ eq_refl). cbn [gpr set_eip set_gpr]. rewrite rset_rset.
  by replace (tf - 8 + 4 + 4) with tf by lia.
Qed.

End through_trap.

(** ** Traps from user level *)

Section from_user.
Context (c : Z).

(** The frame of a trap that interrupts [u] at [back]. *)
Definition frame_of (u : x86) (n back e oesp : Z) : trapframe :=
  let g := gpr u in
  MkTrapframe (edi g) (esi g) (ebp g) oesp (ebx g) (edx g) (ecx g) (eax g)
    (sg_sel (gs (sr u))) (sg_sel (fs (sr u))) (sg_sel (es (sr u))) (sg_sel (ds (sr u))) n
    e back (sg_sel (cs (sr u))) (eflags u) (esp g) (sg_sel (ss (sr u))).

(** The processor pushes an error code for exactly these exceptions. *)
Definition error_code (n : Z) (err : option Z) : Prop := has_error_code n = true <-> is_Some err.

Definition regs_words (u : x86) : Prop :=
  Forall word [eax (gpr u); ecx (gpr u); edx (gpr u); ebx (gpr u); esp (gpr u); ebp (gpr u); esi (gpr u); edi (gpr u);
    sg_sel (cs (sr u)); sg_sel (ss (sr u)); sg_sel (ds (sr u)); sg_sel (es (sr u)); sg_sel (fs (sr u)); sg_sel (gs (sr u));
    eip u; eflags u].

(** The machine when [trap] is called for a trap from user level, with the
    kernel stack ending at [k]: the whole state of [u] is in the frame. *)
Record trapped (k : Z) (u : x86) (n back e : Z) (t : x86) : Prop := {
  td_frame : words_at (memory t) (k - 76) (frame_words (frame_of u n back e (k - 44)) ++ user_words (frame_of u n back e (k - 44)));
  td_cpl : cpl t = 0;
  td_ds : ds (sr t) = kdata_seg /\ es (sr t) = kdata_seg;
  td_gs : gs (sr t) = kcpu_seg c;
  td_esp : esp (gpr t) = k - 84;
  td_gdtr : gdtr t = gdtr u;
  td_mem : forall x, x < k - 84 \/ k <= x -> memory t x = memory u x }.

(** The machine that goes on from the frame [f] at user level. *)
Record resumes (f : trapframe) (r : x86) : Prop := {
  rs_regs : gpr r = frame_regs f (f_esp f);
  rs_cs : cs (sr r) = ucode_seg;
  rs_ss : ss (sr r) = udata_seg;
  rs_segs : frame_segs c f (ds (sr r)) (es (sr r)) (fs (sr r)) (gs (sr r));
  rs_eip : eip r = f_eip f;
  rs_eflags : eflags r = f_eflags f }.

(** A frame to return to user level with. *)
Record user_frame (f : trapframe) : Prop := {
  uf_cs : f_cs f = 35;
  uf_ss : f_ss f = 43;
  uf_segs : Forall (fun v => exists g, seg_for c (v mod 2 ^ 16) = Some g /\ sg_dpl g = 3) [f_ds f; f_es f; f_fs f; f_gs f] }.

Lemma trapret_resumes s k f :
  kernel_mode c s -> esp (gpr s) = k - 76 -> 76 <= k < 2 ^ 32 -> user_frame f ->
  words_at (memory s) (k - 76) (frame_words f ++ user_words f) ->
  exists r, trapret s = Ok tt r /\ resumes f r /\ memory r = memory s.
Proof.
  intros K He Hk [Uc Us Uf] W. rewrite !Forall_cons in Uf. destruct Uf as ((gd & Hd & Pd) & (ge & Hge & Pe) & (gf & Hgf & Pf) & (gg & Hgg & Pg) & _).
  assert (S : frame_segs c f gd ge gf gg) by done.
  assert (W0 := W). rewrite words_at_app in W0. destruct W0 as [W0 _].
  rewrite (trapret_to_iret c s (k - 76) f gd ge gf gg K He ltac:(lia) ltac:(lia) W0 S).
  set (s1 := set_sr _ s). assert (K1 : kernel_mode c s1) by (by destruct K; split).
  assert (W1 : words_at (memory s1) (k - 76 + 56) [f_eip f; 35; f_eflags f; f_esp f; 43]).
  { rewrite <- Uc, <- Us. apply (proj2 (proj1 (words_at_app (memory s) (k - 76) (take 14 (frame_words f)) [_; _; _; _; _]) W)). }
  unfold frame_regs. rewrite (iret_user c s1 _ _ _ _ (k - 76 + 56) _ _ _ _ _ _ K1 ltac:(lia) ltac:(lia) W1). eexists. split; [reflexivity|].
  assert (Keep : forall g, sg_dpl g = 3 -> keep_segment 3 g = g) by (intros g E; unfold keep_segment; by rewrite E).
  split; [|done]. split; try done. cbn [sr ds es fs gs set_eip set_eflags set_gpr set_sr s1]. rewrite !Keep by done. done.
Qed.

(** The base of the machine of [entered]: everything but what was pushed. *)
Definition entry_base (vec : Z -> Z) (n : Z) (u : x86) : x86 :=
  set_eip (vec n) (set_eflags (entry_flags (if n =? T_SYSCALL then STS_TG32 else STS_IG32) (eflags u))
    (set_sr (MkSregs kcode_seg (if cpl u =? 0 then ss (sr u) else kdata_seg) (ds (sr u)) (es (sr u)) (fs (sr u)) (gs (sr u))) u)).

Lemma entered_pushed vec k u n back err :
  entered vec k u n back err = pushed (entry_words u back err) (entry_sp k u) (entry_base vec n u).
Proof. done. Qed.

(** The words of the frame, last pushed first. *)
Lemma user_frame_words vec u n back err k :
  cpl u = 3 -> error_code n err ->
  let l := entry_words u back err in
  let f := frame_of u n back (default 0 err) (k - 44) in
  rev (l ++ vector_words n k l (entry_base vec n u)) = frame_words f ++ user_words f.
Proof.
  intros Hc Hn l f. unfold l, entry_words, vector_words. rewrite Hc. change (3 =? 0) with false. unfold error_code in Hn.
  destruct (has_error_code n), err as [e|]; cbn [app length rev]; unfold f, frame_words, user_words, frame_of; cbn [f_edi f_esi f_ebp f_oesp f_ebx f_edx f_ecx f_eax f_gs f_fs f_es f_ds f_trapno f_err f_eip f_cs f_eflags f_esp f_ss app].
  - by replace (k - 4 * (Z.of_nat 6 + 5)) with (k - 44) by lia.
  - by destruct (proj1 Hn eq_refl).
  - by discriminate (proj2 Hn (ex_intro _ e eq_refl)).
  - by replace (k - 4 * (Z.of_nat 5 + 6)) with (k - 44) by lia.
Qed.

End from_user.

Lemma user_frame_length vec u n back err k :
  cpl u = 3 -> error_code n err ->
  let l := entry_words u back err in Z.of_nat (length (l ++ vector_words n k l (entry_base vec n u))) = 19.
Proof. intros Hc Hn l. rewrite <- length_rev. unfold l. by rewrite (user_frame_words vec u n back err k). Qed.

Lemma user_trapped c idt vec k ac u n back err :
  cpu_ok c idt vec k u -> cpl u = 3 -> regs_words u -> word back -> word n -> word (default 0 err) -> error_code n err ->
  84 <= k < 2 ^ 32 -> word ac ->
  let l := entry_words u back err in
  trapped c k u n back (default 0 err)
    (at_trap ac c (entry_base vec n u) (push_mem (memory u) k (l ++ vector_words n k l (entry_base vec n u))) (k - 76)).
Proof.
  intros OK Hc Hw Hb Hn He Hec Hk Hac l. set (ws := l ++ _).
  assert (El : Z.of_nat (length ws) = 19) by (by apply user_frame_length).
  assert (Er : rev ws = frame_words (frame_of u n back (default 0 err) (k - 44)) ++ user_words (frame_of u n back (default 0 err) (k - 44)))
    by (by apply user_frame_words).
  assert (F : forall x, k - 76 <= x \/ x < k - 84 -> memory (at_trap ac c (entry_base vec n u) (push_mem (memory u) k ws) (k - 76)) x = push_mem (memory u) k ws x).
  { intros x Hx. apply push_mem_ne. cbn [length]. lia. }
  split; try done.
  - rewrite <- Er. apply (words_at_ext (push_mem (memory u) k ws)); [intros; apply F; lia|].
    replace (k - 76) with (k - 4 * Z.of_nat (length ws)) by lia. apply words_at_push.
    rewrite <- (rev_involutive ws). apply List.Forall_rev. rewrite Er. unfold regs_words in Hw. rewrite !Forall_cons in Hw.
    destruct Hw as (H1 & H2 & H3 & H4 & H5 & H6 & H7 & H8 & H9 & H10 & H11 & H12 & H13 & H14 & H15 & H16 & _).
    repeat (apply Forall_cons; split; [first [assumption|unfold word; cbn; lia]|]). constructor.
  - cbn. lia.
  - intros x Hx. rewrite F by lia. apply push_mem_ne. lia.
Qed.

(** C37: a trap from user level saves the whole state of the process and
    returns to exactly what the frame says.  Whatever interrupt, exception or
    system call [n] it is, the entry through its gate, [vector n] and
    [alltraps] call [trap] at the highest privilege level with the kernel's
    segments and a [struct trapframe] that holds every register of the
    interrupted machine, at the same place for every trap, the last 76 bytes
    of the kernel stack.  When [trap] comes back, having left the frame [f]
    there, the process goes on at user level with all the registers, flags and
    address of [f]. *)
Theorem trap_saves_and_restores (c idt : Z) (vec : Z -> Z) (k ac : Z) (u : x86) (soft : bool) (n back : Z) (err : option Z)
    (trap : Z -> M x86 unit) (f : trapframe) (mt : mem -> Prop) :
  cpu_ok c idt vec k u -> cpl u = 3 -> regs_words u -> word back -> word (default 0 err) ->
  0 <= n < 256 -> error_code n err -> (soft = true -> n = T_SYSCALL) ->
  84 <= k < 2 ^ 32 -> (k <= c + 120 \/ c + 160 <= k - 84) -> word ac ->
  (forall t, trapped c k u n back (default 0 err) t ->
     exists t', trap (k - 76) t = Ok tt t' /\ c_return c t t' /\ words_at (memory t') (k - 76) (frame_words f ++ user_words f) /\
       mt (memory t')) ->
  user_frame c f ->
  exists e r, enter soft n back err u = Ok true e /\ eip e = vec n /\
    vector trap ac n e = Ok tt r /\ resumes c f r /\ mt (memory r).
Proof.
  intros OK Hc Hw Hb He Hn Hec Hs Hk Hd Hac Htrap Uf. set (l := entry_words u back err). set (ws := l ++ vector_words n k l (entry_base vec n u)).
  assert (Hsp : entry_sp k u = k) by (unfold entry_sp; by rewrite Hc).
  exists (entered vec k u n back err).
  assert (T : trapped c k u n back (default 0 err) (at_trap ac c (entry_base vec n u) (push_mem (memory u) k ws) (k - 76))).
  { apply (user_trapped c idt); try done. unfold word. lia. }
  destruct (Htrap _ T) as (t' & Et & R & W & Hm).
  assert (El : k - 4 * Z.of_nat (length ws) = k - 76) by (unfold ws, l; rewrite user_frame_length by done; lia).
  assert (Kb : kernel_mode c (entry_base vec n u)).
  { split; [apply (ok_gdtr _ _ _ _ _ OK)|apply (ok_gdt _ _ _ _ _ OK)|done|]. unfold entry_base. rewrite Hc. done. }
  assert (Ev : vector trap ac n (entered vec k u n back err) = trapret (set_gpr (rset (gpr t') ESP (k - 76)) (set_eip ac t'))).
  { rewrite entered_pushed, Hsp. fold l. unfold regs_words in Hw. rewrite Forall_cons in Hw.
    rewrite (vector_ok trap ac c Hac n k l (entry_base vec n u) t'); fold ws; rewrite ?El; try done; try lia. by destruct Hw. }
  destruct (trapret_resumes c (set_gpr (rset (gpr t') ESP (k - 76)) (set_eip ac t')) k f) as (r & Er & Rr & Mr).
  - destruct R as [R1 R2 R3 R4 R5 R6]. split; cbn [gdtr memory sr set_gpr set_eip].
    + rewrite R4, (td_gdtr _ _ _ _ _ _ _ T). apply (ok_gdtr _ _ _ _ _ OK).
    + apply R5. eapply gdt_ok_ext; [|exact (ok_gdt _ _ _ _ _ OK)]. intros x Hx. apply (td_mem _ _ _ _ _ _ _ T). lia.
    + unfold cpl. cbn [sr set_gpr set_eip]. rewrite R2. exact (td_cpl _ _ _ _ _ _ _ T).
    + rewrite R3. apply Kb.
  - apply esp_rset.
  - lia.
  - done.
  - done.
  - exists r. rewrite Ev, Mr. split_and!; try done. apply (enter_ok c idt vec k u OK); [lia|done|by right|rewrite Hsp; lia].
Qed.

(** The machine of [Segments.demo_machine] set up and in user mode. *)
Lemma demo_user : exists s, cpu_ok 0x80110000 0x80120000 (fun _ => 0x80808080) 0x80809080 s /\ gs_ok 0x80110000 0x80140000 s.
Proof.
  assert (L : layout 0x80110000 0x80120000 0x80130000 0x80140000) by (split; unfold word; lia).
  destruct (boot_cpu_ok _ _ _ _ demo_machine L) as (s1 & _ & G1 & G2 & G3 & G4 & G5 & F); [done|intros; unfold word, load32; cbn; lia|].
  assert (E : forall a, 0x80140000 <= a < 0x80141000 -> load32 (memory s1) a = 0x80808080).
  { intros a Ha. change 0x80808080 with (load32 (memory demo_machine) a). apply load32_ext. intros. apply F; lia. }
  destruct (run_process_ok _ _ _ _ s1 _ L G1 G2 G3 G4 G5) as (s2 & _ & C & _ & G & _); rewrite ?E by lia; unfold KSTACKSIZE; try lia.
  rewrite E in C by lia. by exists (mach s2).
Qed.

(** A [trap] that answers a system call with 7. *)
Definition demo_trap (tf : Z) : M x86 unit := modify (fun s => set_memory (store32 (memory s) (tf + 28) 7) s).

Definition demo_frame (u : x86) : trapframe :=
  let f := frame_of u 64 2 0 (0x80809080 - 44) in
  MkTrapframe (f_edi f) (f_esi f) (f_ebp f) (f_oesp f) (f_ebx f) (f_edx f) (f_ecx f) 7
    (f_gs f) (f_fs f) (f_es f) (f_ds f) (f_trapno f) (f_err f) (f_eip f) (f_cs f) (f_eflags f) (f_esp f) (f_ss f).

Lemma demo_trap_ok u t :
  trapped 0x80110000 0x80809080 u 64 2 0 t ->
  exists t', demo_trap (0x80809080 - 76) t = Ok tt t' /\ c_return 0x80110000 t t' /\
    words_at (memory t') (0x80809080 - 76) (frame_words (demo_frame u) ++ user_words (demo_frame u)) /\ True.
Proof.
  intros [T1 T2 T3 T4 T5 T6 T7]. eexists. split; [reflexivity|]. split; [|split; [|done]].
  - split; try done; cbn [memory set_memory].
    + intros G. eapply gdt_ok_ext; [|exact G]. intros x Hx. apply store32_ne. lia.
    + rewrite T5. apply load32_store32_ne. lia.
  - cbn [memory set_memory]. cbn [words_at frame_words user_words demo_frame frame_of app] in *.
    decompose [and] T1. split_and!; try done; try (rewrite load32_store32_ne by lia; assumption).
Qed.

Lemma trap_saves_and_restores_witness :
  exists u e r, cpl u = 3 /\ enter true 64 2 None u = Ok true e /\ vector demo_trap 0x80105000 64 e = Ok tt r /\
    eax (gpr r) = 7 /\ esp (gpr r) = 0x3000 /\ eip r = 2 /\ sg_sel (cs (sr r)) = 35.
Proof.
  destruct demo_user as (s & C & _). set (u := to_user s).
  destruct (trap_saves_and_restores 0x80110000 0x80120000 (fun _ => 0x80808080) 0x80809080 0x80105000 u true 64 2 None
    demo_trap (demo_frame u) (fun _ => True)) as (e & r & Ee & _ & Er & R & _).
  - by apply (cpu_ok_same _ _ _ _ s).
  - reflexivity.
  - unfold u, regs_words. cbn. repeat (apply Forall_cons; split; [unfold word; lia|]). constructor.
  - unfold word. lia.
  - unfold word. cbn. lia.
  - lia.
  - split; [discriminate|intros [x Hx]; discriminate Hx].
  - done.
  - lia.
  - lia.
  - unfold word. lia.
  - exact (demo_trap_ok u).
  - split; [reflexivity|reflexivity|]. repeat (apply Forall_cons; split; [by eexists|]). constructor.
  - exists u, e, r. split; [reflexivity|]. split; [exact Ee|]. split; [exact Er|]. destruct R as [R1 R2 R3 R4 R5 R6].
    rewrite R1, R2, R5. done.
Defined.

(** ** Switching kernel threads *)

(** [struct context], from its lowest word: what [swtch] saves of a thread
    that returns to [pc]. *)
Definition context_words (g : regs) (pc : Z) : list Z := [edi g; esi g; ebx g; ebp g; pc].

(** A kernel thread about to execute [swtch], called from before [pc] with the
    arguments [old] and [new]. *)
Record calls_swtch (s : x86) (pc old new : Z) : Prop := {
  sw_ss : flat (ss (sr s));
  sw_ds : flat (ds (sr s));
  sw_sp : 16 <= esp (gpr s) /\ esp (gpr s) + 12 < 2 ^ 32;
  sw_stack : words_at (memory s) (esp (gpr s)) [pc; old; new];
  sw_regs : Forall word [ebp (gpr s); ebx (gpr s); esi (gpr s); edi (gpr s)];
  sw_old : 0 <= old <= 2 ^ 32 - 4;
  sw_new : 0 <= new /\ new + 20 < 2 ^ 32;
  sw_apart : old + 4 <= esp (gpr s) - 16 \/ esp (gpr s) + 4 <= old }.

(** Memory after a thread with its stack at [sp] has saved its context. *)
Definition swtch_mem (s : x86) (old : Z) : mem :=
  let g := gpr s in
  store32 (push_mem (memory s) (esp g) [ebp g; ebx g; esi g; edi g]) old (esp g - 16).

Lemma swtch_ok s pc old new di si b bp pc' :
  calls_swtch s pc old new -> words_at (swtch_mem s old) new [di; si; b; bp; pc'] ->
  swtch s = Ok tt (set_eip pc' (set_gpr (MkRegs old (ecx (gpr s)) new b (new + 20) bp si di) (set_memory (swtch_mem s old) s))).
Proof.
  intros [Hs Hd [Hp1 Hp2] Hst Hr Ho Hn Ha] W. cbn [words_at] in Hst. destruct Hst as (S1 & S2 & S3 & _).
  set (sp := esp (gpr s)) in *. unfold swtch, geti.
  rewrite (bind_ok (reads _) _ _ _ _ eq_refl). cbn [rget]. fold sp. rewrite (u32_small (sp + 4)) by lia.
  rewrite (bind_ok _ _ _ _ _ (mov_from_flat SS (sp + 4) s Hs ltac:(lia))), S2, (bind_ok (seti _ _) _ _ _ _ eq_refl).
  set (s1 := set_gpr (rset (gpr s) EAX old) s).
  assert (E1 : esp (gpr s1) = sp) by (by destruct s as [[] ? ? ? ? ? ? ? ?]).
  rewrite (bind_ok (reads _) _ _ _ _ eq_refl). cbn [rget]. rewrite E1, (u32_small (sp + 8)) by lia.
  rewrite (bind_ok _ _ _ _ _ (mov_from_flat SS (sp + 8) s1 Hs ltac:(lia))). change (memory s1) with (memory s).
  replace (sp + 8) with (sp + 4 + 4) by lia. rewrite S3, (bind_ok (seti _ _) _ _ _ _ eq_refl).
  set (s2 := set_gpr (MkRegs old (ecx (gpr s)) new (ebx (gpr s)) sp (ebp (gpr s)) (esi (gpr s)) (edi (gpr s))) s).
  replace (set_gpr (rset (gpr s1) EDX new) s1) with s2 by (by destruct s as [[] ? ? ? ? ? ? ? ?]).
  assert (P : forall r l, (length l <= 3)%nat -> rget (gpr (pushed l sp s2)) r = rget (gpr s2) r ->
    pushl_reg r (pushed l sp s2) = Ok tt (pushed (l ++ [rget (gpr s2) r]) sp s2)).
  { intros r l Hl Hr'. unfold pushl_reg, geti. rewrite (bind_ok (reads _) _ _ _ _ eq_refl), Hr'. apply pushl_more; [done|lia]. }
  pose proof (P EBP [] ltac:(cbn; lia) eq_refl) as P1. rewrite (pushed_nil s2 : pushed [] sp s2 = s2) in P1.
  rewrite (bind_ok _ _ _ _ _ P1). cbn [app rget].
  rewrite (bind_ok _ _ _ _ _ (P EBX [_] ltac:(cbn; lia) eq_refl)). cbn [app rget].
  rewrite (bind_ok _ _ _ _ _ (P ESI [_; _] ltac:(cbn; lia) eq_refl)). cbn [app rget].
  rewrite (bind_ok _ _ _ _ _ (P EDI [_; _; _] ltac:(cbn; lia) eq_refl)). cbn [app rget].
  set (s3 := pushed _ sp s2).
  rewrite !(bind_ok (reads _) _ _ _ _ eq_refl). cbn [rget].
  change (eax (gpr s3)) with old. change (esp (gpr s3)) with (sp - 4 * Z.of_nat 4). replace (sp - 4 * Z.of_nat 4) with (sp - 16) by lia.
  rewrite (bind_ok _ _ _ _ _ (mov_to_flat DS old (sp - 16) s3 Hd ltac:(lia))).
  rewrite (bind_ok (reads _) _ _ _ _ eq_refl), (bind_ok (seti _ _) _ _ _ _ eq_refl).
  change (store32 (memory s3) old (sp - 16)) with (swtch_mem s old).
  set (s4 := set_memory (swtch_mem s old) s).
  match goal with |- _ ?x = _ => replace x with (set_gpr (MkRegs old (ecx (gpr s)) new (ebx (gpr s)) new (ebp (gpr s)) (esi (gpr s)) (edi (gpr s))) s4) by done end.
  cbn [words_at] in W. destruct W as (W1 & W2 & W3 & W4 & W5 & _). assert (Hf : flat (ss (sr s4))) by done. unfold popl_reg. rewrite !bind_assoc.
  change (swtch_mem s old) with (memory s4) in W1, W2, W3, W4, W5.
  step_pop W1. rewrite bind_assoc. step_pop W2. rewrite bind_assoc. step_pop W3. rewrite bind_assoc. step_pop W4. unfold ret.
  rewrite (bind_ok _ _ _ _ _ (popl_word _ _ _ _ _ _ _ _ s4 _ W5 Hf ltac:(lia) ltac:(lia))).
  by replace (new + 20) with (new + 4 + 4 + 4 + 4 + 4) by lia.
Qed.

Lemma swtch_frame s pc old new r :
  calls_swtch s pc old new -> swtch s = Ok tt r -> sr r = sr s /\ gdtr r = gdtr s /\ memory r = swtch_mem s old.
Proof.
  intros C E. set (m := swtch_mem s old).
  assert (W : words_at m new [load32 m new; load32 m (new + 4); load32 m (new + 4 + 4); load32 m (new + 4 + 4 + 4); load32 m (new + 4 + 4 + 4 + 4)]) by done.
  rewrite (swtch_ok s pc old new _ _ _ _ _ C W) in E. by injection E as <-.
Qed.

Lemma swtch_mem_ne s old x :
  x < esp (gpr s) - 16 \/ esp (gpr s) <= x -> x < old \/ old + 4 <= x -> swtch_mem s old x = memory s x.
Proof. intros H1 H2. unfold swtch_mem. rewrite store32_ne by lia. apply push_mem_ne. cbn [length]. lia. Qed.

(** The context a thread leaves on its stack, the return address of its call
    on top. *)
Lemma swtch_mem_context s pc old new :
  calls_swtch s pc old new -> words_at (swtch_mem s old) (esp (gpr s) - 16) (context_words (gpr s) pc).
Proof.
  intros [Hs Hd [Hp1 Hp2] Hst Hr Ho Hn Ha]. set (sp := esp (gpr s)) in *. set (ws := [ebp (gpr s); ebx (gpr s); esi (gpr s); edi (gpr s)]) in *.
  apply (words_at_ext (push_mem (memory s) sp ws)).
  - intros x Hx. cbn [length context_words] in Hx. apply store32_ne. lia.
  - change (context_words (gpr s) pc) with (rev ws ++ [pc]). apply words_at_app. split.
    + replace (sp - 16) with (sp - 4 * Z.of_nat (length ws)) by (cbn [length ws]; lia). by apply words_at_push.
    + replace (sp - 16 + 4 * Z.of_nat (length (rev ws))) with sp by (cbn [length rev app ws]; lia).
      cbn [words_at] in Hst. destruct Hst as (S1 & _). split; [|done]. rewrite <- S1. apply load32_ext.
      intros x Hx. apply push_mem_ne. cbn [length ws]. lia.
Qed.

(** C38: [swtch] stops one kernel thread and goes on with another.  Called with
    [old] and [new], it leaves in [*old] the address of the thread's context
    and in the context its callee-saved registers and return address, changes
    no other memory, and continues where the context at [new] says.  Whenever
    any thread later switches to the saved context, the first thread returns
    from its call with its registers and its stack as they were. *)
Theorem swtch_switches_threads (s : x86) (pc old new : Z) :
  calls_swtch s pc old new ->
  exists r, swtch s = Ok tt r /\
    load32 (memory r) old = esp (gpr s) - 16 /\
    words_at (memory r) (esp (gpr s) - 16) (context_words (gpr s) pc) /\
    words_at (memory r) new (context_words (gpr r) (eip r)) /\ esp (gpr r) = new + 20 /\
    (forall x, x < esp (gpr s) - 16 \/ esp (gpr s) <= x -> x < old \/ old + 4 <= x -> memory r x = memory s x) /\
    forall s2 pc2 old2, calls_swtch s2 pc2 old2 (esp (gpr s) - 16) ->
      let lo := esp (gpr s) - 16 in
      (forall x, lo <= x < lo + 20 -> memory s2 x = memory r x) ->
      (esp (gpr s2) <= lo \/ lo + 20 <= esp (gpr s2) - 16) -> (old2 + 4 <= lo \/ lo + 20 <= old2) ->
      exists r2, swtch s2 = Ok tt r2 /\ eip r2 = pc /\ esp (gpr r2) = esp (gpr s) + 4 /\
        context_words (gpr r2) pc = context_words (gpr s) pc.
Proof.
  intros C. set (m := swtch_mem s old).
  assert (W : words_at m new [load32 m new; load32 m (new + 4); load32 m (new + 4 + 4); load32 m (new + 4 + 4 + 4); load32 m (new + 4 + 4 + 4 + 4)]) by done.
  eexists. split; [apply (swtch_ok s pc old new _ _ _ _ _ C W)|]. cbn [memory set_eip set_gpr set_memory gpr esp eip]. fold m.
  pose proof (swtch_mem_context s pc old new C) as Wc. split; [|split; [exact Wc|split; [exact W|split; [done|split]]]].
  - unfold m, swtch_mem. rewrite load32_store32_eq. apply u32_small. pose proof (sw_sp _ _ _ _ C). lia.
  - intros x H1 H2. by apply swtch_mem_ne.
  - intros s2 pc2 old2 C2 F Hst Ho. set (lo := esp (gpr s) - 16) in *.
    assert (W2 : words_at (swtch_mem s2 old2) lo (context_words (gpr s) pc)).
    { apply (words_at_ext m); [|done]. intros x Hx. cbn [length context_words] in Hx. rewrite <- F by lia. apply swtch_mem_ne; lia. }
    eexists. split; [apply (swtch_ok s2 pc2 old2 lo _ _ _ _ _ C2 W2)|]. cbn. split; [done|]. split; [lia|done].
Qed.

(** C39: how a new process comes to run.  Given a kernel stack as [allocproc]
    leaves it, with a context that starts [forkret], the address of [trapret]
    to return to, and the frame that [fork] or [userinit] fills in: when the
    scheduler switches to that context, [forkret] runs, and its return leads through
    [trapret] to user level with the registers of the frame. *)
Theorem new_process_enters_user (c : Z) (s : x86) (pc old k forkret trapret_addr : Z) (f : trapframe) :
  calls_swtch s pc old (k - 100) -> kernel_mode c s ->
  words_at (memory s) (k - 100) ([0; 0; 0; 0; forkret; trapret_addr] ++ frame_words f ++ user_words f) ->
  100 <= k < 2 ^ 32 -> (esp (gpr s) <= k - 100 \/ k <= esp (gpr s) - 16) -> (old + 4 <= k - 100 \/ k <= old) ->
  (esp (gpr s) <= c + 120 \/ c + 160 <= esp (gpr s) - 16) -> (old + 4 <= c + 120 \/ c + 160 <= old) -> user_frame c f ->
  exists r, swtch s = Ok tt r /\ eip r = forkret /\ esp (gpr r) = k - 80 /\
    forall t, kernel_mode c t -> esp (gpr t) = k - 80 -> (forall x, k - 80 <= x < k -> memory t x = memory r x) ->
      exists t1 u, ret t = Ok tt t1 /\ eip t1 = trapret_addr /\ trapret t1 = Ok tt u /\ resumes c f u.
Proof.
  intros C K W Hk Hst Ho Hg1 Hg2 Uf. set (m := swtch_mem s old).
  assert (F : forall x, k - 100 <= x < k -> m x = memory s x) by (intros; apply swtch_mem_ne; lia).
  assert (Wm : words_at m (k - 100) ([0; 0; 0; 0; forkret; trapret_addr] ++ frame_words f ++ user_words f)).
  { apply (words_at_ext (memory s)); [|done]. intros x Hx. cbn [app length frame_words user_words] in Hx. apply F. lia. }
  assert (W5 : words_at m (k - 100) [0; 0; 0; 0; forkret]) by (apply (proj1 (words_at_app m (k - 100) [0; 0; 0; 0; forkret] _)) in Wm; tauto).
  assert (W6 : words_at m (k - 80) (trapret_addr :: frame_words f ++ user_words f)).
  { apply (proj1 (words_at_app m (k - 100) [0; 0; 0; 0; forkret] _)) in Wm as [_ Wm]. by replace (k - 80) with (k - 100 + 4 * Z.of_nat 5) by lia. }
  eexists. split; [apply (swtch_ok s pc old (k - 100) _ _ _ _ _ C W5)|]. cbn [eip set_eip gpr esp set_gpr memory set_memory].
  split; [done|]. split; [lia|]. intros t Kt Et Ft. fold m in Ft.
  assert (Wt : words_at (memory t) (k - 80) (trapret_addr :: frame_words f ++ user_words f)).
  { apply (words_at_ext m); [|done]. intros x Hx. cbn [app length frame_words user_words] in Hx. apply Ft. lia. }
  cbn [words_at] in Wt. destruct Wt as [Wr Wf]. replace (k - 80 + 4) with (k - 76) in Wf by lia.
  assert (Er : ret t = Ok tt (set_eip trapret_addr (set_gpr (rset (gpr t) ESP (k - 76)) t))).
  { unfold ret. rewrite (bind_ok _ _ _ _ _ (popl_ok t (km_ss _ _ Kt) ltac:(lia) ltac:(lia))), Et, Wr.
    by replace (k - 80 + 4) with (k - 76) by lia. }
  destruct (trapret_resumes c (set_eip trapret_addr (set_gpr (rset (gpr t) ESP (k - 76)) t)) k f) as (u & Eu & Ru & _); [by destruct Kt; split|apply esp_rset|lia|done|done|].
  by eexists _, u.
Qed.

(** Memory with [ws] stored from [a] on. *)
Fixpoint write_words (m : mem) (a : Z) (ws : list Z) : mem :=
  match ws with
  | [] => m
  | w :: ws => store32 (write_words m (a + 4) ws) a w
  end.

Lemma write_words_ne m a ws x : x < a \/ a + 4 * Z.of_nat (length ws) <= x -> write_words m a ws x = m x.
Proof.
  revert a. induction ws as [|w ws IH]; intros a H; cbn [write_words length] in *; [done|].
  rewrite store32_ne by lia. apply IH. lia.
Qed.

Lemma words_at_write m a ws : Forall word ws -> words_at (write_words m a ws) a ws.
Proof.
  intros H. revert a. induction H as [|w ws Hw _ IH]; intros a; cbn [write_words words_at]; [done|]. split.
  - rewrite load32_store32_eq. by apply u32_small.
  - eapply words_at_ext; [|apply IH]. intros x Hx. apply store32_ne. lia.
Qed.

(** The scheduler of the machine [s] about to switch to a context at [new]. *)
Definition demo_scheduler (s : x86) (new : Z) : x86 :=
  set_sr (MkSregs kcode_seg kdata_seg kdata_seg kdata_seg (null_segment 0) (null_segment 0))
    (set_gpr (MkRegs 0 0 0 1 0x80700000 2 3 4)
      (set_memory (write_words (memory s) 0x80700000 [0x80104000; 0x80114000; new]) s)).

Lemma demo_scheduler_calls s new : 0 <= new -> new + 20 < 2 ^ 32 -> calls_swtch (demo_scheduler s new) 0x80104000 0x80114000 new.
Proof.
  intros H0 H1. split; try done; cbn [gpr esp demo_scheduler set_sr set_gpr set_memory memory ebp ebx esi edi].
  - apply words_at_write. repeat (apply Forall_cons; split; [unfold word; lia|]). constructor.
  - repeat (apply Forall_cons; split; [unfold word; lia|]). constructor.
  - lia.
Qed.

Lemma swtch_switches_threads_witness :
  exists r, swtch (demo_scheduler demo_machine 0x80900000) = Ok tt r /\ load32 (memory r) 0x80114000 = 0x806ffff0 /\
    eip r = 0x80808080.
Proof.
  destruct (swtch_switches_threads (demo_scheduler demo_machine 0x80900000) 0x80104000 0x80114000 0x80900000) as (r & E & H1 & _ & W & _ & F & _).
  - apply demo_scheduler_calls; lia.
  - exists r. split; [exact E|]. split; [exact H1|]. destruct W as (_ & _ & _ & _ & W & _). rewrite <- W.
    rewrite (load32_ext (fun _ => 0x80)); [reflexivity|]. intros x Hx. rewrite F by (cbn; lia).
    exact (write_words_ne (memory demo_machine) 0x80700000 [_; _; _] x ltac:(cbn [length]; lia)).
Defined.

(** A first frame as [userinit] makes it. *)
Definition demo_first_frame : trapframe := MkTrapframe 0 0 0 0 0 0 0 0 0 0 43 43 0 0 0 35 0x200 4096 43.

Definition demo_new (s : x86) : x86 :=
  let k := 0x80809080 in
  let t := demo_scheduler s (k - 100) in
  set_memory (write_words (memory t) (k - 100)
    ([0; 0; 0; 0; 0x80103000; 0x80105f00] ++ frame_words demo_first_frame ++ user_words demo_first_frame)) t.

Lemma demo_new_calls s : calls_swtch (demo_new s) 0x80104000 0x80114000 (0x80809080 - 100).
Proof.
  destruct (demo_scheduler_calls s (0x80809080 - 100)) as [H1 H2 H3 H4 H5 H6 H7 H8]; [lia..|]. split; try done.
Qed.

Lemma demo_new_mode s : cpu_ok 0x80110000 0x80120000 (fun _ => 0x80808080) 0x80809080 s -> kernel_mode 0x80110000 (demo_new s).
Proof.
  intros C. split; [apply (ok_gdtr _ _ _ _ _ C)| |done|done]. eapply gdt_ok_ext; [|exact (ok_gdt _ _ _ _ _ C)].
  intros x Hx. cbn [demo_new demo_scheduler memory set_memory set_sr set_gpr]. by rewrite !write_words_ne by (cbn [length app frame_words user_words]; lia).
Qed.

Lemma demo_new_switched s r :
  cpu_ok 0x80110000 0x80120000 (fun _ => 0x80808080) 0x80809080 s -> swtch (demo_new s) = Ok tt r -> kernel_mode 0x80110000 r.
Proof.
  intros C E. destruct (swtch_frame _ _ _ _ r (demo_new_calls s) E) as (E1 & E2 & E3).
  destruct (demo_new_mode s C) as [K1 K2 K3 K4]. unfold cpl in K3. split; [by rewrite E2| |unfold cpl; by rewrite E1|by rewrite E1].
  rewrite E3. eapply gdt_ok_ext; [|exact K2]. intros x Hx. apply swtch_mem_ne; [cbn; lia|lia].
Qed.

Lemma new_process_enters_user_witness :
  exists s r, swtch s = Ok tt r /\ eip r = 0x80103000 /\
    exists t1 u, ret r = Ok tt t1 /\ trapret t1 = Ok tt u /\ eip u = 0 /\ esp (gpr u) = 4096 /\ cpl u = 3.
Proof.
  destruct demo_user as (s & C & _). exists (demo_new s).
  destruct (new_process_enters_user 0x80110000 (demo_new s) 0x80104000 0x80114000 0x80809080 0x80103000 0x80105f00 demo_first_frame)
    as (r & E & H1 & H2 & H3).
  - apply demo_new_calls.
  - by apply demo_new_mode.
  - apply words_at_write. repeat (apply Forall_cons; split; [unfold word; cbn; lia|]). constructor.
  - lia.
  - cbn. lia.
  - lia.
  - cbn. lia.
  - lia.
  - split; [reflexivity|reflexivity|]. repeat (apply Forall_cons; split; [by eexists|]). constructor.
  - exists r. split; [exact E|]. split; [exact H1|].
    destruct (H3 r) as (t1 & u & Er & _ & Eu & R); [|exact H2|done|].
    + exact (demo_new_switched s r C E).
    + exists t1, u. split; [exact Er|]. split; [exact Eu|]. destruct R as [R1 R2 R3 R4 R5 R6]. split; [exact R5|].
      split; [rewrite R1; reflexivity|]. unfold cpl. rewrite R2. reflexivity.
Defined.
