(* ===== verification/Sumto.v ===== *)
(** * The summing routine in assembly (HW3/sumtofunc.S, HW3/sumto.c)

    [sumto] instruction by instruction over the processor of [X86], and the
    program that calls it.  The routine computes [1 + ... + n] on 32 bits; it
    takes 32 bytes of stack for every recursive call, returns 1 for every [n]
    below 1, and does not give back the callee-saved register [%ebx]. *)

From stdpp Require Import base numbers list strings.
From Stdlib Require Import ZArith Lia.
From S2P Require Import Prelude CStrings X86 Entry Printf.

Open Scope Z_scope.

(** [movl %a, %b] *)
Definition movl (a b : reg) : M x86 unit := v ← geti a; seti b v.
(** [movl off(%ebp), %r] *)
Definition movl_arg (off : Z) (r : reg) : M x86 unit := b ← geti EBP; v ← mov_from SS (u32 (b + off)); seti r v.
Definition addl_reg (a b : reg) : M x86 unit := v ← geti a; w ← geti b; seti b (u32 (w + v)).

Section sumto.
(** The address behind the recursive call. *)
Context (after_call : Z).

Fixpoint sumto (fuel : nat) : M x86 unit :=
  match fuel with
  | O => diverge
  | S fuel =>
      pushl_reg EBP;;
      movl ESP EBP;;
      addl (-8) ESP;;
      b ← geti EBP; v ← mov_from SS (u32 (b + 8));
      (if s32 v >? 1 then
         movl_arg 8 EAX;;
         addl (-1) EAX;;
         addl (-12) ESP;;
         pushl_reg EAX;;
         call after_call (sumto fuel);;
         addl 16 ESP;;
         movl_arg 8 EBX;;
         addl_reg EBX EAX
       else seti EAX 1);;
      movl EBP ESP;;
      popl_reg EBP;;
      ret
  end.

(** ** What it computes *)

#[local] Ltac Zify.zify_post_hook ::= Z.to_euclidean_division_equations.

(** [1 + ... + n], and 1 when there is nothing to add. *)
Definition upto (n : Z) : Z := let d := Z.max 1 n in d * (d + 1) / 2.

Lemma upto_step n : 1 < n -> upto n = upto (n - 1) + n.
Proof.
  intros H. unfold upto. rewrite !Z.max_r by lia.
  replace (n * (n + 1)) with ((n - 1) * (n - 1 + 1) + n * 2) by ring. rewrite Z.div_add by lia. done.
Qed.

Definition depth (n : Z) : Z := 32 * (Z.max 1 n - 1) + 12.

(** The state in which [sumto] returns to [ra]. *)
Definition returned (s : x86) (ra n : Z) (m : mem) : x86 :=
  let g := gpr s in
  set_eip ra (set_gpr (MkRegs (u32 (upto n)) (ecx g) (edx g) (if n >? 1 then n else ebx g) (esp g + 4) (ebp g) (esi g) (edi g))
    (set_memory m s)).

Lemma s32_u32 n : s32 (u32 n) = s32 n.
Proof. unfold s32, u32. by rewrite Z.mod_mod. Qed.

(** The machine [s] with other registers and another memory, and what each
    instruction makes of them. *)
Definition with_regs (s : x86) (g : regs) (m : mem) : x86 := set_gpr g (set_memory m s).

Section instructions.
Context (s : x86).
Hypothesis Hf : flat (ss (sr s)).

Lemma pushl_reg_run r g m :
  4 <= esp g < 2 ^ 32 ->
  pushl_reg r (with_regs s g m) = Ok tt (with_regs s (rset g ESP (esp g - 4)) (store32 m (esp g - 4) (rget g r))).
Proof. intros H. unfold pushl_reg, geti. rewrite (bind_ok (reads _) _ _ _ _ eq_refl). by rewrite pushl_ok. Qed.

Lemma pushl_run v g m :
  4 <= esp g < 2 ^ 32 -> pushl v (with_regs s g m) = Ok tt (with_regs s (rset g ESP (esp g - 4)) (store32 m (esp g - 4) v)).
Proof. intros H. by rewrite pushl_ok. Qed.

Lemma ret_run g m :
  0 <= esp g -> esp g + 4 < 2 ^ 32 -> ret (with_regs s g m) = Ok tt (set_eip (load32 m (esp g)) (with_regs s (rset g ESP (esp g + 4)) m)).
Proof. intros H0 H1. unfold ret. by rewrite (bind_ok _ _ _ _ _ (popl_ok (with_regs s g m) Hf H0 H1)). Qed.

Lemma movl_run a b g m : movl a b (with_regs s g m) = Ok tt (with_regs s (rset g b (rget g a)) m).
Proof. done. Qed.

Lemma addl_run n r g m : word (rget g r + n) -> addl n r (with_regs s g m) = Ok tt (with_regs s (rset g r (rget g r + n)) m).
Proof. intros H. unfold addl. munfold. cbn. by rewrite u32_small. Qed.

Lemma addl_reg_run a b g m : addl_reg a b (with_regs s g m) = Ok tt (with_regs s (rset g b (u32 (rget g b + rget g a))) m).
Proof. done. Qed.

Lemma movl_arg_run off r g m :
  0 <= ebp g + off <= 2 ^ 32 - 4 ->
  movl_arg off r (with_regs s g m) = Ok tt (with_regs s (rset g r (load32 m (ebp g + off))) m).
Proof.
  intros H. unfold movl_arg, geti. rewrite (bind_ok (reads _) _ _ _ _ eq_refl). cbn [rget gpr with_regs set_gpr].
  rewrite u32_small by lia. by rewrite (bind_ok _ _ _ _ _ (mov_from_flat SS (ebp g + off) (with_regs s g m) Hf ltac:(lia))).
Qed.

Lemma popl_reg_run r g m :
  r <> ESP -> 0 <= esp g -> esp g + 4 < 2 ^ 32 ->
  popl_reg r (with_regs s g m) = Ok tt (with_regs s (rset (rset g ESP (esp g + 4)) r (load32 m (esp g))) m).
Proof. intros Hr H0 H1. unfold popl_reg. by rewrite (bind_ok _ _ _ _ _ (popl_ok (with_regs s g m) Hf H0 H1)). Qed.

Lemma epilogue_run a c d b e sp bp si di m ra :
  4 <= sp -> sp + 4 < 2 ^ 32 -> load32 m (sp - 4) = bp -> load32 m sp = ra ->
  (movl EBP ESP;; popl_reg EBP;; ret) (with_regs s (MkRegs a c d b e (sp - 4) si di) m)
  = Ok tt (set_eip ra (with_regs s (MkRegs a c d b (sp + 4) bp si di) m)).
Proof.
  intros H0 H1 <- <-. rewrite (bind_ok _ _ _ _ _ (movl_run EBP ESP _ _)). cbn [rset rget ebp].
  rewrite (bind_ok _ _ _ _ _ (popl_reg_run EBP (MkRegs a c d b (sp - 4) (sp - 4) si di) m ltac:(done) ltac:(cbn; lia) ltac:(cbn; lia))).
  cbn [rset esp]. rewrite ret_run by (cbn; lia). cbn [rset esp]. by replace (sp - 4 + 4) with sp by lia.
Qed.

End instructions.

(** One instruction of a program that runs on [with_regs]. *)
Ltac istep L :=
  match goal with |- context [with_regs ?s ?g ?m] =>
    rewrite (bind_ok _ _ _ _ _ (L g m ltac:(unfold word; cbn; first [lia | done])))
  end; cbn [rset rget eax ecx edx ebx esp ebp esi edi].

Lemma sumto_ok fuel s ra n :
  word after_call -> flat (ss (sr s)) -> - 2 ^ 31 <= n < 2 ^ 31 -> words_at (memory s) (esp (gpr s)) [ra; u32 n] ->
  word (ebp (gpr s)) -> Z.max 1 n <= Z.of_nat fuel -> depth n <= esp (gpr s) -> esp (gpr s) + 8 < 2 ^ 32 ->
  exists m, sumto fuel s = Ok tt (returned s ra n m) /\
    forall x, esp (gpr s) <= x \/ x < esp (gpr s) - depth n -> m x = memory s x.
Proof.
  intros Hac. revert s ra n. induction fuel as [|fuel IH]; intros s ra n Hf Hn W Hbp Hfuel Hd Hsp; [lia|].
  destruct (gpr s) as [a c d b sp bp si di] eqn:Eg. cbn [esp ebp] in *.
  unfold depth in *. cbn [words_at] in W. destruct W as (W1 & W2 & _).
  assert (Es : s = with_regs s (MkRegs a c d b sp bp si di) (memory s)) by (rewrite <- Eg; by destruct s).
  cut (exists m, sumto (S fuel) (with_regs s (MkRegs a c d b sp bp si di) (memory s)) = Ok tt (returned s ra n m) /\
    forall x, sp <= x \/ x < sp - (32 * (Z.max 1 n - 1) + 12) -> m x = memory s x); [by rewrite <- Es|].
  clear Es. cbn [sumto]. set (m1 := store32 (memory s) (sp - 4) bp).
  istep (pushl_reg_run s Hf EBP). fold m1. rewrite (bind_ok _ _ _ _ _ (movl_run s ESP EBP _ _)). cbn [rset rget esp].
  istep (addl_run s (-8) ESP).
  unfold geti. rewrite (bind_ok (reads _) _ _ _ _ eq_refl). cbn [rget gpr with_regs set_gpr ebp]. rewrite (u32_small (sp - 4 + 8)) by lia.
  rewrite (bind_ok _ _ _ _ _ (mov_from_flat SS (sp - 4 + 8) (with_regs s _ m1) Hf ltac:(lia))). cbn [memory with_regs set_gpr set_memory].
  assert (Ev : load32 m1 (sp - 4 + 8) = u32 n) by (replace (sp - 4 + 8) with (sp + 4) by lia; unfold m1; by rewrite load32_store32_ne by lia).
  rewrite Ev.
  rewrite s32_u32, s32_small by lia. destruct (Z.gtb_spec n 1) as [Hgt|Hle].
  - set (sp1 := sp - 32). set (m2 := store32 (store32 m1 (sp - 28) (n - 1)) sp1 after_call).
    assert (Ev2 : load32 m2 (sp - 4 + 8) = n).
    { unfold m2, sp1. rewrite !load32_store32_ne, Ev by lia. apply u32_small. lia. }
    rewrite !bind_assoc. istep (movl_arg_run s Hf 8 EAX). rewrite Ev, u32_small by lia.
    rewrite !bind_assoc. istep (addl_run s (-1) EAX). rewrite !bind_assoc. istep (addl_run s (-12) ESP).
    rewrite !bind_assoc. istep (pushl_reg_run s Hf EAX). unfold call. rewrite !bind_assoc. istep (pushl_run s Hf after_call).
    replace (sp - 4 + -8 + -12 - 4 - 4) with sp1 by (unfold sp1; lia). replace (sp - 4 + -8 + -12 - 4) with (sp - 28) by lia.
    change (n + -1) with (n - 1). fold m2. set (t := with_regs s _ m2).
    assert (Wt : words_at m2 sp1 [after_call; u32 (n - 1)]).
    { cbn [words_at]. unfold m2 at 1. rewrite load32_store32_eq. unfold m2. rewrite load32_store32_ne by (unfold sp1; lia).
      replace (sp1 + 4) with (sp - 28) by (unfold sp1; lia). rewrite load32_store32_eq, u32_small by done. done. }
    destruct (IH t after_call (n - 1) Hf ltac:(lia) Wt) as (m3 & E3 & F3);
      [unfold word; cbn; lia|lia|unfold sp1; cbn; lia|unfold sp1; cbn; lia|].
    cbn [gpr t with_regs set_gpr esp memory set_memory] in F3. rewrite !bind_assoc, (bind_ok _ _ _ _ _ E3).
    set (s' := set_eip after_call s).
    change (returned t after_call (n - 1) m3)
      with (with_regs s' (MkRegs (u32 (upto (n - 1))) c d (if n - 1 >? 1 then n - 1 else b) (sp1 + 4) (sp - 4) si di) m3).
    rewrite !bind_assoc, (bind_ok (reads _) _ _ _ _ eq_refl). cbn [eip with_regs set_gpr set_memory s' set_eip]. rewrite Z.eqb_refl.
    rewrite (bind_ok (mret tt) _ _ _ _ eq_refl), !bind_assoc.
    assert (F : forall x, sp - 28 <= x -> m3 x = m2 x) by (intros; apply F3; unfold sp1; lia).
    assert (L : forall o, sp - 4 <= o -> load32 m3 o = load32 m1 o).
    { intros o Ho. rewrite (load32_ext m2) by (intros; apply F; lia). unfold m2, sp1. by rewrite !load32_store32_ne by lia. }
    istep (addl_run s' 16 ESP). rewrite !bind_assoc. istep (movl_arg_run s' Hf 8 EBX). rewrite L, Ev by lia.
    rewrite (bind_ok _ _ _ _ _ (addl_reg_run s' EBX EAX _ _)). cbn [rset rget eax ebx].
    exists m3. split.
    + etransitivity; [apply (epilogue_run s' Hf _ _ _ _ (sp1 + 4 + 16) sp bp si di m3 ra); [lia|lia|..]|].
      * rewrite L by lia. unfold m1. rewrite load32_store32_eq. by apply u32_small.
      * rewrite L by lia. unfold m1. by rewrite load32_store32_ne by lia.
      * unfold returned. rewrite Eg. cbn [ecx edx ebx esp ebp esi edi].
        rewrite (proj2 (Z.gtb_lt n 1)), (upto_step n), (u32_small n) by lia.
        replace (u32 (u32 (upto (n - 1)) + n)) with (u32 (upto (n - 1) + n)) by (unfold u32; by rewrite Z.add_mod_idemp_l). done.
    + intros x Hx. destruct Hx as [Hx|Hx].
      * rewrite F by lia. unfold m2, m1, sp1. by rewrite !store32_ne by lia.
      * rewrite F3 by (unfold depth, sp1; lia). unfold m2, m1, sp1. by rewrite !store32_ne by lia.
  - rewrite (bind_ok (seti _ _) _ _ _ _ eq_refl). exists m1. split.
    + etransitivity; [apply (epilogue_run s Hf _ _ _ _ (sp - 4 + -8) sp bp si di m1 ra); [lia|lia|..]|].
      * unfold m1. rewrite load32_store32_eq. by apply u32_small.
      * unfold m1. by rewrite load32_store32_ne by lia.
      * unfold returned. rewrite Eg. cbn [ecx edx ebx esp ebp esi edi]. destruct (Z.gtb_spec n 1); [lia|].
        unfold upto. rewrite Z.max_l by lia. done.
    + intros x Hx. unfold m1. apply store32_ne. lia.
Qed.
End sumto.

(** ** sumto.c *)

(** [main] with [argc] arguments, the second of them at [argv1]; [here] is the
    address behind its call of [sumto].  It gives what is written, with the
    file descriptors. *)
Definition main (after_call here : Z) (fuel : nat) (argc argv1 : Z) : M x86 (list (Z * list Z)) :=
  let no_strings := fun _ : Z => [] in
  if negb (argc =? 2) then mret [(2, printf (fun _ => 0) no_strings (cbytes "usage: sumto <number>" ++ [10]))] else
  m ← reads memory;
  match Ulib.atoi fuel m argv1 with
  | None => diverge
  | Some n =>
      pushl (u32 n);;
      call here (sumto after_call fuel);;
      sum ← geti EAX;
      addl 4 ESP;;
      mret [(1, printf (fun _ => sum) no_strings (cbytes "sum: %d" ++ [10]))]
  end.

(** The machine of a program: flat segments, 32-bit registers, [stack] bytes
    below the stack pointer. *)
Record program (s : x86) (stack : Z) : Prop := {
  pg_flat : flat (ss (sr s));
  pg_sp : 0 <= stack <= esp (gpr s) /\ esp (gpr s) < 2 ^ 32 - 4;
  pg_ebp : word (ebp (gpr s)) }.

(** the program [sumto] prints the sum of the numbers up to its argument.
    Given the decimal digits of [n], with 32 bytes of stack for every number
    to add, the assembly routine returns to [main], which writes
    [1 + ... + n], as a 32-bit integer, to standard output, and the stack
    pointer is back where it was; for [n] below 1 the sum written is 1.  The
    register [%ebx], which a C caller expects to find unchanged, then holds
    [n] when [n] is above 1. *)
Theorem sumto_prints_sum (after_call here argv1 : Z) (ds : list Z) (fuel : nat) (s : x86) :
  let n := Ulib.digits_value 0 ds in
  Forall (fun d => 48 <= d <= 57) ds -> KString.mem_bytes (memory s) argv1 (length ds) = ds ->
  ~ (48 <= memory s (argv1 + Z.of_nat (length ds)) <= 57) ->
  n < 2 ^ 31 - 48 -> (length ds < fuel)%nat -> Z.max 1 n <= Z.of_nat fuel ->
  program s (32 * Z.max 1 n) -> word after_call -> word here ->
  exists r, main after_call here fuel 2 argv1 s =
      Ok [(1, cbytes "sum: " ++ printint digits_upper (s32 (upto n)) 10 true ++ [10])] r /\
    esp (gpr r) = esp (gpr s) /\ ebx (gpr r) = (if n >? 1 then n else ebx (gpr s)) /\
    (forall x, esp (gpr s) <= x -> memory r x = memory s x).
Proof.
  intros n Hds Hm He Hn Hf Hfuel [Hfl Hsp Hbp] Hac Hh.
  assert (Hn0 : 0 <= n) by (by apply Ulib.digits_value_ge).
  unfold main. change (negb (2 =? 2)) with false. cbv iota. rewrite (bind_ok (reads _) _ _ _ _ eq_refl).
  unfold Ulib.atoi. rewrite (Ulib.atoi_loop_spec ds) by (done || lia). fold n.
  rewrite (bind_ok _ _ _ _ _ (pushl_ok (u32 n) s Hfl ltac:(lia))). unfold call. rewrite bind_assoc.
  set (sp := esp (gpr s)) in *. set (s1 := set_gpr _ _).
  assert (E1 : esp (gpr s1) = sp - 4) by apply esp_rset.
  rewrite (bind_ok _ _ _ _ _ (pushl_ok here s1 Hfl ltac:(lia))), E1. replace (sp - 4 - 4) with (sp - 8) by lia.
  set (s2 := set_gpr _ _). assert (E2 : esp (gpr s2) = sp - 8) by apply esp_rset.
  assert (W2 : words_at (memory s2) (sp - 8) [here; u32 n]).
  { cbn [words_at memory s2 s1 set_gpr set_memory]. replace (sp - 8 + 4) with (sp - 4) by lia.
    rewrite load32_store32_eq, load32_store32_ne, load32_store32_eq by lia. rewrite (u32_small here), (u32_small (u32 n)) by (apply u32_range || done). done. }
  assert (B2 : ebp (gpr s2) = ebp (gpr s)) by (by destruct s as [[] ? ? ? ? ? ? ? ?]).
  destruct (sumto_ok after_call fuel s2 here n Hac Hfl ltac:(lia)) as (m & E & F); rewrite ?E2, ?B2; unfold depth; try done; try lia.
  rewrite !bind_assoc, (bind_ok _ _ _ _ _ E). rewrite bind_assoc, (bind_ok (reads _) _ _ _ _ eq_refl).
  change (eip (returned s2 here n m)) with here. rewrite Z.eqb_refl, (bind_ok (mret tt) _ _ _ _ eq_refl).
  unfold geti. rewrite (bind_ok (reads _) _ _ _ _ eq_refl). cbn [rget]. unfold addl, geti.
  rewrite bind_assoc, (bind_ok (reads _) _ _ _ _ eq_refl), (bind_ok (seti _ _) _ _ _ _ eq_refl).
  unfold returned. cbn [rget gpr set_eip set_gpr esp eax ebx]. rewrite E2. replace (sp - 8 + 4 + 4) with sp by lia.
  assert (Out : printf (fun _ => u32 (upto n)) (fun _ : Z => []) (cbytes "sum: %d" ++ [10])
    = cbytes "sum: " ++ printint digits_upper (s32 (upto n)) 10 true ++ [10]).
  { rewrite <- (s32_u32 (upto n)). generalize (u32 (upto n)) as v. intros v. reflexivity. }
  rewrite Out, (u32_small sp) by lia. eexists. split; [reflexivity|].
  split; [apply esp_rset|]. split; [by destruct s as [[] ? ? ? ? ? ? ? ?]|].
  intros x Hx. cbn [memory set_gpr set_eip set_memory]. rewrite F by lia. cbn [s2 s1 memory set_gpr set_memory].
  by rewrite !store32_ne by lia.
Qed.

Definition demo_program : x86 :=
  MkX86 (MkRegs 0 0 0 99 0x3000 0 0 0) (MkSregs (MkSegment 35 0 0xffffffff 3) (MkSegment 43 0 0xffffffff 3)
    (MkSegment 43 0 0xffffffff 3) (MkSegment 43 0 0xffffffff 3) (null_segment 0) (null_segment 0))
    0 0x202 0 (0, 0) (0, 0) (null_segment 0) (fun x => if x =? 1000 then 49 else if x =? 1001 then 48 else 0).

Lemma sumto_prints_sum_witness :
  exists r, main 100 200 20 2 1000 demo_program = Ok [(1, cbytes "sum: 55" ++ [10])] r /\ ebx (gpr r) = 10.
Proof.
  destruct (sumto_prints_sum 100 200 1000 [49; 48] 20 demo_program) as (r & E & _ & B & _).
  - repeat (apply Forall_cons; split; [lia|]). constructor.
  - reflexivity.
  - vm_compute. intros [H _]. by apply H.
  - reflexivity.
  - cbn. lia.
  - cbn. lia.
  - split; [split; reflexivity|cbn; lia|unfold word; cbn; lia].
  - unfold word. lia.
  - unfold word. lia.
  - exists r. split; [exact E|exact B].
Defined.
