(* ===== verification/Guess.v ===== *)
(** * Programs that run on the bare machine (HW2/guess.s, HW2/hello.s)

    Two boot sectors in 16-bit assembly: a greeting, and a game that thinks of
    a digit and asks for guesses until one is right.  The code is a block of
    instructions per label, run one block at a time; the services of the BIOS
    are a class of operations, and what they document is a class of laws. *)

From stdpp Require Import base numbers list strings.
From Stdlib Require Import ZArith Lia.
From S2P Require Import Prelude.

Open Scope Z_scope.

(** ** The BIOS

    [video ah al] is [int $0x10]; [key] is [int $0x16] with [%ah] 0, which
    waits when no key is there; [rtc r] reads register [r] of the clock. *)
Class Bios (W : Type) := {
  video : Z -> Z -> W -> W;
  key : W -> option (Z * Z * W);
  rtc : Z -> W -> Z;
  screen : W -> list Z;
  typed : W -> list Z }.

(** [screen] is what has been written since the mode was set, [typed] the keys
    that will be pressed. *)
Class BiosOk (W : Type) `{!Bios W} := {
  video_mode w : screen (video 0 3 w) = [] /\ typed (video 0 3 w) = typed w;
  video_tty c w : screen (video 0x0E c w) = screen w ++ [c] /\ typed (video 0x0E c w) = typed w;
  key_ready w k ks : typed w = k :: ks -> exists sc w', key w = Some (k, sc, w') /\ typed w' = ks /\ screen w' = screen w;
  key_none w : typed w = [] -> key w = None;
  rtc_byte r w : 0 <= rtc r w < 256 }.

(** The registers the programs use, by bytes. *)
Record machine (W : Type) := MkMachine { al : Z; ah : Z; bl : Z; bh : Z; cl : Z; ch : Z; dl : Z; si : nat; world : W }.
Arguments MkMachine {W}.
Arguments al {W}.
Arguments ah {W}.
Arguments bl {W}.
Arguments bh {W}.
Arguments cl {W}.
Arguments ch {W}.
Arguments dl {W}.
Arguments si {W}.
Arguments world {W}.

Section programs.
Context {W : Type} `{!Bios W}.
Notation mach := (machine W).

Definition set_al v : M mach unit := modify (fun s => MkMachine v (ah s) (bl s) (bh s) (cl s) (ch s) (dl s) (si s) (world s)).
Definition set_ah v : M mach unit := modify (fun s => MkMachine (al s) v (bl s) (bh s) (cl s) (ch s) (dl s) (si s) (world s)).
Definition set_bl v : M mach unit := modify (fun s => MkMachine (al s) (ah s) v (bh s) (cl s) (ch s) (dl s) (si s) (world s)).
Definition set_bh v : M mach unit := modify (fun s => MkMachine (al s) (ah s) (bl s) v (cl s) (ch s) (dl s) (si s) (world s)).
Definition set_cl v : M mach unit := modify (fun s => MkMachine (al s) (ah s) (bl s) (bh s) v (ch s) (dl s) (si s) (world s)).
Definition set_ch v : M mach unit := modify (fun s => MkMachine (al s) (ah s) (bl s) (bh s) (cl s) v (dl s) (si s) (world s)).
Definition set_dl v : M mach unit := modify (fun s => MkMachine (al s) (ah s) (bl s) (bh s) (cl s) (ch s) v (si s) (world s)).
Definition set_si v : M mach unit := modify (fun s => MkMachine (al s) (ah s) (bl s) (bh s) (cl s) (ch s) (dl s) v (world s)).

Definition int_10 : M mach unit :=
  modify (fun s => MkMachine (al s) (ah s) (bl s) (bh s) (cl s) (ch s) (dl s) (si s) (video (ah s) (al s) (world s))).

(** With no key to come the machine waits for ever. *)
Definition int_16 : M mach unit :=
  s ← get (S := mach);
  match key (world s) with
  | None => diverge
  | Some (k, sc, w) => modify (fun s => MkMachine k sc (bl s) (bh s) (cl s) (ch s) (dl s) (si s) w)
  end.

(** [out %al, $0x70; in $0x71, %al] *)
Definition read_clock : M mach unit :=
  modify (fun s => MkMachine (rtc (al s) (world s)) (ah s) (bl s) (bh s) (cl s) (ch s) (dl s) (si s) (world s)).

(** [div %bh]: the quotient of [%ax] into [%al], the remainder into [%ah]. *)
Definition div_bh : M mach unit :=
  s ← get (S := mach);
  let ax := 256 * ah s + al s in
  if (bh s =? 0) || (255 <? ax / bh s) then undef "divide error" else
  set_al (ax / bh s);; set_ah (ax mod bh s).

(** [lodsb] from the data [text] of the program. *)
Definition lodsb (text : list Z) : M mach unit :=
  i ← reads si;
  match text !! i with
  | None => undef "outside the program"
  | Some c => set_al c;; set_si (S i)
  end.

(** ** guess.s *)

Definition prompt_text : list Z := cbytes "What number am I thinking of (0-9)? ".
Definition wrong_text : list Z := cbytes "Wrong!".
Definition right_text : list Z := cbytes "Right! Congratulations.".

(** The strings as they lie in the sector, and where each begins. *)
Definition data : list Z := prompt_text ++ [0] ++ wrong_text ++ [0] ++ right_text ++ [0].
Definition prompt : nat := 0.
Definition wrong_ans : nat := length prompt_text + 1.
Definition right_ans : nat := length prompt_text + 1 + (length wrong_text + 1).

Inductive label := Start | Loop | Compare | Rand | ReadUser | PrintChar | RorW | Done.

(** [%al] written, then again with the other character of a line break. *)
Definition new_row : M mach unit := set_al 0x0a;; int_10;; set_al 0x0d;; int_10.

(** The block of a label; it gives the label it jumps to. *)
Definition block (l : label) : M mach label :=
  match l with
  | Start => set_si prompt;; set_ah 0;; set_al 3;; int_10;; set_cl 1;; mret PrintChar
  | Loop => new_row;; set_si prompt;; set_dl 1;; mret PrintChar
  | Compare =>
      new_row;;
      set_si right_ans;;
      s ← get (S := mach);
      set_bl 1;;
      if ch s =? bh s then mret PrintChar else
      set_si wrong_ans;;
      set_bl 0;;
      mret PrintChar
  | Rand =>
      set_cl 0;;
      set_bh 0;;
      set_al 0;; set_ah 0;;
      read_clock;;
      set_bh 10;;
      div_bh;;
      r ← reads ah; set_bh r;;
      b ← reads bh; set_bh (u8 (b + 0x30));;
      mret ReadUser
  | ReadUser =>
      set_ah 0;;
      int_16;;
      set_ah 0x0E;;
      int_10;;
      a ← reads al; set_ch a;;
      set_dl 0;;
      mret Compare
  | PrintChar =>
      lodsb data;;
      a ← reads al;
      if a =? 0 then mret RorW else
      set_ah 0x0E;;
      int_10;;
      mret PrintChar
  | RorW =>
      s ← get (S := mach);
      mret (if cl s =? 1 then Rand else if dl s =? 1 then ReadUser else if bl s =? 0 then Loop else Done)
  | Done => mret Done
  end.

(** Blocks until [Done], where the program stays. *)
Fixpoint play (fuel : nat) (l : label) : M mach unit :=
  match l, fuel with
  | Done, _ => mret tt
  | _, O => diverge
  | _, S fuel => l ← block l; play fuel l
  end.

(** ** hello.s *)

Definition hello_text : list Z := cbytes "Hello World".

Fixpoint hello_print (fuel : nat) : M mach unit :=
  match fuel with
  | O => diverge
  | S fuel =>
      lodsb (hello_text ++ [0]);;
      a ← reads al;
      if a =? 0 then mret tt else
      set_ah 0x0E;;
      int_10;;
      hello_print fuel
  end.

Definition hello (fuel : nat) : M mach unit :=
  set_si 0;; set_ah 0;; set_al 3;; int_10;; hello_print fuel.

End programs.

(** ** The course of the game *)

Section game.
Context {W : Type} `{!Bios W} `{!BiosOk W}.
Notation mach := (machine W).

(** Characters written one after the other. *)
Definition tty (w : W) (cs : list Z) : W := foldl (fun w c => video 0x0E c w) w cs.

Lemma tty_screen w cs : screen (tty w cs) = screen w ++ cs /\ typed (tty w cs) = typed w.
Proof.
  revert w. induction cs as [|c cs IH]; intros w; cbn [tty foldl]; [by rewrite app_nil_r|].
  destruct (IH (video 0x0E c w)) as [E1 E2]. destruct (video_tty c w) as [V1 V2].
  unfold tty in E1, E2. by rewrite E1, E2, V1, V2, <- app_assoc.
Qed.

Lemma play_step fuel l l' s s' : l <> Done -> block l s = Ok l' s' -> play (S fuel) l s = play fuel l' s'.
Proof. intros Hl H. destruct l; try done; cbn [play]; by rewrite (bind_ok _ _ _ _ _ H). Qed.

(** Printing the string at [si]. *)
Lemma play_print str pre post fuel (s : mach) :
  data = pre ++ str ++ [0] ++ post -> si s = length pre -> Forall (fun c => c <> 0) str -> ah s = 0x0E \/ str <> [] ->
  play (length str + 1 + fuel) PrintChar s =
    play fuel RorW (MkMachine 0 0x0E (bl s) (bh s) (cl s) (ch s) (dl s) (S (length pre + length str)) (tty (world s) str)).
Proof.
  intros Hd Hs Hz Ha. revert pre s Hd Hs Ha. induction Hz as [|c str Hc Hz IH]; intros pre s Hd Hs Ha.
  - cbn [length Nat.add]. assert (E : data !! si s = Some 0).
    { rewrite Hd, Hs. cbn [app]. by rewrite lookup_app_r, Nat.sub_diag by lia. }
    apply play_step; [done|]. unfold block, lodsb. munfold. rewrite E. cbn. rewrite Nat.add_0_r.
    destruct Ha as [Ha|Ha]; [|by destruct Ha]. by rewrite Ha, Hs.
  - cbn [length Nat.add]. assert (E : data !! si s = Some c).
    { rewrite Hd, Hs. cbn [app]. by rewrite lookup_app_r, Nat.sub_diag by lia. }
    set (s1 := MkMachine c 0x0E (bl s) (bh s) (cl s) (ch s) (dl s) (S (si s)) (video 0x0E c (world s))).
    assert (B : block PrintChar s = Ok PrintChar s1).
    { unfold block, lodsb. munfold. rewrite E. cbn. by rewrite (proj2 (Z.eqb_neq c 0) Hc). }
    rewrite (play_step _ PrintChar PrintChar s s1) by done.
    rewrite (IH (pre ++ [c]) s1); [|by rewrite Hd, <- app_assoc|cbn; rewrite Hs, length_app; cbn; lia|by left].
    cbn [bl bh cl ch dl world s1 tty foldl]. rewrite length_app. cbn [length]. do 2 f_equal. lia.
Qed.

Lemma text_nonzero : Forall (fun c => c <> 0) prompt_text /\ Forall (fun c => c <> 0) wrong_text /\ Forall (fun c => c <> 0) right_text.
Proof. split_and!; vm_compute; repeat (constructor; [discriminate|]); constructor. Qed.

(** More fuel changes nothing once the game is over. *)
Lemma play_mono n k l s r : play n l s = r -> r <> Diverge -> play (n + k) l s = r.
Proof.
  revert l s. induction n as [|n IH]; intros l s H Hr.
  - destruct l; try (by subst r). by destruct (0 + k)%nat.
  - cbn [Nat.add]. destruct l; cbn [play] in H |- *; try done; revert H; unfold mbind, M_bind;
      destruct (block _ s) as [l' s1| | | |]; try done; intros H; by apply IH.
Qed.

(** What a wrong guess and the right one put on the screen. *)
Definition wrong_round (k : Z) : list Z := [k; 10; 13] ++ wrong_text ++ [10; 13] ++ prompt_text.
Definition right_round (k : Z) : list Z := [k; 10; 13] ++ right_text.

(** Asking for a guess, the digit in [%bh]. *)
Record asking (d : Z) (s : mach) : Prop := { as_bh : bh s = d; as_cl : cl s = 0 }.

Lemma ask_key (s : mach) k ks :
  typed (world s) = k :: ks ->
  exists w sc, typed w = ks /\ screen w = screen (world s) /\
    forall fuel, play (S fuel) ReadUser s = play fuel Compare (MkMachine k 0x0E (bl s) (bh s) (cl s) k 0 (si s) (video 0x0E k w)) /\
    key (world s) = Some (k, sc, w).
Proof.
  intros Ht. destruct (key_ready _ _ _ Ht) as (sc & w & Ek & E1 & E2). exists w, sc. split_and!; [done..|].
  intros fuel. split; [|done]. apply play_step; [done|]. unfold block, int_16. munfold. cbn. by rewrite Ek.
Qed.

Lemma right_guess d (s : mach) ks :
  asking d s -> typed (world s) = d :: ks ->
  exists n s', play n ReadUser s = Ok tt s' /\ screen (world s') = screen (world s) ++ right_round d /\ typed (world s') = ks.
Proof.
  intros [Hb Hc] Ht. destruct (ask_key s d ks Ht) as (w & sc & E1 & E2 & H).
  set (w2 := tty w [d; 10; 13]).
  set (s2 := MkMachine 13 0x0E 1 d 0 d 0 right_ans w2).
  exists (S (S (length right_text + 1 + 1)))%nat. rewrite (proj1 (H _)), Hb, Hc.
  rewrite (play_step _ Compare PrintChar _ s2); [|done|unfold block, new_row; munfold; cbn; by rewrite Z.eqb_refl].
  rewrite (play_print right_text (prompt_text ++ [0] ++ wrong_text ++ [0]) []); [|reflexivity|reflexivity|apply text_nonzero|by left].
  eexists. split; [reflexivity|]. cbn [world]. destruct (tty_screen (world s2) right_text) as [-> ->].
  destruct (tty_screen w [d; 10; 13]) as [T1 T2]. cbn [world s2]. unfold w2. rewrite T1, T2, E1, E2, <- app_assoc. done.
Qed.

Lemma wrong_guess d (s : mach) k ks :
  asking d s -> typed (world s) = k :: ks -> k <> d ->
  exists n s', (forall fuel, play (n + fuel) ReadUser s = play fuel ReadUser s') /\ asking d s' /\
    screen (world s') = screen (world s) ++ wrong_round k /\ typed (world s') = ks.
Proof.
  intros [Hb Hc] Ht Hk. destruct (ask_key s k ks Ht) as (w & sc & E1 & E2 & H).
  set (w2 := tty w [k; 10; 13]). set (w3 := tty w2 wrong_text). set (w4 := tty w3 [10; 13]). set (w5 := tty w4 prompt_text).
  set (s2 := MkMachine 13 0x0E 0 d 0 k 0 wrong_ans w2).
  set (s4 := MkMachine 13 0x0E 0 d 0 k 1 prompt w4).
  set (s5 := MkMachine 0 0x0E 0 d 0 k 1 (S (0 + length prompt_text)) w5).
  exists (S (S (length wrong_text + 1 + (S (S (length prompt_text + 1 + 1))))))%nat, s5. split_and!.
  - intros fuel. cbn [Nat.add]. rewrite <- (Nat.add_assoc _ _ fuel). rewrite (proj1 (H _)), Hb, Hc.
    rewrite (play_step _ Compare PrintChar _ s2); [|done|unfold block, new_row; munfold; cbn; by rewrite (proj2 (Z.eqb_neq k d) Hk)].
    rewrite (play_print wrong_text (prompt_text ++ [0]) (right_text ++ [0])); [|reflexivity|reflexivity|apply text_nonzero|by left].
    cbn [Nat.add]. rewrite (play_step _ RorW Loop _ _) by done.
    rewrite (play_step _ Loop PrintChar _ s4) by done. rewrite <- (Nat.add_assoc _ _ fuel).
    rewrite (play_print prompt_text [] (wrong_text ++ [0] ++ right_text ++ [0])); [|reflexivity|reflexivity|apply text_nonzero|by left].
    cbn [Nat.add]. by rewrite (play_step _ RorW ReadUser _ s5).
  - done.
  - cbn [world s5]. unfold w5. rewrite (proj1 (tty_screen w4 _)). unfold w4. rewrite (proj1 (tty_screen w3 _)).
    unfold w3. rewrite (proj1 (tty_screen w2 _)). unfold w2. rewrite (proj1 (tty_screen w _)), E2. unfold wrong_round. by rewrite <- !app_assoc.
  - cbn [world s5]. unfold w5. rewrite (proj2 (tty_screen w4 _)). unfold w4. rewrite (proj2 (tty_screen w3 _)).
    unfold w3. rewrite (proj2 (tty_screen w2 _)). unfold w2. by rewrite (proj2 (tty_screen w _)).
Qed.

(** The digit the program thinks of: the seconds of the clock when the first
    prompt is out. *)
Definition digit (w : W) : Z := 0x30 + rtc 0 (tty (video 0 3 w) prompt_text) mod 10.

Lemma block_rand a h b bh0 c ch0 d i w :
  rtc 0 w / 10 <= 255 ->
  block Rand (MkMachine a h b bh0 c ch0 d i w) =
    Ok ReadUser (MkMachine (rtc 0 w / 10) (rtc 0 w mod 10) b (u8 (rtc 0 w mod 10 + 0x30)) 0 ch0 d i w).
Proof.
  intros Hv. unfold block, set_cl, set_bh, set_al, set_ah, read_clock.
  do 6 (rewrite (bind_ok (modify _) _ _ _ _ eq_refl); cbn [al ah bl bh cl ch dl si world]).
  assert (E : div_bh (MkMachine (rtc 0 w) 0 b 10 0 ch0 d i w) = Ok tt (MkMachine (rtc 0 w / 10) (rtc 0 w mod 10) b 10 0 ch0 d i w)).
  { unfold div_bh. rewrite (bind_ok get _ _ _ _ eq_refl). cbn [al ah bh]. change (256 * 0 + rtc 0 w) with (rtc 0 w).
    change (10 =? 0) with false. by rewrite (proj2 (Z.ltb_ge 255 _) Hv). }
  by rewrite (bind_ok _ _ _ _ _ E).
Qed.

Lemma start_game (s : mach) :
  exists n s', (forall fuel, play (n + fuel) Start s = play fuel ReadUser s') /\ asking (digit (world s)) s' /\
    screen (world s') = prompt_text /\ typed (world s') = typed (world s).
Proof.
  set (w1 := video 0 3 (world s)). set (w2 := tty w1 prompt_text). set (v := rtc 0 w2).
  set (s1 := MkMachine 3 0 (bl s) (bh s) 1 (ch s) (dl s) prompt w1).
  set (s3 := MkMachine (v / 10) (v mod 10) (bl s) (digit (world s)) 0 (ch s) (dl s) (S (0 + length prompt_text)) w2).
  pose proof (rtc_byte 0 w2 : 0 <= v < 256) as Hv. pose proof (Z.mod_pos_bound v 10 ltac:(lia)) as Hm.
  exists (S (length prompt_text + 1 + 2))%nat, s3. split_and!.
  - intros fuel. cbn [Nat.add]. rewrite <- (Nat.add_assoc _ _ fuel). rewrite (play_step _ Start PrintChar _ s1) by done.
    rewrite (play_print prompt_text [] (wrong_text ++ [0] ++ right_text ++ [0])); [|reflexivity|reflexivity|apply text_nonzero|by right].
    cbn [Nat.add]. rewrite (play_step _ RorW Rand _ _) by done. apply play_step; [done|].
    change (tty (world s1) prompt_text) with w2. rewrite block_rand; fold v; [|apply Z.div_le_upper_bound; lia].
    unfold s3, digit. fold w1. fold w2. fold v. rewrite (Z.add_comm 0x30). by rewrite u8_small by lia.
  - done.
  - cbn [world s3]. unfold w2. rewrite (proj1 (tty_screen w1 _)). unfold w1. by rewrite (proj1 (video_mode _)).
  - cbn [world s3]. unfold w2. rewrite (proj2 (tty_screen w1 _)). unfold w1. by rewrite (proj2 (video_mode _)).
Qed.

Lemma ask_until d ws (s : mach) rest :
  asking d s -> d ∉ ws -> typed (world s) = ws ++ d :: rest ->
  exists n s', play n ReadUser s = Ok tt s' /\
    screen (world s') = screen (world s) ++ concat (wrong_round <$> ws) ++ right_round d /\ typed (world s') = rest.
Proof.
  revert s. induction ws as [|k ws IH]; intros s Ha Hd Ht.
  - destruct (right_guess d s rest Ha Ht) as (n & s' & E1 & E2 & E3). by exists n, s'.
  - apply not_elem_of_cons in Hd as [Hk Hd].
    destruct (wrong_guess d s k (ws ++ d :: rest) Ha Ht ltac:(congruence)) as (n & s1 & E & A1 & E2 & E3).
    destruct (IH s1 A1 Hd E3) as (n2 & s2 & F1 & F2 & F3). exists (n + n2)%nat, s2. rewrite E. split_and!; [done| |done].
    rewrite F2, E2. cbn [fmap list_fmap concat]. by rewrite <- !app_assoc.
Qed.

Lemma ask_forever d ks (s : mach) fuel : asking d s -> d ∉ ks -> typed (world s) = ks -> play fuel ReadUser s = Diverge.
Proof.
  revert s fuel. induction ks as [|k ks IH]; intros s fuel Ha Hd Ht.
  - destruct fuel as [|fuel]; [done|]. cbn [play]. unfold block, int_16. munfold. cbn. by rewrite (key_none _ Ht).
  - apply not_elem_of_cons in Hd as [Hk Hd].
    destruct (wrong_guess d s k ks Ha Ht ltac:(congruence)) as (n & s1 & E & A1 & _ & E3).
    destruct (play fuel ReadUser s) eqn:F; try done; apply (play_mono fuel n) in F; try done;
      rewrite Nat.add_comm, E, (IH s1 fuel A1 Hd E3) in F; done.
Qed.

(** the guessing game ends with the right guess and only then.  The program
    thinks of a decimal digit, taken from the clock.  When the keys pressed
    are wrong ones followed by that digit, it stops, having read exactly
    these, and the screen shows the question, every wrong guess with its
    answer and the question again, and the right guess with its answer; as
    long as the digit is not pressed it goes on asking. *)
Theorem game_ends_with_digit (s : mach) :
  let d := digit (world s) in
  48 <= d <= 57 /\
  (forall ws rest, typed (world s) = ws ++ d :: rest -> d ∉ ws ->
    exists n s', (forall k, play (n + k) Start s = Ok tt s') /\
      screen (world s') = prompt_text ++ concat (wrong_round <$> ws) ++ right_round d /\ typed (world s') = rest) /\
  (d ∉ typed (world s) -> forall fuel, play fuel Start s = Diverge).
Proof.
  intros d. destruct (start_game s) as (n & s1 & E & A & S1 & T1). split_and!.
  - unfold d, digit. pose proof (Z.mod_pos_bound (rtc 0 (tty (video 0 3 (world s)) prompt_text)) 10 ltac:(lia)). lia.
  - unfold d, digit. pose proof (Z.mod_pos_bound (rtc 0 (tty (video 0 3 (world s)) prompt_text)) 10 ltac:(lia)). lia.
  - intros ws rest Ht Hd. destruct (ask_until d ws s1 rest A Hd ltac:(congruence)) as (n2 & s2 & F1 & F2 & F3).
    exists (n + n2)%nat, s2. split_and!; [|by rewrite F2, S1|done].
    intros k. rewrite <- Nat.add_assoc, E. by apply play_mono.
  - intros Hd fuel. destruct (play fuel Start s) eqn:F; try done; apply (play_mono fuel n) in F; try done;
      rewrite Nat.add_comm, E, (ask_forever d (typed (world s)) s1 fuel A Hd T1) in F; done.
Qed.

Lemma hello_print_ok str pre fuel (s : mach) :
  hello_text = pre ++ str -> si s = length pre -> (length str < fuel)%nat ->
  exists s', hello_print fuel s = Ok tt s' /\ world s' = tty (world s) str.
Proof.
  revert pre fuel s. induction str as [|c str IH]; intros pre fuel s Hd Hs Hf; (destruct fuel as [|fuel]; [cbn in Hf; lia|]); cbn [hello_print].
  - assert (E : (hello_text ++ [0]) !! si s = Some 0).
    { rewrite Hd, app_nil_r, Hs. by rewrite lookup_app_r, Nat.sub_diag by lia. }
    unfold lodsb. munfold. rewrite E. cbn. eexists. split; reflexivity.
  - assert (E : (hello_text ++ [0]) !! si s = Some c).
    { rewrite Hd, <- app_assoc, Hs. by rewrite lookup_app_r, Nat.sub_diag by lia. }
    assert (Hc : c <> 0).
    { assert (Z0 : Forall (fun c => c <> 0) hello_text) by (vm_compute; repeat (constructor; [discriminate|]); constructor).
      rewrite Hd, Forall_app, Forall_cons in Z0. tauto. }
    unfold lodsb. munfold. rewrite E. cbn. rewrite (proj2 (Z.eqb_neq c 0) Hc).
    destruct (IH (pre ++ [c]) fuel (MkMachine c 0x0E (bl s) (bh s) (cl s) (ch s) (dl s) (S (si s)) (video 0x0E c (world s)))) as (s' & E1 & E2).
    + by rewrite <- app_assoc.
    + cbn. rewrite Hs, length_app. cbn. lia.
    + cbn in Hf. lia.
    + exists s'. split; [exact E1|exact E2].
Qed.

(** The greeting is on the screen when [hello] comes to its end. *)
Lemma hello_prints (s : mach) fuel :
  (11 < fuel)%nat -> exists s', hello fuel s = Ok tt s' /\ screen (world s') = hello_text.
Proof.
  intros Hf. unfold hello, set_si, set_ah, set_al, int_10. do 4 rewrite (bind_ok (modify _) _ _ _ _ eq_refl). cbn [al ah bl bh cl ch dl si world].
  destruct (hello_print_ok hello_text [] fuel (MkMachine 3 0 (bl s) (bh s) (cl s) (ch s) (dl s) 0 (video 0 3 (world s)))) as (s' & E & Ew); [done|done|cbn; lia|].
  exists s'. split; [exact E|]. rewrite Ew, (proj1 (tty_screen _ _)). cbn [world]. by rewrite (proj1 (video_mode _)).
Qed.

End game.

(** A machine whose keyboard is a list of keys and whose clock stands still. *)
Record demo := MkDemo { de_screen : list Z; de_keys : list Z; de_seconds : Z }.

#[export] Instance demo_bios : Bios demo := {
  video a c w := if a =? 0 then MkDemo [] (de_keys w) (de_seconds w) else MkDemo (de_screen w ++ [c]) (de_keys w) (de_seconds w);
  key w := match de_keys w with [] => None | k :: ks => Some (k, 0, MkDemo (de_screen w) ks (de_seconds w)) end;
  rtc _ w := de_seconds w mod 256;
  screen := de_screen;
  typed := de_keys }.

#[export] Instance demo_bios_ok : BiosOk demo.
Proof.
  split; try done.
  - intros w k ks E. cbn in *. rewrite E. by eexists _, _.
  - intros w E. cbn in *. by rewrite E.
  - intros r w. cbn. apply Z.mod_pos_bound. lia.
Qed.

Definition demo_game : machine demo := MkMachine 0 0 0 0 0 0 0 0%nat (MkDemo [] [49; 53; 55] 25).

Lemma game_ends_with_digit_witness :
  digit (world demo_game) = 53 /\
  exists n s', play n Start demo_game = Ok tt s' /\ typed (world s') = [55] /\
    screen (world s') = prompt_text ++ wrong_round 49 ++ right_round 53.
Proof.
  split; [reflexivity|]. destruct (proj1 (proj2 (game_ends_with_digit demo_game)) [49] [55]) as (n & s' & E & Es & Et).
  - reflexivity.
  - intros H. apply list_elem_of_singleton in H. discriminate H.
  - exists (n + 0)%nat, s'. split; [exact (E 0%nat)|]. split; [exact Et|exact Es].
Defined.
