(* ===== verification/Prog.v ===== *)
(** * User programs

    A user program is a tree of the system calls it makes: what it does next
    is a function of the answer.  The calls have values for arguments; what a
    program keeps in memory are the values in its tree.  [printf] is that of
    printf.c, which makes one call per character. *)

From stdpp Require Import base numbers list strings.
From Stdlib Require Import ZArith Lia Ascii.
From S2P Require Import Prelude CStrings Fs Proc Printf.

Open Scope Z_scope.

(** ** Programs *)

(** The system calls a program makes with values.  The last two are not made
    by programs: they are calls that went to sleep on the way. *)
Inductive call :=
| Wait | WaitStat | Kill (pid : Z) | Getpid | Uptime | Pause (n : Z)
| Open (path : list Z) (mode : Z) | Close (fd : Z) | Read (fd n : Z) | Write (fd : Z) (bs : list Z)
| Dup (fd : Z) | Pipe | Fstat (fd : Z)
| Link (old new : list Z) | Unlink (path : list Z) | Mkdir (path : list Z)
| Mknod (path : list Z) (major minor : Z) | Chdir (path : list Z)
| PauseFrom (t0 n : Z)
| PipeWrite (p n : Z) (rest : list Z).

(** What comes back: the result, with what the call stored through its
    pointers. *)
Definition reply (c : call) : Type :=
  match c with
  | Read _ _ => Z * list Z
  | Pipe => option (Z * Z)
  | Fstat _ => option stat
  | WaitStat => wstat
  | _ => Z
  end.

(** [Busy n] computes for [n] time slices and [Forever] for ever.  [Exec] goes
    on only if it fails. *)
Inductive prog (A : Type) :=
| Ret (a : A)
| Sys (c : call) (k : reply c -> prog A)
| Fork (k : Z -> prog A)
| Exec (path : list Z) (argv : list (list Z)) (k : prog A)
| Busy (n : nat) (k : prog A)
| Forever
| Exit.
Arguments Ret {A} a.
Arguments Sys {A} c k.
Arguments Fork {A} k.
Arguments Exec {A} path argv k.
Arguments Busy {A} n k.
Arguments Forever {A}.
Arguments Exit {A}.

(** A program that only [exit] ends. *)
Definition task := prog Empty_set.

#[export] Instance prog_ret : MRet prog := @Ret.

#[export] Instance prog_bind : MBind prog := fun A B f =>
  fix go p :=
    match p with
    | Ret a => f a
    | Sys c k => Sys c (fun r => go (k r))
    | Fork k => Fork (fun r => go (k r))
    | Exec path argv k => Exec path argv (go k)
    | Busy n k => Busy n (go k)
    | Forever => Forever
    | Exit => Exit
    end.

(** ** The C library on top of the calls *)

Definition sys (c : call) : prog (reply c) := Sys c Ret.
Definition fork : prog Z := Fork Ret.
Definition exit {A} : prog A := Exit.
Definition exec (path : list Z) (argv : list (list Z)) : prog unit := Exec path argv (Ret tt).
Definition wait : prog Z := sys Wait.
Definition wait_stat : prog wstat := sys WaitStat.
Definition kill (pid : Z) : prog Z := sys (Kill pid).
Definition getpid : prog Z := sys Getpid.
Definition sleep (n : Z) : prog Z := sys (Pause n).
Definition open (path : list Z) (mode : Z) : prog Z := sys (Open path mode).
Definition close (fd : Z) : prog Z := sys (Close fd).
Definition read (fd n : Z) : prog (Z * list Z) := sys (Read fd n).
Definition write (fd : Z) (bs : list Z) : prog Z := sys (Write fd bs).
Definition dup (fd : Z) : prog Z := sys (Dup fd).
Definition pipe : prog (option (Z * Z)) := sys Pipe.
Definition fstat (fd : Z) : prog (option stat) := sys (Fstat fd).
Definition link (old new : list Z) : prog Z := sys (Link old new).
Definition unlink (path : list Z) : prog Z := sys (Unlink path).
Definition mkdir (path : list Z) : prog Z := sys (Mkdir path).
Definition mknod (path : list Z) (major minor : Z) : prog Z := sys (Mknod path major minor).
Definition chdir (path : list Z) : prog Z := sys (Chdir path).

(** A string literal of C: [\n] is one character. *)
Fixpoint lit (s : string) : list Z :=
  match s with
  | String "\"%char (String "n"%char s) => 10 :: lit s
  | String a s => Z.of_nat (nat_of_ascii a) :: lit s
  | EmptyString => []
  end.

(** The arguments after the format. *)
Inductive arg := Int (n : Z) | Str (s : list Z).

(** [printf] writes its output one character at a time. *)
Fixpoint puts (fd : Z) (bs : list Z) : prog unit :=
  match bs with
  | [] => mret tt
  | b :: bs => write fd [b];; puts fd bs
  end.

(** A string argument is passed as an address; here its number, counted from
    1, is one. *)
Definition formatted (fmt : string) (args : list arg) : list Z :=
  printf (fun i => match args !! i with Some (Int n) => u32 n | Some (Str _) => Z.of_nat i + 1 | None => 0 end)
    (fun a => match args !! Z.to_nat (a - 1) with Some (Str s) => s | _ => [] end) (lit fmt).

Definition printf (fd : Z) (fmt : string) (args : list arg) : prog unit := puts fd (formatted fmt args).

(** ** Control *)

(** The character constant ['x']. *)
Definition ch (s : string) : Z := hd 0 (lit s).

(** [for(i = i; ...; i++)], [n] times. *)
Fixpoint loop (n : nat) (i : Z) (body : Z -> prog unit) : prog unit :=
  match n with
  | O => mret tt
  | S n' => body i;; loop n' (i + 1) body
  end.

Definition for_to (a b : Z) (body : Z -> prog unit) : prog unit := loop (Z.to_nat (b - a)) a body.

(** A loop that [inr] leaves; it goes on for ever after [fuel] rounds. *)
Fixpoint iter {A B} (fuel : nat) (body : A -> prog (A + B)) (a : A) : prog B :=
  match fuel with
  | O => Forever
  | S fuel' => r ← body a; match r with inl a => iter fuel' body a | inr b => mret b end
  end.

Definition when_ (b : bool) (p : prog unit) : prog unit := if b then p else mret tt.

(** Report and exit. *)
Definition fail_if (bad : bool) (msg : string) : prog unit := when_ bad (printf 1 msg [];; exit).

(** ** What a program does in an environment *)

(** How a run ends: by returning, by [exit], by becoming another program, or
    never. *)
Inductive ending (A : Type) := Returned (a : A) | Exited | Became (path : list Z) (argv : list (list Z)) | Endless.
Arguments Returned {A} a.
Arguments Exited {A}.
Arguments Became {A} path argv.
Arguments Endless {A}.

(** What answers the calls of one process. *)
Record env (S : Type) := MkEnv {
  e_call : forall c : call, S -> reply c * S;
  e_fork : S -> Z * S;
  e_exec : list Z -> list (list Z) -> S -> bool * S
}.
Arguments e_call {S} _ _ _.
Arguments e_fork {S} _ _.
Arguments e_exec {S} _ _ _ _.

Section interp.
Context {S : Type} (E : env S).

Fixpoint interp {A} (p : prog A) (s : S) : ending A * S :=
  match p with
  | Ret a => (Returned a, s)
  | Sys c k => let '(r, s') := e_call E c s in interp (k r) s'
  | Fork k => let '(r, s') := e_fork E s in interp (k r) s'
  | Exec path argv k => let '(ok, s') := e_exec E path argv s in if ok : bool then (Became path argv, s') else interp k s'
  | Busy _ k => interp k s
  | Forever => (Endless, s)
  | Exit => (Exited, s)
  end.

Lemma interp_bind {A B} (p : prog A) (f : A -> prog B) s :
  interp (p ≫= f) s =
    match interp p s with
    | (Returned a, s') => interp (f a) s'
    | (Exited, s') => (Exited, s')
    | (Became path argv, s') => (Became path argv, s')
    | (Endless, s') => (Endless, s')
    end.
Proof.
  revert s. induction p as [a|c k IH|k IH|path argv k IH|n k IH| |]; intros s; try done.
  - change (Sys c k ≫= f) with (Sys c (fun r => k r ≫= f)). cbn [interp]. destruct (e_call E c s). apply IH.
  - change (Fork k ≫= f) with (Fork (fun r => k r ≫= f)). cbn [interp]. destruct (e_fork E s). apply IH.
  - change (Exec path argv k ≫= f) with (Exec path argv (k ≫= f)). cbn [interp].
    destruct (e_exec E path argv s) as [[] ?]; [done|apply IH].
  - change (Busy n k ≫= f) with (Busy n (k ≫= f)). cbn [interp]. apply IH.
Qed.

Lemma interp_sys c s : interp (sys c) s = (Returned (e_call E c s).1, (e_call E c s).2).
Proof. unfold sys. cbn. by destruct (e_call E c s). Qed.

Lemma interp_returned {A B} (p : prog A) (f : A -> prog B) s a s' :
  interp p s = (Returned a, s') -> interp (p ≫= f) s = interp (f a) s'.
Proof. intros H. by rewrite interp_bind, H. Qed.

Lemma interp_exited {A B} (p : prog A) (f : A -> prog B) s s' :
  interp p s = (Exited, s') -> interp (p ≫= f) s = (Exited, s').
Proof. intros H. by rewrite interp_bind, H. Qed.

End interp.
