(* ===== verification/Utils.v ===== *)
(** * The user programs (HW3/cat.c, wc.c, grep.c, echo.c, ls.c, rm.c, mkdir.c,
      ln.c, kill.c, zombie.c, init.c, forktest.c, stressfs.c, sanity.c, ulib.c)

    Every program whole, from the arguments of [main] to [exit].  [argv] holds
    the arguments; [fuel] bounds the rounds of the loops that end only when
    the system says so. *)

From stdpp Require Import base numbers list strings.
From Stdlib Require Import ZArith Lia.
From S2P Require Import Prelude CStrings UserProgs Disk Fs Proc Sysfile Grep Prog.

Open Scope Z_scope.

(** [argv[1]], [argv[2]], ... *)
Definition args (argv : list (list Z)) : list (list Z) := tail argv.

(** ** ulib.c *)

(** [stat(n, &st)]: [None] is -1. *)
Definition stat_ (n : list Z) : prog (option stat) :=
  fd ← open n O_RDONLY;
  if fd <? 0 then mret None else
  r ← fstat fd;
  close fd;;
  mret r.

(** ** cat.c *)

Definition cat (fuel : nat) (fd : Z) : prog unit :=
  n ← iter fuel (fun _ : unit =>
    '(n, buf) ← read fd 512;
    if n >? 0 then write 1 buf;; mret (inl tt) else mret (inr n)) tt;
  when_ (n <? 0) (printf 1 "cat: read error\n" [];; exit).

(** The loop of [main] over the files, which [cat], [wc] and [grep] share. *)
Fixpoint each_file (cannot : string) (f : Z -> list Z -> prog unit) (files : list (list Z)) : prog unit :=
  match files with
  | [] => mret tt
  | name :: files =>
      fd ← open name 0;
      when_ (fd <? 0) (printf 1 cannot [Str name];; exit);;
      f fd name;;
      close fd;;
      each_file cannot f files
  end.

Definition cat_main (fuel : nat) (argv : list (list Z)) : task :=
  match args argv with
  | [] => cat fuel 0;; exit
  | files => each_file "cat: cannot open %s\n" (fun fd _ => cat fuel fd) files;; exit
  end.

(** ** wc.c *)

Definition wc (fuel : nat) (fd : Z) (name : list Z) : prog unit :=
  r ← iter fuel (fun st =>
    '(n, buf) ← read fd 512;
    if n >? 0 then mret (inl (foldl UserProgs.wc_char st buf)) else mret (inr (n, st)))
    (UserProgs.MkWc 0 0 0 false);
  when_ (r.1 <? 0) (printf 1 "wc: read error\n" [];; exit);;
  printf 1 "%d %d %d %s\n"
    [Int (UserProgs.w_lines r.2); Int (UserProgs.w_words r.2); Int (UserProgs.w_chars r.2); Str name].

Definition wc_main (fuel : nat) (argv : list (list Z)) : task :=
  match args argv with
  | [] => wc fuel 0 [];; exit
  | files => each_file "wc: cannot open %s\n" (wc fuel) files;; exit
  end.

(** ** grep.c *)

(** The inner loop of [grep]: the buffer from the final [p] on. *)
Fixpoint write_lines (k : nat) (pattern p : list Z) : prog (list Z) :=
  match k with
  | O => mret p
  | S k' =>
      match next_line p with
      | None => mret p
      | Some (line, rest) =>
          when_ (match_ pattern line) (write 1 (line ++ [newline]);; mret tt);;
          write_lines k' pattern rest
      end
  end.

(** [m] bytes of the buffer are kept from one round to the next. *)
Definition grep (fuel : nat) (pattern : list Z) (fd : Z) : prog unit :=
  iter fuel (fun kept =>
    '(n, bs) ← read fd (1024 - Z.of_nat (length kept) - 1);
    if n >? 0 then
      let buf := kept ++ bs in
      p ← write_lines (length buf) pattern buf;
      mret (inl (if bool_decide (length p = length buf) then [] else p))
    else mret (inr tt)) [].

Definition grep_main (fuel : nat) (argv : list (list Z)) : task :=
  match args argv with
  | [] => printf 2 "usage: grep pattern [file ...]\n" [];; exit
  | [pattern] => grep fuel pattern 0;; exit
  | pattern :: files => each_file "grep: cannot open %s\n" (fun fd _ => grep fuel pattern fd) files;; exit
  end.

(** ** echo.c *)

Fixpoint echo_args (l : list (list Z)) : prog unit :=
  match l with
  | [] => mret tt
  | a :: l => printf 1 "%s%s" [Str a; Str (match l with [] => lit "\n" | _ => lit " " end)];; echo_args l
  end.

Definition echo_main (argv : list (list Z)) : task := echo_args (args argv);; exit.

(** ** ls.c *)

(** The path of a directory entry: [path/name], the name cut at its NUL. *)
Definition entry_path (path name : list Z) : list Z := path ++ [slash] ++ name.

Definition ls_line (path : list Z) (st : stat) : prog unit :=
  printf 1 "%s %d %d %d\n" [Str (UserProgs.fmtname path); Int (st_type st); Int (st_ino st); Int (st_size st)].

Fixpoint nul_ended (bs : list Z) : list Z :=
  match bs with
  | [] => []
  | b :: bs => if b =? 0 then [] else b :: nul_ended bs
  end.

Definition ls (fuel : nat) (path : list Z) : prog unit :=
  fd ← open path 0;
  if fd <? 0 then printf 2 "ls: cannot open %s\n" [Str path] else
  st ← fstat fd;
  match st with
  | None => printf 2 "ls: cannot stat %s\n" [Str path];; close fd;; mret tt
  | Some st =>
      (if st_type st =? T_FILE then ls_line path st
       else if st_type st =? T_DIR then
         if Z.of_nat (length path) + 1 + DIRSIZ + 1 >? 512 then printf 1 "ls: path too long\n" [] else
         iter fuel (fun _ : unit =>
           '(n, de) ← read fd 16;
           if negb (n =? 16) then mret (inr tt) else
           if get16 de 0 =? 0 then mret (inl tt) else
           let buf := entry_path path (nul_ended (drop 2 de)) in
           st ← stat_ buf;
           match st with
           | None => printf 1 "ls: cannot stat %s\n" [Str buf]
           | Some st => ls_line buf st
           end;;
           mret (inl tt)) tt
       else mret tt);;
      close fd;;
      mret tt
  end.

Fixpoint ls_all (fuel : nat) (paths : list (list Z)) : prog unit :=
  match paths with
  | [] => mret tt
  | p :: paths => ls fuel p;; ls_all fuel paths
  end.

Definition ls_main (fuel : nat) (argv : list (list Z)) : task :=
  match args argv with
  | [] => ls fuel (lit ".");; exit
  | paths => ls_all fuel paths;; exit
  end.

(** ** rm.c, mkdir.c, ln.c, kill.c, zombie.c *)

(** The loop of [rm] and [mkdir], which stops at the first failure. *)
Fixpoint until_failure (f : list Z -> prog Z) (failed : string) (files : list (list Z)) : prog unit :=
  match files with
  | [] => mret tt
  | x :: files =>
      r ← f x;
      if r <? 0 then printf 2 failed [Str x] else until_failure f failed files
  end.

Definition rm_main (argv : list (list Z)) : task :=
  match args argv with
  | [] => printf 2 "Usage: rm files...\n" [];; exit
  | files => until_failure unlink "rm: %s failed to delete\n" files;; exit
  end.

Definition mkdir_main (argv : list (list Z)) : task :=
  match args argv with
  | [] => printf 2 "Usage: mkdir files...\n" [];; exit
  | files => until_failure mkdir "mkdir: %s failed to create\n" files;; exit
  end.

Definition ln_main (argv : list (list Z)) : task :=
  match args argv with
  | [old; new] =>
      r ← link old new;
      when_ (r <? 0) (printf 2 "link %s %s: failed\n" [Str old; Str new]);;
      exit
  | _ => printf 2 "Usage: ln old new\n" [];; exit
  end.

(** [atoi] of a string; no argument is so long that the sum overflows. *)
Definition atoi (s : list Z) : Z :=
  default 0 (Ulib.atoi (S (length s)) (place s 0 nul_mem) 0).

Fixpoint kill_each (pids : list (list Z)) : prog unit :=
  match pids with
  | [] => mret tt
  | p :: pids => kill (atoi p);; kill_each pids
  end.

Definition kill_main (argv : list (list Z)) : task :=
  match args argv with
  | [] => printf 2 "usage: kill pid...\n" [];; exit
  | pids => kill_each pids;; exit
  end.

Definition zombie_main : task :=
  pid ← fork;
  when_ (pid >? 0) (sleep 5;; mret tt);;
  exit.

(** ** init.c *)

(** The processes [init] waits for until the shell ends; it adopts the others. *)
Definition init_wait (fuel : nat) (pid : Z) : prog unit :=
  iter fuel (fun _ : unit =>
    wpid ← wait;
    if (wpid >=? 0) && negb (wpid =? pid) then printf 1 "zombie!\n" [];; mret (inl tt)
    else mret (inr tt)) tt.

Definition init_main (fuel : nat) : task :=
  r ← open (lit "console") O_RDWR;
  when_ (r <? 0) (
    mknod (lit "console") 1 1;;
    open (lit "console") O_RDWR;;
    mret tt);;
  dup 0;;
  dup 0;;
  iter fuel (fun _ : unit =>
    printf 1 "init: starting sh\n" [];;
    pid ← fork;
    when_ (pid <? 0) (printf 1 "init: fork failed\n" [];; exit);;
    when_ (pid =? 0) (
      exec (lit "sh") [lit "sh"];;
      printf 1 "init: exec sh failed\n" [];;
      exit);;
    init_wait fuel pid;;
    mret (inl tt)) tt.

(** ** forktest.c *)

(** Its own [printf] writes the string and nothing else. *)
Definition print_string (fd : Z) (s : string) : prog unit := write fd (lit s);; mret tt.

(** Children until [fork] fails, at most [n]. *)
Fixpoint forks (n : nat) (k : nat) : prog nat :=
  match n with
  | O => mret k
  | S n' =>
      pid ← fork;
      if pid <? 0 then mret k else
      if pid =? 0 then exit else forks n' (S k)
  end.

(** One [wait] for each. *)
Fixpoint waits (k : nat) : prog unit :=
  match k with
  | O => mret tt
  | S k' =>
      w ← wait;
      when_ (w <? 0) (print_string 1 "wait stopped early\n";; exit);;
      waits k'
  end.

Definition forktest : prog unit :=
  print_string 1 "fork test\n";;
  n ← forks 1000 0;
  when_ (bool_decide (n = 1000%nat)) (print_string 1 "fork claimed to work N times!\n";; exit);;
  waits n;;
  w ← wait;
  when_ (negb (w =? -1)) (print_string 1 "wait got too many\n";; exit);;
  print_string 1 "fork test OK\n".

Definition forktest_main : task := forktest;; exit.

(** ** stressfs.c *)

(** [for(i = 0; i < 4; i++) if(fork() > 0) break;] *)
Fixpoint stress_forks (n : nat) (i : Z) : prog Z :=
  match n with
  | O => mret i
  | S n' =>
      pid ← fork;
      if pid >? 0 then mret i else stress_forks n' (i + 1)
  end.

Definition stressfs_main : task :=
  printf 1 "stressfs starting\n" [];;
  let data := replicate 512 (ch "a") in
  i ← stress_forks 4 0;
  printf 1 "write %d\n" [Int i];;
  let path := lit "stressfs" ++ [ch "0" + i] in
  fd ← open path (Z.lor O_CREATE O_RDWR);
  for_to 0 20 (fun _ => write fd data;; mret tt);;
  close fd;;
  printf 1 "read\n" [];;
  fd ← open path O_RDONLY;
  for_to 0 20 (fun _ => read fd 512;; mret tt);;
  close fd;;
  wait;;
  exit.

(** ** sanity.c *)

(** The children count for [slices] time slices.  A failing [fork] is waited
    for like a child: [wait_stat] then leaves the three times as they were. *)
Fixpoint sanity_children (n : nat) (slices : nat) (wtime rtime iotime sum : Z) : prog Z :=
  match n with
  | O => mret sum
  | S n' =>
      pid ← fork;
      if pid =? 0 then Busy slices Exit else
      w ← wait_stat;
      let found := negb (ws_result w =? -1) in
      let wtime := if found then ws_wtime w else wtime in
      let rtime := if found then ws_rtime w else rtime in
      let iotime := if found then ws_iotime w else iotime in
      printf 1 "pid: %d | ready: %d | running: %d \n" [Int (ws_result w); Int wtime; Int rtime];;
      printf 1 "turnaround time: %d \n" [Int (wtime + rtime + iotime)];;
      sanity_children n' slices wtime rtime iotime (sum + (wtime + rtime + iotime))
  end.

Definition sanity_main (slices : nat) : task :=
  sum ← sanity_children 20 slices 0 0 0 0;
  printf 1 "Avg turnaround time: %d\n" [Int (Z.quot sum 20)];;
  exit.
