(* ===== verification/UtilsSpec.v ===== *)
(** * What the user programs do

    The programs that read files and write to standard output, run over a
    reference system: files that can be opened and read, a read returning any
    number of bytes up to those asked for and there, and the list of all that
    was written. *)

From stdpp Require Import base numbers list gmap strings.
From Stdlib Require Import ZArith Lia.
From S2P Require Import Prelude CStrings Tail UserProgs Disk Fs Proc Sysfile Grep Prog Utils.

Open Scope Z_scope.

(** ** The reference system *)

(** [u_open] is what is left to read of each descriptor.  [u_cuts] bounds the
    next reads: by one more than its head, or not at all when it is empty. *)
Record files := MkFiles {
  u_disk : list Z -> option (list Z); u_open : gmap Z (list Z); u_next : Z; u_cuts : list nat; u_out : list (Z * list Z)
}.

(** -1 from any call. *)
Definition refuse (c : call) : reply c :=
  match c with
  | Read _ _ => (-1, [])
  | Pipe => None
  | Fstat _ => None
  | WaitStat => MkWstat 0 0 0 (-1) (-1)
  | _ => -1
  end.

Definition read_size (s : files) (n : Z) : nat :=
  match u_cuts s with
  | [] => Z.to_nat n
  | c :: _ => Nat.min (S c) (Z.to_nat n)
  end.

Definition files_call (c : call) (s : files) : reply c * files :=
  match c return reply c * files with
  | Open path _ =>
      match u_disk s path with
      | Some data => (u_next s, MkFiles (u_disk s) (<[u_next s := data]> (u_open s)) (u_next s + 1) (u_cuts s) (u_out s))
      | None => (-1, s)
      end
  | Read fd n =>
      match u_open s !! fd with
      | Some rest =>
          let bs := take (read_size s n) rest in
          ((Z.of_nat (length bs), bs),
           MkFiles (u_disk s) (<[fd := drop (read_size s n) rest]> (u_open s)) (u_next s) (drop 1 (u_cuts s)) (u_out s))
      | None => ((-1, []), s)
      end
  | Write fd bs => (Z.of_nat (length bs), MkFiles (u_disk s) (u_open s) (u_next s) (u_cuts s) (u_out s ++ [(fd, bs)]))
  | Close fd => (0, MkFiles (u_disk s) (delete fd (u_open s)) (u_next s) (u_cuts s) (u_out s))
  | c => (refuse c, s)
  end.

Definition files_env : env files := MkEnv _ files_call (fun s => (-1, s)) (fun _ _ s => (false, s)).

Notation run := (interp files_env).

(** What was written to [fd]. *)
Definition written (fd : Z) (s : files) : list Z := concat (snd <$> filter (fun x => x.1 = fd) (u_out s)).

(** The same system, with more output. *)
Record grown (fd : Z) (out : list Z) (s s' : files) : Prop := {
  gr_disk : u_disk s' = u_disk s;
  gr_next : u_next s' = u_next s;
  gr_cuts : u_cuts s = [] -> u_cuts s' = [];
  gr_open : forall x, x <> fd -> u_open s' !! x = u_open s !! x;
  gr_out : written 1 s' = written 1 s ++ out
}.

Lemma written_snoc fd x bs s d o n c :
  written fd (MkFiles d o n c (u_out s ++ [(x, bs)])) = written fd s ++ (if decide (x = fd) then bs else []).
Proof.
  unfold written. cbn [u_out]. rewrite filter_app, fmap_app, concat_app, filter_cons. cbn [fst].
  destruct (decide (x = fd)); cbn; by rewrite ?app_nil_r.
Qed.

Lemma run_puts bs s : exists s', run (puts 1 bs) s = (Returned tt, s') /\ u_open s' = u_open s /\ forall fd, grown fd bs s s'.
Proof.
  revert s. induction bs as [|b bs IH]; intros s.
  - exists s. split_and!; [done..|]. intros fd. split; try done. by rewrite app_nil_r.
  - cbn [puts]. rewrite (interp_returned files_env (write 1 [b]) _ s _ _ (interp_sys files_env (Write 1 [b]) s)).
    cbn [e_call files_env files_call snd].
    destruct (IH (MkFiles (u_disk s) (u_open s) (u_next s) (u_cuts s) (u_out s ++ [(1, [b])]))) as (s' & E & Ho & G).
    exists s'. split_and!; [exact E|done|]. intros fd. destruct (G fd) as [G1 G2 G3 G4 G5]. split; try done.
    rewrite G5, written_snoc. rewrite decide_True by done. by rewrite <- app_assoc.
Qed.

Lemma grown_then fd a b s s1 s2 : grown fd a s s1 -> grown fd b s1 s2 -> grown fd (a ++ b) s s2.
Proof.
  intros [A1 A2 A3 A4 A5] [B1 B2 B3 B4 B5]. split; try congruence.
  - eauto.
  - intros x Hx. by rewrite B4, A4.
  - by rewrite B5, A5, app_assoc.
Qed.

Lemma run_printf fmt l s : exists s', run (printf 1 fmt l) s = (Returned tt, s') /\ u_open s' = u_open s /\
  forall fd, grown fd (formatted fmt l) s s'.
Proof. apply run_puts. Qed.

Lemma run_write1 bs s : exists r s', run (write 1 bs) s = (Returned r, s') /\ u_open s' = u_open s /\ forall fd, grown fd bs s s'.
Proof.
  eexists _, _. split; [exact (interp_sys files_env (Write 1 bs) s)|]. split; [done|]. intros fd. split; try done.
  cbn [e_call files_env files_call snd]. rewrite written_snoc. by rewrite decide_True.
Qed.

(** A read takes some of what is left, at least a byte if there is one. *)
Lemma run_read fd n rest s : u_open s !! fd = Some rest ->
  exists k s', run (read fd n) s = (Returned (Z.of_nat (length (take k rest)), take k rest), s') /\
    u_open s' !! fd = Some (drop k rest) /\ grown fd [] s s' /\ (0 < n -> (0 < k)%nat) /\ (u_cuts s = [] -> k = Z.to_nat n).
Proof.
  intros Ho. exists (read_size s n). eexists. split; [rewrite (interp_sys files_env (Read fd n) s : run (read fd n) s = _); cbn [e_call files_env files_call]; rewrite Ho; done|].
  cbn [fst snd u_open]. rewrite lookup_insert_eq. split_and!; try done.
  - split; try done; cbn.
    + intros H. by rewrite H.
    + intros x Hx. by rewrite lookup_insert_ne.
    + unfold written. cbn. by rewrite app_nil_r.
  - unfold read_size. destruct (u_cuts s); lia.
  - unfold read_size. by intros ->.
Qed.

(** ** Loops that read to the end of a file *)

(** A loop over what is left to read of [fd]: each round reads some of it and
    writes its part of the output [g], and the round that finds nothing left
    ends with the result [b].  [inv] relates the variable of the loop to what is
    left. *)
Section reading.
Context {A B : Type} (fd : Z) (body : A -> prog (A + B)).
Context (full : bool) (inv : A -> list Z -> Prop) (g : A -> list Z -> list Z) (b : A -> list Z -> B).

Definition fits (s : files) : Prop := full = true -> u_cuts s = [].

Context (last_round : forall a s, u_open s !! fd = Some [] -> inv a [] -> fits s ->
  g a [] = [] /\ exists s', run (body a) s = (Returned (inr (b a [])), s') /\ grown fd [] s s').
Context (one_round : forall a rest s, u_open s !! fd = Some rest -> rest <> [] -> inv a rest -> fits s ->
  exists k a' out s', (0 < k)%nat /\ run (body a) s = (Returned (inl a'), s') /\ u_open s' !! fd = Some (drop k rest) /\
    grown fd out s s' /\ inv a' (drop k rest) /\ g a rest = out ++ g a' (drop k rest) /\ b a rest = b a' (drop k rest)).

Lemma reading_ok fuel a rest s :
  u_open s !! fd = Some rest -> inv a rest -> fits s -> (length rest < fuel)%nat ->
  exists s', run (iter fuel body a) s = (Returned (b a rest), s') /\ grown fd (g a rest) s s'.
Proof.
  revert a rest s. induction fuel as [|fuel IH]; intros a rest s Ho Hi Hf Hl; [lia|]. cbn [iter].
  destruct (decide (rest = [])) as [->|Hne].
  - destruct (last_round a s Ho Hi Hf) as (-> & s' & E & G). exists s'. by rewrite (interp_returned _ _ _ _ _ _ E).
  - destruct (one_round a rest s Ho Hne Hi Hf) as (k & a' & out & s1 & Hk & E & Ho1 & G & Hi1 & -> & ->).
    rewrite (interp_returned _ _ _ _ _ _ E).
    destruct (IH a' (drop k rest) s1 Ho1 Hi1) as (s2 & E2 & G2).
    + intros Hb. by apply (gr_cuts _ _ _ _ G), Hf.
    + rewrite length_drop. destruct rest; [done|]. cbn [length] in *. lia.
    + exists s2. split; [exact E2|]. by eapply grown_then.
Qed.
End reading.

(** ** cat, wc and grep on one file *)

Lemma read_some {A} k (rest : list A) : rest <> [] -> (0 < k)%nat -> (Z.of_nat (length (take k rest)) >? 0) = true.
Proof. intros Hr Hk. destruct rest; [done|]. destruct k; [lia|]. apply Z.gtb_lt. cbn [take length]. lia. Qed.

Lemma cat_ok fuel fd rest s : u_open s !! fd = Some rest -> (length rest < fuel)%nat ->
  exists s', run (cat fuel fd) s = (Returned tt, s') /\ grown fd rest s s'.
Proof.
  intros Ho Hl. unfold cat.
  destruct (reading_ok fd (fun _ : unit => '(n, buf) ← read fd 512; if n >? 0 then write 1 buf;; mret (inl tt) else mret (inr n))
    false (fun _ _ => True) (fun _ rest => rest) (fun _ _ => 0)) with (fuel := fuel) (a := tt) (rest := rest) (s := s)
    as (s' & E & G); try done.
  - intros a s0 H _ _. split; [done|]. destruct (run_read fd 512 [] s0 H) as (k & s1 & E & _ & G & _).
    exists s1. rewrite (interp_returned _ _ _ _ _ _ E). by rewrite take_nil.
  - intros a r s0 H Hr _ _. destruct (run_read fd 512 r s0 H) as (k & s1 & E & Ho1 & G & Hk & _). specialize (Hk ltac:(lia)).
    destruct (run_write1 (take k r) s1) as (w & s2 & E2 & Ho2 & G2).
    exists k, tt, (take k r), s2. rewrite (interp_returned _ _ _ _ _ _ E), (read_some k r Hr Hk), (interp_returned _ _ _ _ _ _ E2).
    split_and!; try done; [by rewrite Ho2| |by rewrite take_drop]. exact (grown_then _ [] _ _ _ _ G (G2 fd)).
  - exists s'. by rewrite (interp_returned _ _ _ _ _ _ E).
Qed.

(** The line [wc] prints for a file. *)
Definition wc_line (name data : list Z) : list Z :=
  formatted "%d %d %d %s\n"
    [Int (Z.of_nat (count_lines data)); Int (Z.of_nat (length (words data))); Int (Z.of_nat (length data)); Str name].

Lemma wc_ok fuel fd name rest s : u_open s !! fd = Some rest -> (length rest < fuel)%nat ->
  exists s', run (wc fuel fd name) s = (Returned tt, s') /\ grown fd (wc_line name rest) s s'.
Proof.
  intros Ho Hl. unfold wc.
  destruct (reading_ok fd (fun st => '(n, buf) ← read fd 512;
      if n >? 0 then mret (inl (foldl wc_char st buf)) else mret (inr (n, st)))
    false (fun _ _ => True) (fun _ _ => []) (fun st rest => (0, foldl wc_char st rest)))
    with (fuel := fuel) (a := MkWc 0 0 0 false) (rest := rest) (s := s) as (s1 & E & G); try done.
  - intros a s0 H _ _. split; [done|]. destruct (run_read fd 512 [] s0 H) as (k & s1 & E & _ & G & _).
    exists s1. rewrite (interp_returned _ _ _ _ _ _ E). by rewrite take_nil.
  - intros a r s0 H Hr _ _. destruct (run_read fd 512 r s0 H) as (k & s1 & E & Ho1 & G & Hk & _). specialize (Hk ltac:(lia)).
    exists k, (foldl wc_char a (take k r)), [], s1. rewrite (interp_returned _ _ _ _ _ _ E), (read_some k r Hr Hk).
    split_and!; try done. by rewrite <- foldl_app, take_drop.
  - rewrite (interp_returned _ _ _ _ _ _ E). cbn [fst snd]. change (0 <? 0) with false. cbn [when_].
    rewrite (interp_returned files_env (Ret tt) _ s1 tt s1 eq_refl).
    destruct (run_printf "%d %d %d %s\n" [Int (w_lines (foldl wc_char (MkWc 0 0 0 false) rest));
      Int (w_words (foldl wc_char (MkWc 0 0 0 false) rest)); Int (w_chars (foldl wc_char (MkWc 0 0 0 false) rest)); Str name] s1)
      as (s2 & E2 & _ & G2).
    exists s2. split; [exact E2|]. pose proof (wc_words rest (MkWc 0 0 0 false) [] eq_refl) as Hw.
    destruct (wc_lines_chars rest (MkWc 0 0 0 false)) as [Hn Hc]. specialize (G2 fd).
    rewrite Hn, Hc in G2. cbn [w_lines w_chars w_words nonempty] in *.
    replace (w_words _) with (Z.of_nat (length (words rest))) in G2 by (unfold words; lia).
    exact (grown_then _ [] _ _ _ _ G G2).
Qed.

Lemma write_lines_ok k pattern p s fd : exists s', run (write_lines k pattern p) s = (Returned (scan_lines k pattern p).2, s') /\
  u_open s' = u_open s /\ grown fd (scan_lines k pattern p).1 s s'.
Proof.
  assert (R : forall s, grown fd [] s s) by (intros s0; split; try done; by rewrite app_nil_r).
  revert p s. induction k as [|k IH]; intros p s; cbn [write_lines scan_lines]; [by exists s|].
  destruct (next_line p) as [[line rest]|]; [|by exists s].
  assert (W : exists s1, run (when_ (match_ pattern line) (write 1 (line ++ [newline]);; mret tt)) s = (Returned tt, s1) /\
    u_open s1 = u_open s /\ grown fd (if match_ pattern line then line ++ [newline] else []) s s1).
  { destruct (match_ pattern line); cbn [when_]; [|by exists s].
    destruct (run_write1 (line ++ [newline]) s) as (r & s1 & E & Ho & G). exists s1. by rewrite (interp_returned _ _ _ _ _ _ E). }
  destruct W as (s1 & E1 & O1 & G1). rewrite (interp_returned _ _ _ _ _ _ E1).
  destruct (IH rest s1) as (s2 & E2 & O2 & G2). exists s2. destruct (scan_lines k pattern rest) as [out p'].
  split_and!; [exact E2|congruence|]. by eapply grown_then.
Qed.

Lemma grep_loop_ok pattern fd k : forall fuel kept rest s out, grep_file k pattern kept rest = Some out -> (k < fuel)%nat ->
  u_open s !! fd = Some rest -> u_cuts s = [] ->
  exists s', run (iter fuel (fun kept =>
    '(n, bs) ← read fd (1024 - Z.of_nat (length kept) - 1);
    if n >? 0 then
      let buf := kept ++ bs in
      p ← write_lines (length buf) pattern buf;
      mret (inl (if bool_decide (length p = length buf) then [] else p))
    else mret (inr tt)) kept) s = (Returned tt, s') /\ grown fd out s s'.
Proof.
  induction k as [|k IH]; intros fuel kept rest s out Hg Hf Ho Hc; (destruct fuel as [|fuel]; [lia|]); cbn [iter].
  all: destruct (run_read fd (1024 - Z.of_nat (length kept) - 1) rest s Ho) as (j & s1 & E & Ho1 & G & _ & Hj).
  all: specialize (Hj Hc); replace (Z.to_nat _) with (BUFSIZE - length kept)%nat in Hj by (unfold BUFSIZE; lia); subst j.
  all: rewrite interp_bind, (interp_returned _ _ _ _ _ _ E); cbn [grep_file] in Hg.
  all: destruct (take _ rest) as [|x chunk] eqn:Et; [injection Hg as <-; by exists s1|]. 1: done.
  rewrite (proj2 (Z.gtb_lt _ _)) by (cbn [length]; lia). unfold grep_round in Hg. set (buf := kept ++ x :: chunk) in *.
  destruct (write_lines_ok (length buf) pattern buf s1 fd) as (s2 & E2 & O2 & G2). rewrite (interp_returned _ _ _ _ _ _ E2).
  destruct (scan_lines (length buf) pattern buf) as [o p]. cbn [fst snd] in *.
  destruct (grep_file k pattern _ _) as [out'|] eqn:Eg; [|done]. injection Hg as <-.
  destruct (IH fuel _ _ s2 out' Eg ltac:(lia)) as (s3 & E3 & G3).
  - by rewrite O2.
  - by apply (gr_cuts _ _ _ _ G2), (gr_cuts _ _ _ _ G).
  - exists s3. split; [exact E3|]. exact (grown_then _ _ _ _ _ _ (grown_then _ [] _ _ _ _ G G2) G3).
Qed.

Lemma grep_ok fuel pattern fd rest s : u_open s !! fd = Some rest -> u_cuts s = [] -> 0 ∉ rest -> short_lines rest ->
  (length rest < fuel)%nat -> exists s', run (grep fuel pattern fd) s = (Returned tt, s') /\ grown fd (selected pattern rest) s s'.
Proof.
  intros Ho Hc Hz Hs Hl. apply (grep_loop_ok pattern fd (length rest) fuel [] rest); try done.
  apply grep_file_spec; try done. set_solver +.
Qed.

(** A first read without a newline in it is thrown away. *)
Lemma grep_drops_piece fuel pattern fd a b s : u_open s !! fd = Some (a ++ b) -> a <> [] -> read_size s 1023 = length a ->
  drop 1 (u_cuts s) = [] -> newline ∉ a -> 0 ∉ a ++ b -> short_lines b -> (length (a ++ b) < fuel)%nat ->
  exists s', run (grep fuel pattern fd) s = (Returned tt, s') /\ written 1 s' = written 1 s ++ selected pattern b.
Proof.
  intros Ho Ha Hr Hc Hn Hz Hs Hl. destruct fuel as [|fuel]; [lia|]. unfold grep. cbn [iter].
  change (1024 - Z.of_nat (length []) - 1) with 1023.
  rewrite interp_bind, (interp_returned _ _ _ _ _ _ (interp_sys files_env (Read fd 1023) s)).
  cbn [e_call files_env files_call]. rewrite Ho, Hr, take_app_length, drop_app_length, Hc. cbn [fst snd app].
  assert (0 < length a)%nat by (destruct a; [done|cbn; lia]). rewrite (proj2 (Z.gtb_lt _ _)) by lia.
  destruct (length a) as [|n] eqn:En; [lia|]. cbn [write_lines].
  pose proof (next_line_spec a ltac:(set_solver +Hz)) as Hx. destruct (next_line a) as [[line rest]|]; [destruct Hx as [-> _]; set_solver +Hn|].
  set (s1 := MkFiles _ _ _ _ _). rewrite (interp_returned files_env (Ret a) _ s1 a s1 eq_refl), bool_decide_eq_true_2 by congruence.
  destruct (grep_ok fuel pattern fd b s1) as (s' & E & G); try done; [apply lookup_insert_eq|set_solver +Hz|rewrite length_app in Hl; lia|].
  exists s'. split; [exact E|exact (gr_out _ _ _ _ G)].
Qed.

(** ** The programs on a list of files *)

(** What is written for the files: [g] of each, up to the first that cannot be
    opened, which is reported. *)
Fixpoint each_output (disk : list Z -> option (list Z)) (cannot : string) (g : list Z -> list Z -> list Z)
    (names : list (list Z)) : list Z :=
  match names with
  | [] => []
  | name :: names =>
      match disk name with
      | Some data => g name data ++ each_output disk cannot g names
      | None => formatted cannot [Str name]
      end
  end.

Section each.
Context (cannot : string) (f : Z -> list Z -> prog unit) (g : list Z -> list Z -> list Z) (full : bool) (ok : list Z -> Prop).
Context (f_ok : forall fd name data s, u_open s !! fd = Some data -> ok data -> (full = true -> u_cuts s = []) ->
  exists s', run (f fd name) s = (Returned tt, s') /\ grown fd (g name data) s s').

Lemma each_file_ok names s :
  0 <= u_next s -> (forall name data, name ∈ names -> u_disk s name = Some data -> ok data) -> (full = true -> u_cuts s = []) ->
  exists s', run (each_file cannot f names;; @exit Empty_set) s = (Exited, s') /\
    written 1 s' = written 1 s ++ each_output (u_disk s) cannot g names.
Proof.
  revert s. induction names as [|name names IH]; intros s Hn Hok Hc; cbn [each_file each_output].
  { exists s. split; [done|]. by rewrite app_nil_r. }
  assert (Eo : run (open name 0) s = (Returned (files_call (Open name 0) s).1, (files_call (Open name 0) s).2))
    by exact (interp_sys files_env (Open name 0) s).
  rewrite interp_bind, (interp_returned _ _ _ _ _ _ Eo). cbn [files_call]. destruct (u_disk s name) as [data|] eqn:Ed; cbn [fst snd].
  - rewrite (proj2 (Z.ltb_ge _ _)) by done. set (s1 := MkFiles _ _ _ _ _). change (when_ false _) with (@Ret unit tt).
    rewrite (interp_returned files_env (Ret tt) _ s1 tt s1 eq_refl).
    destruct (f_ok (u_next s) name data s1) as (s2 & E2 & G2); [apply lookup_insert_eq|by eapply Hok; [left|]|done|].
    rewrite (interp_returned _ _ _ _ _ _ E2).
    rewrite (interp_returned files_env (close (u_next s)) _ s2 _ _ (interp_sys files_env (Close (u_next s)) s2)).
    cbn [e_call files_env files_call snd]. set (s3 := MkFiles _ _ _ _ _).
    assert (D : u_disk s3 = u_disk s) by (cbn; by rewrite (gr_disk _ _ _ _ G2)).
    destruct (IH s3) as (s' & E & W).
    + cbn. rewrite (gr_next _ _ _ _ G2). cbn. lia.
    + intros x d Hx. rewrite D. apply Hok. by right.
    + intros Hb. cbn. by apply (gr_cuts _ _ _ _ G2), Hc.
    + exists s'. rewrite interp_bind in E. split; [exact E|]. rewrite W, D.
      change (written 1 s3) with (written 1 s2). rewrite (gr_out _ _ _ _ G2). change (written 1 s1) with (written 1 s). by rewrite app_assoc.
  - change (-1 <? 0) with true. cbn [when_]. destruct (run_printf cannot [Str name] s) as (s' & E & _ & G).
    rewrite interp_bind, (interp_returned _ _ _ _ _ _ E). exists s'. split; [done|]. apply (gr_out _ _ _ _ (G 0)).
Qed.
End each.

(** C34: [cat], [wc] and [grep] do to files what they are for.  Given the names of
    files, and for [grep] a pattern, each program ends and has written to
    standard output, for one file after the other up to the first that cannot
    be opened, which it reports: [cat] the contents; [wc] the numbers of lines,
    of words and of bytes; [grep] the lines that match.  For [cat] and [wc] this
    is so whatever number of bytes each read returns and whatever the bytes are.
    For [grep] it is so when every read returns all that was asked for and is
    there, the files hold no NUL byte, and no line is as long as the 1023 bytes
    of the buffer.  Beyond that it is not: a first piece without a newline, a
    read that returns less than a line or the first 1023 bytes of a longer line,
    is thrown away, and what follows it is searched as if the file began there. *)
Theorem filters_process_files (fuel : nat) (self : list Z) (names : list (list Z)) (s : files) :
  names <> [] -> 0 <= u_next s ->
  (forall name data, name ∈ names -> u_disk s name = Some data -> (length data < fuel)%nat) ->
  let writes p out := exists s', run p s = (Exited, s') /\ written 1 s' = written 1 s ++ out in
  writes (cat_main fuel (self :: names)) (each_output (u_disk s) "cat: cannot open %s\n" (fun _ data => data) names) /\
  writes (wc_main fuel (self :: names)) (each_output (u_disk s) "wc: cannot open %s\n" wc_line names) /\
  (u_cuts s = [] ->
   (forall name data, name ∈ names -> u_disk s name = Some data -> 0 ∉ data /\ short_lines data) ->
   forall pattern, writes (grep_main fuel (self :: pattern :: names))
     (each_output (u_disk s) "grep: cannot open %s\n" (fun _ => selected pattern) names)) /\
  (forall pattern fd a b, u_open s !! fd = Some (a ++ b) -> a <> [] -> newline ∉ a -> 0 ∉ a ++ b -> short_lines b ->
   (length (a ++ b) < fuel)%nat -> read_size s 1023 = length a -> drop 1 (u_cuts s) = [] ->
   exists s', run (grep fuel pattern fd) s = (Returned tt, s') /\ written 1 s' = written 1 s ++ selected pattern b).
Proof.
  intros Hne Hn Hl writes. split_and!.
  - unfold cat_main. change (args _) with names. destruct names as [|n0 ns]; [done|].
    apply (each_file_ok _ _ _ false (fun d => (length d < fuel)%nat)); try done. intros fd name data s0 Ho Hd _. by apply cat_ok.
  - unfold wc_main. change (args _) with names. destruct names as [|n0 ns]; [done|].
    apply (each_file_ok _ _ _ false (fun d => (length d < fuel)%nat)); try done. intros fd name data s0 Ho Hd _. by apply wc_ok.
  - intros Hc Ht pattern. unfold grep_main. change (args _) with (pattern :: names). destruct names as [|n0 ns]; [done|].
    apply (each_file_ok _ _ _ true (fun d => (length d < fuel)%nat /\ 0 ∉ d /\ short_lines d)); try done.
    + intros fd name data s0 Ho (H1 & H2 & H3) Hc0. by apply grep_ok; auto.
    + intros name data Hin Hd. split; [by eapply Hl|by eapply Ht].
  - intros pattern fd a b Ho Ha Hnl Hz Hs Hlen Hr Hc. by apply (grep_drops_piece fuel pattern fd a b s).
Qed.

(** Two files, and reads of one to three bytes; and a line of which the first
    read returns three bytes. *)
Definition sample_files (cuts : list nat) : files :=
  MkFiles (fun name => if bool_decide (name = lit "a") then Some (lit "one two\nthree\n")
                       else if bool_decide (name = lit "b") then Some (lit "four\n") else None) {[0 := lit "one two\n"]} 3 cuts [].

Lemma short_lines_small data : (length data < BUFSIZE)%nat -> short_lines data.
Proof. intros H a b c E _. apply (f_equal length) in E. rewrite !length_app in E. lia. Qed.

Lemma sample_disk cuts name data : u_disk (sample_files cuts) name = Some data -> data = lit "one two\nthree\n" \/ data = lit "four\n".
Proof. cbn. repeat case_bool_decide; naive_solver. Qed.

Lemma filters_process_files_witness :
  (exists s', run (cat_main 20 [lit "cat"; lit "a"; lit "b"; lit "c"]) (sample_files [0; 2; 1]%nat) = (Exited, s') /\
     written 1 s' = lit "one two\nthree\nfour\ncat: cannot open c\n") /\
  (exists s', run (wc_main 20 [lit "wc"; lit "a"; lit "b"; lit "c"]) (sample_files [0; 2; 1]%nat) = (Exited, s') /\
     written 1 s' = lit "2 3 14 a\n1 1 5 b\nwc: cannot open c\n") /\
  (exists s', run (grep_main 20 [lit "grep"; lit "o.*r"; lit "a"; lit "b"]) (sample_files []) = (Exited, s') /\
     written 1 s' = lit "four\n") /\
  (exists s', run (grep 20 (lit "two") 0) (sample_files [2]%nat) = (Returned tt, s') /\ written 1 s' = lit " two\n").
Proof.
  destruct (filters_process_files 20 (lit "cat") [lit "a"; lit "b"; lit "c"] (sample_files [0; 2; 1]%nat)) as (H1 & H2 & _).
  { done. } { done. } { intros name data _ Hd. destruct (sample_disk _ name data Hd) as [-> | ->]; vm_compute; lia. }
  destruct (filters_process_files 20 (lit "grep") [lit "a"; lit "b"] (sample_files [])) as (_ & _ & H3 & _).
  { done. } { done. } { intros name data _ Hd. destruct (sample_disk _ name data Hd) as [-> | ->]; vm_compute; lia. }
  destruct (filters_process_files 20 (lit "grep") [lit "a"] (sample_files [2]%nat)) as (_ & _ & _ & H4).
  { done. } { done. } { intros name data _ Hd. destruct (sample_disk _ name data Hd) as [-> | ->]; vm_compute; lia. }
  split; [exact H1|]. split; [exact H2|]. split.
  - apply (H3 eq_refl). intros name data _ Hd.
    destruct (sample_disk _ name data Hd) as [-> | ->]; (split; [apply (bool_decide_unpack _); vm_compute; exact I|apply short_lines_small; vm_compute; lia]).
  - apply (H4 (lit "two") 0 (lit "one") (lit " two\n")); try done; try (apply (bool_decide_unpack _); vm_compute; exact I).
    apply short_lines_small. vm_compute. lia.
Defined.

(** ** rm and mkdir in any system *)

Section any_system.
Context {S : Type} (E : env S) (f : list Z -> prog Z).

(** [f] answers one name after the other without an error, from [s] to [s']. *)
Inductive succeeds : list (list Z) -> S -> S -> Prop :=
| succeeds_nil s : succeeds [] s s
| succeeds_cons x names r s s1 s' : interp E (f x) s = (Returned r, s1) -> 0 <= r -> succeeds names s1 s' -> succeeds (x :: names) s s'.

Lemma puts_returns fd bs s : exists s', interp E (puts fd bs) s = (Returned tt, s').
Proof.
  revert s. induction bs as [|b bs IH]; intros s; [by exists s|]. cbn [puts].
  rewrite (interp_returned E (write fd [b]) _ s _ _ (interp_sys E (Write fd [b]) s)). apply IH.
Qed.

Lemma until_failure_ok failed names s : (forall x s, exists r s', interp E (f x) s = (Returned r, s')) ->
  (exists s', succeeds names s s' /\ interp E (until_failure f failed names) s = (Returned tt, s')) \/
  (exists done_ x rest s1 r s2 s', names = done_ ++ x :: rest /\ succeeds done_ s s1 /\ interp E (f x) s1 = (Returned r, s2) /\ r < 0 /\
     interp E (printf 2 failed [Str x]) s2 = (Returned tt, s') /\ interp E (until_failure f failed names) s = (Returned tt, s')).
Proof.
  intros Hf. revert s. induction names as [|x names IH]; intros s; cbn [until_failure].
  { left. exists s. split; [constructor|done]. }
  destruct (Hf x s) as (r & s1 & Er). rewrite (interp_returned _ _ _ _ _ _ Er). destruct (Z.ltb_spec r 0) as [Hr|Hr].
  - right. destruct (puts_returns 2 (formatted failed [Str x]) s1) as (s' & Ep).
    exists [], x, names, s, r, s1, s'. split_and!; try done. constructor.
  - destruct (IH s1) as [(s' & H1 & H2)|(dn & y & rest & s2 & r2 & s3 & s' & -> & H1 & H2)].
    + left. exists s'. split; [by econstructor|exact H2].
    + right. exists (x :: dn), y, rest, s2, r2, s3, s'. split; [done|]. split; [by econstructor|exact H2].
Qed.
End any_system.

(** C35: [rm] and [mkdir] stop at the first error.  In any system, either every
    name is removed (or made), in order, and nothing else is called; or the
    names before the first that fails are, the failure is reported on
    descriptor 2 with its name, and the names behind it are not touched.  Both
    programs then exit. *)
Theorem rm_mkdir_stop_at_error {S : Type} (E : env S) (self : list Z) (names : list (list Z)) (s : S) :
  names <> [] ->
  let stops f failed p :=
    (exists s', succeeds E f names s s' /\ interp E p s = (Exited, s')) \/
    (exists done_ x rest s1 r s2 s', names = done_ ++ x :: rest /\ succeeds E f done_ s s1 /\
       interp E (f x) s1 = (Returned r, s2) /\ r < 0 /\
       interp E (printf 2 failed [Str x]) s2 = (Returned tt, s') /\ interp E p s = (Exited, s')) in
  stops unlink "rm: %s failed to delete\n"%string (rm_main (self :: names)) /\
  stops mkdir "mkdir: %s failed to create\n"%string (mkdir_main (self :: names)).
Proof.
  intros Hne stops.
  assert (X : forall f failed, (forall x s, exists r s', interp E (f x) s = (Returned r, s')) ->
    stops f failed (until_failure f failed names;; exit)).
  { intros f failed Hf. destruct (until_failure_ok E f failed names s Hf) as [(s' & H1 & H2)|(dn & x & rest & s1 & r & s2 & s' & H1 & H2 & H3 & H4 & H5 & H6)].
    - left. exists s'. split; [done|]. by rewrite (interp_returned _ _ _ _ _ _ H2).
    - right. exists dn, x, rest, s1, r, s2, s'. split_and!; try done. by rewrite (interp_returned _ _ _ _ _ _ H6). }
  split.
  - unfold rm_main. change (args _) with names. destruct names as [|n0 ns]; [done|]. apply X.
    intros x s0. eexists _, _. exact (interp_sys E (Unlink x) s0).
  - unfold mkdir_main. change (args _) with names. destruct names as [|n0 ns]; [done|]. apply X.
    intros x s0. eexists _, _. exact (interp_sys E (Mkdir x) s0).
Qed.

(** A system with a set of names that can be removed and made; the state also
    holds what is written. *)
Definition names_env : env (list (list Z) * list Z) :=
  MkEnv _ (fun c => match c return _ -> reply c * _ with
    | Unlink x => fun s => if decide (x ∈ s.1) then (0, (filter (fun y => y <> x) s.1, s.2)) else (-1, s)
    | Mkdir x => fun s => if decide (x ∈ s.1) then (-1, s) else (0, (x :: s.1, s.2))
    | Write _ bs => fun s => (Z.of_nat (length bs), (s.1, s.2 ++ bs))
    | c => fun s => (refuse c, s)
    end) (fun s => (-1, s)) (fun _ _ s => (false, s)).

Lemma rm_mkdir_stop_at_error_witness : exists s' : list (list Z) * list Z,
  interp names_env (rm_main [lit "rm"; lit "a"; lit "b"; lit "c"]) ([lit "a"; lit "c"], []) = (Exited, s') /\
  s' = ([lit "c"], lit "rm: b failed to delete\n").
Proof.
  destruct (rm_mkdir_stop_at_error names_env (lit "rm") [lit "a"; lit "b"; lit "c"] ([lit "a"; lit "c"], []) ltac:(discriminate)) as [H _].
  destruct H as [(s' & _ & H)|(dn & x & rest & s1 & r & s2 & s' & _ & _ & _ & _ & _ & H)];
    (exists s'; split; [exact H|]; vm_compute in H; injection H as <-; reflexivity).
Defined.
