(* ===== verification/UserTests.v ===== *)
(** * The system call tests (HW3/usertests.c)

    The tests of usertests.c as programs, in the order of the file.  Those that
    look at the memory of the process ([mem], [sbrktest], [validatetest],
    [bsstest] and [bigargtest]) are left out, and so is [main], which runs them
    all.  [buf] is the contents of the global buffer when a test writes from it
    without having filled it. *)

From stdpp Require Import base numbers list strings.
From Stdlib Require Import ZArith Lia.
From S2P Require Import Prelude CStrings Disk Fs Sysfile Prog.

Open Scope Z_scope.

Definition stdout : Z := 1.
Definition sizeof_buf : Z := 8192.

Definition iputtest : prog unit :=
  printf stdout "iput test\n" [];;
  r ← mkdir (lit "iputdir");
  fail_if (r <? 0) "mkdir failed\n";;
  r ← chdir (lit "iputdir");
  fail_if (r <? 0) "chdir iputdir failed\n";;
  r ← unlink (lit "../iputdir");
  fail_if (r <? 0) "unlink ../iputdir failed\n";;
  r ← chdir (lit "/");
  fail_if (r <? 0) "chdir / failed\n";;
  printf stdout "iput test ok\n" [].

Definition exitiputtest : prog unit :=
  printf stdout "exitiput test\n" [];;
  pid ← fork;
  fail_if (pid <? 0) "fork failed\n";;
  when_ (pid =? 0) (
    r ← mkdir (lit "iputdir");
    fail_if (r <? 0) "mkdir failed\n";;
    r ← chdir (lit "iputdir");
    fail_if (r <? 0) "child chdir failed\n";;
    r ← unlink (lit "../iputdir");
    fail_if (r <? 0) "unlink ../iputdir failed\n";;
    exit);;
  wait;;
  printf stdout "exitiput test ok\n" [].

Definition openiputtest : prog unit :=
  printf stdout "openiput test\n" [];;
  r ← mkdir (lit "oidir");
  fail_if (r <? 0) "mkdir oidir failed\n";;
  pid ← fork;
  fail_if (pid <? 0) "fork failed\n";;
  when_ (pid =? 0) (
    fd ← open (lit "oidir") O_RDWR;
    fail_if (fd >=? 0) "open directory for write succeeded\n";;
    exit);;
  sleep 1;;
  r ← unlink (lit "oidir");
  fail_if (negb (r =? 0)) "unlink failed\n";;
  wait;;
  printf stdout "openiput test ok\n" [].

Definition opentest : prog unit :=
  printf stdout "open test\n" [];;
  fd ← open (lit "echo") 0;
  fail_if (fd <? 0) "open echo failed!\n";;
  close fd;;
  fd ← open (lit "doesnotexist") 0;
  fail_if (fd >=? 0) "open doesnotexist succeeded!\n";;
  printf stdout "open test ok\n" [].

Definition writetest : prog unit :=
  printf stdout "small file test\n" [];;
  fd ← open (lit "small") (Z.lor O_CREATE O_RDWR);
  (if fd >=? 0 then printf stdout "creat small succeeded; ok\n" []
   else printf stdout "error: creat small failed!\n" [];; exit);;
  for_to 0 100 (fun i =>
    r ← write fd (lit "aaaaaaaaaa");
    when_ (negb (r =? 10)) (printf stdout "error: write aa %d new file failed\n" [Int i];; exit);;
    r ← write fd (lit "bbbbbbbbbb");
    when_ (negb (r =? 10)) (printf stdout "error: write bb %d new file failed\n" [Int i];; exit));;
  printf stdout "writes ok\n" [];;
  close fd;;
  fd ← open (lit "small") O_RDONLY;
  (if fd >=? 0 then printf stdout "open small succeeded ok\n" []
   else printf stdout "error: open small failed!\n" [];; exit);;
  '(i, _) ← read fd 2000;
  (if i =? 2000 then printf stdout "read succeeded ok\n" []
   else printf stdout "read failed\n" [];; exit);;
  close fd;;
  r ← unlink (lit "small");
  fail_if (r <? 0) "unlink small failed\n";;
  printf stdout "small file test ok\n" [].

(** [buf] with the integer [i] at its start. *)
Definition set_int (buf : list Z) (i : Z) : list Z := put32 buf 0 i.

Definition writetest1 (buf : list Z) : prog unit :=
  printf stdout "big files test\n" [];;
  fd ← open (lit "big") (Z.lor O_CREATE O_RDWR);
  fail_if (fd <? 0) "error: creat big failed!\n";;
  for_to 0 MAXFILE (fun i =>
    r ← write fd (take 512 (set_int buf i));
    when_ (negb (r =? 512)) (printf stdout "error: write big file failed\n" [Int i];; exit));;
  close fd;;
  fd ← open (lit "big") O_RDONLY;
  fail_if (fd <? 0) "error: open big failed!\n";;
  iter (S (Z.to_nat MAXFILE)) (fun n =>
    '(i, bs) ← read fd 512;
    if i =? 0 then
      when_ (n =? MAXFILE - 1) (printf stdout "read only %d blocks from big" [Int n];; exit);;
      mret (inr tt)
    else
      when_ (negb (i =? 512)) (printf stdout "read failed %d\n" [Int i];; exit);;
      when_ (negb (s32 (get32 bs 0) =? n))
        (printf stdout "read content of block %d is %d\n" [Int n; Int (s32 (get32 bs 0))];; exit);;
      mret (inl (n + 1))) 0;;
  close fd;;
  r ← unlink (lit "big");
  fail_if (r <? 0) "unlink big failed\n";;
  printf stdout "big files ok\n" [].

Definition createtest : prog unit :=
  printf stdout "many creates, followed by unlink test\n" [];;
  for_to 0 52 (fun i =>
    fd ← open [ch "a"; ch "0" + i] (Z.lor O_CREATE O_RDWR);
    close fd;;
    mret tt);;
  for_to 0 52 (fun i =>
    unlink [ch "a"; ch "0" + i];;
    mret tt);;
  printf stdout "many creates, followed by unlink; ok\n" [].

Definition dirtest : prog unit :=
  printf stdout "mkdir test\n" [];;
  r ← mkdir (lit "dir0");
  fail_if (r <? 0) "mkdir failed\n";;
  r ← chdir (lit "dir0");
  fail_if (r <? 0) "chdir dir0 failed\n";;
  r ← chdir (lit "..");
  fail_if (r <? 0) "chdir .. failed\n";;
  r ← unlink (lit "dir0");
  fail_if (r <? 0) "unlink dir0 failed\n";;
  printf stdout "mkdir test ok\n" [].

Definition echoargv : list (list Z) := [lit "echo"; lit "ALL"; lit "TESTS"; lit "PASSED"].

(** [exec] comes back only with an error. *)
Definition exectest : prog unit :=
  printf stdout "exec test\n" [];;
  exec (lit "echo") echoargv;;
  printf stdout "exec echo failed\n" [];;
  exit.

(** The bytes [seq], [seq + 1], ... as [char]s. *)
Definition counting (seq n : Z) : list Z := (fun i => u8 i) <$> seqZ seq n.

(** One round of the reader of [pipe1]: [seq], [total] and [cc]. *)
Definition pipe1_round (fd : Z) (st : Z * Z * Z) : prog (Z * Z * Z + option Z) :=
  let '(seq, total, cc) := st in
  '(n, bs) ← read fd cc;
  if n >? 0 then
    if bool_decide (bs = counting seq n) then
      mret (inl (seq + n, total + n, Z.min (cc * 2) sizeof_buf))
    else mret (inr None)
  else mret (inr (Some total)).

Definition pipe1 : prog unit :=
  r ← pipe;
  match r with
  | None => printf 1 "pipe() failed\n" [];; exit
  | Some (fds0, fds1) =>
      pid ← fork;
      if pid =? 0 then
        close fds0;;
        for_to 0 5 (fun n =>
          r ← write fds1 (counting (n * 1033) 1033);
          fail_if (negb (r =? 1033)) "pipe1 oops 1\n");;
        exit
      else if pid >? 0 then
        close fds1;;
        r ← iter 6000 (pipe1_round fds0) (0, 0, 1);
        match r with
        | None => printf 1 "pipe1 oops 2\n" []
        | Some total =>
            when_ (negb (total =? 5 * 1033)) (printf 1 "pipe1 oops 3 total %d\n" [Int total];; exit);;
            close fds0;;
            wait;;
            printf 1 "pipe1 ok\n" []
        end
      else printf 1 "fork() failed\n" [];; exit
  end.

(** A failing [pipe] leaves [pfds] uninitialised. *)
Definition preempt : prog unit :=
  printf 1 "preempt: " [];;
  pid1 ← fork;
  if pid1 =? 0 then Forever else
  pid2 ← fork;
  if pid2 =? 0 then Forever else
  r ← pipe;
  let '(pfds0, pfds1) := default (0, 0) r in
  pid3 ← fork;
  if pid3 =? 0 then
    close pfds0;;
    r ← write pfds1 (lit "x");
    when_ (negb (r =? 1)) (printf 1 "preempt write error" []);;
    close pfds1;;
    Forever
  else
  close pfds1;;
  '(n, _) ← read pfds0 sizeof_buf;
  if negb (n =? 1) then printf 1 "preempt read error" [] else
  close pfds0;;
  printf 1 "kill... " [];;
  kill pid1;;
  kill pid2;;
  kill pid3;;
  printf 1 "wait... " [];;
  wait;;
  wait;;
  wait;;
  printf 1 "preempt ok\n" [].

(** The loop from round [100 - n] on. *)
Fixpoint exitwait_from (n : nat) : prog unit :=
  match n with
  | O => printf 1 "exitwait ok\n" []
  | S n' =>
      pid ← fork;
      if pid <? 0 then printf 1 "fork failed\n" [] else
      if negb (pid =? 0) then
        w ← wait;
        if negb (w =? pid) then printf 1 "wait wrong pid\n" [] else exitwait_from n'
      else exit
  end.

Definition exitwait : prog unit := exitwait_from 100.

(** The writes of [sharedfd] up to the first that fails. *)
Fixpoint sharedfd_writes (n : nat) (fd : Z) (b : list Z) : prog unit :=
  match n with
  | O => mret tt
  | S n' =>
      r ← write fd b;
      if negb (r =? 10) then printf 1 "fstests: write sharedfd failed\n" [] else sharedfd_writes n' fd b
  end.

Definition count (c : Z) (bs : list Z) : Z := Z.of_nat (length (filter (fun b => b = c) bs)).

(** A read of fewer than 10 bytes leaves the rest of the buffer, whose
    characters are counted again. *)
Definition sharedfd : prog unit :=
  printf 1 "sharedfd test\n" [];;
  unlink (lit "sharedfd");;
  fd ← open (lit "sharedfd") (Z.lor O_CREATE O_RDWR);
  if fd <? 0 then printf 1 "fstests: cannot open sharedfd for writing" [] else
  pid ← fork;
  let b := replicate 10 (if pid =? 0 then ch "c" else ch "p") in
  sharedfd_writes 1000 fd b;;
  (if pid =? 0 then exit else wait);;
  close fd;;
  fd ← open (lit "sharedfd") 0;
  if fd <? 0 then printf 1 "fstests: cannot open sharedfd for reading\n" [] else
  r ← iter 3000 (fun '(buf, nc, np) =>
    '(n, bs) ← read fd 10;
    if n >? 0 then
      let buf := bs ++ drop (length bs) buf in
      mret (inl (buf, nc + count (ch "c") buf, np + count (ch "p") buf))
    else mret (inr (nc, np))) (b, 0, 0);
  close fd;;
  unlink (lit "sharedfd");;
  if (r.1 =? 10000) && (r.2 =? 10000) then printf 1 "sharedfd ok\n" []
  else printf 1 "sharedfd oops %d %d\n" [Int r.1; Int r.2];; exit.

Definition fnames (i : Z) : list Z := [ch "f"; ch "0" + i].

(** The reading of one file in [fourfiles]: the bytes read. *)
Definition fourfiles_read (fd i : Z) : prog Z :=
  iter 100 (fun total =>
    '(n, bs) ← read fd sizeof_buf;
    if n >? 0 then
      fail_if (negb (forallb (fun b => b =? ch "0" + i) bs)) "wrong char\n";;
      mret (inl (total + n))
    else mret (inr total)) 0.

Definition fourfiles : prog unit :=
  printf 1 "fourfiles test\n" [];;
  for_to 0 4 (fun pi =>
    unlink (fnames pi);;
    pid ← fork;
    fail_if (pid <? 0) "fork failed\n";;
    when_ (pid =? 0) (
      fd ← open (fnames pi) (Z.lor O_CREATE O_RDWR);
      fail_if (fd <? 0) "create failed\n";;
      for_to 0 12 (fun _ =>
        n ← write fd (replicate 500 (ch "0" + pi));
        when_ (negb (n =? 500)) (printf 1 "write failed %d\n" [Int n];; exit));;
      exit));;
  for_to 0 4 (fun _ => wait;; mret tt);;
  for_to 0 2 (fun i =>
    fd ← open (fnames i) 0;
    total ← fourfiles_read fd i;
    close fd;;
    when_ (negb (total =? 12 * 500)) (printf 1 "wrong length %d\n" [Int total];; exit);;
    unlink (fnames i);;
    mret tt);;
  printf 1 "fourfiles ok\n" [].

(** [name] of [createdelete]. *)
Definition pname (pi i : Z) : list Z := [ch "p" + pi; ch "0" + i].

Definition createdelete : prog unit :=
  let N := 20 in
  printf 1 "createdelete test\n" [];;
  for_to 0 4 (fun pi =>
    pid ← fork;
    fail_if (pid <? 0) "fork failed\n";;
    when_ (pid =? 0) (
      for_to 0 N (fun i =>
        fd ← open (pname pi i) (Z.lor O_CREATE O_RDWR);
        fail_if (fd <? 0) "create failed\n";;
        close fd;;
        when_ ((i >? 0) && (i mod 2 =? 0)) (
          r ← unlink (pname pi (i / 2));
          fail_if (r <? 0) "unlink failed\n"));;
      exit));;
  for_to 0 4 (fun _ => wait;; mret tt);;
  for_to 0 N (fun i =>
    for_to 0 4 (fun pi =>
      fd ← open (pname pi i) 0;
      (if ((i =? 0) || (i >=? N / 2)) && (fd <? 0) then
         printf 1 "oops createdelete %s didn't exist\n" [Str (pname pi i)];; exit
       else if (i >=? 1) && (i <? N / 2) && (fd >=? 0) then
         printf 1 "oops createdelete %s did exist\n" [Str (pname pi i)];; exit
       else mret tt);;
      when_ (fd >=? 0) (close fd;; mret tt)));;
  for_to 0 N (fun i =>
    for_to 0 4 (fun _ =>
      unlink (pname i i);;
      mret tt));;
  printf 1 "createdelete ok\n" [].

(** [buf] is what the test finds in the global buffer. *)
Definition unlinkread (buf : list Z) : prog unit :=
  printf 1 "unlinkread test\n" [];;
  fd ← open (lit "unlinkread") (Z.lor O_CREATE O_RDWR);
  fail_if (fd <? 0) "create unlinkread failed\n";;
  write fd (lit "hello");;
  close fd;;
  fd ← open (lit "unlinkread") O_RDWR;
  fail_if (fd <? 0) "open unlinkread failed\n";;
  r ← unlink (lit "unlinkread");
  fail_if (negb (r =? 0)) "unlink unlinkread failed\n";;
  fd1 ← open (lit "unlinkread") (Z.lor O_CREATE O_RDWR);
  write fd1 (lit "yyy");;
  close fd1;;
  '(n, bs) ← read fd sizeof_buf;
  fail_if (negb (n =? 5)) "unlinkread read failed";;
  let buf := bs ++ drop (length bs) buf in
  fail_if (negb (hd 0 buf =? ch "h")) "unlinkread wrong data\n";;
  r ← write fd (take 10 buf);
  fail_if (negb (r =? 10)) "unlinkread write failed\n";;
  close fd;;
  unlink (lit "unlinkread");;
  printf 1 "unlinkread ok\n" [].

Definition linktest : prog unit :=
  printf 1 "linktest\n" [];;
  unlink (lit "lf1");;
  unlink (lit "lf2");;
  fd ← open (lit "lf1") (Z.lor O_CREATE O_RDWR);
  fail_if (fd <? 0) "create lf1 failed\n";;
  r ← write fd (lit "hello");
  fail_if (negb (r =? 5)) "write lf1 failed\n";;
  close fd;;
  r ← link (lit "lf1") (lit "lf2");
  fail_if (r <? 0) "link lf1 lf2 failed\n";;
  unlink (lit "lf1");;
  r ← open (lit "lf1") 0;
  fail_if (r >=? 0) "unlinked lf1 but it is still there!\n";;
  fd ← open (lit "lf2") 0;
  fail_if (fd <? 0) "open lf2 failed\n";;
  '(n, _) ← read fd sizeof_buf;
  fail_if (negb (n =? 5)) "read lf2 failed\n";;
  close fd;;
  r ← link (lit "lf2") (lit "lf2");
  fail_if (r >=? 0) "link lf2 lf2 succeeded! oops\n";;
  unlink (lit "lf2");;
  r ← link (lit "lf2") (lit "lf1");
  fail_if (r >=? 0) "link non-existant succeeded! oops\n";;
  r ← link (lit ".") (lit "lf1");
  fail_if (r >=? 0) "link . lf1 succeeded! oops\n";;
  printf 1 "linktest ok\n" [].

(** [file] of [concreate]. *)
Definition cname (i : Z) : list Z := [ch "C"; ch "0" + i].

(** Characters as the signed [char] they are. *)
Definition s8 (b : Z) : Z := if b <? 128 then b else b - 256.

(** A [char] array as the string [printf] sees. *)
Fixpoint upto_nul (bs : list Z) : list Z :=
  match bs with
  | [] => []
  | b :: bs => if b =? 0 then [] else b :: upto_nul bs
  end.

(** One round of the reading of the directory in [concreate]: [de], [fa] and
    [n]. *)
Definition concreate_round (fd : Z) (st : list Z * list bool * Z) : prog (list Z * list bool * Z + Z) :=
  let '(de, fa, n) := st in
  '(r, bs) ← read fd 16;
  if r >? 0 then
    let de := bs ++ drop (length bs) de in
    if get16 de 0 =? 0 then mret (inl (de, fa, n)) else
    let name := drop 2 de in
    if (name !!! 0%nat =? ch "C") && (name !!! 2%nat =? 0) then
      let i := s8 (name !!! 1%nat) - ch "0" in
      when_ ((i <? 0) || (i >=? 40)) (printf 1 "concreate weird file %s\n" [Str (upto_nul name)];; exit);;
      when_ (fa !!! Z.to_nat i) (printf 1 "concreate duplicate file %s\n" [Str (upto_nul name)];; exit);;
      mret (inl (de, <[Z.to_nat i := true]> fa, n + 1))
    else mret (inl (de, fa, n))
  else mret (inr n).

Fixpoint times (n : nat) (p : prog unit) : prog unit :=
  match n with
  | O => mret tt
  | S n' => p;; times n' p
  end.

Definition concreate : prog unit :=
  printf 1 "concreate test\n" [];;
  for_to 0 40 (fun i =>
    unlink (cname i);;
    pid ← fork;
    (if negb (pid =? 0) && (i mod 3 =? 1) then link (lit "C0") (cname i);; mret tt
     else if (pid =? 0) && (i mod 5 =? 1) then link (lit "C0") (cname i);; mret tt
     else
       fd ← open (cname i) (Z.lor O_CREATE O_RDWR);
       when_ (fd <? 0) (printf 1 "concreate create %s failed\n" [Str (cname i)];; exit);;
       close fd;;
       mret tt);;
    (if pid =? 0 then exit else wait;; mret tt));;
  fd ← open (lit ".") 0;
  n ← iter 300 (concreate_round fd) (replicate 16 0, replicate 40 false, 0);
  close fd;;
  fail_if (negb (n =? 40)) "concreate not enough files in directory listing\n";;
  for_to 0 40 (fun i =>
    pid ← fork;
    fail_if (pid <? 0) "fork failed\n";;
    (if ((i mod 3 =? 0) && (pid =? 0)) || ((i mod 3 =? 1) && negb (pid =? 0)) then
       times 4 (fd ← open (cname i) 0; close fd;; mret tt)
     else
       times 4 (unlink (cname i);; mret tt));;
    (if pid =? 0 then exit else wait;; mret tt));;
  printf 1 "concreate ok\n" [].

(** The loop of [linkunlink], with the random number it keeps. *)
Fixpoint linkunlink_loop (n : nat) (x : Z) : prog unit :=
  match n with
  | O => mret tt
  | S n' =>
      let x := u32 (x * 1103515245 + 12345) in
      (if x mod 3 =? 0 then
         fd ← open (lit "x") (Z.lor O_RDWR O_CREATE);
         close fd
       else if x mod 3 =? 1 then link (lit "cat") (lit "x")
       else unlink (lit "x"));;
      linkunlink_loop n' x
  end.

Definition linkunlink : prog unit :=
  printf 1 "linkunlink test\n" [];;
  unlink (lit "x");;
  pid ← fork;
  fail_if (pid <? 0) "fork failed\n";;
  linkunlink_loop 100 (if pid =? 0 then 97 else 1);;
  (if negb (pid =? 0) then wait;; mret tt else exit);;
  printf 1 "linkunlink ok\n" [].

Definition xname (i : Z) : list Z := [ch "x"; ch "0" + i / 64; ch "0" + i mod 64].

Definition bigdir : prog unit :=
  printf 1 "bigdir test\n" [];;
  unlink (lit "bd");;
  fd ← open (lit "bd") O_CREATE;
  fail_if (fd <? 0) "bigdir create failed\n";;
  close fd;;
  for_to 0 500 (fun i =>
    r ← link (lit "bd") (xname i);
    fail_if (negb (r =? 0)) "bigdir link failed\n");;
  unlink (lit "bd");;
  for_to 0 500 (fun i =>
    r ← unlink (xname i);
    fail_if (negb (r =? 0)) "bigdir unlink failed");;
  printf 1 "bigdir ok\n" [].

Definition subdir : prog unit :=
  printf 1 "subdir test\n" [];;
  unlink (lit "ff");;
  r ← mkdir (lit "dd");
  fail_if (negb (r =? 0)) "subdir mkdir dd failed\n";;
  fd ← open (lit "dd/ff") (Z.lor O_CREATE O_RDWR);
  fail_if (fd <? 0) "create dd/ff failed\n";;
  write fd (lit "ff");;
  close fd;;
  r ← unlink (lit "dd");
  fail_if (r >=? 0) "unlink dd (non-empty dir) succeeded!\n";;
  r ← mkdir (lit "/dd/dd");
  fail_if (negb (r =? 0)) "subdir mkdir dd/dd failed\n";;
  fd ← open (lit "dd/dd/ff") (Z.lor O_CREATE O_RDWR);
  fail_if (fd <? 0) "create dd/dd/ff failed\n";;
  write fd (lit "FF");;
  close fd;;
  fd ← open (lit "dd/dd/../ff") 0;
  fail_if (fd <? 0) "open dd/dd/../ff failed\n";;
  '(cc, bs) ← read fd sizeof_buf;
  fail_if (negb (cc =? 2) || negb (hd 0 bs =? ch "f")) "dd/dd/../ff wrong content\n";;
  close fd;;
  r ← link (lit "dd/dd/ff") (lit "dd/dd/ffff");
  fail_if (negb (r =? 0)) "link dd/dd/ff dd/dd/ffff failed\n";;
  r ← unlink (lit "dd/dd/ff");
  fail_if (negb (r =? 0)) "unlink dd/dd/ff failed\n";;
  r ← open (lit "dd/dd/ff") O_RDONLY;
  fail_if (r >=? 0) "open (unlinked) dd/dd/ff succeeded\n";;
  r ← chdir (lit "dd");
  fail_if (negb (r =? 0)) "chdir dd failed\n";;
  r ← chdir (lit "dd/../../dd");
  fail_if (negb (r =? 0)) "chdir dd/../../dd failed\n";;
  r ← chdir (lit "dd/../../../dd");
  fail_if (negb (r =? 0)) "chdir dd/../../dd failed\n";;
  r ← chdir (lit "./..");
  fail_if (negb (r =? 0)) "chdir ./.. failed\n";;
  fd ← open (lit "dd/dd/ffff") 0;
  fail_if (fd <? 0) "open dd/dd/ffff failed\n";;
  '(cc, _) ← read fd sizeof_buf;
  fail_if (negb (cc =? 2)) "read dd/dd/ffff wrong len\n";;
  close fd;;
  r ← open (lit "dd/dd/ff") O_RDONLY;
  fail_if (r >=? 0) "open (unlinked) dd/dd/ff succeeded!\n";;
  r ← open (lit "dd/ff/ff") (Z.lor O_CREATE O_RDWR);
  fail_if (r >=? 0) "create dd/ff/ff succeeded!\n";;
  r ← open (lit "dd/xx/ff") (Z.lor O_CREATE O_RDWR);
  fail_if (r >=? 0) "create dd/xx/ff succeeded!\n";;
  r ← open (lit "dd") O_CREATE;
  fail_if (r >=? 0) "create dd succeeded!\n";;
  r ← open (lit "dd") O_RDWR;
  fail_if (r >=? 0) "open dd rdwr succeeded!\n";;
  r ← open (lit "dd") O_WRONLY;
  fail_if (r >=? 0) "open dd wronly succeeded!\n";;
  r ← link (lit "dd/ff/ff") (lit "dd/dd/xx");
  fail_if (r =? 0) "link dd/ff/ff dd/dd/xx succeeded!\n";;
  r ← link (lit "dd/xx/ff") (lit "dd/dd/xx");
  fail_if (r =? 0) "link dd/xx/ff dd/dd/xx succeeded!\n";;
  r ← link (lit "dd/ff") (lit "dd/dd/ffff");
  fail_if (r =? 0) "link dd/ff dd/dd/ffff succeeded!\n";;
  r ← mkdir (lit "dd/ff/ff");
  fail_if (r =? 0) "mkdir dd/ff/ff succeeded!\n";;
  r ← mkdir (lit "dd/xx/ff");
  fail_if (r =? 0) "mkdir dd/xx/ff succeeded!\n";;
  r ← mkdir (lit "dd/dd/ffff");
  fail_if (r =? 0) "mkdir dd/dd/ffff succeeded!\n";;
  r ← unlink (lit "dd/xx/ff");
  fail_if (r =? 0) "unlink dd/xx/ff succeeded!\n";;
  r ← unlink (lit "dd/ff/ff");
  fail_if (r =? 0) "unlink dd/ff/ff succeeded!\n";;
  r ← chdir (lit "dd/ff");
  fail_if (r =? 0) "chdir dd/ff succeeded!\n";;
  r ← chdir (lit "dd/xx");
  fail_if (r =? 0) "chdir dd/xx succeeded!\n";;
  r ← unlink (lit "dd/dd/ffff");
  fail_if (negb (r =? 0)) "unlink dd/dd/ff failed\n";;
  r ← unlink (lit "dd/ff");
  fail_if (negb (r =? 0)) "unlink dd/ff failed\n";;
  r ← unlink (lit "dd");
  fail_if (r =? 0) "unlink non-empty dd succeeded!\n";;
  r ← unlink (lit "dd/dd");
  fail_if (r <? 0) "unlink dd/dd failed\n";;
  r ← unlink (lit "dd");
  fail_if (r <? 0) "unlink dd failed\n";;
  printf 1 "subdir ok\n" [].

(** Twelve sizes, from 499 on by 471. *)
Definition bigwrite (buf : list Z) : prog unit :=
  printf 1 "bigwrite test\n" [];;
  unlink (lit "bigwrite");;
  for_to 0 12 (fun k =>
    let sz := 499 + 471 * k in
    fd ← open (lit "bigwrite") (Z.lor O_CREATE O_RDWR);
    fail_if (fd <? 0) "cannot create bigwrite\n";;
    for_to 0 2 (fun _ =>
      cc ← write fd (take (Z.to_nat sz) buf);
      when_ (negb (cc =? sz)) (printf 1 "write(%d) ret %d\n" [Int sz; Int cc];; exit));;
    close fd;;
    unlink (lit "bigwrite");;
    mret tt);;
  printf 1 "bigwrite ok\n" [].

Definition bigfile : prog unit :=
  printf 1 "bigfile test\n" [];;
  unlink (lit "bigfile");;
  fd ← open (lit "bigfile") (Z.lor O_CREATE O_RDWR);
  fail_if (fd <? 0) "cannot create bigfile";;
  for_to 0 20 (fun i =>
    r ← write fd (replicate 600 i);
    fail_if (negb (r =? 600)) "write bigfile failed\n");;
  close fd;;
  fd ← open (lit "bigfile") 0;
  fail_if (fd <? 0) "cannot open bigfile\n";;
  total ← iter 100 (fun '(i, total) =>
    '(cc, buf) ← read fd 300;
    fail_if (cc <? 0) "read bigfile failed\n";;
    if cc =? 0 then mret (inr total) else
    fail_if (negb (cc =? 300)) "short read bigfile\n";;
    fail_if (negb (hd 0 buf =? i / 2) || negb (buf !!! 299%nat =? i / 2)) "read bigfile wrong data\n";;
    mret (inl (i + 1, total + cc))) (0, 0);
  close fd;;
  fail_if (negb (total =? 20 * 600)) "read bigfile wrong total\n";;
  unlink (lit "bigfile");;
  printf 1 "bigfile test ok\n" [].

Definition fourteen : prog unit :=
  printf 1 "fourteen test\n" [];;
  r ← mkdir (lit "12345678901234");
  fail_if (negb (r =? 0)) "mkdir 12345678901234 failed\n";;
  r ← mkdir (lit "12345678901234/123456789012345");
  fail_if (negb (r =? 0)) "mkdir 12345678901234/123456789012345 failed\n";;
  fd ← open (lit "123456789012345/123456789012345/123456789012345") O_CREATE;
  fail_if (fd <? 0) "create 123456789012345/123456789012345/123456789012345 failed\n";;
  close fd;;
  fd ← open (lit "12345678901234/12345678901234/12345678901234") 0;
  fail_if (fd <? 0) "open 12345678901234/12345678901234/12345678901234 failed\n";;
  close fd;;
  r ← mkdir (lit "12345678901234/12345678901234");
  fail_if (r =? 0) "mkdir 12345678901234/12345678901234 succeeded!\n";;
  r ← mkdir (lit "123456789012345/12345678901234");
  fail_if (r =? 0) "mkdir 12345678901234/123456789012345 succeeded!\n";;
  printf 1 "fourteen ok\n" [].

Definition rmdot : prog unit :=
  printf 1 "rmdot test\n" [];;
  r ← mkdir (lit "dots");
  fail_if (negb (r =? 0)) "mkdir dots failed\n";;
  r ← chdir (lit "dots");
  fail_if (negb (r =? 0)) "chdir dots failed\n";;
  r ← unlink (lit ".");
  fail_if (r =? 0) "rm . worked!\n";;
  r ← unlink (lit "..");
  fail_if (r =? 0) "rm .. worked!\n";;
  r ← chdir (lit "/");
  fail_if (negb (r =? 0)) "chdir / failed\n";;
  r ← unlink (lit "dots/.");
  fail_if (r =? 0) "unlink dots/. worked!\n";;
  r ← unlink (lit "dots/..");
  fail_if (r =? 0) "unlink dots/.. worked!\n";;
  r ← unlink (lit "dots");
  fail_if (negb (r =? 0)) "unlink dots failed!\n";;
  printf 1 "rmdot ok\n" [].

Definition dirfile : prog unit :=
  printf 1 "dir vs file\n" [];;
  fd ← open (lit "dirfile") O_CREATE;
  fail_if (fd <? 0) "create dirfile failed\n";;
  close fd;;
  r ← chdir (lit "dirfile");
  fail_if (r =? 0) "chdir dirfile succeeded!\n";;
  fd ← open (lit "dirfile/xx") 0;
  fail_if (fd >=? 0) "create dirfile/xx succeeded!\n";;
  fd ← open (lit "dirfile/xx") O_CREATE;
  fail_if (fd >=? 0) "create dirfile/xx succeeded!\n";;
  r ← mkdir (lit "dirfile/xx");
  fail_if (r =? 0) "mkdir dirfile/xx succeeded!\n";;
  r ← unlink (lit "dirfile/xx");
  fail_if (r =? 0) "unlink dirfile/xx succeeded!\n";;
  r ← link (lit "README") (lit "dirfile/xx");
  fail_if (r =? 0) "link to dirfile/xx succeeded!\n";;
  r ← unlink (lit "dirfile");
  fail_if (negb (r =? 0)) "unlink dirfile failed!\n";;
  fd ← open (lit ".") O_RDWR;
  fail_if (fd >=? 0) "open . for writing succeeded!\n";;
  fd ← open (lit ".") 0;
  r ← write fd (lit "x");
  fail_if (r >? 0) "write . succeeded!\n";;
  close fd;;
  printf 1 "dir vs file OK\n" [].

Definition iref : prog unit :=
  printf 1 "empty file name\n" [];;
  for_to 0 (50 + 1) (fun _ =>
    r ← mkdir (lit "irefd");
    fail_if (negb (r =? 0)) "mkdir irefd failed\n";;
    r ← chdir (lit "irefd");
    fail_if (negb (r =? 0)) "chdir irefd failed\n";;
    mkdir [];;
    link (lit "README") [];;
    fd ← open [] O_CREATE;
    when_ (fd >=? 0) (close fd;; mret tt);;
    fd ← open (lit "xx") O_CREATE;
    when_ (fd >=? 0) (close fd;; mret tt);;
    unlink (lit "xx");;
    mret tt);;
  chdir (lit "/");;
  printf 1 "empty file name OK\n" [].

(** The loops of [forktest]: children until [fork] fails, at most [n]; then one
    [wait] for each. *)
Fixpoint fork_children (n : nat) (k : nat) : prog nat :=
  match n with
  | O => mret k
  | S n' =>
      pid ← fork;
      if pid <? 0 then mret k else
      if pid =? 0 then exit else fork_children n' (S k)
  end.

Fixpoint reap_children (k : nat) : prog unit :=
  match k with
  | O => mret tt
  | S k' =>
      w ← wait;
      fail_if (w <? 0) "wait stopped early\n";;
      reap_children k'
  end.

Definition forktest : prog unit :=
  printf 1 "fork test\n" [];;
  n ← fork_children 1000 0;
  fail_if (bool_decide (n = 1000%nat)) "fork claimed to work 1000 times!\n";;
  reap_children n;;
  w ← wait;
  fail_if (negb (w =? -1)) "wait got too many\n";;
  printf 1 "fork test OK\n" [].

(** [name] of [fsfull]. *)
Definition ffname (n : Z) : list Z :=
  [ch "f"; ch "0" + n / 1000; ch "0" + n mod 1000 / 100; ch "0" + n mod 100 / 10; ch "0" + n mod 10].

(** Writes of 512 bytes until one is short. *)
Definition fsfull_writes (fuel : nat) (fd : Z) (buf : list Z) : prog Z :=
  iter fuel (fun total =>
    cc ← write fd (take 512 buf);
    if cc <? 512 then mret (inr total) else mret (inl (total + cc))) 0.

Definition fsfull (fuel : nat) (buf : list Z) : prog unit :=
  printf 1 "fsfull test\n" [];;
  nfiles ← iter fuel (fun nfiles =>
    printf 1 "writing %s\n" [Str (ffname nfiles)];;
    fd ← open (ffname nfiles) (Z.lor O_CREATE O_RDWR);
    if fd <? 0 then printf 1 "open %s failed\n" [Str (ffname nfiles)];; mret (inr nfiles) else
    total ← fsfull_writes fuel fd buf;
    printf 1 "wrote %d bytes\n" [Int total];;
    close fd;;
    if total =? 0 then mret (inr nfiles) else mret (inl (nfiles + 1))) 0;
  for_to 0 (nfiles + 1) (fun k =>
    unlink (ffname (nfiles - k));;
    mret tt);;
  printf 1 "fsfull test finished\n" [].

Definition rand (randstate : Z) : Z := u32 (randstate * 1664525 + 1013904223).
