(* ===== verification/Userland.v ===== *)
(** * The kernel that runs user programs

    [world] is a kernel with the program of every process.  A round of the
    machine lets [scheduler] choose a process, which then runs until it sleeps,
    leaves or is interrupted by the timer; the timer interrupts a process
    after a number of system calls.  The calls are those of sysproc.c and
    sysfile.c on the state of the kernel.

    The memory of a process is not part of this state: what a program keeps in
    it are the values in its tree, which [fork] copies, so [fork_process] and
    [wait_process] are [fork] and [wait] of proc.c without page tables and
    kernel stacks.  [exec] finds the file in the file system and the program it
    holds in a table. *)

From stdpp Require Import base numbers list gmap sets strings.
From Stdlib Require Import ZArith Lia.
From S2P Require Import Prelude CStrings Frames Disk Blocks Log Journal Fs Prog Ptable Pipe File Proc Syscall Sysfile Exec Trap.

Open Scope Z_scope.

(** Answered, or asleep in a call. *)
Inductive answer (c : call) := Answered (r : reply c) | Asleep (c' : call) (k : reply c' -> reply c).
Arguments Answered {c} r.
Arguments Asleep {c} c' k.

Section machine.
Context {K J : Type} `{!Frames K, !Journal J, !Transactions J}.
Context (dv : devops (J := J)) (pipe_name : Z).
Context (programs : list Z -> option (list (list Z) -> task)).

Notation kern := (kernel (K := K) (J := J)).

(** ** fork and wait without memory *)

Definition alloc_process : M kern (option nat) :=
  oi ← pt alloc_slot;
  match oi with
  | None => mret None
  | Some i => pt (alloc_fields i 0 0);; mret (Some i)
  end.

(** The slot and the pid of the child. *)
Definition fork_process (me : nat) : M kern (option (nat * Z)) :=
  onp ← alloc_process;
  match onp with
  | None => mret None
  | Some np =>
      p ← myproc me;
      pt (modp np (set_sz (p_sz p)));;
      pt (modp np (set_parent (Some me)));;
      q ← myproc np;
      for_ 0 (Z.of_nat NOFILE) (dup_file me np);;
      match p_cwd p with
      | None => undef "fork: no current directory"
      | Some d =>
          d' ← infs (idup d);
          pt (modp np (set_cwd (Some d')))
      end;;
      pt (modp np (fun q => set_name (copy_name (p_name q) (p_name p)) q));;
      pt (modp np (set_state RUNNABLE));;
      mret (Some (np, p_pid q))
  end.

Definition wait_process (c me : nat) : M kern Z :=
  sc ← pt (reads (fun t => wait_scan me (procs t) 0 false));
  match sc with
  | Zombie i =>
      p ← myproc i;
      pt (modp i clear_slot);;
      mret (p_pid p)
  | NoZombie havekids =>
      p ← myproc me;
      if negb havekids || negb (p_killed p =? 0) then mret (-1)
      else
        pt (sleep c me (ChanProc me));;
        sleep_on (ChanProc me)
  end.

Definition wait_stat_process (c me : nat) : M kern wstat :=
  sc ← pt (reads (fun t => wait_scan me (procs t) 0 false));
  match sc with
  | Zombie i =>
      p ← myproc i;
      pt (modp i clear_slot_stat);;
      mret (MkWstat (s32 (p_retime p)) (s32 (p_rutime p)) (s32 (p_stime p)) (p_pid p) (p_pid p))
  | NoZombie havekids =>
      p ← myproc me;
      if negb havekids || negb (p_killed p =? 0) then mret (MkWstat 0 0 0 (-1) (-1))
      else
        pt (sleep c me (ChanProc me));;
        sleep_on (ChanProc me)
  end.

(** ** System calls *)

(** A call that starts over when it is woken. *)
Definition again {c c' : call} (k : reply c' -> reply c) (m : M kern (reply c')) : M kern (answer c) := fun s =>
  match m s with
  | Ok r s' => Ok (Answered (k r)) s'
  | Sleep _ s' => Ok (Asleep c' k) s'
  | Panic msg => Panic msg
  | Undef why => Undef why
  | Diverge => Diverge
  end.

Definition with_fd {A} (me : nat) (fd : Z) (bad : A) (f : nat * nat -> M kern A) : M kern A :=
  ff ← fd_file me fd;
  match ff with
  | None => mret bad
  | Some ff => f ff
  end.

(** [pipewrite] that goes on, when it is woken, with the bytes still to write. *)
Definition write_pipe (c me : nat) (p n : Z) (rest : list Z) : M kern (Z + list Z) :=
  w ← incore (pipewrite_from c me p n rest);
  mret (match w with WDone r => inl r | WSleep rest => inr rest end).

Definition write_file (c me : nat) (fd : Z) (bs : list Z) : M kern (Z + Z * list Z) :=
  with_fd me fd (inl (-1)) (fun ff =>
    x ← getf ff.2;
    if f_writable x && bool_decide (f_type x = FD_PIPE) then
      w ← write_pipe c me (f_pipe x) (Z.of_nat (length bs)) bs;
      mret (match w with inl r => inl r | inr rest => inr (f_pipe x, rest) end)
    else
      r ← filewrite dv c me ff.2 bs (Z.of_nat (length bs));
      mret (inl r)).

(** The call [x] of process [me] on CPU [c]. *)
Definition handle (c me : nat) (x : call) : M kern (answer x) :=
  match x return M kern (answer x) with
  | Wait => again (c := Wait) (c' := Wait) id (wait_process c me)
  | WaitStat => again (c := WaitStat) (c' := WaitStat) id (wait_stat_process c me)
  | Kill pid => r ← pt (kill pid); mret (Answered (c := Kill pid) r)
  | Getpid => r ← sys_getpid me; mret (Answered (c := Getpid) r)
  | Uptime => r ← sys_uptime; mret (Answered (c := Uptime) r)
  | Pause n =>
      t0 ← pt (reads ticks);
      again (c := Pause n) (c' := PauseFrom t0 n) id (sleep_until c me t0 n)
  | PauseFrom t0 n => again (c := PauseFrom t0 n) (c' := PauseFrom t0 n) id (sleep_until c me t0 n)
  | Open path mode => r ← open_call dv me path mode; mret (Answered (c := Open path mode) r)
  | Close fd => r ← with_fd me fd (-1) (close_file_fd me); mret (Answered (c := Close fd) r)
  | Read fd n =>
      again (c := Read fd n) (c' := Read fd n) id (with_fd me fd (-1, []) (fun ff => fileread dv c me ff.2 n))
  | Write fd bs =>
      w ← write_file c me fd bs;
      mret (match w with
            | inl r => Answered (c := Write fd bs) r
            | inr (p, rest) => Asleep (c := Write fd bs) (PipeWrite p (Z.of_nat (length bs)) rest) id
            end)
  | PipeWrite p n rest =>
      w ← write_pipe c me p n rest;
      mret (match w with
            | inl r => Answered (c := PipeWrite p n rest) r
            | inr rest' => Asleep (c := PipeWrite p n rest) (PipeWrite p n rest') id
            end)
  | Dup fd => r ← with_fd me fd (-1) (dup_file_fd me); mret (Answered (c := Dup fd) r)
  | Pipe =>
      fds ← pipe_fds me pipe_name;
      mret (Answered (c := Pipe) ((fun fds => (Z.of_nat fds.1, Z.of_nat fds.2)) <$> fds))
  | Fstat fd => r ← with_fd me fd None (fun ff => filestat ff.2); mret (Answered (c := Fstat fd) r)
  | Link old new => r ← link_call dv me old new; mret (Answered (c := Link old new) r)
  | Unlink path => r ← unlink_call dv me path; mret (Answered (c := Unlink path) r)
  | Mkdir path =>
      kbegin_op;;
      oip ← create dv me path T_DIR 0 0;
      r ← made oip;
      mret (Answered (c := Mkdir path) r)
  | Mknod path major minor =>
      kbegin_op;;
      oip ← create dv me path T_DEV (s16 major) (s16 minor);
      r ← made oip;
      mret (Answered (c := Mknod path major minor) r)
  | Chdir path =>
      kbegin_op;;
      r ← chdir_call dv me path;
      mret (Answered (c := Chdir path) r)
  end.

(** [exec]: the program of the file, if there is one. *)
Definition find_program (me : nat) (path : list Z) : M kern (option (list (list Z) -> task)) :=
  kbegin_op;;
  oip ← knamei dv me path;
  match oip with
  | None => kend_op;; mret None
  | Some ip =>
      lock_inode ip;;
      unlockput ip;;
      kend_op;;
      mret (programs path)
  end.

(** ** The machine *)

(** The program of every process, with [true] for one that is asleep in the
    call it makes first. *)
Record world := MkWorld { w_kern : kern; w_tasks : gmap nat (bool * task) }.

Definition kernel_op {A} (m : M kern A) : M world A := lift w_kern (fun k w => MkWorld k (w_tasks w)) m.
Definition put_task (i : nat) (inside : bool) (p : task) : M world unit :=
  modify (fun w => MkWorld (w_kern w) (<[i := (inside, p)]> (w_tasks w))).
Definition drop_task (i : nat) : M world unit := modify (fun w => MkWorld (w_kern w) (delete i (w_tasks w))).

(** The timer interrupt while a process runs. *)
Definition interrupted (c me : nat) (p : task) : M world unit :=
  kernel_op (when (c =? 0)%nat (pt timer_tick;; pt (wakeup ChanTicks)));;
  gone ← kernel_op (exit_if_killed c me true);
  if (gone : bool) then drop_task me
  else kernel_op (pt (yield c me));; put_task me false p.

(** The process leaves if it is killed. *)
Definition unless_killed (c me : nat) (k : M world unit) : M world unit :=
  gone ← kernel_op (exit_if_killed c me true);
  if (gone : bool) then drop_task me else k.

(** Process [me] with program [p] on CPU [c], to be interrupted after [n]
    calls.  A process that is woken inside a call does not enter it again. *)
Fixpoint burst (n : nat) (c me : nat) (inside : bool) (p : task) : M world unit :=
  match n with
  | O => interrupted c me p
  | S n' =>
      match p with
      | Ret e => match e : Empty_set with end
      | Forever => interrupted c me Forever
      | Busy m k => match m with O => burst n' c me false k | S m' => interrupted c me (Busy m' k) end
      | Exit => kernel_op (Proc.exit c me);; drop_task me
      | Fork k =>
          unless_killed c me (
          r ← kernel_op (fork_process me);
          match r with
          | Some (np, pid) =>
              put_task np false (k 0);;
              unless_killed c me (burst n' c me false (k pid))
          | None => unless_killed c me (burst n' c me false (k (-1)))
          end)
      | Exec path argv k =>
          unless_killed c me (
          f ← kernel_op (find_program me path);
          unless_killed c me (burst n' c me false (match f with Some f => f argv | None => k end)))
      | Sys x k =>
          (if inside then id else unless_killed c me) (
          a ← kernel_op (handle c me x);
          match a with
          | Answered r => unless_killed c me (burst n' c me false (k r))
          | Asleep x' g => put_task me true (Sys x' (fun r => k (g r)))
          end)
      end
  end.

(** One round: the next process, or the timer if there is none to run. *)
Definition round (n c : nat) : M world unit :=
  oi ← kernel_op (pt (scheduler c));
  match oi with
  | Some me =>
      w ← get (S := world);
      match w_tasks w !! me with
      | Some (inside, p) => burst n c me inside p
      | None => undef "no program"
      end
  | None => kernel_op (when (c =? 0)%nat (pt timer_tick;; pt (wakeup ChanTicks)))
  end.

(** Rounds on CPU 0 until [stop]; the list gives the length of the time slices. *)
Fixpoint run (slices : list nat) (stop : world -> bool) : M world unit :=
  w ← get (S := world);
  if stop w then mret tt else
  match slices with
  | [] => diverge
  | n :: slices => round n 0;; run slices stop
  end.

End machine.
