(* ===== verification/UserlandSpec.v ===== *)
(** * Processes without their memory

    [Userland] runs processes whose memory is not part of the kernel's state.
    Here its [fork] and [wait] are those of proc.c with the memory left out: a
    call that proc.c makes with success, on any state that is the same but for
    memory, has the same result and leads to the same state but for memory. *)

From stdpp Require Import base numbers list gmap sets strings.
From Stdlib Require Import ZArith Lia.
From S2P Require Import Prelude CStrings Frames Disk Blocks Log Journal Fs Prog Ptable Pipe File Proc Userland.

Open Scope Z_scope.

(** A process without the addresses of its memory. *)
Definition strip (p : proc) : proc := set_own (p_sz p) 0 0 0 (p_ofile p) (p_cwd p) (p_name p) p.

Definition strip_table (t : ptable) : ptable := set_procs (strip <$> procs t) t.

Lemma strip_fields p q : strip q = strip p ->
  p_sz q = p_sz p /\ p_pid q = p_pid p /\ p_ofile q = p_ofile p /\ p_cwd q = p_cwd p /\ p_name q = p_name p /\
  p_killed q = p_killed p /\ p_state q = p_state p.
Proof. destruct p, q. cbv [strip set_own]. cbn. intros [=]. subst. done. Qed.

(** The table: where [m] succeeds so does [m'], with related results and states. *)
Definition tsims {A B} (R : A -> B -> Prop) (m : M ptable A) (m' : M ptable B) : Prop :=
  forall x y, strip_table y = strip_table x ->
    match m x with Ok a x1 => exists b y1, m' y = Ok b y1 /\ R a b /\ strip_table y1 = strip_table x1 | _ => True end.

Lemma tsims_ret {A B} (R : A -> B -> Prop) a b : R a b -> tsims R (mret a) (mret b).
Proof. intros H x y E. by exists b, y. Qed.

Lemma tsims_bind {A B A' B'} (R : A -> B -> Prop) (Q : A' -> B' -> Prop) m m' k k' :
  tsims R m m' -> (forall a b, R a b -> tsims Q (k a) (k' b)) -> tsims Q (m ≫= k) (m' ≫= k').
Proof.
  intros Hm Hk x y E. specialize (Hm x y E). unfold mbind, M_bind. destruct (m x) as [a x1| | | |]; try done.
  destruct Hm as (b & y1 & -> & HR & E1). exact (Hk a b HR x1 y1 E1).
Qed.

Lemma tsims_get {A B} (Q : A -> B -> Prop) k k' :
  (forall x y, strip_table y = strip_table x -> tsims Q (k x) (k' y)) -> tsims Q (get ≫= k) (get ≫= k').
Proof. intros H x y E. exact (H x y E x y E). Qed.

Lemma strip_slot x y i : strip_table y = strip_table x -> strip (slot y i) = strip (slot x i).
Proof.
  intros E. apply (f_equal procs) in E. cbn in E. unfold slot.
  assert (X : forall l : list proc, (strip <$> l) !!! i = strip (l !!! i)).
  { intros l. rewrite !list_lookup_total_alt, list_lookup_fmap. by destruct (l !! i). }
  by rewrite <- !X, E.
Qed.

Lemma tsims_getp i : tsims (fun p q => strip q = strip p) (getp i) (getp i).
Proof. intros x y E. cbn. eexists _, _. split; [done|]. split; [by apply strip_slot|done]. Qed.

Lemma tsims_modp i f g : (forall p q, strip q = strip p -> strip (g q) = strip (f p)) -> tsims eq (modp i f) (modp i g).
Proof.
  intros H x y E. cbn. eexists _, _. split; [done|]. split; [done|].
  pose proof (H _ _ (strip_slot x y i E)) as Es. unfold strip_table in *. destruct x, y. cbn in *.
  injection E as E1 E2 E3 E4 E5. rewrite !list_fmap_insert, Es. by subst; rewrite E1.
Qed.

Lemma tsims_nextpid n : tsims eq (modify (set_nextpid n)) (modify (set_nextpid n)).
Proof.
  intros x y E. cbn. eexists _, _. split; [done|]. split; [done|]. unfold strip_table in *. destruct x, y. cbn in *.
  injection E as E1 E2 E3 E4 E5. by subst; rewrite E1.
Qed.

Lemma tsims_ticks : tsims eq (reads ticks) (reads ticks).
Proof. intros x y E. cbn. eexists _, _. split; [done|]. split; [|done]. symmetry. exact (f_equal ticks E). Qed.

(** Stores of fields that are not the memory of the process. *)
Ltac strip_field := intros [] []; cbv [strip set_own]; cbn; intros [=]; subst; done.

Lemma find_unused_strip ps i : find_unused (strip <$> ps) i = find_unused ps i.
Proof. revert i. induction ps as [|p ps IH]; intros i; [done|]. cbn. destruct (decide _); [done|apply IH]. Qed.

Lemma tsims_alloc_slot : tsims eq alloc_slot alloc_slot.
Proof.
  apply tsims_get. intros x y E.
  assert (E1 : strip <$> procs y = strip <$> procs x) by exact (f_equal procs E).
  assert (E2 : nextpid y = nextpid x) by exact (f_equal nextpid E).
  rewrite <- (find_unused_strip (procs y)), E1, find_unused_strip, E2.
  destruct (find_unused (procs x) 0) as [i|]; [|by apply tsims_ret].
  eapply tsims_bind; [apply tsims_modp; strip_field|]. intros _ _ _. cbv zeta. destruct (nextpid x =? 2 ^ 31 - 1); [by intros ? ?|].
  eapply tsims_bind; [apply tsims_modp; strip_field|]. intros _ _ _.
  eapply tsims_bind; [apply tsims_nextpid|]. intros _ _ _. by apply tsims_ret.
Qed.

Lemma tsims_alloc_fields i k tf : tsims eq (alloc_fields i k tf) (alloc_fields i 0 0).
Proof.
  unfold alloc_fields. do 2 (eapply tsims_bind; [apply tsims_modp; strip_field|intros _ _ _]).
  eapply tsims_bind; [apply tsims_ticks|]. intros t _ <-. apply tsims_modp. strip_field.
Qed.

Section like.
Context {K J : Type} `{!Frames K, !Journal J, !Transactions J}.

Notation kern := (kernel (K := K) (J := J)).

(** The same but for memory. *)
Record like (s s' : kern) : Prop := {
  lk_fs : kn_fs s' = kn_fs s;
  lk_files : kn_files s' = kn_files s;
  lk_table : strip_table (co_pt (kn_core s')) = strip_table (co_pt (kn_core s))
}.

(** Where [m] succeeds, unless with a result that [P] excepts, so does [m'], with
    related results and states. *)
Definition sims {A B} (P : A -> Prop) (R : A -> B -> Prop) (m : M kern A) (m' : M kern B) : Prop :=
  forall s t, like s t ->
    match m s with Ok a s1 => P a \/ exists b t1, m' t = Ok b t1 /\ R a b /\ like s1 t1 | _ => True end.

Definition never {A} : A -> Prop := fun _ => False.

(** [m] gives only results in [P]. *)
Definition only {A} (P : A -> Prop) (m : M kern A) : Prop := forall s, match m s with Ok a _ => P a | _ => True end.

Lemma only_ret {A} (P : A -> Prop) a : P a -> only P (mret a).
Proof. by intros H s. Qed.
Lemma only_bind {A B} (P : B -> Prop) (m : M kern A) (k : A -> M kern B) : (forall a, only P (k a)) -> only P (m ≫= k).
Proof. intros H s. unfold mbind, M_bind. destruct (m s) as [a s1| | | |]; try done. apply H. Qed.
Lemma sims_only {A B} (P : A -> Prop) (R : A -> B -> Prop) m m' : only P m -> sims P R m m'.
Proof. intros H s t _. specialize (H s). destruct (m s); try done. by left. Qed.

Lemma sims_bind {A B A' B'} (P : A -> Prop) (P' : A' -> Prop) (R : A -> B -> Prop) (Q : A' -> B' -> Prop) m m' k k' :
  sims P R m m' -> (forall a, P a -> only P' (k a)) -> (forall a b, R a b -> sims P' Q (k a) (k' b)) ->
  sims P' Q (m ≫= k) (m' ≫= k').
Proof.
  intros Hm Hp Hk s t L. specialize (Hm s t L). unfold mbind, M_bind. destruct (m s) as [a s1| | | |]; try done.
  destruct Hm as [Ha|(b & t1 & -> & HR & L1)].
  - specialize (Hp a Ha s1). destruct (k a s1); try done. by left.
  - exact (Hk a b HR s1 t1 L1).
Qed.

Lemma sims_then {A B A' B'} (P' : A' -> Prop) (R : A -> B -> Prop) (Q : A' -> B' -> Prop) m m' k k' :
  sims never R m m' -> (forall a b, R a b -> sims P' Q (k a) (k' b)) -> sims P' Q (m ≫= k) (m' ≫= k').
Proof. intros Hm. by apply (sims_bind never). Qed.

Lemma sims_ret {A B} (P : A -> Prop) (R : A -> B -> Prop) a b : R a b -> sims P R (mret a) (mret b).
Proof. intros H s t L. right. by exists b, t. Qed.

(** The memory of the kernel is ignored on the left. *)
Lemma sims_kmem {A A' B} (P : A' -> Prop) (Q : A' -> B -> Prop) (m : M K A) (k : A -> M kern A') m' :
  (forall a, sims P Q (k a) m') -> sims P Q (kmem_op m ≫= k) m'.
Proof.
  intros H s t L. unfold mbind, M_bind, kmem_op, incore, inmem, lift. destruct (m _) as [a k1| | | |]; try done.
  apply H. destruct L as [L1 L2 L3]. split; done.
Qed.

(** What works on the file system alone, and on the files. *)
Lemma sims_fs {A} (m : M (fs J) A) : sims never eq (infs m) (infs m).
Proof.
  intros s t [L1 L2 L3]. unfold infs, lift. rewrite L1. destruct (m (kn_fs s)) as [a x| | | |]; try done.
  right. eexists a, _. split; [done|]. split; [done|]. split; done.
Qed.

Lemma sims_filedup f : sims never eq (filedup f) (filedup f).
Proof.
  intros s t [L1 L2 L3]. unfold filedup, getf, modf. munfold. rewrite L2. destruct (f_ref _ <? 1); [done|].
  right. eexists _, _. split; [done|]. split; [done|]. split; cbn; [done|by rewrite L2|done].
Qed.

(** What works on the table alone. *)
Lemma sims_table {A B} (R : A -> B -> Prop) (m : M ptable A) (m' : M ptable B) : tsims R m m' -> sims never R (pt m) (pt m').
Proof.
  intros H s t [L1 L2 L3]. specialize (H _ _ L3). unfold pt, incore, inpt, lift. destruct (m _) as [a x1| | | |]; try done.
  destruct H as (b & y1 & E & HR & Hy). cbn. rewrite E. right. eexists _, _. split; [done|]. split; [done|]. split; done.
Qed.

Lemma sims_myproc i : sims never (fun p q => strip q = strip p) (myproc i) (myproc i).
Proof. apply sims_table, tsims_getp. Qed.

Lemma sims_modp i f g : (forall p q, strip q = strip p -> strip (g q) = strip (f p)) -> sims never eq (pt (modp i f)) (pt (modp i g)).
Proof. intros H. by apply sims_table, tsims_modp. Qed.

Lemma sims_for a b (f g : Z -> M kern unit) : (forall i, sims never eq (f i) (g i)) -> sims never eq (for_ a b f) (for_ a b g).
Proof.
  intros H. unfold for_. generalize (Z.to_nat (b - a)) as n. intros n. revert a. induction n as [|n IH]; intros i; cbn [for_from]; [by apply sims_ret|].
  eapply sims_then; [apply H|]. intros _ _ _. apply IH.
Qed.

(** Through one store to the table. *)
Ltac sim_modp := eapply sims_then; [apply sims_modp; strip_field|intros _ _ _].

Context (trapret forkret_addr data : Z).

Lemma sims_alloc : sims (fun r => r = None) eq (allocproc trapret forkret_addr) alloc_process.
Proof.
  eapply sims_then; [apply sims_table, tsims_alloc_slot|]. intros [i|] _ <-; [|by apply sims_ret].
  apply sims_kmem. intros k. destruct (k =? 0).
  - apply sims_only, only_bind. intros _. by apply only_ret.
  - do 3 (apply sims_kmem; intros _). eapply sims_then; [apply sims_table, tsims_alloc_fields|]. intros _ _ _. by apply sims_ret.
Qed.

Lemma sims_dup_file me np i : sims never eq (dup_file me np i) (dup_file me np i).
Proof.
  unfold dup_file. eapply sims_then; [apply sims_myproc|]. intros p q E. destruct (strip_fields p q E) as (_ & _ & -> & _).
  destruct (p_ofile p !!! Z.to_nat i) as [f|]; [|by apply sims_ret].
  eapply sims_then; [apply sims_filedup|]. intros f' _ <-. apply sims_modp. strip_field.
Qed.

(** A store of an address of memory, on the left only. *)
Lemma sims_left {A B} (P : A -> Prop) (Q : A -> B -> Prop) i f (k : unit -> M kern A) m' :
  (forall p, strip (f p) = strip p) -> sims P Q (k tt) m' -> sims P Q (pt (modp i f) ≫= k) m'.
Proof.
  intros Hf H s t [L1 L2 L3]. apply H. split; [done..|]. cbn. rewrite L3. unfold strip_table. cbn. rewrite list_fmap_insert, Hf.
  unfold set_procs. cbn. f_equal. symmetry. apply list_insert_id'. intros Hi. rewrite length_fmap in Hi.
  rewrite list_lookup_fmap. unfold slot. by rewrite (list_lookup_lookup_total_lt _ _ Hi).
Qed.

Lemma sims_fork me : sims (fun r => r = -1) (fun r o => exists np, o = Some (np, r)) (fork trapret forkret_addr data me) (fork_process me).
Proof.
  unfold fork, fork_process. eapply sims_bind; [apply sims_alloc| |].
  { intros _ ->. by apply only_ret. }
  intros [np|] _ <-; [|by apply sims_only, only_ret].
  eapply sims_then; [apply sims_myproc|]. intros p p' E. destruct (strip_fields p p' E) as (-> & _ & _ & -> & -> & _).
  apply sims_kmem. intros pgdir. apply sims_left; [by intros []|]. destruct (pgdir =? 0).
  { apply sims_only. repeat (apply only_bind; intros ?). by apply only_ret. }
  do 2 sim_modp. eapply sims_then; [apply sims_myproc|]. intros q q' Eq. destruct (strip_fields q q' Eq) as (_ & -> & _).
  do 2 (apply sims_kmem; intros _). eapply sims_then; [apply sims_for; intros i; apply sims_dup_file|]. intros _ _ _.
  eapply (sims_then _ eq).
  { destruct (p_cwd p) as [d|]; [|by intros ? ?]. eapply sims_then; [apply sims_fs|]. intros d' _ <-. apply sims_modp. strip_field. }
  intros _ _ _. do 2 sim_modp. apply sims_ret. by exists np.
Qed.

(** [fork] of proc.c and of [Userland] do the same but for memory, unless proc.c
    runs out of it. *)
Theorem fork_process_ok me s t r s1 :
  like s t -> fork trapret forkret_addr data me s = Ok r s1 ->
  r = -1 \/ exists np t1, fork_process me t = Ok (Some (np, r)) t1 /\ like s1 t1.
Proof.
  intros L E. pose proof (sims_fork me s t L) as H. rewrite E in H.
  destruct H as [H|(o & t1 & E1 & (np & ->) & L1)]; [by left|]. right. by exists np, t1.
Qed.

Lemma wait_scan_strip me ps i h : wait_scan me (strip <$> ps) i h = wait_scan me ps i h.
Proof.
  revert i h. induction ps as [|p ps IH]; intros i h; [done|]. cbn.
  destruct (decide _); [destruct (decide _); [done|]|]; apply IH.
Qed.

Lemma strip_sleep c me ch x y : strip_table y = strip_table x ->
  match sleep c me ch x with
  | Ok _ x1 => exists y1, sleep c me ch y = Ok tt y1 /\ strip_table y1 = strip_table x1
  | Sleep _ _ => False
  | _ => True
  end.
Proof.
  intros E.
  assert (T : tsims eq (sleep c me ch) (sleep c me ch)).
  { unfold sleep, sched. do 2 (eapply tsims_bind; [apply tsims_modp; strip_field|intros _ _ _]).
    eapply tsims_bind; [apply tsims_getp|]. intros p q Hpq.
    destruct (strip_fields p q Hpq) as (_ & _ & _ & _ & _ & _ & ->).
    destruct (decide _); [by intros ? ?|]. eapply tsims_bind; [apply tsims_modp; strip_field|]. intros _ _ _ u v Euv. cbn.
    eexists _, _. split; [done|]. split; [done|]. destruct u, v. unfold strip_table in *. cbn in *. injection Euv as F1 F2 F3 F4 F5.
    subst. by rewrite F1. }
  assert (N : forall ch' x', sleep c me ch x <> Sleep ch' x').
  { intros ch' x'. unfold sleep, sched, modp, getp, reads. munfold. by destruct (decide _). }
  specialize (T x y E). destruct (sleep c me ch x) as [a x1| |ch' x'| |]; try done; [|by eapply N]. destruct T as ([] & y1 & -> & _ & H). by exists y1.
Qed.

(** [wait] likewise: it returns the same, or goes to sleep the same. *)
Theorem wait_process_ok c me s t :
  like s t ->
  match wait c me s with
  | Ok r s1 => exists t1, wait_process c me t = Ok r t1 /\ like s1 t1
  | Sleep ch s1 =>
      (exists i, wait_scan me (procs (co_pt (kn_core s))) 0 false = Zombie i) \/
      exists t1, wait_process c me t = Sleep ch t1 /\ like s1 t1
  | _ => True
  end.
Proof.
  intros L. pose proof L as [L1 L2 L3]. unfold wait, wait_process.
  set (sc := wait_scan me (procs (co_pt (kn_core s))) 0 false).
  assert (Es : wait_scan me (procs (co_pt (kn_core t))) 0 false = sc).
  { assert (Ep : strip <$> procs (co_pt (kn_core t)) = strip <$> procs (co_pt (kn_core s))) by exact (f_equal procs L3).
    rewrite <- (wait_scan_strip me (procs (co_pt (kn_core t)))), Ep. apply wait_scan_strip. }
  rewrite (bind_ok (pt (reads _)) _ s sc s) by (by destruct s as [[] ? ?]).
  rewrite (bind_ok (pt (reads _)) _ t sc t) by (rewrite <- Es; by destruct t as [[] ? ?]).
  destruct sc as [i|havekids].
  - match goal with |- match ?m s with _ => _ end => set (w := m) end.
    assert (H : sims never eq w (p ← myproc i; pt (modp i clear_slot);; mret (p_pid p))).
    { eapply sims_then; [apply sims_myproc|]. intros p q E. destruct (strip_fields p q E) as (_ & -> & _).
      do 2 (apply sims_kmem; intros _). sim_modp. by apply sims_ret. }
    specialize (H s t L). destruct (w s); try done; [|by left; eauto].
    destruct H as [[]|(r & t1 & E & <- & Lt)]. by exists t1.
  - rewrite !(bind_ok (myproc me) _ _ _ _ eq_refl).
    pose proof (strip_slot _ _ me L3) as Ep. destruct (strip_fields _ _ Ep) as (_ & _ & _ & _ & _ & Ek & _).
    cbn [co_pt kn_core] in *. unfold myproc, pt, incore, inpt, lift. cbn -[sleep negb wait_scan]. rewrite Ek.
    destruct (negb havekids || _); [eexists; split; [done|by split]|].
    pose proof (strip_sleep c me (ChanProc me) _ _ L3) as H. unfold mbind, M_bind. cbn -[sleep].
    destruct (sleep c me (ChanProc me) (co_pt (kn_core s))) as [a x1| | | |]; try done.
    destruct H as (y1 & -> & H). right. eexists. split; [done|]. by split.
Qed.

End like.
