(* ===== verification/Startup.v ===== *)
(** * Starting the processors (HW3/bootasm.S, entry.S, entryother.S, main.c)

    The way of a processor from real mode to the C code of the kernel,
    instruction by instruction.  Here the memory of the processor of [X86] is
    the physical one, and an access goes through the page directory once
    paging is on.  The boot processor gets from [bootasm.S] to [bootmain] and
    from [entry.S] to [main]; another processor gets from [entryother.S], with
    what [startothers] left for it below the code, to [mpenter]. *)

From stdpp Require Import base numbers list strings.
From Stdlib Require Import ZArith Lia.
From S2P Require Import Prelude Frames X86 Segments Entry.

Open Scope Z_scope.
#[local] Ltac Zify.zify_post_hook ::= Z.to_euclidean_division_equations.

(** ** The processor with its control registers *)

Definition CR0_PE : Z := 0x00000001.
Definition CR0_WP : Z := 0x00010000.
Definition CR0_PG : Z := 0x80000000.
Definition CR4_PSE : Z := 0x00000010.
Definition PTE_PS : Z := 0x080.

Record machine := MkMachine { core : x86; cr0 : Z; cr4 : Z }.

Definition set_core (c : x86) (s : machine) : machine := MkMachine c (cr0 s) (cr4 s).
Definition set_cr0 (v : Z) (s : machine) : machine := MkMachine (core s) v (cr4 s).
Definition set_cr4 (v : Z) (s : machine) : machine := MkMachine (core s) (cr0 s) v.

Definition on {A} (m : M x86 A) : M machine A := lift core set_core m.

(** The physical address of a word of the supervisor at the linear address
    [a]: a page of 4 Mbytes where the entry of the directory says so. *)
Definition translate (s : machine) (write : bool) (a : Z) : option Z :=
  if has (cr0 s) CR0_PG then
    let ok e := has e PTE_P && (negb write || negb (has (cr0 s) CR0_WP) || has e PTE_W) in
    let m := memory (core s) in
    let pde := load32 m (PTE_ADDR (cr3 (core s)) + 4 * PDX a) in
    if negb (ok pde) then None
    else if has pde PTE_PS && has (cr4 s) CR4_PSE then Some (pde / 2 ^ 22 * 2 ^ 22 + a mod 2 ^ 22)
    else
      let pte := load32 m (PTE_ADDR pde + 4 * PTX a) in
      if ok pte then Some (PTE_ADDR pte + a mod 4096) else None
  else Some a.

(** A word at an offset of a segment; one that lies in two pages is left out. *)
Definition at_phys {A} (write : bool) (r : sreg) (off : Z) (f : Z -> M machine A) : M machine A :=
  a ← on (lin r off);
  s ← get;
  if has (cr0 s) CR0_PG && (4092 <? a mod 4096) then undef "crosses a page" else
  match translate s write a with
  | Some p => f p
  | None => undef "#PF"
  end.

Definition ld (r : sreg) (off : Z) : M machine Z :=
  at_phys false r off (fun p => reads (fun s => load32 (memory (core s)) p)).
Definition st (r : sreg) (off v : Z) : M machine unit :=
  at_phys true r off (fun p => on (modify (fun c => set_memory (store32 (memory c) p v) c))).

(** ** Instructions *)

Definition cli : M machine unit := on (modify (fun c => set_eflags (Z.ldiff (eflags c) FL_IF) c)).

(** [xorw %ax,%ax] *)
Definition xorw_ax : M machine unit := on (movw_ax 0).

(** [movw %ax, %r]: in real mode the base is the selector times 16; in
    protected mode it comes from the table, here with paging off. *)
Definition mov_sreg (r : sreg) : M machine unit :=
  s ← get;
  if negb (has (cr0 s) CR0_PE) then
    let sel := eax (gpr (core s)) mod 2 ^ 16 in
    on (modify (fun c => set_sr (sset (sr c) r (MkSegment sel (16 * sel) 0xffff 0)) c))
  else if has (cr0 s) CR0_PG then undef "table behind paging"
  else on (movw_sreg r).

(** [lgdt] of 16-bit code takes 24 bits of the address. *)
Definition lgdt16 (a : Z) : M machine unit :=
  lim ← ld DS a;
  b ← ld DS (a + 2);
  on (modify (set_gdtr (b mod 2 ^ 24, lim mod 2 ^ 16))).

Definition mov_cr0_eax : M machine unit := s ← get; on (seti EAX (cr0 s)).
Definition mov_eax_cr0 : M machine unit := v ← on (geti EAX); modify (set_cr0 v).
Definition mov_cr4_eax : M machine unit := s ← get; on (seti EAX (cr4 s)).
Definition mov_eax_cr4 : M machine unit := v ← on (geti EAX); modify (set_cr4 v).
Definition mov_eax_cr3 : M machine unit := v ← on (geti EAX); on (modify (set_cr3 v)).
Definition orl_eax (n : Z) : M machine unit := v ← on (geti EAX); on (seti EAX (Z.lor v n)).

(** The far jump that completes the switch to protected mode. *)
Definition ljmp (sel off : Z) : M machine unit :=
  s ← get;
  match descriptor (core s) sel with
  | None => undef "#GP"
  | Some d =>
      if is_code d && negb (is_conforming d) && (d_dpl d =? 0) && (sel mod 4 =? 0) && (d_p d =? 1) then
        on (modify (fun c => set_eip off (set_sr (sset (sr c) CS (MkSegment sel (d_base d) (d_limit d) (d_dpl d))) c)))
      else undef "#GP"
  end.

(** A call of the routine at [f]; [here] is the address behind it. *)
Definition call_abs (here f : Z) : M machine unit :=
  sp ← on (geti ESP);
  st SS (u32 (sp - 4)) here;;
  on (seti ESP (u32 (sp - 4)));;
  on (modify (set_eip f)).

(** ** The bootstrap table *)

Definition SEG_NULLASM : list Z := [0; 0; 0; 0; 0; 0; 0; 0].

Definition word_bytes (v : Z) : list Z := [u8 v; u8 (Z.shiftr v 8)].
Definition long_bytes (v : Z) : list Z := [u8 v; u8 (Z.shiftr v 8); u8 (Z.shiftr v 16); u8 (Z.shiftr v 24)].

Definition SEG_ASM (type base lim : Z) : list Z :=
  word_bytes (Z.land (Z.shiftr lim 12) 0xffff) ++ word_bytes (Z.land base 0xffff) ++
  [Z.land (Z.shiftr base 16) 0xff; Z.lor 0x90 type; Z.lor 0xC0 (Z.land (Z.shiftr lim 28) 0xf); Z.land (Z.shiftr base 24) 0xff].

Definition gdt : list Z := SEG_NULLASM ++ SEG_ASM (Z.lor STA_X STA_R) 0 0xffffffff ++ SEG_ASM STA_W 0 0xffffffff.

(** The bytes of [gdt] and [gdtdesc], for the table at the address [g]; the
    label [gdtdesc] is the end of the table. *)
Definition gdt_image (g : Z) : list Z := gdt ++ word_bytes (24 - 1) ++ long_bytes g.

(** ** What bootasm.S and entryother.S share *)

Definition real_segments : M machine unit :=
  cli;;
  xorw_ax;;
  mov_sreg DS;;
  mov_sreg ES;;
  mov_sreg SS.

Definition protected_mode (gdtdesc start32 : Z) : M machine unit :=
  lgdt16 gdtdesc;;
  mov_cr0_eax;;
  orl_eax CR0_PE;;
  mov_eax_cr0;;
  ljmp (Z.shiftl SEG_KCODE 3) start32;;
  on (movw_ax (Z.shiftl SEG_KDATA 3));;
  mov_sreg DS;;
  mov_sreg ES;;
  mov_sreg SS;;
  on (movw_ax 0);;
  mov_sreg FS;;
  mov_sreg GS.

(** ** bootasm.S *)

(** The keyboard controller, which drives the address line A20: its status
    and its ports 0x64 and 0x60. *)
Class Gate (W : Type) := {
  status : W -> Z * W;
  send : Z -> Z -> W -> W;
  a20 : W -> bool;
  patience : nat
}.

(** It takes bytes when it is not busy, which it is for at most [patience]
    polls after one; the byte after the command 0xd1 goes to its output port,
    whose bit 1 is the line. *)
Class GateOk (W : Type) `{!Gate W} := {
  g_busy : nat -> option Z -> W -> Prop;
  g_free : option Z -> W -> Prop;
  g_poll k c w :
    g_busy k c w -> let '(r, w') := status w in
      is_byte r /\ a20 w' = a20 w /\
      ((has r 0x2 = false /\ g_free c w') \/ (has r 0x2 = true /\ exists k', k = S k' /\ g_busy k' c w'));
  g_command w v : g_free None w -> is_byte v -> g_busy patience (Some v) (send 0x64 v w) /\ a20 (send 0x64 v w) = a20 w;
  g_output w v : g_free (Some 0xd1) w -> is_byte v -> g_busy patience None (send 0x60 v w) /\ a20 (send 0x60 v w) = Z.testbit v 1
}.

Section bootasm.
Context {W : Type} `{!Gate W}.

Record board := MkBoard { mach : machine; kbc : W }.

Definition cpu_do {A} (m : M machine A) : M board A := lift mach (fun x s => MkBoard x (kbc s)) m.

Definition movb_al (v : Z) : M board unit :=
  cpu_do (on (a ← geti EAX; seti EAX (a / 2 ^ 8 * 2 ^ 8 + v))).
Definition inb_al : M board unit := fun s =>
  let '(r, w) := status (kbc s) in movb_al r (MkBoard (mach s) w).
Definition outb_al (port : Z) : M board unit :=
  v ← cpu_do (on (geti EAX));
  modify (fun s => MkBoard (mach s) (send port (v mod 2 ^ 8) (kbc s))).

(** [seta20.1] and [seta20.2]: poll until the controller is not busy. *)
Fixpoint seta20_wait (k : nat) : M board unit :=
  match k with
  | O => diverge
  | S k =>
      inb_al;;
      v ← cpu_do (on (geti EAX));
      if has (v mod 2 ^ 8) 0x2 then seta20_wait k else mret tt
  end.

Definition seta20 : M board unit :=
  seta20_wait (S patience);;
  movb_al 0xd1;;
  outb_al 0x64;;
  seta20_wait (S patience);;
  movb_al 0xdf;;
  outb_al 0x60.

Definition bootasm (start gdtdesc start32 bootmain back : Z) : M board unit :=
  cpu_do real_segments;;
  seta20;;
  cpu_do (protected_mode gdtdesc start32);;
  cpu_do (on (seti ESP start));;
  cpu_do (call_abs back bootmain).

End bootasm.
Arguments board : clear implicits.
Arguments MkBoard {W}.

(** ** entry.S *)

Definition paging_on (flags : Z) : M machine unit :=
  mov_cr0_eax;;
  orl_eax flags;;
  mov_eax_cr0.

Definition pse_on : M machine unit :=
  mov_cr4_eax;;
  orl_eax CR4_PSE;;
  mov_eax_cr4.

Definition entry (entrypgdir stack main : Z) : M machine unit :=
  pse_on;;
  on (seti EAX (v2p entrypgdir));;
  mov_eax_cr3;;
  paging_on (Z.lor CR0_PG CR0_WP);;
  on (seti ESP (u32 (stack + KSTACKSIZE)));;
  on (seti EAX main);;
  a ← on (geti EAX);
  on (modify (set_eip a)).

(** ** entryother.S; [back] is the address behind the call *)

Definition entryother (start gdtdesc start32 back : Z) : M machine unit :=
  real_segments;;
  protected_mode gdtdesc start32;;
  pse_on;;
  v ← ld DS (start - 12);
  on (seti EAX v);;
  mov_eax_cr3;;
  paging_on (Z.lor (Z.lor CR0_PE CR0_PG) CR0_WP);;
  sp ← ld DS (start - 4);
  on (seti ESP sp);;
  f ← ld DS (start - 8);
  call_abs back f.

(** ** main.c *)

(** The entries of the table [entrypgdir]. *)
Definition entrypgdir (i : Z) : Z :=
  if (i =? 0) || (i =? Z.shiftr KERNBASE PDXSHIFT) then Z.lor (Z.lor (Z.lor 0 PTE_P) PTE_W) PTE_PS else 0.

(** [startothers]: the image of entryother.S goes to 0x7000, once; the three
    words below it are for the next processor.  The kernel writes through its
    own mapping of physical memory, [p2v]. *)
Definition code : Z := p2v 0x7000.

Fixpoint copy_image (m : mem) (a : Z) (l : list Z) : mem :=
  match l with
  | [] => m
  | b :: l => copy_image (upd m a b) (a + 1) l
  end.

Definition tell_ap (m : mem) (stack mpenter pgdir : Z) : mem :=
  let m := store32 m (v2p (code - 4)) (u32 (stack + KSTACKSIZE)) in
  let m := store32 m (v2p (code - 8)) mpenter in
  store32 m (v2p (code - 12)) (v2p pgdir).

(** ** The bootstrap table, read back *)

Definition bytes_at (m : mem) (a : Z) (l : list Z) : Prop :=
  forall i b, l !! i = Some b -> m (a + Z.of_nat i) = b.

Lemma bytes_at_app m a l1 l2 :
  bytes_at m a (l1 ++ l2) <-> bytes_at m a l1 /\ bytes_at m (a + Z.of_nat (length l1)) l2.
Proof.
  split.
  - intros H. split; intros i b Hi.
    + apply H. by apply lookup_app_l_Some.
    + rewrite <- Z.add_assoc, <- Nat2Z.inj_add. apply H. rewrite lookup_app_r by lia. by rewrite Nat.add_comm, Nat.add_sub.
  - intros [H1 H2] i b [Hi|[Hl Hi]]%lookup_app_Some; [by apply H1|].
    apply H2 in Hi. rewrite <- Hi. f_equal. lia.
Qed.

Lemma bytes_load32 m a b0 b1 b2 b3 l :
  bytes_at m a (b0 :: b1 :: b2 :: b3 :: l) -> load32 m a = b0 + 256 * b1 + 65536 * b2 + 16777216 * b3.
Proof.
  intros H. unfold load32.
  pose proof (H 0%nat _ eq_refl) as H0. pose proof (H 1%nat _ eq_refl) as H1.
  pose proof (H 2%nat _ eq_refl) as H2. pose proof (H 3%nat _ eq_refl) as H3.
  change (Z.of_nat 1) with 1 in H1. change (Z.of_nat 2) with 2 in H2. change (Z.of_nat 3) with 3 in H3.
  rewrite Z.add_0_r in H0. rewrite H0, H1, H2, H3. reflexivity.
Qed.

(** The two descriptors are those of flat kernel segments. *)
Lemma gdt_descriptors m g :
  bytes_at m g gdt -> decode (load64 m (g + 8)) = kcode /\ decode (load64 m (g + 16)) = kdata.
Proof.
  intros H. unfold load64.
  assert (Hd : forall k a b0 b1 b2 b3 l, drop k gdt = b0 :: b1 :: b2 :: b3 :: l -> (k <= 24)%nat -> a = g + Z.of_nat k ->
    load32 m a = b0 + 256 * b1 + 65536 * b2 + 16777216 * b3).
  { intros k a b0 b1 b2 b3 l Hk Hle ->. rewrite <- (take_drop k gdt) in H. apply bytes_at_app in H as [_ H].
    rewrite length_take, Hk in H. change (length gdt) with 24%nat in H. rewrite Nat.min_l in H by lia.
    by apply bytes_load32 in H. }
  rewrite (Hd 8%nat (g + 8) _ _ _ _ _ eq_refl), (Hd 12%nat (g + 8 + 4) _ _ _ _ _ eq_refl) by lia.
  rewrite (Hd 16%nat (g + 16) _ _ _ _ _ eq_refl), (Hd 20%nat (g + 16 + 4) _ _ _ _ _ eq_refl) by lia.
  split; reflexivity.
Qed.

(** [lgdt] reads the limit and the address that [gdtdesc] holds. *)
Lemma gdtdesc_words m g :
  0 <= g < 2 ^ 24 -> bytes_at m g (gdt_image g) ->
  load32 m (g + 24) mod 2 ^ 16 = 23 /\ load32 m (g + 26) mod 2 ^ 24 = g.
Proof.
  intros Hg H. unfold gdt_image in H. apply bytes_at_app in H as [_ H].
  change (Z.of_nat (length gdt)) with 24 in H. pose proof H as H'. apply bytes_at_app in H' as [_ H'].
  change (Z.of_nat (length (word_bytes (24 - 1)))) with 2 in H'. replace (g + 24 + 2) with (g + 26) in H' by lia.
  rewrite (bytes_load32 _ _ _ _ _ _ _ H), (bytes_load32 _ _ _ _ _ _ _ H'), bytes4_value.
  pose proof (Z.mod_pos_bound g 256). unfold u32, u8. rewrite !Z.shiftr_div_pow2 by lia. split; lia.
Qed.

(** ** From real mode to protected mode *)

Definition real_segment (sel : Z) : segment := MkSegment sel (16 * sel) 0xffff 0.

(** The registers after [real_segments]. *)
Definition real_core (c : x86) : x86 :=
  set_sr (sset (sset (sset (sr c) DS (real_segment 0)) ES (real_segment 0)) SS (real_segment 0))
    (set_gpr (rset (gpr c) EAX (eax (gpr c) / 2 ^ 16 * 2 ^ 16)) (set_eflags (Z.ldiff (eflags c) FL_IF) c)).

Lemma ax_zero v : (v / 2 ^ 16 * 2 ^ 16 + 0) mod 2 ^ 16 = 0.
Proof. rewrite Z.add_0_r. apply Z.mod_mul. lia. Qed.

Lemma ax_low v n : 0 <= n < 2 ^ 16 -> (v / 2 ^ 16 * 2 ^ 16 + n) mod 2 ^ 16 = n.
Proof. intros H. rewrite Z.add_comm, Z.mod_add by lia. by apply Z.mod_small. Qed.

Lemma mov_sreg_real r s :
  has (cr0 s) CR0_PE = false -> eax (gpr (core s)) mod 2 ^ 16 = 0 ->
  mov_sreg r s = Ok tt (set_core (set_sr (sset (sr (core s)) r (real_segment 0)) (core s)) s).
Proof. intros H E. unfold mov_sreg. munfold. rewrite H. cbn [negb]. unfold on. munfold. by rewrite E. Qed.

Lemma real_core_ds c : ds (sr (real_core c)) = real_segment 0.
Proof. unfold real_core. cbn [sr set_sr]. by destruct (sr c). Qed.

Lemma real_segments_ok s :
  has (cr0 s) CR0_PE = false -> real_segments s = Ok tt (set_core (real_core (core s)) s).
Proof.
  intros H. destruct s as [c c0 c4]. destruct c as [[] [] ? ? ? ? ? ? ?]. unfold real_segments.
  erewrite bind_ok by reflexivity. erewrite bind_ok by reflexivity. cbn [rset gpr set_gpr set_eflags core set_core].
  do 2 (erewrite bind_ok by (rewrite mov_sreg_real; [reflexivity|exact H|apply ax_zero])).
  rewrite mov_sreg_real by (exact H || apply ax_zero). unfold real_core. cbn. by rewrite Z.add_0_r.
Qed.

(** An access that is mapped to [p]. *)
Lemma at_phys_ok {A} w r off p (f : Z -> M machine A) s :
  sg_base (sget (sr (core s)) r) = 0 -> off + 3 <= sg_limit (sget (sr (core s)) r) -> 0 <= off < 2 ^ 32 ->
  off mod 4 = 0 \/ has (cr0 s) CR0_PG = false -> translate s w off = Some p ->
  at_phys w r off f s = f p s.
Proof.
  intros Hb Hl Ho Ha Ht. unfold at_phys.
  assert (E : on (lin r off) s = Ok off s).
  { unfold on, lin. munfold. rewrite (proj2 (Z.leb_le _ _)) by exact Hl. rewrite Hb, Z.add_0_l, u32_small by lia. by destruct s. }
  rewrite (bind_ok _ _ _ _ _ E). unfold get. erewrite bind_ok by reflexivity.
  assert ((has (cr0 s) CR0_PG && (4092 <? off mod 4096)) = false) as ->.
  { destruct Ha as [Ha| ->]; [|done]. rewrite (proj2 (Z.ltb_ge _ _)) by lia. apply andb_false_r. }
  by rewrite Ht.
Qed.

Lemma ld_plain r off s :
  has (cr0 s) CR0_PG = false -> sg_base (sget (sr (core s)) r) = 0 -> off + 3 <= sg_limit (sget (sr (core s)) r) ->
  0 <= off < 2 ^ 32 -> ld r off s = Ok (load32 (memory (core s)) off) s.
Proof. intros Hp Hb Hl Ho. unfold ld. erewrite at_phys_ok; eauto. unfold translate. by rewrite Hp. Qed.

Definition in_gdt (g : Z) (c : x86) : Prop := gdtr c = (g, 23) /\ bytes_at (memory c) g gdt.

Lemma gdt_code g c : in_gdt g c -> descriptor c 8 = Some kcode.
Proof. intros [E H]. unfold descriptor. rewrite E. by rewrite <- (proj1 (gdt_descriptors _ _ H)). Qed.

Lemma gdt_data g c : in_gdt g c -> descriptor c 16 = Some kdata.
Proof. intros [E H]. unfold descriptor. rewrite E. by rewrite <- (proj2 (gdt_descriptors _ _ H)). Qed.

Lemma mov_sreg_protected g r sel sg s :
  has (cr0 s) CR0_PE = true -> has (cr0 s) CR0_PG = false -> in_gdt g (core s) -> cpl (core s) = 0 ->
  eax (gpr (core s)) mod 2 ^ 16 = sel -> (sel = 16 /\ sg = kdata_seg) \/ (sel = 0 /\ sg = null_segment 0) ->
  mov_sreg r s = Ok tt (set_core (set_sr (sset (sr (core s)) r sg) (core s)) s).
Proof.
  intros Hpe Hpg G Hc He Hs. unfold mov_sreg. unfold get. erewrite bind_ok by reflexivity. rewrite Hpe, Hpg. cbn [negb].
  unfold on, lift, movw_sreg, geti, reads. erewrite bind_ok by reflexivity. cbn [rget]. rewrite He.
  unfold load_sreg, get. erewrite bind_ok by reflexivity.
  destruct Hs as [[-> ->]|[-> ->]]; [|reflexivity]. rewrite (gdt_data _ _ G), Hc. reflexivity.
Qed.

Lemma ljmp_ok g off s :
  in_gdt g (core s) ->
  ljmp 8 off s = Ok tt (set_core (set_eip off (set_sr (sset (sr (core s)) CS kcode_seg) (core s))) s).
Proof. intros G. unfold ljmp, get. erewrite bind_ok by reflexivity. by rewrite (gdt_code _ _ G). Qed.

(** The processor after [protected_mode]. *)
Definition protected_core (g start32 c0 : Z) (c : x86) : x86 :=
  MkX86 (rset (gpr c) EAX (c0 / 2 ^ 16 * 2 ^ 16)) (MkSregs kcode_seg kdata_seg kdata_seg kdata_seg (null_segment 0) (null_segment 0))
    start32 (eflags c) (cr3 c) (g, 23) (idtr c) (tr c) (memory c).

Definition in_protected (g start32 : Z) (s : machine) : machine :=
  let c0 := Z.lor (cr0 s) CR0_PE in MkMachine (protected_core g start32 c0 (core s)) c0 (cr4 s).

Lemma has_lor_l a b m : has a m = true -> has (Z.lor a b) m = true.
Proof.
  unfold has. rewrite !negb_true_iff, !Z.eqb_neq, Z.land_comm. intros H E. apply H.
  rewrite (Z.land_comm _ m), Z.land_lor_distr_r in E. by apply Z.lor_eq_0_iff in E as [E _].
Qed.

Lemma has_lor_r a b m : has b m = true -> has (Z.lor a b) m = true.
Proof. rewrite Z.lor_comm. apply has_lor_l. Qed.

Lemma has_lor_other a b m : Z.land b m = 0 -> has (Z.lor a b) m = has a m.
Proof. intros H. unfold has. rewrite Z.land_lor_distr_l, H. by rewrite Z.lor_0_r. Qed.

Lemma protected_mode_ok g start32 s :
  has (cr0 s) CR0_PG = false -> ds (sr (core s)) = real_segment 0 ->
  0 <= g -> g + 30 <= 2 ^ 16 -> bytes_at (memory (core s)) g (gdt_image g) ->
  protected_mode (g + 24) start32 s = Ok tt (in_protected g start32 s).
Proof.
  intros Hpg Hds Hg Hl Hb. unfold protected_mode.
  destruct (gdtdesc_words (memory (core s)) g ltac:(lia) Hb) as [El Ea]. pose proof Hb as Hb'. unfold gdt_image in Hb'. apply bytes_at_app in Hb' as [Hgdt _].
  assert (E : lgdt16 (g + 24) s = Ok tt (set_core (set_gdtr (g, 23) (core s)) s)).
  { unfold lgdt16. replace (g + 24 + 2) with (g + 26) by lia.
    do 2 (erewrite bind_ok; [|apply ld_plain; cbn [sget]; rewrite ?Hds; cbn; lia || done]). by rewrite El, Ea. }
  rewrite (bind_ok _ _ _ _ _ E). clear E Hb El Ea. destruct s as [c c0 c4]. destruct c as [[] [] ? ? ? ? ? ? m].
  cbn [core memory cr0 set_core] in *. do 3 (erewrite bind_ok by reflexivity).
  set (c0' := Z.lor c0 CR0_PE).
  assert (Hpe' : has c0' CR0_PE = true) by (by apply has_lor_r).
  assert (Hpg' : has c0' CR0_PG = false) by (unfold c0'; by rewrite has_lor_other).
  erewrite bind_ok by (apply (ljmp_ok g); split; [reflexivity|exact Hgdt]).
  change (Z.shiftl SEG_KDATA 3) with 16. erewrite bind_ok by reflexivity. cbn -[Z.modulo Z.pow Z.div Z.lor].
  do 3 (erewrite bind_ok by (eapply (mov_sreg_protected g _ 16 kdata_seg); [exact Hpe'|exact Hpg'|by split|reflexivity|by apply ax_low|by left])).
  erewrite bind_ok by reflexivity. cbn -[Z.modulo Z.pow Z.div Z.lor].
  erewrite bind_ok by (eapply (mov_sreg_protected g _ 0 (null_segment 0)); [exact Hpe'|exact Hpg'|by split|reflexivity|by apply ax_low|by right]).
  erewrite (mov_sreg_protected g _ 0 (null_segment 0)); [|exact Hpe'|exact Hpg'|by split|reflexivity|by apply ax_low|by right].
  unfold in_protected, protected_core. cbn -[Z.modulo Z.pow Z.div Z.lor]. fold c0'. do 4 f_equal.
  rewrite Z.add_0_r. do 2 f_equal. rewrite Z.div_add_l by lia. by rewrite Z.add_0_r.
Qed.

(** ** The mapping of [entrypgdir] *)

(** The table is in physical memory, where the linker put it. *)
Record pgdir_loaded (m : mem) (pgdir : Z) : Prop := {
  pl_page : pgdir mod 4096 = 0;
  pl_low : KERNBASE + EXTMEM <= pgdir /\ pgdir + 4096 <= KERNBASE + 2 ^ 22;
  pl_entries : forall i, 0 <= i < NPDENTRIES -> load32 m (v2p pgdir + 4 * i) = entrypgdir i
}.

(** The first 4 Mbytes of physical memory are where they were and at
    [KERNBASE], and nothing else is mapped. *)
Definition entry_mapping (s : machine) : Prop :=
  forall w a, word a ->
    translate s w a = if (a <? 2 ^ 22) || ((KERNBASE <=? a) && (a <? KERNBASE + 2 ^ 22)) then Some (a mod 2 ^ 22) else None.

Lemma v2p_kernel a : KERNBASE <= a < 2 ^ 32 -> v2p a = a - KERNBASE.
Proof. intros H. unfold v2p. apply u32_small. unfold KERNBASE in *. lia. Qed.

Lemma entrypgdir_maps s pgdir :
  has (cr0 s) CR0_PG = true -> has (cr4 s) CR4_PSE = true -> cr3 (core s) = v2p pgdir ->
  pgdir_loaded (memory (core s)) pgdir -> entry_mapping s.
Proof.
  intros Hg Hp H3 [Ha Hl He] w a Hw. unfold word in Hw. unfold translate. rewrite Hg, Hp, H3.
  assert (PTE_ADDR (v2p pgdir) = v2p pgdir) as ->.
  { rewrite PTE_ADDR_eq, v2p_kernel by (unfold KERNBASE, EXTMEM in *; lia). unfold KERNBASE in *. lia. }
  rewrite He by (rewrite PDX_eq by lia; unfold NPDENTRIES; lia). rewrite PDX_eq by lia. unfold entrypgdir.
  change (Z.shiftr KERNBASE PDXSHIFT) with 512. change (Z.lor (Z.lor (Z.lor 0 PTE_P) PTE_W) PTE_PS) with 131.
  assert (((a / 4096 / 1024 =? 0) || (a / 4096 / 1024 =? 512)) = ((a <? 2 ^ 22) || ((KERNBASE <=? a) && (a <? KERNBASE + 2 ^ 22)))) as ->.
  { unfold KERNBASE. apply Bool.eq_iff_eq_true. rewrite !orb_true_iff, andb_true_iff, !Z.eqb_eq, !Z.ltb_lt, Z.leb_le. lia. }
  destruct (_ || _); [|reflexivity].
  change (has 131 PTE_P) with true. change (has 131 PTE_W) with true. change (has 131 PTE_PS) with true.
  rewrite orb_true_r. cbn [andb negb]. change (131 / 2 ^ 22 * 2 ^ 22) with 0. by rewrite Z.add_0_l.
Qed.

(** ** entry.S *)

Definition paged_cr0 (c0 : Z) : Z := Z.lor c0 (Z.lor CR0_PG CR0_WP).

Lemma pse_on_ok s :
  let v := Z.lor (cr4 s) CR4_PSE in
  pse_on s = Ok tt (MkMachine (set_gpr (rset (gpr (core s)) EAX v) (core s)) (cr0 s) v).
Proof. intros v. subst v. unfold pse_on. generalize CR4_PSE. destruct s as [[[] ? ? ? ? ? ? ? ?] ? ?]. intros p. reflexivity. Qed.

Lemma paging_on_ok f s :
  let v := Z.lor (cr0 s) f in
  paging_on f s = Ok tt (MkMachine (set_gpr (rset (gpr (core s)) EAX v) (core s)) v (cr4 s)).
Proof. intros v. subst v. destruct s as [[[] ? ? ? ? ? ? ? ?] ? ?]. reflexivity. Qed.

(** The page directory [p] goes to %cr3. *)
Lemma load_cr3_ok p s :
  (on (seti EAX p);; mov_eax_cr3) s = Ok tt (set_core (set_cr3 p (set_gpr (rset (gpr (core s)) EAX p) (core s))) s).
Proof. destruct s as [[[] ? ? ? ? ? ? ? ?] ? ?]. reflexivity. Qed.

Lemma mov_reg_ok r v s : on (seti r v) s = Ok tt (set_core (set_gpr (rset (gpr (core s)) r v) (core s)) s).
Proof. by destruct s. Qed.

Definition entered_main (pgdir stack main : Z) (s : machine) : machine :=
  MkMachine (set_eip main (set_gpr (rset (rset (gpr (core s)) ESP (stack + KSTACKSIZE)) EAX main) (set_cr3 (v2p pgdir) (core s))))
    (paged_cr0 (cr0 s)) (Z.lor (cr4 s) CR4_PSE).

Lemma entry_ok pgdir stack main s :
  KERNBASE <= stack -> stack + KSTACKSIZE < 2 ^ 32 -> entry pgdir stack main s = Ok tt (entered_main pgdir stack main s).
Proof.
  intros Hs Hl. unfold entry. rewrite u32_small by (unfold KERNBASE, KSTACKSIZE in *; lia).
  rewrite (bind_ok _ _ _ _ _ (pse_on_ok s)), <- bind_assoc, (bind_ok _ _ _ _ _ (load_cr3_ok _ _)).
  rewrite (bind_ok _ _ _ _ _ (paging_on_ok _ _)). do 2 rewrite (bind_ok _ _ _ _ _ (mov_reg_ok _ _ _)).
  unfold entered_main, paged_cr0. generalize (v2p pgdir) (stack + KSTACKSIZE) (Z.lor CR0_PG CR0_WP) CR4_PSE.
  by destruct s as [[[] ? ? ? ? ? ? ? ?] ? ?].
Qed.

(** the boot processor gets from [entry] to [main] with paging on: the stack
    pointer is at the top of [stack], the first 4 Mbytes are mapped low, where
    the instructions after the switch are, and high, where [main] is, and no
    memory has changed. *)
Theorem entry_reaches_main (pgdir stack main : Z) (s : machine) :
  pgdir_loaded (memory (core s)) pgdir -> KERNBASE <= stack -> stack + KSTACKSIZE < 2 ^ 32 ->
  exists s', entry pgdir stack main s = Ok tt s' /\
    eip (core s') = main /\ esp (gpr (core s')) = stack + KSTACKSIZE /\
    has (cr0 s') CR0_WP = true /\ entry_mapping s' /\
    memory (core s') = memory (core s) /\ sr (core s') = sr (core s).
Proof.
  intros Hp Hs Hl. exists (entered_main pgdir stack main s). split; [by apply entry_ok|].
  unfold entered_main. cbn [core cr0 eip set_eip gpr set_gpr memory sr set_cr3]. split; [done|].
  split; [by destruct (gpr (core s))|]. split; [by apply has_lor_r|]. split; [|done].
  apply (entrypgdir_maps _ pgdir); [by apply has_lor_r|by apply has_lor_r|done|exact Hp].
Qed.

(** ** entryother.S *)

Lemma copy_image_ne l : forall m a x, x < a \/ a + Z.of_nat (length l) <= x -> copy_image m a l x = m x.
Proof.
  induction l as [|b l IH]; intros m a x H; cbn [copy_image length] in *; [done|].
  rewrite IH by lia. unfold upd. by rewrite (proj2 (Z.eqb_neq x a)) by lia.
Qed.

Lemma copy_image_at l : forall m a, bytes_at (copy_image m a l) a l.
Proof.
  induction l as [|b l IH]; intros m a i c Hi; [done|]. cbn [copy_image]. destruct i as [|i].
  - injection Hi as ->. rewrite Z.add_0_r, copy_image_ne by lia. unfold upd. by rewrite Z.eqb_refl.
  - replace (a + Z.of_nat (S i)) with (a + 1 + Z.of_nat i) by lia. by apply IH.
Qed.

(** The memory a processor finds when it is started. *)
Definition ap_memory (m : mem) (image : list Z) (stack mpenter pgdir : Z) : mem :=
  tell_ap (copy_image m 0x7000 image) stack mpenter pgdir.

Lemma ap_memory_ne m image stack mpenter pgdir x :
  x < 0x6ff4 \/ 0x7000 + Z.of_nat (length image) <= x -> ap_memory m image stack mpenter pgdir x = m x.
Proof.
  intros H. unfold ap_memory, tell_ap. change (v2p (code - 4)) with 0x6ffc. change (v2p (code - 8)) with 0x6ff8.
  change (v2p (code - 12)) with 0x6ff4. rewrite !store32_ne by lia. apply copy_image_ne. lia.
Qed.

Lemma ap_memory_image m image stack mpenter pgdir : bytes_at (ap_memory m image stack mpenter pgdir) 0x7000 image.
Proof.
  intros i b Hi. unfold ap_memory, tell_ap. change (v2p (code - 4)) with 0x6ffc. change (v2p (code - 8)) with 0x6ff8.
  change (v2p (code - 12)) with 0x6ff4. rewrite !store32_ne by lia. by apply copy_image_at.
Qed.

Lemma ap_memory_words m image stack mpenter pgdir :
  let m' := ap_memory m image stack mpenter pgdir in
  load32 m' 0x6ffc = u32 (stack + KSTACKSIZE) /\ load32 m' 0x6ff8 = u32 mpenter /\ load32 m' 0x6ff4 = v2p pgdir.
Proof.
  unfold ap_memory, tell_ap. change (v2p (code - 4)) with 0x6ffc. change (v2p (code - 8)) with 0x6ff8.
  change (v2p (code - 12)) with 0x6ff4. split_and!.
  - rewrite !load32_store32_ne, load32_store32_eq by lia. unfold u32. apply Z.mod_mod. lia.
  - by rewrite load32_store32_ne, load32_store32_eq by lia.
  - rewrite load32_store32_eq. unfold v2p, u32. apply Z.mod_mod. lia.
Qed.

(** The image of entryother.S at 0x7000: the instructions, then the table and
    its descriptor. *)
Definition gdt_addr (text : list Z) : Z := 0x7000 + Z.of_nat (length text).
Definition other_image (text : list Z) : list Z := text ++ gdt_image (gdt_addr text).

(** The processor at the call of [mpenter]: flat segments, interrupts off,
    paging on. *)
Definition ap_cr0 (s : machine) : Z := Z.lor (Z.lor (cr0 s) CR0_PE) (Z.lor (Z.lor CR0_PE CR0_PG) CR0_WP).

Definition ap_ready (text : list Z) (stack pgdir start32 : Z) (s : machine) : machine :=
  let c := core s in
  MkMachine
    (MkX86 (rset (rset (gpr c) EAX (ap_cr0 s)) ESP (u32 (stack + KSTACKSIZE)))
      (MkSregs kcode_seg kdata_seg kdata_seg kdata_seg (null_segment 0) (null_segment 0))
      start32 (Z.ldiff (eflags c) FL_IF) (v2p pgdir) (gdt_addr text, 23) (idtr c) (tr c) (memory c))
    (ap_cr0 s) (Z.lor (cr4 s) CR4_PSE).

Lemma ld_mapped r off s :
  entry_mapping s -> flat (sget (sr (core s)) r) -> off mod 4 = 0 -> 0 <= off < 2 ^ 22 ->
  ld r off s = Ok (load32 (memory (core s)) off) s.
Proof.
  intros Hm [Hb Hl] Ha Ho. unfold ld. rewrite (at_phys_ok false r off off); [done|done|lia|lia|by left|].
  rewrite Hm by (unfold word; lia). rewrite (proj2 (Z.ltb_lt _ _)) by lia. cbn [orb]. by rewrite Z.mod_small by lia.
Qed.

Lemma length_gdt_image g : length (gdt_image g) = 30%nat.
Proof. done. Qed.

Lemma pgdir_loaded_ap m image stack mpenter pgdir :
  Z.of_nat (length image) <= 4096 -> pgdir_loaded m pgdir -> pgdir_loaded (ap_memory m image stack mpenter pgdir) pgdir.
Proof.
  intros Hi [Ha Hl He]. split; [done..|]. intros i Hr. rewrite <- He by done. apply load32_ext. intros x Hx.
  apply ap_memory_ne. revert Hx. rewrite v2p_kernel by (unfold KERNBASE, EXTMEM in *; lia). unfold KERNBASE, EXTMEM in *. lia.
Qed.

Lemma entryother_calls m text stack mpenter pgdir start32 back s :
  memory (core s) = ap_memory m (other_image text) stack mpenter pgdir ->
  has (cr0 s) CR0_PE = false -> has (cr0 s) CR0_PG = false ->
  Z.of_nat (length (other_image text)) <= 4096 -> pgdir_loaded m pgdir ->
  let s' := ap_ready text stack pgdir start32 s in
  entry_mapping s' /\
  entryother 0x7000 (gdt_addr text + 24) start32 back s = call_abs back (u32 mpenter) s'.
Proof.
  intros Hm Hpe Hpg Hl Hp s'.
  assert (Hlen : Z.of_nat (length text) + 30 <= 4096).
  { unfold other_image in Hl. rewrite length_app, length_gdt_image in Hl. lia. }
  destruct (ap_memory_words m (other_image text) stack mpenter pgdir) as (W4 & W8 & W12). cbn zeta in W4, W8, W12. rewrite <- Hm in W4, W8, W12.
  assert (Hg : bytes_at (memory (core s)) (gdt_addr text) (gdt_image (gdt_addr text))).
  { rewrite Hm. pose proof (ap_memory_image m (other_image text) stack mpenter pgdir) as H. by apply bytes_at_app in H as [_ H]. }
  apply (pgdir_loaded_ap _ _ stack mpenter _ Hl) in Hp. rewrite <- Hm in Hp. clear Hm Hl.
  assert (Hmap : forall x, entry_mapping (MkMachine (set_gpr x (core s')) (ap_cr0 s) (Z.lor (cr4 s) CR4_PSE))).
  { intros x. apply (entrypgdir_maps _ pgdir); [by apply has_lor_r|by apply has_lor_r|done|exact Hp]. }
  split; [exact (Hmap (gpr (core s')))|].
  unfold entryother. rewrite (bind_ok _ _ _ _ _ (real_segments_ok s Hpe)).
  erewrite bind_ok by (apply protected_mode_ok; [exact Hpg|apply real_core_ds|unfold gdt_addr; lia|unfold gdt_addr; lia|exact Hg]).
  rewrite (bind_ok _ _ _ _ _ (pse_on_ok _)).
  erewrite bind_ok.
  2: { apply ld_plain; [|reflexivity|cbn; lia|lia]. cbn [cr0 in_protected set_core]. by rewrite has_lor_other. }
  rewrite <- bind_assoc, (bind_ok _ _ _ _ _ (load_cr3_ok _ _)), (bind_ok _ _ _ _ _ (paging_on_ok _ _)).
  cbn [core memory set_gpr in_protected protected_core set_core real_core set_sr set_eflags cr0 cr4 gpr set_cr3 sr eip eflags cr3 gdtr idtr tr].
  change (0x7000 - 12) with 0x6ff4. rewrite W12.
  change (Z.lor (Z.lor (cr0 s) CR0_PE) (Z.lor (Z.lor CR0_PE CR0_PG) CR0_WP)) with (ap_cr0 s).
  assert (Hr : forall v w x y, rset (rset (rset (rset (rset (gpr (core s)) EAX v) EAX w) EAX x) EAX y) EAX (ap_cr0 s) = rset (gpr (core s)) EAX (ap_cr0 s))
    by (intros; by destruct (gpr (core s))).
  rewrite Hr. clear Hr. set (x := rset (gpr (core s)) EAX (ap_cr0 s)).
  match goal with |- _ ?t = _ => change t with (MkMachine (set_gpr x (core s')) (ap_cr0 s) (Z.lor (cr4 s) CR4_PSE)) end.
  erewrite bind_ok by (apply ld_mapped; [exact (Hmap x)|done|done|lia]).
  rewrite (bind_ok _ _ _ _ _ (mov_reg_ok _ _ _)).
  cbn [core memory set_gpr set_core gpr sr eip eflags cr3 gdtr idtr tr cr0 cr4].
  change (0x7000 - 4) with 0x6ffc. change (memory (core s')) with (memory (core s)). rewrite W4.
  erewrite bind_ok by (apply ld_mapped; [exact (Hmap (rset x ESP (u32 (stack + KSTACKSIZE))))|done|done|lia]).
  change (call_abs back (load32 (memory (core s)) 0x6ff8) s' = call_abs back (u32 mpenter) s'). by rewrite W8.
Qed.

Definition called (f sp here : Z) (s : machine) : machine :=
  let c := core s in
  set_core (set_eip f (set_gpr (rset (gpr c) ESP (sp - 4)) (set_memory (store32 (memory c) (sp - 4 - KERNBASE) here) c))) s.

(** A call with the stack in the mapped part of the kernel, and beyond it. *)
Lemma call_abs_ok here f sp s :
  entry_mapping s -> flat (ss (sr (core s))) -> esp (gpr (core s)) = sp -> sp mod 4 = 0 ->
  KERNBASE < sp <= KERNBASE + 2 ^ 22 -> call_abs here f s = Ok tt (called f sp here s).
Proof.
  intros Hm [Hb Hl] Hsp Ha Hr. unfold call_abs. erewrite bind_ok by reflexivity. cbn [rget].
  rewrite Hsp, u32_small by (unfold KERNBASE in *; lia).
  assert (Ht : translate s true (sp - 4) = Some (sp - 4 - KERNBASE)).
  { rewrite Hm by (unfold word, KERNBASE in *; lia).
    rewrite (proj2 (Z.leb_le KERNBASE _)), (proj2 (Z.ltb_lt (sp - 4) (KERNBASE + _))), orb_true_r by (unfold KERNBASE in *; lia).
    f_equal. unfold KERNBASE in *. lia. }
  assert (E : st SS (sp - 4) here (set_core (core s) s) = Ok tt (set_core (set_memory (store32 (memory (core s)) (sp - 4 - KERNBASE) here) (core s)) s)).
  { unfold st. destruct s. rewrite (at_phys_ok true SS (sp - 4) _ _ _ Hb ltac:(cbn [sget]; unfold KERNBASE in *; lia) ltac:(unfold KERNBASE in *; lia) ltac:(left; lia) Ht). done. }
  rewrite (bind_ok _ _ _ _ _ E), (bind_ok _ _ _ _ _ (mov_reg_ok _ _ _)). reflexivity.
Qed.

Lemma call_abs_fault here f sp s :
  entry_mapping s -> flat (ss (sr (core s))) -> esp (gpr (core s)) = sp -> sp mod 4 = 0 ->
  KERNBASE + 2 ^ 22 < sp < 2 ^ 32 -> call_abs here f s = Undef "#PF".
Proof.
  intros Hm [Hb Hl] Hsp Ha Hr. unfold call_abs. erewrite bind_ok by reflexivity. cbn [rget].
  rewrite Hsp, u32_small by (unfold KERNBASE in *; lia).
  assert (E : st SS (sp - 4) here (set_core (core s) s) = Undef "#PF"); [|unfold mbind, M_bind; by rewrite E].
  unfold st, at_phys. destruct s as [c c0 c4]. cbn [set_core core cr0 cr4] in *.
  assert (El : on (lin SS (sp - 4)) (MkMachine c c0 c4) = Ok (sp - 4) (MkMachine c c0 c4)).
  { unfold on, lift. cbn [core]. by rewrite lin_flat by (done || unfold KERNBASE in *; lia). }
  rewrite (bind_ok _ _ _ _ _ El). unfold get. erewrite bind_ok by reflexivity.
  rewrite (proj2 (Z.ltb_ge 4092 _)), andb_false_r by lia. rewrite Hm by (unfold word, KERNBASE in *; lia).
  rewrite (proj2 (Z.ltb_ge (sp - 4) (2 ^ 22))), (proj2 (Z.ltb_ge (sp - 4) (KERNBASE + _))), andb_false_r by (unfold KERNBASE in *; lia).
  reflexivity.
Qed.

Lemma pgdir_loaded_push m pgdir stack v :
  pgdir_loaded m pgdir -> stack mod 4096 = 0 -> KERNBASE <= stack < 2 ^ 32 -> stack <> pgdir ->
  pgdir_loaded (store32 m (stack + KSTACKSIZE - 4 - KERNBASE) v) pgdir.
Proof.
  intros [Ha Hl He] Hs Hr Hne. split; [done..|]. assert (pgdir + 4096 <= stack \/ stack + 4096 <= pgdir) as Hd by lia. intros i Hi. rewrite <- He by done. apply load32_store32_ne.
  rewrite v2p_kernel by (unfold KERNBASE, EXTMEM in *; lia). unfold NPDENTRIES, KSTACKSIZE in *. clear - Hd Hi Ha Hs. destruct Hd; lia.
Qed.

(** C40: another processor gets from real mode to [mpenter].  It finds the
    image of entryother.S at 0x7000 and the three words [startothers] wrote
    below it.  With its stack in the first 4 Mbytes it enters [mpenter] in
    protected mode with flat kernel segments, interrupts off and paging on,
    the first 4 Mbytes mapped low and at [KERNBASE] and nothing else; its
    stack holds the return address and no other memory has changed.  With a
    stack from the memory that [kinit2] adds it faults at the call, which is
    why that comes after [startothers]. *)
Theorem ap_reaches_mpenter (m : mem) (text : list Z) (stack mpenter pgdir start32 back : Z) (s : machine) :
  memory (core s) = ap_memory m (other_image text) stack mpenter pgdir ->
  has (cr0 s) CR0_PE = false -> has (cr0 s) CR0_PG = false ->
  Z.of_nat (length (other_image text)) <= 4096 -> pgdir_loaded m pgdir ->
  stack mod 4096 = 0 -> KERNBASE + EXTMEM <= stack < KERNBASE + PHYSTOP -> stack <> pgdir -> word mpenter -> word back ->
  let r := entryother 0x7000 (gdt_addr text + 24) start32 back s in
  (stack < KERNBASE + 2 ^ 22 -> exists s', r = Ok tt s' /\
    eip (core s') = mpenter /\ esp (gpr (core s')) = stack + KSTACKSIZE - 4 /\
    sr (core s') = MkSregs kcode_seg kdata_seg kdata_seg kdata_seg (null_segment 0) (null_segment 0) /\
    Z.testbit (eflags (core s')) 9 = false /\ has (cr0 s') CR0_WP = true /\ entry_mapping s' /\
    load32 (memory (core s')) (v2p (stack + KSTACKSIZE - 4)) = back /\
    forall x, x < v2p (stack + KSTACKSIZE - 4) \/ v2p (stack + KSTACKSIZE - 4) + 4 <= x -> memory (core s') x = memory (core s) x) /\
  (KERNBASE + 2 ^ 22 <= stack -> r = Undef "#PF").
Proof.
  intros Hm Hpe Hpg Hl Hp Ha Hr Hne Hf Hb r. subst r.
  destruct (entryother_calls m text stack mpenter pgdir start32 back s Hm Hpe Hpg Hl Hp) as [Hmap ->].
  assert (Hsp : esp (gpr (core (ap_ready text stack pgdir start32 s))) = stack + KSTACKSIZE).
  { unfold ap_ready. cbn [core gpr]. rewrite esp_rset. apply u32_small. unfold KERNBASE, EXTMEM, PHYSTOP, KSTACKSIZE in *. lia. }
  assert (Hss : flat (ss (sr (core (ap_ready text stack pgdir start32 s))))) by done.
  assert (Hv : v2p (stack + KSTACKSIZE - 4) = stack + KSTACKSIZE - 4 - KERNBASE).
  { apply v2p_kernel. unfold KERNBASE, EXTMEM, PHYSTOP, KSTACKSIZE in *. lia. }
  split; intros Hs.
  - exists (called (u32 mpenter) (stack + KSTACKSIZE) back (ap_ready text stack pgdir start32 s)).
    split; [apply call_abs_ok; auto; unfold KERNBASE, EXTMEM, KSTACKSIZE in *; lia|].
    rewrite (u32_small mpenter) by (exact Hf). unfold called, ap_ready.
    cbn [core cr0 eip set_eip gpr set_gpr memory sr set_core set_memory eflags].
    split; [done|]. split; [by rewrite esp_rset|]. split; [done|].
    split; [unfold FL_IF; rewrite Z.ldiff_spec; apply andb_false_r|]. split; [by apply has_lor_r|].
    split.
    { apply (entrypgdir_maps _ pgdir); [by apply has_lor_r|by apply has_lor_r|done|].
      cbn [core memory set_eip set_gpr set_memory]. apply pgdir_loaded_push; auto; [|unfold KERNBASE, EXTMEM, PHYSTOP in *; lia].
      rewrite Hm. by apply pgdir_loaded_ap. }
    rewrite Hv, load32_store32_eq. split; [by apply u32_small|]. intros x Hx. by apply store32_ne.
  - eapply call_abs_fault; [exact Hmap|exact Hss|exact Hsp|unfold KSTACKSIZE; lia|unfold KERNBASE, PHYSTOP, KSTACKSIZE in *; lia].
Qed.

(** A kernel whose table is at 0x8010a000. *)
Definition demo_phys (x : Z) : Z :=
  if (0x10a000 <=? x) && (x <? 0x10b000) && (x mod 4 =? 0) then entrypgdir ((x - 0x10a000) / 4) else 0.

Lemma demo_phys_loaded : pgdir_loaded demo_phys 0x8010a000.
Proof.
  split; [done|done|]. intros i Hi. change (v2p 0x8010a000) with 0x10a000. unfold NPDENTRIES in Hi. unfold load32, demo_phys.
  rewrite (proj2 (Z.eqb_eq ((0x10a000 + 4 * i) mod 4) 0)) by lia.
  rewrite (proj2 (Z.eqb_neq ((0x10a000 + 4 * i + 1) mod 4) 0)), (proj2 (Z.eqb_neq ((0x10a000 + 4 * i + 2) mod 4) 0)),
    (proj2 (Z.eqb_neq ((0x10a000 + 4 * i + 3) mod 4) 0)), !andb_false_r by lia.
  rewrite (proj2 (Z.leb_le _ _)), (proj2 (Z.ltb_lt _ _)) by lia. cbn [andb].
  replace ((0x10a000 + 4 * i - 0x10a000) / 4) with i by lia. lia.
Qed.

Definition demo_reset (m : mem) : machine :=
  MkMachine (MkX86 (MkRegs 0 0 0 0 0 0 0 0) (MkSregs (real_segment 0x700) (real_segment 0) (real_segment 0) (real_segment 0) (real_segment 0) (real_segment 0))
    0 0x202 0 (0, 0) (0, 0x3ff) (null_segment 0) m) 0x60000010 0.

Definition demo_text : list Z := replicate 100 0x90.

Lemma ap_reaches_mpenter_witness :
  exists s', entryother 0x7000 (gdt_addr demo_text + 24) 0x7020 0x7060
      (demo_reset (ap_memory demo_phys (other_image demo_text) 0x803ff000 0x80102f00 0x8010a000)) = Ok tt s' /\
    eip (core s') = 0x80102f00 /\ esp (gpr (core s')) = 0x803ffffc /\ entry_mapping s'.
Proof.
  destruct (ap_reaches_mpenter demo_phys demo_text 0x803ff000 0x80102f00 0x8010a000 0x7020 0x7060
    (demo_reset (ap_memory demo_phys (other_image demo_text) 0x803ff000 0x80102f00 0x8010a000))) as [H _].
  - reflexivity.
  - reflexivity.
  - reflexivity.
  - vm_compute. discriminate.
  - exact demo_phys_loaded.
  - reflexivity.
  - vm_compute. split; congruence.
  - discriminate.
  - unfold word. lia.
  - unfold word. lia.
  - destruct H as (s' & E & H1 & H2 & _ & _ & _ & H3 & _); [reflexivity|]. exists s'. by split_and!.
Defined.

(** ** bootasm.S *)

Definition with_eax (v : Z) (x : machine) : machine := set_core (set_gpr (rset (gpr (core x)) EAX v) (core x)) x.

Lemma with_eax_twice v w x : with_eax v (with_eax w x) = with_eax v x.
Proof. by destruct x as [[[] ? ? ? ? ? ? ? ?] ? ?]. Qed.

Lemma with_eax_get v x : eax (gpr (core (with_eax v x))) = v.
Proof. by destruct x as [[[] ? ? ? ? ? ? ? ?] ? ?]. Qed.

Lemma call_abs_plain here f sp s :
  has (cr0 s) CR0_PG = false -> flat (ss (sr (core s))) -> esp (gpr (core s)) = sp -> 4 <= sp < 2 ^ 32 ->
  call_abs here f s =
    Ok tt (set_core (set_eip f (set_gpr (rset (gpr (core s)) ESP (sp - 4)) (set_memory (store32 (memory (core s)) (sp - 4) here) (core s)))) s).
Proof.
  intros Hp [Hb Hl] Hsp Hr. unfold call_abs. erewrite bind_ok by reflexivity. cbn [rget].
  rewrite Hsp, u32_small by lia.
  assert (E : st SS (sp - 4) here (set_core (core s) s) = Ok tt (set_core (set_memory (store32 (memory (core s)) (sp - 4) here) (core s)) s)).
  { unfold st. destruct s. erewrite (at_phys_ok true SS (sp - 4) (sp - 4)); [done|exact Hb|cbn [sget set_core core] in *; lia|lia|by right|].
    unfold translate. cbn [cr0 set_core] in *. by rewrite Hp. }
  rewrite (bind_ok _ _ _ _ _ E), (bind_ok _ _ _ _ _ (mov_reg_ok _ _ _)). reflexivity.
Qed.

Section a20.
Context {W : Type} `{!Gate W, !GateOk W}.

Lemma movb_al_ok v (s : board W) :
  is_byte v -> exists a, a mod 2 ^ 8 = v /\ movb_al v s = Ok tt (MkBoard (with_eax a (mach s)) (kbc s)).
Proof.
  intros Hv. exists (eax (gpr (core (mach s))) / 2 ^ 8 * 2 ^ 8 + v). unfold is_byte in Hv.
  split; [rewrite Z.add_comm, Z.mod_add by lia; by apply Z.mod_small|]. reflexivity.
Qed.

Lemma geti_al (s : board W) : cpu_do (on (geti EAX)) s = Ok (eax (gpr (core (mach s)))) s.
Proof. by destruct s as [[] ?]. Qed.

Lemma seta20_poll (s : board W) r w :
  status (kbc s) = (r, w) -> is_byte r ->
  exists a, forall k, seta20_wait (S k) s =
    let s' := MkBoard (with_eax a (mach s)) w in if has r 0x2 then seta20_wait k s' else Ok tt s'.
Proof.
  intros Es Hr. destruct (movb_al_ok r (MkBoard (mach s) w) Hr) as (a & Hm & E). exists a. intros k. cbn [seta20_wait].
  assert (E' : inb_al s = Ok tt (MkBoard (with_eax a (mach s)) w)) by (unfold inb_al; by rewrite Es).
  rewrite (bind_ok _ _ _ _ _ E'), (bind_ok _ _ _ _ _ (geti_al _)). cbn [mach]. rewrite with_eax_get, Hm. by destruct (has r 2).
Qed.

(** The loops leave when the controller is free, within its patience. *)
Lemma seta20_wait_ok k : forall c (s : board W),
  g_busy k c (kbc s) ->
  exists a w, seta20_wait (S k) s = Ok tt (MkBoard (with_eax a (mach s)) w) /\ g_free c w /\ a20 w = a20 (kbc s).
Proof.
  induction k as [|k IH]; intros c s H; pose proof (g_poll _ _ _ H) as Hp;
    destruct (status (kbc s)) as [r w] eqn:Es; destruct Hp as (Hr & Ha & Hp);
    destruct (seta20_poll s r w Es Hr) as (a & E); rewrite E; cbn zeta.
  - destruct Hp as [[-> Hf]|(_ & k' & ? & _)]; [|done]. by exists a, w.
  - destruct Hp as [[-> Hf]|(-> & k' & [= <-] & Hb)]; [by exists a, w|].
    destruct (IH c (MkBoard (with_eax a (mach s)) w) Hb) as (a' & w' & E' & Hf & Ha').
    exists a', w'. rewrite E'. cbn [mach kbc] in *. rewrite with_eax_twice. split_and!; congruence.
Qed.

Lemma out_byte v port (s : board W) :
  is_byte v -> exists a, (movb_al v;; outb_al port) s = Ok tt (MkBoard (with_eax a (mach s)) (send port v (kbc s))).
Proof.
  intros Hv. destruct (movb_al_ok v s Hv) as (a & Hm & E). exists a. rewrite (bind_ok _ _ _ _ _ E). unfold outb_al.
  rewrite (bind_ok _ _ _ _ _ (geti_al _)). cbn [mach]. by rewrite with_eax_get, Hm.
Qed.

Lemma seta20_ok (s : board W) :
  g_busy patience None (kbc s) ->
  exists a w, seta20 s = Ok tt (MkBoard (with_eax a (mach s)) w) /\ a20 w = true.
Proof.
  intros H. destruct (seta20_wait_ok _ _ _ H) as (a1 & w1 & E1 & F1 & _). unfold seta20. rewrite (bind_ok _ _ _ _ _ E1).
  destruct (out_byte 0xd1 0x64 (MkBoard (with_eax a1 (mach s)) w1) ltac:(done)) as (a2 & E2).
  rewrite <- bind_assoc, (bind_ok _ _ _ _ _ E2). cbn [mach kbc]. rewrite with_eax_twice.
  destruct (g_command w1 0xd1 F1 ltac:(done)) as [B2 _].
  destruct (seta20_wait_ok _ _ (MkBoard (with_eax a2 (mach s)) (send 0x64 0xd1 w1)) B2) as (a3 & w3 & E3 & F3 & _).
  rewrite (bind_ok _ _ _ _ _ E3). cbn [mach]. rewrite with_eax_twice.
  destruct (out_byte 0xdf 0x60 (MkBoard (with_eax a3 (mach s)) w3) ltac:(done)) as (a4 & E4). rewrite E4. cbn [mach kbc].
  rewrite with_eax_twice. exists a4, (send 0x60 0xdf w3). split; [done|]. by destruct (g_output w3 0xdf F3 ltac:(done)) as [_ ->].
Qed.
Lemma cpu_do_ok {A} (m : M machine A) (s : board W) v x :
  m (mach s) = Ok v x -> cpu_do m s = Ok v (MkBoard x (kbc s)).
Proof. intros E. unfold cpu_do, lift. by rewrite E. Qed.

(** the boot processor gets from real mode to [bootmain].  From whatever the
    BIOS left in the registers, with the loader's table in the low 64 Kbytes
    and a controller that may be busy, [start] opens the address line A20 and
    calls [bootmain] in protected mode with flat segments, interrupts and
    paging off and the stack growing down from [start]. *)
Theorem boot_reaches_bootmain (start g start32 bootmain back : Z) (s : board W) :
  has (cr0 (mach s)) CR0_PE = false -> has (cr0 (mach s)) CR0_PG = false ->
  0 <= g -> g + 30 <= 2 ^ 16 -> bytes_at (memory (core (mach s))) g (gdt_image g) ->
  4 <= start < 2 ^ 32 -> word back -> g_busy patience None (kbc s) ->
  exists s', bootasm start (g + 24) start32 bootmain back s = Ok tt s' /\
    a20 (kbc s') = true /\ eip (core (mach s')) = bootmain /\ esp (gpr (core (mach s'))) = start - 4 /\
    sr (core (mach s')) = MkSregs kcode_seg kdata_seg kdata_seg kdata_seg (null_segment 0) (null_segment 0) /\
    has (cr0 (mach s')) CR0_PE = true /\ has (cr0 (mach s')) CR0_PG = false /\ Z.testbit (eflags (core (mach s'))) 9 = false /\
    load32 (memory (core (mach s'))) (start - 4) = back /\
    forall x, x < start - 4 \/ start <= x -> memory (core (mach s')) x = memory (core (mach s)) x.
Proof.
  intros Hpe Hpg Hg Hl Hb Hs Hback Hk. unfold bootasm.
  rewrite (bind_ok _ _ _ _ _ (cpu_do_ok _ _ _ _ (real_segments_ok _ Hpe))).
  destruct (seta20_ok (MkBoard (set_core (real_core (core (mach s))) (mach s)) (kbc s)) Hk) as (a & w & E & Ha).
  rewrite (bind_ok _ _ _ _ _ E). cbn [mach].
  set (x := with_eax a _). assert (Hx : protected_mode (g + 24) start32 x = Ok tt (in_protected g start32 x)).
  { apply protected_mode_ok; [exact Hpg|apply real_core_ds|done|done|exact Hb]. }
  rewrite (bind_ok _ _ _ _ _ (cpu_do_ok _ (MkBoard x w) _ _ Hx)).
  rewrite (bind_ok _ _ _ _ _ (cpu_do_ok _ _ _ _ (mov_reg_ok _ _ _))).
  assert (Hpg' : has (Z.lor (cr0 (mach s)) CR0_PE) CR0_PG = false) by (by rewrite has_lor_other).
  erewrite cpu_do_ok by (apply (call_abs_plain back bootmain start); [exact Hpg'|done|apply esp_rset|exact Hs]).
  eexists. split; [reflexivity|]. cbn [mach kbc core set_core set_eip set_gpr set_memory eip gpr sr memory eflags cr0 in_protected protected_core].
  split; [done|]. split; [done|]. split; [apply esp_rset|]. split; [done|]. split; [by apply has_lor_r|]. split; [exact Hpg'|].
  split; [unfold x, with_eax, real_core, FL_IF; cbn [core set_core set_gpr eflags set_sr set_eflags]; rewrite Z.ldiff_spec; apply andb_false_r|].
  rewrite load32_store32_eq. split; [by apply u32_small|]. intros y Hy. rewrite store32_ne by lia. done.
Qed.
End a20.

(** A controller that is busy for the polls [fst] says; then the command it
    has and its output port. *)
Module Kbc.
#[export] Instance kbc_gate : Gate (nat * option Z * Z) := {
  status w := match w with
    | (S k, c, p) => (0x1e, (k, c, p))
    | (O, c, p) => (0x1c, (O, c, p))
    end;
  send port v w :=
    let '(_, c, p) := w in
    if port =? 0x64 then (3%nat, Some v, p)
    else match c with Some 0xd1 => (3%nat, None, v) | _ => (3%nat, None, p) end;
  a20 w := Z.testbit w.2 1;
  patience := 3
}.

#[export] Instance kbc_gate_ok : GateOk (nat * option Z * Z).
Proof.
  refine {| g_busy k c w := (w.1.1 <= k)%nat /\ w.1.2 = c; g_free c w := w.1.2 = c |}.
  - intros k c [[[|j] c'] p] [Hk <-]; cbn in *; split_and!; try done; [by left|].
    right. split; [done|]. exists (pred k). split; [lia|]. split; [lia|done].
  - by intros [[j c] p] v _ _.
  - intros [[j c] p] v H _. cbn in H. subst c. by cbn.
Defined.

Definition demo_boot : board (nat * option Z * Z) :=
  MkBoard (demo_reset (copy_image (fun _ => 0) 0x7c60 (gdt_image 0x7c60))) (2%nat, None, 0xdd).

Lemma boot_reaches_bootmain_witness :
  exists s', bootasm 0x7c00 (0x7c60 + 24) 0x7c31 0x7d3b 0x7c4d demo_boot = Ok tt s' /\
    a20 (kbc s') = true /\ eip (core (mach s')) = 0x7d3b /\ esp (gpr (core (mach s'))) = 0x7bfc.
Proof.
  destruct (boot_reaches_bootmain 0x7c00 0x7c60 0x7c31 0x7d3b 0x7c4d demo_boot) as (s' & E & H1 & H2 & H3 & _).
  - reflexivity.
  - reflexivity.
  - lia.
  - lia.
  - apply copy_image_at.
  - lia.
  - unfold word. lia.
  - split; [vm_compute; lia|reflexivity].
  - exists s'. by split_and!.
Defined.
End Kbc.
