(* ===== verification/Timer.v ===== *)
(** * The timer of a single processor (HW3/timer.c)

    [timerinit] programs counter 0 of the 8253 and lets its interrupt through
    the 8259A.  The ports of both are those of the board, [Pic.out]; the law
    of the counter is that of its data sheet. *)

From stdpp Require Import base numbers list strings.
From Stdlib Require Import ZArith Lia.
From S2P Require Import Prelude Trap Interrupts.

Open Scope Z_scope.
#[local] Ltac Zify.zify_post_hook ::= Z.to_euclidean_division_equations.

Import Pic.

Definition IO_TIMER1 : Z := 0x040.
Definition TIMER_FREQ : Z := 1193182.
Definition TIMER_DIV (x : Z) : Z := (TIMER_FREQ + x / 2) / x.
Definition TIMER_MODE : Z := IO_TIMER1 + 3.
Definition TIMER_SEL0 : Z := 0x00.
Definition TIMER_RATEGEN : Z := 0x04.
Definition TIMER_16BIT : Z := 0x30.

(** The mode and the count of counter 0. *)
Class Pit (W : Type) := { counter : W -> Z * Z }.

(** A control word that selects the counter with two bytes to follow, low byte
    first, sets its mode; a count of 0 stands for 65536.  The timer and the
    interrupt controllers do not share ports. *)
Class PitOk (W : Type) `{!Chips W, !Pit W} := {
  pit_load w v lo hi :
    Z.land v 0xF0 = 0x30 -> is_byte lo -> is_byte hi ->
    let n := lo + 256 * hi in
    counter (out 0x40 hi (out 0x40 lo (out 0x43 v w))) = (Z.land (Z.shiftr v 1) 0x7, if n =? 0 then 65536 else n);
  pit_apart w p v c : 0x40 <= p <= 0x43 -> chip c ->
    imr (out p v w) c = imr w c /\ base (out p v w) c = base w c /\ (idle w c -> idle (out p v w) c);
  pic_apart w c v : chip c -> counter (out (c + 1) v w) = counter w
}.

Section timer.
Context {W : Type} `{!Chips W}.

Definition timerinit : M (pic W) unit :=
  outb TIMER_MODE (Z.lor (Z.lor TIMER_SEL0 TIMER_RATEGEN) TIMER_16BIT);;
  outb IO_TIMER1 (TIMER_DIV 100 mod 256);;
  outb IO_TIMER1 (TIMER_DIV 100 / 256);;
  picenable IRQ_TIMER.

Context `{!ChipsOk W, !Pit W, !PitOk W}.

Lemma outb_timer p v (s : pic W) :
  0x40 <= p <= 0x43 -> set_up s -> masked s ->
  exists s', outb p v s = Ok tt s' /\ chips s' = out p (u8 v) (chips s) /\ irqmask s' = irqmask s /\ set_up s' /\ masked s'.
Proof.
  intros Hp [[I1 I2] [B1 B2]] (Hm & M1 & M2).
  destruct (pit_apart (chips s) p (u8 v) IO_PIC1 Hp chip1) as (E1 & F1 & G1).
  destruct (pit_apart (chips s) p (u8 v) IO_PIC2 Hp chip2) as (E2 & F2 & G2).
  eexists. split; [reflexivity|]. cbn [chips irqmask]. split; [done|]. split; [done|].
  split; [split; cbn [chips]; split; auto; congruence|]. split; [done|]. cbn [chips irqmask]. split; congruence.
Qed.

Lemma picenable_counter irq (s s' : pic W) : picenable irq s = Ok tt s' -> counter (chips s') = counter (chips s).
Proof. intros [= <-]. cbn [chips]. by rewrite !pic_apart by (apply chip1 || apply chip2). Qed.

(** the clock of a single processor ticks 100 times a second.  On a board
    whose interrupt controllers [picinit] has set up, [timerinit] makes
    counter 0 a rate generator whose count is the nearest to a hundredth of
    its frequency, and unmasks exactly the timer's interrupt besides those
    that were. *)
Theorem timerinit_ticks (s : pic W) :
  set_up s -> masked s ->
  exists s' n, timerinit s = Ok tt s' /\ counter (chips s') = (2, n) /\ Z.abs (100 * n - TIMER_FREQ) <= 50 /\
    set_up s' /\ masked s' /\ forall i, 0 <= i -> Z.testbit (irqmask s') i = Z.testbit (irqmask s) i && negb (i =? IRQ_TIMER).
Proof.
  intros U M. unfold timerinit.
  destruct (outb_timer TIMER_MODE (Z.lor (Z.lor TIMER_SEL0 TIMER_RATEGEN) TIMER_16BIT) s ltac:(done) U M) as (s1 & E1 & C1 & K1 & U1 & M1).
  destruct (outb_timer IO_TIMER1 (TIMER_DIV 100 mod 256) s1 ltac:(done) U1 M1) as (s2 & E2 & C2 & K2 & U2 & M2).
  destruct (outb_timer IO_TIMER1 (TIMER_DIV 100 / 256) s2 ltac:(done) U2 M2) as (s3 & E3 & C3 & K3 & U3 & M3).
  destruct (picenable_ok IRQ_TIMER s3 U3 ltac:(apply M3) ltac:(done)) as (s4 & E4 & U4 & M4 & K4).
  exists s4, 11932. rewrite (bind_ok _ _ _ _ _ E1), (bind_ok _ _ _ _ _ E2), (bind_ok _ _ _ _ _ E3).
  split; [done|]. split.
  { rewrite (picenable_counter _ _ _ E4), C3, C2, C1.
    exact (pit_load (chips s) 0x34 (TIMER_DIV 100 mod 256) (TIMER_DIV 100 / 256) eq_refl ltac:(done) ltac:(done)). }
  split; [done|]. split; [done|]. split; [done|]. intros i Hi. rewrite K4, K3, K2, K1, Z.land_spec, Z.lnot_spec by done.
  change (Z.shiftl 1 IRQ_TIMER) with (2 ^ 0). rewrite Z.pow2_bits_eqb by done. by rewrite Z.eqb_sym.
Qed.
End timer.

(** A board with the two 8259A and an 8253: its control word, the low byte it
    has been given, and its count. *)
Module Board.
Import Chips8259.

Record pit := MkPit { ctl : Z; low : option Z; count : Z }.

Definition pit_out (port v : Z) (p : pit) : pit :=
  if port =? 0x43 then MkPit v None (count p)
  else if port =? 0x40 then
    match low p with
    | None => MkPit (ctl p) (Some v) (count p)
    | Some lo => let n := lo + 256 * v in MkPit (ctl p) None (if n =? 0 then 65536 else n)
    end
  else p.

#[export] Instance board_chips : Chips ((Z -> state) * pit) := {
  out port v w := (out port v w.1, pit_out port v w.2);
  imr w c := imr w.1 c;
  base w c := base w.1 c;
  idle w c := idle w.1 c
}.
#[export] Instance board_pit : Pit ((Z -> state) * pit) := { counter w := (Z.land (Z.shiftr (ctl w.2) 1) 0x7, count w.2) }.

#[export] Instance board_chips_ok : ChipsOk ((Z -> state) * pit).
Proof.
  split.
  - intros w c v x Hc. exact (icw w.1 c v x Hc).
  - intros w c v Hc. exact (ocw1 w.1 c v Hc).
  - intros w c v Hc. exact (ocw3 w.1 c v Hc).
Qed.

#[export] Instance board_pit_ok : PitOk ((Z -> state) * pit).
Proof.
  split.
  - done.
  - intros w p v c Hp Hc. cbn. unfold chip, IO_PIC1, IO_PIC2 in Hc.
    by rewrite (proj2 (Z.eqb_neq p c)), (proj2 (Z.eqb_neq p (c + 1))) by lia.
  - intros w c v Hc. unfold chip, IO_PIC1, IO_PIC2 in Hc. cbn. unfold pit_out.
    by rewrite (proj2 (Z.eqb_neq (c + 1) 0x43)), (proj2 (Z.eqb_neq (c + 1) 0x40)) by lia.
Qed.

(** From power on: [picinit], then [timerinit]. *)
Example timer_runs :
  match (picinit;; timerinit) (MkPic initial_mask (power_on, MkPit 0 None 0)) with
  | Ok _ s => counter (chips s) = (2, 11932) /\ lets_through (chips s) IRQ_TIMER = true
  | _ => False
  end.
Proof. by vm_compute. Qed.
End Board.
